(* ===== verification/_CoqProject ===== *)
-Q . S2P
Prelude.v
Proc.v
RingBuffer.v
RtList.v
RingBlk.v
RingBlkSpec.v
Kservice.v
Bytes.v
Kmemory.v
Printf.v
Serial.v
App.v
Msh.v
Shell.v
Terminal.v
KernelDefs.v
Scheduler.v
Object.v
Timer.v
Thread.v
Clock.v
Ipc.v
Kstate.v
Sem.v
Callback.v
Mutex.v
Event.v
Mailbox.v
MsgQueue.v
Mem.v
MemPool.v
Memheap.v
MemheapInv.v
MemheapSpec.v
MemheapRealloc.v
DevIpc.v
Dynamic.v
DynPool.v
Kalloc.v
Workqueue.v
WorkqueueSpec.v
Idle.v
Device.v
DynDevice.v
SerialDev.v
Console.v
ShellIo.v
System.v
