(* ===== verification/Prelude.v ===== *)
(** * RT-Thread with the door application: a verification library

    The repository is RT-Thread 4.0.1 with a board support package for the STM32F4
    (bsp/stm32f4xx-HAL) and an application, a door lock that is operated over an NB-IoT
    module. This library models the kernel proper, src/*.c with the inline lists of
    include/rtservice.h, in the configuration the board builds with
    (bsp/stm32f4xx-HAL/rtconfig.h: one core, 32 priorities, 100 ticks per second, names
    of 8 bytes, no signals, no modules, no soft timers, a one-level timer list,
    assertions on, hooks unset), the device layer with the serial framework, the shell in
    msh mode, and the application.

    ** The program and its files

    - Prelude.v: machine integers, bit sets, the state-and-failure monad and total
      correctness ([wp]), loops, the automation the other files share.
    - Proc.v: routines that may wait in the middle, as processes, and total correctness of
      those that do not wait ([dwp]).
    - RingBuffer.v: components/drivers/src/ringbuffer.c, a byte ring with mirror bits.
      Abstraction: the byte sequence [contents].
    - RtList.v: the doubly linked lists of include/rtservice.h as pointer operations on a
      heap of nodes, refining sequences. The other files use the sequence view.
    - RingBlk.v, RingBlkSpec.v: components/drivers/src/ringblk_buf.c, a buffer of blocks that
      are allocated behind each other, on the singly linked lists of include/rtservice.h.
    - Kservice.v, Kmemory.v, Printf.v: src/kservice.c. The find-first-set table of the
      scheduler and the bounded string routines of object names; memory and string
      routines on a byte memory (Bytes.v), by words and by bytes as the code does; the
      formatted output down to [rt_kprintf].
    - Serial.v: components/drivers/serial/serial.c, the receive FIFO filled by interrupts
      or DMA, and the polled transfers. The hardware is a record of operations.
      SerialDev.v is the rest of that file: the driver below src/device.c, with opening
      and closing, both directions in all modes, control and the interrupt handler; what the
      heap answers is a parameter and may be [RT_NULL].
    - App.v: bsp/stm32f4xx-HAL/applications/main.c and mypackages/*.c. The state is the
      variables of the application, calls to the kernel and to devices are a trace.
    - Msh.v: components/finsh/msh.c, the command interpreter: splitting a line, finding and
      calling a command, completing a name. The line is an array the code writes into.
    - Shell.v: components/finsh/shell.c, the line editor with its history as a step function
      on the characters it receives, and the editor it refines.
    - Terminal.v: what a user sees. The terminal is a parameter, a class of operations with
      the laws of carriage return, backspace, erasure and printable characters; a terminal
      of 132 columns is an instance.
    - KernelDefs.v: the structures of include/rtdef.h and the kernel state [kst]: thread
      control blocks and lists, timers, object headers, IPC objects.
    - Scheduler.v: src/scheduler.c. Ready queues, priority bitmap, [rt_schedule], the
      scheduler lock, the stack overflow check.
    - Object.v: src/object.c, the object containers.
    - Timer.v: src/timer.c. The sorted timer list, start, stop, control and the check the
      tick interrupt runs, with the tick counter wrapping at 32 bits.
    - Thread.v: src/thread.c and the initial stack frame of libcpu/arm/cortex-m4/cpuport.c.
      It also holds the kernel invariant [kinv] that ties queues, states, timers and
      headers together.
    - Clock.v: src/clock.c, the tick interrupt.
    - Ipc.v: the waiting lists of src/ipc.c and what blocking and waking a thread does to
      the whole kernel state.
    - Kstate.v: the interface of a state that contains the kernel's, and the error number.
    - Sem.v, Mutex.v, Event.v, Mailbox.v, MsgQueue.v: the IPC objects of src/ipc.c.
    - Mem.v: src/mem.c, the heap allocator on its own bytes (headers are loaded from and
      stored to the memory the application also uses), guarded by a semaphore.
    - MemPool.v: src/mempool.c, blocks of one size on a free list inside the pool.
    - Memheap.v, MemheapInv.v, MemheapSpec.v, MemheapRealloc.v: src/memheap.c, heaps for any
      memory area: the code and the rings of headers in memory; the invariant and the
      sections under the lock; allocation, release and set-up for the user; change of
      size, and sessions of requests.
    - DevIpc.v: components/drivers/src/completion.c and dataqueue.c, the completions and
      queues of data blocks of device drivers.
    - Dynamic.v: the create and delete routines of src/object.c, src/ipc.c, src/thread.c
      and src/timer.c. Objects are named by the address [rt_malloc] returned; [dinv] ties
      the kernel state and the blocks of the heap together. DynPool.v does the same for
      memory pools, whose blocks are bytes of the heap; Kalloc.v models the aligned allocator
      of src/kservice.c.
    - Workqueue.v, WorkqueueSpec.v: components/drivers/src/workqueue.c, threads that run the
      functions other threads submit, at once or after a delay.
    - Idle.v: src/idle.c and src/irq.c, the reclamation of ended threads, the idle hooks,
      and the tick interrupt of drivers/board.c.
    - Device.v: src/device.c. A driver is a record of operations; what the theorems need
      of it are the classes [OpenLaws] and [CloseLaws], together [DriverLaws]. DynDevice.v: devices in dynamic memory.
    - Console.v: the console of src/kservice.c, from the format of [rt_kprintf] to the bytes on
      a serial line. ShellIo.v: the input of components/finsh/shell.c from a serial device, with
      the interleavings of shell, interrupt and the rest of the system.
    - Callback.v: the timeout functions of timers as programs of kernel calls, and the check
      of the timers and the clock tick with such functions.
    - System.v: threads that call the kernel, interrupted by clock ticks, as a step
      relation; the components' theorems composed.

    ** How code becomes definitions

    A routine of the kernel is a function [M S A := S -> option (A * S)]: [None] stands
    for a failed [RT_ASSERT] and for undefined behaviour (a pointer that names no live
    object, a list node linked twice, an access outside the heap). Theorems are stated
    with [wp], which asks for a result: they show that the routine returns and that no
    assertion fails. Stores into fields of limited width are truncated where the code
    stores ([u8], [u16], [u32], [i32]).

    A routine that can block is split where the code calls [rt_schedule] on behalf of a
    suspended caller: it returns [Blocked c], and the code behind the call is a
    definition of its own ([rt_sem_take_resume], [rt_mb_recv_resume], ...) that runs when
    the thread is scheduled again. Sections that run with interrupts disabled are atomic.
    Where a routine leaves the masked section in the middle of an update (message
    queues), each section is a definition and the interleavings are a step relation.
    Callbacks of timers are an argument of [rt_timer_check]; application callbacks are an
    argument of [rt_tick_increase]. Where theorems are about timeout functions these are
    programs of Callback.v: each kernel call that is possible in an interrupt, the next one
    depending on the results so far. The theorems hold for those that name existing
    objects, do not start the very timer whose timeout they handle, set periods of 1 to
    2^31 - 1 ticks, detach only their own timer and after stopping it, and reschedule after
    they resumed a thread ([prog_ok]). Cleanup functions of threads are an argument of the
    idle routine; its theorem needs them to leave the kernel state alone
    ([simple_cleanup]). A thread of the application is a start and the rounds
    of its loop.

    Loops whose end depends on the data take fuel and fail without it; the theorems show
    the fuel given is enough: the length of the list for waiting lists and message
    queues, the number of ended threads for the idle routine, the number of expirations
    for the timer check, the size of the heap for a
    walk over its blocks, the length of the strings for the string routines.

    ** What the theorems show

    - System: in every reachable state the invariants of scheduler, timers, objects and
      semaphores hold together and the running thread has the highest priority of the
      ready ones, unless a thread was resumed and no call has rescheduled since; no allowed
      call and no tick gets stuck; a thread that waits with a timeout is ready again before
      the timeout has passed, whatever the others do.
    - Scheduling: after [rt_schedule] a thread of the highest priority runs, threads of
      equal priority take turns, and the scheduler invariant is kept.
    - Timers: the list stays sorted across the wrap of the tick; a check fires the expired
      timers, in order, each unless a timeout function took it away, re-arms the periodic
      ones and leaves no expired one.
    - Threads: suspend, resume, sleep, exit and priority changes keep [kinv] and have
      the effect documented; the tick interrupt slices time and times out sleepers.
    - IPC: each operation of semaphores, mutexes (with priority inheritance), events,
      mailboxes and message queues on every branch, errors included, with the order in
      which waiters are queued and woken. Mailboxes refine bounded FIFO queues, events
      refine a reference function that serves waiters in turn, message queues refine a
      double-ended queue under every interleaving of their critical sections.
    - Memory: [rt_malloc] is first fit on the list of blocks, but for an exact fit at the end
      of the heap, which it refuses; it hands out memory that is aligned, large enough and disjoint from all other allocated memory; [rt_free]
      coalesces and inverts it; [rt_realloc] keeps contents; no header access leaves the
      heap. Memory pools hand out disjoint blocks and take them back;
      creating and deleting one leaves the heap as it was. Memory heaps stay
      well formed under every sequence of requests, never hand out memory twice, and keep
      the contents of what is in use.
    - Dynamic objects: a created object is in blocks of its own and nothing else changes;
      a creation that fails leaves no block allocated; a deletion wakes the waiters and
      gives exactly the object's memory back; the idle routine does so for all ended
      threads in one call, unless it meets a static one or a cleanup function that calls the
      kernel.
    - Services: copying by words equals copying by bytes, also for overlapping regions
      where the code promises it; the formatted output writes what fits and never
      outside its buffer, unless the text is so long that the output address wraps; printed numbers are read back.
    - Driver IPC: a completion is handed over to its waiter once; data queues refine bounded
      sequences as long as their indices have not wrapped.
    - Work queues: for works that are not delayed, all operations of users and queue threads
      refine operations on sequences and a set of marks, in every order; marks and lists
      agree as long as nobody uses critical works or cancels all works; a submission wakes the thread of an idle queue; announcing the end of
      a work terminates and wakes everybody who waits for it.
    - Devices: the reference counter refines the set of users of a device; the receive
      FIFO keeps the newest bytes in order, for interrupts and for DMA. Serial devices
      satisfy the laws of a driver, so a sequence of opens and closes fails an assertion only
      where the heap has no memory left; bytes go from the interrupt to the reader and from the writer to the controller
      once and in order; a session gives its memory back, but for one block. What is printed
      on a serial console by one caller after the other appears on the line in order, with a
      NUL behind a text that was cut, and no flag of the device changes.
    - Application: the connecting thread follows the AT dialogue for every sequence of plain
      replies it handles one by one; every sequence of lines of at most 97 characters
      switches the pin of the relay as its door commands ask, confirms each and answers
      questions for the state, as long as no other thread moves the relay meanwhile.
    - Shell: command lines are split into the words of a reference tokenizer; a session
      refines an editor of plain texts with history and completion, up to the 80th character
      of a line; on every terminal that is wide enough the user sees the line that is edited; no interleaving with the receive interrupt makes the
      shell sleep while a character waits, or reorders what was typed.
    - Data structures: linked lists and the ring buffer refine sequences; the blocks of a
      ring block buffer never overlap unless one of size zero is asked for, and are got in
      order; the bit search is correct for
      every 32-bit value.
    - Defects: some theorems show behaviour the code does not intend (a forced put that
      empties the ring buffer, a one-shot timer restarted by its callback that cannot be
      stopped, a mutex release that does not reschedule, a [rt_realloc] that hides memory
      from [rt_malloc], a memory pool that counts a timed-out waiter, octal output with
      hexadecimal digits, buffers of the application that overflow, a full command line
      without end, a completion lost to a timeout, a data queue that overwrites its blocks,
      two DMA writers of which one is sent twice, a [rt_memheap_realloc] that writes into its
      own header, ring block buffers that hand out blocks still in use, the cancellation of
      a delayed work that never returns, a work queue that sleeps although it has work,
      a device that can never be destroyed, a report of the door that is older than its
      state, sizes, counts and addresses that wrap).

    ** What is not modelled

    The context switch (assembler), the SMP variants, signals, modules, soft timers and
    the slab allocator (all compiled out), src/components.c, [rt_strdup], the version
    banner and the assertion handler of src/kservice.c, the POSIX interface of the
    serial framework and the system work queue (compiled out), the start of the shell
    thread, the commands of the shell (a parameter: functions on the line and the
    console), and the rest of the tree: other drivers, file systems, network, which are
    not in the configuration. The step relation of System.v has semaphores as its IPC
    objects; the other objects are treated one at a time, on the same kernel state and
    invariant. *)

From Stdlib Require Import ZArith Lia.
From stdpp Require Import base numbers list gmap sets option.

Declare Scope rt_scope.
Delimit Scope rt_scope with rt.

(** * Machine integers

    C integers are modelled by [Z] together with an explicit truncation at
    every store into a field or variable of limited width. *)

Definition wrap (w z : Z) : Z := (z mod 2 ^ w)%Z.

Abbreviation u8 := (wrap 8).
Abbreviation u16 := (wrap 16).
Abbreviation u32 := (wrap 32).

(** Two's-complement reading of the low [w] bits. *)
Definition swrap (w z : Z) : Z :=
  let r := wrap w z in
  if (r <? 2 ^ (w - 1))%Z then r else (r - 2 ^ w)%Z.

Abbreviation i8 := (swrap 8).
Abbreviation i16 := (swrap 16).
Abbreviation i32 := (swrap 32).

(** C's [!= 0] test on an integer. *)
Definition nz (z : Z) : bool := negb (z =? 0)%Z.

Lemma wrap_range w z : (0 ≤ w)%Z → (0 ≤ wrap w z < 2 ^ w)%Z.
Proof. intros. apply Z.mod_pos_bound. lia. Qed.

Lemma wrap_small w z : (0 ≤ z < 2 ^ w)%Z → wrap w z = z.
Proof. apply Z.mod_small. Qed.

Lemma wrap_idemp w z : (0 ≤ w)%Z → wrap w (wrap w z) = wrap w z.
Proof. intros. apply wrap_small, wrap_range; lia. Qed.

Lemma wrap_add_wrap_l w a b : wrap w (wrap w a + b) = wrap w (a + b).
Proof. apply Zplus_mod_idemp_l. Qed.

Lemma wrap_sub_wrap_l w a b : wrap w (wrap w a - b) = wrap w (a - b).
Proof. apply Zminus_mod_idemp_l. Qed.

Lemma wrap_sub_wrap_r w a b : wrap w (a - wrap w b) = wrap w (a - b).
Proof. apply Zminus_mod_idemp_r. Qed.

Lemma swrap_small w z :
  (0 < w)%Z → (- 2 ^ (w - 1) ≤ z < 2 ^ (w - 1))%Z → swrap w z = z.
Proof.
  intros Hw Hz. unfold swrap, wrap.
  assert (2 ^ w = 2 * 2 ^ (w - 1))%Z as E.
  { rewrite <- Z.pow_succ_r by lia. f_equal. lia. }
  destruct (Z_lt_dec z 0).
  - replace (z mod 2 ^ w)%Z with (z + 2 ^ w)%Z.
    + destruct (Z.ltb_spec (z + 2 ^ w) (2 ^ (w - 1))); lia.
    + rewrite <- (Z_mod_plus_full z 1), Z.mod_small; lia.
  - rewrite Z.mod_small by lia.
    destruct (Z.ltb_spec z (2 ^ (w - 1))); lia.
Qed.

Lemma wrap_swrap w z : (0 < w)%Z → wrap w (swrap w z) = wrap w z.
Proof.
  intros Hw. unfold swrap. destruct (_ <? _)%Z; [by apply wrap_idemp; lia|].
  unfold wrap. replace (z mod 2 ^ w - 2 ^ w)%Z with (z mod 2 ^ w + (-1) * 2 ^ w)%Z by lia.
  rewrite Z_mod_plus_full. apply Z.mod_mod. lia.
Qed.

(** Truncating twice keeps the narrower width. *)
Lemma wrap_narrow w w' z : (0 ≤ w ≤ w')%Z → wrap w (wrap w' z) = wrap w z.
Proof.
  intros Hw. unfold wrap. symmetry. apply Znumtheory.Zmod_div_mod; [lia|lia|].
  exists (2 ^ (w' - w))%Z. rewrite <- Z.pow_add_r by lia. f_equal. lia.
Qed.

Lemma wrap_swrap_narrow w w' z : (0 ≤ w ≤ w')%Z → (0 < w')%Z → wrap w (swrap w' z) = wrap w z.
Proof. intros Hw Hp. by rewrite <- (wrap_narrow w w' (swrap w' z)), wrap_swrap, wrap_narrow by lia. Qed.

Lemma swrap_ext w a b : wrap w a = wrap w b → swrap w a = swrap w b.
Proof. unfold swrap. by intros ->. Qed.

Lemma swrap_sub_swrap_l w a b : (0 < w)%Z → swrap w (swrap w a - b) = swrap w (a - b).
Proof.
  intros Hw. apply swrap_ext. by rewrite <- wrap_sub_wrap_l, wrap_swrap, wrap_sub_wrap_l by lia.
Qed.

Lemma nz_true z : nz z = true ↔ z ≠ 0%Z.
Proof. unfold nz. destruct (Z.eqb_spec z 0); naive_solver. Qed.

Lemma nz_false z : nz z = false ↔ z = 0%Z.
Proof. unfold nz. destruct (Z.eqb_spec z 0); naive_solver. Qed.

(** ** Bit sets *)

Local Open Scope Z_scope.

Lemma testbit_set_mask g p q :
  0 ≤ p → 0 ≤ q → Z.testbit (Z.lor g (2 ^ p)) q = Z.testbit g q || (q =? p).
Proof.
  intros Hp Hq. rewrite Z.lor_spec. f_equal.
  rewrite Z.pow2_bits_eqb by lia. apply Z.eqb_sym.
Qed.

Lemma testbit_clear_mask g p q :
  0 ≤ p → 0 ≤ q < 32 →
  Z.testbit (Z.land g (u32 (Z.lnot (2 ^ p)))) q = Z.testbit g q && negb (q =? p).
Proof.
  intros Hp Hq. rewrite Z.land_spec. f_equal. unfold wrap.
  rewrite Z.mod_pow2_bits_low, Z.lnot_spec, Z.pow2_bits_eqb by lia. f_equal. apply Z.eqb_sym.
Qed.

Lemma lor_range w a b : 0 ≤ a < 2 ^ w → 0 ≤ b < 2 ^ w → 0 ≤ w → 0 ≤ Z.lor a b < 2 ^ w.
Proof.
  intros Ha Hb Hw. replace (Z.lor a b) with (Z.lor a b mod 2 ^ w).
  - apply Z.mod_pos_bound. lia.
  - apply Z.bits_inj'. intros i Hi. destruct (Z_lt_dec i w).
    + by rewrite Z.mod_pow2_bits_low by lia.
    + rewrite Z.mod_pow2_bits_high, Z.lor_spec by lia.
      rewrite <- (Z.mod_small a (2 ^ w)), <- (Z.mod_small b (2 ^ w)) by lia.
      by rewrite !Z.mod_pow2_bits_high by lia.
Qed.

Lemma land_range w a b : 0 ≤ a < 2 ^ w → 0 ≤ w → 0 ≤ Z.land a b < 2 ^ w.
Proof.
  intros Ha Hw. replace (Z.land a b) with (Z.land a b mod 2 ^ w).
  - apply Z.mod_pos_bound. lia.
  - apply Z.bits_inj'. intros i Hi. destruct (Z_lt_dec i w).
    + by rewrite Z.mod_pow2_bits_low by lia.
    + rewrite Z.mod_pow2_bits_high, Z.land_spec by lia.
      rewrite <- (Z.mod_small a (2 ^ w)) by lia.
      by rewrite !Z.mod_pow2_bits_high by lia.
Qed.

Local Close Scope Z_scope.

(** Case analysis on the integer comparisons of the code. *)
Ltac zcases :=
  repeat match goal with
  | |- context [(?a <? ?b)%Z] => destruct (Z.ltb_spec a b)
  | |- context [(?a <=? ?b)%Z] => destruct (Z.leb_spec a b)
  | |- context [(?a =? ?b)%Z] => destruct (Z.eqb_spec a b)
  | H : context [(?a <? ?b)%Z] |- _ => destruct (Z.ltb_spec a b)
  | H : context [(?a <=? ?b)%Z] |- _ => destruct (Z.leb_spec a b)
  | H : context [(?a =? ?b)%Z] |- _ => destruct (Z.eqb_spec a b)
  end.

(** Closed integer inequalities by evaluation. *)
Ltac zeval :=
  repeat split;
  first [ apply Z.leb_le; vm_compute; reflexivity
        | apply Z.ltb_lt; vm_compute; reflexivity
        | vm_compute; reflexivity ].

(** * State-and-failure computations

    A kernel routine is a function from the kernel state to [None], when an
    [RT_ASSERT] fails or the C code would leave defined behaviour, or to a
    result together with the new state. *)

Definition M (S A : Type) : Type := S → option (A * S).

Section monad.
Context {S : Type}.

Definition ret {A} (a : A) : M S A := λ s, Some (a, s).
Definition bind {A B} (m : M S A) (f : A → M S B) : M S B := λ s,
  match m s with Some (a, s') => f a s' | None => None end.
Definition gets {A} (f : S → A) : M S A := λ s, Some (f s, s).
Definition modify (f : S → S) : M S unit := λ s, Some (tt, f s).
(** [RT_ASSERT]: a failed assertion spins for ever in [rt_assert_handler]. *)
Definition assert (b : bool) : M S unit := λ s, if b then Some (tt, s) else None.
Definition from_opt {A} (o : option A) : M S A := λ s,
  match o with Some a => Some (a, s) | None => None end.

(** [wp m Q s]: from [s] the computation [m] returns, and its result and final
    state satisfy [Q] (total correctness). *)
Definition wp {A} (m : M S A) (Q : A → S → Prop) (s : S) : Prop :=
  match m s with Some (a, s') => Q a s' | None => False end.

Lemma wp_ret {A} (a : A) Q s : Q a s → wp (ret a) Q s.
Proof. done. Qed.
Lemma wp_bind {A B} (m : M S A) (f : A → M S B) Q s :
  wp m (λ a, wp (f a) Q) s → wp (bind m f) Q s.
Proof. unfold wp, bind. by destruct (m s) as [[a s']|]. Qed.
Lemma wp_gets {A} (f : S → A) Q s : Q (f s) s → wp (gets f) Q s.
Proof. done. Qed.
Lemma wp_modify (f : S → S) Q s : Q tt (f s) → wp (modify f) Q s.
Proof. done. Qed.
Lemma wp_assert (b : bool) Q s : b = true → Q tt s → wp (assert b) Q s.
Proof. unfold wp, assert. by intros ->. Qed.
Lemma wp_from_opt {A} (o : option A) a Q s :
  o = Some a → Q a s → wp (from_opt o) Q s.
Proof. unfold wp, from_opt. by intros ->. Qed.
Lemma wp_mono {A} (m : M S A) (Q Q' : A → S → Prop) s :
  wp m Q s → (∀ a s', Q a s' → Q' a s') → wp m Q' s.
Proof. unfold wp. destruct (m s) as [[a s']|]; auto. Qed.
Lemma wp_run {A} (m : M S A) Q s :
  wp m Q s ↔ ∃ a s', m s = Some (a, s') ∧ Q a s'.
Proof.
  unfold wp. destruct (m s) as [[a s']|].
  - split; [eauto|]. by intros (? & ? & [= <- <-] & ?).
  - split; [done|]. by intros (? & ? & ? & ?).
Qed.

(** [wpf F m Q s]: the computation returns with [Q], or it does not return and [F] holds. *)
Definition wpf (F : Prop) {A} (m : M S A) (Q : A → S → Prop) (s : S) : Prop :=
  match m s with Some (a, s') => Q a s' | None => F end.

Lemma wpf_wp F {A} (m : M S A) Q s : wp m Q s → wpf F m Q s.
Proof. unfold wp, wpf. by destruct (m s) as [[a s']|]. Qed.
Lemma wpf_bind F {A B} (m : M S A) (f : A → M S B) Q s : wpf F m (λ a, wpf F (f a) Q) s → wpf F (bind m f) Q s.
Proof. unfold wpf, bind. by destruct (m s) as [[a s']|]. Qed.
Lemma wpf_seq F {A B} (m : M S A) (f : A → M S B) Q s : wp m (λ a, wpf F (f a) Q) s → wpf F (bind m f) Q s.
Proof. intros Hm. by apply wpf_bind, wpf_wp. Qed.
Lemma wpf_assert F (b : bool) Q s : (b = true → Q tt s) → (b = false → F) → wpf F (assert b) Q s.
Proof. unfold wpf, assert. destruct b; auto. Qed.
Lemma wpf_mono (F F' : Prop) {A} (m : M S A) (Q Q' : A → S → Prop) s :
  wpf F m Q s → (F → F') → (∀ a s', Q a s' → Q' a s') → wpf F' m Q' s.
Proof. unfold wpf. destruct (m s) as [[a s']|]; auto. Qed.
End monad.

(** * Loops

    [loop p step s] runs [step] at most [p] times until it answers a result. The bound
    is a binary number, so that a loop over the 32-bit address space can be given the
    bound [2 ^ 32] and still be evaluated. *)

Section loops.
Context {St R : Type}.
Implicit Types (step : St → St + R) (s : St).

Definition sbind (r : St + R) (k : St → St + R) : St + R :=
  match r with inl s => k s | inr x => inr x end.

Fixpoint iter_pos (p : positive) step s : St + R :=
  match p with
  | xH => step s
  | xO p' => sbind (iter_pos p' step s) (iter_pos p' step)
  | xI p' => sbind (step s) (λ s, sbind (iter_pos p' step s) (iter_pos p' step))
  end.

Definition loop (p : positive) step s : option R :=
  match iter_pos p step s with inl _ => None | inr x => Some x end.

Fixpoint iter_nat (n : nat) step s : St + R :=
  match n with O => inl s | S n' => sbind (step s) (iter_nat n' step) end.

Lemma iter_nat_add n m step s : iter_nat (n + m) step s = sbind (iter_nat n step s) (iter_nat m step).
Proof.
  revert s. induction n as [|n IH]; intros s; [done|]. cbn. destruct (step s); cbn; [apply IH|done].
Qed.

Lemma sbind_ext r (k k' : St → St + R) : (∀ s, k s = k' s) → sbind r k = sbind r k'.
Proof. destruct r; cbn; auto. Qed.

Lemma iter_pos_nat p step s : iter_pos p step s = iter_nat (Pos.to_nat p) step s.
Proof.
  revert s. induction p as [p IH|p IH|]; intros s.
  - rewrite Pos2Nat.inj_xI. cbn [iter_nat iter_pos]. apply sbind_ext. intros s'.
    replace (2 * Pos.to_nat p)%nat with (Pos.to_nat p + Pos.to_nat p)%nat by lia.
    rewrite iter_nat_add, IH. by apply sbind_ext.
  - rewrite Pos2Nat.inj_xO. replace (2 * Pos.to_nat p)%nat with (Pos.to_nat p + Pos.to_nat p)%nat by lia.
    rewrite iter_nat_add. cbn [iter_pos]. rewrite IH. by apply sbind_ext.
  - change (Pos.to_nat 1) with 1%nat. cbn. by destruct (step s).
Qed.

(** Total correctness of a loop from an invariant [I] and a measure [μ]. *)
Lemma loop_rule (I : St → Prop) (μ : St → Z) (Q : R → Prop) p step s :
  (∀ s, I s → (0 ≤ μ s)%Z ∧ match step s with inl s' => I s' ∧ (μ s' < μ s)%Z | inr x => Q x end) →
  I s → (μ s < Zpos p)%Z → ∃ x, loop p step s = Some x ∧ Q x.
Proof.
  intros Hstep Hs Hp. unfold loop. rewrite iter_pos_nat.
  assert (μ s < Z.of_nat (Pos.to_nat p))%Z as Hn by lia. clear Hp.
  generalize dependent (Pos.to_nat p). intros n Hn. revert s Hs Hn.
  induction n as [|n IH]; intros s Hs Hn; destruct (Hstep s Hs) as [Hμ Hx]; [lia|]. cbn.
  destruct (step s) as [s'|x]; cbn; [|eauto]. destruct Hx as [Hs' Hlt]. apply IH; [done|lia].
Qed.

(** A loop that answers within its bound. *)
Lemma loop_iter n p step s x :
  iter_nat n step s = inr x → (n ≤ Pos.to_nat p)%nat → loop p step s = Some x.
Proof.
  intros Hn Hp. unfold loop. rewrite iter_pos_nat.
  replace (Pos.to_nat p) with (n + (Pos.to_nat p - n))%nat by lia. by rewrite iter_nat_add, Hn.
Qed.
End loops.

(** [while (cond) body] *)
Definition while {St} (p : positive) (cond : St → bool) (body : St → St) (s : St) : option St :=
  loop p (λ s, if cond s then inl (body s) else inr s) s.

Lemma while_rule {St} (I : St → Prop) (μ : St → Z) p cond body (s : St) :
  (∀ s, I s → (0 ≤ μ s)%Z ∧ (cond s = true → I (body s) ∧ (μ (body s) < μ s)%Z)) →
  I s → (μ s < Zpos p)%Z → ∃ s', while p cond body s = Some s' ∧ I s' ∧ cond s' = false.
Proof.
  intros Hb Hs Hp. apply (loop_rule I μ); [|done|done]. intros s' Hs'.
  destruct (Hb s' Hs') as [? Hc]. split; [done|]. destruct (cond s') eqn:E; [by apply Hc|done].
Qed.

Lemma obind_run {A B} (m : option A) (f : A → option B) x : m = Some x → m ≫= f = f x.
Proof. by intros ->. Qed.

(** The bound of loops over objects of the 32-bit address space. *)
Definition LIMIT : positive := 2 ^ 33.

(** Conversion unfolds a loop only as a last resort. *)
#[global] Strategy 1000 [iter_pos loop while LIMIT].

Notation "x ← m ; k" := (bind m (λ x, k))
  (at level 20, m at level 100, k at level 200, only parsing) : rt_scope.
Notation "m ;; k" := (bind m (λ _, k))
  (at level 100, k at level 200, right associativity, only parsing) : rt_scope.

Create HintDb rt.
#[export] Hint Resolve wp_ret wp_gets wp_modify : rt.
