(* ===== verification/Proc.v ===== *)
(** Routines that may wait for a semaphore in the middle: the process such a routine is
    when it returns, sequencing, and total correctness of a run that does not wait. *)

From stdpp Require Import base option.
From S2P Require Import Prelude.
Local Open Scope rt_scope.

(** * Processes

    A routine that waits is a continuation for the time it got what it waits for. *)

Inductive proc (S A : Type) :=
| Done (a : A)
| Wait (k : S → option (proc S A * S)).
Arguments Done {S A} a.
Arguments Wait {S A} k.

Section proc.
Context {S : Type}.

Fixpoint pbind {A B} (p : proc S A) (f : A → M S (proc S B)) : M S (proc S B) :=
  match p with
  | Done a => f a
  | Wait k => λ s, Some (Wait (λ s1, match k s1 with
                                     | Some (p', s2) => pbind p' f s2
                                     | None => None
                                     end), s)
  end.

Definition dbind {A B} (m : M S (proc S A)) (f : A → M S (proc S B)) : M S (proc S B) :=
  bind m (λ p, pbind p f).

(** A routine that does not wait. *)
Definition now {A} (m : M S A) : M S (proc S A) := bind m (λ a, ret (Done a)).
Definition dret {A} (a : A) : M S (proc S A) := ret (Done a).
End proc.

(** A process on a part of a larger state. *)
Section zoom.
Context {S T : Type} (part : T → S) (put : S → T → T).

Fixpoint zoom_proc {A} (p : proc S A) : proc T A :=
  match p with
  | Done a => Done a
  | Wait k => Wait (λ t, match k (part t) with
                         | Some (p', s) => Some (zoom_proc p', put s t)
                         | None => None
                         end)
  end.

Definition zoom {A} (m : M S (proc S A)) : M T (proc T A) := λ t,
  match m (part t) with
  | Some (p, s) => Some (zoom_proc p, put s t)
  | None => None
  end.
End zoom.

Notation "x ⇐ m ; k" := (dbind m (λ x, k))
  (at level 100, m at next level, right associativity, format "'[v' x  ⇐  m ; '/' k ']'") : rt_scope.
Notation "m ;;; k" := (dbind m (λ _, k))
  (at level 100, right associativity, format "'[v' m ;;; '/' k ']'") : rt_scope.

(** * Lemmas on processes *)

Lemma dbind_now {S A B} (m : M S A) (f : A → M S (proc S B)) s :
  dbind (now m) f s = match m s with Some (a, s') => f a s' | None => None end.
Proof. unfold dbind, now, bind. by destruct (m s) as [[a s']|]. Qed.

Lemma dbind_done {S A B} (m : M S (proc S A)) (f : A → M S (proc S B)) s a s' :
  m s = Some (Done a, s') → dbind m f s = f a s'.
Proof. intros E. unfold dbind, bind. by rewrite E. Qed.

Lemma dbind_none {S A B} (m : M S (proc S A)) (f : A → M S (proc S B)) s : m s = None → dbind m f s = None.
Proof. intros E. unfold dbind, bind. by rewrite E. Qed.

Section dwp.
Context {S : Type}.

(** ** Total correctness of routines that may wait *)

(** [m] returns without waiting, and its result satisfies [Q]. *)
Definition dwp {A} (m : M S (proc S A)) (Q : A → S → Prop) (s : S) : Prop :=
  ∃ a s', m s = Some (Done a, s') ∧ Q a s'.

Lemma dwp_ret {A} (a : A) Q s : Q a s → dwp (dret a) Q s.
Proof. intros H. by exists a, s. Qed.
Lemma dwp_now {A} (m : M S A) Q s : wp m Q s → dwp (now m) Q s.
Proof. intros (a & s' & E & H)%wp_run. exists a, s'. split; [|done]. unfold now, bind. by rewrite E. Qed.
Lemma dwp_bind {A B} (m : M S (proc S A)) (f : A → M S (proc S B)) Q s : dwp m (λ a, dwp (f a) Q) s → dwp (dbind m f) Q s.
Proof. intros (a & s' & E & b & s2 & E2 & H). exists b, s2. split; [|done]. by rewrite (dbind_done _ _ _ _ _ E). Qed.
Lemma dwp_seq {A B} (m : M S A) (f : A → M S (proc S B)) Q s : wp m (λ a, dwp (f a) Q) s → dwp (dbind (now m) f) Q s.
Proof. intros H. by apply dwp_bind, dwp_now. Qed.
Lemma dwp_mono {A} (m : M S (proc S A)) (Q Q' : A → S → Prop) s : dwp m Q s → (∀ a s', Q a s' → Q' a s') → dwp m Q' s.
Proof. intros (a & s' & E & H) HQ. exists a, s'. auto. Qed.
End dwp.

(** A routine on a part of the state. *)
Lemma dwp_zoom {S T A} (part : T → S) (put : S → T → T) (m : M S (proc S A)) Q t :
  dwp m (λ a s, Q a (put s t)) (part t) → dwp (zoom part put m) Q t.
Proof. intros (a & s & E & H). exists a, (put s t). split; [|done]. unfold zoom. by rewrite E. Qed.
