(* ===== verification/RingBuffer.v ===== *)
(** The byte ring buffer of components/drivers/src/ringbuffer.c.

    The serial drivers of the board keep their received bytes in it.  The model
    keeps the C representation (pool, two indices, two mirror bits); the
    abstract view is [contents], the queue of stored bytes. *)

From Stdlib Require Import ZArith Lia.
From stdpp Require Import base numbers list option.
From S2P Require Import Prelude.
Local Open Scope Z_scope.

Module RingBuffer.

(** [struct rt_ringbuffer]: [buffer_ptr] is the pool the driver handed over. *)
Record rt_ringbuffer := mk_rb {
  buffer_ptr : list Z;
  read_mirror : bool;
  read_index : Z;
  write_mirror : bool;
  write_index : Z;
  buffer_size : Z
}.

Inductive rt_ringbuffer_state :=
| RT_RINGBUFFER_EMPTY
| RT_RINGBUFFER_FULL
| RT_RINGBUFFER_HALFFULL.

Definition RT_ALIGN_SIZE : Z := 4.
Definition RT_ALIGN_DOWN (size align : Z) : Z := Z.land size (Z.lnot (align - 1)).

(** [memcpy] from and to a byte array; [None] when it would leave the array. *)
Definition mem_read (l : list Z) (off n : Z) : option (list Z) :=
  if (0 <=? off) && (0 <=? n) && (off + n <=? Z.of_nat (length l))
  then Some (take (Z.to_nat n) (drop (Z.to_nat off) l)) else None.

Definition mem_write (l : list Z) (off : Z) (src : list Z) : option (list Z) :=
  if (0 <=? off) && (off + Z.of_nat (length src) <=? Z.of_nat (length l))
  then Some (take (Z.to_nat off) l ++ src ++
             drop (Z.to_nat off + length src) l) else None.

Definition set_write (rb : rt_ringbuffer) (m : bool) (i : Z) : rt_ringbuffer :=
  mk_rb (buffer_ptr rb) (read_mirror rb) (read_index rb) m (wrap 15 i) (buffer_size rb).
Definition set_read (rb : rt_ringbuffer) (m : bool) (i : Z) : rt_ringbuffer :=
  mk_rb (buffer_ptr rb) m (wrap 15 i) (write_mirror rb) (write_index rb) (buffer_size rb).
Definition set_pool (rb : rt_ringbuffer) (p : list Z) : rt_ringbuffer :=
  mk_rb p (read_mirror rb) (read_index rb) (write_mirror rb) (write_index rb) (buffer_size rb).

Definition rt_ringbuffer_status (rb : rt_ringbuffer) : rt_ringbuffer_state :=
  if read_index rb =? write_index rb then
    if eqb (read_mirror rb) (write_mirror rb)
    then RT_RINGBUFFER_EMPTY else RT_RINGBUFFER_FULL
  else RT_RINGBUFFER_HALFFULL.

Definition rt_ringbuffer_init (pool : list Z) (size : Z) : option rt_ringbuffer :=
  let size := i16 size in
  if 0 <? size then
    Some (mk_rb pool false 0 false 0 (i16 (RT_ALIGN_DOWN size RT_ALIGN_SIZE)))
  else None.

Definition rt_ringbuffer_data_len (rb : rt_ringbuffer) : Z :=
  match rt_ringbuffer_status rb with
  | RT_RINGBUFFER_EMPTY => 0
  | RT_RINGBUFFER_FULL => u32 (buffer_size rb)
  | RT_RINGBUFFER_HALFFULL =>
      if read_index rb <? write_index rb
      then u32 (write_index rb - read_index rb)
      else u32 (buffer_size rb - (read_index rb - write_index rb))
  end.

Definition rt_ringbuffer_space_len (rb : rt_ringbuffer) : Z :=
  u32 (buffer_size rb - rt_ringbuffer_data_len rb).

(** The copy shared by [put] and [put_force]: [len] bytes of [ptr] go to the
    write position, in one piece or in two when they reach the pool's end. *)
Definition put_copy (rb : rt_ringbuffer) (ptr : list Z) (len : Z) : option rt_ringbuffer :=
  let rest := buffer_size rb - write_index rb in
  if rest >? len then
    src ← mem_read ptr 0 len;
    p ← mem_write (buffer_ptr rb) (write_index rb) src;
    Some (set_write (set_pool rb p) (write_mirror rb) (write_index rb + len))
  else
    s1 ← mem_read ptr 0 rest;
    p1 ← mem_write (buffer_ptr rb) (write_index rb) s1;
    s2 ← mem_read ptr rest (len - rest);
    p2 ← mem_write p1 0 s2;
    Some (set_write (set_pool rb p2) (negb (write_mirror rb)) (len - rest)).

Definition rt_ringbuffer_put (rb : rt_ringbuffer) (ptr : list Z) (len : Z)
  : option (Z * rt_ringbuffer) :=
  let size := u16 (rt_ringbuffer_space_len rb) in
  if size =? 0 then Some (0, rb)
  else
    let len := if size <? len then size else len in
    rb' ← put_copy rb ptr len; Some (len, rb').

Definition rt_ringbuffer_put_force (rb : rt_ringbuffer) (ptr : list Z) (len : Z)
  : option (Z * rt_ringbuffer) :=
  let space := u16 (rt_ringbuffer_space_len rb) in
  let '(ptr, len) :=
    if buffer_size rb <? len
    then (drop (Z.to_nat (len - buffer_size rb)) ptr, u16 (buffer_size rb))
    else (ptr, len) in
  rb' ← put_copy rb ptr len;
  if buffer_size rb - write_index rb >? len then
    Some (len, if space <? len
               then set_read rb' (read_mirror rb') (write_index rb') else rb')
  else
    Some (len, if space <? len
               then set_read rb' (negb (read_mirror rb')) (write_index rb') else rb').

(** Returns the number of bytes and the bytes written to the caller's buffer. *)
Definition rt_ringbuffer_get (rb : rt_ringbuffer) (len : Z)
  : option (Z * list Z * rt_ringbuffer) :=
  let size := rt_ringbuffer_data_len rb in
  if size =? 0 then Some (0, [], rb)
  else
    let len := if size <? len then u16 size else len in
    let rest := buffer_size rb - read_index rb in
    if rest >? len then
      d ← mem_read (buffer_ptr rb) (read_index rb) len;
      Some (len, d, set_read rb (read_mirror rb) (read_index rb + len))
    else
      d1 ← mem_read (buffer_ptr rb) (read_index rb) rest;
      d2 ← mem_read (buffer_ptr rb) 0 (len - rest);
      Some (len, d1 ++ d2, set_read rb (negb (read_mirror rb)) (len - rest)).

Definition rt_ringbuffer_putchar (rb : rt_ringbuffer) (ch : Z)
  : option (Z * rt_ringbuffer) :=
  if rt_ringbuffer_space_len rb =? 0 then Some (0, rb)
  else
    p ← mem_write (buffer_ptr rb) (write_index rb) [ch];
    let rb1 := set_pool rb p in
    Some (1, if write_index rb =? buffer_size rb - 1
             then set_write rb1 (negb (write_mirror rb)) 0
             else set_write rb1 (write_mirror rb) (write_index rb + 1)).

Definition rt_ringbuffer_putchar_force (rb : rt_ringbuffer) (ch : Z)
  : option (Z * rt_ringbuffer) :=
  let full := match rt_ringbuffer_status rb with
              | RT_RINGBUFFER_FULL => true | _ => false end in
  p ← mem_write (buffer_ptr rb) (write_index rb) [ch];
  let rb1 := set_pool rb p in
  Some (1,
    if write_index rb =? buffer_size rb - 1 then
      let rb2 := set_write rb1 (negb (write_mirror rb)) 0 in
      if full then set_read rb2 (negb (read_mirror rb2)) (write_index rb2) else rb2
    else
      let rb2 := set_write rb1 (write_mirror rb) (write_index rb + 1) in
      if full then set_read rb2 (read_mirror rb2) (write_index rb2) else rb2).

Definition rt_ringbuffer_getchar (rb : rt_ringbuffer)
  : option (Z * option Z * rt_ringbuffer) :=
  if rt_ringbuffer_data_len rb =? 0 then Some (0, None, rb)
  else
    d ← mem_read (buffer_ptr rb) (read_index rb) 1;
    Some (1, head d,
      if read_index rb =? buffer_size rb - 1
      then set_read rb (negb (read_mirror rb)) 0
      else set_read rb (read_mirror rb) (read_index rb + 1)).

Definition rt_ringbuffer_reset (rb : rt_ringbuffer) : rt_ringbuffer :=
  mk_rb (buffer_ptr rb) false 0 false 0 (buffer_size rb).

(** [rt_ringbuffer_create] with the two allocations passed in: [rb_ok] says
    whether the header was allocated, [pool] is the allocated data area. *)
Definition rt_ringbuffer_create (rb_ok : bool) (rt_malloc : Z → option (list Z)) (size : Z)
  : option (option rt_ringbuffer) :=
  if 0 <? size then
    let size := u16 (RT_ALIGN_DOWN size RT_ALIGN_SIZE) in
    if rb_ok then
      match rt_malloc size with
      | Some pool => rb ← rt_ringbuffer_init pool size; Some (Some rb)
      | None => Some None
      end
    else Some None
  else None.

Definition rt_ringbuffer_get_size (rb : rt_ringbuffer) : Z := u16 (buffer_size rb).

(** * Representation invariant and abstract view *)

(** With equal mirror bits the reader is at or behind the writer; with
    different ones the writer has wrapped and is at or behind the reader. *)
Record wf (rb : rt_ringbuffer) : Prop := {
  wf_size : 0 < buffer_size rb < 2 ^ 15;
  wf_pool : buffer_size rb ≤ Z.of_nat (length (buffer_ptr rb));
  wf_read : 0 ≤ read_index rb < buffer_size rb;
  wf_write : 0 ≤ write_index rb < buffer_size rb;
  wf_same : read_mirror rb = write_mirror rb → read_index rb ≤ write_index rb;
  wf_diff : read_mirror rb ≠ write_mirror rb → write_index rb ≤ read_index rb
}.

(** The number of stored bytes, and the pool index of position [i] after a base. *)
Definition fill (rb : rt_ringbuffer) : Z :=
  if eqb (read_mirror rb) (write_mirror rb)
  then write_index rb - read_index rb
  else buffer_size rb - (read_index rb - write_index rb).

Definition ix (size base : Z) (i : nat) : nat :=
  let k := base + Z.of_nat i in Z.to_nat (if k <? size then k else k - size).

Definition contents (rb : rt_ringbuffer) : list Z :=
  (λ i, buffer_ptr rb !!! ix (buffer_size rb) (read_index rb) i)
    <$> seq 0 (Z.to_nat (fill rb)).

(** * Helper lemmas *)

(** Uses the two mirror clauses of [wf] once the mirror bits are known. *)
Ltac use_mirrors :=
  repeat match goal with
         | H : ?a = ?a → _ |- _ => specialize (H eq_refl)
         | H : true ≠ false → _ |- _ => specialize (H ltac:(done))
         | H : false ≠ true → _ |- _ => specialize (H ltac:(done)) end.

Lemma align_down_4 size :
  size - 3 ≤ RT_ALIGN_DOWN size RT_ALIGN_SIZE ≤ size ∧
  ∀ q, 4 * q ≤ size → 4 * q ≤ RT_ALIGN_DOWN size RT_ALIGN_SIZE.
Proof.
  unfold RT_ALIGN_DOWN, RT_ALIGN_SIZE. change (4 - 1) with (Z.ones 2).
  rewrite <- Z.ldiff_land, Z.ldiff_ones_r, Z.shiftl_mul_pow2, Z.shiftr_div_pow2 by lia.
  change (2 ^ 2) with 4. pose proof (Z.div_mod size 4). pose proof (Z.mod_pos_bound size 4).
  split; [lia|]. intros q Hq.
  assert (q ≤ size / 4) by (apply Z.div_le_lower_bound; lia). lia.
Qed.

Lemma mem_read_some l off n :
  0 ≤ off → 0 ≤ n → off + n ≤ Z.of_nat (length l) →
  mem_read l off n = Some (take (Z.to_nat n) (drop (Z.to_nat off) l)).
Proof.
  intros. unfold mem_read.
  by rewrite (proj2 (Z.leb_le 0 off)), (proj2 (Z.leb_le 0 n)),
    (proj2 (Z.leb_le (off + n) _)) by lia.
Qed.

Lemma mem_write_some l off src :
  0 ≤ off → off + Z.of_nat (length src) ≤ Z.of_nat (length l) →
  ∃ l', mem_write l off src = Some l' ∧ length l' = length l ∧
    (∀ i, (i < length src)%nat → l' !! (Z.to_nat off + i)%nat = src !! i) ∧
    (∀ k, (k < Z.to_nat off ∨ Z.to_nat off + length src ≤ k)%nat → l' !! k = l !! k).
Proof.
  intros. unfold mem_write.
  rewrite (proj2 (Z.leb_le 0 off)), (proj2 (Z.leb_le (off + _) _)) by lia.
  eexists; split; [done|].
  assert (length (take (Z.to_nat off) l) = Z.to_nat off) as Htk
    by (rewrite length_take; lia).
  split_and!.
  - rewrite !length_app, length_drop. lia.
  - intros i Hi. rewrite lookup_app_r by lia. rewrite Htk.
    rewrite lookup_app_l by lia. f_equal. lia.
  - intros k [Hk|Hk].
    + rewrite lookup_app_l by lia. by rewrite lookup_take_lt by lia.
    + rewrite lookup_app_r by lia. rewrite lookup_app_r by lia.
      rewrite lookup_drop. f_equal. lia.
Qed.

Lemma ix_lt size base i :
  0 ≤ base < size → Z.of_nat i ≤ size → (ix size base i < Z.to_nat size)%nat.
Proof. intros. unfold ix. cbn. destruct (Z.ltb_spec (base + Z.of_nat i) size); lia. Qed.

Lemma fill_range rb : wf rb → 0 ≤ fill rb ≤ buffer_size rb.
Proof.
  intros []. unfold fill. destruct (eqb _ _) eqn:E.
  - apply eqb_prop in E. specialize (wf_same0 E). lia.
  - apply eqb_false_iff in E. specialize (wf_diff0 E). lia.
Qed.

Lemma data_len_fill rb : wf rb → rt_ringbuffer_data_len rb = fill rb.
Proof.
  intros Hwf. pose proof (fill_range rb Hwf) as Hf. destruct Hwf.
  unfold rt_ringbuffer_data_len, rt_ringbuffer_status, fill in *.
  destruct (eqb _ _) eqn:E.
  - apply eqb_prop in E. specialize (wf_same0 E).
    destruct (Z.eqb_spec (read_index rb) (write_index rb)); [lia|].
    rewrite (proj2 (Z.ltb_lt _ _)) by lia. apply wrap_small. lia.
  - apply eqb_false_iff in E. specialize (wf_diff0 E).
    destruct (Z.eqb_spec (read_index rb) (write_index rb)).
    + rewrite wrap_small; lia.
    + rewrite (proj2 (Z.ltb_ge _ _)) by lia. apply wrap_small. lia.
Qed.

Lemma space_len_fill rb :
  wf rb → rt_ringbuffer_space_len rb = buffer_size rb - fill rb.
Proof.
  intros Hwf. unfold rt_ringbuffer_space_len. rewrite data_len_fill by done.
  pose proof (fill_range rb Hwf). destruct Hwf. apply wrap_small. lia.
Qed.

Lemma length_contents rb : Z.of_nat (length (contents rb)) = Z.max 0 (fill rb).
Proof. unfold contents. rewrite length_fmap, length_seq. lia. Qed.

Lemma contents_lookup rb i :
  wf rb → Z.of_nat i < fill rb →
  contents rb !! i = buffer_ptr rb !! ix (buffer_size rb) (read_index rb) i.
Proof.
  intros Hwf Hi. pose proof (fill_range rb Hwf).
  unfold contents. rewrite list_lookup_fmap, lookup_seq_lt by lia. simpl.
  rewrite list_lookup_lookup_total_lt; [done|].
  destruct Hwf. pose proof (ix_lt (buffer_size rb) (read_index rb) i). lia.
Qed.

(** Two states with the same reader position hold the same bytes, up to the
    smaller fill, when the pool agrees on the occupied cells. *)
Lemma contents_ext rb l :
  wf rb → Z.of_nat (length l) = fill rb →
  (∀ i, (i < length l)%nat →
     buffer_ptr rb !! ix (buffer_size rb) (read_index rb) i = l !! i) →
  contents rb = l.
Proof.
  intros Hwf Hlen H. pose proof (length_contents rb) as Hc.
  apply list_eq_same_length with (length l); [lia|lia|].
  intros i x y Hi Hx Hy. rewrite contents_lookup in Hx by (done || lia).
  rewrite H in Hx by done. congruence.
Qed.

(** The pool [p] is [rb]'s pool with [len] bytes of [ptr] at the write position. *)
Definition copied (rb : rt_ringbuffer) (ptr : list Z) (len : Z) (p : list Z) : Prop :=
  length p = length (buffer_ptr rb) ∧
  (∀ i, Z.of_nat i < len → p !! ix (buffer_size rb) (write_index rb) i = ptr !! i) ∧
  (∀ j, (∀ i, Z.of_nat i < len → j ≠ ix (buffer_size rb) (write_index rb) i) →
     p !! j = buffer_ptr rb !! j).

Lemma put_copy_flat rb ptr len :
  wf rb → 0 ≤ len → write_index rb + len < buffer_size rb →
  len ≤ Z.of_nat (length ptr) →
  ∃ p, put_copy rb ptr len =
      Some (mk_rb p (read_mirror rb) (read_index rb) (write_mirror rb)
              (write_index rb + len) (buffer_size rb)) ∧ copied rb ptr len p.
Proof.
  intros [] Hlen Hno Hptr. unfold put_copy. rewrite Z.gtb_ltb. cbn zeta.
  rewrite (proj2 (Z.ltb_lt _ _)) by lia.
  rewrite mem_read_some by lia. cbn [mbind option_bind].
  destruct (mem_write_some (buffer_ptr rb) (write_index rb)
    (take (Z.to_nat len) (drop (Z.to_nat 0) ptr))) as (p & -> & Hlp & Hin & Hout);
    [lia|rewrite length_take, length_drop; lia|].
  rewrite length_take, length_drop in Hin, Hout.
  exists p. split_and!; [|split_and!; [done| |]].
  - cbn. unfold set_write, set_pool; cbn. by rewrite wrap_small by lia.
  - intros i Hi. unfold ix; cbn. rewrite (proj2 (Z.ltb_lt _ _)) by lia.
    replace (Z.to_nat (write_index rb + Z.of_nat i))
      with (Z.to_nat (write_index rb) + i)%nat by lia.
    rewrite Hin by lia. rewrite lookup_take_lt by lia. by rewrite lookup_drop.
  - intros j Hj. apply Hout.
    destruct (decide (j < Z.to_nat (write_index rb))%nat); [lia|].
    destruct (decide (Z.to_nat (write_index rb) + Z.to_nat len ≤ j)%nat); [lia|].
    exfalso. apply (Hj (j - Z.to_nat (write_index rb))%nat); [lia|].
    unfold ix; cbn. rewrite (proj2 (Z.ltb_lt _ _)); lia.
Qed.

Lemma put_copy_wrap rb ptr len :
  wf rb → 0 ≤ len ≤ buffer_size rb → buffer_size rb ≤ write_index rb + len →
  len ≤ Z.of_nat (length ptr) →
  ∃ p, put_copy rb ptr len =
      Some (mk_rb p (read_mirror rb) (read_index rb) (negb (write_mirror rb))
              (write_index rb + len - buffer_size rb) (buffer_size rb)) ∧
    copied rb ptr len p.
Proof.
  intros [] Hlen Hwr Hptr. unfold put_copy. rewrite Z.gtb_ltb. cbn zeta.
  set (rest := buffer_size rb - write_index rb).
  rewrite (proj2 (Z.ltb_ge len rest)) by lia.
  rewrite (mem_read_some ptr 0 rest), (mem_read_some ptr rest (len - rest)) by lia.
  cbn [mbind option_bind].
  destruct (mem_write_some (buffer_ptr rb) (write_index rb)
    (take (Z.to_nat rest) (drop (Z.to_nat 0) ptr))) as (p1 & -> & Hlp1 & Hin1 & Hout1);
    [lia|rewrite length_take, length_drop; lia|].
  rewrite length_take, length_drop in Hin1, Hout1. cbn [mbind option_bind].
  destruct (mem_write_some p1 0
    (take (Z.to_nat (len - rest)) (drop (Z.to_nat rest) ptr)))
    as (p & -> & Hlp & Hin & Hout); [lia|rewrite length_take, length_drop; lia|].
  rewrite length_take, length_drop in Hin, Hout.
  exists p. split_and!; [|split_and!; [congruence| |]].
  - cbn. unfold set_write, set_pool; cbn. rewrite wrap_small by lia.
    by replace (len - rest) with (write_index rb + len - buffer_size rb) by lia.
  - intros i Hi. unfold ix; cbn.
    destruct (Z.ltb_spec (write_index rb + Z.of_nat i) (buffer_size rb)).
    + rewrite Hout by lia.
      replace (Z.to_nat (write_index rb + Z.of_nat i))
        with (Z.to_nat (write_index rb) + i)%nat by lia.
      rewrite Hin1 by lia. rewrite lookup_take_lt by lia. by rewrite lookup_drop.
    + replace (Z.to_nat (write_index rb + Z.of_nat i - buffer_size rb))
        with (Z.to_nat 0 + (i - Z.to_nat rest))%nat by lia.
      rewrite Hin by lia. rewrite lookup_take_lt, lookup_drop by lia. f_equal. lia.
  - intros j Hj.
    assert (¬ (j < Z.to_nat (len - rest))%nat).
    { intros ?. apply (Hj (j + Z.to_nat rest)%nat); [lia|].
      unfold ix; cbn. rewrite (proj2 (Z.ltb_ge _ _)); lia. }
    assert (¬ (Z.to_nat (write_index rb) ≤ j < Z.to_nat (buffer_size rb))%nat).
    { intros ?. apply (Hj (j - Z.to_nat (write_index rb))%nat); [lia|].
      unfold ix; cbn. rewrite (proj2 (Z.ltb_lt _ _)); lia. }
    rewrite Hout by lia. apply Hout1. lia.
Qed.

(** The writer's position and mirror bit after [len] more bytes. *)
Definition advance (rb : rt_ringbuffer) (p : list Z) (len : Z) : rt_ringbuffer :=
  let k := write_index rb + len in
  mk_rb p (read_mirror rb) (read_index rb)
    (if k <? buffer_size rb then write_mirror rb else negb (write_mirror rb))
    (if k <? buffer_size rb then k else k - buffer_size rb) (buffer_size rb).

Lemma put_copy_spec rb ptr len :
  wf rb → 0 ≤ len ≤ buffer_size rb → len ≤ Z.of_nat (length ptr) →
  ∃ p, put_copy rb ptr len = Some (advance rb p len) ∧ copied rb ptr len p.
Proof.
  intros Hwf Hlen Hptr. unfold advance; cbn zeta.
  destruct (Z.ltb_spec (write_index rb + len) (buffer_size rb)).
  - by apply put_copy_flat; try lia.
  - by apply put_copy_wrap.
Qed.

Lemma advance_wf rb p len :
  wf rb → length p = length (buffer_ptr rb) → 0 ≤ len ≤ buffer_size rb - fill rb →
  wf (advance rb p len) ∧ fill (advance rb p len) = fill rb + len.
Proof.
  intros Hwf Hp Hlen. pose proof (fill_range rb Hwf). destruct Hwf.
  unfold advance, fill in *. cbn zeta.
  destruct (Z.ltb_spec (write_index rb + len) (buffer_size rb));
    destruct (read_mirror rb) eqn:?, (write_mirror rb) eqn:?; cbn in *;
    use_mirrors;
    (split; [split; cbn; intros; try done; lia | cbn; lia]).
Qed.

(** Cells of the stored bytes and of the next [len] bytes are distinct as long
    as the bytes fit. *)
Lemma ix_write_read rb i :
  wf rb → Z.of_nat i < buffer_size rb - fill rb →
  ix (buffer_size rb) (write_index rb) i =
  ix (buffer_size rb) (read_index rb) (Z.to_nat (fill rb) + i).
Proof.
  intros Hwf Hi. pose proof (fill_range rb Hwf). destruct Hwf.
  unfold ix, fill in *. cbn zeta.
  destruct (read_mirror rb) eqn:?, (write_mirror rb) eqn:?; cbn [eqb] in *;
    use_mirrors;
    zcases; lia.
Qed.

Lemma ix_inj size base i j :
  0 ≤ base < size → Z.of_nat i < size → Z.of_nat j < size →
  ix size base i = ix size base j → i = j.
Proof. intros. unfold ix in *. cbn zeta in *. zcases; lia. Qed.

Lemma contents_advance rb ptr p len :
  wf rb → copied rb ptr len p → 0 ≤ len ≤ buffer_size rb - fill rb →
  len ≤ Z.of_nat (length ptr) →
  contents (advance rb p len) = contents rb ++ take (Z.to_nat len) ptr.
Proof.
  intros Hwf (Hlp & Hin & Hout) Hlen Hptr.
  destruct (advance_wf rb p len) as [Hwf' Hf']; [done..|].
  pose proof (fill_range rb Hwf) as Hf. pose proof (length_contents rb) as Hc.
  apply contents_ext; [done|rewrite length_app, length_take; lia|].
  rewrite length_app, length_take. intros i Hi. cbn.
  destruct (decide (Z.of_nat i < fill rb)) as [Hlt|Hge].
  - rewrite lookup_app_l by lia. rewrite contents_lookup by done.
    apply Hout. intros j Hj. rewrite ix_write_read by (done || lia).
    destruct Hwf. intros ?%ix_inj; lia.
  - rewrite lookup_app_r by lia.
    replace (length (contents rb)) with (Z.to_nat (fill rb)) by lia.
    rewrite lookup_take_lt by lia. rewrite <- Hin by lia.
    rewrite ix_write_read by (done || lia). f_equal. f_equal. lia.
Qed.

(** The reader's position and mirror bit after [len] bytes are taken. *)
Definition consume (rb : rt_ringbuffer) (len : Z) : rt_ringbuffer :=
  let k := read_index rb + len in
  mk_rb (buffer_ptr rb)
    (if k <? buffer_size rb then read_mirror rb else negb (read_mirror rb))
    (if k <? buffer_size rb then k else k - buffer_size rb)
    (write_mirror rb) (write_index rb) (buffer_size rb).

Lemma consume_wf rb len :
  wf rb → 0 ≤ len ≤ fill rb → wf (consume rb len) ∧ fill (consume rb len) = fill rb - len.
Proof.
  intros Hwf Hlen. pose proof (fill_range rb Hwf). destruct Hwf.
  unfold consume, fill in *. cbn zeta.
  destruct (Z.ltb_spec (read_index rb + len) (buffer_size rb));
    destruct (read_mirror rb) eqn:?, (write_mirror rb) eqn:?; cbn in *;
    use_mirrors; (split; [split; cbn; intros; try done; lia | cbn; lia]).
Qed.

Lemma ix_consume rb len i :
  wf rb → 0 ≤ len → len + Z.of_nat i < buffer_size rb →
  ix (buffer_size rb) (read_index (consume rb len)) i =
  ix (buffer_size rb) (read_index rb) (Z.to_nat len + i).
Proof. intros [] ??. unfold ix, consume; cbn. zcases; lia. Qed.

Lemma contents_consume rb len :
  wf rb → 0 ≤ len ≤ fill rb → contents (consume rb len) = drop (Z.to_nat len) (contents rb).
Proof.
  intros Hwf Hlen. destruct (consume_wf rb len Hwf Hlen) as [Hwf' Hf'].
  pose proof (length_contents rb). pose proof (fill_range rb Hwf).
  apply contents_ext; [done|rewrite length_drop; lia|].
  rewrite length_drop. intros i Hi. rewrite lookup_drop, contents_lookup by (done || lia).
  change (buffer_size (consume rb len)) with (buffer_size rb).
  rewrite ix_consume by (done || lia). done.
Qed.

(** Reading [len] bytes from the read position, in one or two pieces, yields the
    front of the queue. *)
Lemma read_prefix rb len :
  wf rb → 0 ≤ len ≤ fill rb →
  let rest := buffer_size rb - read_index rb in
  take (Z.to_nat len) (contents rb) =
  if len <? rest
  then take (Z.to_nat len) (drop (Z.to_nat (read_index rb)) (buffer_ptr rb))
  else take (Z.to_nat rest) (drop (Z.to_nat (read_index rb)) (buffer_ptr rb)) ++
       take (Z.to_nat (len - rest)) (drop (Z.to_nat 0) (buffer_ptr rb)).
Proof.
  intros Hwf Hlen. cbn zeta. pose proof (length_contents rb).
  pose proof (fill_range rb Hwf) as Hf.
  apply list_eq. intros i. destruct (decide (Z.of_nat i < len)) as [Hi|Hi].
  - rewrite lookup_take_lt, contents_lookup by (done || lia). destruct Hwf.
    unfold ix; cbn.
    destruct (Z.ltb_spec len (buffer_size rb - read_index rb)).
    + rewrite (proj2 (Z.ltb_lt _ _)), lookup_take_lt, lookup_drop by lia. f_equal. lia.
    + destruct (Z.ltb_spec (read_index rb + Z.of_nat i) (buffer_size rb)).
      * rewrite lookup_app_l by (rewrite length_take, length_drop; lia).
        rewrite lookup_take_lt, lookup_drop by lia. f_equal. lia.
      * rewrite lookup_app_r by (rewrite length_take, length_drop; lia).
        rewrite length_take, length_drop, lookup_take_lt, lookup_drop by lia. f_equal. lia.
  - destruct Hwf. rewrite !lookup_ge_None_2; [done| |rewrite length_take; lia].
    zcases; rewrite ?length_app, ?length_take, ?length_drop; lia.
Qed.

(** Storing one byte at the write position is [put_copy] of a one-byte source. *)
Lemma write_char rb ch :
  wf rb → ∃ p, mem_write (buffer_ptr rb) (write_index rb) [ch] = Some p ∧
               copied rb [ch] 1 p ∧
               (if write_index rb =? buffer_size rb - 1
                then set_write (set_pool rb p) (negb (write_mirror rb)) 0
                else set_write (set_pool rb p) (write_mirror rb) (write_index rb + 1)) =
               advance rb p 1.
Proof.
  intros []. destruct (mem_write_some (buffer_ptr rb) (write_index rb) [ch])
    as (p & -> & Hl & Hin & Hout); [lia|cbn; lia|].
  exists p. split_and!; [done|split_and!; [done| |]|].
  - intros i Hi. replace i with 0%nat by lia. unfold ix; cbn.
    rewrite Z.add_0_r, (proj2 (Z.ltb_lt _ _)) by lia.
    etransitivity; [|apply (Hin 0%nat); cbn; lia]. f_equal. lia.
  - intros j Hj. apply Hout. specialize (Hj 0%nat ltac:(lia)).
    unfold ix in Hj; cbn in Hj. rewrite Z.add_0_r, (proj2 (Z.ltb_lt _ _)) in Hj by lia.
    cbn. lia.
  - unfold advance, set_write, set_pool; cbn. zcases; try lia.
    all: rewrite wrap_small by lia; f_equal; lia.
Qed.

(** The state after one byte is taken from the read position. *)
Lemma read_char rb :
  wf rb → (if read_index rb =? buffer_size rb - 1
           then set_read rb (negb (read_mirror rb)) 0
           else set_read rb (read_mirror rb) (read_index rb + 1)) = consume rb 1.
Proof.
  intros []. unfold consume, set_read; cbn. zcases; try lia.
  all: rewrite wrap_small by lia; f_equal; lia.
Qed.

(** Overwriting: dropping the [k] oldest bytes first and then storing [len]. *)
Lemma contents_overwrite rb ptr p len k :
  wf rb → copied rb ptr len p → 0 ≤ k ≤ fill rb →
  0 ≤ len ≤ buffer_size rb - fill rb + k → len ≤ Z.of_nat (length ptr) →
  wf (advance (consume rb k) p len) ∧
  contents (advance (consume rb k) p len) =
    drop (Z.to_nat k) (contents rb) ++ take (Z.to_nat len) ptr.
Proof.
  intros Hwf Hp Hk Hlen Hptr. destruct (consume_wf rb k Hwf Hk) as [Hwf' Hf'].
  change (buffer_size rb) with (buffer_size (consume rb k)) in Hlen.
  split; [apply advance_wf; [done|apply Hp|lia]|].
  rewrite <- contents_consume by done. apply contents_advance; [done|exact Hp|lia|done].
Qed.

(** * Properties *)

(** [rt_ringbuffer_init] with a positive 15-bit size that leaves at least
    one aligned word produces a well-formed empty buffer. *)
Theorem rt_ringbuffer_init_empty pool size :
  4 ≤ size < 2 ^ 15 → size ≤ Z.of_nat (length pool) →
  ∃ rb, rt_ringbuffer_init pool size = Some rb ∧ wf rb ∧ contents rb = [].
Proof.
  intros Hs Hp. unfold rt_ringbuffer_init.
  rewrite (swrap_small 16 size) by lia. rewrite (proj2 (Z.ltb_lt _ _)) by lia.
  destruct (align_down_4 size) as [Ha Hle].
  pose proof (Hle 1). set (a := RT_ALIGN_DOWN size RT_ALIGN_SIZE) in *.
  eexists. split; [done|]. rewrite swrap_small by lia.
  split; [split; cbn; intros; try done; lia|done].
Qed.

(** C36: [rt_ringbuffer_put] appends as many of the caller's bytes as fit, in
    order, returns their number and keeps the buffer well formed. *)
Theorem rt_ringbuffer_put_spec rb ptr len :
  wf rb → 0 ≤ len < 2 ^ 16 → len ≤ Z.of_nat (length ptr) →
  ∃ rb', let n := Z.min len (buffer_size rb - Z.of_nat (length (contents rb))) in
    rt_ringbuffer_put rb ptr len = Some (n, rb') ∧ wf rb' ∧
    contents rb' = contents rb ++ take (Z.to_nat n) ptr.
Proof.
  intros Hwf Hlen Hptr. pose proof (fill_range rb Hwf) as Hf.
  rewrite length_contents, Z.max_r by lia. cbn zeta.
  unfold rt_ringbuffer_put. rewrite space_len_fill by done.
  rewrite (wrap_small 16) by (destruct Hwf; lia). cbn zeta.
  destruct (Z.eqb_spec (buffer_size rb - fill rb) 0) as [E|E].
  - exists rb. rewrite E, Z.min_r by lia. rewrite take_0, app_nil_r. done.
  - replace (if buffer_size rb - fill rb <? len then buffer_size rb - fill rb else len)
      with (Z.min len (buffer_size rb - fill rb)) by (zcases; lia).
    set (n := Z.min len (buffer_size rb - fill rb)).
    destruct (put_copy_spec rb ptr n) as (p & -> & Hp); [done|lia..|].
    destruct (advance_wf rb p n) as [Hwf' _]; [done|apply Hp|lia|].
    exists (advance rb p n). split_and!; [done|done|].
    apply contents_advance; (done || lia).
Qed.

(** [rt_ringbuffer_get] delivers the oldest bytes, at most [len] of them, and
    removes exactly those from the queue. *)
Theorem rt_ringbuffer_get_spec rb len :
  wf rb → 0 ≤ len < 2 ^ 16 →
  ∃ rb', let n := Z.min len (Z.of_nat (length (contents rb))) in
    rt_ringbuffer_get rb len = Some (n, take (Z.to_nat n) (contents rb), rb') ∧
    wf rb' ∧ contents rb' = drop (Z.to_nat n) (contents rb).
Proof.
  intros Hwf Hlen. pose proof (fill_range rb Hwf) as Hf.
  rewrite length_contents, Z.max_r by lia. cbn zeta.
  unfold rt_ringbuffer_get. rewrite data_len_fill by done. cbn zeta.
  destruct (Z.eqb_spec (fill rb) 0) as [E|E].
  - exists rb. rewrite E, Z.min_r by lia. done.
  - replace (if fill rb <? len then u16 (fill rb) else len) with (Z.min len (fill rb))
      by (destruct Hwf; rewrite wrap_small by lia; zcases; lia).
    set (n := Z.min len (fill rb)). exists (consume rb n).
    destruct (consume_wf rb n) as [Hwf' _]; [done|lia|].
    rewrite contents_consume, read_prefix by (done || lia).
    split_and!; [|done|done].
    destruct Hwf. rewrite Z.gtb_ltb. unfold consume; cbn zeta.
    destruct (Z.ltb_spec n (buffer_size rb - read_index rb)).
    + rewrite mem_read_some, (proj2 (Z.ltb_lt (_ + n) _)) by lia. cbn.
      unfold set_read. by rewrite wrap_small by lia.
    + rewrite (mem_read_some _ (read_index rb)), (mem_read_some _ 0) by lia.
      rewrite (proj2 (Z.ltb_ge (_ + n) _)) by lia. cbn.
      unfold set_read. rewrite wrap_small by lia.
      by replace (n - (buffer_size rb - read_index rb))
        with (read_index rb + n - buffer_size rb) by lia.
Qed.

(** [rt_ringbuffer_putchar] appends the byte and returns 1, or leaves a full
    buffer unchanged and returns 0. *)
Theorem rt_ringbuffer_putchar_spec rb ch :
  wf rb →
  if Z.of_nat (length (contents rb)) =? buffer_size rb
  then rt_ringbuffer_putchar rb ch = Some (0, rb)
  else ∃ rb', rt_ringbuffer_putchar rb ch = Some (1, rb') ∧ wf rb' ∧
              contents rb' = contents rb ++ [ch].
Proof.
  intros Hwf. pose proof (fill_range rb Hwf) as Hf.
  rewrite length_contents, Z.max_r by lia.
  unfold rt_ringbuffer_putchar. rewrite space_len_fill by done.
  destruct (Z.eqb_spec (fill rb) (buffer_size rb)).
  - by rewrite (proj2 (Z.eqb_eq _ _)) by lia.
  - rewrite (proj2 (Z.eqb_neq (_ - _) 0)) by lia.
    destruct (write_char rb ch Hwf) as (p & -> & Hp & Ha). cbn. rewrite Ha.
    eexists. split; [done|]. split; [apply advance_wf; [done|apply Hp|lia]|].
    apply (contents_advance rb [ch]); (done || cbn; lia).
Qed.

(** [rt_ringbuffer_putchar_force] always stores the byte; on a full buffer it
    drops the oldest one. *)
Theorem rt_ringbuffer_putchar_force_spec rb ch :
  wf rb →
  ∃ rb', rt_ringbuffer_putchar_force rb ch = Some (1, rb') ∧ wf rb' ∧
    contents rb' =
      (if Z.of_nat (length (contents rb)) =? buffer_size rb
       then tail (contents rb) else contents rb) ++ [ch].
Proof.
  intros Hwf. pose proof (fill_range rb Hwf) as Hf. pose proof (data_len_fill rb Hwf) as Hd.
  rewrite length_contents, Z.max_r by lia.
  unfold rt_ringbuffer_putchar_force.
  destruct (write_char rb ch Hwf) as (p & -> & Hp & Ha). cbn.
  destruct (Z.eqb_spec (fill rb) (buffer_size rb)) as [E|E].
  - assert (rt_ringbuffer_status rb = RT_RINGBUFFER_FULL ∧ read_index rb = write_index rb)
      as [-> Hrw].
    { clear Ha Hp. destruct Hwf. unfold rt_ringbuffer_status, fill in *.
      destruct (read_mirror rb), (write_mirror rb); cbn in *; use_mirrors; zcases; split; (done || lia). }
    pose proof (wf_size rb Hwf).
    destruct (contents_overwrite rb [ch] p 1 1) as [Hw Hc]; [done..|lia|lia|cbn; lia|].
    exists (advance (consume rb 1) p 1).
    replace (tail (contents rb)) with (drop (Z.to_nat 1) (contents rb))
      by (by destruct (contents rb)).
    split_and!; [|done|done].
    unfold advance, consume, set_read, set_write, set_pool; cbn. rewrite Hrw.
    destruct Hwf. zcases; try lia; cbn.
    all: rewrite !(wrap_small 15) by (rewrite ?(wrap_small 15) by lia; lia).
    all: repeat f_equal; lia.
  - replace (match rt_ringbuffer_status rb with RT_RINGBUFFER_FULL => true | _ => false end)
      with false.
    + exists (advance rb p 1). rewrite Ha. split; [done|].
      split; [apply advance_wf; [done|apply Hp|lia]|].
      apply (contents_advance rb [ch]); (done || cbn; lia).
    + unfold rt_ringbuffer_data_len in Hd. destruct (rt_ringbuffer_status rb); try done.
      rewrite wrap_small in Hd by (destruct Hwf; lia). lia.
Qed.

(** [rt_ringbuffer_getchar] returns the oldest byte and removes it, or
    returns 0 on an empty buffer. *)
Theorem rt_ringbuffer_getchar_spec rb :
  wf rb →
  match contents rb with
  | [] => rt_ringbuffer_getchar rb = Some (0, None, rb)
  | c :: q => ∃ rb', rt_ringbuffer_getchar rb = Some (1, Some c, rb') ∧ wf rb' ∧
                     contents rb' = q
  end.
Proof.
  intros Hwf. pose proof (fill_range rb Hwf) as Hf. pose proof (length_contents rb) as Hl.
  unfold rt_ringbuffer_getchar. rewrite data_len_fill by done.
  destruct (contents rb) as [|c q] eqn:Ec; cbn in Hl.
  - by rewrite (proj2 (Z.eqb_eq _ _)) by lia.
  - rewrite (proj2 (Z.eqb_neq _ _)) by lia.
    rewrite mem_read_some by (destruct Hwf; lia). cbn. rewrite read_char by done.
    exists (consume rb 1). split_and!.
    + repeat f_equal.
      assert (contents rb !! 0%nat = Some c) as H0 by (by rewrite Ec).
      rewrite contents_lookup in H0 by (done || lia). unfold ix in H0; cbn in H0.
      rewrite Z.add_0_r, (proj2 (Z.ltb_lt _ _)) in H0 by (destruct Hwf; lia).
      by rewrite (drop_S _ _ _ H0).
    + apply consume_wf; (done || lia).
    + rewrite contents_consume by (done || lia). by rewrite Ec.
Qed.

(** The state [put_force] leaves, in terms of [advance] and the read position. *)
Lemma put_force_run rb ptr len :
  wf rb → 0 ≤ len ≤ buffer_size rb → len ≤ Z.of_nat (length ptr) →
  ∃ p, copied rb ptr len p ∧
    rt_ringbuffer_put_force rb ptr len =
      Some (len, let rb' := advance rb p len in
        if buffer_size rb - fill rb <? len then
          set_read rb' (if write_index rb + len <? buffer_size rb then read_mirror rb
                        else negb (read_mirror rb)) (write_index rb')
        else rb').
Proof.
  intros Hwf Hlen Hptr. destruct (put_copy_spec rb ptr len Hwf Hlen Hptr) as (p & Hr & Hp).
  exists p. split; [done|]. unfold rt_ringbuffer_put_force.
  rewrite space_len_fill by done. pose proof (fill_range rb Hwf).
  rewrite (wrap_small 16 (buffer_size rb - fill rb)) by (destruct Hwf; lia). cbn zeta.
  rewrite (proj2 (Z.ltb_ge (buffer_size rb) len)) by lia. rewrite Hr. cbn [mbind option_bind].
  rewrite Z.gtb_ltb.
  destruct (Z.ltb_spec len (buffer_size rb - write_index rb)).
  - rewrite (proj2 (Z.ltb_lt (_ + len) _)) by lia. done.
  - rewrite (proj2 (Z.ltb_ge (_ + len) _)) by lia. done.
Qed.

(** [rt_ringbuffer_put_force] of at most a bufferful either fits, and then
    appends; or overflows while writer and reader are in different mirrors, and
    then keeps exactly the newest [buffer_size] bytes. *)
Theorem rt_ringbuffer_put_force_spec rb ptr len :
  wf rb → 0 ≤ len ≤ buffer_size rb → len ≤ Z.of_nat (length ptr) →
  len ≤ buffer_size rb - Z.of_nat (length (contents rb)) ∨ read_mirror rb ≠ write_mirror rb →
  ∃ rb', rt_ringbuffer_put_force rb ptr len = Some (len, rb') ∧ wf rb' ∧
    contents rb' =
      drop (length (contents rb) + Z.to_nat len - Z.to_nat (buffer_size rb)) (contents rb)
      ++ take (Z.to_nat len) ptr.
Proof.
  intros Hwf Hlen Hptr Hcase. pose proof (fill_range rb Hwf) as Hf.
  pose proof (length_contents rb) as Hc. rewrite Z.max_r in Hc by lia. rewrite Hc in Hcase.
  destruct (put_force_run rb ptr len Hwf Hlen Hptr) as (p & Hp & ->). cbn zeta.
  eexists; split; [done|].
  replace (length (contents rb) + Z.to_nat len - Z.to_nat (buffer_size rb))%nat
    with (Z.to_nat (Z.max 0 (len - (buffer_size rb - fill rb)))) by lia.
  destruct (Z.ltb_spec (buffer_size rb - fill rb) len) as [Ho|Ho].
  - rewrite Z.max_r by lia. destruct Hcase as [?|Hm]; [lia|].
    destruct (contents_overwrite rb ptr p len (len - (buffer_size rb - fill rb)))
      as [Hw Hx]; [done..|lia|lia|done|].
    replace (set_read _ _ _)
      with (advance (consume rb (len - (buffer_size rb - fill rb))) p len); [done|].
    unfold advance, consume, set_read, fill in *; cbn.
    destruct Hwf. specialize (wf_diff0 Hm). apply eqb_false_iff in Hm. rewrite Hm in *.
    zcases; try lia; rewrite wrap_small by lia; f_equal; lia.
  - rewrite Z.max_l by lia. rewrite drop_0.
    split; [apply advance_wf; [done|apply Hp|lia]|].
    apply contents_advance; (done || lia).
Qed.

(** A defect of [rt_ringbuffer_put_force]: when the new bytes do not fit while
    writer and reader are in the same mirror, the routine flips both mirror bits
    and the buffer comes out empty: every stored byte, old and new, is lost. *)
Theorem put_force_loses_data rb ptr len :
  wf rb → buffer_size rb - Z.of_nat (length (contents rb)) < len ≤ buffer_size rb →
  len ≤ Z.of_nat (length ptr) → read_mirror rb = write_mirror rb →
  ∃ rb', rt_ringbuffer_put_force rb ptr len = Some (len, rb') ∧ contents rb' = [].
Proof.
  intros Hwf Hlen Hptr Hm. pose proof (fill_range rb Hwf) as Hf.
  rewrite length_contents, Z.max_r in Hlen by lia.
  destruct (put_force_run rb ptr len) as (p & Hp & ->); [done|lia..|]. cbn zeta.
  eexists; split; [done|].
  rewrite (proj2 (Z.ltb_lt (buffer_size rb - fill rb) len)) by lia.
  unfold contents. replace (fill _) with 0; [done|].
  unfold fill, advance, set_read in *; cbn.
  destruct Hwf. rewrite Hm in *. rewrite eqb_reflx in *.
  rewrite (proj2 (Z.ltb_ge _ _)) by lia. rewrite ?eqb_reflx, wrap_small by lia. lia.
Qed.

(** The situation of [put_force_loses_data] on a concrete 8-byte buffer: four
    bytes stored from index 2, six more forced in. *)
Definition rb_example : rt_ringbuffer :=
  mk_rb [0; 0; 1; 2; 3; 4; 0; 0] false 2 false 6 8.

Lemma rb_example_wf : wf rb_example.
Proof. split; cbn; intros; try done; lia. Qed.

(** A request of 32768 bytes or more makes [rt_ringbuffer_create] fail the
    assertion of [rt_ringbuffer_init], because the 16-bit unsigned size is passed
    as a signed 16-bit integer. *)
Theorem rt_ringbuffer_create_large_asserts malloc size pool :
  2 ^ 15 ≤ size < 2 ^ 16 → malloc (u16 (RT_ALIGN_DOWN size RT_ALIGN_SIZE)) = Some pool →
  rt_ringbuffer_create true malloc size = None.
Proof.
  intros Hs Hm. unfold rt_ringbuffer_create. rewrite (proj2 (Z.ltb_lt _ _)) by lia.
  rewrite Hm. unfold rt_ringbuffer_init.
  destruct (align_down_4 size) as [Ha Hle].
  pose proof (Hle 8192). set (a := RT_ALIGN_DOWN size RT_ALIGN_SIZE) in *.
  rewrite (wrap_small 16) by lia. unfold swrap. rewrite (wrap_small 16) by lia.
  rewrite (proj2 (Z.ltb_ge a (2 ^ (16 - 1)))) by lia.
  by rewrite (proj2 (Z.ltb_ge 0 _)) by lia.
Qed.

(** ** Witnesses *)

Lemma rt_ringbuffer_init_empty_witness :
  ∃ rb, rt_ringbuffer_init [0; 0; 0; 0; 0; 0] 6 = Some rb ∧ wf rb ∧ contents rb = [].
Proof. apply rt_ringbuffer_init_empty; zeval. Defined.

Lemma rt_ringbuffer_put_spec_witness :
  ∃ rb', rt_ringbuffer_put rb_example [7; 8; 9; 10; 11] 5 = Some (4, rb') ∧ wf rb' ∧
    contents rb' = [1; 2; 3; 4] ++ [7; 8; 9; 10].
Proof.
  apply (rt_ringbuffer_put_spec rb_example [7; 8; 9; 10; 11] 5);
    [exact rb_example_wf | lia | zeval].
Defined.

Lemma rt_ringbuffer_get_spec_witness :
  ∃ rb', rt_ringbuffer_get rb_example 3 = Some (3, [1; 2; 3], rb') ∧ wf rb' ∧
    contents rb' = [4].
Proof. apply (rt_ringbuffer_get_spec rb_example 3); [exact rb_example_wf | lia]. Defined.

Lemma rt_ringbuffer_putchar_spec_witness :
  ∃ rb', rt_ringbuffer_putchar rb_example 5 = Some (1, rb') ∧ wf rb' ∧
    contents rb' = [1; 2; 3; 4; 5].
Proof. exact (rt_ringbuffer_putchar_spec rb_example 5 rb_example_wf). Defined.

Lemma rt_ringbuffer_putchar_force_spec_witness :
  ∃ rb', rt_ringbuffer_putchar_force rb_example 5 = Some (1, rb') ∧ wf rb' ∧
    contents rb' = [1; 2; 3; 4; 5].
Proof. exact (rt_ringbuffer_putchar_force_spec rb_example 5 rb_example_wf). Defined.

Lemma rt_ringbuffer_getchar_spec_witness :
  ∃ rb', rt_ringbuffer_getchar rb_example = Some (1, Some 1, rb') ∧ wf rb' ∧
    contents rb' = [2; 3; 4].
Proof. exact (rt_ringbuffer_getchar_spec rb_example rb_example_wf). Defined.

Lemma rt_ringbuffer_put_force_spec_witness :
  ∃ rb', rt_ringbuffer_put_force rb_example [7; 8; 9] 3 = Some (3, rb') ∧ wf rb' ∧
    contents rb' = [1; 2; 3; 4; 7; 8; 9].
Proof.
  apply (rt_ringbuffer_put_force_spec rb_example [7; 8; 9] 3);
    [exact rb_example_wf | zeval | zeval | left; zeval].
Defined.

Lemma put_force_loses_data_witness :
  ∃ rb', rt_ringbuffer_put_force rb_example [7; 8; 9; 10; 11; 12] 6 = Some (6, rb') ∧
    contents rb' = [].
Proof.
  apply put_force_loses_data; [exact rb_example_wf | zeval | zeval | done].
Defined.

Lemma rt_ringbuffer_create_large_asserts_witness :
  rt_ringbuffer_create true (λ _, Some []) 40000 = None.
Proof. apply (rt_ringbuffer_create_large_asserts _ _ []); [lia | done]. Defined.

End RingBuffer.
