(* ===== verification/RtList.v ===== *)
(** The intrusive doubly linked lists of include/rtservice.h.

    Every queue of the kernel (ready lists, wait lists, the timer list, object
    containers) is a circular list of [rt_list_t] nodes embedded in the objects.
    This file models the C operations on the heap of nodes and proves that they
    implement the operations on mathematical sequences that the other files use
    ([dlist] is the representation predicate). *)

From Stdlib Require Import ZArith Lia.
From stdpp Require Import base numbers gmap option.
From stdpp Require Import list.
From S2P Require Import Prelude.

Module RtList.
Section rtlist.
Context {N : Type} `{Countable N}.

(** [struct rt_list_node] and the memory holding the nodes. *)
Record rt_list_node := mk_node { next : N; prev : N }.

Abbreviation heap := (gmap N rt_list_node).
Implicit Types (h : heap) (l n p q : N).

Definition get_next h n : option N := next <$> h !! n.
Definition get_prev h n : option N := prev <$> h !! n.
Definition set_next h n x : option heap :=
  c ← h !! n; Some (<[n := mk_node x (prev c)]> h).
Definition set_prev h n x : option heap :=
  c ← h !! n; Some (<[n := mk_node (next c) x]> h).

Definition rt_list_init h l : heap := <[l := mk_node l l]> h.

Definition rt_list_insert_after h l n : option heap :=
  x ← get_next h l;
  h ← set_prev h x n;            (* l->next->prev = n *)
  x ← get_next h l;
  h ← set_next h n x;            (* n->next = l->next *)
  h ← set_next h l n;            (* l->next = n *)
  set_prev h n l.                (* n->prev = l *)

Definition rt_list_insert_before h l n : option heap :=
  x ← get_prev h l;
  h ← set_next h x n;            (* l->prev->next = n *)
  x ← get_prev h l;
  h ← set_prev h n x;            (* n->prev = l->prev *)
  h ← set_prev h l n;            (* l->prev = n *)
  set_next h n l.                (* n->next = l *)

Definition rt_list_remove h n : option heap :=
  x ← get_next h n;
  y ← get_prev h n;
  h ← set_prev h x y;            (* n->next->prev = n->prev *)
  y ← get_prev h n;
  x ← get_next h n;
  h ← set_next h y x;            (* n->prev->next = n->next *)
  h ← set_prev h n n;            (* n->next = n->prev = n *)
  set_next h n n.

Definition rt_list_isempty h l : option bool :=
  x ← get_next h l; Some (bool_decide (x = l)).

(** The loop of [rt_list_len]; [fuel] bounds the number of iterations. *)
Fixpoint rt_list_len_loop (fuel : nat) h (l p : N) (len : Z) : option Z :=
  match fuel with
  | O => None
  | S fuel =>
      x ← get_next h p;
      if decide (x = l) then Some len
      else rt_list_len_loop fuel h l x (u32 (len + 1))
  end.

Definition rt_list_len (fuel : nat) h l : option Z := rt_list_len_loop fuel h l l 0%Z.

(** * Representation *)

(** [a] is immediately followed by [b]. *)
Definition linked h (a b : N) : Prop := get_next h a = Some b ∧ get_prev h b = Some a.

Fixpoint path h (ns : list N) : Prop :=
  match ns with
  | a :: (b :: _) as rest => linked h a b ∧ path h rest
  | _ => True
  end.

(** The circular list with head [hd] holds the nodes [xs], in this order. *)
Definition dlist h hd (xs : list N) : Prop :=
  NoDup (hd :: xs) ∧ path h (hd :: xs ++ [hd]).

(** The pointers of a heap agree with those of another except that [p], [n], [q]
    are consecutive. *)
Definition spliced h h' (p n q : N) : Prop :=
  get_next h' p = Some n ∧ get_next h' n = Some q ∧
  get_prev h' n = Some p ∧ get_prev h' q = Some n ∧
  (∀ m, m ≠ p → m ≠ n → get_next h' m = get_next h m) ∧
  (∀ m, m ≠ q → m ≠ n → get_prev h' m = get_prev h m).

(** The same for the removal of [n] between [p] and [q]. *)
Definition unspliced h h' (p n q : N) : Prop :=
  get_next h' p = Some q ∧ get_prev h' q = Some p ∧
  get_next h' n = Some n ∧ get_prev h' n = Some n ∧
  (∀ m, m ≠ p → m ≠ n → get_next h' m = get_next h m) ∧
  (∀ m, m ≠ q → m ≠ n → get_prev h' m = get_prev h m).

Lemma path_app h (l1 l2 : list N) a :
  path h (l1 ++ a :: l2) ↔ path h (l1 ++ [a]) ∧ path h (a :: l2).
Proof.
  induction l1 as [|b [|c l1] IH]; simpl in *.
  - tauto.
  - tauto.
  - rewrite IH. tauto.
Qed.

Lemma path_cons2 h a b (l : list N) :
  path h (a :: b :: l) ↔ linked h a b ∧ path h (b :: l).
Proof. done. Qed.

(** A path survives a heap change that keeps its outgoing next pointers and its
    incoming prev pointers. *)
Lemma path_frame h h' (l : list N) a :
  path h (l ++ [a]) →
  (∀ m, m ∈ l → get_next h' m = get_next h m) →
  (∀ m, m ∈ tail (l ++ [a]) → get_prev h' m = get_prev h m) →
  path h' (l ++ [a]).
Proof.
  induction l as [|b l IH]; [done|]. intros Hp Hn Hv.
  destruct l as [|c l]; simpl in *.
  - destruct Hp as [[H1 H2] _]. split; [|done].
    split; [rewrite Hn by constructor; done|rewrite Hv by constructor; done].
  - destruct Hp as [[H1 H2] Hp]. split.
    + split; [rewrite Hn by constructor; done|rewrite Hv by constructor; done].
    + apply IH; [done|intros; apply Hn; by constructor|intros; apply Hv; by constructor].
Qed.

Lemma set_next_some h n x c :
  h !! n = Some c → set_next h n x = Some (<[n := mk_node x (prev c)]> h).
Proof. unfold set_next. by intros ->. Qed.

Lemma set_prev_some h n x c :
  h !! n = Some c → set_prev h n x = Some (<[n := mk_node (next c) x]> h).
Proof. unfold set_prev. by intros ->. Qed.

Lemma get_next_inv h n x : get_next h n = Some x → ∃ y, h !! n = Some (mk_node x y).
Proof. unfold get_next. intros ([? ?] & -> & ?)%fmap_Some. simpl in *. subst. eauto. Qed.

Lemma get_prev_inv h n x : get_prev h n = Some x → ∃ y, h !! n = Some (mk_node y x).
Proof. unfold get_prev. intros ([? ?] & -> & ?)%fmap_Some. simpl in *. subst. eauto. Qed.

(** Runs the pointer assignments of an operation on a heap whose lookups are known. *)
Ltac run_list :=
  unfold get_next, get_prev, set_next, set_prev;
  repeat (progress (simplify_map_eq; simpl) || (rewrite lookup_insert; case_decide)).

Lemma insert_after_spliced h p n q c :
  linked h p q → h !! n = Some c → n ≠ p → n ≠ q →
  ∃ h', rt_list_insert_after h p n = Some h' ∧ spliced h h' p n q.
Proof.
  intros [(y & Hp)%get_next_inv (z & Hq)%get_prev_inv] Hn Hnp Hnq.
  unfold rt_list_insert_after, spliced.
  destruct (decide (p = q)) as [->|Hpq]; run_list;
    (eexists; split; [done|]); split_and!; intros; run_list; done.
Qed.

Lemma insert_before_spliced h p n q c :
  linked h p q → h !! n = Some c → n ≠ p → n ≠ q →
  ∃ h', rt_list_insert_before h q n = Some h' ∧ spliced h h' p n q.
Proof.
  intros [(y & Hp)%get_next_inv (z & Hq)%get_prev_inv] Hn Hnp Hnq.
  unfold rt_list_insert_before, spliced.
  destruct (decide (p = q)) as [->|Hpq]; run_list;
    (eexists; split; [done|]); split_and!; intros; run_list; done.
Qed.

Lemma remove_unspliced h p n q :
  linked h p n → linked h n q → n ≠ p → n ≠ q →
  ∃ h', rt_list_remove h n = Some h' ∧ unspliced h h' p n q.
Proof.
  intros [(y & Hp)%get_next_inv (z & Hn)%get_prev_inv]
    [(y' & Hn')%get_next_inv (z' & Hq)%get_prev_inv] Hnp Hnq.
  rewrite Hn in Hn'. injection Hn' as -> <-. unfold rt_list_remove, unspliced.
  destruct (decide (p = q)) as [->|Hpq]; run_list;
    (eexists; split; [done|]); split_and!; intros; run_list; done.
Qed.

(** Splitting the closed path of a list at an adjacent pair. *)
Lemma dlist_split h hd (l1 l2 : list N) :
  ∃ k1 p q k2, hd :: l1 = k1 ++ [p] ∧ l2 ++ [hd] = q :: k2 ∧
    (path h (hd :: (l1 ++ l2) ++ [hd]) ↔
     path h (k1 ++ [p]) ∧ linked h p q ∧ path h (q :: k2)).
Proof.
  destruct (exists_last (l := hd :: l1)) as (k1 & p & E1); [done|].
  destruct (l2 ++ [hd]) as [|q k2] eqn:E2; [by destruct l2|].
  exists k1, p, q, k2. split_and!; [done|done|].
  rewrite <- app_assoc, E2, app_comm_cons, E1, <- app_assoc. cbn [app].
  rewrite path_app. simpl. tauto.
Qed.

(** Facts about the neighbours [p] and [q] of a position in a circular list. *)
Lemma neighbours hd (l1 l2 k1 k2 : list N) p q :
  hd :: l1 = k1 ++ [p] → l2 ++ [hd] = q :: k2 → NoDup (hd :: l1 ++ l2) →
  (p ∈ hd :: l1) ∧ (q ∈ hd :: l2) ∧ (p ∉ k1) ∧ (p ∉ l2) ∧ (q ∉ l1) ∧ (q ∉ k2) ∧
  (∀ m, m ∈ k1 → m ∈ hd :: l1) ∧ (∀ m, m ∈ k2 → m ∈ hd :: l2).
Proof.
  intros E1 E2 Hnd.
  assert (NoDup (k1 ++ [p])) as Hnd1.
  { rewrite <- E1. rewrite app_comm_cons in Hnd. by apply list.NoDup_app in Hnd as [? _]. }
  apply NoDup_cons in Hnd as [Hhd (Hn1 & H12 & Hn2)%list.NoDup_app].
  assert (NoDup (q :: k2)) as Hnd2.
  { rewrite <- E2. apply list.NoDup_app. split_and!; [done|set_solver|apply NoDup_singleton]. }
  apply list.NoDup_app in Hnd1 as (_ & Hd1 & _). apply NoDup_cons in Hnd2 as [Hd2 _].
  assert (∀ m, m ∈ k1 ++ [p] → m ∈ hd :: l1) as Hk1 by (rewrite E1; done).
  assert (∀ m, m ∈ q :: k2 → m ∈ hd :: l2) as Hk2 by (rewrite <- E2; set_solver).
  assert (p ∈ hd :: l1) by (apply Hk1; set_solver).
  assert (q ∈ hd :: l2) by (apply Hk2; set_solver).
  split_and!; [done|done|set_solver|set_solver|set_solver|done|set_solver|set_solver].
Qed.

Lemma dlist_spliced h h' hd (l1 l2 : list N) n k1 p q k2 :
  hd :: l1 = k1 ++ [p] → l2 ++ [hd] = q :: k2 →
  dlist h hd (l1 ++ l2) → n ∉ hd :: l1 ++ l2 → spliced h h' p n q →
  dlist h' hd (l1 ++ n :: l2).
Proof.
  intros E1 E2 [Hnd Hp] Hn (Hpn & Hnq & Hvp & Hvq & Hfn & Hfv).
  destruct (neighbours hd l1 l2 k1 k2 p q) as (Hpm & Hqm & Hpk & Hpl & Hql & Hqk & Hk1 & Hk2);
    [done..|].
  split.
  { apply NoDup_cons in Hnd as [? (? & ? & ?)%list.NoDup_app].
    apply NoDup_cons. split; [set_solver|].
    apply list.NoDup_app. split_and!; [done|set_solver|].
    apply NoDup_cons. split; [set_solver|done]. }
  rewrite <- app_assoc in Hp |- *. cbn [app]. rewrite E2 in Hp |- *.
  rewrite app_comm_cons in Hp |- *. rewrite E1 in Hp |- *.
  rewrite <- app_assoc in Hp |- *. cbn [app] in *.
  apply path_app in Hp as [Hp1 Hp2]. apply path_app. split; [|].
  - apply (path_frame h); [done| |]; rewrite <- ?E1; cbn [tail]; intros m Hm.
    + apply Hfn; [by intros ->|]. intros ->. apply Hn. set_solver.
    + apply Hfv; [by intros ->|]. intros ->. apply Hn. set_solver.
  - rewrite !path_cons2 in Hp2 |- *. destruct Hp2 as [_ Hp2].
    split; [by split|]. split; [by split|].
    rewrite <- E2 in Hp2 |- *. apply (path_frame h); [done| |]; intros m Hm.
    + apply Hfn; [by intros ->|]. intros ->. apply Hn. set_solver.
    + rewrite E2 in Hm; cbn [tail] in Hm. apply Hfv; [by intros ->|]. intros ->.
      apply Hn. specialize (Hk2 n Hm). set_solver.
Qed.

Lemma dlist_unspliced h h' hd (l1 l2 : list N) n k1 p q k2 :
  hd :: l1 = k1 ++ [p] → l2 ++ [hd] = q :: k2 →
  dlist h hd (l1 ++ n :: l2) → unspliced h h' p n q →
  dlist h' hd (l1 ++ l2).
Proof.
  intros E1 E2 [Hnd Hp] (Hpq & Hvq & _ & _ & Hfn & Hfv).
  assert (NoDup (hd :: l1 ++ l2) ∧ n ∉ hd :: l1 ++ l2) as [Hnd' Hn].
  { rewrite <- Permutation_middle, NoDup_cons, NoDup_cons in Hnd.
    rewrite NoDup_cons. set_solver. }
  destruct (neighbours hd l1 l2 k1 k2 p q) as (Hpm & Hqm & Hpk & Hpl & Hql & Hqk & Hk1 & Hk2);
    [done..|].
  split; [done|].
  rewrite <- app_assoc in Hp |- *. cbn [app] in *. rewrite E2 in Hp |- *.
  rewrite app_comm_cons in Hp |- *. rewrite E1 in Hp |- *.
  rewrite <- app_assoc in Hp |- *. cbn [app] in *.
  apply path_app in Hp as [Hp1 Hp2]. apply path_app. split; [|].
  - apply (path_frame h); [done| |]; rewrite <- ?E1; cbn [tail]; intros m Hm.
    + apply Hfn; [by intros ->|]. intros ->. apply Hn. set_solver.
    + apply Hfv; [by intros ->|]. intros ->. apply Hn. set_solver.
  - rewrite !path_cons2 in Hp2 |- *. destruct Hp2 as (_ & _ & Hp2). split; [by split|].
    rewrite <- E2 in Hp2 |- *. apply (path_frame h); [done| |]; intros m Hm.
    + apply Hfn; [by intros ->|]. intros ->. apply Hn. set_solver.
    + rewrite E2 in Hm; cbn [tail] in Hm. apply Hfv; [by intros ->|]. intros ->.
      apply Hn. specialize (Hk2 n Hm). set_solver.
Qed.

Lemma dlist_frame h h' hd (xs : list N) :
  dlist h hd xs → (∀ m, m ∈ hd :: xs → get_next h' m = get_next h m) →
  (∀ m, m ∈ hd :: xs → get_prev h' m = get_prev h m) → dlist h' hd xs.
Proof.
  intros [Hnd Hp] Hn Hv. split; [done|]. rewrite app_comm_cons in Hp |- *.
  apply (path_frame h); [done|done|]. intros m Hm. apply Hv. cbn in Hm. set_solver.
Qed.

(** A list disjoint from the three nodes of a splice is untouched. *)
Lemma spliced_other h h' p n q hd (xs : list N) :
  spliced h h' p n q ∨ unspliced h h' p n q →
  p ∉ hd :: xs → n ∉ hd :: xs → q ∉ hd :: xs → dlist h hd xs → dlist h' hd xs.
Proof.
  intros Hs Hp Hn Hq Hd.
  assert ((∀ m, m ≠ p → m ≠ n → get_next h' m = get_next h m) ∧
          (∀ m, m ≠ q → m ≠ n → get_prev h' m = get_prev h m)) as [Hfn Hfv]
    by (destruct Hs as [(_ & _ & _ & _ & ? & ?)|(_ & _ & _ & _ & ? & ?)]; done).
  apply (dlist_frame h); [done| |]; intros m Hm; [apply Hfn|apply Hfv]; set_solver.
Qed.

(** * Properties *)

(** Other lists of the heap: disjoint from the list operated on and from the node. *)
Definition others_kept h h' hd (xs : list N) (n : N) : Prop :=
  ∀ hd' xs', dlist h hd' xs' → (∀ m, m ∈ hd' :: xs' → m ∉ hd :: xs ∧ m ≠ n) →
    dlist h' hd' xs'.

(** [rt_list_insert_before] inserts a free node in front of the given
    position (the list head stands for the end), and touches no other list. *)
Theorem rt_list_insert_before_spec h hd (l1 l2 : list N) n q :
  dlist h hd (l1 ++ l2) → head (l2 ++ [hd]) = Some q →
  n ∉ hd :: l1 ++ l2 → is_Some (h !! n) →
  ∃ h', rt_list_insert_before h q n = Some h' ∧
    dlist h' hd (l1 ++ n :: l2) ∧ others_kept h h' hd (l1 ++ l2) n.
Proof.
  intros Hd Hq Hn [c Hc]. destruct Hd as [Hnd Hp].
  destruct (dlist_split h hd l1 l2) as (k1 & p & q' & k2 & E1 & E2 & Hs).
  rewrite E2 in Hq. injection Hq as ->.
  destruct (neighbours hd l1 l2 k1 k2 p q) as (Hpm & Hqm & _); [done..|].
  assert (linked h p q) as Hl by exact (proj1 (proj2 (proj1 Hs Hp))).
  destruct (insert_before_spliced h p n q c) as (h' & -> & Hsp);
    [done|done|set_solver|set_solver|].
  exists h'. split_and!; [done|by eapply dlist_spliced|].
  intros hd' xs' Hd' Hdis. apply (spliced_other h h' p n q); [by left|..|done].
  - intros Hx%Hdis. set_solver.
  - intros Hx%Hdis. by destruct Hx.
  - intros Hx%Hdis. set_solver.
Qed.

(** [rt_list_insert_after] inserts a free node behind the given position
    (behind the list head: at the front), and touches no other list. *)
Theorem rt_list_insert_after_spec h hd (l1 l2 : list N) n p :
  dlist h hd (l1 ++ l2) → last (hd :: l1) = Some p →
  n ∉ hd :: l1 ++ l2 → is_Some (h !! n) →
  ∃ h', rt_list_insert_after h p n = Some h' ∧
    dlist h' hd (l1 ++ n :: l2) ∧ others_kept h h' hd (l1 ++ l2) n.
Proof.
  intros Hd Hq Hn [c Hc]. destruct Hd as [Hnd Hp].
  destruct (dlist_split h hd l1 l2) as (k1 & p' & q & k2 & E1 & E2 & Hs).
  rewrite E1, last_snoc in Hq. injection Hq as ->.
  destruct (neighbours hd l1 l2 k1 k2 p q) as (Hpm & Hqm & _); [done..|].
  assert (linked h p q) as Hl by exact (proj1 (proj2 (proj1 Hs Hp))).
  destruct (insert_after_spliced h p n q c) as (h' & -> & Hsp);
    [done|done|set_solver|set_solver|].
  exists h'. split_and!; [done|by eapply dlist_spliced|].
  intros hd' xs' Hd' Hdis. apply (spliced_other h h' p n q); [by left|..|done].
  - intros Hx%Hdis. set_solver.
  - intros Hx%Hdis. by destruct Hx.
  - intros Hx%Hdis. set_solver.
Qed.

(** [rt_list_remove] unlinks the node, leaves it self-linked (so that a second
    removal is harmless), and touches no other list. *)
Theorem rt_list_remove_spec h hd (l1 l2 : list N) n :
  dlist h hd (l1 ++ n :: l2) →
  ∃ h', rt_list_remove h n = Some h' ∧ dlist h' hd (l1 ++ l2) ∧ dlist h' n [] ∧
    others_kept h h' hd (l1 ++ l2) n.
Proof.
  intros Hd. pose proof Hd as [Hnd Hp].
  destruct (dlist_split h hd l1 l2) as (k1 & p & q & k2 & E1 & E2 & _).
  assert (NoDup (hd :: l1 ++ l2) ∧ n ∉ hd :: l1 ++ l2) as [Hnd' Hn].
  { rewrite <- Permutation_middle, NoDup_cons, NoDup_cons in Hnd.
    rewrite NoDup_cons. set_solver. }
  destruct (neighbours hd l1 l2 k1 k2 p q) as (Hpm & Hqm & _); [done..|].
  rewrite <- app_assoc in Hp. cbn [app] in Hp. rewrite E2, app_comm_cons, E1 in Hp.
  rewrite <- app_assoc in Hp. cbn [app] in Hp.
  apply path_app in Hp as [_ Hp]. rewrite !path_cons2 in Hp. destruct Hp as (Hl1 & Hl2 & _).
  destruct (remove_unspliced h p n q) as (h' & -> & Hu); [done|done|set_solver|set_solver|].
  exists h'. split_and!; [done|by eapply dlist_unspliced| |].
  - destruct Hu as (_ & _ & ? & ? & _). split; [apply NoDup_singleton|done].
  - intros hd' xs' Hd' Hdis. apply (spliced_other h h' p n q); [by right|..|done].
    + intros Hx%Hdis. set_solver.
    + intros Hx%Hdis. by destruct Hx.
    + intros Hx%Hdis. set_solver.
Qed.

(** [rt_list_isempty] holds exactly of the empty list. *)
Theorem rt_list_isempty_spec h hd (xs : list N) :
  dlist h hd xs → rt_list_isempty h hd = Some (bool_decide (xs = [])).
Proof.
  intros [Hnd Hp]. unfold rt_list_isempty.
  destruct xs as [|x xs]; cbn [app] in Hp; rewrite path_cons2 in Hp; destruct Hp as [[-> _] _].
  - cbn. by rewrite !bool_decide_eq_true_2.
  - cbn. apply NoDup_cons in Hnd as [Hnd _].
    by rewrite (bool_decide_eq_false_2 (x = hd)) by (intros ->; set_solver).
Qed.

Lemma rt_list_len_loop_spec h hd (xs : list N) p len fuel :
  path h (p :: xs ++ [hd]) → hd ∉ xs → length xs < fuel →
  rt_list_len_loop fuel h hd p len = Some (fold_left (λ (k : Z) (_ : N), u32 (k + 1)) xs len).
Proof.
  revert p len fuel. induction xs as [|x xs IH]; intros p len [|fuel] Hp Hn Hf; try (simpl in Hf; lia).
  - simpl in *. destruct Hp as [[-> _] _]. simpl. by rewrite decide_True.
  - cbn [app] in Hp. rewrite path_cons2 in Hp. destruct Hp as [[Hx _] Hp].
    simpl. rewrite Hx. simpl. rewrite decide_False by set_solver.
    apply IH; [done|set_solver|simpl in Hf; lia].
Qed.

(** [rt_list_len] terminates and counts the nodes of the list (modulo 2^32). *)
Theorem rt_list_len_spec h hd (xs : list N) :
  dlist h hd xs → rt_list_len (S (length xs)) h hd = Some (u32 (Z.of_nat (length xs))).
Proof.
  intros [Hnd Hp]. unfold rt_list_len. apply NoDup_cons in Hnd as [Hhd _].
  rewrite (rt_list_len_loop_spec h hd xs) by (done || lia). f_equal.
  assert (∀ k, fold_left (λ (j : Z) (_ : N), u32 (j + 1)) xs (u32 k) = u32 (k + Z.of_nat (length xs)))
    as Hk.
  { clear. induction xs as [|x xs IH]; intros k; simpl; [by rewrite Z.add_0_r|].
    rewrite wrap_add_wrap_l, IH. f_equal. lia. }
  exact (Hk 0%Z).
Qed.

End rtlist.

(** ** Witnesses: nodes are numbers, the head is 0. *)

Definition heap_example : gmap nat rt_list_node :=
  {[0 := mk_node 1 2; 1 := mk_node 2 0; 2 := mk_node 0 1; 7 := mk_node 7 7]}.

Lemma heap_example_dlist : dlist heap_example 0 [1; 2].
Proof. split; [|done]. repeat constructor; set_solver. Qed.

Lemma rt_list_insert_before_spec_witness :
  ∃ h', rt_list_insert_before heap_example 0 7 = Some h' ∧ dlist h' 0 [1; 2; 7] ∧
    others_kept heap_example h' 0 [1; 2] 7.
Proof.
  apply (rt_list_insert_before_spec heap_example 0 [1; 2] [] 7 0);
    [exact heap_example_dlist | done | set_solver | by eexists].
Defined.

Lemma rt_list_insert_after_spec_witness :
  ∃ h', rt_list_insert_after heap_example 0 7 = Some h' ∧ dlist h' 0 [7; 1; 2] ∧
    others_kept heap_example h' 0 [1; 2] 7.
Proof.
  apply (rt_list_insert_after_spec heap_example 0 [] [1; 2] 7 0);
    [exact heap_example_dlist | done | set_solver | by eexists].
Defined.

Lemma rt_list_remove_spec_witness :
  ∃ h', rt_list_remove heap_example 1 = Some h' ∧ dlist h' 0 [2] ∧ dlist h' 1 [] ∧
    others_kept heap_example h' 0 [2] 1.
Proof. apply (rt_list_remove_spec heap_example 0 [] [2] 1). exact heap_example_dlist. Defined.

Lemma rt_list_isempty_spec_witness :
  rt_list_isempty heap_example 0 = Some (bool_decide ([1; 2] = [])).
Proof. apply rt_list_isempty_spec. exact heap_example_dlist. Defined.

Lemma rt_list_len_spec_witness : rt_list_len 3 heap_example 0 = Some (u32 2).
Proof. apply (rt_list_len_spec heap_example 0 [1; 2]). exact heap_example_dlist. Defined.

End RtList.
