(* ===== verification/RingBlk.v ===== *)
(** Ring block buffers, components/drivers/src/ringblk_buf.c: blocks of a buffer are
    allocated behind each other, put and got in order without copying. The blocks that are
    allocated form a singly linked list (include/rtservice.h), here on the pointers
    themselves. *)

From Stdlib Require Import ZArith Lia.
From stdpp Require Import base numbers option.
From stdpp Require Import list sets.
From S2P Require Import Prelude.
Local Open Scope Z_scope.
Local Open Scope rt_scope.

Module Rbb.

(** * State *)

Inductive rt_rbb_status := RT_RBB_BLK_UNUSED | RT_RBB_BLK_INITED | RT_RBB_BLK_PUT | RT_RBB_BLK_GET.
#[export] Instance status_eq_dec : EqDecision rt_rbb_status.
Proof. solve_decision. Defined.

(** A block; [blk_next] is the [next] of its list node, the index of another block of the
    set or null. *)
Record rt_rbb_blk := mk_blk {
  blk_status : rt_rbb_status;
  blk_size : Z;
  blk_buf : Z;
  blk_next : option nat
}.

(** The structure, with the array of the blocks it points to; [rbb_list] is the [next] of
    the head of the list. *)
Record rt_rbb := mk_rbb {
  rbb_buf : Z;
  rbb_buf_size : Z;
  rbb_blk_set : list rt_rbb_blk;
  rbb_blk_max_num : Z;
  rbb_list : option nat
}.

Record rt_rbb_blk_queue := mk_queue { bq_blocks : nat; bq_blk_num : Z }.

Abbreviation R := (M rt_rbb).

Definition set_blocks (bs : list rt_rbb_blk) (r : rt_rbb) : rt_rbb :=
  mk_rbb (rbb_buf r) (rbb_buf_size r) bs (rbb_blk_max_num r) (rbb_list r).
Definition set_list (l : option nat) (r : rt_rbb) : rt_rbb :=
  mk_rbb (rbb_buf r) (rbb_buf_size r) (rbb_blk_set r) (rbb_blk_max_num r) l.

Definition get_blk (i : nat) : R rt_rbb_blk := λ r,
  match rbb_blk_set r !! i with Some b => Some (b, r) | None => None end.
Definition put_blk (i : nat) (b : rt_rbb_blk) : R unit := λ r,
  match rbb_blk_set r !! i with Some _ => Some (tt, set_blocks (<[i := b]> (rbb_blk_set r)) r) | None => None end.
Definition set_status (i : nat) (st : rt_rbb_status) : R unit :=
  b ← get_blk i; put_blk i (mk_blk st (blk_size b) (blk_buf b) (blk_next b)).

(** * Singly linked lists *)

(** A node: the head of the list or the node of a block. *)
Inductive node := Head | Blk (i : nat).
#[export] Instance node_eq_dec : EqDecision node.
Proof. solve_decision. Defined.

Definition get_next (n : node) : R (option nat) :=
  match n with
  | Head => gets rbb_list
  | Blk i => b ← get_blk i; ret (blk_next b)
  end.
Definition set_next (n : node) (x : option nat) : R unit :=
  match n with
  | Head => modify (set_list x)
  | Blk i => b ← get_blk i; put_blk i (mk_blk (blk_status b) (blk_size b) (blk_buf b) x)
  end.

(** Walks over a list take one step for each block at most. *)
Definition walk_fuel : R nat := gets (λ r, (length (rbb_blk_set r) + 2)%nat).

Definition rt_slist_init : R unit := set_next Head None.

(** [while (l->next) l = l->next] *)
Fixpoint last_loop (fuel : nat) (n : node) : R node :=
  match fuel with
  | O => λ _, None
  | S fuel =>
      x ← get_next n;
      match x with Some i => last_loop fuel (Blk i) | None => ret n end
  end.
Definition rt_slist_tail : R node := fuel ← walk_fuel; last_loop fuel Head.
Definition rt_slist_append (n : node) : R unit :=
  fuel ← walk_fuel;
  last ← last_loop fuel Head;
  match n with
  | Blk i => set_next last (Some i) ;; set_next n None
  | Head => λ _, None
  end.

Fixpoint len_loop (fuel : nat) (list : option nat) (len : Z) : R Z :=
  match fuel with
  | O => λ _, None
  | S fuel =>
      match list with
      | None => ret len
      | Some i => list ← get_next (Blk i); len_loop fuel list (u32 (len + 1))
      end
  end.
Definition rt_slist_len : R Z := fuel ← walk_fuel; l ← get_next Head; len_loop fuel l 0.

(** [while (node->next && node->next != n) node = node->next] *)
Fixpoint remove_loop (fuel : nat) (n : nat) (node : node) : R unit :=
  match fuel with
  | O => λ _, None
  | S fuel =>
      x ← get_next node;
      match x with
      | None => ret tt
      | Some i =>
          if decide (i = n) then next ← get_next (Blk i); set_next node next
          else remove_loop fuel n (Blk i)
      end
  end.
Definition rt_slist_remove (n : nat) : R unit := fuel ← walk_fuel; remove_loop fuel n Head.

Definition rt_slist_isempty : R bool := x ← get_next Head; ret (match x with None => true | Some _ => false end).

(** * Set-up *)

Definition rt_rbb_init (buf buf_size : Z) (block_set : list rt_rbb_blk) (blk_max_num : Z) : option rt_rbb :=
  if nz buf && (blk_max_num <=? Z.of_nat (length block_set)) then
    let n := Z.to_nat blk_max_num in
    Some (mk_rbb buf buf_size
      (((λ b, mk_blk RT_RBB_BLK_UNUSED (blk_size b) (blk_buf b) (blk_next b)) <$> take n block_set) ++ drop n block_set)
      blk_max_num None)
  else None.

(** What the three calls of [rt_malloc] return, the last with the memory of the blocks;
    the result is the buffer, with what was given back. *)
Definition rt_rbb_create (rbb buf blk_set : Z) (blks : list rt_rbb_blk) (buf_size blk_max_num : Z) : option (option rt_rbb * list Z) :=
  if rbb =? 0 then Some (None, [])
  else if buf =? 0 then Some (None, [rbb])
  else if blk_set =? 0 then Some (None, [buf; rbb])
  else match rt_rbb_init buf buf_size blks blk_max_num with
       | Some r => Some (Some r, [])
       | None => None
       end.

(** The order in which [rt_rbb_destroy] reads the structure and gives memory back. *)
Inductive access := Load (p : Z) | Free (p : Z).
Definition rt_rbb_destroy (rbb buf blk_set : Z) : list access :=
  [Free rbb; Load rbb; Free buf; Load rbb; Free blk_set].

(** * Blocks *)

(** The loop of [find_empty_blk_in_set]. *)
Fixpoint find_loop (fuel : nat) (i : nat) (blk_max_num : Z) : R (option nat) :=
  match fuel with
  | O => λ _, None
  | S fuel =>
      if Z.of_nat i <? blk_max_num then
        b ← get_blk i;
        if decide (blk_status b = RT_RBB_BLK_UNUSED) then ret (Some i) else find_loop fuel (S i) blk_max_num
      else ret None
  end.
Definition find_empty_blk_in_set : R (option nat) :=
  n ← gets rbb_blk_max_num; find_loop (S (Z.to_nat n)) 0 n.

(** The new block enters the list. *)
Definition enter_blk (i : nat) (buf size : Z) : R unit :=
  rt_slist_append (Blk i) ;;
  b ← get_blk i;
  put_blk i (mk_blk RT_RBB_BLK_INITED size buf (blk_next b)).

Definition rt_rbb_blk_alloc (size : Z) : R (option nat) :=
  assert (size <? 2 ^ 24) ;;
  new ← find_empty_blk_in_set;
  len ← rt_slist_len;
  max ← gets rbb_blk_max_num;
  match new with
  | Some i =>
      if len <? max then
        len ← rt_slist_len;
        if 0 <? len then
          first ← get_next Head;
          tl ← rt_slist_tail;
          match first, tl with
          | Some hd, Blk tl =>
              head ← get_blk hd;
              tail ← get_blk tl;
              buf ← gets rbb_buf;
              buf_size ← gets rbb_buf_size;
              if blk_buf head <=? blk_buf tail then
                let empty1 := u32 (buf + buf_size - (blk_buf tail + blk_size tail)) in
                let empty2 := u32 (blk_buf head - buf) in
                if size <=? empty1 then enter_blk i (u32 (blk_buf tail + blk_size tail)) size ;; ret (Some i)
                else if size <=? empty2 then enter_blk i buf size ;; ret (Some i)
                else ret None
              else
                let empty1 := u32 (blk_buf head - (blk_buf tail + blk_size tail)) in
                if size <=? empty1 then enter_blk i (u32 (blk_buf tail + blk_size tail)) size ;; ret (Some i)
                else ret None
          | _, _ => λ _, None
          end
        else
          buf ← gets rbb_buf;
          enter_blk i buf size ;; ret (Some i)
      else ret None
  | None => ret None
  end.

Definition rt_rbb_blk_put (i : nat) : R unit :=
  b ← get_blk i;
  assert (bool_decide (blk_status b = RT_RBB_BLK_INITED)) ;;
  set_status i RT_RBB_BLK_PUT.

Fixpoint get_loop (fuel : nat) (n : option nat) : R (option nat) :=
  match fuel with
  | O => λ _, None
  | S fuel =>
      match n with
      | None => ret None
      | Some i =>
          b ← get_blk i;
          if decide (blk_status b = RT_RBB_BLK_PUT) then set_status i RT_RBB_BLK_GET ;; ret (Some i)
          else n ← get_next (Blk i); get_loop fuel n
      end
  end.
Definition rt_rbb_blk_get : R (option nat) :=
  empty ← rt_slist_isempty;
  if empty : bool then ret None
  else fuel ← walk_fuel; first ← get_next Head; get_loop fuel first.

Definition rt_rbb_blk_size (i : nat) : R Z := b ← get_blk i; ret (blk_size b).
Definition rt_rbb_blk_buf (i : nat) : R Z := b ← get_blk i; ret (blk_buf b).

Definition rt_rbb_blk_free (i : nat) : R unit :=
  b ← get_blk i;
  assert (bool_decide (blk_status b ≠ RT_RBB_BLK_UNUSED)) ;;
  rt_slist_remove i ;;
  set_status i RT_RBB_BLK_UNUSED.

(** * Queues of blocks *)

(** The loop of [rt_rbb_blk_queue_get]: the node, the last block, the size so far and the
    queue. *)
Fixpoint queue_loop (fuel : nat) (len : Z) (n : option nat) (last_block : option rt_rbb_blk) (total : Z) (q : rt_rbb_blk_queue) :
    R (Z * rt_rbb_blk_queue) :=
  match fuel with
  | O => λ _, None
  | S fuel =>
      match n with
      | None => ret (total, q)
      | Some i =>
          b ← get_blk i;
          let take q :=
            rt_slist_remove i ;;
            let total := u32 (total + blk_size b) in
            set_status i RT_RBB_BLK_GET ;;
            n ← get_next (Blk i);
            queue_loop fuel len n (Some b) total (mk_queue (bq_blocks q) (u32 (bq_blk_num q + 1))) in
          match last_block with
          | None =>
              if decide (blk_status b = RT_RBB_BLK_PUT) then take (mk_queue i 0)
              else n ← get_next (Blk i); queue_loop fuel len n None total q
          | Some last =>
              if negb (bool_decide (blk_status b = RT_RBB_BLK_PUT)) || (blk_buf b <? blk_buf last) ||
                 (len <? u32 (total + blk_size b))
              then ret (total, q)
              else take q
          end
      end
  end.
Definition rt_rbb_blk_queue_get (queue_data_len : Z) (q : rt_rbb_blk_queue) : R (Z * rt_rbb_blk_queue) :=
  empty ← rt_slist_isempty;
  if empty : bool then ret (0, q)
  else fuel ← walk_fuel; first ← get_next Head; queue_loop fuel queue_data_len first None 0 q.

(** The blocks of a queue are those behind [bq_blocks] in the array. *)
Fixpoint queue_len_loop (num : nat) (i : nat) (total : Z) : R Z :=
  match num with
  | O => ret total
  | S num => b ← get_blk i; queue_len_loop num (S i) (u32 (total + blk_size b))
  end.
Definition rt_rbb_blk_queue_len (q : rt_rbb_blk_queue) : R Z :=
  queue_len_loop (Z.to_nat (bq_blk_num q)) (bq_blocks q) 0.
Definition rt_rbb_blk_queue_buf (q : rt_rbb_blk_queue) : R Z := b ← get_blk (bq_blocks q); ret (blk_buf b).

Fixpoint queue_free_loop (num : nat) (i : nat) : R unit :=
  match num with
  | O => ret tt
  | S num => rt_rbb_blk_free i ;; queue_free_loop num (S i)
  end.
Definition rt_rbb_blk_queue_free (q : rt_rbb_blk_queue) : R unit :=
  queue_free_loop (Z.to_nat (bq_blk_num q)) (bq_blocks q).

(** The loop of [rt_rbb_next_blk_queue_len]. *)
Fixpoint next_len_loop (fuel : nat) (n : option nat) (last_block : option rt_rbb_blk) (data_len : Z) : R Z :=
  match fuel with
  | O => λ _, None
  | S fuel =>
      match n with
      | None => ret data_len
      | Some i =>
          b ← get_blk i;
          next ← get_next (Blk i);
          match last_block with
          | None =>
              if decide (blk_status b = RT_RBB_BLK_PUT) then next_len_loop fuel next (Some b) (u32 (data_len + blk_size b))
              else next_len_loop fuel next None data_len
          | Some last =>
              if negb (bool_decide (blk_status b = RT_RBB_BLK_PUT)) || (blk_buf b <? blk_buf last) then ret data_len
              else next_len_loop fuel next (Some b) (u32 (data_len + blk_size b))
          end
      end
  end.
Definition rt_rbb_next_blk_queue_len : R Z :=
  empty ← rt_slist_isempty;
  if empty : bool then ret 0
  else fuel ← walk_fuel; first ← get_next Head; next_len_loop fuel first None 0.

Definition rt_rbb_get_buf_size : R Z := gets rbb_buf_size.

(** * Chains *)

(** What the nodes point to. *)
Definition nx (r : rt_rbb) (n : node) : option nat :=
  match n with Head => rbb_list r | Blk i => b ← rbb_blk_set r !! i; blk_next b end%stdpp.

Fixpoint chain (f : node → option nat) (n : node) (l : list nat) : Prop :=
  match l with [] => f n = None | i :: l' => f n = Some i ∧ chain f (Blk i) l' end.

Definition last_node (n : node) (l : list nat) : node := from_option Blk n (last l).

Definition upd (f : node → option nat) (n : node) (x : option nat) : node → option nat :=
  λ m, if decide (m = n) then x else f m.

Lemma slink_head f n l : chain f n l → f n = head l.
Proof. destruct l; [done|]. by intros [? _]. Qed.

Lemma slink_ext f g n l : (∀ m, m ∈ n :: (Blk <$> l) → g m = f m) → chain f n l → chain g n l.
Proof.
  revert n. induction l as [|i l IH]; intros n Hg Hc; cbn in *; [rewrite Hg; [done|by left]|]. destruct Hc as [Hn Hc].
  split; [rewrite Hg; [done|by left]|]. apply IH; [|done]. intros m Hm. apply Hg. by right.
Qed.

Lemma slink_append f n l i :
  chain f n l → NoDup (n :: (Blk <$> l)) → Blk i ∉ n :: (Blk <$> l) →
  chain (upd (upd f (last_node n l) (Some i)) (Blk i) None) n (l ++ [i]).
Proof.
  unfold upd. revert n. induction l as [|j l IH]; intros n Hc Hnd Hi.
  - cbn. rewrite (decide_False (P := n = Blk i)) by set_solver. by rewrite !decide_True by done.
  - cbn in Hc. destruct Hc as [Hn Hc]. apply NoDup_cons in Hnd as [Nn Hnd].
    assert (last_node n (j :: l) = last_node (Blk j) l) as -> by (unfold last_node; by destruct (last l) eqn:E; rewrite last_cons, E).
    cbn [app chain]. split; [|apply IH; [done|done|set_solver]]. rewrite !decide_False; [done| |set_solver]. intros ->.
    apply Nn. cbn. unfold last_node. destruct (last l) as [k|] eqn:E; cbn; [right; apply list_elem_of_fmap; exists k; split; [done|]; by apply last_Some_elem_of|by left].
Qed.

Lemma slink_remove f n l1 i l2 :
  chain f n (l1 ++ i :: l2) → NoDup (n :: (Blk <$> (l1 ++ i :: l2))) → chain (upd f (last_node n l1) (f (Blk i))) n (l1 ++ l2).
Proof.
  revert n. induction l1 as [|j l1 IH]; intros n Hc Hnd; cbn [app] in *.
  - destruct Hc as [Hn Hc]. assert (f (Blk i) = head l2) as Hi by (by apply slink_head). apply NoDup_cons in Hnd as [Nn Hnd].
    destruct l2 as [|k l2]; cbn in *; unfold upd.
    + by rewrite decide_True.
    + rewrite decide_True by done. split; [done|]. destruct Hc as [_ Hc]. eapply slink_ext; [|exact Hc]. intros m Hm. rewrite decide_False; [done|]. intros ->. apply Nn. by right.
  - destruct Hc as [Hn Hc]. apply NoDup_cons in Hnd as [Nn Hnd]. specialize (IH (Blk j) Hc Hnd).
    assert (last_node n (j :: l1) = last_node (Blk j) l1) as -> by (unfold last_node; by destruct (last l1) eqn:E; rewrite last_cons, E).
    cbn [chain]. split; [|exact IH]. unfold upd. rewrite decide_False; [done|]. intros ->. apply Nn. cbn. unfold last_node.
    destruct (last l1) as [k|] eqn:E; cbn; [right; apply list_elem_of_fmap; exists k; split; [done|]; apply elem_of_app; left; by apply last_Some_elem_of|by left].
Qed.

(** ** Runs of the list operations *)

Definition valid (r : rt_rbb) (n : node) : Prop := match n with Head => True | Blk i => (i < length (rbb_blk_set r))%nat end.

Definition with_next (x : option nat) (b : rt_rbb_blk) : rt_rbb_blk := mk_blk (blk_status b) (blk_size b) (blk_buf b) x.
Definition upd_next (n : node) (x : option nat) (r : rt_rbb) : rt_rbb :=
  match n with Head => set_list x r | Blk i => set_blocks (alter (with_next x) i (rbb_blk_set r)) r end.

(** What the list operations leave alone. *)
Definition facts (b : rt_rbb_blk) : rt_rbb_status * Z * Z := (blk_status b, blk_size b, blk_buf b).
Record same (r r' : rt_rbb) : Prop := {
  sm_buf : rbb_buf r' = rbb_buf r;
  sm_size : rbb_buf_size r' = rbb_buf_size r;
  sm_max : rbb_blk_max_num r' = rbb_blk_max_num r;
  sm_facts : facts <$> rbb_blk_set r' = facts <$> rbb_blk_set r
}.

Lemma same_length r r' : same r r' → length (rbb_blk_set r') = length (rbb_blk_set r).
Proof. intros [_ _ _ H]. apply (f_equal length) in H. by rewrite !length_fmap in H. Qed.
Lemma same_trans r1 r2 r3 : same r1 r2 → same r2 r3 → same r1 r3.
Proof. intros [? ? ? ?] [? ? ? ?]. split; congruence. Qed.

Lemma blk_valid r i : valid r (Blk i) → ∃ b, rbb_blk_set r !! i = Some b.
Proof. intros Hi. by apply lookup_lt_is_Some_2. Qed.

Lemma get_blk_run r i b : rbb_blk_set r !! i = Some b → get_blk i r = Some (b, r).
Proof. intros E. unfold get_blk. by rewrite E. Qed.

Lemma get_next_run r n : valid r n → get_next n r = Some (nx r n, r).
Proof.
  destruct n as [|i]; [done|]. intros Hi. destruct (blk_valid r i Hi) as [b Hb]. unfold get_next, bind, nx. rewrite (get_blk_run r i b Hb). by rewrite Hb.
Qed.

Lemma put_next_run r n x : valid r n → set_next n x r = Some (tt, upd_next n x r).
Proof.
  destruct n as [|i]; [done|]. intros Hi. destruct (blk_valid r i Hi) as [b Hb]. unfold set_next, bind. rewrite (get_blk_run r i b Hb). unfold put_blk. rewrite Hb.
  unfold upd_next. do 3 f_equal. symmetry. apply list_eq. intros j. rewrite list_lookup_alter, list_lookup_insert. repeat case_decide; [by rewrite Hb|exfalso; tauto|exfalso; tauto|done].
Qed.

Lemma same_upd r n x : same r (upd_next n x r).
Proof.
  destruct n as [|i]; split; try done. cbn. apply list_eq. intros j. rewrite !list_lookup_fmap, list_lookup_alter. case_decide as Ej; [|done]. subst j. by destruct (rbb_blk_set r !! i).
Qed.

Lemma nx_upd r n x m : valid r n → nx (upd_next n x r) m = upd (nx r) n x m.
Proof.
  intros Hn. unfold upd. destruct n as [|i], m as [|j]; cbn; [by rewrite decide_True|by rewrite decide_False|by rewrite decide_False|].
  rewrite list_lookup_alter. destruct (decide (j = i)) as [->|Hne].
  - rewrite !decide_True by done. destruct (blk_valid r i Hn) as [b Hb]. by rewrite Hb.
  - rewrite !decide_False by congruence. done.
Qed.

Lemma valid_same r r' n : same r r' → valid r n → valid r' n.
Proof. intros Hs. destruct n; [done|]. cbn. by rewrite (same_length _ _ Hs). Qed.

(** The list [l] of blocks. *)
Record slist (r : rt_rbb) (l : list nat) : Prop := {
  sl_chain : chain (nx r) Head l;
  sl_nodup : NoDup l;
  sl_valid i : i ∈ l → valid r (Blk i)
}.

Lemma slist_nodes r l : slist r l → NoDup (Head :: (Blk <$> l)).
Proof.
  intros [_ H _]. constructor; [intros (j & [=] & _)%list_elem_of_fmap|]. apply NoDup_fmap_2; [|done]. by intros ? ? [=].
Qed.

Lemma slist_length r l : slist r l → (length l ≤ length (rbb_blk_set r))%nat.
Proof.
  intros [_ H1 H2]. rewrite <- (length_seq (length (rbb_blk_set r)) 0). apply submseteq_length, NoDup_submseteq; [done|].
  intros i Hi. apply elem_of_seq. specialize (H2 i Hi). cbn in H2. lia.
Qed.

Lemma last_loop_run r l : ∀ n fuel, chain (nx r) n l → valid r n → (∀ i, i ∈ l → valid r (Blk i)) → (length l < fuel)%nat →
  last_loop fuel n r = Some (last_node n l, r).
Proof.
  induction l as [|i l IH]; intros n [|fuel] Hc Hn Hv Hf; cbn in Hf; try lia; cbn [last_loop]; unfold bind; rewrite get_next_run by done.
  - cbn in Hc. by rewrite Hc.
  - destruct Hc as [-> Hc]. rewrite IH; [|done|apply Hv; by left|intros j Hj; apply Hv; by right|lia].
    unfold last_node. rewrite last_cons. by destruct (last l).
Qed.

Lemma len_loop_run r l : ∀ fuel len, chain (nx r) (from_option Blk Head (head l)) (tail l) ∨ l = [] → (∀ i, i ∈ l → valid r (Blk i)) → (length l < fuel)%nat →
  0 ≤ len → len + Z.of_nat (length l) < 2 ^ 32 → len_loop fuel (head l) len r = Some (len + Z.of_nat (length l), r).
Proof.
  induction l as [|i l IH]; intros [|fuel] len Hc Hv Hf H0 Hl; cbn in Hf; try lia; cbn [len_loop head].
  - cbn. by rewrite Z.add_0_r.
  - destruct Hc as [Hc|]; [|done]. cbn in Hc. unfold bind. rewrite get_next_run by (apply Hv; by left). rewrite (slink_head _ _ _ Hc). cbn [length] in Hl.
    rewrite (wrap_small 32) by lia. rewrite IH; [cbn [length]; do 2 f_equal; lia| |intros j Hj; apply Hv; by right|lia|lia|lia].
    destruct l as [|j l]; [by right|left]. by destruct Hc as [_ Hc].
Qed.

Lemma remove_loop_run r l1 i l2 : ∀ n fuel, chain (nx r) n (l1 ++ i :: l2) → valid r n → (∀ j, j ∈ l1 ++ i :: l2 → valid r (Blk j)) → i ∉ l1 → (length l1 < fuel)%nat →
  remove_loop fuel i n r = Some (tt, upd_next (last_node n l1) (nx r (Blk i)) r).
Proof.
  induction l1 as [|j l1 IH]; intros n [|fuel] Hc Hn Hv Hi Hf; cbn in Hf; try lia; cbn [remove_loop app] in *; unfold bind; rewrite get_next_run by done.
  - destruct Hc as [-> Hc]. rewrite decide_True by done. unfold bind. rewrite get_next_run by (apply Hv; by left). by apply put_next_run.
  - destruct Hc as [-> Hc]. rewrite decide_False by set_solver. rewrite IH; [|done|apply Hv; by left|intros k Hk; apply Hv; by right|set_solver|lia].
    unfold last_node. rewrite last_cons. by destruct (last l1).
Qed.

Lemma last_node_valid r l : slist r l → valid r (last_node Head l).
Proof. intros Hs. unfold last_node. destruct (last l) as [i|] eqn:E; [|done]. apply (sl_valid _ _ Hs). by apply last_Some_elem_of. Qed.

Lemma append_run r l i :
  slist r l → i ∉ l → valid r (Blk i) → ∃ r', rt_slist_append (Blk i) r = Some (tt, r') ∧ same r r' ∧ slist r' (l ++ [i]).
Proof.
  intros Hs Hi Hv. pose proof (last_node_valid _ _ Hs) as Hlv. pose proof (slist_length _ _ Hs) as Hlen.
  set (r1 := upd_next (last_node Head l) (Some i) r). assert (same r r1) as S1 by apply same_upd.
  exists (upd_next (Blk i) None r1). split_and!.
  - unfold rt_slist_append, walk_fuel, bind at 1, gets. unfold bind. rewrite (last_loop_run r l Head); [|apply Hs|done|apply Hs|lia].
    rewrite put_next_run by done. fold r1. apply put_next_run. by apply (valid_same r).
  - eapply same_trans; [exact S1|apply same_upd].
  - assert (valid r1 (Blk i)) as Hv1 by (by apply (valid_same r)). split.
    + eapply slink_ext; [|apply (slink_append (nx r) Head l i); [apply Hs|by eapply slist_nodes|]].
      * intros m _. rewrite nx_upd by done. unfold upd at 1 2. case_decide; [done|]. unfold r1. by rewrite nx_upd.
      * rewrite elem_of_cons. intros [[=]|(j & [= ->] & Hj)%list_elem_of_fmap]. done.
    + apply NoDup_app. split_and!; [apply Hs|set_solver|apply NoDup_singleton].
    + intros j Hj. apply (valid_same r); [eapply same_trans; [exact S1|apply same_upd]|]. apply elem_of_app in Hj as [Hj|Hj%list_elem_of_singleton]; [by apply Hs|by subst].
Qed.

Lemma remove_run r l1 i l2 :
  slist r (l1 ++ i :: l2) → ∃ r', rt_slist_remove i r = Some (tt, r') ∧ same r r' ∧ slist r' (l1 ++ l2) ∧ nx r' (Blk i) = head l2.
Proof.
  intros Hs. pose proof (slist_length _ _ Hs) as Hlen. rewrite length_app in Hlen. pose proof (slist_nodes _ _ Hs) as Hnd. destruct Hs as [Hc Hn Hv].
  assert (valid r (last_node Head l1)) as Hlv.
  { unfold last_node. destruct (last l1) as [j|] eqn:E; [|done]. apply Hv, elem_of_app. left. by apply last_Some_elem_of. }
  apply NoDup_app in Hn as (N1 & N2 & N3). apply NoDup_cons in N3 as [N3 N4].
  assert (i ∉ l1) as Hi by (intros Hi; apply (N2 i Hi); by left).
  exists (upd_next (last_node Head l1) (nx r (Blk i)) r). split_and!.
  - unfold rt_slist_remove, walk_fuel, bind, gets. apply (remove_loop_run r l1 i l2); [done|done|done|done|lia].
  - apply same_upd.
  - split.
    + eapply slink_ext; [|by apply (slink_remove (nx r) Head l1 i l2)]. intros m _. by rewrite nx_upd.
    + apply NoDup_app. split_and!; [done|set_solver|done].
    + intros j Hj. apply (valid_same r); [apply same_upd|]. apply Hv. set_solver.
  - rewrite nx_upd by done. unfold upd. rewrite decide_False.
    + clear -Hc. revert Hc. generalize Head. induction l1 as [|j l1 IH]; intros n; cbn [app chain]; intros [_ Hc]; [by apply slink_head|]. by apply (IH (Blk j)).
    + intros E. unfold last_node in E. destruct (last l1) as [j|] eqn:El; [|done]. injection E as <-. apply Hi. by apply last_Some_elem_of.
Qed.
End Rbb.
