(* ===== verification/RingBlkSpec.v ===== *)
(** Ring block buffers: where the blocks lie in the buffer, the invariant, and what the
    operations of [RingBlk.v] do. *)

From Stdlib Require Import ZArith Lia.
From stdpp Require Import base numbers option.
From stdpp Require Import list sets.
From S2P Require Import Prelude.
From S2P Require Import RingBlk.
Local Open Scope Z_scope.
Local Open Scope rt_scope.

Module RbbSpec.
Import Rbb.

(** * Blocks in the buffer *)

(** Extents one behind the other between [lo] and [hi]. *)
Fixpoint stacked (lo : Z) (es : list (Z * Z)) (hi : Z) : Prop :=
  match es with
  | [] => lo ≤ hi
  | (b, s) :: es' => lo ≤ b ∧ 0 < s ∧ stacked (b + s) es' hi
  end.

(** In the order of allocation, the extents go up to the end of the buffer and then start
    again below the first. *)
Definition ringed (lo hi : Z) (es : list (Z * Z)) : Prop :=
  ∃ e1 e2 m, es = e1 ++ e2 ∧ stacked lo e2 m ∧ stacked m e1 hi.

Lemma stacked_app lo e1 e2 hi : stacked lo (e1 ++ e2) hi ↔ ∃ m, stacked lo e1 m ∧ stacked m e2 hi.
Proof.
  revert lo. induction e1 as [|[b s] e1 IH]; intros lo; cbn.
  - split; [intros H; exists lo; split; [lia|done]|]. intros (m & H1 & H2). destruct e2 as [|[b s] e2]; cbn in *; [lia|]. destruct H2 as (? & ? & ?). split_and!; [lia|done|done].
  - rewrite IH. naive_solver.
Qed.

Lemma stacked_range lo es hi : stacked lo es hi → lo ≤ hi ∧ ∀ b s, (b, s) ∈ es → lo ≤ b ∧ 0 < s ∧ b + s ≤ hi.
Proof.
  revert lo. induction es as [|[b s] es IH]; intros lo; cbn; [intros H; split; [done|intros b s []%elem_of_nil]|].
  intros (H1 & H2 & [H3 H4]%IH). split; [lia|]. intros b' s' [[= -> ->]|Hin]%elem_of_cons; [lia|]. specialize (H4 b' s' Hin). lia.
Qed.

Lemma stacked_lower lo lo' es hi : lo' ≤ lo → stacked lo es hi → stacked lo' es hi.
Proof. destruct es as [|[b s] es]; cbn; [lia|]. intros ? (? & ? & ?). split_and!; [lia|done|done]. Qed.
Lemma stacked_upper lo es hi hi' : hi ≤ hi' → stacked lo es hi → stacked lo es hi'.
Proof. revert lo. induction es as [|[b s] es IH]; intros lo; cbn; [lia|]. naive_solver. Qed.

Lemma stacked_remove lo e1 x e2 hi : stacked lo (e1 ++ x :: e2) hi → stacked lo (e1 ++ e2) hi.
Proof.
  rewrite !stacked_app. intros (m & H1 & H2). exists m. split; [done|]. destruct x as [b s]. destruct H2 as (H2 & H3 & H4). apply (stacked_lower (b + s)); [lia|done].
Qed.

Lemma ringed_remove lo hi e1 x e2 : ringed lo hi (e1 ++ x :: e2) → ringed lo hi (e1 ++ e2).
Proof.
  intros (c1 & c2 & m & E & H1 & H2). apply app_eq_inv in E as [(k & -> & ->)|(k & -> & E)].
  - exists c1, (k ++ e2), m. rewrite <- (assoc_L (++)). split_and!; [done|by apply (stacked_remove lo k x e2 m)|done].
  - destruct k as [|y k]; cbn in E.
    + subst c2. rewrite app_nil_r in H2. exists e1, e2, m. split_and!; [done|apply (stacked_remove lo [] x e2 m H1)|done].
    + injection E as <- ->. exists (e1 ++ k), c2, m. rewrite <- (assoc_L (++)). split_and!; [done|done|by apply (stacked_remove m e1 x k hi)].
Qed.

(** Two blocks do not overlap. *)
Definition disjoint (x y : Z * Z) : Prop := x.1 + x.2 ≤ y.1 ∨ y.1 + y.2 ≤ x.1.

Lemma stacked_disjoint lo es hi i j x y : stacked lo es hi → es !! i = Some x → es !! j = Some y → i ≠ j → disjoint x y.
Proof.
  revert lo i j. induction es as [|[b s] es IH]; intros lo i j Hs Hi Hj Hne; [done|]. destruct Hs as (H1 & H2 & H3). pose proof (proj2 (stacked_range _ _ _ H3)) as Hr.
  destruct i as [|i], j as [|j]; cbn in *; [done| | |apply (IH (b + s) i j); [done|done|done|congruence]].
  - injection Hi as <-. apply list_elem_of_lookup_2 in Hj. destruct y as [b' s']. specialize (Hr b' s' Hj). left. cbn. lia.
  - injection Hj as <-. apply list_elem_of_lookup_2 in Hi. destruct x as [b' s']. specialize (Hr b' s' Hi). right. cbn. lia.
Qed.

Lemma ringed_disjoint lo hi es i j x y : ringed lo hi es → es !! i = Some x → es !! j = Some y → i ≠ j → disjoint x y.
Proof.
  intros (e1 & e2 & m & -> & H1 & H2) Hi Hj Hne. destruct x as [b s], y as [b' s'].
  apply lookup_app_Some in Hi as [Hi|[Li Hi]], Hj as [Hj|[Lj Hj]].
  - by eapply (stacked_disjoint m e1 hi).
  - apply list_elem_of_lookup_2 in Hi, Hj. apply stacked_range in H1 as [_ H1], H2 as [_ H2]. specialize (H1 _ _ Hj). specialize (H2 _ _ Hi). right. cbn. lia.
  - apply list_elem_of_lookup_2 in Hi, Hj. apply stacked_range in H1 as [_ H1], H2 as [_ H2]. specialize (H1 _ _ Hi). specialize (H2 _ _ Hj). left. cbn. lia.
  - eapply (stacked_disjoint lo e2 m); [done|done|done|lia].
Qed.

Lemma ringed_range lo hi es b s : ringed lo hi es → (b, s) ∈ es → lo ≤ b ∧ 0 < s ∧ b + s ≤ hi.
Proof.
  intros (e1 & e2 & m & -> & [M1 H1]%stacked_range & [M2 H2]%stacked_range) [Hi|Hi]%elem_of_app; [specialize (H2 _ _ Hi)|specialize (H1 _ _ Hi)]; lia.
Qed.

(** Where a new block goes: behind the last one, or at the start of the buffer. *)
Definition place (lo hi : Z) (es : list (Z * Z)) (n : Z) : option Z :=
  match head es, last es with
  | Some (hb, _), Some (tb, ts) =>
      if hb <=? tb then if n <=? hi - (tb + ts) then Some (tb + ts) else if n <=? hb - lo then Some lo else None
      else if n <=? hb - (tb + ts) then Some (tb + ts) else None
  | _, _ => Some lo
  end.

Lemma ringed_place lo hi es n b :
  ringed lo hi es → 0 < n → (es = [] → n ≤ hi - lo) → place lo hi es n = Some b → ringed lo hi (es ++ [(b, n)]).
Proof.
  intros Hr Hn He Hp. assert (es = [] ∨ ∃ e1 e2 m, es = e1 ++ e2 ∧ e1 ≠ [] ∧ stacked lo e2 m ∧ stacked m e1 hi ∧ (e2 = [] → lo ≤ m)) as [->|(e1 & e2 & m & -> & Hne & H1 & H2 & Hm)].
  { destruct Hr as (e1 & e2 & m & -> & H1 & H2). destruct e1 as [|x e1]; cbn [app].
    - destruct e2 as [|y e2]; [by left|right]. exists (y :: e2), [], lo. rewrite app_nil_r. split_and!; [done|done|cbn; lia| |lia].
      apply (stacked_upper lo (y :: e2) m hi); [|done]. cbn in H2. lia.
    - right. exists (x :: e1), e2, m. split_and!; [done|done|done|done|intros ->; cbn in H1; lia]. }
  { cbn in Hp. injection Hp as <-. exists [], [(lo, n)], hi. specialize (He eq_refl). cbn. split_and!; [done|lia|lia|lia|lia]. }
  destruct e1 as [|[hb hs] e1]; [done|]. unfold place in Hp. cbn [app head] in Hp. destruct H2 as (G1 & G2 & G3).
  destruct e2 as [|x e2 _] using rev_ind.
  - rewrite app_nil_r in *. destruct (last ((hb, hs) :: e1)) as [[tb ts]|] eqn:El; [|by rewrite last_cons in El; destruct (last e1)].
    apply last_Some in El as [k Ek]. assert (stacked m ((hb, hs) :: e1) hi) as Hs by (cbn; done). rewrite Ek in Hs |- *. apply stacked_app in Hs as (m2 & S1 & S2). cbn in S2.
    assert (hb ≤ tb) as Hle.
    { destruct k as [|[kb ks] k]; [injection Ek as -> -> ->; lia|]. injection Ek as -> -> _. cbn in S1. destruct S1 as (_ & S1 & S3). apply stacked_range in S3 as [S3 _]. lia. }
    rewrite (proj2 (Z.leb_le _ _)) in Hp by done. destruct (Z.leb_spec n (hi - (tb + ts))); [|destruct (Z.leb_spec n (hb - lo)); [|done]]; injection Hp as <-.
    + exists ((k ++ [(tb, ts)]) ++ [(tb + ts, n)]), [], m. rewrite app_nil_r. split_and!; [done|apply Hm; done|].
      rewrite stacked_app. exists (tb + ts). split; [|cbn; lia]. rewrite stacked_app. exists m2. split; [done|]. cbn. lia.
    + exists (k ++ [(tb, ts)]), [(lo, n)], hb. split_and!; [done|cbn; lia|]. rewrite <- Ek. cbn. split_and!; [lia|lia|done].
  - clear Hne Hm. destruct x as [tb ts]. replace ((hb, hs) :: e1 ++ e2 ++ [(tb, ts)]) with (((hb, hs) :: e1 ++ e2) ++ [(tb, ts)]) in Hp by (cbn; by rewrite (assoc_L (++))).
    rewrite last_snoc in Hp. apply stacked_app in H1 as (m2 & S1 & S2). cbn in S2.
    rewrite (proj2 (Z.leb_gt _ _)) in Hp by lia. destruct (Z.leb_spec n (hb - (tb + ts))); [|done]. injection Hp as <-.
    exists ((hb, hs) :: e1), (e2 ++ [(tb, ts); (tb + ts, n)]), hb. split_and!; [cbn; by rewrite <- !(assoc_L (++))| |cbn; split_and!; [lia|lia|done]].
    apply stacked_app. exists m2. split; [done|]. cbn. lia.
Qed.

(** * The invariant *)

Definition extent (b : rt_rbb_blk) : Z * Z := (blk_buf b, blk_size b).
Definition extent_at (r : rt_rbb) (i : nat) : Z * Z := from_option extent (0, 0) (rbb_blk_set r !! i).
Definition extents (r : rt_rbb) (l : list nat) : list (Z * Z) := extent_at r <$> l.
Definition limit (r : rt_rbb) : Z := rbb_buf r + rbb_buf_size r.

(** The blocks in use, in the order of allocation. *)
Record inv (r : rt_rbb) (l : list nat) : Prop := {
  iv_list : slist r l;
  iv_used i b : rbb_blk_set r !! i = Some b → (blk_status b ≠ RT_RBB_BLK_UNUSED ↔ i ∈ l);
  iv_max : rbb_blk_max_num r = Z.of_nat (length (rbb_blk_set r));
  iv_small : Z.of_nat (length (rbb_blk_set r)) < 2 ^ 32 - 1;
  iv_area : 0 < rbb_buf r ∧ 0 ≤ rbb_buf_size r ∧ limit r < 2 ^ 32;
  iv_ring : ringed (rbb_buf r) (limit r) (extents r l)
}.

Lemma same_facts r r' i : same r r' → facts <$> rbb_blk_set r' !! i = facts <$> rbb_blk_set r !! i.
Proof. intros [_ _ _ H]. by rewrite <- !list_lookup_fmap, H. Qed.

Lemma same_extents r r' l : same r r' → extents r' l = extents r l.
Proof.
  intros Hs. apply list_fmap_ext. intros k i _. unfold extent_at. pose proof (same_facts r r' i Hs) as H.
  destruct (rbb_blk_set r' !! i) as [b'|], (rbb_blk_set r !! i) as [b|]; cbn in *; try done. unfold facts in H. injection H as H1 H2 H3. unfold extent. by rewrite H2, H3.
Qed.

(** Changing what is known of a block. *)
Definition with_facts (st : rt_rbb_status) (size buf : Z) (b : rt_rbb_blk) : rt_rbb_blk := mk_blk st size buf (blk_next b).
Definition upd_facts (i : nat) (f : rt_rbb_blk → rt_rbb_blk) (r : rt_rbb) : rt_rbb := set_blocks (alter f i (rbb_blk_set r)) r.
Definition keeps_next (f : rt_rbb_blk → rt_rbb_blk) : Prop := ∀ b, blk_next (f b) = blk_next b.

Lemma upd_facts_slist i f r l : keeps_next f → slist r l → slist (upd_facts i f r) l.
Proof.
  intros Hf [H1 H2 H3]. split; [|done|].
  - eapply slink_ext; [|exact H1]. intros m _. destruct m as [|j]; [done|]. cbn. rewrite list_lookup_alter. case_decide; [|done]. subst j. destruct (rbb_blk_set r !! i) as [b|]; [|done]. cbn. apply Hf.
  - intros j Hj. specialize (H3 j Hj). cbn in *. by rewrite length_alter.
Qed.

Lemma put_blk_run i b b' r : rbb_blk_set r !! i = Some b → put_blk i b' r = Some (tt, upd_facts i (λ _, b') r).
Proof.
  intros Hb. unfold put_blk, upd_facts. rewrite Hb. do 3 f_equal. apply list_eq. intros j. rewrite list_lookup_alter, list_lookup_insert.
  pose proof (lookup_lt_Some _ _ _ Hb). destruct (decide (i = j)) as [->|]; [rewrite decide_True by done; by rewrite Hb|]. rewrite decide_False by tauto. done.
Qed.

Definition with_status (st : rt_rbb_status) (b : rt_rbb_blk) : rt_rbb_blk := mk_blk st (blk_size b) (blk_buf b) (blk_next b).

Lemma upd_facts_ext i f g b r : rbb_blk_set r !! i = Some b → f b = g b → upd_facts i f r = upd_facts i g r.
Proof.
  intros Hb Hfg. unfold upd_facts. f_equal. apply list_eq. intros j. rewrite !list_lookup_alter. case_decide; [|done]. by rewrite Hb; cbn; rewrite Hfg.
Qed.

Lemma set_status_run i st b r : rbb_blk_set r !! i = Some b → set_status i st r = Some (tt, upd_facts i (with_status st) r).
Proof.
  intros Hb. unfold set_status, bind. rewrite (get_blk_run r i b Hb), (put_blk_run i b _ r Hb). do 2 f_equal. by eapply upd_facts_ext.
Qed.

Lemma upd_status_extents i st r l : extents (upd_facts i (with_status st) r) l = extents r l.
Proof.
  apply list_fmap_ext. intros k j _. unfold extent_at. cbn. rewrite list_lookup_alter. case_decide; [|done]. subst. by destruct (rbb_blk_set r !! j).
Qed.

(** A change of status between used ones. *)
Lemma inv_status i st b r l : inv r l → rbb_blk_set r !! i = Some b → blk_status b ≠ RT_RBB_BLK_UNUSED → st ≠ RT_RBB_BLK_UNUSED → inv (upd_facts i (with_status st) r) l.
Proof.
  intros [H1 H2 H3 H4 H5 H6] Hb Hs Hst. split; cbn; rewrite ?length_alter, ?upd_status_extents; try done; [by apply upd_facts_slist|].
  intros j c. rewrite list_lookup_alter. case_decide as E; [|apply H2]. subst j. rewrite Hb. cbn. intros [= <-]. cbn. rewrite <- (H2 i b Hb). done.
Qed.

(** ** Looking for a block *)

Lemma find_loop_run r n : Z.of_nat (length (rbb_blk_set r)) = n → ∀ fuel i, (length (rbb_blk_set r) ≤ i + fuel)%nat → (i ≤ length (rbb_blk_set r))%nat →
  ∃ x, find_loop (S fuel) i n r = Some (x, r) ∧
    match x with
    | Some j => ∃ b, rbb_blk_set r !! j = Some b ∧ blk_status b = RT_RBB_BLK_UNUSED
    | None => ∀ j b, (i ≤ j)%nat → rbb_blk_set r !! j = Some b → blk_status b ≠ RT_RBB_BLK_UNUSED
    end.
Proof.
  intros En. induction fuel as [|fuel IH]; intros i Hf Hi; cbn [find_loop].
  - assert (i = length (rbb_blk_set r)) as -> by lia. rewrite (proj2 (Z.ltb_ge _ _)) by lia. exists None. split; [done|]. intros j b Hj Hb. apply lookup_lt_Some in Hb. lia.
  - destruct (Z.ltb_spec (Z.of_nat i) n) as [Hlt|Hge].
    + destruct (lookup_lt_is_Some_2 (rbb_blk_set r) i) as [b Hb]; [lia|]. unfold bind. rewrite (get_blk_run r i b Hb). destruct (decide (blk_status b = RT_RBB_BLK_UNUSED)) as [Hs|Hs].
      * exists (Some i). split; [done|]. by exists b.
      * destruct (IH (S i)) as (x & Hx & Hp); [lia|lia|]. exists x. split; [exact Hx|]. destruct x as [j|]; [done|]. intros j c Hj Hc.
        destruct (decide (j = i)) as [->|]; [congruence|]. apply (Hp j c); [lia|done].
    + exists None. split; [done|]. intros j b Hj Hb. apply lookup_lt_Some in Hb. lia.
Qed.

Lemma find_empty_run r : rbb_blk_max_num r = Z.of_nat (length (rbb_blk_set r)) → ∃ x, find_empty_blk_in_set r = Some (x, r) ∧
  match x with
  | Some j => ∃ b, rbb_blk_set r !! j = Some b ∧ blk_status b = RT_RBB_BLK_UNUSED
  | None => ∀ j b, rbb_blk_set r !! j = Some b → blk_status b ≠ RT_RBB_BLK_UNUSED
  end.
Proof.
  intros En. unfold find_empty_blk_in_set, bind, gets. rewrite En, Nat2Z.id. destruct (find_loop_run r _ eq_refl (length (rbb_blk_set r)) 0) as (x & Hx & Hp); [lia|lia|].
  exists x. split; [done|]. destruct x; [done|]. intros j b Hb. apply (Hp j b); [lia|done].
Qed.

Lemma slist_len_run r l : slist r l → Z.of_nat (length (rbb_blk_set r)) < 2 ^ 32 - 1 → rt_slist_len r = Some (Z.of_nat (length l), r).
Proof.
  intros Hs Hn. pose proof (slist_length _ _ Hs). unfold rt_slist_len, walk_fuel, bind, gets. rewrite get_next_run by done.
  rewrite (slink_head _ _ _ (sl_chain _ _ Hs)). rewrite (len_loop_run r l); [done| |apply Hs|lia|lia|lia].
  destruct l as [|i l]; [by right|left]. by destruct (sl_chain _ _ Hs) as [_ ?].
Qed.

Lemma tail_run r l : slist r l → rt_slist_tail r = Some (last_node Head l, r).
Proof.
  intros Hs. pose proof (slist_length _ _ Hs). unfold rt_slist_tail, walk_fuel, bind, gets. by apply (last_loop_run r l); [apply Hs|done|apply Hs|lia].
Qed.

(** ** Entering a block *)

Lemma enter_run r l i b size buf :
  inv r l → rbb_blk_set r !! i = Some b → blk_status b = RT_RBB_BLK_UNUSED → ringed (rbb_buf r) (limit r) (extents r l ++ [(buf, size)]) →
  ∃ r' c, enter_blk i buf size r = Some (tt, r') ∧ inv r' (l ++ [i]) ∧ rbb_blk_set r' !! i = Some c ∧ facts c = (RT_RBB_BLK_INITED, size, buf) ∧
    rbb_buf r' = rbb_buf r ∧ rbb_buf_size r' = rbb_buf_size r ∧ ∀ j, j ≠ i → facts <$> rbb_blk_set r' !! j = facts <$> rbb_blk_set r !! j.
Proof.
  intros [H1 H2 H3 H4 H5 H6] Hb Hu Hr. assert (i ∉ l) as Hi by (intros Hi; by apply (H2 i b Hb) in Hi).
  destruct (append_run r l i H1 Hi) as (r1 & Hr1 & Hs1 & Hl1); [cbn; by eapply lookup_lt_Some|].
  pose proof (same_facts _ _ i Hs1) as Hf. rewrite Hb in Hf. destruct (rbb_blk_set r1 !! i) as [b1|] eqn:Hb1; [|done].
  set (c := mk_blk RT_RBB_BLK_INITED size buf (blk_next b1)). set (r2 := upd_facts i (λ _, c) r1).
  assert (r2 = upd_facts i (with_facts RT_RBB_BLK_INITED size buf) r1) as Er2 by (unfold r2; by eapply upd_facts_ext).
  assert (rbb_blk_set r2 !! i = Some c) as Hc by (cbn; rewrite list_lookup_alter, decide_True, Hb1 by done; done).
  assert (∀ j, j ≠ i → rbb_blk_set r2 !! j = rbb_blk_set r1 !! j) as Hoth by (intros j Hj; cbn; by rewrite list_lookup_alter, decide_False).
  exists r2, c. split_and!; [|split|done|done|apply Hs1|apply Hs1|intros j Hj; rewrite Hoth by done; by apply same_facts].
  - unfold enter_blk, bind. rewrite Hr1, (get_blk_run r1 i b1 Hb1). by apply (put_blk_run i b1).
  - rewrite Er2. by apply upd_facts_slist.
  - intros j d Hd. rewrite elem_of_app, list_elem_of_singleton. destruct (decide (j = i)) as [->|Hne].
    + rewrite Hc in Hd. injection Hd as <-. cbn. split; [by right|done].
    + rewrite Hoth in Hd by done. pose proof (same_facts _ _ j Hs1) as Hfj. rewrite Hd in Hfj. destruct (rbb_blk_set r !! j) as [d0|] eqn:Hd0; [|done].
      injection Hfj as Ef _ _. rewrite Ef, (H2 j d0 Hd0). naive_solver.
  - cbn. rewrite length_alter, (same_length _ _ Hs1), (sm_max _ _ Hs1). done.
  - cbn. by rewrite length_alter, (same_length _ _ Hs1).
  - unfold limit. cbn. rewrite (sm_buf _ _ Hs1), (sm_size _ _ Hs1). done.
  - unfold limit. cbn [r2 upd_facts set_blocks rbb_buf rbb_buf_size]. rewrite (sm_buf _ _ Hs1), (sm_size _ _ Hs1). unfold extents. rewrite fmap_app. cbn [fmap list_fmap].
    assert (extent_at r2 i = (buf, size)) as -> by (unfold extent_at; by rewrite Hc).
    assert (extent_at r2 <$> l = extents r l) as ->; [|done]. rewrite <- (same_extents _ _ l Hs1). apply list_fmap_ext. intros k j Hj. apply list_elem_of_lookup_2 in Hj.
    unfold extent_at. rewrite Hoth by (intros ->; done). done.
Qed.

(** ** Allocation *)

Definition alloc_post (r : rt_rbb) (l : list nat) (n : Z) (x : option nat) (r' : rt_rbb) : Prop :=
  match x with
  | Some i => ∃ b c, i ∉ l ∧ place (rbb_buf r) (limit r) (extents r l) n = Some b ∧ inv r' (l ++ [i]) ∧
      rbb_blk_set r' !! i = Some c ∧ facts c = (RT_RBB_BLK_INITED, n, b) ∧ rbb_buf r' = rbb_buf r ∧ rbb_buf_size r' = rbb_buf_size r ∧
      ∀ j, j ≠ i → facts <$> rbb_blk_set r' !! j = facts <$> rbb_blk_set r !! j
  | None => r' = r ∧ ((∀ i b, rbb_blk_set r !! i = Some b → blk_status b ≠ RT_RBB_BLK_UNUSED) ∨ place (rbb_buf r) (limit r) (extents r l) n = None)
  end.

Lemma extents_ends r l i : inv r l → i ∈ l → ∃ b, rbb_blk_set r !! i = Some b ∧ extent_at r i = extent b ∧ rbb_buf r ≤ blk_buf b ∧ 0 < blk_size b ∧ blk_buf b + blk_size b ≤ limit r.
Proof.
  intros [H1 _ _ _ _ H6] Hi. destruct (blk_valid r i) as [b Hb]; [by apply H1|]. exists b. assert (extent_at r i = extent b) as E by (unfold extent_at; by rewrite Hb).
  split_and!; [done|done|..]; apply (ringed_range _ _ (extents r l) (blk_buf b) (blk_size b) H6); apply list_elem_of_fmap; by exists i.
Qed.

Lemma blk_alloc_run r l n :
  inv r l → 0 < n < 2 ^ 24 → (l = [] → n ≤ rbb_buf_size r) → wp (rt_rbb_blk_alloc n) (alloc_post r l n) r.
Proof.
  intros Hinv Hn He. pose proof Hinv as [H1 H2 H3 H4 H5 H6]. unfold rt_rbb_blk_alloc. apply wp_bind, wp_assert; [apply Z.ltb_lt; lia|].
  destruct (find_empty_run r H3) as (x & Hx & Hp). pose proof (slist_len_run r l H1 H4) as Hlen.
  apply wp_bind. unfold wp at 1. rewrite Hx. apply wp_bind. unfold wp at 1. rewrite Hlen. apply wp_bind. unfold wp at 1, gets. rewrite H3.
  destruct x as [i|]; [|apply wp_ret; split; [done|by left]]. destruct Hp as (b & Hb & Hu).
  assert (i ∉ l) as Hi by (intros Hi; by apply (H2 i b Hb) in Hi).
  assert (length l < length (rbb_blk_set r))%nat as Hlt.
  { assert (length (i :: l) ≤ length (rbb_blk_set r))%nat; [|cbn in *; lia]. rewrite <- (length_seq (length (rbb_blk_set r)) 0). apply submseteq_length, NoDup_submseteq; [constructor; [done|apply H1]|].
    intros j Hj. apply elem_of_seq. apply elem_of_cons in Hj as [->|Hj]; [apply lookup_lt_Some in Hb; lia|]. pose proof (sl_valid _ _ H1 j Hj). cbn in *. lia. }
  rewrite (proj2 (Z.ltb_lt _ _)) by lia. apply wp_bind. unfold wp at 1. rewrite Hlen.
  assert (∀ bf, place (rbb_buf r) (limit r) (extents r l) n = Some bf → wp (enter_blk i bf n ;; ret (Some i)) (alloc_post r l n) r) as Henter.
  { intros bf Hpl. destruct (enter_run r l i b n bf Hinv Hb Hu) as (r' & c & Hr & Hi' & Hc & Hf & Hbuf & Hsz & Hoth).
    - apply ringed_place; [done|lia| |done]. intros E. apply fmap_nil_inv in E. specialize (He E). unfold limit. lia.
    - apply wp_bind. unfold wp. rewrite Hr. cbn. by exists bf, c. }
  destruct l as [|hd l'].
  { change (0 <? Z.of_nat (length [])) with false. cbv iota. apply wp_bind, wp_gets. apply Henter. done. }
  set (l := hd :: l') in *. rewrite (proj2 (Z.ltb_lt _ _)) by (cbn [l length]; lia).
  apply wp_bind. unfold wp at 1. rewrite get_next_run by done. rewrite (slink_head _ _ _ (sl_chain _ _ H1)).
  apply wp_bind. unfold wp at 1. rewrite (tail_run r l H1). destruct (last l) as [tl|] eqn:El; [|by unfold l in El; rewrite last_cons in El; destruct (last l')].
  assert (last_node Head l = Blk tl) as -> by (unfold last_node; by rewrite El). cbn [l head].
  destruct (extents_ends r l hd Hinv) as (hb & Hhb & Ehb & B1 & B2 & B3); [by left|]. destruct (extents_ends r l tl Hinv) as (tb & Htb & Etb & C1 & C2 & C3); [by apply last_Some_elem_of|].
  assert (place (rbb_buf r) (limit r) (extents r l) n =
    if blk_buf hb <=? blk_buf tb then if n <=? limit r - (blk_buf tb + blk_size tb) then Some (blk_buf tb + blk_size tb) else if n <=? blk_buf hb - rbb_buf r then Some (rbb_buf r) else None
    else if n <=? blk_buf hb - (blk_buf tb + blk_size tb) then Some (blk_buf tb + blk_size tb) else None) as Epl.
  { unfold place. assert (last (extents r l) = Some (extent tb)) as ->.
    { unfold extents. rewrite fmap_last, El. cbn. by rewrite Etb. }
    cbn [l extents fmap list_fmap head]. rewrite Ehb. done. }
  apply wp_bind. unfold wp at 1. rewrite (get_blk_run _ _ _ Hhb). apply wp_bind. unfold wp at 1. rewrite (get_blk_run _ _ _ Htb).
  apply wp_bind, wp_gets. apply wp_bind, wp_gets. fold (limit r). rewrite (wrap_small 32 (limit r - _)), (wrap_small 32 (blk_buf hb - rbb_buf r)), (wrap_small 32 (blk_buf tb + blk_size tb)) by lia.
  rewrite Epl in Henter. destruct (Z.leb_spec (blk_buf hb) (blk_buf tb)) as [Hle|Hgt].
  - destruct (Z.leb_spec n (limit r - (blk_buf tb + blk_size tb))); [by apply Henter|]. destruct (Z.leb_spec n (blk_buf hb - rbb_buf r)); [by apply Henter|].
    apply wp_ret. split; [done|]. right. by rewrite Epl.
  - assert (blk_buf tb + blk_size tb ≤ blk_buf hb) as Hap.
    { assert (disjoint (extent_at r hd) (extent_at r tl)) as Hd.
      { rewrite last_lookup in El. apply (ringed_disjoint _ _ (extents r l) 0 (pred (length l)) _ _ H6); [done|unfold extents; by rewrite list_lookup_fmap, El|].
        intros E. rewrite <- E in El. cbn in El. injection El as ->. assert (hb = tb) as -> by congruence. lia. }
      rewrite Ehb, Etb in Hd. destruct Hd; cbn in *; lia. }
    rewrite (wrap_small 32) by lia. destruct (Z.leb_spec n (blk_buf hb - (blk_buf tb + blk_size tb))); [by apply Henter|].
    apply wp_ret. split; [done|]. right. by rewrite Epl.
Qed.

(** ** The other operations *)

Definition status_at (r : rt_rbb) (i : nat) : rt_rbb_status := from_option blk_status RT_RBB_BLK_UNUSED (rbb_blk_set r !! i).

Lemma blk_status_run r i : valid r (Blk i) → ∃ b, rbb_blk_set r !! i = Some b ∧ blk_status b = status_at r i.
Proof. intros [b Hb]%blk_valid. exists b. split; [done|]. unfold status_at. by rewrite Hb. Qed.

Lemma get_loop_run r l : ∀ fuel, chain (nx r) (from_option Blk Head (head l)) (tail l) ∨ l = [] → (∀ i, i ∈ l → valid r (Blk i)) → (length l < fuel)%nat →
  wp (get_loop fuel (head l)) (λ x r', match x with
    | Some i => ∃ l1 l2, l = l1 ++ i :: l2 ∧ status_at r i = RT_RBB_BLK_PUT ∧ (∀ j, j ∈ l1 → status_at r j ≠ RT_RBB_BLK_PUT) ∧ r' = upd_facts i (with_status RT_RBB_BLK_GET) r
    | None => r' = r ∧ ∀ j, j ∈ l → status_at r j ≠ RT_RBB_BLK_PUT
    end) r.
Proof.
  induction l as [|i l IH]; intros [|fuel] Hc Hv Hf; cbn in Hf; try lia; cbn [get_loop head].
  - apply wp_ret. split; [done|]. intros j []%elem_of_nil.
  - destruct Hc as [Hc|]; [|done]. cbn in Hc. destruct (blk_status_run r i) as (b & Hb & Hs); [apply Hv; by left|].
    apply wp_bind. unfold wp at 1. rewrite (get_blk_run r i b Hb). rewrite Hs. destruct (decide (status_at r i = RT_RBB_BLK_PUT)) as [Hp|Hp].
    + apply wp_bind. unfold wp at 1. rewrite (set_status_run i _ b r Hb). apply wp_ret. exists [], l. split_and!; [done|done|intros j []%elem_of_nil|done].
    + apply wp_bind. unfold wp at 1. rewrite get_next_run by (apply Hv; by left). rewrite (slink_head _ _ _ Hc).
      eapply wp_mono; [apply (IH fuel); [|intros j Hj; apply Hv; by right|lia]|].
      * destruct l as [|j l]; [by right|left]. by destruct Hc as [_ Hc].
      * cbv beta. intros [k|] r'.
        -- intros (l1 & l2 & -> & H1 & H2 & H3). exists (i :: l1), l2. split_and!; [done|done| |done]. intros j [->|Hj]%elem_of_cons; [done|by apply H2].
        -- intros [-> H2]. split; [done|]. intros j [->|Hj]%elem_of_cons; [done|by apply H2].
Qed.

Lemma blk_get_run r l : slist r l →
  wp rt_rbb_blk_get (λ x r', match x with
    | Some i => ∃ l1 l2, l = l1 ++ i :: l2 ∧ status_at r i = RT_RBB_BLK_PUT ∧ (∀ j, j ∈ l1 → status_at r j ≠ RT_RBB_BLK_PUT) ∧ r' = upd_facts i (with_status RT_RBB_BLK_GET) r
    | None => r' = r ∧ ∀ j, j ∈ l → status_at r j ≠ RT_RBB_BLK_PUT
    end) r.
Proof.
  intros Hs. pose proof (slist_length _ _ Hs). pose proof (slink_head _ _ _ (sl_chain _ _ Hs)) as Hh. unfold rt_rbb_blk_get, rt_slist_isempty.
  apply wp_bind. apply wp_bind. unfold wp at 1. rewrite get_next_run, Hh by done. apply wp_ret. destruct l as [|i l]; cbn [head].
  - apply wp_ret. split; [done|]. intros j []%elem_of_nil.
  - apply wp_bind. unfold wp at 1, walk_fuel, gets. apply wp_bind. unfold wp at 1. rewrite get_next_run, Hh by done.
    apply (get_loop_run r (i :: l)); [left; by destruct (sl_chain _ _ Hs) as [_ ?]|apply Hs|lia].
Qed.

Lemma blk_free_run r l1 i l2 : inv r (l1 ++ i :: l2) →
  wp (rt_rbb_blk_free i) (λ _ r', inv r' (l1 ++ l2) ∧ status_at r' i = RT_RBB_BLK_UNUSED ∧ rbb_buf r' = rbb_buf r ∧ rbb_buf_size r' = rbb_buf_size r ∧
    ∀ j, j ≠ i → facts <$> rbb_blk_set r' !! j = facts <$> rbb_blk_set r !! j) r.
Proof.
  intros [H1 H2 H3 H4 H5 H6]. assert (i ∈ l1 ++ i :: l2) as Hi by (rewrite elem_of_app, elem_of_cons; tauto).
  destruct (blk_valid r i) as [b Hb]; [by apply H1|]. pose proof (proj2 (H2 i b Hb) Hi) as Hst. destruct (remove_run r l1 i l2 H1) as (r1 & Hr1 & Hs1 & Hl1 & _).
  pose proof (same_facts _ _ i Hs1) as Hf. rewrite Hb in Hf. destruct (rbb_blk_set r1 !! i) as [b1|] eqn:Hb1; [|done].
  unfold rt_rbb_blk_free. apply wp_bind. unfold wp at 1. rewrite (get_blk_run r i b Hb). apply wp_bind, wp_assert; [by apply bool_decide_eq_true_2|].
  apply wp_bind. unfold wp at 1. rewrite Hr1. unfold wp. rewrite (set_status_run i _ b1 r1 Hb1). set (r2 := upd_facts i (with_status RT_RBB_BLK_UNUSED) r1).
  assert (∀ j, j ≠ i → rbb_blk_set r2 !! j = rbb_blk_set r1 !! j) as Hoth by (intros j Hj; cbn; by rewrite list_lookup_alter, decide_False).
  assert (rbb_blk_set r2 !! i = Some (with_status RT_RBB_BLK_UNUSED b1)) as Hc by (cbn; rewrite list_lookup_alter, decide_True, Hb1 by done; done).
  assert (NoDup (l1 ++ i :: l2)) as Hnd by apply H1. rewrite <- Permutation_middle in Hnd. apply NoDup_cons in Hnd as [Hni _].
  split_and!; [split|unfold status_at; by rewrite Hc|apply Hs1|apply Hs1|intros j Hj; rewrite Hoth by done; by apply same_facts].
  - by apply upd_facts_slist.
  - intros j d Hd. destruct (decide (j = i)) as [->|Hne].
    + rewrite Hc in Hd. injection Hd as <-. cbn. tauto.
    + rewrite Hoth in Hd by done. pose proof (same_facts _ _ j Hs1) as Hfj. rewrite Hd in Hfj. destruct (rbb_blk_set r !! j) as [d0|] eqn:Hd0; [|done].
      injection Hfj as Ef _ _. rewrite Ef, (H2 j d0 Hd0). rewrite !elem_of_app, elem_of_cons. tauto.
  - cbn. rewrite length_alter, (same_length _ _ Hs1), (sm_max _ _ Hs1). done.
  - cbn. by rewrite length_alter, (same_length _ _ Hs1).
  - unfold limit. cbn. rewrite (sm_buf _ _ Hs1), (sm_size _ _ Hs1). done.
  - unfold limit. cbn [r2 upd_facts set_blocks rbb_buf rbb_buf_size]. rewrite (sm_buf _ _ Hs1), (sm_size _ _ Hs1). unfold r2. rewrite upd_status_extents, (same_extents _ _ _ Hs1).
    unfold extents in *. rewrite fmap_app in *. cbn [fmap list_fmap] in H6. by eapply ringed_remove.
Qed.

Lemma blk_put_run r l i b : inv r l → rbb_blk_set r !! i = Some b → blk_status b = RT_RBB_BLK_INITED →
  rt_rbb_blk_put i r = Some (tt, upd_facts i (with_status RT_RBB_BLK_PUT) r) ∧ inv (upd_facts i (with_status RT_RBB_BLK_PUT) r) l.
Proof.
  intros Hinv Hb Hs. split; [|apply (inv_status i _ b); [done|done|by rewrite Hs|done]]. unfold rt_rbb_blk_put, bind. rewrite (get_blk_run r i b Hb).
  unfold assert. rewrite bool_decide_eq_true_2 by done. by apply (set_status_run i _ b).
Qed.

(** * Reachable buffers *)

(** What a user does: blocks are put once, and freed while they are in use. *)
Inductive op := OAlloc (size : Z) | OPut (i : nat) | OGet | OFree (i : nat).

Definition exec (o : op) : R (option nat) :=
  match o with
  | OAlloc n => rt_rbb_blk_alloc n
  | OPut i => rt_rbb_blk_put i ;; ret None
  | OGet => rt_rbb_blk_get
  | OFree i => rt_rbb_blk_free i ;; ret None
  end.

(** The first block of an empty buffer has to fit it. *)
Inductive allowed (r : rt_rbb) : op → Prop :=
| al_alloc n : 0 < n < 2 ^ 24 → (rbb_list r = None → n ≤ rbb_buf_size r) → allowed r (OAlloc n)
| al_put i : valid r (Blk i) → status_at r i = RT_RBB_BLK_INITED → allowed r (OPut i)
| al_get : allowed r OGet
| al_free i : valid r (Blk i) → status_at r i ≠ RT_RBB_BLK_UNUSED → allowed r (OFree i).

Inductive reachable (buf size : Z) (n : nat) : rt_rbb → Prop :=
| re_init set r : length set = n → rt_rbb_init buf size set (Z.of_nat n) = Some r → reachable buf size n r
| re_step r o x r' : reachable buf size n r → allowed r o → exec o r = Some (x, r') → reachable buf size n r'.

Lemma init_inv buf size set r :
  0 < buf → 0 ≤ size → buf + size < 2 ^ 32 → Z.of_nat (length set) < 2 ^ 32 - 1 → rt_rbb_init buf size set (Z.of_nat (length set)) = Some r →
  inv r [] ∧ rbb_buf r = buf ∧ rbb_buf_size r = size.
Proof.
  intros Hb Hs Hl Hn. unfold rt_rbb_init. destruct (nz buf && _); [|done]. intros [= <-]. rewrite Nat2Z.id, take_ge, drop_ge, app_nil_r by lia. split_and!; [|done|done]. split.
  - split; [done|constructor|intros i []%elem_of_nil].
  - cbn. intros i b. rewrite list_lookup_fmap, fmap_Some. intros (c & _ & ->). cbn. split; [done|intros []%elem_of_nil].
  - cbn. by rewrite length_fmap.
  - cbn. by rewrite length_fmap.
  - unfold limit. cbn. lia.
  - exists [], [], buf. unfold limit. cbn. split_and!; [done|lia|lia].
Qed.

(** Every allowed operation returns and keeps the invariant. *)
Lemma rbb_exec_run r l o : inv r l → allowed r o → wp (exec o) (λ _ r', ∃ l', inv r' l' ∧ rbb_buf r' = rbb_buf r ∧ rbb_buf_size r' = rbb_buf_size r) r.
Proof.
  intros Hinv Hal. destruct Hal as [n Hn He|i Hv Hs| |i Hv Hs]; cbn [exec].
  - eapply wp_mono; [apply (blk_alloc_run r l n Hinv Hn)|].
    + intros ->. apply He. exact (sl_chain _ _ (iv_list _ _ Hinv)).
    + intros [i|] r'; cbn; [|intros [-> _]; by exists l]. intros (b & c & _ & _ & Hi & _ & _ & E1 & E2 & _). by exists (l ++ [i]).
  - destruct (blk_status_run r i Hv) as (b & Hb & Eb). destruct (blk_put_run r l i b Hinv Hb) as [Hr Hi]; [congruence|]. apply wp_bind. unfold wp at 1. rewrite Hr. apply wp_ret. by exists l.
  - eapply wp_mono; [apply (blk_get_run r l), Hinv|]. cbv beta. intros [i|] r'; [|intros [-> _]; by exists l]. intros (l1 & l2 & -> & Hs & _ & ->).
    destruct (blk_status_run r i) as (b & Hb & Eb); [apply (sl_valid _ _ (iv_list _ _ Hinv)); rewrite elem_of_app, elem_of_cons; tauto|].
    exists (l1 ++ i :: l2). split_and!; [apply (inv_status i _ b); [done|done|by rewrite Eb, Hs|done]|done|done].
  - destruct (blk_status_run r i Hv) as (b & Hb & Eb). assert (i ∈ l) as Hi by (apply (iv_used _ _ Hinv i b Hb); congruence). apply list_elem_of_split in Hi as (l1 & l2 & ->).
    apply wp_bind. eapply wp_mono; [by apply (blk_free_run r l1 i l2)|]. cbv beta. intros _ r' (Hi & _ & E1 & E2 & _). apply wp_ret. by exists (l1 ++ l2).
Qed.

Lemma reachable_inv buf size n r :
  0 < buf → 0 ≤ size → buf + size < 2 ^ 32 → Z.of_nat n < 2 ^ 32 - 1 → reachable buf size n r → ∃ l, inv r l ∧ rbb_buf r = buf ∧ rbb_buf_size r = size.
Proof.
  intros Hb Hs Hl Hn Hr. induction Hr as [set r <- Hr|r o x r' _ (l & Hi & E1 & E2) Ho Hx]; [exists []; by apply (init_inv buf size set)|].
  pose proof (rbb_exec_run r l o Hi Ho) as Hw. unfold wp in Hw. rewrite Hx in Hw. destruct Hw as (l' & Hi' & E1' & E2'). exists l'. split_and!; [done|congruence|congruence].
Qed.

(** * Queues *)

Definition size_at (r : rt_rbb) (i : nat) : Z := (extent_at r i).2.
Definition buf_at (r : rt_rbb) (i : nat) : Z := (extent_at r i).1.

(** How many of the blocks [l] a queue takes behind a block at [last], when [total] bytes
    are taken already. *)
Fixpoint run_length (r : rt_rbb) (len last total : Z) (l : list nat) : nat :=
  match l with
  | [] => 0
  | i :: l' =>
      if bool_decide (status_at r i = RT_RBB_BLK_PUT) && (last <=? buf_at r i) && (total + size_at r i <=? len)
      then S (run_length r len (buf_at r i) (total + size_at r i) l') else 0
  end.

Definition sizes (r : rt_rbb) (l : list nat) : Z := foldr Z.add 0 (size_at r <$> l).

Lemma sizes_bound r l : inv r l → ∀ k, k `sublist_of` l → 0 ≤ sizes r k ≤ rbb_buf_size r ∧ rbb_buf_size r < 2 ^ 32.
Proof.
  intros Hinv.
  assert (∀ lo es hi, stacked lo es hi → ∀ es', es' `sublist_of` es → 0 ≤ foldr Z.add 0 (es'.*2) ≤ hi - lo) as Hst.
  { intros lo es. revert lo. induction es as [|[b s] es IH]; intros lo hi Hs es' Hsub; [apply sublist_nil_r in Hsub; subst; cbn in *; lia|].
    destruct Hs as (H1 & H2 & H3). apply sublist_cons_r in Hsub as [Hsub|(es2 & -> & Hsub)]; specialize (IH _ _ H3 _ Hsub); cbn; lia. }
  intros k Hk. destruct Hinv as [H1 _ _ _ H5 (e1 & e2 & m & E & S1 & S2)].
  assert ((extent_at r <$> k) `sublist_of` e1 ++ e2) as Hsub by (rewrite <- E; unfold extents; by apply fmap_sublist).
  apply sublist_app_r in Hsub as (k1 & k2 & Ek & B1 & B2). specialize (Hst _ _ _ S1 _ B2) as Q1. specialize (Hst _ _ _ S2 _ B1) as Q2.
  assert (sizes r k = foldr Z.add 0 k1.*2 + foldr Z.add 0 k2.*2) as ->.
  { unfold sizes. replace (size_at r <$> k) with ((extent_at r <$> k).*2) by (by rewrite <- list_fmap_compose). rewrite Ek, fmap_app. clear. induction k1 as [|x k1 IH]; cbn; lia. }
  unfold limit in *. lia.
Qed.

(** A block is taken out of the list and marked. *)
Lemma take_run {A} r l1 i l2 (f : option nat → R A) (Q : A → rt_rbb → Prop) :
  slist r (l1 ++ i :: l2) →
  (∀ r', slist r' (l1 ++ l2) → facts <$> rbb_blk_set r' !! i = (λ b, (RT_RBB_BLK_GET, blk_size b, blk_buf b)) <$> rbb_blk_set r !! i →
    (∀ j, j ≠ i → facts <$> rbb_blk_set r' !! j = facts <$> rbb_blk_set r !! j) → wp (f (head l2)) Q r') →
  wp (rt_slist_remove i ;; set_status i RT_RBB_BLK_GET ;; n ← get_next (Blk i); f n) Q r.
Proof.
  intros Hs HQ. assert (valid r (Blk i)) as Hv by (apply (sl_valid _ _ Hs); rewrite elem_of_app, elem_of_cons; tauto). destruct (blk_valid r i Hv) as [b Hb].
  destruct (remove_run r l1 i l2 Hs) as (r1 & Hr1 & Hs1 & Hl1 & Hn1). pose proof (same_facts _ _ i Hs1) as Hf. rewrite Hb in Hf. destruct (rbb_blk_set r1 !! i) as [b1|] eqn:Hb1; [|done].
  apply wp_bind. unfold wp at 1. rewrite Hr1. apply wp_bind. unfold wp at 1. rewrite (set_status_run i _ b1 r1 Hb1). set (r2 := upd_facts i (with_status RT_RBB_BLK_GET) r1).
  apply wp_bind. unfold wp at 1. rewrite get_next_run by (cbn; rewrite length_alter; by eapply lookup_lt_Some).
  assert (nx r2 (Blk i) = head l2) as ->. { rewrite <- Hn1. cbn. rewrite list_lookup_alter, decide_True by done. by rewrite Hb1. }
  apply HQ.
  - by apply upd_facts_slist.
  - cbn. rewrite list_lookup_alter, decide_True, Hb1, Hb by done. cbn. unfold facts in *. cbn. injection Hf as _ -> ->. done.
  - intros j Hj. cbn. rewrite list_lookup_alter, decide_False by done. by apply same_facts.
Qed.

Lemma facts_at r r' i : facts <$> rbb_blk_set r' !! i = facts <$> rbb_blk_set r !! i → status_at r' i = status_at r i ∧ extent_at r' i = extent_at r i.
Proof.
  intros H. unfold status_at, extent_at. destruct (rbb_blk_set r' !! i) as [b'|], (rbb_blk_set r !! i) as [b|]; cbn in *; try done. injection H as H1 H2 H3.
  unfold extent. by rewrite H1, H2, H3.
Qed.

(** What the loop leaves: [k] are taken. *)
Definition taken (r r' : rt_rbb) (k : list nat) : Prop :=
  (∀ i, i ∈ k → status_at r' i = RT_RBB_BLK_GET ∧ extent_at r' i = extent_at r i) ∧
  (∀ i, i ∉ k → facts <$> rbb_blk_set r' !! i = facts <$> rbb_blk_set r !! i).

Lemma taken_step r r1 r2 i k :
  facts <$> rbb_blk_set r1 !! i = (λ b, (RT_RBB_BLK_GET, blk_size b, blk_buf b)) <$> rbb_blk_set r !! i → valid r (Blk i) →
  (∀ j, j ≠ i → facts <$> rbb_blk_set r1 !! j = facts <$> rbb_blk_set r !! j) → i ∉ k → taken r1 r2 k → taken r r2 (i :: k).
Proof.
  intros Hi Hv Hoth Hk [H1 H2]. destruct (blk_valid r i Hv) as [b Hb]. rewrite Hb in Hi. cbn in Hi. split.
  - intros j [->|Hj]%elem_of_cons.
    + specialize (H2 i Hk). rewrite Hi in H2. unfold status_at, extent_at. rewrite Hb. destruct (rbb_blk_set r2 !! i) as [c|]; [|done]. cbn in *. injection H2 as -> E1 E2.
      unfold extent. by rewrite E1, E2.
    + destruct (H1 j Hj) as [-> ->]. split; [done|]. apply facts_at, Hoth. intros ->. done.
  - intros j Hj. rewrite elem_of_cons in Hj. rewrite H2 by tauto. apply Hoth. tauto.
Qed.

Lemma run_length_ext r r' len : ∀ l last total, (∀ i, i ∈ l → facts <$> rbb_blk_set r' !! i = facts <$> rbb_blk_set r !! i) → run_length r' len last total l = run_length r len last total l.
Proof.
  induction l as [|i l IH]; intros last total H; [done|]. cbn. unfold buf_at, size_at. destruct (facts_at r r' i) as [-> ->]; [apply H; by left|].
  rewrite IH by (intros j Hj; apply H; by right). done.
Qed.
Lemma sizes_ext r r' l : (∀ i, i ∈ l → facts <$> rbb_blk_set r' !! i = facts <$> rbb_blk_set r !! i) → sizes r' l = sizes r l.
Proof.
  intros H. unfold sizes. f_equal. apply list_fmap_ext. intros k i Hi. unfold size_at. destruct (facts_at r r' i) as [_ ->]; [|done]. apply H. by eapply list_elem_of_lookup_2.
Qed.

Lemma elem_of_taken (x : nat) n (l : list nat) : x ∈ take n l → x ∈ l.
Proof. intros (i & Hi & _)%elem_of_take. by eapply list_elem_of_lookup_2. Qed.

Lemma queue_run l1 len : ∀ l2 fuel r last total q,
  slist r (l1 ++ l2) → (length l2 < fuel)%nat → (∀ k, k `sublist_of` l2 → 0 ≤ total + sizes r k < 2 ^ 32) → 0 ≤ bq_blk_num q → bq_blk_num q + Z.of_nat (length l2) < 2 ^ 32 →
  let k := run_length r len (blk_buf last) total l2 in
  wp (queue_loop fuel len (head l2) (Some last) total q) (λ x r',
    x = (total + sizes r (take k l2), mk_queue (bq_blocks q) (bq_blk_num q + Z.of_nat k)) ∧ slist r' (l1 ++ drop k l2) ∧ taken r r' (take k l2)) r.
Proof.
  assert (∀ r, taken r r []) as Hnil by (intros r; split; [intros i []%elem_of_nil|done]).
  induction l2 as [|i l2 IH]; intros [|fuel] r last total q Hs Hf Hsz Hq1 Hq2; cbn [length] in Hf, Hq2; try lia; cbn [queue_loop head].
  - apply wp_ret. cbn. rewrite !Z.add_0_r. split_and!; [by destruct q|done|apply Hnil].
  - assert (valid r (Blk i)) as Hv by (apply (sl_valid _ _ Hs); rewrite elem_of_app, elem_of_cons; tauto). destruct (blk_valid r i Hv) as [b Hb].
    apply wp_bind. unfold wp at 1. rewrite (get_blk_run r i b Hb). cbv zeta.
    assert (status_at r i = blk_status b ∧ extent_at r i = extent b) as [Est Eex] by (unfold status_at, extent_at; by rewrite Hb).
    assert (size_at r i = blk_size b ∧ buf_at r i = blk_buf b) as [Esz Ebf] by (unfold size_at, buf_at; by rewrite Eex).
    assert (0 ≤ total + blk_size b < 2 ^ 32) as Hts.
    { specialize (Hsz [i]). unfold sizes in Hsz. cbn in Hsz. rewrite Esz in Hsz. replace (total + blk_size b) with (total + (blk_size b + 0)) by lia. apply Hsz. apply sublist_skip, sublist_nil_l. }
    rewrite !(wrap_small 32 (total + blk_size b)) by lia. rewrite (wrap_small 32 (bq_blk_num q + 1)) by lia.
    cbn [run_length]. rewrite Est, Esz, Ebf.
    assert (negb (bool_decide (blk_status b = RT_RBB_BLK_PUT)) || (blk_buf b <? blk_buf last) || (len <? total + blk_size b) =
      negb (bool_decide (blk_status b = RT_RBB_BLK_PUT) && (blk_buf last <=? blk_buf b) && (total + blk_size b <=? len))) as ->.
    { rewrite !negb_andb. rewrite Z.leb_antisym, negb_involutive. f_equal. by rewrite Z.leb_antisym, negb_involutive. }
    destruct (bool_decide _ && _ && _); cbn [negb].
    2: { apply wp_ret. cbn. rewrite !Z.add_0_r. split_and!; [by destruct q|done|apply Hnil]. }
    apply (take_run r l1 i l2); [done|]. intros r1 Hs1 Hi1 Hoth.
    assert (i ∉ l1 ++ l2) as Hni by (pose proof (sl_nodup _ _ Hs) as Hnd; rewrite <- Permutation_middle in Hnd; by apply NoDup_cons in Hnd as [? _]).
    assert (∀ j, j ∈ l2 → facts <$> rbb_blk_set r1 !! j = facts <$> rbb_blk_set r !! j) as Hl2.
    { intros j Hj. apply Hoth. intros ->. apply Hni, elem_of_app. by right. }
    eapply wp_mono; [apply (IH fuel r1 b (total + blk_size b) (mk_queue (bq_blocks q) (bq_blk_num q + 1))); [done|lia| |cbn; lia|cbn; lia]|].
    + intros k Hk. rewrite (sizes_ext r r1) by (intros j Hj; apply Hl2; by eapply elem_of_sublist). specialize (Hsz (i :: k) ltac:(by apply sublist_skip)).
      unfold sizes in *. cbn in Hsz. rewrite Esz in Hsz. lia.
    + cbv beta. rewrite (run_length_ext r r1) by done. set (k := run_length r len (blk_buf b) (total + blk_size b) l2).
      intros x r2 (-> & Hs2 & Ht). rewrite (sizes_ext r r1) by (intros j Hj; apply Hl2; by eapply elem_of_taken). cbn [bq_blocks bq_blk_num]. split_and!.
      * cbn [take]. unfold sizes. cbn. rewrite Esz. f_equal; [lia|f_equal; lia].
      * done.
      * eapply taken_step; [exact Hi1|done|exact Hoth| |exact Ht]. intros Hj. apply Hni, elem_of_app. right. by eapply elem_of_taken.
Qed.

Definition queue_post (r : rt_rbb) (l : list nat) (len : Z) (q : rt_rbb_blk_queue) (x : Z * rt_rbb_blk_queue) (r' : rt_rbb) : Prop :=
  (x = (0, q) ∧ r' = r ∧ ∀ j, j ∈ l → status_at r j ≠ RT_RBB_BLK_PUT) ∨
  ∃ l0 i l2, l = l0 ++ i :: l2 ∧ (∀ j, j ∈ l0 → status_at r j ≠ RT_RBB_BLK_PUT) ∧ status_at r i = RT_RBB_BLK_PUT ∧
    let k := run_length r len (buf_at r i) (size_at r i) l2 in
    x = (sizes r (i :: take k l2), mk_queue i (Z.of_nat (S k))) ∧ slist r' (l0 ++ drop k l2) ∧ taken r r' (i :: take k l2).

Lemma skip_run r len q l : inv r l → ∀ l2 l0 fuel, l = l0 ++ l2 → (length l2 < fuel)%nat → (∀ j, j ∈ l0 → status_at r j ≠ RT_RBB_BLK_PUT) →
  wp (queue_loop fuel len (head l2) None 0 q) (queue_post r l len q) r.
Proof.
  intros Hinv. pose proof (iv_list _ _ Hinv) as Hs. pose proof (sizes_bound r l Hinv) as Hsz. pose proof (slist_length _ _ Hs) as Hlen. pose proof (iv_small _ _ Hinv) as Hsm.
  induction l2 as [|i l2 IH]; intros l0 [|fuel] El Hf Hl0; cbn [length] in Hf; try lia; cbn [queue_loop head].
  - apply wp_ret. left. rewrite El, app_nil_r. done.
  - assert (valid r (Blk i)) as Hv by (apply (sl_valid _ _ Hs); rewrite El, elem_of_app, elem_of_cons; tauto). destruct (blk_valid r i Hv) as [b Hb].
    apply wp_bind. unfold wp at 1. rewrite (get_blk_run r i b Hb). cbv zeta.
    assert (status_at r i = blk_status b ∧ extent_at r i = extent b) as [Est Eex] by (unfold status_at, extent_at; by rewrite Hb).
    assert (size_at r i = blk_size b ∧ buf_at r i = blk_buf b) as [Esz Ebf] by (unfold size_at, buf_at; by rewrite Eex).
    assert (∀ k, k `sublist_of` l2 → 0 ≤ blk_size b + sizes r k < 2 ^ 32) as Hb2.
    { intros k Hk. rewrite <- Esz. pose proof (Hsz (i :: k)) as H. unfold sizes in *. cbn in H. rewrite El in H. specialize (H ltac:(apply sublist_inserts_l; by apply sublist_skip)). lia. }
    pose proof (Hb2 [] (sublist_nil_l _)) as Hb1. cbn in Hb1. rewrite Z.add_0_r in Hb1.
    destruct (decide (blk_status b = RT_RBB_BLK_PUT)) as [Hp|Hp].
    + rewrite El in Hs. rewrite Z.add_0_l, (wrap_small 32 (blk_size b)) by lia. cbn [bq_blocks bq_blk_num]. change (u32 (0 + 1)) with 1.
      apply (take_run r l0 i l2); [done|]. intros r1 Hs1 Hi1 Hoth.
      assert (i ∉ l0 ++ l2) as Hni by (pose proof (sl_nodup _ _ Hs) as Hnd; rewrite <- Permutation_middle in Hnd; by apply NoDup_cons in Hnd as [? _]).
      assert (∀ j, j ∈ l2 → facts <$> rbb_blk_set r1 !! j = facts <$> rbb_blk_set r !! j) as Hl2.
      { intros j Hj. apply Hoth. intros ->. apply Hni, elem_of_app. by right. }
      rewrite El, length_app in Hlen. cbn [length] in Hlen.
      eapply wp_mono; [apply (queue_run l0 len l2 fuel r1 b (blk_size b) (mk_queue i 1)); [done|lia| |cbn; lia|cbn; lia]|].
      * intros k Hk. rewrite (sizes_ext r r1) by (intros j Hj; apply Hl2; by eapply elem_of_sublist). by apply Hb2.
      * cbv beta zeta. rewrite (run_length_ext r r1) by done. rewrite <- Ebf, <- Esz. set (k := run_length r len _ _ l2). intros x r2 (-> & Hs2 & Ht). right. exists l0, i, l2.
        rewrite (sizes_ext r r1) by (intros j Hj; apply Hl2; by eapply elem_of_taken). split_and!; [done|done|congruence|]. cbv zeta. fold k. split_and!; [|done|].
        -- cbn [bq_blocks bq_blk_num]. f_equal. f_equal. lia.
        -- eapply taken_step; [exact Hi1|done|exact Hoth| |exact Ht]. intros Hj. apply Hni, elem_of_app. right. by eapply elem_of_taken.
    + apply wp_bind. unfold wp at 1. rewrite get_next_run by done.
      assert (nx r (Blk i) = head l2) as ->.
      { pose proof (sl_chain _ _ Hs) as Hc. rewrite El in Hc. clear -Hc. revert Hc. generalize Head. induction l0 as [|j l0 IH]; intros n; cbn [app chain]; intros [_ Hc]; [by apply slink_head|by apply (IH (Blk j))]. }
      apply (IH (l0 ++ [i])); [by rewrite El, <- (assoc_L (++))|lia|]. intros j [Hj|Hj%list_elem_of_singleton]%elem_of_app; [by apply Hl0|]. subst j. congruence.
Qed.

Lemma queue_get_run r l len q : inv r l → wp (rt_rbb_blk_queue_get len q) (queue_post r l len q) r.
Proof.
  intros Hinv. pose proof (iv_list _ _ Hinv) as Hs. pose proof (slist_length _ _ Hs). pose proof (slink_head _ _ _ (sl_chain _ _ Hs)) as Hh. unfold rt_rbb_blk_queue_get, rt_slist_isempty.
  apply wp_bind. apply wp_bind. unfold wp at 1. rewrite get_next_run, Hh by done. apply wp_ret. destruct l as [|i l]; cbn [head].
  - apply wp_ret. left. split_and!; [done|done|intros j []%elem_of_nil].
  - apply wp_bind. unfold wp at 1, walk_fuel, gets. apply wp_bind. unfold wp at 1. rewrite get_next_run, Hh by done.
    apply (skip_run r len q (i :: l) Hinv (i :: l) []); [done|cbn in *; lia|intros j []%elem_of_nil].
Qed.

(** ** The next queue *)

(** The size of the first queue of [l]. *)
Fixpoint next_size (r : rt_rbb) (len : Z) (l : list nat) : Z :=
  match l with
  | [] => 0
  | i :: l' =>
      if decide (status_at r i = RT_RBB_BLK_PUT)
      then sizes r (i :: take (run_length r len (buf_at r i) (size_at r i) l') l')
      else next_size r len l'
  end.

Lemma queue_post_size r l len q x r' : queue_post r l len q x r' → x.1 = next_size r len l.
Proof.
  intros [(-> & _ & H)|(l0 & i & l2 & -> & H & Hi & -> & _)]; cbn [fst].
  - induction l as [|i l IH]; [done|]. cbn. rewrite decide_False by (apply H; by left). apply IH. intros j Hj. apply H. by right.
  - induction l0 as [|j l0 IH]; cbn [app next_size]; [by rewrite decide_True|]. rewrite decide_False by (apply H; by left). apply IH. intros k Hk. apply H. by right.
Qed.

(** The first queue of [l] from a node of the list on. *)
Lemma next_run r len (l : list nat) : (∀ j, j ∈ l → valid r (Blk j)) → ∀ l2 fuel last total,
  (∀ j, j ∈ l2 → j ∈ l) → chain (nx r) (from_option Blk Head (head l2)) (tail l2) ∨ l2 = [] → (length l2 < fuel)%nat →
  (∀ k, k `sublist_of` l2 → 0 ≤ total + sizes r k ≤ len) → len < 2 ^ 32 → (last = None → total = 0) →
  next_len_loop fuel (head l2) last total r =
    Some (match last with Some b => total + sizes r (take (run_length r len (blk_buf b) total l2) l2) | None => total + next_size r len l2 end, r).
Proof.
  intros Hv. induction l2 as [|i l2 IH]; intros [|fuel] last total Hl Hc Hf Hsz Hlen H0; cbn [length] in Hf; try lia; cbn [next_len_loop head].
  - destruct last; cbn; by rewrite Z.add_0_r.
  - destruct Hc as [Hc|]; [|done]. cbn [head tail from_option] in Hc. destruct (blk_status_run r i) as (b & Hb & Est); [apply Hv, Hl; by left|].
    assert (size_at r i = blk_size b ∧ buf_at r i = blk_buf b) as [Esz Ebf] by (unfold size_at, buf_at, extent_at; by rewrite Hb).
    assert (∀ k, k `sublist_of` l2 → 0 ≤ total + blk_size b + sizes r k ≤ len) as Hsz'.
    { intros k Hk. specialize (Hsz (i :: k) ltac:(by apply sublist_skip)). unfold sizes in *. cbn in Hsz. rewrite Esz in Hsz. lia. }
    pose proof (Hsz' [] (sublist_nil_l _)) as Hts. cbn in Hts. pose proof (Hsz [] (sublist_nil_l _)) as Htot. cbn in Htot.
    assert (chain (nx r) (from_option Blk Head (head l2)) (tail l2) ∨ l2 = []) as Hc' by (destruct l2; [by right|left; by destruct Hc]).
    assert (∀ j, j ∈ l2 → j ∈ l) as Hl' by (intros j Hj; apply Hl; by right).
    unfold bind. rewrite (get_blk_run r i b Hb), get_next_run by (apply Hv, Hl; by left). rewrite (slink_head _ _ _ Hc), Est, (wrap_small 32) by lia.
    destruct last as [last|].
    + cbn [run_length]. rewrite Esz, Ebf. rewrite (proj2 (Z.leb_le (total + blk_size b) len)), andb_true_r by lia.
      assert (negb (bool_decide (status_at r i = RT_RBB_BLK_PUT)) || (blk_buf b <? blk_buf last) =
        negb (bool_decide (status_at r i = RT_RBB_BLK_PUT) && (blk_buf last <=? blk_buf b))) as -> by (by rewrite negb_andb, Z.leb_antisym, negb_involutive).
      destruct (_ && _); cbn [negb].
      * rewrite (IH fuel (Some b)); [|done|done|lia|done|done|done]. unfold sizes. cbn. rewrite Esz. do 2 f_equal. lia.
      * cbn. unfold sizes. cbn. by rewrite Z.add_0_r.
    + cbn [next_size]. rewrite Esz, Ebf. destruct (decide (status_at r i = RT_RBB_BLK_PUT)).
      * rewrite (IH fuel (Some b)); [|done|done|lia|done|done|done]. specialize (H0 eq_refl). subst total. unfold sizes. cbn. rewrite Esz. done.
      * apply (IH fuel None); [done|done|lia| |done|done]. intros k Hk. apply Hsz. by apply sublist_cons.
Qed.

Lemma next_len_run r l len : inv r l → rbb_buf_size r ≤ len < 2 ^ 32 → rt_rbb_next_blk_queue_len r = Some (next_size r len l, r).
Proof.
  intros Hinv Hlen. pose proof (iv_list _ _ Hinv) as Hs. pose proof (slist_length _ _ Hs). pose proof (slink_head _ _ _ (sl_chain _ _ Hs)) as Hh.
  unfold rt_rbb_next_blk_queue_len, rt_slist_isempty, walk_fuel, bind, gets. rewrite get_next_run, Hh by done. destruct l as [|i l]; [done|].
  cbn [head ret]. unfold ret. rewrite get_next_run, Hh by done. rewrite (next_run r len (i :: l)) with (l2 := i :: l); [by rewrite Z.add_0_l|apply Hs|done| |lia| |lia|done].
  - left. by destruct (sl_chain _ _ Hs) as [_ ?].
  - intros k Hk. rewrite Z.add_0_l. pose proof (sizes_bound r (i :: l) Hinv k Hk). lia.
Qed.

(** * Properties *)

(** C37: Blocks of a buffer can be allocated, put, got and freed in any order: as long as
    every block asked for has at least one byte and less than 2^24 (a block of size zero is
    accepted and the next one may overlap another, [zero_size_overlaps]; the size is a field
    of 24 bits), and no block larger than the buffer is asked for while it is empty
    ([alloc_oversize]), the blocks in use always lie inside the buffer and do not overlap,
    and each of these operations returns when the block it is given has the status it
    asserts. Block queues are not among the operations ([queue_blocks_overwritten]). *)
Theorem rbb_reachable_safe buf size n r o :
  0 < buf → 0 ≤ size → buf + size < 2 ^ 32 → Z.of_nat n < 2 ^ 32 - 1 → reachable buf size n r →
  (∀ i, status_at r i ≠ RT_RBB_BLK_UNUSED → buf ≤ buf_at r i ∧ 0 < size_at r i ∧ buf_at r i + size_at r i ≤ buf + size) ∧
  (∀ i j, status_at r i ≠ RT_RBB_BLK_UNUSED → status_at r j ≠ RT_RBB_BLK_UNUSED → i ≠ j → disjoint (extent_at r i) (extent_at r j)) ∧
  (allowed r o → is_Some (exec o r)).
Proof.
  intros Hb Hs Hl Hn Hr. destruct (reachable_inv buf size n r Hb Hs Hl Hn Hr) as (l & Hinv & E1 & E2).
  assert (∀ i, status_at r i ≠ RT_RBB_BLK_UNUSED → i ∈ l) as Hu.
  { intros i Hi. unfold status_at in Hi. destruct (rbb_blk_set r !! i) as [b|] eqn:Eb; [|done]. by apply (iv_used _ _ Hinv i b Eb). }
  split_and!.
  - intros i Hi. destruct (extents_ends r l i Hinv (Hu i Hi)) as (b & _ & Eb & H1 & H2 & H3). unfold buf_at, size_at, limit in *. rewrite Eb. cbn. lia.
  - intros i j Hi Hj Hne. apply Hu, list_elem_of_lookup in Hi as [k Hk]. apply Hu, list_elem_of_lookup in Hj as [k' Hk'].
    eapply (ringed_disjoint _ _ (extents r l) k k'); [apply Hinv|unfold extents; by rewrite list_lookup_fmap, Hk|unfold extents; by rewrite list_lookup_fmap, Hk'|]. intros ->. congruence.
  - intros Ho. pose proof (rbb_exec_run r l o Hinv Ho) as Hw. unfold wp in Hw. by destruct (exec o r).
Qed.

(** Blocks are got in the order of their allocation: [rt_rbb_blk_get] marks and returns
    the oldest block that was put, and answers null when there is none. *)
Theorem rt_rbb_blk_get_spec r l :
  inv r l →
  wp rt_rbb_blk_get (λ x r', inv r' l ∧ match x with
    | Some i => ∃ l1 l2, l = l1 ++ i :: l2 ∧ status_at r i = RT_RBB_BLK_PUT ∧ status_at r' i = RT_RBB_BLK_GET ∧
        (∀ j, j ∈ l1 → status_at r j ≠ RT_RBB_BLK_PUT) ∧ (∀ j, j ≠ i → rbb_blk_set r' !! j = rbb_blk_set r !! j)
    | None => r' = r ∧ ∀ j, j ∈ l → status_at r j ≠ RT_RBB_BLK_PUT
    end) r.
Proof.
  intros Hinv. eapply wp_mono; [apply (blk_get_run r l), Hinv|]. cbv beta. intros [i|] r'; [|intros [-> H]; done]. intros (l1 & l2 & E & Hs & Hl1 & ->).
  destruct (blk_status_run r i) as (b & Hb & Eb); [apply (sl_valid _ _ (iv_list _ _ Hinv)); rewrite E, elem_of_app, elem_of_cons; tauto|].
  split; [apply (inv_status i _ b); [done|done|by rewrite Eb, Hs|done]|]. exists l1, l2. split_and!; [done|done| |done|].
  - unfold status_at. cbn. rewrite list_lookup_alter, decide_True, Hb by done. done.
  - intros j Hj. cbn. by rewrite list_lookup_alter, decide_False.
Qed.

(** Allocation of a block of 1 to 2^24 - 1 bytes, which fits the buffer when that is empty:
    the block is placed behind the newest one, or at the start of the buffer when the space
    up to the end is too small, and the call fails, with nothing changed, only if all block
    structures are taken or neither place has room; the new block is the last of the list,
    no other block is touched, and the blocks in use stay apart and inside the buffer. *)
Theorem rt_rbb_blk_alloc_spec r l n :
  inv r l → 0 < n < 2 ^ 24 → (l = [] → n ≤ rbb_buf_size r) → wp (rt_rbb_blk_alloc n) (alloc_post r l n) r.
Proof. apply blk_alloc_run. Qed.

(** [rt_rbb_blk_queue_get] takes the oldest block that was put and the blocks behind it
    as long as they are put, do not start again at the beginning of the buffer and fit the
    length; these are marked and leave the list, and the size is theirs. *)
Theorem rt_rbb_blk_queue_get_spec r l len q : inv r l → wp (rt_rbb_blk_queue_get len q) (queue_post r l len q) r.
Proof. apply queue_get_run. Qed.

(** C39: [rt_rbb_next_blk_queue_len] announces what [rt_rbb_blk_queue_get] gives when the
    length allows the whole buffer, and changes nothing. *)
Theorem rt_rbb_next_blk_queue_len_spec r l len q :
  inv r l → rbb_buf_size r ≤ len < 2 ^ 32 →
  ∃ n q' r', rt_rbb_next_blk_queue_len r = Some (n, r) ∧ rt_rbb_blk_queue_get len q r = Some ((n, q'), r').
Proof.
  intros Hinv Hlen. pose proof (queue_get_run r l len q Hinv) as Hq. unfold wp in Hq. destruct (rt_rbb_blk_queue_get len q r) as [[[n q'] r']|]; [|done].
  exists n, q', r'. split; [|done]. rewrite (next_len_run r l len Hinv Hlen), <- (queue_post_size _ _ _ _ _ _ Hq). done.
Qed.

(** * Concrete buffers *)

Definition allowedb (r : rt_rbb) (o : op) : bool :=
  match o with
  | OAlloc n => (0 <? n) && (n <? 2 ^ 24) && match rbb_list r with None => n <=? rbb_buf_size r | Some _ => true end
  | OPut i => (i <? length (rbb_blk_set r))%nat && bool_decide (status_at r i = RT_RBB_BLK_INITED)
  | OGet => true
  | OFree i => (i <? length (rbb_blk_set r))%nat && bool_decide (status_at r i ≠ RT_RBB_BLK_UNUSED)
  end.

Lemma allowedb_allowed r o : allowedb r o = true → allowed r o.
Proof.
  destruct o as [n|i| |i]; unfold allowedb; rewrite ?andb_true_iff, ?bool_decide_eq_true, ?Z.ltb_lt, ?Nat.ltb_lt; intros H; constructor; try (cbn; tauto || lia).
  intros E. rewrite E, Z.leb_le in H. tauto.
Qed.

(** A buffer of ten bytes with four block structures, and what a list of operations makes of it. *)
Definition blank : rt_rbb_blk := mk_blk RT_RBB_BLK_UNUSED 0 0 None.
Definition start : rt_rbb := mk_rbb 100 10 (replicate 4 blank) 4 None.
Fixpoint session (os : list op) (r : rt_rbb) : option rt_rbb :=
  match os with
  | [] => Some r
  | o :: os => if allowedb r o then match exec o r with Some (_, r') => session os r' | None => None end else None
  end.

Lemma session_reachable os : ∀ r r', reachable 100 10 4 r → session os r = Some r' → reachable 100 10 4 r'.
Proof.
  induction os as [|o os IH]; intros r r' Hr; cbn; [by intros [= <-]|]. destruct (allowedb r o) eqn:Ea; [|done]. destruct (exec o r) as [[x r1]|] eqn:Ex; [|done].
  apply IH. eapply re_step; [exact Hr|by apply allowedb_allowed|exact Ex].
Qed.

(** Blocks 1 and 0 in the order of the list, both put. *)
Definition demo : rt_rbb :=
  mk_rbb 100 10 [mk_blk RT_RBB_BLK_PUT 3 107 None; mk_blk RT_RBB_BLK_PUT 3 104 (Some 0%nat); blank; blank] 4 (Some 1%nat).

Lemma demo_reachable : reachable 100 10 4 demo.
Proof.
  eapply (session_reachable [OAlloc 4; OAlloc 3; OPut 0; OPut 1; OGet; OFree 0; OAlloc 3; OPut 0] start); [|vm_compute; reflexivity].
  eapply (re_init 100 10 4 (replicate 4 blank)); vm_compute; reflexivity.
Qed.

Lemma demo_inv : inv demo [1; 0]%nat.
Proof.
  destruct (reachable_inv 100 10 4 demo) as (l & Hinv & _); [lia|lia|lia|lia|apply demo_reachable|].
  assert (l = [1; 0]%nat) as <-; [|done]. pose proof (sl_chain _ _ (iv_list _ _ Hinv)) as Hc.
  destruct l as [|i [|j [|k l]]]; cbn in Hc; destruct_and?; simplify_eq; cbn in *; simplify_eq; done.
Qed.

Lemma rbb_reachable_safe_witness : disjoint (extent_at demo 0) (extent_at demo 1) ∧ is_Some (exec (OFree 1) demo).
Proof.
  destruct (rbb_reachable_safe 100 10 4 demo (OFree 1)) as (_ & H1 & H2); [lia|lia|lia|lia|apply demo_reachable|].
  split; [apply H1; vm_compute; congruence|]. apply H2. by apply allowedb_allowed.
Defined.

Lemma rt_rbb_blk_alloc_spec_witness : wp (rt_rbb_blk_alloc 4) (alloc_post demo [1; 0]%nat 4) demo ∧ place 100 110 (extents demo [1; 0]%nat) 4 = Some 100.
Proof. split; [apply (rt_rbb_blk_alloc_spec demo [1; 0]%nat 4); [apply demo_inv|lia|done]|reflexivity]. Defined.

Lemma rt_rbb_blk_queue_get_spec_witness : wp (rt_rbb_blk_queue_get 10 (mk_queue 0 0)) (queue_post demo [1; 0]%nat 10 (mk_queue 0 0)) demo.
Proof. apply (rt_rbb_blk_queue_get_spec demo [1; 0]%nat). apply demo_inv. Defined.

Lemma rt_rbb_next_blk_queue_len_spec_witness : ∃ n q' r',
  rt_rbb_next_blk_queue_len demo = Some (n, demo) ∧ rt_rbb_blk_queue_get 10 (mk_queue 0 0) demo = Some ((n, q'), r').
Proof. apply (rt_rbb_next_blk_queue_len_spec demo [1; 0]%nat 10); [apply demo_inv|cbn; lia]. Defined.

(** * Corner cases *)

(** Each step computes the state the next one starts from. *)
Ltac runs := repeat (split; [vm_compute; reflexivity|]); vm_compute; reflexivity.

(** An empty buffer hands out a block larger than itself. *)
Lemma alloc_oversize : ∃ r, rt_rbb_blk_alloc 20 start = Some (Some 0%nat, r) ∧ extent_at r 0 = (100, 20).
Proof. eexists. split; vm_compute; reflexivity. Qed.

(** A block of size zero makes the wrapped buffer look as if it were not: the next block
    lies over the oldest one. *)
Lemma zero_size_overlaps : ∃ r1 r2 r3,
  session [OAlloc 4; OAlloc 6; OFree 0; OAlloc 4] start = Some r1 ∧ rt_rbb_blk_alloc 0 r1 = Some (Some 2%nat, r2) ∧
  rt_rbb_blk_alloc 6 r2 = Some (Some 3%nat, r3) ∧ extent_at r3 1 = (104, 6) ∧ extent_at r3 3 = (104, 6) ∧ status_at r3 1 = RT_RBB_BLK_INITED.
Proof. do 3 eexists. runs. Qed.

(** The blocks of a queue are off the list while they are used, so that the next block can
    lie over them. *)
Lemma queue_blocks_overwritten : ∃ r1 r2 r3 q,
  session [OAlloc 5; OPut 0] start = Some r1 ∧ rt_rbb_blk_queue_get 10 (mk_queue 0 0) r1 = Some ((5, q), r2) ∧
  status_at r2 0 = RT_RBB_BLK_GET ∧ rt_rbb_blk_alloc 8 r2 = Some (Some 1%nat, r3) ∧ extent_at r3 0 = (100, 5) ∧ extent_at r3 1 = (100, 8).
Proof. do 4 eexists. runs. Qed.

(** The queue of [demo] has the blocks 1 and 0, but is read as 1 and 2: its length is wrong
    and freeing it fails an assertion. *)
Lemma queue_order_lost : ∃ r q,
  rt_rbb_blk_queue_get 10 (mk_queue 0 0) demo = Some ((6, q), r) ∧ fst <$> rt_rbb_blk_queue_len q r = Some 3 ∧ rt_rbb_blk_queue_free q r = None.
Proof. do 2 eexists. runs. Qed.

(** The first block of a queue is taken whatever the length asked for. *)
Lemma queue_ignores_limit : ∃ q r, rt_rbb_blk_queue_get 1 (mk_queue 0 0) demo = Some ((3, q), r).
Proof. do 2 eexists. vm_compute. reflexivity. Qed.

(** A queue steps over the hole a freed block left. *)
Lemma queue_not_continuous : ∃ r1 q r2,
  session [OAlloc 2; OAlloc 3; OAlloc 4; OPut 0; OPut 2; OFree 1] start = Some r1 ∧ rt_rbb_blk_queue_get 10 (mk_queue 0 0) r1 = Some ((6, q), r2) ∧
  bq_blk_num q = 2 ∧ extent_at r1 0 = (100, 2) ∧ extent_at r1 2 = (105, 4).
Proof. do 3 eexists. runs. Qed.
End RbbSpec.
