(* ===== verification/Kservice.v ===== *)
(** Kernel service routines of src/kservice.c: the find-first-set table the
    scheduler uses to pick a priority. *)

From Stdlib Require Import ZArith Lia.
From stdpp Require Import base numbers option.
From stdpp Require Import list.
From S2P Require Import Prelude.
Local Open Scope Z_scope.

Module Ffs.

Definition __lowest_bit_bitmap : list Z :=
  [ (* 00 *) 0; 0; 1; 0; 2; 0; 1; 0; 3; 0; 1; 0; 2; 0; 1; 0;
    (* 10 *) 4; 0; 1; 0; 2; 0; 1; 0; 3; 0; 1; 0; 2; 0; 1; 0;
    (* 20 *) 5; 0; 1; 0; 2; 0; 1; 0; 3; 0; 1; 0; 2; 0; 1; 0;
    (* 30 *) 4; 0; 1; 0; 2; 0; 1; 0; 3; 0; 1; 0; 2; 0; 1; 0;
    (* 40 *) 6; 0; 1; 0; 2; 0; 1; 0; 3; 0; 1; 0; 2; 0; 1; 0;
    (* 50 *) 4; 0; 1; 0; 2; 0; 1; 0; 3; 0; 1; 0; 2; 0; 1; 0;
    (* 60 *) 5; 0; 1; 0; 2; 0; 1; 0; 3; 0; 1; 0; 2; 0; 1; 0;
    (* 70 *) 4; 0; 1; 0; 2; 0; 1; 0; 3; 0; 1; 0; 2; 0; 1; 0;
    (* 80 *) 7; 0; 1; 0; 2; 0; 1; 0; 3; 0; 1; 0; 2; 0; 1; 0;
    (* 90 *) 4; 0; 1; 0; 2; 0; 1; 0; 3; 0; 1; 0; 2; 0; 1; 0;
    (* A0 *) 5; 0; 1; 0; 2; 0; 1; 0; 3; 0; 1; 0; 2; 0; 1; 0;
    (* B0 *) 4; 0; 1; 0; 2; 0; 1; 0; 3; 0; 1; 0; 2; 0; 1; 0;
    (* C0 *) 6; 0; 1; 0; 2; 0; 1; 0; 3; 0; 1; 0; 2; 0; 1; 0;
    (* D0 *) 4; 0; 1; 0; 2; 0; 1; 0; 3; 0; 1; 0; 2; 0; 1; 0;
    (* E0 *) 5; 0; 1; 0; 2; 0; 1; 0; 3; 0; 1; 0; 2; 0; 1; 0;
    (* F0 *) 4; 0; 1; 0; 2; 0; 1; 0; 3; 0; 1; 0; 2; 0; 1; 0 ].

Definition bitmap_at (i : Z) : Z := default 0 (__lowest_bit_bitmap !! Z.to_nat i).

(** [value] is the 32-bit pattern of the C argument. *)
Definition __rt_ffs (value : Z) : Z :=
  if value =? 0 then 0
  else if nz (Z.land value 0xff) then bitmap_at (Z.land value 0xff) + 1
  else if nz (Z.land value 0xff00) then
    bitmap_at (Z.shiftr (Z.land value 0xff00) 8) + 9
  else if nz (Z.land value 0xff0000) then
    bitmap_at (Z.shiftr (Z.land value 0xff0000) 16) + 17
  else bitmap_at (Z.shiftr (Z.land value 0xff000000) 24) + 25.

(** [k] is the index of the lowest set bit of [v]. *)
Definition lowest_bit (v k : Z) : Prop :=
  0 ≤ k ∧ Z.testbit v k = true ∧ ∀ i, 0 ≤ i < k → Z.testbit v i = false.

Lemma bitmap_table :
  forallb (λ n, let b := Z.of_nat n in let k := bitmap_at b in
    (b =? 0) || ((0 <=? k) && (k <? 8) && Z.testbit b k &&
      forallb (λ i, negb (Z.testbit b (Z.of_nat i))) (seq 0 (Z.to_nat k))))
    (seq 0 256) = true.
Proof. vm_compute. reflexivity. Qed.

Lemma bitmap_lowest b : 0 < b < 256 → lowest_bit b (bitmap_at b) ∧ bitmap_at b < 8.
Proof.
  intros Hb. pose proof bitmap_table as H.
  rewrite List.forallb_forall in H. specialize (H (Z.to_nat b)).
  rewrite List.in_seq in H. specialize (H ltac:(lia)). cbn zeta in H.
  rewrite Z2Nat.id in H by lia.
  rewrite (proj2 (Z.eqb_neq b 0)) in H by lia. cbn [orb] in H.
  rewrite !andb_true_iff, Z.leb_le, Z.ltb_lt, List.forallb_forall in H.
  destruct H as [[[H0 H8] Hk] Hlow]. split; [split_and!|]; [done|done| |done].
  intros i Hi. specialize (Hlow (Z.to_nat i)). rewrite List.in_seq in Hlow.
  specialize (Hlow ltac:(lia)). rewrite Z2Nat.id in Hlow by lia.
  by apply negb_true_iff in Hlow.
Qed.

(** The byte of [v] selected by the mask [0xff << s], moved down by [s]. *)
Lemma byte_bits v s i :
  0 ≤ s → 0 ≤ i →
  Z.testbit (Z.shiftr (Z.land v (Z.shiftl 0xff s)) s) i =
  Z.testbit v (i + s) && (i <? 8).
Proof.
  intros Hs Hi. rewrite Z.shiftr_spec, Z.land_spec by done. f_equal.
  rewrite Z.shiftl_spec by lia. replace (i + s - s) with i by lia.
  change 255 with (Z.ones 8). rewrite Z.testbit_ones_nonneg by lia. done.
Qed.

Lemma byte_range v s : 0 ≤ s → 0 ≤ Z.shiftr (Z.land v (Z.shiftl 0xff s)) s < 256.
Proof.
  intros Hs.
  replace (Z.shiftr (Z.land v (Z.shiftl 255 s)) s) with (Z.land (Z.shiftr v s) (Z.ones 8)).
  - rewrite Z.land_ones by lia. apply Z.mod_pos_bound. lia.
  - apply Z.bits_inj'. intros i Hi. rewrite byte_bits by done.
    rewrite Z.land_spec, Z.shiftr_spec, Z.testbit_ones_nonneg by lia. done.
Qed.

(** The step shared by the four tests of [__rt_ffs]. *)
Lemma byte_step v s :
  0 ≤ s → (∀ i, 0 ≤ i < s → Z.testbit v i = false) →
  let b := Z.shiftr (Z.land v (Z.shiftl 0xff s)) s in
  (b ≠ 0 → lowest_bit v (bitmap_at b + s) ∧ bitmap_at b < 8) ∧
  (b = 0 → ∀ i, 0 ≤ i < s + 8 → Z.testbit v i = false).
Proof.
  intros Hs Hlow b. pose proof (byte_range v s Hs) as Hr. split.
  - intros Hb. destruct (bitmap_lowest b) as [(H0 & Hk & Hl) H8]; [subst b; lia|].
    subst b. rewrite byte_bits in Hk by done. apply andb_true_iff in Hk as [Hk _].
    split; [|done]. split_and!; [lia|done|].
    intros i Hi. destruct (Z_lt_dec i s); [apply Hlow; lia|].
    specialize (Hl (i - s) ltac:(lia)). rewrite byte_bits in Hl by lia.
    replace (i - s + s) with i in Hl by lia.
    rewrite (proj2 (Z.ltb_lt _ _)), andb_true_r in Hl by lia. done.
  - intros Hb i Hi. destruct (Z_lt_dec i s); [apply Hlow; lia|].
    assert (Z.testbit b (i - s) = false) as Hbit by (by rewrite Hb, Z.bits_0).
    subst b. rewrite byte_bits in Hbit by lia.
    replace (i - s + s) with i in Hbit by lia.
    rewrite (proj2 (Z.ltb_lt _ _)), andb_true_r in Hbit by lia. done.
Qed.

(** A masked byte is zero exactly when its shifted value is. *)
Lemma mask_shift_zero v s :
  0 ≤ s → Z.land v (Z.shiftl 0xff s) = 0 ↔ Z.shiftr (Z.land v (Z.shiftl 0xff s)) s = 0.
Proof.
  intros Hs. split; [intros ->; apply Z.shiftr_0_l|]. intros H.
  apply Z.bits_inj'. intros i Hi. rewrite Z.bits_0.
  destruct (Z_lt_dec i s).
  - rewrite Z.land_spec, Z.shiftl_spec_low by lia. apply andb_false_r.
  - rewrite <- (Z.bits_0 (i - s)), <- H, Z.shiftr_spec by lia. f_equal. lia.
Qed.

Lemma rt_ffs_lowest v :
  0 < v < 2 ^ 32 → lowest_bit v (__rt_ffs v - 1) ∧ __rt_ffs v ≤ 32.
Proof.
  intros Hv. unfold __rt_ffs. rewrite (proj2 (Z.eqb_neq v 0)) by lia.
  pose proof (byte_step v 0 ltac:(lia) ltac:(lia)) as [A0 B0].
  rewrite Z.shiftr_0_r in A0, B0. change (Z.shiftl 255 0) with 0xff in *.
  destruct (nz (Z.land v 0xff)) eqn:E0; [apply nz_true in E0|apply nz_false in E0].
  { destruct (A0 E0). split; [|lia]. by replace (_ + 1 - 1) with (bitmap_at (Z.land v 255) + 0) by lia. }
  specialize (B0 E0).
  pose proof (byte_step v 8 ltac:(lia) B0) as [A1 B1].
  pose proof (mask_shift_zero v 8 ltac:(lia)) as M1.
  change (Z.shiftl 255 8) with 0xff00 in *.
  destruct (nz (Z.land v 0xff00)) eqn:E1; [apply nz_true in E1|apply nz_false in E1].
  { rewrite M1 in E1. destruct (A1 E1). split; [|lia].
    eapply eq_ind; [eassumption|]. lia. }
  rewrite M1 in E1. specialize (B1 E1).
  pose proof (byte_step v 16 ltac:(lia) B1) as [A2 B2].
  pose proof (mask_shift_zero v 16 ltac:(lia)) as M2.
  change (Z.shiftl 255 16) with 0xff0000 in *.
  destruct (nz (Z.land v 0xff0000)) eqn:E2; [apply nz_true in E2|apply nz_false in E2].
  { rewrite M2 in E2. destruct (A2 E2). split; [|lia]. eapply eq_ind; [eassumption|]. lia. }
  rewrite M2 in E2. specialize (B2 E2).
  pose proof (byte_step v 24 ltac:(lia) B2) as [A3 B3].
  change (Z.shiftl 255 24) with 0xff000000 in *.
  destruct (decide (Z.shiftr (Z.land v 0xff000000) 24 = 0)) as [E3|E3].
  - exfalso. assert (v = 0); [|lia]. apply Z.bits_inj'. intros i Hi. rewrite Z.bits_0.
    destruct (Z_lt_dec i 32); [apply B3; [done|lia]|].
    rewrite <- (Z.mod_small v (2 ^ 32)) by lia. apply Z.mod_pow2_bits_high. lia.
  - destruct (A3 E3). split; [|lia]. eapply eq_ind; [eassumption|]. lia.
Qed.

(** [__rt_ffs] returns 0 for 0 and otherwise one more than the index of the
    lowest set bit, for every 32-bit value. *)
Theorem rt_ffs_spec v :
  0 ≤ v < 2 ^ 32 →
  if v =? 0 then __rt_ffs v = 0
  else 1 ≤ __rt_ffs v ≤ 32 ∧ Z.testbit v (__rt_ffs v - 1) = true ∧
       ∀ i, 0 ≤ i < __rt_ffs v - 1 → Z.testbit v i = false.
Proof.
  intros Hv. destruct (Z.eqb_spec v 0) as [->|Hn]; [done|].
  destruct (rt_ffs_lowest v) as [(? & ? & ?) ?]; [lia|]. split_and!; [lia|lia|done|done].
Qed.

Lemma rt_ffs_spec_witness :
  1 ≤ __rt_ffs 0x00280000 ≤ 32 ∧ Z.testbit 0x00280000 (__rt_ffs 0x00280000 - 1) = true ∧
  ∀ i, 0 ≤ i < __rt_ffs 0x00280000 - 1 → Z.testbit 0x00280000 i = false.
Proof. apply (rt_ffs_spec 0x00280000). lia. Defined.

End Ffs.

(** Bounded string routines. A C string is the list of its bytes; beyond the end
    of the list the terminating NUL is read. *)
Module Str.

Definition char_at (s : list Z) : Z := default 0 (head s).

(** [rt_strncpy(dst, src, n)]: the [n] bytes written to [dst]. *)
Fixpoint rt_strncpy (src : list Z) (n : nat) : list Z :=
  match n with
  | O => []
  | S n' =>
      let c := char_at src in
      if c =? 0 then c :: repeat 0 n' else c :: rt_strncpy (tail src) n'
  end.

(** [rt_strncmp]: the difference is kept in a [signed char]. *)
Fixpoint rt_strncmp (cs ct : list Z) (count : nat) : Z :=
  match count with
  | O => 0
  | S count' =>
      let res := i8 (char_at cs - char_at ct) in
      if nz res || (char_at cs =? 0) then res
      else rt_strncmp (tail cs) (tail ct) count'
  end.

(** Bytes are unsigned on this target ([char] is unsigned on ARM). *)
Definition is_string (s : list Z) : Prop := Forall (λ c, 0 < c < 256) s.

Lemma length_strncpy src n : length (rt_strncpy src n) = n.
Proof.
  revert src. induction n as [|n IH]; intros src; cbn; [done|].
  case_match; cbn; [by rewrite repeat_length|by rewrite IH].
Qed.

Lemma char_diff a b : 0 ≤ a < 256 → 0 ≤ b < 256 → i8 (a - b) = 0 ↔ a = b.
Proof.
  intros Ha Hb. split; [|intros ->; by rewrite Z.sub_diag].
  unfold swrap, wrap. intros H. pose proof (Z.mod_pos_bound (a - b) (2 ^ 8)).
  destruct (Z.ltb_spec ((a - b) mod 2 ^ 8) (2 ^ (8 - 1))); [|lia].
  pose proof (Z.div_mod (a - b) (2 ^ 8)). change (2 ^ 8) with 256 in *.
  assert (-256 < a - b < 256) by lia.
  assert ((a - b) / 256 = 0 ∨ (a - b) / 256 = -1) by (destruct (Z_lt_dec (a - b) 0); nia).
  lia.
Qed.

(** Comparing a stored name with the string it was copied from succeeds. *)
Lemma strncmp_strncpy src n : is_string src → rt_strncmp (rt_strncpy src n) src n = 0.
Proof.
  revert src. induction n as [|n IH]; intros src Hs; cbn; [done|].
  destruct src as [|c src]; cbn; [done|]. inversion Hs as [|? ? Hc Hs']; subst.
  rewrite (proj2 (Z.eqb_neq c 0)) by lia. cbn.
  rewrite Z.sub_diag. cbn. rewrite (proj2 (Z.eqb_neq c 0)) by lia. by apply IH.
Qed.

End Str.
