(* ===== verification/Bytes.v ===== *)
(** Byte-addressed memory: little-endian loads and stores, which the heap uses for the
    headers it keeps between the blocks of the application. *)

From Stdlib Require Import ZArith Lia.
From stdpp Require Import base numbers option.
From stdpp Require Import list.
From S2P Require Import Prelude.
Local Open Scope Z_scope.

Definition memory : Type := Z → Z.

Fixpoint load (n : nat) (m : memory) (a : Z) : Z :=
  match n with
  | O => 0
  | S n' => m a + 256 * load n' m (a + 1)
  end.

Fixpoint store (n : nat) (m : memory) (a v : Z) : memory :=
  match n with
  | O => m
  | S n' => store n' (λ i, if i =? a then v mod 256 else m i) (a + 1) (v / 256)
  end.

(** [rt_memset] and [rt_memcpy] on non-overlapping areas. *)
Definition fill (m : memory) (a c n : Z) : memory := λ i, if (a <=? i) && (i <? a + n) then c mod 256 else m i.
Definition copy (m : memory) (dst src n : Z) : memory := λ i,
  if (dst <=? i) && (i <? dst + n) then m (src + (i - dst)) else m i.

Lemma store_outside n m a v i : i < a ∨ a + Z.of_nat n ≤ i → store n m a v i = m i.
Proof.
  revert m a v. induction n as [|n IH]; intros m a v Hi; [done|]. cbn [store].
  rewrite IH by lia. by rewrite (proj2 (Z.eqb_neq _ _)) by lia.
Qed.

Lemma load_ext n m m' a : (∀ i, a ≤ i < a + Z.of_nat n → m' i = m i) → load n m' a = load n m a.
Proof.
  revert a. induction n as [|n IH]; intros a H; [done|]. cbn [load].
  rewrite H by lia. f_equal. f_equal. apply IH. intros i Hi. apply H. lia.
Qed.

Lemma load_store_other n k m a b v :
  b + Z.of_nat n ≤ a ∨ a + Z.of_nat k ≤ b → load n (store k m a v) b = load n m b.
Proof. intros H. apply load_ext. intros i Hi. apply store_outside. lia. Qed.

Lemma load_store_same n m a v : 0 ≤ v < 256 ^ Z.of_nat n → load n (store n m a v) a = v.
Proof.
  revert m a v. induction n as [|n IH]; intros m a v Hv; [cbn in *; lia|].
  rewrite Nat2Z.inj_succ, Z.pow_succ_r in Hv by lia. cbn [load store].
  rewrite store_outside by lia. rewrite Z.eqb_refl. rewrite IH.
  - pose proof (Z.div_mod v 256). lia.
  - split; [apply Z.div_pos; lia|]. apply Z.div_lt_upper_bound; lia.
Qed.

(** Memory holds bytes. *)
Definition bytes_ok (m : memory) : Prop := ∀ i, 0 ≤ m i < 256.

(** Inside the area a store puts the base-256 digits of the value. *)
Lemma store_inside n m a v i :
  a ≤ i < a + Z.of_nat n → store n m a v i = (v / 256 ^ (i - a)) mod 256.
Proof.
  revert m a v. induction n as [|n IH]; intros m a v Hi; [lia|]. cbn [store].
  destruct (Z.eqb_spec i a) as [->|Hn].
  - rewrite store_outside, Z.eqb_refl, Z.sub_diag, Z.pow_0_r, Z.div_1_r by lia. done.
  - rewrite IH by lia. rewrite Z.div_div by lia.
    replace (i - a) with (Z.succ (i - (a + 1))) by lia. by rewrite Z.pow_succ_r by lia.
Qed.

Lemma load_digit n m a k :
  bytes_ok m → 0 ≤ k < Z.of_nat n → (load n m a / 256 ^ k) mod 256 = m (a + k).
Proof.
  intros Hm. revert a k. induction n as [|n IH]; intros a k Hk; [lia|]. cbn [load].
  pose proof (Hm a). destruct (decide (k = 0)) as [->|Hk0].
  - rewrite Z.pow_0_r, Z.div_1_r, Z.add_0_r, (Z.mul_comm 256), Z_mod_plus_full. by apply Z.mod_small.
  - replace k with (Z.succ (k - 1)) at 1 by lia. rewrite Z.pow_succ_r, <- Z.div_div by lia.
    replace ((m a + 256 * load n m (a + 1)) / 256) with (load n m (a + 1))
      by (apply (Z.div_unique _ _ _ (m a)); lia).
    rewrite IH by lia. f_equal. lia.
Qed.

(** Storing what a load of the same width answered copies bytes. *)
Lemma store_load n m m' a b i :
  bytes_ok m' →
  store n m a (load n m' b) i = if (a <=? i) && (i <? a + Z.of_nat n) then m' (b + (i - a)) else m i.
Proof.
  intros Hm. destruct ((a <=? i) && (i <? a + Z.of_nat n)) eqn:E.
  - apply andb_prop in E as [E1%Z.leb_le E2%Z.ltb_lt].
    rewrite store_inside by lia. by apply load_digit; [|lia].
  - apply store_outside. apply andb_false_iff in E as [E%Z.leb_gt|E%Z.ltb_ge]; lia.
Qed.

Lemma store_bytes_ok n m a v : bytes_ok m → bytes_ok (store n m a v).
Proof.
  intros Hm i. destruct (decide (a ≤ i < a + Z.of_nat n)).
  - rewrite store_inside by lia. apply Z.mod_pos_bound. lia.
  - rewrite store_outside by lia. apply Hm.
Qed.

#[global] Arguments load : simpl never.
#[global] Arguments store : simpl never.
