(* ===== verification/Kmemory.v ===== *)
(** Memory and string routines of src/kservice.c on byte-addressed memory: the routines
    that move whole words where addresses allow it ([rt_memset], [rt_memcpy]) against
    byte-wise references, [rt_memmove] on overlapping areas, comparisons and searches of
    NUL-terminated strings. A [long] has 4 bytes on this target. *)

From Stdlib Require Import ZArith Lia.
From stdpp Require Import base numbers option.
From stdpp Require Import list.
From S2P Require Import Prelude.
From S2P Require Import Bytes.
Local Open Scope Z_scope.

(** * Code *)

(** [ *p++ = v] for a word and for a byte; the pointer and the remaining count follow. *)
Definition set_word (v : Z) (x : memory * Z * Z) : memory * Z * Z :=
  let '(m, p, n) := x in (store 4 m p v, p + 4, n - 4).
Definition set_byte (v : Z) (x : memory * Z * Z) : memory * Z * Z :=
  let '(m, p, n) := x in (store 1 m p v, p + 1, n - 1).

Definition rt_memset (m : memory) (s c count : Z) : option memory :=
  let d := Z.land c 0xff in
  '(m, p, n) ←
    (if negb (count <? 4) && negb (nz (Z.land s 3)) then
       let buffer := Z.lor (Z.shiftl d 8) d in
       let buffer := u32 (Z.lor buffer (Z.shiftl buffer 16)) in
       x ← while LIMIT (λ x, 16 <=? x.2)
             (λ x, set_word buffer (set_word buffer (set_word buffer (set_word buffer x)))) (m, s, count);
       while LIMIT (λ x : memory * Z * Z, 4 <=? x.2) (set_word buffer) x
     else Some (m, s, count));
  x ← while LIMIT (λ x : memory * Z * Z, nz x.2) (set_byte d) (m, p, n);
  Some x.1.1.

(** [ *dst++ = *src++] for a word and for a byte; [len] is an [int]. *)
Definition copy_word (x : memory * Z * Z * Z) : memory * Z * Z * Z :=
  let '(m, d, s, len) := x in (store 4 m d (load 4 m s), d + 4, s + 4, i32 (u32 len - 4)).
Definition copy_byte (x : memory * Z * Z * Z) : memory * Z * Z * Z :=
  let '(m, d, s, len) := x in (store 1 m d (load 1 m s), d + 1, s + 1, i32 (len - 1)).

Definition rt_memcpy (m : memory) (dst src count : Z) : option memory :=
  let len := i32 count in
  x ← (if negb (u32 len <? 16) && negb (nz (Z.lor (Z.land src 3) (Z.land dst 3))) then
         x ← while LIMIT (λ x, 16 <=? u32 x.2) (λ x, copy_word (copy_word (copy_word (copy_word x))))
               (m, dst, src, len);
         while LIMIT (λ x : memory * Z * Z * Z, 4 <=? u32 x.2) copy_word x
       else Some (m, dst, src, len));
  x ← while LIMIT (λ x : memory * Z * Z * Z, nz x.2) copy_byte x;
  Some x.1.1.1.

Definition move_up (x : memory * Z * Z * Z) : memory * Z * Z * Z :=
  let '(m, d, s, n) := x in (store 1 m d (load 1 m s), d + 1, s + 1, n - 1).
Definition move_down (x : memory * Z * Z * Z) : memory * Z * Z * Z :=
  let '(m, d, s, n) := x in (store 1 m (d - 1) (load 1 m (s - 1)), d - 1, s - 1, n - 1).

Definition rt_memmove (m : memory) (dest src n : Z) : option memory :=
  x ← (if (src <? dest) && (dest <? src + n) then
         while LIMIT (λ x : memory * Z * Z * Z, nz x.2) move_down (m, dest + n, src + n, n)
       else while LIMIT (λ x : memory * Z * Z * Z, nz x.2) move_up (m, dest, src, n));
  Some x.1.1.1.

(** The state of the loop: [su1], [su2], [count], [res]. *)
Definition memcmp_step (m : memory) (x : Z * Z * Z * Z) : (Z * Z * Z * Z) + Z :=
  let '(su1, su2, count, res) := x in
  if 0 <? count then
    let res := m su1 - m su2 in
    if nz res then inr res else inl (su1 + 1, su2 + 1, count - 1, res)
  else inr res.

Definition rt_memcmp (m : memory) (cs ct count : Z) : option Z :=
  loop LIMIT (memcmp_step m) (cs, ct, count, 0).

Definition rt_strlen (m : memory) (s : Z) : option Z :=
  sc ← while LIMIT (λ sc, nz (m sc)) (λ sc, sc + 1) s; Some (sc - s).

Definition rt_strnlen (m : memory) (s maxlen : Z) : option Z :=
  sc ← while LIMIT (λ sc, nz (m sc) && (u32 (sc - s) <? maxlen)) (λ sc, sc + 1) s; Some (sc - s).

Definition rt_strcmp (m : memory) (cs ct : Z) : option Z :=
  x ← while LIMIT (λ x : Z * Z, nz (m x.1) && (m x.1 =? m x.2)) (λ x, (x.1 + 1, x.2 + 1)) (cs, ct);
  Some (m x.1 - m x.2).

(** ['A' <= c <= 'Z'] is folded to lower case. *)
Definition fold_case (c : Z) : Z := if (65 <=? c) && (c <=? 90) then c + 32 else c.

Definition casecmp_step (m : memory) (x : Z * Z) : (Z * Z) + Z :=
  let ca := fold_case (Z.land (m x.1) 0xff) in
  let cb := fold_case (Z.land (m x.2) 0xff) in
  if (ca =? cb) && nz ca then inl (x.1 + 1, x.2 + 1) else inr (u32 (ca - cb)).

Definition rt_strcasecmp (m : memory) (a b : Z) : option Z := loop LIMIT (casecmp_step m) (a, b).

(** The loop of [rt_strstr]: [l1] and [s1]; [None] on the right is [RT_NULL]. *)
Definition strstr_step (m : memory) (s2 l2 : Z) (x : Z * Z) : (Z * Z) + option (option Z) :=
  let '(l1, s1) := x in
  if l2 <=? l1 then
    match rt_memcmp m s1 s2 l2 with
    | None => inr None
    | Some r => if nz r then inl (l1 - 1, s1 + 1) else inr (Some (Some s1))
    end
  else inr (Some None).

Definition rt_strstr (m : memory) (s1 s2 : Z) : option (option Z) :=
  l2 ← rt_strlen m s2;
  if negb (nz l2) then Some (Some s1)
  else l1 ← rt_strlen m s1; r ← loop LIMIT (strstr_step m s2 l2) (l1, s1); r.

(** * Filling *)

(** Memories with the same bytes. *)
Definition mem_eq (m m' : memory) : Prop := ∀ i, m i = m' i.

#[export] Instance mem_eq_equiv : Equivalence mem_eq.
Proof. split; [intros m i; done|intros m m' E i; by rewrite E|intros m m' m'' E F i; by rewrite E]. Qed.

#[export] Instance bytes_ok_proper : Proper (mem_eq ==> iff) bytes_ok.
Proof. intros m m' E. split; intros H i; [rewrite <- (E i)|rewrite (E i)]; apply H. Qed.

#[export] Instance load_proper n : Proper (mem_eq ==> eq ==> eq) (load n).
Proof. intros m m' E a _ <-. by apply load_ext. Qed.

#[export] Instance store_proper n : Proper (mem_eq ==> eq ==> eq ==> mem_eq) (store n).
Proof.
  intros m m' E a _ <- v _ <- i. destruct (decide (a ≤ i < a + Z.of_nat n)).
  - by rewrite !store_inside by lia.
  - by rewrite !store_outside by lia.
Qed.

Ltac ranges :=
  repeat match goal with
  | |- context [(?a <=? ?b) && (?c <? ?d)] =>
      destruct ((a <=? b) && (c <? d)) eqn:?
  end;
  repeat match goal with
  | H : (_ <=? _) && (_ <? _) = true |- _ => apply andb_prop in H as [?%Z.leb_le ?%Z.ltb_lt]
  | H : (_ <=? _) && (_ <? _) = false |- _ => apply andb_false_iff in H as [?%Z.leb_gt|?%Z.ltb_ge]
  end.

Lemma fill_0 m a c : mem_eq (fill m a c 0) m.
Proof. intros i. unfold fill. ranges; lia || done. Qed.

(** Extending a filled area by a store whose digits are all the same byte. *)
Lemma fill_store n m a c k v :
  0 ≤ k → (∀ j, 0 ≤ j < Z.of_nat n → (v / 256 ^ j) mod 256 = c mod 256) →
  mem_eq (store n (fill m a c k) (a + k) v) (fill m a c (k + Z.of_nat n)).
Proof.
  intros Hk Hv i. destruct (decide (a + k ≤ i < a + k + Z.of_nat n)).
  - rewrite store_inside by lia. rewrite Hv by lia. unfold fill. ranges; lia || done.
  - rewrite store_outside by lia. unfold fill. ranges; lia || done.
Qed.

(** The word of four equal bytes that [rt_memset] builds. *)
Lemma memset_word c j :
  0 ≤ j < 4 →
  let d := Z.land c 0xff in let b := Z.lor (Z.shiftl d 8) d in
  (u32 (Z.lor b (Z.shiftl b 16)) / 256 ^ j) mod 256 = c mod 256.
Proof.
  intros Hj d b. change 256 with (2 ^ 8). rewrite <- Z.pow_mul_r by lia.
  rewrite <- Z.shiftr_div_pow2 by lia. unfold b, d, wrap. apply Z.bits_inj'. intros k Hk.
  change 255 with (Z.ones 8).
  destruct (Z_lt_dec k 8); [|rewrite !Z.mod_pow2_bits_high by lia; done].
  rewrite !Z.mod_pow2_bits_low by lia. rewrite Z.shiftr_spec, Z.mod_pow2_bits_low by lia.
  rewrite !Z.lor_spec, !Z.shiftl_spec, !Z.lor_spec by lia.
  assert (∀ x, Z.testbit (Z.land c (Z.ones 8)) x = Z.testbit c x && (0 <=? x) && (x <? 8)) as Hd.
  { intros x. rewrite Z.land_spec. destruct (Z_lt_dec x 0).
    - rewrite !Z.testbit_neg_r by lia. done.
    - rewrite Z.testbit_ones_nonneg, (proj2 (Z.leb_le 0 x)) by lia. by rewrite andb_true_r. }
  assert (∀ x, Z.testbit (Z.shiftl (Z.land c (Z.ones 8)) 8) x = Z.testbit c (x - 8) && (8 <=? x) && (x <? 16)) as Hs.
  { intros x. destruct (Z_lt_dec x 0).
    - rewrite !Z.testbit_neg_r by lia. done.
    - rewrite Z.shiftl_spec, Hd by lia. f_equal; [f_equal|]; zcases; lia || done. }
  rewrite !Hd, !Hs.
  assert (j = 0 ∨ j = 1 ∨ j = 2 ∨ j = 3) as [->|[->|[->| ->]]] by lia;
    repeat match goal with |- context [?a <=? ?b] => first [rewrite (proj2 (Z.leb_le a b)) by lia|rewrite (proj2 (Z.leb_gt a b)) by lia] end;
    repeat match goal with |- context [?a <? ?b] => first [rewrite (proj2 (Z.ltb_lt a b)) by lia|rewrite (proj2 (Z.ltb_ge a b)) by lia] end;
    rewrite ?andb_false_r, ?andb_true_r, ?orb_false_r, ?orb_false_l; f_equal; lia.
Qed.

(** ** [rt_memset] *)

Section memset.
Context (m : memory) (s c count : Z).

(** [n] bytes are left. *)
Definition memset_inv (x : memory * Z * Z) : Prop :=
  let '(m', p, n) := x in
  0 ≤ n ≤ count ∧ p = s + (count - n) ∧ mem_eq m' (fill m s c (count - n)).

Lemma set_word_inv v x :
  (∀ j, 0 ≤ j < 4 → (v / 256 ^ j) mod 256 = c mod 256) →
  memset_inv x → 4 ≤ x.2 → memset_inv (set_word v x) ∧ (set_word v x).2 = x.2 - 4.
Proof.
  destruct x as [[m' p] n]. intros Hv (Hn & -> & E) H4. cbn in *. split; [|done].
  split; [lia|]. split; [lia|]. rewrite E, (fill_store 4) by (done || lia).
  by replace (count - (n - 4)) with (count - n + Z.of_nat 4) by lia.
Qed.

Lemma set_byte_inv x :
  memset_inv x → 1 ≤ x.2 → memset_inv (set_byte (Z.land c 0xff) x) ∧ (set_byte (Z.land c 0xff) x).2 = x.2 - 1.
Proof.
  destruct x as [[m' p] n]. intros (Hn & -> & E) H1. cbn in *. split; [|done].
  split; [lia|]. split; [lia|]. rewrite E, (fill_store 1).
  - by replace (count - (n - 1)) with (count - n + Z.of_nat 1) by lia.
  - lia.
  - intros j Hj. replace j with 0 by lia. rewrite Z.pow_0_r, Z.div_1_r.
    change 255 with (Z.ones 8). rewrite Z.land_ones by lia. by rewrite Z.mod_mod by lia.
Qed.

Lemma memset_words x :
  let d := Z.land c 0xff in let b := Z.lor (Z.shiftl d 8) d in
  let v := u32 (Z.lor b (Z.shiftl b 16)) in
  count < 2 ^ 32 → memset_inv x →
  ∃ y z, while LIMIT (λ x, 16 <=? x.2) (λ x, set_word v (set_word v (set_word v (set_word v x)))) x = Some y ∧
    while LIMIT (λ x : memory * Z * Z, 4 <=? x.2) (set_word v) y = Some z ∧ memset_inv z.
Proof.
  intros d b v Hc Hx.
  pose proof (set_word_inv v) as Hw.
  destruct (while_rule memset_inv (λ x, x.2) LIMIT (λ x, 16 <=? x.2)
    (λ x, set_word v (set_word v (set_word v (set_word v x)))) x) as (y & -> & Hy & _).
  - intros x' Hx'. split; [destruct x' as [[? ?] ?]; apply Hx'|]. intros H16%Z.leb_le.
    destruct (Hw x' (memset_word c) Hx' ltac:(lia)) as [H1 E1].
    destruct (Hw _ (memset_word c) H1 ltac:(lia)) as [H2 E2].
    destruct (Hw _ (memset_word c) H2 ltac:(lia)) as [H3 E3].
    destruct (Hw _ (memset_word c) H3 ltac:(lia)) as [H4 E4]. split; [done|lia].
  - done.
  - destruct x as [[? ?] n]. destruct Hx. cbn. unfold LIMIT. lia.
  - exists y. destruct (while_rule memset_inv (λ x, x.2) LIMIT (λ x : memory * Z * Z, 4 <=? x.2) (set_word v) y)
      as (z & -> & Hz & _); [| |destruct y as [[? ?] n]; destruct Hy; cbn; unfold LIMIT; lia|by eauto].
    + intros x' Hx'. split; [destruct x' as [[? ?] ?]; apply Hx'|]. intros H4%Z.leb_le.
      destruct (Hw x' (memset_word c) Hx' H4) as [? ->]. split; [done|lia].
    + done.
Qed.

Lemma memset_bytes x :
  count < 2 ^ 32 → memset_inv x →
  ∃ y, while LIMIT (λ x : memory * Z * Z, nz x.2) (set_byte (Z.land c 0xff)) x = Some y ∧
    mem_eq y.1.1 (fill m s c count).
Proof.
  intros Hc Hx.
  destruct (while_rule memset_inv (λ x, x.2) LIMIT (λ x : memory * Z * Z, nz x.2) (set_byte (Z.land c 0xff)) x)
    as (y & -> & Hy & Hz).
  - intros x' Hx'. destruct x' as [[m' p] n] eqn:Ex. cbn. split; [apply Hx'|]. intros Hn%nz_true.
    destruct Hx' as (? & ? & ?). destruct (set_byte_inv (m', p, n)) as [? E]; [done|cbn; lia|].
    cbn in *. split; [done|lia].
  - done.
  - destruct x as [[? ?] n]. destruct Hx. cbn. unfold LIMIT. lia.
  - exists y. split; [done|]. destruct y as [[m' p] n]. cbn in *. apply nz_false in Hz as ->.
    destruct Hy as (_ & _ & E). by rewrite Z.sub_0_r in E.
Qed.

End memset.

(** [rt_memset], which writes words (four at a time) where the address is aligned and
    the count allows it, terminates and fills exactly the [count] bytes at [s] with the
    low byte of [c], as a byte-wise loop would. *)
Theorem rt_memset_spec m s c count :
  0 ≤ count < 2 ^ 32 → ∃ m', rt_memset m s c count = Some m' ∧ mem_eq m' (fill m s c count).
Proof.
  intros Hc. unfold rt_memset.
  assert (memset_inv m s c count (m, s, count)) as H0.
  { split; [lia|]. rewrite Z.sub_diag. split; [lia|]. by rewrite fill_0. }
  destruct (negb (count <? 4) && negb (nz (Z.land s 3))).
  - destruct (memset_words m s c count (m, s, count)) as (y & [[m' p] n] & Ey & Ez & Hz); [lia|done|].
    destruct (memset_bytes m s c count (m', p, n)) as (x & Ex & Hx); [lia|done|].
    cbv zeta. rewrite (obind_run _ _ _ Ey), (obind_run _ _ _ Ez). cbv beta iota.
    rewrite (obind_run _ _ _ Ex). by eexists.
  - destruct (memset_bytes m s c count (m, s, count)) as (x & Ex & Hx); [lia|done|].
    rewrite (obind_run _ _ (m, s, count) eq_refl). cbv beta iota.
    rewrite (obind_run _ _ _ Ex). by eexists.
Qed.

Lemma rt_memset_spec_witness :
  ∃ m', rt_memset (λ i, i mod 256) 64 0x15a 23 = Some m' ∧ mem_eq m' (fill (λ i, i mod 256) 64 0x15a 23).
Proof. apply rt_memset_spec. lia. Defined.

(** * Copying *)

Lemma copy_0 m dst src : mem_eq (copy m dst src 0) m.
Proof. intros i. unfold copy. ranges; lia || done. Qed.

(** A forward copy never reads what it has written when the areas do not overlap or the
    destination lies below the source. *)
Definition forward_ok (dst src count : Z) : Prop := dst ≤ src ∨ src + count ≤ dst.

Lemma copy_store w m dst src count k :
  bytes_ok m → forward_ok dst src count → 0 ≤ k → k + Z.of_nat w ≤ count →
  mem_eq (store w (copy m dst src k) (dst + k) (load w (copy m dst src k) (src + k)))
         (copy m dst src (k + Z.of_nat w)).
Proof.
  intros Hm Hf Hk Hw i.
  rewrite (load_ext w m); [|intros j Hj; unfold copy, forward_ok in *; ranges; lia || done].
  rewrite store_load by done. unfold copy. ranges; first [lia|done|f_equal; lia].
Qed.

Section memcpy.
Context (m : memory) (dst src count : Z).
Hypothesis Hm : bytes_ok m.
Hypothesis Hf : forward_ok dst src count.

(** [n] bytes are left: [len] is [n] read as an [int]. *)
Definition memcpy_inv (x : memory * Z * Z * Z) : Prop :=
  let '(m', d, s, len) := x in let n := u32 len in
  n ≤ count ∧ len = i32 n ∧ d = dst + (count - n) ∧ s = src + (count - n) ∧
  mem_eq m' (copy m dst src (count - n)).

Lemma copy_step w m' n :
  1 ≤ Z.of_nat w ≤ n → n ≤ count → n < 2 ^ 32 → mem_eq m' (copy m dst src (count - n)) →
  memcpy_inv (store w m' (dst + (count - n)) (load w m' (src + (count - n))),
    dst + (count - n) + Z.of_nat w, src + (count - n) + Z.of_nat w, i32 (n - Z.of_nat w)).
Proof.
  intros Hw Hn H32 E. cbn. rewrite wrap_swrap, (wrap_small 32) by lia.
  split; [lia|]. split; [done|]. split; [lia|]. split; [lia|].
  rewrite E, (copy_store w _ _ _ count) by (done || lia).
  by replace (count - (n - Z.of_nat w)) with (count - n + Z.of_nat w) by lia.
Qed.

Lemma copy_word_inv x :
  memcpy_inv x → 4 ≤ u32 x.2 → memcpy_inv (copy_word x) ∧ u32 (copy_word x).2 = u32 x.2 - 4.
Proof.
  destruct x as [[[m' d] s] len]. intros (Hn & Hl & -> & -> & E) H4. cbn [copy_word snd] in *.
  pose proof (wrap_range 32 len). split.
  - by apply (copy_step 4); [lia|lia|lia|].
  - rewrite wrap_swrap, (wrap_small 32 (u32 len - 4)) by lia. done.
Qed.

Lemma copy_byte_inv x :
  memcpy_inv x → 1 ≤ u32 x.2 → memcpy_inv (copy_byte x) ∧ u32 (copy_byte x).2 = u32 x.2 - 1.
Proof.
  destruct x as [[[m' d] s] len]. intros (Hn & Hl & -> & -> & E) H4. cbn [copy_byte snd] in *.
  pose proof (wrap_range 32 len).
  assert (i32 (len - 1) = i32 (u32 len - 1)) as -> by (apply swrap_ext; by rewrite wrap_sub_wrap_l).
  split.
  - by apply (copy_step 1); [lia|lia|lia|].
  - rewrite wrap_swrap, (wrap_small 32 (u32 len - 1)) by lia. done.
Qed.

Lemma memcpy_measure x : memcpy_inv x → 0 ≤ u32 x.2 < Zpos LIMIT.
Proof. intros _. pose proof (wrap_range 32 x.2). unfold LIMIT. lia. Qed.

Lemma memcpy_words x :
  memcpy_inv x →
  ∃ y z, while LIMIT (λ x, 16 <=? u32 x.2) (λ x, copy_word (copy_word (copy_word (copy_word x)))) x = Some y ∧
    while LIMIT (λ x : memory * Z * Z * Z, 4 <=? u32 x.2) copy_word y = Some z ∧ memcpy_inv z.
Proof.
  intros Hx.
  destruct (while_rule memcpy_inv (λ x, u32 x.2) LIMIT (λ x, 16 <=? u32 x.2)
    (λ x, copy_word (copy_word (copy_word (copy_word x)))) x) as (y & -> & Hy & _).
  - intros x' Hx'. split; [by apply memcpy_measure|]. intros H16%Z.leb_le.
    destruct (copy_word_inv x' Hx' ltac:(lia)) as [H1 E1].
    destruct (copy_word_inv _ H1 ltac:(lia)) as [H2 E2].
    destruct (copy_word_inv _ H2 ltac:(lia)) as [H3 E3].
    destruct (copy_word_inv _ H3 ltac:(lia)) as [H4 E4]. split; [done|lia].
  - done.
  - by apply memcpy_measure.
  - exists y. destruct (while_rule memcpy_inv (λ x, u32 x.2) LIMIT (λ x : memory * Z * Z * Z, 4 <=? u32 x.2) copy_word y)
      as (z & -> & Hz & _); [|done|by apply memcpy_measure|by eauto].
    intros x' Hx'. split; [by apply memcpy_measure|]. intros H4%Z.leb_le.
    destruct (copy_word_inv x' Hx' H4) as [? ->]. split; [done|lia].
Qed.

Lemma memcpy_bytes x :
  memcpy_inv x →
  ∃ y, while LIMIT (λ x : memory * Z * Z * Z, nz x.2) copy_byte x = Some y ∧ mem_eq y.1.1.1 (copy m dst src count).
Proof.
  intros Hx.
  destruct (while_rule memcpy_inv (λ x, u32 x.2) LIMIT (λ x : memory * Z * Z * Z, nz x.2) copy_byte x)
    as (y & -> & Hy & Hz).
  - intros x' Hx'. split; [by apply memcpy_measure|]. intros Hn%nz_true.
    pose proof (wrap_range 32 x'.2). assert (u32 x'.2 ≠ 0).
    { intros H0. destruct x' as [[[? ?] ?] len]. cbn in *. destruct Hx' as (_ & Hl & _).
      rewrite H0 in Hl. by apply Hn. }
    destruct (copy_byte_inv x' Hx' ltac:(lia)) as [? ->]. split; [done|lia].
  - done.
  - by apply memcpy_measure.
  - exists y. split; [done|]. destruct y as [[[m' d] s] len]. cbn in *. apply nz_false in Hz as ->.
    destruct Hy as (_ & _ & _ & _ & E). by rewrite Z.sub_0_r in E.
Qed.

End memcpy.

(** [rt_memcpy], which copies words (four at a time) where both addresses are aligned
    and the count allows it, terminates and leaves at [dst] what was at [src], whenever
    the areas do not overlap or the destination lies below the source. *)
Theorem rt_memcpy_spec m dst src count :
  bytes_ok m → forward_ok dst src count → 0 ≤ count < 2 ^ 32 →
  ∃ m', rt_memcpy m dst src count = Some m' ∧ mem_eq m' (copy m dst src count).
Proof.
  intros Hm Hf Hc. unfold rt_memcpy.
  assert (memcpy_inv m dst src count (m, dst, src, i32 count)) as H0.
  { cbn. rewrite wrap_swrap, wrap_small, Z.sub_diag by lia.
    split_and!; [lia|done|lia|lia|by rewrite copy_0]. }
  cbv zeta. destruct (negb _ && negb _).
  - destruct (memcpy_words m dst src count Hm Hf _ H0) as (y & z & Ey & Ez & Hz).
    destruct (memcpy_bytes m dst src count Hm Hf _ Hz) as (x & Ex & Hx).
    rewrite (obind_run _ _ _ Ey), (obind_run _ _ _ Ez), (obind_run _ _ _ Ex). by eexists.
  - destruct (memcpy_bytes m dst src count Hm Hf _ H0) as (x & Ex & Hx).
    rewrite (obind_run _ _ _ eq_refl), (obind_run _ _ _ Ex). by eexists.
Qed.

Lemma rt_memcpy_spec_witness :
  ∃ m', rt_memcpy (λ i, i mod 256) 64 68 23 = Some m' ∧ mem_eq m' (copy (λ i, i mod 256) 64 68 23).
Proof.
  apply rt_memcpy_spec; [intros i; apply Z.mod_pos_bound; lia|left; lia|lia].
Defined.

(** ** [rt_memmove] *)

Lemma memmove_up_run m dst src n :
  bytes_ok m → forward_ok dst src n → 0 ≤ n < 2 ^ 32 →
  ∃ y, while LIMIT (λ x : memory * Z * Z * Z, nz x.2) move_up (m, dst, src, n) = Some y ∧
    mem_eq y.1.1.1 (copy m dst src n).
Proof.
  intros Hm Hf Hn.
  destruct (while_rule (λ x, 0 ≤ x.2 ≤ n ∧ x.1.1.2 = dst + (n - x.2) ∧ x.1.2 = src + (n - x.2) ∧
      mem_eq x.1.1.1 (copy m dst src (n - x.2))) (λ x, x.2) LIMIT (λ x : memory * Z * Z * Z, nz x.2) move_up
      (m, dst, src, n)) as (y & -> & (_ & _ & _ & E) & Hz).
  - intros [[[m' d] s] k]; cbn. intros (Hk & -> & -> & E). split; [lia|]. intros H1%nz_true.
    split_and!; [lia..| |lia]. rewrite E, (copy_store 1 _ _ _ n) by (done || lia).
    by replace (n - (k - 1)) with (n - k + Z.of_nat 1) by lia.
  - cbn. rewrite Z.sub_diag. split_and!; [lia..|by rewrite copy_0].
  - cbn. unfold LIMIT. lia.
  - exists y. split; [done|]. apply nz_false in Hz. by rewrite Hz, Z.sub_0_r in E.
Qed.

Lemma copy_store_down m dst src n k :
  bytes_ok m → src < dst → 1 ≤ k ≤ n →
  mem_eq (store 1 (copy m (dst + k) (src + k) (n - k)) (dst + k - 1)
            (load 1 (copy m (dst + k) (src + k) (n - k)) (src + k - 1)))
         (copy m (dst + (k - 1)) (src + (k - 1)) (n - (k - 1))).
Proof.
  intros Hm Hlt Hk i.
  rewrite (load_ext 1 m); [|intros j Hj; unfold copy; ranges; lia || done].
  rewrite store_load by done. unfold copy. ranges; first [lia|done|f_equal; lia].
Qed.

Lemma memmove_down_run m dst src n :
  bytes_ok m → src < dst → 0 ≤ n < 2 ^ 32 →
  ∃ y, while LIMIT (λ x : memory * Z * Z * Z, nz x.2) move_down (m, dst + n, src + n, n) = Some y ∧
    mem_eq y.1.1.1 (copy m dst src n).
Proof.
  intros Hm Hlt Hn.
  destruct (while_rule (λ x, 0 ≤ x.2 ≤ n ∧ x.1.1.2 = dst + x.2 ∧ x.1.2 = src + x.2 ∧
      mem_eq x.1.1.1 (copy m (dst + x.2) (src + x.2) (n - x.2))) (λ x, x.2) LIMIT
      (λ x : memory * Z * Z * Z, nz x.2) move_down
      (m, dst + n, src + n, n)) as (y & -> & (_ & _ & _ & E) & Hz).
  - intros [[[m' d] s] k]; cbn. intros (Hk & -> & -> & E). split; [lia|]. intros H1%nz_true.
    split_and!; [lia..| |lia]. by rewrite E, copy_store_down by (done || lia).
  - cbn. rewrite Z.sub_diag. split_and!; [lia..|by rewrite copy_0].
  - cbn. unfold LIMIT. lia.
  - exists y. split; [done|]. apply nz_false in Hz. by rewrite Hz, Z.sub_0_r, !Z.add_0_r in E.
Qed.

(** [rt_memmove] leaves at the destination what was at the source however the two
    areas overlap, and changes nothing else. *)
Theorem rt_memmove_spec m dest src n :
  bytes_ok m → 0 ≤ n < 2 ^ 32 →
  ∃ m', rt_memmove m dest src n = Some m' ∧ mem_eq m' (copy m dest src n).
Proof.
  intros Hm Hn. unfold rt_memmove.
  destruct (Z.ltb_spec src dest), (Z.ltb_spec dest (src + n)); cbv beta iota delta [andb].
  1: destruct (memmove_down_run m dest src n) as (y & Ey & Hy); [done..|].
  2-4: destruct (memmove_up_run m dest src n) as (y & Ey & Hy); [done|unfold forward_ok; lia|done|].
  all: rewrite (obind_run _ _ _ Ey); by eexists.
Qed.

Lemma rt_memmove_spec_witness :
  ∃ m', rt_memmove (λ i, i mod 256) 70 64 23 = Some m' ∧ mem_eq m' (copy (λ i, i mod 256) 70 64 23).
Proof. apply rt_memmove_spec; [intros i; apply Z.mod_pos_bound; lia|lia]. Defined.

(** * Comparing blocks *)

(** The blocks agree on their first [n] bytes. *)
Definition agree (m : memory) (a b n : Z) : Prop := ∀ k, 0 ≤ k < n → m (a + k) = m (b + k).

(** [rt_memcmp] answers 0 for equal blocks and otherwise the difference of the first bytes
    that differ. *)
Lemma rt_memcmp_spec m cs ct count :
  0 ≤ count < 2 ^ 32 →
  ∃ r, rt_memcmp m cs ct count = Some r ∧
    ((r = 0 ∧ agree m cs ct count) ∨
     (∃ k, 0 ≤ k < count ∧ agree m cs ct k ∧ r = m (cs + k) - m (ct + k) ∧ r ≠ 0)).
Proof.
  intros Hc.
  apply (loop_rule (λ x, let '(a, b, n, r) := x in 0 ≤ n ≤ count ∧ a = cs + (count - n) ∧ b = ct + (count - n) ∧
    r = 0 ∧ agree m cs ct (count - n)) (λ x, x.1.2)).
  - intros [[[a b] n] r] (Hn & -> & -> & -> & Ha). cbn. split; [lia|].
    destruct (Z.ltb_spec 0 n).
    + destruct (nz _) eqn:E; [apply nz_true in E|apply nz_false in E].
      * right. exists (count - n). split_and!; [lia|lia|done|done|done].
      * split; [|cbn; lia]. split_and!; [lia..|exact E|]. intros k Hk. destruct (decide (k = count - n)) as [->|]; [lia|].
        apply Ha. lia.
    + left. split; [done|]. by replace n with 0 in Ha by lia; rewrite Z.sub_0_r in Ha.
  - cbn. rewrite Z.sub_diag. split_and!; [lia..|]. intros k. lia.
  - cbn. unfold LIMIT. lia.
Qed.

(** * Strings *)

(** The NUL-terminated string [l] is at [a]. *)
Fixpoint cstr (m : memory) (a : Z) (l : list Z) : Prop :=
  match l with
  | [] => m a = 0
  | c :: l' => m a = c ∧ c ≠ 0 ∧ cstr m (a + 1) l'
  end.

Lemma cstr_lookup m a l k : cstr m a l → 0 ≤ k < Z.of_nat (length l) →
  l !! Z.to_nat k = Some (m (a + k)) ∧ m (a + k) ≠ 0.
Proof.
  revert a k. induction l as [|c l IH]; intros a k Hl Hk; cbn in Hk; [lia|].
  destruct Hl as (Hc & Hz & Hl). destruct (decide (k = 0)) as [->|].
  - rewrite Z.add_0_r. cbn. by rewrite Hc.
  - destruct (IH (a + 1) (k - 1)) as [E ?]; [done|lia|].
    replace (Z.to_nat k) with (S (Z.to_nat (k - 1))) by lia.
    replace (a + 1 + (k - 1)) with (a + k) in * by lia. done.
Qed.

Lemma cstr_end m a l : cstr m a l → m (a + Z.of_nat (length l)) = 0.
Proof.
  revert a. induction l as [|c l IH]; intros a Hl; cbn [length].
  - by rewrite Z.add_0_r.
  - destruct Hl as (_ & _ & Hl). replace (a + Z.of_nat (S (length l))) with (a + 1 + Z.of_nat (length l)) by lia.
    by apply IH.
Qed.

Lemma rt_strlen_spec m s l :
  cstr m s l → Z.of_nat (length l) < 2 ^ 32 → rt_strlen m s = Some (Z.of_nat (length l)).
Proof.
  intros Hl Hn. unfold rt_strlen.
  destruct (while_rule (λ sc, s ≤ sc ≤ s + Z.of_nat (length l)) (λ sc, s + Z.of_nat (length l) - sc) LIMIT
    (λ sc, nz (m sc)) (λ sc, sc + 1) s) as (sc & Esc & Hsc & Hz).
  - intros sc Hsc. split; [lia|]. intros H%nz_true. split; [|lia].
    destruct (decide (sc = s + Z.of_nat (length l))) as [->|]; [by rewrite cstr_end in H|lia].
  - lia.
  - unfold LIMIT. lia.
  - rewrite (obind_run _ _ _ Esc). f_equal. apply nz_false in Hz.
    destruct (decide (sc < s + Z.of_nat (length l))); [|lia].
    destruct (cstr_lookup m s l (sc - s)) as [_ Hnz]; [done|lia|].
    by replace (s + (sc - s)) with sc in Hnz by lia.
Qed.

Lemma rt_strnlen_spec m s l maxlen :
  cstr m s l → Z.of_nat (length l) < 2 ^ 32 → 0 ≤ maxlen →
  rt_strnlen m s maxlen = Some (Z.min (Z.of_nat (length l)) maxlen).
Proof.
  intros Hl Hn Hx. unfold rt_strnlen.
  destruct (while_rule (λ sc, s ≤ sc ≤ s + Z.min (Z.of_nat (length l)) maxlen)
    (λ sc, s + Z.of_nat (length l) - sc) LIMIT
    (λ sc, nz (m sc) && (u32 (sc - s) <? maxlen)) (λ sc, sc + 1) s) as (sc & Esc & Hsc & Hz).
  - intros sc Hsc. split; [lia|]. intros [H%nz_true Hu%Z.ltb_lt]%andb_prop. split; [|lia].
    rewrite wrap_small in Hu by lia.
    destruct (decide (sc = s + Z.of_nat (length l))) as [->|]; [by rewrite cstr_end in H|lia].
  - lia.
  - unfold LIMIT. lia.
  - rewrite (obind_run _ _ _ Esc). f_equal. apply andb_false_iff in Hz as [Hz%nz_false|Hz%Z.ltb_ge].
    + destruct (decide (sc < s + Z.of_nat (length l))); [|lia].
      destruct (cstr_lookup m s l (sc - s)) as [_ Hnz]; [done|lia|].
      by replace (s + (sc - s)) with sc in Hnz by lia.
    + rewrite wrap_small in Hz by lia. lia.
Qed.

(** Reference comparison of strings: the difference of the first characters that differ,
    the end of a string counting as 0. *)
Fixpoint lex_diff (l1 l2 : list Z) : Z :=
  match l1, l2 with
  | [], [] => 0
  | [], d :: _ => - d
  | c :: _, [] => c
  | c :: l1', d :: l2' => if c =? d then lex_diff l1' l2' else c - d
  end.

Lemma lex_diff_eq l1 l2 : Forall (λ c, c ≠ 0) l1 → Forall (λ c, c ≠ 0) l2 → lex_diff l1 l2 = 0 ↔ l1 = l2.
Proof.
  intros H1. revert l2. induction H1 as [|c l1 Hc _ IH]; intros l2 H2; destruct H2 as [|d l2 Hd H2]; cbn.
  - done.
  - split; [lia|done].
  - split; [lia|done].
  - destruct (Z.eqb_spec c d) as [->|]; [rewrite IH by done; naive_solver|]. split; [lia|congruence].
Qed.

(** Two loops that walk along two strings side by side. The unread suffixes are [r1] and
    [r2]. *)
Definition walk_inv (m : memory) (f : Z → Z) (a : Z) (l1 l2 : list Z) (x : Z * Z) : Prop :=
  ∃ r1 r2, cstr m x.1 r1 ∧ cstr m x.2 r2 ∧ x.1 + Z.of_nat (length r1) = a + Z.of_nat (length l1) ∧
    lex_diff (f <$> r1) (f <$> r2) = lex_diff (f <$> l1) (f <$> l2) ∧
    Forall (λ c, 0 < c < 256) r1 ∧ Forall (λ c, 0 < c < 256) r2.

Lemma rt_strcmp_spec m cs ct l1 l2 :
  cstr m cs l1 → cstr m ct l2 → Forall (λ c, 0 < c < 256) l1 → Forall (λ c, 0 < c < 256) l2 →
  Z.of_nat (length l1) < 2 ^ 32 → rt_strcmp m cs ct = Some (lex_diff l1 l2).
Proof.
  intros H1 H2 F1 F2 Hn. unfold rt_strcmp.
  destruct (while_rule (walk_inv m id cs l1 l2) (λ x, cs + Z.of_nat (length l1) - x.1) LIMIT
    (λ x : Z * Z, nz (m x.1) && (m x.1 =? m x.2)) (λ x, (x.1 + 1, x.2 + 1)) (cs, ct))
    as ([a b] & Ex & (r1 & r2 & C1 & C2 & _ & E & _) & Hz).
  - intros [a b] (r1 & r2 & C1 & C2 & Hl & E & G1 & G2). cbn in *. split; [lia|].
    intros [Hz%nz_true He%Z.eqb_eq]%andb_prop. split; [|lia].
    destruct r1 as [|c r1]; [by cbn in C1|]. destruct r2 as [|d r2]; [cbn in C2; congruence|].
    destruct C1 as (Hc & ? & C1), C2 as (Hd & ? & C2). assert (d = c) as -> by congruence.
    exists r1, r2. cbn in *. rewrite Z.eqb_refl in E. inversion G1; inversion G2; subst. split_and!; try done. lia.
  - exists l1, l2. by split_and!.
  - cbn. unfold LIMIT. lia.
  - rewrite (obind_run _ _ _ Ex). f_equal. rewrite !list_fmap_id in E. rewrite <- E.
    cbn in *. destruct r1 as [|c r1], r2 as [|d r2]; cbn in *.
    + by rewrite C1, C2.
    + destruct C2 as (-> & _). rewrite C1. done.
    + destruct C1 as (-> & _). rewrite C2. lia.
    + destruct C1 as (Hc & ? & _), C2 as (Hd & _ & _). rewrite Hc, Hd in *.
      destruct (Z.eqb_spec c d); [|done]. rewrite andb_true_r in Hz. by apply nz_false in Hz.
Qed.

Lemma fold_case_nz c : 0 < c < 256 → Z.land c 0xff = c ∧ fold_case c ≠ 0.
Proof.
  intros Hc. split.
  - change 255 with (Z.ones 8). rewrite Z.land_ones, Z.mod_small by lia. done.
  - unfold fold_case. destruct (_ && _); lia.
Qed.

(** [rt_strcasecmp] compares two strings as if their letters had been folded to lower
    case first; in particular it answers 0 exactly for strings equal up to case. *)
Theorem rt_strcasecmp_spec m a b l1 l2 :
  cstr m a l1 → cstr m b l2 → Forall (λ c, 0 < c < 256) l1 → Forall (λ c, 0 < c < 256) l2 →
  Z.of_nat (length l1) < 2 ^ 32 →
  rt_strcasecmp m a b = Some (u32 (lex_diff (fold_case <$> l1) (fold_case <$> l2))).
Proof.
  intros H1 H2 F1 F2 Hn.
  destruct (loop_rule (walk_inv m fold_case a l1 l2) (λ x, a + Z.of_nat (length l1) - x.1)
    (λ r, r = u32 (lex_diff (fold_case <$> l1) (fold_case <$> l2))) LIMIT (casecmp_step m) (a, b))
    as (r & Er & ->); [| | |done].
  - intros [p q] (r1 & r2 & C1 & C2 & Hl & E & G1 & G2). cbn in Hl. split; [cbn; lia|].
    unfold casecmp_step. cbn [fst snd] in *. rewrite <- E.
    destruct r1 as [|c r1], r2 as [|d r2]; cbn in C1, C2; cbn [fmap list_fmap lex_diff].
    + by rewrite C1, C2.
    + destruct C2 as (-> & _ & C2). inversion G2; subst. destruct (fold_case_nz d) as [-> Hd]; [done|].
      rewrite C1. change (fold_case (Z.land 0 255)) with 0. rewrite andb_false_r. done.
    + destruct C1 as (-> & _ & C1). inversion G1; subst. destruct (fold_case_nz c) as [-> Hc]; [done|].
      rewrite C2. change (fold_case (Z.land 0 255)) with 0. rewrite (proj2 (Z.eqb_neq _ _)) by done.
      by rewrite Z.sub_0_r.
    + destruct C1 as (-> & _ & C1), C2 as (-> & _ & C2). inversion G1; inversion G2; subst.
      destruct (fold_case_nz c) as [-> Hc]; [done|]. destruct (fold_case_nz d) as [-> Hd]; [done|].
      destruct (Z.eqb_spec (fold_case c) (fold_case d)) as [Ecd|]; cbn [andb]; [|done].
      rewrite (proj2 (nz_true _)) by done. split; [|cbn; lia]. exists r1, r2. cbn in *.
      rewrite Ecd, Z.eqb_refl in E. split_and!; try done. lia.
  - exists l1, l2. by split_and!.
  - cbn. unfold LIMIT. lia.
Qed.

(** A memory that holds the bytes of [l] at address [a] and zeros elsewhere. *)
Definition mem_of (a : Z) (l : list Z) : memory := λ i, if a <=? i then default 0 (l !! Z.to_nat (i - a)) else 0.

Lemma rt_strcasecmp_spec_witness :
  rt_strcasecmp (mem_of 100 [72; 105; 0; 104; 73; 33; 0]) 100 103 = Some (u32 (-33)).
Proof.
  apply (rt_strcasecmp_spec _ _ _ [72; 105] [104; 73; 33]); [by vm_compute; auto..| | |by vm_compute].
  all: repeat constructor; lia.
Defined.

(** ** Searching *)

Lemma agree_prefix m a b l1 l2 k :
  cstr m a l1 → cstr m b l2 → 0 ≤ k → k + Z.of_nat (length l2) ≤ Z.of_nat (length l1) →
  agree m (a + k) b (Z.of_nat (length l2)) ↔ l2 `prefix_of` drop (Z.to_nat k) l1.
Proof.
  intros H1 H2 Hk Hle. split.
  - intros Ha. exists (drop (Z.to_nat k + length l2) l1). rewrite <- drop_drop.
    rewrite <- (take_drop (length l2) (drop (Z.to_nat k) l1)) at 1. f_equal.
    apply list_eq_same_length with (length l2); [done|rewrite length_take, length_drop; lia|].
    intros i x y Hi. rewrite lookup_take_lt, lookup_drop by lia. intros Hx Hy.
    destruct (cstr_lookup m b l2 (Z.of_nat i)) as [Eb _]; [done|lia|].
    destruct (cstr_lookup m a l1 (k + Z.of_nat i)) as [Ea _]; [done|lia|].
    rewrite Nat2Z.id in Eb. replace (Z.to_nat (k + Z.of_nat i)) with (Z.to_nat k + i)%nat in Ea by lia.
    specialize (Ha (Z.of_nat i)). rewrite <- Z.add_assoc in Ha. rewrite Ha in Ea by lia. congruence.
  - intros [r Hr] i Hi.
    destruct (cstr_lookup m b l2 i) as [Eb _]; [done|lia|].
    destruct (cstr_lookup m a l1 (k + i)) as [Ea _]; [done|lia|].
    replace (Z.to_nat (k + i)) with (Z.to_nat k + Z.to_nat i)%nat in Ea by lia.
    rewrite <- lookup_drop, Hr, lookup_app_l in Ea by lia. rewrite <- Z.add_assoc. congruence.
Qed.

(** [l2] occurs in [l1] at [k]. *)
Definition occurs (l2 l1 : list Z) (k : Z) : Prop :=
  0 ≤ k ∧ k + Z.of_nat (length l2) ≤ Z.of_nat (length l1) ∧ l2 `prefix_of` drop (Z.to_nat k) l1.

(** [rt_strstr] terminates and answers the first place where the second string occurs
    in the first, and [RT_NULL] exactly when it occurs nowhere. *)
Theorem rt_strstr_spec m s1 s2 l1 l2 :
  cstr m s1 l1 → cstr m s2 l2 → Z.of_nat (length l1) < 2 ^ 31 → Z.of_nat (length l2) < 2 ^ 31 →
  ∃ r, rt_strstr m s1 s2 = Some r ∧
    match r with
    | Some p => ∃ k, p = s1 + k ∧ occurs l2 l1 k ∧ ∀ j, j < k → ¬ occurs l2 l1 j
    | None => ∀ j, ¬ occurs l2 l1 j
    end.
Proof.
  intros H1 H2 B1 B2. unfold rt_strstr.
  rewrite (obind_run _ _ _ (rt_strlen_spec m s2 l2 H2 ltac:(lia))).
  destruct (negb (nz (Z.of_nat (length l2)))) eqn:E0.
  { apply negb_true_iff, nz_false in E0. eexists. split; [done|]. exists 0. split; [lia|]. split.
    - split_and!; [lia|lia|]. assert (l2 = []) as -> by (apply nil_length_inv; lia). apply prefix_nil.
    - intros j Hj [? _]. lia. }
  apply negb_false_iff, nz_true in E0.
  rewrite (obind_run _ _ _ (rt_strlen_spec m s1 l1 H1 ltac:(lia))).
  destruct (loop_rule (λ x, ∃ k, 0 ≤ k ≤ Z.of_nat (length l1) ∧ x = (Z.of_nat (length l1) - k, s1 + k) ∧
      ∀ j, j < k → ¬ occurs l2 l1 j) (λ x, x.1)
    (λ r, ∃ r', r = Some r' ∧ match r' with
      | Some p => ∃ k, p = s1 + k ∧ occurs l2 l1 k ∧ ∀ j, j < k → ¬ occurs l2 l1 j
      | None => ∀ j, ¬ occurs l2 l1 j end) LIMIT (strstr_step m s2 (Z.of_nat (length l2)))
    (Z.of_nat (length l1), s1)) as (r & Er & r' & -> & Hr).
  - intros x (k & Hk & -> & Hno). cbn [fst strstr_step]. split; [lia|].
    destruct (Z.leb_spec (Z.of_nat (length l2)) (Z.of_nat (length l1) - k)) as [Hle|Hgt].
    + destruct (rt_memcmp_spec m (s1 + k) s2 (Z.of_nat (length l2))) as (c & -> & Hc); [lia|].
      pose proof (agree_prefix m s1 s2 l1 l2 k H1 H2 ltac:(lia) ltac:(lia)) as Hp.
      destruct Hc as [[-> Ha]|(i & Hi & _ & -> & Hd)].
      * cbn. eexists. split; [done|]. exists k. split_and!; [done| |done].
        split_and!; [lia|lia|by apply Hp].
      * rewrite (proj2 (nz_true _)) by done. split; [|cbn; lia]. exists (k + 1). split; [lia|]. split.
        { f_equal; lia. }
        intros j Hj. destruct (decide (j = k)) as [->|]; [|apply Hno; lia].
        intros (_ & _ & Hpre). apply Hp in Hpre. specialize (Hpre i Hi). lia.
    + exists None. split; [done|]. intros j Hj. destruct (decide (j < k)); [by eapply Hno|].
      destruct Hj as (? & ? & _). lia.
  - exists 0. split; [lia|]. rewrite Z.sub_0_r, Z.add_0_r. split; [done|]. intros j Hj [? _]. lia.
  - cbn. unfold LIMIT. lia.
  - rewrite (obind_run _ _ _ Er). eauto.
Qed.

Lemma rt_strstr_spec_witness :
  ∃ r, rt_strstr (mem_of 100 [97; 98; 97; 99; 0; 97; 99; 0]) 100 105 = Some r ∧
    match r with
    | Some p => ∃ k, p = 100 + k ∧ occurs [97; 99] [97; 98; 97; 99] k ∧
                  ∀ j, j < k → ¬ occurs [97; 99] [97; 98; 97; 99] j
    | None => ∀ j, ¬ occurs [97; 99] [97; 98; 97; 99] j
    end.
Proof.
  apply rt_strstr_spec; [| |by vm_compute|by vm_compute]; cbn [cstr];
    split_and!; (reflexivity || (vm_compute; congruence)).
Defined.
