(* ===== verification/Printf.v ===== *)
(** Formatted output of src/kservice.c: [print_number], [rt_vsnprintf] and its variants,
    with RT_PRINTF_PRECISION defined and RT_PRINTF_SPECIAL and RT_PRINTF_LONGLONG not.
    The text that a format stands for is a reference function of its own; the routines are
    shown to write that text, cut off at the end of the buffer. *)

From Stdlib Require Import ZArith Lia.
From stdpp Require Import base numbers option.
From stdpp Require Import list.
From S2P Require Import Prelude.
From S2P Require Import Bytes.
From S2P Require Import Kmemory.
Local Open Scope Z_scope.

(** * Code *)

Definition ZEROPAD : Z := Z.shiftl 1 0.
Definition SIGN : Z := Z.shiftl 1 1.
Definition PLUS : Z := Z.shiftl 1 2.
Definition SPACE : Z := Z.shiftl 1 3.
Definition LEFT : Z := Z.shiftl 1 4.
Definition SPECIAL : Z := Z.shiftl 1 5.
Definition LARGE : Z := Z.shiftl 1 6.

Definition flag (type f : Z) : bool := nz (Z.land type f).

(** [isdigit]: an unsigned comparison. *)
Definition isdigit (c : Z) : bool := u32 (c - 48) <? 10.

(** [divide]: the digit and the new value of [*n]. *)
Definition divide (n base : Z) : Z * Z :=
  if base =? 10 then (u32 n mod 10, i32 (u32 n / 10)) else (u32 n mod 16, i32 (u32 n / 16)).

(** [skip_atoi]: the number and the rest of the string. *)
Fixpoint skip_atoi_loop (i : Z) (s : list Z) : Z * list Z :=
  match s with
  | c :: s' => if isdigit c then skip_atoi_loop (i32 (i * 10 + c - 48)) s' else (i, s)
  | [] => (i, [])
  end.
Definition skip_atoi (s : list Z) : Z * list Z := skip_atoi_loop 0 s.

(** The output position: memory and [buf], a 32-bit address that wraps around.
    [if (buf < end) *buf = c; ++ buf;] *)
Definition out (e c : Z) (o : memory * Z) : memory * Z :=
  (if o.2 <? e then store 1 o.1 o.2 c else o.1, u32 (o.2 + 1)).

(** [while (n-- > 0) { out c }]: the output and the value [n] is left with. *)
Definition pad_loop (e c n : Z) (o : memory * Z) : option (Z * (memory * Z)) :=
  loop LIMIT (λ x : Z * (memory * Z),
    if 0 <? x.1 then inl (x.1 - 1, out e c x.2) else inr (x.1 - 1, x.2)) (n, o).

Definition small_digits : list Z := [48;49;50;51;52;53;54;55;56;57;97;98;99;100;101;102].
Definition large_digits : list Z := [48;49;50;51;52;53;54;55;56;57;65;66;67;68;69;70].

(** [while (num != 0) tmp[i++] = digits[divide(&num, base)]]; [tmp] has 16 elements. *)
Definition digits_loop (digits : list Z) (num base : Z) : option (list Z) :=
  r ← loop LIMIT (λ x : Z * list Z,
        let '(num, tmp) := x in
        if nz num then
          let '(res, num) := divide num base in
          if (length tmp <? 16)%nat then
            match digits !! Z.to_nat res with Some d => inl (num, tmp ++ [d]) | None => inr None end
          else inr None
        else inr (Some tmp)) (num, []);
  r.

(** [while (i-- > 0 && (precision_bak != 0)) { out tmp[i] }] *)
Definition digits_out (e : Z) (tmp : list Z) (precision_bak : Z) (o : memory * Z) : memory * Z :=
  if nz precision_bak then foldl (λ o c, out e c o) o (reverse tmp) else o.

Definition print_number (o : memory * Z) (e num base s precision type : Z) : option (memory * Z) :=
  let precision_bak := precision in
  let size := s in
  let digits := if flag type LARGE then large_digits else small_digits in
  let type := if flag type LEFT then Z.land type (Z.lnot ZEROPAD) else type in
  let c := if flag type ZEROPAD then 48 else 32 in
  let '(sign, num) :=
    if flag type SIGN then
      if num <? 0 then (45, i32 (- num))
      else if flag type PLUS then (43, num)
      else if flag type SPACE then (32, num)
      else (0, num)
    else (0, num) in
  tmp ← (if num =? 0 then Some [48] else digits_loop digits num base);
  let i := Z.of_nat (length tmp) in
  let precision := if precision <? i then i else precision in
  let size := size - precision in
  '(size, o) ←
    (if negb (flag type (Z.lor ZEROPAD LEFT)) then
       pad_loop e 32 (if nz sign && (0 <? size) then size - 1 else size) o
     else Some (size, o));
  let '(size, o) := if nz sign then (size - 1, out e sign o) else (size, o) in
  '(size, o) ← (if negb (flag type LEFT) then pad_loop e c size o else Some (size, o));
  '(_, o) ← pad_loop e 48 (precision - i) o;
  let o := digits_out e tmp precision_bak o in
  '(_, o) ← pad_loop e 32 size o;
  Some o.

(** The variable arguments: an [int] (or a pointer printed as a number), or a string. *)
Inductive va :=
| VInt (z : Z)
| VStr (s : option (list Z)).

Definition va_int (args : list va) : option (Z * list va) :=
  match args with VInt z :: r => Some (i32 z, r) | _ => None end.
Definition va_str (args : list va) : option (option (list Z) * list va) :=
  match args with VStr s :: r => Some (s, r) | _ => None end.

(** The flags behind a ['%']. *)
Fixpoint parse_flags (fmt : list Z) (flags : Z) : list Z * Z :=
  match fmt with
  | c :: fmt' =>
      if c =? 45 then parse_flags fmt' (Z.lor flags LEFT)
      else if c =? 43 then parse_flags fmt' (Z.lor flags PLUS)
      else if c =? 32 then parse_flags fmt' (Z.lor flags SPACE)
      else if c =? 35 then parse_flags fmt' (Z.lor flags SPECIAL)
      else if c =? 48 then parse_flags fmt' (Z.lor flags ZEROPAD)
      else (fmt, flags)
  | [] => ([], flags)
  end.

(** The character a pointer into the format reads; the terminating NUL at the end. *)
Definition chr (fmt : list Z) : Z := default 0 (head fmt).

(** The field width: the rest of the format and of the arguments, flags and width. *)
Definition parse_width (fmt : list Z) (args : list va) (flags : Z) : option (list Z * list va * Z * Z) :=
  if isdigit (chr fmt) then let '(w, fmt) := skip_atoi fmt in Some (fmt, args, flags, w)
  else if chr fmt =? 42 then
    '(w, args) ← va_int args;
    Some (if w <? 0 then (tail fmt, args, Z.lor flags LEFT, i32 (- w)) else (tail fmt, args, flags, w))
  else Some (fmt, args, flags, -1).

Definition parse_precision (fmt : list Z) (args : list va) : option (list Z * list va * Z) :=
  if chr fmt =? 46 then
    let fmt := tail fmt in
    '(fmt, args, p) ←
      (if isdigit (chr fmt) then let '(p, fmt) := skip_atoi fmt in Some (fmt, args, p)
       else if chr fmt =? 42 then '(p, args) ← va_int args; Some (tail fmt, args, p)
       else Some (fmt, args, -1));
    Some (fmt, args, if p <? 0 then 0 else p)
  else Some (fmt, args, -1).

Definition parse_qualifier (fmt : list Z) : list Z * Z :=
  if (chr fmt =? 104) || (chr fmt =? 108) then (tail fmt, chr fmt) else (fmt, 0).

(** [case 'c'] *)
Definition print_char (o : memory * Z) (e width flags c : Z) : option (memory * Z) :=
  '(w, o) ← (if negb (flag flags LEFT) then '(w, o) ← pad_loop e 32 (width - 1) o; Some (w + 1, o)
            else Some (width, o));
  let o := out e (u8 c) o in
  '(_, o) ← pad_loop e 32 (w - 1) o;
  Some o.

(** [case 's'] *)
Definition null_text : list Z := [40; 78; 85; 76; 76; 41].
Definition print_string (o : memory * Z) (e width precision flags : Z) (s : option (list Z)) : option (memory * Z) :=
  let s := default null_text s in
  let len := Z.of_nat (length s) in
  let len := if (0 <? precision) && (precision <? len) then precision else len in
  '(w, o) ← (if negb (flag flags LEFT) then
              '(w, o) ← pad_loop e 32 (width - len) o; Some (len + w, o)
            else Some (width, o));
  let o := foldl (λ o c, out e c o) o (take (Z.to_nat len) s) in
  '(_, o) ← pad_loop e 32 (w - len) o;
  Some o.

(** The argument of a number conversion, in [rt_uint32_t num] and then as a [long]. *)
Definition int_arg (qualifier flags z : Z) : Z :=
  let num :=
    if qualifier =? 104 then
      let num := u16 z in if flag flags SIGN then u32 (i16 num) else num
    else u32 z in
  i32 num.

(** One directive, from behind the ['%']: the rest of the format and of the arguments, and
    the output. *)
Definition directive (fmt : list Z) (args : list va) (o : memory * Z) (e : Z)
  : option (list Z * list va * (memory * Z)) :=
  let '(fmt, flags) := parse_flags fmt 0 in
  '(fmt, args, flags, width) ← parse_width fmt args flags;
  '(fmt, args, precision) ← parse_precision fmt args;
  let '(fmt, qualifier) := parse_qualifier fmt in
  let number base flags :=
    '(z, args) ← va_int args;
    o ← print_number o e (int_arg qualifier flags z) base width precision flags;
    Some (tail fmt, args, o) in
  let c := chr fmt in
  if c =? 99 then
    '(z, args) ← va_int args; o ← print_char o e width flags z; Some (tail fmt, args, o)
  else if c =? 115 then
    '(s, args) ← va_str args; o ← print_string o e width precision flags s; Some (tail fmt, args, o)
  else if c =? 112 then
    let '(width, flags) := if width =? -1 then (8, Z.lor flags ZEROPAD) else (width, flags) in
    '(z, args) ← va_int args;
    o ← print_number o e (i32 z) 16 width precision flags;
    Some (tail fmt, args, o)
  else if c =? 37 then Some (tail fmt, args, out e 37 o)
  else if c =? 111 then number 8 flags
  else if c =? 88 then number 16 (Z.lor flags LARGE)
  else if c =? 120 then number 16 flags
  else if (c =? 100) || (c =? 105) then number 10 (Z.lor flags SIGN)
  else if c =? 117 then number 10 flags
  else
    let o := out e 37 o in
    match fmt with
    | c :: fmt' => Some (fmt', args, out e c o)
    | [] => Some ([], args, o)
    end.

Fixpoint format_loop (fuel : nat) (fmt : list Z) (args : list va) (o : memory * Z) (e : Z) : option (memory * Z) :=
  match fmt, fuel with
  | [], _ => Some o
  | _ :: _, O => None
  | c :: fmt, S fuel =>
      if negb (c =? 37) then format_loop fuel fmt args (out e c o) e
      else '(fmt, args, o) ← directive fmt args o e; format_loop fuel fmt args o e
  end.

(** The result is [str - buf], as an [rt_int32_t]. *)
Definition rt_vsnprintf (m : memory) (buf size : Z) (fmt : list Z) (args : list va) : option (memory * Z) :=
  let e := u32 (buf + size) in
  let '(e, size) := if e <? buf then (0xffffffff, u32 (0xffffffff - buf)) else (e, size) in
  '(m, str) ← format_loop (length fmt) fmt args (m, buf) e;
  let m := if 0 <? size then store 1 m (if str <? e then str else e - 1) 0 else m in
  Some (m, i32 (str - buf)).

Definition rt_snprintf := rt_vsnprintf.
Definition rt_vsprintf (m : memory) (buf : Z) (fmt : list Z) (args : list va) : option (memory * Z) :=
  rt_vsnprintf m buf (u32 (-1)) fmt args.
Definition rt_sprintf := rt_vsprintf.

(** [rt_kprintf]: the bytes of the static buffer handed to the console device. The result
    of [rt_vsnprintf] is assigned to an unsigned [length]. *)
Definition RT_CONSOLEBUF_SIZE : Z := 128.
Definition rt_log_buf : Z := 0x20000000.
Definition rt_kprintf (fmt : list Z) (args : list va) : option (list Z) :=
  '(m, length) ← rt_vsnprintf (λ _, 0) rt_log_buf (RT_CONSOLEBUF_SIZE - 1) fmt args;
  let length := u32 length in
  let length := if RT_CONSOLEBUF_SIZE - 1 <? length then RT_CONSOLEBUF_SIZE - 1 else length in
  Some (m <$> seqZ rt_log_buf length).

Example sprintf_ex :
  (λ x, (map x.1 [1000;1001;1002;1003;1004;1005;1006;1007;1008;1009;1010;1011], x.2)) <$>
    rt_snprintf (λ _, 7) 1000 10 [120;61;37;48;53;100;44;37;45;52;115;124] [VInt (-42); VStr (Some [97;98])]
  = Some ([120;61;45;48;48;52;50;44;97;0;7;7], 13).
Proof. vm_compute. reflexivity. Qed.

(** * The text of a format *)

(** The digits of [n] in base [b], lowest first, without leading zeros. *)
Fixpoint low_digits (fuel : nat) (b n : Z) : list Z :=
  match fuel with
  | O => []
  | S fuel' => if n =? 0 then [] else n mod b :: low_digits fuel' b (n / b)
  end.

Definition digit_char (large : bool) (d : Z) : Z := if d <? 10 then 48 + d else (if large then 55 else 87) + d.

(** Highest digit first; 32 digits are enough for every 32-bit number in base 10 and 16. *)
Definition digits_text (large : bool) (b n : Z) : list Z :=
  if n =? 0 then [48] else reverse (digit_char large <$> low_digits 32 b n).

Definition chars (n c : Z) : list Z := replicate (Z.to_nat n) c.

Definition sign_text (num type : Z) : list Z :=
  if flag type SIGN then
    if num <? 0 then [45] else if flag type PLUS then [43] else if flag type SPACE then [32] else []
  else [].

Definition magnitude (num type : Z) : Z := if flag type SIGN && (num <? 0) then u32 (- num) else u32 num.

(** Sign, zeros up to the precision and digits, brought to the field width by spaces on
    the right, zeros behind the sign or spaces on the left. *)
Definition number_text (num base width precision type : Z) : list Z :=
  let ds := digits_text (flag type LARGE) (if base =? 10 then 10 else 16) (magnitude num type) in
  let len := Z.of_nat (length ds) in
  let sign := sign_text num type in
  let body := chars (precision - len) 48 ++ (if precision =? 0 then [] else ds) in
  let gap := width - Z.max precision len - Z.of_nat (length sign) in
  if flag type LEFT then sign ++ body ++ chars gap 32
  else if flag type ZEROPAD then sign ++ chars gap 48 ++ body
  else chars gap 32 ++ sign ++ body.

Definition aligned_text (width : Z) (left : bool) (t : list Z) : list Z :=
  let gap := chars (width - Z.of_nat (length t)) 32 in if left then t ++ gap else gap ++ t.

Definition string_text (width precision flags : Z) (s : option (list Z)) : list Z :=
  let s := default null_text s in
  aligned_text width (flag flags LEFT) (if 0 <? precision then take (Z.to_nat precision) s else s).

Definition directive_text (fmt : list Z) (args : list va) : option (list Z * list va * list Z) :=
  let '(fmt, flags) := parse_flags fmt 0 in
  '(fmt, args, flags, width) ← parse_width fmt args flags;
  '(fmt, args, precision) ← parse_precision fmt args;
  let '(fmt, qualifier) := parse_qualifier fmt in
  let number base flags :=
    '(z, args) ← va_int args;
    Some (tail fmt, args, number_text (int_arg qualifier flags z) base width precision flags) in
  let c := chr fmt in
  if c =? 99 then
    '(z, args) ← va_int args; Some (tail fmt, args, aligned_text width (flag flags LEFT) [u8 z])
  else if c =? 115 then
    '(s, args) ← va_str args; Some (tail fmt, args, string_text width precision flags s)
  else if c =? 112 then
    let '(width, flags) := if width =? -1 then (8, Z.lor flags ZEROPAD) else (width, flags) in
    '(z, args) ← va_int args; Some (tail fmt, args, number_text (i32 z) 16 width precision flags)
  else if c =? 37 then Some (tail fmt, args, [37])
  else if c =? 111 then number 8 flags
  else if c =? 88 then number 16 (Z.lor flags LARGE)
  else if c =? 120 then number 16 flags
  else if (c =? 100) || (c =? 105) then number 10 (Z.lor flags SIGN)
  else if c =? 117 then number 10 flags
  else match fmt with c :: fmt' => Some (fmt', args, [37; c]) | [] => Some ([], args, [37]) end.

Fixpoint text_loop (fuel : nat) (fmt : list Z) (args : list va) : option (list Z) :=
  match fmt, fuel with
  | [], _ => Some []
  | _ :: _, O => None
  | c :: fmt, S fuel =>
      if negb (c =? 37) then cons c <$> text_loop fuel fmt args
      else '(fmt, args, t) ← directive_text fmt args; app t <$> text_loop fuel fmt args
  end.

Definition format_text (fmt : list Z) (args : list va) : option (list Z) := text_loop (length fmt) fmt args.

(** * Emitting text *)

Definition emit (e : Z) (t : list Z) (o : memory * Z) : memory * Z := foldl (λ o c, out e c o) o t.

Lemma emit_app e t t' o : emit e (t ++ t') o = emit e t' (emit e t o).
Proof. apply foldl_app. Qed.

Lemma emit_position e t o : 0 ≤ o.2 < 2 ^ 32 → (emit e t o).2 = u32 (o.2 + Z.of_nat (length t)).
Proof.
  revert o. induction t as [|c t IH]; intros o Ho; cbn [emit foldl length]; [rewrite wrap_small; lia|].
  unfold emit in IH. rewrite IH by (cbn; apply wrap_range; lia). cbn. rewrite wrap_add_wrap_l. f_equal. lia.
Qed.

(** What reaches the memory as long as the address does not wrap around: the text up to the
    end of the buffer. *)
Lemma emit_memory e t o i :
  0 ≤ o.2 → o.2 + Z.of_nat (length t) < 2 ^ 32 →
  (emit e t o).1 i =
    if (o.2 <=? i) && (i <? Z.min e (o.2 + Z.of_nat (length t))) then default 0 (t !! Z.to_nat (i - o.2)) mod 256
    else o.1 i.
Proof.
  revert o. induction t as [|c t IH]; intros [m p] H0 Hw; cbn [emit foldl length fst snd] in *.
  - ranges; [lia|done..].
  - assert (u32 (p + 1) = p + 1) as Ew by (apply wrap_small; lia).
    unfold emit in IH. rewrite IH; cbn [fst snd out]; rewrite Ew; [|lia..].
    destruct (Z.ltb_spec p e); ranges; try lia; try done.
    all: first
      [ by rewrite store_outside by lia
      | by replace (Z.to_nat (i - p)) with (S (Z.to_nat (i - (p + 1)))) by lia
      | rewrite store_inside by lia; replace (i - p) with 0 by lia; by rewrite Z.div_1_r ].
Qed.

Lemma chars_step n c : 0 < n → chars n c = c :: chars (n - 1) c.
Proof. intros H. unfold chars. by replace (Z.to_nat n) with (S (Z.to_nat (n - 1))) by lia. Qed.

Lemma chars_none n c : n ≤ 0 → chars n c = [].
Proof. intros H. unfold chars. by replace (Z.to_nat n) with O by lia. Qed.

Lemma length_chars n c : Z.of_nat (length (chars n c)) = Z.max n 0.
Proof. unfold chars. rewrite length_replicate. lia. Qed.

Lemma pad_loop_run e c n o :
  n < 2 ^ 33 → pad_loop e c n o = Some (if 0 <? n then -1 else n - 1, emit e (chars n c) o).
Proof.
  intros Hn. unfold pad_loop.
  destruct (loop_rule (λ x : Z * (memory * Z), x.1 ≤ n ∧ (0 < n → 0 ≤ x.1) ∧ (n ≤ 0 → x.1 = n) ∧
      emit e (chars x.1 c) x.2 = emit e (chars n c) o) (λ x, Z.max 0 x.1)
    (λ r, r = (if 0 <? n then -1 else n - 1, emit e (chars n c) o)) LIMIT
    (λ x : Z * (memory * Z), if 0 <? x.1 then inl (x.1 - 1, out e c x.2) else inr (x.1 - 1, x.2)) (n, o))
    as (r & Er & ->); [| | |done].
  - intros [k o'] (H1 & H2 & H3 & E). cbn [fst snd] in *. split; [lia|].
    destruct (Z.ltb_spec 0 k).
    + rewrite (chars_step k) in E by done. split; [|cbn; lia]. cbn. split_and!; [lia..|done].
    + rewrite (chars_none k) in E by lia. cbn in E. rewrite <- E. f_equal. zcases; lia.
  - cbn. split_and!; [lia..|done].
  - cbn. unfold LIMIT. lia.
Qed.

Lemma pad_bind {A} e c n o (f : Z * (memory * Z) → option A) :
  n < 2 ^ 33 → pad_loop e c n o ≫= f = f (if 0 <? n then -1 else n - 1, emit e (chars n c) o).
Proof. intros Hn. by rewrite pad_loop_run. Qed.

(** * Numbers *)

Lemma digit_table large d :
  0 ≤ d < 16 → (if large : bool then large_digits else small_digits) !! Z.to_nat d = Some (digit_char large d).
Proof.
  intros Hd. rewrite <- (Z2Nat.id d) at 2 by lia.
  assert (Z.to_nat d < 16)%nat as Hn by lia. revert Hn. generalize (Z.to_nat d). intros n Hn.
  do 16 (destruct n as [|n]; [by destruct large|]). lia.
Qed.

Definition radix (base : Z) : Z := if base =? 10 then 10 else 16.

Lemma radix_bounds base : 10 ≤ radix base ≤ 16.
Proof. unfold radix. destruct (base =? 10); lia. Qed.

Lemma divide_radix n base : divide n base = (u32 n mod radix base, i32 (u32 n / radix base)).
Proof. unfold divide, radix. by destruct (base =? 10). Qed.

Lemma i32_range z : - 2 ^ 31 ≤ i32 z < 2 ^ 31.
Proof. unfold swrap. pose proof (wrap_range 32 z). destruct (Z.ltb_spec (u32 z) (2 ^ (32 - 1))); lia. Qed.

Lemma u32_nz n : - 2 ^ 31 ≤ n < 2 ^ 31 → u32 n = 0 → n = 0.
Proof.
  intros Hn H. rewrite <- (swrap_small 32 n) by lia. unfold swrap. by rewrite H.
Qed.

(** A quotient of a 32-bit number fits again. *)
Lemma u32_div n b : 10 ≤ b → u32 (i32 (u32 n / b)) = u32 n / b.
Proof.
  intros Hb. rewrite wrap_swrap, wrap_small; [done| |lia]. pose proof (wrap_range 32 n).
  split; [apply Z.div_pos; lia|]. apply Z.div_lt_upper_bound; nia.
Qed.

(** At most ten digits: the array never overflows. *)
Lemma digits_bound b k n x : 10 ≤ b → 1 ≤ n → n * b ^ Z.of_nat k ≤ x → x < 2 ^ 32 → (k < 10)%nat.
Proof.
  intros Hb Hn Hx H32. destruct (decide (k < 10)%nat); [done|]. exfalso.
  assert (10 ^ 10 ≤ b ^ Z.of_nat k); [|nia]. transitivity (b ^ 10).
  - apply Z.pow_le_mono_l. lia.
  - apply Z.pow_le_mono_r; lia.
Qed.

Lemma digits_loop_run large num base :
  - 2 ^ 31 ≤ num < 2 ^ 31 →
  digits_loop (if large : bool then large_digits else small_digits) num base
  = Some (digit_char large <$> low_digits 32 (radix base) (u32 num)).
Proof.
  intros Hnum. unfold digits_loop. set (b := radix base).
  pose proof (radix_bounds base) as Hb. fold b in Hb.
  match goal with |- context [loop LIMIT ?step ?init] =>
    destruct (loop_rule (λ x : Z * list Z, let '(n, tmp) := x in
       - 2 ^ 31 ≤ n < 2 ^ 31 ∧ (length tmp ≤ 16)%nat ∧ u32 n * b ^ Z.of_nat (length tmp) ≤ u32 num ∧
       tmp ++ (digit_char large <$> low_digits (32 - length tmp) b (u32 n)) = digit_char large <$> low_digits 32 b (u32 num))
     (λ x, u32 x.1) (λ r, r = Some (digit_char large <$> low_digits 32 b (u32 num))) LIMIT step init) as (r & Er & ->)
  end.
  - intros [n tmp] (Hn & Hlen & Hval & E). cbn [fst]. pose proof (wrap_range 32 n). pose proof (wrap_range 32 num).
    split; [lia|]. destruct (nz n) eqn:Ez; [apply nz_true in Ez|apply nz_false in Ez].
    + assert (u32 n ≠ 0) by (by intros ?%u32_nz).
      pose proof (digits_bound b (length tmp) (u32 n) (u32 num)) as Hk.
      rewrite divide_radix. fold b. rewrite (proj2 (Nat.ltb_lt _ _)) by lia.
      pose proof (Z.mod_pos_bound (u32 n) b). rewrite digit_table by lia.
      split; [|cbn [fst]; rewrite u32_div by lia; apply Z.div_lt; lia].
      rewrite length_app, u32_div by lia. cbn [length]. split; [apply i32_range|]. split; [lia|]. split.
      * rewrite Nat2Z.inj_add, Z.pow_add_r by lia. cbn. pose proof (Z.mul_div_le (u32 n) b). nia.
      * rewrite <- E, <- app_assoc. f_equal.
        replace (32 - length tmp)%nat with (S (32 - (length tmp + 1))) by lia.
        cbn [low_digits]. by rewrite (proj2 (Z.eqb_neq _ _)) by done.
    + subst n. rewrite <- E. change (u32 0) with 0. f_equal.
      destruct (32 - length tmp)%nat; by rewrite app_nil_r.
  - split; [done|]. split; [cbn; lia|]. split; [cbn; lia|done].
  - cbn. pose proof (wrap_range 32 num). unfold LIMIT. lia.
  - by rewrite (obind_run _ _ _ Er).
Qed.

Lemma magnitude_num num type :
  - 2 ^ 31 ≤ num < 2 ^ 31 →
  ∃ n, - 2 ^ 31 ≤ n < 2 ^ 31 ∧ u32 n = magnitude num type ∧
    (if flag type SIGN then
       if num <? 0 then (45, i32 (- num))
       else if flag type PLUS then (43, num) else if flag type SPACE then (32, num) else (0, num)
     else (0, num)) = (match sign_text num type with [] => 0 | c :: _ => c end, n).
Proof.
  intros Hn. unfold magnitude, sign_text. destruct (flag type SIGN); cbn [andb]; [|by exists num].
  destruct (Z.ltb_spec num 0).
  - exists (i32 (- num)). split; [apply i32_range|]. by rewrite wrap_swrap by lia.
  - exists num. repeat case_match; done.
Qed.

Lemma sign_text_cases num type : sign_text num type = [] ∨ ∃ c, nz c = true ∧ sign_text num type = [c].
Proof.
  unfold sign_text. repeat case_match; first [by left|right; eexists; by split; [|reflexivity]].
Qed.

(** Clearing ZEROPAD leaves the other flags alone. *)
Lemma flag_clear_zeropad type f :
  f = SIGN ∨ f = PLUS ∨ f = SPACE ∨ f = LEFT ∨ f = LARGE → flag (Z.land type (Z.lnot ZEROPAD)) f = flag type f.
Proof. intros Hf. unfold flag. f_equal. rewrite <- Z.land_assoc. f_equal. destruct_or! Hf; by subst. Qed.

Lemma flag_zeropad_cleared type : flag (Z.land type (Z.lnot ZEROPAD)) ZEROPAD = false.
Proof. unfold flag. rewrite <- Z.land_assoc. by rewrite Z.land_0_r. Qed.

Lemma flag_either type a b : flag type (Z.lor a b) = flag type a || flag type b.
Proof.
  unfold flag. rewrite Z.land_lor_distr_r.
  destruct (nz (Z.land type a)) eqn:Ea, (nz (Z.land type b)) eqn:Eb; cbn;
    repeat match goal with
    | H : nz _ = true |- _ => apply nz_true in H
    | H : nz _ = false |- _ => apply nz_false in H
    end; try (apply nz_true; rewrite Z.lor_eq_0_iff; tauto); apply nz_false, Z.lor_eq_0_iff; done.
Qed.

Lemma digits_out_emit e tmp p o : digits_out e tmp p o = emit e (if p =? 0 then [] else reverse tmp) o.
Proof. unfold digits_out, nz. by destruct (p =? 0). Qed.

Lemma digits_tmp large n base :
  - 2 ^ 31 ≤ n < 2 ^ 31 →
  ∃ tmp, (if n =? 0 then Some [48] else digits_loop (if large : bool then large_digits else small_digits) n base) = Some tmp
    ∧ reverse tmp = digits_text large (radix base) (u32 n).
Proof.
  intros Hn. unfold digits_text. destruct (Z.eqb_spec n 0) as [->|Hnz]; [by exists [48]|].
  rewrite digits_loop_run by done. eexists. split; [done|].
  rewrite (proj2 (Z.eqb_neq (u32 n) 0)); [done|]. by intros ?%u32_nz.
Qed.

Lemma emit_chars_none e n c o : n ≤ 0 → emit e (chars n c) o = o.
Proof. intros H. by rewrite chars_none. Qed.

(** The part of [print_number] behind the digits; [size] is what the width leaves beside
    them, [sign] is 0 for none. *)
Definition layout (e : Z) (left zeropad : bool) (sign size : Z) (body : list Z) (o : memory * Z) : option (memory * Z) :=
  '(size, o) ← (if negb (zeropad || left) then pad_loop e 32 (if nz sign && (0 <? size) then size - 1 else size) o
                else Some (size, o));
  let '(size, o) := if nz sign then (size - 1, out e sign o) else (size, o) in
  '(size, o) ← (if negb left then pad_loop e (if zeropad then 48 else 32) size o else Some (size, o));
  let o := emit e body o in
  '(_, o) ← pad_loop e 32 size o;
  Some o.

Lemma layout_run e left zeropad (sign : list Z) c size body o :
  size < 2 ^ 33 → (sign = [] ∧ c = 0) ∨ (nz c = true ∧ sign = [c]) → (left = true → zeropad = false) →
  layout e left zeropad c size body o =
    let gap := size - Z.of_nat (length sign) in
    Some (emit e (if left then sign ++ body ++ chars gap 32
                  else if zeropad then sign ++ chars gap 48 ++ body else chars gap 32 ++ sign ++ body) o).
Proof.
  intros Hs Hc Hl. unfold layout.
  assert (∀ o, (if nz c then (size - 1, out e c o) else (size, o)) = (size - Z.of_nat (length sign), emit e sign o)) as Hsign.
  { intros o'. destruct Hc as [[-> ->]|[-> ->]]; [by cbn; rewrite Z.sub_0_r|done]. }
  destruct left; [rewrite Hl by done|]; cbn [orb negb].
  - rewrite (obind_run _ _ _ eq_refl). cbv beta iota zeta.
    rewrite Hsign, (obind_run _ _ _ eq_refl). cbv beta iota zeta.
    rewrite pad_bind by (lia). by rewrite !emit_app.
  - rewrite orb_false_r. destruct zeropad; cbn [negb].
    + rewrite (obind_run _ _ _ eq_refl). cbv beta iota zeta. rewrite Hsign.
      rewrite pad_bind by (lia). cbv beta iota zeta.
      rewrite pad_bind by (zcases; lia). cbv beta iota zeta.
      rewrite emit_chars_none by (zcases; lia). by rewrite !emit_app.
    + set (size1 := if nz c && (0 <? size) then size - 1 else size).
      assert (size1 < 2 ^ 33 ∧ chars size1 32 = chars (size - Z.of_nat (length sign)) 32) as [H1 E1].
      { unfold size1. destruct Hc as [[-> ->]|[-> ->]]; cbn [nz andb length].
        - change (nz 0) with false. cbn [andb]. split; [lia|]. by rewrite Z.sub_0_r.
        - destruct (Z.ltb_spec 0 size); split; try lia; [done|]. by rewrite !chars_none by (cbn; lia). }
      rewrite pad_bind by done. cbv beta iota zeta. rewrite E1.
      set (size2 := if 0 <? size1 then -1 else size1 - 1).
      assert (size2 < 0) by (unfold size2; zcases; lia).
      assert (∃ size3 : Z, size3 < 0 ∧ ∀ o, (if nz c then (size2 - 1, out e c o) else (size2, o)) = (size3, emit e sign o))
        as (size3 & H3 & E3).
      { destruct Hc as [[-> ->]|[-> ->]]; [exists size2|exists (size2 - 1)]; (split; [lia|done]). }
      rewrite E3. rewrite pad_bind by (lia). cbv beta iota zeta.
      rewrite pad_bind by (zcases; lia). cbv beta iota zeta.
      rewrite !emit_chars_none by (zcases; lia). by rewrite !emit_app.
Qed.

Lemma length_digits_text large b n : (1 ≤ length (digits_text large b n) ≤ 32)%nat.
Proof.
  unfold digits_text. destruct (Z.eqb_spec n 0) as [|Hn]; [cbn; lia|]. rewrite length_reverse, length_fmap. split.
  - cbn. rewrite (proj2 (Z.eqb_neq _ _)) by done. cbn. lia.
  - generalize 32%nat n. clear. intros k. induction k as [|k IH]; intros n; cbn; [lia|].
    destruct (n =? 0); cbn; [lia|]. specialize (IH (n / b)). lia.
Qed.

(** [print_number] in terms of [layout]. *)
Lemma print_number_layout o e num base s precision type :
  - 2 ^ 31 ≤ num < 2 ^ 31 → precision < 2 ^ 32 →
  let ds := digits_text (flag type LARGE) (radix base) (magnitude num type) in
  let len := Z.of_nat (length ds) in
  print_number o e num base s precision type =
    layout e (flag type LEFT) (flag type ZEROPAD && negb (flag type LEFT))
      (match sign_text num type with [] => 0 | c :: _ => c end) (s - Z.max precision len)
      (chars (precision - len) 48 ++ (if precision =? 0 then [] else ds)) o.
Proof.
  intros Hnum Hp ds len. unfold print_number. cbv zeta.
  set (type' := if flag type LEFT then _ else type).
  assert (flag type' LEFT = flag type LEFT ∧ flag type' SIGN = flag type SIGN ∧ flag type' PLUS = flag type PLUS ∧
    flag type' SPACE = flag type SPACE ∧ flag type' ZEROPAD = flag type ZEROPAD && negb (flag type LEFT))
    as (EL & ES & EP & EX & EZ).
  { unfold type'. destruct (flag type LEFT) eqn:E; cbn [negb].
    - rewrite !flag_clear_zeropad, flag_zeropad_cleared, andb_false_r by tauto. done.
    - by rewrite andb_true_r, E. }
  rewrite flag_either, EL, ES, EP, EX, EZ.
  destruct (magnitude_num num type Hnum) as (n & Hn & Em & ->).
  destruct (digits_tmp (flag type LARGE) n base Hn) as (tmp & Et & Er). rewrite Em in Er.
  rewrite (obind_run _ _ _ Et). unfold layout. fold ds in Er.
  replace (length tmp) with (length ds) by (by rewrite <- Er, length_reverse). fold len.
  replace (if precision <? len then len else precision) with (Z.max precision len) by (zcases; lia).
  pose proof (length_digits_text (flag type LARGE) (radix base) (magnitude num type)) as Hlen. fold ds in Hlen.
  apply option_bind_ext_fun. intros [size1 o1].
  destruct (if nz _ then (size1 - 1, _) else _) as [size2 o2].
  apply option_bind_ext_fun. intros [size3 o3].
  rewrite pad_bind by lia. cbv beta iota. rewrite digits_out_emit, Er, emit_app.
  replace (chars (Z.max precision len - len) 48) with (chars (precision - len) 48); [reflexivity|].
  unfold chars. f_equal. lia.
Qed.

(** [print_number] writes the reference text of the number: sign, digits in the base
    (every base but 10 is printed in base 16), precision and alignment, whatever the
    value, and never more than the room in the buffer. *)
Theorem print_number_spec o e num base s precision type :
  - 2 ^ 31 ≤ num < 2 ^ 31 → - 2 ^ 31 ≤ s < 2 ^ 31 → - 2 ^ 31 ≤ precision < 2 ^ 31 →
  print_number o e num base s precision type = Some (emit e (number_text num base s precision type) o).
Proof.
  intros Hnum Hs Hp. rewrite print_number_layout by lia. cbv zeta.
  pose proof (length_digits_text (flag type LARGE) (radix base) (magnitude num type)).
  rewrite layout_run with (sign := sign_text num type).
  - unfold number_text. cbv zeta. fold (radix base). destruct (flag type LEFT); cbn [negb]; [done|].
    by rewrite andb_true_r.
  - lia.
  - destruct (sign_text_cases num type) as [->|(c & Hc & ->)]; [by left|by right].
  - intros ->. cbn. apply andb_false_r.
Qed.

Lemma print_number_spec_witness :
  print_number (λ _, 0, 100) 104 (-42) 10 6 3 (Z.lor SIGN ZEROPAD)
  = Some (emit 104 [45; 48; 48; 48; 52; 50] (λ _, 0, 100)).
Proof. apply (print_number_spec (λ _, 0, 100) 104 (-42) 10 6 3 (Z.lor SIGN ZEROPAD)); lia. Defined.

(** ** Digits and values *)

(** The number written by digits, lowest first. *)
Fixpoint value (b : Z) (ds : list Z) : Z :=
  match ds with [] => 0 | d :: ds' => d + b * value b ds' end.

Lemma low_digits_value b fuel n : 2 ≤ b → 0 ≤ n < b ^ Z.of_nat fuel → value b (low_digits fuel b n) = n.
Proof.
  intros Hb. revert n. induction fuel as [|fuel IH]; intros n Hn; [cbn in *; lia|]. cbn [low_digits].
  destruct (Z.eqb_spec n 0) as [->|]; [done|]. cbn [value]. rewrite IH; [pose proof (Z.div_mod n b); lia|].
  rewrite Nat2Z.inj_succ, Z.pow_succ_r in Hn by lia.
  split; [apply Z.div_pos; lia|]. apply Z.div_lt_upper_bound; lia.
Qed.

Lemma low_digits_range b fuel n : 2 ≤ b → Forall (λ d, 0 ≤ d < b) (low_digits fuel b n).
Proof.
  intros Hb. revert n. induction fuel as [|fuel IH]; intros n; cbn; [constructor|].
  destruct (n =? 0); constructor; [apply Z.mod_pos_bound; lia|apply IH].
Qed.

Lemma value_bound b ds : 2 ≤ b → Forall (λ d, 0 ≤ d < b) ds → 0 ≤ value b ds.
Proof. intros Hb. induction 1; cbn; nia. Qed.

(** Reading decimal digits, highest first. *)
Lemma skip_digits ds i rest :
  Forall (λ d, 0 ≤ d < 10) ds → 0 ≤ i → i * 10 ^ Z.of_nat (length ds) + value 10 ds < 2 ^ 31 →
  skip_atoi_loop i (reverse (digit_char false <$> ds) ++ rest)
  = skip_atoi_loop (i * 10 ^ Z.of_nat (length ds) + value 10 ds) rest.
Proof.
  revert i rest. induction ds as [|d ds IH]; intros i rest Hds Hi Hlt; [cbn; f_equal; lia|].
  inversion Hds as [|? ? Hd Hds']; subst. pose proof (value_bound 10 ds ltac:(lia) Hds').
  rewrite fmap_cons, reverse_cons, <- app_assoc.
  cbn [length value] in *. rewrite Nat2Z.inj_succ, Z.pow_succ_r in * by lia.
  rewrite IH by (done || nia). cbn. unfold digit_char at 1. rewrite (proj2 (Z.ltb_lt d 10)) by lia.
  unfold isdigit. rewrite wrap_small by lia. rewrite (proj2 (Z.ltb_lt _ 10)) by lia.
  f_equal. unfold digit_char. rewrite (proj2 (Z.ltb_lt d 10)) by lia. rewrite swrap_small; [lia|lia|].
  assert (0 ≤ i * 10 ^ Z.of_nat (length ds)) by (apply Z.mul_nonneg_nonneg; lia). lia.
Qed.

Lemma skip_atoi_stop i rest : isdigit (chr rest) = false → skip_atoi_loop i rest = (i, rest).
Proof. destruct rest as [|c rest]; cbn; [done|]. by intros ->. Qed.

(** Printing and parsing are inverse: [skip_atoi] reads back the number whose decimal
    text [print_number] writes (no width, precision or sign), and stops behind it. *)
Theorem print_parse_roundtrip o e n rest :
  0 ≤ n < 2 ^ 31 → isdigit (chr rest) = false →
  ∃ t, print_number o e n 10 (-1) (-1) 0 = Some (emit e t o) ∧ skip_atoi (t ++ rest) = (n, rest).
Proof.
  intros Hn Hr. exists (number_text n 10 (-1) (-1) 0). split; [apply print_number_spec; lia|].
  unfold number_text, magnitude, sign_text. change (flag 0 _) with false. cbv zeta. cbn [andb length].
  pose proof (length_digits_text false 10 (u32 n)).
  rewrite (chars_none (-1 - _)), (chars_none (_ - _ - _)) by lia. change (-1 =? 0) with false. cbn [app].
  rewrite (wrap_small 32 n) by lia. change (10 =? 10) with true. cbv iota.
  unfold digits_text, skip_atoi. destruct (Z.eqb_spec n 0) as [->|Hnz].
  - cbn. change (isdigit 48) with true. cbn. by apply skip_atoi_stop.
  - pose proof (low_digits_range 10 32 n). pose proof (low_digits_value 10 32 n ltac:(lia)) as Hv.
    rewrite skip_digits by (auto with lia || (rewrite Hv by lia; lia)).
    rewrite Hv by lia. rewrite Z.mul_0_l, Z.add_0_l. by apply skip_atoi_stop.
Qed.

Lemma print_parse_roundtrip_witness :
  ∃ t, print_number (λ _, 0, 0) 64 40201 10 (-1) (-1) 0 = Some (emit 64 t (λ _, 0, 0)) ∧
    skip_atoi (t ++ [46; 49]) = (40201, [46; 49]).
Proof. apply print_parse_roundtrip; [lia|reflexivity]. Defined.

(** A conversion to octal prints hexadecimal digits: [divide] knows only the bases 10
    and 16, so that base 8 gives the text of base 16. *)
Theorem print_number_octal o e num s precision type :
  print_number o e num 8 s precision type = print_number o e num 16 s precision type.
Proof. reflexivity. Qed.

(** * Directives *)

Lemma print_char_run o e width flags c :
  width < 2 ^ 31 → print_char o e width flags c = Some (emit e (aligned_text width (flag flags LEFT) [u8 c]) o).
Proof.
  intros Hw. unfold print_char, aligned_text. change (Z.of_nat (length [u8 c])) with 1.
  destruct (flag flags LEFT); cbn [negb].
  - rewrite (obind_run _ _ _ eq_refl). cbv beta iota zeta. rewrite pad_bind by lia. by rewrite emit_app.
  - rewrite pad_bind by lia. cbv beta iota. rewrite (obind_run _ _ _ eq_refl). cbv beta iota zeta.
    rewrite pad_bind by (zcases; lia). rewrite emit_chars_none by (zcases; lia). by rewrite emit_app.
Qed.

Lemma print_string_run o e width precision flags s :
  width < 2 ^ 31 → print_string o e width precision flags s = Some (emit e (string_text width precision flags s) o).
Proof.
  intros Hw. unfold print_string, string_text, aligned_text. set (t := default null_text s).
  set (len := if (0 <? precision) && _ then precision else _).
  assert (0 ≤ len ∧ take (Z.to_nat len) t = (if 0 <? precision then take (Z.to_nat precision) t else t)) as [Hlen Et].
  { unfold len. destruct (Z.ltb_spec 0 precision); cbn [andb]; [|by rewrite Nat2Z.id, firstn_all; split; [lia|]].
    destruct (Z.ltb_spec precision (Z.of_nat (length t))); [by split; [lia|]|].
    rewrite Nat2Z.id, firstn_all, take_ge by lia. by split; [lia|]. }
  assert (len = Z.of_nat (length (take (Z.to_nat len) t))) as El.
  { rewrite length_take. unfold len. zcases; cbn; lia. }
  rewrite <- Et, <- El. cbv zeta. destruct (flag flags LEFT); cbn [negb].
  - rewrite (obind_run _ _ _ eq_refl). cbv beta iota zeta. rewrite pad_bind by lia. by rewrite emit_app.
  - rewrite pad_bind by lia. cbv beta iota. rewrite (obind_run _ _ _ eq_refl). cbv beta iota zeta.
    rewrite pad_bind by (zcases; lia). rewrite emit_chars_none by (zcases; lia). by rewrite emit_app.
Qed.

Lemma skip_atoi_range s : - 2 ^ 31 ≤ (skip_atoi s).1 < 2 ^ 31.
Proof.
  unfold skip_atoi. assert (- 2 ^ 31 ≤ 0 < 2 ^ 31) as H by lia. revert H. generalize 0.
  induction s as [|c s IH]; intros i Hi; cbn; [done|]. destruct (isdigit c); [|done]. apply IH, i32_range.
Qed.

Lemma va_int_range args z r : va_int args = Some (z, r) → - 2 ^ 31 ≤ z < 2 ^ 31.
Proof. destruct args as [|[] ?]; cbn; try done. intros [= <- _]. apply i32_range. Qed.

Lemma parse_width_range fmt args flags fmt' args' flags' w :
  parse_width fmt args flags = Some (fmt', args', flags', w) → - 2 ^ 31 ≤ w < 2 ^ 31.
Proof.
  unfold parse_width. destruct (isdigit _).
  - pose proof (skip_atoi_range fmt). destruct (skip_atoi fmt). by intros [= _ _ _ <-].
  - destruct (_ =? 42); [|intros [= _ _ _ <-]; lia].
    destruct (va_int args) as [[z r]|] eqn:E; cbn; [|done]. apply va_int_range in E.
    destruct (z <? 0); intros [= _ _ _ <-]; [apply i32_range|done].
Qed.

Lemma parse_precision_range fmt args fmt' args' p :
  parse_precision fmt args = Some (fmt', args', p) → - 2 ^ 31 ≤ p < 2 ^ 31.
Proof.
  unfold parse_precision. destruct (_ =? 46); [|intros [= _ _ <-]; lia]. cbv zeta.
  destruct (isdigit _).
  - pose proof (skip_atoi_range (tail fmt)). destruct (skip_atoi (tail fmt)) as [q r]. cbn in *.
    intros [= _ _ <-]. destruct (q <? 0); lia.
  - destruct (_ =? 42); [|intros [= _ _ <-]; lia].
    destruct (va_int args) as [[z r]|] eqn:E; cbn; [|done]. apply va_int_range in E.
    intros [= _ _ <-]. destruct (z <? 0); lia.
Qed.

Lemma directive_emit fmt args o e :
  directive fmt args o e = (λ x, (x.1, emit e x.2 o)) <$> directive_text fmt args.
Proof.
  unfold directive, directive_text. destruct (parse_flags fmt 0) as [fmt1 flags].
  destruct (parse_width fmt1 args flags) as [[[[fmt2 args2] flags2] w]|] eqn:Ew; [|done].
  apply parse_width_range in Ew. rewrite !(obind_run _ _ _ eq_refl). cbv beta iota.
  destruct (parse_precision fmt2 args2) as [[[fmt3 args3] p]|] eqn:Ep; [|done].
  apply parse_precision_range in Ep. rewrite !(obind_run _ _ _ eq_refl). cbv beta iota.
  destruct (parse_qualifier fmt3) as [fmt4 q]. cbv zeta.
  assert (∀ base flags, (va_int args3 ≫= λ '(z, args), print_number o e (int_arg q flags z) base w p flags ≫=
      λ o, Some (tail fmt4, args, o)) = (λ x, (x.1, emit e x.2 o)) <$>
      (va_int args3 ≫= λ '(z, args), Some (tail fmt4, args, number_text (int_arg q flags z) base w p flags))) as Hnum.
  { intros base fl. destruct (va_int args3) as [[z r]|] eqn:Ez; [|done]. apply va_int_range in Ez.
    rewrite !(obind_run _ _ _ eq_refl). cbv beta iota. by rewrite print_number_spec by (apply i32_range || lia). }
  destruct (chr fmt4 =? 99).
  { destruct (va_int args3) as [[z r]|]; [|done]. rewrite !(obind_run _ _ _ eq_refl). cbv beta iota.
    by rewrite print_char_run by lia. }
  destruct (chr fmt4 =? 115).
  { destruct (va_str args3) as [[z r]|]; [|done]. rewrite !(obind_run _ _ _ eq_refl). cbv beta iota.
    by rewrite print_string_run by lia. }
  destruct (chr fmt4 =? 112).
  { destruct (w =? -1); (destruct (va_int args3) as [[z r]|]; [|done]); rewrite !(obind_run _ _ _ eq_refl);
      cbv beta iota; by rewrite print_number_spec by (apply i32_range || lia). }
  destruct (chr fmt4 =? 37); [done|].
  repeat match goal with |- context [if ?b then _ else _] => destruct b; [apply Hnum|] end.
  by destruct fmt4.
Qed.

Lemma format_loop_text fuel fmt args o e :
  format_loop fuel fmt args o e = (λ t, emit e t o) <$> text_loop fuel fmt args.
Proof.
  revert fmt args o. induction fuel as [|fuel IH]; intros [|c fmt] args o; cbn; try done.
  destruct (negb (c =? 37)).
  - rewrite IH. by destruct (text_loop fuel fmt args).
  - rewrite directive_emit. destruct (directive_text fmt args) as [[[fmt' args'] t1]|]; [|done]. cbn.
    rewrite IH. destruct (text_loop fuel fmt' args'); [|done]. cbn. by rewrite emit_app.
Qed.

(** ** The format bounds the work *)

Lemma parse_flags_shorter fmt flags : (length (parse_flags fmt flags).1 ≤ length fmt)%nat.
Proof.
  revert flags. induction fmt as [|c fmt IH]; intros flags; cbn; [lia|].
  repeat case_match; try (etrans; [apply IH|lia]); cbn; lia.
Qed.

Lemma length_tail {A} (l : list A) : (length (tail l) ≤ length l)%nat.
Proof. destruct l; cbn; lia. Qed.

Lemma skip_atoi_shorter s : (length (skip_atoi s).2 ≤ length s)%nat.
Proof.
  unfold skip_atoi. generalize 0. induction s as [|c s IH]; intros i; cbn; [lia|].
  destruct (isdigit c); cbn; [etrans; [apply IH|lia]|lia].
Qed.

Lemma parse_width_shorter fmt args flags x :
  parse_width fmt args flags = Some x → (length x.1.1.1 ≤ length fmt)%nat.
Proof.
  unfold parse_width. pose proof (length_tail fmt). pose proof (skip_atoi_shorter fmt).
  destruct (isdigit _); [destruct (skip_atoi fmt); by intros [= <-]|].
  destruct (_ =? 42); [|by intros [= <-]]. destruct (va_int args) as [[z r]|]; cbn; [|done].
  destruct (z <? 0); by intros [= <-].
Qed.

Lemma parse_precision_shorter fmt args x :
  parse_precision fmt args = Some x → (length x.1.1 ≤ length fmt)%nat.
Proof.
  unfold parse_precision. pose proof (length_tail fmt). pose proof (length_tail (tail fmt)).
  pose proof (skip_atoi_shorter (tail fmt)).
  destruct (_ =? 46); [|by intros [= <-]]. cbv zeta.
  destruct (isdigit _); [destruct (skip_atoi (tail fmt)); cbn in *; intros [= <-]; cbn; lia|].
  destruct (_ =? 42); [|intros [= <-]; cbn; lia]. destruct (va_int args) as [[z r]|]; cbn; [|done].
  intros [= <-]. cbn. lia.
Qed.

Lemma directive_text_shorter fmt args x :
  directive_text fmt args = Some x → (length x.1.1 ≤ length fmt)%nat.
Proof.
  unfold directive_text. pose proof (parse_flags_shorter fmt 0) as H1.
  destruct (parse_flags fmt 0) as [fmt1 flags].
  destruct (parse_width fmt1 args flags) as [[[[fmt2 args2] flags2] w]|] eqn:Ew; [|done].
  apply parse_width_shorter in Ew. cbn -[Z.lor] in *.
  destruct (parse_precision fmt2 args2) as [[[fmt3 args3] p]|] eqn:Ep; [|done].
  apply parse_precision_shorter in Ep. cbn -[Z.lor] in *.
  assert (length (parse_qualifier fmt3).1 ≤ length fmt3)%nat as H4.
  { unfold parse_qualifier. pose proof (length_tail fmt3). by destruct (_ || _). }
  destruct (parse_qualifier fmt3) as [fmt4 q]. cbn [fst] in H4. pose proof (length_tail fmt4).
  destruct (va_int args3) as [[? ?]|], (va_str args3) as [[? ?]|]; cbn [mbind option_bind]; cbv zeta;
    repeat case_match; intros [= <-]; cbn [fst length] in *; lia.
Qed.

(** More steps than the format has characters change nothing. *)
Lemma text_loop_fuel fuel fmt args :
  (length fmt ≤ fuel)%nat → text_loop fuel fmt args = text_loop (length fmt) fmt args.
Proof.
  assert (∀ f1 f2 fmt args, (length fmt ≤ f1)%nat → (length fmt ≤ f2)%nat →
    text_loop f1 fmt args = text_loop f2 fmt args) as H; [|intros; by apply H].
  clear. induction f1 as [|f1 IH]; intros f2 [|c fmt] args H1 H2; cbn in H1, H2; try (by destruct f2); [lia|].
  destruct f2 as [|f2]; [lia|]. cbn. destruct (negb _); [by rewrite (IH f2) by lia|].
  destruct (directive_text fmt args) as [[[fmt' args'] t]|] eqn:E; [|done].
  apply directive_text_shorter in E. cbn in *. by rewrite (IH f2) by lia.
Qed.

(** * [rt_vsnprintf] *)

(** The length and the contents of the buffer. With a size of 0 nothing is written. *)
Lemma vsnprintf_run m buf size fmt args t :
  0 ≤ buf → 0 ≤ size → buf + size < 2 ^ 32 → format_text fmt args = Some t →
  buf + Z.of_nat (length t) < 2 ^ 32 → Z.of_nat (length t) < 2 ^ 31 →
  let n := Z.min (Z.of_nat (length t)) (size - 1) in
  ∃ m', rt_vsnprintf m buf size fmt args = Some (m', Z.of_nat (length t)) ∧
    ∀ i, m' i = if (buf <=? i) && (i <? buf + n) then default 0 (t !! Z.to_nat (i - buf)) mod 256
                else if (i =? buf + n) && (0 <? size) then 0 else m i.
Proof.
  intros Hb Hs He Ht Hw Hl n. unfold rt_vsnprintf. rewrite (wrap_small 32 (buf + size)) by lia.
  rewrite (proj2 (Z.ltb_ge _ buf)) by lia. rewrite format_loop_text. unfold format_text in Ht. rewrite Ht. cbn [fmap option_fmap option_map].
  rewrite (surjective_pairing (emit _ _ _)), (obind_run _ _ _ eq_refl). cbv beta iota zeta.
  rewrite emit_position by (cbn; lia). cbn [snd]. rewrite (wrap_small 32 (buf + Z.of_nat (length t))) by lia.
  eexists. split; [replace (buf + Z.of_nat (length t) - buf) with (Z.of_nat (length t)) by lia; by rewrite swrap_small by lia|].
  intros i. destruct (Z.ltb_spec 0 size) as [Hp|Hz].
  - assert ((if buf + Z.of_nat (length t) <? buf + size then buf + Z.of_nat (length t) else buf + size - 1) = buf + n) as ->
      by (unfold n; zcases; lia).
    rewrite andb_true_r. destruct (Z.eqb_spec i (buf + n)) as [->|Hi].
    + rewrite store_inside by lia. rewrite Z.sub_diag. ranges; [lia|done..].
    + rewrite store_outside by lia. rewrite emit_memory by (cbn; lia). cbn [fst snd]. unfold n in *. ranges; lia || done.
  - rewrite andb_false_r, emit_memory by (cbn; lia). cbn [fst snd]. unfold n in *. ranges; lia || done.
Qed.

(** A format that asks for an argument which is not there. *)
Lemma vsnprintf_undefined m buf size fmt args :
  format_text fmt args = None → rt_vsnprintf m buf size fmt args = None.
Proof.
  intros Ht. unfold rt_vsnprintf. destruct (if _ <? buf then _ else _). rewrite format_loop_text.
  unfold format_text in Ht. by rewrite Ht.
Qed.

Lemma kprintf_undefined fmt args : format_text fmt args = None → rt_kprintf fmt args = None.
Proof. intros Ht. unfold rt_kprintf. by rewrite vsnprintf_undefined. Qed.

(** Printing returns whenever the arguments are there. *)
Lemma kprintf_returns fmt args t : format_text fmt args = Some t → is_Some (rt_kprintf fmt args).
Proof.
  intros Ht. unfold rt_kprintf, rt_vsnprintf. destruct (if _ <? rt_log_buf then _ else _) as [e size]. rewrite format_loop_text.
  unfold format_text in Ht. rewrite Ht. cbn [fmap option_fmap option_map]. destruct (emit e t _). by eexists.
Qed.

(** The text on the console: at most 126 characters, and a NUL when it was cut. *)
Definition console_text (t : list Z) : list Z :=
  if (length t <=? 126)%nat then (λ c, c mod 256) <$> t else ((λ c, c mod 256) <$> take 126 t) ++ [0].

Lemma kprintf_run fmt args t :
  format_text fmt args = Some t → Z.of_nat (length t) < 2 ^ 31 → rt_kprintf fmt args = Some (console_text t).
Proof.
  intros Ht Hlt. unfold rt_kprintf.
  destruct (vsnprintf_run (λ _, 0) rt_log_buf (RT_CONSOLEBUF_SIZE - 1) fmt args t) as (m & -> & Hm);
    [done|done|done|done|unfold rt_log_buf; lia|done|]. cbn [mbind option_bind]. rewrite (wrap_small 32) by lia. f_equal.
  change (RT_CONSOLEBUF_SIZE - 1) with 127 in *. change (127 - 1) with 126 in Hm. change (0 <? 127) with true in Hm.
  set (len := if 127 <? Z.of_nat (length t) then 127 else Z.of_nat (length t)).
  assert (0 ≤ len) as Hl by (unfold len; zcases; lia).
  assert (length (console_text t) = Z.to_nat len) as Hc.
  { unfold console_text, len. destruct (Nat.leb_spec (length t) 126); [rewrite length_fmap; zcases; lia|
      rewrite length_app, length_fmap, length_take; change (length [0]) with 1%nat; zcases; lia]. }
  apply list_eq_same_length with (n := Z.to_nat len); [done|by rewrite length_fmap, length_seqZ|].
  intros i x y Hi Hx Hy. rewrite list_lookup_fmap, lookup_seqZ_lt in Hx by lia. cbn in Hx. injection Hx as <-.
  rewrite Hm. replace (rt_log_buf + Z.of_nat i - rt_log_buf) with (Z.of_nat i) by lia. rewrite Nat2Z.id.
  unfold console_text in Hy. unfold len in Hi.
  destruct (Nat.leb_spec (length t) 126).
  - rewrite list_lookup_fmap in Hy. destruct (t !! i) as [c|] eqn:Ec; [|done]. injection Hy as <-.
    apply lookup_lt_Some in Ec. ranges; lia || done.
  - destruct (decide (i < 126)%nat).
    + rewrite lookup_app_l in Hy by (rewrite length_fmap, length_take; lia).
      rewrite list_lookup_fmap, lookup_take_lt in Hy by lia. destruct (t !! i) as [c|] eqn:Ec; [|done]. injection Hy as <-.
      ranges; lia || done.
    + assert (i = 126%nat) as -> by (revert Hi; zcases; lia).
      rewrite lookup_app_r in Hy by (rewrite length_fmap, length_take; lia).
      rewrite length_fmap, length_take in Hy. replace (126 - 126 `min` length t)%nat with 0%nat in Hy by lia.
      injection Hy as <-. ranges; try lia. rewrite (proj2 (Z.eqb_eq _ _)) by lia. done.
Qed.

(** C40: [rt_vsnprintf] with a buffer of any size, also 0, that does not reach the end of the
    address space, for a text that neither makes the output address wrap around nor has 2^31
    characters: it answers the length of the full text, writes as much of it as fits with a
    terminating NUL into the buffer (nothing for the size 0) and touches no byte outside the
    buffer. *)
Theorem rt_vsnprintf_spec m buf size fmt args t :
  0 ≤ buf → 0 ≤ size → buf + size < 2 ^ 32 → format_text fmt args = Some t →
  buf + Z.of_nat (length t) < 2 ^ 32 → Z.of_nat (length t) < 2 ^ 31 →
  let n := Z.min (Z.of_nat (length t)) (size - 1) in
  ∃ m', rt_vsnprintf m buf size fmt args = Some (m', Z.of_nat (length t)) ∧
    ∀ i, m' i = if (buf <=? i) && (i <? buf + n) then default 0 (t !! Z.to_nat (i - buf)) mod 256
                else if (i =? buf + n) && (0 <? size) then 0 else m i.
Proof. apply vsnprintf_run. Qed.

(** At the end of the address space the output address wraps around to 0, which is in
    front of the end of the buffer again: the rest of the text is written there. *)
Theorem vsnprintf_wraps :
  (λ x, (map x.1 [2 ^ 32 - 2; 2 ^ 32 - 1; 0; 1; 2], x.2)) <$> rt_vsnprintf (λ _, 7) (2 ^ 32 - 2) 1 [97; 98; 99] []
  = Some ([97; 7; 99; 0; 7], 3).
Proof. vm_compute. reflexivity. Qed.

(** A precision of 0 does not limit a string. *)
Theorem string_precision_zero : format_text [37; 46; 48; 115] [VStr (Some [97; 98])] = Some [97; 98].
Proof. reflexivity. Qed.

Lemma rt_vsnprintf_spec_witness :
  let t := [120; 61; 45; 55; 44; 97; 98; 32; 32; 124] in
  let n := Z.min (Z.of_nat (length t)) (8 - 1) in
  ∃ m', rt_vsnprintf (λ _, 1) 1000 8 [120;61;37;100;44;37;45;52;115;124] [VInt (-7); VStr (Some [97; 98])]
        = Some (m', Z.of_nat (length t)) ∧
    ∀ i, m' i = if (1000 <=? i) && (i <? 1000 + n) then default 0 (t !! Z.to_nat (i - 1000)) mod 256
                else if (i =? 1000 + n) && (0 <? 8) then 0 else 1.
Proof. apply (rt_vsnprintf_spec (λ _, 1)); [lia|lia|lia|vm_compute; reflexivity|cbn; lia|cbn; lia]. Defined.
