(* ===== verification/Serial.v ===== *)
(** The receive side of the serial driver framework, components/drivers/serial/serial.c:
    the software FIFO between the receive interrupt (or the DMA controller) and the
    reading thread, and polled input and output. The FIFO is seen as the sequence
    [contents] of the bytes received and not yet read. *)

From Stdlib Require Import ZArith Lia.
From stdpp Require Import base numbers option.
From stdpp Require Import list.
From S2P Require Import Prelude.
Local Open Scope Z_scope.

(** * Operations *)

(** [struct rt_serial_rx_fifo] *)
Record rt_serial_rx_fifo := mk_fifo {
  rf_buffer : list Z;
  rf_put_index : Z;
  rf_get_index : Z;
  rf_is_full : bool
}.

(** Reading and writing [buffer[i]]; outside the buffer is undefined. *)
Definition buf_at (f : rt_serial_rx_fifo) (i : Z) : option Z := rf_buffer f !! Z.to_nat i.

(** The body of the loop of [_serial_int_rx] with interrupts disabled; [None] is the
    break on an empty FIFO. *)
Definition fifo_getc (bufsz : Z) (f : rt_serial_rx_fifo) : option (option (Z * rt_serial_rx_fifo)) :=
  if (rf_get_index f =? rf_put_index f) && negb (rf_is_full f) then Some None
  else
    ch ← buf_at f (rf_get_index f);
    let get := u16 (rf_get_index f + 1) in
    let get := if bufsz <=? get then 0 else get in
    Some (Some (Z.land ch 0xff, mk_fifo (rf_buffer f) (rf_put_index f) get false)).

(** The bytes stored at [data]; their number is the result. *)
Fixpoint _serial_int_rx (bufsz : Z) (length : nat) (f : rt_serial_rx_fifo) : option (list Z * rt_serial_rx_fifo) :=
  match length with
  | O => Some ([], f)
  | S length' =>
      r ← fifo_getc bufsz f;
      match r with
      | None => Some ([], f)
      | Some (ch, f) => '(data, f) ← _serial_int_rx bufsz length' f; Some (ch :: data, f)
      end
  end.

(** The body of the receive loop of [rt_hw_serial_isr]. *)
Definition fifo_putc (bufsz ch : Z) (f : rt_serial_rx_fifo) : option rt_serial_rx_fifo :=
  _ ← buf_at f (rf_put_index f);
  let buffer := <[Z.to_nat (rf_put_index f) := u8 ch]> (rf_buffer f) in
  let put := u16 (rf_put_index f + 1) in
  let put := if bufsz <=? put then 0 else put in
  if put =? rf_get_index f then
    let get := u16 (rf_get_index f + 1) in
    Some (mk_fifo buffer put (if bufsz <=? get then 0 else get) true)
  else Some (mk_fifo buffer put (rf_get_index f) (rf_is_full f)).

Definition _serial_fifo_calc_recved_len (bufsz : Z) (f : rt_serial_rx_fifo) : Z :=
  if rf_put_index f =? rf_get_index f then (if rf_is_full f then bufsz else 0)
  else if rf_get_index f <? rf_put_index f then rf_put_index f - rf_get_index f
  else bufsz - (rf_get_index f - rf_put_index f).

Definition rt_dma_calc_recved_len := _serial_fifo_calc_recved_len.

Definition rt_dma_recv_update_get_index (bufsz len : Z) (f : rt_serial_rx_fifo) : option rt_serial_rx_fifo :=
  if len <=? rt_dma_calc_recved_len bufsz f then
    let full := if rf_is_full f && nz len then false else rf_is_full f in
    let get := u16 (rf_get_index f + len) in
    Some (mk_fifo (rf_buffer f) (rf_put_index f) (if bufsz <=? get then get mod bufsz else get) full)
  else None.

Definition rt_dma_recv_update_put_index (bufsz len : Z) (f : rt_serial_rx_fifo) : rt_serial_rx_fifo :=
  let put := u16 (rf_put_index f + len) in
  let '(put, full) :=
    if rf_get_index f <=? rf_put_index f then
      if bufsz <=? put then
        let put := put mod bufsz in (put, if rf_get_index f <=? put then true else rf_is_full f)
      else (put, rf_is_full f)
    else
      if rf_get_index f <=? put then ((if bufsz <=? put then put mod bufsz else put), true)
      else (put, rf_is_full f) in
  let get := if full then put else rf_get_index f in
  mk_fifo (rf_buffer f) put (if bufsz <=? get then 0 else get) full.

(** [rt_memcpy] out of the buffer. *)
Definition slice (f : rt_serial_rx_fifo) (off n : Z) : option (list Z) :=
  let l := take (Z.to_nat n) (drop (Z.to_nat off) (rf_buffer f)) in
  if Z.of_nat (length l) =? n then Some l else None.

(** [_serial_dma_rx] with a FIFO ([bufsz != 0]). *)
Definition _serial_dma_rx (bufsz length : Z) (f : rt_serial_rx_fifo) : option (list Z * rt_serial_rx_fifo) :=
  let fifo_recved_len := rt_dma_calc_recved_len bufsz f in
  let recv_len := if length <? fifo_recved_len then length else fifo_recved_len in
  let get := rf_get_index f in
  data ← (if get + recv_len <? bufsz then slice f get recv_len
          else d1 ← slice f get (bufsz - get); d2 ← slice f 0 (recv_len + get - bufsz); Some (d1 ++ d2));
  f ← rt_dma_recv_update_get_index bufsz recv_len f;
  Some (data, f).

(** ** With the hardware *)

Record serial_configure := mk_config {
  cf_baud_rate : Z;
  cf_data_bits : Z;
  cf_stop_bits : Z;
  cf_parity : Z;
  cf_bit_order : Z;
  cf_invert : Z;
  cf_bufsz : Z;
  cf_reserved : Z
}.

(** The operations of [struct rt_uart_ops] on the state [H] of the controller; a buffer is
    named by its address, a missing operation is [RT_NULL]. *)
Record rt_uart_ops (H : Type) := mk_uart_ops {
  u_configure : option (serial_configure → H → Z * H);
  u_control : Z → Z → H → Z * H;
  u_putc : Z → H → Z * H;
  u_getc : H → Z * H;
  u_dma_transmit : option (Z → Z → Z → H → Z * H)
}.
Arguments mk_uart_ops {H} _ _ _ _ _.
Arguments u_configure {H} _.
Arguments u_control {H} _ _ _ _.
Arguments u_putc {H} _ _ _.
Arguments u_getc {H} _ _.
Arguments u_dma_transmit {H} _.

Section uart.
Context {H : Type} (uart : rt_uart_ops H).

Fixpoint _serial_poll_rx (length : nat) (h : H) : list Z * H :=
  match length with
  | O => ([], h)
  | S length' =>
      let '(ch, h) := u_getc uart h in
      if ch =? -1 then ([], h)
      else if ch =? 10 then ([u8 ch], h)
      else let '(data, h) := _serial_poll_rx length' h in (u8 ch :: data, h)
  end.

(** [stream]: [open_flag & RT_DEVICE_FLAG_STREAM]. *)
Fixpoint _serial_poll_tx (stream : bool) (data : list Z) (h : H) : H :=
  match data with
  | [] => h
  | c :: data' =>
      let h := if (c =? 10) && stream then snd (u_putc uart 13 h) else h in
      _serial_poll_tx stream data' (snd (u_putc uart c h))
  end.

(** The loop of [rt_hw_serial_isr] for [RT_SERIAL_EVENT_RX_IND]. *)
Definition isr_rx_step (bufsz : Z) (x : rt_serial_rx_fifo * H)
  : (rt_serial_rx_fifo * H) + option (rt_serial_rx_fifo * H) :=
  let '(f, h) := x in
  let '(ch, h) := u_getc uart h in
  if ch =? -1 then inr (Some (f, h))
  else match fifo_putc bufsz ch f with Some f => inl (f, h) | None => inr None end.

(** [RT_SERIAL_EVENT_RX_IND]: the FIFO, the hardware, and the length the callback
    [rx_indicate] (if [indicate]) is called with, if it is called. *)
Definition rt_hw_serial_isr_rx (bufsz : Z) (indicate : bool) (f : rt_serial_rx_fifo) (h : H)
  : option (rt_serial_rx_fifo * H * option Z) :=
  r ← loop LIMIT (isr_rx_step bufsz) (f, h);
  '(f, h) ← r;
  if indicate then
    let rx_length :=
      if rf_get_index f <=? rf_put_index f then rf_put_index f - rf_get_index f
      else bufsz - (rf_get_index f - rf_put_index f) in
    Some (f, h, if nz rx_length then Some rx_length else None)
  else Some (f, h, None).
End uart.

(** [RT_SERIAL_EVENT_RX_DMADONE] with a FIFO: [event] carries the length. *)
Definition rt_hw_serial_isr_dma (bufsz event : Z) (indicate : bool) (f : rt_serial_rx_fifo)
  : rt_serial_rx_fifo * option Z :=
  let length := Z.shiftr (Z.land event (Z.lnot 0xff)) 8 in
  let f := rt_dma_recv_update_put_index bufsz length f in
  (f, if indicate then Some (rt_dma_calc_recved_len bufsz f) else None).

(** [rt_serial_open]: an empty FIFO over the cleared buffer [rt_malloc] returned. *)
Definition new_fifo (bufsz : Z) : rt_serial_rx_fifo :=
  mk_fifo (replicate (Z.to_nat bufsz) 0) 0 0 false.

(** * Circular windows *)

(** [len] bytes of a circular buffer of size [n] from index [g] on. *)
Definition win (m : Z → Z) (n g len : Z) : list Z := (λ i, m ((g + i) mod n)) <$> seqZ 0 len.

Lemma win_length m n g len : 0 ≤ len → Z.of_nat (length (win m n g len)) = len.
Proof. intros Hl. unfold win. rewrite length_fmap, length_seqZ. lia. Qed.

Lemma win_ext m m' n g g' len :
  0 < n → g mod n = g' mod n → (∀ i, 0 ≤ i < len → m' ((g + i) mod n) = m ((g + i) mod n)) →
  win m' n g' len = win m n g len.
Proof.
  intros Hn Hg Hm. unfold win. apply list_fmap_ext. intros k i Hi.
  apply lookup_seqZ in Hi as [-> Hk]. rewrite <- Hm by lia. f_equal.
  rewrite (Z.add_mod g'), (Z.add_mod g) by lia. by rewrite Hg.
Qed.

Lemma win_add m n g l1 l2 : 0 < n → 0 ≤ l1 → 0 ≤ l2 → win m n g (l1 + l2) = win m n g l1 ++ win m n (g + l1) l2.
Proof.
  intros Hn H1 H2. unfold win. rewrite seqZ_app by lia. rewrite fmap_app. f_equal.
  apply list_eq. intros i. rewrite !list_lookup_fmap.
  destruct (decide (Z.of_nat i < l2)).
  - rewrite !lookup_seqZ_lt by lia. cbn. do 3 f_equal. lia.
  - rewrite !lookup_seqZ_ge by lia. done.
Qed.

Lemma win_take m n g k len : 0 < n → 0 ≤ k ≤ len → take (Z.to_nat k) (win m n g len) = win m n g k.
Proof.
  intros Hn Hk. replace len with (k + (len - k)) by lia. rewrite win_add by lia.
  apply take_app_length'. pose proof (win_length m n g k). lia.
Qed.

Lemma win_drop m n g k len : 0 < n → 0 ≤ k ≤ len → drop (Z.to_nat k) (win m n g len) = win m n (g + k) (len - k).
Proof.
  intros Hn Hk. replace len with (k + (len - k)) at 1 by lia. rewrite win_add by lia.
  apply drop_app_length'. pose proof (win_length m n g k). lia.
Qed.

Lemma win_1 m n g : win m n g 1 = [m (g mod n)].
Proof. unfold win. change (seqZ 0 1) with [0]. cbn [fmap list_fmap]. by rewrite Z.add_0_r. Qed.

Lemma win_0 m n g : win m n g 0 = [].
Proof. done. Qed.

Lemma mod_shift_ne n p i : 0 < n → 0 < i < n → (p + i) mod n ≠ p mod n.
Proof.
  intros Hn Hi E. pose proof (Z.div_mod (p + i) n ltac:(lia)). pose proof (Z.div_mod p n ltac:(lia)).
  set (q1 := (p + i) `div` n) in *. set (q2 := p `div` n) in *. rewrite E in H. assert (i = n * (q1 - q2)) as Ei by lia. destruct (Z_le_gt_dec (q1 - q2) 0); nia.
Qed.

(** * The queue of received bytes *)

Definition fifo_at (f : rt_serial_rx_fifo) (i : Z) : Z := default 0 (rf_buffer f !! Z.to_nat i).

Definition contents (n : Z) (f : rt_serial_rx_fifo) : list Z :=
  win (fifo_at f) n (rf_get_index f) (_serial_fifo_calc_recved_len n f).

Record fifo_wf (n : Z) (f : rt_serial_rx_fifo) : Prop := {
  fw_size : 0 < n < 2 ^ 16;
  fw_buffer : Z.of_nat (length (rf_buffer f)) = n;
  fw_bytes : Forall (λ c, 0 ≤ c < 256) (rf_buffer f);
  fw_put : 0 ≤ rf_put_index f < n;
  fw_get : 0 ≤ rf_get_index f < n
}.

(** [index + 1] with the wrap the code writes. *)
Lemma next_index n i : 0 < n < 2 ^ 16 → 0 ≤ i < n → (if n <=? u16 (i + 1) then 0 else u16 (i + 1)) = (i + 1) mod n.
Proof.
  intros Hn Hi. rewrite (wrap_small 16) by lia. destruct (Z.leb_spec n (i + 1)).
  - replace (i + 1) with n by lia. by rewrite Z.mod_same by lia.
  - by rewrite Z.mod_small by lia.
Qed.

Lemma calc_len n f :
  fifo_wf n f → 0 ≤ _serial_fifo_calc_recved_len n f ≤ n ∧
    (rf_get_index f + _serial_fifo_calc_recved_len n f) mod n = rf_put_index f ∧
    (_serial_fifo_calc_recved_len n f = n ↔ rf_put_index f = rf_get_index f ∧ rf_is_full f = true).
Proof.
  intros [Hn _ _ Hp Hg]. unfold _serial_fifo_calc_recved_len.
  destruct (Z.eqb_spec (rf_put_index f) (rf_get_index f)) as [E|E].
  - destruct (rf_is_full f).
    + split_and!; [lia|lia| |done]. replace (rf_get_index f + n) with (rf_get_index f + 1 * n) by lia.
      rewrite Z.mod_add, Z.mod_small by lia. lia.
    + rewrite Z.add_0_r, Z.mod_small by lia. split_and!; [lia|lia|lia|]. split; [lia|]. by intros [_ ?].
  - destruct (Z.ltb_spec (rf_get_index f) (rf_put_index f)).
    + replace (rf_get_index f + (rf_put_index f - rf_get_index f)) with (rf_put_index f) by lia.
      rewrite Z.mod_small by lia. split_and!; [lia|lia|lia|]. split; [lia|]. by intros [? _].
    + replace (rf_get_index f + (n - (rf_get_index f - rf_put_index f))) with (rf_put_index f + 1 * n) by lia.
      rewrite Z.mod_add, Z.mod_small by lia. split_and!; [lia|lia|lia|]. split; [lia|]. by intros [? _].
Qed.

Lemma calc_len_eq n f L :
  fifo_wf n f → 0 ≤ L ≤ n → (rf_get_index f + L) mod n = rf_put_index f →
  (L = 0 → rf_is_full f = false) → (L = n → rf_is_full f = true) → _serial_fifo_calc_recved_len n f = L.
Proof.
  intros Hw HL E H0 H1. pose proof (calc_len n f Hw) as (Hr & E' & Hfull).
  set (C := _serial_fifo_calc_recved_len n f) in *. pose proof (fw_size _ _ Hw).
  destruct (decide (C = L)) as [|Hne]; [done|exfalso].
  pose proof (Z.div_mod (rf_get_index f + C) n ltac:(lia)) as D1. pose proof (Z.div_mod (rf_get_index f + L) n ltac:(lia)) as D2.
  rewrite E' in D1. rewrite E in D2. set (q1 := (rf_get_index f + C) `div` n) in *. set (q2 := (rf_get_index f + L) `div` n) in *.
  assert (C - L = n * (q1 - q2)) as Ed by lia. set (d := q1 - q2) in *.
  assert ((C = n ∧ L = 0) ∨ (C = 0 ∧ L = n)) as [[Ec El]|[Ec El]].
  { assert (-1 ≤ d ≤ 1) as Hd by nia. assert (d = -1 ∨ d = 0 ∨ d = 1) as [Hd'|[Hd'|Hd']] by lia; rewrite Hd' in Ed; lia. }
  - destruct Hfull as [Hf _]. destruct (Hf Ec) as [_ Ht]. rewrite H0 in Ht by done. done.
  - assert (C = n); [|lia]. apply Hfull. split; [|by apply H1].
    rewrite <- E'. rewrite Ec, Z.add_0_r. apply Z.mod_small, Hw.
Qed.

Lemma length_fifo_contents n f : fifo_wf n f → Z.of_nat (length (contents n f)) = _serial_fifo_calc_recved_len n f.
Proof. intros Hw. apply win_length, calc_len. done. Qed.

Lemma buf_at_some n f i : fifo_wf n f → 0 ≤ i < n → buf_at f i = Some (fifo_at f i) ∧ 0 ≤ fifo_at f i < 256.
Proof.
  intros Hw Hi. unfold buf_at, fifo_at. pose proof (fw_buffer _ _ Hw).
  destruct (rf_buffer f !! Z.to_nat i) as [c|] eqn:E; [|apply lookup_ge_None in E; lia].
  split; [done|]. exact (proj1 (Forall_lookup _ _) (fw_bytes _ _ Hw) _ _ E).
Qed.

(** ** Reading *)

Lemma fifo_getc_run n f :
  fifo_wf n f →
  match contents n f with
  | [] => fifo_getc n f = Some None
  | c :: rest => ∃ f', fifo_getc n f = Some (Some (c, f')) ∧ fifo_wf n f' ∧ contents n f' = rest ∧ rf_is_full f' = false
  end.
Proof.
  intros Hw. pose proof (length_fifo_contents n f Hw) as Hl. pose proof (calc_len n f Hw) as (Hr & E & Hf).
  pose proof (fw_size _ _ Hw) as Hn. unfold fifo_getc. destruct (contents n f) as [|c rest] eqn:Hc.
  - cbn in Hl. rewrite <- Hl in E, Hf. rewrite Z.add_0_r, Z.mod_small in E by apply Hw.
    rewrite E, Z.eqb_refl. destruct (rf_is_full f); [|done]. destruct Hf as [_ Hf].
    assert (0 = n); [|lia]. by apply Hf.
  - assert (0 < _serial_fifo_calc_recved_len n f) as Hpos by (cbn in Hl; lia).
    assert ((rf_get_index f =? rf_put_index f) && negb (rf_is_full f) = false) as ->.
    { apply andb_false_iff. destruct (Z.eqb_spec (rf_get_index f) (rf_put_index f)) as [Eg|]; [right|by left].
      destruct (rf_is_full f) eqn:Ef; [done|]. unfold _serial_fifo_calc_recved_len in Hpos.
      rewrite Eg, Z.eqb_refl, Ef in Hpos. lia. }
    destruct (buf_at_some n f (rf_get_index f) Hw (fw_get _ _ Hw)) as [-> Hb]. cbn [mbind option_bind].
    rewrite next_index by (done || apply Hw).
    set (L := _serial_fifo_calc_recved_len n f) in *.
    set (f' := mk_fifo (rf_buffer f) (rf_put_index f) ((rf_get_index f + 1) mod n) false).
    assert (fifo_wf n f') as Hw'.
    { split; try apply Hw. apply Z.mod_pos_bound. lia. }
    assert (_serial_fifo_calc_recved_len n f' = L - 1) as EL.
    { apply calc_len_eq; [done|lia| |done|lia]. cbn. rewrite Zplus_mod_idemp_l.
      replace (rf_get_index f + 1 + (L - 1)) with (rf_get_index f + L) by lia. done. }
    unfold contents in Hc. fold L in Hc. replace L with (1 + (L - 1)) in Hc by lia.
    rewrite win_add, win_1 in Hc by lia. rewrite Z.mod_small in Hc by apply Hw. injection Hc as <- <-.
    exists f'. split_and!; [|done| |done].
    + change 255 with (Z.ones 8). rewrite Z.land_ones by lia. by rewrite Z.mod_small by lia.
    + unfold contents. rewrite EL. apply win_ext; [lia| |done]. cbn. by rewrite Z.mod_mod by lia.
Qed.

Lemma int_rx_run n len f :
  fifo_wf n f →
  ∃ f', _serial_int_rx n len f = Some (take len (contents n f), f') ∧ fifo_wf n f' ∧
    contents n f' = drop len (contents n f) ∧ (rf_is_full f = false → rf_is_full f' = false).
Proof.
  revert f. induction len as [|len IH]; intros f Hw; [by exists f|]. cbn [_serial_int_rx].
  pose proof (fifo_getc_run n f Hw) as Hg. destruct (contents n f) as [|c rest] eqn:Hc.
  - rewrite Hg. cbn. exists f. by rewrite Hc.
  - destruct Hg as (f1 & -> & Hw1 & Hc1 & Hf1). cbn [mbind option_bind].
    destruct (IH f1 Hw1) as (f' & -> & Hw' & Hc' & Hf'). rewrite Hc1 in *. cbn. exists f'. auto.
Qed.

(** ** Receiving a byte *)

(** The last [k] elements of a list. *)
Definition last_n (k : Z) (l : list Z) : list Z := drop (length l - Z.to_nat k) l.

(** In interrupt mode one slot stays empty: the full mark is set without a full buffer. *)
Definition int_wf (n : Z) (f : rt_serial_rx_fifo) : Prop :=
  fifo_wf n f ∧ 2 ≤ n ∧ (rf_put_index f = rf_get_index f → rf_is_full f = false).

Lemma last_n_short k l : Z.of_nat (length l) ≤ k → last_n k l = l.
Proof. intros H. unfold last_n. by replace (length l - Z.to_nat k)%nat with 0%nat by lia. Qed.

Lemma last_n_app k l1 l2 : 0 ≤ k → last_n k (last_n k l1 ++ l2) = last_n k (l1 ++ l2).
Proof.
  intros Hk. unfold last_n. rewrite !length_app, length_drop.
  destruct (decide (length l1 ≤ Z.to_nat k)%nat).
  - replace (length l1 - Z.to_nat k)%nat with 0%nat by lia. rewrite drop_0. f_equal. lia.
  - rewrite <- drop_app_le by lia. rewrite drop_drop. f_equal. lia.
Qed.

Lemma fifo_at_store n f put i c :
  fifo_wf n f → 0 ≤ put < n → 0 ≤ i < n →
  default 0 (<[Z.to_nat put := c]> (rf_buffer f) !! Z.to_nat i) = if i =? put then c else fifo_at f i.
Proof.
  intros Hw Hp Hi. pose proof (fw_buffer _ _ Hw). destruct (Z.eqb_spec i put) as [->|Hne].
  - by rewrite list_lookup_insert_eq by lia.
  - by rewrite list_lookup_insert_ne by lia.
Qed.

Lemma fifo_putc_run n f ch :
  int_wf n f → 0 ≤ ch < 256 →
  ∃ f', fifo_putc n ch f = Some f' ∧ int_wf n f' ∧ contents n f' = last_n (n - 1) (contents n f ++ [ch]).
Proof.
  intros (Hw & Hn2 & Hnf) Hch. pose proof (fw_size _ _ Hw) as Hn. pose proof (calc_len n f Hw) as (Hr & E & Hf).
  unfold fifo_putc. destruct (buf_at_some n f (rf_put_index f) Hw (fw_put _ _ Hw)) as [-> _]. cbn [mbind option_bind].
  rewrite !next_index by (done || apply Hw). rewrite (wrap_small 8) by lia.
  set (L := _serial_fifo_calc_recved_len n f) in *. set (b := <[Z.to_nat (rf_put_index f) := ch]> (rf_buffer f)).
  assert (L < n) as HL.
  { assert (L ≠ n); [|lia]. intros [E1 E2]%Hf. rewrite Hnf in E2 by done. done. }
  assert (∀ put get full, 0 ≤ put < n → 0 ≤ get < n → fifo_wf n (mk_fifo b put get full)) as Hwf.
  { intros put get full ? ?. split; cbn; [done| | |done|done].
    - unfold b. rewrite length_insert. apply Hw.
    - unfold b. apply Forall_insert; [apply Hw|done]. }
  pose proof (Z.mod_pos_bound (rf_put_index f + 1) n ltac:(lia)) as Hp1.
  pose proof (Z.mod_pos_bound (rf_get_index f + 1) n ltac:(lia)) as Hg1.
  assert (win (fifo_at (mk_fifo b 0 0 false)) n (rf_get_index f) (L + 1) = contents n f ++ [ch]) as Happ.
  { rewrite win_add, win_1, E by lia. f_equal.
    - unfold contents. fold L. apply win_ext; [lia|done|]. intros i Hi. unfold fifo_at at 1. cbn [rf_buffer].
      unfold b. rewrite (fifo_at_store n) by (done || apply Hw || apply Z.mod_pos_bound; lia).
      rewrite (proj2 (Z.eqb_neq _ _)); [done|]. rewrite <- E. replace (rf_get_index f + L) with (rf_get_index f + i + (L - i)) by lia.
      apply not_eq_sym, mod_shift_ne; lia.
    - unfold fifo_at. cbn [rf_buffer]. unfold b. rewrite (fifo_at_store n) by (done || apply Hw). by rewrite Z.eqb_refl. }
  assert ((rf_put_index f + 1) mod n = (rf_get_index f + (L + 1)) mod n) as Ep.
  { rewrite <- E, Zplus_mod_idemp_l. f_equal. lia. }
  pose proof (length_fifo_contents n f Hw) as Hlen. fold L in Hlen.
  destruct (Z.eqb_spec ((rf_put_index f + 1) mod n) (rf_get_index f)) as [Eg|Eg].
  - assert (L = n - 1) as EL.
    { destruct (Z.eq_dec (L + 1) n) as [|Hne]; [lia|]. exfalso. rewrite Ep in Eg.
      apply (mod_shift_ne n (rf_get_index f) (L + 1)); [lia|lia|]. rewrite Eg. symmetry. apply Z.mod_small, Hw. }
    eexists. split; [reflexivity|]. set (f' := mk_fifo b _ _ true).
    assert (fifo_wf n f') as Hw' by (by apply Hwf).
    assert (_serial_fifo_calc_recved_len n f' = n - 1) as EL'.
    { apply calc_len_eq; [done|lia| |lia|lia]. cbn. rewrite Zplus_mod_idemp_l.
      replace (rf_get_index f + 1 + (n - 1)) with (rf_get_index f + 1 * n) by lia.
      rewrite Z.mod_add, Z.mod_small by (lia || apply Hw). by rewrite Eg. }
    split; [split_and!; [done|done|]|].
    + intros E1. exfalso. pose proof (calc_len n f' Hw') as (_ & _ & Hf'). rewrite EL' in Hf'.
      assert (n - 1 = n); [|lia]. by apply Hf'.
    + unfold contents at 1. rewrite EL'. unfold last_n. rewrite <- Happ, EL. replace (n - 1 + 1) with (1 + (n - 1)) by lia.
      rewrite win_add, win_1 by lia. rewrite length_app. cbn [length].
      replace (1 + length (win _ n (rf_get_index f + 1) (n - 1)) - Z.to_nat (n - 1))%nat with 1%nat.
      * cbn [app drop]. apply win_ext; [lia| |done]. cbn. by rewrite Z.mod_mod by lia.
      * pose proof (win_length (fifo_at (mk_fifo b 0 0 false)) n (rf_get_index f + 1) (n - 1) ltac:(lia)). lia.
  - assert (L + 1 < n) as HL1.
    { destruct (Z.eq_dec (L + 1) n) as [El|]; [|lia]. exfalso. apply Eg. rewrite Ep, El.
      replace (rf_get_index f + n) with (rf_get_index f + 1 * n) by lia. rewrite Z.mod_add, Z.mod_small by (lia || apply Hw). done. }
    eexists. split; [reflexivity|]. set (f' := mk_fifo b _ _ _).
    assert (fifo_wf n f') as Hw' by (apply Hwf; [done|apply Hw]).
    split; [split_and!; [done|done|by intros ?]|].
    assert (_serial_fifo_calc_recved_len n f' = L + 1) as EL' by (apply calc_len_eq; [done|lia|by cbn; rewrite Ep|lia|lia]).
    rewrite last_n_short by (rewrite length_app; cbn; lia). unfold contents at 1. rewrite EL'. exact Happ.
Qed.

(** ** The receive interrupt *)

Section isr.
Context {H : Type} (uart : rt_uart_ops H).

(** [getc] delivers the bytes [cs] and then reports that nothing is left. *)
Inductive drains : H → list Z → H → Prop :=
| drains_nil h h' : u_getc uart h = (-1, h') → drains h [] h'
| drains_cons h c h1 cs h' : u_getc uart h = (c, h1) → 0 ≤ c < 256 → drains h1 cs h' → drains h (c :: cs) h'.

Lemma isr_rx_iter n h cs h' f :
  drains h cs h' → int_wf n f →
  ∃ f', iter_nat (S (length cs)) (isr_rx_step uart n) (f, h) = inr (Some (f', h')) ∧ int_wf n f' ∧
    contents n f' = last_n (n - 1) (contents n f ++ cs).
Proof.
  intros Hd. revert f. induction Hd as [h h' Hg|h c h1 cs h' Hg Hc Hd IH]; intros f Hw.
  - exists f. cbn. rewrite Hg. cbn. split_and!; [done|done|]. rewrite app_nil_r. symmetry. apply last_n_short.
    destruct Hw as (Hw & Hn & Hnf). rewrite (length_fifo_contents n f Hw).
    pose proof (calc_len n f Hw) as (Hr & _ & Hf). assert (_serial_fifo_calc_recved_len n f ≠ n); [|lia].
    intros [E1 E2]%Hf. rewrite Hnf in E2 by done. done.
  - destruct (fifo_putc_run n f c Hw Hc) as (f1 & Hp & Hw1 & Hc1). destruct (IH f1 Hw1) as (f' & Hi & Hw' & Hc').
    exists f'. cbn [length]. remember (S (length cs)) as k. cbn [iter_nat]. unfold isr_rx_step at 1. rewrite Hg.
    rewrite (proj2 (Z.eqb_neq c (-1))), Hp by lia. cbn [sbind]. split_and!; [done|done|].
    rewrite Hc', Hc1, last_n_app by (destruct Hw as (Hw & ? & _); lia). by rewrite <- (assoc_L (++)).
Qed.

(** The length handed to the callback is the number of bytes waiting. *)
Lemma isr_length n f :
  int_wf n f → (if rf_get_index f <=? rf_put_index f then rf_put_index f - rf_get_index f
                else n - (rf_get_index f - rf_put_index f)) = Z.of_nat (length (contents n f)).
Proof.
  intros (Hw & Hn & Hnf). rewrite length_fifo_contents by done. unfold _serial_fifo_calc_recved_len.
  destruct (Z.eqb_spec (rf_put_index f) (rf_get_index f)) as [E|E].
  - rewrite (Hnf E). rewrite (proj2 (Z.leb_le _ _)) by lia. lia.
  - destruct (Z.leb_spec (rf_get_index f) (rf_put_index f)), (Z.ltb_spec (rf_get_index f) (rf_put_index f)); lia.
Qed.
End isr.

(** * Properties *)

(** The receive interrupt refines a bounded queue that drops its oldest bytes: it
    takes everything the controller holds, in order, and what is waiting afterwards are the
    last [bufsz - 1] bytes of what waited before and what arrived; the callback is told
    how many, and is not called for an empty queue. *)
Theorem rt_hw_serial_isr_rx_spec {H} (uart : rt_uart_ops H) n f h cs h' indicate :
  int_wf n f → drains uart h cs h' → Z.of_nat (length cs) < 2 ^ 32 →
  ∃ f', rt_hw_serial_isr_rx uart n indicate f h
      = Some (f', h', if indicate && nz (Z.of_nat (length (contents n f'))) then Some (Z.of_nat (length (contents n f'))) else None) ∧
    int_wf n f' ∧ contents n f' = last_n (n - 1) (contents n f ++ cs).
Proof.
  intros Hw Hd Hlen. destruct (isr_rx_iter uart n h cs h' f Hd Hw) as (f' & Hi & Hw' & Hc').
  exists f'. split_and!; [|done|done]. unfold rt_hw_serial_isr_rx.
  rewrite (loop_iter _ LIMIT _ _ _ Hi) by (unfold LIMIT; lia). cbn [mbind option_bind].
  destruct indicate; [|done]. by rewrite (isr_length n f' Hw').
Qed.

(** A read in interrupt mode returns the oldest waiting bytes, at most as many as asked
    for, and leaves the others. *)
Theorem _serial_int_rx_spec n len f :
  int_wf n f →
  ∃ f', _serial_int_rx n len f = Some (take len (contents n f), f') ∧ int_wf n f' ∧
    contents n f' = drop len (contents n f).
Proof.
  intros (Hw & Hn & Hnf). destruct (int_rx_run n len f Hw) as (f' & Hr & Hw' & Hc & _).
  exists f'. split_and!; [done| |done]. split_and!; [done|done|].
  intros E. destruct (rf_is_full f') eqn:Ef; [|done]. exfalso.
  pose proof (calc_len n f Hw) as (Hr0 & _ & Hf). pose proof (calc_len n f' Hw') as (_ & _ & Hf').
  assert (_serial_fifo_calc_recved_len n f' = n) as E' by (by apply Hf').
  rewrite <- (length_fifo_contents n f' Hw'), Hc, length_drop in E'. rewrite <- (length_fifo_contents n f Hw) in Hf, Hr0.
  assert (Z.of_nat (length (contents n f)) = n) as E1 by lia. apply Hf in E1 as [E1 E2]. rewrite Hnf in E2 by done. done.
Qed.

(** ** Direct memory access *)

(** In this mode the full mark stands for a buffer without a free slot. *)
Definition dma_wf (n : Z) (f : rt_serial_rx_fifo) : Prop :=
  fifo_wf n f ∧ n ≤ 2 ^ 15 ∧ (rf_is_full f = true → rf_put_index f = rf_get_index f).

(** The controller stored [new] behind the last byte, going around the buffer. *)
Record dma_stored (n : Z) (f : rt_serial_rx_fifo) (new : list Z) (f1 : rt_serial_rx_fifo) : Prop := {
  ds_wf : fifo_wf n f1;
  ds_put : rf_put_index f1 = rf_put_index f;
  ds_get : rf_get_index f1 = rf_get_index f;
  ds_full : rf_is_full f1 = rf_is_full f;
  ds_new : win (fifo_at f1) n (rf_put_index f) (Z.of_nat (length new)) = new;
  ds_old i : 0 ≤ i < n - Z.of_nat (length new) →
    fifo_at f1 ((rf_put_index f + Z.of_nat (length new) + i) mod n) =
    fifo_at f ((rf_put_index f + Z.of_nat (length new) + i) mod n)
}.

(** What [rt_dma_recv_update_put_index] computes. *)
Lemma update_put_index n f len :
  dma_wf n f → 0 ≤ len ≤ n →
  rt_dma_recv_update_put_index n len f =
    let put := (rf_put_index f + len) mod n in
    if n <=? _serial_fifo_calc_recved_len n f + len then mk_fifo (rf_buffer f) put put true
    else mk_fifo (rf_buffer f) put (rf_get_index f) false.
Proof.
  intros (Hw & Hn & Hfull) Hlen. pose proof (fw_size _ _ Hw). pose proof (fw_put _ _ Hw). pose proof (fw_get _ _ Hw).
  unfold rt_dma_recv_update_put_index. rewrite (wrap_small 16) by lia.
  set (p := rf_put_index f) in *. set (g := rf_get_index f) in *. set (L := _serial_fifo_calc_recved_len n f).
  assert ((p + len) mod n = if n <=? p + len then p + len - n else p + len) as Em.
  { destruct (Z.leb_spec n (p + len)); [|by rewrite Z.mod_small by lia].
    replace (p + len) with (p + len - n + 1 * n) at 1 by lia. rewrite Z.mod_add, Z.mod_small by lia. done. }
  assert (L = if p =? g then (if rf_is_full f then n else 0) else if g <? p then p - g else n - (g - p)) as EL by done.
  rewrite EL. cbv zeta. rewrite Em.
  destruct (rf_is_full f) eqn:Ef; [rewrite (Hfull eq_refl) in *; rewrite Z.eqb_refl|destruct (Z.eqb_spec p g)];
    repeat match goal with
    | |- context [?a <? ?b] => destruct (Z.ltb_spec a b); try lia
    | |- context [?a <=? ?b] => destruct (Z.leb_spec a b); try lia
    end; f_equal; lia.
Qed.

(** A DMA transfer refines the same queue with room for [bufsz] bytes: after the
    controller stored a transfer of at most the size of the buffer, the bytes waiting are
    the last [bufsz] of what waited before and what arrived. *)
Theorem rt_dma_recv_update_put_index_spec n f new f1 :
  dma_wf n f → Z.of_nat (length new) ≤ n → dma_stored n f new f1 →
  let f' := rt_dma_recv_update_put_index n (Z.of_nat (length new)) f1 in
  dma_wf n f' ∧ contents n f' = last_n n (contents n f ++ new).
Proof.
  intros (Hw & Hn & Hfull) Hlen [Hw1 Ep Eg Ef Hnew Hold]. set (len := Z.of_nat (length new)) in *. cbv zeta.
  pose proof (fw_size _ _ Hw). pose proof (calc_len n f Hw) as (Hr & E & _).
  assert (_serial_fifo_calc_recved_len n f1 = _serial_fifo_calc_recved_len n f) as EL
    by (unfold _serial_fifo_calc_recved_len; by rewrite Ep, Eg, Ef).
  set (L := _serial_fifo_calc_recved_len n f) in *.
  rewrite update_put_index by first [lia | split_and!; [done|done|by rewrite Ep, Eg, Ef]]. rewrite EL, Ep, Eg. cbv zeta.
  pose proof (Z.mod_pos_bound (rf_put_index f + len) n ltac:(lia)) as Hb.
  pose proof (length_fifo_contents n f Hw) as HlC. fold L in HlC.
  destruct (Z.leb_spec n (L + len)) as [Hge|Hlt].
  - set (f' := mk_fifo _ _ _ true). assert (fifo_wf n f') as Hw' by (split; cbn; try apply Hw1; done).
    split; [by split_and!|]. assert (_serial_fifo_calc_recved_len n f' = n) as EL'
      by (apply calc_len; [done|]; done).
    unfold contents at 1. rewrite EL'. unfold last_n. rewrite length_app, drop_app_le by lia.
    replace n with ((n - len) + len) at 2 by lia. rewrite win_add by lia. f_equal.
    + unfold contents. fold L. replace (length (win (fifo_at f) n (rf_get_index f) L) + length new - Z.to_nat n)%nat
        with (Z.to_nat (L + len - n)) by (pose proof (win_length (fifo_at f) n (rf_get_index f) L); lia).
      rewrite win_drop by lia. replace (L - (L + len - n)) with (n - len) by lia. cbn [rf_get_index f']. apply win_ext; [lia| |].
      * rewrite Z.mod_mod by lia. rewrite <- E, Zplus_mod_idemp_l.
        replace (rf_get_index f + L + len) with (rf_get_index f + (L + len - n) + 1 * n) by lia. by rewrite Z.mod_add by lia.
      * intros i Hi. replace (rf_get_index f + (L + len - n) + i) with (rf_get_index f + L + (len + i) + (-1) * n) by lia.
        rewrite Z.mod_add by lia. rewrite <- Zplus_mod_idemp_l, E, Z.add_assoc. by apply Hold.
    + rewrite <- Hnew. fold len. apply win_ext; [lia| |done]. cbn [rf_get_index f'].
      rewrite Zplus_mod_idemp_l. replace (rf_put_index f + len + (n - len)) with (rf_put_index f + 1 * n) by lia.
      by rewrite Z.mod_add by lia.
  - set (f' := mk_fifo _ _ _ false).
    assert (fifo_wf n f') as Hw' by (split; cbn; try apply Hw1; [done|rewrite <- Eg; apply Hw1]).
    split; [by split_and!|]. assert (_serial_fifo_calc_recved_len n f' = L + len) as EL'.
    { apply calc_len_eq; [done|lia| |done|lia]. cbn. rewrite Z.add_assoc, <- Zplus_mod_idemp_l, E. done. }
    rewrite last_n_short by (rewrite length_app; lia). unfold contents at 1. rewrite EL', win_add by lia. f_equal.
    + unfold contents. fold L. apply win_ext; [lia|done|]. intros i Hi. cbn [rf_get_index f'].
      replace (rf_get_index f + i) with (rf_get_index f + L + (len + (n - len - L + i)) + (-1) * n) by lia.
      rewrite Z.mod_add by lia. rewrite <- Zplus_mod_idemp_l, E, Z.add_assoc. apply Hold. lia.
    + rewrite <- Hnew. fold len. apply win_ext; [lia| |done]. cbn [rf_get_index f']. rewrite E. apply Z.mod_small, Hw.
Qed.

Lemma fifo_slice_run n f off k :
  fifo_wf n f → 0 ≤ off → 0 ≤ k → off + k ≤ n → slice f off k = Some (win (fifo_at f) n off k).
Proof.
  intros Hw Ho Hk Hb. pose proof (fw_buffer _ _ Hw) as Hl. pose proof (fw_size _ _ Hw). unfold slice.
  rewrite length_take, length_drop. rewrite (proj2 (Z.eqb_eq _ _)) by lia. f_equal.
  apply list_eq_same_length with (n := Z.to_nat k).
  - pose proof (win_length (fifo_at f) n off k Hk). lia.
  - rewrite length_take, length_drop. lia.
  - intros i x y Hi Hx Hy. rewrite lookup_take_lt, lookup_drop in Hx by lia.
    unfold win in Hy. rewrite list_lookup_fmap, lookup_seqZ_lt in Hy by lia. cbn in Hy. injection Hy as <-.
    rewrite Z.mod_small by lia. unfold fifo_at. replace (Z.to_nat (off + (0 + Z.of_nat i))) with (Z.to_nat off + i)%nat by lia.
    by rewrite Hx.
Qed.

(** A read in DMA mode, which copies in one or two pieces, returns the oldest waiting
    bytes, at most as many as asked for, and leaves the others. *)
Theorem _serial_dma_rx_spec n f len :
  dma_wf n f → 0 ≤ len →
  ∃ f', _serial_dma_rx n len f = Some (take (Z.to_nat len) (contents n f), f') ∧ dma_wf n f' ∧
    contents n f' = drop (Z.to_nat len) (contents n f).
Proof.
  intros (Hw & Hn & Hfull) Hlen. pose proof (fw_size _ _ Hw). pose proof (fw_get _ _ Hw) as Hg.
  pose proof (calc_len n f Hw) as (Hr & E & Hf). unfold _serial_dma_rx, rt_dma_calc_recved_len.
  set (L := _serial_fifo_calc_recved_len n f) in *. set (k := if len <? L then len else L).
  assert (0 ≤ k ≤ L ∧ k ≤ len) as Hk by (unfold k; destruct (Z.ltb_spec len L); lia).
  assert (len < L → k = len) as Hk1 by (intros; unfold k; by rewrite (proj2 (Z.ltb_lt _ _))).
  assert (L ≤ len → k = L) as Hk2 by (intros; unfold k; by rewrite (proj2 (Z.ltb_ge _ _))).
  assert ((if rf_get_index f + k <? n then slice f (rf_get_index f) k
          else d1 ← slice f (rf_get_index f) (n - rf_get_index f);
               d2 ← slice f 0 (k + rf_get_index f - n); Some (d1 ++ d2))
    = Some (win (fifo_at f) n (rf_get_index f) k)) as ->.
  { destruct (Z.ltb_spec (rf_get_index f + k) n); [apply fifo_slice_run; done || lia|].
    rewrite !(fifo_slice_run n) by (done || lia). cbn. f_equal.
    replace k with (n - rf_get_index f + (k + rf_get_index f - n)) at 2 by lia. rewrite win_add by lia. f_equal.
    apply win_ext; [lia| |done]. replace (rf_get_index f + (n - rf_get_index f)) with (0 + 1 * n) by lia. by rewrite Z.mod_add by lia. }
  cbn [mbind option_bind]. unfold rt_dma_recv_update_get_index, rt_dma_calc_recved_len. fold L.
  rewrite (proj2 (Z.leb_le k L)) by lia. cbn [mbind option_bind].
  assert ((if n <=? u16 (rf_get_index f + k) then u16 (rf_get_index f + k) mod n else u16 (rf_get_index f + k))
    = (rf_get_index f + k) mod n) as ->.
  { rewrite (wrap_small 16) by lia. destruct (Z.leb_spec n (rf_get_index f + k)); [done|]. by rewrite Z.mod_small by lia. }
  set (f' := mk_fifo _ _ _ _).
  assert (fifo_wf n f') as Hw' by (split; cbn; try apply Hw; apply Z.mod_pos_bound; lia).
  assert (_serial_fifo_calc_recved_len n f' = L - k) as EL.
  { apply calc_len_eq; [done|lia| | |]; cbn.
    - rewrite Zplus_mod_idemp_l. replace (rf_get_index f + k + (L - k)) with (rf_get_index f + L) by lia. done.
    - intros E0. destruct (rf_is_full f) eqn:Ef; [|done]. cbn. assert (L = n) as EL by (by apply Hf; auto).
      by rewrite (proj2 (nz_true k)) by lia.
    - intros E0. assert (k = 0) as -> by lia. rewrite andb_false_r. apply Hf. lia. }
  exists f'. split_and!.
  - do 2 f_equal. unfold contents. fold L. destruct (decide (len < L)).
    + by rewrite Hk1, win_take by lia.
    + rewrite Hk2 by lia. symmetry. apply take_ge. pose proof (win_length (fifo_at f) n (rf_get_index f) L). lia.
  - split_and!; [done|done|]. cbn. destruct (rf_is_full f) eqn:Ef; cbn; [|done].
    destruct (nz k) eqn:Ek; [done|]. apply nz_false in Ek. intros _. rewrite Ek, Z.add_0_r, Z.mod_small by done. by apply Hfull.
  - unfold contents. fold L. rewrite EL. destruct (decide (len < L)).
    + rewrite Hk1, win_drop by lia. apply win_ext; [lia| |done]. cbn. rewrite Hk1 by done. by rewrite Z.mod_mod by lia.
    + rewrite Hk2 by lia. rewrite Z.sub_diag, win_0. symmetry. apply drop_ge.
      pose proof (win_length (fifo_at f) n (rf_get_index f) L). lia.
Qed.

(** Polled output sends the data, with a carriage return in front of each line feed when
    the device is open as a stream. *)
Lemma _serial_poll_tx_spec {H} (uart : rt_uart_ops H) stream data h :
  _serial_poll_tx uart stream data h =
    foldl (λ h c, snd (u_putc uart c h)) h
      (data ≫= λ c, if (c =? 10) && stream then [13; c] else [c]).
Proof.
  revert h. induction data as [|c data IH]; intros h; [done|]. cbn. rewrite IH, foldl_app.
  by destruct ((c =? 10) && stream).
Qed.

(** * Instances *)

(** A controller that holds a list of received bytes. *)
Definition list_uart : rt_uart_ops (list Z) :=
  mk_uart_ops None (λ _ _ h, (0, h)) (λ c h, (1, h ++ [c])) (λ h, match h with [] => (-1, []) | c :: h' => (c, h') end) None.

Lemma list_uart_drains cs : Forall (λ c, 0 ≤ c < 256) cs → drains list_uart cs cs [].
Proof. induction 1 as [|c cs Hc _ IH]; [by constructor|]. by econstructor. Qed.

(** A FIFO of 4 slots with 2 bytes waiting at its end. *)
Definition demo_fifo : rt_serial_rx_fifo := mk_fifo [0; 0; 7; 8] 0 2 false.

Lemma demo_fifo_wf : fifo_wf 4 demo_fifo.
Proof. split; [done|done|by repeat constructor|done|done]. Qed.

Lemma demo_int_wf : int_wf 4 demo_fifo.
Proof. split_and!; [apply demo_fifo_wf|done|done]. Qed.

Lemma demo_dma_wf : dma_wf 4 demo_fifo.
Proof. split_and!; [apply demo_fifo_wf|done|done]. Qed.

Lemma rt_hw_serial_isr_rx_spec_witness :
  ∃ f', rt_hw_serial_isr_rx list_uart 4 true demo_fifo [1; 2; 3] = Some (f', [], Some 3) ∧ contents 4 f' = [1; 2; 3].
Proof.
  destruct (rt_hw_serial_isr_rx_spec list_uart 4 demo_fifo [1; 2; 3] [1; 2; 3] [] true) as (f' & Hr & _ & Hc);
    [apply demo_int_wf|apply list_uart_drains; by repeat constructor|done|].
  exists f'. assert (contents 4 f' = [1; 2; 3]) as E by (rewrite Hc; reflexivity). rewrite E in Hr. done.
Defined.

Lemma _serial_int_rx_spec_witness : ∃ f', _serial_int_rx 4 1 demo_fifo = Some ([7], f') ∧ contents 4 f' = [8].
Proof.
  destruct (_serial_int_rx_spec 4 1 demo_fifo) as (f' & Hr & _ & Hc); [apply demo_int_wf|]. by exists f'.
Defined.

Lemma rt_dma_recv_update_put_index_spec_witness :
  contents 4 (rt_dma_recv_update_put_index 4 3 (mk_fifo [1; 2; 3; 8] 0 2 false)) = [8; 1; 2; 3].
Proof.
  destruct (rt_dma_recv_update_put_index_spec 4 demo_fifo [1; 2; 3] (mk_fifo [1; 2; 3; 8] 0 2 false)) as [_ Hc];
    [apply demo_dma_wf|done| |exact Hc].
  split; [split; [done|done|by repeat constructor|done|done]|done..|].
  intros i Hi. cbn in Hi. assert (i = 0) as -> by lia. reflexivity.
Defined.

Lemma _serial_dma_rx_spec_witness : ∃ f', _serial_dma_rx 4 9 demo_fifo = Some ([7; 8], f') ∧ contents 4 f' = [].
Proof.
  destruct (_serial_dma_rx_spec 4 demo_fifo 9) as (f' & Hr & _ & Hc); [apply demo_dma_wf|done|]. by exists f'.
Defined.
