(* ===== verification/App.v ===== *)
(** The application, bsp/stm32f4xx-HAL/applications/main.c and bsp/stm32f4xx-HAL/mypackages:
    a door lock (a relay) that an NB-IoT module on uart1 connects to an MQTT broker with AT
    commands. One thread collects lines from uart1 and executes door commands, another
    one walks through the connection dialogue, a third one blinks a LED that shows the
    state of the connection; a Bluetooth module on uart3 gets copies of the traffic.

    A routine works on the application's variables and appends the calls it makes to the
    kernel and to devices to a trace. Calls that wait ([rt_mutex_take], [rt_sem_take] with
    [RT_WAITING_FOREVER]) are in the trace at the place where they return. Undefined
    behaviour of C (an index outside an array, a format that asks for missing arguments)
    fails. *)

From Stdlib Require Import ZArith Lia.
From Stdlib Require Import String Ascii.
From stdpp Require Import base numbers option.
From stdpp Require Import list.
From S2P Require Import Prelude.
From S2P Require Import Bytes.
From S2P Require Import Kmemory.
From S2P Require Import Printf.
Local Open Scope Z_scope.
Local Open Scope rt_scope.

(** * Text *)

(** The bytes of a text; a backquote stands for a double quote. *)
Definition txt (s : string) : list Z :=
  (λ c, let z := Z.of_N (N_of_ascii c) in if z =? 96 then 34 else z) <$> list_ascii_of_string s.
Arguments txt s%_string_scope.

Definition CRLF : list Z := [13; 10].

Fixpoint prefix_b (p l : list Z) : bool :=
  match p, l with
  | [], _ => true
  | _ :: _, [] => false
  | a :: p', b :: l' => (a =? b) && prefix_b p' l'
  end.

(** [strstr(l, p) != NULL] *)
Fixpoint strstr (l p : list Z) : bool :=
  prefix_b p l || match l with [] => false | _ :: l' => strstr l' p end.

(** ** Arrays of [char] *)

(** The string an array holds: its bytes before the first NUL. *)
Fixpoint cstr (arr : list Z) : list Z :=
  match arr with
  | [] => []
  | c :: arr' => if c =? 0 then [] else c :: cstr arr'
  end.

Definition arr_get (arr : list Z) (i : Z) : option Z := if i <? 0 then None else arr !! Z.to_nat i.
(** A store outside the array is undefined behaviour of the code, which has no check. *)
Definition arr_set (arr : list Z) (i v : Z) : option (list Z) :=
  if (0 <=? i) && (i <? Z.of_nat (length arr)) then Some (<[Z.to_nat i := v]> arr) else None.

(** [stepStrs[i]] *)
Definition arr_at (l : list (list Z)) (i : Z) : option (list Z) := if i <? 0 then None else l !! Z.to_nat i.

(** The first [n] bytes, as [rt_device_write] reads them. *)
Definition arr_bytes (arr : list Z) (n : Z) : option (list Z) :=
  if (0 <=? n) && (n <=? Z.of_nat (length arr)) then Some (take (Z.to_nat n) arr) else None.

(** [strcpy] and [strcat] of a string [s] into an array. *)
Definition strcpy (arr s : list Z) : option (list Z) :=
  if Z.of_nat (length s) <? Z.of_nat (length arr) then Some (s ++ 0 :: drop (S (length s)) arr) else None.
Definition strcat (arr s : list Z) : option (list Z) := strcpy arr (cstr arr ++ s).

(** An array initialised with a literal: its bytes and a NUL. *)
Definition literal (s : list Z) : list Z := s ++ [0].

(** * State *)

Inductive device := serialuart1 | serialuart3.
Inductive semaphore := rx_sem_connect | rx_sem_uart1_self | rx_sem_uart1_ready | rx_sem_uart3_self.
Inductive thread := my_usart1_thread | my_usart3_thread | my_nb101_connect_thread | shinning.

(** Calls to the kernel and to devices. *)
Inductive action :=
| MutexTake | MutexRelease
| MutexCreate
| SemInit (s : semaphore) | SemTake (s : semaphore) | SemRelease (s : semaphore)
| Create (t : thread) (ok : bool) | Startup (t : thread) | Delete (t : thread)
| Find (d : device) | DevOpen (d : device) | SetRxIndicate (d : device)
| Write (d : device) (data : list Z)
| Print (text : list Z)
| PinMode (pin : Z) | PinWrite (pin : Z) (high : bool)
| Mdelay (ms : Z).

(** The static variables, and the local variables of threads that outlive an iteration. *)
Record appst := mk_app {
  a_usart1 : bool;           (* my_usart1_thread != NULL *)
  a_usart3 : bool;           (* my_usart3_thread != NULL *)
  a_connect : bool;          (* my_nb101_connect_thread != NULL *)
  a_first : bool;            (* isFirst *)
  a_step : Z;                (* step, of the connecting thread *)
  a_received : list Z;       (* uart1_receivedStrs *)
  a_offset : Z;              (* uart1_charOffset *)
  a_global : list Z;         (* uart1_global_receivedStrs *)
  a_goffset : Z;             (* uart1_global_charOffset *)
  a_received3 : list Z;      (* uart3_receivedStrs *)
  a_offset3 : Z;             (* uart3_charOffset *)
  a_relay : Z;               (* relay_switch_isOn *)
  a_ontime : Z;              (* onTime *)
  a_offtime : Z;             (* offTime *)
  a_trace : list action
}.

Abbreviation A := (M appst).

Definition set_threads (u1 u3 c : bool) (s : appst) : appst :=
  mk_app u1 u3 c (a_first s) (a_step s) (a_received s) (a_offset s) (a_global s) (a_goffset s)
    (a_received3 s) (a_offset3 s) (a_relay s) (a_ontime s) (a_offtime s) (a_trace s).
Definition set_usart1 (b : bool) (s : appst) : appst := set_threads b (a_usart3 s) (a_connect s) s.
Definition set_usart3 (b : bool) (s : appst) : appst := set_threads (a_usart1 s) b (a_connect s) s.
Definition set_connect (b : bool) (s : appst) : appst := set_threads (a_usart1 s) (a_usart3 s) b s.
Definition set_dialogue (first : bool) (step : Z) (s : appst) : appst :=
  mk_app (a_usart1 s) (a_usart3 s) (a_connect s) first step (a_received s) (a_offset s) (a_global s) (a_goffset s)
    (a_received3 s) (a_offset3 s) (a_relay s) (a_ontime s) (a_offtime s) (a_trace s).
Definition set_step (n : Z) (s : appst) : appst := set_dialogue (a_first s) n s.
Definition set_received (buf : list Z) (off : Z) (s : appst) : appst :=
  mk_app (a_usart1 s) (a_usart3 s) (a_connect s) (a_first s) (a_step s) buf off (a_global s) (a_goffset s)
    (a_received3 s) (a_offset3 s) (a_relay s) (a_ontime s) (a_offtime s) (a_trace s).
Definition set_global (buf : list Z) (off : Z) (s : appst) : appst :=
  mk_app (a_usart1 s) (a_usart3 s) (a_connect s) (a_first s) (a_step s) (a_received s) (a_offset s) buf off
    (a_received3 s) (a_offset3 s) (a_relay s) (a_ontime s) (a_offtime s) (a_trace s).
Definition set_received3 (buf : list Z) (off : Z) (s : appst) : appst :=
  mk_app (a_usart1 s) (a_usart3 s) (a_connect s) (a_first s) (a_step s) (a_received s) (a_offset s) (a_global s) (a_goffset s)
    buf off (a_relay s) (a_ontime s) (a_offtime s) (a_trace s).
Definition set_relay (b : Z) (s : appst) : appst :=
  mk_app (a_usart1 s) (a_usart3 s) (a_connect s) (a_first s) (a_step s) (a_received s) (a_offset s) (a_global s) (a_goffset s)
    (a_received3 s) (a_offset3 s) b (a_ontime s) (a_offtime s) (a_trace s).
Definition set_times (on off : Z) (s : appst) : appst :=
  mk_app (a_usart1 s) (a_usart3 s) (a_connect s) (a_first s) (a_step s) (a_received s) (a_offset s) (a_global s) (a_goffset s)
    (a_received3 s) (a_offset3 s) (a_relay s) on off (a_trace s).
Definition log (l : list action) (s : appst) : appst :=
  mk_app (a_usart1 s) (a_usart3 s) (a_connect s) (a_first s) (a_step s) (a_received s) (a_offset s) (a_global s) (a_goffset s)
    (a_received3 s) (a_offset3 s) (a_relay s) (a_ontime s) (a_offtime s) (a_trace s ++ l).

Definition emit (a : action) : A unit := modify (log [a]).

(** [rt_kprintf(fmt, ...)] *)
Definition kprintf (fmt : list Z) (args : list va) : A unit :=
  t ← from_opt (rt_kprintf fmt args); emit (Print t).

(** [rt_device_write(d, 0, arr, size)] *)
Definition dev_write (d : device) (arr : list Z) (size : Z) : A unit :=
  data ← from_opt (arr_bytes arr size); emit (Write d data).

(** * LED1_PG3.c and relay_switch.c *)

Definition LED_PIN_NUM : Z := 88.
Definition RELAY_SWITCH_NUM : Z := 1.

(** [led_shinning] up to its loop, and one round of the loop. *)
Definition led_start : A unit := emit (PinMode LED_PIN_NUM).
Definition led_round : A unit :=
  emit (PinWrite LED_PIN_NUM false) ;;
  on ← gets a_ontime;
  emit (Mdelay on) ;;
  emit (PinWrite LED_PIN_NUM true) ;;
  off ← gets a_offtime;
  emit (Mdelay off).

Definition deviceConnecting : A unit := modify (set_times 200 200).
Definition deviceConnected : A unit := modify (set_times 200 1800).
Definition deviceDisconnected : A unit := modify (set_times 800 800).

Definition init_switch : A unit := emit (PinMode RELAY_SWITCH_NUM).
Definition open_switch : A unit :=
  emit (PinWrite RELAY_SWITCH_NUM false) ;;
  kprintf (txt "switch on!" ++ CRLF) [] ;;
  modify (set_relay 1).
Definition close_switch : A unit :=
  emit (PinWrite RELAY_SWITCH_NUM true) ;;
  kprintf (txt "switch off!" ++ CRLF) [] ;;
  modify (set_relay 0).

(** * post_to_aliyun.c *)

Definition end_str : list Z := [0x1A; 0x0D; 0x0A].
Definition publish : list Z :=
  txt "AT+QMTPUB=0,0,0,0,`/sys/a1n5qqGX7PA/NB101/thing/event/property/post`" ++ CRLF.
Definition onPropertyStr : list Z := literal (publish ++ txt "{`params` : {`ContactState`: 1, `Error`: 0}}").
Definition offPropertyStr : list Z := literal (publish ++ txt "{`params` : {`ContactState`: 0, `Error`: 0}}").

Definition usage (first : list Z) : A unit :=
  kprintf (first ++ [10]) [] ;;
  kprintf (txt "Usage: door status" ++ [10]) [] ;;
  kprintf (txt "Like: post_to_aliyun 1" ++ [10]) [].

(** The command of the shell; [argv] are the words of the command line. *)
Definition post_to_aliyun (argv : list (list Z)) : A unit :=
  if negb (Z.of_nat (length argv) =? 2) then usage (txt "argc != 2")
  else
    let postStr := literal (txt "{`params` : {`ContactState`: ") in
    doorStatus ← from_opt (argv !! 1%nat);
    if negb (Z.of_nat (length doorStatus) =? 1) then usage (txt "strlen(doorStatus) != 1")
    else
      postStr ← from_opt (strcat postStr doorStatus);
      postStr ← from_opt (strcat postStr (txt ", `Error`: 0}}"));
      let post_command := literal publish in
      emit MutexTake ;;
      dev_write serialuart1 post_command (Z.of_nat (length post_command) - 1) ;;
      emit (Mdelay 1000) ;;
      dev_write serialuart1 postStr (Z.of_nat (length (cstr postStr))) ;;
      dev_write serialuart1 end_str 3 ;;
      dev_write serialuart3 post_command (Z.of_nat (length post_command) - 1) ;;
      dev_write serialuart3 postStr (Z.of_nat (length (cstr postStr))) ;;
      dev_write serialuart3 end_str 3 ;;
      emit MutexRelease.

Definition self_post_to_aliyun (doorStatus : Z) : A unit :=
  if doorStatus =? 48 then
    dev_write serialuart1 offPropertyStr (Z.of_nat (length onPropertyStr) - 1) ;;
    dev_write serialuart1 end_str 3
  else if doorStatus =? 49 then
    dev_write serialuart1 onPropertyStr (Z.of_nat (length onPropertyStr) - 1) ;;
    dev_write serialuart1 end_str 3
  else ret tt.

(** * NB101_uart1.c *)

Definition str2 : list Z := literal (txt "my_usart1_thread initialize succeed!" ++ CRLF).
Definition update : list Z := txt "AT+QMTPUB=0,0,0,0,`/a1n5qqGX7PA/NB101/user/update`" ++ CRLF.
Definition uploadOnandDoorOnDataStr : list Z :=
  literal (update ++ txt "{`communicate`: true, `status`: true, `deviceName`: `NB101`}").
Definition uploadOnandDoorOffDataStr : list Z :=
  literal (update ++ txt "{`communicate`: true, `status`: false, `deviceName`: `NB101`}").

(** The callback of the serial driver, in interrupt context. *)
Definition uart1_input : A unit := emit (SemRelease rx_sem_uart1_self).

(** [my_usart1_thread_entry] up to its loop. *)
Definition usart1_start : A unit :=
  emit (DevOpen serialuart1) ;;
  emit (SetRxIndicate serialuart1) ;;
  emit MutexTake ;;
  dev_write serialuart3 str2 (Z.of_nat (length str2) - 1) ;;
  emit MutexRelease ;;
  emit (SemRelease rx_sem_uart1_ready).

(** Reporting the state of the door. *)
Definition upload_status : A unit :=
  on ← gets a_relay;
  (if nz on then dev_write serialuart1 uploadOnandDoorOnDataStr (Z.of_nat (length (cstr uploadOnandDoorOnDataStr)))
   else dev_write serialuart1 uploadOnandDoorOffDataStr (Z.of_nat (length (cstr uploadOnandDoorOffDataStr)))) ;;
  dev_write serialuart1 end_str 3.

(** [for (i = 0; i < uart1_charOffset; i++) rt_kprintf("%c", uart1_receivedStrs[i])] *)
Fixpoint print_chars (l : list Z) : A unit :=
  match l with
  | [] => ret tt
  | c :: l' => kprintf (txt "%c") [VInt c] ;; print_chars l'
  end.

Definition door_marker : list Z := txt "`deviceType`:`DoorContact`".
Definition status_marker : list Z := txt "NB101/user/get`,{`devicename`:`iOS_manager1`,`status`:1".

(** A complete line while no connection is being made. *)
Definition usart1_line : A unit :=
  buf ← gets a_received;
  off ← gets a_offset;
  (if strstr (cstr buf) door_marker then
     c ← from_opt (arr_get buf (off - 6));
     (if c =? 48 then close_switch else if c =? 49 then open_switch else ret tt) ;;
     c ← from_opt (arr_get buf (off - 6));
     self_post_to_aliyun c
   else if strstr (cstr buf) status_marker then
     emit MutexTake ;;
     upload_status ;;
     emit MutexRelease
   else ret tt) ;;
  emit MutexTake ;;
  data ← from_opt (arr_bytes buf off);
  print_chars data ;;
  emit MutexRelease.

(** One round of the loop of [my_usart1_thread_entry]: the byte [ch] was read. *)
Definition usart1_round (ch : Z) : A unit :=
  buf ← gets a_received;
  off ← gets a_offset;
  buf ← from_opt (arr_set buf off ch);
  let off := off + 1 in
  buf ← from_opt (arr_set buf off 0);
  modify (set_received buf off) ;;
  if strstr (cstr buf) CRLF then
    connecting ← gets a_connect;
    (if connecting then
       g ← gets a_global;
       g ← from_opt (strcpy g (cstr buf));
       modify (set_global g off) ;;
       emit (SemRelease rx_sem_connect)
     else usart1_line) ;;
    buf ← from_opt (arr_set buf 0 0);
    modify (set_received buf 0)
  else ret tt.

(** [created]: whether [rt_thread_create] succeeds. *)
Definition nb101_uart1 (created : bool) : A unit :=
  t ← gets a_usart1;
  if (t : bool) then ret tt
  else
    emit (SemInit rx_sem_connect) ;;
    emit (SemInit rx_sem_uart1_self) ;;
    emit (SemInit rx_sem_uart1_ready) ;;
    emit (Create my_usart1_thread created) ;;
    modify (set_usart1 created) ;;
    if created then
      emit MutexTake ;;
      kprintf (cstr str2) [] ;;
      emit MutexRelease ;;
      emit (Startup my_usart1_thread)
    else kprintf (txt "my_usart1_thread initialize failed!" ++ CRLF) [].

(** * connect_aliyun_using_AT.c *)

Definition str3 : list Z := literal (txt "my_nb101_connect_thread initialize succeed!" ++ CRLF).

Definition stepStrs : list (list Z) :=
  [ txt "Let's connect to aliyun." ++ CRLF;
    txt "AT+CGATT?" ++ CRLF;
    txt "AT+CSQ" ++ CRLF;
    txt "AT+QMTCFG=`aliauth`,0,`a1n5qqGX7PA`,`NB101`,`5iSvkRRHlzzWc9HZMvlfGdKPG8g9AFBd`" ++ CRLF;
    txt "AT+QMTOPEN=0,`iot-as-mqtt.cn-shanghai.aliyuncs.com`,1883" ++ CRLF;
    txt "AT+QMTCONN=0,`clientExample`" ++ CRLF;
    txt "AT+QMTSUB=0,1,`/sys/a1n5qqGX7PA/NB101/thing/service/property/set`,0" ++ CRLF;
    txt "AT+QMTSUB=0,1,`/a1n5qqGX7PA/NB101/user/get`,0" ++ CRLF;
    txt "AT+QMTPUB=0,0,0,0,`/sys/a1n5qqGX7PA/NB101/thing/event/property/post`" ++ CRLF;
    txt "AT+QMTDISC=0" ++ CRLF ].

(** The counter is an [unsigned char]. *)
Fixpoint count_loop (num : Z) (s : list Z) : Z :=
  match s with [] => num | _ :: s' => count_loop (u8 (num + 1)) s' end.
Definition countChars (s : list Z) : Z := count_loop 0 s.

(** [sizeof(char) * num - 1], of type [size_t] *)
Definition size_of_num (num : Z) : Z := u32 (num - 1).

(** Sending the command of the current step. *)
Definition send_step : A unit :=
  step ← gets a_step;
  cmd ← from_opt (arr_at stepStrs step);
  emit MutexTake ;;
  kprintf cmd [] ;;
  let num := countChars cmd in
  dev_write serialuart3 (literal cmd) (size_of_num num) ;;
  dev_write serialuart1 (literal cmd) (size_of_num num) ;;
  emit MutexRelease ;;
  modify (set_step (step + 1)).

(** [my_nb101_connect_thread_entry] up to its loop. *)
Definition connect_start (created : bool) : A unit :=
  deviceConnecting ;;
  nb101_uart1 created ;;
  first ← gets a_first;
  (if (first : bool) then
     emit (SemTake rx_sem_uart1_ready) ;;
     modify (λ s, set_dialogue false (a_step s) s)
   else ret tt) ;;
  modify (set_step 0) ;;
  emit MutexTake ;;
  dev_write serialuart3 str3 (Z.of_nat (length str3) - 1) ;;
  emit MutexRelease ;;
  modify (set_step 1) ;;
  send_step.

(** The end of the thread after a failure. *)
Definition connect_failed : A bool :=
  deviceDisconnected ;;
  emit MutexTake ;;
  kprintf (txt "Connecting failed!" ++ CRLF) [] ;;
  emit MutexRelease ;;
  modify (set_connect false) ;;
  ret true.

(** The reply was handled: the buffer is emptied and the loop goes on. *)
Definition reply_done : A bool :=
  g ← gets a_global;
  g ← from_opt (arr_set g 0 0);
  modify (set_global g 0) ;;
  ret false.

(** One round of the loop; [true]: the thread returned. *)
Definition connect_round : A bool :=
  emit (SemTake rx_sem_connect) ;;
  emit MutexTake ;;
  g ← gets a_global;
  goff ← gets a_goffset;
  kprintf (cstr g) [] ;;
  dev_write serialuart3 g (u32 (goff - 1)) ;;
  emit MutexRelease ;;
  step ← gets a_step;
  let reply := cstr g in
  if (step <=? 4) && strstr reply (txt "OK" ++ CRLF) then send_step ;; reply_done
  else if step =? 5 then
    if strstr reply (txt "QMTOPEN: 0,0" ++ CRLF) then send_step ;; reply_done
    else if strstr reply (txt "QMTOPEN: 0,") then connect_failed
    else reply_done
  else if step =? 6 then
    if strstr reply (txt "QMTCONN: 0,0,0" ++ CRLF) then
      deviceConnected ;;
      cmd ← from_opt (arr_at stepStrs step);
      emit MutexTake ;;
      kprintf cmd [] ;;
      let num := countChars cmd in
      kprintf (txt "Connecting successed!" ++ CRLF) [] ;;
      dev_write serialuart3 (literal cmd) (size_of_num num) ;;
      dev_write serialuart1 (literal cmd) (size_of_num num) ;;
      emit MutexRelease ;;
      modify (set_step (step + 1)) ;;
      reply_done
    else if strstr reply (txt "QMTCONN: 0,") then connect_failed
    else reply_done
  else if (step =? 7) && strstr reply (txt "QMTSUB: 0,1,0,1" ++ CRLF) then send_step ;; reply_done
  else if (step =? 8) && strstr reply (txt "QMTSUB: 0,1,0,1" ++ CRLF) then
    emit MutexTake ;;
    on ← gets a_relay;
    (if nz on then dev_write serialuart1 uploadOnandDoorOnDataStr (Z.of_nat (length uploadOnandDoorOnDataStr) - 1)
     else dev_write serialuart1 uploadOnandDoorOffDataStr (Z.of_nat (length uploadOnandDoorOffDataStr) - 1)) ;;
    dev_write serialuart1 end_str 3 ;;
    emit MutexRelease ;;
    modify (set_connect false) ;;
    ret true
  else reply_done.

(** The [else] of the code governs one statement only: the release behind it is always
    reached. *)
Definition connect_aliyun (created : bool) : A unit :=
  t ← gets a_connect;
  if (t : bool) then ret tt
  else
    emit (Create my_nb101_connect_thread created) ;;
    modify (set_connect created) ;;
    (if created then
       emit MutexTake ;;
       kprintf (cstr str3) [] ;;
       emit MutexRelease ;;
       emit (Startup my_nb101_connect_thread)
     else emit MutexTake) ;;
    emit MutexRelease.

(** * disConnect_aliyun.c *)

Definition atStr8 : list Z := literal (txt "AT+QMTDISC=0" ++ CRLF ++ [0]).

Definition disConnect_aliyun : A unit :=
  t ← gets a_connect;
  (if (t : bool) then
     emit (Delete my_nb101_connect_thread) ;;
     modify (set_connect false)
   else ret tt) ;;
  emit MutexTake ;;
  dev_write serialuart1 atStr8 (Z.of_nat (length atStr8)) ;;
  emit MutexRelease ;;
  deviceDisconnected.

(** * blue_test_uart3.c *)

Definition str : list Z := literal (txt "my_usart3_thread initialize succeed!" ++ CRLF).

Definition uart3_input : A unit := emit (SemRelease rx_sem_uart3_self).

(** [my_usart3_thread_entry] up to its loop; its buffer is a local variable. *)
Definition usart3_start : A unit :=
  emit (SemInit rx_sem_uart3_self) ;;
  emit (DevOpen serialuart3) ;;
  emit (SetRxIndicate serialuart3) ;;
  emit MutexTake ;;
  dev_write serialuart3 str (Z.of_nat (length str) - 1) ;;
  emit MutexRelease ;;
  modify (set_received3 (replicate 100 0) 0).

(** One round of its loop. *)
Definition usart3_round (ch : Z) : A unit :=
  buf ← gets a_received3;
  off ← gets a_offset3;
  buf ← from_opt (arr_set buf off ch);
  let off := off + 1 in
  buf ← from_opt (arr_set buf off 0);
  modify (set_received3 buf off) ;;
  if strstr (cstr buf) CRLF then
    emit MutexTake ;;
    kprintf (cstr buf) [] ;;
    dev_write serialuart1 buf (u32 (off - 1)) ;;
    dev_write serialuart3 buf (u32 (off - 1)) ;;
    emit MutexRelease ;;
    buf ← from_opt (arr_set buf 0 0);
    modify (set_received3 buf 0)
  else ret tt.

Definition blue_test_uart3 (created : bool) : A unit :=
  t ← gets a_usart3;
  if (t : bool) then ret tt
  else
    emit (Create my_usart3_thread created) ;;
    modify (set_usart3 created) ;;
    if created then
      emit MutexTake ;;
      kprintf (cstr str) [] ;;
      emit MutexRelease ;;
      emit (Startup my_usart3_thread)
    else kprintf (txt "my_usart3_thread initialize failed!" ++ CRLF) [].

(** * main.c *)

(** [rt_thread_startup] asserts that the thread exists. *)
Definition main (created : bool) : A Z :=
  init_switch ;;
  close_switch ;;
  kprintf (CRLF ++ txt "BiShe_JiaCheng is ready!" ++ CRLF) [] ;;
  emit MutexCreate ;;
  emit (Find serialuart1) ;;
  emit (Find serialuart3) ;;
  emit (Create shinning created) ;;
  assert created ;;
  emit (Startup shinning) ;;
  ret 0.

(** The variables before [main]. *)
Definition initial : appst :=
  mk_app false false false true 0 (replicate 100 0) 0 (replicate 100 0) 0 (replicate 100 0) 0 0 800 800 [].

(** * Lemmas on text *)

Lemma prefix_b_app p l l' : prefix_b p l = true → prefix_b p (l ++ l') = true.
Proof.
  revert l. induction p as [|a p IH]; intros [|b l]; cbn; try done. rewrite !andb_true_iff. intros [-> ?]. auto.
Qed.

Lemma strstr_app l l' p : strstr l p = true → strstr (l ++ l') p = true.
Proof.
  induction l as [|b l IH].
  - cbn. rewrite orb_false_r. destruct p; [|done]. by destruct l'.
  - cbn [strstr app]. rewrite !orb_true_iff. intros [H|H]; [left|right; auto].
    change (b :: l ++ l') with ((b :: l) ++ l'). by apply prefix_b_app.
Qed.

Lemma strstr_prefix_false l l' p : strstr (l ++ l') p = false → strstr l p = false.
Proof. destruct (strstr l p) eqn:E; [|done]. by rewrite (strstr_app l l' p E). Qed.

Lemma strstr_crlf body : strstr (body ++ CRLF) CRLF = true.
Proof. induction body as [|b l IH]; [done|]. cbn [strstr app]. rewrite IH. apply orb_true_r. Qed.

(** Characters that can arrive in a line. *)
Definition is_text (l : list Z) : Prop := Forall (λ c, 0 < c < 256) l.

(** The array of 100 bytes holds the string [t]. *)
Definition holds (arr t : list Z) : Prop := is_text t ∧ length arr = 100%nat ∧ ∃ rest, arr = t ++ 0 :: rest.

Lemma cstr_holds arr t : holds arr t → cstr arr = t.
Proof.
  intros (Ht & _ & rest & ->). induction Ht as [|c t Hc _ IH]; [done|]. cbn.
  rewrite (proj2 (Z.eqb_neq c 0)) by lia. by rewrite IH.
Qed.

Lemma holds_push arr t ch :
  holds arr t → 0 < ch < 256 → (length t ≤ 98)%nat →
  ∃ arr1 arr2, arr_set arr (Z.of_nat (length t)) ch = Some arr1 ∧
    arr_set arr1 (Z.of_nat (length t) + 1) 0 = Some arr2 ∧ holds arr2 (t ++ [ch]).
Proof.
  intros (Ht & Hl & rest & ->) Hch Hlen. rewrite length_app in Hl. cbn in Hl.
  destruct rest as [|r rest]; [cbn in Hl; lia|]. cbn in Hl.
  exists (t ++ ch :: r :: rest), (t ++ ch :: 0 :: rest).
  assert (∀ c x l, (<[length t := c]> (t ++ x :: l) : list Z) = t ++ c :: l) as Hins
    by (intros c x l; by rewrite insert_app_r_alt, Nat.sub_diag by lia).
  split_and!.
  - unfold arr_set. rewrite length_app. cbn [length]. rewrite (proj2 (andb_true_iff _ _)) by (rewrite Z.leb_le, Z.ltb_lt; lia).
    by rewrite Nat2Z.id, Hins.
  - unfold arr_set. rewrite length_app. cbn [length]. rewrite (proj2 (andb_true_iff _ _)) by (rewrite Z.leb_le, Z.ltb_lt; lia).
    replace (Z.to_nat (Z.of_nat (length t) + 1)) with (S (length t)) by lia.
    rewrite insert_app_r_alt by lia. by replace (S (length t) - length t)%nat with 1%nat by lia.
  - split_and!; [apply Forall_app; split; [done|by constructor]| |exists rest; by rewrite <- (assoc_L (++))].
    rewrite length_app. cbn. lia.
Qed.

Lemma holds_clear arr t : holds arr t → ∃ arr', arr_set arr 0 0 = Some arr' ∧ holds arr' [].
Proof.
  intros (_ & Hl & _). destruct arr as [|c arr]; [done|]. exists (0 :: arr).
  split; [unfold arr_set; by rewrite Hl|]. split_and!; [constructor|done|by exists arr].
Qed.

Lemma holds_bytes arr t n : holds arr t → 0 ≤ n ≤ Z.of_nat (length t) → arr_bytes arr n = Some (take (Z.to_nat n) t).
Proof.
  intros (_ & Hl & rest & ->) Hn. rewrite length_app in Hl. cbn in Hl. unfold arr_bytes. rewrite length_app.
  cbn [length]. rewrite (proj2 (andb_true_iff _ _)) by (rewrite !Z.leb_le; lia). by rewrite take_app_le by lia.
Qed.

Lemma strcpy_holds arr t : length arr = 100%nat → is_text t → (length t ≤ 99)%nat → ∃ arr', strcpy arr t = Some arr' ∧ holds arr' t.
Proof.
  intros Hl Ht Hlen. exists (t ++ 0 :: drop (S (length t)) arr). unfold strcpy.
  rewrite (proj2 (Z.ltb_lt _ _)) by lia. split; [done|]. split_and!; [done| |by eexists].
  rewrite length_app. cbn [length]. rewrite length_drop. lia.
Qed.

(** Text without a percent sign is printed as it is. *)
Definition is_plain (l : list Z) : Prop := is_text l ∧ (37 ∉ l) ∧ (length l ≤ 1000)%nat.

Lemma plain_text t : is_plain t → format_text t [] = Some t.
Proof.
  intros (_ & Hn & _). unfold format_text. induction t as [|c t IH]; [done|]. cbn.
  rewrite (proj2 (Z.eqb_neq c 37)) by (intros ->; apply Hn; by left). cbn. rewrite IH; [done|].
  intros Hin. apply Hn. by right.
Qed.

Lemma log_log l1 l2 s : log l2 (log l1 s) = log (l1 ++ l2) s.
Proof. unfold log. cbn. by rewrite (assoc_L (++)). Qed.

Lemma kprintf_plain t s : is_plain t → kprintf t [] s = Some (tt, log [Print (console_text t)] s).
Proof. intros Ht. unfold kprintf, bind, from_opt. rewrite (kprintf_run t [] t (plain_text t Ht)); [done|]. destruct Ht as (_ & _ & Ht). lia. Qed.

Lemma dev_write_run d arr n data s : arr_bytes arr n = Some data → dev_write d arr n s = Some (tt, log [Write d data] s).
Proof. intros E. unfold dev_write, bind, from_opt. by rewrite E. Qed.


(** * Lines from the module *)

Fixpoint usart1_feed (l : list Z) : A unit :=
  match l with
  | [] => ret tt
  | c :: l' => usart1_round c ;; usart1_feed l'
  end.

Lemma usart1_feed_app l1 l2 s : usart1_feed (l1 ++ l2) s = (usart1_feed l1 ;; usart1_feed l2) s.
Proof.
  revert s. induction l1 as [|c l1 IH]; intros s; [done|]. cbn [usart1_feed List.app]. unfold bind.
  destruct (usart1_round c s) as [[[] s']|]; [apply IH|done].
Qed.

(** The receiving thread has collected [t] and waits for more. *)
Definition collected (t : list Z) (s : appst) : Prop :=
  holds (a_received s) t ∧ a_offset s = Z.of_nat (length t).

Lemma round_inside t ch s :
  collected t s → 0 < ch < 256 → (length t ≤ 98)%nat → strstr (t ++ [ch]) CRLF = false →
  ∃ buf, usart1_round ch s = Some (tt, set_received buf (a_offset s + 1) s) ∧ holds buf (t ++ [ch]).
Proof.
  intros [Hh Ho] Hch Hlen Hns. destruct (holds_push _ t ch Hh Hch Hlen) as (b1 & b2 & E1 & E2 & Hh2).
  exists b2. split; [|done]. unfold usart1_round, bind, gets, from_opt, modify. rewrite Ho, E1, E2.
  by rewrite (cstr_holds _ _ Hh2), Hns.
Qed.

Lemma feed_inside l : ∀ t s,
  collected t s → is_text l → (length (t ++ l) ≤ 99)%nat → strstr (t ++ l) CRLF = false →
  ∃ buf, usart1_feed l s = Some (tt, set_received buf (Z.of_nat (length (t ++ l))) s) ∧ holds buf (t ++ l).
Proof.
  induction l as [|c l IH]; intros t s Hc Hl Hlen Hns.
  - exists (a_received s). destruct Hc as [Hh Ho]. rewrite app_nil_r in *. split; [|done].
    cbn. unfold ret, set_received. rewrite <- Ho. by destruct s.
  - inversion Hl as [|? ? Hch Hl']; subst. rewrite length_app in Hlen. cbn in Hlen.
    destruct (round_inside t c s) as (buf & Hr & Hh); [done|done|lia| |].
    { apply (strstr_prefix_false _ l). by rewrite <- (assoc_L (++)). }
    destruct (IH (t ++ [c]) (set_received buf (a_offset s + 1) s)) as (buf' & Hf & Hh').
    { split; [done|]. cbn. destruct Hc as [_ ->]. rewrite length_app. cbn. lia. }
    { done. } { rewrite !length_app. cbn. lia. } { by rewrite <- (assoc_L (++)). }
    rewrite <- (assoc_L (++)) in Hf, Hh'. exists buf'. split; [|done]. cbn [usart1_feed]. unfold bind. by rewrite Hr, Hf.
Qed.

(** What was written to a device. *)
Definition written (d : device) (l : list action) : list (list Z) :=
  omap (λ a, match a, d with
             | Write serialuart1 data, serialuart1 | Write serialuart3 data, serialuart3 => Some data
             | _, _ => None
             end) l.

Lemma written_app d l1 l2 : written d (l1 ++ l2) = written d l1 ++ written d l2.
Proof. apply omap_app. Qed.

Lemma written_prints d (l : list Z) : written d ((λ c, Print [u8 c]) <$> l) = [].
Proof. induction l as [|c l IH]; [done|]. by destruct d. Qed.

(** A line: text that ends with the first [CRLF] in it. *)
Definition is_line (body : list Z) : Prop :=
  is_text body ∧ (length body ≤ 97)%nat ∧ strstr (body ++ [13]) CRLF = false.

(** All of a line but its last character only fills the buffer. *)
Lemma feed_line body s :
  collected [] s → is_line body →
  ∃ b1 b2, usart1_feed (body ++ [13]) s = Some (tt, set_received b1 (Z.of_nat (length body) + 1) s) ∧
    collected (body ++ [13]) (set_received b1 (Z.of_nat (length body) + 1) s) ∧
    (let off := Z.of_nat (length body) + 2 in
     ∃ b0, arr_set b1 (off - 1) 10 = Some b0 ∧ arr_set b0 off 0 = Some b2) ∧ holds b2 (body ++ CRLF).
Proof.
  intros Hc (Ht & Hlen & Hns). destruct (feed_inside (body ++ [13]) [] s) as (b1 & Hf & Hh);
    [done|apply Forall_app; split; [done|repeat constructor]|cbn; rewrite length_app; cbn; lia|done|]. cbn [List.app] in *.
  rewrite length_app in Hf. cbn in Hf. rewrite Nat2Z.inj_add in Hf. change (Z.of_nat 1) with 1 in Hf.
  assert (collected (body ++ [13]) (set_received b1 (Z.of_nat (length body) + 1) s)) as Hc1.
  { split; [done|]. cbn. rewrite length_app. cbn. lia. }
  destruct (holds_push b1 (body ++ [13]) 10 Hh) as (b0 & b2 & E1 & E2 & Hh2); [done|rewrite length_app; cbn; lia|].
  exists b1, b2. split_and!; [done|done| |by rewrite <- (assoc_L (++)) in Hh2].
  exists b0. rewrite length_app in E1, E2. cbn in E1, E2. rewrite Nat2Z.inj_add in E1, E2.
  change (Z.of_nat 1) with 1 in E1, E2.
  replace (Z.of_nat (length body) + 2 - 1) with (Z.of_nat (length body) + 1) by lia.
  replace (Z.of_nat (length body) + 1 + 1) with (Z.of_nat (length body) + 2) in E2 by lia. done.
Qed.

(** The round in which a line is completed. *)
Lemma feed_whole_line body s Q :
  collected [] s → is_line body →
  (∀ buf, holds buf (body ++ CRLF) →
     wp (if a_connect s then
           g ← gets a_global; g ← from_opt (strcpy g (cstr buf)); modify (set_global g (Z.of_nat (length body) + 2)) ;;
           emit (SemRelease rx_sem_connect)
         else usart1_line)
       (λ _ s', ∀ buf', holds buf' [] → Q (set_received buf' 0 s')) (set_received buf (Z.of_nat (length body) + 2) s)) →
  wp (usart1_feed (body ++ CRLF)) (λ _ s', Q s') s.
Proof.
  intros Hc Hl HQ. destruct (feed_line body s Hc Hl) as (b1 & b2 & Hf & Hc1 & (b0 & E0 & E2) & Hh).
  change CRLF with ([13] ++ [10]). rewrite (assoc_L (++)). unfold wp. rewrite usart1_feed_app. unfold bind at 1. rewrite Hf.
  cbn [usart1_feed]. unfold bind at 1. unfold usart1_round at 1. unfold bind at 1 2 3, gets at 1 2, from_opt at 1.
  cbn [a_received a_offset set_received]. replace (Z.of_nat (length body) + 1) with (Z.of_nat (length body) + 2 - 1) by lia.
  rewrite E0. cbn beta iota. replace (Z.of_nat (length body) + 2 - 1 + 1) with (Z.of_nat (length body) + 2) by lia.
  unfold bind at 1, from_opt at 1. rewrite E2. unfold bind at 1, modify at 1. rewrite (cstr_holds _ _ Hh), strstr_crlf.
  unfold bind at 1, gets at 1. cbn [a_connect set_received]. specialize (HQ b2 Hh). rewrite (cstr_holds _ _ Hh) in HQ.
  unfold bind at 1. unfold set_received at 1. cbn [a_usart1 a_usart3 a_connect a_first a_step a_global a_goffset a_received3 a_offset3 a_relay a_ontime a_offtime a_trace set_received].
  fold (set_received b2 (Z.of_nat (length body) + 2) s). unfold wp in HQ.
  destruct (_ (set_received b2 (Z.of_nat (length body) + 2) s)) as [[[] s']|]; [|done].
  destruct (holds_clear b2 _ Hh) as (b3 & E3 & Hh3). unfold bind, from_opt. rewrite E3. unfold modify, ret. by apply HQ.
Qed.







(** Lines are kept in an array of 100 bytes without a check: when 99 characters have
    arrived without an end of line, the next one makes the receiver write behind the
    array. *)
Theorem line_overflow s l :
  collected [] s → is_text l → length l = 100%nat → strstr (take 99 l) CRLF = false → usart1_feed l s = None.
Proof.
  intros Hc Ht Hlen Hns. rewrite <- (take_drop 99 l). rewrite usart1_feed_app.
  destruct (feed_inside (take 99 l) [] s) as (buf & Hf & Hh); [done|by apply Forall_take|cbn; rewrite length_take; lia|done|].
  cbn [List.app] in *. unfold bind. rewrite Hf. destruct (drop 99 l) as [|c rest] eqn:Ed.
  { apply (f_equal length) in Ed. rewrite length_drop, Hlen in Ed. done. }
  cbn [usart1_feed]. unfold bind, usart1_round, bind, gets, from_opt. cbn [a_received a_offset set_received].
  rewrite length_take, Hlen. change (Z.of_nat (99 `min` 100)) with 99. destruct Hh as (_ & Hl & _).
  unfold arr_set at 1. rewrite Hl. change ((0 <=? 99) && (99 <? Z.of_nat 100)) with true. cbv iota.
  unfold arr_set. rewrite length_insert, Hl. done.
Qed.

(** * The connection dialogue *)

(** Every write and every text on the console happens with [print_mutex] held, and takes
    and releases of the mutex alternate. *)
Fixpoint locked (held : bool) (l : list action) : option bool :=
  match l with
  | [] => Some held
  | MutexTake :: l' => if held then None else locked true l'
  | MutexRelease :: l' => if held then locked false l' else None
  | (Write _ _ | Print _) :: l' => if held then locked held l' else None
  | _ :: l' => locked held l'
  end.

Lemma locked_app l1 l2 : ∀ b b', locked b l1 = Some b' → locked b (l1 ++ l2) = locked b' l2.
Proof.
  induction l1 as [|a l1 IH]; intros b b' H; [by injection H as ->|].
  destruct a, b; cbn in *; try done; by apply IH.
Qed.

(** The commands of the steps [a], ..., [b - 1] as they go over the line: without their
    last character, since [countChars] does not count the NUL the sender subtracts. *)
Definition cut (cmd : list Z) : list Z := take (length cmd - 1) cmd.
Definition script (a b : Z) : list (list Z) := cut <$> take (Z.to_nat (b - a)) (drop (Z.to_nat a) stepStrs).

Lemma stepStrs_ok :
  Forall (λ cmd, is_plain cmd ∧ arr_bytes (literal cmd) (size_of_num (countChars cmd)) = Some (cut cmd)) stepStrs.
Proof.
  assert (Forall (λ cmd, (Forall (λ c, 0 < c < 256) cmd ∧ (37 ∉ cmd) ∧ (length cmd ≤ 1000)%nat) ∧
    arr_bytes (literal cmd) (size_of_num (countChars cmd)) = Some (cut cmd)) stepStrs) as H.
  { refine (bool_decide_eq_true_1 _ _). vm_compute. reflexivity. }
  eapply Forall_impl; [exact H|]. by intros cmd [? ?].
Qed.

Lemma script_snoc a n cmd : 0 ≤ a ≤ n → arr_at stepStrs n = Some cmd → script a (n + 1) = script a n ++ [cut cmd].
Proof.
  intros Ha Hc. unfold arr_at in Hc. rewrite (proj2 (Z.ltb_ge n 0)) in Hc by lia. unfold script.
  replace (Z.to_nat (n + 1 - a)) with (S (Z.to_nat (n - a))) by lia.
  rewrite (take_S_r _ _ cmd), fmap_app; [done|]. rewrite lookup_drop. rewrite <- Hc. f_equal. lia.
Qed.

Lemma script_same a : script a a = [].
Proof. unfold script. by rewrite Z.sub_diag. Qed.

Definition sent_log (cmd : list Z) (more : list action) : list action :=
  [MutexTake; Print (console_text cmd)] ++ more ++
  [Write serialuart3 (cut cmd); Write serialuart1 (cut cmd); MutexRelease].

Lemma step_cmd n : 0 ≤ n < 10 → ∃ cmd, arr_at stepStrs n = Some cmd ∧ is_plain cmd ∧
  arr_bytes (literal cmd) (size_of_num (countChars cmd)) = Some (cut cmd).
Proof.
  intros Hn. unfold arr_at. rewrite (proj2 (Z.ltb_ge n 0)) by lia.
  destruct (stepStrs !! Z.to_nat n) as [cmd|] eqn:E; [|apply lookup_ge_None in E; cbn in E; lia].
  exists cmd. split; [done|]. exact (proj1 (Forall_lookup _ _) stepStrs_ok _ _ E).
Qed.

Lemma send_step_run s :
  0 ≤ a_step s < 10 → ∃ cmd, arr_at stepStrs (a_step s) = Some cmd ∧
    send_step s = Some (tt, set_step (a_step s + 1) (log (sent_log cmd []) s)).
Proof.
  intros Hn. destruct (step_cmd _ Hn) as (cmd & Hc & Hp & Hb). exists cmd. split; [done|].
  unfold send_step, bind, gets, from_opt, emit, modify. rewrite Hc. rewrite kprintf_plain by done.
  rewrite !(dev_write_run _ _ _ _ _ Hb), !log_log. done.
Qed.

(** ** The dialogue as a script *)

Inductive verdict := Stay | Sent | Refused | Established.

(** What the reply [r] means while the command of step [step - 1] is outstanding. *)
Definition judge (step : Z) (r : list Z) : verdict :=
  if step <=? 4 then if strstr r (txt "OK" ++ CRLF) then Sent else Stay
  else if step =? 5 then
    if strstr r (txt "QMTOPEN: 0,0" ++ CRLF) then Sent else if strstr r (txt "QMTOPEN: 0,") then Refused else Stay
  else if step =? 6 then
    if strstr r (txt "QMTCONN: 0,0,0" ++ CRLF) then Sent else if strstr r (txt "QMTCONN: 0,") then Refused else Stay
  else if step =? 7 then if strstr r (txt "QMTSUB: 0,1,0,1" ++ CRLF) then Sent else Stay
  else if strstr r (txt "QMTSUB: 0,1,0,1" ++ CRLF) then Established else Stay.

(** The step reached after the replies [rs], and how the dialogue ended if it did. *)
Fixpoint outcome (step : Z) (rs : list (list Z)) : Z * option bool :=
  match rs with
  | [] => (step, None)
  | r :: rs' =>
      match judge step (r ++ CRLF) with
      | Stay => outcome step rs'
      | Sent => outcome (step + 1) rs'
      | Refused => (step, Some false)
      | Established => (step, Some true)
      end
  end.

Definition status_text (on : Z) : list (list Z) :=
  [cstr (if nz on then uploadOnandDoorOnDataStr else uploadOnandDoorOffDataStr); end_str].

(** The LED shows the state: slow when there is no connection, short flashes with one. *)
Definition led (old : Z * Z) (before : Z) (o : Z * option bool) : Z * Z :=
  match o with
  | (_, Some false) => (800, 800)
  | (n, _) => if (before <=? 6) && (7 <=? n) then (200, 1800) else old
  end.

(** The receiver delivers a line to the connecting thread, which handles it. *)
Fixpoint dialogue (rs : list (list Z)) : A bool :=
  match rs with
  | [] => ret false
  | r :: rs' =>
      usart1_feed (r ++ CRLF) ;;
      ended ← connect_round;
      if (ended : bool) then ret true else dialogue rs'
  end.

Lemma deliver_run r s :
  collected [] s → a_connect s = true → length (a_global s) = 100%nat → is_line r →
  ∃ buf g, usart1_feed (r ++ CRLF) s
      = Some (tt, set_received buf 0 (log [SemRelease rx_sem_connect] (set_global g (Z.of_nat (length r) + 2) s))) ∧
    holds buf [] ∧ holds g (r ++ CRLF).
Proof.
  intros Hc Hcn Hg Hl.
  pose proof (feed_whole_line r s (λ s', ∃ buf g, s' = set_received buf 0 (log [SemRelease rx_sem_connect]
    (set_global g (Z.of_nat (length r) + 2) s)) ∧ holds buf [] ∧ holds g (r ++ CRLF)) Hc Hl) as H.
  assert (wp (usart1_feed (r ++ CRLF)) (λ _ s', ∃ buf g, s' = set_received buf 0 (log [SemRelease rx_sem_connect]
    (set_global g (Z.of_nat (length r) + 2) s)) ∧ holds buf [] ∧ holds g (r ++ CRLF)) s) as Hw.
  { apply H. intros buf Hh. rewrite Hcn, (cstr_holds _ _ Hh). destruct Hl as (Ht & Hlen & _).
    destruct (strcpy_holds (a_global s) (r ++ CRLF)) as (g & Eg & Hhg);
      [done|apply Forall_app; split; [done|repeat constructor]|rewrite length_app; cbn; lia|].
    unfold wp, bind, gets, from_opt. cbn [a_global set_received]. rewrite Eg. unfold modify, emit, modify.
    intros buf' Hh'. exists buf', g. done. }
  apply wp_run in Hw as ([] & s' & -> & buf & g & -> & Hh & Hhg). eauto.
Qed.

(** What a round of the connecting thread does for each verdict. *)
Definition round_effect (v : verdict) (s s' : appst) (new : list action) : Prop :=
  match v with
  | Stay => a_step s' = a_step s ∧ a_connect s' = a_connect s ∧
      (a_ontime s', a_offtime s') = (a_ontime s, a_offtime s) ∧ written serialuart1 new = []
  | Sent => a_step s' = a_step s + 1 ∧ a_connect s' = a_connect s ∧
      (a_ontime s', a_offtime s') = (if a_step s =? 6 then (200, 1800) else (a_ontime s, a_offtime s)) ∧
      ∃ cmd, arr_at stepStrs (a_step s) = Some cmd ∧ written serialuart1 new = [cut cmd]
  | Refused => a_step s' = a_step s ∧ a_connect s' = false ∧ (a_ontime s', a_offtime s') = (800, 800) ∧
      written serialuart1 new = []
  | Established => a_step s' = a_step s ∧ a_connect s' = false ∧
      (a_ontime s', a_offtime s') = (a_ontime s, a_offtime s) ∧ written serialuart1 new = status_text (a_relay s)
  end.

Definition ends (v : verdict) : bool := match v with Refused | Established => true | _ => false end.

Record round_post (v : verdict) (s s' : appst) : Prop := {
  rp_new : ∃ new, a_trace s' = a_trace s ++ new ∧ locked false new = Some false ∧ round_effect v s s' new;
  rp_received : a_received s' = a_received s ∧ a_offset s' = a_offset s;
  rp_global : length (a_global s') = 100%nat;
  rp_goffset : ends v = false → a_goffset s' = 0 ∧ holds (a_global s') [];
  rp_relay : a_relay s' = a_relay s
}.

Definition reply_log (r : list Z) : list action :=
  [SemTake rx_sem_connect; MutexTake; Print (console_text r);
   Write serialuart3 (take (length r - 1) r); MutexRelease].

Lemma fixed_plain (t : list Z) :
  bool_decide (Forall (λ c, 0 < c < 256) t ∧ 37 ∉ t ∧ (length t ≤ 1000)%nat) = true → is_plain t.
Proof. by intros H%bool_decide_eq_true_1. Qed.

Lemma reply_done_run g r s :
  a_global s = g → holds g r → ∃ g', reply_done s = Some (false, set_global g' 0 s) ∧ holds g' [].
Proof.
  intros Eg Hh. destruct (holds_clear g r Hh) as (g' & E & Hh'). exists g'. split; [|done].
  unfold reply_done, bind, gets, from_opt, modify, ret. by rewrite Eg, E.
Qed.

Lemma connect_failed_run s :
  connect_failed s = Some (true, set_connect false (log [MutexTake;
    Print (console_text (txt "Connecting failed!" ++ CRLF)); MutexRelease] (set_times 800 800 s))).
Proof.
  unfold connect_failed, deviceDisconnected, emit, bind, modify.
  rewrite kprintf_plain by (apply fixed_plain; vm_compute; reflexivity). by rewrite !log_log.
Qed.

Section round.
Context (s : appst) (r : list Z).
Hypothesis Hh : holds (a_global s) r.
Hypothesis Hplain : is_plain r.
Hypothesis Hoff : a_goffset s = Z.of_nat (length r).
Hypothesis Hlen : (1 ≤ length r)%nat.
Hypothesis Hstep : 2 ≤ a_step s ≤ 8.

(** The states that differ from [s] by what was logged and by what a reply clears. *)
Lemma stay_post g new :
  holds g [] → locked false new = Some false → written serialuart1 new = [] →
  round_post Stay s (set_global g 0 (log new s)).
Proof.
  intros Hg Hl Hw. split; [|done|apply Hg|done|done]. by exists new.
Qed.

Lemma sent_post g new cmd t1 t2 :
  holds g [] → locked false new = Some false → arr_at stepStrs (a_step s) = Some cmd →
  written serialuart1 new = [cut cmd] → (t1, t2) = (if a_step s =? 6 then (200, 1800) else (a_ontime s, a_offtime s)) →
  round_post Sent s (set_global g 0 (set_step (a_step s + 1) (log new (set_times t1 t2 s)))).
Proof.
  intros Hg Hl Hc Hw Ht. split; [|done|apply Hg|done|done]. exists new.
  split_and!; [done|done|]. split_and!; [done|done|exact Ht|by exists cmd].
Qed.

Lemma reply_head {X} (f : list Z → Z → A X) :
  (emit (SemTake rx_sem_connect) ;; emit MutexTake ;; g ← gets a_global; goff ← gets a_goffset;
   kprintf (cstr g) [] ;; dev_write serialuart3 g (u32 (goff - 1)) ;; emit MutexRelease ;; f g goff) s
  = f (a_global s) (Z.of_nat (length r)) (log (reply_log r) s).
Proof.
  unfold bind, emit, modify, gets. cbn [a_global a_goffset log]. rewrite (cstr_holds _ _ Hh), kprintf_plain by done.
  assert (arr_bytes (a_global s) (u32 (a_goffset s - 1)) = Some (take (length r - 1) r)) as E.
  { assert (length r ≤ 100)%nat as Hr.
    { destruct Hh as (_ & Hl & rest & E). rewrite E, length_app in Hl. lia. }
    rewrite Hoff, (wrap_small 32) by lia. rewrite (holds_bytes _ _ _ Hh) by lia. do 2 f_equal. lia. }
  rewrite (dev_write_run _ _ _ _ _ E), !log_log, Hoff. done.
Qed.

Lemma send_then_done :
  a_step s ≠ 6 → wp (send_step ;; reply_done) (λ b s', b = false ∧ round_post Sent s s') (log (reply_log r) s).
Proof.
  intros H6. unfold wp, bind. destruct (send_step_run (log (reply_log r) s)) as (cmd & Hc & ->); [cbn; lia|].
  destruct (reply_done_run (a_global s) r (set_step (a_step (log (reply_log r) s) + 1)
    (log (sent_log cmd []) (log (reply_log r) s)))) as (g & -> & Hg); [done|done|]. split; [done|].
  rewrite log_log. change (a_step (log (reply_log r) s)) with (a_step s).
  pose proof (sent_post g (reply_log r ++ sent_log cmd []) cmd (a_ontime s) (a_offtime s) Hg eq_refl Hc eq_refl) as H.
  rewrite (proj2 (Z.eqb_neq _ _) H6) in H. specialize (H eq_refl). by destruct s.
Qed.

Lemma just_done : wp reply_done (λ b s', b = false ∧ round_post Stay s s') (log (reply_log r) s).
Proof.
  unfold wp. destruct (reply_done_run (a_global s) r (log (reply_log r) s)) as (g & -> & Hg); [done|done|].
  split; [done|]. by apply stay_post.
Qed.

Lemma failed_post : wp connect_failed (λ b s', b = true ∧ round_post Refused s s') (log (reply_log r) s).
Proof.
  unfold wp. rewrite connect_failed_run. split; [done|]. split; [|done|apply Hh|done|done].
  eexists. split_and!; [cbn; by rewrite <- (assoc_L (++))|done|]. done.
Qed.
Lemma connected_post :
  a_step s = 6 →
  wp (deviceConnected ;;
      cmd ← from_opt (arr_at stepStrs (a_step s));
      emit MutexTake ;;
      kprintf cmd [] ;;
      kprintf (txt "Connecting successed!" ++ CRLF) [] ;;
      dev_write serialuart3 (literal cmd) (size_of_num (countChars cmd)) ;;
      dev_write serialuart1 (literal cmd) (size_of_num (countChars cmd)) ;;
      emit MutexRelease ;;
      modify (set_step (a_step s + 1)) ;;
      reply_done) (λ b s', b = false ∧ round_post Sent s s') (log (reply_log r) s).
Proof.
  intros H6. destruct (step_cmd (a_step s)) as (cmd & Hc & Hp & Hb); [lia|].
  unfold wp, bind, deviceConnected, emit, modify, from_opt at 1. rewrite Hc.
  rewrite kprintf_plain by done. rewrite kprintf_plain by (apply fixed_plain; vm_compute; reflexivity).
  change (set_times 200 1800 (log ?l ?st)) with (log l (set_times 200 1800 st)).
  rewrite !(dev_write_run _ _ _ _ _ Hb), !log_log.
  edestruct (reply_done_run (a_global s) r) as (g & -> & Hg); [|exact Hh|]; [done|]. split; [done|].
  pose proof (sent_post g (reply_log r ++ sent_log cmd
    [Print (console_text (txt "Connecting successed!" ++ CRLF))]) cmd 200 1800 Hg eq_refl Hc eq_refl) as H.
  rewrite (proj2 (Z.eqb_eq _ _) H6) in H. exact (H eq_refl).
Qed.

Lemma established_post :
  wp (emit MutexTake ;;
      on ← gets a_relay;
      (if nz on then dev_write serialuart1 uploadOnandDoorOnDataStr (Z.of_nat (length uploadOnandDoorOnDataStr) - 1)
       else dev_write serialuart1 uploadOnandDoorOffDataStr (Z.of_nat (length uploadOnandDoorOffDataStr) - 1)) ;;
      dev_write serialuart1 end_str 3 ;;
      emit MutexRelease ;;
      modify (set_connect false) ;;
      ret true) (λ b s', b = true ∧ round_post Established s s') (log (reply_log r) s).
Proof.
  unfold wp, bind, emit, modify, gets, ret. cbn [a_relay log].
  assert (∀ st, (if nz (a_relay s)
     then dev_write serialuart1 uploadOnandDoorOnDataStr (Z.of_nat (length uploadOnandDoorOnDataStr) - 1)
     else dev_write serialuart1 uploadOnandDoorOffDataStr (Z.of_nat (length uploadOnandDoorOffDataStr) - 1)) st
    = Some (tt, log [Write serialuart1 (cstr (if nz (a_relay s) then uploadOnandDoorOnDataStr
                                              else uploadOnandDoorOffDataStr))] st)) as ->.
  { intros st. destruct (nz _); apply dev_write_run; by vm_compute. }
  erewrite dev_write_run by (vm_compute; reflexivity). rewrite !log_log. split; [done|].
  split; [|done|apply Hh|done|done]. eexists. split_and!; [reflexivity|done|]. done.
Qed.

Lemma round_run :
  wp connect_round (λ b s', b = ends (judge (a_step s) r) ∧ round_post (judge (a_step s) r) s s') s.
Proof.
  unfold wp, connect_round. rewrite reply_head. unfold bind at 1, gets at 1.
  cbn [a_step log]. rewrite (cstr_holds _ _ Hh). unfold judge.
  destruct (a_step s <=? 4) eqn:E4; cbn [andb].
  { apply Z.leb_le in E4. destruct (strstr r (txt "OK" ++ CRLF)); [apply send_then_done; lia|].
    rewrite !(proj2 (Z.eqb_neq _ _)) by lia. apply just_done. }
  apply Z.leb_gt in E4. destruct (a_step s =? 5) eqn:E5.
  { apply Z.eqb_eq in E5. destruct (strstr r (txt "QMTOPEN: 0,0" ++ CRLF)); [apply send_then_done; lia|].
    destruct (strstr r (txt "QMTOPEN: 0,")); [apply failed_post|apply just_done]. }
  destruct (a_step s =? 6) eqn:E6.
  { apply Z.eqb_eq in E6. destruct (strstr r (txt "QMTCONN: 0,0,0" ++ CRLF)); [by apply connected_post|].
    destruct (strstr r (txt "QMTCONN: 0,")); [apply failed_post|apply just_done]. }
  apply Z.eqb_neq in E5, E6. destruct (a_step s =? 7) eqn:E7; cbn [andb].
  { apply Z.eqb_eq in E7. destruct (strstr r (txt "QMTSUB: 0,1,0,1" ++ CRLF)); [by apply send_then_done|].
    rewrite (proj2 (Z.eqb_neq _ 8)) by lia. apply just_done. }
  apply Z.eqb_neq in E7. rewrite (proj2 (Z.eqb_eq _ 8)) by lia. cbn [andb].
  destruct (strstr r (txt "QMTSUB: 0,1,0,1" ++ CRLF)); [apply established_post|apply just_done].
Qed.
End round.

(** The state between two replies. *)
Record dialling (s : appst) : Prop := {
  di_collected : collected [] s;
  di_connect : a_connect s = true;
  di_global : length (a_global s) = 100%nat;
  di_step : 2 ≤ a_step s ≤ 8
}.

Definition plain_line (r : list Z) : Prop := is_line r ∧ (37 ∉ r).

(** What the replies [rs] lead to: the step, the LED, the commands sent. *)
Definition dialogue_post (s : appst) (rs : list (list Z)) (ended : bool) (s' : appst) : Prop :=
  let o := outcome (a_step s) rs in
  ended = bool_decide (is_Some (o.2)) ∧ a_step s' = o.1 ∧ a_connect s' = negb ended ∧ a_relay s' = a_relay s ∧
  (a_ontime s', a_offtime s') = led (a_ontime s, a_offtime s) (a_step s) o ∧
  ∃ new, a_trace s' = a_trace s ++ new ∧ locked false new = Some false ∧
    written serialuart1 new
      = script (a_step s) (o.1) ++ (if decide (o.2 = Some true) then status_text (a_relay s) else []).

Lemma judge_sent n r : judge n r = Sent → n ≤ 7.
Proof. unfold judge. repeat case_match; try done; lia. Qed.

Lemma outcome_step rs : ∀ n, n ≤ (outcome n rs).1.
Proof.
  induction rs as [|r rs IH]; intros n; [done|]. cbn. destruct (judge n (r ++ CRLF)); cbn; try done.
  specialize (IH (n + 1)). lia.
Qed.

Lemma script_cons n m cmd :
  0 ≤ n < m → arr_at stepStrs n = Some cmd → script n m = cut cmd :: script (n + 1) m.
Proof.
  intros Hn Hc. unfold arr_at in Hc. rewrite (proj2 (Z.ltb_ge n 0)) in Hc by lia. unfold script.
  replace (Z.to_nat (m - n)) with (S (Z.to_nat (m - (n + 1)))) by lia.
  replace (Z.to_nat (n + 1)) with (S (Z.to_nat n)) by lia. by erewrite drop_S by exact Hc.
Qed.

(** A line delivered and handled. *)
Lemma exchange_run r s :
  dialling s → plain_line r →
  wp (usart1_feed (r ++ CRLF) ;; connect_round) (λ b s',
    let v := judge (a_step s) (r ++ CRLF) in
    b = ends v ∧ a_relay s' = a_relay s ∧ (∃ new, a_trace s' = a_trace s ++ new ∧ locked false new = Some false ∧ round_effect v s s' new) ∧
    (ends v = false → dialling s' ∧ a_goffset s' = 0 ∧ holds (a_global s') [])) s.
Proof.
  intros [Hc Hcn Hg Hst] [Hl Hp]. destruct (deliver_run r s Hc Hcn Hg Hl) as (buf & g & E & Hb & Hhg).
  unfold wp, bind. rewrite E. set (s1 := set_received _ _ _).
  assert (is_plain (r ++ CRLF)) as Hpl.
  { split_and!; [apply Hhg| |destruct Hl as (_ & ? & _); rewrite length_app; cbn; lia]. rewrite elem_of_app. intros [?|Hin]; [done|]. by apply (bool_decide_eq_false_1 (37 ∈ CRLF)) in Hin. }
  pose proof (round_run s1 (r ++ CRLF) Hhg Hpl) as Hr. cbn in Hr. rewrite length_app in Hr. cbn in Hr.
  specialize (Hr ltac:(lia) ltac:(lia) Hst). unfold wp in Hr. destruct (connect_round s1) as [[b s']|]; [|done].
  destruct Hr as [-> [Hnew [Hr1 Hr2] Hgl Hgo Hrel]]. split_and!; [done|done| |].
  - destruct Hnew as (new & Ht & Hlk & He). exists (SemRelease rx_sem_connect :: new).
    split_and!; [by rewrite Ht; cbn; rewrite <- (assoc_L (++))|done|]. by destruct (judge _ _).
  - intros Hend. split; [|by apply Hgo]. split.
    + split; [by rewrite Hr1|by rewrite Hr2].
    + destruct Hnew as (new & _ & _ & He). destruct (judge _ _); try done; destruct He as (_ & -> & _); done.
    + done.
    + destruct Hnew as (new & _ & _ & He). destruct (judge _ _) eqn:Ej; try done; destruct He as (-> & _).
      * done. * apply judge_sent in Ej. cbn. cbn in Ej. lia.
Qed.

Lemma led_sent old n (o : Z * option bool) :
  2 ≤ n → n + 1 ≤ o.1 → led (if n =? 6 then (200, 1800) else old) (n + 1) o = led old n o.
Proof.
  intros Hn Ho. destruct o as [m [[]|]]; cbn in *; try done;
    destruct (n =? 6) eqn:E6; rewrite ?Z.eqb_eq, ?Z.eqb_neq in E6;
    destruct (Z.leb_spec (n + 1) 6), (Z.leb_spec n 6), (Z.leb_spec 7 m); cbn; try done; lia.
Qed.

Lemma dialogue_run rs : ∀ s,
  dialling s → Forall plain_line rs → wp (dialogue rs) (dialogue_post s rs) s.
Proof.
  induction rs as [|r rs IH]; intros s Hd Hrs.
  { split_and!; [done|done|apply Hd|done| |].
    - cbn. destruct (Z.leb_spec (a_step s) 6), (Z.leb_spec 7 (a_step s)); cbn; try done; lia.
    - exists []. cbn. by rewrite app_nil_r, script_same. }
  apply Forall_cons in Hrs as [Hr Hrs]. pose proof (exchange_run r s Hd Hr) as Hx. cbn [dialogue].
  unfold wp in *. unfold bind in *. destruct (usart1_feed (r ++ CRLF) s) as [[[] s1]|]; [|done].
  destruct (connect_round s1) as [[b s2]|]; [|done]. destruct Hx as (-> & Hrel & (new & Ht & Hlk & He) & Hnext).
  pose proof (di_step s Hd) as Hst. unfold dialogue_post. cbn [outcome].
  destruct (judge (a_step s) (r ++ CRLF)) eqn:Ej; cbn [ends] in *; cbn [round_effect] in He.
  - destruct He as (Es & Ec & Et & Hw). specialize (IH s2 (proj1 (Hnext eq_refl)) Hrs). destruct (dialogue rs s2) as [[b s3]|]; [|done].
    destruct IH as (-> & E1 & E2 & E3 & E4 & new2 & Ht2 & Hlk2 & Hw2). rewrite Es, ?Et, ?Hrel in *.
    split_and!; [done|done|done|done|done|]. exists (new ++ new2).
    split_and!; [by rewrite Ht2, Ht, (assoc_L (++))|by rewrite (locked_app _ _ _ _ Hlk)|by rewrite written_app, Hw, Hw2].
  - destruct He as (Es & Ec & Et & cmd & Hcmd & Hw). specialize (IH s2 (proj1 (Hnext eq_refl)) Hrs).
    pose proof (outcome_step rs (a_step s + 1)) as Ho.
    destruct (dialogue rs s2) as [[b s3]|]; [|done].
    destruct IH as (-> & E1 & E2 & E3 & E4 & new2 & Ht2 & Hlk2 & Hw2). rewrite Es, ?Et, ?Hrel in *.
    split_and!; [done|done|done|done|by rewrite E4, led_sent by lia|]. exists (new ++ new2).
    split_and!; [by rewrite Ht2, Ht, (assoc_L (++))|by rewrite (locked_app _ _ _ _ Hlk)|].
    rewrite written_app, Hw, Hw2, (script_cons (a_step s) _ cmd) by (done || lia). done.
  - destruct He as (Es & Ec & Et & Hw). split_and!; [done|done|done|done|done|]. exists new. rewrite Hw. cbn.
    by rewrite script_same.
  - destruct He as (Es & Ec & Et & Hw). split_and!; [done|done|done|done| |].
    + rewrite Et. cbn. destruct (Z.leb_spec (a_step s) 6), (Z.leb_spec 7 (a_step s)); cbn; try done; lia.
    + exists new. rewrite Hw. cbn. by rewrite script_same.
Qed.

Lemma nb101_uart1_run s :
  ∃ new, nb101_uart1 true s = Some (tt, log new (set_usart1 true s)) ∧ locked false new = Some false ∧
    written serialuart1 new = [].
Proof.
  unfold nb101_uart1, bind, gets. destruct (a_usart1 s) eqn:E.
  { exists []. split_and!; [|done|done]. unfold ret, log, set_usart1. cbn. rewrite app_nil_r. destruct s. cbn in *. by subst. }
  unfold emit, modify. rewrite kprintf_plain by (apply fixed_plain; vm_compute; reflexivity).
  rewrite !log_log. change (set_usart1 true (log ?l ?st)) with (log l (set_usart1 true st)).
  eexists. split_and!; [by rewrite !log_log|done|done].
Qed.

(** The connecting thread up to its loop leaves the dialogue after its first command. *)
Definition first_log : list action :=
  [MutexTake; Write serialuart3 (cstr str3); MutexRelease] ++ sent_log (txt "AT+CGATT?" ++ CRLF) [].

Lemma connect_first_run s :
  (modify (set_step 0) ;;
   emit MutexTake ;;
   dev_write serialuart3 str3 (Z.of_nat (length str3) - 1) ;;
   emit MutexRelease ;;
   modify (set_step 1) ;;
   send_step) s = Some (tt, set_step 2 (log first_log s)).
Proof.
  unfold bind, emit, modify.
  erewrite dev_write_run by (vm_compute; reflexivity).
  match goal with |- send_step ?st = _ => destruct (send_step_run st) as (cmd & Hcmd & ->); [cbn; lia|] end.
  injection Hcmd as <-. rewrite !log_log. unfold first_log, set_step, set_dialogue, log. cbn. by rewrite <- !(assoc_L (++)).
Qed.

Lemma connect_start_run s :
  collected [] s → a_connect s = true → length (a_global s) = 100%nat →
  ∃ s' new, connect_start true s = Some (tt, s') ∧ dialling s' ∧ a_step s' = 2 ∧ a_relay s' = a_relay s ∧
    (a_ontime s', a_offtime s') = (200, 200) ∧ a_trace s' = a_trace s ++ new ∧ locked false new = Some false ∧
    written serialuart1 new = script 1 2.
Proof.
  intros Hc Hcn Hg. unfold connect_start, deviceConnecting. unfold bind at 1, modify at 1. unfold bind at 1.
  destruct (nb101_uart1_run (set_times 200 200 s)) as (new & -> & Hlk & Hw). cbv beta iota.
  unfold bind at 1, gets at 1. unfold bind at 1. destruct (a_first _).
  - unfold bind at 1, emit at 1, modify at 1 2. rewrite connect_first_run, log_log.
    eexists. exists ((new ++ [SemTake rx_sem_uart1_ready]) ++ first_log). split_and!; [reflexivity|by split|done|done|done| | |].
    + cbn [a_trace set_step set_dialogue log set_usart1 set_threads set_times]. by rewrite <- !(assoc_L (++)).
    + by rewrite <- (assoc_L (++)), (locked_app _ _ _ _ Hlk).
    + by rewrite !written_app, Hw.
  - unfold ret at 1. rewrite connect_first_run, log_log.
    eexists. exists (new ++ first_log). split_and!; [reflexivity|by split|done|done|done| | |].
    + reflexivity.
    + by rewrite (locked_app _ _ _ _ Hlk).
    + by rewrite !written_app, Hw.
Qed.

(** C14: The connecting thread follows the AT dialogue, for reply lines of at most 97
    characters without NUL and without a percent sign, each of which it handles before the
    next one arrives ([line_overflow], [reply_format] and [reply_lost] below show what
    happens otherwise). From its start, and for every sequence of such replies, it sends
    exactly the commands of the steps the replies allow, in order, each once, and nothing after it ended; it ends connected (and then reports the state of
    the door) exactly when the replies run through the whole script, and ends with the slow
    LED when the module refuses a step; every transmission happens with [print_mutex] held
    and the mutex is free between replies; the relay is not touched. *)
Theorem connect_dialogue s rs :
  collected [] s → a_connect s = true → length (a_global s) = 100%nat → Forall plain_line rs →
  wp (connect_start true ;; dialogue rs) (λ ended s', let o := outcome 2 rs in
    ended = bool_decide (is_Some (o.2)) ∧ a_step s' = o.1 ∧ a_connect s' = negb ended ∧ a_relay s' = a_relay s ∧
    (a_ontime s', a_offtime s') = led (200, 200) 2 o ∧
    ∃ new, a_trace s' = a_trace s ++ new ∧ locked false new = Some false ∧
      written serialuart1 new
        = script 1 (o.1) ++ (if decide (o.2 = Some true) then status_text (a_relay s) else [])) s.
Proof.
  intros Hc Hcn Hg Hrs. destruct (connect_start_run s Hc Hcn Hg) as (s1 & n1 & E & Hd & Est & Er & Et & Htr & Hlk & Hw).
  pose proof (dialogue_run rs s1 Hd Hrs) as H. unfold wp, bind in *. rewrite E.
  destruct (dialogue rs s1) as [[b s2]|]; [|done]. unfold dialogue_post in H. rewrite Est, Er, Et in H.
  destruct H as (-> & E1 & E2 & E3 & E4 & n2 & Htr2 & Hlk2 & Hw2). split_and!; [done|done|done|done|done|].
  exists (n1 ++ n2). split_and!; [by rewrite Htr2, Htr, (assoc_L (++))|by rewrite (locked_app _ _ _ _ Hlk)|].
  pose proof (outcome_step rs 2). by rewrite written_app, Hw, Hw2, (script_cons 1 (outcome 2 rs).1 _) by (done || lia).
Qed.

(** The dialogue of a connection that succeeds. *)
Definition good_replies : list (list Z) :=
  [txt "OK"; txt "OK"; txt "OK"; txt "+QMTOPEN: 0,0"; txt "+QMTCONN: 0,0,0"; txt "+QMTSUB: 0,1,0,1";
   txt "+QMTSUB: 0,1,0,1"].

Lemma plain_lines (rs : list (list Z)) :
  bool_decide (Forall (λ r, (Forall (λ c, 0 < c < 256) r ∧ (length r ≤ 97)%nat ∧ strstr (r ++ [13]) CRLF = false) ∧
    37 ∉ r) rs) = true → Forall plain_line rs.
Proof. by intros H%bool_decide_eq_true_1. Qed.

Lemma plain_line_b (r : list Z) :
  bool_decide (Forall (λ r, (Forall (λ c, 0 < c < 256) r ∧ (length r ≤ 97)%nat ∧ strstr (r ++ [13]) CRLF = false) ∧
    37 ∉ r) [r]) = true → plain_line r.
Proof. intros H%plain_lines. by inversion H. Qed.

Lemma collected_initial (s : appst) : a_received s = replicate 100 0 → a_offset s = 0 → collected [] s.
Proof. intros E1 E2. split; [|done]. rewrite E1. split_and!; [constructor|done|by exists (replicate 99 0)]. Qed.

Lemma connect_dialogue_witness :
  outcome 2 good_replies = (8, Some true) ∧
  wp (connect_start true ;; dialogue good_replies) (λ ended s', ended = true ∧ a_connect s' = false ∧
    (a_ontime s', a_offtime s') = (200, 1800) ∧
    written serialuart1 (a_trace s') = script 1 8 ++ status_text 0) (set_connect true initial).
Proof.
  split; [vm_compute; reflexivity|]. eapply wp_mono.
  - apply (connect_dialogue (set_connect true initial) good_replies);
      [by apply collected_initial|done|done|apply plain_lines; vm_compute; reflexivity].
  - intros b s'. cbv zeta. assert (outcome 2 good_replies = (8, Some true)) as -> by (vm_compute; reflexivity).
    cbn [fst snd]. intros (-> & _ & -> & _ & -> & new & -> & _ & Hw). split_and!; [done|done|done|exact Hw].
Defined.

(** The buffer between the two threads holds one reply and nothing keeps the receiver
    from overwriting it: when two lines arrive before the connecting thread runs, the
    semaphore lets it run twice, the second time with the empty buffer it left itself, and
    it hands 2^32 - 1 bytes to [rt_device_write], far behind the array. *)
Theorem reply_lost s r1 r2 :
  dialling s → plain_line r1 → plain_line r2 → ends (judge (a_step s) (r2 ++ CRLF)) = false →
  (usart1_feed (r1 ++ CRLF) ;; usart1_feed (r2 ++ CRLF) ;; connect_round ;; connect_round) s = None.
Proof.
  intros Hd [Hl1 _] Hr2 He. destruct Hd as [Hc Hcn Hg Hst].
  destruct (deliver_run r1 s Hc Hcn Hg Hl1) as (buf & g & E & Hb & Hhg). unfold bind. rewrite E.
  match type of E with _ = Some (tt, ?st) => set (s1 := st) end.
  assert (dialling s1) as Hd1 by (split; [done|done|apply Hhg|done]).
  pose proof (exchange_run r2 s1 Hd1 Hr2) as H. unfold wp, bind in H.
  destruct (usart1_feed (r2 ++ CRLF) s1) as [[[] s2]|]; [|done]. destruct (connect_round s2) as [[b s3]|]; [|done].
  destruct H as (_ & _ & _ & H). destruct (H He) as (_ & Ho & Hh). unfold connect_round, bind, emit, modify, gets.
  cbn [a_global a_goffset log]. rewrite (cstr_holds _ _ Hh), kprintf_plain by (split_and!; [constructor|by intros ?%elem_of_nil|cbn; lia]).
  unfold dev_write, bind, from_opt, arr_bytes. rewrite Ho. destruct Hh as (_ & -> & _). done.
Qed.

Lemma reply_lost_witness :
  (usart1_feed (txt "OK" ++ CRLF) ;; usart1_feed (txt "+CSQ:18,99" ++ CRLF) ;; connect_round ;; connect_round)
    (set_step 2 (set_connect true initial)) = None.
Proof.
  apply (reply_lost (set_step 2 (set_connect true initial)) (txt "OK") (txt "+CSQ:18,99")).
  - split; [by apply collected_initial|done|done|done].
  - apply plain_line_b. vm_compute; reflexivity.
  - apply plain_line_b. vm_compute; reflexivity.
  - vm_compute; reflexivity.
Defined.

(** Received text is passed to [rt_kprintf] as the format: a reply with a directive
    that takes an argument is undefined behaviour. *)
Theorem reply_format s r :
  dialling s → is_line r → format_text (r ++ CRLF) [] = None →
  (usart1_feed (r ++ CRLF) ;; connect_round) s = None.
Proof.
  intros [Hc Hcn Hg Hst] Hl Hf. destruct (deliver_run r s Hc Hcn Hg Hl) as (buf & g & E & Hb & Hhg).
  unfold bind. rewrite E. unfold connect_round, bind, emit, modify, gets. cbn [a_global a_goffset log set_received set_global].
  unfold kprintf, bind, from_opt. by rewrite (cstr_holds _ _ Hhg), (kprintf_undefined _ _ Hf).
Qed.

(** [postStr] is an array that holds its initial text and no more: the shell command
    [post_to_aliyun] with a valid argument writes behind it. *)
Theorem post_to_aliyun_overflow s cmd c : post_to_aliyun [cmd; [c]] s = None.
Proof. unfold post_to_aliyun, bind, from_opt. cbn [length lookup]. vm_compute. reflexivity. Qed.

(** * Lines while no connection is being made *)

(** What is seen outside the controller: the pins and the line to the module. *)
Definition seen_outside (a : action) : option action :=
  match a with Write serialuart1 _ | PinWrite _ _ => Some a | _ => None end.
Definition outputs (l : list action) : list action := omap seen_outside l.





Lemma outputs_app l1 l2 : outputs (l1 ++ l2) = outputs l1 ++ outputs l2.
Proof. apply omap_app. Qed.
Lemma outputs_writes (l : list (list Z)) : outputs (Write serialuart1 <$> l) = Write serialuart1 <$> l.
Proof. induction l as [|d l IH]; [done|]. cbn. by f_equal. Qed.

Lemma upload_run s : upload_status s = Some (tt, log (Write serialuart1 <$> status_text (a_relay s)) s).
Proof.
  unfold upload_status, status_text, bind, gets. destruct (nz (a_relay s));
    (erewrite dev_write_run by (vm_compute; reflexivity); erewrite dev_write_run by (vm_compute; reflexivity); by rewrite log_log).
Qed.








(** The routines without a loop return from every state, where the threads they create are
    created. *)
Theorem routines_return s :
  is_Some (main true s) ∧ is_Some (led_start s) ∧ is_Some (led_round s) ∧ is_Some (uart1_input s) ∧ is_Some (usart1_start s) ∧
  is_Some (connect_aliyun true s) ∧ is_Some (disConnect_aliyun s) ∧ is_Some (blue_test_uart3 true s) ∧
  is_Some (uart3_input s) ∧ is_Some (usart3_start s) ∧ is_Some (nb101_uart1 true s).
Proof. destruct s as [[] [] []]; (split_and!; vm_compute; by eexists). Qed.

(** [open_switch] writes the pin before it updates [relay_switch_isOn]: between the two the
    variable disagrees with the pin. A thread that asks for the state there gets the old
    one. *)
Theorem relay_stale s :
  wp (emit (PinWrite RELAY_SWITCH_NUM false) ;; upload_status) (λ _ s',
    outputs (a_trace s') = outputs (a_trace s) ++ PinWrite RELAY_SWITCH_NUM false :: (Write serialuart1 <$> status_text (a_relay s))) s.
Proof.
  unfold wp, bind, emit, modify. rewrite upload_run. cbn [a_trace log a_relay]. rewrite !outputs_app, outputs_writes. by rewrite <- (assoc_L (++)).
Qed.





Lemma line_overflow_witness : usart1_feed (replicate 100 65) initial = None.
Proof.
  apply (line_overflow initial (replicate 100 65)); [by apply collected_initial| |done|vm_compute; reflexivity].
  refine (bool_decide_eq_true_1 (Forall (λ c, 0 < c < 256) (replicate 100 65)) _). vm_compute. reflexivity.
Defined.

Lemma reply_format_witness :
  (usart1_feed (txt "+QMTRECV: 100%s" ++ CRLF) ;; connect_round) (set_step 2 (set_connect true initial)) = None.
Proof.
  apply (reply_format (set_step 2 (set_connect true initial)) (txt "+QMTRECV: 100%s")).
  - split; [by apply collected_initial|done|done|done].
  - refine (bool_decide_eq_true_1 (Forall (λ c, 0 < c < 256) (txt "+QMTRECV: 100%s") ∧
      (length (txt "+QMTRECV: 100%s") ≤ 97)%nat ∧ strstr (txt "+QMTRECV: 100%s" ++ [13]) CRLF = false) _).
    vm_compute. reflexivity.
  - vm_compute. reflexivity.
Defined.

(** After starting the thread, [connect_aliyun] releases a mutex it does not hold: the
    [else] without braces governs the take only. *)
Theorem connect_aliyun_release s :
  a_connect s = false → wp (connect_aliyun true) (λ _ s', ∃ new, a_trace s' = a_trace s ++ new ∧ locked false new = None) s.
Proof.
  intros Hc. unfold wp, connect_aliyun, bind, gets. rewrite Hc. unfold emit, modify.
  rewrite kprintf_plain by (apply fixed_plain; vm_compute; reflexivity). rewrite !log_log.
  eexists. split; [cbn; by rewrite <- !(assoc_L (++))|]. done.
Qed.
