(* ===== verification/Msh.v ===== *)
(** The command interpreter of the shell, components/finsh/msh.c: splitting a command line
    into arguments, running a command, completing a command name.

    The command line is an array of bytes that the splitter writes into; reading or
    writing outside of the array is undefined. Console output is collected as bytes. The
    commands are a table of names and functions; the functions are a parameter. *)

From Stdlib Require Import ZArith Lia.
From Equations Require Import Equations.
From stdpp Require Import base numbers option list sets.
From S2P Require Import Prelude.
From S2P Require Import Kservice.
From S2P Require Import Bytes.
From S2P Require Import Printf.
Local Open Scope Z_scope.
Local Open Scope rt_scope.

(** * State *)

(** The array of the command line, and what was printed. *)
Record mst := mk_mst { m_buf : list Z; m_out : list Z }.

Definition ld (i : Z) : M mst Z := λ s,
  if 0 <=? i then match m_buf s !! Z.to_nat i with Some c => Some (c, s) | None => None end else None.
Definition st (i c : Z) : M mst unit := λ s,
  if (0 <=? i) && (i <? Z.of_nat (length (m_buf s))) then Some (tt, mk_mst (<[Z.to_nat i := c]> (m_buf s)) (m_out s)) else None.

(** The string up to its NUL. *)
Fixpoint until_nul (l : list Z) : option (list Z) :=
  match l with
  | [] => None
  | c :: l => if c =? 0 then Some [] else cons c <$> until_nul l
  end.
Definition str_at (i : Z) : M mst (list Z) := λ s,
  if 0 <=? i then match until_nul (drop (Z.to_nat i) (m_buf s)) with Some t => Some (t, s) | None => None end else None.

Definition kprintf (fmt : list Z) (args : list va) : M mst unit := λ s,
  match rt_kprintf fmt args with Some t => Some (tt, mk_mst (m_buf s) (m_out s ++ t)) | None => None end.

(** [strncmp(a, b, n) == 0] for strings without their NUL. *)
Fixpoint strncmp_eq (n : nat) (a b : list Z) : bool :=
  match n with
  | O => true
  | S n =>
      let x := Str.char_at a in
      let y := Str.char_at b in
      (x =? y) && ((x =? 0) || strncmp_eq n (tail a) (tail b))
  end.

(** * Commands *)

Record finsh_syscall := mk_syscall { fs_name : list Z; fs_desc : list Z; fs_func : Z }.

Definition cmd_prefix : list Z := [95; 95; 99; 109; 100; 95].
Definition is_command (index : finsh_syscall) : bool := strncmp_eq 6 (fs_name index) cmd_prefix.

Definition blank (c : Z) : bool := (c =? 32) || (c =? 9).

Definition FINSH_ARG_MAX : nat := 10.

Section split.
Variables cmd len : Z.

Fixpoint skip_blanks (fuel : nat) (position : Z) : M mst Z :=
  match fuel with
  | O => λ _, None
  | S fuel =>
      c ← ld (cmd + position);
      if blank c && (position <? len) then
        st (cmd + position) 0 ;;
        skip_blanks fuel (position + 1)
      else ret position
  end.

Fixpoint skip_string (fuel : nat) (position : Z) : M mst Z :=
  match fuel with
  | O => λ _, None
  | S fuel =>
      c ← ld (cmd + position);
      if negb (c =? 34) && (position <? len) then
        position ← (if c =? 92 then
                      c1 ← ld (cmd + position + 1);
                      if c1 =? 34 then ret (position + 1) else ret position
                    else ret position);
        skip_string fuel (position + 1)
      else ret position
  end.

Fixpoint skip_word (fuel : nat) (position : Z) : M mst Z :=
  match fuel with
  | O => λ _, None
  | S fuel =>
      c ← ld (cmd + position);
      if negb (blank c) && (position <? len) then skip_word fuel (position + 1)
      else ret position
  end.

(** [for (i = 0; i < argc; i++) rt_kprintf("%s ", argv[i]);] *)
Fixpoint print_args (argv : list Z) : M mst unit :=
  match argv with
  | [] => ret tt
  | a :: argv =>
      t ← str_at a;
      kprintf [37; 115; 32] [VStr (Some t)] ;;
      print_args argv
  end.

Definition too_many_args : list Z :=
  [84;111;111;32;109;97;110;121;32;97;114;103;115;32;33;32;87;101;32;111;110;108;121;32;85;115;101;58;10].

(** [argv] with [argc] entries. *)
Fixpoint split_loop (fuel : nat) (position : Z) (argv : list Z) : M mst (list Z) :=
  match fuel with
  | O => λ _, None
  | S fuel =>
      if position <? len then
        position ← (n ← gets (λ s, length (m_buf s)); skip_blanks (S n) position);
        if (FINSH_ARG_MAX <=? length argv)%nat then
          kprintf too_many_args [] ;;
          print_args argv ;;
          kprintf [10] [] ;;
          ret argv
        else if len <=? position then ret argv
        else
          c ← ld (cmd + position);
          if c =? 34 then
            let position := position + 1 in
            let argv := argv ++ [cmd + position] in
            position ← (n ← gets (λ s, length (m_buf s)); skip_string (S n) position);
            if len <=? position then ret argv
            else
              st (cmd + position) 0 ;;
              split_loop fuel (position + 1) argv
          else
            let argv := argv ++ [cmd + position] in
            position ← (n ← gets (λ s, length (m_buf s)); skip_word (S n) position);
            if len <=? position then ret argv
            else split_loop fuel position argv
      else ret argv
  end.

Definition msh_split : M mst (list Z) :=
  n ← gets (λ s, length (m_buf s));
  split_loop (S n) 0 [].
End split.

(** The loop of [msh_help] over the table. *)
Fixpoint help_loop (l : list finsh_syscall) : M mst unit :=
  match l with
  | [] => ret tt
  | index :: l =>
      (if is_command index
       then kprintf [37;45;49;54;115;32;45;32;37;115;10] [VStr (Some (drop 6 (fs_name index))); VStr (Some (fs_desc index))]
       else ret tt) ;;
      help_loop l
  end.

Section commands.
(** [_syscall_table_begin] to [_syscall_table_end], and the functions of the commands:
    [run_cmd f argv]. *)
Variable table : list finsh_syscall.
Variable run_cmd : Z → list Z → M mst Z.

Definition msh_help : M mst Z :=
  kprintf [82;84;45;84;104;114;101;97;100;32;115;104;101;108;108;32;99;111;109;109;97;110;100;115;58;10] [] ;;
  help_loop table ;;
  kprintf [10] [] ;;
  ret 0.

(** [cmd] are the bytes from the beginning of the command on. *)
Fixpoint get_cmd (l : list finsh_syscall) (cmd : list Z) (size : nat) : option (option Z) :=
  match l with
  | [] => Some None
  | index :: l =>
      if is_command index && strncmp_eq size (drop 6 (fs_name index)) cmd then
        match (fs_name index ++ [0]) !! (6 + size)%nat with
        | Some c => if c =? 0 then Some (Some (fs_func index)) else get_cmd l cmd size
        | None => None
        end
      else get_cmd l cmd size
  end.
Definition msh_get_cmd (cmd : Z) (size : nat) : M mst (option Z) :=
  b ← gets (λ s, drop (Z.to_nat cmd) (m_buf s));
  from_opt (get_cmd table b size).

Fixpoint cmd0_loop (fuel : nat) (cmd len n : Z) : M mst Z :=
  match fuel with
  | O => λ _, None
  | S fuel =>
      c ← ld (cmd + n);
      if negb (blank c) && (n <? len) then cmd0_loop fuel cmd len (n + 1) else ret n
  end.

(** The result and, when it is 0, what the command returned. *)
Definition _msh_exec_cmd (cmd len : Z) : M mst (Z * Z) :=
  cmd0_size ← (n ← gets (λ s, length (m_buf s)); cmd0_loop (S n) cmd len 0);
  if cmd0_size =? 0 then ret (-1, 0)
  else
    f ← msh_get_cmd cmd (Z.to_nat cmd0_size);
    match f with
    | None => ret (-1, 0)
    | Some f =>
        argv ← msh_split cmd len;
        match argv with
        | [] => ret (-1, 0)
        | _ => r ← run_cmd f argv; ret (0, r)
        end
    end.

Fixpoint strip_loop (fuel : nat) (cmd len : Z) : M mst (Z * Z) :=
  match fuel with
  | O => λ _, None
  | S fuel =>
      c ← ld cmd;
      if blank c then strip_loop fuel (cmd + 1) (u32 (len - 1)) else ret (cmd, len)
  end.

Fixpoint truncate_loop (fuel : nat) (tcmd : Z) : M mst unit :=
  match fuel with
  | O => λ _, None
  | S fuel =>
      c ← ld tcmd;
      if negb (c =? 32) && negb (c =? 0) then truncate_loop fuel (tcmd + 1) else st tcmd 0
  end.

Definition not_found : list Z :=
  [37;115;58;32;99;111;109;109;97;110;100;32;110;111;116;32;102;111;117;110;100;46;10].

Definition msh_exec (cmd len : Z) : M mst Z :=
  p ← (n ← gets (λ s, length (m_buf s)); strip_loop (S n) cmd len);
  let '(cmd, len) := p in
  if len =? 0 then ret 0
  else
    r ← _msh_exec_cmd cmd len;
    if r.1 =? 0 then ret r.2
    else
      (n ← gets (λ s, length (m_buf s)); truncate_loop (S n) cmd) ;;
      t ← str_at cmd;
      kprintf not_found [VStr (Some t)] ;;
      ret (-1).

(** * Completion *)

Fixpoint str_common (str1 str2 : list Z) : nat :=
  match str1, str2 with
  | c1 :: l1, c2 :: l2 => if c1 =? c2 then S (str_common l1 l2) else 0
  | _, _ => 0
  end.

(** The loop over the table: [name_ptr] and [min_length]. *)
Fixpoint complete_loop (l : list finsh_syscall) (prefix : list Z) (name_ptr : option (list Z)) (min_length : nat)
    : M mst (option (list Z) * nat) :=
  match l with
  | [] => ret (name_ptr, min_length)
  | index :: l =>
      let cmd_name := drop 6 (fs_name index) in
      if is_command index && strncmp_eq (length prefix) prefix cmd_name then
        let '(name, min_length) :=
          match min_length with O => (cmd_name, length cmd_name) | _ => (default [] name_ptr, min_length) end in
        let length := str_common name cmd_name in
        let min_length := if (length <? min_length)%nat then length else min_length in
        kprintf [37; 115; 10] [VStr (Some cmd_name)] ;;
        complete_loop l prefix (Some name) min_length
      else complete_loop l prefix name_ptr min_length
  end.

(** [rt_strncpy] into the command line, byte by byte. *)
Fixpoint copy_loop (i : Z) (l : list Z) : M mst unit :=
  match l with [] => ret tt | c :: l => st i c ;; copy_loop (i + 1) l end.

Definition msh_auto_complete (prefix : Z) : M mst unit :=
  c ← ld prefix;
  if c =? 0 then msh_help ;; ret tt
  else
    p ← str_at prefix;
    r ← complete_loop table p None 0;
    match r with
    | (Some name_ptr, min_length) => copy_loop prefix (Str.rt_strncpy name_ptr min_length)
    | (None, _) => ret tt
    end.
End commands.

(** * The arguments of a command line

    The reference: blanks separate words; a word in double quotes may contain blanks,
    and a backslash in front of a quote keeps the quote in the word. *)

Fixpoint span (p : Z → bool) (l : list Z) : list Z * list Z :=
  match l with
  | [] => ([], [])
  | c :: l' => if p c then (c :: (span p l').1, (span p l').2) else ([], l)
  end.

(** Up to the closing quote; the rest begins with the closing quote. *)
Fixpoint quoted (l : list Z) : list Z * list Z :=
  match l with
  | [] => ([], [])
  | c :: l' =>
      if c =? 34 then ([], l)
      else if c =? 92 then
        match l' with
        | c1 :: l'' =>
            if c1 =? 34 then (c :: c1 :: (quoted l'').1, (quoted l'').2)
            else (c :: (quoted l').1, (quoted l').2)
        | [] => ([c], [])
        end
      else (c :: (quoted l').1, (quoted l').2)
  end.

Lemma span_app p l : (span p l).1 ++ (span p l).2 = l.
Proof. induction l as [|c l IH]; cbn; [done|]. destruct (p c); cbn; [by rewrite IH|done]. Qed.
Lemma span_all p l : Forall (λ c, p c = true) (span p l).1.
Proof. induction l as [|c l IH]; cbn; [done|]. destruct (p c) eqn:E; [by constructor|done]. Qed.
Lemma span_rest p l : match (span p l).2 with [] => True | c :: _ => p c = false end.
Proof. induction l as [|c l IH]; cbn; [done|]. by destruct (p c) eqn:E. Qed.
Lemma length_span p l : (length (span p l).2 ≤ length l)%nat.
Proof. rewrite <- (span_app p l) at 2. rewrite length_app. lia. Qed.

(** Induction over a string two characters at a time. *)
Lemma list_pairs_ind (P : list Z → Prop) :
  P [] → (∀ c, P [c]) → (∀ c c' l, P l → P (c' :: l) → P (c :: c' :: l)) → ∀ l, P l.
Proof.
  intros H0 H1 H2. assert (∀ l, P l ∧ ∀ c, P (c :: l)) as H; [|intros l; apply H].
  induction l as [|c l [IH1 IH2]]; [by split|]. split; [by apply IH2|]. intros c'. by apply H2.
Qed.

Lemma quoted_cons c c' l :
  quoted (c :: c' :: l) =
    if c =? 34 then ([], c :: c' :: l)
    else if (c =? 92) && (c' =? 34) then (c :: c' :: (quoted l).1, (quoted l).2)
    else (c :: (quoted (c' :: l)).1, (quoted (c' :: l)).2).
Proof. cbn. by destruct (c =? 34), (c =? 92), (c' =? 34). Qed.

Lemma quoted_app l : (quoted l).1 ++ (quoted l).2 = l.
Proof.
  induction l as [|c|c c' l IH1 IH2] using list_pairs_ind; [done| |].
  - cbn. by destruct (c =? 34), (c =? 92).
  - rewrite quoted_cons. destruct (c =? 34); [done|]. destruct (_ && _); cbn [fst snd app]; [by rewrite IH1|by rewrite IH2].
Qed.
Lemma quoted_rest l : match (quoted l).2 with [] => True | c :: _ => c = 34 end.
Proof.
  induction l as [|c|c c' l IH1 IH2] using list_pairs_ind; [done| |].
  - cbn. by destruct (Z.eqb_spec c 34), (c =? 92).
  - rewrite quoted_cons. destruct (Z.eqb_spec c 34); [done|]. by destruct (_ && _).
Qed.
Lemma length_quoted l : (length (quoted l).2 ≤ length l)%nat.
Proof. rewrite <- (quoted_app l) at 2. rewrite length_app. lia. Qed.

Definition inspect {A} (a : A) : { b : A | a = b } := exist _ a eq_refl.
Definition unblank (c : Z) : bool := negb (blank c).

Equations tokens (l : list Z) : list (list Z) by wf (length l) lt :=
  tokens l with inspect (span blank l).2 := {
    | exist _ [] _ => [];
    | exist _ (c :: l') E with Z.eqb c 34 := {
        | true => (quoted l').1 :: tokens (tail (quoted l').2);
        | false => (span unblank (c :: l')).1 :: tokens (span unblank (c :: l')).2 } }.
Next Obligation.
  intros l c l' E _. cbn beta in E. pose proof (length_span blank l) as H. rewrite E in H. cbn in H. pose proof (length_quoted l').
  pose proof (length_tail (quoted l').2). lia.
Qed.
Next Obligation.
  intros l c l' E _. cbn beta in E. pose proof (length_span blank l) as H. pose proof (span_rest blank l) as Hr. rewrite E in H, Hr.
  cbn. unfold unblank at 1. rewrite Hr. cbn. pose proof (length_span unblank l'). cbn in H. lia.
Qed.

Example tokens_ex :
  tokens [32;97;98;32;9;34;99;32;100;34;101;32;34;92;34;34] = [[97;98]; [99;32;100]; [101]; [92;34]].
Proof. reflexivity. Qed.

Lemma tokens_eq l :
  tokens l = match (span blank l).2 with
             | [] => []
             | c :: l' =>
                 if c =? 34 then (quoted l').1 :: tokens (tail (quoted l').2)
                 else (span unblank (c :: l')).1 :: tokens (span unblank (c :: l')).2
             end.
Proof.
  rewrite tokens_equation_1. destruct (inspect (span blank l).2) as [[|c l'] E]; cbn -[span]; [by rewrite E|].
  destruct (c =? 34) eqn:Ec; cbn -[span]; by rewrite E, Ec.
Qed.

(** * Lemmas *)

Lemma ld_run i s P c R : m_buf s = P ++ c :: R → i = Z.of_nat (length P) → ld i s = Some (c, s).
Proof.
  intros E ->. unfold ld. rewrite (proj2 (Z.leb_le _ _)) by lia. rewrite Nat2Z.id, E, list_lookup_middle; done.
Qed.

Lemma st_run i x P c R o : i = Z.of_nat (length P) → st i x (mk_mst (P ++ c :: R) o) = Some (tt, mk_mst (P ++ x :: R) o).
Proof.
  intros ->. unfold st. cbn. rewrite length_app. cbn. rewrite (proj2 (Z.leb_le _ _)), (proj2 (Z.ltb_lt _ _)) by lia.
  cbn. rewrite Nat2Z.id. by rewrite insert_app_r_alt, Nat.sub_diag by lia.
Qed.

Lemma until_nul_app t R : Forall (λ c, c ≠ 0) t → until_nul (t ++ 0 :: R) = Some t.
Proof.
  induction 1 as [|c t Hc Ht IH]; cbn; [done|]. rewrite (proj2 (Z.eqb_neq _ _)) by done. by rewrite IH.
Qed.

Section split_lemmas.
Context (cmd len : Z) (E : list Z) (o : list Z).

(** The blanks in front of the rest [T] of the line become NULs. *)
Lemma skip_blanks_run T : ∀ fuel P position,
  Z.of_nat (length P) = cmd + position → len = position + Z.of_nat (length T) → (length T < fuel)%nat →
  let '(B, T') := span blank T in
  skip_blanks cmd len fuel position (mk_mst (P ++ T ++ 0 :: E) o) =
    Some (position + Z.of_nat (length B), mk_mst ((P ++ replicate (length B) 0) ++ T' ++ 0 :: E) o).
Proof.
  induction T as [|c T IH]; intros [|fuel] P position HP Hlen Hf; cbn [length] in *; try lia; cbn [span skip_blanks].
  - unfold bind. rewrite (ld_run _ _ P 0 E) by done. cbn. unfold ret. rewrite app_nil_r. do 2 f_equal. lia.
  - unfold bind at 1. rewrite (ld_run _ _ P c (T ++ 0 :: E)) by done. destruct (blank c) eqn:Hb; cbn [andb fst snd].
    + rewrite (proj2 (Z.ltb_lt _ _)) by lia. unfold bind. cbn [app]. rewrite st_run by done.
      specialize (IH fuel (P ++ [0]) (position + 1)). rewrite length_app in IH. cbn [length] in IH.
      specialize (IH ltac:(lia) ltac:(lia) ltac:(lia)). destruct (span blank T) as [B T'].
      rewrite <- app_assoc in IH. cbn in IH. cbn [fst snd length replicate]. rewrite IH.
      do 2 f_equal; [lia|]. f_equal. by rewrite <- !app_assoc.
    + unfold ret. cbn [length replicate]. rewrite app_nil_r. do 2 f_equal. lia.
Qed.

Lemma skip_word_run T : ∀ fuel P position,
  Z.of_nat (length P) = cmd + position → len = position + Z.of_nat (length T) → (length T < fuel)%nat →
  skip_word cmd len fuel position (mk_mst (P ++ T ++ 0 :: E) o) =
    Some (position + Z.of_nat (length (span unblank T).1), mk_mst (P ++ T ++ 0 :: E) o).
Proof.
  induction T as [|c T IH]; intros [|fuel] P position HP Hlen Hf; cbn [length] in *; try lia; cbn [span skip_word].
  - unfold bind. rewrite (ld_run _ _ P 0 E) by done. cbn. rewrite (proj2 (Z.ltb_ge _ _)) by lia. unfold ret. do 2 f_equal. lia.
  - unfold bind at 1. rewrite (ld_run _ _ P c (T ++ 0 :: E)) by done. fold (unblank c). destruct (unblank c) eqn:Hb; cbn [andb fst snd].
    + rewrite (proj2 (Z.ltb_lt _ _)) by lia.
      specialize (IH fuel (P ++ [c]) (position + 1)). rewrite length_app in IH. cbn [length] in IH.
      specialize (IH ltac:(lia) ltac:(lia) ltac:(lia)). rewrite <- !app_assoc in IH. cbn in IH. cbn [app length]. rewrite IH.
      do 2 f_equal. lia.
    + unfold ret. cbn. do 2 f_equal. lia.
Qed.

Lemma skip_string_run T : ∀ fuel P position,
  Z.of_nat (length P) = cmd + position → len = position + Z.of_nat (length T) → (length T < fuel)%nat →
  skip_string cmd len fuel position (mk_mst (P ++ T ++ 0 :: E) o) =
    Some (position + Z.of_nat (length (quoted T).1), mk_mst (P ++ T ++ 0 :: E) o).
Proof.
  induction T as [|c|c c' T IH1 IH2] using list_pairs_ind; intros [|fuel] P position HP Hlen Hf; cbn [length] in *; try lia.
  - cbn. unfold bind. rewrite (ld_run _ _ P 0 E) by done. cbn. rewrite (proj2 (Z.ltb_ge _ _)) by lia. unfold ret. do 2 f_equal. lia.
  - cbn. unfold bind at 1. rewrite (ld_run _ _ P c (0 :: E)) by done. destruct (Z.eqb_spec c 34); cbn [negb andb].
    { unfold ret. cbn. do 2 f_equal. lia. }
    rewrite (proj2 (Z.ltb_lt _ _)) by lia. destruct fuel as [|fuel]; [lia|].
    assert (skip_string cmd len (S fuel) (position + 1) (mk_mst (P ++ c :: 0 :: E) o) = Some (position + 1, mk_mst (P ++ c :: 0 :: E) o)) as Hend.
    { cbn. unfold bind at 1. rewrite (ld_run _ _ (P ++ [c]) 0 E); [|by rewrite <- app_assoc|rewrite length_app; cbn; lia].
      cbn. rewrite (proj2 (Z.ltb_ge _ _)) by lia. done. }
    destruct (Z.eqb_spec c 92) as [->|]; unfold bind at 1; [|unfold ret at 1; rewrite Hend; cbn; do 2 f_equal; lia].
    unfold bind at 1. rewrite (ld_run _ _ (P ++ [92]) 0 E); [|by rewrite <- app_assoc|rewrite length_app; cbn; lia].
    cbn [Z.eqb]. unfold ret at 1. rewrite Hend. cbn. by rewrite Z.add_1_r.
  - rewrite quoted_cons. cbn [skip_string]. unfold bind at 1. rewrite (ld_run _ _ P c (c' :: T ++ 0 :: E)) by done.
    destruct (Z.eqb_spec c 34); cbn [negb andb]; [unfold ret; cbn; do 2 f_equal; lia|].
    rewrite (proj2 (Z.ltb_lt _ _)) by lia.
    specialize (IH1 fuel (P ++ [c; c']) (position + 1 + 1)). specialize (IH2 fuel (P ++ [c]) (position + 1)).
    rewrite length_app in IH1, IH2. cbn [length] in *. specialize (IH1 ltac:(lia) ltac:(lia) ltac:(lia)).
    specialize (IH2 ltac:(lia) ltac:(lia) ltac:(lia)). rewrite <- !app_assoc in IH1, IH2. cbn [app] in IH1, IH2.
    destruct (Z.eqb_spec c 92) as [->|]; unfold bind at 1; cbn [andb].
    + unfold bind at 1. rewrite (ld_run _ _ (P ++ [92]) c' (T ++ 0 :: E)); [|by rewrite <- app_assoc|rewrite length_app; cbn; lia].
      destruct (c' =? 34); unfold ret; cbn [app fst snd]; rewrite ?IH1, ?IH2; cbn [length]; do 2 f_equal; lia.
    + unfold ret. cbn [app fst snd]. rewrite IH2. cbn [length]. do 2 f_equal. lia.
Qed.
End split_lemmas.

(** ** Output *)

Lemma kprintf_text fmt args t s :
  format_text fmt args = Some t → Z.of_nat (length t) < 2 ^ 31 →
  kprintf fmt args s = Some (tt, mk_mst (m_buf s) (m_out s ++ console_text t)).
Proof. intros Ht Hl. unfold kprintf. by rewrite (kprintf_run _ _ _ Ht Hl). Qed.

Lemma console_short t : (length t ≤ 126)%nat → Forall (λ c, 0 ≤ c < 256) t → console_text t = t.
Proof.
  intros Hl Ht. unfold console_text. rewrite (proj2 (Nat.leb_le _ _)) by done. clear Hl.
  induction Ht as [|c t Hc Ht IH]; [done|]. cbn. by rewrite IH, Z.mod_small.
Qed.

Lemma text_loop_plain n t args : Forall (λ c, c ≠ 37) t → (length t ≤ n)%nat → text_loop n t args = Some t.
Proof.
  revert t. induction n as [|n IH]; intros [|c t] Ht Hn; cbn in *; try done; [lia|].
  inversion Ht as [|? ? Hc Ht']; subst. rewrite (proj2 (Z.eqb_neq _ _)) by done. cbn. by rewrite IH by (done || lia).
Qed.

Lemma format_plain t : Forall (λ c, c ≠ 37) t → format_text t [] = Some t.
Proof. intros Ht. by apply text_loop_plain. Qed.

(** ["%s"] *)
Lemma directive_string rest t args : directive_text (115 :: rest) (VStr (Some t) :: args) = Some (rest, args, t).
Proof.
  transitivity (Some (rest, args, string_text (-1) (-1) 0 (Some t))); [reflexivity|].
  unfold string_text, aligned_text. cbn. by rewrite chars_none by lia.
Qed.

Lemma format_string t rest :
  Forall (λ c, c ≠ 37) rest → format_text (37 :: 115 :: rest) [VStr (Some t)] = Some (t ++ rest).
Proof.
  intros Hr. unfold format_text. change (length (37 :: 115 :: rest)) with (S (S (length rest))).
  transitivity ('(fmt, args, t) ← directive_text (115 :: rest) [VStr (Some t)]; app t <$> text_loop (S (length rest)) fmt args)%stdpp;
    [reflexivity|].
  rewrite directive_string. cbn [mbind option_bind]. by rewrite text_loop_plain by (done || lia).
Qed.

(** ** Arguments in the command line *)

(** The array holds the string [t] at [a]. *)
Definition string_at (buf : list Z) (a : Z) (t : list Z) : Prop :=
  ∃ A C, buf = A ++ t ++ 0 :: C ∧ a = Z.of_nat (length A) ∧ Forall (λ c, c ≠ 0) t.

Lemma str_at_run s a t : string_at (m_buf s) a t → str_at a s = Some (t, s).
Proof.
  intros (A & C & E & -> & Ht). unfold str_at. rewrite (proj2 (Z.leb_le _ _)) by lia.
  rewrite Nat2Z.id, E, drop_app_length. by rewrite until_nul_app.
Qed.

(** An argument in the part [P] of the line that has been split: it ends with a NUL, or
    where [P] ends, in front of a blank or the end [T] of the line. *)
Definition argument (P T : list Z) (a : Z) (t : list Z) : Prop :=
  ∃ A C, P = A ++ t ++ C ∧ a = Z.of_nat (length A) ∧ Forall (λ c, c ≠ 0) t ∧
    match C, T with
    | [], [] => True
    | [], c :: _ => blank c = true
    | c :: _, _ => c = 0
    end.

Lemma argument_blanks P T a t :
  argument P T a t → argument (P ++ replicate (length (span blank T).1) 0) (span blank T).2 a t.
Proof.
  intros (A & C & -> & -> & Ht & Hend). exists A, (C ++ replicate (length (span blank T).1) 0).
  split; [by rewrite <- !app_assoc|]. split; [done|]. split; [done|].
  destruct C as [|c C]; [|done]. destruct T as [|c T]; [done|]. cbn. rewrite Hend. done.
Qed.

(** When no blank follows, the argument is a string of the array. *)
Lemma argument_string P T E a t :
  argument P T a t → match T with [] => True | c :: _ => blank c = false end → string_at (P ++ T ++ 0 :: E) a t.
Proof.
  intros (A & C & -> & -> & Ht & Hend) HT. destruct C as [|c C].
  - destruct T as [|c T]; [|congruence]. exists A, E. rewrite app_nil_r, <- app_assoc. done.
  - subst c. exists A, (C ++ T ++ 0 :: E). split; [|done]. by rewrite <- !app_assoc.
Qed.

Lemma argument_more P T a t Q T' : argument P T a t → (match T with [] => True | c :: _ => blank c = false end) → T ≠ [] →
  argument (P ++ Q) T' a t.
Proof.
  intros (A & C & -> & -> & Ht & Hend) HT Hne. destruct C as [|c C].
  - destruct T as [|c T]; [done|congruence].
  - exists A, ((c :: C) ++ Q). split; [by rewrite <- !app_assoc|]. done.
Qed.

Lemma print_args_run argv ts s :
  Forall2 (string_at (m_buf s)) argv ts → ∃ o', print_args argv s = Some (tt, mk_mst (m_buf s) o').
Proof.
  revert ts s. induction argv as [|a argv IH]; intros ts s Hall; inversion Hall as [|? t ? ts' Ha Hall']; subst.
  - exists (m_out s). by destruct s.
  - cbn. unfold bind at 1. rewrite (str_at_run s a t Ha). unfold bind.
    destruct (kprintf_returns [37; 115; 32] [VStr (Some t)] (t ++ [32])) as [d Hd]; [by apply format_string, Forall_singleton|].
    unfold kprintf. rewrite Hd. by apply (IH ts' (mk_mst (m_buf s) _)).
Qed.

(** [m] ends with arguments that are the strings [ts], as many as there is room for, and
    prints nothing when there is room to spare. *)
Definition splits (m : M mst (list Z)) (s : mst) (ts : list (list Z)) : Prop :=
  ∃ argv buf o, m s = Some (argv, mk_mst buf o) ∧ length buf = length (m_buf s) ∧
    Forall2 (string_at buf) argv (take FINSH_ARG_MAX ts) ∧ ((length ts < FINSH_ARG_MAX)%nat → o = m_out s).

(** The arguments are complete. *)
Lemma splits_end m s argv ts :
  m s = Some (argv, s) → Forall2 (string_at (m_buf s)) argv ts → (length argv ≤ FINSH_ARG_MAX)%nat → splits m s ts.
Proof.
  intros Hm Hs Hn. exists argv, (m_buf s), (m_out s). split_and!; [by destruct s|done| |done].
  by rewrite take_ge by (by rewrite <- (Forall2_length _ _ _ Hs)).
Qed.

Lemma splits_bind {A} (m : M mst A) f a s s1 ts :
  m s = Some (a, s1) → length (m_buf s1) = length (m_buf s) → m_out s1 = m_out s → splits (f a) s1 ts → splits (bind m f) s ts.
Proof.
  intros Hm Hl Ho (argv & buf & o & Hr & Hb & Hs & Hq). exists argv, buf, o.
  split_and!; [by unfold bind; rewrite Hm|by rewrite Hb|done|by rewrite <- Ho].
Qed.

Lemma splits_gets {A B} (f : mst → A) (k : A → M mst B) g s ts :
  splits (bind (k (f s)) g) s ts → splits (bind (bind (gets f) k) g) s ts.
Proof. done. Qed.

Definition split_goal (cmd len : Z) (E : list Z) (fuel : nat) : Prop := ∀ T P position argv ts o,
  Z.of_nat (length P) = cmd + position → len = position + Z.of_nat (length T) → (length T < fuel)%nat →
  Forall (λ c, c ≠ 0) T → (length argv ≤ FINSH_ARG_MAX)%nat → Forall2 (argument P T) argv ts →
  splits (split_loop cmd len fuel position argv) (mk_mst (P ++ T ++ 0 :: E) o) (ts ++ tokens T).

(** A string in quotes. *)
Lemma split_string_step cmd len E fuel T P position argv ts o (n : nat) :
  split_goal cmd len E fuel →
  Z.of_nat (length P) = cmd + position → len = position + Z.of_nat (length (34 :: T)) → (length T < fuel)%nat →
  Forall (λ c, c ≠ 0) T → (length argv < FINSH_ARG_MAX)%nat → (length T < n)%nat → Forall2 (argument P (34 :: T)) argv ts →
  splits (position' ← skip_string cmd len n (position + 1);
          if len <=? position' then ret (argv ++ [cmd + (position + 1)])
          else st (cmd + position') 0 ;; split_loop cmd len fuel (position' + 1) (argv ++ [cmd + (position + 1)]))
    (mk_mst (P ++ (34 :: T) ++ 0 :: E) o) (ts ++ (quoted T).1 :: tokens (tail (quoted T).2)).
Proof.
  intros IH HP Hlen Hf Hnz Hmax Hn Hargs. cbn [length] in Hlen.
  assert (P ++ (34 :: T) ++ 0 :: E = (P ++ [34]) ++ T ++ 0 :: E) as HE by (by rewrite <- app_assoc). rewrite HE.
  pose proof (skip_string_run cmd len E o T n (P ++ [34]) (position + 1)) as Hss. rewrite length_app in Hss. cbn [length] in Hss.
  specialize (Hss ltac:(lia) ltac:(lia) Hn). pose proof (quoted_app T) as HQ. pose proof (quoted_rest T) as HR.
  destruct (quoted T) as [Q R]. cbn [fst snd] in *. assert (length T = (length Q + length R)%nat) as HT by (rewrite <- HQ; by rewrite length_app).
  assert (Forall (λ c, c ≠ 0) Q ∧ Forall (λ c, c ≠ 0) R) as [HQz HRz] by (rewrite <- HQ in Hnz; by apply Forall_app in Hnz).
  destruct R as [|c R]; cbn [length] in HT.
  - rewrite app_nil_r in HQ. subst Q. apply (splits_end _ _ (argv ++ [cmd + (position + 1)])).
    + unfold bind. rewrite Hss. rewrite (proj2 (Z.leb_le _ _)) by lia. done.
    + rewrite tokens_eq. cbn [tail span fst snd m_buf]. apply Forall2_app; [|constructor; [|done]].
      * rewrite <- HE. eapply Forall2_impl; [exact Hargs|]. intros a t Ha. by apply argument_string.
      * exists (P ++ [34]), E. rewrite length_app. cbn. split; [done|]. split; [lia|done].
    + rewrite length_app. cbn. lia.
  - subst c. specialize (IH R (P ++ [34] ++ Q ++ [0]) (position + 1 + Z.of_nat (length Q) + 1) (argv ++ [cmd + (position + 1)]) (ts ++ [Q]) o).
    rewrite !length_app in IH. cbn [length] in IH. destruct IH as (argv' & buf' & o' & Hr & Hl & Hs & Ho); [lia|lia|lia| |lia| |].
    { by inversion HRz. }
    { apply Forall2_app; [|constructor; [|done]].
      - eapply Forall2_impl; [exact Hargs|]. intros a t Ha. by apply (argument_more P (34 :: T)).
      - exists (P ++ [34]), [0]. rewrite length_app. cbn. split; [by rewrite <- !app_assoc|]. split; [lia|done]. }
    rewrite <- app_assoc in Hs, Ho. cbn [app tail] in Hs, Ho |- *.
    exists argv', buf', o'. split_and!; [|rewrite Hl; cbn [m_buf]; rewrite !length_app; cbn [length]; lia|done|done].
    unfold bind at 1. rewrite Hss. rewrite (proj2 (Z.leb_gt _ _)) by lia. unfold bind at 1.
    assert ((P ++ [34]) ++ T ++ 0 :: E = (P ++ [34] ++ Q) ++ 34 :: R ++ 0 :: E) as -> by (rewrite <- HQ, <- !app_assoc; done).
    rewrite st_run by (rewrite !length_app; cbn; lia). rewrite <- Hr. do 2 f_equal. rewrite <- !app_assoc. done.
Qed.

(** A word. *)
Lemma split_word_step cmd len E fuel c T P position argv ts o (n : nat) :
  split_goal cmd len E fuel → blank c = false →
  Z.of_nat (length P) = cmd + position → len = position + Z.of_nat (length (c :: T)) → (length T < fuel)%nat →
  Forall (λ c, c ≠ 0) (c :: T) → (length argv < FINSH_ARG_MAX)%nat → (length (c :: T) < n)%nat → Forall2 (argument P (c :: T)) argv ts →
  splits (position' ← skip_word cmd len n position;
          if len <=? position' then ret (argv ++ [cmd + position])
          else split_loop cmd len fuel position' (argv ++ [cmd + position]))
    (mk_mst (P ++ (c :: T) ++ 0 :: E) o) (ts ++ (span unblank (c :: T)).1 :: tokens (span unblank (c :: T)).2).
Proof.
  intros IH Hc HP Hlen Hf Hnz Hmax Hn Hargs.
  pose proof (skip_word_run cmd len E o (c :: T) n P position HP Hlen Hn) as Hss.
  pose proof (span_app unblank (c :: T)) as HW. pose proof (span_rest unblank (c :: T)) as HR.
  assert (length (span unblank (c :: T)).1 ≠ 0%nat) as H1 by (cbn; unfold unblank; by rewrite Hc).
  destruct (span unblank (c :: T)) as [W R]. cbn [fst snd] in *.
  assert (length (c :: T) = (length W + length R)%nat) as HT by (rewrite <- HW; by rewrite length_app).
  assert (Forall (λ c, c ≠ 0) W ∧ Forall (λ c, c ≠ 0) R) as [HWz HRz] by (rewrite <- HW in Hnz; by apply Forall_app in Hnz).
  destruct R as [|d R]; cbn [length] in HT, Hlen.
  - rewrite app_nil_r in HW. subst W. apply (splits_end _ _ (argv ++ [cmd + position])).
    + unfold bind. rewrite Hss. rewrite (proj2 (Z.leb_le _ _)) by (cbn [length] in *; lia). done.
    + rewrite tokens_eq. cbn [span fst snd m_buf]. apply Forall2_app; [|constructor; [|done]].
      * eapply Forall2_impl; [exact Hargs|]. intros a t Ha. by apply argument_string.
      * exists P, E. split; [done|]. split; [lia|done].
    + rewrite length_app. cbn. lia.
  - specialize (IH (d :: R) (P ++ W) (position + Z.of_nat (length W)) (argv ++ [cmd + position]) (ts ++ [W]) o).
    rewrite !length_app in IH. cbn [length] in IH. destruct IH as (argv' & buf' & o' & Hr & Hl & Hs & Ho); [lia|lia|lia|done|lia| |].
    { apply Forall2_app; [|constructor; [|done]].
      - eapply Forall2_impl; [exact Hargs|]. intros a t Ha. by apply (argument_more P (c :: T)).
      - exists P, []. rewrite app_nil_r. split; [done|]. split; [lia|]. split; [done|]. unfold unblank in HR. by destruct (blank d). }
    rewrite <- app_assoc in Hs, Ho. cbn [app] in Hs, Ho.
    exists argv', buf', o'. split_and!; [|rewrite Hl; cbn [m_buf]; rewrite !length_app; cbn [length] in *; lia|done|done].
    unfold bind at 1. rewrite Hss. rewrite (proj2 (Z.leb_gt _ _)) by lia. rewrite <- Hr, <- HW. by rewrite <- !app_assoc.
Qed.

Lemma split_loop_run cmd len E fuel : split_goal cmd len E fuel.
Proof.
  induction fuel as [|fuel IH]; intros T P position argv ts o HP Hlen Hf Hnz Hargc Hargs; [lia|]. cbn [split_loop].
  destruct (Z.ltb_spec position len) as [Hlt|Hge].
  2:{ destruct T as [|c T]; [|cbn in Hlen; lia]. rewrite tokens_eq. cbn [span snd]. rewrite app_nil_r.
      apply (splits_end _ _ argv); [done| |done]. eapply Forall2_impl; [exact Hargs|]. intros a t Ha. exact (argument_string P [] E a t Ha I). }
  pose proof (skip_blanks_run cmd len E o T (S (length (m_buf (mk_mst (P ++ T ++ 0 :: E) o)))) P position HP Hlen) as Hsb.
  rewrite (surjective_pairing (span blank T)) in Hsb. specialize (Hsb ltac:(cbn; rewrite !length_app; lia)).
  set (B := (span blank T).1) in *. pose proof (span_app blank T) as HBT. fold B in HBT.
  assert (Forall2 (argument (P ++ replicate (length B) 0) (span blank T).2) argv ts) as Hargs1.
  { eapply Forall2_impl; [exact Hargs|]. intros a t. apply argument_blanks. }
  pose proof (span_rest blank T) as Hrest. rewrite (tokens_eq T).
  set (P1 := P ++ replicate (length B) 0) in *. set (T1 := (span blank T).2) in *.
  assert (length P1 = (length P + length B)%nat) as HP1 by (unfold P1; rewrite length_app, length_replicate; lia).
  assert (length T = (length B + length T1)%nat) as HT1 by (rewrite <- HBT at 1; by rewrite length_app).
  assert (length (P1 ++ T1 ++ 0 :: E) = length (P ++ T ++ 0 :: E)) as Hlen1 by (rewrite !length_app; cbn; lia).
  assert (Forall2 (string_at (P1 ++ T1 ++ 0 :: E)) argv ts) as Hstr.
  { eapply Forall2_impl; [exact Hargs1|]. intros a t Ha. by apply argument_string. }
  assert (Forall (λ c, c ≠ 0) T1) as HnzT1 by (rewrite <- HBT in Hnz; by apply Forall_app in Hnz as [_ ?]).
  eapply splits_bind; [exact Hsb|exact Hlen1|done|].
  destruct (Nat.leb_spec FINSH_ARG_MAX (length argv)) as [Hmax|Hmax].
  { assert (length ts = FINSH_ARG_MAX) as Hts by (rewrite <- (Forall2_length _ _ _ Hargs); lia).
    destruct (print_args_run argv ts (mk_mst (P1 ++ T1 ++ 0 :: E) (o ++ console_text too_many_args)) Hstr) as [o1 Ho1].
    eexists argv, (P1 ++ T1 ++ 0 :: E), _. split_and!; [|done|by rewrite <- Hts, take_app_length|rewrite length_app; lia].
    unfold bind. rewrite (kprintf_text _ _ too_many_args); [|apply format_plain; repeat constructor; done|cbn; lia].
    cbn [m_buf m_out] in *. rewrite Ho1. by rewrite (kprintf_text _ _ [10] _ (format_plain [10] ltac:(by apply Forall_singleton))) by (cbn; lia). }
  destruct (Z.leb_spec len (position + Z.of_nat (length B))) as [Hend|Hmore].
  { destruct T1 as [|c T2]; [|cbn in *; lia]. rewrite app_nil_r. apply (splits_end _ _ argv); [done|exact Hstr|done]. }
  destruct T1 as [|c T2] eqn:ET1; [cbn in *; lia|]. cbn [length] in HT1.
  eapply splits_bind; [by apply (ld_run _ _ P1 c (T2 ++ 0 :: E)); [|lia]|done|done|].
  destruct (Z.eqb_spec c 34) as [->|Hc].
  - apply splits_gets, split_string_step; try done; cbn [length m_buf]; [lia|lia|lia|by inversion HnzT1|].
    rewrite !length_app. cbn. lia.
  - apply splits_gets, split_word_step; try done; cbn [length m_buf]; [lia|lia|lia|].
    rewrite !length_app. cbn. lia.
Qed.

Lemma msh_split_run P T E o :
  Forall (λ c, c ≠ 0) T →
  splits (msh_split (Z.of_nat (length P)) (Z.of_nat (length T))) (mk_mst (P ++ T ++ 0 :: E) o) (tokens T).
Proof.
  intros HT. unfold msh_split. apply (splits_bind _ _ (length (P ++ T ++ 0 :: E)) _ (mk_mst (P ++ T ++ 0 :: E) o)); [done..|].
  apply (split_loop_run _ _ E _ T P 0 [] [] o); [lia|lia| |done|cbn; lia|done]. rewrite !length_app. cbn. lia.
Qed.

(** ** Commands *)

(** Names of less than 2^30 characters, which all names in the address space are. *)
Definition names_fit (table : list finsh_syscall) : Prop := Forall (λ x, Z.of_nat (length (fs_name x)) < 2 ^ 30) table.

(** What the table says about a name: the function of the first command of that name. *)
Fixpoint find_command (l : list finsh_syscall) (name : list Z) : option Z :=
  match l with
  | [] => None
  | x :: l => if is_command x && bool_decide (drop 6 (fs_name x) = name) then Some (fs_func x) else find_command l name
  end.

Lemma strncmp_eq_prefix W R name :
  Forall (λ c, c ≠ 0) W → Forall (λ c, c ≠ 0) name →
  strncmp_eq (length W) name (W ++ R) = true ↔ ∃ name', name = W ++ name'.
Proof.
  revert name. induction W as [|w W IH]; intros name HW Hn; cbn [length strncmp_eq app]; [split; [eauto|done]|].
  inversion HW as [|? ? Hw HW']; subst. destruct name as [|c name].
  - change (Str.char_at []) with 0. change (Str.char_at (w :: W ++ R)) with w. rewrite (proj2 (Z.eqb_neq 0 w)) by done.
    split; [done|]. by intros [? ?].
  - change (Str.char_at (c :: name)) with c. change (Str.char_at (w :: W ++ R)) with w. cbn [tail].
    inversion Hn as [|? ? Hc Hn']; subst. destruct (Z.eqb_spec c w) as [->|Hne]; cbn [andb].
    + rewrite (proj2 (Z.eqb_neq w 0)) by done. cbn [orb]. rewrite IH by done. split; intros [n' E]; exists n'; congruence.
    + split; [done|]. intros [n' [= ? _]]. done.
Qed.

Definition table_ok (table : list finsh_syscall) : Prop :=
  Forall (λ x, Forall (λ c, 0 < c < 256) (fs_name x)) table.

Lemma is_command_name x : is_command x = true → Forall (λ c, c ≠ 0) (fs_name x) → fs_name x = cmd_prefix ++ drop 6 (fs_name x).
Proof.
  intros Hc Hn. unfold is_command in Hc. change cmd_prefix with (cmd_prefix ++ []) in Hc.
  change 6%nat with (length cmd_prefix) in Hc. apply strncmp_eq_prefix in Hc as [n' ->]; [|repeat constructor; done|done].
  by change 6%nat with (length cmd_prefix); rewrite drop_app_length.
Qed.

Lemma name_nonzero table x : table_ok table → x ∈ table → Forall (λ c, c ≠ 0) (fs_name x).
Proof. intros Ht Hin. unfold table_ok in Ht. rewrite Forall_forall in Ht. eapply Forall_impl; [by apply Ht|]. cbn. lia. Qed.

Lemma get_cmd_run table W R :
  table_ok table → Forall (λ c, c ≠ 0) W → get_cmd table (W ++ R) (length W) = Some (find_command table W).
Proof.
  intros Ht HW. induction table as [|x table IH]; [done|]. pose proof (name_nonzero _ x Ht (list_elem_of_here _ _)) as Hx.
  specialize (IH (Forall_inv_tail Ht)). cbn [get_cmd find_command]. destruct (is_command x) eqn:Hc; cbn [andb]; [|done].
  pose proof (is_command_name x Hc Hx) as Hname. set (name := drop 6 (fs_name x)) in *.
  assert (Forall (λ c, c ≠ 0) name) as Hn by (rewrite Hname in Hx; by apply Forall_app in Hx as [_ ?]).
  destruct (strncmp_eq (length W) name (W ++ R)) eqn:Hs.
  - apply strncmp_eq_prefix in Hs as [n' Hn']; [|done|done]. rewrite Hname, Hn', <- !app_assoc.
    change (6 + length W)%nat with (length cmd_prefix + length W)%nat. rewrite lookup_app_r by lia.
    replace (length cmd_prefix + length W - length cmd_prefix)%nat with (length W) by lia.
    rewrite lookup_app_r, Nat.sub_diag by lia. destruct n' as [|c n']; cbn [app lookup list_lookup].
    + rewrite app_nil_r. by rewrite bool_decide_eq_true_2.
    + rewrite (proj2 (Z.eqb_neq c 0)); [|rewrite Hn' in Hn; apply Forall_app in Hn as [_ Hn]; by inversion Hn].
      rewrite bool_decide_eq_false_2; [done|]. intros E. apply (f_equal length) in E. rewrite length_app in E. cbn in E. lia.
  - rewrite bool_decide_eq_false_2; [done|]. intros E. apply not_true_iff_false in Hs. apply Hs, strncmp_eq_prefix; [done|done|].
    exists []. by rewrite app_nil_r.
Qed.

Lemma strip_loop_run T : ∀ fuel P E o,
  (length T < fuel)%nat → Z.of_nat (length T) < 2 ^ 32 → Forall (λ c, c ≠ 0) T →
  strip_loop fuel (Z.of_nat (length P)) (Z.of_nat (length T)) (mk_mst (P ++ T ++ 0 :: E) o) =
    Some ((Z.of_nat (length (P ++ (span blank T).1)), Z.of_nat (length (span blank T).2)), mk_mst (P ++ T ++ 0 :: E) o).
Proof.
  induction T as [|c T IH]; intros [|fuel] P E o Hf Hlt Hnz; cbn [length] in *; try lia; cbn [strip_loop span].
  - unfold bind. rewrite (ld_run _ _ P 0 E) by done. cbn. by rewrite app_nil_r.
  - unfold bind at 1. rewrite (ld_run _ _ P c (T ++ 0 :: E)) by done. destruct (blank c) eqn:Hb; cbn [fst snd].
    + inversion Hnz; subst. specialize (IH fuel (P ++ [c]) E o ltac:(lia) ltac:(lia) ltac:(done)).
      rewrite length_app in IH. cbn [length] in IH. replace (Z.of_nat (length P) + 1) with (Z.of_nat (length P + 1)) by lia.
      rewrite wrap_small by lia. replace (Z.of_nat (S (length T)) - 1) with (Z.of_nat (length T)) by lia.
      rewrite <- !app_assoc in IH. exact IH.
    + cbn [length]. by rewrite app_nil_r.
Qed.

Lemma cmd0_loop_run cmd len E o T : ∀ fuel P n,
  Z.of_nat (length P) = cmd + n → len = n + Z.of_nat (length T) → (length T < fuel)%nat →
  cmd0_loop fuel cmd len n (mk_mst (P ++ T ++ 0 :: E) o) =
    Some (n + Z.of_nat (length (span unblank T).1), mk_mst (P ++ T ++ 0 :: E) o).
Proof.
  induction T as [|c T IH]; intros [|fuel] P n HP Hlen Hf; cbn [length] in *; try lia; cbn [span cmd0_loop].
  - unfold bind. rewrite (ld_run _ _ P 0 E) by done. cbn. rewrite (proj2 (Z.ltb_ge _ _)) by lia. unfold ret. do 2 f_equal. lia.
  - unfold bind at 1. rewrite (ld_run _ _ P c (T ++ 0 :: E)) by done. fold (unblank c). destruct (unblank c) eqn:Hb; cbn [andb fst snd].
    + rewrite (proj2 (Z.ltb_lt _ _)) by lia.
      specialize (IH fuel (P ++ [c]) (n + 1)). rewrite length_app in IH. cbn [length] in IH.
      specialize (IH ltac:(lia) ltac:(lia) ltac:(lia)). rewrite <- !app_assoc in IH. cbn in IH. cbn [app length]. rewrite IH.
      do 2 f_equal. lia.
    + unfold ret. cbn. do 2 f_equal. lia.
Qed.

Definition not_space (c : Z) : bool := negb (c =? 32).

Lemma truncate_loop_run T : ∀ fuel P E o,
  (length T < fuel)%nat → Forall (λ c, c ≠ 0) T →
  ∃ R, truncate_loop fuel (Z.of_nat (length P)) (mk_mst (P ++ T ++ 0 :: E) o) =
    Some (tt, mk_mst (P ++ (span not_space T).1 ++ 0 :: R) o) ∧
    (length (span not_space T).1 + length R = length T + length E)%nat.
Proof.
  induction T as [|c T IH]; intros [|fuel] P E o Hf Hnz; cbn [length] in *; try lia; cbn [truncate_loop span].
  - unfold bind. rewrite (ld_run _ _ P 0 E) by done. cbn. exists E. split; [by rewrite st_run|done].
  - inversion Hnz as [|? ? Hc Hnz']; subst. unfold bind at 1. rewrite (ld_run _ _ P c (T ++ 0 :: E)) by done.
    rewrite (proj2 (Z.eqb_neq c 0)) by done. fold (not_space c). destruct (not_space c) eqn:Hb; cbn [andb negb fst snd].
    + destruct (IH fuel (P ++ [c]) E o ltac:(lia) Hnz') as (R & HR & HL). exists R. split; [|cbn [length]; lia]. rewrite length_app in HR. cbn [length] in HR.
      replace (Z.of_nat (length P) + 1) with (Z.of_nat (length P + 1)) by lia. rewrite <- !app_assoc in HR. exact HR.
    + exists (T ++ 0 :: E). split; [cbn [app]; by rewrite st_run|]. rewrite length_app. cbn. lia.
Qed.

Lemma span_idemp p l : span p (span p l).2 = ([], (span p l).2).
Proof. pose proof (span_rest p l) as H. destruct (span p l).2 as [|c r]; [done|]. cbn. by rewrite H. Qed.

Lemma tokens_strip l : tokens (span blank l).2 = tokens l.
Proof. rewrite (tokens_eq (span blank l).2), (tokens_eq l). by rewrite span_idemp. Qed.

Lemma tokens_none l : tokens l = [] → (span blank l).2 = [].
Proof. rewrite tokens_eq. destruct (span blank l).2 as [|c l']; [done|]. by destruct (c =? 34). Qed.

Section exec.
Context (table : list finsh_syscall) (run_cmd : Z → list Z → M mst Z) (Htable : table_ok table).

(** [_msh_exec_cmd] on the line without leading blanks. *)
Lemma exec_cmd_run P c T E o :
  Forall (λ c, c ≠ 0) (c :: T) → blank c = false →
  let s := mk_mst (P ++ (c :: T) ++ 0 :: E) o in
  match find_command table (span unblank (c :: T)).1 with
  | None => _msh_exec_cmd table run_cmd (Z.of_nat (length P)) (Z.of_nat (length (c :: T))) s = Some ((-1, 0), s)
  | Some f => ∃ argv buf o', length buf = length (m_buf s) ∧ Forall2 (string_at buf) argv (take FINSH_ARG_MAX (tokens (c :: T))) ∧
      ((length (tokens (c :: T)) < FINSH_ARG_MAX)%nat → o' = o) ∧
      _msh_exec_cmd table run_cmd (Z.of_nat (length P)) (Z.of_nat (length (c :: T))) s =
        (r ← run_cmd f argv; ret (0, r)) (mk_mst buf o')
  end.
Proof.
  intros Hnz Hc s. unfold _msh_exec_cmd.
  pose proof (cmd0_loop_run (Z.of_nat (length P)) (Z.of_nat (length (c :: T))) E o (c :: T) (S (length (m_buf s))) P 0
    ltac:(lia) ltac:(lia) ltac:(cbn [s m_buf]; rewrite !length_app; lia)) as Hc0. fold s in Hc0.
  pose proof (span_app unblank (c :: T)) as HW. assert (length (span unblank (c :: T)).1 ≠ 0%nat) as H1 by (cbn; unfold unblank; by rewrite Hc).
  set (W := (span unblank (c :: T)).1) in *. set (R := (span unblank (c :: T)).2) in *.
  assert (Forall (λ c, c ≠ 0) W) as HWz by (rewrite <- HW in Hnz; by apply Forall_app in Hnz as [? _]).
  assert (msh_get_cmd table (Z.of_nat (length P)) (length W) s = Some (find_command table W, s)) as Hget.
  { unfold msh_get_cmd, bind, gets, from_opt. cbn [s m_buf]. rewrite Nat2Z.id, drop_app_length, <- HW, <- app_assoc.
    by rewrite (get_cmd_run table W) by done. }
  assert (∀ k : Z → M mst (Z * Z), (x ← (n ← gets (λ s, length (m_buf s)); cmd0_loop (S n) (Z.of_nat (length P)) (Z.of_nat (length (c :: T))) 0); k x) s
    = k (Z.of_nat (length W)) s) as Hb.
  { intros k. unfold bind at 1. unfold bind at 1, gets. rewrite Hc0. by rewrite Z.add_0_l. }
  destruct (find_command table W) as [f|] eqn:Ef.
  - destruct (msh_split_run P (c :: T) E o Hnz) as (argv & buf & o' & Hr & Hl & Hs & Ho). exists argv, buf, o'.
    split_and!; [done|done|done|]. rewrite Hb, (proj2 (Z.eqb_neq _ _)) by lia. unfold bind at 1. rewrite Nat2Z.id, Hget.
    fold s in Hr. unfold bind at 1. rewrite Hr. destruct argv as [|a argv]; [|done].
    exfalso. rewrite tokens_eq in Hs. cbn [span] in Hs. rewrite Hc in Hs. cbn [snd] in Hs. destruct (c =? 34); inversion Hs.
  - rewrite Hb, (proj2 (Z.eqb_neq _ _)) by lia. unfold bind at 1. by rewrite Nat2Z.id, Hget.
Qed.

(** [msh_exec] runs a command line: a blank line does nothing; a line whose first word
    is the name of a command calls the function of that command with the arguments of
    the line; any other line is answered with [command not found]. *)
Lemma msh_exec_run T E o :
  Forall (λ c, 0 < c < 256) T → (length T ≤ 79)%nat →
  let s := mk_mst (T ++ 0 :: E) o in
  let line := (span blank T).2 in
  let r := msh_exec table run_cmd 0 (Z.of_nat (length T)) s in
  match tokens T, find_command table (span unblank line).1 with
  | [], _ => r = Some (0, s)
  | _, Some f => ∃ argv buf o', r = run_cmd f argv (mk_mst buf o') ∧ length buf = length (m_buf s) ∧
      Forall2 (string_at buf) argv (take FINSH_ARG_MAX (tokens T)) ∧ ((length (tokens T) < FINSH_ARG_MAX)%nat → o' = o)
  | _, None => ∃ buf, r = Some (-1, mk_mst buf (o ++ (span not_space line).1 ++ drop 2 not_found)) ∧ length buf = length (m_buf s)
  end.
Proof.
  intros Hb Hlen s line r. assert (Forall (λ c, c ≠ 0) T) as Hnz by (eapply Forall_impl; [exact Hb|cbn; lia]).
  pose proof (strip_loop_run T (S (length (m_buf s))) [] E o) as Hst. cbn [length app] in Hst. change (Z.of_nat 0) with 0 in Hst.
  specialize (Hst ltac:(cbn [s m_buf]; rewrite length_app; lia) ltac:(lia) Hnz). fold s line in Hst.
  pose proof (span_app blank T) as HBT. fold line in HBT. set (B := (span blank T).1) in *.
  assert (r = (if Z.of_nat (length line) =? 0 then ret 0 else
      r ← _msh_exec_cmd table run_cmd (Z.of_nat (length B)) (Z.of_nat (length line));
      if r.1 =? 0 then ret r.2
      else (n ← gets (λ s, length (m_buf s)); truncate_loop (S n) (Z.of_nat (length B))) ;;
           t ← str_at (Z.of_nat (length B)); kprintf not_found [VStr (Some t)] ;; ret (-1)) s) as ->.
  { unfold r, msh_exec. unfold bind at 1. unfold bind at 1, gets at 1. rewrite Hst. done. }
  rewrite <- (tokens_strip T). fold line. pose proof (span_rest blank T) as Hrest. fold line in Hrest.
  destruct line as [|c T'] eqn:El; [done|]. assert (tokens (c :: T') ≠ []) as Htk.
  { intros E0%tokens_none. cbn in E0. by rewrite Hrest in E0. }
  assert (Forall (λ c, c ≠ 0) (c :: T')) as Hnz' by (rewrite <- HBT in Hnz; by apply Forall_app in Hnz as [_ ?]).
  assert (s = mk_mst (B ++ (c :: T') ++ 0 :: E) o) as Es by (unfold s; rewrite <- HBT; by rewrite <- app_assoc). rewrite Es in *.
  rewrite (proj2 (Z.eqb_neq _ _)) by (cbn; lia). pose proof (exec_cmd_run B c T' E o Hnz' Hrest) as Hex. cbv zeta in Hex.
  destruct (tokens (c :: T')) as [|tk tks] eqn:Etk; [done|].
  destruct (find_command table (span unblank (c :: T')).1) as [f|].
  - destruct Hex as (argv & buf & o' & Hl & Hs & Ho & Hr). exists argv, buf, o'. split_and!; [|done|done|done].
    unfold bind at 1. rewrite Hr. unfold bind. destruct (run_cmd f argv _) as [[z s']|]; done.
  - unfold bind at 1. rewrite Hex. cbn [fst Z.eqb]. unfold bind at 1. unfold bind at 1, gets.
    destruct (truncate_loop_run (c :: T') (S (length (m_buf (mk_mst (B ++ (c :: T') ++ 0 :: E) o)))) B E o) as (R & HR & HL);
      [cbn [m_buf]; rewrite !length_app; lia|done|]. rewrite HR. set (W := (span not_space (c :: T')).1) in *.
    assert (Forall (λ c, 0 < c < 256) (c :: T')) as Hby by (rewrite <- HBT in Hb; by apply Forall_app in Hb as [_ ?]).
    pose proof (span_app not_space (c :: T')) as HW. fold W in HW. rewrite <- HW in Hby, Hnz'.
    apply Forall_app in Hby as [Hby _]. apply Forall_app in Hnz' as [Hwz _].
    assert (length W ≤ 79)%nat as HWl by (rewrite <- HBT, <- HW, !length_app in Hlen; lia).
    exists (B ++ W ++ 0 :: R). split; [|cbn [m_buf]; rewrite !length_app; cbn [length]; cbn [length] in HL; lia].
    assert (string_at (B ++ W ++ 0 :: R) (Z.of_nat (length B)) W) as HsW by (exists B, R; split; [reflexivity|split; [reflexivity|exact Hwz]]).
    unfold bind. rewrite (str_at_run (mk_mst (B ++ W ++ 0 :: R) o) _ W HsW).
    rewrite (kprintf_text _ _ (W ++ drop 2 not_found)); [|apply format_string; repeat constructor; done|rewrite length_app; cbn; lia].
    rewrite console_short; [done|rewrite length_app; cbn; lia|].
    apply Forall_app. split; [eapply Forall_impl; [exact Hby|cbn; lia]|repeat constructor; done].
Qed.
End exec.

(** ** Completion *)

Lemma str_common_take a b : take (str_common a b) a = take (str_common a b) b.
Proof.
  revert b. induction a as [|x a IH]; intros [|y b]; cbn; [done..|]. destruct (Z.eqb_spec x y) as [->|]; [|done]. cbn. by rewrite IH.
Qed.
Lemma str_common_max a b k : (k ≤ length a)%nat → take k a = take k b → (k ≤ str_common a b)%nat.
Proof.
  revert b k. induction a as [|x a IH]; intros [|y b] [|k] Hk E; cbn in *; try lia; [done|].
  injection E as -> E. rewrite Z.eqb_refl. specialize (IH b k ltac:(lia) E). lia.
Qed.
Lemma str_common_length a b : (str_common a b ≤ length a)%nat.
Proof. revert b. induction a as [|x a IH]; intros [|y b]; cbn; [lia..|]. destruct (x =? y); [specialize (IH b)|]; lia. Qed.

(** The names of the commands that begin with [p]. *)
Definition candidates (table : list finsh_syscall) (p : list Z) : list (list Z) :=
  drop 6 ∘ fs_name <$> filter (λ x, is_command x && strncmp_eq (length p) p (drop 6 (fs_name x))) table.

(** The first [m] characters of [n] are the longest common beginning of [l]. *)
Record common_prefix (n : list Z) (m : nat) (l : list (list Z)) : Prop := {
  cp_length : (m ≤ length n)%nat;
  cp_all : ∀ x, x ∈ l → take m x = take m n;
  cp_max : ∀ k, (k ≤ length n)%nat → (∀ x, x ∈ l → take k x = take k n) → (k ≤ m)%nat
}.

Lemma common_prefix_snoc n m l x :
  common_prefix n m l → let c := str_common n x in common_prefix n (if (c <? m)%nat then c else m) (l ++ [x]).
Proof.
  intros [Hl Ha Hm] c. pose proof (str_common_take n x) as Ht. fold c in Ht. pose proof (str_common_length n x) as Hc. fold c in Hc.
  assert (∀ j y, (j ≤ m)%nat → take m y = take m n → take j y = take j n) as Hmono.
  { intros j y Hj E. apply (f_equal (take j)) in E. by rewrite !take_take, Nat.min_l in E by done. }
  assert (∀ j, (j ≤ c)%nat → take j x = take j n) as Hmx.
  { intros j Hj. apply (f_equal (take j)) in Ht. by rewrite !take_take, Nat.min_l in Ht by done. }
  destruct (Nat.ltb_spec c m) as [Hlt|Hge]; split; [done| | |done| |].
  - intros y [Hy|Hy%list_elem_of_singleton]%elem_of_app; [by apply Hmono, Ha; [lia|]|subst; by apply Hmx].
  - intros k Hk Hall. apply str_common_max; [done|]. symmetry. apply Hall. set_solver.
  - intros y [Hy|Hy%list_elem_of_singleton]%elem_of_app; [by apply Ha|subst; by apply Hmx].
  - intros k Hk Hall. apply Hm; [done|]. intros y Hy. apply Hall. set_solver.
Qed.

Lemma rt_strncpy_take n m : Forall (λ c, c ≠ 0) n → (m ≤ length n)%nat → Str.rt_strncpy n m = take m n.
Proof.
  revert n. induction m as [|m IH]; intros [|c n] Hn Hm; cbn in *; [done|done|lia|].
  inversion Hn; subst. rewrite (proj2 (Z.eqb_neq _ _)) by done. by rewrite IH by (done || lia).
Qed.

Lemma copy_loop_run l : ∀ P X R o, length X = length l →
  copy_loop (Z.of_nat (length P)) l (mk_mst (P ++ X ++ R) o) = Some (tt, mk_mst (P ++ l ++ R) o).
Proof.
  induction l as [|c l IH]; intros P [|x X] R o Hl; cbn in Hl; try lia; [done|].
  cbn [copy_loop app]. unfold bind. rewrite st_run by done. specialize (IH (P ++ [c]) X R o ltac:(lia)).
  rewrite length_app in IH. cbn [length] in IH. replace (Z.of_nat (length P) + 1) with (Z.of_nat (length P + 1)) by lia.
  by rewrite <- !app_assoc in IH.
Qed.

Lemma candidates_cons x table p :
  candidates (x :: table) p =
    (if is_command x && strncmp_eq (length p) p (drop 6 (fs_name x)) then [drop 6 (fs_name x)] else []) ++ candidates table p.
Proof.
  unfold candidates. rewrite filter_cons. case_decide as H.
  - apply Is_true_true in H. by rewrite H.
  - apply Is_true_false in H. by rewrite H.
Qed.

(** What [complete_loop] has seen: nothing yet, or names whose longest common beginning it
    keeps. *)
Definition completing (name_ptr : option (list Z)) (m : nat) (seen : list (list Z)) : Prop :=
  match seen with
  | [] => name_ptr = None ∧ m = 0%nat
  | n :: _ => name_ptr = Some n ∧ m ≠ 0%nat ∧ common_prefix n m seen
  end.

Lemma common_prefix_single n : common_prefix n (length n) [n].
Proof. split; [done| |done]. by intros x ->%list_elem_of_singleton. Qed.

Lemma strncmp_eq_self p x : Forall (λ c, c ≠ 0) p → strncmp_eq (length p) p x = true → take (length p) x = p.
Proof.
  revert x. induction p as [|c p IH]; intros x Hp E; [done|]. cbn [length strncmp_eq] in E. inversion Hp as [|? ? Hc Hp']; subst.
  change (Str.char_at (c :: p)) with c in E. rewrite (proj2 (Z.eqb_neq c 0)) in E by done. cbn [orb tail] in E.
  apply andb_true_iff in E as [E1%Z.eqb_eq E2]. destruct x as [|y x]; [by cbn in E1|]. cbn in E1, E2 |- *. subst y. by rewrite IH.
Qed.

(** Candidates share the typed beginning, so their common beginning is not empty. *)
Lemma completing_step p name_ptr m seen x :
  p ≠ [] → Forall (λ c, c ≠ 0) p → (∀ y, y ∈ seen → take (length p) y = p) → take (length p) x = p →
  completing name_ptr m seen →
  let '(name, m1) := match m with O => (x, length x) | _ => (default [] name_ptr, m) end in
  let c := str_common name x in
  completing (Some name) (if (c <? m1)%nat then c else m1) (seen ++ [x]).
Proof.
  intros Hp0 Hp Hseen Hx Hc. assert (length p ≠ 0%nat) as Hl by (destruct p; [done|cbn; lia]).
  assert (length p ≤ length x)%nat as Hxl by (apply (f_equal length) in Hx; rewrite length_take in Hx; lia).
  destruct seen as [|n seen].
  - destruct Hc as [-> ->]. cbn [app]. pose proof (common_prefix_snoc x (length x) [x] x (common_prefix_single x)) as H. cbv zeta in H.
    pose proof (str_common_max x x (length x) ltac:(done) eq_refl). rewrite (proj2 (Nat.ltb_ge _ _)) by done.
    split; [done|]. split; [lia|]. apply common_prefix_single.
  - destruct Hc as (-> & Hm & Hcp). destruct m as [|m]; [done|]. cbn [default from_option id app].
    pose proof (common_prefix_snoc n (S m) (n :: seen) x Hcp) as H. cbv zeta in H |- *. split; [done|]. split; [|exact H].
    assert (take (length p) n = p) as Hn by (apply Hseen; set_solver).
    assert (length p ≤ str_common n x)%nat.
    { apply str_common_max; [|by rewrite Hn, Hx]. apply (f_equal length) in Hn. rewrite length_take in Hn. lia. }
    destruct (Nat.ltb_spec (str_common n x) (S m)); lia.
Qed.

Lemma complete_loop_run p table : ∀ name_ptr m seen s,
  table_ok table → names_fit table → p ≠ [] → Forall (λ c, c ≠ 0) p → (∀ y, y ∈ seen → take (length p) y = p) → completing name_ptr m seen →
  ∃ r o', complete_loop table p name_ptr m s = Some (r, mk_mst (m_buf s) (m_out s ++ o')) ∧
    o' = concat ((λ x, console_text (x ++ [10])) <$> candidates table p) ∧ completing r.1 r.2 (seen ++ candidates table p).
Proof.
  induction table as [|x table IH]; intros name_ptr m seen s Ht Hfit Hp0 Hp Hseen Hc.
  - exists (name_ptr, m), []. rewrite !app_nil_r. by destruct s.
  - rewrite candidates_cons. cbn [complete_loop]. pose proof (Forall_inv_tail Ht) as Ht'. pose proof (Forall_inv Hfit) as Hx. pose proof (Forall_inv_tail Hfit) as Hfit'.
    destruct (is_command x && strncmp_eq (length p) p (drop 6 (fs_name x))) eqn:E; [|apply IH; done].
    apply andb_true_iff in E as [_ E]. apply strncmp_eq_self in E; [|done]. set (y := drop 6 (fs_name x)) in *.
    pose proof (completing_step p name_ptr m seen y Hp0 Hp Hseen E Hc) as Hst.
    destruct (match m with O => (y, length y) | _ => (default [] name_ptr, m) end) as [name m1]. cbv zeta in Hst |- *.
    unfold bind. rewrite (kprintf_text _ _ (y ++ [10])); [|by apply format_string, Forall_singleton|unfold y; rewrite length_app, length_drop; cbn in *; lia].
    destruct (IH (Some name) (if (str_common name y <? m1)%nat then str_common name y else m1) (seen ++ [y]) (mk_mst (m_buf s) (m_out s ++ console_text (y ++ [10]))) Ht' Hfit' Hp0 Hp) as (r & o' & Hr & Ho & Hcr);
      [|exact Hst|].
    + intros z [Hz|Hz%list_elem_of_singleton]%elem_of_app; [by apply Hseen|by subst].
    + exists r, (console_text (y ++ [10]) ++ o'). cbn [m_buf m_out] in Hr. rewrite Hr. split_and!; [by rewrite app_assoc|by rewrite Ho|].
      by rewrite <- app_assoc in Hcr.
Qed.

(** Completion: when commands begin with what was typed, the command line becomes the
    longest common beginning of all of them, which extends what was typed, and all of
    them are listed; when no command does, the line stays as it is. *)
Lemma msh_auto_complete_run table p E o :
  table_ok table → names_fit table → p ≠ [] → Forall (λ c, c ≠ 0) p →
  Forall (λ n, (length n ≤ length p + length E)%nat) (candidates table p) →
  let s := mk_mst (p ++ 0 :: E) o in
  wp (msh_auto_complete table 0) (λ _ s', m_out s' = o ++ concat ((λ x, console_text (x ++ [10])) <$> candidates table p) ∧
    match candidates table p with
    | [] => m_buf s' = m_buf s
    | n :: _ => ∃ m, common_prefix n m (candidates table p) ∧ take (length p) (take m n) = p ∧
        m_buf s' = take m n ++ drop m (m_buf s)
    end) s.
Proof.
  intros Ht Hfit Hp0 Hp Hroom s. destruct p as [|c p']; [done|]. set (p := c :: p') in *.
  assert (string_at (m_buf s) 0 p) as Hs by (exists [], E; split; [reflexivity|split; [reflexivity|exact Hp]]).
  unfold wp, msh_auto_complete, bind. rewrite (ld_run 0 s [] c (p' ++ 0 :: E)) by done.
  rewrite (proj2 (Z.eqb_neq c 0)) by (by inversion Hp). rewrite (str_at_run s 0 p Hs).
  destruct (complete_loop_run p table None 0%nat [] s Ht Hfit Hp0 Hp) as (r & o' & Hr & -> & Hc); [set_solver|done|].
  rewrite Hr. cbn [app] in Hc. destruct (candidates table p) as [|n l] eqn:El.
  - destruct r as [[?|] m]; [by destruct Hc|]. by cbn.
  - destruct r as [? m]. destruct Hc as (Hnp & Hm & Hcp). cbn [fst snd] in *. subst.
    assert (∀ y, y ∈ candidates table p → take (length p) y = p ∧ Forall (λ c, c ≠ 0) y) as Hcand.
    { intros y. unfold candidates. rewrite list_elem_of_fmap. intros (x & -> & [Hx Hin]%list_elem_of_filter).
      apply Is_true_true, andb_true_iff in Hx as [Hx1 Hx2]. split; [by apply strncmp_eq_self|].
      apply Forall_drop. by eapply name_nonzero. }
    rewrite El in Hcand. destruct (Hcand n (list_elem_of_here _ _)) as [Hpn Hnz].
    assert (length p ≤ length n)%nat as Hpl by (apply (f_equal length) in Hpn; rewrite length_take in Hpn; lia).
    assert (length p ≤ m)%nat as Hpm.
    { apply (cp_max _ _ _ Hcp); [done|]. intros x Hx. destruct (Hcand x Hx) as [-> _]. by rewrite Hpn. }
    assert (length n ≤ length p + length E)%nat as Hnl by (by inversion Hroom).
    pose proof (cp_length _ _ _ Hcp) as Hml. rewrite rt_strncpy_take by done.
    pose proof (copy_loop_run (take m n) [] (take m (p ++ 0 :: E)) (drop m (p ++ 0 :: E))
      (o ++ concat ((λ x, console_text (x ++ [10])) <$> n :: l))) as Hcopy.
    rewrite (take_drop m) in Hcopy. cbn [app length] in Hcopy. change (Z.of_nat 0) with 0 in Hcopy. cbn [s m_buf m_out]. rewrite Hcopy.
    + split; [done|]. exists m. split; [done|]. split; [|done]. by rewrite take_take, Nat.min_l.
    + rewrite !length_take, length_app. cbn [length]. lia.
Qed.

(** * Splitting a command line *)

(** C19: [msh_split] refines the reference [tokens]: on every command line without NUL, at
    any place of the array, it returns, stays inside the array and leaves the arguments
    of the line as NUL-terminated strings in the array, in order, at most
    [FINSH_ARG_MAX] of them; it prints only when that many are found. *)
Theorem msh_split_spec P T E o :
  Forall (λ c, c ≠ 0) T →
  ∃ argv buf o', msh_split (Z.of_nat (length P)) (Z.of_nat (length T)) (mk_mst (P ++ T ++ 0 :: E) o) = Some (argv, mk_mst buf o') ∧
    length buf = length (P ++ T ++ 0 :: E) ∧
    Forall2 (λ a t, ∃ A C, buf = A ++ t ++ 0 :: C ∧ a = Z.of_nat (length A) ∧ Forall (λ c, c ≠ 0) t) argv (take FINSH_ARG_MAX (tokens T)) ∧
    ((length (tokens T) < FINSH_ARG_MAX)%nat → o' = o).
Proof. exact (msh_split_run P T E o). Qed.

(** The line [  echo "a b" c] behind one byte. *)
Lemma msh_split_spec_witness :
  let T := [32;32;101;99;104;111;32;34;97;32;98;34;32;99] in
  tokens T = [[101;99;104;111]; [97;32;98]; [99]] ∧
  ∃ argv buf o', msh_split 1 14 (mk_mst (7 :: T ++ [0;9]) []) = Some (argv, mk_mst buf o') ∧
    length buf = 17%nat ∧ Forall2 (string_at buf) argv [[101;99;104;111]; [97;32;98]; [99]] ∧ ((3 < 10)%nat → o' = []).
Proof.
  split; [reflexivity|]. apply (msh_split_spec [7] [32;32;101;99;104;111;32;34;97;32;98;34;32;99] [9] []). by repeat constructor.
Defined.

(** Ten arguments are accepted, but not with a blank behind them. *)
Example split_ten_args :
  let words := concat (replicate 10 [32; 97]) in
  (λ r, m_out r.2) <$> msh_split 0 20 (mk_mst (words ++ [0]) []) = Some [] ∧
  (λ r, take 13 (m_out r.2)) <$> msh_split 0 21 (mk_mst (words ++ [32; 0]) []) = Some (take 13 too_many_args).
Proof. split; reflexivity. Qed.
