(* ===== verification/Shell.v ===== *)
(** The shell, components/finsh/shell.c: the line editor with its history, on top of the
    command interpreter of msh.c.

    The shell is a step function on the characters it receives; what it prints is
    collected as bytes, and a small terminal says what a user sees. *)

From Stdlib Require Import ZArith Lia.
From stdpp Require Import base numbers option list sets.
From S2P Require Import Prelude.
From S2P Require Import Kservice.
From S2P Require Import Bytes.
From S2P Require Import Printf.
From S2P Require Import Msh.
Local Open Scope Z_scope.
Local Open Scope rt_scope.

(** * State *)

Definition FINSH_CMD_SIZE : nat := 80.
Definition FINSH_HISTORY_LINES : nat := 5.

Inductive input_stat := WAIT_NORMAL | WAIT_SPEC_KEY | WAIT_FUNC_KEY.

(** [struct finsh_shell]; the custom prompt and the output so far are kept here too. *)
Record finsh_shell := mk_shell {
  sh_stat : input_stat;
  sh_echo_mode : Z;
  sh_prompt_mode : Z;
  sh_current_history : Z;
  sh_history_count : Z;
  sh_cmd_history : list (list Z);
  sh_line : list Z;
  sh_line_position : Z;
  sh_line_curpos : Z;
  sh_prompt_custom : option (list Z);
  sh_out : list Z
}.

Definition set_stat x s := mk_shell x (sh_echo_mode s) (sh_prompt_mode s) (sh_current_history s) (sh_history_count s)
  (sh_cmd_history s) (sh_line s) (sh_line_position s) (sh_line_curpos s) (sh_prompt_custom s) (sh_out s).
Definition set_echo_mode x s := mk_shell (sh_stat s) x (sh_prompt_mode s) (sh_current_history s) (sh_history_count s)
  (sh_cmd_history s) (sh_line s) (sh_line_position s) (sh_line_curpos s) (sh_prompt_custom s) (sh_out s).
Definition set_prompt_mode x s := mk_shell (sh_stat s) (sh_echo_mode s) x (sh_current_history s) (sh_history_count s)
  (sh_cmd_history s) (sh_line s) (sh_line_position s) (sh_line_curpos s) (sh_prompt_custom s) (sh_out s).
Definition set_history cur count h s := mk_shell (sh_stat s) (sh_echo_mode s) (sh_prompt_mode s) cur count
  h (sh_line s) (sh_line_position s) (sh_line_curpos s) (sh_prompt_custom s) (sh_out s).
Definition set_line x s := mk_shell (sh_stat s) (sh_echo_mode s) (sh_prompt_mode s) (sh_current_history s) (sh_history_count s)
  (sh_cmd_history s) x (sh_line_position s) (sh_line_curpos s) (sh_prompt_custom s) (sh_out s).
Definition set_positions p c s := mk_shell (sh_stat s) (sh_echo_mode s) (sh_prompt_mode s) (sh_current_history s) (sh_history_count s)
  (sh_cmd_history s) (sh_line s) p c (sh_prompt_custom s) (sh_out s).
Definition set_prompt_custom x s := mk_shell (sh_stat s) (sh_echo_mode s) (sh_prompt_mode s) (sh_current_history s) (sh_history_count s)
  (sh_cmd_history s) (sh_line s) (sh_line_position s) (sh_line_curpos s) x (sh_out s).
Definition set_line_out l o s := mk_shell (sh_stat s) (sh_echo_mode s) (sh_prompt_mode s) (sh_current_history s) (sh_history_count s)
  (sh_cmd_history s) l (sh_line_position s) (sh_line_curpos s) (sh_prompt_custom s) o.

Abbreviation F A := (M finsh_shell A).

(** A routine that works on the line and prints. *)
Definition on_line {A} (m : M mst A) : F A := λ s,
  match m (mk_mst (sh_line s) (sh_out s)) with
  | Some (a, t) => Some (a, set_line_out (m_buf t) (m_out t) s)
  | None => None
  end.
Definition print (fmt : list Z) (args : list va) : F unit := on_line (kprintf fmt args).

(** * Prompt and modes *)

(** [rt_malloc] for the copy may fail. *)
Definition finsh_set_prompt (malloc_ok : bool) (prompt : option (list Z)) : F Z :=
  modify (set_prompt_custom None) ;;
  (match prompt with
   | Some t => if malloc_ok then modify (set_prompt_custom (Some t)) else ret tt
   | None => ret tt
   end) ;;
  ret 0.

(** ["msh "] and ["JiaCheng >"] *)
Definition MSH_PROMPT : list Z := [109;115;104;32] ++ [74;105;97;67;104;101;110;103;32;62].

Definition prompt_text (s : finsh_shell) : list Z :=
  if sh_prompt_mode s =? 0 then []
  else match sh_prompt_custom s with Some t => take 128 t | None => MSH_PROMPT end.
Definition finsh_get_prompt : F (list Z) := gets prompt_text.

Definition finsh_get_prompt_mode : F Z := gets sh_prompt_mode.
(** The field has one bit. *)
Definition finsh_set_prompt_mode (m : Z) : F unit := modify (set_prompt_mode (Z.land m 1)).
Definition finsh_set_echo (e : Z) : F unit := modify (set_echo_mode (Z.land (u8 e) 1)).
Definition finsh_get_echo : F Z := gets sh_echo_mode.

(** * History *)

(** [rt_kprintf("\033[2K\r"); rt_kprintf("%s%s", FINSH_PROMPT, shell->line)] *)
Definition shell_handle_history : F unit :=
  print [27;91;50;75;13] [] ;;
  p ← finsh_get_prompt;
  t ← on_line (str_at 0);
  print [37;115;37;115] [VStr (Some p); VStr (Some t)].

(** An entry: cleared, then [line_position] bytes of the line. *)
Definition history_entry (line : list Z) (position : Z) : list Z :=
  take (Z.to_nat position) line ++ replicate (FINSH_CMD_SIZE - Z.to_nat position) 0.

(** [memcpy] entry by entry towards the front. *)
Fixpoint move_history (n index : nat) (h : list (list Z)) : option (list (list Z)) :=
  match n with
  | O => Some h
  | S n =>
      match h !! S index with
      | Some e => move_history n (S index) (<[index := e]> h)
      | None => None
      end
  end.

(** [shell_push_history] up to its last statement. *)
Definition push_entries : F unit :=
  s ← gets id;
  if nz (sh_line_position s) then
    if Z.of_nat FINSH_HISTORY_LINES <=? sh_history_count s then
      last ← from_opt (sh_cmd_history s !! (FINSH_HISTORY_LINES - 1)%nat);
      if bool_decide (last = sh_line s) then ret tt
      else
        h ← from_opt (move_history (FINSH_HISTORY_LINES - 1) 0 (sh_cmd_history s));
        modify (set_history (sh_current_history s) (Z.of_nat FINSH_HISTORY_LINES)
          (<[(FINSH_HISTORY_LINES - 1)%nat := history_entry (sh_line s) (sh_line_position s)]> h))
    else
      same ← (if sh_history_count s =? 0 then ret false
              else last ← from_opt (sh_cmd_history s !! Z.to_nat (sh_history_count s - 1)); ret (bool_decide (last = sh_line s)));
      if same : bool then ret tt
      else
        modify (set_history (sh_history_count s) (u16 (sh_history_count s + 1))
          (<[Z.to_nat (sh_history_count s) := history_entry (sh_line s) (sh_line_position s)]> (sh_cmd_history s)))
  else ret tt.

Definition shell_push_history : F unit :=
  push_entries ;;
  modify (λ s, set_history (sh_history_count s) (sh_history_count s) (sh_cmd_history s) s).

(** [memcpy(shell->line, &shell->cmd_history[shell->current_history][0], FINSH_CMD_SIZE)]
    and the position behind the text. *)
Definition recall : F unit :=
  s ← gets id;
  e ← from_opt (sh_cmd_history s !! Z.to_nat (sh_current_history s));
  modify (set_line e) ;;
  t ← on_line (str_at 0);
  modify (set_positions (u8 (Z.of_nat (length t))) (u8 (Z.of_nat (length t)))) ;;
  shell_handle_history.

Definition key_up : F unit :=
  s ← gets id;
  if 0 <? sh_current_history s then
    modify (set_history (sh_current_history s - 1) (sh_history_count s) (sh_cmd_history s)) ;;
    recall
  else modify (set_history 0 (sh_history_count s) (sh_cmd_history s)).

Definition key_down : F unit :=
  s ← gets id;
  if sh_current_history s <? sh_history_count s - 1 then
    modify (set_history (sh_current_history s + 1) (sh_history_count s) (sh_cmd_history s)) ;;
    recall
  else if nz (sh_history_count s) then
    modify (set_history (sh_history_count s - 1) (sh_history_count s) (sh_cmd_history s)) ;;
    recall
  else ret tt.

(** * Editing *)

Definition key_left : F unit :=
  s ← gets id;
  if nz (sh_line_curpos s) then
    print [8] [] ;;
    modify (set_positions (sh_line_position s) (u8 (sh_line_curpos s - 1)))
  else ret tt.

Definition key_right : F unit :=
  s ← gets id;
  if sh_line_curpos s <? sh_line_position s then
    c ← on_line (ld (sh_line_curpos s));
    print [37;99] [VInt c] ;;
    modify (set_positions (sh_line_position s) (u8 (sh_line_curpos s + 1)))
  else ret tt.

(** [n] times [rt_kprintf("\b")] *)
Fixpoint backs (n : nat) : F unit :=
  match n with O => ret tt | S n => print [8] [] ;; backs n end.

(** [rt_memmove(&line[d], &line[s], n)] inside of the line. *)
Definition memmove_line (d s n : Z) : F unit := λ x,
  let l := sh_line x in
  let size := Z.of_nat (length l) in
  if (0 <=? d) && (0 <=? s) && (0 <=? n) && (d + n <=? size) && (s + n <=? size) then
    Some (tt, set_line (take (Z.to_nat d) l ++ take (Z.to_nat n) (drop (Z.to_nat s) l) ++ drop (Z.to_nat (d + n)) l) x)
  else None.

Section shell.
Variable table : list finsh_syscall.
Variable run_cmd : Z → list Z → M mst Z.

Definition shell_auto_complete : F unit :=
  print [10] [] ;;
  on_line (msh_auto_complete table 0) ;;
  p ← finsh_get_prompt;
  t ← on_line (str_at 0);
  print [37;115;37;115] [VStr (Some p); VStr (Some t)].

Definition key_tab : F unit :=
  n ← gets sh_line_curpos;
  backs (Z.to_nat n) ;;
  shell_auto_complete ;;
  t ← on_line (str_at 0);
  modify (set_positions (u8 (Z.of_nat (length t))) (u8 (Z.of_nat (length t)))).

Definition key_backspace : F unit :=
  s ← gets id;
  if sh_line_curpos s =? 0 then ret tt
  else
    let position := u8 (sh_line_position s - 1) in
    let curpos := u8 (sh_line_curpos s - 1) in
    modify (set_positions position curpos) ;;
    if curpos <? position then
      memmove_line curpos (curpos + 1) (position - curpos) ;;
      on_line (st position 0) ;;
      t ← on_line (str_at curpos);
      print [8;37;115;32;32;8] [VStr (Some t)] ;;
      backs (Z.to_nat (position - curpos + 1))
    else
      print [8;32;8] [] ;;
      on_line (st position 0).

(** Carriage return or line feed. *)
Definition key_enter : F unit :=
  shell_push_history ;;
  s ← gets id;
  (if nz (sh_echo_mode s) then print [10] [] else ret tt) ;;
  on_line (msh_exec table run_cmd 0 (sh_line_position s)) ;;
  p ← finsh_get_prompt;
  print p [] ;;
  modify (set_line (replicate FINSH_CMD_SIZE 0)) ;;
  modify (set_positions 0 0).

(** A normal character. *)
Definition key_char (ch : Z) : F unit :=
  modify (λ s, if Z.of_nat FINSH_CMD_SIZE <=? sh_line_position s then set_positions 0 (sh_line_curpos s) s else s) ;;
  s ← gets id;
  (if sh_line_curpos s <? sh_line_position s then
     memmove_line (sh_line_curpos s + 1) (sh_line_curpos s) (sh_line_position s - sh_line_curpos s) ;;
     on_line (st (sh_line_curpos s) ch) ;;
     (if nz (sh_echo_mode s) then
        t ← on_line (str_at (sh_line_curpos s));
        print [37;115] [VStr (Some t)]
      else ret tt) ;;
     backs (Z.to_nat (sh_line_position s - sh_line_curpos s))
   else
     on_line (st (sh_line_position s) ch) ;;
     (if nz (sh_echo_mode s) then print [37;99] [VInt ch] else ret tt)) ;;
  modify (λ s, set_positions (u8 (sh_line_position s + 1)) (u8 (sh_line_curpos s + 1)) s) ;;
  modify (λ s, if Z.of_nat FINSH_CMD_SIZE <=? sh_line_position s then set_positions 0 0 s else s).

Definition edit (ch : Z) : F unit :=
  if (ch =? 0) || (ch =? 0xFF) then ret tt
  else if ch =? 9 then key_tab
  else if (ch =? 0x7f) || (ch =? 0x08) then key_backspace
  else if (ch =? 13) || (ch =? 10) then key_enter
  else key_char ch.

(** One round of the loop of [finsh_thread_entry] with the character [ch]. *)
Definition finsh_step (ch : Z) : F unit :=
  if ch <? 0 then ret tt
  else if ch =? 0x1b then modify (set_stat WAIT_SPEC_KEY)
  else
    stat ← gets sh_stat;
    match stat with
    | WAIT_SPEC_KEY =>
        if ch =? 0x5b then modify (set_stat WAIT_FUNC_KEY)
        else modify (set_stat WAIT_NORMAL) ;; edit ch
    | WAIT_FUNC_KEY =>
        modify (set_stat WAIT_NORMAL) ;;
        if ch =? 0x41 then key_up
        else if ch =? 0x42 then key_down
        else if ch =? 0x44 then key_left
        else if ch =? 0x43 then key_right
        else edit ch
    | WAIT_NORMAL => edit ch
    end.

Fixpoint finsh_run (chs : list Z) : F unit :=
  match chs with [] => ret tt | ch :: chs => finsh_step ch ;; finsh_run chs end.

(** [rt_calloc] of the structure, [finsh_system_init], and [finsh_thread_entry] up to its
    loop. *)
Definition new_shell : finsh_shell :=
  mk_shell WAIT_NORMAL 0 0 0 0 (replicate FINSH_HISTORY_LINES (replicate FINSH_CMD_SIZE 0)) (replicate FINSH_CMD_SIZE 0) 0 0 None [].
Definition finsh_start : F unit :=
  finsh_set_prompt_mode 1 ;;
  modify (set_echo_mode 1) ;;
  p ← finsh_get_prompt;
  print p [].
End shell.

(** * The editor a user expects *)

Definition byte (c : Z) : Prop := 0 < c < 256.

(** The text of the line, the cursor in it, earlier lines and the place among them. *)
Record editor := mk_editor {
  ed_stat : input_stat;
  ed_text : list Z;
  ed_cur : nat;
  ed_hist : list (list Z);
  ed_pos : nat
}.

(** Earlier lines: a line is not remembered twice in a row, and the oldest goes first. *)
Definition remember (t : list Z) (h : list (list Z)) : list (list Z) :=
  if bool_decide (t = [] ∨ last h = Some t) then h
  else (if (FINSH_HISTORY_LINES <=? length h)%nat then tail h else h) ++ [t].

(** The completed text. *)
Definition completed (table : list finsh_syscall) (t : list Z) : list Z :=
  match t, candidates table t with
  | [], _ | _, [] => t
  | _, n :: l => take (foldl (λ m x, Nat.min (str_common n x) m) (length n) l) n
  end.

Section editor.
Variable table : list finsh_syscall.

Definition ed_with_stat x e := mk_editor x (ed_text e) (ed_cur e) (ed_hist e) (ed_pos e).
Definition ed_edit (t : list Z) (c : nat) e := mk_editor (ed_stat e) t c (ed_hist e) (ed_pos e).

Definition ed_recall (n : nat) e : editor :=
  let t := default [] (ed_hist e !! n) in mk_editor (ed_stat e) t (length t) (ed_hist e) n.

Definition ed_key (ch : Z) e : option editor :=
  let t := ed_text e in
  let c := ed_cur e in
  if (ch =? 0) || (ch =? 0xFF) then Some e
  else if ch =? 9 then Some (ed_edit (completed table t) (length (completed table t)) e)
  else if (ch =? 0x7f) || (ch =? 0x08) then
    Some (if (c =? 0)%nat then e else ed_edit (take (c - 1) t ++ drop c t) (c - 1) e)
  else if (ch =? 13) || (ch =? 10) then
    let h := remember t (ed_hist e) in Some (mk_editor (ed_stat e) [] 0 h (length h))
  else if (length t <? FINSH_CMD_SIZE - 1)%nat then Some (ed_edit (take c t ++ ch :: drop c t) (S c) e)
  else None.

(** One character. There is no room for the 80th character of a line. *)
Definition ed_step (ch : Z) e : option editor :=
  if ch =? 0x1b then Some (ed_with_stat WAIT_SPEC_KEY e)
  else
    match ed_stat e with
    | WAIT_SPEC_KEY => if ch =? 0x5b then Some (ed_with_stat WAIT_FUNC_KEY e) else ed_key ch (ed_with_stat WAIT_NORMAL e)
    | WAIT_FUNC_KEY =>
        let e := ed_with_stat WAIT_NORMAL e in
        if ch =? 0x41 then Some (if (ed_pos e =? 0)%nat then e else ed_recall (ed_pos e - 1) e)
        else if ch =? 0x42 then
          Some (if (length (ed_hist e) =? 0)%nat then e else ed_recall (Nat.min (S (ed_pos e)) (length (ed_hist e) - 1)) e)
        else if ch =? 0x44 then Some (ed_edit (ed_text e) (ed_cur e - 1) e)
        else if ch =? 0x43 then Some (ed_edit (ed_text e) (Nat.min (S (ed_cur e)) (length (ed_text e))) e)
        else ed_key ch e
    | WAIT_NORMAL => ed_key ch e
    end.

Fixpoint ed_run (chs : list Z) e : option editor :=
  match chs with [] => Some e | ch :: chs => e' ← ed_step ch e; ed_run chs e' end%stdpp.
End editor.

(** * Representation *)

(** A line in its array. *)
Definition pad (t : list Z) : list Z := t ++ replicate (FINSH_CMD_SIZE - length t) 0.

Definition text_ok (t : list Z) : Prop := Forall byte t ∧ (length t < FINSH_CMD_SIZE)%nat.

(** A prompt that can be printed in front of a line. *)
Definition prompt_ok (p : list Z) : Prop := Forall (λ c, byte c ∧ c ≠ 37) p ∧ (length p ≤ 40)%nat.

Record rep (p : list Z) (s : finsh_shell) (e : editor) : Prop := {
  rp_stat : sh_stat s = ed_stat e;
  rp_line : sh_line s = pad (ed_text e);
  rp_position : sh_line_position s = Z.of_nat (length (ed_text e));
  rp_curpos : sh_line_curpos s = Z.of_nat (ed_cur e);
  rp_cur : (ed_cur e ≤ length (ed_text e))%nat;
  rp_text : text_ok (ed_text e);
  rp_hist : ∃ rest, sh_cmd_history s = (pad <$> ed_hist e) ++ rest ∧ (length (ed_hist e) + length rest = FINSH_HISTORY_LINES)%nat;
  rp_entries : Forall text_ok (ed_hist e);
  rp_count : sh_history_count s = Z.of_nat (length (ed_hist e));
  rp_current : sh_current_history s = Z.of_nat (ed_pos e);
  rp_pos : (ed_pos e ≤ length (ed_hist e))%nat;
  rp_prompt : prompt_text s = p;
  rp_echo : sh_echo_mode s = 1
}.

(** ** Lines *)

Lemma length_pad t : (length t < FINSH_CMD_SIZE)%nat → length (pad t) = FINSH_CMD_SIZE.
Proof. intros H. unfold pad. rewrite length_app, length_replicate. lia. Qed.

Lemma pad_nul t : (length t < FINSH_CMD_SIZE)%nat → pad t = t ++ 0 :: replicate (FINSH_CMD_SIZE - 1 - length t) 0.
Proof. intros H. unfold pad. replace (FINSH_CMD_SIZE - length t)%nat with (S (FINSH_CMD_SIZE - 1 - length t)) by lia. done. Qed.

Lemma text_nonzero t : Forall byte t → Forall (λ c, c ≠ 0) t.
Proof. intros H. eapply Forall_impl; [exact H|]. unfold byte. cbn. lia. Qed.

Lemma pad_string t c : text_ok t → (c ≤ length t)%nat → string_at (pad t) (Z.of_nat c) (drop c t).
Proof.
  intros [Hb Hl] Hc. exists (take c t), (replicate (FINSH_CMD_SIZE - 1 - length t) 0). rewrite pad_nul by done.
  split; [|split; [rewrite length_take; lia|by apply Forall_drop, text_nonzero]].
  by rewrite app_assoc, take_drop.
Qed.

Lemma pad_inj t t' : text_ok t → text_ok t' → pad t = pad t' → t = t'.
Proof.
  intros Ht Ht' E. pose proof (pad_string t 0 Ht ltac:(lia)) as H1. pose proof (pad_string t' 0 Ht' ltac:(lia)) as H2.
  rewrite E in H1. apply (str_at_run (mk_mst (pad t') []) 0) in H1, H2. rewrite H1 in H2. by injection H2.
Qed.

Lemma slo_line l o s : sh_line (set_line_out l o s) = l.
Proof. done. Qed.
Lemma slo_out l o s : sh_out (set_line_out l o s) = o.
Proof. done. Qed.
Lemma slo_twice l o l' o' s : set_line_out l o (set_line_out l' o' s) = set_line_out l o s.
Proof. done. Qed.
Ltac slo := rewrite ?slo_line, ?slo_out, ?slo_twice.

Lemma on_line_run {A} (m : M mst A) s a buf o :
  m (mk_mst (sh_line s) (sh_out s)) = Some (a, mk_mst buf o) → on_line m s = Some (a, set_line_out buf o s).
Proof. intros H. unfold on_line. by rewrite H. Qed.

Lemma print_run fmt args t s :
  format_text fmt args = Some t → (length t ≤ 126)%nat → Forall byte t →
  print fmt args s = Some (tt, set_line_out (sh_line s) (sh_out s ++ t) s).
Proof.
  intros Hf Hl Hb. apply on_line_run. rewrite (kprintf_text _ _ t _ Hf) by lia. cbn. rewrite console_short; [done|done|].
  eapply Forall_impl; [exact Hb|]. unfold byte. cbn. lia.
Qed.

Lemma str_line_run s t c :
  sh_line s = pad t → text_ok t → (c ≤ length t)%nat → on_line (str_at (Z.of_nat c)) s = Some (drop c t, s).
Proof.
  intros Hl Ht Hc. rewrite (on_line_run _ _ (drop c t) (sh_line s) (sh_out s)); [by destruct s|].
  apply str_at_run. cbn. rewrite Hl. by apply pad_string.
Qed.

Ltac all_bytes :=
  repeat first [assumption | apply Forall_app_2 | apply Forall_cons_2; [first [assumption | unfold byte; lia]|] | apply Forall_nil_2].

Lemma backs_run n s : backs n s = Some (tt, set_line_out (sh_line s) (sh_out s ++ replicate n 8) s).
Proof.
  revert s. induction n as [|n IH]; intros s; cbn [backs replicate]; [rewrite app_nil_r; by destruct s|].
  unfold bind. rewrite (print_run _ _ [8]) by (done || (cbn; lia) || all_bytes).
  rewrite IH. destruct s. unfold set_line_out. cbn. by rewrite <- app_assoc.
Qed.

(** ** Keys *)

(** What the editing keys print. *)
Definition left_out (e : editor) : list Z := if (ed_cur e =? 0)%nat then [] else [8].
Definition right_out (e : editor) : list Z := take 1 (drop (ed_cur e) (ed_text e)).
Definition back_out (e : editor) : list Z :=
  let rest := drop (ed_cur e) (ed_text e) in
  if (ed_cur e =? 0)%nat then []
  else match rest with
       | [] => [8; 32; 8]
       | _ => 8 :: rest ++ [32; 32; 8] ++ replicate (length rest + 1) 8
       end.
Definition char_out (ch : Z) (e : editor) : list Z :=
  let rest := drop (ed_cur e) (ed_text e) in ch :: rest ++ replicate (length rest) 8.
Definition recall_out (p t : list Z) : list Z := [27; 91; 50; 75; 13] ++ p ++ t.

(** The routine returns, in a state that represents [e], and has printed [o]. *)
Definition does (p : list Z) (m : F unit) (s : finsh_shell) (e : editor) (o : list Z) : Prop :=
  ∃ s', m s = Some (tt, s') ∧ rep p s' e ∧ sh_out s' = sh_out s ++ o.

Lemma does_nothing p s e : rep p s e → does p (ret tt) s e [].
Proof. intros Hr. exists s. by rewrite app_nil_r. Qed.

Lemma rep_edit p s e t c o :
  rep p s e → text_ok t → (c ≤ length t)%nat →
  rep p (set_positions (Z.of_nat (length t)) (Z.of_nat c) (set_line_out (pad t) o s)) (ed_edit t c e).
Proof. intros [] Ht Hc. by split. Qed.

Lemma key_left_ok p s e : rep p s e → does p key_left s (ed_edit (ed_text e) (ed_cur e - 1) e) (left_out e).
Proof.
  intros Hr. pose proof Hr as [_ Hl Hp Hcp Hc Ht _ _ _ _ _ _ _]. unfold does, key_left, bind at 1, gets. cbn [id]. rewrite Hcp.
  unfold left_out. destruct (Nat.eqb_spec (ed_cur e) 0) as [E|E].
  - rewrite E. cbn. exists s. rewrite app_nil_r. split_and!; [done| |done]. by destruct Hr, e; cbn in *; subst.
  - unfold nz. rewrite (proj2 (Z.eqb_neq _ _)) by lia. cbn [negb]. unfold bind.
    rewrite (print_run _ _ [8]) by (done || (cbn; lia) || all_bytes). eexists. split; [reflexivity|].
    unfold text_ok, FINSH_CMD_SIZE in Ht. replace (u8 (Z.of_nat (ed_cur e) - 1)) with (Z.of_nat (ed_cur e - 1)) by (rewrite wrap_small; lia).
    rewrite Hl, Hp. split; [|done]. apply rep_edit; [done|done|lia].
Qed.

Lemma format_char c : byte c → format_text [37; 99] [VInt c] = Some [c].
Proof.
  unfold byte. intros Hc. transitivity (Some (aligned_text (-1) false [u8 (i32 c)] ++ [])); [reflexivity|].
  unfold aligned_text. cbn [length]. rewrite chars_none by (cbn; lia). cbn. rewrite (swrap_small 32) by lia. by rewrite wrap_small by lia.
Qed.

Lemma lookup_pad t c x : t !! c = Some x → pad t !! c = Some x.
Proof. intros H. unfold pad. by apply lookup_app_l_Some. Qed.

Lemma ld_line_run s t c x : sh_line s = pad t → t !! c = Some x → on_line (ld (Z.of_nat c)) s = Some (x, s).
Proof.
  intros Hl Hx. rewrite (on_line_run _ _ x (sh_line s) (sh_out s)); [by destruct s|]. unfold ld. rewrite (proj2 (Z.leb_le _ _)) by lia.
  cbn. by rewrite Nat2Z.id, Hl, (lookup_pad _ _ _ Hx).
Qed.

Lemma key_right_ok p s e :
  rep p s e → does p key_right s (ed_edit (ed_text e) (Nat.min (S (ed_cur e)) (length (ed_text e))) e) (right_out e).
Proof.
  intros Hr. pose proof Hr as [_ Hl Hp Hcp Hc Ht _ _ _ _ _ _ _]. unfold does, key_right, bind at 1, gets. cbn [id]. rewrite Hcp, Hp.
  unfold right_out. destruct (Z.ltb_spec (Z.of_nat (ed_cur e)) (Z.of_nat (length (ed_text e)))) as [Hlt|Hge].
  - destruct (lookup_lt_is_Some_2 (ed_text e) (ed_cur e)) as [x Hx]; [lia|]. rewrite (drop_S _ x _ Hx). cbn [take].
    assert (byte x) as Hb by (eapply Forall_lookup_1; [apply Ht|done]).
    unfold bind. rewrite (ld_line_run s _ _ x Hl Hx). rewrite (print_run _ _ [x]) by ((by apply format_char) || (cbn; lia) || all_bytes).
    eexists. split; [reflexivity|]. destruct Ht as [Hb1 Hl1]. unfold FINSH_CMD_SIZE in *.
    replace (u8 (Z.of_nat (ed_cur e) + 1)) with (Z.of_nat (S (ed_cur e))) by (rewrite wrap_small; lia).
    rewrite Hl, Nat.min_l by lia. split; [|done]. apply rep_edit; [done|by split|lia].
  - exists s. rewrite Nat.min_r, drop_ge, app_nil_r by lia. split_and!; [done| |done].
    assert (ed_cur e = length (ed_text e)) as <- by lia. by destruct Hr, e; cbn in *; subst.
Qed.

(** A character put into the line at [c]. *)
Definition put (c : nat) (ch : Z) (t : list Z) : list Z := take c t ++ ch :: drop c t.

Lemma length_put c ch t : (c ≤ length t)%nat → length (put c ch t) = S (length t).
Proof. intros H. unfold put. rewrite length_app, length_take. cbn. rewrite length_drop. lia. Qed.

Lemma put_ok c ch t : text_ok t → byte ch → (S (length t) < FINSH_CMD_SIZE)%nat → (c ≤ length t)%nat → text_ok (put c ch t).
Proof.
  intros [Hb Hl] Hc Hs Hle. split; [|by rewrite length_put]. unfold put. apply Forall_app_2; [by apply Forall_take|].
  apply Forall_cons_2; [done|by apply Forall_drop].
Qed.

(** Making room for the character and storing it. *)
Lemma insert_line_run s t c ch :
  sh_line s = pad t → (c < length t)%nat → (S (length t) < FINSH_CMD_SIZE)%nat →
  (memmove_line (Z.of_nat c + 1) (Z.of_nat c) (Z.of_nat (length t) - Z.of_nat c) ;; on_line (st (Z.of_nat c) ch)) s =
    Some (tt, set_line_out (pad (put c ch t)) (sh_out s) s).
Proof.
  intros Hl Hc Hs. unfold bind, memmove_line. rewrite Hl, length_pad by lia.
  replace (_ && _) with true by (symmetry; rewrite !andb_true_iff, !Z.leb_le; lia).
  replace (Z.to_nat (Z.of_nat c + 1)) with (S c) by lia. replace (Z.to_nat (Z.of_nat (length t) - Z.of_nat c)) with (length t - c)%nat by lia.
  replace (Z.to_nat (Z.of_nat c + 1 + (Z.of_nat (length t) - Z.of_nat c))) with (S (length t)) by lia. rewrite Nat2Z.id.
  destruct (lookup_lt_is_Some_2 t c Hc) as [x Hx]. set (N := (FINSH_CMD_SIZE - S (length t))%nat).
  assert (take (S c) (pad t) ++ take (length t - c) (drop c (pad t)) ++ drop (S (length t)) (pad t) =
    take c t ++ x :: drop c t ++ replicate N 0) as ->.
  { unfold pad. rewrite take_app_le by lia. rewrite (take_S_r _ _ x Hx), <- app_assoc. cbn [app]. do 2 f_equal.
    rewrite drop_app_le, take_app_le, (take_ge (drop c t)) by (rewrite ?length_drop; lia). f_equal.
    rewrite drop_app_ge by lia. replace (S (length t) - length t)%nat with 1%nat by lia. rewrite drop_replicate. f_equal. unfold N. lia. }
  etransitivity; [apply (on_line_run _ _ tt (pad (put c ch t)) (sh_out s))|reflexivity]. cbn [sh_line sh_out set_line].
  rewrite (st_run _ _ (take c t)) by (rewrite length_take; lia).
  do 3 f_equal. unfold pad, put. rewrite <- app_assoc. cbn [app]. do 3 f_equal. rewrite length_app, length_take. cbn [length].
  rewrite length_drop. f_equal. unfold N. lia.
Qed.

Lemma append_line_run s t ch :
  sh_line s = pad t → (S (length t) < FINSH_CMD_SIZE)%nat →
  on_line (st (Z.of_nat (length t)) ch) s = Some (tt, set_line_out (pad (put (length t) ch t)) (sh_out s) s).
Proof.
  intros Hl Hs. apply on_line_run. rewrite Hl, pad_nul by lia. rewrite st_run by done. do 3 f_equal.
  unfold pad, put. rewrite firstn_all, drop_all, <- app_assoc. cbn [app]. do 2 f_equal. rewrite length_app. cbn [length]. f_equal. lia.
Qed.

Lemma drop_put c ch t : (c ≤ length t)%nat → drop c (put c ch t) = ch :: drop c t.
Proof. intros H. unfold put. rewrite drop_app_ge by (rewrite length_take; lia). by rewrite length_take, Nat.min_l, Nat.sub_diag by lia. Qed.

Lemma key_char_ok p s e ch :
  rep p s e → byte ch → (S (length (ed_text e)) < FINSH_CMD_SIZE)%nat →
  does p (key_char ch) s (ed_edit (put (ed_cur e) ch (ed_text e)) (S (ed_cur e)) e) (char_out ch e).
Proof.
  intros Hr Hch Hroom. pose proof Hr as [_ Hl Hp Hcp Hc Ht _ _ _ _ _ _ He]. set (t := ed_text e) in *. set (c := ed_cur e) in *.
  pose proof (put_ok c ch t Ht Hch Hroom Hc) as Hpok. pose proof (length_put c ch t Hc) as Hlp.
  assert (∀ o, (modify (λ s, set_positions (u8 (sh_line_position s + 1)) (u8 (sh_line_curpos s + 1)) s) ;;
    modify (λ s, if Z.of_nat FINSH_CMD_SIZE <=? sh_line_position s then set_positions 0 0 s else s))
      (set_line_out (pad (put c ch t)) o s) =
    Some (tt, set_positions (Z.of_nat (length (put c ch t))) (Z.of_nat (S c)) (set_line_out (pad (put c ch t)) o s))) as Hend.
  { intros o. unfold bind, modify. cbn. rewrite Hp, Hcp, Hlp. unfold FINSH_CMD_SIZE in *.
    replace (u8 (Z.of_nat (length t) + 1)) with (Z.of_nat (S (length t))) by (rewrite wrap_small; lia).
    replace (u8 (Z.of_nat c + 1)) with (Z.of_nat (S c)) by (rewrite wrap_small; lia).
    rewrite (proj2 (Z.leb_gt _ _)) by lia. done. }
  unfold does, key_char. unfold bind at 1, modify at 1. rewrite Hp, (proj2 (Z.leb_gt _ _)) by lia.
  unfold bind at 1, gets. cbn [id]. rewrite Hp, Hcp. unfold char_out. fold c t.
  destruct (Z.ltb_spec (Z.of_nat c) (Z.of_nat (length t))) as [Hlt|Hge].
  - pose proof (insert_line_run s t c ch Hl ltac:(lia) Hroom) as Hins. unfold bind at 1 in Hins.
    unfold bind at 1. unfold bind at 1. destruct (memmove_line _ _ _ s) as [[[] s1]|]; [|done].
    unfold bind at 1. rewrite Hins. rewrite He. cbn [nz Z.eqb negb]. unfold bind at 1. unfold bind at 1.
    rewrite (str_line_run _ (put c ch t)) by (done || lia). rewrite drop_put by done.
    rewrite (print_run _ _ (ch :: drop c t)).
    + slo. rewrite backs_run. slo. rewrite Hend. eexists. split; [reflexivity|]. split; [by apply rep_edit; [| |rewrite Hlp; lia]|].
      cbn. rewrite <- app_assoc. cbn. rewrite length_drop. do 3 f_equal. f_equal. lia.
    + rewrite <- (app_nil_r (ch :: drop c t)) at 2. by apply format_string.
    + cbn. rewrite length_drop. unfold FINSH_CMD_SIZE in *. lia.
    + apply Forall_cons_2; [done|]. apply Forall_drop, Ht.
  - assert (c = length t) as Ec by lia. unfold bind at 1. unfold bind at 1. rewrite (append_line_run s t ch Hl Hroom), He. cbn [nz Z.eqb negb].
    rewrite (print_run _ _ [ch]) by ((by apply format_char) || (cbn; lia) || all_bytes). slo. rewrite <- Ec. rewrite Hend.
    eexists. split; [reflexivity|]. split; [by apply rep_edit; [| |rewrite Hlp; lia]|]. cbn. rewrite drop_ge by lia. done.
Qed.

(** The character in front of [c] taken out of the line. *)
Definition cut (c : nat) (t : list Z) : list Z := take (c - 1) t ++ drop c t.

Lemma length_cut c t : (0 < c ≤ length t)%nat → length (cut c t) = (length t - 1)%nat.
Proof. intros H. unfold cut. rewrite length_app, length_take, length_drop. lia. Qed.

Lemma cut_ok c t : text_ok t → (0 < c ≤ length t)%nat → text_ok (cut c t).
Proof.
  intros [Hb Hl] Hc. split; [|rewrite length_cut by done; lia]. unfold cut. apply Forall_app_2; [by apply Forall_take|by apply Forall_drop].
Qed.

(** Closing the gap and ending the line. *)
Lemma remove_line_run s t c :
  sh_line s = pad t → (0 < c < length t)%nat → (length t < FINSH_CMD_SIZE)%nat →
  (memmove_line (Z.of_nat (c - 1)) (Z.of_nat (c - 1) + 1) (Z.of_nat (length t - 1) - Z.of_nat (c - 1)) ;;
   on_line (st (Z.of_nat (length t - 1)) 0)) s = Some (tt, set_line_out (pad (cut c t)) (sh_out s) s).
Proof.
  intros Hl Hc Hs. unfold bind, memmove_line. rewrite Hl, length_pad by lia.
  replace (_ && _) with true by (symmetry; rewrite !andb_true_iff, !Z.leb_le; lia).
  replace (Z.to_nat (Z.of_nat (c - 1) + 1)) with c by lia. replace (Z.to_nat (Z.of_nat (length t - 1) - Z.of_nat (c - 1))) with (length t - c)%nat by lia.
  replace (Z.to_nat (Z.of_nat (c - 1) + (Z.of_nat (length t - 1) - Z.of_nat (c - 1)))) with (length t - 1)%nat by lia. rewrite Nat2Z.id.
  destruct (lookup_lt_is_Some_2 t (length t - 1)) as [y Hy]; [lia|]. set (N := (FINSH_CMD_SIZE - length t)%nat).
  assert (take (c - 1) (pad t) ++ take (length t - c) (drop c (pad t)) ++ drop (length t - 1) (pad t) =
    cut c t ++ y :: replicate N 0) as ->.
  { unfold pad, cut. rewrite take_app_le by lia. rewrite (drop_app_le _ _ c), take_app_le, (take_ge (drop c t)) by (rewrite ?length_drop; lia).
    rewrite (drop_app_le _ _ (length t - 1)) by lia. rewrite (drop_S _ y _ Hy), (drop_ge t (S _)) by lia. by rewrite <- app_assoc. }
  etransitivity; [apply (on_line_run _ _ tt (pad (cut c t)) (sh_out s))|reflexivity]. cbn [sh_line sh_out set_line].
  rewrite (st_run _ _ (cut c t)) by (rewrite length_cut; lia). do 3 f_equal. unfold pad. f_equal. rewrite length_cut by lia.
  replace (FINSH_CMD_SIZE - (length t - 1))%nat with (S N) by (unfold N; lia). done.
Qed.

Lemma truncate_line_run s t :
  sh_line s = pad t → (0 < length t < FINSH_CMD_SIZE)%nat →
  on_line (st (Z.of_nat (length t - 1)) 0) s = Some (tt, set_line_out (pad (cut (length t) t)) (sh_out s) s).
Proof.
  intros Hl Hs. apply on_line_run. destruct (lookup_lt_is_Some_2 t (length t - 1)) as [y Hy]; [lia|].
  assert (pad t = take (length t - 1) t ++ y :: replicate (FINSH_CMD_SIZE - length t) 0) as E.
  { unfold pad. rewrite <- (take_drop (length t - 1) t) at 1. rewrite (drop_S _ y _ Hy), (drop_ge t (S _)) by lia. by rewrite <- app_assoc. }
  rewrite Hl, E, st_run by (rewrite length_take; lia). do 3 f_equal. unfold pad, cut. rewrite drop_all, app_nil_r, length_take.
  f_equal. replace (FINSH_CMD_SIZE - (length t - 1) `min` length t)%nat with (S (FINSH_CMD_SIZE - length t)) by lia. done.
Qed.

Lemma format_back t : format_text [8;37;115;32;32;8] [VStr (Some t)] = Some (8 :: t ++ [32;32;8]).
Proof.
  transitivity (cons 8 <$> format_text (37 :: 115 :: [32;32;8]) [VStr (Some t)]); [reflexivity|].
  rewrite format_string; [done|]. repeat constructor; done.
Qed.

Lemma drop_cut c t : (0 < c ≤ length t)%nat → drop (c - 1) (cut c t) = drop c t.
Proof. intros H. unfold cut. rewrite drop_app_ge by (rewrite length_take; lia). by rewrite length_take, Nat.min_l, Nat.sub_diag by lia. Qed.

Lemma key_backspace_ok p s e :
  rep p s e → does p key_backspace s (if (ed_cur e =? 0)%nat then e else ed_edit (cut (ed_cur e) (ed_text e)) (ed_cur e - 1) e) (back_out e).
Proof.
  intros Hr. pose proof Hr as [_ Hl Hp Hcp Hc Ht _ _ _ _ _ _ _]. unfold does, key_backspace, bind at 1, gets. cbn [id]. rewrite Hcp, Hp.
  unfold back_out. destruct (Nat.eqb_spec (ed_cur e) 0) as [E|E].
  { rewrite E. cbn. exists s. by rewrite app_nil_r. }
  rewrite (proj2 (Z.eqb_neq _ _)) by lia. set (t := ed_text e) in *. set (c := ed_cur e) in *.
  pose proof (cut_ok c t Ht ltac:(lia)) as Hco. pose proof (length_cut c t ltac:(lia)) as Hlc. destruct Ht as [Hb Hlt]. unfold FINSH_CMD_SIZE in Hlt.
  replace (u8 (Z.of_nat c - 1)) with (Z.of_nat (c - 1)) by (rewrite wrap_small; lia).
  replace (u8 (Z.of_nat (length t) - 1)) with (Z.of_nat (length t - 1)) by (rewrite wrap_small; lia).
  unfold bind at 1, modify. set (s1 := set_positions _ _ s).
  assert (∀ o, rep p (set_line_out (pad (cut c t)) o s1) (ed_edit (cut c t) (c - 1) e)) as Hrep.
  { intros o. unfold s1. rewrite <- Hlc. apply rep_edit; [done|done|lia]. }
  destruct (Z.ltb_spec (Z.of_nat (c - 1)) (Z.of_nat (length t - 1))) as [Hin|Hat].
  - pose proof (remove_line_run s1 t c Hl ltac:(lia) Hlt) as Hrm. unfold bind at 1 in Hrm.
    unfold bind at 1. destruct (memmove_line _ _ _ s1) as [[[] s2]|]; [|done]. unfold bind at 1. rewrite Hrm.
    unfold bind at 1. rewrite (str_line_run _ (cut c t)) by (done || lia). rewrite drop_cut by lia.
    assert (length (drop c t) = (length t - c)%nat) as Hld by apply length_drop.
    unfold bind at 1. rewrite (print_run _ _ (8 :: drop c t ++ [32; 32; 8])).
    + rewrite backs_run. slo. eexists. split; [reflexivity|]. split; [done|]. cbn.
      destruct (drop c t) as [|y r] eqn:Ed; [cbn in Hld; lia|]. rewrite <- !app_assoc. cbn. rewrite <- app_assoc. cbn. do 5 f_equal.
      replace (Z.to_nat (Z.of_nat (length t - 1) - Z.of_nat (c - 1) + 1)) with (length r + 2)%nat by (cbn in Hld; lia).
      replace (length r + 1)%nat with (S (length r)) by lia. by replace (length r + 2)%nat with (S (S (length r))) by lia.
    + apply format_back.
    + cbn. rewrite length_app, Hld. cbn. lia.
    + apply Forall_cons_2; [unfold byte; lia|]. apply Forall_app_2; [by apply Forall_drop|all_bytes].
  - assert (c = length t) as Ec by lia. unfold bind at 1. rewrite (print_run _ _ [8; 32; 8]) by (done || (cbn; lia) || all_bytes).
    rewrite (truncate_line_run _ t) by (done || (unfold FINSH_CMD_SIZE; lia)). slo. rewrite <- Ec. eexists. split; [reflexivity|]. split; [done|]. cbn.
    by rewrite drop_ge by lia.
Qed.

(** ** History *)

Lemma format_two a b : format_text [37;115;37;115] [VStr (Some a); VStr (Some b)] = Some (a ++ b).
Proof.
  transitivity ('(fmt, args, t) ← directive_text [115;37;115] [VStr (Some a); VStr (Some b)]; app t <$> text_loop 3 fmt args)%stdpp;
    [reflexivity|].
  rewrite directive_string. cbn [mbind option_bind].
  transitivity (app a <$> ('(fmt, args, t) ← directive_text [115] [VStr (Some b)]; app t <$> text_loop 2 fmt args))%stdpp; [reflexivity|].
  rewrite directive_string. cbn. by rewrite app_nil_r.
Qed.

Lemma prompt_bytes p : prompt_ok p → Forall byte p.
Proof. intros [H _]. eapply Forall_impl; [exact H|]. by intros c [? _]. Qed.

(** The prompt and the line are printed. *)
Lemma show_line_run p s t :
  prompt_ok p → text_ok t → sh_line s = pad t → prompt_text s = p →
  (p ← finsh_get_prompt; t ← on_line (str_at 0); print [37;115;37;115] [VStr (Some p); VStr (Some t)]) s =
    Some (tt, set_line_out (pad t) (sh_out s ++ p ++ t) s).
Proof.
  intros Hp Ht Hl <-. unfold bind, finsh_get_prompt, gets. change 0 with (Z.of_nat 0). rewrite (str_line_run s t 0) by (done || lia).
  rewrite (print_run _ _ (prompt_text s ++ t)); [by rewrite Hl| | |].
  - rewrite drop_0. apply format_two.
  - destruct Hp as [_ Hp], Ht as [_ Ht]. unfold FINSH_CMD_SIZE in Ht. rewrite length_app. lia.
  - apply Forall_app_2; [by apply prompt_bytes|apply Ht].
Qed.

Lemma rep_recall p s e n t o :
  rep p s e → ed_hist e !! n = Some t →
  rep p (set_line_out (pad t) o (set_positions (Z.of_nat (length t)) (Z.of_nat (length t))
    (set_history (Z.of_nat n) (sh_history_count s) (sh_cmd_history s) s))) (ed_recall n e).
Proof.
  intros [] Hn. unfold ed_recall. rewrite Hn. cbn. apply lookup_lt_Some in Hn as Hlt.
  split; try done; cbn; [|lia]. eapply Forall_lookup_1; [exact rp_entries0|exact Hn].
Qed.

Lemma recall_ok p s e n t :
  rep p s e → prompt_ok p → ed_hist e !! n = Some t →
  does p (modify (set_history (Z.of_nat n) (sh_history_count s) (sh_cmd_history s)) ;; recall) s (ed_recall n e) (recall_out p t).
Proof.
  intros Hr Hp Hn. pose proof Hr as [_ Hl _ _ _ _ (rest & Hh & Hlen) Hent _ _ _ Hpr _].
  assert (text_ok t) as Ht by (eapply Forall_lookup_1; [exact Hent|exact Hn]).
  unfold does, bind at 1, modify. set (s1 := set_history _ _ _ s). unfold recall, bind at 1, gets at 1. cbn [id].
  unfold bind at 1, from_opt. cbn [sh_current_history sh_cmd_history s1 set_history]. rewrite Nat2Z.id, Hh.
  rewrite lookup_app_l by (rewrite length_fmap; by apply lookup_lt_Some in Hn). rewrite list_lookup_fmap, Hn. cbn [fmap option_fmap option_map].
  unfold bind at 1, modify at 1. unfold bind at 1. change (str_at 0) with (str_at (Z.of_nat 0)).
  rewrite (str_line_run _ t 0) by (done || lia). rewrite drop_0. unfold bind at 1, modify.
  pose proof Ht as [_ Htl]. unfold FINSH_CMD_SIZE in Htl. rewrite wrap_small by lia.
  unfold shell_handle_history. unfold bind at 1. rewrite (print_run _ _ [27;91;50;75;13]) by (done || (cbn; lia) || all_bytes).
  rewrite (show_line_run p _ t) by done. eexists. split; [reflexivity|]. split; [by apply (rep_recall p s e n t)|].
  cbn. by rewrite <- app_assoc.
Qed.

Lemma key_up_ok p s e :
  rep p s e → prompt_ok p →
  does p key_up s (if (ed_pos e =? 0)%nat then e else ed_recall (ed_pos e - 1) e)
    (if (ed_pos e =? 0)%nat then [] else recall_out p (default [] (ed_hist e !! (ed_pos e - 1)%nat))).
Proof.
  intros Hr Hp. pose proof Hr as [_ _ _ _ _ _ _ _ Hcnt Hcur Hpos _ _]. unfold does, key_up. unfold bind at 1, gets. cbn [id]. rewrite Hcur.
  destruct (Nat.eqb_spec (ed_pos e) 0) as [E|E].
  - rewrite (proj2 (Z.ltb_ge _ _)) by lia. eexists. split; [reflexivity|]. rewrite app_nil_r. split; [|done].
    destruct Hr. split; try done. cbn. lia.
  - rewrite (proj2 (Z.ltb_lt _ _)) by lia. destruct (lookup_lt_is_Some_2 (ed_hist e) (ed_pos e - 1)) as [t Ht]; [lia|]. rewrite Ht.
    replace (Z.of_nat (ed_pos e) - 1) with (Z.of_nat (ed_pos e - 1)) by lia. by apply recall_ok.
Qed.

Definition next_pos (e : editor) : nat := Nat.min (S (ed_pos e)) (length (ed_hist e) - 1).

Lemma key_down_ok p s e :
  rep p s e → prompt_ok p →
  does p key_down s (if (length (ed_hist e) =? 0)%nat then e else ed_recall (next_pos e) e)
    (if (length (ed_hist e) =? 0)%nat then [] else recall_out p (default [] (ed_hist e !! next_pos e))).
Proof.
  intros Hr Hp. pose proof Hr as [_ _ _ _ _ _ _ _ Hcnt Hcur Hpos _ _]. unfold does, key_down. unfold bind at 1, gets. cbn [id].
  destruct (Nat.eqb_spec (length (ed_hist e)) 0) as [E|E].
  - rewrite Hcur, Hcnt, (proj2 (Z.ltb_ge _ _)) by lia. rewrite E. cbn. exists s. by rewrite app_nil_r.
  - destruct (lookup_lt_is_Some_2 (ed_hist e) (next_pos e)) as [t Ht]; [unfold next_pos; lia|]. rewrite Ht. unfold next_pos in *.
    destruct (Z.ltb_spec (sh_current_history s) (sh_history_count s - 1)).
    + rewrite Nat.min_l in * by lia. replace (sh_current_history s + 1) with (Z.of_nat (S (ed_pos e))) by lia. by apply recall_ok.
    + rewrite Nat.min_r in * by lia. unfold nz. rewrite (proj2 (Z.eqb_neq _ _)) by lia. cbn [negb].
      replace (sh_history_count s - 1) with (Z.of_nat (length (ed_hist e) - 1)) by lia. by apply recall_ok.
Qed.

Lemma history_entry_pad t : (length t < FINSH_CMD_SIZE)%nat → history_entry (pad t) (Z.of_nat (length t)) = pad t.
Proof. intros H. unfold history_entry, pad. by rewrite Nat2Z.id, take_app_length. Qed.

Lemma fmap_last_lookup h t rest :
  Forall text_ok h → text_ok t → h ≠ [] →
  ∃ x, ((pad <$> h) ++ rest) !! (length h - 1)%nat = Some x ∧ (x = pad t ↔ last h = Some t).
Proof.
  intros Hh Ht Hne. destruct h as [|u h _] using rev_ind; [done|]. exists (pad u). rewrite last_snoc, length_app. cbn.
  rewrite lookup_app_l by (rewrite length_fmap, length_app; cbn; lia).
  rewrite list_lookup_fmap, lookup_app_r by lia. replace (length h + 1 - 1 - length h)%nat with 0%nat by lia. split; [done|].
  apply Forall_app in Hh as [_ Hu%Forall_inv]. split; [intros E; by rewrite (pad_inj u t Hu Ht E)|]. by intros [= ->].
Qed.

Lemma push_entries_run h rest s t :
  sh_cmd_history s = (pad <$> h) ++ rest → (length h + length rest = FINSH_HISTORY_LINES)%nat → sh_history_count s = Z.of_nat (length h) →
  Forall text_ok h → text_ok t → sh_line s = pad t → sh_line_position s = Z.of_nat (length t) →
  ∃ cur rest', push_entries s = Some (tt, set_history cur (Z.of_nat (length (remember t h))) ((pad <$> remember t h) ++ rest') s) ∧
    (length (remember t h) + length rest' = FINSH_HISTORY_LINES)%nat.
Proof.
  intros Hh Hlen Hcnt Hent Ht Hl Hpo. pose proof Ht as [_ Htl].
  assert (∀ b, b = bool_decide (last h = Some t) → t ≠ [] → remember t h = if b then h else
    (if (FINSH_HISTORY_LINES <=? length h)%nat then tail h else h) ++ [t]) as Hrem.
  { intros b -> Hne. unfold remember. case_bool_decide as H1; case_bool_decide as H2; tauto. }
  assert (∃ cur rest', set_history cur (Z.of_nat (length h)) ((pad <$> h) ++ rest') s = s ∧ (length h + length rest' = FINSH_HISTORY_LINES)%nat)
    as (cur & rest' & Hsame & Hlen') by (exists (sh_current_history s), rest; rewrite <- Hh, <- Hcnt; by destruct s).
  unfold push_entries, bind at 1, gets. cbn [id]. destruct (decide (t = [])) as [Hn|Hn].
  { rewrite Hpo, Hn. cbn [nz length Z.of_nat Z.eqb negb]. replace (remember [] h) with h by (unfold remember; by rewrite bool_decide_eq_true_2 by tauto).
    exists cur, rest'. by rewrite Hsame. }
  rewrite Hpo. unfold nz. rewrite (proj2 (Z.eqb_neq _ _)) by (destruct t; [done|cbn; lia]). cbn [negb].
  rewrite Hcnt, Hl, Hh, history_entry_pad by done. destruct (Z.leb_spec (Z.of_nat FINSH_HISTORY_LINES) (Z.of_nat (length h))) as [Hge|Hlt].
  - assert (length h = FINSH_HISTORY_LINES) as H5 by lia. destruct (fmap_last_lookup h t rest Hent Ht) as (x & Hx & Heq); [by intros ->|].
    rewrite H5 in Hx. unfold bind at 1, from_opt at 1. rewrite Hx. rewrite (Hrem (bool_decide (x = pad t))) by (done || by apply bool_decide_ext).
    clear Hrem. case_bool_decide; [exists cur, rest'; by rewrite Hsame|]. unfold FINSH_HISTORY_LINES in *.
    destruct h as [|a1 [|a2 [|a3 [|a4 [|a5 [|]]]]]]; try (cbn in H5; lia). destruct rest; [|cbn in Hlen; lia].
    exists (sh_current_history s), []. done.
  - assert (∃ x rest'', rest = x :: rest'') as (x & rest'' & ->) by (destruct rest; [cbn in Hlen; lia|eauto]). cbn [length] in Hlen.
    assert ((if Z.of_nat (length h) =? 0 then ret false
       else last ← from_opt (((pad <$> h) ++ x :: rest'') !! Z.to_nat (Z.of_nat (length h) - 1)); ret (bool_decide (last = pad t))) s =
       Some (bool_decide (last h = Some t), s)) as Hb.
    { destruct (Z.eqb_spec (Z.of_nat (length h)) 0) as [E|E]; [by destruct h; [|cbn in E; lia]|].
      destruct (fmap_last_lookup h t (x :: rest'') Hent Ht) as (y & Hy & Heq); [by intros ->|].
      replace (Z.to_nat (Z.of_nat (length h) - 1)) with (length h - 1)%nat by lia. unfold bind, from_opt. rewrite Hy.
      by rewrite (bool_decide_ext _ _ Heq). }
    unfold bind at 1. rewrite Hb. rewrite (Hrem _ eq_refl Hn). clear Hrem Hb. case_bool_decide; [exists cur, rest'; by rewrite Hsame|].
    rewrite (proj2 (Nat.leb_gt _ _)) by lia. exists (Z.of_nat (length h)), rest''. rewrite length_app. cbn [length]. split; [|lia].
    unfold modify. do 2 f_equal. unfold FINSH_HISTORY_LINES in *. rewrite wrap_small by lia. rewrite Nat2Z.id.
    rewrite insert_app_r_alt by (rewrite length_fmap; lia). rewrite length_fmap, Nat.sub_diag, fmap_app, <- app_assoc. cbn. f_equal. lia.
Qed.

Lemma remember_ok t h : Forall text_ok h → text_ok t → Forall text_ok (remember t h).
Proof.
  intros Hh Ht. unfold remember. case_bool_decide; [done|]. apply Forall_app_2; [|by apply Forall_singleton].
  destruct (_ <=? _)%nat; [|done]. destruct h; [done|]. by inversion Hh.
Qed.

(** The history after [shell_push_history]. *)
Lemma push_history_ok p s e :
  rep p s e → let h := remember (ed_text e) (ed_hist e) in
  ∃ s', shell_push_history s = Some (tt, s') ∧ rep p s' (mk_editor (ed_stat e) (ed_text e) (ed_cur e) h (length h)) ∧ sh_out s' = sh_out s.
Proof.
  intros Hr h. pose proof Hr as [_ Hl Hpo _ _ Ht (rest & Hh & Hlen) Hent Hcnt _ _ _ _].
  destruct (push_entries_run (ed_hist e) rest s (ed_text e) Hh Hlen Hcnt Hent Ht Hl Hpo) as (cur & rest' & Hrun & Hlen').
  fold h in Hrun, Hlen'. assert (Forall text_ok h) as Hok by (by apply remember_ok).
  unfold shell_push_history, bind. rewrite Hrun. eexists. split; [reflexivity|]. split; [|done].
  destruct Hr. split; try done. by exists rest'.
Qed.

(** ** Running a line *)

Section refine.
Context (table : list finsh_syscall) (run_cmd : Z → list Z → M mst Z).

(** What running the line [t] does to the output: nothing for a blank line; otherwise the
    command is called with the arguments of the line, or it is not found. *)
Definition runs_line (t o o' : list Z) : Prop :=
  let line := (span blank t).2 in
  match tokens t, find_command table (span unblank line).1 with
  | [], _ => o' = o
  | ts, Some f => ∃ argv buf o1 r m,
      Forall2 (string_at buf) argv (take FINSH_ARG_MAX ts) ∧ ((length ts < FINSH_ARG_MAX)%nat → o1 = o) ∧
      run_cmd f argv (mk_mst buf o1) = Some (r, m) ∧ o' = m_out m
  | _, None => o' = o ++ (span not_space line).1 ++ drop 2 not_found
  end.

(** The list of commands that [msh_help] prints. *)
Definition help_line (x : finsh_syscall) : list Z :=
  if is_command x then
    default [] (rt_kprintf [37;45;49;54;115;32;45;32;37;115;10] [VStr (Some (drop 6 (fs_name x))); VStr (Some (fs_desc x))])
  else [].
Definition help_text : list Z :=
  [82;84;45;84;104;114;101;97;100;32;115;104;101;108;108;32;99;111;109;109;97;110;100;115;58;10] ++ concat (help_line <$> table) ++ [10].

(** What completion prints. *)
Definition complete_out (t : list Z) : list Z :=
  match t with [] => help_text | _ => concat ((λ x, console_text (x ++ [10])) <$> candidates table t) end.

Definition tab_out (p : list Z) (e : editor) : list Z :=
  replicate (ed_cur e) 8 ++ [10] ++ complete_out (ed_text e) ++ p ++ completed table (ed_text e).

(** What a key prints. *)
Definition key_shows (p : list Z) (ch : Z) (e : editor) (o o' : list Z) : Prop :=
  if (ch =? 0) || (ch =? 0xFF) then o' = o
  else if ch =? 9 then o' = o ++ tab_out p e
  else if (ch =? 0x7f) || (ch =? 0x08) then o' = o ++ back_out e
  else if (ch =? 13) || (ch =? 10) then ∃ o1, runs_line (ed_text e) (o ++ [10]) o1 ∧ o' = o1 ++ p
  else o' = o ++ char_out ch e.

Definition step_shows (p : list Z) (ch : Z) (e : editor) (o o' : list Z) : Prop :=
  if ch =? 0x1b then o' = o
  else
    match ed_stat e with
    | WAIT_SPEC_KEY => if ch =? 0x5b then o' = o else key_shows p ch e o o'
    | WAIT_FUNC_KEY =>
        if ch =? 0x41 then o' = o ++ (if (ed_pos e =? 0)%nat then [] else recall_out p (default [] (ed_hist e !! (ed_pos e - 1)%nat)))
        else if ch =? 0x42 then
          o' = o ++ (if (length (ed_hist e) =? 0)%nat then [] else recall_out p (default [] (ed_hist e !! next_pos e)))
        else if ch =? 0x44 then o' = o ++ left_out e
        else if ch =? 0x43 then o' = o ++ right_out e
        else key_shows p ch e o o'
    | WAIT_NORMAL => key_shows p ch e o o'
    end.

Fixpoint run_shows (p : list Z) (chs : list Z) (e : editor) (o o' : list Z) : Prop :=
  match chs with
  | [] => o' = o
  | ch :: chs => ∃ e1 o1, ed_step table ch e = Some e1 ∧ step_shows p ch e o o1 ∧ run_shows p chs e1 o1 o'
  end.

(** The commands return, and the table fits the line. *)
Context (Htable : table_ok table) (Hnames : Forall (λ x, (length (fs_name x) ≤ 85)%nat) table).
Context (Hruns : ∀ f argv m, is_Some (run_cmd f argv m)).
Context (p : list Z) (Hp : prompt_ok p).

Lemma exec_line_ok t o :
  text_ok t → ∃ r m, msh_exec table run_cmd 0 (Z.of_nat (length t)) (mk_mst (pad t) o) = Some (r, m) ∧ runs_line t o (m_out m).
Proof.
  intros [Hb Hl]. pose proof (msh_exec_run table run_cmd Htable t (replicate (FINSH_CMD_SIZE - 1 - length t) 0) o Hb) as H.
  unfold FINSH_CMD_SIZE in Hl. specialize (H ltac:(lia)). rewrite <- pad_nul in H by (unfold FINSH_CMD_SIZE; lia). cbv zeta in H.
  unfold runs_line. destruct (tokens t) as [|tk tks]; [by rewrite H; eauto|].
  destruct (find_command _ _) as [f|].
  - destruct H as (argv & buf & o1 & -> & _ & Hs & Ho). destruct (Hruns f argv (mk_mst buf o1)) as [[r m] Hr]. exists r, m. split; [done|].
    by exists argv, buf, o1, r, m.
  - destruct H as (buf & -> & _). by eexists _, _.
Qed.

Definition ed_enter (e : editor) : editor :=
  let h := remember (ed_text e) (ed_hist e) in mk_editor (ed_stat e) [] 0 h (length h).

Lemma print_prompt_run s : prompt_text s = p → (p ← finsh_get_prompt; print p []) s = Some (tt, set_line_out (sh_line s) (sh_out s ++ p) s).
Proof.
  intros E. unfold bind, finsh_get_prompt, gets. rewrite E. apply print_run; [|destruct Hp; lia|by apply prompt_bytes].
  apply format_plain. eapply Forall_impl; [apply Hp|]. by intros c [_ ?].
Qed.

Lemma key_enter_ok s e :
  rep p s e → ∃ s' o1, key_enter table run_cmd s = Some (tt, s') ∧ rep p s' (ed_enter e) ∧
    runs_line (ed_text e) (sh_out s ++ [10]) o1 ∧ sh_out s' = o1 ++ p.
Proof.
  intros Hr. destruct (push_history_ok p s e Hr) as (s1 & Hpush & Hr1 & Ho1). pose proof Hr1 as [_ Hl Hpo _ _ Ht _ _ _ _ _ Hpr He].
  cbn [ed_text] in Hl, Hpo, Ht. unfold key_enter. unfold bind at 1. rewrite Hpush. unfold bind at 1, gets at 1. cbn [id].
  rewrite He, Hpo. cbn [nz Z.eqb negb]. unfold bind at 1. rewrite (print_run _ _ [10]) by (done || (cbn; lia) || all_bytes).
  destruct (exec_line_ok (ed_text e) (sh_out s ++ [10]) Ht) as (r & [buf o1] & Hex & Hline).
  unfold bind at 1. rewrite (on_line_run _ _ r buf o1) by (cbn; by rewrite Hl, Ho1). slo. set (s2 := set_line_out buf o1 s1).
  pose proof (print_prompt_run s2 Hpr) as Hpp. unfold bind in Hpp. unfold bind.
  destruct (finsh_get_prompt s2) as [[q s3]|]; [|done]. rewrite Hpp. eexists _, o1. split; [reflexivity|]. split; [|done].
  destruct Hr1. split; try done. split; [done|unfold FINSH_CMD_SIZE; cbn; lia].
Qed.

(** ** Completing a line *)

Lemma foldl_common n l : common_prefix n (foldl (λ m x, Nat.min (str_common n x) m) (length n) l) (n :: l).
Proof.
  induction l as [|x l IH] using rev_ind; [apply common_prefix_single|]. rewrite foldl_snoc.
  pose proof (common_prefix_snoc n _ (n :: l) x IH) as H. cbv zeta in H. set (m := foldl _ _ _) in *. rewrite app_comm_cons.
  replace (str_common n x `min` m)%nat with (if (str_common n x <? m)%nat then str_common n x else m); [done|].
  destruct (Nat.ltb_spec (str_common n x) m); lia.
Qed.

Lemma common_prefix_unique n l m m' : common_prefix n m l → common_prefix n m' l → m = m'.
Proof. intros [H1 H2 H3] [H1' H2' H3']. apply Nat.le_antisymm; [by apply H3'|by apply H3]. Qed.

Lemma candidate_spec t x : t ≠ [] → Forall byte t → x ∈ candidates table t → take (length t) x = t ∧ text_ok x.
Proof.
  intros Hne Ht. unfold candidates. rewrite list_elem_of_fmap. intros (y & -> & [Hy Hin]%list_elem_of_filter).
  apply Is_true_true, andb_true_iff in Hy as [_ Hy]. split; [by apply strncmp_eq_self; [apply text_nonzero|]|].
  unfold table_ok in Htable. rewrite Forall_forall in Htable, Hnames. split; [by apply Forall_drop, Htable|].
  unfold FINSH_CMD_SIZE. cbn. rewrite length_drop. specialize (Hnames y Hin). lia.
Qed.

Lemma completed_ok t : text_ok t → text_ok (completed table t) ∧ (length t ≤ length (completed table t))%nat.
Proof.
  intros Ht. unfold completed. destruct t as [|c t']; [by split|]. set (t := c :: t') in *.
  destruct (candidates table t) as [|n l] eqn:El; [done|].
  destruct (candidate_spec t n) as [Htn [Hb Hl]]; [done|apply Ht|rewrite El; set_solver|].
  pose proof (foldl_common n l) as [Hm Ha Hmax]. set (m := foldl _ _ _) in *. split.
  - split; [by apply Forall_take|rewrite length_take; lia].
  - assert (length t ≤ length n)%nat by (apply (f_equal length) in Htn; rewrite length_take in Htn; lia).
    rewrite length_take, Nat.min_l by done. apply Hmax; [done|]. intros x Hx. rewrite <- El in Hx.
    destruct (candidate_spec t x) as [-> _]; [done|apply Ht|done|done].
Qed.

Lemma format_help n d : is_Some (format_text [37;45;49;54;115;32;45;32;37;115;10] [VStr (Some n); VStr (Some d)]).
Proof. eexists. reflexivity. Qed.

Lemma help_loop_run l s : help_loop l s = Some (tt, mk_mst (m_buf s) (m_out s ++ concat (help_line <$> l))).
Proof.
  revert s. induction l as [|x l IH]; intros s; cbn [help_loop fmap list_fmap concat]; [rewrite app_nil_r; by destruct s|].
  unfold bind. unfold help_line at 1. destruct (is_command x); [|apply IH].
  destruct (format_help (drop 6 (fs_name x)) (fs_desc x)) as [t Ht].
  destruct (kprintf_returns _ _ _ Ht) as [d Hd]. unfold kprintf at 1. rewrite Hd, IH. cbn. by rewrite app_assoc.
Qed.

Lemma help_run s : msh_help table s = Some (0, mk_mst (m_buf s) (m_out s ++ help_text)).
Proof.
  unfold msh_help, bind. rewrite (kprintf_text _ _ [82;84;45;84;104;114;101;97;100;32;115;104;101;108;108;32;99;111;109;109;97;110;100;115;58;10]) by (reflexivity || cbn; lia).
  rewrite help_loop_run, (kprintf_text _ _ [10]) by (reflexivity || cbn; lia). unfold help_text. cbn [m_buf m_out].
  rewrite !console_short by first [cbn; lia|repeat constructor; lia]. by rewrite <- !app_assoc.
Qed.

Lemma names_short : names_fit table.
Proof using Hnames. eapply Forall_impl; [exact Hnames|]. cbn. lia. Qed.

Lemma auto_complete_ok t o :
  text_ok t → msh_auto_complete table 0 (mk_mst (pad t) o) = Some (tt, mk_mst (pad (completed table t)) (o ++ complete_out t)).
Proof.
  intros Ht. destruct t as [|c t'].
  { unfold msh_auto_complete, bind. rewrite (ld_run 0 _ [] 0 (replicate 79 0)) by done. cbn [Z.eqb]. by rewrite help_run. }
  set (t := c :: t') in *. pose proof Ht as [Hb Hl]. set (E := replicate (FINSH_CMD_SIZE - 1 - length t) 0).
  pose proof (msh_auto_complete_run table t E o Htable names_short ltac:(done) (text_nonzero _ Hb)) as H.
  assert (Forall (λ n : list Z, (length n ≤ length t + length E)%nat) (candidates table t)) as Hroom.
  { apply Forall_forall. intros x Hx. destruct (candidate_spec t x) as [_ [_ Hx']]; [done|done|done|]. unfold E. rewrite length_replicate. lia. }
  specialize (H Hroom). unfold E in H. rewrite <- pad_nul in H by done. cbv zeta in H. unfold wp in H.
  destruct (msh_auto_complete table 0 (mk_mst (pad t) o)) as [[[] [buf o']]|]; [|done]. cbn [m_out m_buf] in H. destruct H as [-> H].
  change (complete_out t) with (concat ((λ x, console_text (x ++ [10])) <$> candidates table t)). do 3 f_equal.
  pose proof (completed_ok t Ht) as [[_ Hcl] Hct].
  assert (completed table t = match candidates table t with [] => t | n :: l => take (foldl (λ m x, Nat.min (str_common n x) m) (length n) l) n end) as Ec
    by reflexivity.
  rewrite Ec in *. destruct (candidates table t) as [|n l] eqn:El; [by rewrite H|].
  destruct H as (m & Hcp & _ & ->). pose proof (common_prefix_unique _ _ _ _ Hcp (foldl_common n l)) as Em. rewrite <- Em in *.
  pose proof (cp_length _ _ _ Hcp) as Hm. rewrite length_take, Nat.min_l in Hct, Hcl by done.
  clear Ec. unfold pad. rewrite (length_take n m), Nat.min_l by done. f_equal. rewrite drop_app_ge by done. rewrite drop_replicate. f_equal. lia.
Qed.

Lemma key_tab_ok s e :
  rep p s e → does p (key_tab table) s (ed_edit (completed table (ed_text e)) (length (completed table (ed_text e))) e) (tab_out p e).
Proof.
  intros Hr. pose proof Hr as [_ Hl Hpo Hcp Hc Ht _ _ _ _ _ Hpr He]. pose proof (completed_ok _ Ht) as [Htc _].
  set (t' := completed table (ed_text e)) in *. unfold does, key_tab. unfold bind at 1, gets. rewrite Hcp, Nat2Z.id.
  unfold bind at 1. rewrite backs_run. unfold bind at 1. unfold shell_auto_complete. unfold bind at 1.
  rewrite (print_run _ _ [10]) by (done || (cbn; lia) || all_bytes). slo. unfold bind at 1.
  rewrite (on_line_run _ _ tt (pad t') ((sh_out s ++ replicate (ed_cur e) 8) ++ [10] ++ complete_out (ed_text e))).
  2:{ slo. rewrite Hl, auto_complete_ok by done. by rewrite <- !app_assoc. }
  slo. rewrite (show_line_run p _ t') by done. slo. unfold bind. change 0 with (Z.of_nat 0). rewrite (str_line_run _ t' 0) by (done || lia).
  rewrite drop_0. unfold modify. eexists. split; [reflexivity|]. pose proof Htc as [_ Hlt]. unfold FINSH_CMD_SIZE in Hlt. rewrite wrap_small by lia.
  split; [by apply rep_edit|].
  cbn [sh_out set_positions set_line_out]. unfold tab_out. fold t'. by rewrite <- !app_assoc.
Qed.

(** ** Steps *)

Lemma key_ok s e ch e' :
  rep p s e → 0 ≤ ch < 256 → ed_key table ch e = Some e' →
  ∃ s', edit table run_cmd ch s = Some (tt, s') ∧ rep p s' e' ∧ key_shows p ch e (sh_out s) (sh_out s').
Proof.
  intros Hr Hch. unfold ed_key, edit, key_shows.
  destruct ((ch =? 0) || (ch =? 255)) eqn:E0; [intros [= <-]; by exists s|].
  destruct (ch =? 9); [intros [= <-]; apply (key_tab_ok s e Hr)|].
  destruct ((ch =? 127) || (ch =? 8)); [intros [= <-]; apply (key_backspace_ok p s e Hr)|].
  destruct ((ch =? 13) || (ch =? 10)).
  - intros [= <-]. destruct (key_enter_ok s e Hr) as (s' & o1 & H1 & H2 & H3 & H4). exists s'. split_and!; [done|done|]. by exists o1.
  - destruct (Nat.ltb_spec (length (ed_text e)) (FINSH_CMD_SIZE - 1)); [|done]. intros [= <-].
    apply orb_false_iff in E0 as [?%Z.eqb_neq ?]. apply key_char_ok; [done|unfold byte; lia|lia].
Qed.

Lemma rep_stat s e x : rep p s e → rep p (set_stat x s) (ed_with_stat x e).
Proof. by intros []. Qed.

Lemma step_ok s e ch e' :
  rep p s e → 0 ≤ ch < 256 → ed_step table ch e = Some e' →
  ∃ s', finsh_step table run_cmd ch s = Some (tt, s') ∧ rep p s' e' ∧ step_shows p ch e (sh_out s) (sh_out s').
Proof.
  intros Hr Hch. unfold ed_step, finsh_step, step_shows. rewrite (proj2 (Z.ltb_ge _ _)) by lia.
  destruct (ch =? 27); [intros [= <-]; eexists; split; [reflexivity|]; split; [by apply rep_stat|done]|].
  unfold bind at 1, gets. rewrite (rp_stat _ _ _ Hr). pose proof (rep_stat s e WAIT_NORMAL Hr) as Hn.
  destruct (ed_stat e).
  - intros H. by apply key_ok.
  - destruct (ch =? 91); [intros [= <-]; eexists; split; [reflexivity|]; split; [by apply rep_stat|done]|].
    intros H. exact (key_ok _ _ ch e' Hn Hch H).
  - unfold bind, modify.
    destruct (ch =? 65); [intros [= <-]; exact (key_up_ok p _ _ Hn Hp)|].
    destruct (ch =? 66); [intros [= <-]; exact (key_down_ok p _ _ Hn Hp)|].
    destruct (ch =? 68); [intros [= <-]; exact (key_left_ok p _ _ Hn)|].
    destruct (ch =? 67); [intros [= <-]; exact (key_right_ok p _ _ Hn)|].
    intros H. exact (key_ok _ _ ch e' Hn Hch H).
Qed.

Lemma run_ok chs : ∀ s e e',
  rep p s e → Forall (λ ch, 0 ≤ ch < 256) chs → ed_run table chs e = Some e' →
  ∃ s', finsh_run table run_cmd chs s = Some (tt, s') ∧ rep p s' e' ∧ run_shows p chs e (sh_out s) (sh_out s').
Proof.
  induction chs as [|ch chs IH]; intros s e e' Hr Hall He; cbn in He; [injection He as <-; by exists s|].
  inversion Hall as [|? ? Hch Hall']; subst. destruct (ed_step table ch e) as [e1|] eqn:E1; [|done]. cbn in He.
  destruct (step_ok s e ch e1 Hr Hch E1) as (s1 & Hs1 & Hr1 & Ho1). destruct (IH s1 e1 e' Hr1 Hall' He) as (s' & Hs' & Hr' & Ho').
  exists s'. cbn [finsh_run]. unfold bind. rewrite Hs1. split_and!; [done|done|]. by exists e1, (sh_out s1).
Qed.
End refine.

(** * Sessions *)

Definition new_editor : editor := mk_editor WAIT_NORMAL [] 0 [] 0.

Lemma MSH_PROMPT_ok : prompt_ok MSH_PROMPT.
Proof. split; [repeat constructor; unfold byte; lia|cbn; lia]. Qed.

Lemma start_run : ∃ s, finsh_start new_shell = Some (tt, s) ∧ rep MSH_PROMPT s new_editor ∧ sh_out s = MSH_PROMPT.
Proof.
  eexists. split; [vm_compute; reflexivity|]. split; [|reflexivity]. split; try reflexivity; cbn; try lia; try done.
  - split; [done|unfold FINSH_CMD_SIZE; cbn; lia].
  - eexists. split; reflexivity.
Qed.

(** C17: A session of the shell refines the editor: from start-up on, whatever characters
    are typed, as long as no line reaches its 80th character, every step returns without
    touching memory outside of the line and the history, the array holds the text of the
    editor ended by NULs, cursor, history and the place in it agree, and the output is the
    echo of the editor and of the commands it submits. *)
Theorem finsh_session_spec table run_cmd chs e :
  table_ok table → Forall (λ x, (length (fs_name x) ≤ 85)%nat) table → (∀ f argv m, is_Some (run_cmd f argv m)) →
  Forall (λ ch, 0 ≤ ch < 256) chs → ed_run table chs new_editor = Some e →
  ∃ s s', finsh_start new_shell = Some (tt, s) ∧ finsh_run table run_cmd chs s = Some (tt, s') ∧ rep MSH_PROMPT s' e ∧
    run_shows table run_cmd MSH_PROMPT chs new_editor MSH_PROMPT (sh_out s').
Proof.
  intros Ht Hn Hr Hall He. destruct start_run as (s & Hs & Hrep & Ho).
  destruct (run_ok table run_cmd Ht Hn Hr MSH_PROMPT MSH_PROMPT_ok chs s new_editor e Hrep Hall He) as (s' & Hs' & Hrep' & Hshow).
  exists s, s'. rewrite Ho in Hshow. done.
Qed.

(** A command [ps] that prints the number of its arguments; the user completes [p], runs
    it, recalls it and deletes a character. *)
Lemma finsh_session_spec_witness :
  let table := [mk_syscall (cmd_prefix ++ [112;115]) [108] 1] in
  let run_cmd (f : Z) (argv : list Z) (m : mst) := Some (0, mk_mst (m_buf m) (m_out m ++ [48 + Z.of_nat (length argv); 10])) in
  let chs := [112; 9; 32; 120; 13; 27; 91; 65; 127; 27; 91; 68] in
  let e := mk_editor WAIT_NORMAL [112;115;32] 2 [[112;115;32;120]] 0 in
  ed_run table chs new_editor = Some e ∧
  ∃ s s', finsh_start new_shell = Some (tt, s) ∧ finsh_run table run_cmd chs s = Some (tt, s') ∧ rep MSH_PROMPT s' e ∧
    run_shows table run_cmd MSH_PROMPT chs new_editor MSH_PROMPT (sh_out s').
Proof.
  split; [reflexivity|]. apply finsh_session_spec.
  - repeat constructor; lia.
  - repeat constructor; cbn; lia.
  - by eexists.
  - repeat constructor; lia.
  - reflexivity.
Defined.

(** ** The 80th character *)

Lemma finsh_step_char table run_cmd ch s :
  sh_stat s = WAIT_NORMAL → 32 ≤ ch < 127 → finsh_step table run_cmd ch s = key_char ch s.
Proof.
  intros Hs Hch. unfold finsh_step. rewrite (proj2 (Z.ltb_ge _ _)) by lia. unfold bind, gets. rewrite (proj2 (Z.eqb_neq ch 27)) by lia.
  rewrite Hs. unfold edit. by rewrite !(proj2 (Z.eqb_neq ch _)) by lia.
Qed.

(** Characters typed at the end of the line. *)
Lemma type_run table run_cmd p chs : ∀ s e,
  rep p s e → ed_stat e = WAIT_NORMAL → ed_cur e = length (ed_text e) → Forall (λ ch, 32 ≤ ch < 127) chs →
  (length (ed_text e) + length chs < FINSH_CMD_SIZE)%nat →
  ∃ s', finsh_run table run_cmd chs s = Some (tt, s') ∧ rep p s' (ed_edit (ed_text e ++ chs) (length (ed_text e ++ chs)) e).
Proof.
  induction chs as [|ch chs IH]; intros s e Hr Hst Hc Hall Hl.
  { exists s. rewrite app_nil_r, <- Hc. by destruct e. }
  inversion Hall as [|? ? Hch Hall']; subst. cbn [length] in Hl. cbn [finsh_run].
  destruct (key_char_ok p s e ch Hr) as (s1 & H1 & Hr1 & _); [unfold byte; lia|lia|].
  unfold put in Hr1. rewrite Hc, take_ge, drop_ge in Hr1 by lia. set (e1 := ed_edit _ _ e) in Hr1.
  assert (length (ed_text e1) = S (length (ed_text e))) as Hl1 by (cbn; rewrite length_app; cbn; lia).
  destruct (IH s1 e1 Hr1) as (s' & Hs' & Hr'); [done|by rewrite Hl1|done|lia|].
  exists s'. unfold bind. rewrite finsh_step_char, H1 by (done || by rewrite (rp_stat _ _ _ Hr)). split; [done|].
  cbn [e1 ed_edit ed_text] in Hr'. by rewrite <- app_assoc in Hr'.
Qed.

Lemma until_nul_none l : Forall (λ c, c ≠ 0) l → until_nul l = None.
Proof. induction 1 as [|c l Hc Hl IH]; [done|]. cbn. rewrite (proj2 (Z.eqb_neq _ _)) by done. by rewrite IH. Qed.

Lemma full_line_run p s e ch :
  rep p s e → 32 ≤ ch < 127 → length (ed_text e) = 79%nat → ed_cur e = 79%nat →
  ∃ s', key_char ch s = Some (tt, s') ∧ sh_line s' = ed_text e ++ [ch] ∧ sh_line_position s' = 0 ∧ sh_line_curpos s' = 0 ∧ sh_stat s' = sh_stat s.
Proof.
  intros [_ Hl Hp Hcp _ [Hb _] _ _ _ _ _ _ He] Hch Hlen Hcur. unfold key_char. rewrite Hlen in Hp. rewrite Hcur in Hcp.
  unfold bind at 1, modify at 1. rewrite Hp.
  change (Z.of_nat FINSH_CMD_SIZE <=? Z.of_nat 79) with false. cbv iota. unfold bind at 1, gets. cbn [id]. rewrite Hp, Hcp.
  change (Z.of_nat 79 <? Z.of_nat 79) with false. cbv iota. unfold bind at 1. unfold bind at 1.
  assert (pad (ed_text e) = ed_text e ++ [0]) as E by (unfold pad; by rewrite Hlen).
  rewrite (on_line_run _ _ tt (ed_text e ++ [ch]) (sh_out s)).
  2:{ rewrite Hl, E. by rewrite st_run by (by rewrite Hlen). }
  rewrite He. cbn [nz Z.eqb negb].
  rewrite (print_run _ _ [ch]) by first [apply format_char; unfold byte; lia|cbn; lia|repeat constructor; unfold byte; lia]. slo.
  unfold bind, modify. eexists. split; [reflexivity|]. cbn. rewrite Hp, Hcp. done.
Qed.

(** A line of 80 characters is not discarded cleanly: the positions start again at 0,
    but the 80 characters stay in the array without a NUL, and the next Tab reads behind
    the array. *)
Theorem full_line_unterminated table run_cmd chs :
  Forall (λ ch, 32 ≤ ch < 127) chs → length chs = FINSH_CMD_SIZE →
  ∃ s s', finsh_start new_shell = Some (tt, s) ∧ finsh_run table run_cmd chs s = Some (tt, s') ∧
    sh_line s' = chs ∧ sh_line_position s' = 0 ∧ finsh_step table run_cmd 9 s' = None.
Proof.
  intros Hall Hlen. destruct chs as [|ch chs _] using rev_ind; [done|]. apply Forall_app in Hall as [Hall Hch%Forall_inv].
  rewrite length_app in Hlen. cbn in Hlen. destruct start_run as (s & Hs & Hrep & _). exists s.
  assert (length chs = 79%nat) as H79 by (unfold FINSH_CMD_SIZE in Hlen; lia).
  destruct (type_run table run_cmd _ chs s new_editor Hrep) as (s1 & Hs1 & Hr1); [done|done|done|cbn; unfold FINSH_CMD_SIZE; lia|].
  destruct (full_line_run _ s1 _ ch Hr1 Hch) as (s' & Hs' & Hl & Hp & Hc & Hst); [done|done|]. exists s'. cbn in Hl.
  split; [done|]. split; [|split; [done|split; [done|]]].
  - assert (∀ l s, finsh_run table run_cmd (l ++ [ch]) s = (finsh_run table run_cmd l ;; finsh_step table run_cmd ch) s) as Happ.
    { induction l as [|x l IH]; intros t; cbn; unfold bind; [destruct (finsh_step _ _ ch t) as [[[] ?]|]; done|].
      destruct (finsh_step _ _ x t) as [[[] ?]|]; [apply IH|done]. }
    rewrite Happ. unfold bind. rewrite Hs1. by rewrite finsh_step_char by (done || by rewrite (rp_stat _ _ _ Hr1)).
  - unfold finsh_step. change (9 <? 0) with false. change (9 =? 27) with false. cbv iota. unfold bind at 1, gets. rewrite Hst, (rp_stat _ _ _ Hr1).
    cbn [ed_stat ed_edit new_editor]. change (edit table run_cmd 9 s') with (key_tab table s'). unfold key_tab, bind, gets. rewrite backs_run.
    unfold shell_auto_complete, bind. rewrite (print_run _ _ [10]) by (done || (cbn; lia) || all_bytes). slo.
    unfold on_line. cbn [sh_line sh_out set_line_out]. rewrite Hl. unfold msh_auto_complete, bind.
    assert (Forall (λ c, c ≠ 0) (chs ++ [ch])) as Hnz.
    { apply Forall_app_2; [eapply Forall_impl; [exact Hall|cbn; lia]|apply Forall_singleton; lia]. }
    destruct chs as [|c0 chs]; [done|]. change ((c0 :: chs) ++ [ch]) with (c0 :: chs ++ [ch]) in *.
    rewrite (ld_run 0 _ [] c0 (chs ++ [ch])) by done. rewrite (proj2 (Z.eqb_neq _ _)) by (by inversion Hnz).
    unfold str_at. cbn [Z.leb Z.compare m_buf]. change (Z.to_nat 0) with 0%nat. rewrite drop_0. by rewrite until_nul_none.
Qed.

Lemma full_line_unterminated_witness :
  let chs := replicate 80 97 in
  ∃ s s', finsh_start new_shell = Some (tt, s) ∧ finsh_run [] (λ _ _ _, None) chs s = Some (tt, s') ∧
    sh_line s' = chs ∧ sh_line_position s' = 0 ∧ finsh_step [] (λ _ _ _, None) 9 s' = None.
Proof. apply full_line_unterminated; [apply Forall_replicate; lia|reflexivity]. Defined.
