(* ===== verification/Terminal.v ===== *)
(** What the user of the shell sees: a terminal, fed with the output of
    components/finsh/shell.c.

    The terminal is not part of the system. It is a parameter: a type of states that takes
    one character after the other, of which the theorems use what every terminal after
    ECMA-48 and the VT100 documents for the row of the cursor. A printable character
    replaces the one under the cursor, which moves on; a backspace moves it one column
    back; CSI 2 K erases the row, and a carriage return goes to its beginning. Nothing is
    said of what happens at the last column. A terminal of 132 columns is an instance. *)

From Stdlib Require Import ZArith Lia.
From stdpp Require Import base numbers option list sets.
From S2P Require Import Prelude.
From S2P Require Import Kservice.
From S2P Require Import Bytes.
From S2P Require Import Printf.
From S2P Require Import Msh.
From S2P Require Import Shell.
Local Open Scope Z_scope.
Local Open Scope rt_scope.

(** * Terminals *)

Definition printable (c : Z) : Prop := 32 ≤ c < 127.

(** [shows t row col]: the row of the cursor shows [row] and nothing but blanks behind it,
    the cursor is in column [col], and no escape sequence has begun. *)
Class Terminal (T : Type) := {
  feed : T → Z → T;
  shows : T → list Z → nat → Prop;
  width : nat
}.

Definition feeds {T} `{Terminal T} (t : T) (l : list Z) : T := foldl feed t l.

Class TerminalLaws (T : Type) `{Terminal T} := {
  shows_blanks t row col k : shows t (row ++ replicate k 32) col ↔ shows t row col;
  feed_char t (row1 row2 : list Z) x c :
    shows t (row1 ++ x :: row2) (length row1) → printable c → (S (length row1) < width)%nat →
    shows (feed t c) (row1 ++ c :: row2) (S (length row1));
  feed_back t row col : shows t row (S col) → shows (feed t 8) row col;
  feed_erase t row col : shows t row col → shows (feeds t [27; 91; 50; 75; 13]) [] 0
}.

(** ** A terminal of 132 columns *)

(** Its row, the column of the cursor, and the part of an escape sequence received so far.
    At the last column the cursor stays. *)
Record vt := mk_vt { vt_row : nat → Z; vt_col : nat; vt_esc : list Z }.

Definition vt_feed (t : vt) (c : Z) : vt :=
  match vt_esc t with
  | [] =>
      if c =? 27 then mk_vt (vt_row t) (vt_col t) [27]
      else if c =? 8 then mk_vt (vt_row t) (vt_col t - 1) []
      else if c =? 13 then mk_vt (vt_row t) 0 []
      else mk_vt (λ i, if (i =? vt_col t)%nat then c else vt_row t i) (Nat.min (S (vt_col t)) 131) []
  | esc =>
      if bool_decide (esc ++ [c] = [27; 91; 50; 75]) then mk_vt (λ _, 32) (vt_col t) []
      else if bool_decide (esc ++ [c] `prefix_of` [27; 91; 50; 75]) then mk_vt (vt_row t) (vt_col t) (esc ++ [c])
      else mk_vt (vt_row t) (vt_col t) []
  end.

Definition vt_shows (t : vt) (row : list Z) (col : nat) : Prop :=
  (∀ i, vt_row t i = default 32 (row !! i)) ∧ vt_col t = col ∧ vt_esc t = [].

#[export] Instance vt_terminal : Terminal vt := {| feed := vt_feed; shows := vt_shows; width := 132 |}.

#[export] Instance vt_laws : TerminalLaws vt.
Proof.
  split; cbn.
  - intros t row col k. unfold vt_shows. assert (∀ i, default 32 ((row ++ replicate k 32) !! i) = default 32 (row !! i)) as E.
    { intros i. destruct (decide (i < length row)%nat); [by rewrite lookup_app_l|]. rewrite lookup_app_r, (lookup_ge_None_2 row) by lia.
      destruct (replicate k 32 !! (i - length row)%nat) as [x|] eqn:Ex; [|done]. by apply lookup_replicate in Ex as [-> _]. }
    by setoid_rewrite E.
  - intros t row1 row2 x c (Hr & Hc & He) Hp Hw. unfold vt_feed. rewrite He. unfold printable in Hp. rewrite !(proj2 (Z.eqb_neq c _)) by lia.
    split_and!; cbn; [|lia|done]. intros i. rewrite Hc. destruct (Nat.eqb_spec i (length row1)) as [->|Hne]; [by rewrite list_lookup_middle|].
    rewrite Hr. destruct (decide (i < length row1)%nat); [by rewrite !lookup_app_l|]. rewrite !lookup_app_r by lia.
    by destruct (i - length row1)%nat eqn:E; [lia|].
  - intros t row col (Hr & Hc & He). unfold vt_feed. rewrite He. split_and!; cbn; [done|lia|done].
  - intros t row col (Hr & Hc & He). destruct t as [r c e]. cbn in *. subst. by split_and!.
Qed.

(** * The row of the line *)

Section screen.
Context {T : Type} `{TT : Terminal T} {TL : TerminalLaws T}.

(** The row shows the prompt and the line, with the cursor at its place in the line. *)
Definition on_screen (p : list Z) (e : editor) (t : T) : Prop := shows t (p ++ ed_text e) (length p + ed_cur e).

Lemma feeds_app t l l' : feeds t (l ++ l') = feeds (feeds t l) l'.
Proof. apply foldl_app. Qed.

(** Text typed over the row. *)
Lemma feeds_text u : ∀ t (A B : list Z), Forall printable u → shows t (A ++ B) (length A) → (length A + length u < width)%nat →
  shows (feeds t u) (A ++ u ++ drop (length u) B) (length A + length u).
Proof.
  induction u as [|c u IH]; intros t A B Hu Hs Hw; [cbn; by rewrite Nat.add_0_r|]. inversion Hu as [|? ? Hc Hu']; subst. cbn [length] in Hw.
  assert (∃ x, shows t (A ++ x :: drop 1 B) (length A)) as [x Hx].
  { destruct B as [|b B]; [exists 32|by exists b]. apply (shows_blanks t A _ 1). by rewrite app_nil_r in Hs. }
  apply (feed_char _ _ _ _ c) in Hx; [|done|lia]. change (A ++ c :: drop 1 B) with (A ++ [c] ++ drop 1 B) in Hx. rewrite app_assoc in Hx.
  replace (S (length A)) with (length (A ++ [c])) in Hx by (rewrite length_app; cbn; lia).
  specialize (IH (feed t c) (A ++ [c]) (drop 1 B) Hu' Hx). rewrite drop_drop, length_app, <- app_assoc in IH. cbn [length app] in IH |- *.
  replace (length A + S (length u))%nat with (length A + 1 + length u)%nat by lia. apply IH. lia.
Qed.

Lemma feeds_backs n : ∀ t row col, shows t row col → (n ≤ col)%nat → shows (feeds t (replicate n 8)) row (col - n).
Proof.
  induction n as [|n IH]; intros t row col Hs Hn; cbn [replicate]; [by rewrite Nat.sub_0_r|]. destruct col as [|col]; [lia|].
  apply (IH (feed t 8) row col); [by apply feed_back|lia].
Qed.

(** Text typed at the cursor, which then goes back. *)
Lemma feeds_over t (A B u : list Z) n col :
  shows t (A ++ B) col → Forall printable u → col = length A → (col + length u < width)%nat → (n ≤ col + length u)%nat →
  shows (feeds t (u ++ replicate n 8)) (A ++ u ++ drop (length u) B) (col + length u - n).
Proof. intros Hs Hu -> Hw Hn. rewrite feeds_app. apply feeds_backs; [by apply feeds_text|done]. Qed.

Context (p : list Z) (Hpp : Forall printable p) (Hw : (length p + FINSH_CMD_SIZE < width)%nat).

(** The row split at the cursor. *)
Lemma row_split t c : p ++ t = (p ++ take c t) ++ drop c t.
Proof. by rewrite <- app_assoc, take_drop. Qed.
Lemma length_left t c : (c ≤ length t)%nat → length (p ++ take c t) = (length p + c)%nat.
Proof. intros H. rewrite length_app, length_take. lia. Qed.

(** A line that fits the array, of printable characters. *)
Definition fits (t : list Z) : Prop := Forall printable t ∧ (length t < FINSH_CMD_SIZE)%nat.

Lemma char_screen e t ch :
  on_screen p e t → (ed_cur e ≤ length (ed_text e))%nat → fits (ed_text e) → printable ch →
  on_screen p (ed_edit (put (ed_cur e) ch (ed_text e)) (S (ed_cur e)) e) (feeds t (char_out ch e)).
Proof.
  intros Hs Hc [Ht Hl] Hch. unfold on_screen in *. unfold char_out. cbn [ed_edit ed_text ed_cur]. set (l := ed_text e) in *. set (c := ed_cur e) in *.
  rewrite (row_split l c) in Hs. rewrite (app_comm_cons (drop c l) _ ch). pose proof (length_drop l c) as Hd.
  pose proof (feeds_over t _ _ (ch :: drop c l) (length (drop c l)) _ Hs) as H. cbn [length] in H. rewrite (drop_ge (drop c l)) in H by lia.
  replace (length p + S c)%nat with (length p + c + S (length (drop c l)) - length (drop c l))%nat by lia.
  unfold put. rewrite <- app_assoc in H. cbn [app] in H. rewrite app_nil_r in H. apply H; [|by rewrite length_left|lia|lia].
  apply Forall_cons_2; [done|by apply Forall_drop].
Qed.

Lemma back_screen e t :
  on_screen p e t → (0 < ed_cur e ≤ length (ed_text e))%nat → fits (ed_text e) →
  on_screen p (ed_edit (cut (ed_cur e) (ed_text e)) (ed_cur e - 1) e) (feeds t (back_out e)).
Proof.
  intros Hs Hc [Ht Hl]. unfold on_screen in *. unfold back_out. cbn [ed_edit ed_text ed_cur]. set (l := ed_text e) in *. set (c := ed_cur e) in *.
  rewrite (proj2 (Nat.eqb_neq _ _)) by lia. set (rest := drop c l). assert (length rest = (length l - c)%nat) as Hlr by apply length_drop.
  assert (shows (feed t 8) (p ++ l) (length p + (c - 1))) as Hb by (apply feed_back; by replace (S (length p + (c - 1))) with (length p + c)%nat by lia).
  rewrite (row_split l (c - 1)) in Hb.
  assert (∃ j, (1 ≤ j ≤ 2)%nat ∧ (match rest with [] => [8; 32; 8] | _ :: _ => 8 :: rest ++ [32; 32; 8] ++ replicate (length rest + 1) 8 end)
    = 8 :: (rest ++ replicate j 32) ++ replicate (length rest + j) 8) as (j & Hj & ->).
  { destruct rest as [|y r]; [exists 1%nat; split; [lia|done]|]. exists 2%nat. split; [lia|]. rewrite <- !app_assoc. cbn [replicate app].
    replace (length (y :: r) + 2)%nat with (S (length (y :: r) + 1)) by lia. done. }
  change (feeds t (8 :: ?k)) with (feeds (feed t 8) k). pose proof (feeds_over _ _ _ (rest ++ replicate j 32) (length rest + j) _ Hb) as H.
  replace (length (rest ++ replicate j 32)) with (length rest + j)%nat in H by (by rewrite length_app, length_replicate). replace (length p + (c - 1) + (length rest + j) - (length rest + j))%nat with (length p + (c - 1))%nat in H by lia.
  rewrite (drop_ge (drop (c - 1) l)), app_nil_r in H by (rewrite length_drop; lia). unfold cut. fold rest. rewrite app_assoc in H.
  rewrite <- (app_assoc p), <- app_assoc in H. apply (shows_blanks _ _ _ j). rewrite <- !app_assoc. rewrite <- !app_assoc in H.
  apply H; [|by rewrite length_left by lia|lia|lia]. apply Forall_app_2; [by apply Forall_drop|]. apply Forall_replicate. unfold printable. lia.
Qed.

Lemma left_screen e t :
  on_screen p e t → on_screen p (ed_edit (ed_text e) (ed_cur e - 1) e) (feeds t (left_out e)).
Proof.
  intros Hs. unfold on_screen in *. unfold left_out. cbn [ed_edit ed_text ed_cur]. destruct (Nat.eqb_spec (ed_cur e) 0) as [E|E].
  - rewrite E in *. exact Hs.
  - apply feed_back. by replace (S (length p + (ed_cur e - 1))) with (length p + ed_cur e)%nat by lia.
Qed.

Lemma right_screen e t :
  on_screen p e t → (ed_cur e ≤ length (ed_text e))%nat → fits (ed_text e) →
  on_screen p (ed_edit (ed_text e) (Nat.min (S (ed_cur e)) (length (ed_text e))) e) (feeds t (right_out e)).
Proof.
  intros Hs Hc [Ht Hl]. unfold on_screen in *. unfold right_out. cbn [ed_edit ed_text ed_cur]. set (l := ed_text e) in *. set (c := ed_cur e) in *.
  destruct (decide (c = length l)) as [E|E].
  - rewrite drop_ge by lia. cbn [take feeds foldl]. by replace (Nat.min (S c) (length l)) with c by lia.
  - destruct (lookup_lt_is_Some_2 l c) as [x Hx]; [lia|]. rewrite (row_split l c), (drop_S _ x _ Hx) in Hs |- *. cbn [take]. rewrite take_0.
    replace (length p + Nat.min (S c) (length l))%nat with (length p + c + length [x] - 0)%nat by (change (length [x]) with 1%nat; lia).
    pose proof (feeds_over _ _ _ [x] 0 _ Hs) as H. cbn [replicate app drop] in H.
    apply H; [|by rewrite length_left|cbn; lia|lia]. apply Forall_singleton. by eapply Forall_lookup_1.
Qed.

Lemma recall_screen e t n l :
  on_screen p e t → ed_hist e !! n = Some l → fits l → on_screen p (ed_recall n e) (feeds t (recall_out p l)).
Proof.
  intros Hs Hn [Hl Hlen]. unfold on_screen in *. unfold recall_out, ed_recall. rewrite Hn. cbn [default from_option id ed_text ed_cur].
  rewrite feeds_app. apply feed_erase in Hs. pose proof (feeds_text (p ++ l) _ [] [] ltac:(by apply Forall_app_2) Hs) as H.
  cbn [app length] in H. rewrite drop_nil, app_nil_r, length_app in H. apply H. lia.
Qed.

(** ** Steps *)

(** The inputs of an editing user: printable characters, backspace, and the escape
    sequences of the arrow keys. *)
Definition editing (ch : Z) : Prop := printable ch ∨ ch = 8 ∨ ch = 127 ∨ ch = 27.

Definition readable (e : editor) : Prop := fits (ed_text e) ∧ Forall fits (ed_hist e) ∧
  (ed_cur e ≤ length (ed_text e))%nat ∧ (ed_pos e ≤ length (ed_hist e))%nat.

Lemma cut_fits c l : fits l → fits (cut c l).
Proof.
  intros [H1 H2]. unfold cut. split; [apply Forall_app_2; [by apply Forall_take|by apply Forall_drop]|].
  rewrite length_app, length_take, length_drop. lia.
Qed.
Lemma put_fits c x l : fits l → printable x → (length l < FINSH_CMD_SIZE - 1)%nat → fits (put c x l).
Proof.
  intros [H1 H2] Hx Hl. unfold put. split; [apply Forall_app_2; [by apply Forall_take|apply Forall_cons_2; [done|by apply Forall_drop]]|].
  rewrite length_app, length_take. cbn [length]. rewrite length_drop. lia.
Qed.

(** After the key the screen still shows the line. *)
Definition follows (e' : editor) (t : T) (o o' : list Z) : Prop :=
  ∃ d, o' = o ++ d ∧ on_screen p e' (feeds t d) ∧ readable e'.

Lemma follows_app e' t o d : on_screen p e' (feeds t d) → readable e' → follows e' t o (o ++ d).
Proof. intros H1 H2. by exists d. Qed.
Lemma follows_same e' t o : on_screen p e' t → readable e' → follows e' t o o.
Proof. intros H1 H2. exists []. by rewrite app_nil_r. Qed.

Lemma key_screen table run_cmd e t ch e' o o' :
  on_screen p e t → readable e → printable ch ∨ ch = 8 ∨ ch = 127 → ed_key table ch e = Some e' → key_shows table run_cmd p ch e o o' →
  follows e' t o o'.
Proof.
  intros Hs (Ht & Hh & Hc & Hps) Hch. unfold ed_key, key_shows. unfold printable in Hch.
  rewrite (proj2 (Z.eqb_neq ch 0)), (proj2 (Z.eqb_neq ch 255)), (proj2 (Z.eqb_neq ch 9)), (proj2 (Z.eqb_neq ch 13)), (proj2 (Z.eqb_neq ch 10)) by lia.
  cbn [orb]. destruct ((ch =? 127) || (ch =? 8)) eqn:Eb.
  - intros [= <-] ->. unfold back_out. destruct (Nat.eqb_spec (ed_cur e) 0) as [E|E]; [by apply follows_app|].
    apply follows_app.
    + pose proof (back_screen e t Hs ltac:(lia) Ht) as H. unfold back_out in H. by rewrite (proj2 (Nat.eqb_neq _ _)) in H.
    + split_and!; cbn; [by apply (cut_fits (ed_cur e))|done| |done].
      change (ed_cur e - 1 ≤ length (cut (ed_cur e) (ed_text e)))%nat. rewrite length_cut; lia.
  - apply orb_false_iff in Eb as [?%Z.eqb_neq ?%Z.eqb_neq]. destruct (_ <? _)%nat eqn:Elt; [|done]. intros [= <-] ->.
    assert (printable ch) as Hp by (unfold printable; lia). apply follows_app; [by apply char_screen|].
    split_and!; cbn [ed_edit ed_text ed_cur ed_hist ed_pos]; [|done| |done].
    + apply put_fits; [done|done|by apply Nat.ltb_lt].
    + change (S (ed_cur e) ≤ length (put (ed_cur e) ch (ed_text e)))%nat. rewrite length_put; lia.
Qed.

Lemma recall_follows e t o n :
  on_screen p e t → readable e → (n < length (ed_hist e))%nat →
  follows (ed_recall n e) t o (o ++ recall_out p (default [] (ed_hist e !! n))).
Proof.
  intros Hs (Ht & Hh & Hc & Hps) Hn. destruct (lookup_lt_is_Some_2 (ed_hist e) n Hn) as [l Hx].
  assert (fits l) as Hpt by (by eapply (Forall_lookup_1 fits)). rewrite Hx. cbn [default from_option id].
  apply follows_app; [by eapply recall_screen|]. unfold ed_recall. rewrite Hx. split_and!; cbn; [done|done|done|lia].
Qed.

Lemma step_screen table run_cmd e t ch e' o o' :
  on_screen p e t → readable e → editing ch → ed_step table ch e = Some e' → step_shows table run_cmd p ch e o o' → follows e' t o o'.
Proof.
  intros Hs Hr Hch. unfold ed_step, step_shows.
  assert (∀ x, on_screen p (ed_with_stat x e) t ∧ readable (ed_with_stat x e)) as Hst by done.
  destruct (Z.eqb_spec ch 27) as [->|H27]; [intros [= <-] ->; apply follows_same; apply Hst|].
  assert (printable ch ∨ ch = 8 ∨ ch = 127) as Hch' by (unfold editing in Hch; tauto).
  destruct (Hst WAIT_NORMAL) as [Hs1 Hr1]. pose proof Hr as (Ht & Hh & Hc & Hps).
  destruct (ed_stat e) eqn:Est.
  - intros He Ho. exact (key_screen _ _ _ t ch e' o o' Hs Hr Hch' He Ho).
  - destruct (ch =? 91); [intros [= <-] ->; apply follows_same; apply Hst|]. intros He Ho. exact (key_screen _ _ _ t ch e' o o' Hs1 Hr1 Hch' He Ho).
  - destruct (ch =? 65).
    { intros [= <-] ->. cbn [ed_pos ed_with_stat]. destruct (Nat.eqb_spec (ed_pos e) 0); [apply follows_app; [apply Hst|apply Hst]|].
      apply (recall_follows (ed_with_stat WAIT_NORMAL e) t o (ed_pos e - 1) Hs1 Hr1). cbn. lia. }
    destruct (ch =? 66).
    { intros [= <-] ->. cbn [ed_hist ed_with_stat]. destruct (Nat.eqb_spec (length (ed_hist e)) 0); [apply follows_app; [apply Hst|apply Hst]|].
      apply (recall_follows (ed_with_stat WAIT_NORMAL e) t o (next_pos e) Hs1 Hr1). unfold next_pos. cbn [ed_hist ed_with_stat]. lia. }
    destruct (ch =? 68).
    { intros [= <-] ->. apply follows_app; [apply (left_screen (ed_with_stat WAIT_NORMAL e) t Hs1)|]. split_and!; cbn; [done|done|lia|done]. }
    destruct (ch =? 67).
    { intros [= <-] ->. apply follows_app; [by apply (right_screen (ed_with_stat WAIT_NORMAL e) t Hs1)|].
      split_and!; cbn; [done|done|destruct (length (ed_text e)); lia|done]. }
    intros He Ho. exact (key_screen _ _ _ t ch e' o o' Hs1 Hr1 Hch' He Ho).
Qed.

Lemma run_screen table run_cmd chs : ∀ e t e' o o',
  on_screen p e t → readable e → Forall editing chs → ed_run table chs e = Some e' → run_shows table run_cmd p chs e o o' → follows e' t o o'.
Proof.
  induction chs as [|ch chs IH]; intros e t e' o o' Hs Hr Hall He Ho; cbn in He, Ho.
  - injection He as <-. subst. by apply follows_same.
  - inversion Hall as [|? ? Hch Hall']; subst. destruct Ho as (e1 & o1 & H1 & Ho1 & Ho2). rewrite H1 in He. cbn in He.
    destruct (step_screen table run_cmd e t ch e1 o o1 Hs Hr Hch H1 Ho1) as (d1 & -> & Hs1 & Hr1).
    destruct (IH e1 (feeds t d1) e' (o ++ d1) o' Hs1 Hr1 Hall' He Ho2) as (d2 & -> & Hs2 & Hr2).
    exists (d1 ++ d2). rewrite app_assoc, feeds_app. done.
Qed.
End screen.

(** * The screen and the line *)

(** C18: What the user sees is what is edited, on every terminal that keeps the laws above
    and has room in a row for the prompt and 81 more characters: when it shows the prompt
    and the line with the cursor at its place, then after any sequence of printable
    characters, backspaces and arrow keys (moving in the line and in the history) that
    nowhere types the 80th character of a line, the shell's output makes the terminal show
    the prompt and the new line, with nothing but blanks behind it, and the cursor at its
    new place. *)
Theorem shell_screen_spec {T : Type} `{Terminal T} `{!TerminalLaws T} table run_cmd p s e (t : T) chs e' :
  table_ok table → Forall (λ x, (length (fs_name x) ≤ 85)%nat) table → (∀ f argv m, is_Some (run_cmd f argv m)) →
  prompt_ok p → Forall printable p → (length p + FINSH_CMD_SIZE < width)%nat →
  rep p s e → readable e → on_screen p e t → Forall editing chs → ed_run table chs e = Some e' →
  ∃ s' d, finsh_run table run_cmd chs s = Some (tt, s') ∧ sh_out s' = sh_out s ++ d ∧
    sh_line s' = pad (ed_text e') ∧ sh_line_curpos s' = Z.of_nat (ed_cur e') ∧
    shows (feeds t d) (p ++ ed_text e') (length p + ed_cur e').
Proof.
  intros Htb Hn Hruns Hp Hpp Hw Hrep Hr Hs Hall He.
  assert (Forall (λ ch, 0 ≤ ch < 256) chs) as Hb by (eapply Forall_impl; [exact Hall|]; unfold editing, printable; cbn; lia).
  destruct (run_ok table run_cmd Htb Hn Hruns p Hp chs s e e' Hrep Hb He) as (s' & Hs' & Hrep' & Hshow).
  destruct (run_screen p Hpp Hw table run_cmd chs e t e' _ _ Hs Hr Hall He Hshow) as (d & Ho & Hk & _).
  exists s', d. split_and!; [done|done|apply Hrep'|apply Hrep'|done].
Qed.

(** The line [ab], the cursor on [b]; then [c], the left arrow, a backspace, the up arrow
    to the earlier line [x y], and [!]. *)
Lemma shell_screen_spec_witness :
  let e := mk_editor WAIT_NORMAL [97;98] 1 [[120;32;121]] 1 in
  let s := mk_shell WAIT_NORMAL 1 1 1 1 (pad [120;32;121] :: replicate 4 (replicate 80 0)) (pad [97;98]) 2 1 None [] in
  let p := MSH_PROMPT in
  let chs := [99; 27; 91; 68; 8; 27; 91; 65; 33] in
  let e' := mk_editor WAIT_NORMAL [120;32;121;33] 4 [[120;32;121]] 0 in
  ed_run [] chs e = Some e' ∧
  ∃ s' d, finsh_run [] (λ _ _ m, Some (0, m)) chs s = Some (tt, s') ∧ sh_out s' = sh_out s ++ d ∧
    sh_line s' = pad (ed_text e') ∧ sh_line_curpos s' = Z.of_nat (ed_cur e') ∧
    shows (feeds (mk_vt (λ i, default 32 ((p ++ [97;98]) !! i)) (length p + 1) []) d) (p ++ ed_text e') (length p + ed_cur e').
Proof.
  split; [reflexivity|]. apply (shell_screen_spec (T := vt) [] (λ _ _ m, Some (0, m)) MSH_PROMPT _ (mk_editor WAIT_NORMAL [97;98] 1 [[120;32;121]] 1)).
  - constructor.
  - constructor.
  - by eexists.
  - apply MSH_PROMPT_ok.
  - repeat constructor; unfold printable; lia.
  - by apply Nat.ltb_lt.
  - split; try reflexivity; cbn; try lia.
    + split; [repeat constructor; unfold byte; lia|unfold FINSH_CMD_SIZE; cbn; lia].
    + exists (replicate 4 (replicate 80 0)). split; reflexivity.
    + constructor; [|constructor]. split; [repeat constructor; unfold byte; lia|unfold FINSH_CMD_SIZE; cbn; lia].
  - assert (∀ l, bool_decide (Forall (λ c, 32 ≤ c < 127) l ∧ (length l < FINSH_CMD_SIZE)%nat) = true → fits l) as Hf by (intros l Hl; by apply bool_decide_eq_true_1 in Hl).
    split_and!; [by apply Hf|apply Forall_singleton; by apply Hf|cbn; lia|cbn; lia].
  - split_and!; reflexivity.
  - repeat (apply Forall_cons_2; [unfold editing, printable; lia|]). apply Forall_nil_2.
  - reflexivity.
Defined.
