(* ===== verification/KernelDefs.v ===== *)
(** Data of the kernel: the constants and structures of include/rtdef.h for the
    board's configuration (bsp/stm32f4xx-HAL/rtconfig.h: 32 priorities, no SMP, no
    signals, no modules, one-level timer list), and the kernel state the source
    keeps in its global variables and in the objects it is given pointers to. *)

From Stdlib Require Import ZArith Lia.
From stdpp Require Import base numbers option gmap.
From stdpp Require Import list.
From S2P Require Import Prelude.
Local Open Scope Z_scope.

(** * Constants *)

Definition RT_EOK : Z := 0.
Definition RT_ERROR : Z := 1.
Definition RT_ETIMEOUT : Z := 2.
Definition RT_EFULL : Z := 3.
Definition RT_EEMPTY : Z := 4.
Definition RT_ENOMEM : Z := 5.
Definition RT_ENOSYS : Z := 6.
Definition RT_EBUSY : Z := 7.
Definition RT_EIO : Z := 8.
Definition RT_EINTR : Z := 9.
Definition RT_EINVAL : Z := 10.

Definition RT_THREAD_PRIORITY_MAX : Z := 32.
Definition RT_TICK_PER_SECOND : Z := 100.
Definition RT_NAME_MAX : nat := 8.
Definition RT_TICK_MAX : Z := 0xffffffff.
Definition RT_WAITING_FOREVER : Z := -1.

Definition RT_THREAD_INIT : Z := 0x00.
Definition RT_THREAD_READY : Z := 0x01.
Definition RT_THREAD_SUSPEND : Z := 0x02.
Definition RT_THREAD_RUNNING : Z := 0x03.
Definition RT_THREAD_CLOSE : Z := 0x04.
Definition RT_THREAD_STAT_MASK : Z := 0x0f.

Definition RT_THREAD_CTRL_STARTUP : Z := 0x00.
Definition RT_THREAD_CTRL_CLOSE : Z := 0x01.
Definition RT_THREAD_CTRL_CHANGE_PRIORITY : Z := 0x02.

Definition RT_TIMER_FLAG_ACTIVATED : Z := 0x1.
Definition RT_TIMER_FLAG_ONE_SHOT : Z := 0x0.
Definition RT_TIMER_FLAG_PERIODIC : Z := 0x2.
Definition RT_TIMER_CTRL_SET_TIME : Z := 0x0.
Definition RT_TIMER_CTRL_GET_TIME : Z := 0x1.
Definition RT_TIMER_CTRL_SET_ONESHOT : Z := 0x2.
Definition RT_TIMER_CTRL_SET_PERIODIC : Z := 0x3.

Definition RT_IPC_FLAG_FIFO : Z := 0x00.
Definition RT_IPC_FLAG_PRIO : Z := 0x01.
Definition RT_IPC_CMD_RESET : Z := 0x01.
Definition RT_EVENT_FLAG_AND : Z := 0x01.
Definition RT_EVENT_FLAG_OR : Z := 0x02.
Definition RT_EVENT_FLAG_CLEAR : Z := 0x04.

(** The least multiple of [align], a power of two, from [size] on, in 32 bits. *)
Definition RT_ALIGN (size align : Z) : Z := Z.land (u32 (size + align - 1)) (u32 (Z.lnot (align - 1))).

(** The greatest multiple up to [size]. *)
Definition RT_ALIGN_DOWN (size align : Z) : Z := Z.land size (u32 (Z.lnot (align - 1))).

Lemma RT_ALIGN_DOWN_pow size k : 0 ≤ size < 2 ^ 32 → 0 ≤ k ≤ 32 → RT_ALIGN_DOWN size (2 ^ k) = size / 2 ^ k * 2 ^ k.
Proof.
  intros Hs Hk. unfold RT_ALIGN_DOWN, u32, wrap. rewrite <- Z.land_ones by lia. replace (2 ^ k - 1) with (Z.ones k) by (rewrite Z.ones_equiv; lia).
  by rewrite (Z.land_comm (Z.lnot _)), Z.land_assoc, Z.land_ones, Z.mod_small, <- Z.ldiff_land, Z.ldiff_ones_r, Z.shiftl_mul_pow2, Z.shiftr_div_pow2 by lia.
Qed.

Lemma RT_ALIGN_DOWN_4 size : 0 ≤ size < 2 ^ 32 → RT_ALIGN_DOWN size 4 = size / 4 * 4.
Proof. intros Hs. by apply (RT_ALIGN_DOWN_pow size 2). Qed.

Lemma RT_ALIGN_4 size : 0 ≤ size ≤ 2 ^ 32 - 4 → RT_ALIGN size 4 = (size + 3) / 4 * 4.
Proof.
  intros Hs. rewrite <- RT_ALIGN_DOWN_4 by lia. unfold RT_ALIGN, RT_ALIGN_DOWN. replace (size + 4 - 1) with (size + 3) by lia. by rewrite (wrap_small 32) by lia.
Qed.

(** [enum rt_object_class_type] *)
Definition RT_Object_Class_Thread : Z := 1.
Definition RT_Object_Class_Semaphore : Z := 2.
Definition RT_Object_Class_Mutex : Z := 3.
Definition RT_Object_Class_Event : Z := 4.
Definition RT_Object_Class_MailBox : Z := 5.
Definition RT_Object_Class_MessageQueue : Z := 6.
Definition RT_Object_Class_MemHeap : Z := 7.
Definition RT_Object_Class_MemPool : Z := 8.
Definition RT_Object_Class_Device : Z := 9.
Definition RT_Object_Class_Timer : Z := 10.
Definition RT_Object_Class_Unknown : Z := 12.
Definition RT_Object_Class_Static : Z := 0x80.

(** * Identities

    An object is named by its address; the timer embedded in a thread control
    block is an object of its own. *)

Inductive oid :=
| Obj (a : Z)
| ThreadTimer (t : Z).

(** The list heads a thread's [tlist] node can be linked to. *)
Inductive thead :=
| HReady (p : Z)        (* rt_thread_priority_table[p] *)
| HSuspend (a : Z)      (* suspend_thread of the IPC object at a *)
| HSender (a : Z)       (* suspend_sender_thread of the mailbox at a *)
| HDefunct.             (* rt_thread_defunct *)

#[export] Instance oid_eq_dec : EqDecision oid.
Proof. solve_decision. Defined.
#[export] Instance oid_countable : Countable oid.
Proof.
  refine (inj_countable' (λ o, match o with Obj a => inl a | ThreadTimer t => inr t end)
    (λ x : Z + Z, match x with inl a => Obj a | inr t => ThreadTimer t end) _).
  by intros [].
Defined.

#[export] Instance thead_eq_dec : EqDecision thead.
Proof. solve_decision. Defined.
#[export] Instance thead_countable : Countable thead.
Proof.
  refine (inj_countable'
    (λ o, match o with HReady p => inl (inl p) | HSuspend a => inl (inr a)
                     | HSender a => inr (inl a) | HDefunct => inr (inr tt) end)
    (λ x : (Z + Z) + (Z + unit),
       match x with inl (inl p) => HReady p | inl (inr a) => HSuspend a
                  | inr (inl a) => HSender a | inr (inr _) => HDefunct end) _).
  by intros [].
Defined.

(** * Structures *)

(** [struct rt_object]; the first fields of every kernel object. *)
Record rt_object := mk_object {
  o_name : list Z;
  o_type : Z;
  o_flag : Z
}.

(** [struct rt_thread] behind its object header. [th_guard] is the byte at
    [stack_addr], which the overflow check reads. *)
Record rt_thread := mk_thread {
  th_sp : Z;
  th_entry : Z;
  th_parameter : Z;
  th_stack_addr : Z;
  th_stack_size : Z;
  th_guard : Z;
  th_error : Z;
  th_stat : Z;
  th_current_priority : Z;
  th_init_priority : Z;
  th_number_mask : Z;
  th_event_set : Z;
  th_event_info : Z;
  th_init_tick : Z;
  th_remaining_tick : Z;
  th_cleanup : option Z;
  th_user_data : Z
}.

(** [timeout_func] and [parameter]: the kernel's own callback for thread timers,
    or a function of the application. *)
Inductive timeout_fn :=
| rt_thread_timeout_fn (t : Z)
| user_fn (f parameter : Z).

(** [struct rt_timer] behind its object header; membership in the timer list is
    kept in [k_rows]. *)
Record rt_timer := mk_timer {
  tm_timeout_func : timeout_fn;
  tm_init_tick : Z;
  tm_timeout_tick : Z
}.

Record rt_semaphore := mk_sem { sem_value : Z }.

Record rt_mutex := mk_mutex {
  mtx_value : Z;
  mtx_original_priority : Z;
  mtx_hold : Z;
  mtx_owner : option Z
}.

Record rt_event := mk_event { ev_set : Z }.

Record rt_mailbox := mk_mailbox {
  mb_msg_pool : list Z;
  mb_size : Z;
  mb_entry : Z;
  mb_in_offset : Z;
  mb_out_offset : Z
}.

(** One block of a message pool: the [next] pointer of [struct rt_mq_message] and
    the payload behind it. Blocks are named by their index in the pool. *)
Record rt_mq_message := mk_msg { msg_next : option nat; msg_data : list Z }.

Record rt_messagequeue := mk_mq {
  mq_msg_pool : list rt_mq_message;
  mq_msg_size : Z;
  mq_max_msgs : Z;
  mq_entry : Z;
  mq_queue_head : option nat;
  mq_queue_tail : option nat;
  mq_queue_free : option nat
}.

(** * Kernel state *)

(** src/scheduler.c, src/irq.c and the thread control blocks. *)
Record sched := mk_sched {
  sc_thr : gmap Z rt_thread;
  sc_tl : gmap thead (list Z);
  sc_group : Z;
  sc_lock_nest : Z;
  sc_cur : option Z;
  sc_cur_prio : Z;
  sc_irq_nest : Z
}.

(** src/timer.c and src/clock.c. *)
Record timers := mk_timers {
  tms_tim : gmap oid rt_timer;
  tms_rows : list oid;
  tms_tick : Z;
  tms_random_nr : Z
}.

(** src/object.c: headers and the container lists, by class. *)
Record objects := mk_objects {
  ob_obj : gmap oid rt_object;
  ob_list : gmap Z (list oid)
}.

(** The IPC objects of src/ipc.c. *)
Record ipcs := mk_ipcs {
  ip_sem : gmap Z rt_semaphore;
  ip_mtx : gmap Z rt_mutex;
  ip_evt : gmap Z rt_event;
  ip_mb : gmap Z rt_mailbox;
  ip_mq : gmap Z rt_messagequeue
}.

Record kst := mk_kst {
  k_sched : sched;
  k_timers : timers;
  k_objects : objects;
  k_ipc : ipcs
}.

Abbreviation K := (M kst).

Definition k_thr (s : kst) := sc_thr (k_sched s).
Definition k_tl (s : kst) := sc_tl (k_sched s).
Definition k_cur (s : kst) := sc_cur (k_sched s).
Definition k_obj (s : kst) := ob_obj (k_objects s).
Definition k_tim (s : kst) := tms_tim (k_timers s).
Definition k_rows (s : kst) := tms_rows (k_timers s).
Definition k_tick (s : kst) := tms_tick (k_timers s).

Definition upd_sched (f : sched → sched) (s : kst) : kst :=
  mk_kst (f (k_sched s)) (k_timers s) (k_objects s) (k_ipc s).
Definition upd_timers (f : timers → timers) (s : kst) : kst :=
  mk_kst (k_sched s) (f (k_timers s)) (k_objects s) (k_ipc s).
Definition upd_objects (f : objects → objects) (s : kst) : kst :=
  mk_kst (k_sched s) (k_timers s) (f (k_objects s)) (k_ipc s).
Definition upd_ipc (f : ipcs → ipcs) (s : kst) : kst :=
  mk_kst (k_sched s) (k_timers s) (k_objects s) (f (k_ipc s)).

Definition set_thr (x : gmap Z rt_thread) (c : sched) : sched :=
  mk_sched x (sc_tl c) (sc_group c) (sc_lock_nest c) (sc_cur c) (sc_cur_prio c) (sc_irq_nest c).
Definition set_tl (x : gmap thead (list Z)) (c : sched) : sched :=
  mk_sched (sc_thr c) x (sc_group c) (sc_lock_nest c) (sc_cur c) (sc_cur_prio c) (sc_irq_nest c).
Definition set_group (x : Z) (c : sched) : sched :=
  mk_sched (sc_thr c) (sc_tl c) x (sc_lock_nest c) (sc_cur c) (sc_cur_prio c) (sc_irq_nest c).
Definition set_lock_nest (x : Z) (c : sched) : sched :=
  mk_sched (sc_thr c) (sc_tl c) (sc_group c) x (sc_cur c) (sc_cur_prio c) (sc_irq_nest c).
Definition set_cur (x : option Z) (c : sched) : sched :=
  mk_sched (sc_thr c) (sc_tl c) (sc_group c) (sc_lock_nest c) x (sc_cur_prio c) (sc_irq_nest c).
Definition set_cur_prio (x : Z) (c : sched) : sched :=
  mk_sched (sc_thr c) (sc_tl c) (sc_group c) (sc_lock_nest c) (sc_cur c) x (sc_irq_nest c).
Definition set_irq_nest (x : Z) (c : sched) : sched :=
  mk_sched (sc_thr c) (sc_tl c) (sc_group c) (sc_lock_nest c) (sc_cur c) (sc_cur_prio c) x.

Definition set_tim (x : gmap oid rt_timer) (c : timers) : timers :=
  mk_timers x (tms_rows c) (tms_tick c) (tms_random_nr c).
Definition set_rows (x : list oid) (c : timers) : timers :=
  mk_timers (tms_tim c) x (tms_tick c) (tms_random_nr c).
Definition set_tick (x : Z) (c : timers) : timers :=
  mk_timers (tms_tim c) (tms_rows c) x (tms_random_nr c).
Definition set_random_nr (x : Z) (c : timers) : timers :=
  mk_timers (tms_tim c) (tms_rows c) (tms_tick c) x.

Definition set_obj (x : gmap oid rt_object) (c : objects) : objects :=
  mk_objects x (ob_list c).
Definition set_obj_list (x : gmap Z (list oid)) (c : objects) : objects :=
  mk_objects (ob_obj c) x.

Definition set_sem (x : gmap Z rt_semaphore) (c : ipcs) : ipcs :=
  mk_ipcs x (ip_mtx c) (ip_evt c) (ip_mb c) (ip_mq c).
Definition set_mtx (x : gmap Z rt_mutex) (c : ipcs) : ipcs :=
  mk_ipcs (ip_sem c) x (ip_evt c) (ip_mb c) (ip_mq c).
Definition set_evt (x : gmap Z rt_event) (c : ipcs) : ipcs :=
  mk_ipcs (ip_sem c) (ip_mtx c) x (ip_mb c) (ip_mq c).
Definition set_mb (x : gmap Z rt_mailbox) (c : ipcs) : ipcs :=
  mk_ipcs (ip_sem c) (ip_mtx c) (ip_evt c) x (ip_mq c).
Definition set_mq (x : gmap Z rt_messagequeue) (c : ipcs) : ipcs :=
  mk_ipcs (ip_sem c) (ip_mtx c) (ip_evt c) (ip_mb c) x.

(** Assignments to one field of a thread control block. *)
Definition with_error (e : Z) (t : rt_thread) : rt_thread :=
  mk_thread (th_sp t) (th_entry t) (th_parameter t) (th_stack_addr t) (th_stack_size t)
    (th_guard t) e (th_stat t) (th_current_priority t) (th_init_priority t)
    (th_number_mask t) (th_event_set t) (th_event_info t) (th_init_tick t)
    (th_remaining_tick t) (th_cleanup t) (th_user_data t).
Definition with_stat (x : Z) (t : rt_thread) : rt_thread :=
  mk_thread (th_sp t) (th_entry t) (th_parameter t) (th_stack_addr t) (th_stack_size t)
    (th_guard t) (th_error t) x (th_current_priority t) (th_init_priority t)
    (th_number_mask t) (th_event_set t) (th_event_info t) (th_init_tick t)
    (th_remaining_tick t) (th_cleanup t) (th_user_data t).
(** [current_priority] together with [number_mask]. *)
Definition with_priority (p mask : Z) (t : rt_thread) : rt_thread :=
  mk_thread (th_sp t) (th_entry t) (th_parameter t) (th_stack_addr t) (th_stack_size t)
    (th_guard t) (th_error t) (th_stat t) p (th_init_priority t)
    mask (th_event_set t) (th_event_info t) (th_init_tick t)
    (th_remaining_tick t) (th_cleanup t) (th_user_data t).
Definition with_event (set info : Z) (t : rt_thread) : rt_thread :=
  mk_thread (th_sp t) (th_entry t) (th_parameter t) (th_stack_addr t) (th_stack_size t)
    (th_guard t) (th_error t) (th_stat t) (th_current_priority t) (th_init_priority t)
    (th_number_mask t) set info (th_init_tick t)
    (th_remaining_tick t) (th_cleanup t) (th_user_data t).
Definition with_remaining_tick (x : Z) (t : rt_thread) : rt_thread :=
  mk_thread (th_sp t) (th_entry t) (th_parameter t) (th_stack_addr t) (th_stack_size t)
    (th_guard t) (th_error t) (th_stat t) (th_current_priority t) (th_init_priority t)
    (th_number_mask t) (th_event_set t) (th_event_info t) (th_init_tick t)
    x (th_cleanup t) (th_user_data t).

Definition with_flag (f : Z) (o : rt_object) : rt_object := mk_object (o_name o) (o_type o) f.
Definition with_type (t : Z) (o : rt_object) : rt_object := mk_object (o_name o) t (o_flag o).
Definition with_init_tick (x : Z) (t : rt_timer) : rt_timer :=
  mk_timer (tm_timeout_func t) x (tm_timeout_tick t).
Definition with_timeout_tick (x : Z) (t : rt_timer) : rt_timer :=
  mk_timer (tm_timeout_func t) (tm_init_tick t) x.

(** * Dereferencing

    Reading or writing through a pointer that names no live structure of the
    expected kind is undefined behaviour: the computation fails. *)

Local Open Scope rt_scope.

Definition get_thread (t : Z) : K rt_thread := λ s,
  match k_thr s !! t with Some th => Some (th, s) | None => None end.
Definition mod_thread (t : Z) (f : rt_thread → rt_thread) : K unit := λ s,
  match k_thr s !! t with
  | Some th => Some (tt, upd_sched (set_thr (<[t := f th]> (k_thr s))) s)
  | None => None
  end.
Definition get_object (o : oid) : K rt_object := λ s,
  match k_obj s !! o with Some x => Some (x, s) | None => None end.
Definition mod_object (o : oid) (f : rt_object → rt_object) : K unit := λ s,
  match k_obj s !! o with
  | Some x => Some (tt, upd_objects (set_obj (<[o := f x]> (k_obj s))) s)
  | None => None
  end.
Definition get_timer (o : oid) : K rt_timer := λ s,
  match k_tim s !! o with Some x => Some (x, s) | None => None end.
Definition mod_timer (o : oid) (f : rt_timer → rt_timer) : K unit := λ s,
  match k_tim s !! o with
  | Some x => Some (tt, upd_timers (set_tim (<[o := f x]> (k_tim s))) s)
  | None => None
  end.

(** * Thread lists

    The sequence view of the [tlist] lists; RtList.v proves that the pointer
    operations of rtservice.h implement these on linked nodes. Linking a node that
    already is in a list would corrupt both lists: the operation fails. *)

Section lists.
Context {H N : Type} `{Countable H} `{EqDecision N}.
Implicit Types (w : gmap H (list N)).

Definition tlist w (h : H) : list N := default [] (w !! h).

Definition tlinked w (t : N) : bool :=
  existsb (λ hl : H * list N, bool_decide (t ∈ hl.2)) (map_to_list w).

(** [rt_list_remove(&t->tlist)] *)
Definition tl_remove_from (t : N) w : gmap H (list N) := filter (λ x, x ≠ t) <$> w.

(** Inserts [t] in front of the first occurrence of [x]. *)
Fixpoint insert_before (x t : N) (l : list N) : list N :=
  match l with
  | [] => []
  | y :: l' => if decide (y = x) then t :: y :: l' else y :: insert_before x t l'
  end.

(** ** Lemmas *)

Lemma tlist_lookup w h t : t ∈ tlist w h → ∃ l, w !! h = Some l ∧ t ∈ l.
Proof. unfold tlist. destruct (w !! h); cbn; [eauto|set_solver]. Qed.

Lemma tlinked_false w t : tlinked w t = false ↔ ∀ h, t ∉ tlist w h.
Proof.
  unfold tlinked. rewrite <- not_true_iff_false, existsb_exists. split.
  - intros Hn h (l & Hl & Ht)%tlist_lookup. apply Hn. exists (h, l).
    split; [by apply list_elem_of_In, elem_of_map_to_list|by apply bool_decide_eq_true_2].
  - intros Hn ([h l] & Hin & Hb). apply bool_decide_eq_true_1 in Hb.
    apply list_elem_of_In, elem_of_map_to_list in Hin.
    apply (Hn h). unfold tlist. by rewrite Hin.
Qed.

Lemma tlist_insert w h l h' :
  tlist (<[h := l]> w) h' = if decide (h = h') then l else tlist w h'.
Proof. unfold tlist. rewrite lookup_insert. by case_decide. Qed.

Lemma tlist_remove w t h : tlist (tl_remove_from t w) h = filter (λ x, x ≠ t) (tlist w h).
Proof. unfold tlist, tl_remove_from. rewrite lookup_fmap. by destruct (w !! h). Qed.

Lemma filter_ne_notin (t : N) (l : list N) : t ∉ l → filter (λ x, x ≠ t) l = l.
Proof.
  induction l as [|x l IH]; [done|]. intros Hn. rewrite filter_cons_True by set_solver.
  rewrite IH by set_solver. done.
Qed.

Lemma insert_before_elem x t l y : y ∈ insert_before x t l → y = t ∨ y ∈ l.
Proof. induction l as [|z l IH]; cbn; [set_solver|]. case_decide; set_solver. Qed.

Lemma insert_before_split x t l :
  x ∈ l → ∃ l1 l2, l = l1 ++ x :: l2 ∧ x ∉ l1 ∧ insert_before x t l = l1 ++ t :: x :: l2.
Proof.
  induction l as [|y l IH]; [set_solver|]. intros Hx. cbn. case_decide as Hd.
  - subst. exists [], l. set_solver.
  - destruct IH as (l1 & l2 & -> & Hn & ->); [set_solver|].
    exists (y :: l1), l2. set_solver.
Qed.

End lists.

(** [rt_list_insert_before(head, node)] *)
Definition tl_insert_tail (h : thead) (t : Z) : K unit := λ s,
  if tlinked (k_tl s) t then None
  else Some (tt, upd_sched (set_tl (<[h := tlist (k_tl s) h ++ [t]]> (k_tl s))) s).

(** [rt_list_insert_after(head, node)] *)
Definition tl_insert_front (h : thead) (t : Z) : K unit := λ s,
  if tlinked (k_tl s) t then None
  else Some (tt, upd_sched (set_tl (<[h := t :: tlist (k_tl s) h]> (k_tl s))) s).

(** [rt_list_insert_before(&x->tlist, node)] for [x] in the list of [h]. *)
Definition tl_insert_before (h : thead) (x t : Z) : K unit := λ s,
  if tlinked (k_tl s) t then None
  else Some (tt, upd_sched (set_tl (<[h := insert_before x t (tlist (k_tl s) h)]> (k_tl s))) s).

(** [rt_list_remove(&t->tlist)] *)
Definition tl_remove (t : Z) : K unit := λ s,
  Some (tt, upd_sched (set_tl (tl_remove_from t (k_tl s))) s).

(** [rt_interrupt_get_nest], [RT_DEBUG_NOT_IN_INTERRUPT], [RT_DEBUG_IN_THREAD_CONTEXT] *)
Definition rt_interrupt_get_nest : K Z := gets (λ s, sc_irq_nest (k_sched s)).
Definition RT_DEBUG_NOT_IN_INTERRUPT : K unit :=
  n ← rt_interrupt_get_nest; assert (n =? 0).
Definition RT_DEBUG_IN_THREAD_CONTEXT : K unit :=
  c ← gets k_cur; assert (bool_decide (is_Some c)) ;; RT_DEBUG_NOT_IN_INTERRUPT.

(** [rt_thread_self()] where the result is dereferenced. *)
Definition self : K Z := c ← gets k_cur; from_opt c.
