(* ===== verification/Scheduler.v ===== *)
(** The priority scheduler, src/scheduler.c (single core, 32 priorities).

    Each routine runs with interrupts disabled in the source, so it is one step of
    the model. [rt_schedule] changes [rt_current_thread]; the register switch of
    [rt_hw_context_switch] is outside the model. *)

From Stdlib Require Import ZArith Lia.
From stdpp Require Import base numbers option gmap.
From stdpp Require Import list.
From S2P Require Import Prelude.
From S2P Require Import Kservice.
From S2P Require Import KernelDefs.
Local Open Scope Z_scope.
Local Open Scope rt_scope.

Definition stat_of (th : rt_thread) : Z := Z.land (th_stat th) RT_THREAD_STAT_MASK.

(** [thread->stat = st | (thread->stat & ~RT_THREAD_STAT_MASK)] *)
Definition set_stat (st : Z) (th : rt_thread) : rt_thread :=
  with_stat (Z.lor st (Z.land (th_stat th) (Z.lnot RT_THREAD_STAT_MASK))) th.

(** A failed check prints a message and spins with interrupts disabled. *)
Definition stack_ok (th : rt_thread) : bool :=
  negb (negb (th_guard th =? 35) || (th_sp th <=? th_stack_addr th) ||
        (th_stack_addr th + th_stack_size th <? th_sp th)).
Definition _rt_scheduler_stack_check (t : Z) : K unit :=
  th ← get_thread t; assert (stack_ok th).

(** Returns the thread and, through the out-parameter, its priority. *)
Definition _get_highest_priority_thread : K (Z * Z) :=
  g ← gets (λ s, sc_group (k_sched s));
  let highest_ready_priority := Ffs.__rt_ffs g - 1 in
  l ← gets (λ s, tlist (k_tl s) (HReady highest_ready_priority));
  t ← from_opt (head l);
  ret (t, highest_ready_priority).

Definition rt_system_scheduler_init : K unit :=
  modify (upd_sched (set_lock_nest 0)) ;;
  modify (upd_sched (λ c, set_tl (list_to_map ((λ p, (HReady (Z.of_nat p), [])) <$>
                            seq 0 (Z.to_nat RT_THREAD_PRIORITY_MAX)) ∪ sc_tl c) c)) ;;
  modify (upd_sched (set_group 0)) ;;
  modify (upd_sched (λ c, set_tl (<[HDefunct := []]> (sc_tl c)) c)).

Definition rt_schedule_insert_thread (t : Z) : K unit :=
  c ← gets k_cur;
  if decide (c = Some t) then mod_thread t (set_stat RT_THREAD_RUNNING)
  else
    mod_thread t (set_stat RT_THREAD_READY) ;;
    th ← get_thread t;
    tl_insert_tail (HReady (th_current_priority th)) t ;;
    modify (upd_sched (λ c, set_group (Z.lor (sc_group c) (th_number_mask th)) c)).

Definition rt_schedule_remove_thread (t : Z) : K unit :=
  tl_remove t ;;
  th ← get_thread t;
  l ← gets (λ s, tlist (k_tl s) (HReady (th_current_priority th)));
  if decide (l = []) then
    modify (upd_sched (λ c,
      set_group (Z.land (sc_group c) (u32 (Z.lnot (th_number_mask th)))) c))
  else ret tt.

Definition rt_system_scheduler_start : K unit :=
  tp ← _get_highest_priority_thread;
  let to_thread := tp.1 in
  modify (upd_sched (set_cur (Some to_thread))) ;;
  rt_schedule_remove_thread to_thread ;;
  mod_thread to_thread (with_stat RT_THREAD_RUNNING).

Definition rt_schedule : K unit :=
  nest ← gets (λ s, sc_lock_nest (k_sched s));
  if nest =? 0 then
    g ← gets (λ s, sc_group (k_sched s));
    if nz g then
      tp ← _get_highest_priority_thread;
      let highest_ready_priority := tp.2 in
      cur ← self;
      cth ← get_thread cur;
      let running := stat_of cth =? RT_THREAD_RUNNING in
      let keep := running && (th_current_priority cth <? highest_ready_priority) in
      let to_thread := if keep then cur else tp.1 in
      let need_insert_from_thread := running && negb keep in
      if decide (to_thread ≠ cur) then
        modify (upd_sched (set_cur_prio (u8 highest_ready_priority))) ;;
        modify (upd_sched (set_cur (Some to_thread))) ;;
        (if need_insert_from_thread then rt_schedule_insert_thread cur else ret tt) ;;
        rt_schedule_remove_thread to_thread ;;
        mod_thread to_thread (set_stat RT_THREAD_RUNNING) ;;
        _rt_scheduler_stack_check to_thread
      else
        rt_schedule_remove_thread cur ;;
        mod_thread cur (set_stat RT_THREAD_RUNNING)
    else ret tt
  else ret tt.

Definition rt_enter_critical : K unit :=
  modify (upd_sched (λ c, set_lock_nest (i16 (sc_lock_nest c + 1)) c)).

Definition rt_exit_critical : K unit :=
  modify (upd_sched (λ c, set_lock_nest (i16 (sc_lock_nest c - 1)) c)) ;;
  nest ← gets (λ s, sc_lock_nest (k_sched s));
  if nest <=? 0 then
    modify (upd_sched (set_lock_nest 0)) ;;
    c ← gets k_cur;
    (if decide (is_Some c) then rt_schedule else ret tt)
  else ret tt.

Definition rt_critical_level : K Z := gets (λ s, u16 (sc_lock_nest (k_sched s))).

(** * The pure effect on the scheduler state *)

Definition remove_sc (t : Z) (th : rt_thread) (c : sched) : sched :=
  let w := tl_remove_from t (sc_tl c) in
  set_group (if decide (tlist w (HReady (th_current_priority th)) = [])
             then Z.land (sc_group c) (u32 (Z.lnot (th_number_mask th))) else sc_group c)
    (set_tl w c).

Definition insert_sc (t : Z) (th : rt_thread) (c : sched) : sched :=
  let p := th_current_priority th in
  set_group (Z.lor (sc_group c) (th_number_mask th))
    (set_tl (<[HReady p := tlist (sc_tl c) (HReady p) ++ [t]]> (sc_tl c))
      (set_thr (<[t := set_stat RT_THREAD_READY th]> (sc_thr c)) c)).

Definition put_thr (t : Z) (th : rt_thread) (c : sched) : sched :=
  set_thr (<[t := th]> (sc_thr c)) c.

Lemma remove_thread_run s t th :
  k_thr s !! t = Some th →
  rt_schedule_remove_thread t s = Some (tt, upd_sched (remove_sc t th) s).
Proof.
  intros Ht. unfold rt_schedule_remove_thread, bind, gets, get_thread, tl_remove, k_thr in *.
  cbn. rewrite Ht. unfold k_tl; cbn. unfold remove_sc.
  case_decide as Hd; unfold upd_sched, ret, modify; cbn;
    [rewrite decide_True by done|rewrite decide_False by done]; done.
Qed.

Lemma mod_thread_run s t th f :
  k_thr s !! t = Some th → mod_thread t f s = Some (tt, upd_sched (put_thr t (f th)) s).
Proof. intros Ht. unfold mod_thread. by rewrite Ht. Qed.

Lemma insert_thread_run s t th :
  k_thr s !! t = Some th → k_cur s ≠ Some t → (∀ h, t ∉ tlist (k_tl s) h) →
  rt_schedule_insert_thread t s = Some (tt, upd_sched (insert_sc t th) s).
Proof.
  intros Ht Hc Hl. unfold rt_schedule_insert_thread, bind, gets. cbn.
  rewrite decide_False by done. rewrite (mod_thread_run s t th) by done.
  unfold get_thread, k_thr, put_thr. cbn. rewrite lookup_insert_eq. cbn.
  unfold tl_insert_tail, k_tl. cbn.
  assert (tlinked (sc_tl (k_sched s)) t = false) as -> by by apply tlinked_false.
  done.
Qed.

Lemma insert_current_run s t th :
  k_thr s !! t = Some th → k_cur s = Some t →
  rt_schedule_insert_thread t s =
    Some (tt, upd_sched (put_thr t (set_stat RT_THREAD_RUNNING th)) s).
Proof.
  intros Ht Hc. unfold rt_schedule_insert_thread, bind, gets. cbn.
  rewrite decide_True by done. by apply mod_thread_run.
Qed.

(** * Well-formed scheduler states *)

(** What membership in a list says of a thread's state. *)
Definition head_ok (h : thead) (th : rt_thread) : Prop :=
  match h with
  | HReady p => stat_of th = RT_THREAD_READY ∧ th_current_priority th = p
  | HSuspend _ | HSender _ => stat_of th = RT_THREAD_SUSPEND
  | HDefunct => stat_of th = RT_THREAD_CLOSE
  end.

Definition started (th : rt_thread) : Prop :=
  stat_of th = RT_THREAD_READY ∨ stat_of th = RT_THREAD_SUSPEND ∨
  stat_of th = RT_THREAD_RUNNING.

(** [swf X c]: the ready bitmap mirrors the ready lists, every thread is in at
    most one list, a list holds threads of the right state, and every ready
    thread is in the list of its priority. The threads in [X] are in transit:
    they are in no list and their state field says nothing. *)
Record swf (X : gset Z) (c : sched) : Prop := {
  sw_range : 0 ≤ sc_group c < 2 ^ 32;
  sw_group : ∀ p, 0 ≤ p < 32 →
    Z.testbit (sc_group c) p = true ↔ tlist (sc_tl c) (HReady p) ≠ [];
  sw_nodup : ∀ h, NoDup (tlist (sc_tl c) h);
  sw_disj : ∀ t h1 h2, t ∈ tlist (sc_tl c) h1 → t ∈ tlist (sc_tl c) h2 → h1 = h2;
  sw_place : ∀ t h, t ∈ tlist (sc_tl c) h → ∃ th, sc_thr c !! t = Some th ∧ head_ok h th;
  sw_transit : ∀ t h, t ∈ X → t ∉ tlist (sc_tl c) h;
  sw_ready : ∀ t th, sc_thr c !! t = Some th → t ∉ X → stat_of th = RT_THREAD_READY →
    t ∈ tlist (sc_tl c) (HReady (th_current_priority th));
  sw_prio : ∀ t th, sc_thr c !! t = Some th → 0 ≤ th_current_priority th < 32;
  sw_mask : ∀ t th, sc_thr c !! t = Some th → started th →
    th_number_mask th = 2 ^ th_current_priority th;
  sw_running : ∀ t th, sc_thr c !! t = Some th → t ∉ X → stat_of th = RT_THREAD_RUNNING →
    sc_cur c = Some t
}.

(** The current thread exists and is not queued as ready. *)
Definition cur_ok (c : sched) : Prop :=
  ∀ t, sc_cur c = Some t → ∃ th, sc_thr c !! t = Some th ∧ stat_of th ≠ RT_THREAD_READY.

Definition stacks_ok (c : sched) : Prop :=
  ∀ t th, sc_thr c !! t = Some th → stack_ok th = true.

(** Thread states as numbers. *)
Ltac stat_lia :=
  unfold RT_THREAD_INIT, RT_THREAD_READY, RT_THREAD_SUSPEND, RT_THREAD_RUNNING,
    RT_THREAD_CLOSE in *; lia.

(** ** Status bits *)

Lemma stat_of_set_stat st th : 0 ≤ st < 16 → stat_of (set_stat st th) = st.
Proof.
  intros Hst. unfold stat_of, set_stat, RT_THREAD_STAT_MASK; cbn.
  apply Z.bits_inj'. intros i Hi.
  rewrite Z.land_spec, Z.lor_spec, Z.land_spec, Z.lnot_spec by done.
  change 15 with (Z.ones 4). rewrite Z.testbit_ones_nonneg by lia.
  destruct (Z.ltb_spec i 4).
  - by rewrite andb_false_r, orb_false_r, andb_true_r.
  - rewrite andb_false_r, <- (Z.mod_small st (2 ^ 4)) by lia.
    by rewrite Z.mod_pow2_bits_high by lia.
Qed.

(** ** Preservation by the primitive updates *)

Lemma swf_weaken X t c : swf X c → (∀ h, t ∉ tlist (sc_tl c) h) → swf ({[t]} ∪ X) c.
Proof.
  intros [] Hl. split; try done.
  - intros u h [->%elem_of_singleton|?]%elem_of_union; eauto.
  - intros u th ? ?. apply sw_ready0; set_solver.
  - intros u th ? ?. apply sw_running0; set_solver.
Qed.

(** An update of fields the scheduler does not read. *)
Lemma swf_put_same X t th th' c :
  swf X c → sc_thr c !! t = Some th → stat_of th' = stat_of th →
  th_current_priority th' = th_current_priority th →
  th_number_mask th' = th_number_mask th → swf X (put_thr t th' c).
Proof.
  intros [] Ht Hs Hp Hm. unfold started in *. split; cbn; try done.
  - intros u h Hu. destruct (sw_place0 u h Hu) as (uh & Hu1 & Hok).
    destruct (decide (u = t)) as [->|]; [|rewrite lookup_insert_ne by done; eauto].
    rewrite lookup_insert_eq. exists th'. split; [done|]. simplify_eq.
    destruct h; cbn in *; by rewrite ?Hs, ?Hp.
  - intros u uh. destruct (decide (u = t)) as [->|]; [|rewrite lookup_insert_ne by done; eauto].
    rewrite lookup_insert_eq. intros [= <-]. rewrite Hs, Hp. eauto.
  - intros u uh. destruct (decide (u = t)) as [->|]; [|rewrite lookup_insert_ne by done; eauto].
    rewrite lookup_insert_eq. intros [= <-]. rewrite Hp. eauto.
  - intros u uh. destruct (decide (u = t)) as [->|]; [|rewrite lookup_insert_ne by done; eauto].
    rewrite lookup_insert_eq. intros [= <-]. unfold started. rewrite Hs, Hp, Hm. eauto.
  - intros u uh. destruct (decide (u = t)) as [->|]; [|rewrite lookup_insert_ne by done; eauto].
    rewrite lookup_insert_eq. intros [= <-]. rewrite Hs. eauto.
Qed.

(** A thread in transit gets a new control block and leaves transit, unless it
    claims to be ready, or running without being current. *)
Lemma swf_put_transit X t th' c :
  swf ({[t]} ∪ X) c → t ∉ X → stat_of th' ≠ RT_THREAD_READY →
  (stat_of th' = RT_THREAD_RUNNING → sc_cur c = Some t) →
  0 ≤ th_current_priority th' < 32 →
  (started th' → th_number_mask th' = 2 ^ th_current_priority th') →
  swf X (put_thr t th' c).
Proof.
  intros [] HtX Hs Hr Hp Hm.
  assert (∀ h, t ∉ tlist (sc_tl c) h) as Hl by (intros h; apply sw_transit0; set_solver).
  split; cbn; try done.
  - intros u h Hu. rewrite lookup_insert_ne by (intros ->; by eapply Hl). eauto.
  - intros u h Hu. apply sw_transit0. set_solver.
  - intros u uh. rewrite lookup_insert. case_decide; [|intros ? ?; apply sw_ready0; set_solver].
    subst. intros [= ->] ? ?. done.
  - intros u uh. rewrite lookup_insert. case_decide; [|eauto]. by intros [= ->].
  - intros u uh. rewrite lookup_insert. case_decide; [|eauto]. by intros [= ->].
  - intros u uh. rewrite lookup_insert. case_decide; [|intros ? ?; apply sw_running0; set_solver].
    subst. intros [= ->] ? ?. eauto.
Qed.

Lemma swf_remove X t th c :
  swf X c → sc_thr c !! t = Some th → th_number_mask th = 2 ^ th_current_priority th →
  swf ({[t]} ∪ X) (remove_sc t th c).
Proof.
  intros [] Ht Hm. pose proof (sw_prio0 t th Ht) as Hp. split; cbn; try done.
  - case_decide; [apply land_range; lia|done].
  - intros p Hpr. rewrite !tlist_remove.
    destruct (Z.eq_dec p (th_current_priority th)) as [->|Hne].
    + case_decide as Hd.
      * rewrite Hm, testbit_clear_mask, Z.eqb_refl, andb_false_r by lia. naive_solver.
      * rewrite sw_group0 by done. split; [done|]. intros _ E. by rewrite E in Hd.
    + rewrite (filter_ne_notin t (tlist (sc_tl c) (HReady p))).
      * rewrite <- sw_group0 by done. case_decide; [|done].
        rewrite Hm, testbit_clear_mask, (proj2 (Z.eqb_neq _ _)), andb_true_r by lia. done.
      * intros (? & ? & [_ ?])%sw_place0. naive_solver.
  - intros h. rewrite tlist_remove. by apply NoDup_filter.
  - intros u h1 h2. rewrite !tlist_remove, !list_elem_of_filter. naive_solver.
  - intros u h. rewrite tlist_remove, list_elem_of_filter. intros [? ?]. eauto.
  - intros u h Hu. rewrite tlist_remove, list_elem_of_filter. intros [? ?].
    eapply sw_transit0; [|done]. set_solver.
  - intros u uh Hu Hx Hs. rewrite tlist_remove, list_elem_of_filter. split; [set_solver|].
    apply sw_ready0; set_solver.
  - intros u uh Hu Hx Hs. eapply sw_running0; set_solver.
Qed.

Lemma swf_insert X t th c :
  swf ({[t]} ∪ X) c → t ∉ X → sc_thr c !! t = Some th → sc_cur c ≠ Some t →
  th_number_mask th = 2 ^ th_current_priority th →
  swf X (insert_sc t th c).
Proof.
  intros [] HtX Ht Hc Hm. pose proof (sw_prio0 t th Ht) as Hp.
  assert (∀ h, t ∉ tlist (sc_tl c) h) as Hl by (intros h; apply sw_transit0; set_solver).
  assert (stat_of (set_stat RT_THREAD_READY th) = RT_THREAD_READY) as Hst
    by (apply stat_of_set_stat; unfold RT_THREAD_READY; lia).
  split; cbn.
  - rewrite Hm. apply lor_range; [done| |lia].
    split; [lia|]. apply Z.pow_lt_mono_r; lia.
  - intros p Hpr. rewrite Hm, testbit_set_mask, tlist_insert by lia.
    rewrite orb_true_iff, Z.eqb_eq, sw_group0 by done. case_decide as Hd.
    + simplify_eq. split; [|by right]. intros _. by destruct (tlist _ _).
    + split; [|by left]. intros [?| ->]; [done|]. by destruct Hd.
  - intros h. rewrite tlist_insert. case_decide; [|done]. apply list.NoDup_app.
    split_and!; [done| |apply NoDup_singleton]. intros x Hx ->%list_elem_of_singleton.
    by eapply Hl.
  - intros u h1 h2. rewrite !tlist_insert.
    assert (∀ h, u = t → u ∈ tlist (sc_tl c) h → False) by (intros h -> ?; by eapply Hl).
    repeat case_decide; subst; rewrite ?elem_of_app, ?list_elem_of_singleton; naive_solver.
  - intros u h. rewrite tlist_insert. intros Hu.
    assert (u = t ∧ h = HReady (th_current_priority th) ∨ u ≠ t ∧ u ∈ tlist (sc_tl c) h)
      as [[-> ->]|[Hne Hu']].
    { destruct (decide (u = t)) as [->|]; [|case_decide; subst; set_solver].
      case_decide; [by left|]. exfalso. by eapply Hl. }
    + rewrite lookup_insert_eq. eexists. split; [done|]. done.
    + rewrite lookup_insert_ne by done. eauto.
  - intros u h Hu. rewrite tlist_insert. specialize (sw_transit0 u h ltac:(set_solver)).
    case_decide; [subst; set_solver|done].
  - intros u uh. rewrite lookup_insert, tlist_insert. case_decide; [subst|].
    + intros [= <-] _ _. cbn. rewrite decide_True by done. set_solver.
    + intros Hu Hx Hs. specialize (sw_ready0 u uh Hu ltac:(set_solver) Hs).
      case_decide as E; [injection E as E; rewrite E; set_solver|done].
  - intros u uh. rewrite lookup_insert. case_decide; [|eauto]. by intros [= <-].
  - intros u uh. rewrite lookup_insert. case_decide; [|eauto]. by intros [= <-].
  - intros u uh. rewrite lookup_insert. case_decide; [|intros ? ?; apply sw_running0; set_solver].
    subst. intros [= <-] _. rewrite Hst. done.
Qed.

(** The ready thread with the highest priority. *)
Lemma highest_run X s :
  swf X (k_sched s) → sc_group (k_sched s) ≠ 0 →
  ∃ t p rest, _get_highest_priority_thread s = Some ((t, p), s) ∧ 0 ≤ p < 32 ∧
    tlist (k_tl s) (HReady p) = t :: rest ∧
    ∀ q, 0 ≤ q < p → tlist (k_tl s) (HReady q) = [].
Proof.
  intros [] Hg. destruct (Ffs.rt_ffs_lowest (sc_group (k_sched s))) as [(H0 & Hb & Hl) H32]; [lia|].
  set (p := Ffs.__rt_ffs (sc_group (k_sched s)) - 1) in *.
  assert (0 ≤ p < 32) as Hp by lia.
  apply sw_group0 in Hb; [|done]. destruct (tlist _ (HReady p)) as [|t rest] eqn:E; [done|].
  exists t, p, rest. split_and!; [|lia|lia|done|].
  - unfold _get_highest_priority_thread, bind, gets, k_tl. cbn. fold p. rewrite E. done.
  - intros q Hq. specialize (Hl q Hq). destruct (tlist (k_tl s) (HReady q)) eqn:Eq; [done|].
    apply not_true_iff_false in Hl. exfalso. apply Hl, sw_group0; [lia|].
    unfold k_tl in Eq. by rewrite Eq.
Qed.

(** No ready thread has a priority above (numerically below) [p]. *)
Definition none_above (p : Z) (c : sched) : Prop :=
  ∀ u uh, sc_thr c !! u = Some uh → stat_of uh = RT_THREAD_READY → p ≤ th_current_priority uh.

(** The current thread runs and has the highest priority. *)
Definition runs_highest (c : sched) : Prop :=
  ∃ t th, sc_cur c = Some t ∧ sc_thr c !! t = Some th ∧ stat_of th = RT_THREAD_RUNNING ∧
    none_above (th_current_priority th) c.

(** The full scheduler invariant between kernel routines. *)
Definition sched_inv (c : sched) : Prop := swf ∅ c ∧ cur_ok c ∧ stacks_ok c.

Lemma none_above_empty c p :
  swf ∅ c → (∀ q, 0 ≤ q < p → tlist (sc_tl c) (HReady q) = []) → none_above p c.
Proof.
  intros [] Hq u uh Hu Hs. destruct (Z_lt_dec (th_current_priority uh) p); [|lia].
  specialize (sw_ready0 u uh Hu ltac:(set_solver) Hs). pose proof (sw_prio0 u uh Hu).
  rewrite Hq in sw_ready0 by lia. set_solver.
Qed.

Lemma group_zero_none c p : swf ∅ c → sc_group c = 0 → none_above p c.
Proof.
  intros [] Hg u uh Hu Hs. exfalso. specialize (sw_ready0 u uh Hu ltac:(set_solver) Hs).
  pose proof (sw_prio0 u uh Hu) as Hp. pose proof (proj2 (sw_group0 _ Hp)) as Hb.
  rewrite Hg, Z.bits_0 in Hb. discriminate Hb. intros E. rewrite E in *. set_solver.
Qed.

(** ** The effect of [rt_schedule] *)

(** [rt_schedule] switches: the former current thread [cur] goes to the tail of
    its ready list when it was running, and [to] leaves the head of its list. *)
Definition switch_sc (cur to p : Z) (cth toh : rt_thread) (c : sched) : sched :=
  let c1 := set_cur (Some to) (set_cur_prio (u8 p) c) in
  let c2 := if decide (stat_of cth = RT_THREAD_RUNNING) then insert_sc cur cth c1 else c1 in
  put_thr to (set_stat RT_THREAD_RUNNING toh) (remove_sc to toh c2).

Definition keep_sc (cur : Z) (cth : rt_thread) (c : sched) : sched :=
  put_thr cur (set_stat RT_THREAD_RUNNING cth) (remove_sc cur cth c).

Lemma running_unlinked c t th :
  swf ∅ c → sc_thr c !! t = Some th → stat_of th = RT_THREAD_RUNNING →
  ∀ h, t ∉ tlist (sc_tl c) h.
Proof.
  intros [] Ht Hs h (th' & ? & Hok)%sw_place0. simplify_eq.
  destruct h; cbn in Hok; stat_lia.
Qed.

Lemma swf_move_cur c t to :
  swf ∅ c → sc_cur c = Some t → (∀ h, t ∉ tlist (sc_tl c) h) →
  swf {[t]} (set_cur (Some to) c).
Proof.
  intros Hw Hc Hl. pose proof (swf_weaken ∅ t c Hw Hl) as [].
  rewrite union_empty_r_L in *. split; cbn; try done.
  intros u uh Hu Hx Hs. specialize (sw_running0 u uh Hu Hx Hs). set_solver.
Qed.

(** Effect of switching from a running or blocked thread to the first thread of
    the highest nonempty ready list. *)
Lemma switch_sc_wf c cur to p rest cth toh :
  swf ∅ c → sc_cur c = Some cur → cur ≠ to →
  sc_thr c !! cur = Some cth → stat_of cth ≠ RT_THREAD_READY →
  sc_thr c !! to = Some toh → tlist (sc_tl c) (HReady p) = to :: rest →
  swf ∅ (switch_sc cur to p cth toh c).
Proof.
  intros Hw Hc Hne Hcur Hnr Hto Hl. unfold switch_sc.
  set (c1 := set_cur (Some to) (set_cur_prio (u8 p) c)).
  destruct (sw_place _ _ Hw to (HReady p)) as (toh' & Hto' & Hst & Hp); [rewrite Hl; set_solver|].
  rewrite Hto in Hto'. injection Hto' as <-.
  assert (th_number_mask toh = 2 ^ th_current_priority toh) as Hm
    by (apply (sw_mask _ _ Hw to); [done|by left]).
  assert (swf ∅ (set_cur_prio (u8 p) c)) as Hw' by (by destruct Hw).
  assert (∃ c2, c2 = (if decide (stat_of cth = RT_THREAD_RUNNING) then insert_sc cur cth c1 else c1)
    ∧ swf ∅ c2 ∧ sc_thr c2 !! to = Some toh ∧ sc_cur c2 = Some to) as (c2 & <- & Hw2 & Ht2 & Hc2).
  { eexists. split; [done|]. case_decide as Hr.
    - pose proof (swf_move_cur _ cur to Hw' Hc (running_unlinked c cur cth Hw Hcur Hr)) as Hw1.
      split_and!; [|cbn; by rewrite lookup_insert_ne|done].
      apply swf_insert; [by rewrite union_empty_r_L|set_solver|done|cbn; naive_solver|].
      apply (sw_mask _ _ Hw cur); [done|right; by right].
    - split_and!; [|done|done]. destruct Hw'. split; cbn; try done.
      intros u uh Hu Hx Hs. exfalso. specialize (sw_running0 u uh Hu Hx Hs).
      cbn in *. naive_solver. }
  apply swf_put_transit; [by apply swf_remove|set_solver|rewrite stat_of_set_stat; stat_lia|done| |].
  - by apply (sw_prio _ _ Hw to toh).
  - intros _. done.
Qed.

Lemma keep_sc_wf c cur cth :
  swf ∅ c → sc_cur c = Some cur → sc_thr c !! cur = Some cth →
  stat_of cth = RT_THREAD_RUNNING → swf ∅ (keep_sc cur cth c).
Proof.
  intros Hw Hc Ht Hs.
  assert (th_number_mask cth = 2 ^ th_current_priority cth) as Hm
    by (apply (sw_mask _ _ Hw cur); [done|right; by right]).
  apply swf_put_transit; [by apply swf_remove|set_solver|rewrite stat_of_set_stat; stat_lia|done| |done].
  exact (sw_prio _ _ Hw cur cth Ht).
Qed.

(** What [rt_schedule] did from scheduler state [c] to [c']. *)
Inductive scheduled (c : sched) : sched → Prop :=
| sched_locked : sc_lock_nest c ≠ 0 → scheduled c c
| sched_no_ready : sc_group c = 0 → scheduled c c
| sched_keep cur cth p to rest :
    sc_lock_nest c = 0 → sc_cur c = Some cur → sc_thr c !! cur = Some cth →
    stat_of cth = RT_THREAD_RUNNING →
    tlist (sc_tl c) (HReady p) = to :: rest → th_current_priority cth < p →
    (∀ q, 0 ≤ q < p → tlist (sc_tl c) (HReady q) = []) →
    scheduled c (keep_sc cur cth c)
| sched_switch cur cth p to toh rest :
    sc_lock_nest c = 0 → sc_cur c = Some cur → sc_thr c !! cur = Some cth → to ≠ cur →
    sc_thr c !! to = Some toh → th_current_priority toh = p → 0 ≤ p < 32 →
    tlist (sc_tl c) (HReady p) = to :: rest →
    (stat_of cth = RT_THREAD_RUNNING → p ≤ th_current_priority cth) →
    (∀ q, 0 ≤ q < p → tlist (sc_tl c) (HReady q) = []) →
    scheduled c (switch_sc cur to p cth toh c).

(** The writes of [rt_schedule] once the thread to switch to is known. *)
Lemma switch_run s cur cth to toh p rest :
  sched_inv (k_sched s) → k_cur s = Some cur → k_thr s !! cur = Some cth → cur ≠ to →
  k_thr s !! to = Some toh → tlist (k_tl s) (HReady p) = to :: rest →
  (modify (upd_sched (set_cur_prio (u8 p))) ;;
   modify (upd_sched (set_cur (Some to))) ;;
   (if stat_of cth =? RT_THREAD_RUNNING then rt_schedule_insert_thread cur else ret tt) ;;
   rt_schedule_remove_thread to ;;
   mod_thread to (set_stat RT_THREAD_RUNNING) ;;
   _rt_scheduler_stack_check to) s =
  Some (tt, upd_sched (switch_sc cur to p cth toh) s).
Proof.
  intros (Hw & Hok & Hst) Hc Hcur Hne Hto Hl. unfold bind at 1 2, modify at 1 2.
  set (s1 := upd_sched (set_cur (Some to)) (upd_sched (set_cur_prio (u8 p)) s)).
  assert ((if stat_of cth =? RT_THREAD_RUNNING then rt_schedule_insert_thread cur else ret tt) s1
    = Some (tt, upd_sched (λ c, if decide (stat_of cth = RT_THREAD_RUNNING)
                                then insert_sc cur cth c else c) s1)) as E.
  { destruct (Z.eqb_spec (stat_of cth) RT_THREAD_RUNNING) as [Hr|Hr].
    - rewrite (insert_thread_run s1 cur cth); [|done|cbn; naive_solver|].
      + unfold upd_sched. by rewrite decide_True.
      + exact (running_unlinked _ cur cth Hw Hcur Hr).
    - unfold ret, upd_sched. rewrite decide_False by done. by destruct s1. }
  unfold bind at 1. rewrite E. unfold bind at 1.
  set (s2 := upd_sched _ s1).
  assert (k_thr s2 !! to = Some toh) as Ht2.
  { unfold s2, s1, k_thr. cbn. case_decide; cbn; [by rewrite lookup_insert_ne|done]. }
  rewrite (remove_thread_run s2 to toh Ht2). unfold bind at 1.
  rewrite (mod_thread_run _ to toh) by exact Ht2.
  unfold _rt_scheduler_stack_check, bind, get_thread, k_thr. cbn.
  rewrite lookup_insert_eq. unfold assert.
  assert (stack_ok (set_stat RT_THREAD_RUNNING toh) = true) as ->
    by (exact (Hst to toh Hto)).
  done.
Qed.

Lemma rt_schedule_run s cur :
  sched_inv (k_sched s) → k_cur s = Some cur →
  ∃ c', rt_schedule s = Some (tt, mk_kst c' (k_timers s) (k_objects s) (k_ipc s)) ∧
    scheduled (k_sched s) c'.
Proof.
  intros Hinv Hc. pose proof Hinv as (Hw & Hok & Hst).
  unfold rt_schedule, bind at 1, gets at 1.
  destruct (Z.eqb_spec (sc_lock_nest (k_sched s)) 0) as [Hn|Hn].
  2:{ exists (k_sched s). split; [by destruct s|by apply sched_locked]. }
  unfold bind at 1, gets at 1.
  destruct (nz (sc_group (k_sched s))) eqn:Hg; [apply nz_true in Hg|apply nz_false in Hg].
  2:{ exists (k_sched s). split; [by destruct s|by apply sched_no_ready]. }
  destruct (highest_run ∅ s Hw Hg) as (to & p & rest & Hhp & Hp & Hl & Hlow).
  unfold bind at 1. rewrite Hhp. cbn beta iota. unfold fst, snd.
  unfold bind at 1, self, bind at 1, gets at 1, from_opt at 1. rewrite Hc. cbn beta iota.
  destruct (Hok cur Hc) as (cth & Hcth & Hnr).
  unfold bind at 1, get_thread at 1, k_thr at 1. rewrite Hcth. cbn beta iota zeta.
  destruct (sw_place _ _ Hw to (HReady p)) as (toh & Htoh & Hts & Htp);
    [unfold k_tl in Hl; rewrite Hl; set_solver|].
  assert (cur ≠ to) as Hne by (intros ->; naive_solver).
  destruct (Z.eqb_spec (stat_of cth) RT_THREAD_RUNNING) as [Hr|Hr]; cbn [andb].
  - destruct (Z.ltb_spec (th_current_priority cth) p); cbn [andb negb].
    + rewrite decide_False by naive_solver. exists (keep_sc cur cth (k_sched s)). split.
      * unfold bind. rewrite (remove_thread_run s cur cth) by done.
        by rewrite (mod_thread_run _ cur cth) by done.
      * by eapply sched_keep.
    + rewrite decide_True by done. eexists. split.
      * rewrite <- (Z.eqb_eq (stat_of cth)) in Hr.
        pose proof (switch_run s cur cth to toh p rest) as Hs. rewrite Hr in Hs.
        by apply Hs.
      * by eapply sched_switch.
  - rewrite decide_True by done. eexists. split.
    + rewrite <- Z.eqb_neq in Hr.
      pose proof (switch_run s cur cth to toh p rest) as Hs. rewrite Hr in Hs.
      by apply Hs.
    + by eapply sched_switch.
Qed.

Lemma scheduled_swf c c' : sched_inv c → scheduled c c' → swf ∅ c'.
Proof.
  intros (Hw & Hok & _) [| |cur cth p to rest Hn Hc Ht Hr|cur cth p to toh rest Hn Hc Ht Hne Hto Hp Hr Hl];
    [done|done| |].
  - by apply keep_sc_wf.
  - destruct (Hok cur Hc) as (cth' & Hc' & Hnr). simplify_eq. by eapply switch_sc_wf.
Qed.

Lemma switch_sc_cur cur to p cth toh c :
  sc_cur (switch_sc cur to p cth toh c) = Some to ∧
  sc_thr (switch_sc cur to p cth toh c) !! to = Some (set_stat RT_THREAD_RUNNING toh).
Proof.
  unfold switch_sc. cbn. rewrite lookup_insert_eq. split; [|done]. by case_decide.
Qed.

Lemma switch_sc_ready cur to p cth toh c q :
  tlist (sc_tl (switch_sc cur to p cth toh c)) (HReady q) =
  filter (λ x, x ≠ to)
    (if decide (stat_of cth = RT_THREAD_RUNNING ∧ th_current_priority cth = q)
     then tlist (sc_tl c) (HReady q) ++ [cur] else tlist (sc_tl c) (HReady q)).
Proof.
  unfold switch_sc. cbn. rewrite tlist_remove. f_equal.
  destruct (decide (stat_of cth = RT_THREAD_RUNNING)) as [Hr|Hr].
  - cbn. rewrite tlist_insert.
    destruct (decide (th_current_priority cth = q)) as [->|Hq].
    + rewrite !decide_True by done. done.
    + rewrite !decide_False by naive_solver. done.
  - rewrite decide_False by naive_solver. done.
Qed.

(** Only the two threads of the switch change their control block. *)
Lemma switch_sc_other cur to p cth toh c u :
  u ≠ to → u ≠ cur → sc_thr (switch_sc cur to p cth toh c) !! u = sc_thr c !! u.
Proof.
  intros. unfold switch_sc. cbn. rewrite lookup_insert_ne by done.
  case_decide; [|done]. cbn. by rewrite lookup_insert_ne.
Qed.

Lemma switch_sc_from cur to p cth toh c :
  sc_thr c !! cur = Some cth → cur ≠ to →
  sc_thr (switch_sc cur to p cth toh c) !! cur =
    Some (if decide (stat_of cth = RT_THREAD_RUNNING)
          then set_stat RT_THREAD_READY cth else cth).
Proof.
  intros Hc Hne. unfold switch_sc. cbn. rewrite lookup_insert_ne by done.
  case_decide; cbn; [by rewrite lookup_insert_eq|done].
Qed.

Lemma stack_ok_set_stat st th : stack_ok (set_stat st th) = stack_ok th.
Proof. done. Qed.

Lemma scheduled_stacks c c' : stacks_ok c → scheduled c c' → stacks_ok c'.
Proof.
  intros Hs Hd. inversion Hd as [| |cur cth p to rest Hn Hc Ht Hr|
    cur cth p to toh rest Hn Hc Ht Hne Hto Hp Hr Hl]; subst; [done|done| |]; intros u uh.
  - cbn. rewrite lookup_insert. case_decide; [|apply Hs]. intros [= <-].
    rewrite stack_ok_set_stat. eauto.
  - destruct (decide (u = to)) as [->|].
    { rewrite (proj2 (switch_sc_cur _ _ _ _ _ _)). intros [= <-].
      rewrite stack_ok_set_stat. eauto. }
    destruct (decide (u = cur)) as [->|].
    + rewrite switch_sc_from by done. intros [= <-]. case_decide; [rewrite stack_ok_set_stat|]; eauto.
    + rewrite switch_sc_other by done. apply Hs.
Qed.

Lemma scheduled_cur_ok c c' : cur_ok c → scheduled c c' → cur_ok c'.
Proof.
  intros Hok Hd. inversion Hd as [| |cur cth p to rest Hn Hc Ht Hr|
    cur cth p to toh rest Hn Hc Ht Hne Hto Hp Hr Hl]; subst; [done|done| |]; intros t.
  - cbn. rewrite Hc. intros [= <-]. rewrite lookup_insert_eq. eexists. split; [done|].
    rewrite stat_of_set_stat; stat_lia.
  - rewrite (proj1 (switch_sc_cur _ _ _ _ _ _)). intros [= <-].
    eexists. split; [apply switch_sc_cur|]. rewrite stat_of_set_stat; stat_lia.
Qed.

Lemma scheduled_inv c c' : sched_inv c → scheduled c c' → sched_inv c'.
Proof.
  intros Hinv Hd. pose proof Hinv as (? & ? & ?).
  split_and!; [by eapply scheduled_swf|by eapply scheduled_cur_ok|by eapply scheduled_stacks].
Qed.

Lemma scheduled_highest c c' cur cth :
  sched_inv c → scheduled c c' → sc_lock_nest c = 0 →
  sc_cur c = Some cur → sc_thr c !! cur = Some cth →
  stat_of cth = RT_THREAD_RUNNING ∨ sc_group c ≠ 0 → runs_highest c'.
Proof.
  intros Hinv Hd Hn Hc Ht Hor. pose proof (scheduled_swf c c' Hinv Hd) as Hw'.
  inversion Hd as [|Hg|cur' cth' p to rest _ Hc' Ht' Hr Hl Hlt Hlow|
    cur' cth' p to toh rest _ Hc' Ht' Hne Hto Hp Hpr Hl Hge Hlow]; subst; [done| | |].
  - destruct Hor as [Hr|]; [|done]. exists cur, cth. split_and!; [done|done|done|].
    by apply group_zero_none.
  - exists cur', (set_stat RT_THREAD_RUNNING cth'). cbn. rewrite lookup_insert_eq.
    split_and!; [done|done|rewrite stat_of_set_stat; stat_lia|].
    apply none_above_empty; [done|]. intros q Hq. cbn. rewrite tlist_remove.
    cbn in Hq. by rewrite Hlow by lia.
  - destruct (switch_sc_cur cur' to (th_current_priority toh) cth' toh c) as [Hcur Hthr].
    exists to, (set_stat RT_THREAD_RUNNING toh).
    split_and!; [done|done|rewrite stat_of_set_stat; stat_lia|].
    apply none_above_empty; [done|]. intros q Hq. cbn in Hq. rewrite switch_sc_ready.
    rewrite decide_False; [by rewrite Hlow by lia|]. intros [Hr Hq']. specialize (Hge Hr). lia.
Qed.

(** * Properties *)

(** C4: with the scheduler unlocked, [rt_schedule] leaves the processor with a
    running thread of the highest priority among all ready threads, and keeps the
    scheduler invariant (bitmap and ready lists agree, every thread in at most one
    list). *)
Theorem rt_schedule_picks_highest s cur cth :
  sched_inv (k_sched s) → sc_lock_nest (k_sched s) = 0 →
  k_cur s = Some cur → k_thr s !! cur = Some cth →
  stat_of cth = RT_THREAD_RUNNING ∨ sc_group (k_sched s) ≠ 0 →
  wp rt_schedule (λ _ s', sched_inv (k_sched s') ∧ runs_highest (k_sched s')) s.
Proof.
  intros Hinv Hn Hc Ht Hor. destruct (rt_schedule_run s cur Hinv Hc) as (c' & Hr & Hd).
  apply wp_run. eexists _, _. split; [exact Hr|]. cbn.
  split; [by eapply scheduled_inv|by eapply scheduled_highest].
Qed.

(** A running thread whose priority level has other ready threads yields to
    the first of them and queues up behind the last (round robin). *)
Theorem rt_schedule_round_robin s cur cth to rest :
  let p := th_current_priority cth in
  sched_inv (k_sched s) → sc_lock_nest (k_sched s) = 0 →
  k_cur s = Some cur → k_thr s !! cur = Some cth → stat_of cth = RT_THREAD_RUNNING →
  tlist (k_tl s) (HReady p) = to :: rest →
  (∀ q, 0 ≤ q < p → tlist (k_tl s) (HReady q) = []) →
  wp rt_schedule (λ _ s', k_cur s' = Some to ∧
    tlist (k_tl s') (HReady p) = rest ++ [cur]) s.
Proof.
  intros p Hinv Hn Hc Ht Hr Hl Hlow. destruct (rt_schedule_run s cur Hinv Hc) as (c' & Hrun & Hd).
  apply wp_run. eexists _, _. split; [exact Hrun|]. unfold k_cur, k_tl, k_thr in *. cbn.
  pose proof Hinv as (Hw & _ & _). pose proof (sw_prio _ _ Hw cur cth Ht) as Hp.
  assert (NoDup (to :: rest)) as [Hnd _]%NoDup_cons by (rewrite <- Hl; apply Hw).
  assert (cur ∉ rest) as Hcr.
  { intros Hin. apply (running_unlinked _ cur cth Hw Ht Hr (HReady p)). rewrite Hl. set_solver. }
  inversion Hd as [|Hg|cur' cth' p' to' rest' _ Hc' Ht' Hr' Hl' Hlt Hlow'|
    cur' cth' p' to' toh rest' _ Hc' Ht' Hne Hto Hp' Hpr Hl' Hge Hlow']; subst; [done| | |].
  - pose proof (proj2 (sw_group _ _ Hw p Hp)) as Hb. rewrite Hg, Z.bits_0, Hl in Hb.
    exfalso. by discriminate Hb.
  - assert (cth' = cth) as -> by congruence. rewrite Hlow' in Hl by lia. done.
  - assert (cth' = cth) as -> by congruence. assert (cur' = cur) as -> by congruence.
    set (p' := th_current_priority toh) in *. specialize (Hge Hr).
    assert (p' = p) as Hpp.
    { destruct (Z_lt_dec p' p); [rewrite (Hlow p') in Hl' by lia; done|unfold p in *; lia]. }
    rewrite Hpp in *. assert (to' :: rest' = to :: rest) as [= -> ->] by congruence.
    split; [apply switch_sc_cur|]. rewrite switch_sc_ready, decide_True by done. rewrite Hl.
    cbn [app]. rewrite filter_cons_False by naive_solver. apply filter_ne_notin. set_solver.
Qed.

(** [rt_schedule] changes the control block of no thread but the one that
    stops and the one that starts, and touches no timer, object or IPC state. *)
Theorem rt_schedule_frame s cur :
  sched_inv (k_sched s) → k_cur s = Some cur →
  wp rt_schedule (λ _ s',
    (∀ u, u ≠ cur → k_cur s' ≠ Some u → k_thr s' !! u = k_thr s !! u) ∧
    (∀ a, tlist (k_tl s') (HSuspend a) = tlist (k_tl s) (HSuspend a)) ∧
    k_timers s' = k_timers s ∧ k_objects s' = k_objects s ∧ k_ipc s' = k_ipc s) s.
Proof.
  intros Hinv Hc. destruct (rt_schedule_run s cur Hinv Hc) as (c' & Hrun & Hd).
  apply wp_run. eexists _, _. split; [exact Hrun|]. cbn.
  assert (∀ t th, stat_of th ≠ RT_THREAD_SUSPEND → sc_thr (k_sched s) !! t = Some th →
    ∀ a, t ∉ tlist (k_tl s) (HSuspend a)) as Hns.
  { intros t th Hs Ht a (th' & ? & Hok)%(sw_place _ _ (proj1 Hinv)). cbn in Hok. naive_solver. }
  split_and!; [| |done|done|done]; unfold k_cur, k_thr, k_tl in *; cbn.
  - intros u Hu Hcu. inversion Hd; subst; [done|done| |].
    + cbn. rewrite lookup_insert_ne by naive_solver. done.
    + rewrite switch_sc_other; [done| |naive_solver].
      intros ->. apply Hcu. apply switch_sc_cur.
  - intros a. inversion Hd as [| |cur' cth' p' to' rest' _ Hc' Ht' Hr' Hl' Hlt Hlow'|
      cur' cth' p' to' toh rest' _ Hc' Ht' Hne Hto Hp' Hpr Hl' Hge Hlow']; subst; [done|done| |].
    + cbn. rewrite tlist_remove. apply filter_ne_notin. eapply Hns; [|done]. stat_lia.
    + unfold switch_sc. cbn. rewrite tlist_remove.
      assert (stat_of toh = RT_THREAD_READY) as Hrd.
      { destruct (sw_place _ _ (proj1 Hinv) to' (HReady (th_current_priority toh)))
          as (toh' & ? & ? & _); [rewrite Hl'; set_solver|]. naive_solver. }
      case_decide; cbn; rewrite ?tlist_insert, ?decide_False by done;
        (apply filter_ne_notin; eapply Hns; [|done]; stat_lia).
Qed.

(** * Deciding the invariant on concrete states *)

#[export] Instance head_ok_dec h th : Decision (head_ok h th).
Proof. destruct h; cbn; apply _. Defined.
#[export] Instance started_dec th : Decision (started th).
Proof. unfold started. apply _. Defined.

Definition swf_fin (c : sched) : Prop :=
  (0 ≤ sc_group c ∧ sc_group c < 2 ^ 32) ∧
  Forall (λ n, Z.testbit (sc_group c) (Z.of_nat n) =
               negb (bool_decide (tlist (sc_tl c) (HReady (Z.of_nat n)) = []))) (seq 0 32) ∧
  NoDup (concat ((map_to_list (sc_tl c)).*2)) ∧
  Forall (λ hl : thead * list Z,
    Forall (λ t, match sc_thr c !! t with Some th => head_ok hl.1 th | None => False end) hl.2)
    (map_to_list (sc_tl c)) ∧
  Forall (λ x : Z * rt_thread,
    (stat_of x.2 = RT_THREAD_READY → x.1 ∈ tlist (sc_tl c) (HReady (th_current_priority x.2))) ∧
    (0 ≤ th_current_priority x.2 ∧ th_current_priority x.2 < 32) ∧
    (started x.2 → th_number_mask x.2 = 2 ^ th_current_priority x.2) ∧
    (stat_of x.2 = RT_THREAD_RUNNING → sc_cur c = Some x.1)) (map_to_list (sc_thr c)).

#[export] Instance swf_fin_dec c : Decision (swf_fin c).
Proof.
  unfold swf_fin. repeat (apply and_dec || apply Forall_dec || apply _).
  intros [h l]. apply Forall_dec. intros t. cbn. destruct (sc_thr c !! t); apply _.
Defined.

Definition sched_inv_fin (c : sched) : Prop :=
  swf_fin c ∧
  match sc_cur c with
  | Some t => match sc_thr c !! t with
              | Some th => stat_of th ≠ RT_THREAD_READY | None => False end
  | None => True
  end ∧
  Forall (λ x : Z * rt_thread, stack_ok x.2 = true) (map_to_list (sc_thr c)).

#[export] Instance sched_inv_fin_dec c : Decision (sched_inv_fin c).
Proof.
  unfold sched_inv_fin. apply and_dec; [apply _|]. apply and_dec; [|apply _].
  destruct (sc_cur c) as [t|]; [destruct (sc_thr c !! t)|]; apply _.
Defined.

Lemma concat_lists_lookup (w : gmap thead (list Z)) h :
  NoDup (concat ((map_to_list w).*2)) → NoDup (tlist w h).
Proof.
  unfold tlist. destruct (w !! h) as [l|] eqn:E; [|constructor].
  apply elem_of_map_to_list in E. induction (map_to_list w) as [|[h' l'] m IH]; [set_solver|].
  cbn. intros (? & ? & ?)%list.NoDup_app. apply elem_of_cons in E as [[= -> ->]|]; auto.
Qed.

Lemma concat_lists_disj (w : gmap thead (list Z)) t h1 h2 :
  NoDup (concat ((map_to_list w).*2)) → t ∈ tlist w h1 → t ∈ tlist w h2 → h1 = h2.
Proof.
  intros Hnd (l1 & H1 & Ht1)%tlist_lookup (l2 & H2 & Ht2)%tlist_lookup.
  apply elem_of_map_to_list in H1, H2. induction (map_to_list w) as [|[h' l'] m IH]; [set_solver|].
  cbn in Hnd. apply list.NoDup_app in Hnd as (Hn1 & Hd & Hn2).
  assert (∀ h l, (h, l) ∈ m → t ∈ l → t ∈ concat m.*2) as Hin.
  { intros h l Hm Ht. apply list_elem_of_In, in_concat. exists l.
    split; apply list_elem_of_In; [|done]. apply (list_elem_of_fmap_2 snd _ _ Hm). }
  apply elem_of_cons in H1 as [[= -> ->]|H1], H2 as [[= -> ->]|H2]; [done| | |auto].
  - exfalso. apply (Hd t Ht1). eauto.
  - exfalso. apply (Hd t Ht2). eauto.
Qed.

Lemma swf_fin_sound c : swf_fin c → swf ∅ c.
Proof.
  intros (Hr & Hg & Hnd & Hpl & Ht). rewrite Forall_forall in Hg. rewrite Forall_forall in Ht.
  assert (∀ t th, sc_thr c !! t = Some th → (t, th) ∈ map_to_list (sc_thr c)) as Hin
    by (intros; by apply elem_of_map_to_list).
  split; try done.
  - intros p Hp. specialize (Hg (Z.to_nat p)). rewrite elem_of_seq, Z2Nat.id in Hg by lia.
    rewrite Hg by lia. rewrite negb_true_iff, bool_decide_eq_false. done.
  - intros h. by apply concat_lists_lookup.
  - intros t h1 h2. by apply concat_lists_disj.
  - intros t h (l & Hl & Htl)%tlist_lookup. rewrite Forall_forall in Hpl.
    specialize (Hpl (h, l)). rewrite elem_of_map_to_list in Hpl. specialize (Hpl Hl).
    rewrite Forall_forall in Hpl. specialize (Hpl t Htl). cbn in Hpl.
    destruct (sc_thr c !! t); [eauto|done].
  - intros t th Hth _. apply (Ht (t, th)); auto.
  - intros t th Hth. apply (Ht (t, th)); auto.
  - intros t th Hth. apply (Ht (t, th)); auto.
  - intros t th Hth _. apply (Ht (t, th)); auto.
Qed.

Lemma sched_inv_fin_sound c : sched_inv_fin c → sched_inv c.
Proof.
  intros (Hw & Hc & Hs). split_and!; [by apply swf_fin_sound| |].
  - intros t E. rewrite E in Hc. destruct (sc_thr c !! t); [eauto|done].
  - intros t th Ht. rewrite Forall_forall in Hs. apply (Hs (t, th)).
    by apply elem_of_map_to_list.
Qed.

(** * Instances *)

Definition demo_thread (prio stat : Z) : rt_thread :=
  mk_thread 1300 7 0 1024 512 35 0 stat prio prio (2 ^ prio) 0 0 10 10 None 0.

(** Thread 1 runs at priority 10, threads 2 and 3 are ready at 10, thread 4 at 20,
    and thread 5 of priority 5 waits at the object 100. *)
Definition demo_sched : sched :=
  mk_sched
    (<[1 := demo_thread 10 RT_THREAD_RUNNING]> (<[2 := demo_thread 10 RT_THREAD_READY]>
     (<[3 := demo_thread 10 RT_THREAD_READY]> (<[4 := demo_thread 20 RT_THREAD_READY]>
     (<[5 := demo_thread 5 RT_THREAD_SUSPEND]> ∅)))))
    (<[HReady 10 := [2; 3]]> (<[HReady 20 := [4]]> (<[HSuspend 100 := [5]]> ∅)))
    (2 ^ 10 + 2 ^ 20) 0 (Some 1) 10 0.

Definition demo_sched_st : kst :=
  mk_kst demo_sched (mk_timers ∅ [] 0 0) (mk_objects ∅ ∅) (mk_ipcs ∅ ∅ ∅ ∅ ∅).

Lemma demo_sched_inv : sched_inv demo_sched.
Proof. apply sched_inv_fin_sound. refine (bool_decide_eq_true_1 _ _). vm_compute. reflexivity. Qed.

Lemma rt_schedule_picks_highest_witness :
  wp rt_schedule (λ _ s', runs_highest (k_sched s')) demo_sched_st.
Proof.
  eapply wp_mono.
  - eapply (rt_schedule_picks_highest demo_sched_st 1);
      [apply demo_sched_inv|reflexivity|reflexivity|reflexivity|by left].
  - by intros _ s' [_ ?].
Defined.

Lemma demo_empty_below q : 0 ≤ q < 10 → tlist (k_tl demo_sched_st) (HReady q) = [].
Proof.
  intros Hq. unfold tlist, k_tl. cbn.
  rewrite !lookup_insert_ne by (intros [=]; lia). done.
Qed.

Lemma rt_schedule_round_robin_witness :
  wp rt_schedule (λ _ s', k_cur s' = Some 2 ∧ tlist (k_tl s') (HReady 10) = [3; 1]) demo_sched_st.
Proof.
  apply (rt_schedule_round_robin demo_sched_st 1 (demo_thread 10 RT_THREAD_RUNNING) 2 [3]);
    [apply demo_sched_inv|reflexivity|reflexivity|reflexivity|reflexivity|reflexivity|].
  apply demo_empty_below.
Defined.

Lemma rt_schedule_frame_witness :
  wp rt_schedule (λ _ s', tlist (k_tl s') (HSuspend 100) = [5]) demo_sched_st.
Proof.
  eapply wp_mono; [apply (rt_schedule_frame demo_sched_st 1); [apply demo_sched_inv|reflexivity]|].
  intros _ s' (_ & E & _). apply E.
Defined.
