(* ===== verification/Object.v ===== *)
(** Kernel objects, src/object.c: headers, the per-class container lists, lookup
    by name. The routines that allocate ([rt_object_allocate], [rt_object_delete])
    are not modelled here. *)

From Stdlib Require Import ZArith Lia.
From stdpp Require Import base numbers option gmap.
From stdpp Require Import list.
From S2P Require Import Prelude.
From S2P Require Import Kservice.
From S2P Require Import KernelDefs.
From S2P Require Import Scheduler.
Local Open Scope Z_scope.
Local Open Scope rt_scope.

(** The [type] fields of the static array [rt_object_container]. *)
Definition rt_object_container : list Z :=
  [RT_Object_Class_Thread; RT_Object_Class_Semaphore; RT_Object_Class_Mutex;
   RT_Object_Class_Event; RT_Object_Class_MailBox; RT_Object_Class_MessageQueue;
   RT_Object_Class_MemHeap; RT_Object_Class_MemPool; RT_Object_Class_Device;
   RT_Object_Class_Timer].

(** The container of a class, named by its class; [None] is [RT_NULL]. *)
Definition rt_object_get_information (type : Z) : option Z :=
  find (λ t, t =? type) rt_object_container.

(** [rt_list_insert_after(&information->object_list, &object->list)] *)
Definition obj_insert_after (cls : Z) (o : oid) : K unit := λ s,
  let w := ob_list (k_objects s) in
  if tlinked w o then None
  else Some (tt, upd_objects (set_obj_list (<[cls := o :: tlist w cls]> w)) s).

Definition obj_remove (o : oid) : K unit :=
  modify (upd_objects (λ c, set_obj_list (tl_remove_from o (ob_list c)) c)).

(** [rt_object_init] writes type and name; the flag byte keeps what the memory
    holds (0 for fresh static memory). *)
Definition write_header (o : oid) (type : Z) (name : list Z) : K unit :=
  modify (upd_objects (λ c,
    let flag := match ob_obj c !! o with Some x => o_flag x | None => 0 end in
    set_obj (<[o := mk_object (Str.rt_strncpy name RT_NAME_MAX) type flag]> (ob_obj c)) c)).

Definition rt_object_init (o : oid) (type : Z) (name : list Z) : K unit :=
  assert (bool_decide (is_Some (rt_object_get_information type))) ;;
  rt_enter_critical ;;
  l ← gets (λ s, tlist (ob_list (k_objects s)) type);
  assert (bool_decide (o ∉ l)) ;;
  rt_exit_critical ;;
  write_header o (Z.lor type RT_Object_Class_Static) name ;;
  obj_insert_after type o.

Definition rt_object_detach (o : oid) : K unit :=
  mod_object o (with_type 0) ;;
  obj_remove o.

Definition rt_object_is_systemobject (o : oid) : K bool :=
  x ← get_object o; ret (nz (Z.land (o_type x) RT_Object_Class_Static)).

Definition get_type (x : rt_object) : Z :=
  Z.land (o_type x) (Z.lnot RT_Object_Class_Static).

Definition rt_object_get_type (o : oid) : K Z :=
  x ← get_object o; ret (get_type x).

(** [RT_ASSERT(rt_object_get_type(o) == type)] *)
Definition assert_type (o : oid) (type : Z) : K unit :=
  ty ← rt_object_get_type o; assert (ty =? type).

(** The search loop of [rt_object_find] and [rt_thread_find]. *)
Fixpoint find_name (objs : gmap oid rt_object) (name : list Z) (l : list oid) : option (option oid) :=
  match l with
  | [] => Some None
  | o :: l' =>
      match objs !! o with
      | None => None
      | Some x =>
          if Str.rt_strncmp (o_name x) name RT_NAME_MAX =? 0 then Some (Some o)
          else find_name objs name l'
      end
  end.

Definition rt_object_find (name : option (list Z)) (type : Z) : K (option oid) :=
  match name with
  | None => ret None
  | Some name =>
      if RT_Object_Class_Unknown <? type then ret None
      else
        RT_DEBUG_NOT_IN_INTERRUPT ;;
        rt_enter_critical ;;
        assert (bool_decide (is_Some (rt_object_get_information type))) ;;
        objs ← gets k_obj;
        l ← gets (λ s, tlist (ob_list (k_objects s)) type);
        r ← from_opt (find_name objs name l);
        rt_exit_critical ;;
        ret r
  end.
