(* ===== verification/Timer.v ===== *)
(** Timers, src/timer.c, for the configuration of the board: hard timers only,
    RT_TIMER_SKIP_LIST_LEVEL = 1, so the skip list is one list sorted by expiry. *)

From Stdlib Require Import ZArith Lia.
From stdpp Require Import base numbers option gmap.
From stdpp Require Import list sorting.
From S2P Require Import Prelude.
From S2P Require Import Kservice.
From S2P Require Import KernelDefs.
From S2P Require Import Scheduler.
From S2P Require Import Object.
Local Open Scope Z_scope.
Local Open Scope rt_scope.

Definition HALF : Z := RT_TICK_MAX / 2.

Definition rt_tick_get : K Z := gets k_tick.

Definition flag_set (m : Z) (x : rt_object) : rt_object := with_flag (Z.lor (o_flag x) m) x.
Definition flag_clear (m : Z) (x : rt_object) : rt_object :=
  with_flag (Z.land (o_flag x) (u8 (Z.lnot m))) x.
Definition has_flag (m : Z) (x : rt_object) : bool := nz (Z.land (o_flag x) m).

(** [rt_list_init] of the timer's row node; on a linked node it would break the
    timer list. *)
Definition row_init (o : oid) : K unit :=
  l ← gets k_rows; assert (bool_decide (o ∉ l)).

Definition _rt_timer_init (o : oid) (timeout : timeout_fn) (time flag : Z) : K unit :=
  mod_object o (with_flag flag) ;;
  mod_object o (flag_clear RT_TIMER_FLAG_ACTIVATED) ;;
  modify (upd_timers (λ c, set_tim (<[o := mk_timer timeout time 0]> (tms_tim c)) c)) ;;
  row_init o.

Definition rt_timer_list_next_timeout : K Z :=
  l ← gets k_rows;
  match l with
  | [] => ret RT_TICK_MAX
  | o :: _ => tm ← get_timer o; ret (tm_timeout_tick tm)
  end.

Definition rt_timer_next_timeout_tick : K Z := rt_timer_list_next_timeout.

Definition _rt_timer_remove (o : oid) : K unit :=
  modify (upd_timers (λ c, set_rows (filter (λ x, x ≠ o) (tms_rows c)) c)).

Definition rt_timer_init (o : oid) (name : list Z) (timeout : timeout_fn) (time flag : Z) : K unit :=
  rt_object_init o RT_Object_Class_Timer name ;;
  _rt_timer_init o timeout time flag.

Definition rt_timer_detach (o : oid) : K Z :=
  assert_type o RT_Object_Class_Timer ;;
  b ← rt_object_is_systemobject o; assert b ;;
  _rt_timer_remove o ;;
  rt_object_detach o ;;
  ret RT_EOK.

(** The search for the insertion point and [rt_list_insert_after]: the walk stops
    in front of the first timer that expires strictly later. *)
Fixpoint row_insert (tim : gmap oid rt_timer) (timeout : Z) (o : oid) (l : list oid)
  : option (list oid) :=
  match l with
  | [] => Some [o]
  | p :: l' =>
      match tim !! p with
      | None => None
      | Some t =>
          let d := u32 (tm_timeout_tick t - timeout) in
          if d =? 0 then r ← row_insert tim timeout o l'; Some (p :: r)
          else if d <? HALF then Some (o :: p :: l')
          else r ← row_insert tim timeout o l'; Some (p :: r)
      end
  end%stdpp.

Definition rt_timer_start (o : oid) : K Z :=
  assert_type o RT_Object_Class_Timer ;;
  _rt_timer_remove o ;;
  mod_object o (flag_clear RT_TIMER_FLAG_ACTIVATED) ;;
  tm ← get_timer o;
  assert (tm_init_tick tm <? HALF) ;;
  now ← rt_tick_get;
  let timeout := u32 (now + tm_init_tick tm) in
  mod_timer o (with_timeout_tick timeout) ;;
  tim ← gets k_tim;
  l ← gets k_rows;
  modify (upd_timers (λ c, set_random_nr (u32 (tms_random_nr c + 1)) c)) ;;
  l' ← from_opt (row_insert tim timeout o l);
  modify (upd_timers (set_rows l')) ;;
  mod_object o (flag_set RT_TIMER_FLAG_ACTIVATED) ;;
  ret RT_EOK.

Definition rt_timer_stop (o : oid) : K Z :=
  assert_type o RT_Object_Class_Timer ;;
  x ← get_object o;
  if negb (has_flag RT_TIMER_FLAG_ACTIVATED x) then ret (- RT_ERROR)
  else
    _rt_timer_remove o ;;
    mod_object o (flag_clear RT_TIMER_FLAG_ACTIVATED) ;;
    ret RT_EOK.

(** [arg] is the value behind the pointer; [Some v] is the value written back. *)
Definition rt_timer_control (o : oid) (cmd arg : Z) : K (Z * option Z) :=
  assert_type o RT_Object_Class_Timer ;;
  if cmd =? RT_TIMER_CTRL_GET_TIME then
    tm ← get_timer o; ret (RT_EOK, Some (tm_init_tick tm))
  else if cmd =? RT_TIMER_CTRL_SET_TIME then
    mod_timer o (with_init_tick (u32 arg)) ;; ret (RT_EOK, None)
  else if cmd =? RT_TIMER_CTRL_SET_ONESHOT then
    mod_object o (flag_clear RT_TIMER_FLAG_PERIODIC) ;; ret (RT_EOK, None)
  else if cmd =? RT_TIMER_CTRL_SET_PERIODIC then
    mod_object o (flag_set RT_TIMER_FLAG_PERIODIC) ;; ret (RT_EOK, None)
  else ret (RT_EOK, None).

Section check.
(** The effect of calling a timer's [timeout_func]. *)
Variable call : timeout_fn → K unit.

(** One expired timer: unlink, call back, restart a periodic timer. *)
Definition timer_fire (o : oid) : K unit :=
  tm ← get_timer o;
  _rt_timer_remove o ;;
  call (tm_timeout_func tm) ;;
  x ← get_object o;
  if has_flag RT_TIMER_FLAG_PERIODIC x && has_flag RT_TIMER_FLAG_ACTIVATED x then
    mod_object o (flag_clear RT_TIMER_FLAG_ACTIVATED) ;;
    rt_timer_start o ;; ret tt
  else mod_object o (flag_clear RT_TIMER_FLAG_ACTIVATED).

(** The loop of [rt_timer_check]; it runs out of [fuel] only if it does not end. *)
Fixpoint timer_check_loop (fuel : nat) (current_tick : Z) : K unit :=
  match fuel with
  | O => λ _, None
  | S fuel =>
      l ← gets k_rows;
      match l with
      | [] => ret tt
      | o :: _ =>
          tm ← get_timer o;
          if u32 (current_tick - tm_timeout_tick tm) <? HALF then
            timer_fire o ;;
            now ← rt_tick_get;
            timer_check_loop fuel now
          else ret tt
      end
  end.

Definition rt_timer_check (fuel : nat) : K unit :=
  now ← rt_tick_get; timer_check_loop fuel now.

End check.

Definition rt_system_timer_init : K unit := modify (upd_timers (set_rows [])).

(** * Expiry order *)

(** Ticks from now to the expiry of a timer, negative when it is overdue. *)
Definition off (T : timers) (o : oid) : Z :=
  match tms_tim T !! o with
  | Some tm => i32 (tm_timeout_tick tm - tms_tick T)
  | None => 0
  end.

Lemma i32_cases z : ∃ q, i32 z = z - q * 2 ^ 32 ∧ - 2 ^ 31 ≤ i32 z < 2 ^ 31.
Proof.
  unfold swrap, wrap. change (2 ^ 32) with 4294967296. change (2 ^ 31) with 2147483648.
  change (2 ^ (32 - 1)) with 2147483648.
  pose proof (Z.div_mod z 4294967296). pose proof (Z.mod_pos_bound z 4294967296).
  destruct (Z.ltb_spec (z mod 4294967296) 2147483648).
  - exists (z / 4294967296). lia.
  - exists (z / 4294967296 + 1). lia.
Qed.

Lemma u32_cases z : ∃ q, u32 z = z - q * 2 ^ 32 ∧ 0 ≤ u32 z < 2 ^ 32.
Proof.
  unfold wrap. change (2 ^ 32) with 4294967296.
  pose proof (Z.div_mod z 4294967296). pose proof (Z.mod_pos_bound z 4294967296).
  exists (z / 4294967296). lia.
Qed.

(** Modular reasoning on 32-bit tick values: name the quotients, then [lia]. *)
Ltac tick_lia :=
  repeat match goal with
  | |- context [swrap 32 ?z] => pose proof (i32_cases z); generalize dependent (swrap 32 z); intros
  | H : context [swrap 32 ?z] |- _ => pose proof (i32_cases z); generalize dependent (swrap 32 z); intros
  | |- context [wrap 32 ?z] => pose proof (u32_cases z); generalize dependent (wrap 32 z); intros
  | H : context [wrap 32 ?z] |- _ => pose proof (u32_cases z); generalize dependent (wrap 32 z); intros
  end;
  repeat match goal with H : ∃ _, _ |- _ => destruct H end;
  unfold HALF, RT_TICK_MAX in *; change (0xffffffff / 2) with 2147483647 in *;
  change (2 ^ 32) with 4294967296 in *; change (2 ^ 31) with 2147483648 in *; lia.

Lemma off_start now d : 0 ≤ d < HALF → i32 (u32 (now + d) - now) = d.
Proof. intros. tick_lia. Qed.

(** The comparison in the insertion loop, for offsets at most half the range apart. *)
Lemma off_later now a d :
  -1 ≤ i32 (a - now) < HALF → 0 ≤ d < HALF →
  (if u32 (a - u32 (now + d)) =? 0 then false else u32 (a - u32 (now + d)) <? HALF)
  = (d <? i32 (a - now)).
Proof.
  intros Ha Hd. destruct (Z.eqb_spec (u32 (a - u32 (now + d))) 0).
  - symmetry. apply Z.ltb_ge. tick_lia.
  - destruct (Z.ltb_spec (u32 (a - u32 (now + d))) HALF), (Z.ltb_spec d (i32 (a - now)));
      [done|exfalso; tick_lia|exfalso; tick_lia|done].
Qed.

(** The expiry test of [rt_timer_check]. *)
Lemma off_expired now a :
  -1 ≤ i32 (a - now) < HALF → (u32 (now - a) <? HALF) = (i32 (a - now) <=? 0).
Proof.
  intros Ha. destruct (Z.ltb_spec (u32 (now - a)) HALF), (Z.leb_spec (i32 (a - now)) 0);
    [done|exfalso; tick_lia|exfalso; tick_lia|done].
Qed.

(** ** Flags *)

Lemma has_set_activated x : has_flag RT_TIMER_FLAG_ACTIVATED (flag_set RT_TIMER_FLAG_ACTIVATED x) = true.
Proof.
  unfold has_flag, flag_set, RT_TIMER_FLAG_ACTIVATED. cbn. apply nz_true.
  rewrite Z.land_lor_distr_l. intros [_ ?]%Z.lor_eq_0_iff. done.
Qed.

Lemma has_clear_activated x :
  has_flag RT_TIMER_FLAG_ACTIVATED (flag_clear RT_TIMER_FLAG_ACTIVATED x) = false.
Proof.
  unfold has_flag, flag_clear. cbn. apply nz_false. rewrite <- Z.land_assoc.
  by rewrite Z.land_0_r.
Qed.

Lemma has_periodic_set x :
  has_flag RT_TIMER_FLAG_PERIODIC (flag_set RT_TIMER_FLAG_ACTIVATED x) =
  has_flag RT_TIMER_FLAG_PERIODIC x.
Proof.
  unfold has_flag, flag_set. cbn. f_equal. rewrite Z.land_lor_distr_l. by rewrite Z.lor_0_r.
Qed.

Lemma has_periodic_clear x :
  has_flag RT_TIMER_FLAG_PERIODIC (flag_clear RT_TIMER_FLAG_ACTIVATED x) =
  has_flag RT_TIMER_FLAG_PERIODIC x.
Proof. unfold has_flag, flag_clear. cbn. by rewrite <- Z.land_assoc. Qed.

#[export] Hint Rewrite has_set_activated has_clear_activated has_periodic_set has_periodic_clear : rt.

(** * Well-formed timer lists *)

Definition is_timer (O : objects) (o : oid) (x : rt_object) : Prop :=
  ob_obj O !! o = Some x ∧ get_type x = RT_Object_Class_Timer.

(** The list holds exactly the activated timers, once each, sorted by expiry;
    an expiry is less than half the tick range away and not overdue, or at most one
    tick when the clock has advanced and the expired timers are still to be fired
    ([late]). *)
Definition lowest (late : bool) : Z := if late then -1 else 0.

Record twf (late : bool) (T : timers) (O : objects) : Prop := {
  tw_nodup : NoDup (tms_rows T);
  tw_rows : ∀ o, o ∈ tms_rows T → is_Some (tms_tim T !! o) ∧
    ∃ x, is_timer O o x ∧ has_flag RT_TIMER_FLAG_ACTIVATED x = true;
  tw_act : ∀ o x, is_timer O o x → has_flag RT_TIMER_FLAG_ACTIVATED x = true → o ∈ tms_rows T;
  tw_sorted : StronglySorted (λ a b, off T a ≤ off T b) (tms_rows T);
  tw_range : ∀ o, o ∈ tms_rows T → lowest late ≤ off T o < HALF
}.
Arguments tw_nodup {late} T O _.
Arguments tw_rows {late} T O _.
Arguments tw_act {late} T O _.
Arguments tw_sorted {late} T O _.
Arguments tw_range {late} T O _.

Lemma lowest_range late : -1 ≤ lowest late ≤ 0.
Proof. destruct late; cbn; lia. Qed.

Lemma StronglySorted_mid {A} (R : A → A → Prop) l1 x l2 :
  StronglySorted R (l1 ++ l2) → (∀ y, y ∈ l1 → R y x) → (∀ y, y ∈ l2 → R x y) →
  StronglySorted R (l1 ++ x :: l2).
Proof.
  intros Hs H1 H2. induction l1 as [|y l1 IH]; cbn in *.
  - constructor; [done|]. by apply Forall_forall.
  - apply StronglySorted_inv in Hs as [Hs Hf]. constructor.
    + apply IH; [done|set_solver].
    + rewrite !Forall_app, Forall_cons in *. destruct Hf. split_and!; [done| |done].
      apply H1. set_solver.
Qed.

Lemma StronglySorted_filter {A} (R : A → A → Prop) (P : A → Prop) `{∀ x, Decision (P x)} l :
  StronglySorted R l → StronglySorted R (filter P l).
Proof.
  induction 1 as [|x l Hs IH Hf]; [constructor|]. rewrite filter_cons. case_decide; [|done].
  constructor; [done|]. rewrite Forall_forall in *. intros y [? ?]%list_elem_of_filter. auto.
Qed.

Lemma StronglySorted_ext {A} (R R' : A → A → Prop) l :
  (∀ a b, a ∈ l → b ∈ l → R a b → R' a b) → StronglySorted R l → StronglySorted R' l.
Proof.
  intros HR Hs. induction Hs as [|x l Hs IH Hf]; [constructor|]. constructor.
  - apply IH. set_solver.
  - rewrite Forall_forall in *. intros y Hy. apply HR; set_solver.
Qed.

Lemma row_insert_spec T d o l :
  0 ≤ d < HALF → (∀ p, p ∈ l → is_Some (tms_tim T !! p) ∧ -1 ≤ off T p < HALF) →
  StronglySorted (λ a b, off T a ≤ off T b) l →
  ∃ l1 l2, l = l1 ++ l2 ∧ row_insert (tms_tim T) (u32 (tms_tick T + d)) o l = Some (l1 ++ o :: l2) ∧
    (∀ p, p ∈ l1 → off T p ≤ d) ∧ (∀ p, p ∈ l2 → d < off T p).
Proof.
  intros Hd. induction l as [|p l IH]; intros Hl Hs.
  { exists [], []. cbn. set_solver. }
  apply StronglySorted_inv in Hs as [Hs Hf]. rewrite Forall_forall in Hf.
  destruct (Hl p) as [[t Ht] Hr]; [set_solver|].
  assert (off T p = i32 (tm_timeout_tick t - tms_tick T)) as Hp by (unfold off; by rewrite Ht).
  pose proof (off_later (tms_tick T) (tm_timeout_tick t) d ltac:(lia) Hd) as Hc. rewrite <- Hp in Hc.
  cbn [row_insert]. rewrite Ht. cbn zeta.
  destruct (Z.ltb_spec d (off T p)).
  - exists [], (p :: l). cbn. destruct (_ =? 0); [done|]. rewrite Hc. split_and!; [done|done|set_solver|].
    intros q [->|Hq]%elem_of_cons; [done|]. specialize (Hf q Hq). cbn in Hf. lia.
  - destruct IH as (l1 & l2 & -> & Hi & H1 & H2); [set_solver|done|].
    exists (p :: l1), l2. rewrite Hi. cbn.
    split_and!; [done|by destruct (_ =? 0); [|rewrite Hc]|set_solver|done].
Qed.

(** * The effect of starting and stopping *)

Definition put_obj (o : oid) (x : rt_object) (O : objects) : objects :=
  set_obj (<[o := x]> (ob_obj O)) O.

Definition stop_rows (o : oid) (T : timers) : timers :=
  set_rows (filter (λ p, p ≠ o) (tms_rows T)) T.

(** Activates [o] between [l1] and [l2]. *)
Definition start_rows (o : oid) (tm : rt_timer) (l1 l2 : list oid) (T : timers) : timers :=
  mk_timers (<[o := with_timeout_tick (u32 (tms_tick T + tm_init_tick tm)) tm]> (tms_tim T))
    (l1 ++ o :: l2) (tms_tick T) (u32 (tms_random_nr T + 1)).

Definition stopped (x : rt_object) : rt_object := flag_clear RT_TIMER_FLAG_ACTIVATED x.
Definition restarted (x : rt_object) : rt_object :=
  flag_set RT_TIMER_FLAG_ACTIVATED (flag_clear RT_TIMER_FLAG_ACTIVATED x).

Lemma get_type_flag x f : get_type (with_flag f x) = get_type x.
Proof. done. Qed.

Lemma twf_stop late T O o x :
  twf late T O → is_timer O o x → twf late (stop_rows o T) (put_obj o (stopped x) O).
Proof.
  intros [] [Hx Hty]. split; cbn.
  - by apply NoDup_filter.
  - intros p [Hne Hp]%list_elem_of_filter. destruct (tw_rows0 p Hp) as (? & y & [? ?] & ?).
    split; [done|]. exists y. split; [|done]. split; [|done]. by cbn; rewrite lookup_insert_ne.
  - intros p y [Hy Hty'] Ha. apply list_elem_of_filter. cbn in Hy. rewrite lookup_insert in Hy.
    case_decide; [|split; [done|by apply (tw_act0 p y)]].
    injection Hy as <-. unfold stopped in Ha. by rewrite has_clear_activated in Ha.
  - by apply StronglySorted_filter.
  - intros p [? ?]%list_elem_of_filter. by apply tw_range0.
Qed.

Lemma twf_start late T O o x tm l1 l2 :
  twf late T O → is_timer O o x → tms_tim T !! o = Some tm → 0 ≤ tm_init_tick tm < HALF →
  filter (λ p, p ≠ o) (tms_rows T) = l1 ++ l2 →
  (∀ p, p ∈ l1 → off T p ≤ tm_init_tick tm) → (∀ p, p ∈ l2 → tm_init_tick tm < off T p) →
  twf late (start_rows o tm l1 l2 T) (put_obj o (restarted x) O).
Proof.
  intros [] [Hx Hty] Htm Hi Hf H1 H2. set (T' := start_rows o tm l1 l2 T).
  assert (off T' o = tm_init_tick tm) as Ho.
  { unfold T', off. cbn. rewrite lookup_insert_eq. cbn. by apply off_start. }
  assert (∀ p, p ≠ o → off T' p = off T p) as Hoff.
  { intros p Hp. unfold T', off. cbn. by rewrite lookup_insert_ne. }
  assert (∀ p, p ∈ l1 ++ l2 → p ≠ o ∧ p ∈ tms_rows T) as Hin
    by (intros p; rewrite <- Hf, list_elem_of_filter; done).
  assert (NoDup (l1 ++ l2)) as Hnd by (rewrite <- Hf; by apply NoDup_filter).
  split; cbn -[off].
  - apply list.NoDup_app. apply list.NoDup_app in Hnd as (? & ? & ?).
    split_and!; [done| |constructor]; [|set_solver|done].
    intros p Hp [->|?]%elem_of_cons; set_solver.
  - intros p Hp. destruct (decide (p = o)) as [->|Hne].
    + rewrite lookup_insert_eq. split; [eauto|]. exists (restarted x).
      split; [split; cbn; [by rewrite lookup_insert_eq|done]|]. apply has_set_activated.
    + destruct (tw_rows0 p) as (? & y & [? ?] & ?); [set_solver|].
      rewrite lookup_insert_ne by done. split; [done|]. exists y.
      split; [|done]. split; [|done]. by cbn; rewrite lookup_insert_ne.
  - intros p y [Hy Hty'] Ha. destruct (decide (p = o)) as [->|Hne]; [set_solver|].
    cbn in Hy. rewrite lookup_insert_ne in Hy by done.
    assert (p ∈ l1 ++ l2); [|set_solver]. rewrite <- Hf, list_elem_of_filter.
    split; [done|]. by apply (tw_act0 p y).
  - apply StronglySorted_mid.
    + eapply StronglySorted_ext; [|rewrite <- Hf; apply StronglySorted_filter, tw_sorted0].
      intros a b Ha Hb. cbn. rewrite !Hoff; [done|set_solver|set_solver].
    + intros p Hp. rewrite Ho, Hoff; [auto|]. apply Hin. set_solver.
    + intros p Hp. rewrite Ho, Hoff; [|apply Hin; set_solver]. specialize (H2 p Hp). lia.
  - intros p Hp. destruct (decide (p = o)) as [->|Hne]; [rewrite Ho; pose proof (lowest_range late); lia|].
    rewrite Hoff by done. apply tw_range0. set_solver.
Qed.

Lemma assert_type_run s o x ty :
  k_obj s !! o = Some x → get_type x = ty → assert_type o ty s = Some (tt, s).
Proof.
  intros Hx Hty. unfold assert_type, rt_object_get_type, bind, get_object. rewrite Hx. cbn.
  rewrite Hty, Z.eqb_refl. done.
Qed.

Lemma mod_object_run s o x f :
  k_obj s !! o = Some x → mod_object o f s = Some (tt, upd_objects (put_obj o (f x)) s).
Proof. intros Hx. unfold mod_object. by rewrite Hx. Qed.

Lemma upd_objects_twice o x y s :
  upd_objects (put_obj o y) (upd_objects (put_obj o x) s) = upd_objects (put_obj o y) s.
Proof. unfold upd_objects, put_obj, set_obj. cbn. by rewrite insert_insert_eq. Qed.

(** The walk only looks at the timers in the list: [O'] need not be the headers of [s]. *)
Lemma timer_start_run late s O' o x tm :
  twf late (k_timers s) O' → is_timer (k_objects s) o x →
  k_tim s !! o = Some tm → 0 ≤ tm_init_tick tm < HALF →
  ∃ l1 l2, filter (λ p, p ≠ o) (k_rows s) = l1 ++ l2 ∧
    (∀ p, p ∈ l1 → off (k_timers s) p ≤ tm_init_tick tm) ∧
    (∀ p, p ∈ l2 → tm_init_tick tm < off (k_timers s) p) ∧
    rt_timer_start o s = Some (RT_EOK,
      mk_kst (k_sched s) (start_rows o tm l1 l2 (k_timers s))
        (put_obj o (restarted x) (k_objects s)) (k_ipc s)).
Proof.
  intros [] [Hx Hty] Htm Hi. set (now := k_tick s).
  set (T1 := set_tim (<[o := with_timeout_tick (u32 (now + tm_init_tick tm)) tm]> (k_tim s))
               (stop_rows o (k_timers s))).
  assert (∀ p, p ≠ o → off T1 p = off (k_timers s) p) as Hoff.
  { intros p Hp. unfold off, T1. cbn. by rewrite lookup_insert_ne. }
  destruct (row_insert_spec T1 (tm_init_tick tm) o (filter (λ p, p ≠ o) (k_rows s)))
    as (l1 & l2 & Hf & Hrun & H1 & H2); [done| | |].
  - intros p [Hne Hp]%list_elem_of_filter. rewrite Hoff by done. split; [|pose proof (lowest_range late); specialize (tw_range0 p Hp); lia].
    cbn. rewrite lookup_insert_ne by done. by apply tw_rows0.
  - apply (StronglySorted_ext (λ a b, off (k_timers s) a ≤ off (k_timers s) b));
      [|by apply StronglySorted_filter].
    intros a b [Ha _]%list_elem_of_filter [Hb _]%list_elem_of_filter. by rewrite !Hoff.
  - assert (∀ p, p ∈ l1 ++ l2 → p ≠ o) as Hne
      by (intros p; rewrite <- Hf, list_elem_of_filter; naive_solver).
    exists l1, l2. split_and!; [done| | |].
    + intros p Hp. rewrite <- Hoff; [auto|apply Hne; set_solver].
    + intros p Hp. rewrite <- Hoff; [auto|apply Hne; set_solver].
    + unfold rt_timer_start, bind. rewrite (assert_type_run s o x) by done.
      cbn -[row_insert]. rewrite (mod_object_run _ o x) by done. unfold get_timer. cbn -[row_insert].
      unfold k_tim in *. cbn -[row_insert]. rewrite Htm. unfold assert.
      rewrite (proj2 (Z.ltb_lt _ _)) by lia. cbn -[row_insert].
      unfold mod_timer, k_tim. cbn -[row_insert]. rewrite Htm. cbn -[row_insert].
      unfold T1 in Hrun. cbn in Hrun. unfold now, k_tick in *. cbn -[row_insert].
      unfold k_rows in *. cbn -[row_insert] in *. rewrite Hrun. cbn.
      rewrite (mod_object_run _ o (flag_clear RT_TIMER_FLAG_ACTIVATED x));
        [|unfold k_obj; cbn; by rewrite lookup_insert_eq].
      unfold upd_objects, put_obj, set_obj. cbn. by rewrite insert_insert_eq.
Qed.

Lemma timer_stop_run s o x :
  is_timer (k_objects s) o x → has_flag RT_TIMER_FLAG_ACTIVATED x = true →
  rt_timer_stop o s = Some (RT_EOK,
    mk_kst (k_sched s) (stop_rows o (k_timers s)) (put_obj o (stopped x) (k_objects s)) (k_ipc s)).
Proof.
  intros [Hx Hty] Ha. unfold rt_timer_stop, bind. rewrite (assert_type_run s o x) by done.
  unfold get_object, k_obj. rewrite Hx, Ha. cbn.
  by rewrite (mod_object_run _ o x).
Qed.

Lemma timer_stop_inactive_run s o x :
  is_timer (k_objects s) o x → has_flag RT_TIMER_FLAG_ACTIVATED x = false →
  rt_timer_stop o s = Some (- RT_ERROR, s).
Proof.
  intros [Hx Hty] Ha. unfold rt_timer_stop, bind. rewrite (assert_type_run s o x) by done.
  unfold get_object, k_obj. by rewrite Hx, Ha.
Qed.

(** * Checking for expired timers *)

(** All the timer state that concerns [o]. *)
Definition tview (T : timers) (O : objects) (o : oid)
  : bool * option rt_timer * option rt_object :=
  (bool_decide (o ∈ tms_rows T), tms_tim T !! o, ob_obj O !! o).

(** Reference: what one pass of [rt_timer_check] does to timer [o]. *)
Definition after_check (T : timers) (O : objects) (o : oid)
  : bool * option rt_timer * option rt_object :=
  if decide (o ∈ tms_rows T ∧ off T o ≤ 0) then
    match tms_tim T !! o, ob_obj O !! o with
    | Some tm, Some x =>
        if has_flag RT_TIMER_FLAG_PERIODIC x then
          (true, Some (with_timeout_tick (u32 (tms_tick T + tm_init_tick tm)) tm),
           Some (restarted (stopped x)))
        else (false, Some tm, Some (stopped x))
    | tm, x => (true, tm, x)
    end
  else tview T O o.

Definition expired (T : timers) : list oid := filter (λ o, off T o ≤ 0) (tms_rows T).

(** The timers of [l] fire one after the other. *)
Fixpoint fire_all (call : timeout_fn → K unit) (l : list oid) : K unit :=
  match l with [] => ret tt | o :: l => timer_fire call o ;; fire_all call l end.

Lemma stop_rows_head (T : timers) o rest :
  NoDup (o :: rest) → tms_rows T = o :: rest → tms_rows (stop_rows o T) = rest.
Proof.
  intros [Hn _]%NoDup_cons Hr. cbn. rewrite Hr, filter_cons_False by naive_solver.
  by apply filter_ne_notin.
Qed.

Lemma is_timer_put O o x y :
  get_type x = RT_Object_Class_Timer → get_type y = get_type x → is_timer (put_obj o y O) o y.
Proof. intros Hx Hy. split; [cbn; by rewrite lookup_insert_eq|congruence]. Qed.

Lemma off_start_rows T o tm l1 l2 p :
  0 ≤ tm_init_tick tm < HALF →
  off (start_rows o tm l1 l2 T) p = if decide (p = o) then tm_init_tick tm else off T p.
Proof.
  intros Hi. unfold off, start_rows. cbn. case_decide as Hd.
  - subst. rewrite lookup_insert_eq. by apply off_start.
  - by rewrite lookup_insert_ne by done.
Qed.

Lemma filter_ext_in {A} (P Q : A → Prop) `{∀ x, Decision (P x)} `{∀ x, Decision (Q x)} (l : list A) :
  (∀ x, x ∈ l → P x ↔ Q x) → filter P l = filter Q l.
Proof.
  induction l as [|x l IH]; [done|]. intros HPQ. rewrite !filter_cons, IH by set_solver.
  pose proof (HPQ x ltac:(set_solver)). repeat case_decide; tauto.
Qed.

Lemma expired_start T o tm l1 l2 :
  1 ≤ tm_init_tick tm < HALF → o ∉ l1 ++ l2 →
  expired (start_rows o tm l1 l2 T) = filter (λ p, off T p ≤ 0) (l1 ++ l2).
Proof.
  intros Hi Hn. unfold expired. cbn -[off]. rewrite !filter_app, filter_cons_False.
  2:{ rewrite off_start_rows, decide_True; [lia|done|lia]. }
  f_equal; apply filter_ext_in; intros p Hp; rewrite off_start_rows by lia;
    (rewrite decide_False; [done|set_solver]).
Qed.

(** A timer whose state is untouched has the same fate. *)
Lemma after_check_same T O T' O' p :
  tview T' O' p = tview T O p → tms_tick T' = tms_tick T →
  after_check T' O' p = after_check T O p.
Proof.
  unfold after_check, tview. intros [= Hr Ht Ho] Hn.
  assert (off T' p = off T p) as Hoff by (unfold off; by rewrite Ht, Hn).
  assert (p ∈ tms_rows T' ↔ p ∈ tms_rows T) as Hin
    by (by rewrite <- (bool_decide_eq_true (p ∈ tms_rows T')), Hr, bool_decide_eq_true).
  rewrite Ht, Ho, Hn, Hr, Hoff. repeat case_decide; tauto.
Qed.

Lemma after_check_done T O p :
  (p ∈ tms_rows T → 0 < off T p) → after_check T O p = tview T O p.
Proof. intros Hp. unfold after_check. rewrite decide_False; [done|]. intros [? ?]. specialize (Hp H). lia. Qed.

Lemma check_loop_S call fuel now s :
  timer_check_loop call (S fuel) now s =
  match k_rows s with
  | [] => Some (tt, s)
  | o :: _ =>
      match k_tim s !! o with
      | None => None
      | Some tm =>
          if u32 (now - tm_timeout_tick tm) <? HALF then
            match timer_fire call o s with
            | Some (_, s1) => timer_check_loop call fuel (k_tick s1) s1
            | None => None
            end
          else Some (tt, s)
      end
  end.
Proof.
  cbn [timer_check_loop]. unfold bind at 1, gets at 1. destruct (k_rows s) as [|o rest]; [done|].
  unfold bind at 1, get_timer. destruct (k_tim s !! o); [|done]. by destruct (_ <? _).
Qed.

(** * Deciding the invariant on concrete states *)

Definition twf_fin (late : bool) (T : timers) (O : objects) : Prop :=
  NoDup (tms_rows T) ∧
  Forall (λ o, is_Some (tms_tim T !! o) ∧
    match ob_obj O !! o with
    | Some x => get_type x = RT_Object_Class_Timer ∧ has_flag RT_TIMER_FLAG_ACTIVATED x = true
    | None => False end) (tms_rows T) ∧
  Forall (λ ox : oid * rt_object, get_type ox.2 = RT_Object_Class_Timer →
    has_flag RT_TIMER_FLAG_ACTIVATED ox.2 = true → ox.1 ∈ tms_rows T) (map_to_list (ob_obj O)) ∧
  StronglySorted (λ a b, off T a ≤ off T b) (tms_rows T) ∧
  Forall (λ o, lowest late ≤ off T o ∧ off T o < HALF) (tms_rows T).

#[export] Instance twf_fin_dec late T O : Decision (twf_fin late T O).
Proof.
  unfold twf_fin. repeat (apply and_dec || apply Forall_dec || apply _).
  intros o. apply and_dec; [apply _|]. destruct (ob_obj O !! o); apply _.
Defined.

Lemma twf_fin_sound late T O : twf_fin late T O → twf late T O.
Proof.
  intros (Hn & Hr & Ha & Hs & Hg). rewrite Forall_forall in Hr. rewrite Forall_forall in Ha.
  rewrite Forall_forall in Hg. split; try done.
  - intros o Ho. destruct (Hr o Ho) as [? Hx]. split; [done|].
    destruct (ob_obj O !! o) as [x|] eqn:E; [|done]. exists x. unfold is_timer. naive_solver.
  - intros o x [Hx Hty] Hact. apply (Ha (o, x)); [by apply elem_of_map_to_list|done|done].
Qed.

(** * Properties *)

(** C6: [rt_timer_start] activates the timer to expire [init_tick] ticks from now,
    behind the timers that expire no later and in front of those that expire later,
    keeps the others in order, and keeps the timer list well formed; a timer that
    was already active is moved. *)
Theorem rt_timer_start_spec late s o x tm :
  twf late (k_timers s) (k_objects s) → is_timer (k_objects s) o x →
  k_tim s !! o = Some tm → 0 ≤ tm_init_tick tm < HALF →
  wp (rt_timer_start o) (λ r s', r = RT_EOK ∧ twf late (k_timers s') (k_objects s') ∧
    off (k_timers s') o = tm_init_tick tm ∧
    (∃ y, is_timer (k_objects s') o y ∧ has_flag RT_TIMER_FLAG_ACTIVATED y = true) ∧
    ∃ l1 l2, filter (λ p, p ≠ o) (k_rows s) = l1 ++ l2 ∧ k_rows s' = l1 ++ o :: l2 ∧
      (∀ p, p ∈ l1 → off (k_timers s) p ≤ tm_init_tick tm) ∧
      (∀ p, p ∈ l2 → tm_init_tick tm < off (k_timers s) p)) s.
Proof.
  intros Hw Hx Htm Hi. destruct (timer_start_run late s _ o x tm Hw Hx Htm Hi)
    as (l1 & l2 & Hf & H1 & H2 & Hrun).
  apply wp_run. eexists _, _. split; [exact Hrun|]. cbn -[off]. split_and!; [done| | | |].
  - by eapply twf_start.
  - by rewrite off_start_rows, decide_True by done.
  - exists (restarted x). split; [|apply has_set_activated].
    by apply (is_timer_put _ o x); [apply Hx|].
  - eauto 10.
Qed.

(** [rt_timer_stop] on an active timer takes it, and only it, out of the list
    and marks it stopped; on an inactive timer it reports [-RT_ERROR] and changes
    nothing. *)
Theorem rt_timer_stop_spec late s o x :
  twf late (k_timers s) (k_objects s) → is_timer (k_objects s) o x →
  wp (rt_timer_stop o) (λ r s', twf late (k_timers s') (k_objects s') ∧ o ∉ k_rows s' ∧
    (o ∈ k_rows s → r = RT_EOK ∧ k_rows s' = filter (λ p, p ≠ o) (k_rows s)) ∧
    (o ∉ k_rows s → r = - RT_ERROR ∧ s' = s)) s.
Proof.
  intros Hw Hx. apply wp_run. destruct (has_flag RT_TIMER_FLAG_ACTIVATED x) eqn:Ha.
  - eexists _, _. split; [by apply (timer_stop_run s o x)|]. cbn.
    assert (o ∈ k_rows s) as Hin by by apply (tw_act _ _ Hw o x).
    split_and!; [by apply twf_stop| |done|done].
    unfold k_rows. cbn. rewrite list_elem_of_filter. naive_solver.
  - eexists _, _. split; [by apply (timer_stop_inactive_run s o x)|].
    assert (o ∉ k_rows s) as Hin.
    { intros (_ & y & [Hy _] & Hay)%(tw_rows _ _ Hw). destruct Hx as [Hx _]. congruence. }
    split_and!; done.
Qed.

(** [rt_timer_next_timeout_tick] returns the expiry of a timer that expires
    first, and [RT_TICK_MAX] when no timer is active. *)
Theorem rt_timer_next_timeout_tick_spec late s :
  twf late (k_timers s) (k_objects s) →
  wp rt_timer_next_timeout_tick (λ r s', s' = s ∧
    (k_rows s = [] → r = RT_TICK_MAX) ∧
    (k_rows s ≠ [] → ∃ o tm, o ∈ k_rows s ∧ k_tim s !! o = Some tm ∧ r = tm_timeout_tick tm ∧
      ∀ p, p ∈ k_rows s → off (k_timers s) o ≤ off (k_timers s) p)) s.
Proof.
  intros []. unfold rt_timer_next_timeout_tick, rt_timer_list_next_timeout, wp, bind, gets, k_rows, k_tim in *.
  destruct (tms_rows (k_timers s)) as [|o rest] eqn:Hr; [naive_solver|].
  destruct (tw_rows0 o) as [[tm Htm] _]; [set_solver|]. unfold get_timer, k_tim. rewrite Htm.
  split_and!; [done|done|]. intros _. exists o, tm. split_and!; [set_solver|done|done|].
  apply StronglySorted_inv in tw_sorted0 as [_ Hf]. rewrite Forall_forall in Hf.
  intros p [->|Hp]%elem_of_cons; [lia|]. by apply Hf.
Qed.

(** A one-shot timer whose callback restarts it is left in the timer list but
    marked inactive: it is armed, yet [rt_timer_stop] refuses to stop it. *)
Theorem oneshot_restarted_in_callback late s o rest x tm (call : timeout_fn → K unit) :
  twf late (k_timers s) (k_objects s) → k_rows s = o :: rest → is_timer (k_objects s) o x →
  has_flag RT_TIMER_FLAG_PERIODIC x = false →
  k_tim s !! o = Some tm → 0 ≤ tm_init_tick tm < HALF →
  call (tm_timeout_func tm) = (rt_timer_start o ;; ret tt) →
  wp (timer_fire call o) (λ _ s', o ∈ k_rows s' ∧ off (k_timers s') o = tm_init_tick tm ∧
    rt_timer_stop o s' = Some (- RT_ERROR, s')) s.
Proof.
  intros Hw Hr Hx Hper Htm Hi Hcall. set (s1 := upd_timers (stop_rows o) s).
  assert (∃ l1 l2 s2, rt_timer_start o s1 = Some (RT_EOK, s2) ∧
    k_timers s2 = start_rows o tm l1 l2 (k_timers s1) ∧
    k_objects s2 = put_obj o (restarted x) (k_objects s)) as (l1 & l2 & s2 & Hrun & HT & HO).
  { destruct (timer_start_run late s _ o x tm Hw Hx Htm Hi) as (l1 & l2 & Hf & H1 & H2 & Hrun).
    assert (rt_timer_start o s1 = rt_timer_start o s) as ->;
      [|rewrite Hrun; eexists l1, l2, _; split; [done|split; done]].
    unfold rt_timer_start, bind. destruct Hx as [Hx Hty].
    rewrite (assert_type_run s o x), (assert_type_run s1 o x) by done. unfold s1. cbn.
    unfold upd_timers, set_rows. cbn. rewrite list_filter_filter_r by naive_solver. done. }
  unfold wp, timer_fire, bind at 1, get_timer. rewrite Htm. unfold bind. cbn.
  fold (stop_rows o) in s1. change (upd_timers _ s) with s1. rewrite Hcall. unfold bind.
  rewrite Hrun. cbn. unfold get_object, k_obj. rewrite HO. cbn. rewrite lookup_insert_eq.
  unfold restarted. autorewrite with rt. rewrite Hper. cbn.
  erewrite (mod_object_run s2 o) by (unfold k_obj; rewrite HO; cbn; by rewrite lookup_insert_eq).
  split_and!.
  - unfold k_rows. cbn. rewrite HT. cbn. set_solver.
  - cbn. rewrite HT. by rewrite off_start_rows, decide_True.
  - eapply timer_stop_inactive_run; [|apply has_clear_activated].
    cbn. by apply (is_timer_put _ o x); [apply Hx|].
Qed.

(** * Instances *)

(** Three timers at tick 100: a periodic one that just expired, a one-shot one that
    expires in 3 ticks, and an inactive one of 3 ticks. *)
Definition demo_timers : kst :=
  let hdr f := mk_object [] (RT_Object_Class_Timer + RT_Object_Class_Static) f in
  mk_kst (mk_sched ∅ ∅ 0 0 None 0 0)
    (mk_timers
       (<[Obj 1 := mk_timer (user_fn 1 0) 5 100]> (<[Obj 2 := mk_timer (user_fn 2 0) 9 103]>
        (<[Obj 3 := mk_timer (user_fn 3 0) 3 0]> ∅)))
       [Obj 1; Obj 2] 100 0)
    (mk_objects (<[Obj 1 := hdr 3]> (<[Obj 2 := hdr 1]> (<[Obj 3 := hdr 0]> ∅))) ∅)
    (mk_ipcs ∅ ∅ ∅ ∅ ∅).

(** The demo state with the one-shot timer at the head and expired. *)
Definition demo_expired : kst :=
  upd_timers (λ T, set_tick 103 (set_rows [Obj 2] T))
    (upd_objects (put_obj (Obj 1) (mk_object [] 138 2)) demo_timers).

Lemma demo_timers_wf : twf false (k_timers demo_timers) (k_objects demo_timers).
Proof. apply twf_fin_sound. refine (bool_decide_eq_true_1 _ _). vm_compute. reflexivity. Qed.

Lemma demo_timers_late : twf true (k_timers demo_timers) (k_objects demo_timers).
Proof. apply twf_fin_sound. refine (bool_decide_eq_true_1 _ _). vm_compute. reflexivity. Qed.

Lemma demo_expired_wf : twf true (k_timers demo_expired) (k_objects demo_expired).
Proof. apply twf_fin_sound. refine (bool_decide_eq_true_1 _ _). vm_compute. reflexivity. Qed.

Lemma rt_timer_start_spec_witness :
  wp (rt_timer_start (Obj 3)) (λ _ s', off (k_timers s') (Obj 3) = 3) demo_timers.
Proof.
  eapply wp_mono.
  - eapply (rt_timer_start_spec false demo_timers (Obj 3)); [apply demo_timers_wf|by split|reflexivity|].
    vm_compute; done.
  - intros r s' (_ & _ & E & _). exact E.
Defined.

Lemma rt_timer_stop_spec_witness :
  wp (rt_timer_stop (Obj 2)) (λ r s', r = RT_EOK ∧ k_rows s' = [Obj 1]) demo_timers.
Proof.
  eapply wp_mono.
  - eapply (rt_timer_stop_spec false demo_timers (Obj 2)); [apply demo_timers_wf|by split].
  - intros r s' (_ & _ & E & _). apply E. vm_compute. by right; left.
Defined.

Lemma rt_timer_next_timeout_tick_spec_witness :
  wp rt_timer_next_timeout_tick (λ _ s', s' = demo_timers) demo_timers.
Proof.
  eapply wp_mono; [apply (rt_timer_next_timeout_tick_spec false demo_timers), demo_timers_wf|].
  by intros r s' [? _].
Defined.

Lemma oneshot_restarted_in_callback_witness :
  wp (timer_fire (λ _, rt_timer_start (Obj 2) ;; ret tt) (Obj 2)) (λ _ s', Obj 2 ∈ k_rows s')
    demo_expired.
Proof.
  eapply wp_mono.
  - eapply (oneshot_restarted_in_callback true demo_expired (Obj 2) []); [apply demo_expired_wf|
      reflexivity|by split|reflexivity|reflexivity|vm_compute; done|reflexivity].
  - by intros _ s' [? _].
Defined.
