(* ===== verification/Thread.v ===== *)
(** Threads, src/thread.c, and the initial stack of libcpu/arm/cortex-m4/cpuport.c.

    A routine that blocks its caller is split where it calls [rt_schedule]: the
    first part ends with the switch, the rest is a continuation that runs when the
    thread is current again. [rt_thread_create] allocates and is not modelled. *)

From Stdlib Require Import ZArith Lia.
From stdpp Require Import base numbers option gmap.
From stdpp Require Import list sorting.
From S2P Require Import Prelude.
From S2P Require Import Kservice.
From S2P Require Import KernelDefs.
From S2P Require Import Scheduler.
From S2P Require Import Object.
From S2P Require Import Timer.
Local Open Scope Z_scope.
Local Open Scope rt_scope.

(** * Operations *)

(** A routine either returned a value or blocked, to continue with [c]. *)
Inductive outcome (A C : Type) :=
| Returned (a : A)
| Blocked (c : C).
Arguments Returned {A C} a.
Arguments Blocked {A C} c.

(** [1 << priority]; a shift by 32 or more is undefined. *)
Definition prio_mask (p : Z) : K Z :=
  assert (p <? 32) ;; ret (u32 (Z.shiftl 1 p)).

#[local] Definition RT_ALIGN_DOWN (size align : Z) : Z := Z.land size (Z.lnot (align - 1)).

(** Size of [struct stack_frame] with the FPU in use: the flag word, r4-r11 and the
    8 words of the exception frame. *)
Definition stack_frame_size : Z := 4 + 8 * 4 + 8 * 4.

(** The initial stack pointer. *)
Definition rt_hw_stack_init (stack_addr : Z) : Z :=
  let stk := stack_addr + 4 in
  let stk := RT_ALIGN_DOWN stk 8 in
  stk - stack_frame_size.

Definition _rt_thread_init (t entry parameter stack_start stack_size priority tick : Z) : K Z :=
  w ← gets k_tl;
  assert (negb (tlinked w t)) ;;
  let sp := rt_hw_stack_init (stack_start + stack_size - 4) in
  assert (priority <? RT_THREAD_PRIORITY_MAX) ;;
  modify (upd_sched (λ c,
    let old := sc_thr c !! t in
    put_thr t {|
      th_sp := sp; th_entry := entry; th_parameter := parameter;
      th_stack_addr := stack_start; th_stack_size := stack_size;
      th_guard := if stack_size =? 0 then 0 else 35;
      th_error := RT_EOK; th_stat := RT_THREAD_INIT;
      th_current_priority := priority; th_init_priority := priority;
      th_number_mask := 0;
      th_event_set := default 0 (th_event_set <$> old);
      th_event_info := default 0 (th_event_info <$> old);
      th_init_tick := tick; th_remaining_tick := tick;
      th_cleanup := None; th_user_data := 0 |} c)) ;;
  x ← get_object (Obj t);
  rt_timer_init (ThreadTimer t) (o_name x) (rt_thread_timeout_fn t) 0 RT_TIMER_FLAG_ONE_SHOT ;;
  ret RT_EOK.

Definition rt_thread_init (t : Z) (name : list Z) (entry parameter stack_start stack_size
    priority tick : Z) : K Z :=
  assert (nz t) ;;
  assert (nz stack_start) ;;
  rt_object_init (Obj t) RT_Object_Class_Thread name ;;
  _rt_thread_init t entry parameter stack_start stack_size priority tick.

Definition rt_thread_self : K (option Z) := gets k_cur.

Definition rt_thread_suspend (t : Z) : K Z :=
  assert_type (Obj t) RT_Object_Class_Thread ;;
  th ← get_thread t;
  let stat := stat_of th in
  if negb (stat =? RT_THREAD_READY) && negb (stat =? RT_THREAD_RUNNING) then ret (- RT_ERROR)
  else
    c ← rt_thread_self;
    assert (negb (stat =? RT_THREAD_RUNNING) || bool_decide (c = Some t)) ;;
    rt_schedule_remove_thread t ;;
    mod_thread t (set_stat RT_THREAD_SUSPEND) ;;
    rt_timer_stop (ThreadTimer t) ;;
    ret RT_EOK.

Definition rt_thread_resume (t : Z) : K Z :=
  assert_type (Obj t) RT_Object_Class_Thread ;;
  th ← get_thread t;
  if negb (stat_of th =? RT_THREAD_SUSPEND) then ret (- RT_ERROR)
  else
    tl_remove t ;;
    rt_timer_stop (ThreadTimer t) ;;
    rt_schedule_insert_thread t ;;
    ret RT_EOK.

Definition rt_thread_startup (t : Z) : K Z :=
  th ← get_thread t;
  assert (stat_of th =? RT_THREAD_INIT) ;;
  assert_type (Obj t) RT_Object_Class_Thread ;;
  mask ← prio_mask (th_init_priority th);
  mod_thread t (with_priority (th_init_priority th) mask) ;;
  mod_thread t (with_stat RT_THREAD_SUSPEND) ;;
  rt_thread_resume t ;;
  c ← rt_thread_self;
  (if decide (is_Some c) then rt_schedule else ret tt) ;;
  ret RT_EOK.

Definition rt_thread_exit : K unit :=
  t ← self;
  rt_schedule_remove_thread t ;;
  mod_thread t (with_stat RT_THREAD_CLOSE) ;;
  rt_timer_detach (ThreadTimer t) ;;
  b ← rt_object_is_systemobject (Obj t);
  th ← get_thread t;
  (if b && bool_decide (th_cleanup th = None) then rt_object_detach (Obj t)
   else tl_insert_front HDefunct t) ;;
  rt_schedule.

Definition rt_thread_detach (t : Z) : K Z :=
  assert_type (Obj t) RT_Object_Class_Thread ;;
  b ← rt_object_is_systemobject (Obj t); assert b ;;
  th ← get_thread t;
  (if negb (stat_of th =? RT_THREAD_INIT) then rt_schedule_remove_thread t else ret tt) ;;
  rt_timer_detach (ThreadTimer t) ;;
  mod_thread t (with_stat RT_THREAD_CLOSE) ;;
  b ← rt_object_is_systemobject (Obj t);
  th ← get_thread t;
  (if b && bool_decide (th_cleanup th = None) then rt_object_detach (Obj t)
   else tl_insert_front HDefunct t) ;;
  ret RT_EOK.

Definition rt_thread_delete (t : Z) : K Z :=
  assert_type (Obj t) RT_Object_Class_Thread ;;
  b ← rt_object_is_systemobject (Obj t); assert (negb b) ;;
  th ← get_thread t;
  (if negb (stat_of th =? RT_THREAD_INIT) then rt_schedule_remove_thread t else ret tt) ;;
  rt_timer_detach (ThreadTimer t) ;;
  mod_thread t (with_stat RT_THREAD_CLOSE) ;;
  tl_insert_front HDefunct t ;;
  ret RT_EOK.

Definition rt_thread_yield : K Z := rt_schedule ;; ret RT_EOK.

(** Up to the call of [rt_schedule]; the sleeping thread continues with
    [rt_thread_sleep_resume]. *)
Definition rt_thread_sleep (tick : Z) : K (outcome Z Z) :=
  t ← self;
  assert_type (Obj t) RT_Object_Class_Thread ;;
  rt_thread_suspend t ;;
  rt_timer_control (ThreadTimer t) RT_TIMER_CTRL_SET_TIME tick ;;
  rt_timer_start (ThreadTimer t) ;;
  rt_schedule ;;
  ret (Blocked t).

Definition rt_thread_sleep_resume (t : Z) : K Z :=
  th ← get_thread t;
  (if th_error th =? - RT_ETIMEOUT then mod_thread t (with_error RT_EOK) else ret tt) ;;
  ret RT_EOK.

Definition rt_thread_delay (tick : Z) : K (outcome Z Z) := rt_thread_sleep tick.

(** [RT_THREAD_CTRL_CHANGE_PRIORITY] *)
Definition change_priority (t p : Z) : K unit :=
  th ← get_thread t;
  if stat_of th =? RT_THREAD_READY then
    rt_schedule_remove_thread t ;;
    mask ← prio_mask p;
    mod_thread t (with_priority p mask) ;;
    rt_schedule_insert_thread t
  else
    mask ← prio_mask p;
    mod_thread t (with_priority p mask).

Definition rt_thread_control (t cmd arg : Z) : K Z :=
  assert_type (Obj t) RT_Object_Class_Thread ;;
  if cmd =? RT_THREAD_CTRL_CHANGE_PRIORITY then change_priority t (u8 arg) ;; ret RT_EOK
  else if cmd =? RT_THREAD_CTRL_STARTUP then rt_thread_startup t
  else if cmd =? RT_THREAD_CTRL_CLOSE then rt_thread_delete t
  else ret RT_EOK.

Definition rt_thread_timeout (t : Z) : K unit :=
  th ← get_thread t;
  assert (stat_of th =? RT_THREAD_SUSPEND) ;;
  assert_type (Obj t) RT_Object_Class_Thread ;;
  mod_thread t (with_error (- RT_ETIMEOUT)) ;;
  tl_remove t ;;
  rt_schedule_insert_thread t ;;
  rt_schedule.

(** Returns the object of the first thread with that name. *)
Definition rt_thread_find (name : list Z) : K (option oid) :=
  c ← rt_thread_self;
  (if decide (is_Some c) then rt_enter_critical else ret tt) ;;
  assert (bool_decide (is_Some (rt_object_get_information RT_Object_Class_Thread))) ;;
  objs ← gets k_obj;
  l ← gets (λ s, tlist (ob_list (k_objects s)) RT_Object_Class_Thread);
  r ← from_opt (find_name objs name l);
  c ← rt_thread_self;
  (if decide (is_Some c) then rt_exit_critical else ret tt) ;;
  ret r.

(** * The kernel invariant *)

(** Threads that are ready or running. *)
Definition active (th : rt_thread) : Prop :=
  stat_of th = RT_THREAD_READY ∨ stat_of th = RT_THREAD_RUNNING.

(** The objects of a thread that has not been closed: its own header and its
    one-shot timer with [rt_thread_timeout] as callback. *)
Definition thread_objs (T : timers) (O : objects) (t : Z) : Prop :=
  (∃ x, ob_obj O !! Obj t = Some x ∧ get_type x = RT_Object_Class_Thread) ∧
  (∃ x, is_timer O (ThreadTimer t) x ∧ nz (Z.land (o_type x) RT_Object_Class_Static) = true) ∧
  (∃ tm, tms_tim T !! ThreadTimer t = Some tm ∧ tm_timeout_func tm = rt_thread_timeout_fn t).

(** What holds of a running system even inside a timer callback. *)
Record kinv0 (s : kst) : Prop := {
  ki_sched : sched_inv (k_sched s);
  ki_cur : is_Some (k_cur s);
  ki_objs : ∀ t th, k_thr s !! t = Some th → stat_of th ≠ RT_THREAD_CLOSE →
    thread_objs (k_timers s) (k_objects s) t;
  ki_wait : ∀ t, ThreadTimer t ∈ k_rows s → ∃ th, k_thr s !! t = Some th ∧
    stat_of th = RT_THREAD_SUSPEND;
  ki_oneshot : ∀ t x, k_obj s !! ThreadTimer t = Some x →
    has_flag RT_TIMER_FLAG_PERIODIC x = false;
  ki_user : ∀ a tm, k_tim s !! Obj a = Some tm → ∃ f p, tm_timeout_func tm = user_fn f p
}.

(** The invariant of a running system between kernel calls. *)
Definition kinv (s : kst) : Prop := kinv0 s ∧ twf false (k_timers s) (k_objects s).

(** * Pure effects *)

Definition unlink_sc (t : Z) (c : sched) : sched := set_tl (tl_remove_from t (sc_tl c)) c.

(** [rt_list_remove] followed by [rt_schedule_insert_thread]. *)
Definition wake_sc (t : Z) (th : rt_thread) (c : sched) : sched :=
  if decide (sc_cur c = Some t)
  then put_thr t (set_stat RT_THREAD_RUNNING th) (unlink_sc t c)
  else insert_sc t th (unlink_sc t c).

Definition suspend_sc (t : Z) (th : rt_thread) (c : sched) : sched :=
  put_thr t (set_stat RT_THREAD_SUSPEND th) (remove_sc t th c).

(** The effect of [rt_timer_stop]. *)
Definition stop_st (o : oid) (s : kst) : kst :=
  match k_obj s !! o with
  | Some x => if has_flag RT_TIMER_FLAG_ACTIVATED x
              then mk_kst (k_sched s) (stop_rows o (k_timers s))
                     (put_obj o (stopped x) (k_objects s)) (k_ipc s)
              else s
  | None => s
  end.

Lemma stop_run s o x :
  is_timer (k_objects s) o x → ∃ r, rt_timer_stop o s = Some (r, stop_st o s).
Proof.
  intros Hx. unfold stop_st, k_obj. rewrite (proj1 Hx).
  destruct (has_flag _ x) eqn:Ha; eexists; [by apply timer_stop_run|by eapply timer_stop_inactive_run].
Qed.

Lemma stop_st_sched o s : k_sched (stop_st o s) = k_sched s.
Proof. unfold stop_st. destruct (k_obj s !! o); [|done]. by destruct (has_flag _ _). Qed.
Lemma stop_st_ipc o s : k_ipc (stop_st o s) = k_ipc s.
Proof. unfold stop_st. destruct (k_obj s !! o); [|done]. by destruct (has_flag _ _). Qed.
Lemma stop_st_tick o s : k_tick (stop_st o s) = k_tick s.
Proof. unfold stop_st. destruct (k_obj s !! o); [|done]. by destruct (has_flag _ _). Qed.
Lemma stop_st_rows o s p : p ∈ k_rows (stop_st o s) → p ∈ k_rows s.
Proof.
  unfold stop_st. destruct (k_obj s !! o); [|done]. destruct (has_flag _ _); [|done].
  unfold k_rows. cbn. by intros [_ ?]%list_elem_of_filter.
Qed.

(** ** Objects under a header update *)

Lemma thread_objs_put T O t o x y :
  thread_objs T O t → ob_obj O !! o = Some x → o_type y = o_type x →
  thread_objs T (put_obj o y O) t.
Proof.
  intros ((u & Hu & Hut) & (v & [Hv Hvt] & Hvs) & Htm) Ho Hy. unfold get_type in *.
  split_and!; [| |done]; unfold is_timer, get_type; cbn.
  - rewrite lookup_insert. case_decide; [|eauto]. subst. exists y. split; [done|].
    rewrite Hy. congruence.
  - rewrite lookup_insert. case_decide; [|eauto]. subst. exists y. rewrite Hy.
    rewrite Ho in Hv. injection Hv as ->. done.
Qed.

Lemma thread_objs_rows T O t l : thread_objs (set_rows l T) O t ↔ thread_objs T O t.
Proof. done. Qed.

(** ** The scheduler part changes, the rest stays *)

Lemma kinv0_sched s c' :
  kinv0 s → sched_inv c' → is_Some (sc_cur c') →
  (∀ t th', sc_thr c' !! t = Some th' → stat_of th' ≠ RT_THREAD_CLOSE →
     ∃ th, k_thr s !! t = Some th ∧ stat_of th ≠ RT_THREAD_CLOSE) →
  (∀ t th, ThreadTimer t ∈ k_rows s → k_thr s !! t = Some th → stat_of th = RT_THREAD_SUSPEND →
     ∃ th', sc_thr c' !! t = Some th' ∧ stat_of th' = RT_THREAD_SUSPEND) →
  kinv0 (mk_kst c' (k_timers s) (k_objects s) (k_ipc s)).
Proof.
  intros [] Hc Hcur Ho Hw. split; try done.
  - intros t th Ht Hs. destruct (Ho t th Ht Hs) as (th0 & H0 & Hs0). by eapply ki_objs0.
  - intros t Ht. destruct (ki_wait0 t Ht) as (th & Hth & Hs). by eapply Hw.
Qed.

(** A control block is kept, or only its state moves between ready and running. *)
Definition stat_moves (a b : rt_thread) : Prop :=
  b = a ∨ active a ∧ ∃ st, (st = RT_THREAD_READY ∨ st = RT_THREAD_RUNNING) ∧ b = set_stat st a.

Lemma stat_moves_trans a b c : stat_moves a b → stat_moves b c → stat_moves a c.
Proof.
  unfold stat_moves, active. intros [->|(Ha & st & Hst & ->)]; [done|].
  intros [->|(_ & st' & Hst' & ->)]; right; split; [done|eauto|done|].
  exists st'. split; [done|]. unfold set_stat, with_stat. cbn. f_equal. f_equal.
  rewrite Z.land_lor_distr_l, <- Z.land_assoc. rewrite (Z.land_diag (Z.lnot RT_THREAD_STAT_MASK)).
  by destruct Hst as [-> | ->].
Qed.

Lemma stat_moves_stat a b : stat_moves a b → stat_of b = stat_of a ∨ active a ∧ active b.
Proof.
  intros [->|(Ha & st & Hst & ->)]; [by left|]. right. split; [done|].
  unfold active. rewrite stat_of_set_stat; destruct Hst as [-> | ->]; stat_lia.
Qed.

Definition moved (c c' : sched) : Prop := ∀ t, option_relation stat_moves (λ _, False) (λ _, False)
  (sc_thr c !! t) (sc_thr c' !! t).

Lemma moved_refl c : moved c c.
Proof. intros t. destruct (sc_thr c !! t); cbn; [by left|done]. Qed.

Lemma moved_put c c' t a b :
  sc_thr c !! t = Some a → sc_thr c' = <[t := b]> (sc_thr c) → stat_moves a b → moved c c'.
Proof.
  intros Ht Hc Hm u. rewrite Hc, lookup_insert. case_decide as E.
  - subst u. by rewrite Ht.
  - apply moved_refl.
Qed.

Lemma moved_trans c1 c2 c3 : moved c1 c2 → moved c2 c3 → moved c1 c3.
Proof.
  intros H12 H23 t. specialize (H12 t). specialize (H23 t).
  destruct (sc_thr c1 !! t), (sc_thr c2 !! t), (sc_thr c3 !! t); cbn in *; try done.
  by eapply stat_moves_trans.
Qed.

Lemma scheduled_moved c c' : sched_inv c → scheduled c c' → moved c c'.
Proof.
  intros (Hw & _ & _) Hd. inversion Hd as [| |cur cth p to rest Hn Hc Ht Hr|
    cur cth p to toh rest Hn Hc Ht Hne Hto Hp Hr Hl]; subst; [apply moved_refl|apply moved_refl| |].
  - eapply moved_put; [exact Ht|done|]. right. split; [by right|]. eauto.
  - assert (stat_of toh = RT_THREAD_READY) as Hst.
    { destruct (sw_place _ _ Hw to (HReady (th_current_priority toh))) as (? & ? & ? & _);
        [rewrite Hl; set_solver|]. naive_solver. }
    apply (moved_trans _ (if decide (stat_of cth = RT_THREAD_RUNNING)
                          then put_thr cur (set_stat RT_THREAD_READY cth) c else c)).
    + case_decide as Hcs; [|apply moved_refl]. eapply moved_put; [exact Ht|done|].
      right. split; [by right|]. eauto.
    + eapply (moved_put _ _ to toh); [|unfold switch_sc; cbn|right; split; [by left|eauto]].
      * case_decide; cbn; [by rewrite lookup_insert_ne|done].
      * by case_decide.
Qed.

Lemma moved_lookup c c' t th' :
  moved c c' → sc_thr c' !! t = Some th' → ∃ th, sc_thr c !! t = Some th ∧ stat_moves th th'.
Proof.
  intros Hm Ht. specialize (Hm t). rewrite Ht in Hm.
  destruct (sc_thr c !! t); cbn in Hm; [eauto|done].
Qed.

Lemma moved_lookup_inv c c' t th :
  moved c c' → sc_thr c !! t = Some th → ∃ th', sc_thr c' !! t = Some th' ∧ stat_moves th th'.
Proof.
  intros Hm Ht. specialize (Hm t). rewrite Ht in Hm.
  destruct (sc_thr c' !! t); cbn in Hm; [eauto|done].
Qed.

Lemma moved_suspended c c' t th :
  moved c c' → sc_thr c !! t = Some th → ¬ active th → sc_thr c' !! t = Some th.
Proof.
  intros Hm Ht Hs. destruct (moved_lookup_inv _ _ _ _ Hm Ht) as (th' & Ht' & [->|[? _]]); done.
Qed.

Lemma kinv0_moved s c' :
  kinv0 s → sched_inv c' → is_Some (sc_cur c') → moved (k_sched s) c' →
  kinv0 (mk_kst c' (k_timers s) (k_objects s) (k_ipc s)).
Proof.
  intros HI Hc Hcur Hm. apply kinv0_sched; [done|done|done| |].
  - intros t th' Ht Hs. destruct (moved_lookup _ _ _ _ Hm Ht) as (th & Hth & Hsm).
    exists th. split; [done|]. destruct (stat_moves_stat _ _ Hsm) as [E|[[Ha|Ha] _]]; [congruence| |];
      rewrite Ha; stat_lia.
  - intros t th _ Ht Hs. exists th. split; [|done]. eapply moved_suspended; [done|done|].
    intros [?|?]; stat_lia.
Qed.

Lemma scheduled_cur c c' : scheduled c c' → is_Some (sc_cur c) → is_Some (sc_cur c').
Proof.
  intros Hd Hc. inversion Hd; subst; [done|done|done|].
  eexists. apply switch_sc_cur.
Qed.

(** [rt_schedule] on a running system. *)
Lemma schedule_kinv0 s :
  kinv0 s → ∃ c', rt_schedule s = Some (tt, mk_kst c' (k_timers s) (k_objects s) (k_ipc s)) ∧
    scheduled (k_sched s) c' ∧ kinv0 (mk_kst c' (k_timers s) (k_objects s) (k_ipc s)).
Proof.
  intros HI. pose proof HI as []. destruct ki_cur0 as [cur Hc].
  destruct (rt_schedule_run s cur ki_sched0 Hc) as (c' & Hrun & Hd).
  exists c'. split_and!; [done|done|]. apply kinv0_moved; [done| | |].
  - by eapply scheduled_inv.
  - by eapply scheduled_cur.
  - by apply scheduled_moved.
Qed.

(** ** Waking and suspending a thread *)

Lemma swf_unlink X t th c :
  swf X c → sc_thr c !! t = Some th → stat_of th ≠ RT_THREAD_READY →
  swf ({[t]} ∪ X) (unlink_sc t c).
Proof.
  intros [] Ht Hs. split; cbn; try done.
  - intros p Hp. rewrite sw_group, tlist_remove, filter_ne_notin; [done| |done].
    intros (th' & ? & ? & _)%sw_place. naive_solver.
  - intros h. rewrite tlist_remove. by apply NoDup_filter.
  - intros u h1 h2. rewrite !tlist_remove, !list_elem_of_filter. naive_solver.
  - intros u h. rewrite tlist_remove, list_elem_of_filter. intros [_ Hu]. eauto.
  - intros u h Hu. rewrite tlist_remove, list_elem_of_filter. intros [Hne Hin].
    eapply sw_transit; [|done]. set_solver.
  - intros u uh Hu Hx Hr. rewrite tlist_remove, list_elem_of_filter.
    split; [set_solver|]. apply sw_ready; set_solver.
  - intros u uh Hu Hx Hr. eapply sw_running; set_solver.
Qed.

Lemma wake_sc_thr t th c :
  sc_thr (wake_sc t th c) =
    <[t := set_stat (if decide (sc_cur c = Some t) then RT_THREAD_RUNNING else RT_THREAD_READY) th]>
      (sc_thr c).
Proof. unfold wake_sc. by repeat case_decide. Qed.

Lemma wake_sc_cur t th c : sc_cur (wake_sc t th c) = sc_cur c.
Proof. unfold wake_sc. by repeat case_decide. Qed.

Lemma wake_sc_lock t th c : sc_lock_nest (wake_sc t th c) = sc_lock_nest c.
Proof. unfold wake_sc. by repeat case_decide. Qed.

Lemma wake_sc_irq t th c : sc_irq_nest (wake_sc t th c) = sc_irq_nest c.
Proof. unfold wake_sc. by repeat case_decide. Qed.

Lemma wake_sc_tl t th c h :
  (∀ p, h ≠ HReady p) → tlist (sc_tl (wake_sc t th c)) h = filter (λ x, x ≠ t) (tlist (sc_tl c) h).
Proof.
  intros Hh. unfold wake_sc. repeat case_decide; cbn;
    rewrite ?tlist_insert, ?decide_False, tlist_remove by naive_solver; done.
Qed.

Lemma sched_inv_wake t th c :
  sched_inv c → sc_thr c !! t = Some th → stat_of th = RT_THREAD_SUSPEND →
  sched_inv (wake_sc t th c).
Proof.
  intros (Hw & Hok & Hst) Ht Hs.
  pose proof (swf_unlink ∅ t th c Hw Ht ltac:(stat_lia)) as Hu.
  assert (th_number_mask th = 2 ^ th_current_priority th) as Hm
    by (apply (sw_mask _ _ Hw t); [done|right; by left]).
  split_and!.
  - unfold wake_sc. case_decide.
    + apply swf_put_transit; [done|set_solver|rewrite stat_of_set_stat; stat_lia|done| |done].
      by apply (sw_prio _ _ Hw t th).
    + apply swf_insert; [done|set_solver|done|done|done].
  - intros u. rewrite wake_sc_cur, wake_sc_thr. intros Hu'. rewrite lookup_insert. case_decide.
    + subst. rewrite decide_True by done. eexists. split; [done|].
      rewrite stat_of_set_stat; stat_lia.
    + by apply Hok.
  - intros u uh. rewrite wake_sc_thr, lookup_insert. case_decide; [|apply Hst].
    intros [= <-]. rewrite stack_ok_set_stat. eauto.
Qed.

Lemma sched_inv_suspend t th c :
  sched_inv c → sc_thr c !! t = Some th → active th → sched_inv (suspend_sc t th c).
Proof.
  intros (Hw & Hok & Hst) Ht Ha.
  assert (th_number_mask th = 2 ^ th_current_priority th) as Hm.
  { apply (sw_mask _ _ Hw t); [done|]. destruct Ha; [by left|right; by right]. }
  split_and!.
  - apply swf_put_transit; [by apply swf_remove|set_solver|rewrite stat_of_set_stat; stat_lia| | |done].
    + rewrite stat_of_set_stat; stat_lia.
    + by apply (sw_prio _ _ Hw t th).
  - intros u Hu. cbn in *. rewrite lookup_insert. case_decide; [|by apply Hok].
    eexists. split; [done|]. rewrite stat_of_set_stat; stat_lia.
  - intros u uh. cbn. rewrite lookup_insert. case_decide; [|apply Hst].
    intros [= <-]. rewrite stack_ok_set_stat. eauto.
Qed.

Definition wake_st (t : Z) (th : rt_thread) (s : kst) : kst :=
  upd_sched (wake_sc t th) (stop_st (ThreadTimer t) s).

Lemma kinv_objs s t th :
  kinv s → k_thr s !! t = Some th → stat_of th ≠ RT_THREAD_CLOSE →
  thread_objs (k_timers s) (k_objects s) t.
Proof. intros [HI _]. apply HI. Qed.

Lemma assert_thread_run s t T O :
  thread_objs T O t → O = k_objects s →
  assert_type (Obj t) RT_Object_Class_Thread s = Some (tt, s).
Proof. intros ((x & Hx & Hty) & _) ->. by eapply assert_type_run. Qed.

Lemma kinv0_stop s o x : kinv0 s → k_obj s !! o = Some x → kinv0 (stop_st o s).
Proof.
  intros HI Hx. unfold stop_st. rewrite Hx. destruct (has_flag _ x) eqn:Ha; [|done]. split; try apply HI.
  - intros t th Ht Hs. cbn. apply (thread_objs_put _ _ t o x); [|apply Hx|done].
    exact (ki_objs _ HI t th Ht Hs).
  - intros t Ht. apply (ki_wait _ HI). unfold k_rows in *. cbn in Ht.
    by apply list_elem_of_filter in Ht as [_ ?].
  - intros t y. unfold k_obj. cbn. rewrite lookup_insert. case_decide; [|apply (ki_oneshot _ HI)].
    subst. intros [= <-]. unfold stopped. rewrite has_periodic_clear. apply (ki_oneshot _ HI t), Hx.
Qed.

Lemma twf_stop_st late s o x :
  twf late (k_timers s) (k_objects s) → is_timer (k_objects s) o x →
  twf late (k_timers (stop_st o s)) (k_objects (stop_st o s)) ∧ o ∉ k_rows (stop_st o s).
Proof.
  intros Hw Hx. unfold stop_st, k_obj. rewrite (proj1 Hx). destruct (has_flag _ x) eqn:Ha.
  - split; [by apply twf_stop|]. unfold k_rows. cbn. rewrite list_elem_of_filter. naive_solver.
  - split; [done|]. intros (_ & y & [Hy _] & Hay)%(tw_rows _ _ Hw). destruct Hx as [Hx _]. congruence.
Qed.

Lemma kinv_stop s o x :
  kinv s → is_timer (k_objects s) o x → kinv (stop_st o s) ∧ o ∉ k_rows (stop_st o s).
Proof.
  intros [HI Hw] Hx. destruct (twf_stop_st false s o x Hw Hx) as [Hw' Hn].
  split; [|done]. split; [|done]. eapply kinv0_stop; [done|apply Hx].
Qed.

Lemma stop_st_thr o s : k_thr (stop_st o s) = k_thr s.
Proof. unfold k_thr. by rewrite stop_st_sched. Qed.

(** [rt_schedule_insert_thread] after [rt_list_remove]. *)
Lemma relink_run s t th :
  k_thr s !! t = Some th →
  rt_schedule_insert_thread t (upd_sched (unlink_sc t) s) = Some (tt, upd_sched (wake_sc t th) s).
Proof.
  intros Ht. destruct (decide (k_cur s = Some t)) as [Hc|Hc].
  - rewrite (insert_current_run _ t th) by done. unfold upd_sched, wake_sc. cbn.
    by rewrite decide_True.
  - rewrite (insert_thread_run _ t th); [|done|done|].
    + unfold upd_sched, wake_sc. cbn. by rewrite decide_False.
    + intros h. unfold k_tl. cbn. rewrite tlist_remove, list_elem_of_filter. naive_solver.
Qed.

Lemma resume0_run s t th :
  kinv0 s → k_thr s !! t = Some th → stat_of th = RT_THREAD_SUSPEND →
  rt_thread_resume t s = Some (RT_EOK, wake_st t th s).
Proof.
  intros HI Ht Hs. pose proof (ki_objs s HI t th Ht ltac:(stat_lia)) as Ho.
  unfold rt_thread_resume, bind. rewrite (assert_thread_run s t _ _ Ho) by done.
  unfold get_thread. rewrite Ht, Hs. cbn [negb Z.eqb RT_THREAD_SUSPEND Pos.eqb].
  cbn -[rt_timer_stop rt_schedule_insert_thread].
  destruct Ho as (_ & (x & Hx & _) & _). set (s1 := upd_sched _ s).
  destruct (stop_run s1 (ThreadTimer t) x Hx) as (r & ->).
  assert (stop_st (ThreadTimer t) s1 = upd_sched (unlink_sc t) (stop_st (ThreadTimer t) s)) as ->.
  { unfold stop_st. unfold s1 at 1, k_obj at 1. cbn. fold (k_obj s).
    destruct (k_obj s !! _) as [y|]; [|done]. by destruct (has_flag _ y). }
  by rewrite (relink_run _ t th) by by rewrite stop_st_thr.
Qed.

Lemma resume_run s t th :
  kinv s → k_thr s !! t = Some th → stat_of th = RT_THREAD_SUSPEND →
  rt_thread_resume t s = Some (RT_EOK, wake_st t th s).
Proof. intros [HI _]. by apply resume0_run. Qed.

(** Waking a suspended thread whose timer is off. *)
Lemma kinv0_wake s t th :
  kinv0 s → k_thr s !! t = Some th → stat_of th = RT_THREAD_SUSPEND → ThreadTimer t ∉ k_rows s →
  kinv0 (upd_sched (wake_sc t th) s).
Proof.
  intros HI Ht Hs Hr. apply kinv0_sched; [done| | | |].
  - apply sched_inv_wake; [apply HI|done|done].
  - rewrite wake_sc_cur. apply HI.
  - intros u uh. rewrite wake_sc_thr, lookup_insert. case_decide; [|eauto]. subst.
    intros _ _. exists th. split; [done|]. rewrite Hs. stat_lia.
  - intros u uh Hu Huh Hus. rewrite wake_sc_thr, lookup_insert_ne by naive_solver. eauto.
Qed.

Lemma kinv_wake s t th :
  kinv s → k_thr s !! t = Some th → stat_of th = RT_THREAD_SUSPEND → kinv (wake_st t th s).
Proof.
  intros HI Ht Hs. destruct (kinv_objs s t th HI Ht ltac:(stat_lia)) as (_ & (x & Hx & _) & _).
  destruct (kinv_stop s _ x HI Hx) as [[HI' Hw'] Hn]. split; [|done].
  apply kinv0_wake; [done|by rewrite stop_st_thr|done|done].
Qed.

Definition suspend_st (t : Z) (th : rt_thread) (s : kst) : kst := upd_sched (suspend_sc t th) s.

Lemma active_timer_off s t th : kinv0 s → k_thr s !! t = Some th → active th → ThreadTimer t ∉ k_rows s.
Proof. intros HI Ht [?|?] (th' & ? & ?)%(ki_wait _ HI); simplify_eq; stat_lia. Qed.

(** The kernel invariant but for the timer of [t], which may be running. *)
Definition kinv_upto (t : Z) (s : kst) : Prop :=
  twf false (k_timers s) (k_objects s) ∧ kinv0 (stop_st (ThreadTimer t) s).

Lemma kinv_upto_kinv t th s :
  kinv s → k_thr s !! t = Some th → stat_of th ≠ RT_THREAD_CLOSE → kinv_upto t s.
Proof.
  intros HI Ht Hs. destruct (kinv_objs s t th HI Ht Hs) as (_ & (x & Hx & _) & _).
  split; [apply HI|]. eapply kinv0_stop; [apply HI|apply Hx].
Qed.

Lemma kinv_upto_objs t th s :
  kinv_upto t s → k_thr s !! t = Some th → stat_of th ≠ RT_THREAD_CLOSE →
  (∃ y, k_obj s !! Obj t = Some y ∧ get_type y = RT_Object_Class_Thread) ∧
  ∃ x, is_timer (k_objects s) (ThreadTimer t) x.
Proof.
  intros [_ HI] Ht Hs. destruct (ki_objs _ HI t th) as ((y & Hy & Hyt) & (x & [Hx Hxt] & _) & _); [by rewrite stop_st_thr|done|].
  unfold stop_st in Hy, Hx. destruct (k_obj s !! ThreadTimer t) as [z|] eqn:Ez; [|split; [by exists y|by exists x]].
  destruct (has_flag _ z); [|split; [by exists y|by exists x]]. cbn in Hy, Hx.
  rewrite lookup_insert_ne in Hy by done. rewrite lookup_insert_eq in Hx. injection Hx as <-.
  split; [by exists y|]. exists z. by split.
Qed.

Lemma stop_st_upd o f s : stop_st o (upd_sched f s) = upd_sched f (stop_st o s).
Proof.
  unfold stop_st. change (k_obj (upd_sched f s)) with (k_obj s).
  destruct (k_obj s !! o) as [x|]; [|done]. by destruct (has_flag _ x).
Qed.

Lemma suspend_upto_run s t th :
  kinv_upto t s → k_thr s !! t = Some th → active th →
  rt_thread_suspend t s = Some (RT_EOK, suspend_st t th (stop_st (ThreadTimer t) s)).
Proof.
  intros HI Ht Ha. destruct (kinv_upto_objs t th s HI Ht ltac:(destruct Ha; stat_lia)) as ((y & Hy & Hyt) & x & Hx).
  unfold rt_thread_suspend, bind. rewrite (assert_type_run s (Obj t) y) by done.
  unfold get_thread. rewrite Ht.
  assert (negb (stat_of th =? RT_THREAD_READY) && negb (stat_of th =? RT_THREAD_RUNNING) = false) as ->.
  { destruct Ha as [-> | ->]; done. }
  cbn -[rt_timer_stop rt_schedule_remove_thread]. unfold assert.
  assert (negb (stat_of th =? RT_THREAD_RUNNING) || bool_decide (k_cur s = Some t) = true) as ->.
  { destruct (Z.eqb_spec (stat_of th) RT_THREAD_RUNNING) as [Hr|]; [|done]. cbn.
    apply bool_decide_eq_true_2. pose proof (ki_sched _ (proj2 HI)) as (Hw & _). rewrite stop_st_sched in Hw.
    by eapply (sw_running _ _ Hw t th). }
  rewrite (remove_thread_run s t th) by done.
  rewrite (mod_thread_run _ t th) by done.
  destruct (stop_run (upd_sched (suspend_sc t th) s) (ThreadTimer t) x Hx) as (r & Hr).
  change (upd_sched (put_thr t _) (upd_sched (remove_sc t th) s)) with (upd_sched (suspend_sc t th) s).
  rewrite Hr. by rewrite stop_st_upd.
Qed.

Lemma stop_st_off t th s : kinv s → k_thr s !! t = Some th → active th → stop_st (ThreadTimer t) s = s.
Proof.
  intros HI Ht Ha. destruct (kinv_objs s t th HI Ht ltac:(destruct Ha; stat_lia)) as (_ & (x & Hx & _) & _).
  unfold stop_st, k_obj. rewrite (proj1 Hx). destruct (has_flag _ x) eqn:Hf; [|done].
  exfalso. destruct HI as [HI Hw]. by eapply active_timer_off, (tw_act _ _ Hw).
Qed.

Lemma suspend_run s t th :
  kinv s → k_thr s !! t = Some th → active th →
  rt_thread_suspend t s = Some (RT_EOK, suspend_st t th s).
Proof.
  intros HI Ht Ha. assert (stat_of th ≠ RT_THREAD_CLOSE) as Hs by (destruct Ha; stat_lia).
  rewrite (suspend_upto_run s t th) by (done || by eapply kinv_upto_kinv).
  by rewrite (stop_st_off t th s).
Qed.

Lemma kinv_suspend s t th :
  kinv s → k_thr s !! t = Some th → active th → kinv (suspend_st t th s).
Proof.
  intros [HI Hw] Ht Ha. split; [|done]. apply kinv0_sched; [done| | | |].
  - apply sched_inv_suspend; [apply HI|done|done].
  - apply HI.
  - intros u uh. cbn. rewrite lookup_insert. case_decide; [|eauto]. subst. intros _ _.
    exists th. split; [done|]. destruct Ha; stat_lia.
  - intros u uh Hu Huh Hus. cbn. rewrite lookup_insert. case_decide; [|eauto].
    eexists. split; [done|]. rewrite stat_of_set_stat; stat_lia.
Qed.

(** ** Arming the timer of a suspended thread *)

Definition set_time_st (o : oid) (tm : rt_timer) (v : Z) (s : kst) : kst :=
  upd_timers (set_tim (<[o := with_init_tick (u32 v) tm]> (k_tim s))) s.

Lemma set_time_run s o x tm v :
  is_timer (k_objects s) o x → k_tim s !! o = Some tm →
  rt_timer_control o RT_TIMER_CTRL_SET_TIME v s = Some ((RT_EOK, None), set_time_st o tm v s).
Proof.
  intros [Hx Hty] Htm. unfold rt_timer_control, bind. rewrite (assert_type_run s o x) by done.
  cbn. unfold mod_timer. by rewrite Htm.
Qed.

Lemma off_set_time s o tm v p :
  k_tim s !! o = Some tm → off (k_timers (set_time_st o tm v s)) p = off (k_timers s) p.
Proof.
  intros Htm. unfold off, set_time_st. cbn. rewrite lookup_insert. case_decide; [|done].
  subst. unfold k_tim in Htm. by rewrite Htm.
Qed.

Lemma kinv_set_time s t tm v :
  kinv s → k_tim s !! ThreadTimer t = Some tm → kinv (set_time_st (ThreadTimer t) tm v s).
Proof.
  intros [HI Hw] Htm. split.
  - split; try apply HI.
    + intros u uh Hu Hs. destruct (ki_objs _ HI u uh Hu Hs) as (? & ? & tu & Htu & Hf).
      split_and!; [done|done|]. cbn. rewrite lookup_insert. case_decide as E; [|eauto].
      injection E as ->. exists (with_init_tick (u32 v) tm). split; [done|].
      unfold k_tim in Htm. by simplify_eq.
    + intros a am. unfold k_tim. cbn. rewrite lookup_insert_ne by done. apply (ki_user _ HI).
  - split; try apply Hw.
    + intros p Hp. destruct (tw_rows _ _ Hw p Hp) as [? ?]. split; [|done].
      cbn. rewrite lookup_insert. by case_decide.
    + eapply StronglySorted_ext; [|apply Hw]. intros a b _ _. cbv beta.
      by rewrite !(off_set_time s _ tm v).
    + intros p Hp. rewrite (off_set_time s _ tm v) by done. by apply Hw.
Qed.

(** Time stands still and the timers of all other threads and of the application are
    left alone. *)
Definition timers_kept (t : Z) (s s' : kst) : Prop :=
  k_tick s' = k_tick s ∧
  ∀ o, o ≠ ThreadTimer t → (o ∈ k_rows s' ↔ o ∈ k_rows s) ∧ k_tim s' !! o = k_tim s !! o.

(** The thread's timer runs and expires [d] ticks from now. *)
Definition armed (t d : Z) (s s' : kst) : Prop :=
  kinv s' ∧ k_sched s' = k_sched s ∧ k_ipc s' = k_ipc s ∧ timers_kept t s s' ∧
  ThreadTimer t ∈ k_rows s' ∧ off (k_timers s') (ThreadTimer t) = d ∧
  (∀ a, k_obj s' !! Obj a = k_obj s !! Obj a).

Lemma kinv_start_thread s t th x tm l1 l2 :
  kinv s → k_thr s !! t = Some th → stat_of th = RT_THREAD_SUSPEND →
  is_timer (k_objects s) (ThreadTimer t) x → k_tim s !! ThreadTimer t = Some tm →
  filter (λ p, p ≠ ThreadTimer t) (k_rows s) = l1 ++ l2 →
  kinv0 (mk_kst (k_sched s) (start_rows (ThreadTimer t) tm l1 l2 (k_timers s))
    (put_obj (ThreadTimer t) (restarted x) (k_objects s)) (k_ipc s)).
Proof.
  intros [HI Hw] Ht Hs Hx Htm Hf. split; try apply HI.
  - intros u uh Hu Hus. apply (thread_objs_put _ _ u (ThreadTimer t) x); [|apply Hx|done].
    destruct (ki_objs _ HI u uh Hu Hus) as (? & ? & tu & Htu & Hfn).
    split_and!; [done|done|]. cbn. rewrite lookup_insert. case_decide as E; [|eauto].
    injection E as ->. eexists. split; [done|]. unfold k_tim in Htm. by simplify_eq.
  - intros u Hu. destruct (decide (u = t)) as [->|Hne]; [eauto|]. apply (ki_wait _ HI).
    assert (ThreadTimer u ∈ filter (λ p, p ≠ ThreadTimer t) (k_rows s)) as Hin.
    { rewrite Hf. unfold k_rows in Hu. cbn in Hu. set_solver. }
    by apply list_elem_of_filter in Hin as [_ ?].
  - intros u y. unfold k_obj. cbn. rewrite lookup_insert. case_decide as E; [|apply (ki_oneshot _ HI)].
    injection E as ->. intros [= <-]. unfold restarted. autorewrite with rt.
    apply (ki_oneshot _ HI u), Hx.
  - intros a am. unfold k_tim. cbn. rewrite lookup_insert_ne by done. apply (ki_user _ HI).
Qed.

Lemma arm_run s t th tick :
  kinv s → k_thr s !! t = Some th → stat_of th = RT_THREAD_SUSPEND → u32 tick < HALF →
  ∃ s1 s', rt_timer_control (ThreadTimer t) RT_TIMER_CTRL_SET_TIME tick s = Some ((RT_EOK, None), s1) ∧
    rt_timer_start (ThreadTimer t) s1 = Some (RT_EOK, s') ∧ armed t (u32 tick) s s'.
Proof.
  intros HI Ht Hs Hd. pose proof (wrap_range 32 tick ltac:(lia)) as Hr.
  destruct (kinv_objs s t th HI Ht ltac:(stat_lia)) as (_ & (x & Hx & _) & (tm & Htm & _)).
  pose proof (kinv_set_time s t tm tick HI Htm) as HI1.
  set (s1 := set_time_st (ThreadTimer t) tm tick s) in *.
  assert (k_tim s1 !! ThreadTimer t = Some (with_init_tick (u32 tick) tm)) as Htm1
    by (unfold s1, k_tim; cbn; by rewrite lookup_insert_eq).
  destruct (timer_start_run false s1 (k_objects s1) (ThreadTimer t) x (with_init_tick (u32 tick) tm))
    as (l1 & l2 & Hf & H1 & H2 & Hrun); [apply HI1|done|done|cbn; lia|].
  exists s1. eexists. split_and!; [by eapply set_time_run|exact Hrun|]. split_and!.
  - split; [by eapply (kinv_start_thread s1 t th)|]. eapply twf_start; try done; [apply HI1|cbn; lia].
  - done.
  - done.
  - split; [done|]. intros o Ho. unfold k_rows, k_tim. cbn. rewrite !lookup_insert_ne by done. split; [|done].
    trans (o ∈ l1 ++ l2); [set_solver|]. unfold s1, k_rows in Hf. cbn in Hf. rewrite <- Hf, list_elem_of_filter. naive_solver.
  - unfold k_rows. cbn. set_solver.
  - cbn -[off]. rewrite off_start_rows, decide_True by (cbn; lia || done). done.
  - intros a. unfold k_obj. cbn. by rewrite lookup_insert_ne.
Qed.

(** ** A priority change *)

Definition prio_st (t : Z) (th : rt_thread) (p : Z) (c : sched) : sched :=
  let th' := with_priority p (2 ^ p) th in
  if decide (stat_of th = RT_THREAD_READY)
  then insert_sc t th' (put_thr t th' (remove_sc t th c))
  else put_thr t th' c.

Lemma prio_mask_run s p : 0 ≤ p < 32 → prio_mask p s = Some (2 ^ p, s).
Proof.
  intros Hp. unfold prio_mask, bind, assert. rewrite (proj2 (Z.ltb_lt _ _)) by lia.
  cbn. rewrite Z.shiftl_mul_pow2, Z.mul_1_l by lia. unfold ret. do 2 f_equal.
  apply wrap_small. split; [lia|]. apply Z.pow_lt_mono_r; lia.
Qed.

Lemma change_priority_run s t th p :
  sched_inv (k_sched s) → k_thr s !! t = Some th → 0 ≤ p < 32 →
  change_priority t p s = Some (tt, upd_sched (prio_st t th p) s).
Proof.
  intros (Hw & Hok & _) Ht Hp. unfold change_priority, bind, get_thread. rewrite Ht.
  unfold prio_st. destruct (Z.eqb_spec (stat_of th) RT_THREAD_READY) as [Hr|Hr].
  - assert (k_cur s ≠ Some t) as Hc by (intros (th' & ? & ?)%Hok; unfold k_thr in *; congruence).
    rewrite (remove_thread_run s t th) by done. rewrite prio_mask_run by done.
    rewrite (mod_thread_run _ t th) by done.
    rewrite (insert_thread_run _ t (with_priority p (2 ^ p) th)).
    + unfold upd_sched. by rewrite decide_True.
    + unfold k_thr. cbn. by rewrite lookup_insert_eq.
    + done.
    + intros h. unfold k_tl. cbn. rewrite tlist_remove, list_elem_of_filter. naive_solver.
  - rewrite prio_mask_run by done. rewrite (mod_thread_run _ t th) by done.
    unfold upd_sched. by rewrite decide_False.
Qed.

(** Changing the priority of a thread that is not in a ready list. *)
Lemma swf_put_prio X t th th' c :
  swf X c → sc_thr c !! t = Some th → stat_of th ≠ RT_THREAD_READY → stat_of th' = stat_of th →
  0 ≤ th_current_priority th' < 32 → th_number_mask th' = 2 ^ th_current_priority th' →
  swf X (put_thr t th' c).
Proof.
  intros [Hrg Hg Hnd Hdj Hpl Htr Hrd Hpr Hmk Hrn] Ht Hnr Hs Hp Hm.
  split; cbn; try done; intros u.
  - intros h Hu. destruct (Hpl u h Hu) as (uh & Huh & Hok). rewrite lookup_insert.
    case_decide; [|eauto]. subst. simplify_eq. exists th'. split; [done|].
    destruct h; cbn in *; [naive_solver|congruence..].
  - intros uh. rewrite lookup_insert. case_decide; [|eauto]. subst. intros [= <-] _ ?. congruence.
  - intros uh. rewrite lookup_insert. case_decide; [|eauto]. by intros [= <-].
  - intros uh. rewrite lookup_insert. case_decide; [|eauto]. by intros [= <-].
  - intros uh. rewrite lookup_insert. case_decide; [|eauto]. subst. intros [= <-] ? ?.
    eapply Hrn; [done|done|congruence].
Qed.

(** A thread in transit may get any control block with sound priority fields. *)
Lemma swf_put_in_transit X t th' c :
  swf ({[t]} ∪ X) c → 0 ≤ th_current_priority th' < 32 →
  th_number_mask th' = 2 ^ th_current_priority th' → swf ({[t]} ∪ X) (put_thr t th' c).
Proof.
  intros [Hrg Hg Hnd Hdj Hpl Htr Hrd Hpr Hmk Hrn] Hp Hm.
  assert (∀ h, t ∉ tlist (sc_tl c) h) as Hl by (intros h; apply Htr; set_solver).
  split; cbn; try done; intros u.
  - intros h Hu. rewrite lookup_insert_ne by (intros ->; by eapply Hl). eauto.
  - intros uh Hu Hx. rewrite lookup_insert_ne in Hu by set_solver. eauto.
  - intros uh. rewrite lookup_insert. case_decide; [|eauto]. by intros [= <-].
  - intros uh. rewrite lookup_insert. case_decide; [|eauto]. by intros [= <-].
  - intros uh Hu Hx. rewrite lookup_insert_ne in Hu by set_solver. eauto.
Qed.

Lemma prio_st_thr t th p c :
  sc_thr (prio_st t th p c) = <[t := if decide (stat_of th = RT_THREAD_READY)
    then set_stat RT_THREAD_READY (with_priority p (2 ^ p) th) else with_priority p (2 ^ p) th]> (sc_thr c).
Proof. unfold prio_st. case_decide; cbn; [|done]. by rewrite insert_insert_eq. Qed.

Lemma prio_st_stat th p :
  stat_of (if decide (stat_of th = RT_THREAD_READY)
    then set_stat RT_THREAD_READY (with_priority p (2 ^ p) th) else with_priority p (2 ^ p) th)
  = stat_of th.
Proof. case_decide; [|done]. rewrite stat_of_set_stat; [done|stat_lia]. Qed.

Lemma sched_inv_prio t th p c :
  sched_inv c → sc_thr c !! t = Some th → 0 ≤ p < 32 → sched_inv (prio_st t th p c).
Proof.
  intros (Hw & Hok & Hst) Ht Hp. split_and!.
  - unfold prio_st. case_decide as Hr.
    + assert (th_number_mask th = 2 ^ th_current_priority th) as Hm
        by (apply (sw_mask _ _ Hw t); [done|by left]).
      apply swf_insert; [|set_solver|cbn; by rewrite lookup_insert_eq| |done].
      * apply swf_put_in_transit; [by apply swf_remove|done|done].
      * cbn. intros (th' & ? & ?)%Hok. congruence.
    + by apply (swf_put_prio _ t th).
  - intros u. rewrite prio_st_thr. unfold prio_st at 1. intros Hu.
    assert (sc_cur c = Some u) as Hc by (by destruct (decide (stat_of th = RT_THREAD_READY))).
    destruct (Hok u Hc) as (uh & Huh & Hus). rewrite lookup_insert.
    destruct (decide (t = u)); [|eauto]. subst. eexists. split; [done|]. rewrite prio_st_stat. congruence.
  - intros u uh. rewrite prio_st_thr, lookup_insert. destruct (decide (t = u)); [|apply Hst]. subst.
    intros [= <-]. case_decide; [rewrite stack_ok_set_stat|]; apply (Hst u th Ht).
Qed.

Lemma kinv_prio s t th p :
  kinv s → k_thr s !! t = Some th → 0 ≤ p < 32 → kinv (upd_sched (prio_st t th p) s).
Proof.
  intros [HI Hw] Ht Hp. split; [|done]. apply kinv0_sched; [done| | | |].
  - apply sched_inv_prio; [apply HI|done|done].
  - unfold prio_st. case_decide; apply HI.
  - intros u uh. rewrite prio_st_thr, lookup_insert. destruct (decide (t = u)); [|eauto]. subst.
    intros [= <-]. rewrite prio_st_stat. eauto.
  - intros u uh Hu Huh Hus. rewrite prio_st_thr, lookup_insert. destruct (decide (t = u)); [|eauto]. subst.
    simplify_eq. eexists. split; [done|]. rewrite prio_st_stat. unfold k_thr in *. congruence.
Qed.

(** ** Linking a thread into a list *)

Definition link_sc (h : thead) (l : list Z) (c : sched) : sched :=
  set_tl (<[h := l]> (sc_tl c)) c.

Lemma swf_link X t th h l c :
  swf X c → t ∉ X → sc_thr c !! t = Some th → head_ok h th → (∀ p, h ≠ HReady p) →
  (∀ h', t ∉ tlist (sc_tl c) h') → l ≡ₚ t :: tlist (sc_tl c) h → swf X (link_sc h l c).
Proof.
  intros [Hrg Hg Hnd Hdj Hpl Htr Hrd Hpr Hmk Hrn] HtX Ht Hok Hh Hl Hperm.
  assert (∀ u, u ∈ l ↔ u = t ∨ u ∈ tlist (sc_tl c) h) as Hin
    by (intros u; rewrite Hperm; apply elem_of_cons).
  split; cbn; try done.
  - intros p Hp. rewrite tlist_insert, decide_False by done. auto.
  - intros h'. rewrite tlist_insert. case_decide; [|done]. subst. rewrite Hperm.
    apply NoDup_cons. auto.
  - intros u h1 h2. rewrite !tlist_insert.
    assert (∀ h', u = t → u ∈ tlist (sc_tl c) h' → False) by (intros h' -> ?; by eapply Hl).
    repeat case_decide; subst; rewrite ?Hin; naive_solver.
  - intros u h'. rewrite tlist_insert. case_decide; [|auto]. subst. rewrite Hin.
    intros [->|Hu]; eauto.
  - intros u h' Hu. rewrite tlist_insert. case_decide; [|auto]. subst. rewrite Hin.
    intros [->|?]; [done|]. by eapply Htr.
  - intros u uh Hu Hx Hr. rewrite tlist_insert, decide_False by done. auto.
Qed.

(** ** Closing a thread *)

Definition detach_obj (o : oid) (x : rt_object) (O : objects) : objects :=
  set_obj_list (tl_remove_from o (ob_list O)) (put_obj o (with_type 0 x) O).

Lemma object_detach_run s o x :
  k_obj s !! o = Some x → rt_object_detach o s = Some (tt, upd_objects (detach_obj o x) s).
Proof.
  intros Hx. unfold rt_object_detach, bind. by rewrite (mod_object_run _ o x) by done.
Qed.

Lemma timer_detach_run s o x :
  is_timer (k_objects s) o x → nz (Z.land (o_type x) RT_Object_Class_Static) = true →
  rt_timer_detach o s = Some (RT_EOK,
    mk_kst (k_sched s) (stop_rows o (k_timers s)) (detach_obj o x (k_objects s)) (k_ipc s)).
Proof.
  intros [Hx Hty] Hst. unfold rt_timer_detach, bind. rewrite (assert_type_run s o x) by done.
  unfold rt_object_is_systemobject, bind, get_object, k_obj. rewrite Hx. cbn. rewrite Hst. cbn.
  by rewrite (object_detach_run _ o x).
Qed.

Lemma detach_obj_lookup o x O p :
  ob_obj (detach_obj o x O) !! p = if decide (o = p) then Some (with_type 0 x) else ob_obj O !! p.
Proof. unfold detach_obj. cbn. apply lookup_insert. Qed.

Lemma twf_detach late T O o x : twf late T O → twf late (stop_rows o T) (detach_obj o x O).
Proof.
  intros [Hnd Hr Ha Hs Hg]. split; cbn.
  - by apply NoDup_filter.
  - intros p [Hne Hp]%list_elem_of_filter. destruct (Hr p Hp) as (? & y & [? ?] & ?).
    split; [done|]. exists y. unfold is_timer. by rewrite detach_obj_lookup, decide_False.
  - intros p y [Hy Hty]. rewrite detach_obj_lookup in Hy. intros Hf. apply list_elem_of_filter.
    case_decide; [by injection Hy as <-|]. split; [done|]. by apply (Ha p y).
  - by apply StronglySorted_filter.
  - intros p [_ Hp]%list_elem_of_filter. by apply Hg.
Qed.

(** Detaching an object that is not a timer. *)
Lemma twf_detach_other late T O o x :
  twf late T O → ob_obj O !! o = Some x → get_type x ≠ RT_Object_Class_Timer → twf late T (detach_obj o x O).
Proof.
  intros [Hnd Hr Ha Hs Hg] Hx Hty. split; try done.
  - intros p Hp. destruct (Hr p Hp) as (? & y & [Hy Hyt] & ?). split; [done|]. exists y.
    unfold is_timer. rewrite detach_obj_lookup, decide_False; [done|]. naive_solver.
  - intros p y [Hy Hty']. rewrite detach_obj_lookup in Hy. case_decide; [by injection Hy as <-|].
    by apply Ha.
Qed.

Definition close_sc (t : Z) (th : rt_thread) (c : sched) : sched :=
  put_thr t (with_stat RT_THREAD_CLOSE th)
    (if decide (stat_of th = RT_THREAD_INIT) then c else remove_sc t th c).

Lemma close_sc_thr t th c :
  sc_thr (close_sc t th c) = <[t := with_stat RT_THREAD_CLOSE th]> (sc_thr c).
Proof. unfold close_sc. by case_decide. Qed.

Lemma close_sc_cur t th c : sc_cur (close_sc t th c) = sc_cur c.
Proof. unfold close_sc. by case_decide. Qed.

Lemma started_cases X t th h c :
  swf X c → sc_thr c !! t = Some th → stat_of th = RT_THREAD_INIT → t ∉ tlist (sc_tl c) h.
Proof.
  intros Hw Ht Hs (th' & ? & Hok)%(sw_place _ _ Hw). simplify_eq.
  destruct h; cbn in Hok; stat_lia.
Qed.

Lemma sched_inv_close t th c :
  sched_inv c → sc_thr c !! t = Some th → stat_of th = RT_THREAD_INIT ∨ started th →
  sched_inv (close_sc t th c) ∧ ∀ h, t ∉ tlist (sc_tl (close_sc t th c)) h.
Proof.
  intros (Hw & Hok & Hst) Ht Hs.
  assert (stat_of (with_stat RT_THREAD_CLOSE th) = RT_THREAD_CLOSE) as Hcl by done.
  assert (swf ({[t]} ∪ ∅) (if decide (stat_of th = RT_THREAD_INIT) then c else remove_sc t th c)) as Hw1.
  { case_decide as Hi; [|apply swf_remove; [done|done|]].
    - apply swf_weaken; [done|]. intros h. by eapply started_cases.
    - apply (sw_mask _ _ Hw t); [done|]. by destruct Hs. }
  split; [split_and!|].
  - apply swf_put_transit; [done|set_solver|rewrite Hcl; stat_lia|rewrite Hcl; stat_lia| |].
    + by apply (sw_prio _ _ Hw t th).
    + intros [?|[?|?]]; stat_lia.
  - intros u. rewrite close_sc_cur, close_sc_thr, lookup_insert. intros Hu.
    destruct (decide (t = u)); [eexists; split; [done|]; rewrite Hcl; stat_lia|by apply Hok].
  - intros u uh. rewrite close_sc_thr, lookup_insert. destruct (decide (t = u)); [|apply Hst].
    subst. intros [= <-]. exact (Hst u th Ht).
  - intros h. unfold close_sc. cbn. apply (sw_transit _ _ Hw1). set_solver.
Qed.

Definition close_st (t : Z) (th : rt_thread) (x : rt_object) (s : kst) : kst :=
  mk_kst (close_sc t th (k_sched s)) (stop_rows (ThreadTimer t) (k_timers s))
    (detach_obj (ThreadTimer t) x (k_objects s)) (k_ipc s).

Lemma thread_objs_detach T O t o x :
  thread_objs T O t → o ≠ Obj t → o ≠ ThreadTimer t → thread_objs T (detach_obj o x O) t.
Proof.
  unfold thread_objs, is_timer. intros. rewrite !detach_obj_lookup, !decide_False by done. done.
Qed.

Lemma kinv_close s t th x :
  kinv s → k_thr s !! t = Some th → stat_of th = RT_THREAD_INIT ∨ started th →
  is_timer (k_objects s) (ThreadTimer t) x → kinv (close_st t th x s).
Proof.
  intros [HI Hw] Ht Hs Hx. split; [|by apply twf_detach].
  destruct (sched_inv_close t th (k_sched s) (ki_sched _ HI) Ht Hs) as [Hsc _].
  split; unfold k_thr, k_rows, k_obj in *; cbn -[close_sc detach_obj].
  - done.
  - unfold k_cur. cbn -[close_sc]. rewrite close_sc_cur. apply HI.
  - intros u uh. rewrite close_sc_thr, lookup_insert. case_decide; [by intros [= <-]|].
    intros Hu Hus. apply thread_objs_detach; [|done|naive_solver].
    exact (ki_objs _ HI u uh Hu Hus).
  - intros u [Hne Hu]%list_elem_of_filter. rewrite close_sc_thr, lookup_insert_ne by naive_solver.
    by apply (ki_wait _ HI).
  - intros u y. rewrite detach_obj_lookup. case_decide as E; [|apply (ki_oneshot _ HI)].
    injection E as ->. intros [= <-]. apply (ki_oneshot _ HI u x), Hx.
  - apply (ki_user _ HI).
Qed.

(** After [close_st] the thread is handed over to its reclaimer. *)
Lemma kinv_reclaim s t th y :
  kinv s → k_thr s !! t = Some th → stat_of th = RT_THREAD_CLOSE →
  k_obj s !! Obj t = Some y → get_type y = RT_Object_Class_Thread →
  kinv (upd_objects (detach_obj (Obj t) y) s).
Proof.
  intros [HI Hw] Ht Hs Hy Hty. split.
  - split; try apply HI.
    + intros u uh Hu Hus. apply thread_objs_detach; [exact (ki_objs _ HI u uh Hu Hus)| |done].
      intros [= <-]. unfold k_thr in *. cbn in Hu. congruence.
    + intros u z. unfold k_obj. cbn -[detach_obj]. rewrite detach_obj_lookup, decide_False by done.
      apply (ki_oneshot _ HI).
  - apply twf_detach_other; [done|done|]. by rewrite Hty.
Qed.

Lemma kinv_defunct s t th :
  kinv s → k_thr s !! t = Some th → stat_of th = RT_THREAD_CLOSE →
  (∀ h, t ∉ tlist (k_tl s) h) →
  tl_insert_front HDefunct t s =
    Some (tt, upd_sched (link_sc HDefunct (t :: tlist (k_tl s) HDefunct)) s) ∧
  kinv (upd_sched (link_sc HDefunct (t :: tlist (k_tl s) HDefunct)) s).
Proof.
  intros [HI Hw] Ht Hs Hl. split.
  - unfold tl_insert_front. by rewrite (proj2 (tlinked_false _ t)) by done.
  - split; [|done]. pose proof (ki_sched _ HI) as (Hsw & Hok & Hst).
    apply kinv0_sched; [done| |apply HI|eauto|eauto].
    split_and!; [|done|done]. by eapply (swf_link ∅ t th).
Qed.

(** * Properties *)

Definition thread_stat (s : kst) (t : Z) : option Z := stat_of <$> (k_thr s !! t).

Lemma wake_ready_tail t th c :
  sched_inv c → sc_thr c !! t = Some th → stat_of th = RT_THREAD_SUSPEND → sc_cur c ≠ Some t →
  tlist (sc_tl (wake_sc t th c)) (HReady (th_current_priority th)) =
    tlist (sc_tl c) (HReady (th_current_priority th)) ++ [t].
Proof.
  intros (Hw & _) Ht Hs Hc. unfold wake_sc. rewrite decide_False by done. cbn.
  rewrite tlist_insert, decide_True, tlist_remove, filter_ne_notin; [done| |done].
  intros (th' & ? & ? & _)%(sw_place _ _ Hw). simplify_eq. stat_lia.
Qed.

(** C7: [rt_thread_suspend] takes a ready or running thread out of scheduling: it is in no
    list afterwards, its state is suspended and its timer is stopped, out of the timer list
    and marked inactive, even when it was running; no other thread and no other timer is
    touched, and the kernel invariant holds. For a thread in any other state it reports
    [-RT_ERROR] and changes nothing. *)
Theorem rt_thread_suspend_spec s t th :
  kinv_upto t s → k_thr s !! t = Some th → stat_of th ≠ RT_THREAD_CLOSE →
  wp (rt_thread_suspend t) (λ r s', k_cur s' = k_cur s ∧
    (active th → r = RT_EOK ∧ kinv s' ∧ thread_stat s' t = Some RT_THREAD_SUSPEND ∧
       (∀ h, t ∉ tlist (k_tl s') h) ∧
       (∀ h u, u ≠ t → u ∈ tlist (k_tl s') h ↔ u ∈ tlist (k_tl s) h) ∧
       ThreadTimer t ∉ k_rows s' ∧
       (∀ x, k_obj s' !! ThreadTimer t = Some x → has_flag RT_TIMER_FLAG_ACTIVATED x = false) ∧
       k_rows s' = filter (λ o, o ≠ ThreadTimer t) (k_rows s) ∧
       (∀ u, u ≠ t → k_thr s' !! u = k_thr s !! u)) ∧
    (¬ active th → r = - RT_ERROR ∧ s' = s)) s.
Proof.
  intros HI Ht Hs. apply wp_run. destruct (kinv_upto_objs t th s HI Ht Hs) as ((y & Hy & Hyt) & x & Hx).
  destruct (decide (stat_of th = RT_THREAD_READY ∨ stat_of th = RT_THREAD_RUNNING)) as [Ha|Ha].
  - set (s1 := stop_st (ThreadTimer t) s).
    assert (kinv s1) as HI1 by (split; [apply HI|eapply twf_stop_st; [apply HI|exact Hx]]).
    assert (k_thr s1 !! t = Some th) as Ht1 by (unfold s1; by rewrite stop_st_thr).
    assert (k_tl s1 = k_tl s) as El by (unfold s1, k_tl; by rewrite stop_st_sched).
    destruct (twf_stop_st false s (ThreadTimer t) x (proj1 HI) Hx) as [Hw1 Hn1].
    eexists _, _. split; [by apply (suspend_upto_run s t th)|].
    split_and!; [unfold k_cur; cbn; by rewrite stop_st_sched| |done]. intros _.
    assert (∀ h, tlist (k_tl (suspend_st t th s1)) h = filter (λ x, x ≠ t) (tlist (k_tl s) h)) as Hl
      by (intros h; rewrite <- El; unfold k_tl; cbn; by rewrite tlist_remove).
    split_and!; [done|by apply kinv_suspend| | | |done| | |].
    + unfold thread_stat, k_thr. cbn. rewrite lookup_insert_eq. cbn. f_equal.
      apply stat_of_set_stat. stat_lia.
    + intros h. rewrite Hl, list_elem_of_filter. naive_solver.
    + intros h u Hu. rewrite Hl, list_elem_of_filter. naive_solver.
    + intros z Hz. destruct (has_flag _ z) eqn:Hf; [|done]. exfalso. apply Hn1.
      apply (tw_act _ _ Hw1 _ z); [|done]. destruct (ki_objs _ (proj1 HI1) t th Ht1 Hs) as (_ & (w & [Hw2 Hwt] & _) & _).
      unfold k_obj, suspend_st in Hz. cbn in Hz. split; [done|]. fold s1 in Hz. congruence.
    + unfold k_rows, suspend_st. cbn. unfold s1, stop_st, k_obj. rewrite (proj1 Hx). destruct (has_flag _ x) eqn:Hf; [done|].
      symmetry. apply filter_ne_notin. intros (_ & z & [Hz _] & Hfz)%(tw_rows _ _ (proj1 HI)). destruct Hx. congruence.
    + intros u Hu. unfold k_thr, suspend_st. cbn. rewrite lookup_insert_ne by done. by rewrite stop_st_sched.
  - exists (- RT_ERROR), s. split; [|done].
    unfold rt_thread_suspend, bind. rewrite (assert_type_run s (Obj t) y) by done.
    unfold get_thread. rewrite Ht.
    destruct (Z.eqb_spec (stat_of th) RT_THREAD_READY); [tauto|].
    by destruct (Z.eqb_spec (stat_of th) RT_THREAD_RUNNING); [tauto|].
Qed.

(** [rt_thread_resume] wakes a suspended thread: it leaves the list it waited in,
    its timer is off, and it is queued behind the other ready threads of its priority;
    a thread that is not suspended is left alone with [-RT_ERROR]. *)
Theorem rt_thread_resume_spec s t th :
  kinv s → k_thr s !! t = Some th → stat_of th ≠ RT_THREAD_CLOSE → k_cur s ≠ Some t →
  wp (rt_thread_resume t) (λ r s', kinv s' ∧ k_cur s' = k_cur s ∧
    (stat_of th = RT_THREAD_SUSPEND → r = RT_EOK ∧ thread_stat s' t = Some RT_THREAD_READY ∧
       ThreadTimer t ∉ k_rows s' ∧
       tlist (k_tl s') (HReady (th_current_priority th)) =
         tlist (k_tl s) (HReady (th_current_priority th)) ++ [t] ∧
       (∀ a, tlist (k_tl s') (HSuspend a) = filter (λ u, u ≠ t) (tlist (k_tl s) (HSuspend a)))) ∧
    (stat_of th ≠ RT_THREAD_SUSPEND → r = - RT_ERROR ∧ s' = s)) s.
Proof.
  intros HI Ht Hs Hc. apply wp_run. destruct (decide (stat_of th = RT_THREAD_SUSPEND)) as [Ha|Ha].
  - destruct (kinv_objs s t th HI Ht Hs) as (_ & (x & Hx & _) & _).
    pose proof (kinv_stop s _ x HI Hx) as [_ Hn].
    eexists _, _. split; [by apply (resume_run s t th)|].
    split_and!; [by apply kinv_wake| | |done].
    + unfold k_cur, wake_st. cbn. by rewrite wake_sc_cur, stop_st_sched.
    + intros _. unfold wake_st, thread_stat, k_thr, k_tl. cbn. rewrite !stop_st_sched.
      split_and!; [done| |done| |].
      * rewrite wake_sc_thr, lookup_insert_eq, decide_False by done. cbn.
        rewrite stat_of_set_stat; [done|stat_lia].
      * apply wake_ready_tail; [apply HI|done..].
      * intros a. by rewrite wake_sc_tl.
  - exists (- RT_ERROR), s. split; [|done].
    unfold rt_thread_resume, bind. rewrite (assert_thread_run s t _ _ (kinv_objs s t th HI Ht Hs)) by done.
    unfold get_thread. rewrite Ht. by rewrite (proj2 (Z.eqb_neq _ _) Ha).
Qed.

(** Scheduling after the current thread was blocked: it does not run on. *)
Lemma schedule_blocked s t th :
  kinv s → k_cur s = Some t → k_thr s !! t = Some th → stat_of th = RT_THREAD_SUSPEND →
  ∃ c', rt_schedule s = Some (tt, mk_kst c' (k_timers s) (k_objects s) (k_ipc s)) ∧
    kinv (mk_kst c' (k_timers s) (k_objects s) (k_ipc s)) ∧ scheduled (k_sched s) c' ∧
    sc_thr c' !! t = Some th ∧
    (sc_lock_nest (k_sched s) = 0 → sc_group (k_sched s) ≠ 0 → runs_highest c').
Proof.
  intros [HI Hw] Hc Ht Hs. destruct (schedule_kinv0 s HI) as (c' & Hrun & Hd & HI').
  exists c'. split_and!; [done|by split|done| |].
  - eapply moved_suspended; [by apply scheduled_moved, Hd; apply HI|done|].
    intros [?|?]; stat_lia.
  - intros Hn Hg. eapply scheduled_highest; [apply HI|done|done|done|done|by right].
Qed.

(** [rt_schedule] leaves the lists of waiting threads alone. *)
Lemma scheduled_waiting c c' h :
  sched_inv c → scheduled c c' → (∀ p, h ≠ HReady p) → tlist (sc_tl c') h = tlist (sc_tl c) h.
Proof.
  intros (Hw & _) Hd Hh.
  assert (∀ u uh, sc_thr c !! u = Some uh → active uh → u ∉ tlist (sc_tl c) h) as Hn.
  { intros u uh Hu Ha (uh' & ? & Hok)%(sw_place _ _ Hw). simplify_eq.
    destruct h; cbn in Hok; [by eapply Hh|destruct Ha; stat_lia..]. }
  inversion Hd as [| |cur cth p to rest Hlk Hc Ht Hr|
    cur cth p to toh rest Hlk Hc Ht Hne Hto Hp Hpr Hl]; subst; [done|done| |].
  - cbn. rewrite tlist_remove. apply filter_ne_notin. eapply Hn; [done|by right].
  - unfold switch_sc. cbn. rewrite tlist_remove.
    assert (stat_of toh = RT_THREAD_READY) as Hrd.
    { destruct (sw_place _ _ Hw to (HReady (th_current_priority toh))) as (? & ? & ? & _);
        [rewrite Hl; set_solver|]. naive_solver. }
    case_decide; cbn; rewrite ?tlist_insert, ?decide_False by done;
      (apply filter_ne_notin; eapply Hn; [done|by left]).
Qed.

Lemma suspend_cur_st t th s :
  k_cur (suspend_st t th s) = k_cur s ∧
  k_thr (suspend_st t th s) !! t = Some (set_stat RT_THREAD_SUSPEND th) ∧
  stat_of (set_stat RT_THREAD_SUSPEND th) = RT_THREAD_SUSPEND.
Proof.
  unfold k_thr. cbn. rewrite lookup_insert_eq. split_and!; [done|done|].
  apply stat_of_set_stat. stat_lia.
Qed.

(** [rt_thread_sleep] blocks the calling thread with its timer set to expire
    after exactly the given ticks, and gives the processor to the ready thread of
    highest priority; the kernel invariant is kept. *)
Theorem rt_thread_sleep_spec s t th tick :
  kinv s → k_cur s = Some t → k_thr s !! t = Some th → stat_of th = RT_THREAD_RUNNING →
  0 ≤ tick < HALF →
  wp (rt_thread_sleep tick) (λ r s', r = Blocked t ∧ kinv s' ∧
    thread_stat s' t = Some RT_THREAD_SUSPEND ∧
    ThreadTimer t ∈ k_rows s' ∧ off (k_timers s') (ThreadTimer t) = tick ∧
    (sc_lock_nest (k_sched s) = 0 → (∃ u, thread_stat s u = Some RT_THREAD_READY) →
     runs_highest (k_sched s') ∧ k_cur s' ≠ Some t)) s.
Proof.
  intros HI Hc Ht Hs Hd. assert (active th) as Ha by by right.
  pose proof (kinv_suspend s t th HI Ht Ha) as HI1. set (s1 := suspend_st t th s) in *.
  destruct (suspend_cur_st t th s) as (Hc1 & Ht1 & Hs1). fold s1 in Hc1, Ht1.
  assert (u32 tick = tick) as Hu.
  { apply wrap_small. unfold HALF, RT_TICK_MAX in Hd. change (0xffffffff / 2) with 2147483647 in Hd.
    change (2 ^ 32) with 4294967296. lia. }
  destruct (arm_run s1 t _ tick HI1 Ht1 Hs1 ltac:(lia)) as (s2 & s3 & Hr2 & Hr3 & Harm).
  destruct Harm as (HI3 & Hsc3 & _ & _ & Hin & Hoff & _).
  destruct (schedule_blocked s3 t (set_stat RT_THREAD_SUSPEND th)) as (c' & Hr4 & HI4 & Hd4 & Ht4 & Hhi);
    [done|unfold k_cur; rewrite Hsc3; by rewrite <- Hc1 in Hc|unfold k_thr; by rewrite Hsc3|done|].
  apply wp_run. eexists _, _. split.
  { unfold rt_thread_sleep, bind, self, bind, gets, from_opt. rewrite Hc.
    rewrite (assert_thread_run s t _ _ (kinv_objs s t th HI Ht ltac:(stat_lia))) by done.
    rewrite (suspend_run s t th) by done. fold s1. rewrite Hr2, Hr3, Hr4. done. }
  rewrite Hu in Hoff. cbn -[off]. split_and!; [done|done| |done|done|].
  - unfold thread_stat, k_thr. cbn. rewrite Ht4. cbn. by rewrite Hs1.
  - intros Hn [u Hur]. rewrite Hsc3 in Hhi. destruct Hhi as (v & vh & Hv & Hvh & Hvr & Hna); [done| |].
    + intros Hg. pose proof (group_zero_none (k_sched s1) 32 (proj1 (ki_sched _ (proj1 HI1))) Hg) as Hno.
      unfold thread_stat in Hur. destruct (k_thr s !! u) as [uh|] eqn:Eu; [|done].
      injection Hur as Hur. specialize (Hno u uh).
      pose proof (sw_prio _ _ (proj1 (ki_sched _ (proj1 HI))) u uh Eu). cbn in Hno.
      rewrite lookup_insert_ne in Hno by (intros ->; simplify_eq; stat_lia).
      specialize (Hno Eu Hur). lia.
    + split; [by exists v, vh|]. unfold k_cur. cbn. rewrite Hv. intros [= ->].
      simplify_eq. stat_lia.
Qed.

(** The first half of [rt_thread_startup]. *)
Definition prepared (th : rt_thread) : rt_thread :=
  with_stat RT_THREAD_SUSPEND (with_priority (th_init_priority th) (2 ^ th_init_priority th) th).

Lemma kinv_prepared s t th :
  kinv s → k_thr s !! t = Some th → stat_of th = RT_THREAD_INIT → 0 ≤ th_init_priority th < 32 →
  kinv (upd_sched (put_thr t (prepared th)) s).
Proof.
  intros [HI Hw] Ht Hs Hp. split; [|done]. pose proof (ki_sched _ HI) as (Hsw & Hok & Hst).
  apply kinv0_sched; [done| |apply HI| |].
  - split_and!.
    + apply swf_put_transit; [|set_solver|done|done|done|done].
      apply swf_weaken; [done|]. intros h. by eapply started_cases.
    + intros u Hu. cbn in *. rewrite lookup_insert. case_decide; [by eexists|]. by apply Hok.
    + intros u uh. cbn. rewrite lookup_insert. case_decide; [|apply Hst]. intros [= <-].
      exact (Hst t th Ht).
  - intros u uh. cbn. rewrite lookup_insert. case_decide; [|eauto]. subst. intros _ _.
    exists th. split; [done|]. rewrite Hs. stat_lia.
  - intros u uh Hu Huh Hus. cbn. rewrite lookup_insert. case_decide; [by eexists|]. eauto.
Qed.

(** [rt_thread_startup] turns a freshly initialised thread into a ready (or, if
    it has the highest priority, running) thread of its initial priority, reschedules,
    and keeps the kernel invariant. *)
Theorem rt_thread_startup_spec s t th cur cth :
  kinv s → k_thr s !! t = Some th → stat_of th = RT_THREAD_INIT → 0 ≤ th_init_priority th < 32 →
  k_cur s = Some cur → k_thr s !! cur = Some cth → stat_of cth = RT_THREAD_RUNNING →
  sc_lock_nest (k_sched s) = 0 →
  wp (rt_thread_startup t) (λ r s', r = RT_EOK ∧ kinv s' ∧ runs_highest (k_sched s') ∧
    ∃ th', k_thr s' !! t = Some th' ∧ active th' ∧
      th_current_priority th' = th_init_priority th) s.
Proof.
  intros HI Ht Hs Hp Hc Hcth Hcr Hn. assert (t ≠ cur) as Hne by (intros ->; simplify_eq; stat_lia).
  pose proof (kinv_prepared s t th HI Ht Hs Hp) as HI1. set (s1 := upd_sched _ s) in HI1.
  assert (k_thr s1 !! t = Some (prepared th)) as Ht1
    by (unfold s1, k_thr; cbn; by rewrite lookup_insert_eq).
  pose proof (kinv_wake s1 t _ HI1 Ht1 eq_refl) as [HI2 Hw2].
  set (s2 := wake_st t (prepared th) s1) in *.
  assert (k_cur s2 = Some cur ∧ sc_lock_nest (k_sched s2) = 0 ∧ k_thr s2 !! cur = Some cth ∧
    k_thr s2 !! t = Some (set_stat RT_THREAD_READY (prepared th))) as (Hc2 & Hn2 & Hcth2 & Ht2).
  { unfold s2, wake_st, k_cur, k_thr. cbn -[stop_st].
    rewrite wake_sc_cur, wake_sc_lock, wake_sc_thr, !stop_st_sched.
    unfold s1. cbn. rewrite decide_False by (unfold k_cur in Hc; naive_solver).
    rewrite lookup_insert_eq, !lookup_insert_ne by done. done. }
  destruct (schedule_kinv0 s2 HI2) as (c' & Hrun & Hd & HI3). apply wp_run. eexists _, _. split.
  { unfold rt_thread_startup, bind, get_thread. rewrite Ht. unfold assert. rewrite Hs.
    cbn -[rt_thread_resume rt_schedule prio_mask assert_type].
    rewrite (assert_thread_run s t _ _ (kinv_objs s t th HI Ht ltac:(stat_lia))) by done.
    rewrite prio_mask_run by done. rewrite (mod_thread_run _ t th) by done.
    erewrite mod_thread_run by (unfold k_thr; cbn; by rewrite lookup_insert_eq).
    replace (upd_sched _ (upd_sched _ s)) with s1
      by (unfold s1, upd_sched, put_thr, set_thr; cbn; by rewrite insert_insert_eq).
    rewrite (resume_run s1 t (prepared th)) by done. fold s2. unfold rt_thread_self, gets.
    rewrite Hc2, decide_True by eauto. rewrite Hrun. done. }
  split_and!; [done|by split| |].
  - eapply scheduled_highest; [apply HI2|done|done|done|done|by left].
  - destruct (moved_lookup_inv _ _ _ _ (scheduled_moved _ _ (ki_sched _ HI2) Hd) Ht2) as (th' & Ht' & Hm).
    exists th'. split; [done|]. split.
    + destruct (stat_moves_stat _ _ Hm) as [E|[_ ?]]; [|done]. left. rewrite E.
      rewrite stat_of_set_stat; [done|stat_lia].
    + by destruct Hm as [->|(_ & st & _ & ->)].
Qed.

(** The part of [rt_thread_exit] and [rt_thread_detach] that hands the closed thread
    over: its object is detached, or it is queued for the idle thread. *)
Lemma reclaim_run s t th y :
  kinv s → k_thr s !! t = Some th → stat_of th = RT_THREAD_CLOSE →
  k_obj s !! Obj t = Some y → get_type y = RT_Object_Class_Thread → (∀ h, t ∉ tlist (k_tl s) h) →
  ∃ s', (b ← rt_object_is_systemobject (Obj t);
         th ← get_thread t;
         if b && bool_decide (th_cleanup th = None) then rt_object_detach (Obj t)
         else tl_insert_front HDefunct t) s = Some (tt, s') ∧ kinv s' ∧
    sc_thr (k_sched s') = sc_thr (k_sched s) ∧ sc_cur (k_sched s') = sc_cur (k_sched s) ∧
    sc_lock_nest (k_sched s') = sc_lock_nest (k_sched s) ∧
    sc_group (k_sched s') = sc_group (k_sched s) ∧ k_rows s' = k_rows s.
Proof.
  intros HI Ht Hs Hy Hty Hl. unfold rt_object_is_systemobject, bind, get_object, get_thread.
  rewrite Hy. cbn -[rt_object_detach]. rewrite Ht.
  destruct (nz _ && bool_decide _).
  - rewrite (object_detach_run s (Obj t) y) by done. eexists. split_and!; [done| |done..].
    by eapply kinv_reclaim.
  - destruct (kinv_defunct s t th HI Ht Hs Hl) as [-> HI']. eexists. by split_and!.
Qed.

Lemma close_st_props s t th x :
  kinv s → k_thr s !! t = Some th → stat_of th = RT_THREAD_INIT ∨ started th →
  is_timer (k_objects s) (ThreadTimer t) x →
  kinv (close_st t th x s) ∧ (∀ h, t ∉ tlist (k_tl (close_st t th x s)) h) ∧
  k_thr (close_st t th x s) !! t = Some (with_stat RT_THREAD_CLOSE th) ∧
  ThreadTimer t ∉ k_rows (close_st t th x s) ∧
  k_obj (close_st t th x s) !! Obj t = k_obj s !! Obj t.
Proof.
  intros HI Ht Hs Hx. split_and!.
  - by apply kinv_close.
  - intros h. apply (sched_inv_close t th (k_sched s)); [apply HI|done|done].
  - unfold k_thr. cbn -[close_sc]. by rewrite close_sc_thr, lookup_insert_eq.
  - unfold k_rows. cbn. rewrite list_elem_of_filter. naive_solver.
  - unfold k_obj. cbn -[detach_obj]. by rewrite detach_obj_lookup, decide_False.
Qed.

(** [rt_thread_exit] up to its call of [rt_schedule]. *)
Lemma exit_run s t th :
  kinv s → k_cur s = Some t → k_thr s !! t = Some th → stat_of th = RT_THREAD_RUNNING →
  ∃ s2, rt_thread_exit s = rt_schedule s2 ∧ kinv s2 ∧ k_cur s2 = Some t ∧
    sc_lock_nest (k_sched s2) = sc_lock_nest (k_sched s) ∧ ThreadTimer t ∉ k_rows s2 ∧
    k_thr s2 = <[t := with_stat RT_THREAD_CLOSE th]> (k_thr s).
Proof.
  intros HI Hc Ht Hs.
  destruct (kinv_objs s t th HI Ht ltac:(stat_lia)) as ((y & Hy & Hty) & (x & Hx & Hst) & _).
  destruct (close_st_props s t th x HI Ht ltac:(right; right; by right) Hx)
    as (HI1 & Hl1 & Ht1 & Hr1 & Hy1). set (s1 := close_st t th x s) in *.
  destruct (reclaim_run s1 t _ y HI1 Ht1 eq_refl ltac:(by rewrite Hy1) Hty Hl1)
    as (s2 & Hr2 & HI2 & Hthr2 & Hc2 & Hn2 & Hg2 & Hrow2).
  exists s2. split_and!; [|done| | |by rewrite Hrow2|].
  - unfold rt_thread_exit, bind at 1, self, bind at 1, gets at 1, from_opt. rewrite Hc.
    unfold bind at 1. rewrite (remove_thread_run s t th) by done.
    unfold bind at 1. rewrite (mod_thread_run _ t th) by done.
    unfold bind at 1. rewrite (timer_detach_run _ _ x) by done.
    set (s1' := mk_kst _ _ _ _).
    replace s1' with s1
      by (unfold s1, s1', close_st, close_sc; cbn; rewrite decide_False; [done|stat_lia]).
    revert Hr2. unfold bind. destruct (rt_object_is_systemobject _ s1) as [[b sb]|]; [|done].
    destruct (get_thread t sb) as [[th' sb']|]; [|done]. by intros ->.
  - unfold k_cur. rewrite Hc2. unfold s1, close_st. cbn -[close_sc]. by rewrite close_sc_cur.
  - rewrite Hn2. unfold s1, close_st, close_sc. cbn. by case_decide.
  - unfold k_thr. rewrite Hthr2. unfold s1, close_st. cbn -[close_sc]. apply close_sc_thr.
Qed.

(** A thread that returns is closed by [rt_thread_exit]: it never runs again
    (its state is closed, no ready list holds it, its timer is off), the ready thread
    of highest priority runs next, and the kernel invariant is kept. *)
Theorem rt_thread_exit_spec s t th :
  kinv s → k_cur s = Some t → k_thr s !! t = Some th → stat_of th = RT_THREAD_RUNNING →
  sc_lock_nest (k_sched s) = 0 → (∃ u uh, u ≠ t ∧ k_thr s !! u = Some uh ∧ stat_of uh = RT_THREAD_READY) →
  wp rt_thread_exit (λ _ s', kinv s' ∧ thread_stat s' t = Some RT_THREAD_CLOSE ∧
    (∀ p, t ∉ tlist (k_tl s') (HReady p)) ∧ ThreadTimer t ∉ k_rows s' ∧
    runs_highest (k_sched s') ∧ k_cur s' ≠ Some t) s.
Proof.
  intros HI Hc Ht Hs Hn (u & uh & Hut & Hu & Hur).
  destruct (exit_run s t th HI Hc Ht Hs) as (s2 & Hrun2 & [HI2 Hw2] & Hc2 & Hn2 & Hr2 & Hthr2).
  destruct (schedule_kinv0 s2 HI2) as (c' & Hrun & Hd & HI3).
  assert (k_thr s2 !! t = Some (with_stat RT_THREAD_CLOSE th)) as Ht2
    by (by rewrite Hthr2, lookup_insert_eq).
  assert (sc_thr c' !! t = Some (with_stat RT_THREAD_CLOSE th)) as Ht3.
  { eapply moved_suspended; [by apply scheduled_moved, Hd; apply HI2|done|]. intros [?|?]; done. }
  assert (runs_highest c') as Hhi.
  { eapply (scheduled_highest (k_sched s2) c'); [apply HI2|done|by rewrite Hn2|done|done|].
    right. intros Hg. pose proof (group_zero_none _ 32 (proj1 (ki_sched _ HI2)) Hg u uh) as Hno.
    pose proof (sw_prio _ _ (proj1 (ki_sched _ (proj1 HI))) u uh Hu). fold (k_thr s2) in Hno.
    rewrite Hthr2, lookup_insert_ne in Hno by done. specialize (Hno Hu Hur). lia. }
  unfold wp. rewrite Hrun2, Hrun. split_and!; [by split| | |done|done|].
  - unfold thread_stat, k_thr. cbn. by rewrite Ht3.
  - intros p (th' & Hth' & Hok & _)%(sw_place _ _ (proj1 (ki_sched _ HI3))). cbn in Hth'.
    rewrite Ht3 in Hth'. injection Hth' as <-. done.
  - destruct Hhi as (v & vh & Hv & Hvh & Hvr & _). unfold k_cur. cbn. rewrite Hv.
    intros [= ->]. rewrite Ht3 in Hvh. by injection Hvh as <-.
Qed.

(** Changing a thread's priority keeps the kernel invariant, sets priority and
    ready mask together, and moves a ready thread to the tail of its new list. *)
Theorem rt_thread_control_priority_spec s t th p :
  kinv s → k_thr s !! t = Some th → stat_of th ≠ RT_THREAD_CLOSE → 0 ≤ p < 32 →
  wp (rt_thread_control t RT_THREAD_CTRL_CHANGE_PRIORITY p) (λ r s', r = RT_EOK ∧ kinv s' ∧
    (∃ th', k_thr s' !! t = Some th' ∧ stat_of th' = stat_of th ∧
       th_current_priority th' = p ∧ th_number_mask th' = 2 ^ p) ∧
    (stat_of th = RT_THREAD_READY →
       tlist (k_tl s') (HReady p) = filter (λ u, u ≠ t) (tlist (k_tl s) (HReady p)) ++ [t])) s.
Proof.
  intros HI Ht Hs Hp. assert (u8 p = p) as Hu by (apply wrap_small; lia).
  apply wp_run. eexists _, _. split.
  { unfold rt_thread_control, bind. rewrite (assert_thread_run s t _ _ (kinv_objs s t th HI Ht Hs)) by done.
    cbn -[change_priority]. rewrite Hu, (change_priority_run s t th) by (done || apply HI). done. }
  split_and!; [done|by apply kinv_prio| |].
  - unfold k_thr. cbn -[prio_st]. rewrite prio_st_thr, lookup_insert_eq. eexists. split; [done|].
    rewrite prio_st_stat. by case_decide.
  - intros Hr. unfold k_tl. cbn -[prio_st]. unfold prio_st. rewrite decide_True by done. cbn.
    by rewrite tlist_insert, decide_True, tlist_remove by done.
Qed.

(** * Deciding the invariant on concrete states *)

Definition objs_check (T : timers) (O : objects) (t : Z) : bool :=
  match ob_obj O !! Obj t, ob_obj O !! ThreadTimer t, tms_tim T !! ThreadTimer t with
  | Some x, Some y, Some tm =>
      (get_type x =? RT_Object_Class_Thread) && (get_type y =? RT_Object_Class_Timer) &&
      nz (Z.land (o_type y) RT_Object_Class_Static) &&
      match tm_timeout_func tm with rt_thread_timeout_fn u => u =? t | user_fn _ _ => false end
  | _, _, _ => false
  end.

Definition kinv_check (s : kst) : bool :=
  bool_decide (sched_inv_fin (k_sched s)) &&
  bool_decide (twf_fin false (k_timers s) (k_objects s)) &&
  bool_decide (is_Some (k_cur s)) &&
  forallb (λ x : Z * rt_thread, (stat_of x.2 =? RT_THREAD_CLOSE) ||
    objs_check (k_timers s) (k_objects s) x.1) (map_to_list (k_thr s)) &&
  forallb (λ o, match o with
    | ThreadTimer t => match k_thr s !! t with
                       | Some th => stat_of th =? RT_THREAD_SUSPEND | None => false end
    | Obj _ => true end) (k_rows s) &&
  forallb (λ x : oid * rt_object, match x.1 with
    | ThreadTimer _ => negb (has_flag RT_TIMER_FLAG_PERIODIC x.2) | Obj _ => true end)
    (map_to_list (k_obj s)) &&
  forallb (λ x : oid * rt_timer, match x.1, tm_timeout_func x.2 with
    | Obj _, rt_thread_timeout_fn _ => false | _, _ => true end) (map_to_list (k_tim s)).

Lemma forallb_map {Key A} `{Countable Key} (f : Key * A → bool) (m : gmap Key A) :
  forallb f (map_to_list m) = true → ∀ k x, m !! k = Some x → f (k, x) = true.
Proof.
  rewrite forallb_forall. intros Hf k x Hx. apply Hf, list_elem_of_In.
  by apply elem_of_map_to_list.
Qed.

Lemma kinv_check_sound s : kinv_check s = true → kinv s.
Proof.
  unfold kinv_check. rewrite !andb_true_iff, !bool_decide_eq_true.
  intros ((((((Hs & Ht) & Hc) & Ho) & Hr) & Hp) & Hu). split; [|by apply twf_fin_sound].
  split.
  - by apply sched_inv_fin_sound.
  - done.
  - intros t th Hth Hcl. pose proof (forallb_map _ _ Ho t th Hth) as Hx. cbn in Hx.
    rewrite (proj2 (Z.eqb_neq _ _) Hcl) in Hx. cbn in Hx. unfold objs_check in Hx.
    destruct (ob_obj (k_objects s) !! Obj t) as [x|] eqn:Ex; [|done].
    destruct (ob_obj (k_objects s) !! ThreadTimer t) as [y|] eqn:Ey; [|done].
    destruct (tms_tim (k_timers s) !! ThreadTimer t) as [tm|] eqn:Et; [|done].
    rewrite !andb_true_iff, !Z.eqb_eq in Hx. destruct Hx as (((Hx1 & Hx2) & Hx3) & Hx4).
    unfold thread_objs, is_timer. rewrite Ex, Ey, Et.
    destruct (tm_timeout_func tm) eqn:Ef; [apply Z.eqb_eq in Hx4 as ->|done]. eauto 10.
  - intros t Hin. rewrite forallb_forall in Hr. apply list_elem_of_In in Hin.
    specialize (Hr _ Hin). cbn in Hr. destruct (k_thr s !! t) as [th|]; [|done].
    exists th. by apply Z.eqb_eq in Hr.
  - intros t x Hx. pose proof (forallb_map _ _ Hp _ x Hx) as E. cbn in E. by apply negb_true_iff in E.
  - intros a tm Hx. pose proof (forallb_map _ _ Hu _ tm Hx) as E. cbn in E.
    destruct (tm_timeout_func tm); [done|eauto].
Qed.

(** * Instances *)

(** The objects of the threads of [demo_sched]; the timer of the waiting thread 5
    expires in 3 ticks, thread 6 is initialised and not started. *)
Definition demo : kst :=
  let hdr ty f := mk_object [] (ty + RT_Object_Class_Static) f in
  let objs := (λ t, (Obj t, hdr RT_Object_Class_Thread 0)) <$> [1; 2; 3; 4; 5; 6] in
  let tms := (λ t, (ThreadTimer t,
               hdr RT_Object_Class_Timer (if t =? 5 then 1 else 0))) <$> [1; 2; 3; 4; 5; 6] in
  let tim := (λ t, (ThreadTimer t, mk_timer (rt_thread_timeout_fn t) 4 103)) <$> [1; 2; 3; 4; 5; 6] in
  mk_kst (put_thr 6 (demo_thread 7 RT_THREAD_INIT) demo_sched)
    (mk_timers (list_to_map tim) [ThreadTimer 5] 100 0)
    (mk_objects (list_to_map (objs ++ tms)) ∅) (mk_ipcs ∅ ∅ ∅ ∅ ∅).

Lemma demo_kinv : kinv demo.
Proof. apply kinv_check_sound. vm_compute. reflexivity. Qed.

(** The demo system with the timer of the ready thread 3 still running. *)
Definition demo_armed : kst :=
  upd_timers (set_rows [ThreadTimer 5; ThreadTimer 3])
    (upd_objects (put_obj (ThreadTimer 3) (mk_object [] (RT_Object_Class_Timer + RT_Object_Class_Static) 1)) demo).

Lemma demo_armed_upto : kinv_upto 3 demo_armed.
Proof.
  split; [apply twf_fin_sound; refine (bool_decide_eq_true_1 _ _); vm_compute; reflexivity|].
  apply (proj1 (kinv_check_sound (stop_st (ThreadTimer 3) demo_armed) ltac:(vm_compute; reflexivity))).
Qed.

Lemma rt_thread_suspend_spec_witness :
  wp (rt_thread_suspend 3) (λ r s', r = RT_EOK ∧ thread_stat s' 3 = Some RT_THREAD_SUSPEND ∧
    k_rows s' = [ThreadTimer 5]) demo_armed.
Proof.
  eapply wp_mono; [eapply (rt_thread_suspend_spec demo_armed 3); [apply demo_armed_upto|reflexivity|done]|].
  intros r s' (_ & E & _). destruct E as (? & _ & ? & _ & _ & _ & _ & ? & _); [by left|done].
Defined.

Lemma rt_thread_resume_spec_witness :
  wp (rt_thread_resume 5) (λ r s', r = RT_EOK ∧ tlist (k_tl s') (HReady 5) = [5]) demo.
Proof.
  eapply wp_mono; [eapply (rt_thread_resume_spec demo 5); [apply demo_kinv|reflexivity|done|done]|].
  intros r s' (_ & _ & E & _). destruct E as (? & _ & _ & ? & _); [reflexivity|done].
Defined.

Lemma rt_thread_sleep_spec_witness :
  wp (rt_thread_sleep 25) (λ r s', r = Blocked 1 ∧ off (k_timers s') (ThreadTimer 1) = 25) demo.
Proof.
  eapply wp_mono; [eapply (rt_thread_sleep_spec demo 1);
    [apply demo_kinv|reflexivity|reflexivity|reflexivity|by vm_compute]|].
  by intros r s' (? & _ & _ & _ & ? & _).
Defined.

Lemma rt_thread_startup_spec_witness :
  wp (rt_thread_startup 6) (λ r s', r = RT_EOK ∧ runs_highest (k_sched s')) demo.
Proof.
  eapply wp_mono; [eapply (rt_thread_startup_spec demo 6);
    [apply demo_kinv|reflexivity|reflexivity|by vm_compute|reflexivity..]|].
  by intros r s' (? & _ & ? & _).
Defined.

Lemma rt_thread_exit_spec_witness :
  wp rt_thread_exit (λ _ s', thread_stat s' 1 = Some RT_THREAD_CLOSE) demo.
Proof.
  eapply wp_mono; [eapply (rt_thread_exit_spec demo 1);
    [apply demo_kinv|reflexivity|reflexivity|reflexivity|reflexivity|]|].
  - by exists 2, (demo_thread 10 RT_THREAD_READY).
  - by intros r s' (_ & ? & _).
Defined.

Lemma rt_thread_control_priority_spec_witness :
  wp (rt_thread_control 3 RT_THREAD_CTRL_CHANGE_PRIORITY 20)
    (λ r s', tlist (k_tl s') (HReady 20) = [4; 3]) demo.
Proof.
  eapply wp_mono; [eapply (rt_thread_control_priority_spec demo 3);
    [apply demo_kinv|reflexivity|done|lia]|].
  intros r s' (_ & _ & _ & E). by apply E.
Defined.
