(* ===== verification/Clock.v ===== *)
(** The clock, src/clock.c: the tick interrupt advances the time, ends time slices
    and fires the expired timers, among them the timeouts of waiting threads. *)

From Stdlib Require Import ZArith Lia.
From stdpp Require Import base numbers option gmap.
From stdpp Require Import list sorting.
From S2P Require Import Prelude.
From S2P Require Import Kservice.
From S2P Require Import KernelDefs.
From S2P Require Import Scheduler.
From S2P Require Import Object.
From S2P Require Import Timer.
From S2P Require Import Thread.
Local Open Scope Z_scope.
Local Open Scope rt_scope.

Definition rt_tick_set (tick : Z) : K unit := modify (upd_timers (set_tick (u32 tick))).

(** C division truncates; for a nonnegative argument it is [Z.div]. *)
Definition rt_tick_from_millisecond (ms : Z) : Z :=
  if ms <? 0 then u32 RT_WAITING_FOREVER
  else
    let tick := u32 (RT_TICK_PER_SECOND * (ms / 1000)) in
    u32 (tick + (RT_TICK_PER_SECOND * (ms mod 1000) + 999) / 1000).

Definition rt_thread_mdelay (ms : Z) : K (outcome Z Z) :=
  rt_thread_sleep (rt_tick_from_millisecond ms).

Section clock.
(** The timeout functions of the application's timers. *)
Variable user : Z → Z → K unit.

(** [t->timeout_func(t->parameter)] *)
Definition call_timeout (f : timeout_fn) : K unit :=
  match f with
  | rt_thread_timeout_fn t => rt_thread_timeout t
  | user_fn f p => user f p
  end.

Definition rt_tick_increase (fuel : nat) : K unit :=
  modify (upd_timers (λ T, set_tick (u32 (tms_tick T + 1)) T)) ;;
  t ← self;
  mod_thread t (λ th, with_remaining_tick (u32 (th_remaining_tick th - 1)) th) ;;
  th ← get_thread t;
  (if th_remaining_tick th =? 0 then
     mod_thread t (λ th, with_remaining_tick (th_init_tick th) th) ;;
     rt_thread_yield ;; ret tt
   else ret tt) ;;
  rt_timer_check call_timeout fuel.

End clock.

(** * Lemmas *)

(** An update of control block fields that no invariant reads. *)
Lemma kinv0_put_same s t th th' :
  kinv0 s → k_thr s !! t = Some th → stat_of th' = stat_of th →
  th_current_priority th' = th_current_priority th → th_number_mask th' = th_number_mask th →
  stack_ok th' = stack_ok th → kinv0 (upd_sched (put_thr t th') s).
Proof.
  intros HI Ht Hs Hp Hm Hk. pose proof (ki_sched _ HI) as (Hsw & Hok & Hst).
  apply kinv0_sched; [done| |apply HI| |].
  - split_and!.
    + by eapply swf_put_same.
    + intros u Hu. cbn in *. rewrite lookup_insert. case_decide; [|by apply Hok]. subst.
      destruct (Hok u Hu) as (uh & ? & ?). exists th'. split; [done|]. unfold k_thr in Ht. congruence.
    + intros u uh. cbn. rewrite lookup_insert. case_decide; [|apply Hst]. intros [= <-].
      rewrite Hk. by apply (Hst t).
  - intros u uh. cbn. rewrite lookup_insert. case_decide; [|eauto]. subst. intros [= <-]. rewrite Hs. eauto.
  - intros u uh Hu Huh Hus. cbn. rewrite lookup_insert. case_decide; [|eauto]. subst.
    exists th'. split; [done|]. unfold k_thr in *. congruence.
Qed.

Lemma kinv_put_same s t th th' :
  kinv s → k_thr s !! t = Some th → stat_of th' = stat_of th →
  th_current_priority th' = th_current_priority th → th_number_mask th' = th_number_mask th →
  stack_ok th' = stack_ok th → kinv (upd_sched (put_thr t th') s).
Proof. intros [HI Hw] ? ? ? ? ?. split; [by eapply kinv0_put_same|done]. Qed.

Lemma off_next T p :
  0 ≤ off T p < HALF → is_Some (tms_tim T !! p) →
  off (set_tick (u32 (tms_tick T + 1)) T) p = off T p - 1.
Proof.
  unfold off. cbn. intros Hr [tm Htm]. rewrite Htm in *. tick_lia.
Qed.

(** Advancing the clock leaves timers at most one tick overdue. *)
Lemma twf_tick T O : twf false T O → twf true (set_tick (u32 (tms_tick T + 1)) T) O.
Proof.
  intros Hw. assert (∀ p, p ∈ tms_rows T →
    off (set_tick (u32 (tms_tick T + 1)) T) p = off T p - 1) as Hoff.
  { intros p Hp. apply off_next; [by apply (tw_range _ _ Hw)|by apply (tw_rows _ _ Hw)]. }
  split; try apply Hw.
  - eapply StronglySorted_ext; [|apply Hw]. intros a b Ha Hb. cbv beta. rewrite !Hoff by done. lia.
  - intros p Hp. rewrite Hoff by done. pose proof (tw_range _ _ Hw p Hp). cbn in *. lia.
Qed.

Lemma kinv0_timers s T' :
  kinv0 s → tms_tim T' = k_tim s → (∀ t, ThreadTimer t ∈ tms_rows T' → ThreadTimer t ∈ k_rows s) →
  kinv0 (mk_kst (k_sched s) T' (k_objects s) (k_ipc s)).
Proof.
  intros HI Ht Hr. split; try apply HI.
  - intros u uh Hu Hus. unfold thread_objs. cbn. rewrite Ht. exact (ki_objs _ HI u uh Hu Hus).
  - intros t Hin. by apply (ki_wait _ HI), Hr.
  - intros a tm. unfold k_tim at 1. cbn. rewrite Ht. apply (ki_user _ HI).
Qed.

Lemma scheduled_nests c c' :
  scheduled c c' → sc_lock_nest c' = sc_lock_nest c ∧ sc_irq_nest c' = sc_irq_nest c.
Proof. destruct 1; try done. unfold switch_sc. by case_decide. Qed.

(** The current thread runs. *)
Definition running (s : kst) : Prop :=
  ∃ t th, k_cur s = Some t ∧ k_thr s !! t = Some th ∧ stat_of th = RT_THREAD_RUNNING.

Lemma runs_highest_running s : runs_highest (k_sched s) → running s.
Proof. intros (t & th & ? & ? & ? & _). by exists t, th. Qed.

(** What the clock leaves alone: the IPC objects, the nesting counters, and the waiting
    lists but for threads that leave them; the running thread keeps being the highest. *)
Record calm (s s' : kst) : Prop := {
  cm_ipc : k_ipc s' = k_ipc s;
  cm_lock : sc_lock_nest (k_sched s') = sc_lock_nest (k_sched s);
  cm_irq : sc_irq_nest (k_sched s') = sc_irq_nest (k_sched s);
  cm_wait : ∀ h u, (∀ p, h ≠ HReady p) → u ∈ tlist (k_tl s') h → u ∈ tlist (k_tl s) h;
  cm_active : ∀ u uh, k_thr s !! u = Some uh → active uh →
    ∃ uh', k_thr s' !! u = Some uh' ∧ active uh' ∧ th_error uh' = th_error uh;
  cm_high : sc_lock_nest (k_sched s) = 0 → running s →
    running s' ∧ (runs_highest (k_sched s) → runs_highest (k_sched s'))
}.

Lemma calm_refl s : calm s s.
Proof. split; eauto. Qed.

Lemma moved_active c c' u uh :
  moved c c' → sc_thr c !! u = Some uh → active uh →
  ∃ uh', sc_thr c' !! u = Some uh' ∧ active uh' ∧ th_error uh' = th_error uh.
Proof.
  intros Hm Hu Ha. destruct (moved_lookup_inv _ _ _ _ Hm Hu) as (uh' & Hu' & Hmv). exists uh'. split; [done|].
  destruct Hmv as [->|(_ & st & Hst & ->)]; [done|]. split; [|done]. unfold active.
  rewrite stat_of_set_stat; destruct Hst as [-> | ->]; stat_lia.
Qed.

Lemma calm_trans s1 s2 s3 : calm s1 s2 → calm s2 s3 → calm s1 s3.
Proof.
  intros [H1 H2 H3 H4 H5 H6] [G1 G2 G3 G4 G5 G6].
  split; [congruence|congruence|congruence|eauto| |].
  - intros u uh Hu Ha. destruct (H5 u uh Hu Ha) as (uh' & Hu' & Ha' & <-). eauto.
  - intros Hn Hr. destruct (H6 Hn Hr) as [? ?], G6; [congruence|done|tauto].
Qed.

(** Changes outside the scheduler and the IPC objects. *)
Lemma calm_same s s' : k_sched s' = k_sched s → k_ipc s' = k_ipc s → calm s s'.
Proof.
  intros Hs Hi. split; try (by rewrite Hs); [done|by unfold k_tl; rewrite Hs| |].
  - unfold k_thr. rewrite Hs. eauto.
  - unfold running, k_cur, k_thr. by rewrite Hs.
Qed.

(** An update of a control block that keeps state and priority. *)
Lemma calm_put s t th th' :
  k_thr s !! t = Some th → stat_of th' = stat_of th → th_current_priority th' = th_current_priority th →
  th_error th' = th_error th → calm s (upd_sched (put_thr t th') s).
Proof.
  intros Ht Hs Hp He. assert (∀ u uh, k_thr s !! u = Some uh → ∃ uh', <[t := th']> (k_thr s) !! u = Some uh' ∧
    stat_of uh' = stat_of uh ∧ th_current_priority uh' = th_current_priority uh ∧ th_error uh' = th_error uh) as Hl.
  { intros u uh Hu. rewrite lookup_insert. case_decide; [|eauto]. subst. exists th'. naive_solver. }
  split; try done.
  - intros u uh Hu Ha. destruct (Hl u uh Hu) as (uh' & ? & E & _ & ?). exists uh'. split; [done|]. unfold active. by rewrite E.
  - intros Hn (v & vh & Hv & Hvh & Hvr). destruct (Hl v vh Hvh) as (vh' & Hvh' & E1 & E2 & _). split.
    + exists v, vh'. by rewrite E1.
    + intros (v' & vw & Hv' & Hvw & _ & Hna). unfold k_cur in Hv. rewrite Hv in Hv'. injection Hv' as <-.
      unfold k_thr in Hvh. rewrite Hvh in Hvw. injection Hvw as <-.
      exists v, vh'. cbn. rewrite E1, E2. split_and!; [done|done|done|]. intros u uh. cbn. rewrite lookup_insert.
      case_decide; [|apply Hna]. subst. intros [= <-]. rewrite Hs, Hp. by apply (Hna u).
Qed.

(** A reschedule. *)
Lemma calm_schedule s c' :
  sched_inv (k_sched s) → scheduled (k_sched s) c' → calm s (mk_kst c' (k_timers s) (k_objects s) (k_ipc s)).
Proof.
  intros HI Hd. destruct (scheduled_nests _ _ Hd) as [? ?]. split; cbn; try done.
  - intros h u Hh. unfold k_tl. cbn. by rewrite (scheduled_waiting _ _ h HI Hd Hh).
  - intros u uh Hu Ha. exact (moved_active _ _ u uh (scheduled_moved _ _ HI Hd) Hu Ha).
  - intros Hn (t & th & Hc & Ht & Hr).
    assert (runs_highest c') as Hh by (eapply (scheduled_highest (k_sched s)); [done|done|done|done|done|by left]).
    split; [|done]. by apply runs_highest_running.
Qed.

Definition timed_out (th : rt_thread) : rt_thread := with_error (- RT_ETIMEOUT) th.

Lemma timeout_run s t th :
  kinv0 s → k_thr s !! t = Some th → stat_of th = RT_THREAD_SUSPEND → ThreadTimer t ∉ k_rows s →
  ∃ c', rt_thread_timeout t s = Some (tt, mk_kst c' (k_timers s) (k_objects s) (k_ipc s)) ∧
    kinv0 (mk_kst c' (k_timers s) (k_objects s) (k_ipc s)) ∧
    moved (wake_sc t (timed_out th) (put_thr t (timed_out th) (k_sched s))) c' ∧
    calm s (mk_kst c' (k_timers s) (k_objects s) (k_ipc s)).
Proof.
  intros HI Ht Hs Hr. set (s1 := upd_sched (put_thr t (timed_out th)) s).
  assert (kinv0 s1) as HI1 by (by eapply kinv0_put_same).
  assert (k_thr s1 !! t = Some (timed_out th)) as Ht1
    by (unfold s1, k_thr; cbn; by rewrite lookup_insert_eq).
  pose proof (kinv0_wake s1 t (timed_out th) HI1 Ht1 Hs Hr) as HI2.
  destruct (schedule_kinv0 _ HI2) as (c' & Hrun & Hd & HI3). exists c'. split_and!; [|done| |].
  - unfold rt_thread_timeout, bind at 1, get_thread. rewrite Ht.
    unfold bind at 1, assert at 1. rewrite Hs.
    cbn -[rt_schedule_insert_thread rt_schedule assert_type mod_thread].
    unfold bind. rewrite (assert_thread_run s t _ _ (ki_objs _ HI t th Ht ltac:(stat_lia))) by done.
    rewrite (mod_thread_run s t th) by done. unfold tl_remove.
    change (upd_sched (set_tl (tl_remove_from t (k_tl _))) _) with (upd_sched (unlink_sc t) s1).
    rewrite (relink_run s1 t (timed_out th)) by done. exact Hrun.
  - by apply scheduled_moved; [apply HI2|].
  - pose proof (calm_schedule _ c' (ki_sched _ HI2) Hd) as [_ Hlk Hiq Hwt Hac Hhi]. cbn in Hlk, Hiq, Hhi.
    rewrite wake_sc_lock in Hlk, Hhi. split; cbn; [done|done| | | |].
    + rewrite Hiq. unfold wake_sc. by case_decide.
    + intros h u Hh Hu. specialize (Hwt h u Hh Hu). unfold k_tl in Hwt. cbn in Hwt.
      rewrite wake_sc_tl in Hwt by done. by apply list_elem_of_filter in Hwt as [_ ?].
    + intros u uh Hu Ha. assert (u ≠ t) by (intros ->; rewrite Hu in Ht; simplify_eq; destruct Ha; stat_lia).
      apply (Hac u uh); [|done]. unfold k_thr. cbn. rewrite wake_sc_thr. cbn. by rewrite !lookup_insert_ne by done.
    + intros Hn (v & vh & Hv & Hvh & Hvr).
      assert (v ≠ t) as Hne by (intros ->; simplify_eq; stat_lia).
      assert (runs_highest c') as Hh; [|split; [by apply runs_highest_running|done]].
      eapply (scheduled_highest _ _ v vh); [apply HI2|exact Hd|cbn; by rewrite wake_sc_lock|cbn; by rewrite wake_sc_cur| |by left].
      cbn. rewrite wake_sc_thr. cbn. by rewrite !lookup_insert_ne by done.
Qed.

Lemma moved_open c c' u uh :
  moved c c' → sc_thr c !! u = Some uh → stat_of uh ≠ RT_THREAD_CLOSE →
  ∃ uh', sc_thr c' !! u = Some uh' ∧ stat_of uh' ≠ RT_THREAD_CLOSE.
Proof.
  intros Hm Hu Hs. destruct (moved_lookup_inv _ _ _ _ Hm Hu) as (uh' & Hu' & Hmv). exists uh'. split; [done|].
  destruct (stat_moves_stat _ _ Hmv) as [->|[_ [Ha|Ha]]]; [done|rewrite Ha; stat_lia..].
Qed.

(** The time-slice part of [rt_tick_increase]. *)
Definition slice (t : Z) : K unit :=
  mod_thread t (λ th, with_remaining_tick (u32 (th_remaining_tick th - 1)) th) ;;
  th ← get_thread t;
  if th_remaining_tick th =? 0 then
    mod_thread t (λ th, with_remaining_tick (th_init_tick th) th) ;;
    rt_thread_yield ;; ret tt
  else ret tt.

Lemma slice_run s t th :
  kinv0 s → k_cur s = Some t → k_thr s !! t = Some th →
  ∃ c', slice t s = Some (tt, mk_kst c' (k_timers s) (k_objects s) (k_ipc s)) ∧
    kinv0 (mk_kst c' (k_timers s) (k_objects s) (k_ipc s)) ∧
    calm s (mk_kst c' (k_timers s) (k_objects s) (k_ipc s)) ∧
    ∀ u uh, k_thr s !! u = Some uh → stat_of uh ≠ RT_THREAD_CLOSE →
      ∃ uh', sc_thr c' !! u = Some uh' ∧ stat_of uh' ≠ RT_THREAD_CLOSE.
Proof.
  intros HI Hc Ht. set (f := λ th, with_remaining_tick (u32 (th_remaining_tick th - 1)) th).
  set (s1 := upd_sched (put_thr t (f th)) s).
  assert (kinv0 s1) as HI1 by (by eapply kinv0_put_same).
  assert (∀ m u uh, stat_of (m : rt_thread) = stat_of th → k_thr s !! u = Some uh →
    ∃ uh', <[t := m]> (k_thr s) !! u = Some uh' ∧ stat_of uh' = stat_of uh) as Hput.
  { intros m u uh Hm Hu. rewrite lookup_insert. case_decide; [|eauto]. subst. naive_solver. }
  unfold slice, bind at 1. fold f. rewrite (mod_thread_run s t th) by done. fold s1.
  unfold bind at 1, get_thread. assert (k_thr s1 !! t = Some (f th)) as Ht1
    by (unfold s1, k_thr; cbn; by rewrite lookup_insert_eq).
  rewrite Ht1. destruct (Z.eqb_spec (th_remaining_tick (f th)) 0) as [E|E].
  - set (m := with_remaining_tick (th_init_tick (f th)) (f th)).
    set (s2 := upd_sched (put_thr t m) s1). assert (kinv0 s2) as HI2 by (by eapply kinv0_put_same).
    destruct (schedule_kinv0 s2 HI2) as (c' & Hrun & Hd & HI3). exists c'. split_and!; [|done| |].
    + unfold bind. rewrite (mod_thread_run s1 t (f th)) by done. fold m s2.
      unfold rt_thread_yield, bind. by rewrite Hrun.
    + eapply calm_trans; [by apply (calm_put s t th (f th))|]. fold s1.
      eapply calm_trans; [by apply (calm_put s1 t (f th) m)|]. fold s2.
      exact (calm_schedule s2 c' (ki_sched _ HI2) Hd).
    + intros u uh Hu Hus. destruct (Hput m u uh eq_refl Hu) as (uh' & Hu' & Es).
      eapply (moved_open (k_sched s2)); [by apply scheduled_moved, Hd; apply HI2| |by rewrite Es].
      unfold s2, s1. cbn. by rewrite insert_insert_eq.
  - exists (k_sched s1). split_and!; [done|done|by apply (calm_put s t th (f th))|]. intros u uh Hu Hus.
    destruct (Hput (f th) u uh eq_refl Hu) as (uh' & Hu' & Es). exists uh'. split; [done|congruence].
Qed.

(** * Properties *)

(** [rt_tick_from_millisecond] rounds a nonnegative delay up to whole ticks: the
    result is the least number of ticks that lasts at least [ms] milliseconds. *)
Theorem rt_tick_from_millisecond_spec ms :
  0 ≤ ms < 2 ^ 31 →
  let r := rt_tick_from_millisecond ms in
  ms * RT_TICK_PER_SECOND ≤ r * 1000 ∧ (r - 1) * 1000 < ms * RT_TICK_PER_SECOND ∧
  0 ≤ r < HALF.
Proof.
  intros Hms. unfold rt_tick_from_millisecond, RT_TICK_PER_SECOND.
  rewrite (proj2 (Z.ltb_ge _ _)) by lia.
  unfold HALF, RT_TICK_MAX. change (0xffffffff / 2) with 2147483647.
  pose proof (Z.div_mod ms 1000 ltac:(lia)). pose proof (Z.mod_pos_bound ms 1000 ltac:(lia)).
  set (q := ms / 1000) in *. set (m := ms mod 1000) in *.
  pose proof (Z.div_mod (100 * m + 999) 1000 ltac:(lia)).
  pose proof (Z.mod_pos_bound (100 * m + 999) 1000 ltac:(lia)).
  set (k := (100 * m + 999) / 1000) in *.
  change (2 ^ 31) with 2147483648 in Hms. change (2 ^ 32) with 4294967296.
  rewrite (wrap_small 32 (100 * q)) by (change (2 ^ 32) with 4294967296; lia).
  rewrite wrap_small by (change (2 ^ 32) with 4294967296; lia). cbn zeta. lia.
Qed.

(** * Instances *)

Lemma rt_tick_from_millisecond_spec_witness :
  rt_tick_from_millisecond 25 = 3 ∧ 25 * RT_TICK_PER_SECOND ≤ rt_tick_from_millisecond 25 * 1000.
Proof. split; [reflexivity|]. apply (rt_tick_from_millisecond_spec 25). lia. Defined.
