(* ===== verification/Ipc.v ===== *)
(** Waiting lists, the common part of src/ipc.c: suspending the caller on the list of
    an IPC object in FIFO or priority order, waking the first waiter, waking all. *)

From Stdlib Require Import ZArith Lia.
From stdpp Require Import base numbers option gmap.
From stdpp Require Import list sorting.
From S2P Require Import Prelude.
From S2P Require Import Kservice.
From S2P Require Import KernelDefs.
From S2P Require Import Scheduler.
From S2P Require Import Object.
From S2P Require Import Timer.
From S2P Require Import Thread.
From S2P Require Import Clock.
Local Open Scope Z_scope.
Local Open Scope rt_scope.

(** * Operations *)

(** [rt_list_init(&(ipc->suspend_thread))]; resetting the head of a list that still
    links threads would corrupt it. *)
Definition rt_ipc_object_init (h : thead) : K unit :=
  l ← gets (λ s, tlist (k_tl s) h);
  assert (bool_decide (l = [])) ;;
  modify (upd_sched (λ c, set_tl (<[h := []]> (sc_tl c)) c)).

(** The search of the priority-ordered insertion: the first waiting thread of
    strictly lower priority. The outer [None] is a wild pointer. *)
Fixpoint first_lower (thr : gmap Z rt_thread) (p : Z) (l : list Z) : option (option Z) :=
  match l with
  | [] => Some None
  | x :: l' =>
      match thr !! x with
      | None => None
      | Some sthread =>
          if p <? th_current_priority sthread then Some (Some x) else first_lower thr p l'
      end
  end.

Definition rt_ipc_list_suspend (h : thead) (t flag : Z) : K unit :=
  rt_thread_suspend t ;;
  if flag =? RT_IPC_FLAG_FIFO then tl_insert_tail h t
  else if flag =? RT_IPC_FLAG_PRIO then
    th ← get_thread t;
    thr ← gets k_thr;
    l ← gets (λ s, tlist (k_tl s) h);
    n ← from_opt (first_lower thr (th_current_priority th) l);
    match n with
    | Some sthread => tl_insert_before h sthread t
    | None => tl_insert_tail h t
    end
  else ret tt.

Definition rt_ipc_list_resume (h : thead) : K unit :=
  l ← gets (λ s, tlist (k_tl s) h);
  t ← from_opt (head l);
  rt_thread_resume t ;; ret tt.

(** The loop of [rt_ipc_list_resume_all]; every round empties the list by one. *)
Fixpoint resume_all_loop (fuel : nat) (h : thead) : K unit :=
  match fuel with
  | O => λ _, None
  | S fuel =>
      l ← gets (λ s, tlist (k_tl s) h);
      match l with
      | [] => ret tt
      | t :: _ =>
          mod_thread t (with_error (- RT_ERROR)) ;;
          rt_thread_resume t ;;
          resume_all_loop fuel h
      end
  end.

Definition rt_ipc_list_resume_all (h : thead) : K unit :=
  l ← gets (λ s, tlist (k_tl s) h);
  resume_all_loop (S (length l)) h.

(** The lines every blocking operation shares: queue the caller and, for a positive
    timeout, start its timer. *)
Definition ipc_wait (h : thead) (t flag time : Z) : K unit :=
  rt_ipc_list_suspend h t flag ;;
  if 0 <? time then
    rt_timer_control (ThreadTimer t) RT_TIMER_CTRL_SET_TIME time ;;
    rt_timer_start (ThreadTimer t) ;; ret tt
  else ret tt.

(** * The queue discipline *)

(** Reference: where a thread of priority [p] is queued. *)
Fixpoint prio_insert (thr : gmap Z rt_thread) (p t : Z) (l : list Z) : list Z :=
  match l with
  | [] => [t]
  | x :: l' => if p <? default 0 (th_current_priority <$> thr !! x) then t :: x :: l'
               else x :: prio_insert thr p t l'
  end.

Definition enqueue (flag : Z) (thr : gmap Z rt_thread) (p t : Z) (l : list Z) : list Z :=
  if flag =? RT_IPC_FLAG_FIFO then l ++ [t] else prio_insert thr p t l.

(** Insertion in priority order is stable: behind the waiters of the same or higher
    priority, in front of the first one of lower priority. *)
Lemma prio_insert_split thr p t l :
  ∃ l1 l2, l = l1 ++ l2 ∧ prio_insert thr p t l = l1 ++ t :: l2 ∧
    (∀ x xh, x ∈ l1 → thr !! x = Some xh → th_current_priority xh ≤ p) ∧
    (∀ x xh, head l2 = Some x → thr !! x = Some xh → p < th_current_priority xh).
Proof.
  induction l as [|x l IH]; [exists [], []; set_solver|]. cbn.
  destruct (Z.ltb_spec p (default 0 (th_current_priority <$> thr !! x))) as [Hlt|Hge].
  - exists [], (x :: l). split_and!; [done|done|set_solver|]. intros y yh [= <-] Hy.
    by rewrite Hy in Hlt.
  - destruct IH as (l1 & l2 & -> & -> & H1 & H2). exists (x :: l1), l2.
    split_and!; [done|done| |done]. intros y yh [->|Hy]%elem_of_cons Hyh; [|by eapply H1].
    by rewrite Hyh in Hge.
Qed.

Lemma enqueue_perm flag thr p t l : enqueue flag thr p t l ≡ₚ t :: l.
Proof.
  unfold enqueue. case_match; [by rewrite Permutation_app_comm|].
  destruct (prio_insert_split thr p t l) as (l1 & l2 & -> & -> & _). by rewrite Permutation_middle.
Qed.

Lemma first_lower_insert thr p t l :
  NoDup l → (∀ x, x ∈ l → is_Some (thr !! x)) →
  ∃ n, first_lower thr p l = Some n ∧
    match n with
    | Some x => x ∈ l ∧ insert_before x t l = prio_insert thr p t l
    | None => l ++ [t] = prio_insert thr p t l
    end.
Proof.
  induction l as [|x l IH]; intros Hnd Hl; [by eexists|]. apply NoDup_cons in Hnd as [Hx Hnd].
  destruct (Hl x) as [xh Hxh]; [set_solver|]. cbn. rewrite Hxh. cbn.
  destruct (Z.ltb_spec p (th_current_priority xh)).
  - eexists. split; [done|]. cbn. rewrite decide_True by done. set_solver.
  - destruct IH as (n & -> & Hn); [done|set_solver|]. exists n. split; [done|].
    destruct n as [y|]; [|cbn; by f_equal]. destruct Hn as [Hy Hn]. cbn.
    rewrite decide_False by (intros ->; done). split; [set_solver|by f_equal].
Qed.

(** * Blocking the caller *)

Definition is_wait (h : thead) : Prop :=
  match h with HSuspend _ | HSender _ => True | _ => False end.

(** The control block and the queue of a thread blocked on [h]. *)
Definition blocked_sc (h : thead) (t : Z) (th : rt_thread) (flag : Z) (c : sched) : sched :=
  link_sc h (enqueue flag (sc_thr c) (th_current_priority th) t (tlist (sc_tl c) h))
    (suspend_sc t th c).

Lemma prio_insert_ext thr thr' p t l :
  (∀ x, x ∈ l → th_current_priority <$> thr' !! x = th_current_priority <$> thr !! x) →
  prio_insert thr' p t l = prio_insert thr p t l.
Proof.
  induction l as [|x l IH]; [done|]. intros Hl. cbn. rewrite IH, Hl by set_solver. done.
Qed.

Lemma active_unwaiting c t th h :
  swf ∅ c → sc_thr c !! t = Some th → active th → is_wait h → t ∉ tlist (sc_tl c) h.
Proof.
  intros Hw Ht Ha Hh (th' & ? & Hok)%(sw_place _ _ Hw). simplify_eq.
  destruct h; cbn in Hok, Hh; try done; destruct Ha; stat_lia.
Qed.

Lemma suspend_tlist c t th h :
  swf ∅ c → sc_thr c !! t = Some th → active th → is_wait h →
  tlist (sc_tl (suspend_sc t th c)) h = tlist (sc_tl c) h.
Proof. intros. cbn. rewrite tlist_remove. apply filter_ne_notin. by eapply active_unwaiting. Qed.

Lemma ipc_suspend_run s h t th flag :
  kinv s → k_thr s !! t = Some th → active th → is_wait h →
  flag = RT_IPC_FLAG_FIFO ∨ flag = RT_IPC_FLAG_PRIO →
  rt_ipc_list_suspend h t flag s = Some (tt, upd_sched (blocked_sc h t th flag) s).
Proof.
  intros HI Ht Ha Hh Hf. unfold rt_ipc_list_suspend, bind at 1. rewrite (suspend_run s t th) by done.
  pose proof (proj1 (ki_sched _ (proj1 HI))) as Hw.
  pose proof (kinv_suspend s t th HI Ht Ha) as [HI1 _]. set (s1 := suspend_st t th s) in *.
  assert (tlinked (k_tl s1) t = false) as Hl.
  { apply tlinked_false. intros h'. unfold s1, k_tl. cbn. rewrite tlist_remove, list_elem_of_filter.
    naive_solver. }
  pose proof (suspend_tlist (k_sched s) t th h Hw Ht Ha Hh) as El.
  assert (tlist (k_tl s1) h = tlist (sc_tl (k_sched s)) h) as El1 by exact El.
  unfold upd_sched, blocked_sc, link_sc, enqueue. destruct Hf as [-> | ->]; cbn [Z.eqb Pos.eqb RT_IPC_FLAG_FIFO RT_IPC_FLAG_PRIO].
  - unfold tl_insert_tail. rewrite Hl, El1. done.
  - destruct (suspend_cur_st t th s) as (_ & Ht1 & _). fold s1 in Ht1.
    assert (prio_insert (k_thr s1) (th_current_priority th) t (tlist (k_tl s1) h) =
      prio_insert (sc_thr (k_sched s)) (th_current_priority th) t (tlist (sc_tl (k_sched s)) h)) as Ep.
    { rewrite El1. apply prio_insert_ext. intros x Hx. unfold s1, k_thr. cbn.
      rewrite lookup_insert_ne; [done|]. intros <-. by eapply active_unwaiting. }
    destruct (first_lower_insert (k_thr s1) (th_current_priority th) t (tlist (k_tl s1) h))
      as (n & Hn & Hins).
    + apply (sw_nodup _ _ (proj1 (ki_sched _ HI1))).
    + intros x (xh & Hx & _)%(sw_place _ _ (proj1 (ki_sched _ HI1))). by eexists.
    + unfold bind, get_thread, gets, from_opt. rewrite Ht1.
      change (th_current_priority (set_stat _ th)) with (th_current_priority th). rewrite Hn.
      destruct n as [x|]; [destruct Hins as [_ Hins]|];
        unfold tl_insert_before, tl_insert_tail; by rewrite Hl, Hins, Ep.
Qed.

(** A suspended thread may be linked anywhere in a waiting list. *)
Lemma kinv_linked s h t th l :
  kinv s → k_thr s !! t = Some th → active th → is_wait h → l ≡ₚ t :: tlist (k_tl s) h →
  kinv (upd_sched (λ c, link_sc h l (suspend_sc t th c)) s).
Proof.
  intros HI Ht Ha Hh Hp. pose proof (proj1 (ki_sched _ (proj1 HI))) as Hw.
  pose proof (kinv_suspend s t th HI Ht Ha) as [HI1 Hw1]. split; [|done].
  pose proof (ki_sched _ HI1) as (Hsw & Hok & Hst). destruct (suspend_cur_st t th s) as (_ & Ht1 & Hs1).
  apply (kinv0_sched (suspend_st t th s)); [done| |apply HI1|eauto|eauto].
  split_and!; [|done|done].
  apply (swf_link ∅ t (set_stat RT_THREAD_SUSPEND th)); [done|set_solver|exact Ht1| | | |].
  - destruct h; cbn in Hh |- *; done.
  - destruct h; cbn in Hh; done.
  - intros h'. cbn. rewrite tlist_remove, list_elem_of_filter. naive_solver.
  - rewrite Hp. cbn. rewrite tlist_remove, filter_ne_notin; [done|]. by eapply active_unwaiting.
Qed.

Lemma ready_group s u :
  kinv0 s → thread_stat s u = Some RT_THREAD_READY → sc_group (k_sched s) ≠ 0.
Proof.
  intros HI Hu Hg. unfold thread_stat in Hu. destruct (k_thr s !! u) as [uh|] eqn:E; [|done].
  injection Hu as Hu. pose proof (group_zero_none _ 32 (proj1 (ki_sched _ HI)) Hg u uh E Hu).
  pose proof (sw_prio _ _ (proj1 (ki_sched _ HI)) u uh E). lia.
Qed.

(** The caller's timer is set if it waits with a timeout; every other timer and the
    nesting counters are left alone. *)
Definition wait_frame (t time : Z) (s s' : kst) : Prop :=
  (0 < time → ThreadTimer t ∈ k_rows s' ∧ off (k_timers s') (ThreadTimer t) = time) ∧
  timers_kept t s s' ∧
  sc_lock_nest (k_sched s') = sc_lock_nest (k_sched s) ∧ sc_irq_nest (k_sched s') = sc_irq_nest (k_sched s).

(** The state after the caller was linked into the list, now [l], and its timer started. *)
Definition waiting (h : thead) (t : Z) (th : rt_thread) (l : list Z) (time : Z) (s s' : kst) : Prop :=
  kinv s' ∧ k_sched s' = link_sc h l (suspend_sc t th (k_sched s)) ∧ k_ipc s' = k_ipc s ∧
  (∀ a, k_obj s' !! Obj a = k_obj s !! Obj a) ∧
  wait_frame t time s s'.

Lemma time_u32 time : 0 < time → time < HALF → u32 time = time.
Proof.
  intros. apply wrap_small. unfold HALF, RT_TICK_MAX in *. change (0xffffffff / 2) with 2147483647 in *.
  change (2 ^ 32) with 4294967296. lia.
Qed.

(** [if (time > 0) { rt_timer_control(...); rt_timer_start(...); }] *)
Definition arm_timer (t time : Z) : K unit :=
  if 0 <? time then
    rt_timer_control (ThreadTimer t) RT_TIMER_CTRL_SET_TIME time ;;
    rt_timer_start (ThreadTimer t) ;; ret tt
  else ret tt.

Lemma linked_arm_run s h t th l time :
  kinv s → k_thr s !! t = Some th → active th → is_wait h → l ≡ₚ t :: tlist (k_tl s) h → time < HALF →
  ∃ s', arm_timer t time (upd_sched (λ c, link_sc h l (suspend_sc t th c)) s) = Some (tt, s') ∧
    waiting h t th l time s s'.
Proof.
  intros HI Ht Ha Hh Hl Htime. pose proof (kinv_linked s h t th l HI Ht Ha Hh Hl) as HI1.
  set (s1 := upd_sched _ s) in *. unfold arm_timer.
  destruct (Z.ltb_spec 0 time) as [Hpos|Hneg].
  - destruct (arm_run s1 t (set_stat RT_THREAD_SUSPEND th) time) as (s2 & s3 & H2 & H3 & Harm);
      [done|unfold s1, k_thr; cbn; by rewrite lookup_insert_eq|apply stat_of_set_stat; stat_lia| |].
    { by rewrite time_u32. }
    destruct Harm as (HI3 & Hsc & Hip & Hkp & Hin & Hoff & Hob).
    exists s3. unfold bind. rewrite H2, H3. split; [done|]. split_and!; [done|done|done|done| ].
    rewrite time_u32 in Hoff by done. split_and!; [done|exact Hkp|by rewrite Hsc..].
  - exists s1. split; [done|]. split_and!; [done|done|done|done|]. split_and!; [lia|by split|done..].
Qed.

Lemma ipc_wait_run s h t th flag time :
  kinv s → k_thr s !! t = Some th → active th → is_wait h →
  flag = RT_IPC_FLAG_FIFO ∨ flag = RT_IPC_FLAG_PRIO → time < HALF →
  ∃ s', ipc_wait h t flag time s = Some (tt, s') ∧
    waiting h t th (enqueue flag (k_thr s) (th_current_priority th) t (tlist (k_tl s) h)) time s s'.
Proof.
  intros HI Ht Ha Hh Hf Htime. unfold ipc_wait, bind at 1. rewrite (ipc_suspend_run s h t th) by done.
  apply linked_arm_run; try done. apply enqueue_perm.
Qed.

(** The state after the caller also gave up the processor; the list is [l]. *)
Definition queued_post (h : thead) (t : Z) (th : rt_thread) (l : list Z) (time : Z) (s s' : kst) : Prop :=
  kinv s' ∧ k_ipc s' = k_ipc s ∧ (∀ a, k_obj s' !! Obj a = k_obj s !! Obj a) ∧
  k_thr s' !! t = Some (set_stat RT_THREAD_SUSPEND th) ∧
  tlist (k_tl s') h = l ∧
  (∀ h', is_wait h' → h' ≠ h → tlist (k_tl s') h' = tlist (k_tl s) h') ∧
  wait_frame t time s s' ∧
  (∀ u uh, u ≠ t → k_thr s !! u = Some uh → ∃ uh', k_thr s' !! u = Some uh' ∧ stat_moves uh uh') ∧
  (∀ u, u ≠ t → sc_lock_nest (k_sched s) = 0 → thread_stat s u = Some RT_THREAD_READY →
     runs_highest (k_sched s') ∧ k_cur s' ≠ Some t).

(** For IPC objects the list is in FIFO or priority order. *)
Definition blocked_post (h : thead) (t : Z) (th : rt_thread) (flag time : Z) (s s' : kst) : Prop :=
  queued_post h t th (enqueue flag (k_thr s) (th_current_priority th) t (tlist (k_tl s) h)) time s s'.

Lemma is_wait_not_ready h p : is_wait h → h ≠ HReady p.
Proof. by destruct h. Qed.

Lemma runs_highest_other c t th :
  runs_highest c → sc_thr c !! t = Some th → stat_of th ≠ RT_THREAD_RUNNING → sc_cur c ≠ Some t.
Proof. intros (v & vh & Hv & Hvh & Hr & _) Ht Hs Hc. simplify_eq. Qed.

Lemma queued_schedule_run s s1 h t th l time :
  kinv s → k_cur s = Some t → k_thr s !! t = Some th → active th → is_wait h → waiting h t th l time s s1 →
  ∃ s', rt_schedule s1 = Some (tt, s') ∧ queued_post h t th l time s s'.
Proof.
  intros HI Hc Ht Ha Hh (HI1 & Hsc1 & Hip1 & Hob1 & Htm1). pose proof (proj1 (ki_sched _ (proj1 HI))) as Hw.
  assert (k_thr s1 !! t = Some (set_stat RT_THREAD_SUSPEND th)) as Ht1
    by (unfold k_thr; rewrite Hsc1; cbn; by rewrite lookup_insert_eq).
  assert (stat_of (set_stat RT_THREAD_SUSPEND th) = RT_THREAD_SUSPEND) as Hs1
    by (apply stat_of_set_stat; stat_lia).
  destruct (schedule_blocked s1 t (set_stat RT_THREAD_SUSPEND th) HI1) as (c' & Hr2 & HI2 & Hd & Ht2 & Hhi);
    [unfold k_cur; by rewrite Hsc1|done|done|].
  eexists. split; [exact Hr2|].
  assert (∀ h', is_wait h' → tlist (sc_tl c') h' = if decide (h = h') then l else tlist (k_tl s) h') as Hl.
  { intros h' Hh'. rewrite (scheduled_waiting _ _ h' (ki_sched _ (proj1 HI1)) Hd)
      by (intros p; by apply is_wait_not_ready).
    rewrite Hsc1. unfold link_sc. cbn -[suspend_sc]. rewrite tlist_insert.
    case_decide; [done|]. by apply (suspend_tlist (k_sched s) t th). }
  split_and!; [done|done|done|done| | | | |].
  - unfold k_tl at 1. cbn. by rewrite Hl, decide_True.
  - intros h' Hh' Hne. unfold k_tl at 1. cbn. by rewrite Hl, decide_False.
  - destruct Htm1 as (? & ? & ? & ?). destruct (scheduled_nests _ _ Hd) as [Hlk Hiq].
    split_and!; [done|done|cbn; by rewrite Hlk|cbn; by rewrite Hiq].
  - intros u uh Hu Huh. apply (moved_lookup_inv (k_sched s1) c' u uh).
    + by apply scheduled_moved; [apply HI1|].
    + rewrite Hsc1. cbn. by rewrite lookup_insert_ne.
  - intros u Hu Hn Hr. assert (runs_highest c') as Hrh.
    { apply Hhi; [by rewrite Hsc1|]. apply (ready_group s1 u); [apply HI1|].
      unfold thread_stat, k_thr in *. rewrite Hsc1. cbn. by rewrite lookup_insert_ne. }
    split; [done|]. eapply runs_highest_other; [done|done|]. rewrite Hs1. stat_lia.
Qed.

Lemma block_run s h t th flag time :
  kinv s → k_cur s = Some t → k_thr s !! t = Some th → active th → is_wait h →
  flag = RT_IPC_FLAG_FIFO ∨ flag = RT_IPC_FLAG_PRIO → time < HALF →
  ∃ s', (ipc_wait h t flag time ;; rt_schedule) s = Some (tt, s') ∧
    blocked_post h t th flag time s s'.
Proof.
  intros HI Hc Ht Ha Hh Hf Htime.
  destruct (ipc_wait_run s h t th flag time HI Ht Ha Hh Hf Htime) as (s1 & Hr1 & Hw1).
  unfold bind. rewrite Hr1. by eapply queued_schedule_run.
Qed.

(** * Waking waiters *)

Lemma waiter_suspended s h t :
  kinv s → is_wait h → t ∈ tlist (k_tl s) h →
  ∃ th, k_thr s !! t = Some th ∧ stat_of th = RT_THREAD_SUSPEND.
Proof.
  intros [HI _] Hh (th & Hth & Hok)%(sw_place _ _ (proj1 (ki_sched _ HI))). exists th.
  split; [done|]. by destruct h.
Qed.

Lemma stop_st_objects o s :
  ob_list (k_objects (stop_st o s)) = ob_list (k_objects s) ∧
  ∀ p, p ≠ o → k_obj (stop_st o s) !! p = k_obj s !! p.
Proof.
  unfold stop_st. destruct (k_obj s !! o) as [x|]; [|done]. destruct (has_flag _ x); [|done].
  split; [done|]. intros p Hp. unfold k_obj. cbn. by rewrite lookup_insert_ne.
Qed.

Lemma wake_st_tlist s t th h :
  is_wait h → tlist (k_tl (wake_st t th s)) h = filter (λ x, x ≠ t) (tlist (k_tl s) h).
Proof.
  intros Hh. unfold wake_st, k_tl. cbn. rewrite wake_sc_tl by (intros p; by apply is_wait_not_ready).
  by rewrite stop_st_sched.
Qed.

Lemma wake_st_sched_fields s t th :
  k_cur (wake_st t th s) = k_cur s ∧
  sc_lock_nest (k_sched (wake_st t th s)) = sc_lock_nest (k_sched s) ∧
  k_ipc (wake_st t th s) = k_ipc s ∧
  k_thr (wake_st t th s) =
    <[t := set_stat (if decide (k_cur s = Some t) then RT_THREAD_RUNNING else RT_THREAD_READY) th]>
      (k_thr s).
Proof.
  unfold wake_st, k_cur, k_thr. cbn.
  by rewrite wake_sc_cur, wake_sc_lock, wake_sc_thr, stop_st_sched, stop_st_ipc.
Qed.

Lemma wake_st_lists s t th h rest h' :
  kinv s → is_wait h → is_wait h' → tlist (k_tl s) h = t :: rest →
  tlist (k_tl (wake_st t th s)) h' = if decide (h' = h) then rest else tlist (k_tl s) h'.
Proof.
  intros [HI _] Hh Hh' Hl. pose proof (proj1 (ki_sched _ HI)) as Hw. rewrite wake_st_tlist by done.
  case_decide as E.
  - subst. rewrite Hl, filter_cons_False by naive_solver. apply filter_ne_notin.
    pose proof (sw_nodup _ _ Hw h) as Hnd. unfold k_tl in Hl. rewrite Hl in Hnd.
    by apply NoDup_cons in Hnd as [? _].
  - apply filter_ne_notin. intros Hin. apply E. apply (sw_disj _ _ Hw t); [done|].
    unfold k_tl in Hl. rewrite Hl. set_solver.
Qed.

Lemma active_set_stat st th :
  st = RT_THREAD_READY ∨ st = RT_THREAD_RUNNING → active (set_stat st th).
Proof. intros Hst. unfold active. rewrite stat_of_set_stat; destruct Hst as [-> | ->]; stat_lia. Qed.

(** The timer of the woken thread is off, the others and the nesting counters are kept. *)
Definition wake_frame (t : Z) (s s' : kst) : Prop :=
  ThreadTimer t ∉ k_rows s' ∧ timers_kept t s s' ∧
  sc_lock_nest (k_sched s') = sc_lock_nest (k_sched s) ∧ sc_irq_nest (k_sched s') = sc_irq_nest (k_sched s).

(** The first waiter has been woken, and the scheduler called. *)
Definition woken_post (h : thead) (t : Z) (th : rt_thread) (rest : list Z) (s s' : kst) : Prop :=
  kinv s' ∧ k_ipc s' = k_ipc s ∧ (∀ a, k_obj s' !! Obj a = k_obj s !! Obj a) ∧
  tlist (k_tl s') h = rest ∧
  (∀ h', is_wait h' → h' ≠ h → tlist (k_tl s') h' = tlist (k_tl s) h') ∧
  (∃ st, k_thr s' !! t = Some (set_stat st th) ∧ active (set_stat st th)) ∧
  wake_frame t s s' ∧
  (∀ u uh, u ≠ t → k_thr s !! u = Some uh → ∃ uh', k_thr s' !! u = Some uh' ∧ stat_moves uh uh') ∧
  (sc_lock_nest (k_sched s) = 0 → runs_highest (k_sched s')).

Lemma stop_st_kept t s : timers_kept t s (stop_st (ThreadTimer t) s).
Proof.
  unfold stop_st. destruct (k_obj s !! ThreadTimer t) as [x|]; [|by split].
  destruct (has_flag _ x); [|by split]. split; [done|]. intros o Ho. split; [|done].
  unfold k_rows. cbn. rewrite list_elem_of_filter. naive_solver.
Qed.

Lemma ipc_resume_run s h t rest :
  kinv s → is_wait h → tlist (k_tl s) h = t :: rest →
  ∃ th, k_thr s !! t = Some th ∧ stat_of th = RT_THREAD_SUSPEND ∧
    rt_ipc_list_resume h s = Some (tt, wake_st t th s) ∧ kinv (wake_st t th s) ∧
    ThreadTimer t ∉ k_rows (wake_st t th s).
Proof.
  intros HI Hh Hl. destruct (waiter_suspended s h t HI Hh) as (th & Hth & Hs); [rewrite Hl; set_solver|].
  destruct (kinv_objs s t th HI Hth ltac:(stat_lia)) as (_ & (x & Hx & _) & _).
  exists th. split_and!; [done|done| |by apply kinv_wake|by apply (kinv_stop s _ x)].
  unfold rt_ipc_list_resume, bind, gets, from_opt. rewrite Hl. cbn -[rt_thread_resume].
  by rewrite (resume_run s t th).
Qed.

Lemma set_stat_twice a b th :
  0 ≤ a < 16 → set_stat b (set_stat a th) = set_stat b th.
Proof.
  intros Ha. unfold set_stat, with_stat. cbn. f_equal. f_equal.
  rewrite Z.land_lor_distr_l, <- Z.land_assoc, (Z.land_diag (Z.lnot RT_THREAD_STAT_MASK)).
  replace (Z.land a (Z.lnot RT_THREAD_STAT_MASK)) with 0; [done|].
  symmetry. apply Z.bits_inj'. intros i Hi.
  rewrite Z.bits_0, Z.land_spec, Z.lnot_spec by done. change RT_THREAD_STAT_MASK with (Z.ones 4).
  rewrite Z.testbit_ones_nonneg by lia. destruct (Z.ltb_spec i 4); [by rewrite andb_false_r|].
  rewrite andb_true_r, <- (Z.mod_small a (2 ^ 4)) by lia. by rewrite Z.mod_pow2_bits_high by lia.
Qed.

Lemma wake_first_run s h t rest :
  kinv s → is_wait h → tlist (k_tl s) h = t :: rest →
  ∃ th s', k_thr s !! t = Some th ∧ stat_of th = RT_THREAD_SUSPEND ∧
    (rt_ipc_list_resume h ;; rt_schedule) s = Some (tt, s') ∧ woken_post h t th rest s s'.
Proof.
  intros HI Hh Hl. destruct (ipc_resume_run s h t rest HI Hh Hl) as (th & Hth & Hs & Hr & HI1 & Hrow).
  destruct (wake_st_sched_fields s t th) as (Hc1 & Hn1 & Hip1 & Hthr1).
  set (s1 := wake_st t th s) in *. pose proof HI1 as [HI1' Hw1].
  destruct (schedule_kinv0 s1 HI1') as (c' & Hr2 & Hd & HI2). eexists th, _.
  split_and!; [done|done|unfold bind; rewrite Hr; exact Hr2|].
  pose proof (scheduled_moved _ _ (ki_sched _ HI1') Hd) as Hm.
  set (st := if decide (k_cur s = Some t) then RT_THREAD_RUNNING else RT_THREAD_READY) in *.
  assert (st = RT_THREAD_READY ∨ st = RT_THREAD_RUNNING) as Hst by (unfold st; case_decide; auto).
  assert (k_thr s1 !! t = Some (set_stat st th)) as Ht1 by (by rewrite Hthr1, lookup_insert_eq).
  assert (∀ h', is_wait h' → tlist (sc_tl c') h' = if decide (h' = h) then rest else tlist (k_tl s) h')
    as Hlists.
  { intros h' Hh'. rewrite (scheduled_waiting _ _ h' (ki_sched _ HI1') Hd)
      by (intros p; by apply is_wait_not_ready). by apply wake_st_lists. }
  split_and!; [by split|done| | | | | | |].
  - intros a. by apply (stop_st_objects (ThreadTimer t) s).
  - unfold k_tl. cbn. by rewrite Hlists, decide_True.
  - intros h' Hh' Hne. unfold k_tl at 1. cbn. by rewrite Hlists, decide_False.
  - destruct (moved_lookup_inv _ _ _ _ Hm Ht1) as (th' & Ht' & [->|(_ & st' & Hst' & ->)]).
    + exists st. split; [done|by apply active_set_stat].
    + exists st'. rewrite set_stat_twice in Ht' by (destruct Hst as [-> | ->]; stat_lia).
      split; [done|by apply active_set_stat].
  - destruct (scheduled_nests _ _ Hd) as [Hlk Hiq]. split_and!; [done|exact (stop_st_kept t s)|cbn; congruence|].
    cbn. rewrite Hiq. unfold s1, wake_st. cbn. rewrite wake_sc_irq. by rewrite stop_st_sched.
  - intros u uh Hu Huh. apply (moved_lookup_inv (k_sched s1) c' u uh Hm).
    fold (k_thr s1). by rewrite Hthr1, lookup_insert_ne.
  - intros Hn. destruct (ki_cur _ HI1') as [cur Hcur].
    destruct (proj1 (proj2 (ki_sched _ HI1')) cur Hcur) as (cth & Hcth & _).
    eapply (scheduled_highest _ _ cur cth); [apply HI1'|done|by rewrite Hn1|done|done|].
    destruct (decide (k_cur s = Some t)) as [E|E].
    + left. rewrite <- Hc1 in E. rewrite Hcur in E. injection E as ->. unfold k_thr in Ht1.
      rewrite Hcth in Ht1. injection Ht1 as ->. unfold st. apply stat_of_set_stat. stat_lia.
    + right. apply (ready_group s1 t); [done|]. unfold thread_stat. rewrite Ht1. cbn.
      unfold st. f_equal. apply stat_of_set_stat. stat_lia.
Qed.

(** Every waiter of [h] has been woken with [-RT_ERROR]; nothing else changed. *)
Definition all_woken (h : thead) (s s' : kst) : Prop :=
  kinv s' ∧ k_ipc s' = k_ipc s ∧ k_cur s' = k_cur s ∧ tlist (k_tl s') h = [] ∧
  sc_lock_nest (k_sched s') = sc_lock_nest (k_sched s) ∧ ob_list (k_objects s') = ob_list (k_objects s) ∧
  (∀ a, k_obj s' !! Obj a = k_obj s !! Obj a) ∧
  (∀ h', is_wait h' → h' ≠ h → tlist (k_tl s') h' = tlist (k_tl s) h') ∧
  (∀ u, u ∈ tlist (k_tl s) h → ∃ uh, k_thr s' !! u = Some uh ∧ active uh ∧ th_error uh = - RT_ERROR) ∧
  (∀ u, u ∉ tlist (k_tl s) h → k_thr s' !! u = k_thr s !! u) ∧
  sc_irq_nest (k_sched s') = sc_irq_nest (k_sched s) ∧
  (∀ o, k_obj s !! o = None → k_obj s' !! o = None).

Lemma stop_st_none o s p : k_obj s !! p = None → k_obj (stop_st o s) !! p = None.
Proof.
  intros Hp. unfold stop_st. destruct (k_obj s !! o) as [x|] eqn:E; [|done]. destruct (has_flag _ _); [|done].
  unfold k_obj. cbn. rewrite lookup_insert_ne; [done|]. intros ->. congruence.
Qed.

Lemma resume_all_run h n s fuel :
  kinv s → is_wait h → length (tlist (k_tl s) h) = n → (n < fuel)%nat →
  ∃ s', resume_all_loop fuel h s = Some (tt, s') ∧ all_woken h s s'.
Proof.
  intros HI Hh. revert s fuel HI. induction n as [|n IH]; intros s fuel HI Hn Hf;
    (destruct fuel as [|fuel]; [lia|]); cbn [resume_all_loop]; unfold bind at 1, gets.
  { destruct (tlist (k_tl s) h) eqn:El; [|done]. exists s. split; [done|].
    unfold all_woken. rewrite El. split_and!; try done. set_solver. }
  destruct (tlist (k_tl s) h) as [|t rest] eqn:El; [done|].
  destruct (waiter_suspended s h t HI Hh) as (th & Hth & Hs); [rewrite El; set_solver|].
  set (s1 := upd_sched (put_thr t (with_error (- RT_ERROR) th)) s).
  assert (kinv s1) as HI1 by (by eapply kinv_put_same).
  assert (k_thr s1 !! t = Some (with_error (- RT_ERROR) th)) as Ht1
    by (unfold s1, k_thr; cbn; by rewrite lookup_insert_eq).
  pose proof (kinv_wake s1 t _ HI1 Ht1 Hs) as HI2.
  destruct (wake_st_sched_fields s1 t (with_error (- RT_ERROR) th)) as (Hc2 & Hn2 & Hip2 & Hthr2).
  pose proof (λ h' Hh', wake_st_lists s1 t (with_error (- RT_ERROR) th) h rest h' HI1 Hh Hh' El) as Hl2.
  destruct (stop_st_objects (ThreadTimer t) s1) as [Hol2 Hobj2].
  assert (k_objects (wake_st t (with_error (- RT_ERROR) th) s1) = k_objects (stop_st (ThreadTimer t) s1))
    as HO2 by done.
  set (s2 := wake_st t (with_error (- RT_ERROR) th) s1) in *.
  destruct (IH s2 fuel HI2) as (s3 & Hr3 & HI3 & Hip3 & Hc3 & Hl3 & Hn3 & Hol3 & Hob3 & Hoth3 & Hin3 & Hout3 & Hirq3 & Hno3).
  { rewrite Hl2, decide_True by done. by injection Hn. }
  { lia. }
  rewrite Hl2, decide_True in Hin3, Hout3 by done.
  assert (t ∉ rest) as Htr.
  { pose proof (sw_nodup _ _ (proj1 (ki_sched _ (proj1 HI))) h) as Hnd. unfold k_tl in El.
    rewrite El in Hnd. by apply NoDup_cons in Hnd as [? _]. }
  exists s3. split.
  { unfold bind. rewrite (mod_thread_run s t th) by done. fold s1.
    by rewrite (resume_run s1 t (with_error (- RT_ERROR) th)). }
  unfold all_woken. rewrite El. split_and!; [done|by rewrite Hip3, Hip2|by rewrite Hc3, Hc2|done| | | | | | | |].
  - by rewrite Hn3, Hn2.
  - by rewrite Hol3, HO2, Hol2.
  - intros a. rewrite Hob3. unfold k_obj at 1. rewrite HO2. by apply Hobj2.
  - intros h' Hh' Hne. rewrite Hoth3 by done. by rewrite Hl2, decide_False.
  - intros u [->|Hu]%elem_of_cons; [|by apply Hin3].
    rewrite Hout3, Hthr2, lookup_insert_eq by done. eexists. split; [done|]. split; [|done].
    apply active_set_stat. case_decide; auto.
  - intros u Hu. rewrite Hout3, Hthr2, lookup_insert_ne by set_solver. unfold s1, k_thr. cbn.
    rewrite lookup_insert_ne; [done|set_solver].
  - rewrite Hirq3. unfold s2, wake_st. cbn. rewrite wake_sc_irq, stop_st_sched. done.
  - intros o Ho. apply Hno3. unfold k_obj. rewrite HO2. by apply stop_st_none.
Qed.

Lemma ipc_resume_all_run s h :
  kinv s → is_wait h → ∃ s', rt_ipc_list_resume_all h s = Some (tt, s') ∧ all_woken h s s'.
Proof. intros HI Hh. by eapply resume_all_run; [| | |apply Nat.lt_succ_diag_r]. Qed.

(** * Objects of IPC classes *)

Lemma kinv_ipc s f : kinv s → kinv (upd_ipc f s).
Proof. intros [HI Hw]. split; [|done]. split; apply HI. Qed.

(** The classes of objects that are neither threads nor timers. *)
Definition plain_class (ty : Z) : Prop :=
  ty = RT_Object_Class_Semaphore ∨ ty = RT_Object_Class_Mutex ∨ ty = RT_Object_Class_Event ∨
  ty = RT_Object_Class_MailBox ∨ ty = RT_Object_Class_MessageQueue ∨ ty = RT_Object_Class_MemHeap ∨
  ty = RT_Object_Class_MemPool ∨ ty = RT_Object_Class_Device.

(** The object at [a] is of class [ty] and queues waiters in a known order. *)
Definition ipc_obj (ty : Z) (a : Z) (s : kst) (x : rt_object) : Prop :=
  k_obj s !! Obj a = Some x ∧ get_type x = ty ∧
  (o_flag x = RT_IPC_FLAG_FIFO ∨ o_flag x = RT_IPC_FLAG_PRIO).

(** No thread or timer lives at the address [a]. *)
Definition not_kernel (a : Z) (s : kst) : Prop :=
  ∀ x, k_obj s !! Obj a = Some x →
    get_type x ≠ RT_Object_Class_Thread ∧ get_type x ≠ RT_Object_Class_Timer.

Lemma ipc_obj_not_kernel ty a s x : plain_class ty → ipc_obj ty a s x → not_kernel a s.
Proof.
  intros Hty (Hx & Hxt & _) y Hy. rewrite Hx in Hy. injection Hy as <-. rewrite Hxt.
  unfold RT_Object_Class_Thread, RT_Object_Class_Timer. by destruct Hty as [->|[->|[->|[->|[->|[->|[->| ->]]]]]]].
Qed.

(** Writing the header of an object that is neither thread nor timer. *)
Lemma kinv_put_obj s a y l :
  kinv s → not_kernel a s → get_type y ≠ RT_Object_Class_Timer →
  kinv (upd_objects (λ O, set_obj_list l (put_obj (Obj a) y O)) s).
Proof.
  intros [HI Hw] Hnk Hy. split.
  - split; try apply HI.
    + intros t th Ht Hs. destruct (ki_objs _ HI t th Ht Hs) as ((x & Hx & Hxt) & Htm & Htt).
      split_and!; [|unfold is_timer; cbn; rewrite lookup_insert_ne by done; exact Htm|done].
      exists x. cbn. rewrite lookup_insert_ne; [done|]. intros [= <-].
      by destruct (Hnk x Hx).
    + intros t x. unfold k_obj. cbn. rewrite lookup_insert_ne by done. apply (ki_oneshot _ HI).
  - split; try apply Hw.
    + intros o Ho. destruct (tw_rows _ _ Hw o Ho) as (Ht & x & [Hx Hxt] & Ha). split; [done|].
      exists x. split; [|done]. split; [|done]. cbn. rewrite lookup_insert_ne; [done|].
      intros <-. by destruct (Hnk x Hx).
    + intros o x [Hx Hxt]. cbn in Hx. rewrite lookup_insert in Hx.
      case_decide; [by injection Hx as <-|]. by apply (tw_act _ _ Hw o x).
Qed.

Lemma kinv_detach_obj s a x :
  kinv s → not_kernel a s → k_obj s !! Obj a = Some x → kinv (upd_objects (detach_obj (Obj a) x) s).
Proof.
  intros HI Hnk Hx. unfold detach_obj. apply (kinv_put_obj s a (with_type 0 x)); done.
Qed.

(** The lock and unlock of the scheduler around the search of [rt_object_init]. *)
Lemma critical_sched_run s :
  sched_inv (k_sched s) → is_Some (k_cur s) → 0 ≤ sc_lock_nest (k_sched s) < 2 ^ 15 - 1 →
  ∃ s1 c', rt_enter_critical s = Some (tt, s1) ∧ k_objects s1 = k_objects s ∧
    rt_exit_critical s1 = Some (tt, mk_kst c' (k_timers s) (k_objects s) (k_ipc s)) ∧ scheduled (k_sched s) c'.
Proof.
  intros Hi [cu Hc] Hn. destruct (rt_schedule_run s cu Hi Hc) as (c' & Hr & Hd).
  destruct s as [[thr tl g n cur cp irq] T O ip]. cbn in *.
  assert (i16 (n + 1) = n + 1) as E1 by (apply swrap_small; lia).
  assert (i16 (n + 1 - 1) = n) as E2 by (rewrite Z.add_simpl_r; apply swrap_small; lia).
  eexists _, (if n <=? 0 then c' else mk_sched thr tl g n cur cp irq). split; [done|].
  split; [done|]. unfold rt_exit_critical, bind, modify, gets. cbn. unfold set_lock_nest. cbn.
  rewrite E1, E2. destruct (Z.leb_spec n 0).
  - assert (n = 0) as -> by lia. rewrite decide_True by eauto. split; [exact Hr|done].
  - split; [|apply sched_locked; cbn; lia]. unfold ret, upd_sched. cbn. by rewrite E1, E2.
Qed.

Lemma critical_run s :
  kinv s → 0 ≤ sc_lock_nest (k_sched s) < 2 ^ 15 - 1 →
  ∃ s1 c', rt_enter_critical s = Some (tt, s1) ∧ k_objects s1 = k_objects s ∧
    rt_exit_critical s1 = Some (tt, mk_kst c' (k_timers s) (k_objects s) (k_ipc s)) ∧
    scheduled (k_sched s) c' ∧ kinv (mk_kst c' (k_timers s) (k_objects s) (k_ipc s)).
Proof.
  intros [HI Hw] Hn. destruct (critical_sched_run s (ki_sched _ HI) (ki_cur _ HI) Hn) as (s1 & c' & H1 & H2 & H3 & H4).
  exists s1, c'. split_and!; [done|done|done|done|]. split; [|done]. apply kinv0_moved; [done| | |].
  - by eapply scheduled_inv; [apply HI|].
  - by eapply scheduled_cur; [|apply HI].
  - by apply scheduled_moved; [apply HI|].
Qed.

Lemma kinv_lock s n : kinv s → kinv (upd_sched (set_lock_nest n) s).
Proof.
  intros [HI Hw]. split; [|done]. apply kinv0_sched; [done| |apply HI|eauto|eauto].
  destruct (ki_sched _ HI) as ([] & Hok & Hst). by split.
Qed.

(** Leaving a critical section that was entered at the nesting [n]. *)
Lemma exit_critical_run s n :
  kinv s → sc_lock_nest (k_sched s) = n + 1 → 0 ≤ n < 2 ^ 15 - 1 →
  ∃ c', rt_exit_critical s = Some (tt, mk_kst c' (k_timers s) (k_objects s) (k_ipc s)) ∧
    scheduled (set_lock_nest n (k_sched s)) c' ∧ kinv (mk_kst c' (k_timers s) (k_objects s) (k_ipc s)).
Proof.
  intros HI Hn Hr. set (s0 := upd_sched (set_lock_nest n) s). pose proof (kinv_lock s n HI) as HI0. fold s0 in HI0.
  destruct (critical_run s0 HI0 Hr) as (s1 & c' & He & _ & Hx & Hd & HI1).
  assert (s1 = s) as ->; [|by exists c'].
  unfold rt_enter_critical, modify in He. injection He as <-. unfold s0. destruct s as [[] ? ? ?]. cbn in Hn. subst. unfold upd_sched. cbn.
  unfold set_lock_nest. cbn. rewrite swrap_small by lia. done.
Qed.

Definition header (ty : Z) (name : list Z) (old : option rt_object) : rt_object :=
  mk_object (Str.rt_strncpy name RT_NAME_MAX) (Z.lor ty RT_Object_Class_Static)
    (match old with Some x => o_flag x | None => 0 end).

Lemma get_type_header ty name old : plain_class ty → get_type (header ty name old) = ty.
Proof. by intros [->|[->|[->|[->|[->|[->|[->| ->]]]]]]]. Qed.

(** [rt_object_init] of an unused IPC object. *)
Lemma object_init_run s a ty name :
  kinv s → 0 ≤ sc_lock_nest (k_sched s) < 2 ^ 15 - 1 → plain_class ty → not_kernel a s →
  (∀ cls, Obj a ∉ tlist (ob_list (k_objects s)) cls) →
  ∃ c' O', rt_object_init (Obj a) ty name s = Some (tt, mk_kst c' (k_timers s) O' (k_ipc s)) ∧
    kinv (mk_kst c' (k_timers s) O' (k_ipc s)) ∧ scheduled (k_sched s) c' ∧
    ob_obj O' = <[Obj a := header ty name (k_obj s !! Obj a)]> (k_obj s) ∧
    ∀ cls, tlist (ob_list O') cls = if decide (cls = ty) then Obj a :: tlist (ob_list (k_objects s)) ty else tlist (ob_list (k_objects s)) cls.
Proof.
  intros HI Hn Hty Hnk Hl. destruct (critical_run s HI Hn) as (s1 & c' & He & HO1 & Hx & Hd & HI').
  set (O' := set_obj_list (<[ty := Obj a :: tlist (ob_list (k_objects s)) ty]> (ob_list (k_objects s)))
    (put_obj (Obj a) (header ty name (k_obj s !! Obj a)) (k_objects s))).
  exists c', O'. split_and!; [|apply (kinv_put_obj (mk_kst c' _ _ _)); [done|done|]|done|done|].
  - unfold rt_object_init, bind at 1, assert at 1.
    assert (bool_decide (is_Some (rt_object_get_information ty)) = true) as ->
      by (by destruct Hty as [->|[->|[->|[->|[->|[->|[->| ->]]]]]]]).
    unfold bind. rewrite He. cbn -[rt_exit_critical]. rewrite HO1. unfold assert.
    rewrite bool_decide_eq_true_2 by apply Hl. rewrite Hx. cbn. unfold obj_insert_after. cbn.
    by rewrite (proj2 (tlinked_false _ (Obj a))) by done.
  - rewrite get_type_header by done. by destruct Hty as [->|[->|[->|[->|[->|[->|[->| ->]]]]]]].
  - intros cls. unfold O'. cbn. rewrite tlist_insert. by repeat case_decide; subst.
Qed.

(** ** Resetting an empty list head *)

Lemma tlist_reset (w : gmap thead (list Z)) h h' :
  tlist w h = [] → tlist (<[h := []]> w) h' = tlist w h'.
Proof. intros Hl. rewrite tlist_insert. case_decide; [by subst|done]. Qed.

Lemma swf_reset X h c : swf X c → tlist (sc_tl c) h = [] → swf X (link_sc h [] c).
Proof.
  intros [Hrg Hg Hnd Hdj Hpl Htr Hrd Hpr Hmk Hrn] Hl.
  split; cbn; try done; setoid_rewrite (λ h', tlist_reset (sc_tl c) h h' Hl); done.
Qed.

Lemma ipc_init_run s h :
  kinv s → tlist (k_tl s) h = [] →
  rt_ipc_object_init h s = Some (tt, upd_sched (link_sc h []) s) ∧ kinv (upd_sched (link_sc h []) s) ∧
  ∀ h', tlist (k_tl (upd_sched (link_sc h []) s)) h' = tlist (k_tl s) h'.
Proof.
  intros [HI Hw] Hl. split_and!.
  - unfold rt_ipc_object_init, bind, gets, assert. by rewrite bool_decide_eq_true_2.
  - split; [|done]. pose proof (ki_sched _ HI) as (Hsw & Hok & Hst).
    apply kinv0_sched; [done| |apply HI|eauto|eauto]. split_and!; [by apply swf_reset|done|done].
  - intros h'. by apply tlist_reset.
Qed.

(** * The calling thread *)

(** The caller may block: it is the running thread, outside interrupts. *)
Definition caller (s : kst) (t : Z) (th : rt_thread) : Prop :=
  k_cur s = Some t ∧ k_thr s !! t = Some th ∧ stat_of th = RT_THREAD_RUNNING ∧
  sc_irq_nest (k_sched s) = 0.

Lemma thread_context_run s t th :
  caller s t th → RT_DEBUG_IN_THREAD_CONTEXT s = Some (tt, s).
Proof.
  intros (Hc & _ & _ & Hi).
  unfold RT_DEBUG_IN_THREAD_CONTEXT, RT_DEBUG_NOT_IN_INTERRUPT, rt_interrupt_get_nest, bind, gets, assert.
  rewrite Hc. cbn. by rewrite Hi.
Qed.

Lemma self_run s t th : caller s t th → self s = Some (t, s).
Proof. intros (Hc & _). unfold self, bind, gets, from_opt. by rewrite Hc. Qed.

Lemma caller_active s t th : caller s t th → active th.
Proof. intros (_ & _ & ? & _). by right. Qed.

(** [thread->error = e] before blocking. *)
Definition error_st (t e : Z) (th : rt_thread) (s : kst) : kst :=
  upd_sched (put_thr t (with_error e th)) s.

Lemma error_st_caller s t th e : caller s t th → caller (error_st t e th s) t (with_error e th).
Proof.
  intros (Hc & Ht & Hs & Hi). split_and!; [done| |done|done].
  unfold error_st, k_thr. cbn. by rewrite lookup_insert_eq.
Qed.

Lemma kinv_error s t th e : kinv s → k_thr s !! t = Some th → kinv (error_st t e th s).
Proof. intros HI Ht. by eapply kinv_put_same. Qed.

(** Replacing the caller's control block by one of the same priority and state before
    blocking is not visible in where it queues up. *)
Lemma blocked_post_from s t th th' h flag time s' :
  k_thr s !! t = Some th → th_current_priority th' = th_current_priority th →
  stat_of th' = stat_of th →
  blocked_post h t th' flag time (upd_sched (put_thr t th') s) s' →
  blocked_post h t th' flag time s s'.
Proof.
  intros Ht Hp Hs (HI & Hip & Hob & Ht' & Hl & Hoth & Htm & Hmv & Hhi). split_and!; try done.
  - rewrite Hl. unfold enqueue, k_tl. cbn. case_match; [done|]. apply prio_insert_ext.
    intros x _. unfold k_thr. cbn. rewrite lookup_insert. case_decide; [|done]. subst.
    unfold k_thr in Ht. rewrite Ht. cbn. by rewrite Hp.
  - intros u uh Hu Huh. apply Hmv; [done|]. unfold k_thr in *. cbn. by rewrite lookup_insert_ne.
  - intros u Hu Hn Hr. apply (Hhi u Hu Hn). unfold thread_stat, k_thr in *. cbn.
    by rewrite lookup_insert_ne.
Qed.

Lemma block_caller_run s h t th flag time :
  kinv s → caller s t th → is_wait h → flag = RT_IPC_FLAG_FIFO ∨ flag = RT_IPC_FLAG_PRIO →
  time < HALF →
  ∃ s', (ipc_wait h t flag time ;; rt_schedule) s = Some (tt, s') ∧
    blocked_post h t th flag time s s'.
Proof.
  intros HI Hca Hh Hf Htime. pose proof Hca as (Hc & Ht & _ & _).
  by apply block_run; [| | |eapply caller_active|..].
Qed.

(** ** Waking the first waiter, if there is one *)

Definition notified (h : thead) (s s' : kst) : Prop :=
  kinv s' ∧ k_ipc s' = k_ipc s ∧ (∀ a, k_obj s' !! Obj a = k_obj s !! Obj a) ∧
  (tlist (k_tl s) h = [] → s' = s) ∧
  (∀ t rest, tlist (k_tl s) h = t :: rest →
     ∃ th, k_thr s !! t = Some th ∧ woken_post h t th rest s s').

Lemma notify_run {A} (r : A) s h :
  kinv s → is_wait h →
  ∃ s', (l ← gets (λ s, tlist (k_tl s) h);
         (if decide (l ≠ []) then rt_ipc_list_resume h ;; rt_schedule else ret tt) ;; ret r) s
        = Some (r, s') ∧ notified h s s'.
Proof.
  intros HI Hh. unfold bind at 1, gets. destruct (tlist (k_tl s) h) as [|t rest] eqn:El.
  - exists s. rewrite decide_False by tauto. split; [done|]. unfold notified. rewrite El.
    by refine (conj HI (conj eq_refl (conj _ (conj _ _)))).
  - destruct (wake_first_run s h t rest HI Hh El) as (th & s' & Hth & _ & Hrun & Hpost). exists s'.
    rewrite decide_True by done. split.
    + unfold bind in Hrun |- *. by rewrite Hrun.
    + pose proof Hpost as (HI' & Hip & Hob & _). unfold notified. rewrite El.
      refine (conj HI' (conj Hip (conj Hob (conj _ _)))); [done|]. intros t0 rest0 [= <- <-]. eauto.
Qed.
