(* ===== verification/Kstate.v ===== *)
(** States that contain the kernel: a component with data of its own (memory pools,
    devices, drivers) works on a larger state, of which the kernel state and the global
    error number of src/kservice.c are parts. [kern] runs a kernel routine there. *)

From Stdlib Require Import ZArith Lia.
From stdpp Require Import base numbers option gmap.
From S2P Require Import Prelude.
From S2P Require Import KernelDefs.
Local Open Scope Z_scope.
Local Open Scope rt_scope.

Class KernelState (S : Type) := {
  st_k : S → kst;
  with_k : kst → S → S;
  st_errno : S → Z;
  with_errno : Z → S → S
}.

(** Kernel and error number are separate fields of the state. *)
Class KernelLaws (S : Type) `{KernelState S} : Prop := {
  k_with_k k s : st_k (with_k k s) = k;
  k_with_errno e s : st_k (with_errno e s) = st_k s;
  errno_with_errno e s : st_errno (with_errno e s) = e;
  errno_with_k k s : st_errno (with_k k s) = st_errno s;
  with_k_same s : with_k (st_k s) s = s
}.

Section kstate.
Context {S : Type} `{KernelLaws S}.

Definition kern {A} (m : K A) : M S A := λ s,
  match m (st_k s) with
  | Some (a, k) => Some (a, with_k k s)
  | None => None
  end.

(** [rt_set_errno]: the thread's own field, the global one in interrupts and before the
    scheduler runs. *)
Definition rt_set_errno (error : Z) : M S unit :=
  nest ← kern rt_interrupt_get_nest;
  if nz nest then modify (with_errno error)
  else
    tid ← gets (λ s, k_cur (st_k s));
    match tid with
    | None => modify (with_errno error)
    | Some t => kern (mod_thread t (with_error error))
    end.

Definition rt_get_errno : M S Z :=
  nest ← kern rt_interrupt_get_nest;
  if nz nest then gets st_errno
  else
    tid ← gets (λ s, k_cur (st_k s));
    match tid with
    | None => gets st_errno
    | Some t => th ← kern (get_thread t); ret (th_error th)
    end.

Lemma kern_run {A} (m : K A) s x k : m (st_k s) = Some (x, k) → kern m s = Some (x, with_k k s).
Proof. intros E. unfold kern. by rewrite E. Qed.

(** A kernel routine that only looks. *)
Lemma kern_look {A} (m : K A) s x : m (st_k s) = Some (x, st_k s) → kern m s = Some (x, s).
Proof. intros E. by rewrite (kern_run m s x (st_k s)), with_k_same. Qed.

Lemma irq_nest_run s : kern rt_interrupt_get_nest s = Some (sc_irq_nest (k_sched (st_k s)), s).
Proof. by apply kern_look. Qed.

(** The state after [rt_set_errno]. *)
Definition errno_st (e : Z) (s : S) : S :=
  if nz (sc_irq_nest (k_sched (st_k s))) then with_errno e s
  else match k_cur (st_k s) with
       | None => with_errno e s
       | Some t =>
           match k_thr (st_k s) !! t with
           | Some th => with_k (upd_sched (set_thr (<[t := with_error e th]> (k_thr (st_k s)))) (st_k s)) s
           | None => s
           end
       end.

(** The current thread, if there is one, is a live thread. *)
Definition cur_live (k : kst) : Prop := ∀ t, k_cur k = Some t → is_Some (k_thr k !! t).

Lemma set_errno_run e s : cur_live (st_k s) → rt_set_errno e s = Some (tt, errno_st e s).
Proof.
  intros Hc. unfold rt_set_errno, bind. rewrite irq_nest_run. unfold errno_st.
  destruct (nz _); [done|]. unfold gets. destruct (k_cur (st_k s)) as [t|] eqn:Et; [|done].
  destruct (Hc t Et) as [th Ht]. rewrite Ht. unfold kern, mod_thread. by rewrite Ht.
Qed.

(** What was set is what is read back. *)
Lemma set_get_errno e s :
  cur_live (st_k s) → (rt_set_errno e ;; rt_get_errno) s = Some (e, errno_st e s).
Proof.
  intros Hc. unfold bind. rewrite set_errno_run by done. unfold rt_get_errno, bind. rewrite irq_nest_run.
  unfold errno_st. destruct (nz (sc_irq_nest (k_sched (st_k s)))) eqn:Ei.
  { rewrite k_with_errno, Ei. unfold gets. by rewrite errno_with_errno. }
  destruct (k_cur (st_k s)) as [t|] eqn:Et.
  - destruct (Hc t Et) as [th Ht]. rewrite Ht, k_with_k. cbn. rewrite Ei. unfold gets. rewrite k_with_k.
    change (k_cur (upd_sched _ (st_k s))) with (k_cur (st_k s)). rewrite Et.
    unfold bind. rewrite (kern_look _ _ (with_error e th)); [done|].
    rewrite k_with_k. unfold get_thread, k_thr. cbn. by rewrite lookup_insert_eq.
  - rewrite k_with_errno, Ei. unfold gets. rewrite k_with_errno, Et. by rewrite errno_with_errno.
Qed.
End kstate.
