(* ===== verification/Sem.v ===== *)
(** Counting semaphores, src/ipc.c. *)

From Stdlib Require Import ZArith Lia.
From stdpp Require Import base numbers option gmap.
From stdpp Require Import list sorting.
From S2P Require Import Prelude.
From S2P Require Import Kservice.
From S2P Require Import KernelDefs.
From S2P Require Import Scheduler.
From S2P Require Import Object.
From S2P Require Import Timer.
From S2P Require Import Thread.
From S2P Require Import Clock.
From S2P Require Import Ipc.
Local Open Scope Z_scope.
Local Open Scope rt_scope.

(** * Operations *)

Definition get_sem (a : Z) : K rt_semaphore := λ s,
  match ip_sem (k_ipc s) !! a with Some x => Some (x, s) | None => None end.
Definition put_sem (a value : Z) : K unit :=
  modify (upd_ipc (λ i, set_sem (<[a := mk_sem value]> (ip_sem i)) i)).

Definition rt_sem_init (a : Z) (name : list Z) (value flag : Z) : K Z :=
  assert (nz a) ;;
  assert (value <? 0x10000) ;;
  rt_object_init (Obj a) RT_Object_Class_Semaphore name ;;
  rt_ipc_object_init (HSuspend a) ;;
  put_sem a (u16 value) ;;
  mod_object (Obj a) (with_flag (u8 flag)) ;;
  ret RT_EOK.

Definition rt_sem_detach (a : Z) : K Z :=
  assert_type (Obj a) RT_Object_Class_Semaphore ;;
  b ← rt_object_is_systemobject (Obj a); assert b ;;
  rt_ipc_list_resume_all (HSuspend a) ;;
  rt_object_detach (Obj a) ;;
  ret RT_EOK.

(** Blocks with the caller's thread, which continues with [rt_sem_take_resume]. *)
Definition rt_sem_take (a time : Z) : K (outcome Z Z) :=
  assert_type (Obj a) RT_Object_Class_Semaphore ;;
  sem ← get_sem a;
  if 0 <? sem_value sem then
    put_sem a (u16 (sem_value sem - 1)) ;;
    ret (Returned RT_EOK)
  else if time =? 0 then ret (Returned (- RT_ETIMEOUT))
  else
    RT_DEBUG_IN_THREAD_CONTEXT ;;
    t ← self;
    mod_thread t (with_error RT_EOK) ;;
    x ← get_object (Obj a);
    ipc_wait (HSuspend a) t (o_flag x) time ;;
    rt_schedule ;;
    ret (Blocked t).

(** The rest of [rt_sem_take] after [rt_schedule]. *)
Definition rt_sem_take_resume (t : Z) : K Z :=
  th ← get_thread t;
  if negb (th_error th =? RT_EOK) then ret (th_error th) else ret RT_EOK.

Definition rt_sem_trytake (a : Z) : K (outcome Z Z) := rt_sem_take a 0.

Definition rt_sem_release (a : Z) : K Z :=
  assert_type (Obj a) RT_Object_Class_Semaphore ;;
  l ← gets (λ s, tlist (k_tl s) (HSuspend a));
  (if decide (l ≠ []) then
     rt_ipc_list_resume (HSuspend a) ;;
     rt_schedule
   else
     sem ← get_sem a;
     put_sem a (u16 (sem_value sem + 1))) ;;
  ret RT_EOK.

Definition rt_sem_control (a cmd arg : Z) : K Z :=
  assert_type (Obj a) RT_Object_Class_Semaphore ;;
  if cmd =? RT_IPC_CMD_RESET then
    rt_ipc_list_resume_all (HSuspend a) ;;
    put_sem a (u16 arg) ;;
    rt_schedule ;;
    ret RT_EOK
  else ret (- RT_ERROR).

(** * Invariant *)

(** A well-formed semaphore: a 16-bit value, and no thread waits while it is
    positive. *)
Definition sem_ok (a : Z) (s : kst) (v : Z) (x : rt_object) : Prop :=
  ipc_obj RT_Object_Class_Semaphore a s x ∧ ip_sem (k_ipc s) !! a = Some (mk_sem v) ∧
  0 ≤ v < 2 ^ 16 ∧ (0 < v → tlist (k_tl s) (HSuspend a) = []).

Lemma get_sem_run s a v : ip_sem (k_ipc s) !! a = Some (mk_sem v) → get_sem a s = Some (mk_sem v, s).
Proof. intros H. unfold get_sem. by rewrite H. Qed.

(** A semaphore of value 1 that guards data: taking it, and giving it back. *)
Definition sem_held (a : Z) (k : kst) : kst := upd_ipc (λ i, set_sem (<[a := mk_sem 0]> (ip_sem i)) i) k.

Lemma sem_lock_run a k x time : sem_ok a k 1 x → rt_sem_take a time k = Some (Returned RT_EOK, sem_held a k).
Proof.
  intros ((Hx1 & Hx2 & _) & Hv & _ & _). unfold rt_sem_take, bind at 1. rewrite (assert_type_run k (Obj a) x) by done.
  unfold bind at 1. by rewrite (get_sem_run k a 1).
Qed.

Lemma sem_unlock_run a k x : sem_ok a k 1 x → rt_sem_release a (sem_held a k) = Some (RT_EOK, k).
Proof.
  intros ((Hx1 & Hx2 & _) & Hv & _ & Hl). specialize (Hl ltac:(lia)). unfold rt_sem_release, bind at 1.
  rewrite (assert_type_run (sem_held a k) (Obj a) x) by done. unfold bind at 1, gets. change (k_tl (sem_held a k)) with (k_tl k). rewrite Hl.
  rewrite decide_False by tauto. unfold bind at 1, bind at 1. rewrite (get_sem_run (sem_held a k) a 0) by (cbn; by rewrite lookup_insert_eq).
  unfold put_sem, modify, ret. cbn [sem_value]. do 2 f_equal. unfold sem_held, upd_ipc, set_sem. cbn. rewrite insert_insert_eq, insert_id by done.
  by destruct k as [? ? ? []].
Qed.

(** The header and count of a semaphore survive blocking and waking of threads. *)
Lemma sem_ok_keep a s s' v x :
  sem_ok a s v x → k_ipc s' = k_ipc s → (∀ b, k_obj s' !! Obj b = k_obj s !! Obj b) → v = 0 →
  sem_ok a s' v x.
Proof.
  intros (Hx & Hv & Hr & Hl) Hip Hob ->.
  refine (conj _ (conj _ (conj _ _))); [|by rewrite Hip|lia|lia]. unfold ipc_obj. by rewrite Hob.
Qed.

Lemma sem_block_run s a x t th time :
  kinv s → sem_ok a s 0 x → caller s t th → time ≠ 0 → time < HALF →
  ∃ s', rt_sem_take a time s = Some (Blocked t, s') ∧ sem_ok a s' 0 x ∧
    blocked_post (HSuspend a) t (with_error RT_EOK th) (o_flag x) time s s'.
Proof.
  intros HI Hok Hca Htz Htime. pose proof Hok as ((Hx1 & Hx2 & Hfl) & Hv & _).
  pose proof Hca as (Hc & Ht & _ & _).
  destruct (block_caller_run (error_st t RT_EOK th s) (HSuspend a) t (with_error RT_EOK th) (o_flag x) time)
    as (s' & Hrun & Hpost); [by apply kinv_error|by apply error_st_caller|done|done|done|].
  exists s'. apply (blocked_post_from s t th) in Hpost; [|done..].
  refine (conj _ (conj _ Hpost)); [|by eapply sem_ok_keep; [done|apply Hpost|apply Hpost|]].
  unfold rt_sem_take, bind at 1. rewrite (assert_type_run s (Obj a) x) by done.
  unfold bind at 1. rewrite (get_sem_run s a 0) by done. cbn [sem_value Z.ltb Z.compare].
  rewrite (proj2 (Z.eqb_neq _ _) Htz).
  unfold bind at 1. rewrite (thread_context_run s t th) by done.
  unfold bind at 1. rewrite (self_run s t th) by done.
  unfold bind at 1. rewrite (mod_thread_run s t th) by done. fold (error_st t RT_EOK th s).
  unfold bind at 1, get_object, k_obj. cbn [error_st upd_sched k_objects]. fold (k_obj s).
  rewrite Hx1. revert Hrun. unfold bind. destruct (ipc_wait _ _ _ _ _) as [[[] s2]|]; [|done].
  by intros ->.
Qed.

Lemma sem_wake_run s a v x t rest :
  kinv s → sem_ok a s v x → tlist (k_tl s) (HSuspend a) = t :: rest →
  ∃ th s', rt_sem_release a s = Some (RT_EOK, s') ∧ k_thr s !! t = Some th ∧ v = 0 ∧
    sem_ok a s' 0 x ∧ woken_post (HSuspend a) t th rest s s'.
Proof.
  intros HI Hok El. pose proof Hok as ((Hx1 & Hx2 & Hfl) & Hv & Hr & Hl).
  assert (v = 0) as -> by (destruct (decide (0 < v)) as [Hp|]; [apply Hl in Hp; congruence|lia]).
  destruct (wake_first_run s (HSuspend a) t rest HI I El) as (th & s' & Hth & Hs & Hrun & Hpost).
  exists th, s'. refine (conj _ (conj Hth (conj eq_refl (conj _ Hpost)))).
  - unfold rt_sem_release, bind at 1. rewrite (assert_type_run s (Obj a) x) by done.
    unfold bind at 1, gets at 1. rewrite El, decide_True by done.
    unfold bind in Hrun |- *. by rewrite Hrun.
  - by eapply sem_ok_keep; [done|apply Hpost|apply Hpost|].
Qed.

(** * Properties *)

(** Taking a semaphore that is positive. *)
Lemma sem_down_run s a v x time :
  kinv s → sem_ok a s v x → 0 < v →
  let s' := upd_ipc (λ i, set_sem (<[a := mk_sem (v - 1)]> (ip_sem i)) i) s in
  rt_sem_take a time s = Some (Returned RT_EOK, s') ∧ kinv s' ∧ sem_ok a s' (v - 1) x.
Proof.
  intros HI ((Hx1 & Hx2 & Hfl) & Hv & Hr & Hl) Hpos s'. split; [|split; [by apply kinv_ipc|]].
  - unfold rt_sem_take, bind at 1. rewrite (assert_type_run s (Obj a) x) by done.
    unfold bind at 1. rewrite (get_sem_run s a v) by done. cbn [sem_value]. rewrite (proj2 (Z.ltb_lt _ _) Hpos).
    unfold bind, put_sem, modify. by rewrite (wrap_small 16) by lia.
  - refine (conj _ (conj _ (conj _ _))); [done| |lia|intros _; by apply Hl]. cbn. by rewrite lookup_insert_eq.
Qed.

(** [rt_sem_take], in all its cases. A positive semaphore is decremented at once
    and nothing else changes; a zero timeout fails with [-RT_ETIMEOUT] and no change;
    otherwise the caller is suspended at its place in the waiting list (FIFO or
    priority order), its timer set, and another thread runs. The semaphore stays well
    formed throughout. *)
Theorem rt_sem_take_spec s a v x t th time :
  kinv s → sem_ok a s v x → caller s t th → time < HALF →
  wp (rt_sem_take a time) (λ r s', kinv s' ∧
    (0 < v → r = Returned RT_EOK ∧ sem_ok a s' (v - 1) x ∧ k_sched s' = k_sched s) ∧
    (v = 0 → time = 0 → r = Returned (- RT_ETIMEOUT) ∧ s' = s) ∧
    (v = 0 → time ≠ 0 → r = Blocked t ∧ sem_ok a s' 0 x ∧
       blocked_post (HSuspend a) t (with_error RT_EOK th) (o_flag x) time s s')) s.
Proof.
  intros HI Hok Hca Htime. pose proof Hok as ((Hx1 & Hx2 & Hfl) & Hv & Hr & Hl). apply wp_run.
  destruct (decide (v = 0 ∧ time ≠ 0)) as [[-> Htz]|Hcase].
  { destruct (sem_block_run s a x t th time HI Hok Hca Htz Htime) as (s' & Hrun & Hok' & Hpost).
    exists (Blocked t), s'. split; [done|]. split_and!; [apply Hpost|lia|done|done]. }
  destruct (decide (0 < v)) as [Hpos|Hneg].
  - destruct (sem_down_run s a v x time HI Hok Hpos) as (R & HI' & Hs'). eexists _, _. split; [exact R|]. by split_and!; [|..|lia|lia].
  - unfold rt_sem_take, bind at 1. rewrite (assert_type_run s (Obj a) x) by done.
    unfold bind at 1. rewrite (get_sem_run s a v) by done. cbn [sem_value]. rewrite (proj2 (Z.ltb_ge _ _)) by lia.
    assert (time = 0) as -> by lia. eexists _, _. split; [done|]. split_and!; [done|lia|done|done].
Qed.

(** Releasing a semaphore that nobody waits for. *)
Lemma sem_count_run s a v x :
  kinv s → sem_ok a s v x → v < 2 ^ 16 - 1 → tlist (k_tl s) (HSuspend a) = [] →
  let s' := upd_ipc (λ i, set_sem (<[a := mk_sem (v + 1)]> (ip_sem i)) i) s in
  rt_sem_release a s = Some (RT_EOK, s') ∧ kinv s' ∧ sem_ok a s' (v + 1) x.
Proof.
  intros HI ((Hx1 & Hx2 & Hfl) & Hv & Hr & Hl) Hmax El s'. split; [|split; [by apply kinv_ipc|]].
  - unfold rt_sem_release, bind at 1. rewrite (assert_type_run s (Obj a) x) by done.
    unfold bind at 1, gets at 1. rewrite El, decide_False by tauto. unfold bind. rewrite (get_sem_run s a v) by done.
    unfold put_sem, modify. cbn [sem_value]. by rewrite (wrap_small 16) by lia.
  - refine (conj _ (conj _ (conj _ _))); [done| |lia|done]. cbn. by rewrite lookup_insert_eq.
Qed.

(** C38: [rt_sem_release] of a semaphore whose count is below 65535 hands the token to the first
    waiter, if there is one: it is ready (or running) with its result unchanged and its
    timer stopped, leaves the list, the count stays 0, nobody else is woken, and a thread
    of highest priority runs unless the scheduler is locked; without waiters the count grows
    by one and nothing is rescheduled. The kernel invariant holds, so that nobody waits
    while the count is positive. *)
Theorem rt_sem_release_spec s a v x :
  kinv s → sem_ok a s v x → v < 2 ^ 16 - 1 →
  wp (rt_sem_release a) (λ r s', r = RT_EOK ∧ kinv s' ∧
    (∀ t rest, tlist (k_tl s) (HSuspend a) = t :: rest →
       sem_ok a s' v x ∧ v = 0 ∧
       ∃ th, k_thr s !! t = Some th ∧ woken_post (HSuspend a) t th rest s s') ∧
    (tlist (k_tl s) (HSuspend a) = [] → sem_ok a s' (v + 1) x ∧ k_sched s' = k_sched s)) s.
Proof.
  intros HI Hok Hmax. pose proof Hok as ((Hx1 & Hx2 & Hfl) & Hv & Hr & Hl). apply wp_run.
  destruct (tlist (k_tl s) (HSuspend a)) as [|t rest] eqn:El.
  - destruct (sem_count_run s a v x HI Hok Hmax El) as (R & HI' & Hs'). eexists _, _. split; [exact R|]. by split_and!.
  - destruct (sem_wake_run s a v x t rest HI Hok El) as (th & s' & Hrun & Hth & -> & Hok' & Hpost).
    exists RT_EOK, s'. split; [done|]. split_and!; [done|apply Hpost| |done].
    intros t0 rest0 [= <- <-]. eauto.
Qed.

(** A thread blocked in [rt_sem_take] is served by the next [rt_sem_release]: its
    call then returns [RT_EOK], it no longer waits, and the count is unchanged. *)
Theorem rt_sem_handoff s a x t th time :
  kinv s → sem_ok a s 0 x → caller s t th → tlist (k_tl s) (HSuspend a) = [] →
  time ≠ 0 → time < HALF →
  wp (rt_sem_take a time ;; rt_sem_release a ;; rt_sem_take_resume t) (λ r s',
    r = RT_EOK ∧ sem_ok a s' 0 x ∧ tlist (k_tl s') (HSuspend a) = [] ∧
    ∃ th', k_thr s' !! t = Some th' ∧ active th') s.
Proof.
  intros HI Hok Hca Hl Htz Htime.
  destruct (sem_block_run s a x t th time HI Hok Hca Htz Htime) as (s1 & Hr1 & Hok1 & Hb).
  destruct Hb as (HI1 & _ & _ & Ht1 & Hl1 & _).
  assert (tlist (k_tl s1) (HSuspend a) = [t]) as El.
  { rewrite Hl1, Hl. unfold enqueue. by case_match. }
  destruct (sem_wake_run s1 a 0 x t [] HI1 Hok1 El) as (th1 & s2 & Hr2 & Hth1 & _ & Hok2 & Hw).
  destruct Hw as (_ & _ & _ & Hl2 & _ & (st & Ht2 & Hact) & _).
  rewrite Ht1 in Hth1. injection Hth1 as <-.
  unfold wp, bind. rewrite Hr1, Hr2. unfold rt_sem_take_resume, bind, get_thread. rewrite Ht2. cbn.
  split_and!; [done|apply Hok2..|done|eauto].
Qed.

(** The count is a 16-bit field: releasing a semaphore whose count is 65535 resets
    it to 0, so all tokens are lost. *)
Theorem rt_sem_release_overflow s a x :
  kinv s → sem_ok a s 65535 x →
  wp (rt_sem_release a) (λ r s', r = RT_EOK ∧ ip_sem (k_ipc s') !! a = Some (mk_sem 0)) s.
Proof.
  intros HI ((Hx1 & Hx2 & Hfl) & Hv & Hr & Hl). unfold wp, rt_sem_release, bind at 1.
  rewrite (assert_type_run s (Obj a) x) by done. unfold bind at 1, gets at 1.
  rewrite Hl, decide_False by (lia || tauto). unfold bind. rewrite (get_sem_run s a 65535) by done.
  cbn. by rewrite lookup_insert_eq.
Qed.

(** [rt_sem_init] makes an unused address a well-formed semaphore with the given
    count, and keeps the kernel invariant. *)
Theorem rt_sem_init_spec s a name value flag :
  kinv s → 0 ≤ sc_lock_nest (k_sched s) < 2 ^ 15 - 1 → a ≠ 0 → 0 ≤ value < 2 ^ 16 →
  flag = RT_IPC_FLAG_FIFO ∨ flag = RT_IPC_FLAG_PRIO → not_kernel a s →
  (∀ cls, Obj a ∉ tlist (ob_list (k_objects s)) cls) → tlist (k_tl s) (HSuspend a) = [] →
  wp (rt_sem_init a name value flag) (λ r s', r = RT_EOK ∧ kinv s' ∧
    ∃ x, sem_ok a s' value x ∧ o_flag x = flag ∧ o_name x = Str.rt_strncpy name RT_NAME_MAX ∧
      ∀ o, o ≠ Obj a → k_obj s' !! o = k_obj s !! o) s.
Proof.
  intros HI Hn Ha Hv Hfl Hnk Hl Hw.
  destruct (object_init_run s a RT_Object_Class_Semaphore name HI Hn ltac:(unfold plain_class; tauto) Hnk Hl)
    as (c1 & O1 & Hr1 & HI1 & Hd1 & HO1 & _).
  set (s1 := mk_kst c1 (k_timers s) O1 (k_ipc s)) in *.
  assert (∀ h, is_wait h → tlist (k_tl s1) h = tlist (k_tl s) h) as Hl1.
  { intros h Hh. apply (scheduled_waiting _ _ h (ki_sched _ (proj1 HI)) Hd1).
    intros p. by apply is_wait_not_ready. }
  destruct (ipc_init_run s1 (HSuspend a) HI1) as (Hr2 & HI2 & Hl2); [by rewrite Hl1|].
  set (s2 := upd_sched _ s1) in *. set (hd := header RT_Object_Class_Semaphore name (k_obj s !! Obj a)) in *.
  set (s3 := upd_ipc (λ i, set_sem (<[a := mk_sem (u16 value)]> (ip_sem i)) i) s2).
  assert (k_obj s3 !! Obj a = Some hd) as Hx3.
  { unfold k_obj, s3, s2, s1. cbn. rewrite HO1. apply lookup_insert_eq. }
  assert (u8 flag = flag) as Hu8 by (by destruct Hfl as [-> | ->]).
  unfold wp, rt_sem_init, bind at 1, assert at 1. rewrite (proj2 (nz_true a) Ha).
  unfold bind at 1, assert at 1. rewrite (proj2 (Z.ltb_lt _ _)) by lia.
  unfold bind at 1. rewrite Hr1. fold s1. unfold bind at 1. rewrite Hr2. fold s2.
  unfold bind at 1, put_sem, modify. fold s3. unfold bind at 1.
  rewrite (mod_object_run s3 (Obj a) hd) by done. rewrite Hu8. cbn -[s3].
  refine (conj eq_refl (conj _ _)).
  - apply (kinv_put_obj s3 a (with_flag flag hd) (ob_list (k_objects s3))).
    + by apply kinv_ipc.
    + intros y Hy. rewrite Hx3 in Hy. by injection Hy as <-.
    + done.
  - exists (with_flag flag hd). split; [|split; [done|split; [done|]]].
    2: { intros o Ho. unfold k_obj at 1. cbn. rewrite lookup_insert_ne, HO1, lookup_insert_ne by congruence. done. }
    refine (conj _ (conj _ (conj Hv _))).
    + split_and!; [unfold k_obj; cbn; by rewrite lookup_insert_eq|done|done].
    + cbn. rewrite lookup_insert_eq. unfold wrap. by rewrite Z.mod_small by lia.
    + intros _. rewrite <- Hw, <- (Hl1 (HSuspend a) I). apply Hl2.
Qed.

(** [rt_sem_detach] wakes every waiter with [-RT_ERROR], empties the list, takes the
    object out of the kernel, and keeps the invariant. *)
Theorem rt_sem_detach_spec s a v x :
  kinv s → sem_ok a s v x → nz (Z.land (o_type x) RT_Object_Class_Static) = true →
  wp (rt_sem_detach a) (λ r s', r = RT_EOK ∧ kinv s' ∧ tlist (k_tl s') (HSuspend a) = [] ∧
    (∀ t, t ∈ tlist (k_tl s) (HSuspend a) →
       ∃ th, k_thr s' !! t = Some th ∧ active th ∧ th_error th = - RT_ERROR) ∧
    (∀ t, t ∉ tlist (k_tl s) (HSuspend a) → k_thr s' !! t = k_thr s !! t) ∧
    (∀ cls, Obj a ∉ tlist (ob_list (k_objects s')) cls)) s.
Proof.
  intros HI (Hx & Hv & Hr & Hl) Hst. pose proof Hx as (Hx1 & Hx2 & Hfl).
  destruct (ipc_resume_all_run s (HSuspend a) HI I)
    as (s1 & Hr1 & HI1 & Hip1 & Hc1 & Hl1 & Hn1 & Hol1 & Hob1 & Hoth1 & Hin1 & Hout1 & _).
  assert (k_obj s1 !! Obj a = Some x) as Hx3 by (by rewrite Hob1).
  unfold wp, rt_sem_detach, bind at 1. rewrite (assert_type_run s (Obj a) x) by done.
  unfold bind at 1, rt_object_is_systemobject, bind at 1, get_object. rewrite Hx1. cbn -[rt_ipc_list_resume_all].
  unfold bind at 1, assert at 1. rewrite Hst. unfold bind at 1. rewrite Hr1.
  unfold bind at 1. rewrite (object_detach_run s1 (Obj a) x) by done.
  refine (conj eq_refl (conj _ (conj Hl1 (conj Hin1 (conj Hout1 _))))).
  - apply kinv_detach_obj; [done| |done]. intros y Hy. rewrite Hx3 in Hy. injection Hy as <-.
    by rewrite Hx2.
  - intros cls. cbn. rewrite tlist_remove, list_elem_of_filter. naive_solver.
Qed.

(** * Instances *)

(** The demo system with a semaphore at 100 of count 0, where thread 5 waits, one at
    101 of count 0 without waiters, and one at 102 of count 65535. *)
Definition demo_sem : kst :=
  let hdr := mk_object [] (RT_Object_Class_Semaphore + RT_Object_Class_Static) RT_IPC_FLAG_PRIO in
  upd_objects (λ O, put_obj (Obj 100) hdr (put_obj (Obj 101) hdr (put_obj (Obj 102) hdr O)))
    (upd_ipc (set_sem (<[100 := mk_sem 0]> (<[101 := mk_sem 0]> (<[102 := mk_sem 65535]> ∅)))) demo).

Lemma demo_sem_kinv : kinv demo_sem.
Proof. apply kinv_check_sound. vm_compute. reflexivity. Qed.

Definition demo_hdr : rt_object :=
  mk_object [] (RT_Object_Class_Semaphore + RT_Object_Class_Static) RT_IPC_FLAG_PRIO.

Lemma demo_sem_ok a v :
  (a = 100 ∧ v = 0) ∨ (a = 101 ∧ v = 0) ∨ (a = 102 ∧ v = 65535) → sem_ok a demo_sem v demo_hdr.
Proof.
  intros [[-> ->]|[[-> ->]|[-> ->]]];
    (refine (conj (conj _ (conj _ (or_intror _))) (conj _ (conj _ _))); [reflexivity..|lia|]);
    intros; by (reflexivity || lia).
Qed.

Lemma demo_caller : caller demo_sem 1 (demo_thread 10 RT_THREAD_RUNNING).
Proof. split_and!; reflexivity. Qed.

Lemma rt_sem_take_spec_witness :
  wp (rt_sem_take 100 20) (λ r s', r = Blocked 1 ∧ tlist (k_tl s') (HSuspend 100) = [5; 1]) demo_sem.
Proof.
  eapply wp_mono; [eapply (rt_sem_take_spec demo_sem 100 0 demo_hdr 1); [apply demo_sem_kinv|
    apply demo_sem_ok; by left|apply demo_caller|by vm_compute]|].
  intros r s' (_ & _ & _ & E). destruct E as (? & _ & _ & _ & _ & _ & E & _); [done|done|].
  split; [done|]. rewrite E. reflexivity.
Defined.

Lemma rt_sem_release_spec_witness :
  wp (rt_sem_release 100) (λ r s', r = RT_EOK ∧ sem_ok 100 s' 0 demo_hdr) demo_sem.
Proof.
  eapply wp_mono; [eapply (rt_sem_release_spec demo_sem 100 0 demo_hdr); [apply demo_sem_kinv|
    apply demo_sem_ok; by left|by vm_compute]|].
  intros r s' (? & _ & E & _). split; [done|]. apply (E 5 []). reflexivity.
Defined.

Lemma rt_sem_handoff_witness :
  wp (rt_sem_take 101 7 ;; rt_sem_release 101 ;; rt_sem_take_resume 1) (λ r _, r = RT_EOK) demo_sem.
Proof.
  eapply wp_mono; [eapply (rt_sem_handoff demo_sem 101 demo_hdr 1); [apply demo_sem_kinv|
    apply demo_sem_ok; by right; left|apply demo_caller|reflexivity|done|by vm_compute]|].
  by intros r s' [? _].
Defined.

Lemma rt_sem_release_overflow_witness :
  wp (rt_sem_release 102) (λ r s', ip_sem (k_ipc s') !! 102 = Some (mk_sem 0)) demo_sem.
Proof.
  eapply wp_mono; [eapply (rt_sem_release_overflow demo_sem 102 demo_hdr); [apply demo_sem_kinv|
    apply demo_sem_ok; by right; right]|].
  by intros r s' [_ ?].
Defined.

Lemma rt_sem_init_spec_witness :
  wp (rt_sem_init 200 [115; 0] 3 RT_IPC_FLAG_FIFO) (λ r s', ∃ x, sem_ok 200 s' 3 x) demo_sem.
Proof.
  eapply wp_mono; [eapply (rt_sem_init_spec demo_sem 200); [apply demo_sem_kinv|by vm_compute|done|
    done|by left|done| |reflexivity]|].
  - intros cls. unfold tlist. cbn. rewrite lookup_empty. set_solver.
  - intros r s' (_ & _ & x & ? & _). by exists x.
Defined.

Lemma rt_sem_detach_spec_witness :
  wp (rt_sem_detach 100) (λ r s', r = RT_EOK ∧ tlist (k_tl s') (HSuspend 100) = []) demo_sem.
Proof.
  eapply wp_mono; [eapply (rt_sem_detach_spec demo_sem 100 0 demo_hdr); [apply demo_sem_kinv|
    apply demo_sem_ok; by left|reflexivity]|].
  by intros r s' (? & _ & ? & _).
Defined.
