(* ===== verification/Callback.v ===== *)
(** Timeout functions that call the kernel back.

    [rt_timer_check] calls the timeout functions of expired timers in the middle of its
    work: the timer is out of the list but still marked active. A timeout function of the
    application may stop or detach its own timer (examples/kernel/timer_stop_self.c, the
    timeout handler of workqueue.c), change periods and modes
    (examples/kernel/timer_control.c), start and stop other timers, release semaphores,
    resume threads and reschedule. It is modelled as a program of such calls whose later
    calls may depend on the results of earlier ones. The theorems hold for all programs
    that respect [prog_ok]: they do not start the very timer whose timeout they handle
    (Timer.oneshot_restarted_in_callback shows what happens then), set no period of 0 or
    of half the tick range, name objects that exist, and call [rt_schedule] after they have
    resumed threads. *)

From Stdlib Require Import ZArith Lia.
From stdpp Require Import base numbers option gmap.
From stdpp Require Import list sorting.
From S2P Require Import Prelude.
From S2P Require Import Kservice.
From S2P Require Import KernelDefs.
From S2P Require Import Scheduler.
From S2P Require Import Object.
From S2P Require Import Timer.
From S2P Require Import Thread.
From S2P Require Import Clock.
From S2P Require Import Ipc.
From S2P Require Import Sem.
Local Open Scope Z_scope.
Local Open Scope rt_scope.

(** * Programs *)

(** Kernel calls that are possible in an interrupt; [a] names an application timer. *)
Inductive act :=
| AStop (a : Z)
| AStart (a : Z)
| ASetTime (a time : Z)
| AOneshot (a : Z)
| APeriodic (a : Z)
| ADetach (a : Z)
| ARelease (sem : Z)
| AResume (u : Z)
| ASchedule.

Definition run_act (c : act) : K Z :=
  match c with
  | AStop a => rt_timer_stop (Obj a)
  | AStart a => rt_timer_start (Obj a)
  | ASetTime a v => r ← rt_timer_control (Obj a) RT_TIMER_CTRL_SET_TIME v; ret r.1
  | AOneshot a => r ← rt_timer_control (Obj a) RT_TIMER_CTRL_SET_ONESHOT 0; ret r.1
  | APeriodic a => r ← rt_timer_control (Obj a) RT_TIMER_CTRL_SET_PERIODIC 0; ret r.1
  | ADetach a => rt_timer_detach (Obj a)
  | ARelease a => rt_sem_release a
  | AResume u => rt_thread_resume u
  | ASchedule => rt_schedule ;; ret 0
  end.

(** A program: the next call, and the rest of the program for each of its results. *)
Inductive prog :=
| Done
| Do (c : act) (k : Z → prog).

Fixpoint run_prog (p : prog) : K unit :=
  match p with
  | Done => ret tt
  | Do c k => r ← run_act c; run_prog (k r)
  end.

(** The timers a call can change. *)
Definition touched (c : act) (o : oid) : Prop :=
  match c with
  | AStop a | AStart a | ASetTime a _ | AOneshot a | APeriodic a | ADetach a => o = Obj a
  | ARelease _ => ∃ t, o = ThreadTimer t
  | AResume u => o = ThreadTimer u
  | ASchedule => False
  end.

Fixpoint touches (p : prog) (o : oid) : Prop :=
  match p with
  | Done => False
  | Do c k => touched c o ∨ ∃ r, touches (k r) o
  end.

(** ** What programs have to respect *)

(** What has become of the timer whose timeout is being handled. *)
Inductive phase := Fired | Halted | Gone.

#[export] Instance phase_eq_dec : EqDecision phase.
Proof. solve_decision. Defined.

Definition next (o : option Z) (ph : phase) (c : act) : phase :=
  match c with
  | AStop a => if decide (o = Some a) then Halted else ph
  | ADetach a => if decide (o = Some a) then Gone else ph
  | _ => ph
  end.

(** A resumed thread may have to run at once: [rt_schedule] is owed. *)
Definition owes (b : bool) (c : act) : bool :=
  match c with AResume _ => true | ASchedule => false | _ => b end.

Section callback.
(** The timers, semaphores and threads of the application that stay. *)
Context (P V U : Z → Prop).

(** The timer [a] can be named: the timer [o] being handled until it is detached, or one
    that stays. *)
Definition names (o : option Z) (ph : phase) (a : Z) : Prop :=
  if decide (o = Some a) then ph ≠ Gone else P a.

Definition act_ok (o : option Z) (ph : phase) (c : act) : Prop :=
  match c with
  | AStop a | AOneshot a | APeriodic a => names o ph a
  | AStart a => o ≠ Some a ∧ P a
  | ASetTime a v => names o ph a ∧ 1 ≤ u32 v < HALF
  | ADetach a => o = Some a ∧ ph = Halted ∧ ¬ P a
  | ARelease a => V a
  | AResume u => U u
  | ASchedule => True
  end.

Fixpoint prog_ok (o : option Z) (ph : phase) (b : bool) (p : prog) : Prop :=
  match p with
  | Done => b = false
  | Do c k => act_ok o ph c ∧ ∀ r, prog_ok o (next o ph c) (owes b c) (k r)
  end.

(** * Invariant *)

Definition sems_ok (s : kst) : Prop :=
  ∀ a v, ip_sem (k_ipc s) !! a = Some (mk_sem v) → ∃ x, sem_ok a s v x.

Definition awake (s : kst) (u : Z) : Prop := ∃ uh, k_thr s !! u = Some uh ∧ active uh.

(** The headers with the timer [o], which is being handled, marked inactive. *)
Definition quiet (o : option Z) (O : objects) : objects :=
  match o with
  | None => O
  | Some a => match ob_obj O !! Obj a with Some x => put_obj (Obj a) (stopped x) O | None => O end
  end.

Definition timer_at (s : kst) (a : Z) : Prop :=
  (∃ x, is_timer (k_objects s) (Obj a) x) ∧ is_Some (k_tim s !! Obj a).

(** What holds between two calls of a program; [o] is the timer being handled, if any.
    Every application timer has a period the kernel can serve. *)
Record hinv (o : option Z) (ph : phase) (late : bool) (s : kst) : Prop := {
  h_k0 : kinv0 s;
  h_twf : twf late (k_timers s) (quiet o (k_objects s));
  h_times : ∀ a tm, k_tim s !! Obj a = Some tm → 1 ≤ tm_init_tick tm < HALF;
  h_timers : ∀ a, P a → timer_at s a;
  h_static : ∀ a x, ¬ P a → is_timer (k_objects s) (Obj a) x → nz (Z.land (o_type x) RT_Object_Class_Static) = true;
  h_self : ∀ a, o = Some a → ∃ x, k_obj s !! Obj a = Some x ∧ (ph = Gone → ¬ P a ∧ o_type x = 0) ∧ (ph ≠ Gone → timer_at s a) ∧
    (ph ≠ Fired → has_flag RT_TIMER_FLAG_ACTIVATED x = false);
  h_threads : ∀ u, U u → ∃ uh, k_thr s !! u = Some uh ∧ stat_of uh ≠ RT_THREAD_CLOSE;
  h_sems : sems_ok s;
  h_sem : ∀ a, V a → is_Some (ip_sem (k_ipc s) !! a);
  h_lock : sc_lock_nest (k_sched s) = 0;
  h_run : running s
}.

(** What a call does to the rest: time stands still, no thread stops being ready or
    running, a thread that waits keeps waiting or is woken, no timer becomes due, and timers
    that are not [T] are untouched. *)
Record acted (T : oid → Prop) (s s' : kst) : Prop := {
  ac_tick : k_tick s' = k_tick s;
  ac_irq : sc_irq_nest (k_sched s') = sc_irq_nest (k_sched s);
  ac_active : ∀ u uh, k_thr s !! u = Some uh → active uh →
    ∃ uh', k_thr s' !! u = Some uh' ∧ active uh' ∧ th_error uh' = th_error uh;
  ac_wait : ∀ u, ThreadTimer u ∈ k_rows s →
    (ThreadTimer u ∈ k_rows s' ∧ k_tim s' !! ThreadTimer u = k_tim s !! ThreadTimer u) ∨ awake s' u;
  ac_fn : ∀ a, tm_timeout_func <$> k_tim s' !! Obj a = tm_timeout_func <$> k_tim s !! Obj a;
  ac_expired : expired (k_timers s') `sublist_of` expired (k_timers s);
  ac_view : ∀ o, ¬ T o → tview (k_timers s') (k_objects s') o = tview (k_timers s) (k_objects s) o
}.
End callback.

Arguments h_k0 {P V U o ph late s} _.
Arguments h_twf {P V U o ph late s} _.
Arguments h_times {P V U o ph late s} _.
Arguments h_timers {P V U o ph late s} _.
Arguments h_static {P V U o ph late s} _.
Arguments h_self {P V U o ph late s} _.
Arguments h_threads {P V U o ph late s} _.
Arguments h_sems {P V U o ph late s} _.
Arguments h_sem {P V U o ph late s} _.
Arguments h_lock {P V U o ph late s} _.
Arguments h_run {P V U o ph late s} _.
Arguments ac_tick {T s s'} _.
Arguments ac_irq {T s s'} _.
Arguments ac_active {T s s'} _.
Arguments ac_wait {T s s'} _.
Arguments ac_fn {T s s'} _.
Arguments ac_expired {T s s'} _.
Arguments ac_view {T s s'} _.

(** ** Frames *)

Lemma acted_refl T s : acted T s s.
Proof. split; eauto 10. Qed.

Lemma acted_mono T T' s s' : (∀ o, T o → T' o) → acted T s s' → acted T' s s'.
Proof. intros HT [H1 H2 H3 H4 H5 H6 H7]. split; [done..|]. intros o Ho. apply H7. naive_solver. Qed.

Lemma acted_awake T s s' u : acted T s s' → awake s u → awake s' u.
Proof. intros Ha (uh & Hu & Hact). destruct (ac_active Ha u uh Hu Hact) as (uh' & ? & ? & _). by exists uh'. Qed.

Lemma acted_trans T s1 s2 s3 : acted T s1 s2 → acted T s2 s3 → acted T s1 s3.
Proof.
  intros [A1 A2 A3 A4 A5 A6 A7] Hb. pose proof Hb as [B1 B2 B3 B4 B5 B6 B7].
  split; [congruence|congruence| | |intros a; by rewrite B5|by etrans|intros o Ho; rewrite B7, A7; done].
  - intros u uh Hu Ha. destruct (A3 u uh Hu Ha) as (uh' & Hu' & Ha' & <-). eauto.
  - intros u Hu. destruct (A4 u Hu) as [[Hu' <-]|Hw]; [by apply B4|right; by eapply acted_awake].
Qed.

(** Changes to the timers only. *)
Lemma acted_timers (T : oid → Prop) s T' O' :
  tms_tick T' = k_tick s → (∀ u, ¬ T (ThreadTimer u)) →
  (∀ a, tm_timeout_func <$> tms_tim T' !! Obj a = tm_timeout_func <$> k_tim s !! Obj a) →
  (∀ o, ¬ T o → tview T' O' o = tview (k_timers s) (k_objects s) o) →
  expired T' `sublist_of` expired (k_timers s) → acted T s (mk_kst (k_sched s) T' O' (k_ipc s)).
Proof.
  intros Ht Hu Hf Hv He. split; [done|done|eauto| |done|done|done]. intros u Hin. left.
  specialize (Hv (ThreadTimer u) (Hu u)). unfold tview in Hv. injection Hv as Hr Htm _.
  split; [|done]. unfold k_rows. cbn. by rewrite <- (bool_decide_eq_true (_ ∈ tms_rows T')), Hr, bool_decide_eq_true.
Qed.

(** ** The header of the timer being handled *)

Lemma quiet_lookup_ne o O p : (∀ a, o = Some a → p ≠ Obj a) → ob_obj (quiet o O) !! p = ob_obj O !! p.
Proof.
  intros Hp. destruct o as [a|]; [|done]. cbn. destruct (ob_obj O !! Obj a); [|done]. cbn.
  rewrite lookup_insert_ne; [done|]. intros <-. by apply (Hp a).
Qed.

Lemma quiet_put_ne o O p y :
  (∀ a, o = Some a → p ≠ Obj a) → quiet o (put_obj p y O) = put_obj p y (quiet o O).
Proof.
  intros Hp. destruct o as [a|]; [|done]. specialize (Hp a eq_refl). cbn. rewrite lookup_insert_ne by done.
  destruct (ob_obj O !! Obj a); [|done]. unfold put_obj, set_obj. cbn. by rewrite insert_insert_ne.
Qed.

Lemma put_obj_twice p x y O : put_obj p y (put_obj p x O) = put_obj p y O.
Proof. unfold put_obj, set_obj. cbn. by rewrite insert_insert_eq. Qed.

Lemma quiet_put_self a O y : quiet (Some a) (put_obj (Obj a) y O) = put_obj (Obj a) (stopped y) O.
Proof. cbn. rewrite lookup_insert_eq. apply put_obj_twice. Qed.

Lemma quiet_self a O x : ob_obj O !! Obj a = Some x → quiet (Some a) O = put_obj (Obj a) (stopped x) O.
Proof. intros Hx. cbn. by rewrite Hx. Qed.

Lemma quiet_timer o O p x :
  (∀ a, o = Some a → p ≠ Obj a) → is_timer O p x → is_timer (quiet o O) p x.
Proof. intros Hp [Hx Hty]. split; [|done]. by rewrite quiet_lookup_ne. Qed.

(** The header of an inactive timer. *)
Lemma twf_put_off late T O p y :
  twf late T O → p ∉ tms_rows T → has_flag RT_TIMER_FLAG_ACTIVATED y = false → twf late T (put_obj p y O).
Proof.
  intros [Hnd Hr Ha Hs Hg] Hp Hy. split; try done.
  - intros q Hq. destruct (Hr q Hq) as (? & z & [? ?] & ?). split; [done|]. exists z. split; [|done].
    split; [|done]. cbn. rewrite lookup_insert_ne; [done|]. by intros ->.
  - intros q z [Hz Hzt]. cbn in Hz. rewrite lookup_insert in Hz. case_decide; [injection Hz as <-; congruence|].
    by apply Ha.
Qed.

Lemma stopped_off x : has_flag RT_TIMER_FLAG_ACTIVATED (stopped x) = false.
Proof. apply has_clear_activated. Qed.

(** The timer being handled is not in the list. *)
Lemma handled_off late T O a : twf late T (quiet (Some a) O) → is_Some (ob_obj O !! Obj a) → Obj a ∉ tms_rows T.
Proof.
  intros Hw [x Hx] (_ & y & [Hy _] & Hf)%(tw_rows _ _ Hw). rewrite (quiet_self a O x Hx) in Hy. cbn in Hy.
  rewrite lookup_insert_eq in Hy. injection Hy as <-. by rewrite stopped_off in Hf.
Qed.

(** An update of an application timer. *)
Lemma kinv0_user s a x y T' :
  kinv0 s → k_obj s !! Obj a = Some x → o_type y = o_type x →
  (∀ t, tms_tim T' !! ThreadTimer t = k_tim s !! ThreadTimer t) →
  (∀ t, ThreadTimer t ∈ tms_rows T' → ThreadTimer t ∈ k_rows s) →
  (∀ b tm, tms_tim T' !! Obj b = Some tm → ∃ f p, tm_timeout_func tm = user_fn f p) →
  kinv0 (mk_kst (k_sched s) T' (put_obj (Obj a) y (k_objects s)) (k_ipc s)).
Proof.
  intros HI Hx Hy Ht Hr Hu. split; try apply HI; try done.
  - intros u uh Huh Hus. apply (thread_objs_put _ _ u (Obj a) x); [|done|done].
    unfold thread_objs. cbn. rewrite Ht. exact (ki_objs _ HI u uh Huh Hus).
  - intros u Hin. by apply (ki_wait _ HI), Hr.
  - intros u z. unfold k_obj. cbn. rewrite lookup_insert_ne by done. apply (ki_oneshot _ HI).
Qed.

Lemma sems_keep s s' :
  sems_ok s → ip_sem (k_ipc s') = ip_sem (k_ipc s) →
  (∀ a x, k_obj s !! Obj a = Some x → get_type x = RT_Object_Class_Semaphore → k_obj s' !! Obj a = Some x) →
  (∀ a u, u ∈ tlist (k_tl s') (HSuspend a) → u ∈ tlist (k_tl s) (HSuspend a)) → sems_ok s'.
Proof.
  intros Hs Hip Hob Hl a v Hv. rewrite Hip in Hv. destruct (Hs a v Hv) as (x & (Hx & Hty & Hf) & _ & Hr & He).
  exists x. split; [|split_and!; [by rewrite Hip|lia|lia|]].
  - split_and!; [by apply Hob|done|done].
  - intros Hp. specialize (He Hp). destruct (tlist (k_tl s') (HSuspend a)) as [|u l] eqn:E; [done|].
    exfalso. specialize (Hl a u). rewrite E, He in Hl. set_solver.
Qed.

Section acts.
Context (P V U : Z → Prop).
Local Notation hinv := (hinv P V U).

(** The header and the data of one application timer change. *)
Lemma hinv_put o ph ph' late s a x y T' :
  hinv o ph late s → is_timer (k_objects s) (Obj a) x → o_type y = o_type x →
  twf late T' (quiet o (put_obj (Obj a) y (k_objects s))) →
  (∀ t, tms_tim T' !! ThreadTimer t = k_tim s !! ThreadTimer t) →
  (∀ t, ThreadTimer t ∈ tms_rows T' → ThreadTimer t ∈ k_rows s) →
  (∀ b, b ≠ a → tms_tim T' !! Obj b = k_tim s !! Obj b) →
  (∀ tm, k_tim s !! Obj a = Some tm → ∃ tm', tms_tim T' !! Obj a = Some tm' ∧
     tm_timeout_func tm' = tm_timeout_func tm ∧ 1 ≤ tm_init_tick tm' < HALF) →
  is_Some (k_tim s !! Obj a) →
  (if decide (o = Some a) then ph' ≠ Gone ∧ (ph' ≠ Fired → has_flag RT_TIMER_FLAG_ACTIVATED y = false) else ph' = ph) →
  hinv o ph' late (mk_kst (k_sched s) T' (put_obj (Obj a) y (k_objects s)) (k_ipc s)).
Proof.
  intros [HI Hw Htm Hti Hst Hse Hth Hso Hsm Hlk Hru] Hx Hy Hw' Ht Hr Hb Ha [tm0 Htm0] Hph.
  destruct (Ha tm0 Htm0) as (tm1 & Htm1 & Hfn & Hrg).
  assert (get_type y = RT_Object_Class_Timer) as Hyt by (unfold get_type; rewrite Hy; apply Hx).
  assert (∀ b, timer_at s b → timer_at (mk_kst (k_sched s) T' (put_obj (Obj a) y (k_objects s)) (k_ipc s)) b) as Hat.
  { intros b [(z & Hz & Hzt) Hbm]. unfold timer_at, is_timer. cbn. rewrite lookup_insert.
    destruct (decide (Obj a = Obj b)) as [E|E].
    - injection E as <-. split; [by exists y|]. unfold k_tim. cbn. by rewrite Htm1.
    - split; [by exists z|]. unfold k_tim. cbn. rewrite Hb by congruence. done. }
  split; try done.
  - eapply kinv0_user; [done|apply Hx|done|done|done|]. intros b bm Hbm. destruct (decide (b = a)) as [->|Hne].
    + rewrite Htm1 in Hbm. injection Hbm as <-. rewrite Hfn. exact (ki_user _ HI a tm0 Htm0).
    + rewrite Hb in Hbm by done. exact (ki_user _ HI b bm Hbm).
  - intros b bm. unfold k_tim. cbn. destruct (decide (b = a)) as [->|Hne]; [rewrite Htm1; by intros [= <-]|].
    rewrite Hb by done. apply Htm.
  - eauto.
  - intros b z Hnb [Hz Hzt]. cbn in Hz. rewrite lookup_insert in Hz.
    destruct (decide (Obj a = Obj b)) as [E|E]; [|by apply (Hst b)].
    injection E as <-. injection Hz as <-. rewrite Hy. by apply (Hst a).
  - intros b ->. destruct (Hse b eq_refl) as (z & Hz & Hg & Hng & Hf). unfold k_obj. cbn. rewrite lookup_insert.
    destruct (decide (Obj a = Obj b)) as [E|E].
    + injection E as <-. rewrite decide_True in Hph by done. destruct Hph as [Hn1 Hn2]. exists y.
      split_and!; [done|done| |done]. intros _. apply Hat. split; [by exists x|by exists tm0].
    + rewrite decide_False in Hph by congruence. subst ph'. exists z. split_and!; [done|done|auto|done].
  - eapply (sems_keep s); [done|done| |done]. intros b z Hz Hzt. unfold k_obj. cbn. rewrite lookup_insert_ne; [done|].
    intros [= <-]. destruct Hx as [Hx Hxt]. unfold k_obj in Hz. rewrite Hx in Hz. injection Hz as <-. by rewrite Hzt in Hxt.
Qed.

Lemma names_timer o ph late s a : hinv o ph late s → names P o ph a → timer_at s a.
Proof.
  intros HI. unfold names. case_decide; [|apply HI]. subst. intros Hph.
  by destruct (h_self HI a eq_refl) as (x & _ & _ & Ht & _); apply Ht.
Qed.

Lemma has_activated_clear_periodic x :
  has_flag RT_TIMER_FLAG_ACTIVATED (flag_clear RT_TIMER_FLAG_PERIODIC x) = has_flag RT_TIMER_FLAG_ACTIVATED x.
Proof. unfold has_flag, flag_clear. cbn. by rewrite <- Z.land_assoc. Qed.

Lemma has_activated_set_periodic x :
  has_flag RT_TIMER_FLAG_ACTIVATED (flag_set RT_TIMER_FLAG_PERIODIC x) = has_flag RT_TIMER_FLAG_ACTIVATED x.
Proof. unfold has_flag, flag_set. cbn. f_equal. rewrite Z.land_lor_distr_l. by rewrite Z.lor_0_r. Qed.

Lemma twf_put_same late T O p x y :
  twf late T O → is_timer O p x → o_type y = o_type x →
  has_flag RT_TIMER_FLAG_ACTIVATED y = has_flag RT_TIMER_FLAG_ACTIVATED x → twf late T (put_obj p y O).
Proof.
  intros [Hnd Hr Ha Hs Hg] [Hx Hxt] Hy Hf. split; try done.
  - intros q Hq. destruct (Hr q Hq) as (? & z & [Hz ?] & Hzf). split; [done|]. unfold is_timer. cbn. rewrite lookup_insert.
    case_decide as E; [|by exists z]. subst q. rewrite Hx in Hz. injection Hz as <-. exists y.
    split; [split; [done|]|congruence]. unfold get_type. by rewrite Hy.
  - intros q z [Hz Hzt]. cbn in Hz. rewrite lookup_insert in Hz. case_decide as E; [|by apply Ha].
    subst q. injection Hz as <-. rewrite Hf. by apply Ha.
Qed.

Lemma filter_sublist {A} (Q : A → Prop) `{∀ x, Decision (Q x)} (l1 l2 : list A) :
  l1 `sublist_of` l2 → filter Q l1 `sublist_of` filter Q l2.
Proof.
  induction 1 as [|x l1 l2 _ IH|x l1 l2 _ IH]; [constructor|..]; rewrite ?filter_cons; repeat case_decide; by try constructor.
Qed.

Lemma expired_stop o T : expired (stop_rows o T) `sublist_of` expired T.
Proof. unfold expired. cbn. apply (filter_sublist (λ p, off T p ≤ 0)). apply sublist_filter. Qed.

Lemma tview_stop o T O y p : p ≠ o → tview (stop_rows o T) (put_obj o y O) p = tview T O p.
Proof.
  intros Hp. unfold tview. cbn. rewrite lookup_insert_ne by done. do 2 f_equal. apply bool_decide_ext.
  rewrite list_elem_of_filter. naive_solver.
Qed.

Lemma tview_put T O o y p : p ≠ o → tview T (put_obj o y O) p = tview T O p.
Proof. intros Hp. unfold tview. cbn. by rewrite lookup_insert_ne. Qed.

Lemma self_ne (o : option Z) a : o ≠ Some a → ∀ b, o = Some b → Obj a ≠ Obj b.
Proof. intros Ho b -> [= ->]. done. Qed.

(** What is known of a timer a program names. *)
Lemma named_at o ph late s a :
  hinv o ph late s → timer_at s a → (o = Some a → ph ≠ Gone) →
  ∃ x tm, is_timer (k_objects s) (Obj a) x ∧ k_tim s !! Obj a = Some tm ∧ 1 ≤ tm_init_tick tm < HALF ∧
    (if decide (o = Some a) then ph ≠ Gone ∧ Obj a ∉ k_rows s ∧ (ph ≠ Fired → has_flag RT_TIMER_FLAG_ACTIVATED x = false)
     else is_timer (quiet o (k_objects s)) (Obj a) x).
Proof.
  intros HI [(x & Hx) [tm Htm]] Hn. exists x, tm.
  split_and!; [done|done|apply (h_times HI a tm Htm)..|].
  case_decide as E; [|by apply quiet_timer; [apply self_ne|]].
  subst o. split_and!; [by apply Hn| |].
  - eapply handled_off; [apply HI|]. exists x. apply Hx.
  - intros Hf. destruct (h_self HI a eq_refl) as (y & Hy & _ & _ & Hfl).
    destruct Hx as [Hx _]. unfold k_obj in Hy. rewrite Hx in Hy. injection Hy as <-. auto.
Qed.

Lemma named o ph late s a :
  hinv o ph late s → names P o ph a →
  ∃ x tm, is_timer (k_objects s) (Obj a) x ∧ k_tim s !! Obj a = Some tm ∧ 1 ≤ tm_init_tick tm < HALF ∧
    (if decide (o = Some a) then ph ≠ Gone ∧ Obj a ∉ k_rows s ∧ (ph ≠ Fired → has_flag RT_TIMER_FLAG_ACTIVATED x = false)
     else is_timer (quiet o (k_objects s)) (Obj a) x).
Proof.
  intros HI Hn. apply (named_at o ph late); [done|by eapply names_timer|]. unfold names in Hn. intros ->. by rewrite decide_True in Hn.
Qed.

(** Changing the mode of a timer. *)
Lemma act_mode_run o ph late s a f :
  hinv o ph late s → names P o ph a →
  (∀ x, o_type (f x) = o_type x) →
  (∀ x, has_flag RT_TIMER_FLAG_ACTIVATED (f x) = has_flag RT_TIMER_FLAG_ACTIVATED x) →
  ∃ x, is_timer (k_objects s) (Obj a) x ∧
    let s' := upd_objects (put_obj (Obj a) (f x)) s in
    hinv o ph late s' ∧ acted (λ p, p = Obj a) s s'.
Proof.
  intros HI Hn Hty Hf. destruct (named o ph late s a HI Hn) as (x & tm & Hx & Htm & Hrg & Hc). exists x. split; [done|].
  split.
  - eapply (hinv_put o ph ph late s a x (f x) (k_timers s)); [done|done|apply Hty| |done|done|done| |by exists tm|].
    + case_decide as E.
      * destruct Hc as (_ & Hnin & _). subst o. rewrite quiet_put_self.
        pose proof (h_twf HI) as Hw. rewrite (quiet_self a _ x (proj1 Hx)) in Hw.
        rewrite <- (put_obj_twice (Obj a) (stopped x) (stopped (f x))).
        apply twf_put_off; [done|done|apply stopped_off].
      * rewrite quiet_put_ne by by apply self_ne. eapply twf_put_same; [apply HI|done|apply Hty|apply Hf].
    + intros tm' Htm'. exists tm'. split; [done|]. split; [done|]. by apply (h_times HI a).
    + case_decide; [|done]. destruct Hc as (? & _ & ?). rewrite Hf. done.
  - apply acted_timers; [done|done|done| |done]. intros p Hp. by apply tview_put.
Qed.

Lemma control_run s a x cmd v f :
  is_timer (k_objects s) (Obj a) x →
  (cmd = RT_TIMER_CTRL_SET_ONESHOT ∧ f = flag_clear RT_TIMER_FLAG_PERIODIC ∨
   cmd = RT_TIMER_CTRL_SET_PERIODIC ∧ f = flag_set RT_TIMER_FLAG_PERIODIC) →
  rt_timer_control (Obj a) cmd v s = Some ((RT_EOK, None), upd_objects (put_obj (Obj a) (f x)) s).
Proof.
  intros [Hx Hty] Hc. unfold rt_timer_control, bind. rewrite (assert_type_run s (Obj a) x) by done.
  destruct Hc as [[-> ->]|[-> ->]]; cbn; by rewrite (mod_object_run s (Obj a) x).
Qed.

(** Changing the period of a timer. *)
Lemma act_time_run o ph late s a v :
  hinv o ph late s → names P o ph a → 1 ≤ u32 v < HALF →
  ∃ s', run_act (ASetTime a v) s = Some (RT_EOK, s') ∧ hinv o ph late s' ∧ acted (λ p, p = Obj a) s s' ∧ k_sched s' = k_sched s.
Proof.
  intros HI Hn Hv. destruct (named o ph late s a HI Hn) as (x & tm & Hx & Htm & Hrg & Hc).
  exists (set_time_st (Obj a) tm v s). split_and!.
  - unfold run_act, bind. by rewrite (set_time_run s (Obj a) x tm v) by done.
  - assert (put_obj (Obj a) x (k_objects s) = k_objects s) as E.
    { unfold put_obj, set_obj. rewrite insert_id by apply Hx. by destruct (k_objects s). }
    set (T' := set_tim (<[Obj a := with_init_tick (u32 v) tm]> (k_tim s)) (k_timers s)).
    assert (∀ p, off T' p = off (k_timers s) p) as Hoff by (intros p; by apply (off_set_time s (Obj a) tm v p)).
    change (set_time_st (Obj a) tm v s) with (mk_kst (k_sched s) T' (k_objects s) (k_ipc s)). rewrite <- E.
    eapply (hinv_put o ph ph late s a x x T'); [done|done|done| | | | | |by exists tm|].
    + rewrite E. pose proof (h_twf HI) as Hw. split; try apply Hw.
      * intros p Hp. destruct (tw_rows _ _ Hw p Hp) as [? ?]. split; [|done]. cbn. rewrite lookup_insert. by destruct (decide (Obj a = p)).
      * eapply StronglySorted_ext; [|apply Hw]. intros p q _ _. cbv beta. by rewrite !Hoff.
      * intros p Hp. rewrite Hoff. by apply Hw.
    + intros t. cbn. by rewrite lookup_insert_ne.
    + done.
    + intros b Hb. cbn. rewrite lookup_insert_ne; [done|congruence].
    + intros tm' Htm'. cbn. rewrite lookup_insert_eq. eexists. split; [done|]. rewrite Htm in Htm'. by injection Htm' as <-.
    + case_decide; [|done]. destruct Hc as (? & _ & ?). done.
  - apply acted_timers; [done|done| | |].
    + intros b. cbn. rewrite lookup_insert. destruct (decide (Obj a = Obj b)) as [E|E]; [|done]. injection E as <-. by rewrite Htm.
    + intros p Hp. unfold tview. cbn. by rewrite lookup_insert_ne by done.
    + pose proof (off_set_time s (Obj a) tm v) as Hoff. unfold set_time_st, upd_timers in Hoff. cbn -[off] in Hoff.
      unfold expired. cbn -[off]. erewrite (filter_ext_in _ (λ p, off (k_timers s) p ≤ 0)); [done|].
      intros p Hp. by rewrite (Hoff p Htm).
  - done.
Qed.

(** Stopping a timer: another one, or the one being handled. *)
Lemma act_stop_run o ph late s a :
  hinv o ph late s → names P o ph a →
  ∃ r s', run_act (AStop a) s = Some (r, s') ∧ hinv o (next o ph (AStop a)) late s' ∧
    acted (λ p, p = Obj a) s s' ∧ k_sched s' = k_sched s.
Proof.
  intros HI Hn. destruct (named o ph late s a HI Hn) as (x & tm & Hx & Htm & Hrg & Hc). cbn [run_act next].
  destruct (has_flag RT_TIMER_FLAG_ACTIVATED x) eqn:Hf.
  - eexists _, _. split; [by apply (timer_stop_run s (Obj a) x)|]. split_and!; [| |done].
    + eapply (hinv_put o ph _ late s a x (stopped x) (stop_rows (Obj a) (k_timers s)));
        [done|done|done| |done| |done| |by exists tm|].
      * case_decide as E.
        -- destruct Hc as (_ & Hnin & _). subst o. rewrite quiet_put_self.
           rewrite <- (put_obj_twice (Obj a) (stopped x) (stopped (stopped x))).
           pose proof (h_twf HI) as Hw. rewrite (quiet_self a _ x (proj1 Hx)) in Hw.
           assert (stop_rows (Obj a) (k_timers s) = k_timers s) as ->.
           { unfold stop_rows. unfold k_rows in Hnin. rewrite filter_ne_notin by done. by destruct (k_timers s). }
           apply twf_put_off; [done|done|apply stopped_off].
        -- rewrite quiet_put_ne by by apply self_ne. apply twf_stop; [apply HI|done].
      * intros t [_ Ht]%list_elem_of_filter. done.
      * intros tm' Htm'. exists tm'. split; [done|]. split; [done|]. by apply (h_times HI a).
      * case_decide; [|done]. split; [done|]. intros _. apply stopped_off.
    + apply acted_timers; [done|done|done| |apply expired_stop]. intros p Hp. by apply tview_stop.
  - eexists _, s. split; [by apply (timer_stop_inactive_run s (Obj a) x)|]. split_and!; [|apply acted_refl|done].
    destruct (decide (o = Some a)) as [->|E]; [|done]. destruct HI as [HI Hw Ht Hti Hst Hse Hth Hso Hsm Hlk Hru].
    split; try done. intros b [= <-]. destruct (Hse a eq_refl) as (y & Hy & Hg & Hng & _). exists y.
    split_and!; [done|done|intros _; split; [by exists x|by exists tm]|].
    intros _. destruct Hx as [Hx _]. unfold k_obj in Hy. rewrite Hx in Hy. by injection Hy as <-.
Qed.

(** Starting another timer. *)
Lemma act_start_run o ph late s a :
  hinv o ph late s → o ≠ Some a → timer_at s a →
  ∃ r s', run_act (AStart a) s = Some (r, s') ∧ hinv o ph late s' ∧
    acted (λ p, p = Obj a) s s' ∧ k_sched s' = k_sched s.
Proof.
  intros HI Ho Ha. destruct (named_at o ph late s a HI Ha ltac:(done)) as (x & tm & Hx & Htm & Hrg & Hc). rewrite decide_False in Hc by done.
  destruct (timer_start_run late s _ (Obj a) x tm (h_twf HI) Hx Htm ltac:(lia)) as (l1 & l2 & Hf & H1 & H2 & Hrun).
  assert (∀ p, p ≠ Obj a → p ∈ l1 ++ Obj a :: l2 ↔ p ∈ k_rows s) as Hrow.
  { intros p Hp. trans (p ∈ l1 ++ l2); [set_solver|]. rewrite <- Hf, list_elem_of_filter. naive_solver. }
  assert (Obj a ∉ l1 ++ l2) as Hnin by (rewrite <- Hf, list_elem_of_filter; naive_solver).
  eexists _, _. split; [exact Hrun|]. split_and!; [| |done].
  - eapply (hinv_put o ph ph late s a x (restarted x) (start_rows (Obj a) tm l1 l2 (k_timers s)));
      [done|done|done| | | | | |by exists tm|by rewrite decide_False].
    + rewrite quiet_put_ne by by apply self_ne. eapply twf_start; [apply HI|done|done|lia|done|done|done].
    + intros t. cbn. by rewrite lookup_insert_ne.
    + intros t Ht. by apply Hrow.
    + intros b Hb. cbn. rewrite lookup_insert_ne; [done|congruence].
    + intros tm' Htm'. cbn. rewrite lookup_insert_eq. rewrite Htm in Htm'. injection Htm' as <-. by eexists.
  - apply acted_timers; [done|done| | |].
    + intros b. cbn. rewrite lookup_insert. destruct (decide (Obj a = Obj b)) as [E|E]; [|done]. injection E as <-. by rewrite Htm.
    + intros p Hp. unfold tview. cbn. rewrite !lookup_insert_ne by done. do 2 f_equal. apply bool_decide_ext. by apply Hrow.
    + rewrite expired_start by (done || lia). rewrite <- Hf. unfold expired.
      apply (filter_sublist (λ p, off (k_timers s) p ≤ 0)), sublist_filter.
Qed.

(** Detaching the timer being handled, which was stopped. *)
Lemma act_detach_run late s a :
  hinv (Some a) Halted late s → ¬ P a →
  ∃ r s', run_act (ADetach a) s = Some (r, s') ∧ hinv (Some a) Gone late s' ∧
    acted (λ p, p = Obj a) s s' ∧ k_sched s' = k_sched s.
Proof.
  intros HI Ha. assert (names P (Some a) Halted a) as Hn by (unfold names; by rewrite decide_True).
  destruct (named _ _ late s a HI Hn) as (x & tm & Hx & Htm & Hrg & Hc). rewrite decide_True in Hc by done.
  destruct Hc as (_ & Hnin & Hfl). specialize (Hfl ltac:(done)).
  assert (stop_rows (Obj a) (k_timers s) = k_timers s) as Est.
  { unfold stop_rows. unfold k_rows in Hnin. rewrite filter_ne_notin by done. by destruct (k_timers s). }
  eexists _, _. split; [apply (timer_detach_run s (Obj a) x Hx), (h_static HI a x Ha Hx)|]. rewrite Est.
  pose proof HI as [HI0 Hw Ht Hti Hst Hse Hth Hso Hsm Hlk Hru].
  set (s' := mk_kst _ _ _ _).
  assert (∀ b, b ≠ a → timer_at s b → timer_at s' b) as Hat.
  { intros b Hb [(z & Hz & Hzt) Hbm]. split; [|done]. exists z. split; [|done]. unfold s'. cbn -[detach_obj].
    rewrite detach_obj_lookup, decide_False by congruence. done. }
  split_and!; [| |done].
  - split; try done.
    + destruct HI0 as [K1 K2 K3 K4 K5 K6]. split; try done.
      * intros u uh Hu Hus. apply thread_objs_detach; [by eapply K3| |done].
        intros [= ->]. destruct (K3 u uh Hu Hus) as ((z & Hz & Hzt) & _). destruct Hx as [Hx Hxt]. unfold k_obj in *.
        rewrite Hx in Hz. injection Hz as <-. by rewrite Hzt in Hxt.
      * intros u z. unfold s', k_obj. cbn -[detach_obj]. rewrite detach_obj_lookup, decide_False by done. apply K5.
    + unfold s'. cbn -[quiet detach_obj]. pose proof Hw as Hw1. rewrite (quiet_self a _ x (proj1 Hx)) in Hw1.
      rewrite (quiet_self a _ (with_type 0 x)) by (rewrite detach_obj_lookup; by rewrite decide_True).
      pose proof (twf_put_off late _ _ (Obj a) (stopped (with_type 0 x)) Hw1 Hnin (stopped_off _)) as Hw2.
      rewrite put_obj_twice in Hw2. unfold put_obj, detach_obj, set_obj, set_obj_list in *. cbn in *. rewrite insert_insert_eq.
      destruct Hw2. by split.
    + intros b Hb. apply Hat; [by intros ->|auto].
    + intros b z Hb [Hz Hzt]. unfold s' in Hz. cbn -[detach_obj] in Hz. rewrite detach_obj_lookup in Hz.
      case_decide; [by injection Hz as <-|]. by apply (Hst b).
    + intros b [= <-]. exists (with_type 0 x). unfold s', k_obj. cbn -[detach_obj]. rewrite detach_obj_lookup, decide_True by done.
      split_and!; [done|done|done|]. intros _. exact Hfl.
    + eapply (sems_keep s); [done|done| |done]. intros b z Hz Hzt. unfold s', k_obj. cbn -[detach_obj].
      rewrite detach_obj_lookup, decide_False; [done|]. intros [= <-]. destruct Hx as [Hx Hxt]. unfold k_obj in Hz.
      rewrite Hx in Hz. injection Hz as <-. by rewrite Hzt in Hxt.
  - apply acted_timers; [done|done|done| |done]. intros p Hp. unfold tview. rewrite detach_obj_lookup, decide_False; [done|congruence].
Qed.

(** ** Threads *)

(** Rescheduling. *)
Lemma act_schedule_run o ph late s :
  hinv o ph late s →
  ∃ c', let s' := mk_kst c' (k_timers s) (k_objects s) (k_ipc s) in
    rt_schedule s = Some (tt, s') ∧ hinv o ph late s' ∧ acted (λ _, False) s s' ∧ runs_highest c'.
Proof.
  intros [HI Hw Ht Hti Hst Hse Hth Hso Hsm Hlk Hru]. destruct (schedule_kinv0 s HI) as (c' & Hrun & Hd & HI').
  pose proof (calm_schedule s c' (ki_sched _ HI) Hd) as Hcm. pose proof (scheduled_moved _ _ (ki_sched _ HI) Hd) as Hm.
  destruct Hru as (t & th & Hc & Hth' & Hr).
  assert (runs_highest c') as Hhi by (eapply scheduled_highest; [apply HI|done|done|done|done|by left]).
  exists c'. split_and!; [done| | |done].
  - split; try done.
    + intros u Hu. destruct (Hth u Hu) as (uh & Huh & Hus). by eapply (moved_open _ _ u uh).
    + eapply (sems_keep s); [done|done|done|]. intros a u. by apply (cm_wait _ _ Hcm).
    + cbn. rewrite (proj1 (scheduled_nests _ _ Hd)). done.
    + by apply runs_highest_running.
  - split; [done|apply Hcm|apply Hcm|intros u Hu; by left|done|done|done].
Qed.

Lemma stop_st_view o s p :
  p ≠ o → tview (k_timers (stop_st o s)) (k_objects (stop_st o s)) p = tview (k_timers s) (k_objects s) p.
Proof.
  intros Hp. unfold stop_st. destruct (k_obj s !! o) as [x|]; [|done]. destruct (has_flag _ x); [|done].
  by apply tview_stop.
Qed.

Lemma stop_st_tim o s : k_tim (stop_st o s) = k_tim s.
Proof. unfold stop_st. destruct (k_obj s !! o) as [x|]; [|done]. by destruct (has_flag _ x). Qed.

Lemma stop_st_obj_ne o s p : p ≠ o → k_obj (stop_st o s) !! p = k_obj s !! p.
Proof.
  intros Hp. unfold stop_st. destruct (k_obj s !! o) as [x|]; [|done]. destruct (has_flag _ x); [|done].
  unfold k_obj. cbn. by rewrite lookup_insert_ne.
Qed.

Lemma stop_st_expired o s : expired (k_timers (stop_st o s)) `sublist_of` expired (k_timers s).
Proof.
  unfold stop_st. destruct (k_obj s !! o) as [x|]; [|done]. destruct (has_flag _ x); [|done]. apply expired_stop.
Qed.

Lemma twf_stop_quiet late s o t x :
  twf late (k_timers s) (quiet o (k_objects s)) → is_timer (k_objects s) (ThreadTimer t) x →
  let s' := stop_st (ThreadTimer t) s in
  twf late (k_timers s') (quiet o (k_objects s')) ∧ ThreadTimer t ∉ k_rows s'.
Proof.
  intros Hw Hx. assert (is_timer (quiet o (k_objects s)) (ThreadTimer t) x) as Hq by (by apply quiet_timer).
  unfold stop_st, k_obj. rewrite (proj1 Hx). destruct (has_flag _ x) eqn:Hf; cbn zeta.
  - split; [|unfold k_rows; cbn; rewrite list_elem_of_filter; naive_solver]. cbn -[quiet]. rewrite quiet_put_ne by done. by apply twf_stop.
  - split; [done|]. intros (_ & y & [Hy _] & Hfy)%(tw_rows _ _ Hw). destruct Hq. congruence.
Qed.

(** Waking a suspended thread. *)
Lemma hinv_wake o ph late s u uh :
  hinv o ph late s → k_thr s !! u = Some uh → stat_of uh = RT_THREAD_SUSPEND →
  hinv o ph late (wake_st u uh s) ∧ acted (λ p, p = ThreadTimer u) s (wake_st u uh s) ∧ awake (wake_st u uh s) u.
Proof.
  intros [HI Hw Ht Hti Hst Hse Hth Hso Hsm Hlk Hru] Hu Hs.
  destruct (ki_objs _ HI u uh Hu ltac:(stat_lia)) as (_ & (x & Hx & _) & _).
  destruct (twf_stop_quiet late s o u x Hw Hx) as [Hw1 Hn1].
  pose proof (kinv0_stop s (ThreadTimer u) x HI (proj1 Hx)) as HI1.
  set (s1 := stop_st (ThreadTimer u) s) in *.
  assert (k_sched s1 = k_sched s) as Esc by apply stop_st_sched.
  assert (k_ipc s1 = k_ipc s) as Eip by apply stop_st_ipc.
  assert (k_tim s1 = k_tim s) as Etm by apply stop_st_tim.
  assert (∀ a, k_obj s1 !! Obj a = k_obj s !! Obj a) as Eob by (intros a; by apply stop_st_obj_ne).
  assert (k_thr (wake_st u uh s) = <[u := set_stat (if decide (sc_cur (k_sched s) = Some u) then RT_THREAD_RUNNING else RT_THREAD_READY) uh]> (k_thr s)) as Hthr.
  { unfold k_thr, wake_st. cbn. rewrite wake_sc_thr. fold s1. by rewrite Esc. }
  assert (∀ a, timer_at s a → timer_at (wake_st u uh s) a) as Hat.
  { intros a [(z & Hz & Hzt) Hbm]. split.
    - exists z. split; [|done]. rewrite <- Hz. exact (Eob a).
    - change (k_tim (wake_st u uh s)) with (k_tim s1). by rewrite Etm. }
  assert (awake (wake_st u uh s) u) as Haw.
  { eexists. rewrite Hthr, lookup_insert_eq. split; [done|]. apply active_set_stat. case_decide; auto. }
  destruct Hru as (t & th & Hc & Htt & Hr). assert (t ≠ u) as Hne by (intros ->; simplify_eq; stat_lia).
  split_and!; [split| |done].
  - apply (kinv0_wake s1 u uh); [done| |done|done]. unfold k_thr. by rewrite Esc.
  - exact Hw1.
  - intros a tm. change (k_tim (wake_st u uh s)) with (k_tim s1). rewrite Etm. apply Ht.
  - auto.
  - intros a z Ha [Hz Hzt]. apply (Hst a z Ha). split; [|done]. rewrite <- Hz. symmetry. exact (Eob a).
  - intros a Ho. destruct (Hse a Ho) as (z & Hz & ? & ? & ?). exists z. change (k_obj (wake_st u uh s)) with (k_obj s1).
    rewrite Eob. split_and!; auto.
  - intros v Hv. rewrite Hthr, lookup_insert. destruct (decide (u = v)); [|auto]. eexists. split; [done|].
    rewrite stat_of_set_stat; case_decide; stat_lia.
  - eapply (sems_keep s); [done|by change (k_ipc (wake_st u uh s)) with (k_ipc s1); rewrite Eip| |].
    + intros a z Hz _. change (k_obj (wake_st u uh s)) with (k_obj s1). by rewrite Eob.
    + intros a v. unfold k_tl, wake_st. cbn. fold s1. rewrite wake_sc_tl, Esc, list_elem_of_filter by done. naive_solver.
  - intros a Ha. change (k_ipc (wake_st u uh s)) with (k_ipc s1). rewrite Eip. auto.
  - unfold wake_st. cbn. rewrite wake_sc_lock. fold s1. by rewrite Esc.
  - exists t, th. rewrite Hthr, lookup_insert_ne by done. split_and!; [|done|done].
    unfold k_cur, wake_st. cbn. rewrite wake_sc_cur. fold s1. by rewrite Esc.
  - split.
    + apply stop_st_tick.
    + unfold wake_st. cbn. rewrite wake_sc_irq. fold s1. by rewrite Esc.
    + intros v vh Hv Ha. rewrite Hthr. exists vh. rewrite lookup_insert_ne; [done|]. intros ->. simplify_eq. destruct Ha; stat_lia.
    + intros v Hv. destruct (decide (v = u)) as [->|Hvu]; [by right|left].
      pose proof (stop_st_view (ThreadTimer u) s (ThreadTimer v) ltac:(congruence)) as Hview. fold s1 in Hview. unfold tview in Hview.
      injection Hview as Hr1 Ht1 _. split; [|exact Ht1]. change (k_rows (wake_st u uh s)) with (tms_rows (k_timers s1)).
      by rewrite <- (bool_decide_eq_true (_ ∈ tms_rows (k_timers s1))), Hr1, bool_decide_eq_true.
    + intros a. change (k_tim (wake_st u uh s)) with (k_tim s1). by rewrite Etm.
    + apply stop_st_expired.
    + intros p Hp. by apply stop_st_view.
Qed.

Lemma act_resume_run o ph late s u :
  hinv o ph late s → U u →
  ∃ r s', run_act (AResume u) s = Some (r, s') ∧ hinv o ph late s' ∧ acted (λ p, p = ThreadTimer u) s s'.
Proof.
  intros HI Hu. destruct (h_threads HI u Hu) as (uh & Huh & Hcl). cbn [run_act].
  destruct (decide (stat_of uh = RT_THREAD_SUSPEND)) as [Hs|Hs].
  - destruct (hinv_wake o ph late s u uh HI Huh Hs) as (? & ? & _). eexists _, _.
    split; [apply (resume0_run s u uh); [apply HI|done|done]|done].
  - eexists _, s. split_and!; [|done|apply acted_refl]. unfold rt_thread_resume, bind.
    rewrite (assert_thread_run s u _ _ (ki_objs _ (h_k0 HI) u uh Huh Hcl)) by done.
    unfold get_thread. rewrite Huh. rewrite (proj2 (Z.eqb_neq _ _)) by done. reflexivity.
Qed.

Lemma kinv0_ipc s f : kinv0 s → kinv0 (upd_ipc f s).
Proof. intros []. by split. Qed.

(** Releasing a semaphore. *)
Lemma act_release_run o ph late s a :
  hinv o ph late s → V a →
  ∃ r s', run_act (ARelease a) s = Some (r, s') ∧ hinv o ph late s' ∧ acted (λ p, ∃ t, p = ThreadTimer t) s s' ∧
    (runs_highest (k_sched s) → runs_highest (k_sched s')).
Proof.
  intros HI Ha. destruct (h_sem HI a Ha) as [[v] Hv]. destruct (h_sems HI a v Hv) as (x & Hok).
  pose proof Hok as ((Hx1 & Hx2 & Hfl) & _ & Hrg & Hl). cbn [run_act].
  unfold rt_sem_release, bind at 1. rewrite (assert_type_run s (Obj a) x) by done. unfold bind at 1, gets at 1.
  destruct (tlist (k_tl s) (HSuspend a)) as [|u rest] eqn:El.
  - rewrite decide_False by tauto. unfold bind. rewrite (get_sem_run s a v) by done. eexists _, _. split; [reflexivity|].
    cbn [sem_value]. set (s' := upd_ipc _ s). destruct HI as [HI Hw Ht Hti Hst Hse Hth Hso Hsm Hlk Hru].
    split_and!; [|by split; eauto 10|done]. split; try done; [by apply kinv0_ipc| |].
    + intros b w Hb. unfold s' in Hb. cbn in Hb. rewrite lookup_insert in Hb. case_decide as E.
      * subst b. injection Hb as <-. exists x. split; [done|]. unfold s'. cbn. rewrite lookup_insert_eq.
        split_and!; [done|apply wrap_range; lia..|]. intros _. exact El.
      * destruct (Hso b w Hb) as (z & Hz & _ & Hz2). exists z. split; [done|]. unfold s'. cbn. by rewrite lookup_insert_ne.
    + intros b Hb. unfold s'. cbn. rewrite lookup_insert. case_decide; [by eexists|auto].
  - rewrite decide_True by done.
    destruct (sw_place _ _ (proj1 (ki_sched _ (h_k0 HI))) u (HSuspend a)) as (uh & Hu & Hs).
    { unfold k_tl in El. rewrite El. set_solver. }
    cbn in Hs. destruct (hinv_wake o ph late s u uh HI Hu Hs) as (HI1 & Hac1 & _).
    destruct (act_schedule_run o ph late _ HI1) as (c' & Hrun & HI2 & Hac2 & Hhi).
    eexists _, _. split.
    + assert (rt_ipc_list_resume (HSuspend a) s = Some (tt, wake_st u uh s)) as E.
      { unfold rt_ipc_list_resume, bind, gets, from_opt, head. rewrite El. by rewrite (resume0_run s u uh) by (done || apply HI). }
      unfold bind. rewrite E, Hrun. reflexivity.
    + split_and!; [done| |done]. eapply acted_trans; [eapply acted_mono; [|exact Hac1]|eapply acted_mono; [|exact Hac2]]; naive_solver.
Qed.

(** Every call a program may make returns and keeps the invariant. *)
Lemma act_run o ph late c s :
  hinv o ph late s → act_ok P V U o ph c →
  ∃ r s', run_act c s = Some (r, s') ∧ hinv o (next o ph c) late s' ∧ acted (touched c) s s' ∧
    (owes false c = false → runs_highest (k_sched s) → runs_highest (k_sched s')) ∧
    (c = ASchedule → runs_highest (k_sched s')).
Proof.
  intros HI Hok. destruct c; cbn [act_ok] in Hok.
  - destruct (act_stop_run o ph late s a HI Hok) as (r & s' & ? & ? & ? & E). exists r, s'. rewrite E. by split_and!.
  - destruct Hok as [? ?]. destruct (act_start_run o ph late s a) as (r & s' & ? & ? & ? & E); [done|done|by apply HI|].
    exists r, s'. rewrite E. by split_and!.
  - destruct Hok as [? ?]. destruct (act_time_run o ph late s a time) as (s' & ? & ? & ? & E); [done..|].
    exists RT_EOK, s'. rewrite E. by split_and!.
  - destruct (act_mode_run o ph late s a (flag_clear RT_TIMER_FLAG_PERIODIC)) as (x & Hx & ? & ?);
      [done|done|done|apply has_activated_clear_periodic|].
    eexists _, _. split; [unfold run_act, bind; rewrite (control_run s a x _ _ _ Hx) by (left; done); reflexivity|]. by split_and!.
  - destruct (act_mode_run o ph late s a (flag_set RT_TIMER_FLAG_PERIODIC)) as (x & Hx & ? & ?);
      [done|done|done|apply has_activated_set_periodic|].
    eexists _, _. split; [unfold run_act, bind; rewrite (control_run s a x _ _ _ Hx) by (right; done); reflexivity|]. by split_and!.
  - destruct Hok as (-> & -> & Hn). destruct (act_detach_run late s a HI Hn) as (r & s' & ? & ? & ? & E).
    exists r, s'. rewrite E. cbn [next]. rewrite decide_True by done. by split_and!.
  - destruct (act_release_run o ph late s sem HI Hok) as (r & s' & ? & ? & ? & ?). exists r, s'. by split_and!.
  - destruct (act_resume_run o ph late s u HI Hok) as (r & s' & ? & ? & ?). exists r, s'. by split_and!.
  - destruct (act_schedule_run o ph late s HI) as (c' & Hrun & ? & ? & ?). eexists _, _.
    split; [unfold run_act, bind; by rewrite Hrun|]. by split_and!.
Qed.

(** A whole program. *)
Lemma prog_run p : ∀ o ph b late s,
  hinv o ph late s → prog_ok P V U o ph b p →
  ∃ ph' s', run_prog p s = Some (tt, s') ∧ hinv o ph' late s' ∧ acted (touches p) s s' ∧
    ((b = false → runs_highest (k_sched s)) → runs_highest (k_sched s')).
Proof.
  induction p as [|c k IH]; intros o ph b late s HI Hok; cbn in Hok.
  - exists ph, s. split_and!; [done|done|apply acted_refl|auto].
  - destruct Hok as [Hc Hk]. destruct (act_run o ph late c s HI Hc) as (r & s1 & Hrun & HI1 & Hac & Hkeep & Hsch).
    destruct (IH r o (next o ph c) (owes b c) late s1 HI1 (Hk r)) as (ph' & s' & Hrun' & HI' & Hac' & Hhi).
    exists ph', s'. split_and!; [cbn; unfold bind; by rewrite Hrun|done| |].
    + eapply acted_trans; (eapply acted_mono; [|done]); cbn; naive_solver.
    + intros Hb. apply Hhi. intros Ho. destruct c; cbn in *; auto; naive_solver.
Qed.

(** ** Firing a timer *)

(** A timer about to be handled: out of the list, still marked active. *)
Lemma hinv_fire late s a rest x tm :
  hinv None Fired late s → k_rows s = Obj a :: rest → is_timer (k_objects s) (Obj a) x → k_tim s !! Obj a = Some tm →
  hinv (Some a) Fired late (upd_timers (stop_rows (Obj a)) s).
Proof.
  intros [HI Hw Ht Hti Hst Hse Hth Hso Hsm Hlk Hru] Hr Hx Htm. split; try done.
  - apply (kinv0_timers s (stop_rows (Obj a) (k_timers s))); [done|done|]. intros t [_ ?]%list_elem_of_filter. done.
  - cbn -[quiet]. rewrite (quiet_self a _ x (proj1 Hx)). by apply twf_stop.
  - intros b [= <-]. exists x. split_and!; [apply Hx|done| |done]. intros _. split; [by exists x|by exists tm].
Qed.

(** The timer is marked inactive when its timeout function has returned. *)
Lemma hinv_handled ph late s a y :
  hinv (Some a) ph late s → k_obj s !! Obj a = Some y →
  hinv None Fired late (upd_objects (put_obj (Obj a) (stopped y)) s).
Proof.
  intros [HI Hw Ht Hti Hst Hse Hth Hso Hsm Hlk Hru] Hy. split; try done.
  - apply (kinv0_user s a y (stopped y) (k_timers s)); [done|done|done|done|done|]. apply (ki_user _ HI).
  - cbn [upd_objects k_objects quiet]. by rewrite (quiet_self a _ y Hy) in Hw.
  - intros b [(z & Hz & Hzt) Hbm]%Hti. split; [|done]. unfold is_timer. cbn. rewrite lookup_insert. case_decide as E; [|by exists z].
    injection E as <-. exists (stopped y). split; [done|]. unfold k_obj in Hy. rewrite Hy in Hz. by injection Hz as <-.
  - intros b z Hb [Hz Hzt]. cbn in Hz. rewrite lookup_insert in Hz. case_decide as E; [|by apply (Hst b)].
    injection E as <-. injection Hz as <-. by apply (Hst a y).
  - eapply (sems_keep s); [done|done| |done]. intros b z Hz Hzt. unfold k_obj. cbn. rewrite lookup_insert_ne; [done|].
    intros [= <-]. rewrite Hy in Hz. injection Hz as <-. destruct (Hse a eq_refl) as (y' & Hy' & Hg & Hng & _).
    rewrite Hy in Hy'. injection Hy' as <-. destruct (decide (ph = Gone)) as [E|E].
    + destruct (Hg E) as [_ E0]. unfold get_type in Hzt. by rewrite E0 in Hzt.
    + destruct (Hng E) as [(z & Hz & Hzt') _]. unfold k_obj in Hy. rewrite Hy in Hz. injection Hz as <-. by rewrite Hzt in Hzt'.
Qed.

(** What one or more firings do to the rest: a thread that waited still does or is awake,
    with [-RT_ETIMEOUT] unless a program woke it. *)
Record passed (T : oid → Prop) (s s' : kst) : Prop := {
  pa_tick : k_tick s' = k_tick s;
  pa_irq : sc_irq_nest (k_sched s') = sc_irq_nest (k_sched s);
  pa_active : ∀ u uh, k_thr s !! u = Some uh → active uh →
    ∃ uh', k_thr s' !! u = Some uh' ∧ active uh' ∧ th_error uh' = th_error uh;
  pa_wait : ∀ u, ThreadTimer u ∈ k_rows s →
    (ThreadTimer u ∈ k_rows s' ∧ k_tim s' !! ThreadTimer u = k_tim s !! ThreadTimer u) ∨
    ∃ uh, k_thr s' !! u = Some uh ∧ active uh ∧ (¬ T (ThreadTimer u) → th_error uh = - RT_ETIMEOUT);
  pa_fn : ∀ a, tm_timeout_func <$> k_tim s' !! Obj a = tm_timeout_func <$> k_tim s !! Obj a;
  pa_high : runs_highest (k_sched s) → runs_highest (k_sched s')
}.

Lemma passed_refl T s : passed T s s.
Proof. split; eauto 10. Qed.

Lemma passed_trans T s1 s2 s3 : passed T s1 s2 → passed T s2 s3 → passed T s1 s3.
Proof.
  intros [A1 A2 A3 A4 A5 A6] [B1 B2 B3 B4 B5 B6].
  split; [congruence|congruence| | |intros a; by rewrite B5|auto].
  - intros u uh Hu Ha. destruct (A3 u uh Hu Ha) as (uh' & Hu' & Ha' & <-). eauto.
  - intros u Hu. destruct (A4 u Hu) as [[Hu' <-]|(uh & Huh & Ha & He)]; [by apply B4|right].
    destruct (B3 u uh Huh Ha) as (uh' & ? & ? & Ee). exists uh'. by rewrite Ee.
Qed.

Lemma tview_rows T O T' O' p : tview T' O' p = tview T O p → p ∈ tms_rows T' ↔ p ∈ tms_rows T.
Proof. unfold tview. intros [= Hr _ _]. by rewrite <- (bool_decide_eq_true (p ∈ tms_rows T')), Hr, bool_decide_eq_true. Qed.

(** A thread whose timer runs is not awake. *)
Lemma wait_not_awake s u : kinv0 s → ThreadTimer u ∈ k_rows s → ¬ awake s u.
Proof.
  intros HI Hu (uh & Huh & Ha). destruct (ki_wait _ HI u Hu) as (vh & Hvh & Hs). simplify_eq. destruct Ha; stat_lia.
Qed.

(** Calls of a program, as part of a firing. *)
Lemma acted_passed T s s' :
  kinv0 s' → acted T s s' → (runs_highest (k_sched s) → runs_highest (k_sched s')) → passed T s s'.
Proof.
  intros HI Ha Hhi. split; [apply Ha|apply Ha|apply Ha| |apply Ha|done]. intros u Hu.
  destruct (ac_wait Ha u Hu) as [?|Haw]; [by left|right]. pose proof Haw as (uh & Huh & Hact). exists uh.
  split_and!; [done|done|]. intros Hn. exfalso. eapply wait_not_awake; [done| |done].
  apply (tview_rows _ _ _ _ _ (ac_view Ha _ Hn)). exact Hu.
Qed.

Section fire.
(** The programs of the application's timeout functions. *)
Variable progs : Z → Z → prog.

Definition user (f p : Z) : K unit := run_prog (progs f p).

(** Every timer's timeout function respects [prog_ok] for that timer. *)
Definition progs_ok (s : kst) : Prop := ∀ a tm f p,
  k_tim s !! Obj a = Some tm → tm_timeout_func tm = user_fn f p → prog_ok P V U (Some a) Fired false (progs f p).

(** The timers some timeout function can change. *)
Definition spoiled (o : oid) : Prop := ∃ f p, touches (progs f p) o.

Lemma progs_ok_fn s s' :
  progs_ok s → (∀ a, tm_timeout_func <$> k_tim s' !! Obj a = tm_timeout_func <$> k_tim s !! Obj a) → progs_ok s'.
Proof.
  intros Hok Hf a tm f p Htm Hfn. specialize (Hf a). rewrite Htm in Hf. cbn in Hf.
  destruct (k_tim s !! Obj a) as [tm0|] eqn:E; [|done]. injection Hf as Hf. apply (Hok a tm0 f p E). congruence.
Qed.

Definition fired (s s' : kst) (o : oid) (rest : list oid) : Prop :=
  passed spoiled s s' ∧
  expired (k_timers s') `sublist_of` filter (λ p, off (k_timers s) p ≤ 0) rest ∧
  (∀ p, p ≠ o → ¬ spoiled p → tview (k_timers s') (k_objects s') p = tview (k_timers s) (k_objects s) p) ∧
  (¬ spoiled o → after_check (k_timers s') (k_objects s') o = after_check (k_timers s) (k_objects s) o).

Lemma stop_rows_rest late s o rest O :
  twf late (k_timers s) O → k_rows s = o :: rest → tms_rows (stop_rows o (k_timers s)) = rest ∧ o ∉ rest.
Proof.
  intros Hw Hr. pose proof (tw_nodup _ _ Hw) as Hn. unfold k_rows in Hr. rewrite Hr in Hn. split.
  - by apply stop_rows_head.
  - by apply NoDup_cons in Hn as [? _].
Qed.

(** A timer of the application, its timeout function having returned in [s2]. *)
Lemma fire_end s2 a ph y :
  hinv (Some a) ph true s2 → k_obj s2 !! Obj a = Some y →
  ∃ s3, (x ← get_object (Obj a);
         if has_flag RT_TIMER_FLAG_PERIODIC x && has_flag RT_TIMER_FLAG_ACTIVATED x then
           mod_object (Obj a) (flag_clear RT_TIMER_FLAG_ACTIVATED) ;;
           rt_timer_start (Obj a) ;; ret tt
         else mod_object (Obj a) (flag_clear RT_TIMER_FLAG_ACTIVATED)) s2 = Some (tt, s3) ∧
    hinv None Fired true s3 ∧ acted (λ p, p = Obj a) s2 s3 ∧ k_sched s3 = k_sched s2 ∧
    (has_flag RT_TIMER_FLAG_PERIODIC y && has_flag RT_TIMER_FLAG_ACTIVATED y = true →
       ∃ tm, k_tim s2 !! Obj a = Some tm ∧ 1 ≤ tm_init_tick tm < HALF ∧ off (k_timers s3) (Obj a) = tm_init_tick tm ∧
         tview (k_timers s3) (k_objects s3) (Obj a) =
         (true, Some (with_timeout_tick (u32 (k_tick s2 + tm_init_tick tm)) tm), Some (restarted (stopped y)))) ∧
    (has_flag RT_TIMER_FLAG_PERIODIC y && has_flag RT_TIMER_FLAG_ACTIVATED y = false →
       tview (k_timers s3) (k_objects s3) (Obj a) = (false, k_tim s2 !! Obj a, Some (stopped y))).
Proof.
  intros HI Hy. pose proof (hinv_handled ph true s2 a y HI Hy) as HI3. set (s3 := upd_objects _ s2) in HI3.
  assert (Obj a ∉ k_rows s2) as Hnin by (eapply (handled_off true _ (k_objects s2)); [apply HI|by exists y]).
  assert (acted (λ p, p = Obj a) s2 s3) as Hac3.
  { apply acted_timers; [done|done|done| |done]. intros p Hp. by apply tview_put. }
  unfold bind at 1, get_object. rewrite Hy. destruct (_ && _) eqn:Hfl; cbv iota.
  - unfold bind. rewrite (mod_object_run s2 (Obj a) y) by done. fold (stopped y). fold s3.
    apply andb_true_iff in Hfl as [Hper Hact].
    destruct (h_self HI a eq_refl) as (y' & Hy' & _ & Hat & Hph). rewrite Hy in Hy'. injection Hy' as <-.
    assert (ph = Fired) as -> by (destruct ph; [done|rewrite Hph in Hact by done; done..]).
    destruct (Hat ltac:(done)) as [(z & Hz & Hzt) [tm Htm]]. unfold k_obj in Hy. rewrite Hy in Hz. injection Hz as <-.
    assert (is_timer (k_objects s3) (Obj a) (stopped y)) as Hx3 by (by apply (is_timer_put _ (Obj a) y)).
    pose proof (h_times HI a tm Htm) as Hrg.
    destruct (act_start_run None Fired true s3 a HI3 ltac:(done)) as (r & s4 & Hrun & HI4 & Hac4 & Hsc4).
    { split; [by exists (stopped y)|by exists tm]. }
    cbn [run_act] in Hrun.
    destruct (timer_start_run true s3 _ (Obj a) (stopped y) tm (h_twf HI3) Hx3 Htm ltac:(lia)) as (l1 & l2 & Hf & H1 & H2 & Hrun').
    rewrite Hrun' in Hrun |- *. injection Hrun as <- <-. eexists. split; [reflexivity|].
    split_and!; [done|by eapply acted_trans|done| |done]. intros _. exists tm. split_and!; [done|lia|lia| |].
    + cbn -[off]. by rewrite off_start_rows, decide_True by (done || lia).
    + unfold tview. cbn. rewrite !lookup_insert_eq. rewrite bool_decide_eq_true_2 by set_solver. done.
  - rewrite (mod_object_run s2 (Obj a) y) by done. fold (stopped y). fold s3. exists s3. split_and!; [done|done|done|done|done|].
    intros _. unfold tview. cbn. rewrite lookup_insert_eq. by rewrite bool_decide_eq_false_2.
Qed.

Lemma passed_mono (T T' : oid → Prop) s s' :
  (∀ u, T (ThreadTimer u) → T' (ThreadTimer u)) → passed T s s' → passed T' s s'.
Proof.
  intros HT [H1 H2 H3 H4 H5 H6]. split; [done|done|done| |done|done]. intros u Hu.
  destruct (H4 u Hu) as [?|(uh & ? & ? & He)]; [by left|right]. exists uh. split_and!; [done|done|]. intros Hn. apply He. auto.
Qed.

(** Taking an expired timer out of the list. *)
Lemma passed_remove T s a : passed T s (upd_timers (stop_rows (Obj a)) s).
Proof.
  split; [done|done|eauto| |done|done]. intros u Hu. left. split; [|done]. unfold k_rows. cbn. by apply list_elem_of_filter.
Qed.

Lemma tview_remove o T O p : p ≠ o → tview (stop_rows o T) O p = tview T O p.
Proof. intros Hp. unfold tview. cbn. do 2 f_equal. apply bool_decide_ext. rewrite list_elem_of_filter. naive_solver. Qed.

Lemma fire_user_run s a rest :
  hinv None Fired true s → progs_ok s → k_rows s = Obj a :: rest → off (k_timers s) (Obj a) ≤ 0 →
  ∃ s', timer_fire (call_timeout user) (Obj a) s = Some (tt, s') ∧ hinv None Fired true s' ∧ fired s s' (Obj a) rest.
Proof.
  intros HI Hok Hr Hoff. pose proof (h_twf HI) as Hw. cbn [quiet] in Hw.
  destruct (stop_rows_rest _ s _ rest _ Hw Hr) as [Hrest Hnin].
  assert (Obj a ∈ tms_rows (k_timers s)) as Hin by (unfold k_rows in Hr; rewrite Hr; set_solver).
  destruct (tw_rows _ _ Hw _ Hin) as ([tm Htm] & x & Hx & Hact).
  destruct (ki_user _ (h_k0 HI) a tm Htm) as (f & p & Hfn).
  pose proof (hinv_fire true s a rest x tm HI Hr Hx Htm) as HI1. set (s1 := upd_timers (stop_rows (Obj a)) s) in *.
  destruct (prog_run (progs f p) (Some a) Fired false true s1 HI1 (Hok a tm f p Htm Hfn)) as (ph & s2 & Hrun & HI2 & Hac & Hhi).
  destruct (h_self HI2 a eq_refl) as (y & Hy & _).
  destruct (fire_end s2 a ph y HI2 Hy) as (s3 & Hend & HI3 & Hac3 & Hsc3 & Hper & Hone).
  assert (∀ q, touches (progs f p) q → spoiled q) as Hsp by (intros q Hq; by exists f, p).
  pose proof (acted_mono _ _ s1 s2 Hsp Hac) as Hac2.
  exists s3. split_and!; [|done|]; [|split_and!].
  - unfold timer_fire, bind at 1, get_timer. rewrite (Htm : k_tim s !! Obj a = Some tm).
    unfold bind at 1, _rt_timer_remove, modify. change (upd_timers _ s) with s1. rewrite Hfn. cbn [call_timeout].
    unfold bind at 1, user. rewrite Hrun. exact Hend.
  - eapply passed_trans; [apply passed_remove|]. fold s1. eapply passed_trans; [apply acted_passed; [apply HI2|exact Hac2|auto]|].
    eapply (passed_mono (λ q, q = Obj a)); [done|]. apply acted_passed; [apply HI3|done|by rewrite Hsc3].
  - etrans; [apply (ac_expired Hac3)|]. etrans; [apply (ac_expired Hac2)|]. unfold expired. cbn -[off]. rewrite <- Hrest. done.
  - intros q Hq Hns. rewrite (ac_view Hac3 q Hq), (ac_view Hac2 q Hns). by apply tview_remove.
  - intros Hns. pose proof (ac_view Hac2 _ Hns) as Hv. unfold tview in Hv. injection Hv as _ Htm2 Hy2.
    assert (y = x) as ->. { unfold k_obj in Hy. rewrite Hy in Hy2. cbn in Hy2. rewrite (proj1 Hx) in Hy2. by injection Hy2 as ->. }
    assert (k_tim s2 !! Obj a = Some tm) as Htm2' by (unfold k_tim; by rewrite Htm2).
    assert (k_tick s2 = k_tick s) as Etk by apply (ac_tick Hac2).
    rewrite Hact, andb_true_r in Hper, Hone.
    unfold after_check at 2. rewrite decide_True by done. rewrite Htm, (proj1 Hx).
    destruct (has_flag RT_TIMER_FLAG_PERIODIC x) eqn:Hpx.
    + destruct (Hper eq_refl) as (tm' & Htm' & Hrg & Hoff' & Hv'). rewrite Htm2' in Htm'. injection Htm' as <-.
      rewrite after_check_done by (intros _; lia). rewrite Hv', Etk. done.
    + specialize (Hone eq_refl). rewrite after_check_done; [by rewrite Hone, Htm2'|].
      intros Hin3. unfold tview in Hone. injection Hone as Hb _ _. by rewrite bool_decide_eq_true_2 in Hb.
Qed.

(** The timer of a waiting thread. *)
Lemma fire_thread_run s t rest :
  hinv None Fired true s → k_rows s = ThreadTimer t :: rest → off (k_timers s) (ThreadTimer t) ≤ 0 →
  ∃ s', timer_fire (call_timeout user) (ThreadTimer t) s = Some (tt, s') ∧ hinv None Fired true s' ∧ fired s s' (ThreadTimer t) rest.
Proof.
  intros HI Hr Hoff. pose proof (h_twf HI) as Hw. cbn [quiet] in Hw.
  destruct (stop_rows_rest _ s _ rest _ Hw Hr) as [Hrest Hnin].
  assert (ThreadTimer t ∈ tms_rows (k_timers s)) as Hin by (unfold k_rows in Hr; rewrite Hr; set_solver).
  destruct (tw_rows _ _ Hw _ Hin) as ([tm Htm] & x & Hx & Hact).
  pose proof HI as [HI0 _ Ht Hti Hst Hse Hth Hso Hsm Hlk Hru].
  destruct (ki_wait _ HI0 t Hin) as (th & Hth' & Hs).
  destruct (ki_objs _ HI0 t th Hth' ltac:(stat_lia)) as (_ & _ & tm' & Htm' & Hfn). rewrite Htm in Htm'. injection Htm' as <-.
  set (s1 := upd_timers (stop_rows (ThreadTimer t)) s).
  assert (kinv0 s1) as HI1.
  { apply (kinv0_timers s (stop_rows (ThreadTimer t) (k_timers s))); [done|done|]. intros u [_ ?]%list_elem_of_filter. done. }
  destruct (timeout_run s1 t th HI1 Hth' Hs) as (c' & Hrun & HI2 & Hm & Hcm).
  { unfold k_rows. cbn. rewrite list_elem_of_filter. naive_solver. }
  pose proof (ki_oneshot _ HI0 t x (proj1 Hx)) as Hone.
  set (s2 := mk_kst c' (k_timers s1) (k_objects s1) (k_ipc s1)) in *.
  set (s3 := upd_objects (put_obj (ThreadTimer t) (stopped x)) s2).
  assert (timer_fire (call_timeout user) (ThreadTimer t) s = Some (tt, s3)) as Hfire.
  { unfold timer_fire, bind at 1, get_timer. rewrite (Htm : k_tim s !! ThreadTimer t = Some tm).
    unfold bind at 1, _rt_timer_remove, modify. change (upd_timers _ s) with s1. rewrite Hfn. cbn [call_timeout].
    unfold bind at 1. rewrite Hrun. unfold bind at 1, get_object. rewrite (proj1 Hx : k_obj s2 !! ThreadTimer t = Some x), Hone.
    cbn [andb]. by rewrite (mod_object_run s2 (ThreadTimer t) x) by apply Hx. }
  assert (∃ wh, sc_thr c' !! t = Some wh ∧ active wh ∧ th_error wh = - RT_ETIMEOUT) as (wh & Hwh & Hwa & Hwe).
  { assert (sc_thr (wake_sc t (timed_out th) (put_thr t (timed_out th) (k_sched s1))) !! t =
      Some (set_stat (if decide (sc_cur (k_sched s) = Some t) then RT_THREAD_RUNNING else RT_THREAD_READY) (timed_out th))) as E
      by (rewrite wake_sc_thr; cbn; by rewrite lookup_insert_eq).
    destruct (moved_active _ _ _ _ Hm E) as (wh & ? & ? & Ee); [apply active_set_stat; case_decide; auto|]. by exists wh. }
  assert (∀ u, u ≠ t → ∀ uh, k_thr s !! u = Some uh → ∃ uh', sc_thr c' !! u = Some uh' ∧ stat_moves uh uh') as Hoth.
  { intros u Hu uh Huh. apply (moved_lookup_inv _ _ _ _ Hm). rewrite wake_sc_thr. cbn. by rewrite !lookup_insert_ne by done. }
  exists s3. split_and!; [done| |]; [|split_and!].
  - assert (Hru' := Hru). apply (cm_high _ _ Hcm Hlk) in Hru' as [Hru2 _]. split; try done.
    + eapply (kinv0_stop s2 (ThreadTimer t) x) in HI2; [|apply Hx].
      assert (stop_st (ThreadTimer t) s2 = s3) as E; [|by rewrite E in HI2].
      unfold stop_st. rewrite (proj1 Hx : k_obj s2 !! ThreadTimer t = Some x), Hact. unfold s3, s2, s1, upd_objects, upd_timers, stop_rows. cbn.
      by rewrite list_filter_filter_r by naive_solver.
    + cbn [quiet]. unfold s3. cbn. by apply twf_stop.
    + intros a Ha. destruct (Hti a Ha) as [(z & Hz & Hzt) Hbm]. split; [|done]. exists z. split; [|done]. cbn.
      by rewrite lookup_insert_ne.
    + intros a z Ha [Hz Hzt]. cbn in Hz. rewrite lookup_insert_ne in Hz by done. by apply (Hst a).
    + intros u Hu. destruct (Hth u Hu) as (uh & Huh & Hcl). destruct (decide (u = t)) as [->|Hne].
      * exists wh. split; [exact Hwh|]. destruct Hwa as [E|E]; rewrite E; stat_lia.
      * destruct (Hoth u Hne uh Huh) as (uh' & Hu' & Hmv). exists uh'. split; [exact Hu'|].
        destruct (stat_moves_stat _ _ Hmv) as [->|[_ [E|E]]]; [done|rewrite E; stat_lia..].
    + eapply (sems_keep s); [done|done| |].
      * intros a z Hz _. unfold k_obj. cbn. by rewrite lookup_insert_ne.
      * intros a u. by apply (cm_wait _ _ Hcm).
    + cbn. rewrite (cm_lock _ _ Hcm : sc_lock_nest c' = _). done.
  - split; [done|exact (cm_irq _ _ Hcm)|exact (cm_active _ _ Hcm)| |done|].
    + intros u Hu. destruct (decide (u = t)) as [->|Hne]; [right; by exists wh|left]. split; [|done].
      unfold k_rows, s3. cbn. apply list_elem_of_filter. split; [congruence|done].
    + intros Hhi. exact (proj2 (cm_high _ _ Hcm Hlk Hru) Hhi).
  - unfold expired. cbn -[off]. rewrite <- Hrest. done.
  - intros q Hq _. unfold s3. cbn. by rewrite tview_stop.
  - intros _. unfold after_check at 2. rewrite decide_True by done. rewrite Htm, (proj1 Hx), Hone.
    rewrite after_check_done; [|cbn; intros [? _]%list_elem_of_filter; done].
    unfold tview. cbn. rewrite lookup_insert_eq, Htm. rewrite bool_decide_eq_false_2; [done|]. rewrite list_elem_of_filter. naive_solver.
Qed.

Lemma fire_run s o rest :
  hinv None Fired true s → progs_ok s → k_rows s = o :: rest → off (k_timers s) o ≤ 0 →
  ∃ s', timer_fire (call_timeout user) o s = Some (tt, s') ∧ hinv None Fired true s' ∧ fired s s' o rest.
Proof. destruct o as [a|t]; [apply fire_user_run|]. intros HI _. by apply fire_thread_run. Qed.

(** ** The loop *)

(** Where the loop of [rt_timer_check] ends: the timers [l] were fired. *)
Record checked (s s' : kst) (l : list oid) : Prop := {
  ck_inv : hinv None Fired true s';
  ck_passed : passed spoiled s s';
  ck_pos : ∀ o, o ∈ k_rows s' → 0 < off (k_timers s') o;
  ck_fired : l `sublist_of` expired (k_timers s);
  ck_all : ∀ o, o ∈ expired (k_timers s) → ¬ spoiled o → o ∈ l;
  ck_view : ∀ o, ¬ spoiled o → tview (k_timers s') (k_objects s') o = after_check (k_timers s) (k_objects s) o
}.

Lemma off_view T O T' O' p : tview T' O' p = tview T O p → tms_tick T' = tms_tick T → off T' p = off T p.
Proof. unfold tview, off. by intros [= _ -> _] ->. Qed.

Lemma checked_cons s s1 s' o rest l :
  k_rows s = o :: rest → off (k_timers s) o ≤ 0 → fired s s1 o rest → checked s1 s' l → checked s s' (o :: l).
Proof.
  intros Hr Hoff (Hp & Hex & Hv & Hvo) [C1 C2 C3 C4 C5 C6].
  assert (expired (k_timers s) = o :: filter (λ p, off (k_timers s) p ≤ 0) rest) as Eexp.
  { unfold expired, k_rows in *. rewrite Hr, filter_cons_True by done. done. }
  split; [done|by eapply passed_trans|done| | |].
  - rewrite Eexp. apply sublist_skip. by etrans.
  - intros q Hq Hns. destruct (decide (q = o)) as [->|Hne]; [set_solver|]. apply elem_of_cons. right. apply C5; [|done].
    unfold expired in Hq |- *. apply list_elem_of_filter in Hq as [Hqo Hqr]. specialize (Hv q Hne Hns).
    apply list_elem_of_filter. split; [|by apply (tview_rows _ _ _ _ _ Hv)].
    rewrite (off_view _ _ _ _ _ Hv); [done|]. apply (pa_tick _ _ _ Hp).
  - intros q Hns. rewrite C6 by done. destruct (decide (q = o)) as [->|Hne]; [by apply Hvo|].
    apply after_check_same; [by apply Hv|apply (pa_tick _ _ _ Hp)].
Qed.

Lemma check_loop_run n : ∀ s fuel,
  hinv None Fired true s → progs_ok s → (length (expired (k_timers s)) ≤ n)%nat → (length (expired (k_timers s)) < fuel)%nat →
  ∃ l s', timer_check_loop (call_timeout user) fuel (k_tick s) s = Some (tt, s') ∧
    fire_all (call_timeout user) l s = Some (tt, s') ∧ checked s s' l.
Proof.
  induction n as [n IH] using lt_wf_ind. intros s [|fuel] HI Hok Hlen Hfuel; [lia|]. rewrite check_loop_S.
  pose proof (h_twf HI) as Hw. cbn [quiet] in Hw.
  assert ((∀ o, o ∈ k_rows s → 0 < off (k_timers s) o) → checked s s []) as Hstop.
  { intros Hpos. split; [done|apply passed_refl|done|apply sublist_nil_l| |].
    - intros o [Ho Hin]%list_elem_of_filter. specialize (Hpos o Hin). lia.
    - intros o _. symmetry. apply after_check_done, Hpos. }
  destruct (k_rows s) as [|o rest] eqn:Hr; [exists [], s; split_and!; [done|done|apply Hstop; set_solver]|].
  assert (o ∈ tms_rows (k_timers s)) as Hin by (unfold k_rows in Hr; rewrite Hr; set_solver).
  destruct (tw_rows _ _ Hw o Hin) as ([tm Htm] & _). pose proof (tw_range _ _ Hw o Hin) as Hrg. cbn [lowest] in Hrg.
  assert (off (k_timers s) o = i32 (tm_timeout_tick tm - k_tick s)) as Eo by (unfold off; by rewrite Htm).
  rewrite (Htm : k_tim s !! o = Some tm), off_expired, <- Eo by lia.
  destruct (Z.leb_spec (off (k_timers s) o) 0) as [Hle|Hgt].
  - destruct (fire_run s o rest HI Hok Hr Hle) as (s1 & Hrun & HI1 & Hf). pose proof Hf as (Hp & Hex & _).
    assert (S (length (expired (k_timers s1))) ≤ length (expired (k_timers s)))%nat as Hdec.
    { apply sublist_length in Hex. unfold expired at 2. unfold k_rows in Hr. rewrite Hr, filter_cons_True by done. cbn. lia. }
    destruct (IH (length (expired (k_timers s1))) ltac:(lia) s1 fuel) as (l & s' & R1 & R2 & Hck);
      [done|by eapply progs_ok_fn; [|apply Hp]|lia|lia|].
    exists (o :: l), s'. rewrite Hrun. cbn [fire_all]. unfold bind. rewrite Hrun. split_and!; [done|done|by eapply checked_cons].
  - exists [], s. split_and!; [done|done|]. apply Hstop. pose proof (tw_sorted _ _ Hw) as Hs. unfold k_rows in Hr.
    rewrite Hr in Hs. apply StronglySorted_inv in Hs as [_ Hf]. rewrite Forall_forall in Hf.
    intros p [->|Hp]%elem_of_cons; [done|]. specialize (Hf p Hp). cbn in Hf. lia.
Qed.

(** ** The tick *)

(** Everything a clock tick does. *)
Record ticked (s s' : kst) : Prop := {
  tk_inv : hinv None Fired false s';
  tk_tick : k_tick s' = u32 (k_tick s + 1);
  tk_irq : sc_irq_nest (k_sched s') = sc_irq_nest (k_sched s);
  tk_pos : ∀ o, o ∈ k_rows s' → 0 < off (k_timers s') o;
  tk_active : ∀ u, awake s u → awake s' u;
  tk_high : runs_highest (k_sched s) → runs_highest (k_sched s');
  tk_fn : ∀ a, tm_timeout_func <$> k_tim s' !! Obj a = tm_timeout_func <$> k_tim s !! Obj a;
  tk_view : ∀ o, ¬ spoiled o → tview (k_timers s') (k_objects s') o =
    after_check (set_tick (u32 (k_tick s + 1)) (k_timers s)) (k_objects s) o;
  tk_wait : ∀ u, ThreadTimer u ∈ k_rows s →
    (1 < off (k_timers s) (ThreadTimer u) ∧ ThreadTimer u ∈ k_rows s' ∧
       off (k_timers s') (ThreadTimer u) = off (k_timers s) (ThreadTimer u) - 1) ∨
    ThreadTimer u ∉ k_rows s' ∧
    ∃ uh, k_thr s' !! u = Some uh ∧ active uh ∧ (¬ spoiled (ThreadTimer u) → th_error uh = - RT_ETIMEOUT)
}.

Lemma twf_late T O : twf true T O → (∀ o, o ∈ tms_rows T → 0 < off T o) → twf false T O.
Proof.
  intros Hw Hpos. split; try apply Hw. intros o Ho. pose proof (tw_range _ _ Hw o Ho). specialize (Hpos o Ho). cbn. lia.
Qed.

(** The time slice leaves the invariant and the timers alone. *)
Lemma slice_hinv s :
  hinv None Fired true s →
  ∃ t c', k_cur s = Some t ∧ let s' := mk_kst c' (k_timers s) (k_objects s) (k_ipc s) in
    slice t s = Some (tt, s') ∧ hinv None Fired true s' ∧ calm s s'.
Proof.
  intros [HI Hw Ht Hti Hst Hse Hth Hso Hsm Hlk Hru]. pose proof Hru as (t & th & Hc & Hthr & Hr).
  destruct (slice_run s t th HI Hc Hthr) as (c' & Hrun & HI' & Hcm & Hkeep). exists t, c'. split; [done|]. cbv zeta. split_and!; [done| |done].
  split; try done.
  - intros u Hu. destruct (Hth u Hu) as (uh & Huh & Hcl). by apply (Hkeep u uh).
  - eapply (sems_keep s); [done|done|done|]. intros a u. by apply (cm_wait _ _ Hcm).
  - cbn. rewrite (cm_lock _ _ Hcm : sc_lock_nest c' = _). done.
  - by apply (cm_high _ _ Hcm Hlk Hru).
Qed.

Lemma tick_run s fuel :
  hinv None Fired false s → progs_ok s → (length (k_rows s) < fuel)%nat →
  ∃ s', rt_tick_increase user fuel s = Some (tt, s') ∧ ticked s s'.
Proof.
  intros HI Hok Hfuel. set (T1 := set_tick (u32 (k_tick s + 1)) (k_timers s)).
  set (s1 := mk_kst (k_sched s) T1 (k_objects s) (k_ipc s)). pose proof (h_twf HI) as Hw. cbn [quiet] in Hw.
  assert (hinv None Fired true s1) as HI1.
  { destruct HI as [HI _ Ht Hti Hst Hse Hth Hso Hsm Hlk Hru]. split; try done; [by apply kinv0_timers|by apply twf_tick]. }
  destruct (slice_hinv s1 HI1) as (t & c2 & Hc & Hrun2 & HI2 & Hcm).
  set (s2 := mk_kst c2 (k_timers s1) (k_objects s1) (k_ipc s1)) in *.
  destruct (check_loop_run (length (expired (k_timers s2))) s2 fuel) as (l & s3 & Hrun3 & _ & Hck); [done|done|lia| |].
  { eapply Nat.le_lt_trans; [apply length_filter|done]. }
  destruct Hck as [C1 C2 C3 _ _ C6]. exists s3. split.
  { unfold rt_tick_increase, bind at 1, modify. change (upd_timers _ s) with s1.
    unfold bind at 1, self, bind at 1, gets at 1, from_opt. rewrite (Hc : k_cur s1 = Some t).
    revert Hrun2. unfold slice, bind. destruct (mod_thread _ _ s1) as [[[] ?]|]; [|done].
    destruct (get_thread _ _) as [[? ?]|]; [|done]. by intros ->. }
  assert (∀ u, awake s u → awake s3 u) as Hact.
  { intros u (uh & Hu & Ha). destruct (cm_active _ _ Hcm u uh Hu Ha) as (uh2 & Hu2 & Ha2 & _).
    destruct (pa_active _ _ _ C2 u uh2 Hu2 Ha2) as (uh3 & ? & ? & _). by exists uh3. }
  split; [|apply (pa_tick _ _ _ C2)| |done|done| |exact (pa_fn _ _ _ C2)|exact C6|].
  - destruct C1 as [D1 D2 D3 D4 D5 D6 D7 D8 D9 D10 D11]. split; try done. by apply twf_late.
  - rewrite (pa_irq _ _ _ C2). exact (cm_irq _ _ Hcm).
  - intros Hh. apply (pa_high _ _ _ C2). exact (proj2 (cm_high _ _ Hcm (h_lock HI1) (h_run HI1)) Hh).
  - intros u Hu. pose proof (off_next (k_timers s) (ThreadTimer u) (tw_range _ _ Hw _ Hu) (proj1 (tw_rows _ _ Hw _ Hu))) as Hoff.
    change (off T1 (ThreadTimer u) = off (k_timers s) (ThreadTimer u) - 1) in Hoff. destruct (pa_wait _ _ _ C2 u Hu) as [[Hin Htm]|(uh & Huh & Ha & He)].
    + left. assert (off (k_timers s3) (ThreadTimer u) = off T1 (ThreadTimer u)) as E.
      { unfold off. unfold k_tim in Htm. rewrite Htm. pose proof (pa_tick _ _ _ C2) as Etk. unfold k_tick in Etk. by rewrite Etk. }
      specialize (C3 _ Hin). split_and!; [lia|done|lia].
    + right. split; [|by exists uh]. intros Hin. eapply wait_not_awake; [apply C1|exact Hin|by exists uh].
Qed.
End fire.
End acts.

(** * Properties *)


(** A clock tick advances the time by one, lets no timer become overdue, keeps every
    awake thread awake, and leaves a waiting thread waiting until its timeout is reached,
    unless a timeout function wakes it; then it is awake, with [-RT_ETIMEOUT]. *)
Theorem rt_tick_increase_spec P V U progs s fuel :
  hinv P V U None Fired false s → progs_ok P V U progs s → (length (k_rows s) < fuel)%nat →
  wp (rt_tick_increase (user progs) fuel) (λ _ s', hinv P V U None Fired false s' ∧ k_tick s' = u32 (k_tick s + 1) ∧
    (∀ o, o ∈ k_rows s' → 0 < off (k_timers s') o) ∧ (∀ u, awake s u → awake s' u) ∧
    ∀ u, ThreadTimer u ∈ k_rows s →
      (1 < off (k_timers s) (ThreadTimer u) ∧ ThreadTimer u ∈ k_rows s' ∧
         off (k_timers s') (ThreadTimer u) = off (k_timers s) (ThreadTimer u) - 1) ∨
      ThreadTimer u ∉ k_rows s' ∧
      ∃ uh, k_thr s' !! u = Some uh ∧ active uh ∧ (¬ spoiled progs (ThreadTimer u) → th_error uh = - RT_ETIMEOUT)) s.
Proof.
  intros HI Hok Hf. destruct (tick_run P V U progs s fuel HI Hok Hf) as (s' & Hrun & Htk).
  apply wp_run. exists tt, s'. split; [done|]. split_and!; apply Htk.
Qed.

(** * Instances *)

(** examples/kernel/timer_stop_self.c: the timer stops itself, here at once. *)
Definition stop_self (a : Z) : prog := Do (AStop a) (λ _, Done).

(** [_delayed_work_timeout_handler] of workqueue.c: the timer is stopped and detached, and
    the thread of the queue resumed when it waits. *)
Definition delayed_work (a worker : Z) : prog :=
  Do (AStop a) (λ _, Do (ADetach a) (λ _, Do (AResume worker) (λ _, Do ASchedule (λ _, Done)))).

(** Another timer gets a new period and is started again, and a semaphore is released. *)
Definition retime (a v sem : Z) : prog :=
  Do (ASetTime a v) (λ _, Do (AStart a) (λ _, Do (ARelease sem) (λ _, Done))).

(** The demo system with three timers that expire at tick 101: 300 is periodic. *)
Definition demo_cb (now : Z) : kst :=
  let hdr f := mk_object [] (RT_Object_Class_Timer + RT_Object_Class_Static) f in
  upd_timers (λ T, mk_timers
      (<[Obj 300 := mk_timer (user_fn 1 300) 10 101]> (<[Obj 301 := mk_timer (user_fn 2 301) 5 101]>
       (<[Obj 302 := mk_timer (user_fn 3 302) 7 101]> (tms_tim T))))
      [Obj 301; Obj 300; Obj 302; ThreadTimer 5] now 0)
    (upd_objects (λ O, put_obj (Obj 300) (hdr 3) (put_obj (Obj 301) (hdr 1) (put_obj (Obj 302) (hdr 1) O))) demo_sem).

Definition demo_progs (f p : Z) : prog :=
  if f =? 1 then stop_self p else if f =? 2 then delayed_work p 5 else if f =? 3 then retime 300 20 101 else Done.

(** 300 and 302 stay; 301 is the timer of a delayed work. *)
Definition demo_P (a : Z) : Prop := a = 300 ∨ a = 302.

Lemma demo_cb_timers now a tm :
  k_tim (demo_cb now) !! Obj a = Some tm →
  (a = 300 ∧ tm = mk_timer (user_fn 1 300) 10 101) ∨ (a = 301 ∧ tm = mk_timer (user_fn 2 301) 5 101) ∨
  (a = 302 ∧ tm = mk_timer (user_fn 3 302) 7 101).
Proof.
  unfold k_tim, demo_cb. cbn [upd_timers upd_objects k_timers tms_tim].
  rewrite !lookup_insert_Some. intros [[[= <-] <-]|[_ [[[= <-] <-]|[_ [[[= <-] <-]|[_ H]]]]]]; [tauto..|exfalso].
  assert (map_Forall (λ o _, match o with Obj _ => false | _ => true end = true) (tms_tim (k_timers demo_sem))) as Hall.
  { refine (bool_decide_eq_true_1 _ _). vm_compute. reflexivity. }
  by specialize (Hall (Obj a) tm H).
Qed.

Lemma demo_cb_hinv now late :
  (now = 100 ∨ now = 101) → hinv demo_P (λ a, a = 101) (λ u, u = 5) None Fired late (demo_cb now).
Proof.
  intros Hnow. assert (kinv (demo_cb now)) as [HI Hw].
  { destruct Hnow as [-> | ->]; apply kinv_check_sound; vm_compute; reflexivity. }
  assert (∀ a v, ip_sem (k_ipc (demo_cb now)) !! a = Some (mk_sem v) →
    (a = 100 ∧ v = 0) ∨ (a = 101 ∧ v = 0) ∨ (a = 102 ∧ v = 65535)) as Hsem.
  { intros a v Hv. unfold demo_cb, demo_sem in Hv. cbn in Hv. rewrite !lookup_insert_Some, lookup_empty in Hv. naive_solver. }
  split; try done.
  - cbn [quiet]. destruct late; [|done]. split; try apply Hw. intros o Ho. pose proof (tw_range _ _ Hw o Ho). cbn in *. lia.
  - intros a tm [(-> & ->)|[(-> & ->)|(-> & ->)]]%demo_cb_timers; by vm_compute.
  - intros a [-> | ->]; (split; [|eexists; reflexivity]); eexists; by split.
  - intros a x Ha [Hx Hty]. assert (map_Forall (λ _ z, nz (Z.land (o_type z) RT_Object_Class_Static) = true) (ob_obj (k_objects (demo_cb now)))) as Hall.
    { refine (bool_decide_eq_true_1 _ _). vm_compute. reflexivity. }
    exact (Hall (Obj a) x Hx).
  - intros u ->. eexists. split; [reflexivity|done].
  - intros a v Hv. destruct (demo_sem_ok a v (Hsem a v Hv)) as [[_ Hty] Hs2]. exists demo_hdr. split; [|exact Hs2].
    split; [|exact Hty]. by destruct (Hsem a v Hv) as [[-> _]|[[-> _]|[-> _]]].
  - intros a ->. by eexists.
  - by exists 1, (demo_thread 10 RT_THREAD_RUNNING).
Qed.

Lemma demo_progs_ok now : progs_ok demo_P (λ a, a = 101) (λ u, u = 5) demo_progs (demo_cb now).
Proof.
  intros a tm f p [(-> & ->)|[(-> & ->)|(-> & ->)]]%demo_cb_timers [= <- <-]; cbn; unfold names, demo_P.
  - split; [by rewrite decide_True|done].
  - rewrite !decide_True by done. split_and!; [done|]. intros _. split_and!; [done|done|lia|done].
  - rewrite decide_False by done. split; [split; [by left|by vm_compute]|]. intros _. split; [split; [done|by left]|]. done.
Qed.


(** What it comes to: only timer 300 is in the list with its new period, thread 5 is
    awake, and the delayed work's timer is gone. *)
Example demo_cb_check :
  match rt_timer_check (call_timeout (user demo_progs)) 4 (demo_cb 101) with
  | Some (_, s') => k_rows s' = [Obj 300] ∧ off (k_timers s') (Obj 300) = 20 ∧
      thread_stat s' 5 = Some RT_THREAD_RUNNING ∧ (o_type <$> k_obj s' !! Obj 301) = Some 0
  | None => False
  end.
Proof. vm_compute. done. Qed.

Lemma rt_tick_increase_spec_witness :
  wp (rt_tick_increase (user demo_progs) 5) (λ _ s', k_tick s' = 101 ∧ ∀ u, awake (demo_cb 100) u → awake s' u) (demo_cb 100).
Proof.
  eapply wp_mono; [apply (rt_tick_increase_spec demo_P (λ a, a = 101) (λ u, u = 5) demo_progs (demo_cb 100) 5)|].
  - apply demo_cb_hinv. by left.
  - apply demo_progs_ok.
  - vm_compute. lia.
  - intros _ s' (_ & Ht & _ & Ha & _). split; [exact Ht|exact Ha].
Defined.
