(* ===== verification/Mutex.v ===== *)
(** Mutexes with priority inheritance, src/ipc.c. *)

From Stdlib Require Import ZArith Lia.
From stdpp Require Import base numbers option gmap.
From stdpp Require Import list sorting.
From S2P Require Import Prelude.
From S2P Require Import Kservice.
From S2P Require Import KernelDefs.
From S2P Require Import Scheduler.
From S2P Require Import Object.
From S2P Require Import Timer.
From S2P Require Import Thread.
From S2P Require Import Clock.
From S2P Require Import Ipc.
Local Open Scope Z_scope.
Local Open Scope rt_scope.

(** * Operations *)

Definition get_mutex (a : Z) : K rt_mutex := λ s,
  match ip_mtx (k_ipc s) !! a with Some x => Some (x, s) | None => None end.
Definition put_mutex (a : Z) (m : rt_mutex) : K unit :=
  modify (upd_ipc (λ i, set_mtx (<[a := m]> (ip_mtx i)) i)).

Definition rt_mutex_init (a : Z) (name : list Z) (flag : Z) : K Z :=
  assert (nz a) ;;
  rt_object_init (Obj a) RT_Object_Class_Mutex name ;;
  rt_ipc_object_init (HSuspend a) ;;
  put_mutex a (mk_mutex 1 0xFF 0 None) ;;
  mod_object (Obj a) (with_flag (u8 flag)) ;;
  ret RT_EOK.

Definition rt_mutex_detach (a : Z) : K Z :=
  assert_type (Obj a) RT_Object_Class_Mutex ;;
  b ← rt_object_is_systemobject (Obj a); assert b ;;
  rt_ipc_list_resume_all (HSuspend a) ;;
  rt_object_detach (Obj a) ;;
  ret RT_EOK.

(** From the label [__again]: [t] takes the mutex or blocks on it. *)
Definition mutex_again (a t time : Z) : K (outcome Z Z) :=
  m ← get_mutex a;
  th ← get_thread t;
  if 0 <? mtx_value m then
    put_mutex a (mk_mutex (u16 (mtx_value m - 1)) (u8 (th_current_priority th))
                   (u8 (mtx_hold m + 1)) (Some t)) ;;
    ret (Returned RT_EOK)
  else if time =? 0 then
    mod_thread t (with_error (- RT_ETIMEOUT)) ;;
    ret (Returned (- RT_ETIMEOUT))
  else
    owner ← from_opt (mtx_owner m);
    oth ← get_thread owner;
    (if th_current_priority th <? th_current_priority oth
     then rt_thread_control owner RT_THREAD_CTRL_CHANGE_PRIORITY (th_current_priority th) ;; ret tt
     else ret tt) ;;
    x ← get_object (Obj a);
    ipc_wait (HSuspend a) t (o_flag x) time ;;
    rt_schedule ;;
    ret (Blocked t).

(** A blocked caller continues with [rt_mutex_take_resume]. *)
Definition rt_mutex_take (a time : Z) : K (outcome Z Z) :=
  RT_DEBUG_IN_THREAD_CONTEXT ;;
  assert_type (Obj a) RT_Object_Class_Mutex ;;
  t ← self;
  mod_thread t (with_error RT_EOK) ;;
  m ← get_mutex a;
  if decide (mtx_owner m = Some t) then
    put_mutex a (mk_mutex (mtx_value m) (mtx_original_priority m) (u8 (mtx_hold m + 1)) (mtx_owner m)) ;;
    ret (Returned RT_EOK)
  else mutex_again a t time.

(** The rest of [rt_mutex_take] after [rt_schedule]. *)
Definition rt_mutex_take_resume (a t time : Z) : K (outcome Z Z) :=
  th ← get_thread t;
  if negb (th_error th =? RT_EOK) then
    if th_error th =? - RT_EINTR then mutex_again a t time
    else ret (Returned (th_error th))
  else ret (Returned RT_EOK).

Definition rt_mutex_release (a : Z) : K Z :=
  assert_type (Obj a) RT_Object_Class_Mutex ;;
  RT_DEBUG_IN_THREAD_CONTEXT ;;
  t ← self;
  m ← get_mutex a;
  if decide (mtx_owner m ≠ Some t) then
    mod_thread t (with_error (- RT_ERROR)) ;;
    ret (- RT_ERROR)
  else
    let hold := u8 (mtx_hold m - 1) in
    put_mutex a (mk_mutex (mtx_value m) (mtx_original_priority m) hold (mtx_owner m)) ;;
    if hold =? 0 then
      th ← get_thread t;
      (if negb (mtx_original_priority m =? th_current_priority th)
       then rt_thread_control t RT_THREAD_CTRL_CHANGE_PRIORITY (mtx_original_priority m) ;; ret tt
       else ret tt) ;;
      l ← gets (λ s, tlist (k_tl s) (HSuspend a));
      match l with
      | u :: _ =>
          uh ← get_thread u;
          put_mutex a (mk_mutex (mtx_value m) (u8 (th_current_priority uh)) (u8 (hold + 1)) (Some u)) ;;
          rt_ipc_list_resume (HSuspend a) ;;
          rt_schedule ;;
          ret RT_EOK
      | [] =>
          put_mutex a (mk_mutex (u16 (mtx_value m + 1)) 0xff hold None) ;;
          ret RT_EOK
      end
    else ret RT_EOK.

Definition rt_mutex_control (a cmd arg : Z) : K Z :=
  assert_type (Obj a) RT_Object_Class_Mutex ;;
  ret (- RT_ERROR).

(** * Invariant *)

Definition mutex_free (m : rt_mutex) : Prop := m = mk_mutex 1 0xFF 0 None.

(** A mutex is free, with nobody waiting, or owned by one live thread that holds it
    between 1 and 255 times and does not wait for it. *)
Definition mutex_ok (a : Z) (s : kst) (m : rt_mutex) (x : rt_object) : Prop :=
  ipc_obj RT_Object_Class_Mutex a s x ∧ ip_mtx (k_ipc s) !! a = Some m ∧
  (mutex_free m ∧ tlist (k_tl s) (HSuspend a) = [] ∨
   ∃ o oth, mtx_owner m = Some o ∧ mtx_value m = 0 ∧ 1 ≤ mtx_hold m < 256 ∧
     0 ≤ mtx_original_priority m < 32 ∧ k_thr s !! o = Some oth ∧
     stat_of oth ≠ RT_THREAD_CLOSE ∧ o ∉ tlist (k_tl s) (HSuspend a)).

(** * Priority inheritance *)

(** A conditional priority change, as the mutex routines make it. *)
Definition adjust_st (b : bool) (o : Z) (oth : rt_thread) (p : Z) (s : kst) : kst :=
  if b then upd_sched (prio_st o oth p) s else s.

(** The owner's control block when a thread of priority [p] starts to wait. *)
Definition boost_st (o : Z) (oth : rt_thread) (p : Z) (s : kst) : kst :=
  adjust_st (p <? th_current_priority oth) o oth p s.

Lemma get_mutex_run s a m : ip_mtx (k_ipc s) !! a = Some m → get_mutex a s = Some (m, s).
Proof. intros H. unfold get_mutex. by rewrite H. Qed.

Lemma thread_control_run s o oth p :
  kinv s → k_thr s !! o = Some oth → stat_of oth ≠ RT_THREAD_CLOSE → 0 ≤ p < 32 →
  rt_thread_control o RT_THREAD_CTRL_CHANGE_PRIORITY p s = Some (RT_EOK, upd_sched (prio_st o oth p) s).
Proof.
  intros HI Ho Hs Hp. unfold rt_thread_control, bind.
  rewrite (assert_thread_run s o _ _ (kinv_objs s o oth HI Ho Hs)) by done.
  cbn -[change_priority]. rewrite (wrap_small 8 p) by lia.
  by rewrite (change_priority_run s o oth) by (done || apply HI).
Qed.

Lemma prio_st_fields o oth p c :
  sc_cur (prio_st o oth p c) = sc_cur c ∧ sc_lock_nest (prio_st o oth p c) = sc_lock_nest c ∧
  sc_irq_nest (prio_st o oth p c) = sc_irq_nest c.
Proof. unfold prio_st. by case_decide. Qed.

Lemma prio_st_tlist o oth p c h :
  swf ∅ c → sc_thr c !! o = Some oth → is_wait h →
  tlist (sc_tl (prio_st o oth p c)) h = tlist (sc_tl c) h.
Proof.
  intros Hw Ho Hh. unfold prio_st. case_decide as Hr; [|done]. cbn.
  rewrite tlist_insert, decide_False by (intros <-; done). rewrite tlist_remove.
  apply filter_ne_notin. by eapply active_unwaiting; [| |left|].
Qed.

Lemma adjust_run b s o oth p :
  kinv s → k_thr s !! o = Some oth → stat_of oth ≠ RT_THREAD_CLOSE → 0 ≤ p < 32 →
  (if b : bool then rt_thread_control o RT_THREAD_CTRL_CHANGE_PRIORITY p ;; ret tt else ret tt) s
  = Some (tt, adjust_st b o oth p s) ∧ kinv (adjust_st b o oth p s).
Proof.
  intros HI Ho Hs Hp. destruct b; [|done]. split; [|by apply kinv_prio].
  unfold bind. by rewrite (thread_control_run s o oth).
Qed.

(** What a priority change leaves alone, and the new priority. *)
Lemma adjust_st_props b s o oth p :
  kinv s → k_thr s !! o = Some oth →
  k_cur (adjust_st b o oth p s) = k_cur s ∧ k_ipc (adjust_st b o oth p s) = k_ipc s ∧
  k_objects (adjust_st b o oth p s) = k_objects s ∧
  sc_irq_nest (k_sched (adjust_st b o oth p s)) = sc_irq_nest (k_sched s) ∧
  sc_lock_nest (k_sched (adjust_st b o oth p s)) = sc_lock_nest (k_sched s) ∧
  (∀ h, is_wait h → tlist (k_tl (adjust_st b o oth p s)) h = tlist (k_tl s) h) ∧
  (∀ u, u ≠ o → k_thr (adjust_st b o oth p s) !! u = k_thr s !! u) ∧
  ∃ oth', k_thr (adjust_st b o oth p s) !! o = Some oth' ∧ stat_of oth' = stat_of oth ∧
    th_current_priority oth' = if b then p else th_current_priority oth.
Proof.
  intros HI Ho. pose proof (proj1 (ki_sched _ (proj1 HI))) as Hw. unfold adjust_st.
  destruct b; [|split_and!; try done; eauto].
  destruct (prio_st_fields o oth p (k_sched s)) as (Hc & Hn & Hi). unfold k_thr, k_tl, k_cur. cbn -[prio_st].
  split_and!; [done|done|done|done|done| | |].
  - intros h Hh. by apply prio_st_tlist.
  - intros u Hu. by rewrite prio_st_thr, lookup_insert_ne.
  - rewrite prio_st_thr, lookup_insert_eq. eexists. split; [done|]. rewrite prio_st_stat.
    split; [done|]. by case_decide.
Qed.

Lemma ltb_min p q : (if p <? q then p else q) = Z.min p q.
Proof. destruct (Z.ltb_spec p q); lia. Qed.

(** * Taking *)

Lemma enqueue_ext flag thr thr' p t l :
  (∀ x, x ∈ l → th_current_priority <$> thr' !! x = th_current_priority <$> thr !! x) →
  enqueue flag thr' p t l = enqueue flag thr p t l.
Proof. intros Hl. unfold enqueue. case_match; [done|]. by apply prio_insert_ext. Qed.

(** The prologue of [rt_mutex_take]. *)
Lemma mutex_take_prologue s a m x t th time :
  mutex_ok a s m x → caller s t th →
  rt_mutex_take a time s =
    (if decide (mtx_owner m = Some t) then
       put_mutex a (mk_mutex (mtx_value m) (mtx_original_priority m) (u8 (mtx_hold m + 1)) (mtx_owner m)) ;;
       ret (Returned RT_EOK)
     else mutex_again a t time) (error_st t RT_EOK th s).
Proof.
  intros ((Hx1 & Hx2 & _) & Hm & _) Hca. pose proof Hca as (Hc & Ht & _ & _).
  unfold rt_mutex_take, bind at 1. rewrite (thread_context_run s t th) by done.
  unfold bind at 1. rewrite (assert_type_run s (Obj a) x) by done.
  unfold bind at 1. rewrite (self_run s t th) by done.
  unfold bind at 1. rewrite (mod_thread_run s t th) by done. fold (error_st t RT_EOK th s).
  unfold bind at 1. by rewrite (get_mutex_run _ a m) by done.
Qed.

(** Everything the owner and the waiters see of a blocked [rt_mutex_take]. *)
Definition mutex_blocked (a t o : Z) (th oth : rt_thread) (flag time : Z) (s s' : kst) : Prop :=
  kinv s' ∧ k_ipc s' = k_ipc s ∧ (∀ b, k_obj s' !! Obj b = k_obj s !! Obj b) ∧
  k_thr s' !! t = Some (set_stat RT_THREAD_SUSPEND (with_error RT_EOK th)) ∧
  tlist (k_tl s') (HSuspend a) =
    enqueue flag (k_thr s) (th_current_priority th) t (tlist (k_tl s) (HSuspend a)) ∧
  (0 < time → ThreadTimer t ∈ k_rows s' ∧ off (k_timers s') (ThreadTimer t) = time) ∧
  ∃ oth', k_thr s' !! o = Some oth' ∧ stat_of oth' ≠ RT_THREAD_CLOSE ∧
    th_current_priority oth' = Z.min (th_current_priority th) (th_current_priority oth).

Lemma stat_moves_fields u u' :
  stat_moves u u' → th_current_priority u' = th_current_priority u ∧ th_error u' = th_error u ∧
    (stat_of u ≠ RT_THREAD_CLOSE → stat_of u' ≠ RT_THREAD_CLOSE).
Proof.
  intros Hm. split_and!; [by destruct Hm as [->|(_ & ? & _ & ->)]..|].
  intros Hs. destruct (stat_moves_stat _ _ Hm) as [->|[_ [?|?]]]; [done|stat_lia..].
Qed.

Lemma mutex_again_block s a m x t th o oth time :
  kinv s → caller s t th → ipc_obj RT_Object_Class_Mutex a s x → ip_mtx (k_ipc s) !! a = Some m →
  mtx_owner m = Some o → mtx_value m = 0 → o ≠ t → k_thr s !! o = Some oth →
  stat_of oth ≠ RT_THREAD_CLOSE → time ≠ 0 → time < HALF →
  ∃ s', mutex_again a t time s = Some (Blocked t, s') ∧
    blocked_post (HSuspend a) t th (o_flag x) time (boost_st o oth (th_current_priority th) s) s'.
Proof.
  intros HI Hca (Hx1 & Hx2 & Hfl) Hm Hmo Hmv Hne Ho Hos Htz Htime. pose proof Hca as (Hc & Ht & Hr & Hi).
  assert (0 ≤ th_current_priority th < 32) as Hp
    by exact (sw_prio _ _ (proj1 (ki_sched _ (proj1 HI))) t th Ht).
  destruct (adjust_run (th_current_priority th <? th_current_priority oth) s o oth
    (th_current_priority th) HI Ho Hos Hp) as [Hrun1 HI1].
  destruct (adjust_st_props (th_current_priority th <? th_current_priority oth) s o oth
    (th_current_priority th) HI Ho) as (Hc1 & Hip1 & Hob1 & Hi1 & _ & Hl1 & Hu1 & _).
  fold (boost_st o oth (th_current_priority th) s) in *. set (s1 := boost_st o oth (th_current_priority th) s) in *.
  assert (caller s1 t th) as Hca1.
  { split_and!; [by rewrite Hc1|by rewrite Hu1|done|by rewrite Hi1]. }
  destruct (block_caller_run s1 (HSuspend a) t th (o_flag x) time HI1 Hca1 I Hfl Htime) as (s' & Hrun2 & Hpost).
  exists s'. split; [|done].
  unfold mutex_again, bind at 1. rewrite (get_mutex_run s a m) by done.
  unfold bind at 1, get_thread at 1. rewrite Ht, Hmv. cbn [Z.ltb Z.compare].
  rewrite (proj2 (Z.eqb_neq _ _) Htz), Hmo. unfold bind at 1, from_opt.
  unfold bind at 1, get_thread at 1. rewrite Ho. unfold bind at 1. rewrite Hrun1.
  unfold bind at 1, get_object, k_obj. rewrite Hob1. fold (k_obj s). rewrite Hx1.
  revert Hrun2. unfold bind. destruct (ipc_wait _ _ _ _ _) as [[[] s2]|]; [|done]. by intros ->.
Qed.

Lemma mutex_block_run s a m x t th o oth time :
  kinv s → mutex_ok a s m x → caller s t th → mtx_owner m = Some o → o ≠ t →
  k_thr s !! o = Some oth → time ≠ 0 → time < HALF →
  ∃ s', rt_mutex_take a time s = Some (Blocked t, s') ∧
    mutex_blocked a t o th oth (o_flag x) time s s' ∧ mutex_ok a s' m x.
Proof.
  intros HI Hok Hca Hmo Hne Ho Htz Htime. rewrite (mutex_take_prologue s a m x t th) by done.
  rewrite decide_False by congruence. destruct Hok as (Hx & Hm & Hcase).
  destruct Hcase as [[-> _]|(o' & oth' & Hmo' & Hmv & Hh & Hpr & Ho' & Hos & Hnw)]; [done|].
  assert (o' = o) as -> by congruence. assert (oth' = oth) as -> by congruence.
  pose proof Hca as (Hc & Ht & Hr & Hi). set (s1 := error_st t RT_EOK th s).
  assert (∀ u, u ≠ t → k_thr s1 !! u = k_thr s !! u) as Hu1
    by (intros u Hu; unfold s1, error_st, k_thr; cbn; by rewrite lookup_insert_ne).
  assert (k_thr s1 !! o = Some oth) as Ho1 by (by rewrite Hu1).
  destruct (mutex_again_block s1 a m x t (with_error RT_EOK th) o oth time) as (s' & Hrun & Hpost);
    [by apply kinv_error|by apply error_st_caller|done..|].
  destruct (adjust_st_props (th_current_priority th <? th_current_priority oth) s1 o oth
    (th_current_priority th) (kinv_error s t th RT_EOK HI Ht) Ho1)
    as (_ & Hip2 & Hob2 & _ & _ & Hl2 & Hu2 & oth2 & Ho2 & Hos2 & Hop2). rewrite ltb_min in Hop2.
  fold (boost_st o oth (th_current_priority th) s1) in *.
  change (th_current_priority (with_error RT_EOK th)) with (th_current_priority th) in Hpost.
  destruct Hpost as (HI' & Hip & Hob & Ht' & Hl & _ & [Htm _] & Hmv' & _).
  destruct (Hmv' o oth2 Hne Ho2) as (oth3 & Ho3 & Hmv3). apply stat_moves_fields in Hmv3 as (Hp3 & _ & Hc3).
  assert (tlist (k_tl s') (HSuspend a) =
    enqueue (o_flag x) (k_thr s) (th_current_priority th) t (tlist (k_tl s) (HSuspend a))) as Hl'.
  { rewrite Hl, Hl2 by done. apply enqueue_ext. intros y Hy. cbn [with_error th_current_priority].
    rewrite Hu2 by (intros ->; done). destruct (decide (y = t)) as [->|]; [|by rewrite Hu1].
    unfold s1, error_st, k_thr. cbn. rewrite lookup_insert_eq. unfold k_thr in Ht. by rewrite Ht. }
  assert (k_ipc s' = k_ipc s) as Hip' by (by rewrite Hip, Hip2).
  assert (∀ b, k_obj s' !! Obj b = k_obj s !! Obj b) as Hob'
    by (intros b; rewrite Hob; unfold k_obj; by rewrite Hob2).
  exists s'. refine (conj Hrun (conj _ _)).
  - split_and!; [done..|]. exists oth3. split_and!; [done|apply Hc3; congruence|by rewrite Hp3].
  - refine (conj _ (conj _ (or_intror _))); [unfold ipc_obj; by rewrite Hob'|by rewrite Hip'|].
    exists o, oth3. split_and!; try done; try lia.
    rewrite Hl', enqueue_perm. set_solver.
Qed.

(** * Releasing *)

Definition held_st (a : Z) (m : rt_mutex) (s : kst) : kst :=
  upd_ipc (λ i, set_mtx (<[a := m]> (ip_mtx i)) i) s.

(** The last release of a mutex up to the point where the waiting list is read. *)
Definition restored (a t : Z) (th : rt_thread) (m : rt_mutex) (s : kst) : kst :=
  adjust_st (negb (mtx_original_priority m =? th_current_priority th)) t th (mtx_original_priority m)
    (held_st a (mk_mutex 0 (mtx_original_priority m) 0 (Some t)) s).

Lemma mutex_release_prologue s a m x t th :
  kinv s → mutex_ok a s m x → caller s t th → mtx_owner m = Some t → mtx_hold m = 1 →
  kinv (restored a t th m s) ∧
  rt_mutex_release a s =
    match tlist (k_tl s) (HSuspend a) with
    | u :: _ =>
        uh ← get_thread u;
        put_mutex a (mk_mutex 0 (u8 (th_current_priority uh)) 1 (Some u)) ;;
        rt_ipc_list_resume (HSuspend a) ;; rt_schedule ;; ret RT_EOK
    | [] => put_mutex a (mk_mutex 1 0xff 0 None) ;; ret RT_EOK
    end (restored a t th m s).
Proof.
  intros HI ((Hx1 & Hx2 & Hfl) & Hm & Hcase) Hca Hmo Hh.
  destruct Hcase as [[-> _]|(o & oth & Hmo' & Hmv & _ & Hpr & _)]; [done|].
  pose proof Hca as (Hc & Ht & Hr & Hi). set (s1 := held_st a (mk_mutex 0 (mtx_original_priority m) 0 (Some t)) s).
  assert (kinv s1) as HI1 by by apply kinv_ipc.
  set (b := negb (mtx_original_priority m =? th_current_priority th)).
  destruct (adjust_run b s1 t th (mtx_original_priority m) HI1 Ht ltac:(rewrite Hr; stat_lia) Hpr) as [Hrun HI2].
  destruct (adjust_st_props b s1 t th (mtx_original_priority m) HI1 Ht) as (_ & _ & _ & _ & _ & Hl & _).
  unfold restored. fold s1 b. split; [done|].
  unfold rt_mutex_release, bind at 1. rewrite (assert_type_run s (Obj a) x) by done.
  unfold bind at 1. rewrite (thread_context_run s t th) by done.
  unfold bind at 1. rewrite (self_run s t th) by done.
  unfold bind at 1. rewrite (get_mutex_run s a m) by done.
  rewrite decide_False by tauto. rewrite Hh, Hmv, Hmo.
  change (u8 (1 - 1)) with 0. change (0 =? 0) with true. cbn iota. unfold bind at 1, put_mutex at 1, modify.
  change (upd_ipc _ s) with s1.
  unfold bind at 1, get_thread at 1. rewrite (Ht : k_thr s1 !! t = Some th).
  unfold bind at 1. fold b. rewrite Hrun. unfold bind at 1, gets. rewrite (Hl (HSuspend a) I).
  change (tlist (k_tl s1) (HSuspend a)) with (tlist (k_tl s) (HSuspend a)).
  destruct (tlist (k_tl s) (HSuspend a)); [done|]. done.
Qed.

Lemma active_not_closed th : active th → stat_of th ≠ RT_THREAD_CLOSE.
Proof. intros [?|?]; stat_lia. Qed.

Lemma restored_props s a m t th :
  kinv s → k_thr s !! t = Some th →
  k_objects (restored a t th m s) = k_objects s ∧
  sc_lock_nest (k_sched (restored a t th m s)) = sc_lock_nest (k_sched s) ∧
  (∀ h, is_wait h → tlist (k_tl (restored a t th m s)) h = tlist (k_tl s) h) ∧
  (∀ u, u ≠ t → k_thr (restored a t th m s) !! u = k_thr s !! u) ∧
  ∃ th', k_thr (restored a t th m s) !! t = Some th' ∧ stat_of th' = stat_of th ∧
    th_current_priority th' = mtx_original_priority m.
Proof.
  intros HI Ht. set (s0 := held_st a (mk_mutex 0 (mtx_original_priority m) 0 (Some t)) s).
  assert (kinv s0) as HI0 by by apply kinv_ipc.
  destruct (adjust_st_props (negb (mtx_original_priority m =? th_current_priority th)) s0 t th
    (mtx_original_priority m) HI0 Ht) as (_ & _ & Hob & _ & Hn & Hl & Hu & th' & Ht' & Hs & Hp).
  unfold restored. fold s0. split_and!; [done|done|done|done|]. exists th'. split_and!; [done|done|].
  rewrite Hp. destruct (Z.eqb_spec (mtx_original_priority m) (th_current_priority th)); [done|done].
Qed.

(** The mutex is handed to the first waiter [u]. *)
Definition handed_over (a t u : Z) (uh : rt_thread) (rest : list Z) (orig : Z) (x : rt_object)
    (s s' : kst) : Prop :=
  kinv s' ∧ mutex_ok a s' (mk_mutex 0 (th_current_priority uh) 1 (Some u)) x ∧
  tlist (k_tl s') (HSuspend a) = rest ∧
  (∃ st, k_thr s' !! u = Some (set_stat st uh) ∧ active (set_stat st uh)) ∧
  (∃ th', k_thr s' !! t = Some th' ∧ th_current_priority th' = orig) ∧
  (sc_lock_nest (k_sched s) = 0 → runs_highest (k_sched s')).

Lemma mutex_handover_run s a m x t th u rest :
  kinv s → mutex_ok a s m x → caller s t th → mtx_owner m = Some t → mtx_hold m = 1 →
  tlist (k_tl s) (HSuspend a) = u :: rest →
  ∃ uh s', k_thr s !! u = Some uh ∧ rt_mutex_release a s = Some (RT_EOK, s') ∧
    handed_over a t u uh rest (mtx_original_priority m) x s s'.
Proof.
  intros HI Hok Hca Hmo Hh El. destruct (mutex_release_prologue s a m x t th HI Hok Hca Hmo Hh) as [HI1 Hrun].
  destruct Hok as (Hx & Hm & [[-> _]|(o & oth & Hmo' & _ & _ & Hpr & _ & _ & Hnw)]); [done|].
  assert (o = t) as -> by congruence. pose proof Hca as (Hc & Ht & Hr & Hi).
  destruct (restored_props s a m t th HI Ht) as (Hob1 & Hn1 & Hl1 & Hu1 & th1 & Ht1 & _ & Hp1).
  set (s1 := restored a t th m s) in *.
  assert (u ≠ t) as Hut by (intros ->; rewrite El in Hnw; set_solver).
  destruct (waiter_suspended s (HSuspend a) u HI I) as (uh & Huh & Hus); [rewrite El; set_solver|].
  assert (k_thr s1 !! u = Some uh) as Huh1 by (by rewrite Hu1).
  assert (0 ≤ th_current_priority uh < 32) as Hup
    by exact (sw_prio _ _ (proj1 (ki_sched _ (proj1 HI))) u uh Huh).
  set (s2 := held_st a (mk_mutex 0 (th_current_priority uh) 1 (Some u)) s1).
  assert (kinv s2) as HI2 by by apply kinv_ipc.
  destruct (wake_first_run s2 (HSuspend a) u rest HI2 I) as (uh' & s' & Huh' & _ & Hrun2 & Hw).
  { change (tlist (k_tl s1) (HSuspend a) = u :: rest). by rewrite (Hl1 (HSuspend a) I). }
  assert (uh' = uh) as -> by (change (k_thr s2) with (k_thr s1) in Huh'; congruence).
  destruct Hw as (HI' & Hip & Hob & Hl & _ & (st & Hst & Hact) & _ & Hmv & Hhi).
  exists uh, s'. refine (conj Huh (conj _ (conj HI' (conj _ (conj Hl (conj _ (conj _ _))))))).
  - rewrite Hrun, El. unfold bind at 1, get_thread. rewrite Huh1, (wrap_small 8) by lia.
    unfold bind at 1, put_mutex, modify. change (upd_ipc _ s1) with s2.
    unfold bind in Hrun2 |- *. destruct (rt_ipc_list_resume _ s2) as [[[] s3]|]; [|done].
    by rewrite Hrun2.
  - refine (conj _ (conj _ (or_intror _))).
    + unfold ipc_obj. rewrite Hob. unfold k_obj. cbn. by rewrite Hob1.
    + rewrite Hip. cbn. by rewrite lookup_insert_eq.
    + eexists u, _. cbn. split_and!; try done; try lia; [by apply active_not_closed|].
      rewrite Hl. pose proof (sw_nodup _ _ (proj1 (ki_sched _ (proj1 HI))) (HSuspend a)) as Hnd.
      unfold k_tl in El. rewrite El in Hnd. by apply NoDup_cons in Hnd as [? _].
  - by exists st.
  - destruct (Hmv t th1) as (th' & Ht' & Hm'); [done|done|]. exists th'. split; [done|].
    by rewrite (proj1 (stat_moves_fields _ _ Hm')).
  - intros Hn. apply Hhi. by rewrite <- Hn1 in Hn.
Qed.

Lemma mutex_ok_error a s m x t th e :
  mutex_ok a s m x → k_thr s !! t = Some th → mutex_ok a (error_st t e th s) m x.
Proof.
  intros (Hx & Hm & Hc) Ht. refine (conj Hx (conj Hm _)).
  destruct Hc as [?|(o & oth & ? & ? & ? & ? & Ho & Hs & Hn)]; [by left|right].
  unfold error_st, k_thr. cbn. destruct (decide (o = t)) as [->|Hne].
  - exists t, (with_error e th). rewrite lookup_insert_eq. assert (oth = th) as -> by congruence. done.
  - exists o, oth. by rewrite lookup_insert_ne.
Qed.

(** Writing the mutex of a caller that owns it. *)
Lemma mutex_ok_held a s m x t th :
  ipc_obj RT_Object_Class_Mutex a s x → mtx_owner m = Some t → mtx_value m = 0 →
  1 ≤ mtx_hold m < 256 → 0 ≤ mtx_original_priority m < 32 → k_thr s !! t = Some th →
  stat_of th ≠ RT_THREAD_CLOSE → t ∉ tlist (k_tl s) (HSuspend a) → mutex_ok a (held_st a m s) m x.
Proof.
  intros Hx Ho Hv Hh Hp Ht Hs Hn. refine (conj Hx (conj _ (or_intror _))).
  - cbn. by rewrite lookup_insert_eq.
  - exists t, th. by split_and!; try lia.
Qed.

(** * Properties *)

(** C31: [rt_mutex_take], in all its cases, for a mutex that is taken less than 255 times
    ([rt_mutex_hold_overflow] shows what happens then). A free mutex is acquired and remembers the
    caller's priority; the owner may take it again; another caller gets
    [-RT_ETIMEOUT] at once, or is queued while the owner inherits its priority if that
    is higher. The mutex stays well formed: one owner, who is alive and not waiting. *)
Theorem rt_mutex_take_spec s a m x t th time :
  kinv s → mutex_ok a s m x → caller s t th → mtx_hold m < 255 → time < HALF →
  wp (rt_mutex_take a time) (λ r s', kinv s' ∧
    (mutex_free m → r = Returned RT_EOK ∧
       mutex_ok a s' (mk_mutex 0 (th_current_priority th) 1 (Some t)) x) ∧
    (mtx_owner m = Some t → r = Returned RT_EOK ∧
       mutex_ok a s' (mk_mutex 0 (mtx_original_priority m) (mtx_hold m + 1) (Some t)) x) ∧
    (∀ o oth, mtx_owner m = Some o → o ≠ t → k_thr s !! o = Some oth →
       (time = 0 → r = Returned (- RT_ETIMEOUT) ∧ mutex_ok a s' m x) ∧
       (time ≠ 0 → r = Blocked t ∧ mutex_ok a s' m x ∧
          mutex_blocked a t o th oth (o_flag x) time s s'))) s.
Proof.
  intros HI Hok Hca Hh Htime. pose proof Hca as (Hc & Ht & Hr & Hi). apply wp_run.
  pose proof (kinv_error s t th RT_EOK HI Ht) as HI1.
  pose proof (mutex_ok_error a s m x t th RT_EOK Hok Ht) as Hok1.
  assert (0 ≤ th_current_priority th < 32) as Hp
    by exact (sw_prio _ _ (proj1 (ki_sched _ (proj1 HI))) t th Ht).
  pose proof (error_st_caller s t th RT_EOK Hca) as (_ & Ht1 & Hr1 & _).
  destruct (Hok) as (Hx & Hm & [[Hfree Hw]|(o & oth & Hmo & Hmv & Hhold & Hpr & Ho & Hos & Hnw)]).
  - rewrite (mutex_take_prologue s a m x t th) by done. rewrite Hfree in *. rewrite decide_False by done.
    set (s1 := error_st t RT_EOK th s) in *. unfold mutex_again, bind.
    rewrite (get_mutex_run s1 a (mk_mutex 1 255 0 None)) by done. unfold get_thread. rewrite Ht1.
    eexists _, _. split; [done|]. cbn [mtx_value mtx_hold with_error th_current_priority].
    rewrite (wrap_small 8 (th_current_priority th)) by lia.
    change (u16 (1 - 1)) with 0. change (u8 (0 + 1)) with 1.
    split_and; [by apply kinv_ipc|]. split_and!; [|done|done]. intros _. split; [done|].
    eapply (mutex_ok_held a s1); [done|done|done|cbn; lia|done|done|rewrite Hr1; stat_lia|].
    change (tlist (k_tl s1) (HSuspend a)) with (tlist (k_tl s) (HSuspend a)). rewrite Hw. set_solver.
  - destruct (decide (o = t)) as [->|Hne].
    + rewrite (mutex_take_prologue s a m x t th), decide_True by done. eexists _, _. split; [done|].
      rewrite Hmv, Hmo, (wrap_small 8) by lia. split_and; [by apply kinv_ipc|].
      split_and!; [by intros ->| |by intros ? ? [= <-]]. intros _. split; [done|].
      eapply (mutex_ok_held a (error_st t RT_EOK th s)); try done; [cbn; lia|rewrite Hr1; stat_lia].
    + destruct (decide (time = 0)) as [->|Htz].
      * rewrite (mutex_take_prologue s a m x t th), decide_False by congruence.
        unfold mutex_again, bind. rewrite (get_mutex_run _ a m) by done. unfold get_thread at 1. rewrite Ht1, Hmv.
        change (0 <? 0) with false. change (0 =? 0) with true. cbn beta iota.
        rewrite (mod_thread_run _ t (with_error RT_EOK th)) by done. eexists _, _. split; [done|].
        split_and!; [by apply (kinv_error _ t (with_error RT_EOK th))|by intros ->|congruence|].
        intros o' oth' Hmo' _ _. split; [|done]. intros _. split; [done|].
        by apply (mutex_ok_error a _ m x t (with_error RT_EOK th)).
      * destruct (mutex_block_run s a m x t th o oth time) as (s' & Hrun & Hb & Hok'); [done..|].
        exists (Blocked t), s'. split; [done|]. split_and!; [apply Hb|by intros ->|congruence|].
        intros o' oth' Hmo' _ Ho'. assert (o' = o) as -> by congruence.
        assert (oth' = oth) as -> by congruence. done.
Qed.

(** The last release of a mutex nobody waits for. *)
Lemma mutex_freed_run s a m x t th :
  kinv s → mutex_ok a s m x → caller s t th → mtx_owner m = Some t → mtx_hold m = 1 →
  tlist (k_tl s) (HSuspend a) = [] →
  rt_mutex_release a s = Some (RT_EOK, held_st a (mk_mutex 1 0xff 0 None) (restored a t th m s)) ∧
  kinv (held_st a (mk_mutex 1 0xff 0 None) (restored a t th m s)) ∧
  mutex_ok a (held_st a (mk_mutex 1 0xff 0 None) (restored a t th m s)) (mk_mutex 1 0xff 0 None) x.
Proof.
  intros HI Hok Hca Hmo Hh El. destruct (mutex_release_prologue s a m x t th HI Hok Hca Hmo Hh) as [HI1 Hrun].
  pose proof Hca as (_ & Ht & _ & _). destruct (restored_props s a m t th HI Ht) as (Hob1 & _ & Hl1 & _).
  rewrite El in Hrun. refine (conj Hrun (conj _ (conj _ (conj _ (or_introl _))))).
  - by apply kinv_ipc.
  - unfold ipc_obj, k_obj. cbn. rewrite Hob1. apply Hok.
  - cbn. by rewrite lookup_insert_eq.
  - split; [done|]. change (tlist (k_tl (restored a t th m s)) (HSuspend a) = []).
    by rewrite (Hl1 (HSuspend a) I).
Qed.

(** C32: [rt_mutex_release], in all its cases. Only the owner can release; a nested hold
    is counted down; the last release gives the owner its original priority back and
    either frees the mutex or hands it directly to the first waiter, whose call
    returns [RT_EOK] as its error field is untouched. *)
Theorem rt_mutex_release_spec s a m x t th :
  kinv s → mutex_ok a s m x → caller s t th →
  wp (rt_mutex_release a) (λ r s', kinv s' ∧
    (mtx_owner m ≠ Some t → r = - RT_ERROR ∧ mutex_ok a s' m x) ∧
    (mtx_owner m = Some t → r = RT_EOK ∧
       (1 < mtx_hold m → k_sched s' = k_sched s ∧
          mutex_ok a s' (mk_mutex 0 (mtx_original_priority m) (mtx_hold m - 1) (Some t)) x) ∧
       (mtx_hold m = 1 → tlist (k_tl s) (HSuspend a) = [] →
          mutex_ok a s' (mk_mutex 1 0xff 0 None) x ∧
          ∃ th', k_thr s' !! t = Some th' ∧ th_current_priority th' = mtx_original_priority m) ∧
       (∀ u rest, mtx_hold m = 1 → tlist (k_tl s) (HSuspend a) = u :: rest →
          ∃ uh, k_thr s !! u = Some uh ∧
            handed_over a t u uh rest (mtx_original_priority m) x s s'))) s.
Proof.
  intros HI Hok Hca. pose proof Hca as (Hc & Ht & Hr & Hi). apply wp_run.
  pose proof Hok as ((Hx1 & Hx2 & Hfl) & Hm & Hcase).
  destruct (decide (mtx_owner m = Some t)) as [Hmo|Hmo].
  2:{ eexists _, _. split.
      { unfold rt_mutex_release, bind at 1. rewrite (assert_type_run s (Obj a) x) by done.
        unfold bind at 1. rewrite (thread_context_run s t th) by done.
        unfold bind at 1. rewrite (self_run s t th) by done.
        unfold bind at 1. rewrite (get_mutex_run s a m) by done. rewrite decide_True by done.
        unfold bind. by rewrite (mod_thread_run s t th). }
      split_and; [by apply kinv_error|]. split; [|done]. intros _. split; [done|].
      by apply mutex_ok_error. }
  destruct Hcase as [[-> _]|(o & oth & Hmo' & Hmv & Hhold & Hpr & Ho & Hos & Hnw)]; [done|].
  assert (o = t) as -> by congruence. assert (oth = th) as -> by congruence.
  destruct (decide (mtx_hold m = 1)) as [Hh|Hh].
  - destruct (tlist (k_tl s) (HSuspend a)) as [|u rest] eqn:El.
    + destruct (mutex_freed_run s a m x t th HI Hok Hca Hmo Hh El) as (Hrun & HI' & Hok').
      destruct (restored_props s a m t th HI Ht) as (_ & _ & _ & _ & th' & Ht' & _ & Hp').
      eexists _, _. split; [exact Hrun|]. split_and; [done|]. split; [done|]. intros _. split_and; [done|].
      split_and!; [lia| |done]. intros _ _. split; [done|]. by exists th'.
    + destruct (mutex_handover_run s a m x t th u rest HI Hok Hca Hmo Hh El) as (uh & s' & Huh & Hrun & Hover).
      exists RT_EOK, s'. split; [done|]. split_and; [apply Hover|]. split; [done|]. intros _.
      split_and; [done|]. split_and!; [lia|done|]. intros u0 rest0 _ [= <- <-]. by exists uh.
  - eexists _, _. split.
    { unfold rt_mutex_release, bind at 1. rewrite (assert_type_run s (Obj a) x) by done.
      unfold bind at 1. rewrite (thread_context_run s t th) by done.
      unfold bind at 1. rewrite (self_run s t th) by done.
      unfold bind at 1. rewrite (get_mutex_run s a m) by done. rewrite decide_False by tauto.
      rewrite (wrap_small 8) by lia. rewrite (proj2 (Z.eqb_neq _ _)) by lia.
      rewrite Hmv, Hmo. unfold bind, put_mutex, modify. done. }
    split_and; [by apply kinv_ipc|]. split; [done|]. intros _. split_and; [done|].
    split_and!; [|lia|lia]. intros _. split; [done|].
    eapply (mutex_ok_held a s); try done; cbn; lia.
Qed.

(** When the owner of a mutex with inherited priority makes the last release and
    nobody waits any more, its priority drops but no rescheduling happens: it runs on
    although a ready thread has a higher priority. *)
Theorem rt_mutex_release_no_reschedule s a m x t th u uh :
  kinv s → mutex_ok a s m x → caller s t th → mtx_owner m = Some t → mtx_hold m = 1 →
  tlist (k_tl s) (HSuspend a) = [] →
  k_thr s !! u = Some uh → stat_of uh = RT_THREAD_READY →
  th_current_priority uh < mtx_original_priority m →
  wp (rt_mutex_release a) (λ r s', r = RT_EOK ∧ k_cur s' = Some t ∧ ¬ runs_highest (k_sched s')) s.
Proof.
  intros HI Hok Hca Hmo Hh El Hu Hur Hlt. pose proof Hca as (Hc & Ht & Hr & _).
  destruct (mutex_freed_run s a m x t th HI Hok Hca Hmo Hh El) as (Hrun & HI' & _).
  destruct (restored_props s a m t th HI Ht) as (_ & _ & _ & Hu1 & th' & Ht' & _ & Hp').
  apply wp_run. eexists _, _. split; [exact Hrun|].
  assert (k_cur (restored a t th m s) = Some t) as Hc'.
  { unfold restored, adjust_st. destruct (negb _); [|done]. unfold k_cur. cbn -[prio_st].
    by rewrite (proj1 (prio_st_fields _ _ _ _)). }
  split_and!; [done|exact Hc'|]. intros (v & vh & Hv & Hvh & Hvr & Hna).
  unfold k_cur in Hc'. cbn in Hv, Hvh. rewrite Hc' in Hv. injection Hv as <-.
  fold (k_thr (restored a t th m s)) in Hvh. rewrite Ht' in Hvh. injection Hvh as <-.
  assert (u ≠ t) as Hne by (intros ->; simplify_eq; stat_lia).
  specialize (Hna u uh). cbn in Hna. fold (k_thr (restored a t th m s)) in Hna.
  rewrite Hu1 in Hna by done. specialize (Hna Hu Hur). lia.
Qed.

(** The hold count is an 8-bit field: the owner's 256th nested take makes it 0, so
    the mutex has an owner but no hold. *)
Theorem rt_mutex_hold_overflow s a m x t th time :
  mutex_ok a s m x → caller s t th → mtx_owner m = Some t → mtx_hold m = 255 →
  wp (rt_mutex_take a time) (λ r s', r = Returned RT_EOK ∧
    ∃ m', ip_mtx (k_ipc s') !! a = Some m' ∧ mtx_owner m' = Some t ∧ mtx_hold m' = 0) s.
Proof.
  intros Hok Hca Hmo Hh. unfold wp. rewrite (mutex_take_prologue s a m x t th) by done.
  rewrite decide_True by done. cbn. split; [done|]. eexists. rewrite lookup_insert_eq.
  split; [done|]. cbn. by rewrite Hmo, Hh.
Qed.

(** * Instances *)

Definition demo_mhdr : rt_object :=
  mk_object [] (RT_Object_Class_Mutex + RT_Object_Class_Static) RT_IPC_FLAG_PRIO.

(** Five mutexes in the demo system: 100 is owned by thread 1 and thread 5 waits for
    it; 101 is free; 102 and 103 (held 255 times) are owned by thread 1; 104 is owned
    by thread 4. *)
Definition demo_mutexes : list (Z * rt_mutex) :=
  [(100, mk_mutex 0 12 1 (Some 1)); (101, mk_mutex 1 255 0 None); (102, mk_mutex 0 25 1 (Some 1));
   (103, mk_mutex 0 10 255 (Some 1)); (104, mk_mutex 0 20 1 (Some 4))].

Definition demo_mutex : kst :=
  upd_objects (λ O, foldr (λ am, put_obj (Obj am.1) demo_mhdr) O demo_mutexes)
    (upd_ipc (set_mtx (list_to_map demo_mutexes)) demo).

Lemma demo_mutex_kinv : kinv demo_mutex.
Proof. apply kinv_check_sound. vm_compute. reflexivity. Qed.

Lemma demo_mutex_ok am : am ∈ demo_mutexes → mutex_ok am.1 demo_mutex am.2 demo_mhdr.
Proof.
  intros Ham. repeat (apply elem_of_cons in Ham as [->|Ham]); [..|by apply elem_of_nil in Ham];
    (refine (conj (conj _ (conj _ (or_intror _))) (conj _ _)); [reflexivity..|]).
  2:{ left. split; reflexivity. }
  all: right; eexists _, _; split_and!; try reflexivity; cbn; try lia; try done.
  all: vm_compute; set_solver.
Qed.

Lemma demo_mutex_caller : caller demo_mutex 1 (demo_thread 10 RT_THREAD_RUNNING).
Proof. split_and!; reflexivity. Qed.

Lemma rt_mutex_take_spec_witness :
  wp (rt_mutex_take 104 20) (λ r s', r = Blocked 1 ∧
    ∃ oth, k_thr s' !! 4 = Some oth ∧ th_current_priority oth = 10) demo_mutex.
Proof.
  eapply wp_mono; [eapply (rt_mutex_take_spec demo_mutex 104 (mk_mutex 0 20 1 (Some 4)) demo_mhdr 1);
    [apply demo_mutex_kinv|apply (demo_mutex_ok (104, _)); set_solver|apply demo_mutex_caller|
     done|by vm_compute]|].
  intros r s' (_ & _ & _ & E).
  destruct (E 4 (demo_thread 20 RT_THREAD_READY) eq_refl ltac:(done) eq_refl) as [_ E'].
  destruct (E' ltac:(done)) as (? & _ & _ & _ & _ & _ & _ & _ & oth & ? & _ & ?). split; [done|].
  by exists oth.
Defined.

Lemma rt_mutex_release_spec_witness :
  wp (rt_mutex_release 100) (λ r s', r = RT_EOK ∧
    mutex_ok 100 s' (mk_mutex 0 5 1 (Some 5)) demo_mhdr) demo_mutex.
Proof.
  eapply wp_mono; [eapply (rt_mutex_release_spec demo_mutex 100 (mk_mutex 0 12 1 (Some 1)) demo_mhdr 1);
    [apply demo_mutex_kinv|apply (demo_mutex_ok (100, _)); set_solver|apply demo_mutex_caller]|].
  intros r s' (_ & _ & E). destruct (E eq_refl) as (? & _ & _ & E'). split; [done|].
  destruct (E' 5 [] eq_refl eq_refl) as (uh & Huh & _ & E'' & _).
  vm_compute in Huh. injection Huh as <-. exact E''.
Defined.

Lemma rt_mutex_release_no_reschedule_witness :
  wp (rt_mutex_release 102) (λ r s', ¬ runs_highest (k_sched s')) demo_mutex.
Proof.
  eapply wp_mono; [eapply (rt_mutex_release_no_reschedule demo_mutex 102 (mk_mutex 0 25 1 (Some 1)) demo_mhdr 1
    _ 4 (demo_thread 20 RT_THREAD_READY));
    [apply demo_mutex_kinv|apply (demo_mutex_ok (102, _)); set_solver|apply demo_mutex_caller|
     reflexivity|reflexivity|reflexivity|reflexivity|reflexivity|done]|].
  by intros r s' (_ & _ & ?).
Defined.

Lemma rt_mutex_hold_overflow_witness :
  wp (rt_mutex_take 103 0) (λ r _, r = Returned RT_EOK) demo_mutex.
Proof.
  eapply wp_mono; [eapply (rt_mutex_hold_overflow demo_mutex 103 (mk_mutex 0 10 255 (Some 1)) demo_mhdr 1);
    [apply (demo_mutex_ok (103, _)); set_solver|apply demo_mutex_caller|reflexivity|reflexivity]|].
  by intros r s' [? _].
Defined.
