(* ===== verification/Event.v ===== *)
(** Event sets, src/ipc.c. *)

From Stdlib Require Import ZArith Lia.
From stdpp Require Import base numbers option gmap.
From stdpp Require Import list sorting.
From S2P Require Import Prelude.
From S2P Require Import Kservice.
From S2P Require Import KernelDefs.
From S2P Require Import Scheduler.
From S2P Require Import Object.
From S2P Require Import Timer.
From S2P Require Import Thread.
From S2P Require Import Clock.
From S2P Require Import Ipc.
Local Open Scope Z_scope.
Local Open Scope rt_scope.

(** * Operations *)

Definition get_event (a : Z) : K rt_event := λ s,
  match ip_evt (k_ipc s) !! a with Some x => Some (x, s) | None => None end.
Definition put_event (a set : Z) : K unit :=
  modify (upd_ipc (λ i, set_evt (<[a := mk_event set]> (ip_evt i)) i)).

Definition rt_event_init (a : Z) (name : list Z) (flag : Z) : K Z :=
  assert (nz a) ;;
  rt_object_init (Obj a) RT_Object_Class_Event name ;;
  mod_object (Obj a) (with_flag (u8 flag)) ;;
  rt_ipc_object_init (HSuspend a) ;;
  put_event a 0 ;;
  ret RT_EOK.

Definition rt_event_detach (a : Z) : K Z :=
  assert_type (Obj a) RT_Object_Class_Event ;;
  b ← rt_object_is_systemobject (Obj a); assert b ;;
  rt_ipc_list_resume_all (HSuspend a) ;;
  rt_object_detach (Obj a) ;;
  ret RT_EOK.

(** The loop of [rt_event_send] over the waiting threads; the next node is read before
    a thread is resumed, so the loop walks the list as it was at the start. The result
    is [need_schedule]. *)
Fixpoint event_scan (a : Z) (l : list Z) : K bool :=
  match l with
  | [] => ret false
  | t :: l' =>
      th ← get_thread t;
      ev ← get_event a;
      status ←
        (if nz (Z.land (th_event_info th) RT_EVENT_FLAG_AND) then
           ret (Z.land (th_event_set th) (ev_set ev) =? th_event_set th)
         else if nz (Z.land (th_event_info th) RT_EVENT_FLAG_OR) then
           if nz (Z.land (th_event_set th) (ev_set ev)) then
             mod_thread t (with_event (Z.land (th_event_set th) (ev_set ev)) (th_event_info th)) ;;
             ret true
           else ret false
         else ret false);
      if status : bool then
        th' ← get_thread t;
        (if nz (Z.land (th_event_info th') RT_EVENT_FLAG_CLEAR)
         then put_event a (Z.land (ev_set ev) (u32 (Z.lnot (th_event_set th')))) else ret tt) ;;
        rt_thread_resume t ;;
        event_scan a l' ;;
        ret true
      else event_scan a l'
  end.

Definition rt_event_send (a set : Z) : K Z :=
  assert_type (Obj a) RT_Object_Class_Event ;;
  if set =? 0 then ret (- RT_ERROR)
  else
    ev ← get_event a;
    put_event a (Z.lor (ev_set ev) set) ;;
    l ← gets (λ s, tlist (k_tl s) (HSuspend a));
    need_schedule ← event_scan a l;
    (if need_schedule : bool then rt_schedule else ret tt) ;;
    ret RT_EOK.

(** Returns the error code and the value written to [recved], if any. *)
Definition rt_event_recv (a set opt timeout : Z) : K (outcome (Z * option Z) Z) :=
  RT_DEBUG_IN_THREAD_CONTEXT ;;
  assert_type (Obj a) RT_Object_Class_Event ;;
  if set =? 0 then ret (Returned (- RT_ERROR, None))
  else
    t ← self;
    mod_thread t (with_error RT_EOK) ;;
    ev ← get_event a;
    status ←
      (if nz (Z.land opt RT_EVENT_FLAG_AND) then ret (Z.land (ev_set ev) set =? set)
       else if nz (Z.land opt RT_EVENT_FLAG_OR) then ret (nz (Z.land (ev_set ev) set))
       else assert false ;; ret false);
    if status : bool then
      (if nz (Z.land opt RT_EVENT_FLAG_CLEAR)
       then put_event a (Z.land (ev_set ev) (u32 (Z.lnot set))) else ret tt) ;;
      ret (Returned (RT_EOK, Some (Z.land (ev_set ev) set)))
    else if timeout =? 0 then
      mod_thread t (with_error (- RT_ETIMEOUT)) ;;
      ret (Returned (- RT_ETIMEOUT, None))
    else
      mod_thread t (with_event set opt) ;;
      x ← get_object (Obj a);
      ipc_wait (HSuspend a) t (o_flag x) timeout ;;
      rt_schedule ;;
      ret (Blocked t).

(** The rest of [rt_event_recv] after [rt_schedule]. *)
Definition rt_event_recv_resume (t : Z) : K (Z * option Z) :=
  th ← get_thread t;
  if negb (th_error th =? RT_EOK) then ret (th_error th, None)
  else ret (th_error th, Some (th_event_set th)).

Definition rt_event_control (a cmd : Z) : K Z :=
  assert_type (Obj a) RT_Object_Class_Event ;;
  if cmd =? RT_IPC_CMD_RESET then
    rt_ipc_list_resume_all (HSuspend a) ;;
    put_event a 0 ;;
    rt_schedule ;;
    ret RT_EOK
  else ret (- RT_ERROR).

(** * Specification *)

(** A thread waiting for [es] in mode [info] is satisfied by the events [set]. *)
Definition sat (info es set : Z) : bool :=
  if nz (Z.land info RT_EVENT_FLAG_AND) then Z.land es set =? es
  else if nz (Z.land info RT_EVENT_FLAG_OR) then nz (Z.land es set) else false.

(** The events it then receives, and the events that remain pending. *)
Definition received (info es set : Z) : Z :=
  if nz (Z.land info RT_EVENT_FLAG_AND) then es else Z.land es set.
Definition remaining (info es set : Z) : Z :=
  if nz (Z.land info RT_EVENT_FLAG_CLEAR) then Z.land set (u32 (Z.lnot (received info es set))) else set.

(** Reference semantics of a send: serve the waiters in order with what is left of the
    pending events. The result is what stays pending, who was served with which events,
    and who waits on. *)
Fixpoint serve (thr : gmap Z rt_thread) (set : Z) (l : list Z) : Z * list (Z * Z) * list Z :=
  match l with
  | [] => (set, [], [])
  | t :: l' =>
      let '(info, es) := match thr !! t with
                         | Some th => (th_event_info th, th_event_set th) | None => (0, 0) end in
      if sat info es set then
        let '(set', woken, waiting) := serve thr (remaining info es set) l' in
        (set', (t, received info es set) :: woken, waiting)
      else
        let '(set', woken, waiting) := serve thr set l' in
        (set', woken, t :: waiting)
  end.

Definition unsat (thr : gmap Z rt_thread) (set t : Z) : Prop :=
  ∀ th, thr !! t = Some th → sat (th_event_info th) (th_event_set th) set = false.

(** A well-formed event: nobody waits for events that are pending already. *)
Definition event_ok (a : Z) (s : kst) (set : Z) (x : rt_object) : Prop :=
  ipc_obj RT_Object_Class_Event a s x ∧ ip_evt (k_ipc s) !! a = Some (mk_event set) ∧
  ∀ t, t ∈ tlist (k_tl s) (HSuspend a) → unsat (k_thr s) set t.

(** ** Fewer pending events satisfy fewer waiters *)

Definition subset (a b : Z) : Prop := ∀ i, 0 ≤ i → Z.testbit a i = true → Z.testbit b i = true.

Lemma subset_land a b : subset (Z.land a b) a.
Proof. intros i Hi. rewrite Z.land_spec. by intros [? _]%andb_true_iff. Qed.

Lemma subset_remaining info es set : subset (remaining info es set) set.
Proof. unfold remaining. case_match; [apply subset_land|by intros i]. Qed.

Lemma sat_mono info es set set' : subset set' set → sat info es set' = true → sat info es set = true.
Proof.
  intros Hsub. unfold sat. case_match.
  - rewrite !Z.eqb_eq. intros E. apply Z.bits_inj'. intros i Hi. rewrite Z.land_spec.
    destruct (Z.testbit es i) eqn:Ei; [|done]. cbn. apply Hsub; [done|].
    rewrite <- E, Z.land_spec in Ei. by apply andb_true_iff in Ei as [_ ?].
  - case_match; [|done]. rewrite !nz_true. intros Hne E. apply Hne, Z.bits_inj'. intros i Hi.
    rewrite Z.bits_0, Z.land_spec. destruct (Z.testbit es i) eqn:Ei; [|done]. cbn.
    destruct (Z.testbit set' i) eqn:Es; [|done]. apply Hsub in Es; [|done].
    assert (Z.testbit (Z.land es set) i = true) as Hb by (by rewrite Z.land_spec, Ei, Es).
    by rewrite E, Z.bits_0 in Hb.
Qed.

Lemma unsat_mono thr set set' t : subset set' set → unsat thr set t → unsat thr set' t.
Proof.
  intros Hsub Hu th Ht. destruct (sat _ _ set') eqn:E; [|done].
  pose proof (sat_mono _ _ _ _ Hsub E) as E'. by rewrite (Hu th Ht) in E'.
Qed.

(** ** Properties of the reference *)

Lemma serve_subset thr set l : subset (serve thr set l).1.1 set.
Proof.
  revert set. induction l as [|t l IH]; intros set; [by intros i|]. cbn.
  destruct (match thr !! t with Some th => _ | None => _ end) as [info es].
  destruct (sat info es set).
  - specialize (IH (remaining info es set)). destruct (serve _ _ l) as [[set' w] r]. cbn in *.
    intros i Hi Hb. eapply subset_remaining; [done|]. by apply IH.
  - specialize (IH set). by destruct (serve _ _ l) as [[set' w] r].
Qed.

(** Whoever is left waiting is not satisfied by what is left pending. *)
Lemma serve_unsat thr set l t : t ∈ (serve thr set l).2 → unsat thr (serve thr set l).1.1 t.
Proof.
  revert set. induction l as [|u l IH]; intros set; [set_solver|]. cbn.
  destruct (thr !! u) as [uh|] eqn:Eu; cbn.
  - destruct (sat (th_event_info uh) (th_event_set uh) set) eqn:Es.
    + specialize (IH (remaining (th_event_info uh) (th_event_set uh) set)).
      by destruct (serve _ _ l) as [[set' w] r].
    + pose proof (serve_subset thr set l) as Hsub. specialize (IH set).
      destruct (serve thr set l) as [[set' w] r]. cbn in *. intros [->|Ht]%elem_of_cons; [|auto].
      apply (unsat_mono _ set); [done|]. intros th Hth. by simplify_eq.
  - specialize (IH set). destruct (serve thr set l) as [[set' w] r]. cbn in *.
    intros [->|Ht]%elem_of_cons; [|auto]. intros th Hth. congruence.
Qed.

(** Everybody is either served or waits on, in the same order. *)
Lemma serve_perm thr set l : (serve thr set l).1.2.*1 ++ (serve thr set l).2 ≡ₚ l.
Proof.
  revert set. induction l as [|u l IH]; intros set; [done|]. cbn.
  destruct (match thr !! u with Some th => _ | None => _ end) as [info es].
  destruct (sat info es set).
  - specialize (IH (remaining info es set)). destruct (serve _ _ l) as [[set' w] r]. cbn in *. by f_equiv.
  - specialize (IH set). destruct (serve _ _ l) as [[set' w] r]. cbn in *.
    rewrite <- IH. by rewrite Permutation_middle.
Qed.

Lemma serve_waiting_sublist thr set l : (serve thr set l).2 `sublist_of` l.
Proof.
  revert set. induction l as [|u l IH]; intros set; [done|]. cbn.
  destruct (match thr !! u with Some th => _ | None => _ end) as [info es].
  destruct (sat info es set).
  - specialize (IH (remaining info es set)). destruct (serve _ _ l) as [[set' w] r]. cbn in *. by constructor.
  - specialize (IH set). destruct (serve _ _ l) as [[set' w] r]. cbn in *. by constructor.
Qed.

Lemma serve_ext thr thr' set l :
  (∀ t, t ∈ l → thr' !! t = thr !! t) → serve thr' set l = serve thr set l.
Proof.
  revert set. induction l as [|u l IH]; intros set Hl; [done|]. cbn. rewrite Hl by set_solver.
  destruct (match thr !! u with Some th => _ | None => _ end) as [info es].
  rewrite !IH by set_solver. done.
Qed.

(** * The scan refines the reference *)

Lemma get_event_run s a set :
  ip_evt (k_ipc s) !! a = Some (mk_event set) → get_event a s = Some (mk_event set, s).
Proof. intros H. unfold get_event. by rewrite H. Qed.

Definition ev_st (a set : Z) (s : kst) : kst :=
  upd_ipc (λ i, set_evt (<[a := mk_event set]> (ip_evt i)) i) s.

Lemma ev_st_id a set s : ip_evt (k_ipc s) !! a = Some (mk_event set) → ev_st a set s = s.
Proof.
  intros H. destruct s as [? ? ? []]. unfold ev_st, upd_ipc, set_evt. cbn in *. by rewrite insert_id.
Qed.

Lemma put_thr_id t th s : k_thr s !! t = Some th → upd_sched (put_thr t th) s = s.
Proof.
  intros H. destruct s as [[] ? ? ?]. unfold upd_sched, put_thr, set_thr, k_thr in *. cbn in *.
  by rewrite insert_id.
Qed.

(** The control block of a waiter when it is served. *)
Definition served (set : Z) (th : rt_thread) : rt_thread :=
  with_event (received (th_event_info th) (th_event_set th) set) (th_event_info th) th.

Lemma status_run s t th set :
  k_thr s !! t = Some th →
  (if nz (Z.land (th_event_info th) RT_EVENT_FLAG_AND) then
     ret (Z.land (th_event_set th) set =? th_event_set th)
   else if nz (Z.land (th_event_info th) RT_EVENT_FLAG_OR) then
     if nz (Z.land (th_event_set th) set) then
       mod_thread t (with_event (Z.land (th_event_set th) set) (th_event_info th)) ;; ret true
     else ret false
   else ret false) s =
  Some (sat (th_event_info th) (th_event_set th) set,
        if sat (th_event_info th) (th_event_set th) set then upd_sched (put_thr t (served set th)) s else s).
Proof.
  intros Ht. unfold sat, served, received. destruct (nz (Z.land (th_event_info th) RT_EVENT_FLAG_AND)).
  - destruct (_ =? _); [|done]. rewrite put_thr_id; [done|]. rewrite Ht. by destruct th.
  - destruct (nz (Z.land (th_event_info th) RT_EVENT_FLAG_OR)); [|done].
    destruct (nz (Z.land (th_event_set th) set)); [|done].
    unfold bind. by rewrite (mod_thread_run s t th).
Qed.

(** What serving the waiters [l] of [a] does, [pre] being the waiters passed over. *)
Definition scanned (a : Z) (pre : list Z) (r : Z * list (Z * Z) * list Z) (s s' : kst) : Prop :=
  kinv s' ∧ ip_evt (k_ipc s') = <[a := mk_event r.1.1]> (ip_evt (k_ipc s)) ∧
  tlist (k_tl s') (HSuspend a) = pre ++ r.2 ∧
  (∀ h, is_wait h → h ≠ HSuspend a → tlist (k_tl s') h = tlist (k_tl s) h) ∧
  (∀ b, k_obj s' !! Obj b = k_obj s !! Obj b) ∧ k_cur s' = k_cur s ∧
  sc_lock_nest (k_sched s') = sc_lock_nest (k_sched s) ∧
  (∀ t e, (t, e) ∈ r.1.2 → ∃ th th', k_thr s !! t = Some th ∧ k_thr s' !! t = Some th' ∧
     active th' ∧ th_event_set th' = e ∧ th_error th' = th_error th) ∧
  (∀ u, u ∉ r.1.2.*1 → k_thr s' !! u = k_thr s !! u).

Lemma nodup_mid_filter (pre l : list Z) t :
  NoDup (pre ++ t :: l) → filter (λ x, x ≠ t) (pre ++ t :: l) = pre ++ l ∧ t ∉ pre ∧ t ∉ l ∧ NoDup (pre ++ l).
Proof.
  intros Hnd. apply list.NoDup_app in Hnd as (Hp & Hd & [Ht Hl]%NoDup_cons).
  assert (t ∉ pre) by (intros Hin; by eapply Hd; [done|left]).
  split_and!; [|done|done|].
  - rewrite filter_app, filter_cons_False, !filter_ne_notin; [done..|]. naive_solver.
  - apply list.NoDup_app. split_and!; [done| |done]. intros x Hx Hxl. by eapply Hd; [done|right].
Qed.

(** Serving one satisfied waiter. *)
Definition serve_st (a t set : Z) (th : rt_thread) (s : kst) : kst :=
  ev_st a (remaining (th_event_info th) (th_event_set th) set) (upd_sched (put_thr t (served set th)) s).

Lemma serve_one s a set pre t l th :
  kinv s → ip_evt (k_ipc s) !! a = Some (mk_event set) →
  tlist (k_tl s) (HSuspend a) = pre ++ t :: l → k_thr s !! t = Some th →
  stat_of th = RT_THREAD_SUSPEND →
  rt_thread_resume t (serve_st a t set th s) = Some (RT_EOK, wake_st t (served set th) (serve_st a t set th s)) ∧
  scanned a pre (remaining (th_event_info th) (th_event_set th) set,
                 [(t, received (th_event_info th) (th_event_set th) set)], l)
    s (wake_st t (served set th) (serve_st a t set th s)).
Proof.
  intros HI Hev El Ht Hs. set (s2 := serve_st a t set th s).
  assert (kinv s2) as HI2 by (apply kinv_ipc; by eapply kinv_put_same).
  assert (k_thr s2 !! t = Some (served set th)) as Ht2
    by (unfold s2, k_thr; cbn; by rewrite lookup_insert_eq).
  split; [by apply resume_run|].
  destruct (wake_st_sched_fields s2 t (served set th)) as (Hc & Hn & Hip & Hthr).
  destruct (stop_st_objects (ThreadTimer t) s2) as [_ Hobj].
  pose proof (λ h Hh, wake_st_tlist s2 t (served set th) h Hh) as Hl.
  assert (∀ h, tlist (k_tl s2) h = tlist (k_tl s) h) as Hl2 by done.
  pose proof (sw_disj _ _ (proj1 (ki_sched _ (proj1 HI))) t) as Hdj.
  pose proof (sw_nodup _ _ (proj1 (ki_sched _ (proj1 HI))) (HSuspend a)) as Hnd.
  fold (k_tl s) in Hdj, Hnd. rewrite El in Hnd. apply nodup_mid_filter in Hnd as (Hfil & _).
  split_and!.
  - by apply kinv_wake.
  - by rewrite Hip.
  - rewrite Hl, Hl2, El by done. done.
  - intros h Hh Hne. rewrite Hl, Hl2 by done. apply filter_ne_notin. intros Hin. apply Hne.
    apply (Hdj h (HSuspend a) Hin). rewrite El. set_solver.
  - intros b. by apply (Hobj (Obj b)).
  - by rewrite Hc.
  - by rewrite Hn.
  - intros u e [[= -> ->]|[]%elem_of_nil]%elem_of_cons. exists th. rewrite Hthr, lookup_insert_eq.
    eexists. split_and!; [done|done| |done|done]. apply active_set_stat. case_decide; auto.
  - intros u Hu. cbn in Hu. rewrite Hthr, lookup_insert_ne by set_solver. unfold s2, k_thr. cbn.
    rewrite lookup_insert_ne; [done|set_solver].
Qed.

Lemma scanned_trans a pre set1 t e l set2 w r s s1 s2 :
  scanned a pre (set1, [(t, e)], l) s s1 → scanned a pre (set2, w, r) s1 s2 → t ∉ w.*1 →
  scanned a pre (set2, (t, e) :: w, r) s s2.
Proof.
  intros (HI1 & He1 & Hl1 & Ho1 & Hb1 & Hc1 & Hn1 & Hw1 & Hu1)
    (HI2 & He2 & Hl2 & Ho2 & Hb2 & Hc2 & Hn2 & Hw2 & Hu2) Ht. cbn in *.
  assert (∀ u, u ≠ t → k_thr s1 !! u = k_thr s !! u) as Hu1'.
  { intros u Hu. apply Hu1. set_solver. }
  split_and!; cbn.
  - done.
  - by rewrite He2, He1, insert_insert_eq.
  - done.
  - intros h Hh Hne. by rewrite Ho2, Ho1.
  - intros b. by rewrite Hb2, Hb1.
  - by rewrite Hc2.
  - by rewrite Hn2.
  - intros u d [[= -> ->]|Hin]%elem_of_cons.
    + destruct (Hw1 t e) as (th & th' & H1 & H2 & H3 & H4 & H5); [left|].
      exists th, th'. split_and!; [done|by rewrite Hu2|done|done|done].
    + destruct (Hw2 u d Hin) as (th & th' & H1 & H2 & H3 & H4 & H5). exists th, th'.
      rewrite <- Hu1'; [done|]. intros ->. apply Ht. by apply (list_elem_of_fmap_2 fst w (t, d)).
  - intros u Hu. rewrite Hu2, Hu1'; [done|set_solver|set_solver].
Qed.

Lemma scanned_nil a pre l set s :
  kinv s → ip_evt (k_ipc s) !! a = Some (mk_event set) → tlist (k_tl s) (HSuspend a) = pre ++ l →
  scanned a pre (set, [], l) s s.
Proof. intros HI He Hl. split_and!; cbn; try done; [by rewrite insert_id|set_solver]. Qed.

Lemma event_scan_run a l : ∀ s set pre,
  kinv s → ip_evt (k_ipc s) !! a = Some (mk_event set) → tlist (k_tl s) (HSuspend a) = pre ++ l →
  ∃ s', event_scan a l s = Some (bool_decide ((serve (k_thr s) set l).1.2 ≠ []), s') ∧
    scanned a pre (serve (k_thr s) set l) s s'.
Proof.
  induction l as [|t l IH]; intros s set pre HI Hev El.
  { exists s. split; [done|]. by apply scanned_nil. }
  destruct (waiter_suspended s (HSuspend a) t HI I) as (th & Ht & Hs); [rewrite El; set_solver|].
  cbn [event_scan serve]. rewrite Ht. unfold bind at 1, get_thread at 1. rewrite Ht.
  unfold bind at 1. rewrite (get_event_run s a set) by done. cbn [ev_set].
  unfold bind at 1. rewrite (status_run s t th set) by done.
  pose proof (sw_nodup _ _ (proj1 (ki_sched _ (proj1 HI))) (HSuspend a)) as Hnd.
  fold (k_tl s) in Hnd. rewrite El in Hnd. apply nodup_mid_filter in Hnd as (_ & _ & Htl & _).
  destruct (sat (th_event_info th) (th_event_set th) set).
  - destruct (serve_one s a set pre t l th) as [Hres Hone]; [done..|].
    set (s3 := wake_st t (served set th) (serve_st a t set th s)) in *.
    pose proof Hone as (HI3 & He3 & Hl3 & _ & _ & _ & _ & _ & Hu3). cbn [fst snd] in He3, Hl3, Hu3.
    assert (∀ u, u ∈ l → k_thr s3 !! u = k_thr s !! u) as Hthr3 by (intros u Hu; apply Hu3; set_solver).
    destruct (IH s3 (remaining (th_event_info th) (th_event_set th) set) pre HI3) as (s4 & Hr4 & Hsc4);
      [by rewrite He3, lookup_insert_eq|done|].
    rewrite (serve_ext (k_thr s)) in Hr4, Hsc4 by done.
    pose proof (serve_perm (k_thr s) (remaining (th_event_info th) (th_event_set th) set) l) as Hperm.
    destruct (serve (k_thr s) _ l) as [[set' w] r]. cbn [fst snd] in *. exists s4. split.
    + unfold bind, get_thread, k_thr at 1. cbn -[rt_thread_resume event_scan]. rewrite lookup_insert_eq.
      assert ((if nz (Z.land (th_event_info (served set th)) RT_EVENT_FLAG_CLEAR)
               then put_event a (Z.land set (u32 (Z.lnot (th_event_set (served set th)))))
               else ret tt) (upd_sched (put_thr t (served set th)) s) = Some (tt, serve_st a t set th s)) as ->.
      { unfold serve_st, remaining. cbn [served with_event th_event_info th_event_set].
        destruct (nz _); [done|]. by rewrite ev_st_id. }
      rewrite Hres. fold s3. by rewrite Hr4.
    + eapply scanned_trans; [done|done|]. intros Hin. apply Htl. rewrite <- Hperm. set_solver.
  - destruct (IH s set (pre ++ [t]) HI Hev) as (s4 & Hr4 & Hsc4); [by rewrite <- app_assoc|].
    destruct (serve (k_thr s) set l) as [[set' w] r]. exists s4. split; [exact Hr4|].
    destruct Hsc4 as (H1 & H2 & H3 & Hrest). cbn in *. rewrite <- app_assoc in H3.
    by refine (conj H1 (conj H2 (conj H3 Hrest))).
Qed.

(** * Properties *)

(** [event_ok] only reads the waiters' control blocks. *)
Lemma event_ok_intro a s s' set x :
  ipc_obj RT_Object_Class_Event a s x → (∀ b, k_obj s' !! Obj b = k_obj s !! Obj b) →
  ip_evt (k_ipc s') !! a = Some (mk_event set) →
  (∀ t, t ∈ tlist (k_tl s') (HSuspend a) → unsat (k_thr s') set t) → event_ok a s' set x.
Proof. intros Hx Hob He Hu. refine (conj _ (conj He Hu)). unfold ipc_obj. by rewrite Hob. Qed.

Lemma stat_moves_suspended u u' :
  stat_moves u u' → stat_of u = RT_THREAD_SUSPEND → u' = u.
Proof. intros [->|[[?|?] _]]; [done|stat_lia..]. Qed.

(** The optional call of the scheduler at the end of a send. *)
Lemma maybe_schedule_run s (b : bool) :
  kinv s → (b = true → sc_group (k_sched s) ≠ 0 ∨ ∃ cur cth, k_cur s = Some cur ∧
    k_thr s !! cur = Some cth ∧ stat_of cth = RT_THREAD_RUNNING) →
  ∃ c', (if b then rt_schedule else ret tt) s = Some (tt, mk_kst c' (k_timers s) (k_objects s) (k_ipc s)) ∧
    kinv (mk_kst c' (k_timers s) (k_objects s) (k_ipc s)) ∧
    (∀ h, is_wait h → tlist (sc_tl c') h = tlist (k_tl s) h) ∧ moved (k_sched s) c' ∧
    (b = true → sc_lock_nest (k_sched s) = 0 → runs_highest c').
Proof.
  intros [HI Hw] Hb. destruct b.
  - destruct (schedule_kinv0 s HI) as (c' & Hr & Hd & HI'). exists c'.
    split_and!; [done|by split| |by apply scheduled_moved; [apply HI|]|].
    + intros h Hh. apply (scheduled_waiting _ _ h (ki_sched _ HI) Hd). intros p. by apply is_wait_not_ready.
    + intros _ Hn. destruct (ki_cur _ HI) as [cur Hcur].
      destruct (proj1 (proj2 (ki_sched _ HI)) cur Hcur) as (cth & Hcth & _).
      eapply scheduled_highest; [apply HI|done|done|done|done|].
      destruct (Hb eq_refl) as [?|(cur' & cth' & Hc' & Ht' & Hs')]; [by right|left].
      unfold k_cur, k_thr in *. by simplify_eq.
  - exists (k_sched s). split_and!; [by destruct s|by destruct s|done|apply moved_refl|done].
Qed.

(** A woken thread gives the scheduler something to run. *)
Lemma active_runnable s t th :
  kinv s → k_thr s !! t = Some th → active th →
  sc_group (k_sched s) ≠ 0 ∨ ∃ cur cth, k_cur s = Some cur ∧ k_thr s !! cur = Some cth ∧
    stat_of cth = RT_THREAD_RUNNING.
Proof.
  intros [HI _] Ht [Hr|Hr].
  - left. apply (ready_group s t HI). unfold thread_stat. rewrite Ht. cbn. by rewrite Hr.
  - right. exists t, th. split_and!; [|done|done].
    apply (sw_running _ _ (proj1 (ki_sched _ HI)) t th); [done|set_solver|done].
Qed.

(** C33: [rt_event_send] adds the events and serves the waiters exactly as the reference
    [serve]: in list order, each with the events left by those before it, AND waiters
    only when all their events are pending. Served threads are woken with the events
    they received; nobody is left waiting whose condition holds. *)
Theorem rt_event_send_spec s a set0 x set :
  kinv s → event_ok a s set0 x → set ≠ 0 →
  let r := serve (k_thr s) (Z.lor set0 set) (tlist (k_tl s) (HSuspend a)) in
  wp (rt_event_send a set) (λ res s', res = RT_EOK ∧ kinv s' ∧ event_ok a s' r.1.1 x ∧
    tlist (k_tl s') (HSuspend a) = r.2 ∧
    (∀ t e, (t, e) ∈ r.1.2 → ∃ th th', k_thr s !! t = Some th ∧ k_thr s' !! t = Some th' ∧
       active th' ∧ th_event_set th' = e ∧ th_error th' = th_error th) ∧
    (r.1.2 ≠ [] → sc_lock_nest (k_sched s) = 0 → runs_highest (k_sched s'))) s.
Proof.
  intros HI (Hx & He & _) Hset r. pose proof Hx as (Hx1 & Hx2 & _).
  set (s1 := ev_st a (Z.lor set0 set) s). assert (kinv s1) as HI1 by by apply kinv_ipc.
  destruct (event_scan_run a (tlist (k_tl s) (HSuspend a)) s1 (Z.lor set0 set) []) as (s2 & Hr2 & Hsc);
    [done|unfold s1; cbn; by rewrite lookup_insert_eq|done|].
  change (k_thr s1) with (k_thr s) in Hr2, Hsc. fold r in Hr2, Hsc.
  destruct Hsc as (HI2 & He2 & Hl2 & _ & Hb2 & _ & Hn2 & Hw2 & Hu2). cbn [app] in Hl2.
  destruct (maybe_schedule_run s2 (bool_decide (r.1.2 ≠ [])) HI2) as (c' & Hr3 & HI3 & Hl3 & Hmv & Hhi).
  { intros Hb%bool_decide_eq_true. destruct (r.1.2) as [|[t e] w] eqn:Ew; [done|].
    destruct (Hw2 t e) as (_ & th' & _ & Ht' & Hact & _); [left|]. by apply (active_runnable s2 t th'). }
  apply wp_run. eexists _, _. split.
  { unfold rt_event_send, bind at 1. rewrite (assert_type_run s (Obj a) x) by done.
    rewrite (proj2 (Z.eqb_neq _ _) Hset). unfold bind at 1. rewrite (get_event_run s a set0) by done.
    unfold bind at 1, put_event, modify. cbn [ev_set]. change (upd_ipc _ s) with s1.
    unfold bind at 1, gets. change (tlist (k_tl s1) (HSuspend a)) with (tlist (k_tl s) (HSuspend a)).
    unfold bind at 1. rewrite Hr2. unfold bind. rewrite Hr3. done. }
  refine (conj eq_refl (conj HI3 (conj _ (conj _ (conj _ _))))).
  - apply (event_ok_intro a s); [done|done|cbn; by rewrite He2, lookup_insert_eq|].
    intros t Ht. unfold k_tl in Ht. cbn in Ht. rewrite (Hl3 (HSuspend a) I), Hl2 in Ht.
    assert (t ∉ r.1.2.*1) as Hnw.
    { intros Hin. pose proof (serve_perm (k_thr s) (Z.lor set0 set) (tlist (k_tl s) (HSuspend a))) as Hp.
      pose proof (sw_nodup _ _ (proj1 (ki_sched _ (proj1 HI))) (HSuspend a)) as Hnd. fold (k_tl s) in Hnd.
      rewrite <- Hp in Hnd. apply list.NoDup_app in Hnd as (_ & Hd & _). by eapply Hd. }
    intros th Hth. destruct (waiter_suspended s2 (HSuspend a) t HI2 I) as (th2 & Hth2 & Hs2);
      [by rewrite Hl2|].
    unfold k_thr in Hth. cbn in Hth.
    rewrite (moved_suspended _ _ t th2 Hmv Hth2) in Hth by (intros [?|?]; stat_lia).
    injection Hth as <-. rewrite Hu2 in Hth2 by done. by apply (serve_unsat (k_thr s) _ _ t Ht).
  - unfold k_tl. cbn. by rewrite (Hl3 (HSuspend a) I).
  - intros t e Hin. destruct (Hw2 t e Hin) as (th & th' & Ht & Ht' & Hact & Hes & Her).
    destruct (moved_lookup_inv _ _ t th' Hmv Ht') as (th'' & Ht'' & Hm). exists th, th''.
    split_and!; [done|done| |by destruct Hm as [->|(_ & ? & _ & ->)]..].
    destruct Hm as [->|(_ & st & Hst & ->)]; [done|by apply active_set_stat].
  - intros Hne Hn. apply Hhi; [by apply bool_decide_eq_true_2|]. by rewrite Hn2.
Qed.

Definition pending (opt set set0 : Z) : Z :=
  if nz (Z.land opt RT_EVENT_FLAG_CLEAR) then Z.land set0 (u32 (Z.lnot set)) else set0.

(** The prologue of [rt_event_recv] with the status it computes. *)
Lemma event_recv_prologue s a set0 x t th set opt timeout :
  event_ok a s set0 x → caller s t th → set ≠ 0 →
  nz (Z.land opt RT_EVENT_FLAG_AND) = true ∨ nz (Z.land opt RT_EVENT_FLAG_OR) = true →
  rt_event_recv a set opt timeout s =
    (if sat opt set set0 then
       (if nz (Z.land opt RT_EVENT_FLAG_CLEAR)
        then put_event a (Z.land set0 (u32 (Z.lnot set))) else ret tt) ;;
       ret (Returned (RT_EOK, Some (Z.land set0 set)))
     else if timeout =? 0 then
       mod_thread t (with_error (- RT_ETIMEOUT)) ;;
       ret (Returned (- RT_ETIMEOUT, None))
     else
       mod_thread t (with_event set opt) ;;
       x ← get_object (Obj a);
       ipc_wait (HSuspend a) t (o_flag x) timeout ;;
       rt_schedule ;;
       ret (Blocked t)) (error_st t RT_EOK th s).
Proof.
  intros ((Hx1 & Hx2 & _) & He & _) Hca Hset Hopt. pose proof Hca as (Hc & Ht & _ & _).
  unfold rt_event_recv, bind at 1. rewrite (thread_context_run s t th) by done.
  unfold bind at 1. rewrite (assert_type_run s (Obj a) x) by done.
  rewrite (proj2 (Z.eqb_neq _ _) Hset). unfold bind at 1. rewrite (self_run s t th) by done.
  unfold bind at 1. rewrite (mod_thread_run s t th) by done. fold (error_st t RT_EOK th s).
  unfold bind at 1. rewrite (get_event_run _ a set0) by done. cbn [ev_set].
  unfold sat. rewrite (Z.land_comm set set0). unfold bind at 1.
  destruct (nz (Z.land opt RT_EVENT_FLAG_AND)); [done|].
  destruct Hopt as [?| ->]; [done|]. done.
Qed.

(** A caller that blocks, its condition recorded. *)
Lemma event_block_run s a set0 x t th set opt timeout :
  kinv s → event_ok a s set0 x → caller s t th → timeout < HALF → sat opt set set0 = false →
  ∃ s', (mod_thread t (with_event set opt) ;;
         x ← get_object (Obj a);
         ipc_wait (HSuspend a) t (o_flag x) timeout ;;
         rt_schedule ;;
         ret (A := outcome (Z * option Z) Z) (Blocked t)) (error_st t RT_EOK th s) = Some (Blocked t, s') ∧
    event_ok a s' set0 x ∧
    blocked_post (HSuspend a) t (with_event set opt (with_error RT_EOK th)) (o_flag x) timeout s s'.
Proof.
  intros HI Hok Hca Htime Hsat. pose proof Hca as (Hc & Ht & Hr & Hi).
  pose proof Hok as (Hx & He & Hun). pose proof Hx as (Hx1 & Hx2 & Hfl).
  set (th' := with_event set opt (with_error RT_EOK th)). set (s2 := upd_sched (put_thr t th') s).
  assert (kinv s2) as HI2 by (by eapply (kinv_put_same s t th)).
  assert (caller s2 t th') as Hca2.
  { split_and!; [done|unfold s2, k_thr; cbn; by rewrite lookup_insert_eq|done|done]. }
  destruct (block_caller_run s2 (HSuspend a) t th' (o_flag x) timeout HI2 Hca2 I Hfl Htime) as (s' & Hrun & Hpost).
  apply (blocked_post_from s t th) in Hpost; [|done..]. exists s'.
  refine (conj _ (conj _ Hpost)).
  - pose proof (error_st_caller s t th RT_EOK Hca) as (_ & Ht1 & _).
    unfold bind at 1. rewrite (mod_thread_run _ t (with_error RT_EOK th)) by done.
    replace (upd_sched _ (error_st t RT_EOK th s)) with s2
      by (unfold s2, error_st, upd_sched, put_thr, set_thr; cbn; by rewrite insert_insert_eq).
    unfold bind at 1, get_object. change (k_obj s2) with (k_obj s). rewrite Hx1.
    revert Hrun. unfold bind. destruct (ipc_wait _ _ _ _ _) as [[[] s3]|]; [|done]. by intros ->.
  - destruct Hpost as (HI' & Hip & Hob & Ht' & Hl & _ & _ & Hmv & _).
    apply (event_ok_intro a s); [done|done|by rewrite Hip|]. rewrite Hl. intros u. rewrite enqueue_perm.
    intros [->|Hu]%elem_of_cons uh Huh.
    + rewrite Ht' in Huh. by injection Huh as <-.
    + destruct (waiter_suspended s (HSuspend a) u HI I Hu) as (uh0 & Hu0 & Hs0).
      assert (u ≠ t) as Hne by (intros ->; simplify_eq; stat_lia).
      destruct (Hmv u uh0 Hne Hu0) as (uh' & Hu' & Hm). apply stat_moves_suspended in Hm as ->; [|done].
      rewrite Hu' in Huh. injection Huh as <-. by apply (Hun u).
Qed.

(** [rt_event_recv], in all its cases. When the awaited events are pending (all of
    them for AND, any for OR) it returns them at once and, with CLEAR, consumes them;
    otherwise it times out at once or queues the caller with its condition recorded.
    Nobody is ever left waiting for events that are pending. *)
Theorem rt_event_recv_spec s a set0 x t th set opt timeout :
  kinv s → event_ok a s set0 x → caller s t th → set ≠ 0 → timeout < HALF →
  nz (Z.land opt RT_EVENT_FLAG_AND) = true ∨ nz (Z.land opt RT_EVENT_FLAG_OR) = true →
  wp (rt_event_recv a set opt timeout) (λ r s', kinv s' ∧
    (sat opt set set0 = true → r = Returned (RT_EOK, Some (Z.land set0 set)) ∧
       event_ok a s' (pending opt set set0) x) ∧
    (sat opt set set0 = false → timeout = 0 → r = Returned (- RT_ETIMEOUT, None) ∧ event_ok a s' set0 x) ∧
    (sat opt set set0 = false → timeout ≠ 0 → r = Blocked t ∧ event_ok a s' set0 x ∧
       blocked_post (HSuspend a) t (with_event set opt (with_error RT_EOK th)) (o_flag x) timeout s s')) s.
Proof.
  intros HI Hok Hca Hset Htime Hopt. pose proof Hca as (Hc & Ht & Hr & Hi).
  pose proof Hok as (Hx & He & Hun). pose proof Hx as (Hx1 & Hx2 & Hfl).
  pose proof (kinv_error s t th RT_EOK HI Ht) as HI1. pose proof (error_st_caller s t th RT_EOK Hca) as Hca1.
  unfold wp. rewrite (event_recv_prologue s a set0 x t th) by done. set (s1 := error_st t RT_EOK th s) in *.
  assert (∀ e u, u ∈ tlist (k_tl s) (HSuspend a) → k_thr (error_st t e th s) !! u = k_thr s !! u) as Hw.
  { intros e u Hu. unfold error_st, k_thr. cbn. rewrite lookup_insert_ne; [done|]. intros <-.
    eapply (active_unwaiting (k_sched s) t th (HSuspend a)); [apply HI|done|by right|done|done]. }
  assert (∀ s' set', k_objects s' = k_objects s → k_tl s' = k_tl s →
    (∀ u, u ∈ tlist (k_tl s) (HSuspend a) → k_thr s' !! u = k_thr s !! u) →
    ip_evt (k_ipc s') !! a = Some (mk_event set') → subset set' set0 → event_ok a s' set' x) as Hsame.
  { intros s' set' HO Hl Hthr Hev Hsub. apply (event_ok_intro a s); [done|intros b; unfold k_obj; by rewrite HO|done|].
    rewrite Hl. intros u Hu uh Huh. rewrite Hthr in Huh by done. apply (unsat_mono (k_thr s) set0 set' u); [done| |done].
    by apply Hun. }
  destruct (sat opt set set0) eqn:Hsat; [|destruct (Z.eqb_spec timeout 0) as [->|Htz]].
  - assert ((if nz (Z.land opt RT_EVENT_FLAG_CLEAR) then put_event a (Z.land set0 (u32 (Z.lnot set)))
      else ret tt) s1 = Some (tt, ev_st a (pending opt set set0) s1)) as E.
    { unfold pending. destruct (nz (Z.land opt RT_EVENT_FLAG_CLEAR)); [done|]. by rewrite ev_st_id. }
    unfold bind. rewrite E. cbn. refine (conj _ (conj _ (conj _ _))); [by apply kinv_ipc| |done|done].
    intros _. split; [done|]. apply Hsame; [done|done|by apply (Hw RT_EOK)|cbn; by rewrite lookup_insert_eq|].
    unfold pending. case_match; [apply subset_land|by intros i].
  - unfold bind. destruct Hca1 as (_ & Ht1 & _). rewrite (mod_thread_run s1 t (with_error RT_EOK th)) by done. cbn.
    refine (conj _ (conj _ (conj _ _))); [by apply (kinv_error s1 t (with_error RT_EOK th))|done| |done].
    intros _ _. split; [done|]. apply Hsame; [done|done| |done|by intros i].
    intros u Hu. unfold k_thr. cbn. rewrite insert_insert_eq. by apply (Hw (- RT_ETIMEOUT)).
  - destruct (event_block_run s a set0 x t th set opt timeout) as (s' & Hrun & Hok' & Hpost); [done..|].
    unfold s1. rewrite Hrun. refine (conj _ (conj _ (conj _ _))); [apply Hpost|done|lia|done].
Qed.

(** * Instances *)

Definition demo_ehdr : rt_object :=
  mk_object [] (RT_Object_Class_Event + RT_Object_Class_Static) RT_IPC_FLAG_PRIO.

(** An event at 100 with events 1 pending; thread 5 waits there for 2 and 4 (AND, CLEAR). *)
Definition demo_event : kst :=
  upd_sched (put_thr 5 (with_event 6 5 (demo_thread 5 RT_THREAD_SUSPEND)))
    (upd_objects (put_obj (Obj 100) demo_ehdr)
      (upd_ipc (set_evt (<[100 := mk_event 1]> ∅)) demo)).

Lemma demo_event_kinv : kinv demo_event.
Proof. apply kinv_check_sound. vm_compute. reflexivity. Qed.

Lemma demo_event_ok : event_ok 100 demo_event 1 demo_ehdr.
Proof.
  refine (conj (conj _ (conj _ (or_intror _))) (conj _ _)); [reflexivity..|].
  intros t Ht th Hth. assert (t ∈ [5]) as [->|[]%elem_of_nil]%elem_of_cons by exact Ht.
  vm_compute in Hth. injection Hth as <-. reflexivity.
Qed.

Lemma demo_event_caller : caller demo_event 1 (demo_thread 10 RT_THREAD_RUNNING).
Proof. split_and!; reflexivity. Qed.

Lemma rt_event_send_spec_witness :
  wp (rt_event_send 100 6) (λ r s', r = RT_EOK ∧ event_ok 100 s' 1 demo_ehdr ∧
    tlist (k_tl s') (HSuspend 100) = []) demo_event.
Proof.
  eapply wp_mono; [eapply (rt_event_send_spec demo_event 100 1 demo_ehdr 6);
    [apply demo_event_kinv|apply demo_event_ok|done]|].
  by intros r s' (? & _ & ? & ? & _).
Defined.

Lemma rt_event_recv_spec_witness :
  wp (rt_event_recv 100 3 RT_EVENT_FLAG_OR 0) (λ r s', r = Returned (RT_EOK, Some 1)) demo_event.
Proof.
  eapply wp_mono; [eapply (rt_event_recv_spec demo_event 100 1 demo_ehdr 1);
    [apply demo_event_kinv|apply demo_event_ok|apply demo_event_caller|done|by vm_compute|by right]|].
  intros r s' (_ & E & _). by apply E.
Defined.
