(* ===== verification/Mailbox.v ===== *)
(** Mailboxes, src/ipc.c: a ring of machine words with waiting receivers and senders. *)

From Stdlib Require Import ZArith Lia.
From stdpp Require Import base numbers option gmap.
From stdpp Require Import list sorting.
From S2P Require Import Prelude.
From S2P Require Import Kservice.
From S2P Require Import KernelDefs.
From S2P Require Import Scheduler.
From S2P Require Import Object.
From S2P Require Import Timer.
From S2P Require Import Thread.
From S2P Require Import Clock.
From S2P Require Import Ipc.
Local Open Scope Z_scope.
Local Open Scope rt_scope.

(** * Operations *)

Definition get_mb (a : Z) : K rt_mailbox := λ s,
  match ip_mb (k_ipc s) !! a with Some x => Some (x, s) | None => None end.
Definition put_mb (a : Z) (mb : rt_mailbox) : K unit :=
  modify (upd_ipc (λ i, set_mb (<[a := mb]> (ip_mb i)) i)).

Definition rt_mb_init (a : Z) (name : list Z) (msgpool : list Z) (size flag : Z) : K Z :=
  assert (nz a) ;;
  rt_object_init (Obj a) RT_Object_Class_MailBox name ;;
  mod_object (Obj a) (with_flag (u8 flag)) ;;
  rt_ipc_object_init (HSuspend a) ;;
  put_mb a (mk_mailbox msgpool (u16 size) 0 0 0) ;;
  rt_ipc_object_init (HSender a) ;;
  ret RT_EOK.

Definition rt_mb_detach (a : Z) : K Z :=
  assert_type (Obj a) RT_Object_Class_MailBox ;;
  b ← rt_object_is_systemobject (Obj a); assert b ;;
  rt_ipc_list_resume_all (HSuspend a) ;;
  rt_ipc_list_resume_all (HSender a) ;;
  rt_object_detach (Obj a) ;;
  ret RT_EOK.

(** What a blocked caller keeps on its stack: the thread, the timeout left and
    [tick_delta]. *)
Record mb_wait := mk_mb_wait { mw_thread : Z; mw_timeout : Z; mw_tick_delta : Z }.

(** The timeout left after a wait that began at [tick_delta]. *)
Definition timeout_left (timeout tick_delta now : Z) : Z :=
  if 0 <? timeout then
    let timeout := i32 (timeout - u32 (now - tick_delta)) in
    if timeout <? 0 then 0 else timeout
  else timeout.

(** The loop [while (mb->entry == mb->size)] of [rt_mb_send_wait] and the code behind
    it; [thread] is [RT_NULL] before the scheduler runs. *)
Definition mb_send_loop (a value : Z) (thread : option Z) (timeout : Z) : K (outcome Z mb_wait) :=
  mb ← get_mb a;
  if mb_entry mb =? mb_size mb then
    t ← from_opt thread;
    mod_thread t (with_error RT_EOK) ;;
    if timeout =? 0 then ret (Returned (- RT_EFULL))
    else
      RT_DEBUG_IN_THREAD_CONTEXT ;;
      x ← get_object (Obj a);
      tick_delta ← (if 0 <? timeout then rt_tick_get else ret 0);
      ipc_wait (HSender a) t (o_flag x) timeout ;;
      rt_schedule ;;
      ret (Blocked (mk_mb_wait t timeout tick_delta))
  else
    assert ((0 <=? mb_in_offset mb) && (mb_in_offset mb <? Z.of_nat (length (mb_msg_pool mb)))) ;;
    let in_offset := u16 (mb_in_offset mb + 1) in
    put_mb a (mk_mailbox (<[Z.to_nat (mb_in_offset mb) := u32 value]> (mb_msg_pool mb)) (mb_size mb)
                (u16 (mb_entry mb + 1)) (if mb_size mb <=? in_offset then 0 else in_offset)
                (mb_out_offset mb)) ;;
    l ← gets (λ s, tlist (k_tl s) (HSuspend a));
    (if decide (l ≠ []) then
       rt_ipc_list_resume (HSuspend a) ;; rt_schedule
     else ret tt) ;;
    ret (Returned RT_EOK).

Definition rt_mb_send_wait (a value timeout : Z) : K (outcome Z mb_wait) :=
  assert_type (Obj a) RT_Object_Class_MailBox ;;
  thread ← rt_thread_self;
  mb ← get_mb a;
  if (mb_entry mb =? mb_size mb) && (timeout =? 0) then ret (Returned (- RT_EFULL))
  else mb_send_loop a value thread timeout.

(** The rest of [rt_mb_send_wait] after [rt_schedule]: give up or go round the loop. *)
Definition rt_mb_send_resume (a value : Z) (w : mb_wait) : K (outcome Z mb_wait) :=
  th ← get_thread (mw_thread w);
  if negb (th_error th =? RT_EOK) then ret (Returned (th_error th))
  else
    now ← rt_tick_get;
    mb_send_loop a value (Some (mw_thread w)) (timeout_left (mw_timeout w) (mw_tick_delta w) now).

Definition rt_mb_send (a value : Z) : K (outcome Z mb_wait) := rt_mb_send_wait a value 0.

(** The loop of [rt_mb_recv]; the result is the error code and [*value]. *)
Definition mb_recv_loop (a : Z) (thread : option Z) (timeout : Z) : K (outcome (Z * option Z) mb_wait) :=
  mb ← get_mb a;
  if mb_entry mb =? 0 then
    t ← from_opt thread;
    mod_thread t (with_error RT_EOK) ;;
    if timeout =? 0 then
      mod_thread t (with_error (- RT_ETIMEOUT)) ;;
      ret (Returned (- RT_ETIMEOUT, None))
    else
      RT_DEBUG_IN_THREAD_CONTEXT ;;
      x ← get_object (Obj a);
      tick_delta ← (if 0 <? timeout then rt_tick_get else ret 0);
      ipc_wait (HSuspend a) t (o_flag x) timeout ;;
      rt_schedule ;;
      ret (Blocked (mk_mb_wait t timeout tick_delta))
  else
    value ← from_opt (mb_msg_pool mb !! Z.to_nat (mb_out_offset mb));
    let out_offset := u16 (mb_out_offset mb + 1) in
    put_mb a (mk_mailbox (mb_msg_pool mb) (mb_size mb) (u16 (mb_entry mb - 1)) (mb_in_offset mb)
                (if mb_size mb <=? out_offset then 0 else out_offset)) ;;
    l ← gets (λ s, tlist (k_tl s) (HSender a));
    (if decide (l ≠ []) then
       rt_ipc_list_resume (HSender a) ;; rt_schedule
     else ret tt) ;;
    ret (Returned (RT_EOK, Some value)).

Definition rt_mb_recv (a timeout : Z) : K (outcome (Z * option Z) mb_wait) :=
  assert_type (Obj a) RT_Object_Class_MailBox ;;
  thread ← rt_thread_self;
  mb ← get_mb a;
  if (mb_entry mb =? 0) && (timeout =? 0) then ret (Returned (- RT_ETIMEOUT, None))
  else mb_recv_loop a thread timeout.

Definition rt_mb_recv_resume (a : Z) (w : mb_wait) : K (outcome (Z * option Z) mb_wait) :=
  th ← get_thread (mw_thread w);
  if negb (th_error th =? RT_EOK) then ret (Returned (th_error th, None))
  else
    now ← rt_tick_get;
    mb_recv_loop a (Some (mw_thread w)) (timeout_left (mw_timeout w) (mw_tick_delta w) now).

Definition rt_mb_control (a cmd : Z) : K Z :=
  assert_type (Obj a) RT_Object_Class_MailBox ;;
  if cmd =? RT_IPC_CMD_RESET then
    rt_ipc_list_resume_all (HSuspend a) ;;
    rt_ipc_list_resume_all (HSender a) ;;
    mb ← get_mb a;
    put_mb a (mk_mailbox (mb_msg_pool mb) (mb_size mb) 0 0 0) ;;
    rt_schedule ;;
    ret RT_EOK
  else ret (- RT_ERROR).

(** * The ring as a bounded queue *)

Record mb_wf (mb : rt_mailbox) : Prop := {
  mw_size : 0 < mb_size mb < 2 ^ 16;
  mw_pool : Z.of_nat (length (mb_msg_pool mb)) = mb_size mb;
  mw_entry : 0 ≤ mb_entry mb ≤ mb_size mb;
  mw_out : 0 ≤ mb_out_offset mb < mb_size mb;
  mw_in : mb_in_offset mb = (mb_out_offset mb + mb_entry mb) mod mb_size mb
}.

(** The [i]-th stored word. *)
Definition slot (mb : rt_mailbox) (i : nat) : Z :=
  default 0 (mb_msg_pool mb !! Z.to_nat ((mb_out_offset mb + Z.of_nat i) mod mb_size mb)).

(** The stored words, oldest first. *)
Definition mails (mb : rt_mailbox) : list Z := slot mb <$> seq 0 (Z.to_nat (mb_entry mb)).

Definition mb_after_send (mb : rt_mailbox) (v : Z) : rt_mailbox :=
  mk_mailbox (<[Z.to_nat (mb_in_offset mb) := u32 v]> (mb_msg_pool mb)) (mb_size mb)
    (u16 (mb_entry mb + 1))
    (if mb_size mb <=? u16 (mb_in_offset mb + 1) then 0 else u16 (mb_in_offset mb + 1)) (mb_out_offset mb).

Definition mb_after_recv (mb : rt_mailbox) : rt_mailbox :=
  mk_mailbox (mb_msg_pool mb) (mb_size mb) (u16 (mb_entry mb - 1)) (mb_in_offset mb)
    (if mb_size mb <=? u16 (mb_out_offset mb + 1) then 0 else u16 (mb_out_offset mb + 1)).

Lemma mod_small_or a n : 0 ≤ a < 2 * n → a mod n = if n <=? a then a - n else a.
Proof.
  intros Ha. destruct (Z.leb_spec n a).
  - symmetry. apply (Z.mod_unique a n 1); lia.
  - apply Z.mod_small. lia.
Qed.

(** Advancing an index of the ring. *)
Lemma advance_index size i : 0 < size < 2 ^ 16 → 0 ≤ i < size →
  (if size <=? u16 (i + 1) then 0 else u16 (i + 1)) = (i + 1) mod size.
Proof.
  intros Hs Hi. rewrite (wrap_small 16) by lia. rewrite mod_small_or by lia.
  destruct (Z.leb_spec size (i + 1)); lia.
Qed.

Lemma mb_in_range mb : mb_wf mb → 0 ≤ mb_in_offset mb < mb_size mb.
Proof. intros []. rewrite mw_in0. apply Z.mod_pos_bound. lia. Qed.

Lemma after_send_wf mb v : mb_wf mb → mb_entry mb < mb_size mb → mb_wf (mb_after_send mb v).
Proof.
  intros Hw He. pose proof (mb_in_range mb Hw) as Hi. destruct Hw as [Hs Hp Hen Ho Hin].
  split; cbn; rewrite ?(wrap_small 16 (mb_entry mb + 1)) by lia; try lia.
  - by rewrite length_insert.
  - rewrite advance_index by lia. rewrite Hin, Zplus_mod_idemp_l. f_equal. lia.
Qed.

Lemma after_recv_wf mb : mb_wf mb → 0 < mb_entry mb → mb_wf (mb_after_recv mb).
Proof.
  intros Hw He. destruct Hw as [Hs Hp Hen Ho Hin].
  split; cbn; rewrite ?(wrap_small 16 (mb_entry mb - 1)) by lia; try lia.
  - rewrite advance_index by lia. apply Z.mod_pos_bound. lia.
  - rewrite advance_index by lia. rewrite Zplus_mod_idemp_l, Hin. f_equal. lia.
Qed.

(** A send appends at the end of the queue. *)
Lemma mails_send mb v :
  mb_wf mb → mb_entry mb < mb_size mb → mails (mb_after_send mb v) = mails mb ++ [u32 v].
Proof.
  intros Hw He. pose proof (mb_in_range mb Hw) as Hi. destruct Hw as [Hs Hp Hen Ho Hin].
  unfold mails. cbn [mb_after_send mb_entry]. rewrite (wrap_small 16) by lia.
  replace (Z.to_nat (mb_entry mb + 1)) with (S (Z.to_nat (mb_entry mb))) by lia.
  rewrite seq_S, fmap_app. cbn [fmap list_fmap]. f_equal.
  - apply list_fmap_ext. intros k i Hk. apply lookup_seq in Hk as [-> Hk]. cbn.
    unfold slot. cbn. rewrite list_lookup_insert_ne; [done|]. intros E.
    pose proof (Z.mod_pos_bound (mb_out_offset mb + Z.of_nat k) (mb_size mb)).
    apply (f_equal Z.of_nat) in E. rewrite !Z2Nat.id in E by lia.
    rewrite Hin, !mod_small_or in E by lia.
    destruct (Z.leb_spec (mb_size mb) (mb_out_offset mb + mb_entry mb)),
      (Z.leb_spec (mb_size mb) (mb_out_offset mb + Z.of_nat k)); lia.
  - unfold slot. cbn. rewrite Z2Nat.id by lia. rewrite <- Hin.
    by rewrite list_lookup_insert_eq by lia.
Qed.

(** A receive takes the oldest word. *)
Lemma mails_recv mb :
  mb_wf mb → 0 < mb_entry mb →
  ∃ v, mb_msg_pool mb !! Z.to_nat (mb_out_offset mb) = Some v ∧ mails mb = v :: mails (mb_after_recv mb).
Proof.
  intros Hw He. destruct Hw as [Hs Hp Hen Ho Hin].
  destruct (lookup_lt_is_Some_2 (mb_msg_pool mb) (Z.to_nat (mb_out_offset mb))) as [v Hv]; [lia|].
  exists v. split; [done|]. unfold mails. cbn [mb_after_recv mb_entry]. rewrite (wrap_small 16) by lia.
  replace (Z.to_nat (mb_entry mb)) with (S (Z.to_nat (mb_entry mb - 1))) by lia.
  cbn [seq fmap list_fmap]. f_equal.
  - unfold slot. rewrite Z.add_0_r, Z.mod_small by lia. by rewrite Hv.
  - rewrite <- fmap_S_seq, <- list_fmap_compose. apply list_fmap_ext. intros k i _. cbn.
    unfold slot. cbn. rewrite advance_index by lia. do 2 f_equal.
    rewrite Zplus_mod_idemp_l. do 2 f_equal. lia.
Qed.

(** * Properties *)

Definition mb_ok (a : Z) (s : kst) (mb : rt_mailbox) (x : rt_object) : Prop :=
  ipc_obj RT_Object_Class_MailBox a s x ∧ ip_mb (k_ipc s) !! a = Some mb ∧ mb_wf mb.

Lemma get_mb_run s a mb : ip_mb (k_ipc s) !! a = Some mb → get_mb a s = Some (mb, s).
Proof. intros H. unfold get_mb. by rewrite H. Qed.

Definition mb_st (a : Z) (mb : rt_mailbox) (s : kst) : kst :=
  upd_ipc (λ i, set_mb (<[a := mb]> (ip_mb i)) i) s.

Lemma mb_ok_keep a s s' mb x :
  ipc_obj RT_Object_Class_MailBox a s x → ip_mb (k_ipc s') !! a = Some mb →
  (∀ b, k_obj s' !! Obj b = k_obj s !! Obj b) → mb_wf mb → mb_ok a s' mb x.
Proof. intros Hx Hm Hob Hw. refine (conj _ (conj Hm Hw)). unfold ipc_obj. by rewrite Hob. Qed.

(** Storing a word in a mailbox that is not full. *)
Lemma mb_store_run s a mb x value thread timeout :
  kinv s → mb_ok a s mb x → mb_entry mb < mb_size mb →
  ∃ s', mb_send_loop a value thread timeout s = Some (Returned RT_EOK, s') ∧
    mb_ok a s' (mb_after_send mb value) x ∧
    notified (HSuspend a) (mb_st a (mb_after_send mb value) s) s'.
Proof.
  intros HI (Hx & Hm & Hw) He. set (s1 := mb_st a (mb_after_send mb value) s).
  assert (kinv s1) as HI1 by by apply kinv_ipc.
  destruct (notify_run (Returned (C := mb_wait) RT_EOK) s1 (HSuspend a) HI1 I) as (s' & Hrun & Hnot).
  pose proof (mb_in_range mb Hw) as Hi. pose proof (mw_pool _ Hw) as Hp. exists s'.
  refine (conj _ (conj _ Hnot)).
  - unfold mb_send_loop, bind at 1. rewrite (get_mb_run s a mb) by done.
    rewrite (proj2 (Z.eqb_neq _ _)) by lia. unfold bind at 1, assert.
    rewrite (proj2 (Z.leb_le _ _)), (proj2 (Z.ltb_lt _ _)) by lia. cbn [andb].
    unfold bind at 1, put_mb, modify. exact Hrun.
  - destruct Hnot as (_ & Hip & Hob & _). eapply (mb_ok_keep a s); [done| |done|by apply after_send_wf].
    rewrite Hip. cbn. by rewrite lookup_insert_eq.
Qed.

(** Blocking on a full mailbox. *)
Lemma mb_send_block_run s a mb x value t th timeout :
  kinv s → mb_ok a s mb x → mb_entry mb = mb_size mb → caller s t th → timeout ≠ 0 → timeout < HALF →
  ∃ s' d, mb_send_loop a value (Some t) timeout s = Some (Blocked (mk_mb_wait t timeout d), s') ∧
    (0 < timeout → d = k_tick s) ∧ mb_ok a s' mb x ∧
    blocked_post (HSender a) t (with_error RT_EOK th) (o_flag x) timeout s s'.
Proof.
  intros HI (Hx & Hm & Hw) He Hca Htz Htime. pose proof Hx as (Hx1 & Hx2 & Hfl).
  pose proof Hca as (Hc & Ht & _ & _). pose proof (error_st_caller s t th RT_EOK Hca) as Hca1.
  destruct (block_caller_run (error_st t RT_EOK th s) (HSender a) t (with_error RT_EOK th) (o_flag x) timeout)
    as (s' & Hrun & Hpost); [by apply kinv_error|done|done|done|done|].
  apply (blocked_post_from s t th) in Hpost; [|done..].
  exists s', (if 0 <? timeout then k_tick s else 0). refine (conj _ (conj _ (conj _ Hpost))).
  - unfold mb_send_loop, bind at 1. rewrite (get_mb_run s a mb) by done. rewrite He, Z.eqb_refl.
    unfold bind at 1, from_opt. unfold bind at 1. rewrite (mod_thread_run s t th) by done.
    fold (error_st t RT_EOK th s). rewrite (proj2 (Z.eqb_neq _ _) Htz).
    unfold bind at 1. rewrite (thread_context_run _ t (with_error RT_EOK th)) by done.
    unfold bind at 1, get_object. change (k_obj (error_st t RT_EOK th s)) with (k_obj s). rewrite Hx1.
    unfold bind at 1.
    assert ((if 0 <? timeout then rt_tick_get else ret 0) (error_st t RT_EOK th s) =
      Some (if 0 <? timeout then k_tick s else 0, error_st t RT_EOK th s)) as ->
      by (by destruct (0 <? timeout)).
    revert Hrun. unfold bind. destruct (ipc_wait _ _ _ _ _) as [[[] s2]|]; [|done]. by intros ->.
  - intros Hpos. by rewrite (proj2 (Z.ltb_lt _ _) Hpos).
  - destruct Hpost as (_ & Hip & Hob & _). eapply (mb_ok_keep a s); [done|by rewrite Hip|done|done].
Qed.

(** C34: [rt_mb_send_wait], in all its cases: a mailbox with room takes the word at the
    end of its queue and wakes the first waiting receiver; a full one is reported with
    [-RT_EFULL] when the caller will not wait, or queues the caller among the senders.
    The mailbox refines a bounded queue throughout. *)
Theorem rt_mb_send_wait_spec s a mb x value t th timeout :
  kinv s → mb_ok a s mb x → caller s t th → timeout < HALF →
  wp (rt_mb_send_wait a value timeout) (λ r s', kinv s' ∧
    (mb_entry mb < mb_size mb → r = Returned RT_EOK ∧ ∃ mb', mb_ok a s' mb' x ∧
       mails mb' = mails mb ++ [u32 value] ∧ notified (HSuspend a) (mb_st a mb' s) s') ∧
    (mb_entry mb = mb_size mb → timeout = 0 → r = Returned (- RT_EFULL) ∧ s' = s) ∧
    (mb_entry mb = mb_size mb → timeout ≠ 0 → mb_ok a s' mb x ∧
       (∃ d, r = Blocked (mk_mb_wait t timeout d)) ∧
       blocked_post (HSender a) t (with_error RT_EOK th) (o_flag x) timeout s s')) s.
Proof.
  intros HI Hok Hca Htime. pose proof Hok as ((Hx1 & Hx2 & _) & Hm & Hw). pose proof Hca as (Hc & _).
  unfold wp, rt_mb_send_wait, bind at 1. rewrite (assert_type_run s (Obj a) x) by done.
  unfold bind at 1, rt_thread_self, gets. rewrite Hc. unfold bind at 1. rewrite (get_mb_run s a mb) by done.
  pose proof (mw_entry _ Hw). destruct (Z.eqb_spec (mb_entry mb) (mb_size mb)) as [E|E]; cbn [andb].
  - destruct (Z.eqb_spec timeout 0) as [->|Htz]; [split_and!; [done|lia|done|done]|].
    destruct (mb_send_block_run s a mb x value t th timeout HI Hok E Hca Htz Htime)
      as (s' & d & -> & _ & Hok' & Hpost).
    refine (conj _ (conj _ (conj _ _))); [apply Hpost|lia|lia|]. eauto.
  - destruct (mb_store_run s a mb x value (Some t) timeout HI Hok ltac:(lia)) as (s' & -> & Hok' & Hnot).
    refine (conj _ (conj _ (conj _ _))); [apply Hnot| |lia|lia]. intros He. split; [done|].
    exists (mb_after_send mb value). split; [done|]. split; [by apply mails_send|done].
Qed.

(** Taking a word out of a mailbox that is not empty. *)
Lemma mb_fetch_run s a mb x thread timeout :
  kinv s → mb_ok a s mb x → 0 < mb_entry mb →
  ∃ v s', mb_recv_loop a thread timeout s = Some (Returned (RT_EOK, Some v), s') ∧
    mails mb = v :: mails (mb_after_recv mb) ∧ mb_ok a s' (mb_after_recv mb) x ∧
    notified (HSender a) (mb_st a (mb_after_recv mb) s) s'.
Proof.
  intros HI (Hx & Hm & Hw) He. destruct (mails_recv mb Hw He) as (v & Hv & Hmails).
  set (s1 := mb_st a (mb_after_recv mb) s). assert (kinv s1) as HI1 by by apply kinv_ipc.
  destruct (notify_run (Returned (C := mb_wait) (RT_EOK, Some v)) s1 (HSender a) HI1 I) as (s' & Hrun & Hnot).
  exists v, s'. refine (conj _ (conj Hmails (conj _ Hnot))).
  - unfold mb_recv_loop, bind at 1. rewrite (get_mb_run s a mb) by done.
    rewrite (proj2 (Z.eqb_neq _ _)) by lia. unfold bind at 1, from_opt. rewrite Hv.
    unfold bind at 1, put_mb, modify. exact Hrun.
  - destruct Hnot as (_ & Hip & Hob & _). eapply (mb_ok_keep a s); [done| |done|by apply after_recv_wf].
    rewrite Hip. cbn. by rewrite lookup_insert_eq.
Qed.

(** Blocking on an empty mailbox. *)
Lemma mb_recv_block_run s a mb x t th timeout :
  kinv s → mb_ok a s mb x → mb_entry mb = 0 → caller s t th → timeout ≠ 0 → timeout < HALF →
  ∃ s' d, mb_recv_loop a (Some t) timeout s = Some (Blocked (mk_mb_wait t timeout d), s') ∧
    mb_ok a s' mb x ∧ blocked_post (HSuspend a) t (with_error RT_EOK th) (o_flag x) timeout s s'.
Proof.
  intros HI (Hx & Hm & Hw) He Hca Htz Htime. pose proof Hx as (Hx1 & Hx2 & Hfl).
  pose proof Hca as (Hc & Ht & _ & _). pose proof (error_st_caller s t th RT_EOK Hca) as Hca1.
  destruct (block_caller_run (error_st t RT_EOK th s) (HSuspend a) t (with_error RT_EOK th) (o_flag x) timeout)
    as (s' & Hrun & Hpost); [by apply kinv_error|done|done|done|done|].
  apply (blocked_post_from s t th) in Hpost; [|done..].
  exists s', (if 0 <? timeout then k_tick s else 0). refine (conj _ (conj _ Hpost)).
  - unfold mb_recv_loop, bind at 1. rewrite (get_mb_run s a mb) by done. rewrite He, Z.eqb_refl.
    unfold bind at 1, from_opt. unfold bind at 1. rewrite (mod_thread_run s t th) by done.
    fold (error_st t RT_EOK th s). rewrite (proj2 (Z.eqb_neq _ _) Htz).
    unfold bind at 1. rewrite (thread_context_run _ t (with_error RT_EOK th)) by done.
    unfold bind at 1, get_object. change (k_obj (error_st t RT_EOK th s)) with (k_obj s). rewrite Hx1.
    unfold bind at 1.
    assert ((if 0 <? timeout then rt_tick_get else ret 0) (error_st t RT_EOK th s) =
      Some (if 0 <? timeout then k_tick s else 0, error_st t RT_EOK th s)) as ->
      by (by destruct (0 <? timeout)).
    revert Hrun. unfold bind. destruct (ipc_wait _ _ _ _ _) as [[[] s2]|]; [|done]. by intros ->.
  - destruct Hpost as (_ & Hip & Hob & _). eapply (mb_ok_keep a s); [done|by rewrite Hip|done|done].
Qed.

(** [rt_mb_recv], in all its cases: the oldest word is returned and removed and the
    first waiting sender woken; an empty mailbox gives [-RT_ETIMEOUT] to a caller that
    will not wait and queues any other. *)
Theorem rt_mb_recv_spec s a mb x t th timeout :
  kinv s → mb_ok a s mb x → caller s t th → timeout < HALF →
  wp (rt_mb_recv a timeout) (λ r s', kinv s' ∧
    (∀ v rest, mails mb = v :: rest → r = Returned (RT_EOK, Some v) ∧ ∃ mb', mb_ok a s' mb' x ∧
       mails mb' = rest ∧ notified (HSender a) (mb_st a mb' s) s') ∧
    (mails mb = [] → timeout = 0 → r = Returned (- RT_ETIMEOUT, None) ∧ s' = s) ∧
    (mails mb = [] → timeout ≠ 0 → mb_ok a s' mb x ∧
       (∃ d, r = Blocked (mk_mb_wait t timeout d)) ∧
       blocked_post (HSuspend a) t (with_error RT_EOK th) (o_flag x) timeout s s')) s.
Proof.
  intros HI Hok Hca Htime. pose proof Hok as ((Hx1 & Hx2 & _) & Hm & Hw). pose proof Hca as (Hc & _).
  unfold wp, rt_mb_recv, bind at 1. rewrite (assert_type_run s (Obj a) x) by done.
  unfold bind at 1, rt_thread_self, gets. rewrite Hc. unfold bind at 1. rewrite (get_mb_run s a mb) by done.
  pose proof (mw_entry _ Hw). destruct (Z.eqb_spec (mb_entry mb) 0) as [E|E]; cbn [andb].
  - assert (mails mb = []) as -> by (unfold mails; by rewrite E).
    destruct (Z.eqb_spec timeout 0) as [->|Htz]; [split_and!; done|].
    destruct (mb_recv_block_run s a mb x t th timeout HI Hok E Hca Htz Htime) as (s' & d & -> & Hok' & Hpost).
    refine (conj _ (conj _ (conj _ _))); [apply Hpost|done|lia|]. eauto.
  - destruct (mb_fetch_run s a mb x (Some t) timeout HI Hok ltac:(lia)) as (v & s' & -> & Hv & Hok' & Hnot).
    rewrite Hv. refine (conj _ (conj _ (conj _ _))); [apply Hnot| |done|done].
    intros v0 rest [= <- <-]. split; [done|]. by exists (mb_after_recv mb).
Qed.

(** A word sent into an empty mailbox that nobody waits for is the word the next
    receive returns, and the mailbox is empty again. *)
Theorem rt_mb_send_recv s a mb x value t th :
  kinv s → mb_ok a s mb x → caller s t th → mb_entry mb = 0 →
  tlist (k_tl s) (HSuspend a) = [] → tlist (k_tl s) (HSender a) = [] →
  wp (rt_mb_send a value ;; rt_mb_recv a 0) (λ r s', r = Returned (RT_EOK, Some (u32 value)) ∧
    ∃ mb', mb_ok a s' mb' x ∧ mails mb' = []) s.
Proof.
  intros HI Hok Hca He Hr Hs. pose proof Hok as ((Hx1 & Hx2 & Hfl) & Hm & Hw). pose proof Hca as (Hc & _).
  pose proof (mw_size _ Hw).
  destruct (mb_store_run s a mb x value (Some t) 0 HI Hok ltac:(lia)) as (s1 & Hr1 & Hok1 & Hnot1).
  pose proof Hok1 as ((Hy1 & Hy2 & _) & Hm1 & Hw1).
  destruct Hnot1 as (HI1 & _ & _ & Hsame & _). specialize (Hsame Hr).
  destruct (mb_fetch_run s1 a _ x (Some t) 0 HI1 Hok1) as (v & s2 & Hr2 & Hv & Hok2 & _).
  { cbn. rewrite (wrap_small 16); lia. }
  rewrite mails_send in Hv by (done || lia).
  assert (mails mb = []) as Hnil by (unfold mails; by rewrite He). rewrite Hnil in Hv. injection Hv as <- Hv.
  unfold wp, bind at 1. unfold rt_mb_send, rt_mb_send_wait, bind at 1. rewrite (assert_type_run s (Obj a) x) by done.
  unfold bind at 1, rt_thread_self, gets. rewrite Hc. unfold bind at 1. rewrite (get_mb_run s a mb) by done.
  rewrite (proj2 (Z.eqb_neq _ _)) by lia. cbn [andb]. rewrite Hr1.
  unfold rt_mb_recv, bind at 1. rewrite (assert_type_run s1 (Obj a) x) by done.
  unfold bind at 1, rt_thread_self, gets. assert (k_cur s1 = Some t) as -> by (by rewrite Hsame).
  unfold bind at 1. rewrite (get_mb_run s1 a (mb_after_send mb value)) by done.
  rewrite (proj2 (Z.eqb_neq _ _)) by (cbn; rewrite (wrap_small 16); lia). cbn [andb]. rewrite Hr2.
  split; [done|]. by exists (mb_after_recv (mb_after_send mb value)).
Qed.

(** * Instances *)

Definition demo_bhdr : rt_object :=
  mk_object [] (RT_Object_Class_MailBox + RT_Object_Class_Static) RT_IPC_FLAG_FIFO.

(** A mailbox at 101 holding 7 and 8 in three slots, its queue wrapped around, and an
    empty one at 102. *)
Definition demo_mb : kst :=
  upd_objects (λ O, put_obj (Obj 101) demo_bhdr (put_obj (Obj 102) demo_bhdr O))
    (upd_ipc (set_mb (<[101 := mk_mailbox [8; 0; 7] 3 2 1 2]>
       (<[102 := mk_mailbox [0; 0] 2 0 1 1]> ∅))) demo).

Lemma demo_mb_kinv : kinv demo_mb.
Proof. apply kinv_check_sound. vm_compute. reflexivity. Qed.

Lemma demo_mb_ok : mb_ok 101 demo_mb (mk_mailbox [8; 0; 7] 3 2 1 2) demo_bhdr ∧
  mb_ok 102 demo_mb (mk_mailbox [0; 0] 2 0 1 1) demo_bhdr.
Proof.
  split; (refine (conj (conj _ (conj _ (or_introl _))) (conj _ _)); [reflexivity..|];
    split; cbn; lia || reflexivity).
Qed.

Lemma demo_mb_caller : caller demo_mb 1 (demo_thread 10 RT_THREAD_RUNNING).
Proof. split_and!; reflexivity. Qed.

Lemma rt_mb_send_wait_spec_witness :
  wp (rt_mb_send_wait 101 9 5) (λ r s', r = Returned RT_EOK ∧
    ∃ mb', mb_ok 101 s' mb' demo_bhdr ∧ mails mb' = [7; 8; 9]) demo_mb.
Proof.
  eapply wp_mono; [eapply (rt_mb_send_wait_spec demo_mb 101 (mk_mailbox [8; 0; 7] 3 2 1 2) demo_bhdr 9 1);
    [apply demo_mb_kinv|apply demo_mb_ok|apply demo_mb_caller|by vm_compute]|].
  intros r s' (_ & E & _). destruct E as (? & mb' & ? & Hm & _); [done|]. split; [done|].
  exists mb'. split; [done|]. rewrite Hm. reflexivity.
Defined.

Lemma rt_mb_recv_spec_witness :
  wp (rt_mb_recv 101 0) (λ r s', r = Returned (RT_EOK, Some 7)) demo_mb.
Proof.
  eapply wp_mono; [eapply (rt_mb_recv_spec demo_mb 101 (mk_mailbox [8; 0; 7] 3 2 1 2) demo_bhdr 1);
    [apply demo_mb_kinv|apply demo_mb_ok|apply demo_mb_caller|by vm_compute]|].
  intros r s' (_ & E & _). by apply (E 7 [8]).
Defined.

Lemma rt_mb_send_recv_witness :
  wp (rt_mb_send 102 33 ;; rt_mb_recv 102 0) (λ r _, r = Returned (RT_EOK, Some 33)) demo_mb.
Proof.
  eapply wp_mono; [eapply (rt_mb_send_recv demo_mb 102 (mk_mailbox [0; 0] 2 0 1 1) demo_bhdr 33 1);
    [apply demo_mb_kinv|apply demo_mb_ok|apply demo_mb_caller|reflexivity|reflexivity|reflexivity]|].
  by intros r s' [? _].
Defined.
