(* ===== verification/MsgQueue.v ===== *)
(** Message queues, src/ipc.c: fixed-size blocks linked into a queue and a free list.
    The routines leave the interrupt mask between taking a block from one list and
    putting it on the other, so a block can be in neither list; the representation
    predicate accounts for these blocks and every critical section is a definition
    of its own. *)

From Stdlib Require Import ZArith Lia.
From stdpp Require Import base numbers option gmap.
From stdpp Require Import list sorting.
From S2P Require Import Prelude.
From S2P Require Import Kservice.
From S2P Require Import KernelDefs.
From S2P Require Import Scheduler.
From S2P Require Import Object.
From S2P Require Import Timer.
From S2P Require Import Thread.
From S2P Require Import Clock.
From S2P Require Import Ipc.
From S2P Require Import Mailbox.
Local Open Scope Z_scope.
Local Open Scope rt_scope.

(** * The block lists *)

Abbreviation Q := (M rt_messagequeue).

Definition with_pool (p : list rt_mq_message) (mq : rt_messagequeue) : rt_messagequeue :=
  mk_mq p (mq_msg_size mq) (mq_max_msgs mq) (mq_entry mq) (mq_queue_head mq) (mq_queue_tail mq) (mq_queue_free mq).
Definition with_entry (n : Z) (mq : rt_messagequeue) : rt_messagequeue :=
  mk_mq (mq_msg_pool mq) (mq_msg_size mq) (mq_max_msgs mq) n (mq_queue_head mq) (mq_queue_tail mq) (mq_queue_free mq).
Definition with_head (p : option nat) (mq : rt_messagequeue) : rt_messagequeue :=
  mk_mq (mq_msg_pool mq) (mq_msg_size mq) (mq_max_msgs mq) (mq_entry mq) p (mq_queue_tail mq) (mq_queue_free mq).
Definition with_tail (p : option nat) (mq : rt_messagequeue) : rt_messagequeue :=
  mk_mq (mq_msg_pool mq) (mq_msg_size mq) (mq_max_msgs mq) (mq_entry mq) (mq_queue_head mq) p (mq_queue_free mq).
Definition with_free (p : option nat) (mq : rt_messagequeue) : rt_messagequeue :=
  mk_mq (mq_msg_pool mq) (mq_msg_size mq) (mq_max_msgs mq) (mq_entry mq) (mq_queue_head mq) (mq_queue_tail mq) p.

(** Access to the block at index [i]. *)
Definition get_block (i : nat) : Q rt_mq_message := λ mq,
  match mq_msg_pool mq !! i with Some m => Some (m, mq) | None => None end.
Definition mod_block (i : nat) (f : rt_mq_message → rt_mq_message) : Q unit := λ mq,
  match mq_msg_pool mq !! i with
  | Some m => Some (tt, with_pool (<[i := f m]> (mq_msg_pool mq)) mq)
  | None => None
  end.
(** [msg->next = p] *)
Definition set_next (i : nat) (p : option nat) : Q unit :=
  mod_block i (λ m, mk_msg p (msg_data m)).
(** [rt_memcpy(msg + 1, buffer, size)] *)
Definition set_data (i : nat) (buffer : list Z) (size : Z) : Q unit :=
  mod_block i (λ m, mk_msg (msg_next m)
    (take (Z.to_nat size) buffer ++ drop (Z.to_nat size) (msg_data m))).

(** ** The critical sections *)

(** The loop of [rt_mq_init]: block [temp] is pushed on the free list. *)
Fixpoint mq_init_loop (n temp : nat) : Q unit :=
  match n with
  | O => ret tt
  | S n' =>
      free ← gets mq_queue_free;
      set_next temp free ;;
      modify (with_free (Some temp)) ;;
      mq_init_loop n' (S temp)
  end.

(** [msg = mq->msg_queue_free; ... mq->msg_queue_free = msg->next] *)
Definition mq_alloc : Q (option nat) :=
  msg ← gets mq_queue_free;
  match msg with
  | None => ret None
  | Some i => m ← get_block i; modify (with_free (msg_next m)) ;; ret (Some i)
  end.

(** The second critical section of [rt_mq_send] up to [mq->entry ++]. *)
Definition mq_append (i : nat) : Q unit :=
  tail ← gets mq_queue_tail;
  match tail with Some t => set_next t (Some i) | None => ret tt end ;;
  modify (with_tail (Some i)) ;;
  head ← gets mq_queue_head;
  (if decide (head = None) then modify (with_head (Some i)) else ret tt) ;;
  entry ← gets mq_entry;
  modify (with_entry (u16 (entry + 1))).

(** The second critical section of [rt_mq_urgent] up to [mq->entry ++]. *)
Definition mq_prepend (i : nat) : Q unit :=
  head ← gets mq_queue_head;
  set_next i head ;;
  modify (with_head (Some i)) ;;
  tail ← gets mq_queue_tail;
  (if decide (tail = None) then modify (with_tail (Some i)) else ret tt) ;;
  entry ← gets mq_entry;
  modify (with_entry (u16 (entry + 1))).

(** The removal of the first message, shared by [rt_mq_recv] and [rt_mq_control]. *)
Definition mq_unlink_head : Q nat :=
  head ← gets mq_queue_head;
  i ← from_opt head;
  m ← get_block i;
  modify (with_head (msg_next m)) ;;
  tail ← gets mq_queue_tail;
  (if decide (tail = Some i) then modify (with_tail None) else ret tt) ;;
  ret i.

(** The first critical section of [rt_mq_recv] behind its loop. *)
Definition mq_take : Q nat :=
  i ← mq_unlink_head;
  entry ← gets mq_entry;
  modify (with_entry (u16 (entry - 1))) ;;
  ret i.

(** The second critical section of [rt_mq_recv]: the block goes back to the free list. *)
Definition mq_release (i : nat) : Q unit :=
  free ← gets mq_queue_free;
  set_next i free ;;
  modify (with_free (Some i)).

(** The loop of [rt_mq_control]; every iteration shortens the queue. *)
Fixpoint mq_reset_loop (fuel : nat) : Q unit :=
  match fuel with
  | O => λ _, None
  | S fuel' =>
      head ← gets mq_queue_head;
      if decide (head = None) then ret tt
      else i ← mq_unlink_head; mq_release i ;; mq_reset_loop fuel'
  end.

(** * Operations *)

Definition get_mq (a : Z) : K rt_messagequeue := λ s,
  match ip_mq (k_ipc s) !! a with Some x => Some (x, s) | None => None end.
Definition put_mq (a : Z) (mq : rt_messagequeue) : K unit :=
  modify (upd_ipc (λ i, set_mq (<[a := mq]> (ip_mq i)) i)).
(** Runs a critical section on the queue at [a]. *)
Definition on_mq {A} (a : Z) (m : Q A) : K A := λ s,
  match ip_mq (k_ipc s) !! a with
  | None => None
  | Some mq =>
      match m mq with
      | Some (r, mq') => Some (r, upd_ipc (λ i, set_mq (<[a := mq']> (ip_mq i)) i) s)
      | None => None
      end
  end.

(** [sizeof(struct rt_mq_message)] *)
Definition sizeof_rt_mq_message : Z := 4.

(** [msgpool] is the memory at the pool's address, block by block. *)
Definition rt_mq_init (a : Z) (name : list Z) (msgpool : list rt_mq_message)
    (msg_size pool_size flag : Z) : K Z :=
  assert (nz a) ;;
  rt_object_init (Obj a) RT_Object_Class_MessageQueue name ;;
  mod_object (Obj a) (with_flag (u8 flag)) ;;
  rt_ipc_object_init (HSuspend a) ;;
  let msg_size' := u16 (RT_ALIGN msg_size 4) in
  let max_msgs := u16 (pool_size / (msg_size' + sizeof_rt_mq_message)) in
  put_mq a (mk_mq msgpool msg_size' max_msgs 0 None None None) ;;
  on_mq a (mq_init_loop (Z.to_nat max_msgs) 0) ;;
  on_mq a (modify (with_entry 0)) ;;
  ret RT_EOK.

Definition rt_mq_detach (a : Z) : K Z :=
  assert_type (Obj a) RT_Object_Class_MessageQueue ;;
  b ← rt_object_is_systemobject (Obj a); assert b ;;
  rt_ipc_list_resume_all (HSuspend a) ;;
  rt_object_detach (Obj a) ;;
  ret RT_EOK.

(** [buffer] is the memory the caller's pointer designates. *)
Definition rt_mq_send (a : Z) (buffer : list Z) (size : Z) : K Z :=
  assert_type (Obj a) RT_Object_Class_MessageQueue ;;
  assert (nz size) ;;
  assert (size <=? Z.of_nat (length buffer)) ;;
  mq ← get_mq a;
  if mq_msg_size mq <? size then ret (- RT_ERROR)
  else
    msg ← on_mq a mq_alloc;
    match msg with
    | None => ret (- RT_EFULL)
    | Some i =>
        on_mq a (set_next i None) ;;
        on_mq a (set_data i buffer size) ;;
        on_mq a (mq_append i) ;;
        l ← gets (λ s, tlist (k_tl s) (HSuspend a));
        (if decide (l ≠ []) then
           rt_ipc_list_resume (HSuspend a) ;; rt_schedule
         else ret tt) ;;
        ret RT_EOK
    end.

Definition rt_mq_urgent (a : Z) (buffer : list Z) (size : Z) : K Z :=
  assert_type (Obj a) RT_Object_Class_MessageQueue ;;
  assert (nz size) ;;
  assert (size <=? Z.of_nat (length buffer)) ;;
  mq ← get_mq a;
  if mq_msg_size mq <? size then ret (- RT_ERROR)
  else
    msg ← on_mq a mq_alloc;
    match msg with
    | None => ret (- RT_EFULL)
    | Some i =>
        on_mq a (set_data i buffer size) ;;
        on_mq a (mq_prepend i) ;;
        l ← gets (λ s, tlist (k_tl s) (HSuspend a));
        (if decide (l ≠ []) then
           rt_ipc_list_resume (HSuspend a) ;; rt_schedule
         else ret tt) ;;
        ret RT_EOK
    end.

(** The loop [while (mq->entry == 0)] of [rt_mq_recv] and the code behind it; the
    result is the error code and the bytes written to the caller's buffer. *)
Definition mq_recv_loop (a size : Z) (thread : option Z) (timeout : Z)
    : K (outcome (Z * list Z) mb_wait) :=
  mq ← get_mq a;
  if mq_entry mq =? 0 then
    RT_DEBUG_IN_THREAD_CONTEXT ;;
    t ← from_opt thread;
    mod_thread t (with_error RT_EOK) ;;
    if timeout =? 0 then
      mod_thread t (with_error (- RT_ETIMEOUT)) ;;
      ret (Returned (- RT_ETIMEOUT, []))
    else
      x ← get_object (Obj a);
      tick_delta ← (if 0 <? timeout then rt_tick_get else ret 0);
      ipc_wait (HSuspend a) t (o_flag x) timeout ;;
      rt_schedule ;;
      ret (Blocked (mk_mb_wait t timeout tick_delta))
  else
    i ← on_mq a mq_take;
    m ← on_mq a (get_block i);
    let n := if mq_msg_size mq <? size then mq_msg_size mq else size in
    on_mq a (mq_release i) ;;
    ret (Returned (RT_EOK, take (Z.to_nat n) (msg_data m))).

Definition rt_mq_recv (a size timeout : Z) : K (outcome (Z * list Z) mb_wait) :=
  assert_type (Obj a) RT_Object_Class_MessageQueue ;;
  assert (nz size) ;;
  thread ← rt_thread_self;
  mq ← get_mq a;
  if (mq_entry mq =? 0) && (timeout =? 0) then ret (Returned (- RT_ETIMEOUT, []))
  else mq_recv_loop a size thread timeout.

Definition rt_mq_recv_resume (a size : Z) (w : mb_wait) : K (outcome (Z * list Z) mb_wait) :=
  th ← get_thread (mw_thread w);
  if negb (th_error th =? RT_EOK) then ret (Returned (th_error th, []))
  else
    now ← rt_tick_get;
    mq_recv_loop a size (Some (mw_thread w)) (timeout_left (mw_timeout w) (mw_tick_delta w) now).

Definition rt_mq_control (a cmd : Z) : K Z :=
  assert_type (Obj a) RT_Object_Class_MessageQueue ;;
  if cmd =? RT_IPC_CMD_RESET then
    rt_ipc_list_resume_all (HSuspend a) ;;
    mq ← get_mq a;
    on_mq a (mq_reset_loop (S (length (mq_msg_pool mq)))) ;;
    on_mq a (modify (with_entry 0)) ;;
    rt_schedule ;;
    ret RT_EOK
  else ret (- RT_ERROR).

(** * Representation *)

(** The [next] pointers from [p] run through the blocks [l] and end in [RT_NULL]. *)
Fixpoint chain (pool : list rt_mq_message) (p : option nat) (l : list nat) : Prop :=
  match l with
  | [] => p = None
  | i :: l' => p = Some i ∧ ∃ m, pool !! i = Some m ∧ chain pool (msg_next m) l'
  end.

(** The queue holds the blocks [q], the free list the blocks [f], and the blocks [L]
    are held by routines between two critical sections. *)
Record mq_rep (mq : rt_messagequeue) (q f L : list nat) : Prop := {
  mr_queue : chain (mq_msg_pool mq) (mq_queue_head mq) q;
  mr_tail : mq_queue_tail mq = last q;
  mr_free : chain (mq_msg_pool mq) (mq_queue_free mq) f;
  mr_blocks : q ++ f ++ L ≡ₚ seq 0 (Z.to_nat (mq_max_msgs mq));
  mr_pool : (Z.to_nat (mq_max_msgs mq) ≤ length (mq_msg_pool mq))%nat;
  mr_entry : mq_entry mq = Z.of_nat (length q);
  mr_max : 0 ≤ mq_max_msgs mq < 2 ^ 16;
  mr_size : 0 ≤ mq_msg_size mq < 2 ^ 16;
  mr_data : ∀ i m, (i < Z.to_nat (mq_max_msgs mq))%nat → mq_msg_pool mq !! i = Some m →
              Z.of_nat (length (msg_data m)) = mq_msg_size mq
}.

Definition payload (mq : rt_messagequeue) (i : nat) : list Z :=
  default [] (msg_data <$> mq_msg_pool mq !! i).
(** The stored messages, first to be received first. *)
Definition messages (mq : rt_messagequeue) (q : list nat) : list (list Z) := payload mq <$> q.

Lemma chain_insert pool p l i m : i ∉ l → chain pool p l → chain (<[i := m]> pool) p l.
Proof.
  revert p. induction l as [|j l IH]; intros p Hi; cbn; [done|].
  intros (-> & m' & Hm & Hc). split; [done|]. exists m'.
  rewrite list_lookup_insert_ne by set_solver. split; [done|]. apply IH; [set_solver|done].
Qed.

(** Linking a block behind the last one. *)
Lemma chain_snoc pool p l t i mt mi :
  chain pool p l → NoDup l → last l = Some t → i ∉ l → pool !! t = Some mt →
  pool !! i = Some mi → msg_next mi = None →
  chain (<[t := mk_msg (Some i) (msg_data mt)]> pool) p (l ++ [i]).
Proof.
  revert p. induction l as [|j l IH]; intros p Hc Hnd Hl Hi Ht Hmi Hn; [done|].
  destruct Hc as (-> & m & Hm & Hc). apply NoDup_cons in Hnd as [Hj Hnd]. cbn. split; [done|].
  pose proof (lookup_lt_Some _ _ _ Ht). destruct l as [|k l].
  - injection Hl as ->. exists (mk_msg (Some i) (msg_data mt)).
    rewrite list_lookup_insert_eq by done. split; [done|]. cbn. split; [done|]. exists mi.
    rewrite list_lookup_insert_ne by set_solver. done.
  - assert (last (k :: l) = Some t) as Hl' by done. exists m.
    assert (t ∈ k :: l) by by apply last_Some_elem_of.
    rewrite list_lookup_insert_ne by set_solver. split; [done|].
    apply IH; [done..|set_solver|done|done|done].
Qed.

Section rep.
Context (mq : rt_messagequeue).

Lemma rep_nodup q f L : mq_rep mq q f L → NoDup (q ++ f ++ L).
Proof. intros H. rewrite (mr_blocks _ _ _ _ H). apply NoDup_seq. Qed.

(** A block of the pool occurs in one list only, and exists. *)
Lemma rep_block q f L i :
  mq_rep mq q f L → i ∈ q ++ f ++ L →
  ∃ m, mq_msg_pool mq !! i = Some m ∧ Z.of_nat (length (msg_data m)) = mq_msg_size mq.
Proof.
  intros H Hi. rewrite (mr_blocks _ _ _ _ H) in Hi. apply elem_of_seq in Hi.
  pose proof (mr_pool _ _ _ _ H). destruct (lookup_lt_is_Some_2 (mq_msg_pool mq) i) as [m Hm]; [lia|].
  exists m. split; [done|]. eapply mr_data; [done| |done]. lia.
Qed.

Lemma rep_held_ne q f L i j : mq_rep mq q f (i :: L) → j ∈ L → i ≠ j.
Proof.
  intros H Hj ->. apply rep_nodup in H. rewrite !NoDup_app, NoDup_cons in H.
  destruct H as (_ & _ & _ & _ & [Hn _]). by apply Hn.
Qed.

Lemma rep_length q f L : mq_rep mq q f L → (length q + length f + length L = Z.to_nat (mq_max_msgs mq))%nat.
Proof.
  intros H. pose proof (Permutation_length (mr_blocks _ _ _ _ H)) as E.
  rewrite !length_app, length_seq in E. lia.
Qed.

Lemma get_block_run i m : mq_msg_pool mq !! i = Some m → get_block i mq = Some (m, mq).
Proof. intros H. unfold get_block. by rewrite H. Qed.

Lemma mod_block_run i m g :
  mq_msg_pool mq !! i = Some m →
  mod_block i g mq = Some (tt, with_pool (<[i := g m]> (mq_msg_pool mq)) mq).
Proof. intros H. unfold mod_block. by rewrite H. Qed.

Lemma payload_insert i m j :
  (i < length (mq_msg_pool mq))%nat →
  payload (with_pool (<[i := m]> (mq_msg_pool mq)) mq) j = if decide (i = j) then msg_data m else payload mq j.
Proof.
  intros Hi. unfold payload. cbn. destruct (decide (i = j)) as [->|].
  - by rewrite list_lookup_insert_eq.
  - by rewrite list_lookup_insert_ne.
Qed.

(** Writing a held block changes neither list. *)
Lemma rep_write_held q f L i m :
  mq_rep mq q f L → i ∈ L → Z.of_nat (length (msg_data m)) = mq_msg_size mq →
  mq_rep (with_pool (<[i := m]> (mq_msg_pool mq)) mq) q f L.
Proof.
  intros H Hi Hm. pose proof (rep_nodup _ _ _ H) as Hnd. rewrite !NoDup_app in Hnd.
  destruct H as [Hq Ht Hf Hb Hp He Hx Hs Hd]. split; cbn; try done.
  - apply chain_insert; [|done]. intros ?. destruct Hnd as (_ & Hnd & _). apply (Hnd i); set_solver.
  - apply chain_insert; [|done]. intros ?. destruct Hnd as (_ & _ & _ & Hnd & _). by apply (Hnd i).
  - by rewrite length_insert.
  - intros j m' Hj. rewrite list_lookup_insert. case_decide; [intros [= <-]; done|]. by apply Hd.
Qed.

End rep.

(** ** Each critical section moves one block *)

Lemma mq_alloc_run mq q f L :
  mq_rep mq q f L →
  match f with
  | [] => mq_alloc mq = Some (None, mq)
  | i :: f' => ∃ mq', mq_alloc mq = Some (Some i, mq') ∧ mq_rep mq' q f' (i :: L) ∧
      mq_msg_pool mq' = mq_msg_pool mq ∧ mq_msg_size mq' = mq_msg_size mq ∧ mq_max_msgs mq' = mq_max_msgs mq
  end.
Proof.
  intros H. pose proof (mr_free _ _ _ _ H) as Hf. destruct f as [|i f]; unfold mq_alloc, bind, gets.
  - cbn in Hf. by rewrite Hf.
  - destruct Hf as (-> & m & Hm & Hc). rewrite (get_block_run mq i m) by done.
    eexists. split; [done|]. split; [|done]. destruct H as [Hq Ht Hf' Hb Hp He Hx Hs Hd]. split; cbn; try done.
    rewrite <- Hb. solve_Permutation.
Qed.

Lemma mq_release_run mq q f L i :
  mq_rep mq q f (i :: L) →
  ∃ mq', mq_release i mq = Some (tt, mq') ∧ mq_rep mq' q (i :: f) L ∧
    (∀ j, payload mq' j = payload mq j) ∧
    (∀ j, j ∈ L → mq_msg_pool mq' !! j = mq_msg_pool mq !! j) ∧ mq_msg_size mq' = mq_msg_size mq ∧ mq_max_msgs mq' = mq_max_msgs mq.
Proof.
  intros H. destruct (rep_block mq q f (i :: L) i H) as (m & Hm & Hlen); [set_solver|].
  pose proof (lookup_lt_Some _ _ _ Hm) as Hlt.
  pose proof (rep_write_held mq q f (i :: L) i (mk_msg (mq_queue_free mq) (msg_data m)) H
    ltac:(set_solver) Hlen) as H'.
  unfold mq_release, bind, gets, set_next. rewrite (mod_block_run mq i m) by done.
  eexists. split; [done|]. split_and!; try done.
  - destruct H' as [Hq Ht Hf Hb Hp He Hx Hs Hd]. split; cbn in *; try done.
    + split; [done|]. exists (mk_msg (mq_queue_free mq) (msg_data m)).
      by rewrite list_lookup_insert_eq.
    + rewrite <- Hb. solve_Permutation.
  - intros j. etrans; [apply (payload_insert mq); done|]. case_decide; [|done]. subst. unfold payload. by rewrite Hm.
  - intros j Hj. apply list_lookup_insert_ne. by eapply rep_held_ne.
Qed.

Lemma mq_append_run mq q f L i m :
  mq_rep mq q f (i :: L) → mq_msg_pool mq !! i = Some m → msg_next m = None →
  ∃ mq', mq_append i mq = Some (tt, mq') ∧ mq_rep mq' (q ++ [i]) f L ∧
    (∀ j, payload mq' j = payload mq j) ∧
    (∀ j, j ∈ L → mq_msg_pool mq' !! j = mq_msg_pool mq !! j) ∧ mq_msg_size mq' = mq_msg_size mq ∧ mq_max_msgs mq' = mq_max_msgs mq.
Proof.
  intros H Hm Hn. pose proof (rep_nodup _ _ _ _ H) as Hnd. pose proof (rep_length _ _ _ _ H) as Hlen.
  assert (i ∉ q) as Hiq by (rewrite !NoDup_app in Hnd; destruct Hnd as (_ & Hnd & _); set_solver).
  pose proof H as [Hq Ht Hf Hb Hp He Hx Hs Hd]. cbn in Hlen.
  assert (u16 (mq_entry mq + 1) = mq_entry mq + 1) as Hent by (apply wrap_small; lia).
  assert (q ++ [i] ++ f ++ L ≡ₚ seq 0 (Z.to_nat (mq_max_msgs mq))) as Hperm.
  { rewrite <- Hb. solve_Permutation. }
  unfold mq_append, bind, gets, modify, ret. rewrite Ht. destruct (last q) as [t|] eqn:El.
  - assert (t ∈ q) as Htq by by apply last_Some_elem_of.
    destruct (rep_block mq q f (i :: L) t H) as (mt & Hmt & Hmtl); [set_solver|].
    pose proof (lookup_lt_Some _ _ _ Hmt) as Hlt.
    assert (mq_queue_head mq ≠ None) as Hh by (destruct q; [done|]; destruct Hq as [-> _]; done).
    unfold set_next. rewrite (mod_block_run mq t mt) by done. cbn.
    rewrite decide_False by done. eexists. split; [done|]. cbn. rewrite Hent. split_and!; try done.
    + split; cbn; try done.
      * apply NoDup_app in Hnd as [Hnd _]. by eapply chain_snoc.
      * by rewrite last_snoc.
      * apply chain_insert; [|done]. rewrite !NoDup_app in Hnd. destruct Hnd as (_ & Hnd & _). set_solver.
      * by rewrite <- app_assoc.
      * by rewrite length_insert.
      * rewrite length_app. cbn. lia.
      * intros j m' Hj. rewrite list_lookup_insert. case_decide; [intros [= <-]; done|]. by apply Hd.
    + intros j. etrans; [apply (payload_insert mq); done|]. case_decide; [|done]. subst. unfold payload. by rewrite Hmt.
    + intros j Hj. apply list_lookup_insert_ne. intros ->. rewrite !NoDup_app in Hnd.
      destruct Hnd as (_ & Hnd & _). apply (Hnd j Htq). set_solver.
  - apply last_None in El as ->. cbn in Hq, He. rewrite decide_True by done. cbn.
    eexists. split; [done|]. cbn. rewrite Hent. split_and!; try done.
    split; cbn; try done; [|lia]. split; [done|]. by exists m.
Qed.

Lemma mq_prepend_run mq q f L i :
  mq_rep mq q f (i :: L) →
  ∃ mq', mq_prepend i mq = Some (tt, mq') ∧ mq_rep mq' (i :: q) f L ∧
    (∀ j, payload mq' j = payload mq j) ∧
    (∀ j, j ∈ L → mq_msg_pool mq' !! j = mq_msg_pool mq !! j) ∧ mq_msg_size mq' = mq_msg_size mq ∧ mq_max_msgs mq' = mq_max_msgs mq.
Proof.
  intros H. destruct (rep_block mq q f (i :: L) i H) as (m & Hm & Hmlen); [set_solver|].
  pose proof (lookup_lt_Some _ _ _ Hm) as Hlt. pose proof (rep_length _ _ _ _ H) as Hlen. cbn in Hlen.
  pose proof (rep_write_held mq q f (i :: L) i (mk_msg (mq_queue_head mq) (msg_data m)) H
    ltac:(set_solver) Hmlen) as H'.
  pose proof H' as [Hq Ht Hf Hb Hp He Hx Hs Hd]. cbn in *.
  assert (u16 (mq_entry mq + 1) = mq_entry mq + 1) as Hent by (apply wrap_small; lia).
  assert (∀ j, payload (with_pool (<[i := mk_msg (mq_queue_head mq) (msg_data m)]> (mq_msg_pool mq)) mq) j = payload mq j) as Hpay.
  { intros j. rewrite payload_insert by done. case_decide; [|done]. subst. unfold payload. by rewrite Hm. }
  unfold mq_prepend, bind, gets, modify, ret, set_next. rewrite (mod_block_run mq i m) by done. cbn. rewrite Ht.
  assert (chain (<[i := mk_msg (mq_queue_head mq) (msg_data m)]> (mq_msg_pool mq)) (Some i) (i :: q)) as Hc.
  { cbn. split; [done|]. exists (mk_msg (mq_queue_head mq) (msg_data m)). by rewrite list_lookup_insert_eq. }
  assert (i :: q ++ f ++ L ≡ₚ seq 0 (Z.to_nat (mq_max_msgs mq))) as Hperm.
  { rewrite <- Hb. solve_Permutation. }
  assert (∀ j, j ∈ L → <[i := mk_msg (mq_queue_head mq) (msg_data m)]> (mq_msg_pool mq) !! j = mq_msg_pool mq !! j) as Hheld.
  { intros j Hj. apply list_lookup_insert_ne. by eapply rep_held_ne. }
  destruct (decide (last q = None)) as [E|E]; (eexists; split; [done|]; cbn; rewrite Hent;
    split_and!; try done; split; cbn; try done; try lia).
  - apply last_None in E as ->. done.
  - destruct q as [|k q]; [done|]. done.
Qed.

Lemma mq_unlink_run mq q f L i :
  mq_rep mq (i :: q) f L →
  ∃ mq', mq_unlink_head mq = Some (i, mq') ∧ mq_msg_pool mq' = mq_msg_pool mq ∧ mq_entry mq' = mq_entry mq ∧
    mq_rep (with_entry (Z.of_nat (length q)) mq') q f (i :: L).
Proof.
  intros H. pose proof (rep_nodup _ _ _ _ H) as Hnd. pose proof H as [Hq Ht Hf Hb Hp He Hx Hs Hd].
  destruct Hq as (Hh & m & Hm & Hc). unfold mq_unlink_head, bind, gets, modify, ret, from_opt. rewrite Hh.
  rewrite (get_block_run mq i m) by done. cbn -[last]. rewrite Ht.
  assert (q ++ f ++ i :: L ≡ₚ seq 0 (Z.to_nat (mq_max_msgs mq))) as Hperm.
  { rewrite <- Hb. solve_Permutation. }
  destruct (decide (last (i :: q) = Some i)) as [E|E];
    (eexists; split; [done|]; split; [done|]; split; [done|]; split; cbn -[last]; try done).
  - destruct q as [|k q]; [done|]. change (last (k :: q) = Some i) in E.
    apply last_Some_elem_of in E. apply NoDup_cons in Hnd as [Hnd _]. exfalso. apply Hnd.
    change (i ∈ (k :: q) ++ f ++ L). apply elem_of_app. by left.
  - rewrite Ht. destruct q as [|k q]; [done|]. done.
Qed.

Lemma mq_take_run mq q f L i :
  mq_rep mq (i :: q) f L →
  ∃ mq', mq_take mq = Some (i, mq') ∧ mq_rep mq' q f (i :: L) ∧ mq_msg_pool mq' = mq_msg_pool mq ∧
    mq_msg_size mq' = mq_msg_size mq ∧ mq_max_msgs mq' = mq_max_msgs mq.
Proof.
  intros H. pose proof (rep_length _ _ _ _ H) as Hlen. cbn in Hlen. pose proof (mr_max _ _ _ _ H).
  pose proof (mr_entry _ _ _ _ H) as He. cbn in He.
  destruct (mq_unlink_run mq q f L i H) as (mq' & Hr & Hpool & Hent & Hrep).
  unfold mq_take, bind, gets, modify, ret. rewrite Hr, Hent.
  replace (u16 (mq_entry mq - 1)) with (Z.of_nat (length q)) by (rewrite wrap_small; lia).
  eexists. split; [done|]. split; [done|]. split; [done|].
  unfold mq_unlink_head, bind, gets, modify, from_opt, ret in Hr.
  destruct (mq_queue_head mq) as [j|]; [|done]. unfold get_block in Hr.
  destruct (mq_msg_pool mq !! j); [|done]. case_decide; injection Hr as <- <-; done.
Qed.

(** ** The routines between two critical sections *)

(** The payload a send stores: the caller's bytes over the block's old contents. *)
Definition overwrite (buffer : list Z) (size : Z) (old : list Z) : list Z :=
  take (Z.to_nat size) buffer ++ drop (Z.to_nat size) old.

Lemma overwrite_length buffer size old :
  0 ≤ size ≤ Z.of_nat (length buffer) → size ≤ Z.of_nat (length old) →
  length (overwrite buffer size old) = length old.
Proof. intros. unfold overwrite. rewrite length_app, length_take, length_drop. lia. Qed.

(** Filling a held block. *)
Lemma set_next_run mq q f L i p :
  mq_rep mq q f L → i ∈ L →
  ∃ mq' m, set_next i p mq = Some (tt, mq') ∧ mq_rep mq' q f L ∧ mq_msg_pool mq' !! i = Some m ∧ msg_next m = p ∧
    (∀ j, payload mq' j = payload mq j) ∧ (∀ j, j ≠ i → mq_msg_pool mq' !! j = mq_msg_pool mq !! j) ∧ mq_msg_size mq' = mq_msg_size mq ∧ mq_max_msgs mq' = mq_max_msgs mq.
Proof.
  intros H Hi. destruct (rep_block mq q f L i H) as (m & Hm & Hl); [set_solver|].
  pose proof (lookup_lt_Some _ _ _ Hm) as Hlt. unfold set_next. rewrite (mod_block_run mq i m) by done.
  eexists _, (mk_msg p (msg_data m)). split; [done|]. split; [by apply rep_write_held|].
  split; [by apply list_lookup_insert_eq|]. split_and!; try done.
  - intros j. rewrite payload_insert by done. case_decide; [|done]. subst. unfold payload. by rewrite Hm.
  - intros j Hj. by apply list_lookup_insert_ne.
Qed.

Lemma set_data_run mq q f L i buffer size m :
  mq_rep mq q f L → i ∈ L → 0 ≤ size ≤ Z.of_nat (length buffer) → size ≤ mq_msg_size mq →
  mq_msg_pool mq !! i = Some m →
  ∃ mq' m', set_data i buffer size mq = Some (tt, mq') ∧ mq_rep mq' q f L ∧
    mq_msg_pool mq' !! i = Some m' ∧ msg_next m' = msg_next m ∧
    (∀ j, payload mq' j = if decide (i = j) then overwrite buffer size (payload mq i) else payload mq j) ∧
    (∀ j, j ≠ i → mq_msg_pool mq' !! j = mq_msg_pool mq !! j) ∧ mq_msg_size mq' = mq_msg_size mq ∧ mq_max_msgs mq' = mq_max_msgs mq.
Proof.
  intros H Hi Hsz Hms Hm. destruct (rep_block mq q f L i H) as (m0 & Hm0 & Hl); [set_solver|].
  rewrite Hm in Hm0. injection Hm0 as <-.
  pose proof (lookup_lt_Some _ _ _ Hm) as Hlt. unfold set_data. rewrite (mod_block_run mq i m) by done.
  eexists _, (mk_msg (msg_next m) (overwrite buffer size (msg_data m))). split; [done|].
  split. { apply rep_write_held; [done..|]. cbn -[overwrite].
    change (Z.of_nat (length (overwrite buffer size (msg_data m))) = mq_msg_size mq). rewrite overwrite_length; lia. }
  split; [by apply list_lookup_insert_eq|]. split_and!; try done.
  - intros j. rewrite payload_insert by done. replace (payload mq i) with (msg_data m); [done|].
    unfold payload. by rewrite Hm.
  - intros j Hj. by apply list_lookup_insert_ne.
Qed.

Lemma messages_ext mq mq' q : (∀ j, j ∈ q → payload mq' j = payload mq j) → messages mq' q = messages mq q.
Proof.
  intros H. unfold messages. apply list_fmap_ext. intros k j Hj. apply H. by eapply list_elem_of_lookup_2.
Qed.

(** ** Interleaving

    Routines on one queue interleave at critical sections: a sender allocates, fills
    its block and links it; a receiver takes a block, copies it and releases it. *)

Inductive phase :=
| Fresh                    (* allocated, not filled *)
| Filled (urgent : bool) (d : list Z)   (* holds the message [d], not linked *)
| Taken (d : list Z).      (* taken off the queue with the message [d] *)

Inductive action :=
| AAppend (d : list Z)     (* a message entered at the end *)
| AUrgent (d : list Z)     (* a message entered at the front *)
| ATake (d : list Z)       (* a message left at the front *)
| AInternal.

Definition mstate : Type := rt_messagequeue * list (nat * phase).

Inductive mstep : mstate → action → mstate → Prop :=
| ms_alloc mq mq' H i : mq_alloc mq = Some (Some i, mq') → mstep (mq, H) AInternal (mq', (i, Fresh) :: H)
| ms_full mq mq' H : mq_alloc mq = Some (None, mq') → mstep (mq, H) AInternal (mq', H)
| ms_fill mq mq' H1 H2 i buffer size :
    0 < size ≤ Z.of_nat (length buffer) → size ≤ mq_msg_size mq →
    (set_next i None ;; set_data i buffer size) mq = Some (tt, mq') →
    mstep (mq, H1 ++ (i, Fresh) :: H2) AInternal (mq', H1 ++ (i, Filled false (payload mq' i)) :: H2)
| ms_fill_urgent mq mq' H1 H2 i buffer size :
    0 < size ≤ Z.of_nat (length buffer) → size ≤ mq_msg_size mq →
    set_data i buffer size mq = Some (tt, mq') →
    mstep (mq, H1 ++ (i, Fresh) :: H2) AInternal (mq', H1 ++ (i, Filled true (payload mq' i)) :: H2)
| ms_append mq mq' H1 H2 i d : mq_append i mq = Some (tt, mq') →
    mstep (mq, H1 ++ (i, Filled false d) :: H2) (AAppend d) (mq', H1 ++ H2)
| ms_urgent mq mq' H1 H2 i d : mq_prepend i mq = Some (tt, mq') →
    mstep (mq, H1 ++ (i, Filled true d) :: H2) (AUrgent d) (mq', H1 ++ H2)
| ms_take mq mq' H i : mq_entry mq ≠ 0 → mq_take mq = Some (i, mq') →
    mstep (mq, H) (ATake (payload mq' i)) (mq', (i, Taken (payload mq' i)) :: H)
| ms_release mq mq' H1 H2 i d : mq_release i mq = Some (tt, mq') →
    mstep (mq, H1 ++ (i, Taken d) :: H2) AInternal (mq', H1 ++ H2).

Inductive mruns : mstate → list action → mstate → Prop :=
| mr_nil s : mruns s [] s
| mr_cons s a s1 l s2 : mstep s a s1 → mruns s1 l s2 → mruns s (a :: l) s2.

(** The specification: a double-ended queue of messages. *)
Definition deque_step (d : list (list Z)) (a : action) : option (list (list Z)) :=
  match a with
  | AAppend m => Some (d ++ [m])
  | AUrgent m => Some (m :: d)
  | ATake m => match d with x :: d' => if decide (x = m) then Some d' else None | [] => None end
  | AInternal => Some d
  end.

Fixpoint deque_run (d : list (list Z)) (l : list action) : option (list (list Z)) :=
  match l with
  | [] => Some d
  | a :: l' => match deque_step d a with Some d' => deque_run d' l' | None => None end
  end.

(** The blocks held by interrupted routines are off both lists and keep their contents. *)
Definition held_ok (mq : rt_messagequeue) (h : nat * phase) : Prop :=
  ∃ m, mq_msg_pool mq !! h.1 = Some m ∧
  match h.2 with
  | Fresh => True
  | Filled u d => msg_data m = d ∧ (u = false → msg_next m = None)
  | Taken d => msg_data m = d
  end.

Definition minv (s : mstate) (d : list (list Z)) : Prop :=
  ∃ q f, mq_rep s.1 q f (fst <$> s.2) ∧ messages s.1 q = d ∧ Forall (held_ok s.1) s.2.

Lemma mq_rep_perm mq q f L L' : L ≡ₚ L' → mq_rep mq q f L → mq_rep mq q f L'.
Proof. intros E [Hq Ht Hf Hb Hp He Hx Hs Hd]. split; try done. by rewrite <- E. Qed.

Lemma held_middle mq q f (H1 H2 : list (nat * phase)) i ph :
  mq_rep mq q f (fst <$> H1 ++ (i, ph) :: H2) → mq_rep mq q f (i :: (fst <$> H1 ++ H2)).
Proof. apply mq_rep_perm. rewrite !fmap_app, fmap_cons. cbn. solve_Permutation. Qed.

Lemma held_middle_inv mq q f (H1 H2 : list (nat * phase)) i ph :
  mq_rep mq q f (i :: (fst <$> H1 ++ H2)) → mq_rep mq q f (fst <$> H1 ++ (i, ph) :: H2).
Proof. apply mq_rep_perm. rewrite !fmap_app, fmap_cons. cbn. solve_Permutation. Qed.

(** Blocks that a section does not write keep their holders' facts. *)
Lemma held_keep mq mq' (H : list (nat * phase)) :
  (∀ j, j ∈ (fst <$> H) → mq_msg_pool mq' !! j = mq_msg_pool mq !! j) →
  Forall (held_ok mq) H → Forall (held_ok mq') H.
Proof.
  rewrite !Forall_forall. intros E Hok h Hh. destruct (Hok h Hh) as (m & Hm & Hph).
  exists m. split; [|done]. rewrite E; [done|]. apply list_elem_of_fmap. by exists h.
Qed.

Lemma payload_lookup mq i m : mq_msg_pool mq !! i = Some m → payload mq i = msg_data m.
Proof. intros H. unfold payload. by rewrite H. Qed.

Lemma rep_not_queued mq q f L i : mq_rep mq q f (i :: L) → i ∉ q.
Proof. intros H. apply rep_nodup in H. rewrite NoDup_app in H. destruct H as (_ & H & _). set_solver. Qed.

(** Filling a block, as [rt_mq_send] and as [rt_mq_urgent] do. *)
Lemma fill_run mq q f L i buffer size (urgent : bool) :
  mq_rep mq q f (i :: L) → 0 ≤ size ≤ Z.of_nat (length buffer) → size ≤ mq_msg_size mq →
  ∃ mq' m, (if urgent then set_data i buffer size else set_next i None ;; set_data i buffer size) mq = Some (tt, mq') ∧
    mq_rep mq' q f (i :: L) ∧ mq_msg_pool mq' !! i = Some m ∧ (urgent = false → msg_next m = None) ∧
    payload mq' i = overwrite buffer size (payload mq i) ∧
    (∀ j, j ≠ i → mq_msg_pool mq' !! j = mq_msg_pool mq !! j) ∧ mq_msg_size mq' = mq_msg_size mq ∧
    mq_max_msgs mq' = mq_max_msgs mq.
Proof.
  intros H Hsz Hms. destruct urgent.
  - destruct (rep_block mq q f (i :: L) i H) as (m & Hm & _); [set_solver|].
    destruct (set_data_run mq q f (i :: L) i buffer size m) as (mq' & m' & Hr & Hrep & Hm' & Hn & Hpay & Hoth & Hs & Hx);
      [done|set_solver|done..|].
    exists mq', m'. split_and!; try done. rewrite Hpay. by rewrite decide_True.
  - destruct (set_next_run mq q f (i :: L) i None) as (mq1 & m1 & Hr1 & Hrep1 & Hm1 & Hn1 & Hpay1 & Hoth1 & Hs1 & Hx1);
      [done|set_solver|].
    destruct (set_data_run mq1 q f (i :: L) i buffer size m1)
      as (mq' & m' & Hr & Hrep & Hm' & Hn & Hpay & Hoth & Hs & Hx); [done|set_solver|done|by rewrite Hs1|done|].
    exists mq', m'. unfold bind. rewrite Hr1. split_and!; try done.
    + intros _. by rewrite Hn, Hn1.
    + rewrite Hpay, decide_True by done. by rewrite Hpay1.
    + intros j Hj. by rewrite Hoth, Hoth1.
    + by rewrite Hs.
    + by rewrite Hx.
Qed.

(** ** Every critical section is a step of the double-ended queue *)

Lemma fill_step mq mq' q f d H1 H2 i buffer size urgent :
  mq_rep mq q f (fst <$> H1 ++ (i, Fresh) :: H2) → messages mq q = d → Forall (held_ok mq) (H1 ++ (i, Fresh) :: H2) →
  0 < size ≤ Z.of_nat (length buffer) → size ≤ mq_msg_size mq →
  (if urgent : bool then set_data i buffer size else set_next i None ;; set_data i buffer size) mq = Some (tt, mq') →
  minv (mq', H1 ++ (i, Filled urgent (payload mq' i)) :: H2) d.
Proof.
  intros Hrep Hd Hh Hsz Hms Hr. apply held_middle in Hrep.
  destruct (fill_run mq q f _ i buffer size urgent Hrep) as (mq'' & m & Hr' & Hrep' & Hm & Hn & _ & Hoth & _); [lia|done|].
  rewrite Hr in Hr'. injection Hr' as <-. exists q, f. cbn. split; [by eapply held_middle_inv|]. split.
  - rewrite <- Hd. apply messages_ext. intros j Hj. unfold payload. rewrite Hoth; [done|].
    intros ->. by apply rep_not_queued in Hrep.
  - apply Forall_app in Hh as [Hh1 Hh2]. apply Forall_cons in Hh2 as [_ Hh2].
    assert (Forall (held_ok mq') (H1 ++ H2)) as Hh'.
    { apply (held_keep mq); [|by apply Forall_app]. intros j Hj. apply Hoth. symmetry.
      by eapply rep_held_ne. }
    apply Forall_app in Hh' as [? ?]. apply Forall_app. split; [done|]. constructor; [|done].
    exists m. split; [done|]. split; [|done]. symmetry. by apply payload_lookup.
Qed.

Lemma alloc_step mq mq' q f d H i :
  mq_rep mq q f (fst <$> H) → messages mq q = d → Forall (held_ok mq) H →
  mq_alloc mq = Some (Some i, mq') → minv (mq', (i, Fresh) :: H) d.
Proof.
  intros Hrep Hd Hh Hr. pose proof (mq_alloc_run mq q f _ Hrep) as E. rewrite Hr in E. destruct f as [|k f]; [done|].
  destruct E as (mq'' & [= <- <-] & Hrep' & Hpool & _). exists q, f. split; [done|]. cbn. split.
  - rewrite <- Hd. apply messages_ext. intros j _. unfold payload. by rewrite Hpool.
  - constructor.
    + destruct (rep_block mq' q f _ i Hrep') as (m & Hm & _); [set_solver|]. by exists m.
    + apply (held_keep mq); [|done]. intros j _. by rewrite Hpool.
Qed.

Lemma take_step mq mq' q f d H i :
  mq_rep mq q f (fst <$> H) → messages mq q = d → Forall (held_ok mq) H →
  mq_entry mq ≠ 0 → mq_take mq = Some (i, mq') →
  ∃ d', deque_step d (ATake (payload mq' i)) = Some d' ∧ minv (mq', (i, Taken (payload mq' i)) :: H) d'.
Proof.
  intros Hrep Hd Hh He Hr. destruct q as [|k q]; [by rewrite (mr_entry _ _ _ _ Hrep) in He|].
  destruct (mq_take_run mq q f _ k Hrep) as (mq'' & Hr' & Hrep' & Hpool & _).
  rewrite Hr in Hr'. injection Hr' as <- <-.
  assert (∀ j, payload mq' j = payload mq j) as Hpay by (intros; unfold payload; by rewrite Hpool).
  subst d. cbn. rewrite Hpay, decide_True by done. eexists. split; [done|]. exists q, f. split; [done|]. cbn. split.
  - apply messages_ext. intros j _. apply Hpay.
  - constructor.
    + destruct (rep_block mq' q f _ i Hrep') as (m & Hm & _); [set_solver|]. exists m. split; [done|].
      rewrite <- Hpay. symmetry. by apply payload_lookup.
    + apply (held_keep mq); [|done]. intros j _. by rewrite Hpool.
Qed.

Lemma mstep_sound s a s' d :
  minv s d → mstep s a s' → ∃ d', deque_step d a = Some d' ∧ minv s' d'.
Proof.
  intros (q & f & Hrep & Hd & Hh) Hstep. destruct Hstep as
    [mq mq' H i Hr|mq mq' H Hr|mq mq' H1 H2 i buffer size Hsz Hms Hr|mq mq' H1 H2 i buffer size Hsz Hms Hr
    |mq mq' H1 H2 i dd Hr|mq mq' H1 H2 i dd Hr|mq mq' H i He Hr|mq mq' H1 H2 i dd Hr]; cbn [fst snd] in *.
  - exists d. split; [done|]. by eapply alloc_step.
  - exists d. split; [done|]. pose proof (mq_alloc_run mq q f _ Hrep) as E. rewrite Hr in E.
    destruct f as [|k f]; [injection E as <-; by exists q, []|]. by destruct E as (? & ? & _).
  - exists d. split; [done|]. by eapply (fill_step mq mq' q f d H1 H2 i buffer size false).
  - exists d. split; [done|]. by eapply (fill_step mq mq' q f d H1 H2 i buffer size true).
  - apply held_middle in Hrep. apply Forall_app in Hh as [Hh1 Hh2].
    apply Forall_cons in Hh2 as [(m & Hm & Hmd & Hmn) Hh2]. cbn in Hm.
    destruct (mq_append_run mq q f _ i m Hrep Hm (Hmn eq_refl)) as (mq'' & Hr' & Hrep' & Hpay & Hheld & _).
    rewrite Hr in Hr'. injection Hr' as <-. eexists. split; [done|]. exists (q ++ [i]), f. split; [done|]. cbn. split.
    + unfold messages. rewrite fmap_app. cbn. rewrite Hpay, (payload_lookup mq i m), Hmd by done. f_equal.
      rewrite <- Hd. apply messages_ext. intros j _. apply Hpay.
    + apply (held_keep mq); [done|by apply Forall_app].
  - apply held_middle in Hrep. apply Forall_app in Hh as [Hh1 Hh2].
    apply Forall_cons in Hh2 as [(m & Hm & Hmd & Hmn) Hh2]. cbn in Hm.
    destruct (mq_prepend_run mq q f _ i Hrep) as (mq'' & Hr' & Hrep' & Hpay & Hheld & _).
    rewrite Hr in Hr'. injection Hr' as <-. eexists. split; [done|]. exists (i :: q), f. split; [done|]. cbn. split.
    + rewrite Hpay, (payload_lookup mq i m), Hmd by done. f_equal.
      rewrite <- Hd. apply messages_ext. intros j _. apply Hpay.
    + apply (held_keep mq); [done|by apply Forall_app].
  - by eapply take_step.
  - apply held_middle in Hrep. apply Forall_app in Hh as [Hh1 Hh2]. apply Forall_cons in Hh2 as [_ Hh2].
    destruct (mq_release_run mq q f _ i Hrep) as (mq'' & Hr' & Hrep' & Hpay & Hheld & _).
    rewrite Hr in Hr'. injection Hr' as <-. exists d. split; [done|]. exists q, (i :: f). split; [done|]. cbn. split.
    + rewrite <- Hd. apply messages_ext. intros j _. apply Hpay.
    + apply (held_keep mq); [done|by apply Forall_app].
Qed.

(** C35: any interleaving of the critical sections of senders, urgent senders and
    receivers of one queue acts on a double-ended queue of messages: every message
    taken is the one at the front, blocks are never lost or shared between the queue,
    the free list and the routines holding one, and the messages held by interrupted
    routines stay intact. *)
Theorem mq_interleaving_sound s l s' d :
  minv s d → mruns s l s' → ∃ d', deque_run d l = Some d' ∧ minv s' d'.
Proof.
  intros Hinv Hruns. revert d Hinv. induction Hruns as [s|s a s1 l s2 Hstep _ IH]; intros d Hinv; [by exists d|].
  destruct (mstep_sound s a s1 d Hinv Hstep) as (d1 & Hd1 & Hinv1). cbn. rewrite Hd1. by apply IH.
Qed.

(** In no interleaving does a critical section fail: a sender that holds a block
    can fill and link it, a receiver that holds one can release it, a queue with
    messages can be read, and allocation fails exactly when every block is queued or
    held. *)
Theorem mq_sections_succeed mq H d :
  minv (mq, H) d →
  is_Some (mq_alloc mq) ∧
  (mq_alloc mq = Some (None, mq) ↔ Z.of_nat (length d + length H) = mq_max_msgs mq) ∧
  (d ≠ [] → is_Some (mq_take mq)) ∧
  (∀ i ph, (i, ph) ∈ H →
     match ph with
     | Fresh => ∀ buffer size, 0 < size ≤ Z.of_nat (length buffer) → size ≤ mq_msg_size mq →
                  is_Some ((set_next i None ;; set_data i buffer size) mq) ∧ is_Some (set_data i buffer size mq)
     | Filled false _ => is_Some (mq_append i mq)
     | Filled true _ => is_Some (mq_prepend i mq)
     | Taken _ => is_Some (mq_release i mq)
     end).
Proof.
  intros (q & f & Hrep & Hd & Hh). cbn [fst snd] in *. refine (conj _ (conj _ (conj _ _))).
  - pose proof (mq_alloc_run mq q f _ Hrep) as E. destruct f as [|k f]; [by rewrite E|].
    destruct E as (? & -> & _). done.
  - pose proof (rep_length _ _ _ _ Hrep) as Hlen. rewrite length_fmap in Hlen. pose proof (mr_max _ _ _ _ Hrep).
    assert (length d = length q) as Hdl by (subst d; apply length_fmap).
    pose proof (mq_alloc_run mq q f _ Hrep) as E. destruct f as [|k f]; cbn in Hlen.
    + rewrite E. split; [intros _; lia|done].
    + destruct E as (mq' & -> & _). split; [done|lia].
  - intros Hne. destruct q as [|k q]; [by subst d|].
    destruct (mq_take_run mq q f _ k Hrep) as (? & -> & _). done.
  - intros i ph (H1 & H2 & ->)%list_elem_of_split. pose proof (held_middle _ _ _ _ _ _ _ Hrep) as Hrep'.
    apply Forall_app in Hh as [_ Hh]. apply Forall_cons in Hh as [(m & Hm & Hph) _]. destruct ph as [|[] dd|dd].
    + intros buffer size Hsz Hms. split.
      * destruct (fill_run mq q f _ i buffer size false Hrep') as (? & ? & E & _); [lia|done|]. by rewrite E.
      * destruct (fill_run mq q f _ i buffer size true Hrep') as (? & ? & E & _); [lia|done|]. by rewrite E.
    + destruct (mq_prepend_run mq q f _ i Hrep') as (? & -> & _). done.
    + destruct Hph as [_ Hn]. destruct (mq_append_run mq q f _ i m Hrep' Hm (Hn eq_refl)) as (? & -> & _). done.
    + destruct (mq_release_run mq q f _ i Hrep') as (? & -> & _). done.
Qed.

(** * The kernel routines *)

Definition mq_ok (a : Z) (s : kst) (mq : rt_messagequeue) (q f L : list nat) (x : rt_object) : Prop :=
  ipc_obj RT_Object_Class_MessageQueue a s x ∧ ip_mq (k_ipc s) !! a = Some mq ∧ mq_rep mq q f L.

Definition mq_st (a : Z) (mq : rt_messagequeue) (s : kst) : kst :=
  upd_ipc (λ i, set_mq (<[a := mq]> (ip_mq i)) i) s.

Lemma get_mq_run s a mq : ip_mq (k_ipc s) !! a = Some mq → get_mq a s = Some (mq, s).
Proof. intros H. unfold get_mq. by rewrite H. Qed.

Lemma on_mq_run {A} s a mq (m : Q A) r mq' :
  ip_mq (k_ipc s) !! a = Some mq → m mq = Some (r, mq') → on_mq a m s = Some (r, mq_st a mq' s).
Proof. intros H Hm. unfold on_mq. by rewrite H, Hm. Qed.

Lemma on_mq_st {A} s a mq (m : Q A) r mq' :
  m mq = Some (r, mq') → on_mq a m (mq_st a mq s) = Some (r, mq_st a mq' s).
Proof.
  intros Hm. unfold on_mq, mq_st. cbn. rewrite lookup_insert_eq, Hm. unfold upd_ipc, set_mq. cbn.
  by rewrite insert_insert_eq.
Qed.

Lemma mq_st_same s a mq : ip_mq (k_ipc s) !! a = Some mq → mq_st a mq s = s.
Proof.
  intros H. unfold mq_st, upd_ipc, set_mq. rewrite insert_id by done. by destruct s as [? ? ? []].
Qed.

Lemma mq_ok_keep a s s' mq q f L x :
  ipc_obj RT_Object_Class_MessageQueue a s x → ip_mq (k_ipc s') !! a = Some mq →
  (∀ b, k_obj s' !! Obj b = k_obj s !! Obj b) → mq_rep mq q f L → mq_ok a s' mq q f L x.
Proof. intros Hx Hm Hob Hw. refine (conj _ (conj Hm Hw)). unfold ipc_obj. by rewrite Hob. Qed.

(** The state after a message of [size] bytes of [buffer] entered through the block
    [i]: at the end of the queue, or at its front when urgent. *)
Definition posted (a : Z) (urgent : bool) (buffer : list Z) (size : Z) (mq : rt_messagequeue)
    (q : list nat) (i : nat) (f L : list nat) (x : rt_object) (s s' : kst) : Prop :=
  let q' := if urgent then i :: q else q ++ [i] in
  let m := overwrite buffer size (payload mq i) in
  ∃ mq', mq_ok a s' mq' q' f L x ∧
    messages mq' q' = (if urgent then m :: messages mq q else messages mq q ++ [m]) ∧
    mq_msg_size mq' = mq_msg_size mq ∧ mq_max_msgs mq' = mq_max_msgs mq ∧
    notified (HSuspend a) (mq_st a mq' s) s'.

(** Allocating, filling and linking a block without interruption. *)
Lemma post_sections mq q i f L buffer size (urgent : bool) :
  mq_rep mq q (i :: f) L → 0 < size ≤ Z.of_nat (length buffer) → size ≤ mq_msg_size mq →
  ∃ mq1 mq2 mq3, mq_alloc mq = Some (Some i, mq1) ∧
    (if urgent then set_data i buffer size else set_next i None ;; set_data i buffer size) mq1 = Some (tt, mq2) ∧
    (if urgent then mq_prepend i else mq_append i) mq2 = Some (tt, mq3) ∧
    let q' := if urgent then i :: q else q ++ [i] in
    let m := overwrite buffer size (payload mq i) in
    mq_rep mq3 q' f L ∧ mq_msg_size mq3 = mq_msg_size mq ∧ mq_max_msgs mq3 = mq_max_msgs mq ∧
    messages mq3 q' = (if urgent then m :: messages mq q else messages mq q ++ [m]).
Proof.
  intros H Hsz Hms. destruct (mq_alloc_run mq q (i :: f) L H) as (mq1 & Hr1 & H1 & Hpool1 & Hs1 & Hx1).
  destruct (fill_run mq1 q f L i buffer size urgent H1 ltac:(lia) ltac:(lia))
    as (mq2 & m & Hr2 & H2 & Hm & Hn & Hpay2 & Hoth2 & Hs2 & Hx2).
  assert (payload mq2 i = overwrite buffer size (payload mq i)) as Hi2
    by (rewrite Hpay2; unfold payload; by rewrite Hpool1).
  assert (messages mq2 q = messages mq q) as Hq2.
  { apply messages_ext. intros j Hj. unfold payload. rewrite Hoth2, Hpool1; [done|].
    intros ->. by apply rep_not_queued in H1. }
  exists mq1, mq2. destruct urgent.
  - destruct (mq_prepend_run mq2 q f L i H2) as (mq3 & Hr3 & H3 & Hpay3 & _ & Hs3 & Hx3).
    exists mq3. cbn. split_and!; try done; [congruence..|]. rewrite Hpay3, Hi2. f_equal.
    etrans; [|exact Hq2]. by apply messages_ext.
  - destruct (mq_append_run mq2 q f L i m H2 Hm (Hn eq_refl)) as (mq3 & Hr3 & H3 & Hpay3 & _ & Hs3 & Hx3).
    exists mq3. cbn. split_and!; try done; [congruence..|]. unfold messages. rewrite fmap_app. cbn.
    rewrite Hpay3, Hi2. f_equal. etrans; [|exact Hq2]. by apply messages_ext.
Qed.

(** The three outcomes of a send. *)
Definition send_post (a : Z) (urgent : bool) (buffer : list Z) (size : Z) (mq : rt_messagequeue)
    (q f L : list nat) (x : rt_object) (s : kst) (r : Z) (s' : kst) : Prop :=
  kinv s' ∧
  (mq_msg_size mq < size → r = - RT_ERROR ∧ s' = s) ∧
  (size ≤ mq_msg_size mq → f = [] → r = - RT_EFULL ∧ s' = s) ∧
  (size ≤ mq_msg_size mq → ∀ i f', f = i :: f' → r = RT_EOK ∧ posted a urgent buffer size mq q i f' L x s s').

(** Ends the proof of a successful send once its sections have run. *)
Lemma posted_intro a urgent buffer size mq q i f L x s s' mq3 :
  ipc_obj RT_Object_Class_MessageQueue a s x →
  let q' := if urgent : bool then i :: q else q ++ [i] in
  let m := overwrite buffer size (payload mq i) in
  mq_rep mq3 q' f L → mq_msg_size mq3 = mq_msg_size mq → mq_max_msgs mq3 = mq_max_msgs mq →
  messages mq3 q' = (if urgent then m :: messages mq q else messages mq q ++ [m]) →
  notified (HSuspend a) (mq_st a mq3 s) s' → posted a urgent buffer size mq q i f L x s s'.
Proof.
  intros Hx q' m Hrep Hs Hmx Hmsg Hnot. exists mq3. fold q'. split_and!; try done.
  pose proof Hnot as (_ & Hip & Hob & _). eapply (mq_ok_keep a s); [done| |done|done].
  rewrite Hip. cbn. by rewrite lookup_insert_eq.
Qed.

(** [rt_mq_send], in all its cases and also while other routines hold blocks of
    the same queue: a message that does not fit a block is refused with [-RT_ERROR]; a
    queue without a free block answers [-RT_EFULL]; otherwise the message is the new
    last one, the order of the others is kept, and the first waiting receiver is woken. *)
Theorem rt_mq_send_spec s a mq q f L x buffer size :
  kinv s → mq_ok a s mq q f L x → 0 < size ≤ Z.of_nat (length buffer) →
  wp (rt_mq_send a buffer size) (send_post a false buffer size mq q f L x s) s.
Proof.
  intros HI ((Hx1 & Hx2 & Hfl) & Hm & Hrep) Hsz.
  unfold wp, rt_mq_send, bind at 1. rewrite (assert_type_run s (Obj a) x) by done.
  unfold bind at 1, assert at 1. rewrite (proj2 (nz_true size)) by lia.
  unfold bind at 1, assert at 1. rewrite (proj2 (Z.leb_le _ _)) by lia.
  unfold bind at 1. rewrite (get_mq_run s a mq) by done. destruct (Z.ltb_spec (mq_msg_size mq) size) as [Hlt|Hge].
  { unfold send_post. refine (conj HI (conj _ (conj _ _))); [done|lia|lia]. }
  destruct f as [|i f].
  { unfold bind. rewrite (on_mq_run s a mq _ None mq) by (done || apply (mq_alloc_run mq q [] L Hrep)).
    rewrite mq_st_same by done. unfold send_post. by refine (conj HI (conj _ (conj _ _))); [lia|..]. }
  destruct (post_sections mq q i f L buffer size false Hrep Hsz Hge)
    as (mq1 & mq2 & mq3 & Hr1 & Hr2 & Hr3 & Hrep3 & Hs3 & Hx3 & Hmsg3).
  unfold bind in Hr2. destruct (set_next i None mq1) as [[[] mq1']|] eqn:Hr1'; [|done].
  destruct (notify_run RT_EOK (mq_st a mq3 s) (HSuspend a)) as (s' & Hrun & Hnot); [by apply kinv_ipc|done|].
  unfold bind at 1. rewrite (on_mq_run s a mq _ _ _ Hm Hr1).
  unfold bind at 1. rewrite (on_mq_st s a mq1 _ _ _ Hr1').
  unfold bind at 1. rewrite (on_mq_st s a mq1' _ _ _ Hr2).
  unfold bind at 1. rewrite (on_mq_st s a mq2 _ _ _ Hr3), Hrun.
  unfold send_post. refine (conj _ (conj _ (conj _ _))); [apply Hnot|lia|done|].
  intros _ i0 f0 [= <- <-]. split; [done|]. by eapply posted_intro.
Qed.

(** [rt_mq_urgent] behaves as [rt_mq_send] except that its message becomes the
    first one. *)
Theorem rt_mq_urgent_spec s a mq q f L x buffer size :
  kinv s → mq_ok a s mq q f L x → 0 < size ≤ Z.of_nat (length buffer) →
  wp (rt_mq_urgent a buffer size) (send_post a true buffer size mq q f L x s) s.
Proof.
  intros HI ((Hx1 & Hx2 & Hfl) & Hm & Hrep) Hsz.
  unfold wp, rt_mq_urgent, bind at 1. rewrite (assert_type_run s (Obj a) x) by done.
  unfold bind at 1, assert at 1. rewrite (proj2 (nz_true size)) by lia.
  unfold bind at 1, assert at 1. rewrite (proj2 (Z.leb_le _ _)) by lia.
  unfold bind at 1. rewrite (get_mq_run s a mq) by done. destruct (Z.ltb_spec (mq_msg_size mq) size) as [Hlt|Hge].
  { unfold send_post. refine (conj HI (conj _ (conj _ _))); [done|lia|lia]. }
  destruct f as [|i f].
  { unfold bind. rewrite (on_mq_run s a mq _ None mq) by (done || apply (mq_alloc_run mq q [] L Hrep)).
    rewrite mq_st_same by done. unfold send_post. by refine (conj HI (conj _ (conj _ _))); [lia|..]. }
  destruct (post_sections mq q i f L buffer size true Hrep Hsz Hge)
    as (mq1 & mq2 & mq3 & Hr1 & Hr2 & Hr3 & Hrep3 & Hs3 & Hx3 & Hmsg3).
  destruct (notify_run RT_EOK (mq_st a mq3 s) (HSuspend a)) as (s' & Hrun & Hnot); [by apply kinv_ipc|done|].
  unfold bind at 1. rewrite (on_mq_run s a mq _ _ _ Hm Hr1).
  unfold bind at 1. rewrite (on_mq_st s a mq1 _ _ _ Hr2).
  unfold bind at 1. rewrite (on_mq_st s a mq2 _ _ _ Hr3), Hrun.
  unfold send_post. refine (conj _ (conj _ (conj _ _))); [apply Hnot|lia|done|].
  intros _ i0 f0 [= <- <-]. split; [done|]. by eapply posted_intro.
Qed.

(** Receiving from a queue that is not empty. *)
Lemma mq_fetch_run s a mq i q f L x size thread timeout :
  kinv s → mq_ok a s mq (i :: q) f L x → 0 < size →
  ∃ mq', mq_recv_loop a size thread timeout s =
      Some (Returned (RT_EOK, take (Z.to_nat size) (payload mq i)), mq_st a mq' s) ∧
    mq_ok a (mq_st a mq' s) mq' q (i :: f) L x ∧ messages mq' q = messages mq q.
Proof.
  intros HI (Hx & Hm & Hrep) Hsz. pose proof (mr_entry _ _ _ _ Hrep) as He. cbn in He.
  destruct (rep_block mq (i :: q) f L i Hrep) as (m & Hmi & Hml); [set_solver|].
  destruct (mq_take_run mq q f L i Hrep) as (mq1 & Hr1 & H1 & Hpool1 & _).
  destruct (mq_release_run mq1 q f L i H1) as (mq2 & Hr2 & H2 & Hpay2 & _). exists mq2. split_and!.
  - unfold mq_recv_loop, bind at 1. rewrite (get_mq_run s a mq) by done.
    rewrite (proj2 (Z.eqb_neq _ _)) by lia. unfold bind at 1. rewrite (on_mq_run s a mq _ _ _ Hm Hr1).
    unfold bind at 1. rewrite (on_mq_st s a mq1 _ m mq1) by (apply get_block_run; by rewrite Hpool1).
    unfold bind at 1. rewrite (on_mq_st s a mq1 _ _ _ Hr2). unfold ret. rewrite (payload_lookup mq i m) by done.
    destruct (Z.ltb_spec (mq_msg_size mq) size); [|done]. by rewrite !take_ge by lia.
  - eapply (mq_ok_keep a s); [done| |done|done]. cbn. by rewrite lookup_insert_eq.
  - apply messages_ext. intros j _. rewrite Hpay2. unfold payload. by rewrite Hpool1.
Qed.

(** Blocking on an empty queue. *)
Lemma mq_recv_block_run s a mq f L x size t th timeout :
  kinv s → mq_ok a s mq [] f L x → caller s t th → timeout ≠ 0 → timeout < HALF →
  ∃ s' d, mq_recv_loop a size (Some t) timeout s = Some (Blocked (mk_mb_wait t timeout d), s') ∧
    mq_ok a s' mq [] f L x ∧ blocked_post (HSuspend a) t (with_error RT_EOK th) (o_flag x) timeout s s'.
Proof.
  intros HI (Hx & Hm & Hrep) Hca Htz Htime. pose proof Hx as (Hx1 & Hx2 & Hfl).
  pose proof (mr_entry _ _ _ _ Hrep) as He. cbn in He.
  pose proof Hca as (Hc & Ht & _ & _). pose proof (error_st_caller s t th RT_EOK Hca) as Hca1.
  destruct (block_caller_run (error_st t RT_EOK th s) (HSuspend a) t (with_error RT_EOK th) (o_flag x) timeout)
    as (s' & Hrun & Hpost); [by apply kinv_error|done|done|done|done|].
  apply (blocked_post_from s t th) in Hpost; [|done..].
  exists s', (if 0 <? timeout then k_tick s else 0). refine (conj _ (conj _ Hpost)).
  - unfold mq_recv_loop, bind at 1. rewrite (get_mq_run s a mq) by done. rewrite He, Z.eqb_refl.
    unfold bind at 1. rewrite (thread_context_run _ t th) by done.
    unfold bind at 1, from_opt. unfold bind at 1. rewrite (mod_thread_run s t th) by done.
    fold (error_st t RT_EOK th s). rewrite (proj2 (Z.eqb_neq _ _) Htz).
    unfold bind at 1, get_object. change (k_obj (error_st t RT_EOK th s)) with (k_obj s). rewrite Hx1.
    unfold bind at 1.
    assert ((if 0 <? timeout then rt_tick_get else ret 0) (error_st t RT_EOK th s) =
      Some (if 0 <? timeout then k_tick s else 0, error_st t RT_EOK th s)) as ->
      by (by destruct (0 <? timeout)).
    revert Hrun. unfold bind. destruct (ipc_wait _ _ _ _ _) as [[[] s2]|]; [|done]. by intros ->.
  - destruct Hpost as (_ & Hip & Hob & _). eapply (mq_ok_keep a s); [done|by rewrite Hip|done|done].
Qed.

(** [rt_mq_recv], in all its cases: the first message leaves the queue, its block
    goes back to the free list and at most [size] of its bytes reach the caller; an
    empty queue gives [-RT_ETIMEOUT] to a caller that will not wait and suspends any
    other on the queue, with its timer armed when the wait is bounded. *)
Theorem rt_mq_recv_spec s a mq q f L x size t th timeout :
  kinv s → mq_ok a s mq q f L x → 0 < size → caller s t th → timeout < HALF →
  wp (rt_mq_recv a size timeout) (λ r s', kinv s' ∧
    (∀ i q', q = i :: q' → r = Returned (RT_EOK, take (Z.to_nat size) (payload mq i)) ∧
       ∃ mq', mq_ok a s' mq' q' (i :: f) L x ∧ messages mq' q' = messages mq q' ∧ s' = mq_st a mq' s) ∧
    (q = [] → timeout = 0 → r = Returned (- RT_ETIMEOUT, []) ∧ s' = s) ∧
    (q = [] → timeout ≠ 0 → mq_ok a s' mq q f L x ∧ (∃ d, r = Blocked (mk_mb_wait t timeout d)) ∧
       blocked_post (HSuspend a) t (with_error RT_EOK th) (o_flag x) timeout s s')) s.
Proof.
  intros HI Hok Hsz Hca Htime. pose proof Hok as ((Hx1 & Hx2 & _) & Hm & Hrep). pose proof Hca as (Hc & _).
  pose proof (mr_entry _ _ _ _ Hrep) as He.
  unfold wp, rt_mq_recv, bind at 1. rewrite (assert_type_run s (Obj a) x) by done.
  unfold bind at 1, assert at 1. rewrite (proj2 (nz_true size)) by lia.
  unfold bind at 1, rt_thread_self, gets. rewrite Hc. unfold bind at 1. rewrite (get_mq_run s a mq) by done.
  destruct q as [|i q].
  - rewrite (proj2 (Z.eqb_eq (mq_entry mq) 0) He). cbn [andb]. destruct (Z.eqb_spec timeout 0) as [->|Htz].
    { by refine (conj HI (conj _ (conj _ _))). }
    destruct (mq_recv_block_run s a mq f L x size t th timeout HI Hok Hca Htz Htime) as (s' & d & -> & Hok' & Hpost).
    refine (conj _ (conj _ (conj _ _))); [apply Hpost|done|lia|]. eauto.
  - rewrite (proj2 (Z.eqb_neq (mq_entry mq) 0)) by (rewrite He; cbn; lia). cbn [andb].
    destruct (mq_fetch_run s a mq i q f L x size (Some t) timeout HI Hok Hsz) as (mq' & -> & Hok' & Hmsg).
    refine (conj _ (conj _ (conj _ _))); [by apply kinv_ipc| |done|done].
    intros i0 q0 [= <- <-]. split; [done|]. by exists mq'.
Qed.

(** A message sent into an empty queue that nobody waits for is what the next
    receive returns, byte for byte, and its block is free again. *)
Theorem rt_mq_send_recv s a mq i f L x buffer size t th :
  kinv s → mq_ok a s mq [] (i :: f) L x → caller s t th → tlist (k_tl s) (HSuspend a) = [] →
  0 < size ≤ mq_msg_size mq → size = Z.of_nat (length buffer) →
  wp (rt_mq_send a buffer size ;; rt_mq_recv a size 0)
    (λ r s', r = Returned (RT_EOK, buffer) ∧ ∃ mq', mq_ok a s' mq' [] (i :: f) L x) s.
Proof.
  intros HI ((Hx1 & Hx2 & Hfl) & Hm & Hrep) Hca Hw Hsz Hlen. pose proof Hca as (Hc & _).
  destruct (post_sections mq [] i f L buffer size false Hrep ltac:(lia) ltac:(lia))
    as (mq1 & mq2 & mq3 & Hr1 & Hr2 & Hr3 & Hrep3 & Hs3 & Hx3 & Hmsg3).
  unfold bind in Hr2. destruct (set_next i None mq1) as [[[] mq1']|] eqn:Hr1'; [|done].
  set (s3 := mq_st a mq3 s).
  assert (mq_ok a s3 mq3 [i] f L x) as Hok3.
  { eapply (mq_ok_keep a s); [done| |done|done]. cbn. by rewrite lookup_insert_eq. }
  destruct (mq_fetch_run s3 a mq3 i [] f L x size (Some t) 0) as (mq4 & Hr4 & Hok4 & _); [by apply kinv_ipc|done|lia|].
  destruct (notify_run RT_EOK s3 (HSuspend a)) as (s' & Hrun & _ & _ & _ & Hsame & _); [by apply kinv_ipc|done|].
  rewrite (Hsame Hw) in Hrun.
  unfold wp, bind at 1. unfold rt_mq_send, bind at 1. rewrite (assert_type_run s (Obj a) x) by done.
  unfold bind at 1, assert at 1. rewrite (proj2 (nz_true size)) by lia.
  unfold bind at 1, assert at 1. rewrite (proj2 (Z.leb_le _ _)) by lia.
  unfold bind at 1. rewrite (get_mq_run s a mq) by done. rewrite (proj2 (Z.ltb_ge _ _)) by lia.
  unfold bind at 1. rewrite (on_mq_run s a mq _ _ _ Hm Hr1).
  unfold bind at 1. rewrite (on_mq_st s a mq1 _ _ _ Hr1').
  unfold bind at 1. rewrite (on_mq_st s a mq1' _ _ _ Hr2).
  unfold bind at 1. rewrite (on_mq_st s a mq2 _ _ _ Hr3). fold s3. rewrite Hrun.
  pose proof Hok3 as ((Hy1 & Hy2 & _) & Hm3 & _).
  unfold rt_mq_recv, bind at 1. rewrite (assert_type_run s3 (Obj a) x) by done.
  unfold bind at 1, assert at 1. rewrite (proj2 (nz_true size)) by lia.
  unfold bind at 1, rt_thread_self, gets. change (k_cur s3) with (k_cur s). rewrite Hc.
  unfold bind at 1. rewrite (get_mq_run s3 a mq3) by done.
  rewrite (proj2 (Z.eqb_neq (mq_entry mq3) 0)) by (rewrite (mr_entry _ _ _ _ Hrep3); done). cbn [andb]. rewrite Hr4.
  split; [|eauto]. do 2 f_equal. injection Hmsg3 as ->. unfold overwrite.
  rewrite take_app_le, take_take by (rewrite length_take; lia). apply take_ge. lia.
Qed.

(** ** Reset *)

Lemma unlink_entry n mq :
  mq_unlink_head (with_entry n mq) = (λ '(i, mq'), (i, with_entry n mq')) <$> mq_unlink_head mq.
Proof.
  unfold mq_unlink_head, bind, gets, modify, from_opt, get_block, ret.
  change (mq_queue_head (with_entry n mq)) with (mq_queue_head mq).
  destruct (mq_queue_head mq) as [i|]; [|done].
  change (mq_msg_pool (with_entry n mq)) with (mq_msg_pool mq). destruct (mq_msg_pool mq !! i) as [m|]; [|done].
  change (mq_queue_tail (with_head (msg_next m) (with_entry n mq))) with (mq_queue_tail (with_head (msg_next m) mq)).
  by destruct (decide (mq_queue_tail (with_head (msg_next m) mq) = Some i)).
Qed.

Lemma release_entry n mq i :
  mq_release i (with_entry n mq) = (λ '(r, mq'), (r, with_entry n mq')) <$> mq_release i mq.
Proof.
  unfold mq_release, bind, gets, modify, set_next, mod_block.
  change (mq_msg_pool (with_entry n mq)) with (mq_msg_pool mq). by destruct (mq_msg_pool mq !! i).
Qed.

(** The reset loop ends and moves every message to the free list; [entry] is
    assigned behind it. *)
Lemma mq_reset_run mq q f L fuel :
  mq_rep (with_entry (Z.of_nat (length q)) mq) q f L → (length q < fuel)%nat →
  ∃ mq', mq_reset_loop fuel mq = Some (tt, mq') ∧ mq_rep (with_entry 0 mq') [] (rev q ++ f) L ∧
    mq_msg_size mq' = mq_msg_size mq ∧ mq_max_msgs mq' = mq_max_msgs mq.
Proof.
  revert mq f fuel. induction q as [|i q IH]; intros mq f fuel Hrep Hf; (destruct fuel as [|fuel]; [lia|]);
    cbn [mq_reset_loop]; unfold bind at 1, gets.
  - exists mq. pose proof (mr_queue _ _ _ _ Hrep) as Hh. cbn in Hh. by rewrite decide_True.
  - pose proof (mr_queue _ _ _ _ Hrep) as [Hh _]. cbn in Hh. rewrite decide_False by (by rewrite Hh).
    destruct (mq_unlink_run _ q f L i Hrep) as (mq1 & Hr1 & _ & _ & Hrep1).
    rewrite unlink_entry in Hr1. destruct (mq_unlink_head mq) as [[i1 mq1']|] eqn:Hu; [|done].
    injection Hr1 as -> <-. cbn in Hrep1.
    destruct (mq_release_run _ q f L i Hrep1) as (mq2 & Hr2 & Hrep2 & _ & _ & Hs2 & Hx2).
    change (mq_release i (with_entry (Z.of_nat (length q)) mq1') = Some (tt, mq2)) in Hr2.
    rewrite release_entry in Hr2. destruct (mq_release i mq1') as [[[] mq2']|] eqn:Hrl; [|done].
    injection Hr2 as <-. destruct (IH mq2' (i :: f) fuel) as (mq' & Hr' & Hrep' & Hs' & Hx'); [done|cbn in Hf; lia|].
    assert (mq_msg_size mq1' = mq_msg_size mq ∧ mq_max_msgs mq1' = mq_max_msgs mq) as [Es Ex].
    { revert Hu. unfold mq_unlink_head, bind, gets, modify, from_opt, get_block, ret. rewrite Hh.
      destruct (mq_msg_pool mq !! i); [|done]. case_decide; intros [= <-]; done. }
    exists mq'. unfold bind. rewrite Hu, Hrl. split; [done|].
    change (rev (i :: q)) with (rev q ++ [i]). rewrite <- app_assoc. split; [done|]. cbn in Hs2, Hx2.
    by rewrite Hs', Hs2, Hx', Hx2.
Qed.

(** ** Initialisation *)

(** The loop of [rt_mq_init] strings the blocks together, the last one first. *)
Lemma mq_init_run n mq temp :
  chain (mq_msg_pool mq) (mq_queue_free mq) (rev (seq 0 temp)) →
  (temp + n ≤ length (mq_msg_pool mq))%nat →
  ∃ pool', mq_init_loop n temp mq =
      Some (tt, with_free (last (seq 0 (temp + n))) (with_pool pool' mq)) ∧
    chain pool' (last (seq 0 (temp + n))) (rev (seq 0 (temp + n))) ∧ length pool' = length (mq_msg_pool mq) ∧
    ∀ j, msg_data <$> pool' !! j = msg_data <$> mq_msg_pool mq !! j.
Proof.
  revert mq temp. induction n as [|n IH]; intros mq temp Hc Hlen; cbn [mq_init_loop].
  - exists (mq_msg_pool mq). rewrite Nat.add_0_r.
    assert (mq_queue_free mq = last (seq 0 temp)) as E.
    { destruct temp as [|k]; [done|]. rewrite seq_S, rev_app_distr in Hc. destruct Hc as [-> _].
      by rewrite seq_S, last_snoc. }
    split_and!; try done; [|by rewrite <- E]. unfold ret. rewrite <- E. by destruct mq.
  - destruct (lookup_lt_is_Some_2 (mq_msg_pool mq) temp) as [m Hm]; [lia|].
    unfold bind, gets, modify, set_next. rewrite (mod_block_run mq temp m) by done.
    set (mq1 := with_free _ _).
    assert (∀ j, msg_data <$> mq_msg_pool mq1 !! j = msg_data <$> mq_msg_pool mq !! j) as Hd1.
    { intros j. cbn. rewrite list_lookup_insert. case_decide as E; [|done]. destruct E as [-> _]. by rewrite Hm. }
    destruct (IH mq1 (S temp)) as (pool' & Hr & Hc' & Hl' & Hd').
    + rewrite seq_S, rev_app_distr. cbn. split; [done|]. eexists. rewrite list_lookup_insert_eq by lia.
      split; [done|]. apply chain_insert; [|done]. rewrite list_elem_of_In, <- in_rev, in_seq. lia.
    + cbn. rewrite length_insert. lia.
    + rewrite <- Nat.add_succ_comm. exists pool'. cbn -[seq mq_init_loop] in *. split_and!; try done.
      * rewrite Hl'. apply length_insert.
      * intros j. rewrite Hd'. apply Hd1.
Qed.

(** [rt_mq_init] on a pool of [pool_size] bytes makes an empty queue whose capacity
    is the number of blocks of the aligned message size plus one pointer that the pool
    holds, all of them free, and registers the object; no block lies outside the pool. *)
Theorem rt_mq_init_spec s a name pool msg_size pool_size flag :
  kinv s → 0 ≤ sc_lock_nest (k_sched s) < 2 ^ 15 - 1 → a ≠ 0 →
  flag = RT_IPC_FLAG_FIFO ∨ flag = RT_IPC_FLAG_PRIO → not_kernel a s →
  (∀ cls, Obj a ∉ tlist (ob_list (k_objects s)) cls) → tlist (k_tl s) (HSuspend a) = [] →
  let size := u16 (RT_ALIGN msg_size 4) in
  0 ≤ pool_size / (size + 4) < 2 ^ 16 → Z.of_nat (length pool) = pool_size / (size + 4) →
  Forall (λ m, Z.of_nat (length (msg_data m)) = size) pool →
  wp (rt_mq_init a name pool msg_size pool_size flag) (λ r s', r = RT_EOK ∧ kinv s' ∧
    ∃ mq x, mq_ok a s' mq [] (rev (seq 0 (length pool))) [] x ∧ mq_msg_size mq = size ∧
      mq_max_msgs mq = pool_size / (size + 4) ∧
      o_flag x = flag ∧ o_name x = Str.rt_strncpy name RT_NAME_MAX) s.
Proof.
  intros HI Hn Ha Hfl Hnk Hl Hw size Hps Hpl Hdat.
  destruct (object_init_run s a RT_Object_Class_MessageQueue name HI Hn ltac:(unfold plain_class; tauto) Hnk Hl)
    as (c1 & O1 & Hr1 & HI1 & Hd1 & HO1 & _).
  set (s1 := mk_kst c1 (k_timers s) O1 (k_ipc s)) in *.
  assert (∀ h, is_wait h → tlist (k_tl s1) h = tlist (k_tl s) h) as Hl1.
  { intros h Hh. apply (scheduled_waiting _ _ h (ki_sched _ (proj1 HI)) Hd1).
    intros p. by apply is_wait_not_ready. }
  set (hd := header RT_Object_Class_MessageQueue name (k_obj s !! Obj a)) in *.
  assert (k_obj s1 !! Obj a = Some hd) as Hx1 by (unfold k_obj, s1; cbn; rewrite HO1; apply lookup_insert_eq).
  assert (u8 flag = flag) as Hu8 by (by destruct Hfl as [-> | ->]).
  set (s2 := upd_objects (put_obj (Obj a) (with_flag (u8 flag) hd)) s1).
  assert (kinv s2) as HI2.
  { apply (kinv_put_obj s1 a _ (ob_list (k_objects s1))); [done| |done].
    intros y Hy. rewrite Hx1 in Hy. by injection Hy as <-. }
  destruct (ipc_init_run s2 (HSuspend a) HI2) as (Hr3 & HI3 & _); [rewrite <- Hw; by apply (Hl1 (HSuspend a))|].
  set (s3 := upd_sched _ s2) in *.
  set (mq0 := mk_mq pool size (pool_size / (size + 4)) 0 None None None).
  destruct (mq_init_run (length pool) mq0 0) as (pool' & Hr4 & Hc & Hplen & Hpd); [done|cbn; lia|].
  set (mq4 := with_free _ _) in Hr4.
  unfold wp, rt_mq_init, bind at 1, assert at 1. rewrite (proj2 (nz_true a) Ha).
  unfold bind at 1. rewrite Hr1. fold s1. unfold bind at 1. rewrite (mod_object_run s1 (Obj a) hd) by done. fold s2.
  unfold bind at 1. rewrite Hr3. fold s3. fold size. unfold sizeof_rt_mq_message.
  rewrite (wrap_small 16 (pool_size / (size + 4))) by lia. fold mq0.
  unfold bind at 1, put_mq, modify at 1. fold (mq_st a mq0 s3).
  unfold bind at 1. rewrite <- Hpl, Nat2Z.id. rewrite (on_mq_st s3 a mq0 _ _ _ Hr4).
  unfold bind at 1. rewrite (on_mq_st s3 a mq4 _ tt (with_entry 0 mq4)) by done.
  refine (conj eq_refl (conj _ _)); [by apply kinv_ipc|].
  exists mq4, (with_flag (u8 flag) hd). split; [|by rewrite Hu8].
  refine (conj (conj _ (conj _ _)) (conj _ _)).
  - unfold k_obj. cbn. by rewrite lookup_insert_eq.
  - done.
  - cbn. by rewrite Hu8.
  - cbn. by rewrite lookup_insert_eq.
  - split; cbn -[seq]; try done; try lia.
    + rewrite app_nil_r, <- Hpl, Nat2Z.id. symmetry. apply Permutation_rev.
    + cbn in Hplen. lia.
    + apply wrap_range. lia.
    + intros j m _ Hj. specialize (Hpd j). cbn in Hpd. rewrite Hj in Hpd. cbn in Hpd.
      destruct (pool !! j) as [m0|] eqn:Em; [|done]. injection Hpd as ->.
      rewrite Forall_lookup in Hdat. by apply (Hdat j).
Qed.

(** [rt_mq_control] with the reset command wakes every waiting receiver with
    [-RT_ERROR], empties the queue and gives all its blocks back to the free list. *)
Theorem rt_mq_reset_spec s a mq q f L x :
  kinv s → mq_ok a s mq q f L x →
  wp (rt_mq_control a RT_IPC_CMD_RESET) (λ r s', r = RT_EOK ∧ kinv s' ∧
    tlist (k_tl s') (HSuspend a) = [] ∧ (∃ mq', mq_ok a s' mq' [] (rev q ++ f) L x) ∧
    (∀ t, t ∈ tlist (k_tl s) (HSuspend a) →
       ∃ th, k_thr s' !! t = Some th ∧ active th ∧ th_error th = - RT_ERROR)) s.
Proof.
  intros HI ((Hx1 & Hx2 & Hfl) & Hm & Hrep).
  destruct (ipc_resume_all_run s (HSuspend a) HI I)
    as (s1 & Hr1 & HI1 & Hip1 & _ & Hl1 & _ & _ & Hob1 & _ & Hin1 & _).
  assert (ip_mq (k_ipc s1) !! a = Some mq) as Hm1 by (by rewrite Hip1).
  pose proof (rep_length _ _ _ _ Hrep) as Hlen. pose proof (mr_pool _ _ _ _ Hrep) as Hpl.
  destruct (mq_reset_run mq q f L (S (length (mq_msg_pool mq)))) as (mq2 & Hr2 & Hrep2 & _).
  { rewrite <- (mr_entry _ _ _ _ Hrep). by destruct mq. }
  { lia. }
  set (s2 := mq_st a (with_entry 0 mq2) s1). assert (kinv s2) as HI2 by by apply kinv_ipc.
  destruct (schedule_kinv0 s2 (proj1 HI2)) as (c & Hr3 & Hd & HI3).
  unfold wp, rt_mq_control, bind at 1. rewrite (assert_type_run s (Obj a) x) by done. cbn [Z.eqb Pos.eqb RT_IPC_CMD_RESET].
  unfold bind at 1. rewrite Hr1. unfold bind at 1. rewrite (get_mq_run s1 a mq) by done.
  unfold bind at 1. rewrite (on_mq_run s1 a mq _ _ _ Hm1 Hr2).
  unfold bind at 1. rewrite (on_mq_st s1 a mq2 _ tt (with_entry 0 mq2)) by done. fold s2.
  unfold bind at 1. rewrite Hr3. pose proof (ki_sched _ (proj1 HI2)) as Hsi.
  refine (conj eq_refl (conj _ (conj _ (conj _ _)))).
  - split; [done|apply HI2].
  - rewrite <- Hl1. apply (scheduled_waiting _ _ (HSuspend a) Hsi Hd). done.
  - exists (with_entry 0 mq2). eapply (mq_ok_keep a s); [done| |done|done]. cbn. by rewrite lookup_insert_eq.
  - intros t Ht. destruct (Hin1 t Ht) as (th & Hth & Hact & Herr).
    pose proof (scheduled_moved _ _ Hsi Hd t) as Hmv. unfold k_thr in *. cbn [mq_st upd_ipc k_sched s2] in Hmv.
    rewrite Hth in Hmv. cbn. destruct (sc_thr c !! t) as [th'|]; [|done]. exists th'. split; [done|]. cbn in Hmv.
    destruct Hmv as [->|(_ & st & Hst & ->)]; [done|]. split; [|done].
    unfold active. rewrite stat_of_set_stat by (by destruct Hst as [-> | ->]). done.
Qed.

(** * Instances *)

Definition demo_qhdr : rt_object :=
  mk_object [] (RT_Object_Class_MessageQueue + RT_Object_Class_Static) RT_IPC_FLAG_FIFO.

(** Four blocks of four bytes: 2 and 0 queued, 3 free, 1 held by an interrupted routine. *)
Definition demo_queue : rt_messagequeue :=
  mk_mq [mk_msg None [1; 2; 3; 4]; mk_msg None [9; 9; 9; 9]; mk_msg (Some 0%nat) [5; 6; 7; 8]; mk_msg None [0; 0; 0; 0]]
    4 4 2 (Some 2%nat) (Some 0%nat) (Some 3%nat).
(** Two free blocks. *)
Definition demo_queue0 : rt_messagequeue :=
  mk_mq [mk_msg None [0; 0; 0; 0]; mk_msg (Some 0%nat) [7; 7; 7; 7]] 4 2 0 None None (Some 1%nat).

Definition demo_mq : kst :=
  upd_objects (λ O, put_obj (Obj 100) demo_qhdr (put_obj (Obj 101) demo_qhdr (put_obj (Obj 102) demo_qhdr O)))
    (upd_ipc (set_mq (<[100 := demo_queue0]> (<[101 := demo_queue]> (<[102 := demo_queue0]> ∅)))) demo).

Lemma demo_mq_kinv : kinv demo_mq.
Proof. apply kinv_check_sound. vm_compute. reflexivity. Qed.

Ltac chain_solve := cbn; repeat (split; [reflexivity|]; eexists; split; [reflexivity|]; cbn); reflexivity.

Lemma demo_queue_rep : mq_rep demo_queue [2; 0]%nat [3]%nat [1]%nat.
Proof.
  split; try reflexivity; try (cbn; lia); try chain_solve.
  - change (seq 0 (Z.to_nat (mq_max_msgs demo_queue))) with [0; 1; 2; 3]%nat. cbn. solve_Permutation.
  - intros i m Hi Hm. cbn in Hi. destruct i as [|[|[|[|i]]]]; [injection Hm as <-; reflexivity..|]. lia.
Qed.

Lemma demo_queue0_rep : mq_rep demo_queue0 [] [1; 0]%nat [].
Proof.
  split; try reflexivity; try (cbn; lia); try chain_solve.
  - change (seq 0 (Z.to_nat (mq_max_msgs demo_queue0))) with [0; 1]%nat. cbn. solve_Permutation.
  - intros i m Hi Hm. cbn in Hi. destruct i as [|[|i]]; [injection Hm as <-; reflexivity..|]. lia.
Qed.

Lemma demo_mq_ok : mq_ok 101 demo_mq demo_queue [2; 0]%nat [3]%nat [1]%nat demo_qhdr ∧
  mq_ok 102 demo_mq demo_queue0 [] [1; 0]%nat [] demo_qhdr.
Proof.
  split; (refine (conj (conj _ (conj _ (or_introl _))) (conj _ _)); [reflexivity..|]).
  - apply demo_queue_rep.
  - apply demo_queue0_rep.
Qed.

Lemma demo_mq_caller : caller demo_mq 1 (demo_thread 10 RT_THREAD_RUNNING).
Proof. split_and!; reflexivity. Qed.

Lemma demo_minv : minv (demo_queue, [(1%nat, Taken [9; 9; 9; 9])]) [[5; 6; 7; 8]; [1; 2; 3; 4]].
Proof.
  exists [2; 0]%nat, [3]%nat. split; [apply demo_queue_rep|]. split; [reflexivity|].
  constructor; [|done]. eexists. split; reflexivity.
Qed.

(** An interrupt takes a message while a receiver still holds a block, which it then
    releases. *)
Lemma mq_interleaving_sound_witness : ∃ s' d',
  deque_run [[5; 6; 7; 8]; [1; 2; 3; 4]] [ATake [5; 6; 7; 8]; AInternal] = Some d' ∧ d' = [[1; 2; 3; 4]] ∧ minv s' d'.
Proof.
  eexists. destruct (mq_interleaving_sound (demo_queue, [(1%nat, Taken [9; 9; 9; 9])])
    [ATake [5; 6; 7; 8]; AInternal] (default demo_queue (snd <$> (mq_take ;; mq_release 1) demo_queue),
     [(2%nat, Taken [5; 6; 7; 8])]) [[5; 6; 7; 8]; [1; 2; 3; 4]]) as (d' & Hd & Hinv).
  - apply demo_minv.
  - eapply mr_cons; [exact (ms_take demo_queue (default demo_queue (snd <$> mq_take demo_queue))
      [(1%nat, Taken [9; 9; 9; 9])] 2 ltac:(done) eq_refl)|].
    eapply mr_cons; [|apply mr_nil].
    exact (ms_release (default demo_queue (snd <$> mq_take demo_queue))
      (default demo_queue (snd <$> (mq_take ;; mq_release 1) demo_queue))
      [(2%nat, Taken [5; 6; 7; 8])] [] 1 [9; 9; 9; 9] eq_refl).
  - exists d'. split; [exact Hd|]. split; [|exact Hinv]. injection Hd as <-. reflexivity.
Defined.

Lemma mq_sections_succeed_witness :
  mq_alloc demo_queue ≠ Some (None, demo_queue) ∧ is_Some (mq_take demo_queue) ∧ is_Some (mq_release 1 demo_queue).
Proof.
  destruct (mq_sections_succeed demo_queue [(1%nat, Taken [9; 9; 9; 9])] _ demo_minv) as (_ & Hf & Ht & Hr).
  split; [intros E%Hf; discriminate E|]. split; [by apply Ht|]. apply (Hr 1%nat (Taken [9; 9; 9; 9])). by left.
Defined.

Lemma rt_mq_send_spec_witness :
  wp (rt_mq_send 101 [10; 11; 12] 3) (λ r s', r = RT_EOK ∧
    ∃ mq', messages mq' [2; 0; 3]%nat = [[5; 6; 7; 8]; [1; 2; 3; 4]; [10; 11; 12; 0]] ∧
      mq_ok 101 s' mq' [2; 0; 3]%nat [] [1]%nat demo_qhdr) demo_mq.
Proof.
  eapply wp_mono; [eapply (rt_mq_send_spec demo_mq 101); [apply demo_mq_kinv|apply demo_mq_ok|cbn; lia]|].
  intros r s' (_ & _ & _ & E). destruct (E ltac:(done) 3%nat [] eq_refl) as [-> (mq' & Hok & Hm & _)].
  split; [done|]. by exists mq'.
Defined.

Lemma rt_mq_urgent_spec_witness :
  wp (rt_mq_urgent 101 [10; 11; 12; 13; 14] 5) (λ r s', r = - RT_ERROR ∧ s' = demo_mq) demo_mq.
Proof.
  eapply wp_mono; [eapply (rt_mq_urgent_spec demo_mq 101); [apply demo_mq_kinv|apply demo_mq_ok|cbn; lia]|].
  intros r s' (_ & E & _). by apply E.
Defined.

Lemma rt_mq_recv_spec_witness :
  wp (rt_mq_recv 101 2 0) (λ r s', r = Returned (RT_EOK, [5; 6])) demo_mq.
Proof.
  eapply wp_mono; [eapply (rt_mq_recv_spec demo_mq 101);
    [apply demo_mq_kinv|apply demo_mq_ok|lia|apply demo_mq_caller|by vm_compute]|].
  intros r s' (_ & E & _). by apply (E 2%nat [0%nat]).
Defined.

Lemma rt_mq_send_recv_witness :
  wp (rt_mq_send 102 [1; 2; 3] 3 ;; rt_mq_recv 102 3 0) (λ r _, r = Returned (RT_EOK, [1; 2; 3])) demo_mq.
Proof.
  eapply wp_mono; [eapply (rt_mq_send_recv demo_mq 102 demo_queue0 1 [0%nat] [] demo_qhdr [1; 2; 3] 3 1);
    [apply demo_mq_kinv|apply demo_mq_ok|apply demo_mq_caller|reflexivity|by vm_compute|reflexivity]|].
  by intros r s' [? _].
Defined.

Lemma rt_mq_init_spec_witness :
  wp (rt_mq_init 200 [113; 0] [mk_msg None [0; 0; 0; 0]; mk_msg None [0; 0; 0; 0]] 3 17 RT_IPC_FLAG_FIFO)
    (λ r s', r = RT_EOK ∧ ∃ mq x, mq_ok 200 s' mq [] [1; 0]%nat [] x ∧ mq_msg_size mq = 4) demo_mq.
Proof.
  eapply wp_mono; [eapply (rt_mq_init_spec demo_mq 200); [apply demo_mq_kinv|by vm_compute|done|by left|done| |
    reflexivity|by vm_compute|reflexivity|repeat constructor]|].
  - intros cls. unfold tlist. cbn. rewrite lookup_empty. set_solver.
  - intros r s' (? & _ & mq & x & ? & ? & _). eauto.
Defined.

Lemma rt_mq_reset_spec_witness :
  wp (rt_mq_control 101 RT_IPC_CMD_RESET) (λ r s', r = RT_EOK ∧
    ∃ mq', mq_ok 101 s' mq' [] [0; 2; 3]%nat [1]%nat demo_qhdr) demo_mq.
Proof.
  eapply wp_mono; [eapply (rt_mq_reset_spec demo_mq 101); [apply demo_mq_kinv|apply demo_mq_ok]|].
  by intros r s' (? & _ & _ & ? & _).
Defined.
