(* ===== verification/Mem.v ===== *)
(** The heap, src/mem.c (the configured small-memory allocator): blocks laid out one
    behind the other, each with a header in the heap's own bytes, first-fit allocation
    from the lowest free block and coalescing on release. The heap is guarded by the
    semaphore [heap_sem], so the state is the kernel's together with the heap's. *)

From Stdlib Require Import ZArith Lia.
From stdpp Require Import base numbers option gmap.
From stdpp Require Import list sorting.
From S2P Require Import Prelude.
From S2P Require Import Kservice.
From S2P Require Import KernelDefs.
From S2P Require Import Scheduler.
From S2P Require Import Object.
From S2P Require Import Timer.
From S2P Require Import Thread.
From S2P Require Import Clock.
From S2P Require Import Ipc.
From S2P Require Import Sem.
From S2P Require Import Bytes.
Local Open Scope Z_scope.
Local Open Scope rt_scope.

(** * State *)

Definition HEAP_MAGIC : Z := 0x1ea0.
Definition SIZEOF_STRUCT_MEM : Z := 12.
Definition MIN_SIZE : Z := 12.
Definition MIN_SIZE_ALIGNED : Z := 12.

(** The static variables of the file. [h_mem] is the memory at [heap_ptr]; the pointers
    [lfree] and [heap_end] are kept as offsets from [heap_ptr]. *)
Record heap := mk_heap {
  h_mem : memory;
  h_ptr : Z;
  h_end : Z;
  h_lfree : Z;
  h_size : Z;      (* mem_size_aligned *)
  h_used : Z;      (* used_mem *)
  h_max : Z        (* max_mem *)
}.

Abbreviation Hp := (M heap).

Definition set_mem (m : memory) (h : heap) : heap :=
  mk_heap m (h_ptr h) (h_end h) (h_lfree h) (h_size h) (h_used h) (h_max h).
Definition set_lfree (o : Z) (h : heap) : heap :=
  mk_heap (h_mem h) (h_ptr h) (h_end h) o (h_size h) (h_used h) (h_max h).
Definition set_used (u mx : Z) (h : heap) : heap :=
  mk_heap (h_mem h) (h_ptr h) (h_end h) (h_lfree h) (h_size h) u mx.

(** ** Headers

    Field access through a [struct heap_mem] pointer to [heap_ptr + o]; a header
    outside the heap is undefined behaviour. *)

Definition in_heap (o : Z) (h : heap) : bool := (0 <=? o) && (o <=? h_end h).
Definition rd (n : nat) (f o : Z) : Hp Z := λ h,
  if in_heap o h then Some (load n (h_mem h) (o + f), h) else None.
Definition wr (n : nat) (f o v : Z) : Hp unit := λ h,
  if in_heap o h then Some (tt, set_mem (store n (h_mem h) (o + f) v) h) else None.

Definition rd_magic (o : Z) : Hp Z := rd 2 0 o.
Definition rd_used (o : Z) : Hp Z := rd 2 2 o.
Definition rd_next (o : Z) : Hp Z := rd 4 4 o.
Definition rd_prev (o : Z) : Hp Z := rd 4 8 o.
Definition wr_magic (o v : Z) : Hp unit := wr 2 0 o v.
Definition wr_used (o v : Z) : Hp unit := wr 2 2 o v.
Definition wr_next (o v : Z) : Hp unit := wr 4 4 o v.
Definition wr_prev (o v : Z) : Hp unit := wr 4 8 o v.

(** * Operations under the lock *)

(** Joining the free block at [mem] with the block behind it. *)
Definition plug_forward (mem : Z) : Hp unit :=
  nmem ← rd_next mem;
  nused ← rd_used nmem;
  e ← gets h_end;
  if negb (mem =? nmem) && (nused =? 0) && negb (nmem =? e) then
    lfree ← gets h_lfree;
    (if lfree =? nmem then modify (set_lfree mem) else ret tt) ;;
    nnext ← rd_next nmem;
    wr_next mem nnext ;;
    wr_prev nnext mem
  else ret tt.

(** Joining it with the block in front of it. *)
Definition plug_backward (mem : Z) : Hp unit :=
  pmem ← rd_prev mem;
  pused ← rd_used pmem;
  if negb (pmem =? mem) && (pused =? 0) then
    lfree ← gets h_lfree;
    (if lfree =? mem then modify (set_lfree pmem) else ret tt) ;;
    next ← rd_next mem;
    wr_next pmem next ;;
    wr_prev next pmem
  else ret tt.

Definition plug_holes (mem : Z) : Hp unit :=
  e ← gets h_end;
  assert ((0 <=? mem) && (mem <? e)) ;;
  used ← rd_used mem;
  assert (used =? 0) ;;
  plug_forward mem ;;
  plug_backward mem.

(** A walk over the blocks visits each offset at most once. *)
Definition heap_fuel (h : heap) : nat := S (S (Z.to_nat (h_end h))).

(** [while (lfree->used && lfree != heap_end) lfree = &heap_ptr[lfree->next]] *)
Fixpoint advance_lfree (fuel : nat) : Hp unit :=
  match fuel with
  | O => λ _, None
  | S fuel' =>
      lfree ← gets h_lfree;
      used ← rd_used lfree;
      e ← gets h_end;
      if nz used && negb (lfree =? e) then
        next ← rd_next lfree;
        modify (set_lfree next) ;;
        advance_lfree fuel'
      else ret tt
  end.

(** [used_mem += n] and the update of [max_mem]. *)
Definition count_used (n : Z) : Hp unit :=
  modify (λ h, let u := u32 (h_used h + n) in set_used u (if h_max h <? u then u else h_max h) h).

(** Splitting off the rest of the block at [ptr] as a free block at [ptr2]. *)
Definition split_block (ptr ptr2 next : Z) : Hp unit :=
  wr_magic ptr2 HEAP_MAGIC ;;
  wr_used ptr2 0 ;;
  wr_next ptr2 next ;;
  wr_prev ptr2 ptr.

(** The body of the loop of [rt_malloc] for a block that fits: splitting it if the rest
    can hold a block, marking it and counting it. *)
Definition malloc_carve (size ptr : Z) : Hp unit :=
  next ← rd_next ptr;
  if u32 (size + SIZEOF_STRUCT_MEM + MIN_SIZE_ALIGNED) <=? u32 (next - (ptr + SIZEOF_STRUCT_MEM)) then
    let ptr2 := u32 (ptr + SIZEOF_STRUCT_MEM + size) in
    split_block ptr ptr2 next ;;
    wr_next ptr ptr2 ;;
    wr_used ptr 1 ;;
    next2 ← rd_next ptr2;
    hs ← gets h_size;
    (if negb (next2 =? u32 (hs + SIZEOF_STRUCT_MEM)) then wr_prev next2 ptr2 else ret tt) ;;
    count_used (size + SIZEOF_STRUCT_MEM)
  else
    wr_used ptr 1 ;;
    next ← rd_next ptr;
    count_used (next - ptr).

(** The rest of the body: the magic number and the update of [lfree]. *)
Definition malloc_take (size ptr : Z) : Hp unit :=
  malloc_carve size ptr ;;
  wr_magic ptr HEAP_MAGIC ;;
  lfree ← gets h_lfree;
  if ptr =? lfree then
    fuel ← gets heap_fuel;
    advance_lfree fuel ;;
    lfree ← gets h_lfree; used ← rd_used lfree; e ← gets h_end;
    assert ((lfree =? e) || (used =? 0))
  else ret tt.

(** The loop of [rt_malloc]; [Some ptr] is the block that was taken. *)
Fixpoint malloc_loop (fuel : nat) (size ptr : Z) : Hp (option Z) :=
  match fuel with
  | O => λ _, None
  | S fuel' =>
      hs ← gets h_size;
      if ptr <? u32 (hs - size) then
        used ← rd_used ptr;
        next ← rd_next ptr;
        if negb (nz used) && (size <=? u32 (next - (ptr + SIZEOF_STRUCT_MEM))) then
          malloc_take size ptr ;; ret (Some ptr)
        else malloc_loop fuel' size next
      else ret None
  end.

(** [rt_malloc] between taking and releasing the semaphore. *)
Definition malloc_section (size : Z) : Hp (option Z) :=
  fuel ← gets heap_fuel;
  lfree ← gets h_lfree;
  malloc_loop fuel size lfree.

(** [rt_free] between taking and releasing the semaphore; [mem] is an offset. *)
Definition free_section (mem : Z) : Hp unit :=
  used ← rd_used mem;
  assert (nz used) ;;
  magic ← rd_magic mem;
  assert (magic =? HEAP_MAGIC) ;;
  wr_used mem 0 ;;
  wr_magic mem HEAP_MAGIC ;;
  lfree ← gets h_lfree;
  (if mem <? lfree then modify (set_lfree mem) else ret tt) ;;
  next ← rd_next mem;
  modify (λ h, set_used (u32 (h_used h - (next - mem))) (h_max h) h) ;;
  plug_holes mem.

(** The first critical section of [rt_realloc]: [None] when the block stays where it
    is, otherwise its old size. *)
Definition realloc_section (ptr newsize : Z) : Hp (option Z) :=
  next ← rd_next ptr;
  let size := u32 (next - ptr - SIZEOF_STRUCT_MEM) in
  if size =? newsize then ret None
  else if u32 (newsize + SIZEOF_STRUCT_MEM + MIN_SIZE) <? size then
    modify (λ h, set_used (u32 (h_used h - (size - newsize))) (h_max h) h) ;;
    let ptr2 := u32 (ptr + SIZEOF_STRUCT_MEM + newsize) in
    split_block ptr ptr2 next ;;
    wr_next ptr ptr2 ;;
    next2 ← rd_next ptr2;
    hs ← gets h_size;
    (if negb (next2 =? u32 (hs + SIZEOF_STRUCT_MEM)) then wr_prev next2 ptr2 else ret tt) ;;
    plug_holes ptr2 ;;
    ret None
  else ret (Some size).

(** * The routines *)

Abbreviation H := (M (kst * heap)).

Definition kernel {A} (m : K A) : H A := λ s,
  match m s.1 with Some (a, k) => Some (a, (k, s.2)) | None => None end.
Definition heap_op {A} (m : Hp A) : H A := λ s,
  match m s.2 with Some (a, h) => Some (a, (s.1, h)) | None => None end.

(** Where a caller blocked on [heap_sem] continues. *)
Inductive mem_cont :=
| CMalloc (size : Z)
| CFree (rmem : Z)
| CRealloc (rmem newsize : Z)
| CReallocMalloc (rmem newsize size request : Z)
| CReallocFree (nmem rmem : Z)
| CCalloc (n request : Z).

Section routines.
(** The address of the static variable [heap_sem]. *)
Variable heap_sem : Z.

(** [rt_sem_take(&heap_sem, RT_WAITING_FOREVER)]: [true] when the caller has it. *)
Definition lock : H bool :=
  r ← kernel (rt_sem_take heap_sem RT_WAITING_FOREVER);
  ret (match r with Returned _ => true | Blocked _ => false end).
Definition unlock : H unit := kernel (rt_sem_release heap_sem) ;; ret tt.

Definition malloc_locked (size : Z) : H (outcome Z mem_cont) :=
  r ← heap_op (malloc_section size);
  unlock ;;
  match r with
  | None => ret (Returned 0)
  | Some ptr =>
      h ← gets snd;
      let mem := u32 (h_ptr h + ptr) in
      assert (mem + SIZEOF_STRUCT_MEM + size <=? h_ptr h + h_end h) ;;
      assert (u32 (mem + SIZEOF_STRUCT_MEM) mod 4 =? 0) ;;
      assert (Z.land mem 3 =? 0) ;;
      ret (Returned (u32 (mem + SIZEOF_STRUCT_MEM)))
  end.

(** Returns the address of the memory, or 0 for [RT_NULL]. *)
Definition rt_malloc (size : Z) : H (outcome Z mem_cont) :=
  if size =? 0 then ret (Returned 0)
  else
    kernel RT_DEBUG_NOT_IN_INTERRUPT ;;
    let size := RT_ALIGN size 4 in
    h ← gets snd;
    if h_size h <? size then ret (Returned 0)
    else
      let size := if size <? MIN_SIZE_ALIGNED then MIN_SIZE_ALIGNED else size in
      b ← lock;
      if b : bool then malloc_locked size else ret (Blocked (CMalloc size)).

Definition free_locked (rmem : Z) : H unit :=
  h ← gets snd;
  heap_op (free_section (rmem - SIZEOF_STRUCT_MEM - h_ptr h)) ;;
  unlock.

Definition rt_free (rmem : Z) : H (outcome unit mem_cont) :=
  if rmem =? 0 then ret (Returned tt)
  else
    kernel RT_DEBUG_NOT_IN_INTERRUPT ;;
    assert (Z.land rmem 3 =? 0) ;;
    h ← gets snd;
    assert ((h_ptr h <=? rmem) && (rmem <? h_ptr h + h_end h)) ;;
    b ← lock;
    if b : bool then free_locked rmem ;; ret (Returned tt) else ret (Blocked (CFree rmem)).

(** [rt_memcpy] into the new block and the release of the old one. *)
Definition realloc_copy (rmem newsize size nmem : Z) : H (outcome Z mem_cont) :=
  if nz nmem then
    heap_op (modify (λ h, set_mem (copy (h_mem h) (nmem - h_ptr h) (rmem - h_ptr h)
                                     (if size <? newsize then size else newsize)) h)) ;;
    r ← rt_free rmem;
    match r with
    | Returned _ => ret (Returned nmem)
    | Blocked _ => ret (Blocked (CReallocFree nmem rmem))
    end
  else ret (Returned nmem).

(** The last part of [rt_realloc]: the block moves to a new one. *)
Definition realloc_move (rmem newsize size : Z) : H (outcome Z mem_cont) :=
  n ← rt_malloc newsize;
  match n with
  | Returned nmem => realloc_copy rmem newsize size nmem
  | Blocked (CMalloc request) => ret (Blocked (CReallocMalloc rmem newsize size request))
  | Blocked c => ret (Blocked c)
  end.

Definition realloc_locked (rmem newsize : Z) : H (outcome Z mem_cont) :=
  h ← gets snd;
  if (rmem <? h_ptr h) || (h_ptr h + h_end h <=? rmem) then
    unlock ;; ret (Returned rmem)
  else
    r ← heap_op (realloc_section (rmem - SIZEOF_STRUCT_MEM - h_ptr h) newsize);
    unlock ;;
    match r with
    | None => ret (Returned rmem)
    | Some size => realloc_move rmem newsize size
    end.

Definition rt_realloc (rmem newsize : Z) : H (outcome Z mem_cont) :=
  kernel RT_DEBUG_NOT_IN_INTERRUPT ;;
  let newsize := RT_ALIGN newsize 4 in
  h ← gets snd;
  if h_size h <? newsize then ret (Returned 0)
  else if newsize =? 0 then
    r ← rt_free rmem;
    match r with Returned _ => ret (Returned 0) | Blocked c => ret (Blocked c) end
  else if rmem =? 0 then rt_malloc newsize
  else
    b ← lock;
    if b : bool then realloc_locked rmem newsize else ret (Blocked (CRealloc rmem newsize)).

(** [rt_memset(p, 0, count * size)] *)
Definition calloc_clear (n p : Z) : H (outcome Z mem_cont) :=
  (if nz p then heap_op (modify (λ h, set_mem (fill (h_mem h) (p - h_ptr h) 0 n) h)) else ret tt) ;;
  ret (Returned p).

Definition rt_calloc (count size : Z) : H (outcome Z mem_cont) :=
  let n := u32 (count * size) in
  r ← rt_malloc n;
  match r with
  | Returned p => calloc_clear n p
  | Blocked (CMalloc request) => ret (Blocked (CCalloc n request))
  | Blocked c => ret (Blocked c)
  end.

(** What a blocked caller does when [rt_sem_release] hands it the semaphore. *)
Definition mem_resume (c : mem_cont) : H (outcome Z mem_cont) :=
  match c with
  | CMalloc size => malloc_locked size
  | CFree rmem => free_locked rmem ;; ret (Returned 0)
  | CRealloc rmem newsize => realloc_locked rmem newsize
  | CReallocMalloc rmem newsize size request =>
      n ← malloc_locked request;
      match n with
      | Returned nmem => realloc_copy rmem newsize size nmem
      | Blocked c => ret (Blocked c)
      end
  | CCalloc n request =>
      r ← malloc_locked request;
      match r with Returned p => calloc_clear n p | Blocked c => ret (Blocked c) end
  | CReallocFree nmem rmem => free_locked rmem ;; ret (Returned nmem)
  end.

(** [begin_addr] and [end_addr] are addresses; [m] is the memory behind the aligned
    start. [false] is the reported error. *)
Definition rt_system_heap_init (m : memory) (begin_addr end_addr : Z) : H bool :=
  let begin_align := RT_ALIGN begin_addr 4 in
  let end_align := Z.land end_addr (u32 (Z.lnot 3)) in
  kernel RT_DEBUG_NOT_IN_INTERRUPT ;;
  if (2 * SIZEOF_STRUCT_MEM <? end_align) && (begin_align <=? end_align - 2 * SIZEOF_STRUCT_MEM) then
    let mem_size_aligned := end_align - begin_align - 2 * SIZEOF_STRUCT_MEM in
    let e := mem_size_aligned + SIZEOF_STRUCT_MEM in
    heap_op (modify (λ h, mk_heap m begin_align e (h_lfree h) mem_size_aligned (h_used h) (h_max h))) ;;
    heap_op (wr_magic 0 HEAP_MAGIC ;; wr_next 0 e ;; wr_prev 0 0 ;; wr_used 0 0) ;;
    heap_op (wr_magic e HEAP_MAGIC ;; wr_used e 1 ;; wr_next e e ;; wr_prev e e) ;;
    kernel (rt_sem_init heap_sem [104; 101; 97; 112; 0] 1 RT_IPC_FLAG_FIFO) ;;
    heap_op (modify (set_lfree 0)) ;;
    ret true
  else ret false.

Definition rt_memory_info : H (Z * Z * Z) :=
  h ← gets snd; ret (h_size h, h_used h, h_max h).

End routines.

(** * Layout

    The heap as a list of blocks: the size of each, header included, and whether it is
    in use. *)

Abbreviation block := (Z * bool)%type.

Fixpoint total (bs : list block) : Z :=
  match bs with [] => 0 | b :: bs' => b.1 + total bs' end.

Fixpoint used_total (bs : list block) : Z :=
  match bs with [] => 0 | b :: bs' => (if b.2 then b.1 else 0) + used_total bs' end.

(** The four fields of the header at [o]. *)
Definition hdr (m : memory) (o : Z) : Z * Z * Z * Z :=
  (load 2 m (o + 0), load 2 m (o + 2), load 4 m (o + 4), load 4 m (o + 8)).

Definition good_size (sz : Z) : Prop := 16 ≤ sz ∧ sz mod 4 = 0.

(** From the offset [o], whose predecessor is at [p], the headers describe the blocks
    [bs]; behind them comes the offset [o'], whose predecessor is at [p']. *)
Fixpoint seg (m : memory) (p o : Z) (bs : list block) (p' o' : Z) : Prop :=
  match bs with
  | [] => p' = p ∧ o' = o
  | (sz, u) :: bs' =>
      hdr m o = (HEAP_MAGIC, Z.b2z u, o + sz, p) ∧ good_size sz ∧ seg m o (o + sz) bs' p' o'
  end.

Record layout (h : heap) (bs : list block) : Prop := {
  ly_seg : ∃ p, seg (h_mem h) 0 0 bs p (h_end h);
  ly_end : load 2 (h_mem h) (h_end h + 2) = 1;
  ly_size : h_end h = h_size h + SIZEOF_STRUCT_MEM;
  ly_min : MIN_SIZE ≤ h_size h;
  ly_range : 0 < h_ptr h ∧ h_ptr h + h_end h + SIZEOF_STRUCT_MEM ≤ 2 ^ 32;
  ly_align : h_ptr h mod 4 = 0
}.

(** No two free blocks are neighbours. *)
Fixpoint coalesced (bs : list block) : Prop :=
  match bs with
  | (_, u) :: bs' => match bs' with (_, u') :: _ => u = true ∨ u' = true | [] => True end ∧ coalesced bs'
  | [] => True
  end.

(** A free block starts at the offset [o]. *)
Fixpoint is_free (bs : list block) (o : Z) : Prop :=
  match bs with
  | [] => False
  | (sz, u) :: bs' => (u = false ∧ o = 0) ∨ is_free bs' (o - sz)
  end.

(** [lfree] is the offset of a free block, or of the end of the heap. *)
Definition free_at (bs : list block) (o : Z) : Prop := is_free bs o ∨ o = total bs.

Record hwf (h : heap) (bs : list block) : Prop := {
  hw_layout : layout h bs;
  hw_coalesced : coalesced bs;
  hw_lfree : free_at bs (h_lfree h);
  hw_used : h_used h = used_total bs;
  hw_max : h_used h ≤ h_max h < 2 ^ 32
}.

(** [lfree] is the lowest free block. *)
Definition lowest_free (h : heap) (bs : list block) : Prop := ∀ o, is_free bs o → h_lfree h ≤ o.

(** ** Arithmetic of blocks *)

Definition good (bs : list block) : Prop := Forall (λ b, good_size b.1) bs.

Lemma total_app l1 l2 : total (l1 ++ l2) = total l1 + total l2.
Proof. induction l1 as [|b l1 IH]; cbn; lia. Qed.

Lemma used_total_app l1 l2 : used_total (l1 ++ l2) = used_total l1 + used_total l2.
Proof. induction l1 as [|b l1 IH]; cbn; lia. Qed.

Lemma total_bounds bs : good bs → 0 ≤ used_total bs ≤ total bs ∧ total bs mod 4 = 0.
Proof.
  induction 1 as [|[sz u] bs [Hs Hm] _ IH]; cbn; [done|]. cbn in Hs, Hm. destruct IH as [IH1 IH2]. split.
  - destruct u; lia.
  - rewrite Z.add_mod, Hm, IH2 by lia. done.
Qed.

Lemma total_pos b bs : good (b :: bs) → 16 ≤ b.1 ∧ 16 ≤ total (b :: bs).
Proof.
  intros Hg. inversion Hg as [|? ? [Hs _] Hg']; subst. pose proof (proj1 (total_bounds bs Hg')). cbn. lia.
Qed.

Lemma is_free_app l1 l2 o : is_free (l1 ++ l2) o ↔ is_free l1 o ∨ is_free l2 (o - total l1).
Proof.
  revert o. induction l1 as [|[sz u] l1 IH]; intros o; cbn; [rewrite Z.sub_0_r; tauto|].
  rewrite IH. replace (o - sz - total l1) with (o - (sz + total l1)) by lia. tauto.
Qed.

Lemma is_free_range bs o : good bs → is_free bs o → 0 ≤ o ∧ o + 16 ≤ total bs.
Proof.
  intros Hg. revert o. induction Hg as [|[sz u] bs [Hs _] Hg IH]; intros w; cbn; [done|].
  cbn in Hs. pose proof (proj1 (total_bounds bs Hg)). intros [[_ ->]|Hw]; [lia|]. apply IH in Hw. lia.
Qed.

(** The junction of two coalesced lists. *)
Definition junction (l1 l2 : list block) : Prop :=
  match last l1, head l2 with Some (_, false), Some (_, false) => False | _, _ => True end.

Lemma coalesced_app l1 l2 : coalesced (l1 ++ l2) ↔ coalesced l1 ∧ coalesced l2 ∧ junction l1 l2.
Proof.
  induction l1 as [|[sz u] l1 IH]; cbn [app coalesced]; [unfold junction; cbn; naive_solver|].
  rewrite IH. unfold junction. destruct l1 as [|[s1 u1] l1]; cbn [app last].
  - destruct l2 as [|[s2 u2] l2]; cbn; [destruct u; naive_solver|]. destruct u, u2; naive_solver.
  - tauto.
Qed.

Lemma good_app l1 l2 : good (l1 ++ l2) ↔ good l1 ∧ good l2.
Proof. apply Forall_app. Qed.

(** Two blocks of one heap are the same or apart. *)
Lemma blocks_apart l1 b l2 l1' b' l2' :
  good (l1 ++ b :: l2) → l1 ++ b :: l2 = l1' ++ b' :: l2' →
  (l1 = l1' ∧ b = b' ∧ l2 = l2') ∨ total l1 + b.1 ≤ total l1' ∨ total l1' + b'.1 ≤ total l1.
Proof.
  revert l1'. induction l1 as [|c l1 IH]; intros l1' Hg E; destruct l1' as [|c' l1'].
  - injection E as -> ->. by left.
  - injection E as <- ->. right. left. cbn in *. inversion Hg as [|? ? _ Hg']; subst.
    apply good_app in Hg' as [Hg' _]. pose proof (proj1 (total_bounds l1' Hg')). lia.
  - injection E as -> E. right. right. cbn in *. inversion Hg as [|? ? _ Hg']; subst.
    apply good_app in Hg' as [Hg' _]. pose proof (proj1 (total_bounds l1 Hg')). lia.
  - injection E as -> E. inversion Hg as [|? ? _ Hg']; subst.
    destruct (IH l1' Hg' E) as [(-> & -> & ->)|[?|?]]; [by left|right; left; cbn; lia|right; right; cbn; lia].
Qed.

(** ** Headers and segments *)

Definition same_on (m m' : memory) (a b : Z) : Prop := ∀ i, a ≤ i < b → m' i = m i.

Lemma hdr_same m m' o : same_on m m' o (o + 12) → hdr m' o = hdr m o.
Proof.
  intros H. unfold hdr. rewrite !(load_ext _ m m'); [done|..]; intros i Hi; apply H; lia.
Qed.

Lemma seg_total m p o bs p' o' : seg m p o bs p' o' → o' = o + total bs ∧ good bs.
Proof.
  revert p o. induction bs as [|[sz u] bs IH]; intros p o; cbn.
  - intros [_ ->]. split; [lia|constructor].
  - intros (_ & Hs & H). apply IH in H as [-> Hg]. split; [cbn; lia|]. by constructor.
Qed.

Lemma seg_app m p o l1 l2 p' o' :
  seg m p o (l1 ++ l2) p' o' ↔ ∃ q, seg m p o l1 q (o + total l1) ∧ seg m q (o + total l1) l2 p' o'.
Proof.
  revert p o. induction l1 as [|[sz u] l1 IH]; intros p o; cbn.
  - rewrite Z.add_0_r. split; [intros H; by exists p|]. by intros (q & [-> _] & H).
  - rewrite IH, <- Z.add_assoc. cbn. split.
    + intros (Hh & Hs & q & H1 & H2). exists q. rewrite Z.add_assoc in *. done.
    + intros (q & (Hh & Hs & H1) & H2). split; [done|]. split; [done|]. exists q. rewrite Z.add_assoc in *. done.
Qed.

Lemma seg_same m m' p o bs p' o' : same_on m m' o o' → seg m p o bs p' o' → seg m' p o bs p' o'.
Proof.
  revert p o. induction bs as [|[sz u] bs IH]; intros p o Hsame; cbn; [done|].
  intros (Hh & Hs & H). pose proof (seg_total _ _ _ _ _ _ H) as [Ho Hg].
  pose proof (proj1 (total_bounds bs Hg)). pose proof (proj1 Hs).
  refine (conj _ (conj Hs _)).
  - rewrite (hdr_same m); [done|]. intros i Hi. apply Hsame. lia.
  - apply IH; [|done]. intros i Hi. apply Hsame. lia.
Qed.

Lemma layout_good h bs : layout h bs → good bs ∧ total bs = h_end h.
Proof. intros [[p Hp] _ _ _ _ _]. apply seg_total in Hp as [-> Hg]. split; [done|lia]. Qed.

(** ** Field access *)

(** The bytes outside the headers at [ws] are untouched. *)
Definition touched (ws : list Z) (m m' : memory) : Prop :=
  ∀ i, Forall (λ w, i < w ∨ w + 12 ≤ i) ws → m' i = m i.

Lemma touched_trans ws1 ws2 ws m1 m2 m3 :
  ws1 ⊆ ws → ws2 ⊆ ws → touched ws1 m1 m2 → touched ws2 m2 m3 → touched ws m1 m3.
Proof.
  intros H1 H2 T1 T2 i Hi. rewrite Forall_forall in Hi.
  rewrite T2, T1; [done|..]; apply Forall_forall; intros w Hw; apply Hi; set_solver.
Qed.

Lemma touched_refl ws m : touched ws m m.
Proof. done. Qed.

Lemma touched_same ws m m' a b : touched ws m m' → Forall (λ w, b ≤ w ∨ w + 12 ≤ a) ws → same_on m m' a b.
Proof. intros H Hf i Hi. apply H. eapply Forall_impl; [done|]. cbn. lia. Qed.

Lemma store_touched n m o f v :
  0 ≤ f → f + Z.of_nat n ≤ 12 → touched [o] m (store n m (o + f) v).
Proof. intros H1 H2 i Hi. inversion Hi; subst. apply store_outside. lia. Qed.

Section hdr_store.
Context (m : memory) (o a b c d : Z) (Hh : hdr m o = (a, b, c, d)).

Lemma hdr_store_magic v : 0 ≤ v < 2 ^ 16 → hdr (store 2 m (o + 0) v) o = (v, b, c, d).
Proof.
  injection Hh as <- <- <- <-. intros Hv. unfold hdr. rewrite load_store_same by done.
  by rewrite !load_store_other by lia.
Qed.
Lemma hdr_store_used v : 0 ≤ v < 2 ^ 16 → hdr (store 2 m (o + 2) v) o = (a, v, c, d).
Proof.
  injection Hh as <- <- <- <-. intros Hv. unfold hdr. rewrite load_store_same by done.
  by rewrite !load_store_other by lia.
Qed.
Lemma hdr_store_next v : 0 ≤ v < 2 ^ 32 → hdr (store 4 m (o + 4) v) o = (a, b, v, d).
Proof.
  injection Hh as <- <- <- <-. intros Hv. unfold hdr. rewrite load_store_same by done.
  by rewrite !load_store_other by lia.
Qed.
Lemma hdr_store_prev v : 0 ≤ v < 2 ^ 32 → hdr (store 4 m (o + 8) v) o = (a, b, c, v).
Proof.
  injection Hh as <- <- <- <-. intros Hv. unfold hdr. rewrite load_store_same by done.
  by rewrite !load_store_other by lia.
Qed.
End hdr_store.

Lemma in_heap_true o h : 0 ≤ o ≤ h_end h → in_heap o h = true.
Proof. intros H. unfold in_heap. rewrite (proj2 (Z.leb_le _ _)), (proj2 (Z.leb_le _ _)) by lia. done. Qed.

Lemma rd_run h o a b c d :
  0 ≤ o ≤ h_end h → hdr (h_mem h) o = (a, b, c, d) →
  rd_magic o h = Some (a, h) ∧ rd_used o h = Some (b, h) ∧ rd_next o h = Some (c, h) ∧ rd_prev o h = Some (d, h).
Proof.
  intros Ho [= <- <- <- <-]. unfold rd_magic, rd_used, rd_next, rd_prev, rd. by rewrite in_heap_true.
Qed.

Lemma wr_run n f o v h :
  0 ≤ o ≤ h_end h → wr n f o v h = Some (tt, set_mem (store n (h_mem h) (o + f) v) h).
Proof. intros Ho. unfold wr. by rewrite in_heap_true. Qed.

(** The same heap with other memory. *)
Definition remem (h h' : heap) : Prop := h' = set_mem (h_mem h') h.

Lemma remem_set h m : remem h (set_mem m h).
Proof. done. Qed.
Lemma remem_trans h1 h2 h3 : remem h1 h2 → remem h2 h3 → remem h1 h3.
Proof. unfold remem. intros E1 E2. rewrite E2, E1. done. Qed.

(** ** A heap in two parts

    While a block is being split the [prev] field behind it lags: the blocks [x] and
    the blocks [y] are in order, but the predecessor of [y] is not the last of [x]. *)

Record half (h : heap) (x y : list block) : Prop := {
  hf_left : ∃ q, seg (h_mem h) 0 0 x q (total x);
  hf_right : ∃ r p, seg (h_mem h) r (total x) y p (h_end h);
  hf_end : load 2 (h_mem h) (h_end h + 2) = 1
}.

Definition frame (h : heap) : Prop :=
  h_end h = h_size h + SIZEOF_STRUCT_MEM ∧ MIN_SIZE ≤ h_size h ∧
  (0 < h_ptr h ∧ h_ptr h + h_end h + SIZEOF_STRUCT_MEM ≤ 2 ^ 32) ∧ h_ptr h mod 4 = 0.

Lemma layout_frame h bs : layout h bs → frame h.
Proof. intros [? ? ? ? ? ?]. done. Qed.

Lemma layout_intro h bs :
  frame h → (∃ p, seg (h_mem h) 0 0 bs p (h_end h)) → load 2 (h_mem h) (h_end h + 2) = 1 → layout h bs.
Proof. intros (? & ? & ? & ?) ? ?. by split. Qed.

Lemma frame_remem h h' : remem h h' → frame h → frame h'.
Proof. intros ->. done. Qed.

Lemma layout_half h x y : layout h (x ++ y) → half h x y.
Proof. intros [[p (q & H1 & H2)%seg_app] He _ _ _ _]. split; [by exists q|by exists q, p|done]. Qed.

(** A write to a header inside [x] that keeps [x] in order. *)
Lemma half_write h h' x x' y ws :
  remem h h' → half h x y → touched ws (h_mem h) (h_mem h') →
  Forall (λ w, 0 ≤ w ∧ w + 12 ≤ total x) ws → total x' = total x → total x ≤ h_end h →
  (∃ q, seg (h_mem h') 0 0 x' q (total x)) → half h' x' y.
Proof.
  intros Hr [[q H1] (r & p & H2) He] Ht Hws Etot Hle H'.
  assert (h_end h' = h_end h) as Ee by (by rewrite Hr). split; rewrite ?Etot, ?Ee; [done| |].
  - exists r, p. eapply seg_same; [|done]. eapply touched_same; [done|]. eapply Forall_impl; [done|]. cbn. lia.
  - rewrite (load_ext _ (h_mem h)); [done|]. intros i Hi. apply Ht. eapply Forall_impl; [done|]. cbn. lia.
Qed.

(** Updating the [prev] field behind [x]. *)
Lemma seg_wr_prev m p o bs p' o' v :
  seg m p o bs p' o' → 0 ≤ v < 2 ^ 32 → ∃ p'', seg (store 4 m (o + 8) v) v o bs p'' o'.
Proof.
  intros H Hv. destruct bs as [|[sz u] bs]; [by exists v; destruct H|]. destruct H as (Hh & [Hs1 Hs2] & H).
  exists p'. split; [by eapply hdr_store_prev|]. split; [done|]. eapply seg_same; [|done].
  eapply touched_same; [apply store_touched; lia|]. constructor; [lia|done].
Qed.

Lemma half_fix h x y q :
  frame h → half h x y → seg (h_mem h) 0 0 x q (total x) → 0 ≤ q < 2 ^ 32 → 0 ≤ total x ≤ h_end h →
  layout (set_mem (store 4 (h_mem h) (total x + 8) q) h) (x ++ y).
Proof.
  intros Hf [_ (r & p & H2) He] Hx Hq Htot. apply layout_intro; [done| |].
  - destruct (seg_wr_prev _ _ _ _ _ _ q H2 Hq) as [p'' H']. exists p''. cbn. apply seg_app. exists q. split; [|done].
    eapply seg_same; [|exact Hx]. eapply touched_same; [apply store_touched; lia|]. constructor; [lia|done].
  - cbn. rewrite load_store_other; [done|]. apply seg_total in H2 as [-> Hg]. pose proof (proj1 (total_bounds y Hg)).
    destruct y as [|b y]; [cbn; lia|]. pose proof (total_pos b y Hg). lia.
Qed.

(** ** Primitive changes of the layout *)

Section prims.
Context (h : heap) (l1 l2 : list block).

Lemma layout_offsets x :
  layout h (l1 ++ x ++ l2) →
  0 ≤ total l1 ∧ 0 ≤ total x ∧ 0 ≤ total l2 ∧ h_end h = total l1 + total x + total l2 ∧
  h_end h < 2 ^ 32 - 12 ∧ good l1 ∧ good x ∧ good l2.
Proof.
  intros HL. pose proof (layout_good _ _ HL) as [Hg Ht]. rewrite !total_app in Ht.
  apply good_app in Hg as [Hg1 Hg]. apply good_app in Hg as [Hg2 Hg3].
  pose proof (proj1 (total_bounds _ Hg1)). pose proof (proj1 (total_bounds _ Hg2)).
  pose proof (proj1 (total_bounds _ Hg3)). pose proof (ly_range _ _ HL) as [? ?]. unfold SIZEOF_STRUCT_MEM in *.
  split_and!; try done; lia.
Qed.

(** The header of the block behind [l1]. *)
Lemma layout_hdr sz u :
  layout h (l1 ++ [(sz, u)] ++ l2) →
  ∃ p, hdr (h_mem h) (total l1) = (HEAP_MAGIC, Z.b2z u, total l1 + sz, p) ∧
    match last l1 with Some b => p = total l1 - b.1 | None => p = 0 end ∧ seg (h_mem h) 0 0 l1 p (total l1).
Proof.
  intros [[p (q & H1 & H2)%seg_app] _ _ _ _ _]. destruct H2 as (Hh & _ & _).
  exists q. split; [done|]. split; [|done]. destruct (last l1) as [b|] eqn:El.
  - apply last_Some in El as [l0 ->]. apply seg_app in H1 as (q0 & _ & H1). destruct b as [bs bu].
    destruct H1 as (_ & _ & -> & _). rewrite total_app. cbn. lia.
  - apply last_None in El as ->. by destruct H1 as [-> _].
Qed.

End prims.

Lemma half_layout h bs : frame h → half h bs [] → total bs = h_end h → layout h bs.
Proof. intros Hf [[q H1] _ He] Ht. apply layout_intro; [done| |done]. exists q. by rewrite <- Ht. Qed.

(** Rewriting one header within [x]. *)
Lemma half_rewrite h l1 sz u v r y m' p q :
  half h (l1 ++ [(sz, u)] ++ r) y → total (l1 ++ [(sz, u)] ++ r) ≤ h_end h →
  seg (h_mem h) 0 0 (l1 ++ [(sz, u)] ++ r) q (total (l1 ++ [(sz, u)] ++ r)) →
  seg (h_mem h) 0 0 l1 p (total l1) →
  touched [total l1] (h_mem h) m' → hdr m' (total l1) = (HEAP_MAGIC, Z.b2z v, total l1 + sz, p) →
  half (set_mem m' h) (l1 ++ [(sz, v)] ++ r) y ∧
  seg m' 0 0 (l1 ++ [(sz, v)] ++ r) q (total (l1 ++ [(sz, v)] ++ r)).
Proof.
  intros Hhf Hle Hx Hp Ht Hh.
  pose proof (seg_total _ _ _ _ _ _ Hx) as [_ Hg]. rewrite !total_app in Hle |- *. cbn in Hle |- *.
  pose proof Hg as Hg'. apply good_app in Hg' as [Hg1 Hg']. apply good_app in Hg' as [Hgx Hgr].
  pose proof (proj1 (total_bounds _ Hg1)). pose proof (proj1 (total_bounds _ Hgr)).
  pose proof (total_pos _ _ Hgx) as [Hsz _]. cbn in Hsz.
  apply seg_app in Hx as (q1 & _ & (Hh0 & Hsg & Hr)). rewrite !Z.add_0_l in *.
  assert (seg m' 0 0 (l1 ++ (sz, v) :: r) q (total l1 + (sz + total r))) as Hseg.
  { apply seg_app. exists p. rewrite Z.add_0_l. split; [|split; [|split]]; [| |done|].
    - eapply seg_same; [|done]. eapply touched_same; [done|]. constructor; [lia|done].
    - done.
    - rewrite !total_app in Hr. cbn in Hr. rewrite Z.add_0_r in Hr.
      eapply seg_same; [|done]. eapply touched_same; [done|]. constructor; [lia|done]. }
  split; [|by rewrite Z.add_0_r].
  eapply (half_write h); [done|done|exact Ht| | | |].
  - rewrite !total_app. cbn. constructor; [lia|done].
  - rewrite !total_app. cbn. lia.
  - rewrite !total_app. cbn. lia.
  - exists q. rewrite !total_app. cbn. rewrite Z.add_0_r. exact Hseg.
Qed.

(** Changing the [used] field of a block, with [y] behind the lag. *)
Lemma half_set_used h l1 sz u v r y q :
  half h (l1 ++ [(sz, u)] ++ r) y → total (l1 ++ [(sz, u)] ++ r) ≤ h_end h →
  seg (h_mem h) 0 0 (l1 ++ [(sz, u)] ++ r) q (total (l1 ++ [(sz, u)] ++ r)) →
  ∃ h', wr_used (total l1) (Z.b2z v) h = Some (tt, h') ∧ remem h h' ∧
    half h' (l1 ++ [(sz, v)] ++ r) y ∧
    seg (h_mem h') 0 0 (l1 ++ [(sz, v)] ++ r) q (total (l1 ++ [(sz, v)] ++ r)) ∧
    touched [total l1] (h_mem h) (h_mem h').
Proof.
  intros Hhf Hle Hx. pose proof (seg_total _ _ _ _ _ _ Hx) as [_ Hg].
  pose proof Hg as Hg'. apply good_app in Hg' as [Hg1 Hg'].
  pose proof (proj1 (total_bounds _ Hg1)). pose proof (proj1 (total_bounds _ Hg')). rewrite total_app in Hle.
  pose proof Hx as (p & Hp & (Hh & _))%seg_app. rewrite Z.add_0_l in Hp, Hh.
  assert (touched [total l1] (h_mem h) (store 2 (h_mem h) (total l1 + 2) (Z.b2z v))) as Ht by (apply store_touched; lia).
  eexists. split; [apply wr_run; lia|]. split; [done|].
  destruct (half_rewrite h l1 sz u v r y (store 2 (h_mem h) (total l1 + 2) (Z.b2z v)) p q) as [? ?];
    [done|by rewrite total_app|done|done|done|eapply hdr_store_used; [done|by destruct v]|done].
Qed.

Lemma layout_seg h bs : layout h bs → ∃ q, seg (h_mem h) 0 0 bs q (total bs) ∧ half h bs [] ∧ total bs = h_end h.
Proof.
  intros HL. pose proof (layout_good _ _ HL) as [_ Ht]. pose proof (ly_seg _ _ HL) as [q Hq].
  exists q. rewrite Ht. split_and!; [done| |done]. apply layout_half. by rewrite app_nil_r.
Qed.

Lemma layout_set_used h l1 l2 sz u v :
  layout h (l1 ++ [(sz, u)] ++ l2) →
  ∃ h', wr_used (total l1) (Z.b2z v) h = Some (tt, h') ∧ remem h h' ∧
    layout h' (l1 ++ [(sz, v)] ++ l2) ∧ touched [total l1] (h_mem h) (h_mem h').
Proof.
  intros HL. destruct (layout_seg _ _ HL) as (q & Hq & Hh & Ht).
  destruct (half_set_used h l1 sz u v l2 [] q Hh ltac:(lia) Hq) as (h' & Hr & Hm & Hh' & _ & Htc).
  exists h'. split_and!; try done. apply half_layout; [|done|].
  - eapply frame_remem; [done|]. by eapply layout_frame.
  - rewrite Hm. cbn. rewrite <- Ht, !total_app. cbn. lia.
Qed.

(** Writing the magic number again changes nothing. *)
Lemma layout_set_magic h l1 l2 sz u :
  layout h (l1 ++ [(sz, u)] ++ l2) →
  ∃ h', wr_magic (total l1) HEAP_MAGIC h = Some (tt, h') ∧ remem h h' ∧
    layout h' (l1 ++ [(sz, u)] ++ l2) ∧ touched [total l1] (h_mem h) (h_mem h').
Proof.
  intros HL. destruct (layout_seg _ _ HL) as (q & Hq & Hh & Ht).
  destruct (layout_offsets _ _ _ _ HL) as (? & ? & ? & ? & _). destruct (layout_hdr _ _ _ _ _ HL) as (p & Hhd & _ & Hp).
  assert (touched [total l1] (h_mem h) (store 2 (h_mem h) (total l1 + 0) HEAP_MAGIC)) as Htc by (apply store_touched; lia).
  eexists. split; [apply wr_run; lia|]. split; [done|]. split; [|done].
  destruct (half_rewrite h l1 sz u u l2 [] (store 2 (h_mem h) (total l1 + 0) HEAP_MAGIC) p q) as [? _];
    [done|lia|done|done|done|by eapply hdr_store_magic|].
  apply half_layout; [eapply (frame_remem h); [done|by eapply layout_frame]|done|done].
Qed.

(** Joining a block with its successor. *)
Lemma layout_merge h l1 l2 s1 u1 s2 u2 :
  layout h (l1 ++ [(s1, u1); (s2, u2)] ++ l2) →
  let o1 := total l1 in let o3 := total l1 + s1 + s2 in
  ∃ h', (wr_next o1 o3 ;; wr_prev o3 o1) h = Some (tt, h') ∧ remem h h' ∧
    layout h' (l1 ++ [(s1 + s2, u1)] ++ l2) ∧ touched [o1; o3] (h_mem h) (h_mem h').
Proof.
  intros HL o1 o3. pose proof (layout_offsets _ _ _ _ HL) as (H0 & _ & H2 & He & Hlt & Hg1 & Hgx & Hg2).
  inversion Hgx as [|? ? [Ha Ha4] Hgx']; subst. inversion Hgx' as [|? ? [Hb Hb4] _]; subst. cbn in Ha, Ha4, Hb, Hb4, He.
  assert (layout h (l1 ++ [(s1, u1)] ++ (s2, u2) :: l2)) as HL' by done.
  destruct (layout_hdr _ _ _ _ _ HL') as (p & Hhd & _ & Hp). clear HL'.
  set (m1 := store 4 (h_mem h) (o1 + 4) o3).
  assert (touched [o1] (h_mem h) m1) as Ht1 by (apply store_touched; lia).
  assert (seg m1 0 0 (l1 ++ [(s1 + s2, u1)]) o1 (total (l1 ++ [(s1 + s2, u1)]))) as Hs1.
  { apply seg_app. exists p. rewrite Z.add_0_l, total_app. cbn. split; [|split; [|split; [|split]]].
    - eapply seg_same; [|done]. eapply touched_same; [done|]. constructor; [lia|done].
    - rewrite Z.add_assoc. eapply hdr_store_next; [done|]. lia.
    - split; [lia|]. rewrite Z.add_mod, Ha4, Hb4 by lia. done.
    - done.
    - lia. }
  assert (half (set_mem m1 h) (l1 ++ [(s1 + s2, u1)]) l2) as Hh1.
  { assert (layout h ((l1 ++ [(s1, u1); (s2, u2)]) ++ l2)) as HL' by (by rewrite <- app_assoc).
    apply layout_half in HL'.
    eapply (half_write h); [done|exact HL'|exact Ht1| | | |]; rewrite ?total_app; cbn.
    - constructor; [lia|done].
    - lia.
    - lia.
    - exists o1. rewrite total_app in Hs1. cbn in Hs1. by rewrite !Z.add_0_r, ?Z.add_0_r in *. }
  assert (total (l1 ++ [(s1 + s2, u1)]) = o3) as Eo3 by (rewrite total_app; cbn; lia).
  exists (set_mem (store 4 m1 (o3 + 8) o1) h). split; [|split; [done|split]].
  - unfold bind, wr_next, wr_prev. rewrite wr_run by lia. fold m1. rewrite wr_run by (cbn; lia). done.
  - rewrite app_assoc. rewrite <- Eo3.
    apply (half_fix (set_mem m1 h) (l1 ++ [(s1 + s2, u1)]) l2 o1); [by apply layout_frame in HL|done|done|lia|cbn; lia].
  - eapply (touched_trans [o1] [o3]); [set_solver|set_solver|exact Ht1|]. apply store_touched; lia.
Qed.

(** Splitting a block: the header of the rest is written and the block shortened; the
    [prev] field behind still lags. *)
Lemma layout_carve h l1 l2 sz u n :
  layout h (l1 ++ [(sz, u)] ++ l2) → good_size n → good_size (sz - n) →
  let o := total l1 in
  ∃ h', (split_block o (o + n) (o + sz) ;; wr_next o (o + n)) h = Some (tt, h') ∧ remem h h' ∧
    half h' (l1 ++ [(n, u); (sz - n, false)]) l2 ∧
    seg (h_mem h') 0 0 (l1 ++ [(n, u); (sz - n, false)]) (o + n) (total (l1 ++ [(n, u); (sz - n, false)])) ∧
    touched [o; o + n] (h_mem h) (h_mem h').
Proof.
  intros HL [Hn Hn4] [Hr Hr4] o. pose proof (layout_offsets _ _ _ _ HL) as (H0 & _ & H2 & He & Hlt & Hg1 & Hgx & Hg2).
  cbn in He. destruct (layout_hdr _ _ _ _ _ HL) as (p & Hhd & _ & Hp). set (o2 := o + n).
  destruct (hdr (h_mem h) o2) as [[[a b] c] d] eqn:Eh2.
  set (m1 := store 2 (h_mem h) (o2 + 0) HEAP_MAGIC).
  assert (hdr m1 o2 = (HEAP_MAGIC, b, c, d)) as E1 by (by eapply hdr_store_magic).
  set (m2 := store 2 m1 (o2 + 2) 0).
  assert (hdr m2 o2 = (HEAP_MAGIC, 0, c, d)) as E2 by (by eapply hdr_store_used).
  set (m3 := store 4 m2 (o2 + 4) (o + sz)).
  assert (hdr m3 o2 = (HEAP_MAGIC, 0, o + sz, d)) as E3 by (eapply hdr_store_next; [done|lia]).
  set (m4 := store 4 m3 (o2 + 8) o).
  assert (hdr m4 o2 = (HEAP_MAGIC, 0, o + sz, o)) as E4 by (eapply hdr_store_prev; [done|lia]).
  assert (touched [o2] (h_mem h) m4) as T4.
  { repeat (eapply (touched_trans [o2] [o2]); [set_solver|set_solver| |apply store_touched; lia]). apply touched_refl. }
  set (m5 := store 4 m4 (o + 4) o2). assert (touched [o] m4 m5) as T5 by (apply store_touched; lia).
  assert (touched [o; o2] (h_mem h) m5) as T.
  { eapply (touched_trans [o2] [o]); [set_solver|set_solver|done|done]. }
  assert (seg m5 0 0 (l1 ++ [(n, u); (sz - n, false)]) o2 (total (l1 ++ [(n, u); (sz - n, false)]))) as Hs.
  { apply seg_app. exists p. rewrite Z.add_0_l, total_app. fold o. cbn. split; [|split; [|split; [|split; [|split; [|split]]]]].
    - eapply seg_same; [|done]. eapply touched_same; [done|]. repeat constructor; lia.
    - eapply hdr_store_next; [|unfold o2; lia]. rewrite (hdr_same (h_mem h)); [done|].
      eapply touched_same; [done|]. constructor; [lia|done].
    - done.
    - replace (o + n + (sz - n)) with (o + sz) by lia. rewrite (hdr_same m4); [done|].
      eapply touched_same; [done|]. constructor; [lia|done].
    - done.
    - done.
    - lia. }
  exists (set_mem m5 h). split; [|split; [done|split; [|split; [exact Hs|exact T]]]].
  - unfold bind, split_block, wr_magic, wr_used, wr_next, wr_prev, bind.
    repeat (rewrite wr_run by (cbn; lia); cbn [set_mem h_mem h_end]). done.
  - assert (layout h ((l1 ++ [(sz, u)]) ++ l2)) as HL' by (by rewrite <- app_assoc).
    apply layout_half in HL'.
    eapply (half_write h); [done|exact HL'|exact T| | | |]; rewrite ?total_app; cbn.
    + repeat constructor; lia.
    + lia.
    + lia.
    + exists o2. rewrite total_app in Hs. cbn in Hs. by replace (total l1 + (n + (sz - n + 0))) with (total l1 + (sz + 0)) in Hs by lia.
Qed.

(** ** Coalescing *)

Definition join_right (sz : Z) (l2 : list block) : Z * list block :=
  match l2 with (s2, false) :: l2' => (sz + s2, l2') | _ => (sz, l2) end.

(** The list around a free block of size [sz] once it is joined with its neighbours. *)
Definition coalesce (l1 : list block) (sz : Z) (l2 : list block) : list block :=
  let j := join_right sz l2 in
  match last l1 with
  | Some (s1, false) => removelast l1 ++ [(s1 + j.1, false)] ++ j.2
  | _ => l1 ++ [(j.1, false)] ++ j.2
  end.

(** What a join keeps: the free blocks of the result start where free blocks started,
    and only the start of the second one disappears. *)
Lemma merge_free l1 s1 s2 l2 o :
  (is_free (l1 ++ [(s1 + s2, false)] ++ l2) o → is_free (l1 ++ [(s1, false); (s2, false)] ++ l2) o) ∧
  (is_free (l1 ++ [(s1, false); (s2, false)] ++ l2) o → o ≠ total l1 + s1 →
   is_free (l1 ++ [(s1 + s2, false)] ++ l2) o).
Proof.
  cbn [app]. rewrite !is_free_app. cbn. replace (o - total l1 - (s1 + s2)) with (o - total l1 - s1 - s2) by lia.
  split; [tauto|]. intros [?|[[_ ?]|[[_ ?]|?]]] Hne; [tauto|right; left; done|lia|tauto].
Qed.

(** Heaps that differ in memory and [lfree] only. *)
Definition relinked (h h' : heap) : Prop := h' = set_lfree (h_lfree h') (set_mem (h_mem h') h).

Lemma relinked_trans h1 h2 h3 : relinked h1 h2 → relinked h2 h3 → relinked h1 h3.
Proof. unfold relinked. intros E1 E2. rewrite E2, E1. done. Qed.

(** Every header in [ws] belongs to a block of [bs] or to the end of the heap. *)
Fixpoint starts (bs : list block) (w : Z) : Prop :=
  match bs with [] => False | b :: bs' => w = 0 ∨ starts bs' (w - b.1) end.
Definition hdr_at (bs : list block) (w : Z) : Prop := starts bs w ∨ w = total bs.

Lemma starts_app l1 l2 w : starts (l1 ++ l2) w ↔ starts l1 w ∨ starts l2 (w - total l1).
Proof.
  revert w. induction l1 as [|[sz u] l1 IH]; intros w; cbn; [rewrite Z.sub_0_r; tauto|].
  rewrite IH. replace (w - sz - total l1) with (w - (sz + total l1)) by lia. tauto.
Qed.

Lemma hdr_at_app l1 l2 : hdr_at (l1 ++ l2) (total l1).
Proof.
  unfold hdr_at. rewrite total_app. destruct l2 as [|b l2]; [right; cbn; lia|left].
  apply starts_app. right. left. lia.
Qed.

(** The effect of joining blocks: [bs] becomes [bs'] and [lfree] follows. *)
Definition joined (bs bs' : list block) (h h' : heap) : Prop :=
  layout h' bs' ∧ free_at bs' (h_lfree h') ∧ relinked h h' ∧ h_lfree h' ≤ h_lfree h ∧
  (∀ o, is_free bs' o → is_free bs o) ∧ used_total bs' = used_total bs ∧ total bs' = total bs ∧
  (∀ w, hdr_at bs' w → hdr_at bs w) ∧ (free_at bs' (h_lfree h) → h_lfree h' = h_lfree h) ∧
  ∃ ws, Forall (hdr_at bs) ws ∧ touched ws (h_mem h) (h_mem h').

Lemma joined_refl bs h : layout h bs → free_at bs (h_lfree h) → joined bs bs h h.
Proof.
  intros HL Hf. refine (conj HL (conj Hf (conj _ (conj _ (conj _ (conj _ (conj _ (conj _ (conj _ _))))))))); try done.
  - by destruct h.
  - by exists [].
Qed.

(** The body of both joins. *)
Lemma join_run h l1 s1 s2 l2 :
  let bs := l1 ++ [(s1, false); (s2, false)] ++ l2 in
  let o1 := total l1 in let o2 := total l1 + s1 in let o3 := total l1 + s1 + s2 in
  layout h bs → free_at bs (h_lfree h) →
  ∃ h', (lfree ← gets h_lfree;
         (if lfree =? o2 then modify (set_lfree o1) else ret tt) ;;
         next ← rd_next o2; wr_next o1 next ;; wr_prev next o1) h = Some (tt, h') ∧
    joined bs (l1 ++ [(s1 + s2, false)] ++ l2) h h'.
Proof.
  intros bs o1 o2 o3 HL Hf. set (lf := if h_lfree h =? o2 then o1 else h_lfree h).
  set (h1 := set_lfree lf h).
  assert (layout h1 bs) as HL1 by (destruct HL; by split).
  pose proof (layout_offsets _ _ _ _ HL) as (H0 & _ & H2 & He & Hlt & Hg1 & Hgx & Hg2).
  inversion Hgx as [|? ? [Ha _] Hgx']; subst. inversion Hgx' as [|? ? [Hb _] _]; subst. cbn in Ha, Hb, He.
  destruct (layout_merge h1 l1 l2 s1 false s2 false HL1) as (h' & Hr & Hm & HL' & Ht).
  assert (layout h1 ((l1 ++ [(s1, false)]) ++ [(s2, false)] ++ l2)) as HL2 by (by rewrite <- app_assoc).
  destruct (layout_hdr _ _ _ _ _ HL2) as (p & Hhd & _ & _). rewrite total_app in Hhd. cbn in Hhd. rewrite Z.add_0_r in Hhd.
  exists h'. split.
  - unfold bind at 1, gets. unfold bind at 1.
    assert ((if h_lfree h =? o2 then modify (set_lfree o1) else ret tt) h = Some (tt, h1)) as ->.
    { unfold h1, lf. destruct (h_lfree h =? o2); [done|]. by destruct h. }
    unfold bind at 1. destruct (rd_run h1 o2 _ _ _ _ ltac:(cbn; lia) Hhd) as (_ & _ & -> & _). exact Hr.
  - assert (h_lfree h' = lf) as Elf by (by rewrite Hm).
    assert (total (l1 ++ [(s1 + s2, false)] ++ l2) = total bs) as Etot by (unfold bs; rewrite !total_app; cbn; lia).
    refine (conj HL' (conj _ (conj _ (conj _ (conj _ (conj _ (conj Etot (conj _ (conj _ _))))))))).
    + rewrite Elf. unfold free_at. rewrite Etot. unfold lf. destruct (Z.eqb_spec (h_lfree h) o2) as [E|E].
      * left. apply is_free_app. right. cbn. left. split; [done|]. unfold o1. lia.
      * destruct Hf as [Hf|Hf]; [left|by right]. apply merge_free; [done|]. unfold o2 in E. lia.
    + unfold relinked. rewrite Elf. exact Hm.
    + rewrite Elf. unfold lf. destruct (Z.eqb_spec (h_lfree h) o2); unfold o1, o2 in *; lia.
    + intros o. apply merge_free.
    + unfold bs. rewrite !used_total_app. cbn. lia.
    + intros w. unfold hdr_at. rewrite Etot. unfold bs. cbn [app]. rewrite !starts_app. cbn.
      replace (w - total l1 - (s1 + s2)) with (w - total l1 - s1 - s2) by lia. tauto.
    + rewrite Elf. unfold lf. destruct (Z.eqb_spec (h_lfree h) o2) as [E|E]; [|done]. rewrite E. unfold free_at, o2.
      rewrite Etot. unfold bs. cbn [app]. rewrite is_free_app, total_app. cbn. intros [[F|[[_ F]|F]]|F]; [| |apply is_free_range in F|]; try lia.
      * apply is_free_range in F; [lia|done].
      * done.
    + exists [o1; o3]. split; [|exact Ht]. constructor; [|constructor; [|done]].
      * apply hdr_at_app.
      * unfold bs. replace o3 with (total (l1 ++ [(s1, false); (s2, false)])) by (rewrite total_app; cbn; unfold o3; lia).
        rewrite app_assoc. apply hdr_at_app.
Qed.

Lemma joined_trans bs1 bs2 bs3 h1 h2 h3 : joined bs1 bs2 h1 h2 → joined bs2 bs3 h2 h3 → joined bs1 bs3 h1 h3.
Proof.
  intros (_ & _ & Hr & Hl & Hfr & Hu & Ht & Hh & He & ws & Hws & Htc)
         (HL' & Hf' & Hr' & Hl' & Hfr' & Hu' & Ht' & Hh' & He' & ws' & Hws' & Htc').
  refine (conj HL' (conj Hf' (conj _ (conj _ (conj _ (conj _ (conj _ (conj _ (conj _ _))))))))); try (congruence || lia || by eauto).
  - by eapply relinked_trans.
  - intros Hf3. rewrite <- He; [apply He'|]; rewrite ?He; try done;
      (destruct Hf3 as [F|F]; [left; by apply Hfr'|right; by rewrite <- Ht']).
  - exists (ws ++ ws'). split.
    + apply Forall_app. split; [done|]. eapply Forall_impl; [exact Hws'|]. done.
    + eapply touched_trans; [| |exact Htc|exact Htc']; set_solver.
Qed.

Lemma end_used h bs : layout h bs → rd_used (h_end h) h = Some (1, h).
Proof.
  intros HL. pose proof (layout_good _ _ HL) as [Hg Ht]. pose proof (proj1 (total_bounds _ Hg)).
  unfold rd_used, rd. rewrite in_heap_true by lia. by rewrite (ly_end _ _ HL).
Qed.

Lemma plug_forward_run h l1 sz l2 :
  let bs := l1 ++ [(sz, false)] ++ l2 in
  layout h bs → free_at bs (h_lfree h) →
  ∃ h', plug_forward (total l1) h = Some (tt, h') ∧
    joined bs (l1 ++ [((join_right sz l2).1, false)] ++ (join_right sz l2).2) h h'.
Proof.
  intros bs HL Hf. pose proof (layout_offsets _ _ _ _ HL) as (H0 & _ & H2 & He & Hlt & Hg1 & Hgx & Hg2).
  pose proof (total_pos _ _ Hgx) as [Hsz _]. cbn in Hsz, He.
  destruct (layout_hdr _ _ _ _ _ HL) as (p & Hhd & _ & _).
  destruct (rd_run h (total l1) _ _ _ _ ltac:(lia) Hhd) as (_ & _ & Hnext & _).
  unfold plug_forward, bind at 1. rewrite Hnext. destruct l2 as [|[s2 u2] l2].
  - unfold bind at 1. replace (total l1 + sz) with (h_end h) by (cbn in He; lia). rewrite (end_used h bs) by done.
    unfold bind, gets. cbn [join_right fst snd]. rewrite andb_false_r. exists h. split; [done|]. by apply joined_refl.
  - assert (layout h ((l1 ++ [(sz, false)]) ++ [(s2, u2)] ++ l2)) as HL2 by (by rewrite <- app_assoc).
    pose proof (layout_offsets _ _ _ _ HL2) as (_ & _ & H2' & He' & _ & _ & Hgx' & _).
    pose proof (total_pos _ _ Hgx') as [Hs2 _]. cbn in Hs2. rewrite total_app in He'. cbn in He'.
    destruct (layout_hdr _ _ _ _ _ HL2) as (p2 & Hhd2 & _ & _). rewrite total_app in Hhd2. cbn in Hhd2. rewrite Z.add_0_r in Hhd2.
    destruct (rd_run h (total l1 + sz) _ _ _ _ ltac:(lia) Hhd2) as (_ & Hused2 & _ & _).
    unfold bind at 1. rewrite Hused2. unfold bind at 1, gets at 1.
    rewrite (proj2 (Z.eqb_neq (total l1) (total l1 + sz))), (proj2 (Z.eqb_neq (total l1 + sz) (h_end h))) by lia.
    destruct u2; cbn [Z.b2z Z.eqb negb andb join_right fst snd].
    + exists h. split; [done|]. by apply joined_refl.
    + apply (join_run h l1 sz s2 l2 HL Hf).
Qed.

Lemma plug_backward_run h l1 sz l2 :
  let bs := l1 ++ [(sz, false)] ++ l2 in
  layout h bs → free_at bs (h_lfree h) →
  ∃ h', plug_backward (total l1) h = Some (tt, h') ∧
    joined bs (match last l1 with
               | Some (s1, false) => removelast l1 ++ [(s1 + sz, false)] ++ l2
               | _ => bs end) h h'.
Proof.
  intros bs HL Hf. pose proof (layout_offsets _ _ _ _ HL) as (H0 & _ & H2 & He & Hlt & Hg1 & Hgx & Hg2).
  pose proof (total_pos _ _ Hgx) as [Hsz _]. cbn in Hsz, He.
  destruct (layout_hdr _ _ _ _ _ HL) as (p & Hhd & Hp & _).
  destruct (rd_run h (total l1) _ _ _ _ ltac:(lia) Hhd) as (_ & Hused & _ & Hprev).
  unfold plug_backward, bind at 1. rewrite Hprev. destruct (last l1) as [[s1 u1]|] eqn:El.
  - apply last_Some in El as [l0 ->]. cbn in Hp. subst p. rewrite removelast_last.
    rewrite total_app in *. cbn in *. rewrite Z.add_0_r in *.
    replace (total l0 + s1 - s1) with (total l0) in * by lia.
    assert (layout h (l0 ++ [(s1, u1)] ++ (sz, false) :: l2)) as HL0 by (unfold bs in HL; by rewrite <- app_assoc in HL).
    pose proof (layout_offsets _ _ _ _ HL0) as (H00 & _ & _ & _ & _ & _ & Hgx0 & _).
    pose proof (total_pos _ _ Hgx0) as [Hs1 _]. cbn in Hs1.
    destruct (layout_hdr _ _ _ _ _ HL0) as (p0 & Hhd0 & _ & _).
    destruct (rd_run h (total l0) _ _ _ _ ltac:(lia) Hhd0) as (_ & Hused0 & _ & _).
    unfold bind at 1. rewrite Hused0. rewrite (proj2 (Z.eqb_neq (total l0) (total l0 + s1))) by lia.
    destruct u1; cbn [Z.b2z Z.eqb negb andb].
    + exists h. split; [done|]. by apply joined_refl.
    + unfold bs in *. rewrite <- app_assoc in *. apply (join_run h l0 s1 sz l2 HL Hf).
  - apply last_None in El as ->. cbn in Hp. subst p. unfold bind at 1.
    cbn [total] in *. rewrite Hused. cbn. exists h. split; [done|]. by apply joined_refl.
Qed.

Lemma plug_holes_run h l1 sz l2 :
  let bs := l1 ++ [(sz, false)] ++ l2 in
  layout h bs → free_at bs (h_lfree h) →
  ∃ h', plug_holes (total l1) h = Some (tt, h') ∧ joined bs (coalesce l1 sz l2) h h'.
Proof.
  intros bs HL Hf. pose proof (layout_offsets _ _ _ _ HL) as (H0 & _ & H2 & He & Hlt & Hg1 & Hgx & Hg2).
  pose proof (total_pos _ _ Hgx) as [Hsz _]. cbn in Hsz, He.
  destruct (layout_hdr _ _ _ _ _ HL) as (p & Hhd & _ & _).
  destruct (rd_run h (total l1) _ _ _ _ ltac:(lia) Hhd) as (_ & Hused & _ & _).
  destruct (plug_forward_run h l1 sz l2 HL Hf) as (h1 & Hr1 & J1).
  pose proof J1 as (HL1 & Hf1 & _).
  destruct (plug_backward_run h1 l1 _ _ HL1 Hf1) as (h2 & Hr2 & J2).
  exists h2. split.
  - unfold plug_holes, bind at 1, gets. unfold bind at 1, assert at 1.
    rewrite (proj2 (Z.leb_le _ _)), (proj2 (Z.ltb_lt _ _)) by lia. cbn [andb].
    unfold bind at 1. rewrite Hused. cbn [Z.b2z]. unfold bind at 1, assert. cbn [Z.eqb].
    unfold bind. by rewrite Hr1.
  - eapply joined_trans; [exact J1|]. unfold coalesce. exact J2.
Qed.

(** ** Payloads *)

Lemma starts_range bs w : good bs → starts bs w → 0 ≤ w ∧ w + 16 ≤ total bs.
Proof.
  intros Hg. revert w. induction Hg as [|[sz u] bs [Hs _] Hg IH]; intros w; cbn; [done|].
  cbn in Hs. pose proof (proj1 (total_bounds bs Hg)). intros [->|Hw]; [lia|]. apply IH in Hw. lia.
Qed.

(** Headers lie outside the payload of every block. *)
Lemma hdr_apart l1 b l2 w :
  good (l1 ++ b :: l2) → hdr_at (l1 ++ b :: l2) w → w ≤ total l1 ∨ total l1 + b.1 ≤ w.
Proof.
  intros Hg. apply good_app in Hg as [Hg1 Hg2]. inversion Hg2 as [|? ? [Hs _] Hg3]; subst.
  pose proof (proj1 (total_bounds l2 Hg3)). unfold hdr_at. rewrite starts_app, total_app. cbn.
  intros [[Hw|[Hw|Hw]]|Hw]; [apply starts_range in Hw; [lia|done]|lia| |lia].
  apply starts_range in Hw; [lia|done].
Qed.

(** The bytes of every block of [bs] behind its header are unchanged. *)
Definition payload_kept (bs : list block) (m m' : memory) : Prop :=
  ∀ l1 b l2 i, bs = l1 ++ b :: l2 → total l1 + SIZEOF_STRUCT_MEM ≤ i < total l1 + b.1 → m' i = m i.

Lemma touched_payload bs ws m m' : good bs → Forall (hdr_at bs) ws → touched ws m m' → payload_kept bs m m'.
Proof.
  intros Hg Hws Ht l1 b l2 i -> Hi. unfold SIZEOF_STRUCT_MEM in Hi. apply Ht. eapply Forall_impl; [exact Hws|].
  intros w Hw. destruct (hdr_apart l1 b l2 w Hg Hw); lia.
Qed.

Lemma coalesced_release l1 sz l2 : coalesced (l1 ++ [(sz, true)] ++ l2) → coalesced (coalesce l1 sz l2).
Proof.
  rewrite !coalesced_app. intros (H1 & (_ & H2 & _) & _). unfold coalesce.
  assert (∀ s, coalesced ([(s, false)] ++ (join_right sz l2).2)) as Hr.
  { intros s. unfold join_right. destruct l2 as [|[s2 []] l2]; cbn in *; [done|tauto|].
    destruct l2 as [|[s3 u3] l2]; cbn in *; [done|]. destruct H2 as [[?|?] ?]; [done|tauto]. }
  destruct (last l1) as [[s1 []]|] eqn:El.
  - apply coalesced_app. split_and!; [done|apply Hr|]. unfold junction. by rewrite El.
  - apply last_Some in El as [l0 ->]. rewrite removelast_last. apply coalesced_app in H1 as (H1 & _ & Hj).
    apply coalesced_app. split_and!; [done|apply Hr|]. exact Hj.
  - apply last_None in El as ->. apply Hr.
Qed.

(** ** Releasing a block *)

(** What every operation keeps. *)
Definition fixed (h h' : heap) : Prop := h_ptr h' = h_ptr h ∧ h_end h' = h_end h ∧ h_size h' = h_size h.

Lemma layout_lfree o h bs : layout h bs → layout (set_lfree o h) bs.
Proof. intros []. by split. Qed.
Lemma layout_used u mx h bs : layout h bs → layout (set_used u mx h) bs.
Proof. intros []. by split. Qed.

Lemma is_free_mark l1 sz l2 o :
  is_free (l1 ++ [(sz, true)] ++ l2) o → is_free (l1 ++ [(sz, false)] ++ l2) o.
Proof. cbn [app]. rewrite !is_free_app. cbn. tauto. Qed.

Lemma is_free_mark_inv l1 sz l2 o :
  is_free (l1 ++ [(sz, false)] ++ l2) o → is_free (l1 ++ [(sz, true)] ++ l2) o ∨ o = total l1.
Proof. cbn [app]. rewrite !is_free_app. cbn. intros [?|[[_ ?]|?]]; [tauto|right; lia|tauto]. Qed.

Lemma free_section_run h l1 sz l2 :
  let bs := l1 ++ [(sz, true)] ++ l2 in
  hwf h bs →
  ∃ h', free_section (total l1) h = Some (tt, h') ∧ hwf h' (coalesce l1 sz l2) ∧ fixed h h' ∧
    payload_kept bs (h_mem h) (h_mem h') ∧ (lowest_free h bs → lowest_free h' (coalesce l1 sz l2)).
Proof.
  intros bs [HL Hco Hlf Hus Hmx].
  pose proof (layout_offsets _ _ _ _ HL) as (H0 & _ & H2 & He & Hlt & Hg1 & Hgx & Hg2).
  pose proof (total_pos _ _ Hgx) as [Hsz _]. cbn in Hsz, He.
  destruct (layout_hdr _ _ _ _ _ HL) as (p & Hhd & _ & _).
  destruct (rd_run h (total l1) _ _ _ _ ltac:(lia) Hhd) as (Hmagic & Hused & _ & _).
  destruct (layout_set_used h l1 l2 sz true false HL) as (h1 & Hr1 & Hm1 & HL1 & Ht1).
  destruct (layout_set_magic h1 l1 l2 sz false HL1) as (h2 & Hr2 & Hm2 & HL2 & Ht2).
  set (lf := if total l1 <? h_lfree h then total l1 else h_lfree h).
  set (h3 := set_lfree lf h2). assert (layout h3 (l1 ++ [(sz, false)] ++ l2)) as HL3 by by apply layout_lfree.
  set (u := u32 (h_used h - sz)). set (h4 := set_used u (h_max h) h3).
  assert (layout h4 (l1 ++ [(sz, false)] ++ l2)) as HL4 by by apply layout_used.
  pose proof (remem_trans _ _ _ Hm1 Hm2) as Hm.
  assert (h_lfree h2 = h_lfree h ∧ h_used h2 = h_used h ∧ h_max h2 = h_max h) as (El2 & Eu2 & Ex2) by (by rewrite Hm).
  assert (free_at (l1 ++ [(sz, false)] ++ l2) (h_lfree h4)) as Hf4.
  { cbn. unfold free_at, lf. destruct (Z.ltb_spec (total l1) (h_lfree h)).
    - left. cbn [app]. rewrite is_free_app. right. left. split; [done|lia].
    - destruct Hlf as [Hlf|Hlf]; [left; by apply is_free_mark|right]. rewrite Hlf. unfold bs. rewrite !total_app. cbn. lia. }
  destruct (plug_holes_run h4 l1 sz l2 HL4 Hf4) as (h5 & Hr5 & HL5 & Hf5 & Hre & Hle & Hfr & Hut & Htot & Hh & _ & ws & Hws & Htc).
  destruct (layout_hdr _ _ _ _ _ HL3) as (p3 & Hhd3 & _ & _).
  destruct (rd_run h3 (total l1) _ _ _ _ ltac:(unfold h3; rewrite Hm; cbn; lia) Hhd3) as (_ & _ & Hnext3 & _).
  pose proof (layout_good _ _ HL) as [Hgbs _].
  assert (used_total bs = used_total l1 + sz + used_total l2) as Eut by (unfold bs; rewrite !used_total_app; cbn; lia).
  pose proof (proj1 (total_bounds _ Hg1)). pose proof (proj1 (total_bounds _ Hg2)).
  assert (u = used_total l1 + used_total l2) as Eu by (unfold u; rewrite wrap_small; lia).
  exists h5. split; [|split; [|split; [|split]]].
  - unfold free_section, bind at 1. rewrite Hused. cbn [Z.b2z]. unfold bind at 1, assert at 1. cbn [nz Z.eqb negb].
    unfold bind at 1. rewrite Hmagic. unfold bind at 1, assert. rewrite Z.eqb_refl.
    unfold bind at 1. change 0 with (Z.b2z false). rewrite Hr1. unfold bind at 1. rewrite Hr2.
    unfold bind at 1, gets. rewrite El2. unfold bind at 1.
    assert ((if total l1 <? h_lfree h then modify (set_lfree (total l1)) else ret tt) h2 = Some (tt, h3)) as ->.
    { unfold h3, lf. destruct (total l1 <? h_lfree h); [done|]. rewrite <- El2. by destruct h2. }
    unfold bind at 1. rewrite Hnext3. unfold bind, modify.
    replace (set_used (u32 (h_used h3 - (total l1 + sz - total l1))) (h_max h3) h3) with h4; [exact Hr5|].
    unfold h4, u. cbn. rewrite Eu2, Ex2. do 3 f_equal. lia.
  - split; [done|by apply coalesced_release|done| |].
    + rewrite Hre. cbn. rewrite Hut, Eu. rewrite !used_total_app. cbn. lia.
    + rewrite Hre. cbn. lia.
  - unfold fixed. rewrite Hre. cbn. by rewrite Hm.
  - apply (touched_payload bs (total l1 :: ws)); [done| |].
    + constructor; [apply hdr_at_app|]. eapply Forall_impl; [exact Hws|]. intros w. unfold hdr_at, bs.
      cbn [app]. rewrite !starts_app, !total_app. done.
    + eapply (touched_trans [total l1] (total l1 :: ws)); [set_solver|done| |].
      * eapply (touched_trans [total l1] [total l1]); [done|done|exact Ht1|exact Ht2].
      * eapply (touched_trans [] ws); [set_solver|set_solver|apply touched_refl|exact Htc].
  - intros Hlow o Ho. apply Hfr in Ho. apply is_free_mark_inv in Ho. cbn in Hle. unfold lf in Hle.
    destruct Ho as [Ho| ->].
    + apply Hlow in Ho. destruct (Z.ltb_spec (total l1) (h_lfree h)); lia.
    + destruct (Z.ltb_spec (total l1) (h_lfree h)); lia.
Qed.

(** ** Taking a block *)

(** Reference: the first free block from [o] on, below [lim], with room for [size]
    bytes; the blocks before it, its size and the blocks behind it. *)
Fixpoint first_fit (lim size o : Z) (l : list block) : option (list block * Z * list block) :=
  match l with
  | [] => None
  | (sz, u) :: l' =>
      if o <? lim then
        if negb u && (size + SIZEOF_STRUCT_MEM <=? sz) then Some ([], sz, l')
        else match first_fit lim size (o + sz) l' with
             | Some (pre, s, post) => Some ((sz, u) :: pre, s, post)
             | None => None
             end
      else None
  end.

(** The blocks that replace a free block of [sz] bytes when [size] are taken. *)
Definition carve (size sz : Z) : list block :=
  if size + SIZEOF_STRUCT_MEM + SIZEOF_STRUCT_MEM + MIN_SIZE_ALIGNED <=? sz
  then [(size + SIZEOF_STRUCT_MEM, true); (sz - (size + SIZEOF_STRUCT_MEM), false)] else [(sz, true)].

Lemma first_fit_split lim size o l pre sz post :
  first_fit lim size o l = Some (pre, sz, post) →
  l = pre ++ (sz, false) :: post ∧ size + SIZEOF_STRUCT_MEM ≤ sz ∧ o + total pre < lim.
Proof.
  revert o pre. induction l as [|[s u] l IH]; intros o pre; cbn; [done|].
  destruct (Z.ltb_spec o lim); [|done].
  destruct u, (Z.leb_spec (size + SIZEOF_STRUCT_MEM) s); cbn;
    try (intros [= <- <- <-]; cbn; split_and!; [done|lia|lia]);
    (destruct (first_fit lim size (o + s) l) as [[[pre' s'] post']|] eqn:E; [|done]; intros [= <- <- <-];
     destruct (IH _ _ E) as (-> & ? & ?); cbn; split_and!; [done|lia|lia]).
Qed.

(** The search loop finds the first fit. *)
Lemma malloc_loop_run h size l2 : ∀ l1 fuel,
  layout h (l1 ++ l2) → (length l2 < fuel)%nat → MIN_SIZE_ALIGNED ≤ size ≤ h_size h →
  malloc_loop fuel size (total l1) h =
    match first_fit (h_size h - size) size (total l1) l2 with
    | None => Some (None, h)
    | Some (pre, _, _) => (malloc_take size (total (l1 ++ pre)) ;; ret (Some (total (l1 ++ pre)))) h
    end.
Proof.
  induction l2 as [|[sz u] l2 IH]; intros l1 fuel HL Hf Hsz; (destruct fuel as [|fuel]; [lia|]); cbn [malloc_loop first_fit];
    unfold bind at 1, gets; unfold MIN_SIZE_ALIGNED, SIZEOF_STRUCT_MEM in *;
    pose proof (ly_size _ _ HL) as Hes; pose proof (ly_range _ _ HL) as [Hp1 Hp2]; unfold SIZEOF_STRUCT_MEM in *;
    rewrite (wrap_small 32 (h_size h - size)) by lia.
  - pose proof (layout_good _ _ HL) as [_ Ht]. rewrite app_nil_r in Ht.
    by rewrite (proj2 (Z.ltb_ge _ _)) by lia.
  - destruct (Z.ltb_spec (total l1) (h_size h - size)) as [Hlim|]; [|done].
    change ((sz, u) :: l2) with ([(sz, u)] ++ l2) in HL.
    pose proof (layout_offsets _ _ _ _ HL) as (H0 & _ & H2 & He & Hlt & Hg1 & Hgx & Hg2).
    pose proof (total_pos _ _ Hgx) as [Hs _]. cbn in Hs, He.
    destruct (layout_hdr _ _ _ _ _ HL) as (p & Hhd & _ & _).
    destruct (rd_run h (total l1) _ _ _ _ ltac:(lia) Hhd) as (_ & Hused & Hnext & _).
    unfold bind at 1. rewrite Hused. unfold bind at 1. rewrite Hnext.
    rewrite (wrap_small 32) by lia. replace (total l1 + sz - (total l1 + 12)) with (sz - 12) by lia.
    replace (negb (nz (Z.b2z u))) with (negb u) by (by destruct u).
    replace (size <=? sz - 12) with (size + 12 <=? sz) by (destruct (Z.leb_spec (size + 12) sz), (Z.leb_spec size (sz - 12)); lia || done).
    destruct (negb u && (size + 12 <=? sz)); [by rewrite app_nil_r|].
    rewrite app_assoc in HL. specialize (IH (l1 ++ [(sz, u)]) fuel HL ltac:(cbn in Hf; lia) Hsz).
    rewrite total_app in IH. cbn in IH. rewrite Z.add_0_r in IH. rewrite IH.
    destruct (first_fit _ _ _ l2) as [[[pre s] post]|]; [|done]. by rewrite <- app_assoc.
Qed.

(** [lfree] moves on to the next free block, or to the end. *)
Lemma advance_run h l2 : ∀ l1 fuel,
  layout h (l1 ++ l2) → h_lfree h = total l1 → (length l2 < fuel)%nat →
  ∃ o, advance_lfree fuel h = Some (tt, set_lfree o h) ∧ total l1 ≤ o ∧
    (is_free l2 (o - total l1) ∨ o = total (l1 ++ l2)) ∧ ∀ o', is_free l2 (o' - total l1) → o ≤ o'.
Proof.
  revert h. induction l2 as [|[sz u] l2 IH]; intros h l1 fuel HL Hl Hf; (destruct fuel as [|fuel]; [lia|]);
    cbn [advance_lfree]; unfold bind at 1, gets; rewrite Hl.
  - pose proof (layout_good _ _ HL) as [_ Ht]. rewrite app_nil_r in *. unfold bind. rewrite Ht, (end_used h l1), Z.eqb_refl by done.
    rewrite andb_false_r. exists (h_end h).
    split; [rewrite <- Ht, <- Hl; by destruct h|]. split; [lia|]. split; [by right|done].
  - pose proof (layout_offsets _ _ _ [(sz, u)] HL) as (H0 & _ & H2 & He & Hlt & Hg1 & Hgx & Hg2).
    pose proof (total_pos _ _ Hgx) as [Hs _]. cbn in Hs, He.
    destruct (layout_hdr _ _ _ _ _ HL) as (p & Hhd & _ & _).
    destruct (rd_run h (total l1) _ _ _ _ ltac:(lia) Hhd) as (_ & Hused & Hnext & _).
    unfold bind at 1. rewrite Hused. unfold bind at 1. rewrite (proj2 (Z.eqb_neq (total l1) (h_end h))) by lia.
    destruct u; cbn [Z.b2z nz Z.eqb negb andb].
    + unfold bind at 1. rewrite Hnext. unfold bind, modify.
      destruct (IH (set_lfree (total l1 + sz) h) (l1 ++ [(sz, true)]) fuel) as (o & Hr & Ho & Hfr & Hlow).
      * rewrite <- app_assoc. by apply layout_lfree.
      * rewrite total_app. cbn. lia.
      * cbn in Hf. lia.
      * rewrite <- app_assoc, (total_app l1 [(sz, true)]) in Hfr. rewrite (total_app l1 [(sz, true)]) in Ho.
        rewrite (total_app l1 [(sz, true)]) in Hlow. cbn in Ho, Hfr, Hlow. exists o. split; [exact Hr|].
        replace (o - (total l1 + (sz + 0))) with (o - total l1 - sz) in Hfr by lia.
        split; [lia|]. split; [cbn; tauto|]. intros o' [[? _]|Ho']; [done|]. apply Hlow.
        by replace (o' - (total l1 + (sz + 0))) with (o' - total l1 - sz) by lia.
    + exists (total l1). rewrite <- Hl. split; [by destruct h|]. split; [lia|]. split; [left; left; split; [done|lia]|].
      intros o' [[_ ?]|Ho']; [lia|]. apply is_free_range in Ho'; [lia|done].
Qed.

(** The last step of a split: the [prev] field of the block behind it. *)
Lemma fix_prev_run h l1 n u r l2 :
  let x := l1 ++ [(n, u); (r, false)] in let o2 := total l1 + n in
  frame h → half h x l2 → total x + total l2 = h_end h → good x →
  seg (h_mem h) 0 0 x o2 (total x) →
  ∃ h', (next2 ← rd_next o2; hs ← gets h_size;
         (if negb (next2 =? u32 (hs + SIZEOF_STRUCT_MEM)) then wr_prev next2 o2 else ret tt)) h = Some (tt, h') ∧
    remem h h' ∧ layout h' (x ++ l2) ∧ touched [total x] (h_mem h) (h_mem h').
Proof.
  intros x o2 Hf Hh Htot Hgx Hs. pose proof Hf as (Hes & _ & (Hp1 & Hp2) & _). unfold SIZEOF_STRUCT_MEM in *.
  assert (total x = o2 + r) as Ex by (unfold x, o2; rewrite total_app; cbn; lia).
  apply good_app in Hgx as [Hg1 Hg2]. inversion Hg2 as [|? ? [Hn _] Hg2']; subst. inversion Hg2' as [|? ? [Hr _] _]; subst.
  cbn in Hn, Hr. pose proof (proj1 (total_bounds _ Hg1)).
  pose proof (hf_right _ _ _ Hh) as (rr & pp & H2). pose proof (seg_total _ _ _ _ _ _ H2) as [_ Hgl2].
  pose proof (proj1 (total_bounds _ Hgl2)).
  assert (hdr (h_mem h) o2 = (HEAP_MAGIC, 0, o2 + r, total l1)) as Hhd.
  { unfold x in Hs. apply seg_app in Hs as (q & _ & (_ & _ & (Hhd & _))). rewrite Z.add_0_l in Hhd. exact Hhd. }
  destruct (rd_run h o2 _ _ _ _ ltac:(unfold o2; lia) Hhd) as (_ & _ & Hnext & _).
  unfold bind at 1. rewrite Hnext. unfold bind, gets. rewrite (wrap_small 32), <- Hes, <- Ex by lia.
  destruct l2 as [|b l2].
  - cbn in Htot. rewrite (proj2 (Z.eqb_eq _ _)) by lia. exists h. split; [done|]. split; [by destruct h|]. split; [|done].
    rewrite app_nil_r. apply half_layout; [done|done|lia].
  - pose proof (total_pos _ _ Hgl2) as [_ Hb]. rewrite (proj2 (Z.eqb_neq _ _)) by lia. cbn [negb].
    unfold wr_prev. rewrite wr_run by lia. eexists. split; [done|]. split; [done|]. split.
    + apply half_fix; [done|done|done|unfold o2; lia|lia].
    + apply store_touched; lia.
Qed.

Lemma carve_total size sz : total (carve size sz) = sz.
Proof. unfold carve. case_match; cbn; lia. Qed.

Lemma carve_used size sz :
  used_total (carve size sz) =
  if size + SIZEOF_STRUCT_MEM + SIZEOF_STRUCT_MEM + MIN_SIZE_ALIGNED <=? sz then size + SIZEOF_STRUCT_MEM else sz.
Proof. unfold carve. case_match; cbn; lia. Qed.

Definition counted (n : Z) (h : heap) : heap :=
  let u := u32 (h_used h + n) in set_used u (if h_max h <? u then u else h_max h) h.

Lemma malloc_carve_run h l1 sz l2 size :
  layout h (l1 ++ [(sz, false)] ++ l2) → size + SIZEOF_STRUCT_MEM ≤ sz → MIN_SIZE_ALIGNED ≤ size → size mod 4 = 0 →
  ∃ h1, malloc_carve size (total l1) h = Some (tt, counted (used_total (carve size sz)) h1) ∧ remem h h1 ∧
    layout h1 (l1 ++ carve size sz ++ l2) ∧
    ∃ ws, Forall (hdr_at (l1 ++ carve size sz ++ l2)) ws ∧ touched ws (h_mem h) (h_mem h1).
Proof.
  intros HL Hfit Hmin Hs4. pose proof (layout_offsets _ _ _ _ HL) as (H0 & _ & H2 & He & Hlt & Hg1 & Hgx & Hg2).
  inversion Hgx as [|? ? [Hs Hsz4] _]; subst. cbn in Hs, Hsz4, He. unfold SIZEOF_STRUCT_MEM, MIN_SIZE_ALIGNED in *.
  destruct (layout_hdr _ _ _ _ _ HL) as (p & Hhd & _ & _).
  destruct (rd_run h (total l1) _ _ _ _ ltac:(lia) Hhd) as (_ & _ & Hnext & _).
  rewrite carve_used. unfold carve, SIZEOF_STRUCT_MEM, MIN_SIZE_ALIGNED.
  unfold malloc_carve, bind at 1, SIZEOF_STRUCT_MEM, MIN_SIZE_ALIGNED. rewrite Hnext.
  rewrite !(wrap_small 32) by lia. replace (total l1 + sz - (total l1 + 12)) with (sz - 12) by lia.
  replace (size + 12 + 12 <=? sz - 12) with (size + 12 + 12 + 12 <=? sz)
    by (destruct (Z.leb_spec (size + 12 + 12 + 12) sz), (Z.leb_spec (size + 12 + 12) (sz - 12)); lia || done).
  destruct (Z.leb_spec (size + 12 + 12 + 12) sz) as [Hbig|Hsmall].
  - replace (total l1 + 12 + size) with (total l1 + (size + 12)) by lia.
    assert (good_size (size + 12)) as Hgn by (split; [lia|]; rewrite Z.add_mod, Hs4 by lia; done).
    assert (good_size (sz - (size + 12))) as Hgr by (split; [lia|]; rewrite Zminus_mod, Hsz4, (proj2 Hgn) by lia; done).
    destruct (layout_carve h l1 l2 sz false (size + 12) HL Hgn Hgr) as (h1 & Hr1 & Hm1 & Hh1 & Hs1 & Ht1).
    assert (total (l1 ++ [(size + 12, false); (sz - (size + 12), false)]) = total l1 + sz) as Et by (rewrite total_app; cbn; lia).
    assert (h_end h1 = h_end h) as Ee1 by (by rewrite Hm1).
    destruct (half_set_used h1 l1 (size + 12) false true [(sz - (size + 12), false)] l2 _ Hh1 ltac:(cbn [app]; lia) Hs1)
      as (h2 & Hr2 & Hm2 & Hh2 & Hs2 & Ht2).
    assert (h_end h2 = h_end h) as Ee2 by (by rewrite Hm2).
    destruct (fix_prev_run h2 l1 (size + 12) true (sz - (size + 12)) l2) as (h3 & Hr3 & Hm3 & HL3 & Ht3).
    { eapply (frame_remem h1); [done|]. eapply (frame_remem h); [done|]. by eapply layout_frame. }
    { done. }
    { rewrite total_app. cbn. lia. }
    { apply good_app. split; [done|]. by constructor; [|constructor; [|constructor]]. }
    { done. }
    exists h3. split.
    + unfold bind at 1. unfold bind in Hr1 at 1. destruct (split_block _ _ _ h) as [[[] h0]|]; [|done].
      unfold bind at 1. rewrite Hr1. unfold bind at 1. change 1 with (Z.b2z true). rewrite Hr2.
      revert Hr3. unfold SIZEOF_STRUCT_MEM, bind. destruct (rd_next _ h2) as [[n2 h2']|]; [|done]. unfold gets.
      by intros ->.
    + split; [by eapply remem_trans; [|eapply remem_trans]|]. split; [by rewrite <- app_assoc in HL3|].
      exists [total l1; total l1 + (size + 12); total l1 + sz]. split.
      * constructor; [|constructor; [|constructor; [|done]]].
        -- apply hdr_at_app.
        -- replace (total l1 + (size + 12)) with (total (l1 ++ [(size + 12, true)])) by (rewrite total_app; cbn; lia).
           change ([(size + 12, true); (sz - (size + 12), false)] ++ l2)
             with ([(size + 12, true)] ++ (sz - (size + 12), false) :: l2).
           rewrite app_assoc. apply hdr_at_app.
        -- replace (total l1 + sz) with (total (l1 ++ [(size + 12, true); (sz - (size + 12), false)])) by (rewrite total_app; cbn; lia).
           rewrite app_assoc. apply hdr_at_app.
      * eapply (touched_trans [total l1; total l1 + (size + 12)] [total l1; total l1 + sz]); [set_solver|set_solver|exact Ht1|].
        eapply (touched_trans [total l1] [total l1 + sz]); [set_solver|set_solver|exact Ht2|].
        rewrite total_app in Ht3. cbn in Ht3. by replace (total l1 + (size + 12 + (sz - (size + 12) + 0))) with (total l1 + sz) in Ht3 by lia.
  - destruct (layout_set_used h l1 l2 sz false true HL) as (h1 & Hr1 & Hm1 & HL1 & Ht1).
    destruct (layout_hdr _ _ _ _ _ HL1) as (p1 & Hhd1 & _ & _).
    destruct (rd_run h1 (total l1) _ _ _ _ ltac:(rewrite Hm1; cbn; lia) Hhd1) as (_ & _ & Hnext1 & _).
    exists h1. split; [|split; [done|split; [done|]]].
    + unfold bind at 1. change 1 with (Z.b2z true). rewrite Hr1. unfold bind. rewrite Hnext1.
      by replace (total l1 + sz - total l1) with sz by lia.
    + exists [total l1]. split; [|done]. constructor; [apply hdr_at_app|done].
Qed.

Lemma length_total bs : good bs → (length bs ≤ Z.to_nat (total bs))%nat.
Proof.
  induction 1 as [|[sz u] bs [Hs _] Hg IH]; cbn; [lia|]. cbn in Hs.
  pose proof (proj1 (total_bounds bs Hg)). lia.
Qed.

Lemma carve_head size sz : ∃ s r, carve size sz = (s, true) :: r ∧ (r = [] ∨ ∃ s', r = [(s', false)]).
Proof. unfold carve. case_match; eexists _, _; (split; [done|]); [right|left]; eauto. Qed.

Lemma coalesced_carve l1 sz l2 size :
  coalesced (l1 ++ [(sz, false)] ++ l2) → coalesced (l1 ++ carve size sz ++ l2).
Proof.
  destruct (carve_head size sz) as (s & r & -> & Hr). rewrite !coalesced_app.
  intros (H1 & (_ & H2 & Hj2) & Hj1). split_and!; [done|..].
  - destruct Hr as [->|[s' ->]]; cbn; [done|]. split; [by left|done].
  - done.
  - destruct Hr as [->|[s' ->]]; [done|]. exact Hj2.
  - unfold junction in *. destruct (last l1) as [[? []]|]; done.
Qed.

(** The free blocks after taking one: those from before, and the rest of the block. *)
Lemma carve_free l1 sz l2 size o :
  (is_free (l1 ++ [(sz, false)] ++ l2) o → o ≠ total l1 → is_free (l1 ++ carve size sz ++ l2) o) ∧
  (is_free (l1 ++ carve size sz ++ l2) o →
   is_free l1 o ∨ is_free (carve size sz ++ l2) (o - total l1)).
Proof.
  split; [|by rewrite is_free_app]. cbn [app]. rewrite !is_free_app, carve_total. cbn.
  intros [?|[[_ ?]|?]] Hne; [tauto|lia|tauto].
Qed.

Lemma is_free_split bs o :
  is_free bs o → ∃ l1 sz l2, bs = l1 ++ [(sz, false)] ++ l2 ∧ o = total l1.
Proof.
  revert o. induction bs as [|[sz u] bs IH]; intros o; cbn; [done|]. intros [[-> ->]|H].
  - by exists [], sz, bs.
  - destruct (IH _ H) as (l1 & s & l2 & -> & E). exists ((sz, u) :: l1), s, l2. split; [done|]. cbn. lia.
Qed.

(** Where [lfree] may point, the header says free or the heap ends. *)
Lemma free_at_read h bs o :
  layout h bs → free_at bs o → ∃ u, rd_used o h = Some (u, h) ∧ (o =? h_end h) || (u =? 0) = true.
Proof.
  intros HL [(l1 & sz & l2 & -> & ->)%is_free_split| ->].
  - pose proof (layout_offsets _ _ _ _ HL) as (? & ? & ? & ? & _).
    destruct (layout_hdr _ _ _ _ _ HL) as (p & Hhd & _ & _).
    destruct (rd_run h (total l1) _ _ _ _ ltac:(lia) Hhd) as (_ & Hu & _). exists 0. split; [done|]. apply orb_true_r.
  - pose proof (layout_good _ _ HL) as [_ ->]. exists 1. split; [by eapply end_used|]. by rewrite Z.eqb_refl.
Qed.

Lemma malloc_take_run h l1 sz l2 size :
  let bs := l1 ++ [(sz, false)] ++ l2 in let bs' := l1 ++ carve size sz ++ l2 in
  hwf h bs → size + SIZEOF_STRUCT_MEM ≤ sz → MIN_SIZE_ALIGNED ≤ size → size mod 4 = 0 → h_lfree h ≤ total l1 →
  ∃ h', malloc_take size (total l1) h = Some (tt, h') ∧ hwf h' bs' ∧ fixed h h' ∧
    payload_kept bs' (h_mem h) (h_mem h') ∧ (lowest_free h bs → lowest_free h' bs').
Proof.
  intros bs bs' [HL Hco Hlf Hus Hmx] Hfit Hmin Hs4 Hle.
  destruct (malloc_carve_run h l1 sz l2 size HL Hfit Hmin Hs4) as (h1 & Hr1 & Hm1 & HL1 & ws & Hws & Htc).
  set (n := used_total (carve size sz)) in *. set (h2 := counted n h1).
  destruct (carve_head size sz) as (s & r & Ec & Hr).
  assert (bs' = l1 ++ [(s, true)] ++ (r ++ l2)) as Ebs' by (unfold bs'; by rewrite Ec).
  assert (layout h2 (l1 ++ [(s, true)] ++ (r ++ l2))) as HL2 by (rewrite <- Ebs'; by apply layout_used).
  destruct (layout_set_magic h2 _ _ _ _ HL2) as (h3 & Hr3 & Hm3 & HL3 & Ht3). rewrite <- Ebs' in HL3.
  pose proof (layout_good _ _ HL) as [Hg Htot]. pose proof (layout_good _ _ HL3) as [Hg' Htot'].
  assert (total bs' = total bs) as Et by (unfold bs, bs'; rewrite !total_app, carve_total; cbn; lia).
  assert (used_total bs' = used_total bs + n) as Eu by (unfold bs, bs', n; rewrite !used_total_app; cbn; lia).
  pose proof (proj1 (total_bounds _ Hg)). pose proof (proj1 (total_bounds _ Hg')). pose proof (ly_range _ _ HL) as [Hp1 Hp2].
  unfold SIZEOF_STRUCT_MEM in Hp2.
  assert (h_used h1 = h_used h ∧ h_max h1 = h_max h ∧ h_lfree h1 = h_lfree h) as (Eu1 & Ex1 & El1) by (by rewrite Hm1).
  assert (h_lfree h3 = h_lfree h) as El3 by (by rewrite Hm3).
  assert (u32 (h_used h + n) = used_total bs') as Eus by (rewrite wrap_small; lia).
  assert (payload_kept bs' (h_mem h) (h_mem h3)) as Hpay.
  { apply (touched_payload _ (total l1 :: ws)); [done| |].
    - constructor; [|done]. unfold bs'. apply hdr_at_app.
    - eapply (touched_trans ws [total l1]); [set_solver|set_solver|exact Htc|exact Ht3]. }
  assert (malloc_take size (total l1) h = (if total l1 =? h_lfree h3 then
      fuel ← gets heap_fuel; advance_lfree fuel ;;
      lfree ← gets h_lfree; used ← rd_used lfree; e ← gets h_end; assert ((lfree =? e) || (used =? 0))
    else ret tt) h3) as ->.
  { unfold malloc_take, bind at 1. rewrite Hr1. fold h2. unfold bind at 1. rewrite Hr3. done. }
  assert (fixed h h3) as Hfix by (unfold fixed; rewrite Hm3; cbn; by rewrite Hm1).
  assert (h_used h3 = used_total bs' ∧ h_used h3 ≤ h_max h3 < 2 ^ 32) as [Hus3 Hmx3].
  { rewrite Hm3. cbn. rewrite Eu1, Ex1, Eus. split; [done|]. destruct (Z.ltb_spec (h_max h) (used_total bs')); lia. }
  destruct (Z.eqb_spec (total l1) (h_lfree h3)) as [E|E].
  - assert (layout h3 (l1 ++ (carve size sz ++ l2))) as HL3' by done.
    destruct (advance_run h3 _ l1 (heap_fuel h3) HL3' ltac:(done)) as (o & Hr4 & Ho & Hfo & Hlow).
    { pose proof (length_total _ Hg') as Hlen. unfold bs' in Hlen. rewrite length_app in Hlen. unfold heap_fuel.
      rewrite <- Htot'. unfold bs'. lia. }
    assert (free_at bs' o) as Hfree by (unfold free_at, bs'; rewrite is_free_app; tauto).
    exists (set_lfree o h3). split; [|split; [|split; [exact Hfix|split; [exact Hpay|]]]].
    + destruct (free_at_read (set_lfree o h3) bs' o) as (u & Hru & Hok); [by apply layout_lfree|done|].
      unfold bind at 1, gets. unfold bind at 1. rewrite Hr4. unfold bind at 1. cbn [set_lfree h_lfree].
      unfold bind at 1. fold (set_lfree o h3). rewrite Hru. unfold bind, assert. by rewrite Hok.
    + split; [by apply layout_lfree|by apply coalesced_carve|done|done|done].
    + intros Hlo o' Ho'. cbn. pose proof Ho' as Ho2. apply carve_free in Ho2 as [Ho2|Ho2]; [|by apply Hlow].
      assert (is_free bs o') as Hb by (unfold bs; rewrite is_free_app; by left). apply Hlo in Hb.
      apply is_free_range in Ho2; [lia|]. unfold bs in Hg. by apply good_app in Hg as [Hg _].
  - exists h3. split; [done|]. split; [|split; [exact Hfix|split; [exact Hpay|]]].
    + split; [done|by apply coalesced_carve| |done|done]. rewrite El3. destruct Hlf as [Hf|Hf].
      * left. apply carve_free; [done|]. rewrite <- El3. done.
      * right. by rewrite Et.
    + intros Hlo o Ho. rewrite El3. apply carve_free in Ho as [Ho|Ho].
      * apply Hlo. unfold bs. rewrite is_free_app. by left.
      * apply is_free_range in Ho; [lia|]. unfold bs' in Hg'. by apply good_app in Hg' as [_ Hg'].
Qed.

(** ** The search in the whole heap *)

(** Reference: the first free block at or above [lf] and below [lim] with room. *)
Fixpoint search (lf lim size o : Z) (l : list block) : option (list block * Z * list block) :=
  match l with
  | [] => None
  | (sz, u) :: l' =>
      if (lf <=? o) && (o <? lim) && negb u && (size + SIZEOF_STRUCT_MEM <=? sz) then Some ([], sz, l')
      else match search lf lim size (o + sz) l' with
           | Some (pre, s, post) => Some ((sz, u) :: pre, s, post)
           | None => None
           end
  end.

Lemma search_none lf lim size l : ∀ o, good l → lim ≤ o → search lf lim size o l = None.
Proof.
  induction l as [|[sz u] l IH]; intros o Hg Ho; cbn; [done|]. inversion Hg as [|? ? [Hs _] Hg']; subst. cbn in Hs.
  rewrite (proj2 (Z.ltb_ge o lim)), andb_false_r by lia. cbn. by rewrite IH by (done || lia).
Qed.

Lemma search_above lf lim size l : ∀ o, good l → lf ≤ o → search lf lim size o l = first_fit lim size o l.
Proof.
  induction l as [|[sz u] l IH]; intros o Hg Ho; cbn; [done|]. inversion Hg as [|? ? [Hs _] Hg']; subst. cbn in Hs.
  rewrite (proj2 (Z.leb_le lf o)) by lia. cbn [andb]. destruct (Z.ltb_spec o lim); cbn [andb].
  - destruct (negb u && _); [done|]. by rewrite IH by (done || lia).
  - by rewrite search_none by (done || lia).
Qed.

Lemma search_skip lim size l2 l1 : ∀ o, good l1 → good l2 →
  search (o + total l1) lim size o (l1 ++ l2) =
  match first_fit lim size (o + total l1) l2 with
  | Some (pre, s, post) => Some (l1 ++ pre, s, post)
  | None => None
  end.
Proof.
  induction l1 as [|[sz u] l1 IH]; intros o Hg1 Hg2.
  - cbn. rewrite Z.add_0_r, search_above by (done || lia). by destruct (first_fit _ _ _ _) as [[[]]|].
  - inversion Hg1 as [|? ? [Hs _] Hg1']; subst. cbn in Hs. pose proof (proj1 (total_bounds _ Hg1')).
    cbn. rewrite (proj2 (Z.leb_gt _ _)) by lia. cbn [andb]. rewrite Z.add_assoc, IH by done.
    by destruct (first_fit _ _ _ _) as [[[]]|].
Qed.

Lemma search_split lf lim size o l pre sz post :
  search lf lim size o l = Some (pre, sz, post) →
  l = pre ++ (sz, false) :: post ∧ size + SIZEOF_STRUCT_MEM ≤ sz ∧ lf ≤ o + total pre < lim.
Proof.
  revert o pre. induction l as [|[s u] l IH]; intros o pre; cbn; [done|].
  destruct ((lf <=? o) && (o <? lim) && negb u && _) eqn:E.
  - rewrite !andb_true_iff, Z.leb_le, Z.ltb_lt, Z.leb_le, negb_true_iff in E.
    destruct E as [[[? ?] ->] ?]. intros [= <- <- <-]. cbn. split_and!; [done|lia|lia|lia].
  - destruct (search _ _ _ _ l) as [[[pre' s'] post']|] eqn:E'; [|done]. intros [= <- <- <-].
    destruct (IH _ _ E') as (-> & ? & ?). cbn. split_and!; [done|lia|lia|lia].
Qed.

Lemma search_finds lf lim size l1 sz l2 o :
  lf ≤ o + total l1 → o + total l1 < lim → size + SIZEOF_STRUCT_MEM ≤ sz →
  search lf lim size o (l1 ++ [(sz, false)] ++ l2) ≠ None.
Proof.
  revert o. induction l1 as [|[s u] l1 IH]; intros o Ha Hb Hc; cbn in *.
  - rewrite (proj2 (Z.leb_le _ _)), (proj2 (Z.ltb_lt _ _)), (proj2 (Z.leb_le _ _)) by lia. done.
  - destruct (_ && _); [done|]. specialize (IH (o + s) ltac:(lia) ltac:(lia) Hc).
    by destruct (search _ _ _ (o + s) _) as [[[]]|].
Qed.

(** Reference: the first free block of the heap with room for [n] bytes, with the blocks in
    front of it and behind it. *)
Fixpoint fit (n : Z) (l : list block) : option (list block * Z * list block) :=
  match l with
  | [] => None
  | (sz, u) :: l' =>
      if negb u && (n + SIZEOF_STRUCT_MEM <=? sz) then Some ([], sz, l')
      else match fit n l' with
           | Some (pre, s, post) => Some ((sz, u) :: pre, s, post)
           | None => None
           end
  end.

Lemma fit_split n l pre sz post :
  fit n l = Some (pre, sz, post) → l = pre ++ [(sz, false)] ++ post ∧ n + SIZEOF_STRUCT_MEM ≤ sz.
Proof.
  revert pre. induction l as [|[s u] l IH]; intros pre; cbn; [done|]. destruct (negb u && _) eqn:E.
  - rewrite andb_true_iff, negb_true_iff, Z.leb_le in E. destruct E as [-> ?]. by intros [= <- <- <-].
  - destruct (fit n l) as [[[pre' s'] post']|] eqn:E'; [|done]. intros [= <- <- <-]. by destruct (IH _ eq_refl) as [-> ?].
Qed.

(** Where every free block is at or above [lf], the search finds the first fit, if it
    starts below [lim]. *)
Lemma search_fit lf lim n l : ∀ o,
  good l → (∀ l1 sz l2, l = l1 ++ [(sz, false)] ++ l2 → lf ≤ o + total l1) →
  search lf lim n o l =
    match fit n l with
    | Some (pre, sz, post) => if o + total pre <? lim then Some (pre, sz, post) else None
    | None => None
    end.
Proof.
  induction l as [|[sz u] l IH]; intros o Hg Hlf; cbn; [done|]. inversion Hg as [|? ? [Hs _] Hg']; subst. cbn in Hs.
  assert (search lf lim n (o + sz) l = match fit n l with
    | Some (pre, s, post) => if o + sz + total pre <? lim then Some (pre, s, post) else None | None => None end) as E.
  { apply IH; [done|]. intros l1 z l2 ->. specialize (Hlf ((sz, u) :: l1) z l2 eq_refl). cbn in Hlf. lia. }
  destruct (negb u && _) eqn:Ef.
  - rewrite andb_true_iff, negb_true_iff, Z.leb_le in Ef. destruct Ef as [-> Ef].
    specialize (Hlf [] sz l eq_refl). cbn in Hlf. rewrite (proj2 (Z.leb_le lf o)) by lia. cbn. rewrite Z.add_0_r.
    destruct (Z.ltb_spec o lim); cbn; [by rewrite (proj2 (Z.leb_le _ _))|]. by rewrite search_none by (done || lia).
  - assert ((lf <=? o) && (o <? lim) && negb u && (n + SIZEOF_STRUCT_MEM <=? sz) = false) as ->.
    { rewrite <- andb_assoc, Ef. apply andb_false_r. }
    rewrite E. destruct (fit n l) as [[[pre s] post]|]; [|done]. cbn. rewrite Z.add_assoc. by destruct (_ <? _).
Qed.

(** [lfree] splits the heap. *)
Lemma free_at_split bs o : free_at bs o → ∃ l1 l2, bs = l1 ++ l2 ∧ o = total l1.
Proof.
  intros [(l1 & sz & l2 & -> & ->)%is_free_split| ->]; [by exists l1, ([(sz, false)] ++ l2)|].
  exists bs, []. by rewrite app_nil_r.
Qed.

(** The state after an allocation of [size] bytes from a block of [sz]. *)
Definition allocated (size : Z) (pre : list block) (sz : Z) (post : list block) (h h' : heap) : Prop :=
  hwf h' (pre ++ carve size sz ++ post) ∧ fixed h h' ∧
  payload_kept (pre ++ carve size sz ++ post) (h_mem h) (h_mem h') ∧
  (lowest_free h (pre ++ [(sz, false)] ++ post) → lowest_free h' (pre ++ carve size sz ++ post)).

Lemma malloc_section_run h bs size :
  hwf h bs → MIN_SIZE_ALIGNED ≤ size ≤ h_size h → size mod 4 = 0 →
  match search (h_lfree h) (h_size h - size) size 0 bs with
  | None => malloc_section size h = Some (None, h)
  | Some (pre, sz, post) => ∃ h', malloc_section size h = Some (Some (total pre), h') ∧ allocated size pre sz post h h'
  end.
Proof.
  intros Hw Hsz Hs4. pose proof (hw_layout _ _ Hw) as HL. pose proof (layout_good _ _ HL) as [Hg Ht].
  destruct (free_at_split _ _ (hw_lfree _ _ Hw)) as (l1 & l2 & Ebs & El). rewrite Ebs in HL, Hg.
  pose proof Hg as Hg'. apply good_app in Hg' as [Hg1 Hg2].
  assert (malloc_section size h = malloc_loop (heap_fuel h) size (total l1) h) as ->
    by (unfold malloc_section, bind, gets; by rewrite El).
  rewrite (malloc_loop_run h size l2 l1 (heap_fuel h) HL) by
    (done || (pose proof (length_total _ Hg) as Hlen; rewrite length_app in Hlen; unfold heap_fuel; rewrite <- Ht, Ebs; lia)).
  pose proof (search_skip (h_size h - size) size l2 l1 0 Hg1 Hg2) as Hsk. rewrite Z.add_0_l in Hsk.
  rewrite Ebs, El, Hsk. clear Hsk.
  destruct (first_fit _ _ _ l2) as [[[pre sz] post]|] eqn:E; [|done].
  destruct (first_fit_split _ _ _ _ _ _ _ E) as (-> & Hfit & Hlim).
  rewrite app_assoc in Ebs. subst bs. pose proof Hg2 as Hg2'. apply good_app in Hg2' as [Hgp _].
  pose proof (proj1 (total_bounds _ Hgp)).
  destruct (malloc_take_run h (l1 ++ pre) sz post size Hw Hfit ltac:(lia) Hs4) as (h' & Hr & Hw' & Hfx & Hpay & Hlow).
  { rewrite El, total_app. lia. }
  exists h'. unfold bind. rewrite Hr. done.
Qed.

(** * Properties *)

(** The heap's semaphore is free and no interrupt is being served. *)
Definition unlocked (heap_sem : Z) (k : kst) : Prop :=
  (∃ x, sem_ok heap_sem k 1 x) ∧ sc_irq_nest (k_sched k) = 0.

(** The kernel state while the heap is locked. *)
Definition locked_st (heap_sem : Z) (k : kst) : kst := sem_held heap_sem k.

Lemma lock_run heap_sem k h : unlocked heap_sem k → lock heap_sem (k, h) = Some (true, (locked_st heap_sem k, h)).
Proof. intros [(x & Hx) _]. unfold lock, kernel, bind. cbn [fst snd]. by rewrite (sem_lock_run heap_sem k x). Qed.

Lemma unlock_run heap_sem k h : unlocked heap_sem k → unlock heap_sem (locked_st heap_sem k, h) = Some (tt, (k, h)).
Proof. intros [(x & Hx) _]. unfold unlock, kernel, bind. cbn [fst snd]. unfold locked_st. by rewrite (sem_unlock_run heap_sem k x). Qed.

Lemma not_in_interrupt_run heap_sem k h :
  unlocked heap_sem k → kernel RT_DEBUG_NOT_IN_INTERRUPT (k, h) = Some (tt, (k, h)).
Proof.
  intros [_ Hi]. unfold kernel, RT_DEBUG_NOT_IN_INTERRUPT, rt_interrupt_get_nest, bind, gets, assert. cbn. by rewrite Hi.
Qed.

(** The number of bytes [rt_malloc] reserves for a request. *)
Definition request (size : Z) : Z := Z.max MIN_SIZE_ALIGNED ((size + 3) / 4 * 4).

Lemma align_facts size : 0 ≤ size → (size + 3) / 4 * 4 mod 4 = 0 ∧ size ≤ (size + 3) / 4 * 4 ≤ size + 3.
Proof.
  intros Hs. pose proof (Z.div_mod (size + 3) 4). pose proof (Z.mod_pos_bound (size + 3) 4).
  split; [apply Z.mod_mul; lia|]. lia.
Qed.

Lemma request_facts size : 0 ≤ size → request size mod 4 = 0 ∧ size ≤ request size ∧ MIN_SIZE_ALIGNED ≤ request size.
Proof.
  intros Hs. destruct (align_facts size Hs) as [H1 H2]. unfold request.
  destruct (Z.max_spec MIN_SIZE_ALIGNED ((size + 3) / 4 * 4)) as [[? ->]|[? ->]]; split_and!; lia || done.
Qed.

Lemma malloc_locked_run heap_sem k h bs n :
  unlocked heap_sem k → hwf h bs → MIN_SIZE_ALIGNED ≤ n ≤ h_size h → n mod 4 = 0 →
  match search (h_lfree h) (h_size h - n) n 0 bs with
  | None => malloc_locked heap_sem n (locked_st heap_sem k, h) = Some (Returned 0, (k, h))
  | Some (pre, sz, post) => ∃ h', allocated n pre sz post h h' ∧
      malloc_locked heap_sem n (locked_st heap_sem k, h) =
        Some (Returned (h_ptr h + total pre + SIZEOF_STRUCT_MEM), (k, h'))
  end.
Proof.
  intros Hk Hw Hn Hn4. pose proof (malloc_section_run h bs n Hw Hn Hn4) as Hrun.
  destruct (search _ _ _ _ bs) as [[[pre sz] post]|] eqn:Es.
  - destruct Hrun as (h' & Hr & Hal). exists h'. split; [done|]. pose proof Hal as (Hw' & (Ep & Ee & Esz) & _ & _).
    destruct (search_split _ _ _ _ _ _ _ _ Es) as (Ebs & Hfit & Hlim). unfold SIZEOF_STRUCT_MEM, MIN_SIZE_ALIGNED in *.
    pose proof (hw_layout _ _ Hw) as HL. rewrite Ebs in HL. change ((sz, false) :: post) with ([(sz, false)] ++ post) in HL.
    pose proof (layout_offsets _ _ _ _ HL) as (H0 & _ & H2 & He & Hlt & Hg1 & _ & _). cbn in He.
    pose proof (ly_range _ _ HL) as [Hp1 Hp2]. pose proof (ly_align _ _ HL) as Hal4. unfold SIZEOF_STRUCT_MEM in Hp2.
    pose proof (proj2 (total_bounds _ Hg1)) as Hp4.
    assert ((h_ptr h + total pre) mod 4 = 0) as Hm4 by (rewrite Z.add_mod, Hal4, Hp4 by lia; done).
    unfold malloc_locked, bind at 1, heap_op. cbn [fst snd]. rewrite Hr. unfold bind at 1. rewrite unlock_run by done.
    unfold bind at 1, gets. cbn [snd]. rewrite Ep, Ee. unfold SIZEOF_STRUCT_MEM.
    rewrite (wrap_small 32 (h_ptr h + total pre)) by lia. unfold bind at 1, assert at 1.
    rewrite (proj2 (Z.leb_le _ _)) by lia. unfold bind at 1, assert at 1. rewrite (wrap_small 32) by lia.
    rewrite (Z.add_mod _ 12), Hm4 by lia. cbn [Z.eqb Z.add Z.modulo Z.div_eucl].
    unfold bind at 1, assert at 1. change 3 with (Z.ones 2). rewrite Z.land_ones by lia. change (2 ^ 2) with 4. rewrite Hm4. done.
  - unfold malloc_locked, bind at 1, heap_op. cbn [fst snd]. rewrite Hrun. unfold bind. by rewrite unlock_run by done.
Qed.

(** ** The client's view: the set of allocated blocks *)

(** A block in use of [z] bytes, header included, starts at the offset [o]. *)
Fixpoint used_at (bs : list block) (o z : Z) : Prop :=
  match bs with
  | [] => False
  | (sz, u) :: bs' => (u = true ∧ sz = z ∧ o = 0) ∨ used_at bs' (o - sz) z
  end.

Lemma used_at_app l1 l2 o z : used_at (l1 ++ l2) o z ↔ used_at l1 o z ∨ used_at l2 (o - total l1) z.
Proof.
  revert o. induction l1 as [|[sz u] l1 IH]; intros o; cbn; [rewrite Z.sub_0_r; tauto|].
  rewrite IH. replace (o - sz - total l1) with (o - (sz + total l1)) by lia. tauto.
Qed.

Lemma used_at_split bs o z :
  used_at bs o z → ∃ l1 l2, bs = l1 ++ [(z, true)] ++ l2 ∧ o = total l1.
Proof.
  revert o. induction bs as [|[sz u] bs IH]; intros o; cbn; [done|]. intros [(-> & -> & ->)|H].
  - by exists [], bs.
  - destruct (IH _ H) as (l1 & l2 & -> & E). exists ((sz, u) :: l1), l2. split; [done|]. cbn. lia.
Qed.

Lemma used_at_here l1 z l2 : used_at (l1 ++ [(z, true)] ++ l2) (total l1) z.
Proof. apply used_at_app. right. cbn. left. split_and!; [done|done|lia]. Qed.

(** Allocated blocks lie in the heap and apart. *)
Lemma used_at_range bs o z : good bs → used_at bs o z → 0 ≤ o ∧ good_size z ∧ o + z ≤ total bs.
Proof.
  intros Hg (l1 & l2 & -> & ->)%used_at_split. apply good_app in Hg as [Hg1 Hg].
  inversion Hg as [|? ? Hz Hg2]; subst. rewrite total_app. cbn.
  pose proof (proj1 (total_bounds _ Hg1)). pose proof (proj1 (total_bounds _ Hg2)). cbn in *. split_and!; try apply Hz; lia.
Qed.

Lemma used_at_apart bs o z o' z' :
  good bs → used_at bs o z → used_at bs o' z' → (o = o' ∧ z = z') ∨ o + z ≤ o' ∨ o' + z' ≤ o.
Proof.
  intros Hg (l1 & l2 & -> & ->)%used_at_split (l1' & l2' & E & ->)%used_at_split.
  destruct (blocks_apart l1 (z, true) l2 l1' (z', true) l2' Hg E) as [(-> & [= ->] & _)|[?|?]]; cbn in *; lia.
Qed.

Lemma payload_used bs m m' o z i :
  payload_kept bs m m' → used_at bs o z → o + SIZEOF_STRUCT_MEM ≤ i < o + z → m' i = m i.
Proof. intros Hp (l1 & l2 & -> & ->)%used_at_split Hi. by eapply (Hp l1 (z, true) l2). Qed.

(** Allocation adds one block, *)
Lemma used_at_carve pre sz post size o z :
  used_at (pre ++ carve size sz ++ post) o z ↔
  used_at (pre ++ [(sz, false)] ++ post) o z ∨ (o = total pre ∧ z = used_total (carve size sz)).
Proof.
  rewrite carve_used. unfold carve, SIZEOF_STRUCT_MEM, MIN_SIZE_ALIGNED. cbn [app].
  case_match; cbn [app]; rewrite !used_at_app; cbn.
  - replace (o - total pre - (size + 12) - (sz - (size + 12))) with (o - total pre - sz) by lia. split.
    + intros [?|[(_ & <- & ?)|[(? & _)|?]]]; [tauto|right; split; [lia|done]|done|tauto].
    + intros [[?|[(? & _)|?]]|[-> ->]]; [tauto|done|tauto|]. right. left. split_and!; [done|done|lia].
  - split.
    + intros [?|[(_ & <- & ?)|?]]; [tauto|right; split; [lia|done]|tauto].
    + intros [[?|[(? & _)|?]]|[-> ->]]; [tauto|done|tauto|]. right. left. split_and!; [done|done|lia].
Qed.

(** release removes it. *)
Lemma used_at_coalesce l1 sz l2 o z :
  good (l1 ++ [(sz, true)] ++ l2) →
  used_at (coalesce l1 sz l2) o z ↔ used_at (l1 ++ [(sz, true)] ++ l2) o z ∧ o ≠ total l1.
Proof.
  intros Hg. pose proof Hg as Hg'. apply good_app in Hg' as [Hg1 Hg2]. inversion Hg2 as [|? ? [Hsz _] Hg3]; subst. cbn in Hsz.
  assert (used_at (l1 ++ [(sz, true)] ++ l2) o z ∧ o ≠ total l1 ↔ used_at l1 o z ∨ used_at l2 (o - total l1 - sz) z) as ->.
  { cbn [app]. rewrite used_at_app. cbn. split; [intros [[?|[(_ & _ & ?)|?]] ?]; [tauto|lia|tauto]|].
    intros [H|H]; (split; [tauto|]).
    - apply used_at_range in H; [destruct H as (? & [? _] & ?); lia|done].
    - apply used_at_range in H; [lia|done]. }
  assert (∀ k, used_at ((k, false) :: (join_right sz l2).2) (o - total l1 + (k - (join_right sz l2).1)) z ↔
    used_at l2 (o - total l1 - sz) z) as Hj.
  { intros k. unfold join_right. destruct l2 as [|[s2 []] l2]; cbn.
    - split; [intros [(? & _)|?]; done|done].
    - replace (o - total l1 + (k - sz) - k) with (o - total l1 - sz) by lia. split; [intros [(? & _)|?]; [done|tauto]|tauto].
    - replace (o - total l1 + (k - (sz + s2)) - k) with (o - total l1 - sz - s2) by lia.
      split; [intros [(? & _)|?]; [done|tauto]|intros [(? & _)|?]; [done|tauto]]. }
  unfold coalesce. destruct (last l1) as [[s1 []]|] eqn:El.
  - cbn [app]. rewrite used_at_app, <- (Hj (join_right sz l2).1). by rewrite Z.sub_diag, Z.add_0_r.
  - apply last_Some in El as [l0 ->]. rewrite removelast_last, total_app in *. cbn [app total fst] in *.
    rewrite <- (Hj (s1 + (join_right sz l2).1)), !used_at_app. cbn.
    replace (o - (total l0 + (s1 + 0)) + (s1 + (join_right sz l2).1 - (join_right sz l2).1)) with (o - total l0) by lia.
    split; [tauto|]. intros [[?|[(? & _)|[]]]|?]; [tauto|done|tauto].
  - apply last_None in El as ->. cbn [app total] in *. rewrite <- (Hj (join_right sz l2).1).
    rewrite Z.sub_diag, Z.add_0_r, Z.sub_0_r. cbn. tauto.
Qed.

(** ** Allocation and release *)

Lemma malloc_unlocked_run heap_sem k h size :
  unlocked heap_sem k → 0 < size ≤ 2 ^ 32 - 4 →
  rt_malloc heap_sem size (k, h) =
    if h_size h <? (size + 3) / 4 * 4 then Some (Returned 0, (k, h))
    else malloc_locked heap_sem (request size) (locked_st heap_sem k, h).
Proof.
  intros Hk Hs. unfold rt_malloc. rewrite (proj2 (Z.eqb_neq _ _)) by lia.
  unfold bind at 1. rewrite (not_in_interrupt_run heap_sem) by done. unfold bind at 1, gets. cbn [snd].
  rewrite RT_ALIGN_4 by lia. destruct (Z.ltb_spec (h_size h) ((size + 3) / 4 * 4)); [done|].
  unfold bind at 1. rewrite lock_run by done. f_equal. unfold request, MIN_SIZE_ALIGNED.
  destruct (Z.ltb_spec ((size + 3) / 4 * 4) 12); lia.
Qed.

(** The first fit is the last block of the heap and has exactly the size of the request. *)
Definition exact_last (n sz : Z) (post : list block) : bool :=
  match post with [] => sz =? n + SIZEOF_STRUCT_MEM | _ => false end.

(** The loop bound of [rt_malloc] excludes just that fit. *)
Lemma fit_below h bs n pre sz post :
  hwf h bs → fit n bs = Some (pre, sz, post) →
  (total pre <? h_size h - n) = negb (exact_last n sz post).
Proof.
  intros Hw (-> & Hfit)%fit_split. pose proof (hw_layout _ _ Hw) as HL. pose proof (ly_size _ _ HL) as Hsz.
  apply layout_good in HL as [Hg Ht]. rewrite !total_app in Ht. cbn in Ht.
  apply good_app in Hg as [_ [_ Hg]%good_app]. unfold exact_last. destruct post as [|[z u] post].
  - cbn in Ht. destruct (Z.eqb_spec sz (n + SIZEOF_STRUCT_MEM)); cbn; [apply Z.ltb_ge|apply Z.ltb_lt]; lia.
  - inversion Hg as [|? ? [Hz _] Hg']; subst. cbn in Hz, Ht. pose proof (proj1 (total_bounds _ Hg')).
    cbn. apply Z.ltb_lt. unfold SIZEOF_STRUCT_MEM in *. lia.
Qed.

(** C8: [rt_malloc] is first fit: with the heap's semaphore free and [lfree] the lowest
    free block, a request of 1 to 2^32 - 4 bytes gets the first free block of the heap that
    can hold it, aligned; the block is split when the rest can hold another one, and the
    address behind its header is returned. [RT_NULL] is returned, and nothing changed, when
    no free block of the heap can hold the request, and in one more case that the loop bound
    excludes: the only fit is the last block of the heap and its size is exactly that of
    the request. [lfree] stays the lowest free block and the semaphore is free again. *)
Theorem rt_malloc_spec heap_sem k h bs size :
  unlocked heap_sem k → hwf h bs → lowest_free h bs → 0 < size ≤ 2 ^ 32 - 4 →
  wp (rt_malloc heap_sem size) (λ r s', s'.1 = k ∧
    match fit (request size) bs with
    | None => r = Returned 0 ∧ s'.2 = h
    | Some (pre, sz, post) => bs = pre ++ [(sz, false)] ++ post ∧
        if exact_last (request size) sz post then r = Returned 0 ∧ s'.2 = h
        else r = Returned (h_ptr h + total pre + SIZEOF_STRUCT_MEM) ∧ allocated (request size) pre sz post h s'.2 ∧
             lowest_free s'.2 (pre ++ carve (request size) sz ++ post)
    end) (k, h).
Proof.
  intros Hk Hw Hlow Hs. unfold wp. rewrite malloc_unlocked_run by done.
  destruct (request_facts size ltac:(lia)) as (Hr4 & _ & Hmin).
  pose proof (layout_good _ _ (hw_layout _ _ Hw)) as [Hg Ht]. pose proof (ly_size _ _ (hw_layout _ _ Hw)) as Hsz.
  destruct (Z.ltb_spec (h_size h) ((size + 3) / 4 * 4)) as [Hbig|Hle].
  { cbn. split; [done|]. destruct (fit _ bs) as [[[pre sz] post]|] eqn:Ef; [|done]. exfalso.
    apply fit_split in Ef as [-> Hfit]. apply good_app in Hg as [Hg1 [_ Hg2]%good_app]. rewrite !total_app in Ht. cbn in Ht.
    pose proof (proj1 (total_bounds _ Hg1)). pose proof (proj1 (total_bounds _ Hg2)). unfold request in Hfit. lia. }
  assert (request size ≤ h_size h) by (pose proof (ly_min _ _ (hw_layout _ _ Hw)); unfold request, MIN_SIZE, MIN_SIZE_ALIGNED in *; lia).
  pose proof (malloc_locked_run heap_sem k h bs (request size) Hk Hw ltac:(lia) Hr4) as Hrun.
  rewrite search_fit in Hrun; [|done|].
  2:{ intros l1 z l2 ->. apply Hlow, is_free_app. right. cbn. left. split; [done|lia]. }
  destruct (fit _ bs) as [[[pre sz] post]|] eqn:Ef; [|by rewrite Hrun].
  rewrite Z.add_0_l, (fit_below h bs _ _ _ _ Hw Ef) in Hrun. apply fit_split in Ef as [-> Hfit].
  destruct (exact_last _ _ _); cbn [negb] in Hrun; [by rewrite Hrun|].
  destruct Hrun as (h' & Hal & ->). split_and!; [done|done|done|done|]. by apply Hal.
Qed.

Lemma allocated_view n pre sz post h h' :
  allocated n pre sz post h h' → let bs := pre ++ [(sz, false)] ++ post in
  hwf h bs → n + SIZEOF_STRUCT_MEM ≤ sz →
  let z := used_total (carve n sz) in
  ∃ bs', hwf h' bs' ∧ n + SIZEOF_STRUCT_MEM ≤ z ∧
    (∀ o' z', used_at bs' o' z' ↔ used_at bs o' z' ∨ (o' = total pre ∧ z' = z)) ∧
    (∀ o' z', used_at bs o' z' → o' + z' ≤ total pre ∨ total pre + z ≤ o') ∧
    (∀ o' z' i, used_at bs o' z' → o' + SIZEOF_STRUCT_MEM ≤ i < o' + z' → h_mem h' i = h_mem h i) ∧
    (lowest_free h bs → lowest_free h' bs').
Proof.
  intros (Hw' & _ & Hpay & Hlow) bs Hw Hfit z. exists (pre ++ carve n sz ++ post).
  pose proof (layout_good _ _ (hw_layout _ _ Hw)) as [Hg _]. pose proof (layout_good _ _ (hw_layout _ _ Hw')) as [Hg' _].
  assert (∀ o' z', used_at (pre ++ carve n sz ++ post) o' z' ↔ used_at bs o' z' ∨ (o' = total pre ∧ z' = z)) as Hua
    by (intros; apply used_at_carve).
  split; [done|]. split; [unfold z; rewrite carve_used; case_match; lia|]. split; [done|]. split; [|split; [|done]].
  - intros o' z' Ho. destruct (used_at_apart _ o' z' (total pre) z Hg') as [[-> ->]|H]; [apply Hua; by left|apply Hua; by right| |lia].
    exfalso. pose proof (used_at_range _ _ _ Hg Ho) as (_ & [Hz _] & _).
    apply used_at_split in Ho as (l1 & l2 & E & Et). pose proof Hg as Hg1. apply good_app in Hg1 as [_ Hg1].
    inversion Hg1 as [|? ? [Hs _] _]; subst. cbn in Hs.
    destruct (blocks_apart pre (sz, false) post l1 (z, true) l2 Hg E) as [(_ & ? & _)|[Hc|Hc]]; [done|cbn in Hc; lia..].
  - intros o' z' i Ho Hi. eapply payload_used; [exact Hpay| |exact Hi]. apply Hua. by left.
Qed.

(** C9: the memory [rt_malloc] returns, for a size of at most 2^32 - 4 and with the
    semaphore of the heap free, is the application's alone: it is aligned,
    inside the heap, large enough, and apart from every block already allocated, whose
    contents are unchanged; exactly this block is added to the allocated ones and the
    heap stays well formed. *)
Theorem rt_malloc_region heap_sem k h bs size :
  unlocked heap_sem k → hwf h bs → 0 < size ≤ 2 ^ 32 - 4 →
  wp (rt_malloc heap_sem size) (λ r s', ∀ p, r = Returned p → p ≠ 0 → ∃ bs' o z,
    hwf s'.2 bs' ∧ p = h_ptr h + o + SIZEOF_STRUCT_MEM ∧ p mod 4 = 0 ∧
    size ≤ z - SIZEOF_STRUCT_MEM ∧ 0 ≤ o ∧ o + z ≤ h_end h ∧
    (∀ o' z', used_at bs' o' z' ↔ used_at bs o' z' ∨ (o' = o ∧ z' = z)) ∧
    (∀ o' z', used_at bs o' z' → o' + z' ≤ o ∨ o + z ≤ o') ∧
    (∀ o' z' i, used_at bs o' z' → o' + SIZEOF_STRUCT_MEM ≤ i < o' + z' → h_mem s'.2 i = h_mem h i)) (k, h).
Proof.
  intros Hk Hw Hs. unfold wp. rewrite malloc_unlocked_run by done.
  destruct (Z.ltb_spec (h_size h) ((size + 3) / 4 * 4)) as [|Hle]; [congruence|].
  destruct (request_facts size ltac:(lia)) as (Hr4 & Hge & Hmin).
  assert (request size ≤ h_size h) by (pose proof (ly_min _ _ (hw_layout _ _ Hw)); unfold request, MIN_SIZE, MIN_SIZE_ALIGNED in *; lia).
  pose proof (malloc_locked_run heap_sem k h bs (request size) Hk Hw ltac:(lia) Hr4) as Hrun.
  destruct (search _ _ _ _ bs) as [[[pre sz] post]|] eqn:Es; [|rewrite Hrun; congruence].
  destruct Hrun as (h' & Hal & ->). apply search_split in Es as (-> & Hfit & _).
  intros p [= <-] _. destruct (allocated_view _ _ _ _ _ _ Hal Hw Hfit) as (bs' & Hw' & Hz & Hua & Hap & Hpay & _).
  exists bs', (total pre), (used_total (carve (request size) sz)).
  pose proof (layout_good _ _ (hw_layout _ _ Hw')) as [Hg' Ht'].
  destruct (used_at_range bs' (total pre) (used_total (carve (request size) sz)) Hg') as (? & _ & Hend); [apply Hua; by right|].
  pose proof Hal as (_ & (_ & Ee & _) & _). cbn [snd].
  refine (conj Hw' (conj eq_refl (conj _ (conj _ (conj _ (conj _ (conj Hua (conj Hap Hpay)))))))); [|lia|lia|lia].
  pose proof (hw_layout _ _ Hw) as HL. pose proof (ly_align _ _ HL) as Hal4. apply layout_good in HL as [Hg _].
  apply good_app in Hg as [Hg _]. apply total_bounds in Hg as [_ Hp4].
  rewrite Z.add_mod, (Z.add_mod (h_ptr h)), Hal4, Hp4 by lia. done.
Qed.

(** While [lfree] is the lowest free block, [rt_malloc] fails only if no free block
    that starts below [mem_size_aligned] minus the reserved size can hold the request,
    and it keeps [lfree] the lowest free block. *)
Theorem rt_malloc_complete heap_sem k h bs size :
  unlocked heap_sem k → hwf h bs → lowest_free h bs → 0 < size ≤ 2 ^ 32 - 4 → (size + 3) / 4 * 4 ≤ h_size h →
  wp (rt_malloc heap_sem size) (λ r s',
    (∃ bs', hwf s'.2 bs' ∧ lowest_free s'.2 bs') ∧
    (r = Returned 0 → ∀ l1 sz l2, bs = l1 ++ [(sz, false)] ++ l2 →
       h_size h - request size ≤ total l1 ∨ sz < request size + SIZEOF_STRUCT_MEM)) (k, h).
Proof.
  intros Hk Hw Hlow Hs Hle. unfold wp. rewrite malloc_unlocked_run by done. rewrite (proj2 (Z.ltb_ge _ _)) by lia.
  destruct (request_facts size ltac:(lia)) as (Hr4 & Hge & Hmin). pose proof (ly_range _ _ (hw_layout _ _ Hw)) as [Hp1 Hp2].
  assert (request size ≤ h_size h) by (pose proof (ly_min _ _ (hw_layout _ _ Hw)); unfold request, MIN_SIZE, MIN_SIZE_ALIGNED in *; lia).
  pose proof (malloc_locked_run heap_sem k h bs (request size) Hk Hw ltac:(lia) Hr4) as Hrun.
  destruct (search _ _ _ _ bs) as [[[pre sz] post]|] eqn:Es.
  - destruct Hrun as (h' & Hal & ->). apply search_split in Es as (-> & _ & _). destruct Hal as (Hw' & _ & _ & Hl').
    split; [eauto|]. pose proof (layout_good _ _ (hw_layout _ _ Hw)) as [Hg _]. apply good_app in Hg as [Hg _].
    pose proof (proj1 (total_bounds _ Hg)). intros [= E]. unfold SIZEOF_STRUCT_MEM in *. lia.
  - rewrite Hrun. split; [eauto|]. intros _ l1 sz l2 ->.
    pose proof (Hlow (total l1) ltac:(apply is_free_app; right; left; split; [done|lia])) as Hlf.
    destruct (Z.lt_ge_cases (total l1) (h_size h - request size)); [|by left].
    destruct (Z.lt_ge_cases sz (request size + SIZEOF_STRUCT_MEM)); [by right|]. exfalso. clear Hrun.
    by apply (search_finds (h_lfree h) (h_size h - request size) (request size) l1 sz l2 0).
Qed.

Lemma free_unlocked_run heap_sem k h l1 sz l2 :
  unlocked heap_sem k → hwf h (l1 ++ [(sz, true)] ++ l2) →
  ∃ h', rt_free heap_sem (h_ptr h + total l1 + SIZEOF_STRUCT_MEM) (k, h) = Some (Returned tt, (k, h')) ∧
    hwf h' (coalesce l1 sz l2) ∧ fixed h h' ∧ payload_kept (l1 ++ [(sz, true)] ++ l2) (h_mem h) (h_mem h') ∧
    (lowest_free h (l1 ++ [(sz, true)] ++ l2) → lowest_free h' (coalesce l1 sz l2)).
Proof.
  intros Hk Hw. destruct (free_section_run h l1 sz l2 Hw) as (h' & Hr & Hpost). exists h'. split; [|done].
  pose proof (hw_layout _ _ Hw) as HL. pose proof (layout_offsets _ _ _ _ HL) as (H0 & _ & H2 & He & Hlt & Hg1 & Hgx & _).
  pose proof (total_pos _ _ Hgx) as [Hsz _]. cbn in Hsz, He. pose proof (ly_range _ _ HL) as [Hp1 Hp2].
  pose proof (ly_align _ _ HL) as Hal. pose proof (proj2 (total_bounds _ Hg1)) as Hp4. unfold SIZEOF_STRUCT_MEM in *.
  unfold rt_free. rewrite (proj2 (Z.eqb_neq _ _)) by lia. unfold bind at 1. rewrite (not_in_interrupt_run heap_sem) by done.
  unfold bind at 1, assert at 1. change 3 with (Z.ones 2). rewrite Z.land_ones by lia. change (2 ^ 2) with 4.
  rewrite (Z.add_mod _ 12), (Z.add_mod (h_ptr h)), Hal, Hp4 by lia. change (((0 + 0) mod 4 + 12 mod 4) mod 4 =? 0) with true.
  unfold bind at 1, gets. cbn [snd]. unfold bind at 1, assert at 1.
  rewrite (proj2 (Z.leb_le _ _)), (proj2 (Z.ltb_lt _ _)) by lia. cbn [andb].
  unfold bind at 1. rewrite lock_run by done. unfold bind at 1, free_locked, bind at 1, gets. cbn [snd].
  unfold bind at 1, heap_op, SIZEOF_STRUCT_MEM. cbn [fst snd].
  replace (h_ptr h + total l1 + 12 - 12 - h_ptr h) with (total l1) by lia. rewrite Hr. by rewrite unlock_run.
Qed.

(** C30: [rt_free] of an allocated block removes exactly that block from the allocated
    ones, joins it with its free neighbours so that no two free blocks are adjacent,
    leaves the contents of all other blocks alone, keeps [lfree] the lowest free block
    when it was, and frees the semaphore again. *)
Theorem rt_free_spec heap_sem k h bs o z :
  unlocked heap_sem k → hwf h bs → used_at bs o z →
  wp (rt_free heap_sem (h_ptr h + o + SIZEOF_STRUCT_MEM)) (λ r s', r = Returned tt ∧ s'.1 = k ∧ ∃ bs',
    hwf s'.2 bs' ∧ fixed h s'.2 ∧ (lowest_free h bs → lowest_free s'.2 bs') ∧
    (∀ o' z', used_at bs' o' z' ↔ used_at bs o' z' ∧ o' ≠ o) ∧
    (∀ o' z' i, used_at bs o' z' → o' + SIZEOF_STRUCT_MEM ≤ i < o' + z' → h_mem s'.2 i = h_mem h i)) (k, h).
Proof.
  intros Hk Hw (l1 & l2 & -> & ->)%used_at_split.
  destruct (free_unlocked_run heap_sem k h l1 z l2 Hk Hw) as (h' & Hr & Hw' & Hfx & Hpay & Hlow).
  unfold wp. rewrite Hr. split; [done|]. split; [done|]. exists (coalesce l1 z l2).
  split; [done|]. split; [done|]. split; [done|]. split.
  - intros o' z'. apply used_at_coalesce. by apply (layout_good _ _ (hw_layout _ _ Hw)).
  - intros o' z' i Ho Hi. by eapply payload_used.
Qed.

(** Freeing what was just carved gives the block list back. *)
Lemma coalesce_carve pre sz post size :
  coalesced (pre ++ [(sz, false)] ++ post) → ∃ s r, carve size sz = (s, true) :: r ∧
    coalesce pre s (r ++ post) = pre ++ [(sz, false)] ++ post.
Proof.
  intros Hco. apply coalesced_app in Hco as (_ & Hco & Hj).
  assert (∀ s, coalesce pre s ((sz - s, false) :: post) = pre ++ [(sz, false)] ++ post ∧
    (s = sz → coalesce pre s post = pre ++ [(sz, false)] ++ post)) as Hc.
  { intros s. unfold coalesce. unfold junction in Hj. cbn in Hj. split.
    - cbn [join_right fst snd]. replace (s + (sz - s)) with sz by lia. destruct (last pre) as [[? []]|]; done.
    - intros ->. replace (join_right sz post) with (sz, post); [destruct (last pre) as [[? []]|]; done|].
      destruct post as [|[s2 []] post]; [done..|]. cbn in Hco. destruct Hco as [[?|?] _]; done. }
  unfold carve. case_match; eexists _, _; (split; [done|]); [apply Hc|by apply Hc].
Qed.

(** Allocating and releasing again gives back the heap's block list, so the pair
    never fragments the heap. *)
Theorem rt_malloc_free heap_sem k h bs size :
  unlocked heap_sem k → hwf h bs → 0 < size ≤ 2 ^ 32 - 4 →
  wp (r ← rt_malloc heap_sem size;
      match r with Returned p => rt_free heap_sem p | Blocked c => ret (Blocked c) end)
    (λ r s', r = Returned tt ∧ s'.1 = k ∧ hwf s'.2 bs) (k, h).
Proof.
  intros Hk Hw Hs. apply wp_bind. unfold wp at 1. rewrite malloc_unlocked_run by done.
  destruct (Z.ltb_spec (h_size h) ((size + 3) / 4 * 4)) as [|Hle]; [done|].
  destruct (request_facts size ltac:(lia)) as (Hr4 & Hge & Hmin).
  assert (request size ≤ h_size h) by (pose proof (ly_min _ _ (hw_layout _ _ Hw)); unfold request, MIN_SIZE, MIN_SIZE_ALIGNED in *; lia).
  pose proof (malloc_locked_run heap_sem k h bs (request size) Hk Hw ltac:(lia) Hr4) as Hrun.
  destruct (search _ _ _ _ bs) as [[[pre sz] post]|] eqn:Es; [|by rewrite Hrun].
  destruct Hrun as (h' & Hal & ->). apply search_split in Es as (-> & _ & _).
  destruct (coalesce_carve pre sz post (request size) (hw_coalesced _ _ Hw)) as (s & r & Ec & Eco).
  destruct Hal as (Hw' & (Ep & _) & _). rewrite Ec in Hw'.
  destruct (free_unlocked_run heap_sem k h' pre s (r ++ post) Hk Hw') as (h2 & Hr & Hw2 & _).
  unfold wp. rewrite <- Ep, Hr. rewrite Eco in Hw2. done.
Qed.

(** ** Resizing *)

Lemma realloc_shrink_run h l1 sz l2 n :
  let bs := l1 ++ [(sz, true)] ++ l2 in let l1' := l1 ++ [(n + SIZEOF_STRUCT_MEM, true)] in
  let r := sz - (n + SIZEOF_STRUCT_MEM) in
  hwf h bs → 0 < n → n mod 4 = 0 → n + SIZEOF_STRUCT_MEM + MIN_SIZE < sz - SIZEOF_STRUCT_MEM →
  ∃ h', realloc_section (total l1) n h = Some (None, h') ∧ hwf h' (coalesce l1' r l2) ∧ fixed h h' ∧
    payload_kept (l1' ++ [(r, false)] ++ l2) (h_mem h) (h_mem h') ∧
    (free_at (coalesce l1' r l2) (h_lfree h) → h_lfree h' = h_lfree h).
Proof.
  intros bs l1' r [HL Hco Hlf Hus Hmx] Hn Hn4 Hsmall. unfold SIZEOF_STRUCT_MEM, MIN_SIZE in *.
  pose proof (layout_offsets _ _ _ _ HL) as (H0 & _ & H2 & He & Hlt & Hg1 & Hgx & Hg2).
  inversion Hgx as [|? ? [Hs Hsz4] _]; subst. cbn in Hs, Hsz4, He.
  destruct (layout_hdr _ _ _ _ _ HL) as (p & Hhd & _ & _).
  destruct (rd_run h (total l1) _ _ _ _ ltac:(lia) Hhd) as (_ & _ & Hnext & _).
  set (u := u32 (h_used h - (sz - 12 - n))). set (h0 := set_used u (h_max h) h).
  assert (layout h0 bs) as HL0 by by apply layout_used.
  assert (good_size (n + 12)) as Hgn by (split; [pose proof (Z.div_mod n 4); lia|]; rewrite Z.add_mod, Hn4 by lia; done).
  assert (good_size r) as Hgr by (unfold r; split; [lia|]; rewrite Zminus_mod, Hsz4, (proj2 Hgn) by lia; done).
  destruct (layout_carve h0 l1 l2 sz true (n + 12) HL0 Hgn Hgr) as (h1 & Hr1 & Hm1 & Hh1 & Hs1 & Ht1).
  assert (h_end h1 = h_end h) as Ee1 by (by rewrite Hm1).
  destruct (fix_prev_run h1 l1 (n + 12) true r l2) as (h2 & Hr2 & Hm2 & HL2 & Ht2).
  { eapply (frame_remem h0); [done|]. by eapply layout_frame. }
  { done. }
  { rewrite total_app. cbn. unfold r. lia. }
  { apply good_app. split; [done|]. by constructor; [|constructor; [|constructor]]. }
  { done. }
  assert (layout h2 (l1' ++ [(r, false)] ++ l2)) as HL2'.
  { unfold l1'. rewrite <- app_assoc. by rewrite <- app_assoc in HL2. }
  pose proof (remem_trans _ _ _ Hm1 Hm2) as Hm.
  assert (total (l1' ++ [(r, false)] ++ l2) = total bs) as Et by (unfold l1', bs, r; rewrite !total_app; cbn; lia).
  assert (∀ o, is_free bs o → is_free (l1' ++ [(r, false)] ++ l2) o) as Hfree.
  { intros o. unfold bs, l1'. rewrite <- app_assoc. cbn [app]. rewrite !is_free_app. cbn.
    replace (o - total l1 - (n + 12) - r) with (o - total l1 - sz) by (unfold r; lia). intros [?|[[? _]|?]]; [tauto|done|tauto]. }
  assert (h_lfree h2 = h_lfree h) as El2 by (by rewrite Hm).
  assert (free_at (l1' ++ [(r, false)] ++ l2) (h_lfree h2)) as Hf2.
  { rewrite El2. destruct Hlf as [?|Hlf]; [left; by apply Hfree|right; by rewrite Et]. }
  destruct (plug_holes_run h2 l1' r l2 HL2' Hf2) as (h3 & Hr3 & HL3 & Hf3 & Hre & _ & _ & Hut & _ & Hh3 & He3 & ws & Hws & Htc).
  assert (used_total (l1' ++ [(r, false)] ++ l2) = used_total bs - (sz - 12 - n)) as Eut
    by (unfold l1', bs; rewrite !used_total_app; cbn; lia).
  pose proof (layout_good _ _ HL2') as [Hg2' _]. pose proof (proj1 (total_bounds _ Hg2')).
  assert (u = used_total (l1' ++ [(r, false)] ++ l2)) as Eu by (unfold u; rewrite wrap_small; lia).
  assert (total l1' = total l1 + (n + 12)) as Et1 by (unfold l1'; rewrite total_app; cbn; lia).
  exists h3. split; [|split; [|split; [|split]]].
  - unfold realloc_section, bind at 1. rewrite Hnext. unfold SIZEOF_STRUCT_MEM, MIN_SIZE.
    replace (total l1 + sz - total l1 - 12) with (sz - 12) by lia. rewrite !(wrap_small 32) by lia.
    rewrite (proj2 (Z.eqb_neq _ _)), (proj2 (Z.ltb_lt _ _)) by lia.
    unfold bind at 1, modify at 1. fold u. fold h0. replace (total l1 + 12 + n) with (total l1 + (n + 12)) by lia.
    unfold bind in Hr1 at 1. unfold bind at 1. destruct (split_block _ _ _ h0) as [[[] h0']|]; [|done].
    unfold bind at 1. rewrite Hr1. revert Hr2. unfold SIZEOF_STRUCT_MEM, bind.
    destruct (rd_next _ h1) as [[n2 h1']|]; [|done]. unfold gets. intros ->. rewrite <- Et1, Hr3. done.
  - split; [done| |done| |].
    + apply coalesced_release. unfold l1'. apply coalesced_app in Hco as (Hc1 & (_ & Hc2) & Hj). rewrite <- app_assoc.
      apply coalesced_app. split; [done|]. split; [|done]. cbn. split; [by left|].
      split; [|done]. destruct l2 as [|[? ?] ?]; [done|]. by left.
    + rewrite Hre. cbn. rewrite Hm. cbn. by rewrite Hut.
    + rewrite Hre. cbn. rewrite Hm. cbn. lia.
  - unfold fixed. rewrite Hre. cbn. by rewrite Hm.
  - apply (touched_payload _ ([total l1; total l1 + (n + 12); total l1 + sz] ++ ws)); [done| |].
    + apply Forall_app. split; [|done]. constructor; [|constructor; [|constructor; [|done]]].
      * unfold l1'. rewrite <- app_assoc. apply hdr_at_app.
      * rewrite <- Et1. apply hdr_at_app.
      * replace (total l1 + sz) with (total (l1' ++ [(r, false)])) by (rewrite total_app, Et1; cbn; unfold r; lia).
        rewrite app_assoc. apply hdr_at_app.
    + eapply (touched_trans [total l1; total l1 + (n + 12); total l1 + sz] ws); [set_solver|set_solver| |exact Htc].
      eapply (touched_trans [total l1; total l1 + (n + 12)] [total l1 + sz]); [set_solver|set_solver|exact Ht1|].
      rewrite total_app in Ht2. cbn in Ht2. by replace (total l1 + (n + 12 + (r + 0))) with (total l1 + sz) in Ht2 by (unfold r; lia).
  - rewrite <- El2. exact He3.
Qed.

(** Writing inside the memory of an allocated block does not disturb the heap. *)
Lemma seg_headers m m' p o bs p' o' :
  (∀ w, starts bs (w - o) → same_on m m' w (w + 12)) → seg m p o bs p' o' → seg m' p o bs p' o'.
Proof.
  revert p o. induction bs as [|[sz u] bs IH]; intros p o Hsame; cbn; [done|].
  intros (Hh & Hs & H). refine (conj _ (conj Hs _)).
  - rewrite (hdr_same m); [done|]. apply Hsame. left. lia.
  - apply IH; [|done]. intros w Hw. apply Hsame. right. cbn. by replace (w - o - sz) with (w - (o + sz)) by lia.
Qed.

Lemma hwf_write h bs o z m' :
  hwf h bs → used_at bs o z → (∀ i, i < o + SIZEOF_STRUCT_MEM ∨ o + z ≤ i → m' i = h_mem h i) → hwf (set_mem m' h) bs.
Proof.
  intros [HL Hco Hlf Hus Hmx] Hu Hm. pose proof (layout_good _ _ HL) as [Hg Ht].
  pose proof (used_at_range _ _ _ Hg Hu) as (? & [? _] & ?).
  apply used_at_split in Hu as (l1 & l2 & -> & ->). split; try done. unfold SIZEOF_STRUCT_MEM in *.
  apply layout_intro; [eapply (frame_remem h); [done|by eapply layout_frame]| |].
  - destruct (ly_seg _ _ HL) as [p Hp]. exists p. eapply seg_headers; [|exact Hp]. intros w Hw i Hi. apply Hm.
    destruct (hdr_apart l1 (z, true) l2 w Hg) as [?|?]; [left; by rewrite Z.sub_0_r in Hw| |]; cbn in *; [|lia].
    destruct (Z.eq_dec w (total l1)); [lia|]. left.
    assert (starts l1 w) as Hw1.
    { rewrite Z.sub_0_r in Hw. cbn [app] in Hw. apply starts_app in Hw as [?|[?|Hw]]; [done|lia|].
      apply good_app in Hg as [_ Hg]. inversion Hg as [|? ? _ Hg2]; subst. apply starts_range in Hw; [cbn in Hw; lia|done]. }
    apply good_app in Hg as [Hg1 _]. apply starts_range in Hw1; [lia|done].
  - cbn. rewrite (load_ext _ (h_mem h)); [by apply (ly_end _ _ HL)|]. intros i Hi. apply Hm. lia.
Qed.

Lemma fixed_trans h1 h2 h3 : fixed h1 h2 → fixed h2 h3 → fixed h1 h3.
Proof. unfold fixed. intros (-> & -> & ->) (-> & -> & ->). done. Qed.

(** What a client sees of a block that moved to [o'] with [z'] bytes: the first [n]
    bytes of its contents, and all other allocated blocks as they were. *)
Definition moved_to (bs bs' : list block) (o o' z' n : Z) (h h' : heap) : Prop :=
  used_at bs' o' z' ∧
  (∀ i, 0 ≤ i < n → h_mem h' (o' + SIZEOF_STRUCT_MEM + i) = h_mem h (o + SIZEOF_STRUCT_MEM + i)) ∧
  (∀ o1 z1, used_at bs o1 z1 → o1 ≠ o → used_at bs' o1 z1 ∧ o1 ≠ o' ∧
     ∀ i, o1 + SIZEOF_STRUCT_MEM ≤ i < o1 + z1 → h_mem h' i = h_mem h i).

(** Shrinking in place. *)
Lemma shrink_view h h' l1 sz l2 n :
  let r := sz - (n + SIZEOF_STRUCT_MEM) in let l1' := l1 ++ [(n + SIZEOF_STRUCT_MEM, true)] in
  good (l1 ++ [(sz, true)] ++ l2) → good (l1' ++ [(r, true)] ++ l2) →
  payload_kept (l1' ++ [(r, false)] ++ l2) (h_mem h) (h_mem h') →
  moved_to (l1 ++ [(sz, true)] ++ l2) (coalesce l1' r l2) (total l1) (total l1) (n + SIZEOF_STRUCT_MEM) n h h'.
Proof.
  intros r l1' Hg Hg' Hpay. unfold SIZEOF_STRUCT_MEM in *.
  assert (total l1' = total l1 + (n + 12)) as Et by (unfold l1'; rewrite total_app; cbn; lia).
  assert (used_at (coalesce l1' r l2) (total l1) (n + 12)) as Hu.
  { apply used_at_coalesce; [done|]. pose proof Hg' as Hg1. unfold l1' in Hg1. rewrite <- app_assoc in Hg1.
    apply good_app in Hg1 as [_ Hg1]. inversion Hg1 as [|? ? [Hn _] _]; subst. cbn in Hn. split; [|lia].
    unfold l1'. rewrite <- app_assoc. apply used_at_here. }
  split; [done|]. split.
  - intros i Hi. unfold l1' in Hpay. rewrite <- app_assoc in Hpay.
    eapply (Hpay l1 (n + 12, true) ([(r, false)] ++ l2)); [done|]. cbn. unfold SIZEOF_STRUCT_MEM. lia.
  - intros o1 z1 Ho Hne.
    assert (used_at l1 o1 z1 ∨ used_at l2 (o1 - total l1 - sz) z1) as Hin.
    { cbn [app] in Ho. apply used_at_app in Ho as [?|[(_ & _ & ?)|?]]; [by left|lia|by right]. }
    assert (used_at (l1' ++ [(r, false)] ++ l2) o1 z1) as Hin'.
    { cbn [app]. rewrite used_at_app. unfold l1' at 1. rewrite used_at_app. cbn. rewrite Et.
      replace (o1 - (total l1 + (n + 12)) - r) with (o1 - total l1 - sz) by (unfold r; lia). tauto. }
    split; [|split; [done|]].
    + apply used_at_coalesce; [done|]. cbn [app] in Hin' |- *. rewrite used_at_app in Hin' |- *. cbn in Hin' |- *.
      destruct Hin' as [Hi|[(? & _)|Hi]]; [|done|].
      * split; [by left|]. apply good_app in Hg' as [Hg1 _]. apply used_at_range in Hi; [|done].
        destruct Hi as (_ & [? _] & ?). lia.
      * split; [by right; right|]. pose proof Hg' as Hg2. apply good_app in Hg2 as [_ Hg2].
        inversion Hg2 as [|? ? [? _] Hg3]; subst. apply used_at_range in Hi; [|done]. cbn in *. lia.
    + intros i Hi. by eapply payload_used.
Qed.

(** Moving to a new block: allocation, copy and release. *)
Lemma realloc_move_run heap_sem k h bs o z n :
  unlocked heap_sem k → hwf h bs → used_at bs o z → 0 < n ≤ h_size h → n mod 4 = 0 →
  ∃ p h', realloc_move heap_sem (h_ptr h + o + SIZEOF_STRUCT_MEM) n (z - SIZEOF_STRUCT_MEM) (k, h) = Some (Returned p, (k, h')) ∧
    ((p = 0 ∧ h' = h) ∨ ∃ bs' o' z', p = h_ptr h + o' + SIZEOF_STRUCT_MEM ∧ 0 ≤ o' ∧ hwf h' bs' ∧ fixed h h' ∧
       n ≤ z' - SIZEOF_STRUCT_MEM ∧ moved_to bs bs' o o' z' (Z.min n (z - SIZEOF_STRUCT_MEM)) h h').
Proof.
  intros Hk Hw Hu Hn Hn4. pose proof (ly_range _ _ (hw_layout _ _ Hw)) as [Hp1 Hp2].
  pose proof (ly_size _ _ (hw_layout _ _ Hw)) as Hes. pose proof (layout_good _ _ (hw_layout _ _ Hw)) as [Hg Ht].
  pose proof (used_at_range _ _ _ Hg Hu) as (Ho0 & [Hz16 _] & Hoz).
  assert ((n + 3) / 4 * 4 = n) as Ealign by (pose proof (Z.div_mod n 4); pose proof (Z.div_mod (n + 3) 4);
    pose proof (Z.mod_pos_bound (n + 3) 4); lia).
  destruct (request_facts n ltac:(lia)) as (Hr4 & Hge & Hmin). unfold SIZEOF_STRUCT_MEM in Hp2, Hes |- *.
  assert (request n ≤ h_size h) by (pose proof (ly_min _ _ (hw_layout _ _ Hw)); unfold request, MIN_SIZE, MIN_SIZE_ALIGNED in *; lia).
  unfold realloc_move, bind at 1. rewrite malloc_unlocked_run by (done || lia). rewrite Ealign, (proj2 (Z.ltb_ge _ _)) by lia.
  pose proof (malloc_locked_run heap_sem k h bs (request n) Hk Hw ltac:(lia) Hr4) as Hrun.
  destruct (search _ _ _ _ bs) as [[[pre sz] post]|] eqn:Es.
  2: { rewrite Hrun. exists 0, h. split; [done|]. by left. }
  destruct Hrun as (h1 & Hal & ->). apply search_split in Es as (-> & Hfit & _).
  destruct (allocated_view _ _ _ _ _ _ Hal Hw Hfit) as (bs1 & Hw1 & Hz1 & Hua1 & Hap1 & Hpay1 & _).
  destruct Hal as (_ & Hfx1 & _ & _). set (o' := total pre) in *. set (z' := used_total (carve (request n) sz)) in *.
  pose proof (layout_good _ _ (hw_layout _ _ Hw1)) as [Hg1 Ht1]. pose proof Hfx1 as (Ep1 & Ee1 & Esz1).
  assert (used_at bs1 o' z') as Hu' by (apply Hua1; by right). assert (used_at bs1 o z) as Hu1 by (apply Hua1; by left).
  pose proof (used_at_range _ _ _ Hg1 Hu') as (Ho'0 & [Hz'16 _] & Ho'z). unfold SIZEOF_STRUCT_MEM in Hz1, Hpay1.
  set (c := Z.min n (z - 12)). set (m2 := copy (h_mem h1) (o' + 12) (o + 12) c). set (h2 := set_mem m2 h1).
  assert (∀ i, i < o' + 12 ∨ o' + z' ≤ i → m2 i = h_mem h1 i) as Hm2.
  { intros i Hi. unfold m2, copy. destruct (Z.leb_spec (o' + 12) i), (Z.ltb_spec i (o' + 12 + c)); cbn; [lia|done..]. }
  assert (hwf h2 bs1) as Hw2 by exact (hwf_write h1 bs1 o' z' m2 Hw1 Hu' Hm2).
  pose proof Hu1 as (l1 & l2 & Eb & Eo)%used_at_split. rewrite Eb in Hw2.
  destruct (free_unlocked_run heap_sem k h2 l1 z l2 Hk Hw2) as (h3 & Hr3 & Hw3 & Hfx3 & Hpay3 & _).
  assert (o' ≠ o) as Hne by (destruct (Hap1 o z Hu); lia).
  assert (∀ o1 z1, used_at (coalesce l1 z l2) o1 z1 ↔ used_at bs1 o1 z1 ∧ o1 ≠ o) as Hua3.
  { intros o1 z1. rewrite Eb, Eo. apply used_at_coalesce. by rewrite <- Eb. }
  exists (h_ptr h + o' + 12), h3. split.
  - unfold realloc_copy. rewrite (proj2 (nz_true _)) by (unfold SIZEOF_STRUCT_MEM; lia).
    unfold bind at 1, heap_op, modify. cbn [fst snd]. rewrite Ep1. unfold SIZEOF_STRUCT_MEM.
    replace (h_ptr h + o' + 12 - h_ptr h) with (o' + 12) by lia. replace (h_ptr h + o + 12 - h_ptr h) with (o + 12) by lia.
    replace (if z - 12 <? n then z - 12 else n) with c by (unfold c; destruct (Z.ltb_spec (z - 12) n); lia).
    fold m2. fold h2. unfold bind. cbn [h2 set_mem h_ptr] in Hr3. rewrite Ep1, <- Eo in Hr3. unfold SIZEOF_STRUCT_MEM in Hr3.
    rewrite Hr3. done.
  - right. exists (coalesce l1 z l2), o', z'. rewrite Eb in Hu', Hg1.
    split; [done|]. split; [done|]. split; [done|]. split; [by eapply fixed_trans|]. split; [lia|]. split; [|split].
    + apply Hua3. split; [by rewrite Eb|done].
    + intros i Hi. unfold SIZEOF_STRUCT_MEM.
      assert (h_mem h3 (o' + 12 + i) = m2 (o' + 12 + i)) as ->.
      { eapply (payload_used _ m2); [exact Hpay3|exact Hu'|]. unfold SIZEOF_STRUCT_MEM. unfold c in Hi. lia. }
      unfold m2, copy. rewrite (proj2 (Z.leb_le _ _)), (proj2 (Z.ltb_lt _ _)) by lia. cbn [andb].
      replace (o + 12 + (o' + 12 + i - (o' + 12))) with (o + 12 + i) by lia. apply (Hpay1 o z); [done|]. unfold c in Hi. lia.
    + intros o1 z1 Ho1 Hne1. destruct (Hap1 o1 z1 Ho1) as [Hd|Hd];
        (split; [apply Hua3; split; [apply Hua1; by left|done]|]; split; [pose proof (used_at_range _ _ _ Hg Ho1) as (_ & [? _] & _); lia|]);
        (intros i Hi; assert (h_mem h3 i = m2 i) as -> by (eapply (payload_used _ m2);
           [exact Hpay3|rewrite <- Eb; apply Hua1; left; exact Ho1|exact Hi]);
         unfold SIZEOF_STRUCT_MEM in Hi; rewrite Hm2 by lia; by apply (Hpay1 o1 z1)).
Qed.

(** [rt_realloc] of an allocated block up to its first critical section. *)
Lemma realloc_unlocked_run heap_sem k h bs o z newsize :
  unlocked heap_sem k → hwf h bs → used_at bs o z → 0 < newsize ≤ 2 ^ 32 - 4 →
  let n := (newsize + 3) / 4 * 4 in let rmem := h_ptr h + o + SIZEOF_STRUCT_MEM in
  rt_realloc heap_sem rmem newsize (k, h) =
    if h_size h <? n then Some (Returned 0, (k, h))
    else (r ← heap_op (realloc_section o n);
          unlock heap_sem ;;
          match r with None => ret (Returned rmem) | Some size => realloc_move heap_sem rmem n size end)
         (locked_st heap_sem k, h).
Proof.
  intros Hk Hw Hu Hs n rmem. destruct (align_facts newsize ltac:(lia)) as [Hn4 Hn]. fold n in Hn4, Hn.
  pose proof (hw_layout _ _ Hw) as HL. pose proof (layout_good _ _ HL) as [Hg Ht].
  pose proof (used_at_range _ _ _ Hg Hu) as (Ho0 & [Hz16 Hz4] & Hoz). pose proof (ly_range _ _ HL) as [Hp1 Hp2].
  unfold rt_realloc, bind at 1. rewrite (not_in_interrupt_run heap_sem) by done. unfold bind at 1, gets. cbn [snd].
  rewrite RT_ALIGN_4 by lia. fold n. destruct (Z.ltb_spec (h_size h) n) as [|Hle]; [done|].
  unfold rmem, SIZEOF_STRUCT_MEM in *.
  rewrite (proj2 (Z.eqb_neq n 0)), (proj2 (Z.eqb_neq (h_ptr h + o + 12) 0)) by lia.
  unfold bind at 1. rewrite lock_run by done. unfold realloc_locked, bind at 1, gets. cbn [snd].
  rewrite (proj2 (Z.ltb_ge _ _)), (proj2 (Z.leb_gt _ _)) by lia. cbn [orb]. unfold SIZEOF_STRUCT_MEM.
  by replace (h_ptr h + o + 12 - 12 - h_ptr h) with o by lia.
Qed.

(** [rt_realloc] of an allocated block returns a block of at least the new size
    that holds the old contents up to the smaller of both sizes, in place or moved,
    and leaves every other allocated block and its contents alone; if it returns
    [RT_NULL], the heap and the old block are unchanged. *)
Theorem rt_realloc_spec heap_sem k h bs o z newsize :
  unlocked heap_sem k → hwf h bs → used_at bs o z → 0 < newsize ≤ 2 ^ 32 - 4 →
  let n := (newsize + 3) / 4 * 4 in
  wp (rt_realloc heap_sem (h_ptr h + o + SIZEOF_STRUCT_MEM) newsize) (λ r s', s'.1 = k ∧
    ((r = Returned 0 ∧ s'.2 = h) ∨
     ∃ bs' o' z', r = Returned (h_ptr h + o' + SIZEOF_STRUCT_MEM) ∧ hwf s'.2 bs' ∧ fixed h s'.2 ∧
       n ≤ z' - SIZEOF_STRUCT_MEM ∧ moved_to bs bs' o o' z' (Z.min n (z - SIZEOF_STRUCT_MEM)) h s'.2)) (k, h).
Proof.
  intros Hk Hw Hu Hs n. destruct (align_facts newsize ltac:(lia)) as [Hn4 Hn]. fold n in Hn4, Hn.
  pose proof (hw_layout _ _ Hw) as HL. pose proof (layout_good _ _ HL) as [Hg Ht].
  pose proof (used_at_range _ _ _ Hg Hu) as (Ho0 & [Hz16 Hz4] & Hoz). pose proof (ly_range _ _ HL) as [Hp1 Hp2].
  pose proof (ly_size _ _ HL) as Hes.
  unfold wp. pose proof (realloc_unlocked_run heap_sem k h bs o z newsize Hk Hw Hu Hs) as ->. fold n.
  destruct (Z.ltb_spec (h_size h) n) as [|Hle]; [split; [done|]; by left|]. unfold SIZEOF_STRUCT_MEM in Hp2.
  unfold bind at 1, heap_op. cbn [fst snd]. pose proof Hu as (l1 & l2 & Eb & Eo)%used_at_split.
  destruct (Z_lt_dec (n + SIZEOF_STRUCT_MEM + MIN_SIZE) (z - SIZEOF_STRUCT_MEM)) as [Hsmall|Hbig].
  - rewrite Eb in Hw. destruct (realloc_shrink_run h l1 z l2 n Hw ltac:(lia) Hn4 Hsmall) as (h' & Hr & Hw' & Hfx & Hpay & _).
    rewrite Eo, Hr. unfold bind. rewrite unlock_run by done. split; [done|]. right. eexists _, (total l1), (n + SIZEOF_STRUCT_MEM).
    split; [done|]. split; [exact Hw'|]. split; [done|]. split; [lia|].
    rewrite Z.min_l by (unfold SIZEOF_STRUCT_MEM, MIN_SIZE in *; lia). rewrite Eb. apply shrink_view; [by rewrite <- Eb| |done].
    unfold SIZEOF_STRUCT_MEM, MIN_SIZE in *. rewrite Eb in Hg. apply good_app in Hg as [Hg1 Hg2]. inversion Hg2 as [|? ? _ Hg3]; subst.
    assert (good_size (n + 12)) as Hgn by (split; [pose proof (Z.div_mod n 4); lia|]; rewrite Z.add_mod, Hn4 by lia; done).
    rewrite !good_app. split; [split; [done|by constructor]|]. split; [|done]. constructor; [|done]. cbn.
    split; [lia|]. rewrite Zminus_mod, Hz4, (proj2 Hgn) by lia. done.
  - destruct (layout_hdr h l1 l2 z true) as (p & Hhd & _); [by rewrite <- Eb|]. rewrite <- Eo in Hhd.
    destruct (rd_run h o _ _ _ _ ltac:(lia) Hhd) as (_ & _ & Hnext & _).
    unfold realloc_section, bind at 1. rewrite Hnext. unfold SIZEOF_STRUCT_MEM, MIN_SIZE in *.
    replace (o + z - o - 12) with (z - 12) by lia. rewrite !(wrap_small 32) by lia.
    destruct (Z.eqb_spec (z - 12) n) as [En|En].
    + unfold bind, ret at 1. rewrite unlock_run by done. split; [done|]. right. exists bs, o, z.
      split; [done|]. split; [done|]. split; [done|]. split; [lia|]. split; [done|]. split; [done|].
      intros o1 z1 Ho1 Hne. done.
    + rewrite (proj2 (Z.ltb_ge _ _)) by lia. unfold ret at 1. unfold bind at 1. rewrite unlock_run by done. cbv beta iota.
      destruct (realloc_move_run heap_sem k h bs o z n Hk Hw Hu ltac:(lia) Hn4) as (p' & h' & Hr & Hpost).
      unfold SIZEOF_STRUCT_MEM in Hr. rewrite Hr. split; [done|]. destruct Hpost as [[-> ->]|Hpost]; [by left|].
      right. destruct Hpost as (bs' & o' & z' & -> & _ & Hpost). by exists bs', o', z'.
Qed.

(** Shrinking a block below [lfree] in place hides the memory it gives back: the
    new free block lies below [lfree], where [rt_malloc] does not look for it. *)
Theorem rt_realloc_hides_block heap_sem k h bs o z newsize :
  unlocked heap_sem k → hwf h bs → lowest_free h bs → used_at bs o z → 0 < newsize ≤ 2 ^ 32 - 4 →
  let n := (newsize + 3) / 4 * 4 in
  n + SIZEOF_STRUCT_MEM + MIN_SIZE < z - SIZEOF_STRUCT_MEM → o + z < h_lfree h →
  wp (rt_realloc heap_sem (h_ptr h + o + SIZEOF_STRUCT_MEM) newsize) (λ r s',
    r = Returned (h_ptr h + o + SIZEOF_STRUCT_MEM) ∧
    ∃ bs' o1, hwf s'.2 bs' ∧ is_free bs' o1 ∧ o1 < h_lfree s'.2) (k, h).
Proof.
  intros Hk Hw Hlow Hu Hs n Hsmall Hlf. destruct (align_facts newsize ltac:(lia)) as [Hn4 Hn]. fold n in Hn4, Hn.
  pose proof (hw_layout _ _ Hw) as HL. pose proof (layout_good _ _ HL) as [Hg Ht].
  pose proof (used_at_range _ _ _ Hg Hu) as (Ho0 & _ & Hoz). pose proof (ly_size _ _ HL) as Hes.
  unfold wp. pose proof (realloc_unlocked_run heap_sem k h bs o z newsize Hk Hw Hu Hs) as ->. fold n.
  unfold SIZEOF_STRUCT_MEM, MIN_SIZE in *. rewrite (proj2 (Z.ltb_ge _ _)) by lia.
  apply used_at_split in Hu as (l1 & l2 & -> & ->).
  destruct (realloc_shrink_run h l1 z l2 n Hw ltac:(lia) Hn4 Hsmall) as (h' & Hr & Hw' & _ & _ & Hkeep).
  unfold bind at 1, heap_op. cbn [fst snd]. rewrite Hr. unfold bind. rewrite unlock_run by done. split; [done|].
  unfold SIZEOF_STRUCT_MEM in *. set (r := z - (n + 12)) in *.
  assert (join_right r l2 = (r, l2)) as Ej.
  { destruct l2 as [|[s2 []] l2]; [done..|]. exfalso.
    assert (is_free (l1 ++ [(z, true)] ++ (s2, false) :: l2) (total l1 + z)) as F.
    { cbn [app]. rewrite is_free_app. right. cbn. right. left. split; [done|lia]. }
    apply Hlow in F. lia. }
  assert (coalesce (l1 ++ [(n + 12, true)]) r l2 = l1 ++ [(n + 12, true); (r, false)] ++ l2) as Ec.
  { unfold coalesce. rewrite Ej, last_snoc. cbn [fst snd]. by rewrite <- app_assoc. }
  rewrite Ec in Hw', Hkeep. exists (l1 ++ [(n + 12, true); (r, false)] ++ l2), (total l1 + (n + 12)).
  split; [done|]. cbn [snd]. split.
  - cbn [app]. rewrite is_free_app. right. cbn. right. left. split; [done|lia].
  - rewrite Hkeep; [lia|]. unfold free_at. cbn [app]. rewrite is_free_app, total_app. cbn.
    destruct (hw_lfree _ _ Hw) as [F|F].
    + left. cbn [app] in F. apply is_free_app in F as [F|F]; [by left|]. cbn in F. destruct F as [[? _]|F]; [done|].
      right. right. right. by replace (h_lfree h - total l1 - (n + 12) - r) with (h_lfree h - total l1 - z) by (unfold r; lia).
    + right. rewrite F, !total_app. cbn. unfold r. lia.
Qed.

(** A request of the last three 32-bit sizes wraps to zero when it is aligned, and
    is served with the smallest block as if twelve bytes had been asked for. *)
Theorem rt_malloc_size_wraps heap_sem k h bs size :
  unlocked heap_sem k → hwf h bs → 2 ^ 32 - 4 < size < 2 ^ 32 →
  rt_malloc heap_sem size (k, h) = rt_malloc heap_sem MIN_SIZE (k, h).
Proof.
  intros Hk Hw Hs. pose proof (ly_min _ _ (hw_layout _ _ Hw)) as Hmin. unfold MIN_SIZE in *.
  unfold rt_malloc. rewrite (proj2 (Z.eqb_neq size 0)) by lia. change (12 =? 0) with false.
  assert (RT_ALIGN size 4 = 0) as ->.
  { unfold RT_ALIGN. replace (u32 (size + 4 - 1)) with (size - (2 ^ 32 - 3)).
    - assert (size - (2 ^ 32 - 3) = 0 ∨ size - (2 ^ 32 - 3) = 1 ∨ size - (2 ^ 32 - 3) = 2) as [->|[->| ->]] by lia; done.
    - unfold wrap. apply (Z.mod_unique _ _ 1); lia. }
  change (RT_ALIGN 12 4) with 12. unfold bind. rewrite (not_in_interrupt_run heap_sem) by done. unfold gets. cbn [snd].
  by rewrite (proj2 (Z.ltb_ge (h_size h) 0)), (proj2 (Z.ltb_ge (h_size h) 12)) by lia.
Qed.

(** Writing the two headers of an empty heap. *)
Lemma init_headers m ptr e size lf u mx :
  e = size + SIZEOF_STRUCT_MEM → 0 ≤ size → size mod 4 = 0 → 0 < ptr → ptr + e + SIZEOF_STRUCT_MEM ≤ 2 ^ 32 → ptr mod 4 = 0 →
  ∃ m', (wr_magic 0 HEAP_MAGIC ;; wr_next 0 e ;; wr_prev 0 0 ;; wr_used 0 0) (mk_heap m ptr e lf size u mx) =
      Some (tt, mk_heap m' ptr e lf size u mx) ∧
    ∃ m2, (wr_magic e HEAP_MAGIC ;; wr_used e 1 ;; wr_next e e ;; wr_prev e e) (mk_heap m' ptr e lf size u mx) =
      Some (tt, mk_heap m2 ptr e lf size u mx) ∧
      (MIN_SIZE ≤ size → ∀ lf', layout (mk_heap m2 ptr e lf' size u mx) [(e, false)]).
Proof.
  unfold SIZEOF_STRUCT_MEM, MIN_SIZE. intros He Hmin H4 Hp Hr Hp4.
  destruct (hdr m 0) as [[[a b] c] d] eqn:E0.
  set (m1 := store 2 m (0 + 0) HEAP_MAGIC). assert (hdr m1 0 = (HEAP_MAGIC, b, c, d)) as E1 by (by eapply hdr_store_magic).
  set (m2 := store 4 m1 (0 + 4) e). assert (hdr m2 0 = (HEAP_MAGIC, b, e, d)) as E2 by (eapply hdr_store_next; [done|lia]).
  set (m3 := store 4 m2 (0 + 8) 0). assert (hdr m3 0 = (HEAP_MAGIC, b, e, 0)) as E3 by (eapply hdr_store_prev; [done|lia]).
  set (m4 := store 2 m3 (0 + 2) 0). assert (hdr m4 0 = (HEAP_MAGIC, 0, e, 0)) as E4 by (eapply hdr_store_used; [done|lia]).
  exists m4. split.
  { unfold bind, wr_magic, wr_next, wr_prev, wr_used. repeat (rewrite wr_run by (cbn; lia); cbn [set_mem h_mem]). done. }
  set (n1 := store 2 m4 (e + 0) HEAP_MAGIC). set (n2 := store 2 n1 (e + 2) 1).
  set (n3 := store 4 n2 (e + 4) e). set (n4 := store 4 n3 (e + 8) e).
  exists n4. split.
  { unfold bind, wr_magic, wr_next, wr_prev, wr_used. repeat (rewrite wr_run by (cbn; lia); cbn [set_mem h_mem]). done. }
  assert (touched [e] m4 n4) as T.
  { repeat (eapply (touched_trans [e] [e]); [done|done| |apply store_touched; lia]). apply touched_refl. }
  intros Hok lf'. split; cbn; try done.
  - exists 0. split; [|split; [split; [lia|]|done]].
    + rewrite (hdr_same m4); [done|]. eapply touched_same; [done|]. constructor; [lia|done].
    + rewrite He, Z.add_mod, H4 by lia. done.
  - unfold n4, n3. rewrite !load_store_other by lia. by apply load_store_same.
Qed.

(** [rt_system_heap_init] on an area that can hold two headers and a block makes a
    heap of one free block over the aligned area, with the semaphore free; on a smaller
    area it reports an error and changes nothing. *)
Theorem rt_system_heap_init_spec heap_sem k h m begin_addr end_addr :
  kinv k → 0 ≤ sc_lock_nest (k_sched k) < 2 ^ 15 - 1 → sc_irq_nest (k_sched k) = 0 → heap_sem ≠ 0 →
  not_kernel heap_sem k → (∀ cls, Obj heap_sem ∉ tlist (ob_list (k_objects k)) cls) →
  tlist (k_tl k) (HSuspend heap_sem) = [] → h_used h = 0 → h_max h = 0 →
  0 < begin_addr < 2 ^ 32 - 4 → 4 ≤ end_addr < 2 ^ 32 →
  let b := (begin_addr + 3) / 4 * 4 in let e := end_addr / 4 * 4 in
  wp (rt_system_heap_init heap_sem m begin_addr end_addr) (λ r s',
    (b + 2 * SIZEOF_STRUCT_MEM + MIN_SIZE ≤ e → r = true ∧ kinv s'.1 ∧ (∃ x, sem_ok heap_sem s'.1 1 x) ∧
       h_ptr s'.2 = b ∧ h_size s'.2 = e - b - 2 * SIZEOF_STRUCT_MEM ∧
       ∃ sz, hwf s'.2 [(sz, false)] ∧ lowest_free s'.2 [(sz, false)]) ∧
    (e < b + 2 * SIZEOF_STRUCT_MEM → r = false ∧ s' = (k, h))) (k, h).
Proof.
  intros HI Hn Hirq Ha Hnk Hl Hw Hu Hm Hb He b e.
  destruct (align_facts begin_addr ltac:(lia)) as [Hb4 Hbr]. fold b in Hb4, Hbr.
  assert (e mod 4 = 0 ∧ end_addr - 3 ≤ e ≤ end_addr) as [He4 Her].
  { unfold e. pose proof (Z.div_mod end_addr 4). pose proof (Z.mod_pos_bound end_addr 4). split; [apply Z.mod_mul; lia|lia]. }
  assert (Z.land end_addr (u32 (Z.lnot 3)) = e) as Ee.
  { pose proof (RT_ALIGN_4 (end_addr - 3) ltac:(lia)) as E. unfold RT_ALIGN in E.
    replace (end_addr - 3 + 4 - 1) with end_addr in E by lia. rewrite (wrap_small 32 end_addr) in E by lia.
    replace (end_addr - 3 + 3) with end_addr in E by lia. exact E. }
  unfold wp, rt_system_heap_init. rewrite RT_ALIGN_4, Ee by lia. fold b. unfold bind at 1.
  assert (kernel RT_DEBUG_NOT_IN_INTERRUPT (k, h) = Some (tt, (k, h))) as ->.
  { unfold kernel, RT_DEBUG_NOT_IN_INTERRUPT, rt_interrupt_get_nest, bind, gets, assert. cbn. by rewrite Hirq. }
  unfold SIZEOF_STRUCT_MEM, MIN_SIZE in *.
  destruct (Z.ltb_spec (2 * 12) e), (Z.leb_spec b (e - 2 * 12)); cbn [andb]; try (split; [lia|done]).
  set (size := e - b - 2 * 12). unfold bind at 1, heap_op at 1, modify at 1. cbn [fst snd].
  destruct (init_headers m b (size + 12) size (h_lfree h) (h_used h) (h_max h)) as (m1 & Hr1 & m2 & Hr2 & HL).
  { done. } { lia. } { unfold size. rewrite Zminus_mod, (Zminus_mod e), He4, Hb4 by lia. done. }
  { lia. } { unfold SIZEOF_STRUCT_MEM, size. lia. } { done. }
  unfold bind at 1, heap_op at 1. cbn [fst snd]. fold size. unfold SIZEOF_STRUCT_MEM. rewrite Hr1.
  unfold bind at 1, heap_op at 1. cbn [fst snd]. rewrite Hr2.
  pose proof (rt_sem_init_spec k heap_sem [104; 101; 97; 112; 0] 1 RT_IPC_FLAG_FIFO HI Hn Ha ltac:(lia) ltac:(by left) Hnk Hl Hw) as Hsem.
  unfold wp in Hsem. unfold bind at 1, kernel at 1. cbn [fst snd].
  destruct (rt_sem_init _ _ _ _ k) as [[r k']|]; [|done]. destruct Hsem as (_ & HI' & x & Hok & _).
  split; [|lia]. intros Hbig. split; [done|]. split; [done|]. split; [by exists x|]. split; [done|]. split; [done|].
  exists (size + 12). cbn [fst snd]. specialize (HL ltac:(unfold MIN_SIZE, size; lia) 0).
  split; [|intros o [[_ ->]|[]]; done]. split; [exact HL|done|by left; left|done|]. cbn. lia.
Qed.

(** * Instances *)

Definition demo_kheap : kst :=
  upd_objects (put_obj (Obj 103) demo_hdr) (upd_ipc (set_sem (<[103 := mk_sem 1]> ∅)) demo).

Lemma demo_unlocked : unlocked 103 demo_kheap.
Proof.
  split; [|reflexivity]. exists demo_hdr.
  refine (conj (conj _ (conj _ (or_intror _))) (conj _ (conj _ _))); [reflexivity..|lia|reflexivity].
Qed.

Definition put_hdr (m : memory) (o used next prev : Z) : memory :=
  store 4 (store 4 (store 2 (store 2 m (o + 0) HEAP_MAGIC) (o + 2) used) (o + 4) next) (o + 8) prev.

(** A heap of 192 bytes: two blocks in use and a free one. *)
Definition demo_blocks : list block := [(80, true); (24, true); (100, false)].
Definition demo_heap : heap :=
  mk_heap (put_hdr (put_hdr (put_hdr (put_hdr (λ i, i mod 256) 0 1 80 0) 80 1 104 0) 104 0 204 80) 204 1 204 204)
    0x20000000 204 104 192 104 104.

Lemma demo_hwf : hwf demo_heap demo_blocks.
Proof.
  split; cbn [demo_blocks].
  - split; [|vm_compute; reflexivity|reflexivity|by vm_compute|by vm_compute|reflexivity].
    exists 104. repeat (split; [vm_compute; reflexivity|]; split; [split; [lia|reflexivity]|]). split; reflexivity.
  - cbn. tauto.
  - left. cbn. right. right. left. done.
  - reflexivity.
  - by vm_compute.
Qed.

Lemma demo_lowest : lowest_free demo_heap demo_blocks.
Proof. intros o. cbn. intros [[? _]|[[? _]|[[_ ?]|[]]]]; [done..|lia]. Qed.

Lemma rt_malloc_spec_witness :
  wp (rt_malloc 103 21) (λ r s', r = Returned (0x20000000 + 104 + 12) ∧
    hwf s'.2 [(80, true); (24, true); (36, true); (64, false)]) (demo_kheap, demo_heap).
Proof.
  eapply wp_mono; [eapply (rt_malloc_spec 103 demo_kheap demo_heap demo_blocks 21);
    [apply demo_unlocked|apply demo_hwf|apply demo_lowest|lia]|].
  intros r s' (_ & E).
  assert (fit (request 21) demo_blocks = Some ([(80, true); (24, true)], 100, [])) as Es by (vm_compute; reflexivity).
  rewrite Es in E. destruct E as (_ & -> & (Hw & _) & _). split; [reflexivity|exact Hw].
Defined.

Lemma rt_malloc_region_witness :
  wp (rt_malloc 103 21) (λ r s', ∀ p, r = Returned p → p ≠ 0 → p mod 4 = 0) (demo_kheap, demo_heap).
Proof.
  eapply wp_mono; [eapply (rt_malloc_region 103 demo_kheap demo_heap demo_blocks 21);
    [apply demo_unlocked|apply demo_hwf|lia]|].
  intros r s' E p Hp Hne. destruct (E p Hp Hne) as (bs' & o & z & _ & _ & Hm & _). exact Hm.
Defined.

Lemma rt_malloc_complete_witness :
  wp (rt_malloc 103 21) (λ r s', ∃ bs', hwf s'.2 bs' ∧ lowest_free s'.2 bs') (demo_kheap, demo_heap).
Proof.
  eapply wp_mono; [eapply (rt_malloc_complete 103 demo_kheap demo_heap demo_blocks 21);
    [apply demo_unlocked|apply demo_hwf|apply demo_lowest|lia|by vm_compute]|].
  by intros r s' [E _].
Defined.

Lemma rt_free_spec_witness :
  wp (rt_free 103 (0x20000000 + 80 + 12)) (λ r s', r = Returned tt ∧ s'.1 = demo_kheap) (demo_kheap, demo_heap).
Proof.
  eapply wp_mono; [eapply (rt_free_spec 103 demo_kheap demo_heap demo_blocks 80 24);
    [apply demo_unlocked|apply demo_hwf|]|].
  - cbn. right. left. done.
  - by intros r s' (? & ? & _).
Defined.

Lemma rt_malloc_free_witness :
  wp (r ← rt_malloc 103 21;
      match r with Returned p => rt_free 103 p | Blocked c => ret (Blocked c) end)
    (λ r s', r = Returned tt ∧ hwf s'.2 demo_blocks) (demo_kheap, demo_heap).
Proof.
  eapply wp_mono; [eapply (rt_malloc_free 103 demo_kheap demo_heap demo_blocks 21);
    [apply demo_unlocked|apply demo_hwf|lia]|].
  by intros r s' (? & _ & ?).
Defined.

Lemma rt_realloc_spec_witness :
  wp (rt_realloc 103 (0x20000000 + 80 + 12) 32) (λ r s', s'.1 = demo_kheap) (demo_kheap, demo_heap).
Proof.
  eapply wp_mono; [eapply (rt_realloc_spec 103 demo_kheap demo_heap demo_blocks 80 24 32);
    [apply demo_unlocked|apply demo_hwf| |lia]|].
  - cbn. right. left. done.
  - by intros r s' (? & _).
Defined.

Lemma rt_realloc_hides_block_witness :
  wp (rt_realloc 103 (0x20000000 + 0 + 12) 8) (λ r s', ∃ bs' o1, hwf s'.2 bs' ∧ is_free bs' o1 ∧ o1 < h_lfree s'.2)
    (demo_kheap, demo_heap).
Proof.
  eapply wp_mono; [eapply (rt_realloc_hides_block 103 demo_kheap demo_heap demo_blocks 0 80 8);
    [apply demo_unlocked|apply demo_hwf|apply demo_lowest| |lia|by vm_compute|by vm_compute]|].
  - cbn. left. done.
  - by intros r s' [_ ?].
Defined.

Lemma rt_malloc_size_wraps_witness :
  rt_malloc 103 (2 ^ 32 - 1) (demo_kheap, demo_heap) = rt_malloc 103 12 (demo_kheap, demo_heap).
Proof.
  apply (rt_malloc_size_wraps 103 demo_kheap demo_heap demo_blocks (2 ^ 32 - 1));
    [apply demo_unlocked|apply demo_hwf|lia].
Defined.

Lemma rt_system_heap_init_spec_witness :
  wp (rt_system_heap_init 200 (λ _, 0) 0x20000001 0x20000107) (λ r s', r = true ∧ h_ptr s'.2 = 0x20000004 ∧
    h_size s'.2 = 232) (demo_kheap, mk_heap (λ _, 0) 0 0 0 0 0 0).
Proof.
  eapply wp_mono; [eapply (rt_system_heap_init_spec 200 demo_kheap (mk_heap (λ _, 0) 0 0 0 0 0 0));
    [apply kinv_check_sound; vm_compute; reflexivity|by vm_compute|reflexivity|done|done| |reflexivity|reflexivity|reflexivity|lia|lia]|].
  - intros cls. unfold tlist. cbn. rewrite lookup_empty. set_solver.
  - intros r s' [E _]. destruct E as (? & _ & _ & ? & ? & _); [by vm_compute|done].
Defined.
