(* ===== verification/MemPool.v ===== *)
(** Memory pools, src/mempool.c: blocks of one size on a free list that is threaded
    through the first word of each free block; an allocated block holds a pointer to its
    pool there. A caller that finds the pool empty waits on the pool's thread list. *)

From Stdlib Require Import ZArith Lia.
From stdpp Require Import base numbers option gmap.
From stdpp Require Import list.
From S2P Require Import Prelude.
From S2P Require Import Kservice.
From S2P Require Import Bytes.
From S2P Require Import Kstate.
From S2P Require Import KernelDefs.
From S2P Require Import Scheduler.
From S2P Require Import Object.
From S2P Require Import Timer.
From S2P Require Import Thread.
From S2P Require Import Clock.
From S2P Require Import Ipc.
From S2P Require Import Mailbox.
Local Open Scope Z_scope.
Local Open Scope rt_scope.

(** * State *)

(** [struct rt_mempool] behind its object header; the list [suspend_thread] is
    [HSuspend a] of the pool's address. *)
Record rt_mempool := mk_mp {
  mp_start_address : Z;
  mp_size : Z;
  mp_block_size : Z;
  mp_block_list : Z;
  mp_block_total_count : Z;
  mp_block_free_count : Z;
  mp_suspend_thread_count : Z
}.

Definition with_blocks (list free : Z) (mp : rt_mempool) : rt_mempool :=
  mk_mp (mp_start_address mp) (mp_size mp) (mp_block_size mp) list (mp_block_total_count mp) free
    (mp_suspend_thread_count mp).
Definition with_count (n : Z) (mp : rt_mempool) : rt_mempool :=
  mk_mp (mp_start_address mp) (mp_size mp) (mp_block_size mp) (mp_block_list mp) (mp_block_total_count mp)
    (mp_block_free_count mp) n.

(** The kernel, the global [__rt_errno], the pools and the memory of their blocks. *)
Record pst := mk_pst {
  ps_k : kst;
  ps_errno : Z;
  ps_mp : gmap Z rt_mempool;
  ps_mem : memory
}.

Abbreviation P := (M pst).

#[export] Instance pst_kernel : KernelState pst := {|
  st_k := ps_k;
  with_k k s := mk_pst k (ps_errno s) (ps_mp s) (ps_mem s);
  st_errno := ps_errno;
  with_errno e s := mk_pst (ps_k s) e (ps_mp s) (ps_mem s)
|}.
#[export] Instance pst_laws : KernelLaws pst.
Proof. by split; [..|intros []]. Qed.

Definition get_mp (a : Z) : P rt_mempool := λ s,
  match ps_mp s !! a with Some x => Some (x, s) | None => None end.
Definition put_mp (a : Z) (x : rt_mempool) : P unit :=
  modify (λ s, mk_pst (ps_k s) (ps_errno s) (<[a := x]> (ps_mp s)) (ps_mem s)).
(** Words of the memory of the blocks. *)
Definition rd_word (p : Z) : P Z := gets (λ s, load 4 (ps_mem s) p).
Definition wr_word (p v : Z) : P unit :=
  modify (λ s, mk_pst (ps_k s) (ps_errno s) (ps_mp s) (store 4 (ps_mem s) p v)).

(** * Operations *)

(** The loop of [rt_mp_init] that links block [offset] to the next, for [n] blocks. *)
Fixpoint mp_link_loop (n : nat) (offset start step : Z) : P unit :=
  match n with
  | O => ret tt
  | S n' =>
      wr_word (u32 (start + u32 (offset * step))) (u32 (start + u32 ((offset + 1) * step))) ;;
      mp_link_loop n' (offset + 1) start step
  end.

(** The fields of a pool of [count] blocks, and its list of free blocks. *)
Definition new_pool (a start size block_size count : Z) : P unit :=
  let step := u32 (block_size + 4) in
  mp_link_loop (Z.to_nat count) 0 start step ;;
  wr_word (u32 (start + u32 ((count - 1) * step))) 0 ;;
  put_mp a (mk_mp start size block_size start count count 0).

Definition rt_mp_init (a : Z) (name : list Z) (start size block_size : Z) : P Z :=
  assert (nz a) ;;
  kern (rt_object_init (Obj a) RT_Object_Class_MemPool name) ;;
  let size := RT_ALIGN_DOWN size 4 in
  let block_size := RT_ALIGN block_size 4 in
  let step := u32 (block_size + 4) in
  assert (nz step) ;;
  let total := size / step in
  kern (rt_ipc_object_init (HSuspend a)) ;;
  new_pool a start size block_size total ;;
  ret RT_EOK.

(** The loop of [rt_mp_detach] that wakes the waiting threads. *)
Fixpoint mp_wake_loop (fuel : nat) (a : Z) : P unit :=
  match fuel with
  | O => λ _, None
  | S fuel' =>
      l ← gets (λ s, tlist (k_tl (ps_k s)) (HSuspend a));
      match l with
      | [] => ret tt
      | t :: _ =>
          kern (mod_thread t (with_error (- RT_ERROR))) ;;
          kern (rt_thread_resume t) ;;
          mp ← get_mp a;
          put_mp a (with_count (u32 (mp_suspend_thread_count mp - 1)) mp) ;;
          mp_wake_loop fuel' a
      end
  end.

Definition rt_mp_detach (a : Z) : P Z :=
  kern (assert_type (Obj a) RT_Object_Class_MemPool) ;;
  b ← kern (rt_object_is_systemobject (Obj a));
  assert b ;;
  l ← gets (λ s, tlist (k_tl (ps_k s)) (HSuspend a));
  mp_wake_loop (S (length l)) a ;;
  kern (rt_object_detach (Obj a)) ;;
  ret RT_EOK.

(** Where a caller waiting for a block continues. *)
Record mp_wait := mk_mp_wait { pw_thread : Z; pw_time : Z; pw_before_sleep : Z }.

(** Taking the first block of the free list. *)
Definition mp_take (a : Z) : P Z :=
  mp ← get_mp a;
  let block_ptr := mp_block_list mp in
  assert (nz block_ptr) ;;
  next ← rd_word block_ptr;
  put_mp a (with_blocks next (u32 (mp_block_free_count mp - 1)) mp) ;;
  wr_word block_ptr a ;;
  ret (u32 (block_ptr + 4)).

(** The loop of [rt_mp_alloc] and the code behind it; the result 0 is [RT_NULL]. *)
Definition mp_alloc_loop (a : Z) (thread : option Z) (time : Z) : P (outcome Z mp_wait) :=
  mp ← get_mp a;
  if mp_block_free_count mp =? 0 then
    if time =? 0 then rt_set_errno (- RT_ETIMEOUT) ;; ret (Returned 0)
    else
      kern RT_DEBUG_NOT_IN_INTERRUPT ;;
      t ← from_opt thread;
      kern (mod_thread t (with_error RT_EOK)) ;;
      kern (rt_thread_suspend t ;; tl_insert_front (HSuspend a) t) ;;
      put_mp a (with_count (u32 (mp_suspend_thread_count mp + 1)) mp) ;;
      before ← (if 0 <? time then kern rt_tick_get else ret 0);
      kern (arm_timer t time) ;;
      kern rt_schedule ;;
      ret (Blocked (mk_mp_wait t time before))
  else p ← mp_take a; ret (Returned p).

Definition rt_mp_alloc (a time : Z) : P (outcome Z mp_wait) :=
  thread ← gets (λ s, k_cur (ps_k s));
  mp_alloc_loop a thread time.

(** Behind the [rt_schedule] of a caller that waited. *)
Definition rt_mp_alloc_resume (a : Z) (w : mp_wait) : P (outcome Z mp_wait) :=
  th ← kern (get_thread (pw_thread w));
  if negb (th_error th =? RT_EOK) then ret (Returned 0)
  else
    now ← kern rt_tick_get;
    mp_alloc_loop a (Some (pw_thread w)) (timeout_left (pw_time w) (pw_before_sleep w) now).

(** [block] is the address handed out; the word in front of it names the pool. *)
Definition rt_mp_free (block : Z) : P unit :=
  let block_ptr := u32 (block - 4) in
  a ← rd_word block_ptr;
  mp ← get_mp a;
  wr_word block_ptr (mp_block_list mp) ;;
  let mp := with_blocks block_ptr (u32 (mp_block_free_count mp + 1)) mp in
  put_mp a mp ;;
  if 0 <? mp_suspend_thread_count mp then
    l ← gets (λ s, tlist (k_tl (ps_k s)) (HSuspend a));
    t ← from_opt (head l);
    kern (mod_thread t (with_error RT_EOK)) ;;
    kern (rt_thread_resume t) ;;
    put_mp a (with_count (u32 (mp_suspend_thread_count mp - 1)) mp) ;;
    kern rt_schedule
  else ret tt.

(** * The free list *)

(** The blocks of a free list that begins at [p]. *)
Fixpoint chain (m : memory) (p : Z) (l : list Z) : Prop :=
  match l with
  | [] => p = 0
  | b :: l' => p = b ∧ b ≠ 0 ∧ chain m (load 4 m b) l'
  end.

Lemma chain_ext m m' p l :
  chain m p l → (∀ b, b ∈ l → load 4 m' b = load 4 m b) → chain m' p l.
Proof.
  revert p. induction l as [|b l IH]; intros p Hc Hm; cbn in *; [done|].
  destruct Hc as (-> & Hb & Hc). split_and!; [done|done|]. rewrite Hm by set_solver. apply IH; [done|set_solver].
Qed.

Definition step_of (mp : rt_mempool) : Z := mp_block_size mp + 4.
Definition block_at (mp : rt_mempool) (k : Z) : Z := mp_start_address mp + k * step_of mp.
Definition blocks (mp : rt_mempool) : list Z := block_at mp <$> seqZ 0 (mp_block_total_count mp).

(** [F] are the free blocks in the order of the list, [A] the allocated ones; together
    they are all blocks of the pool, each once. *)
Record pool_ok (s : pst) (a : Z) (mp : rt_mempool) (F A : list Z) : Prop := {
  po_mp : ps_mp s !! a = Some mp;
  po_chain : chain (ps_mem s) (mp_block_list mp) F;
  po_free : mp_block_free_count mp = Z.of_nat (length F);
  po_blocks : F ++ A ≡ₚ blocks mp;
  po_alloc : ∀ b, b ∈ A → load 4 (ps_mem s) b = a;
  po_geometry : 0 < mp_start_address mp ∧ 0 ≤ mp_block_size mp ∧ 0 ≤ mp_block_total_count mp ∧
    mp_start_address mp + mp_block_total_count mp * step_of mp < 2 ^ 32;
  po_addr : 0 < a < 2 ^ 32;
  po_count : mp_suspend_thread_count mp = Z.of_nat (length (tlist (k_tl (ps_k s)) (HSuspend a)));
  po_few : mp_suspend_thread_count mp < 2 ^ 32
}.

Lemma block_in mp b : b ∈ blocks mp ↔ ∃ k, 0 ≤ k < mp_block_total_count mp ∧ b = block_at mp k.
Proof.
  unfold blocks. rewrite list_elem_of_fmap. setoid_rewrite elem_of_seqZ.
  split; intros (k & H1 & H2); exists k; (split; [lia|done] || (split; [done|lia])).
Qed.

Section pool.
Context {s : pst} {a : Z} {mp : rt_mempool} {F A : list Z}.
Hypothesis Hp : pool_ok s a mp F A.

Lemma pool_block b : b ∈ F ++ A → 0 < b ∧ b + step_of mp < 2 ^ 32 ∧ 4 ≤ step_of mp.
Proof.
  rewrite (po_blocks _ _ _ _ _ Hp), block_in. intros (k & Hk & ->).
  destruct (po_geometry _ _ _ _ _ Hp) as (? & ? & ? & ?). unfold block_at, step_of in *. nia.
Qed.

Lemma pool_nodup : NoDup (F ++ A).
Proof.
  rewrite (po_blocks _ _ _ _ _ Hp). unfold blocks. apply NoDup_fmap_2_strong; [|apply NoDup_seqZ].
  intros x y _ _ E. destruct (po_geometry _ _ _ _ _ Hp) as (? & ? & ? & ?).
  unfold block_at, step_of in *. nia.
Qed.

(** The words at the heads of different blocks do not overlap. *)
Lemma pool_apart b b' : b ∈ F ++ A → b' ∈ F ++ A → b ≠ b' → b + 4 ≤ b' ∨ b' + 4 ≤ b.
Proof.
  rewrite !(po_blocks _ _ _ _ _ Hp), !block_in. intros (k & Hk & ->) (k' & Hk' & ->) Hne.
  destruct (po_geometry _ _ _ _ _ Hp) as (? & ? & ? & ?). unfold block_at, step_of in *.
  destruct (Z.lt_trichotomy k k') as [?|[->|?]]; [left; nia|done|right; nia].
Qed.

Lemma pool_other b b' v :
  b ∈ F ++ A → b' ∈ F ++ A → b ≠ b' → load 4 (store 4 (ps_mem s) b v) b' = load 4 (ps_mem s) b'.
Proof. intros Hb Hb' Hne. apply load_store_other. pose proof (pool_apart b b' Hb Hb' Hne). lia. Qed.

End pool.

(** ** Taking and giving back *)

Definition take_st (a b next : Z) (mp : rt_mempool) (s : pst) : pst :=
  mk_pst (ps_k s) (ps_errno s) (<[a := with_blocks next (mp_block_free_count mp - 1) mp]> (ps_mp s))
    (store 4 (ps_mem s) b a).

Lemma mp_take_run s a mp b F A :
  pool_ok s a mp (b :: F) A →
  ∃ mp' s', mp_take a s = Some (b + 4, s') ∧ pool_ok s' a mp' F (b :: A) ∧ ps_k s' = ps_k s ∧
    ps_errno s' = ps_errno s ∧ (∀ i, i < b ∨ b + 4 ≤ i → ps_mem s' i = ps_mem s i).
Proof.
  intros Hp. pose proof (po_chain _ _ _ _ _ Hp) as (Hl & Hb & Hc).
  pose proof (pool_block Hp b ltac:(set_solver)) as (Hb1 & Hb2 & Hb3).
  pose proof (pool_nodup Hp) as Hnd. cbn in Hnd. apply NoDup_cons in Hnd as [Hbn Hnd].
  pose proof (po_free _ _ _ _ _ Hp) as Hf. cbn [length] in Hf.
  assert (0 ≤ Z.of_nat (length F) < 2 ^ 32) as HF.
  { pose proof (Permutation_length (po_blocks _ _ _ _ _ Hp)) as E. rewrite length_app in E.
    unfold blocks in E. rewrite length_fmap, length_seqZ in E. cbn in E.
    destruct (po_geometry _ _ _ _ _ Hp) as (? & ? & ? & ?). unfold step_of in *.
    assert (mp_block_total_count mp * 4 ≤ mp_block_total_count mp * (mp_block_size mp + 4)) by nia. lia. }
  exists (with_blocks (load 4 (ps_mem s) b) (mp_block_free_count mp - 1) mp), (take_st a b (load 4 (ps_mem s) b) mp s).
  split; [|split; [|split_and!; [done|done|]]].
  - unfold mp_take, bind, get_mp, assert, rd_word, gets, put_mp, wr_word, modify. rewrite (po_mp _ _ _ _ _ Hp).
    rewrite Hl, (proj2 (nz_true b)) by done. cbn. rewrite (wrap_small 32 (b + 4)) by lia.
    rewrite (wrap_small 32 (mp_block_free_count mp - 1)) by lia. done.
  - split; cbn -[blocks load store]; try apply Hp.
    + apply lookup_insert_eq.
    + eapply chain_ext; [exact Hc|]. intros b' Hb'. apply (pool_other Hp); set_solver.
    + lia.
    + rewrite <- Permutation_middle. apply Hp.
    + intros b' [->|Hb']%elem_of_cons.
      * apply load_store_same. pose proof (po_addr _ _ _ _ _ Hp). cbn. lia.
      * rewrite (pool_other Hp) by set_solver. by apply (po_alloc _ _ _ _ _ Hp).
  - intros i Hi. cbn -[store]. apply store_outside. lia.
Qed.

Lemma pool_kern_run {A} (m : K A) s x k :
  m (ps_k s) = Some (x, k) → kern m s = Some (x, mk_pst k (ps_errno s) (ps_mp s) (ps_mem s)).
Proof. intros E. exact (kern_run (S := pst) m s x k E). Qed.

(** Changing only the kernel part and the number of waiting threads. *)
Lemma pool_ok_kernel s a mp F A k n :
  pool_ok s a mp F A → n = Z.of_nat (length (tlist (k_tl k) (HSuspend a))) → n < 2 ^ 32 →
  pool_ok (mk_pst k (ps_errno s) (<[a := with_count n mp]> (ps_mp s)) (ps_mem s)) a (with_count n mp) F A.
Proof. intros Hp Hn Hlt. split; cbn -[blocks]; try apply Hp; [apply lookup_insert_eq|done|done]. Qed.

(** Linking the suspended caller at the front of the waiting list. *)
Lemma suspend_front_run s h t th :
  kinv s → k_thr s !! t = Some th → active th → is_wait h →
  (rt_thread_suspend t ;; tl_insert_front h t) s
  = Some (tt, upd_sched (λ c, link_sc h (t :: tlist (k_tl s) h) (suspend_sc t th c)) s).
Proof.
  intros HI Ht Ha Hh. unfold bind. rewrite (suspend_run s t th) by done.
  pose proof (proj1 (ki_sched _ (proj1 HI))) as Hw. unfold tl_insert_front.
  rewrite (proj2 (tlinked_false _ t)).
  - pose proof (suspend_tlist (k_sched s) t th h Hw Ht Ha Hh) as El.
    assert (tlist (k_tl (suspend_st t th s)) h = tlist (k_tl s) h) as -> by exact El. done.
  - intros h'. unfold k_tl. cbn. rewrite tlist_remove, list_elem_of_filter. naive_solver.
Qed.

Lemma queued_post_from s t th th' h l time s' :
  k_thr s !! t = Some th →
  queued_post h t th' l time (upd_sched (put_thr t th') s) s' → queued_post h t th' l time s s'.
Proof.
  intros Ht (HI & Hip & Hob & Ht' & Hl & Hoth & Htm & Hmv & Hhi). split_and!; try done.
  - intros u uh Hu Huh. apply Hmv; [done|]. unfold k_thr in *. cbn. by rewrite lookup_insert_ne.
  - intros u Hu Hn Hr. apply (Hhi u Hu Hn). unfold thread_stat, k_thr in *. cbn. by rewrite lookup_insert_ne.
Qed.

Lemma woken_post_from s t th th' h rest s' :
  k_thr s !! t = Some th →
  woken_post h t th' rest (upd_sched (put_thr t th') s) s' → woken_post h t th' rest s s'.
Proof.
  intros Ht (HI & Hip & Hob & Hl & Hoth & Hst & Hrow & Hmv & Hhi). split_and!; try done.
  intros u uh Hu Huh. apply Hmv; [done|]. unfold k_thr in *. cbn. by rewrite lookup_insert_ne.
Qed.

(** * Allocation *)

Lemma mp_block_caller_run s a mp A t th time :
  kinv (ps_k s) → pool_ok s a mp [] A → caller (ps_k s) t th → time ≠ 0 → time < HALF →
  mp_suspend_thread_count mp < 2 ^ 32 - 1 →
  ∃ s' before, mp_alloc_loop a (Some t) time s = Some (Blocked (mk_mp_wait t time before), s') ∧
    pool_ok s' a (with_count (mp_suspend_thread_count mp + 1) mp) [] A ∧
    queued_post (HSuspend a) t (with_error RT_EOK th) (t :: tlist (k_tl (ps_k s)) (HSuspend a)) time (ps_k s) (ps_k s').
Proof.
  intros HI Hp Hca Htz Htime Hmax. pose proof Hca as (Hc & Ht & _ & Hirq).
  pose proof (po_count _ _ _ _ _ Hp) as Hcnt.
  set (s1 := error_st t RT_EOK th (ps_k s)).
  assert (kinv s1) as HI1 by (by apply kinv_error).
  pose proof (error_st_caller (ps_k s) t th RT_EOK Hca) as Hca1. fold s1 in Hca1.
  pose proof Hca1 as (Hc1 & Ht1 & _ & _). pose proof (caller_active _ _ _ Hca1) as Ha1.
  pose proof (suspend_front_run s1 (HSuspend a) t _ HI1 Ht1 Ha1 I) as R1.
  destruct (linked_arm_run s1 (HSuspend a) t _ (t :: tlist (k_tl s1) (HSuspend a)) time HI1 Ht1 Ha1 I ltac:(done) Htime)
    as (s2 & R2 & Hw2).
  destruct (queued_schedule_run s1 s2 (HSuspend a) t _ _ time HI1 Hc1 Ht1 Ha1 I Hw2) as (s3 & R3 & Hq).
  eexists (mk_pst s3 _ _ _), _. split; [|split].
  - unfold mp_alloc_loop, bind at 1, get_mp. rewrite (po_mp _ _ _ _ _ Hp), (po_free _ _ _ _ _ Hp). change (Z.of_nat (length []) =? 0) with true. cbv iota.
    rewrite (proj2 (Z.eqb_neq _ _) Htz). unfold bind at 1.
    rewrite (pool_kern_run _ s tt (ps_k s)); [|unfold RT_DEBUG_NOT_IN_INTERRUPT, rt_interrupt_get_nest, bind, gets, assert; by rewrite Hirq].
    unfold bind at 1, from_opt at 1. unfold bind at 1. rewrite (pool_kern_run _ (mk_pst (ps_k s) _ _ _) _ _ (mod_thread_run (ps_k s) t th _ Ht)).
    fold (error_st t RT_EOK th (ps_k s)). fold s1. cbn [ps_k ps_errno ps_mp ps_mem].
    unfold bind at 1. rewrite (pool_kern_run _ (mk_pst s1 _ _ _) _ _ R1). cbn [ps_k ps_errno ps_mp ps_mem].
    unfold bind at 1, put_mp, modify. cbn [ps_k ps_errno ps_mp ps_mem].
    unfold bind at 1.
    assert (∀ x, (if 0 <? time then kern rt_tick_get else ret 0) x = Some (if 0 <? time then k_tick (ps_k x) else 0, x)) as ->
      by (intros [? ? ? ?]; by destruct (0 <? time)).
    unfold bind at 1. rewrite (pool_kern_run _ (mk_pst (upd_sched _ s1) _ _ _) _ _ R2). cbn [ps_k ps_errno ps_mp ps_mem].
    unfold bind at 1. rewrite (pool_kern_run _ (mk_pst s2 _ _ _) _ _ R3). cbn [ps_k ps_errno ps_mp ps_mem]. reflexivity.
  - rewrite (wrap_small 32 (mp_suspend_thread_count mp + 1)) by lia. apply pool_ok_kernel; [done| |lia].
    destruct Hq as (_ & _ & _ & _ & -> & _). cbn [length]. unfold s1, k_tl in *. cbn in *. lia.
  - cbn [ps_k]. by apply (queued_post_from _ t th).
Qed.

(** With a free block the caller gets it at once. *)
Lemma mp_alloc_take_run s a mp b F A t time :
  pool_ok s a mp (b :: F) A → k_cur (ps_k s) = Some t →
  ∃ mp' s', rt_mp_alloc a time s = Some (Returned (b + 4), s') ∧ pool_ok s' a mp' F (b :: A) ∧
    ps_k s' = ps_k s ∧ (∀ i, i < b ∨ b + 4 ≤ i → ps_mem s' i = ps_mem s i).
Proof.
  intros Hp Hc. destruct (mp_take_run s a mp b F A Hp) as (mp' & s' & Hr & Hp' & Hk & _ & Hm).
  exists mp', s'. split_and!; [|done|done|done]. unfold rt_mp_alloc, bind at 1, gets. rewrite Hc.
  unfold mp_alloc_loop, bind at 1, get_mp. rewrite (po_mp _ _ _ _ _ Hp), (po_free _ _ _ _ _ Hp).
  rewrite (proj2 (Z.eqb_neq _ _)) by (cbn; lia). unfold bind. by rewrite Hr.
Qed.

(** [rt_mp_alloc] in all its cases. With a free block it returns at once the block at
    the head of the list, marks it with its pool and touches nothing else; an empty pool
    with a zero timeout answers [RT_NULL] and sets the caller's error; otherwise the
    caller is suspended at the front of the waiting list with its timer armed. *)
Theorem rt_mp_alloc_spec s a mp F A t th time :
  kinv (ps_k s) → pool_ok s a mp F A → caller (ps_k s) t th → time < HALF →
  mp_suspend_thread_count mp < 2 ^ 32 - 1 →
  wp (rt_mp_alloc a time) (λ r s',
    (∀ b F', F = b :: F' → r = Returned (b + 4) ∧ ps_k s' = ps_k s ∧
       (∃ mp', pool_ok s' a mp' F' (b :: A)) ∧ ∀ i, i < b ∨ b + 4 ≤ i → ps_mem s' i = ps_mem s i) ∧
    (F = [] → time = 0 → r = Returned 0 ∧ pool_ok s' a mp [] A ∧ ps_k s' = error_st t (- RT_ETIMEOUT) th (ps_k s)) ∧
    (F = [] → time ≠ 0 → (∃ w, r = Blocked w ∧ pw_thread w = t ∧ pw_time w = time) ∧
       pool_ok s' a (with_count (mp_suspend_thread_count mp + 1) mp) [] A ∧
       queued_post (HSuspend a) t (with_error RT_EOK th) (t :: tlist (k_tl (ps_k s)) (HSuspend a)) time (ps_k s) (ps_k s'))) s.
Proof.
  intros HI Hp Hca Htime Hmax. pose proof Hca as (Hc & Ht & _ & Hirq).
  unfold wp. destruct F as [|b F].
  - unfold rt_mp_alloc, bind at 1, gets. rewrite Hc. destruct (decide (time = 0)) as [->|Htz].
    + unfold mp_alloc_loop, bind at 1, get_mp. rewrite (po_mp _ _ _ _ _ Hp), (po_free _ _ _ _ _ Hp).
      change (Z.of_nat (length []) =? 0) with true. change (0 =? 0) with true. cbv iota.
      unfold bind at 1. rewrite set_errno_run by (intros u Hu; cbn in Hu; rewrite Hc in Hu; injection Hu as <-; by exists th).
      assert (errno_st (- RT_ETIMEOUT) s = mk_pst (error_st t (- RT_ETIMEOUT) th (ps_k s)) (ps_errno s) (ps_mp s) (ps_mem s)) as ->
        by (unfold errno_st; cbn; rewrite Hirq, Hc, Ht; done).
      split_and!; [done| |done]. intros _ _. split_and!; [done| |done]. split; apply Hp.
    + destruct (mp_block_caller_run s a mp A t th time HI Hp Hca Htz Htime Hmax) as (s' & bf & -> & Hp' & Hq).
      split_and!; [done|done|]. intros _ _. split; [by eexists|]. done.
  - destruct (mp_alloc_take_run s a mp b F A t time Hp Hc) as (mp' & s' & -> & Hp' & Hk & Hm).
    split_and!; [|done|done]. intros b0 F0 [= <- <-]. split_and!; [done|done|by eexists|done].
Qed.

(** * Release *)

Definition free_st (a b : Z) (mp : rt_mempool) (s : pst) : pst :=
  mk_pst (ps_k s) (ps_errno s) (<[a := with_blocks b (mp_block_free_count mp + 1) mp]> (ps_mp s))
    (store 4 (ps_mem s) b (mp_block_list mp)).

Lemma free_st_ok s a mp b F A A' :
  pool_ok s a mp F A → A ≡ₚ b :: A' → pool_ok (free_st a b mp s) a (with_blocks b (mp_block_free_count mp + 1) mp) (b :: F) A'.
Proof.
  intros Hp HA. assert (b ∈ F ++ A) as Hb by (rewrite HA; set_solver).
  pose proof (pool_nodup Hp) as Hnd. rewrite HA, <- Permutation_middle in Hnd. apply NoDup_cons in Hnd as [Hbn Hnd].
  pose proof (pool_block Hp b Hb) as (Hb1 & Hb2 & Hb3).
  assert (∀ b', b' ∈ F ++ A' → load 4 (store 4 (ps_mem s) b (mp_block_list mp)) b' = load 4 (ps_mem s) b') as Hoth.
  { intros b' Hb'. apply (pool_other Hp); [done|rewrite HA; set_solver|set_solver]. }
  split; cbn -[blocks load store]; try apply Hp.
  - apply lookup_insert_eq.
  - split_and!; [done|lia|]. rewrite load_store_same.
    + eapply chain_ext; [apply Hp|]. intros b' Hb'. apply Hoth. set_solver.
    + pose proof (po_chain _ _ _ _ _ Hp) as Hc. destruct F as [|b0 F]; cbn in Hc; [rewrite Hc; cbn; lia|].
      destruct Hc as (-> & _). pose proof (pool_block Hp b0 ltac:(set_solver)). cbn. lia.
  - rewrite (po_free _ _ _ _ _ Hp). lia.
  - rewrite Permutation_middle, <- HA. apply Hp.
  - intros b' Hb'. rewrite Hoth by set_solver. apply (po_alloc _ _ _ _ _ Hp). rewrite HA. set_solver.
Qed.

(** The part of [rt_mp_free] up to the test for waiting threads. *)
Lemma mp_free_run s a mp b F A A' :
  pool_ok s a mp F A → A ≡ₚ b :: A' →
  rt_mp_free (b + 4) s =
    (let mp' := with_blocks b (mp_block_free_count mp + 1) mp in
     if 0 <? mp_suspend_thread_count mp then
       l ← gets (λ s, tlist (k_tl (ps_k s)) (HSuspend a));
       t ← from_opt (head l);
       kern (mod_thread t (with_error RT_EOK)) ;;
       kern (rt_thread_resume t) ;;
       put_mp a (with_count (u32 (mp_suspend_thread_count mp - 1)) mp') ;;
       kern rt_schedule
     else ret tt) (free_st a b mp s).
Proof.
  intros Hp HA. assert (b ∈ F ++ A) as Hb by (rewrite HA; set_solver).
  pose proof (pool_block Hp b Hb) as (Hb1 & Hb2 & Hb3).
  assert (0 ≤ mp_block_free_count mp + 1 < 2 ^ 32) as Hfc.
  { pose proof (Permutation_length (po_blocks _ _ _ _ _ Hp)) as E. rewrite HA, length_app in E.
    unfold blocks in E. rewrite length_fmap, length_seqZ in E. cbn in E. rewrite (po_free _ _ _ _ _ Hp).
    destruct (po_geometry _ _ _ _ _ Hp) as (? & ? & ? & ?). unfold step_of in *.
    assert (mp_block_total_count mp * 4 ≤ mp_block_total_count mp * (mp_block_size mp + 4)) by nia. lia. }
  unfold rt_mp_free. replace (b + 4 - 4) with b by lia. rewrite (wrap_small 32 b) by lia.
  unfold bind at 1, rd_word, gets at 1. rewrite (po_alloc _ _ _ _ _ Hp b) by (rewrite HA; set_solver).
  unfold bind at 1, get_mp. rewrite (po_mp _ _ _ _ _ Hp).
  unfold bind at 1, wr_word, modify. unfold bind at 1, put_mp at 1, modify. cbn [ps_k ps_errno ps_mp ps_mem].
  rewrite (wrap_small 32 (mp_block_free_count mp + 1)) by lia. reflexivity.
Qed.

(** [rt_mp_free] puts the block back at the head of the free list of the pool it came
    from. The first waiting thread, if there is one, is woken with [RT_EOK], leaves the
    list, and the highest-priority thread runs; otherwise the kernel is not touched. *)
Theorem rt_mp_free_spec s a mp b F A A' :
  kinv (ps_k s) → pool_ok s a mp F A → A ≡ₚ b :: A' →
  wp (rt_mp_free (b + 4)) (λ _ s', kinv (ps_k s') ∧ (∃ mp', pool_ok s' a mp' (b :: F) A') ∧
    (∀ i, i < b ∨ b + 4 ≤ i → ps_mem s' i = ps_mem s i) ∧
    (tlist (k_tl (ps_k s)) (HSuspend a) = [] → ps_k s' = ps_k s) ∧
    (∀ t rest, tlist (k_tl (ps_k s)) (HSuspend a) = t :: rest →
       ∃ th, k_thr (ps_k s) !! t = Some th ∧
         woken_post (HSuspend a) t (with_error RT_EOK th) rest (ps_k s) (ps_k s'))) s.
Proof.
  intros HI Hp HA. unfold wp. rewrite (mp_free_run s a mp b F A A' Hp HA). cbv zeta.
  pose proof (free_st_ok s a mp b F A A' Hp HA) as Hp1. pose proof (po_count _ _ _ _ _ Hp) as Hcnt.
  assert (∀ i, i < b ∨ b + 4 ≤ i → store 4 (ps_mem s) b (mp_block_list mp) i = ps_mem s i) as Hmem
    by (intros; apply store_outside; lia).
  destruct (tlist (k_tl (ps_k s)) (HSuspend a)) as [|t rest] eqn:El.
  - rewrite Hcnt. cbn -[store]. split_and!; [done|by eexists|done|done|done].
  - rewrite Hcnt. rewrite (proj2 (Z.ltb_lt _ _)) by (cbn; lia).
    destruct (waiter_suspended (ps_k s) (HSuspend a) t HI I) as (th & Hth & Hs); [rewrite El; set_solver|].
    set (s1 := error_st t RT_EOK th (ps_k s)).
    assert (kinv s1) as HI1 by (by apply kinv_error).
    destruct (wake_first_run s1 (HSuspend a) t rest HI1 I El) as (th1 & s2 & Hth1 & Hs1 & R & Hw).
    assert (th1 = with_error RT_EOK th) as -> by (unfold s1, k_thr in Hth1; cbn in Hth1; rewrite lookup_insert_eq in Hth1; congruence).
    unfold bind in R at 1. unfold rt_ipc_list_resume, bind, gets, from_opt in R.
    replace (tlist (k_tl s1) (HSuspend a)) with (t :: rest) in R by done. cbn [head] in R.
    destruct (rt_thread_resume t s1) as [[e s3]|] eqn:R1; [|done]. cbn -[rt_schedule] in R.
    unfold bind at 1, gets. cbn [ps_k free_st]. rewrite El. cbn [head]. unfold bind at 1, from_opt.
    unfold bind at 1. rewrite (pool_kern_run _ (free_st a b mp s) _ _ (mod_thread_run (ps_k s) t th _ Hth)).
    fold (error_st t RT_EOK th (ps_k s)). fold s1. unfold bind at 1. rewrite (pool_kern_run _ (mk_pst s1 _ _ _) _ _ R1).
    unfold bind at 1, put_mp, modify. cbn [ps_k ps_errno ps_mp ps_mem]. rewrite (pool_kern_run _ (mk_pst s3 _ _ _) _ _ R).
    cbn [ps_k ps_errno ps_mp ps_mem]. split_and!; [apply Hw| |done|done|].
    + eexists. eapply pool_ok_kernel; [exact Hp1| |].
      * rewrite wrap_small by (pose proof (po_few _ _ _ _ _ Hp); cbn in *; lia).
        destruct Hw as (_ & _ & _ & -> & _). cbn [length]. lia.
      * apply wrap_range. lia.
    + intros t0 rest0 [= <- <-]. exists th. split; [done|]. by apply (woken_post_from _ t th).
Qed.

(** Allocation and release are inverse: after [rt_mp_alloc] and [rt_mp_free] of the
    block it returned, the free list is what it was, block for block. *)
Theorem rt_mp_alloc_free s a mp b F A t th :
  kinv (ps_k s) → pool_ok s a mp (b :: F) A → caller (ps_k s) t th →
  mp_suspend_thread_count mp = 0 →
  wp (r ← rt_mp_alloc a 0; match r with Returned p => rt_mp_free p | Blocked _ => λ _, None end)
    (λ _ s', ps_k s' = ps_k s ∧ ∃ mp', pool_ok s' a mp' (b :: F) A) s.
Proof.
  intros HI Hp Hca H0. pose proof Hca as (Hc & _). apply wp_bind. unfold wp.
  destruct (mp_alloc_take_run s a mp b F A t 0 Hp Hc) as (mp1 & s1 & -> & Hp1 & Hk & _).
  assert (mp_suspend_thread_count mp1 = 0) as E1.
  { rewrite (po_count _ _ _ _ _ Hp1), Hk, <- (po_count _ _ _ _ _ Hp). done. }
  rewrite (mp_free_run s1 a mp1 b F (b :: A) A Hp1) by done. cbv zeta. rewrite E1.
  split; [exact Hk|]. eexists. by apply (free_st_ok s1 a mp1 b F (b :: A) A).
Qed.

(** * Initialisation *)

(** The memory after linking the blocks [off], ..., [off + n - 1]. *)
Lemma mp_link_run n off start step s :
  0 < start → 4 ≤ step → 0 ≤ off → start + (off + Z.of_nat n) * step < 2 ^ 32 →
  ∃ m, mp_link_loop n off start step s = Some (tt, mk_pst (ps_k s) (ps_errno s) (ps_mp s) m) ∧
    (∀ k, off ≤ k < off + Z.of_nat n → load 4 m (start + k * step) = start + (k + 1) * step) ∧
    (∀ i, i < start + off * step ∨ start + (off + Z.of_nat n) * step ≤ i → m i = ps_mem s i).
Proof.
  intros Hst Hs. revert off s. induction n as [|n IH]; intros off s Ho Hb.
  { exists (ps_mem s). split_and!; [by destruct s|intros; lia|done]. }
  assert (0 ≤ off * step) by nia. assert (0 ≤ Z.of_nat n * step) by nia.
  assert (start + (off + 1) * step < 2 ^ 32) by lia.
  cbn [mp_link_loop]. unfold bind, wr_word, modify.
  rewrite (wrap_small 32 (off * step)), (wrap_small 32 ((off + 1) * step)), !(wrap_small 32 (start + _)) by lia.
  destruct (IH (off + 1) (mk_pst (ps_k s) (ps_errno s) (ps_mp s)
    (store 4 (ps_mem s) (start + off * step) (start + (off + 1) * step)))) as (m & Hm & Hk & Hlow); [lia|lia|].
  exists m. split_and!; [exact Hm| |].
  - intros k Hkk. destruct (decide (k = off)) as [->|]; [|apply Hk; lia].
    rewrite (load_ext 4 (store 4 (ps_mem s) (start + off * step) (start + (off + 1) * step))).
    + apply load_store_same. cbn. lia.
    + intros i Hi. rewrite Hlow by lia. done.
  - intros i Hi. rewrite Hlow by lia. cbn -[store]. apply store_outside. nia.
Qed.

(** The list of all blocks is a chain once the last one ends it. *)
Lemma chain_seq m start step n off :
  0 < start → 0 ≤ off → 4 ≤ step →
  (∀ k, off ≤ k < off + Z.of_nat n → load 4 m (start + k * step) =
     if k =? off + Z.of_nat n - 1 then 0 else start + (k + 1) * step) →
  (0 < n)%nat → chain m (start + off * step) ((λ k, start + k * step) <$> seqZ off (Z.of_nat n)).
Proof.
  intros Hst. revert off. induction n as [|n IH]; intros off Ho Hs Hm Hn; [lia|].
  rewrite seqZ_cons by lia. cbn [fmap list_fmap chain]. split_and!; [done|nia|].
  rewrite Hm by lia. replace (Z.pred (Z.of_nat (S n))) with (Z.of_nat n) by lia.
  replace (Z.succ off) with (off + 1) by lia.
  destruct (Z.eqb_spec off (off + Z.of_nat (S n) - 1)) as [E|E].
  - assert (n = 0)%nat as -> by lia. done.
  - apply IH; [lia|done| |lia]. intros k Hk. rewrite Hm by lia. zcases; lia.
Qed.

(** A new pool has all its blocks in the list, in the order of their addresses; nothing
    outside of it is written. *)
Lemma new_pool_run a start size block_size count s :
  0 < a < 2 ^ 32 → 0 < start → 0 ≤ block_size → 1 ≤ count → start + count * (block_size + 4) < 2 ^ 32 → tlist (k_tl (ps_k s)) (HSuspend a) = [] →
  let mp := mk_mp start size block_size start count count 0 in
  ∃ m, let s' := mk_pst (ps_k s) (ps_errno s) (<[a := mp]> (ps_mp s)) m in
    new_pool a start size block_size count s = Some (tt, s') ∧ pool_ok s' a mp (blocks mp) [] ∧
    ∀ i, i < start ∨ start + count * (block_size + 4) ≤ i → m i = ps_mem s i.
Proof.
  intros Ha Hst Hbs Hc Hend Hw mp. assert (0 ≤ (count - 1) * (block_size + 4)) by nia.
  unfold new_pool. rewrite (wrap_small 32 (block_size + 4)) by nia. unfold bind.
  destruct (mp_link_run (Z.to_nat count) 0 start (block_size + 4) s) as (m & -> & Hk & Hlow); [done|lia|done|lia|].
  unfold wr_word, modify, put_mp. cbn [ps_k ps_errno ps_mp ps_mem]. rewrite (wrap_small 32 ((count - 1) * (block_size + 4))), (wrap_small 32 (start + _)) by lia.
  eexists. split; [done|]. split.
  - split; cbn -[load store chain blocks]; try (by cbn; lia).
    + apply lookup_insert_eq.
    + unfold blocks. cbn -[chain load store seqZ].
      pose proof (chain_seq (store 4 m (start + (count - 1) * (block_size + 4)) 0) start (block_size + 4) (Z.to_nat count) 0) as Hc'.
      rewrite Z2Nat.id, Z.mul_0_l, Z.add_0_r in Hc' by lia. apply Hc'; [lia|lia|lia| |lia].
      intros k Hk'. destruct (Z.eqb_spec k (0 + count - 1)) as [->|Hne].
      * replace (start + (0 + count - 1) * (block_size + 4)) with (start + (count - 1) * (block_size + 4)) by lia.
        apply load_store_same. cbn. lia.
      * rewrite load_store_other; [apply Hk; lia|]. left. nia.
    + unfold blocks. rewrite length_fmap, length_seqZ. cbn. lia.
    + by rewrite app_nil_r.
    + intros b Hb. set_solver.
    + unfold step_of. cbn. lia.
    + by rewrite Hw.
  - intros i Hi. cbn -[store]. rewrite store_outside by nia. apply Hlow. lia.
Qed.

(** [rt_object_init] and [rt_list_init] of an unused object of a class with a waiting list. *)
Lemma object_list_init_run s a ty name :
  kinv s → 0 ≤ sc_lock_nest (k_sched s) < 2 ^ 15 - 1 → plain_class ty → not_kernel a s →
  (∀ cls, Obj a ∉ tlist (ob_list (k_objects s)) cls) → tlist (k_tl s) (HSuspend a) = [] →
  ∃ s1 s2, rt_object_init (Obj a) ty name s = Some (tt, s1) ∧ rt_ipc_object_init (HSuspend a) s1 = Some (tt, s2) ∧
    kinv s2 ∧ k_ipc s2 = k_ipc s ∧ k_obj s2 !! Obj a = Some (header ty name (k_obj s !! Obj a)) ∧
    tlist (k_tl s2) (HSuspend a) = [].
Proof.
  intros HI Hn Hty Hnk Hl Hw.
  destruct (object_init_run s a ty name HI Hn Hty Hnk Hl) as (c1 & O1 & Hr1 & HI1 & Hd1 & HO1 & _).
  set (s1 := mk_kst c1 (k_timers s) O1 (k_ipc s)) in *.
  assert (tlist (k_tl s1) (HSuspend a) = []) as Hl1.
  { rewrite <- Hw. apply (scheduled_waiting _ _ (HSuspend a) (ki_sched _ (proj1 HI)) Hd1).
    intros p. by apply is_wait_not_ready. }
  destruct (ipc_init_run s1 (HSuspend a) HI1 Hl1) as (Hr2 & HI2 & Hl2).
  eexists s1, _. split_and!; [exact Hr1|exact Hr2|done|done| |by rewrite Hl2].
  unfold k_obj. cbn. rewrite HO1. apply lookup_insert_eq.
Qed.

(** [rt_mp_init] on an area that holds at least one block makes a pool all of whose
    blocks are free, in the order of their addresses, each with a word for the list in
    front and all inside the area. *)
Theorem rt_mp_init_spec s a name start size block_size :
  kinv (ps_k s) → 0 ≤ sc_lock_nest (k_sched (ps_k s)) < 2 ^ 15 - 1 → 0 < a < 2 ^ 32 → not_kernel a (ps_k s) →
  (∀ cls, Obj a ∉ tlist (ob_list (k_objects (ps_k s))) cls) → tlist (k_tl (ps_k s)) (HSuspend a) = [] →
  0 < start → 0 ≤ size → start + size < 2 ^ 32 → 0 ≤ block_size → (block_size + 3) / 4 * 4 + 4 ≤ size / 4 * 4 →
  wp (rt_mp_init a name start size block_size) (λ r s', r = RT_EOK ∧ kinv (ps_k s') ∧
    ∃ mp, pool_ok s' a mp (blocks mp) [] ∧ mp_start_address mp = start ∧
      mp_block_size mp = (block_size + 3) / 4 * 4 ∧
      mp_block_total_count mp = size / 4 * 4 / ((block_size + 3) / 4 * 4 + 4)) s.
Proof.
  intros HI Hn Ha Hnk Hl Hw Hst Hsz Hend Hbs Hfit.
  destruct (object_list_init_run (ps_k s) a RT_Object_Class_MemPool name HI Hn ltac:(unfold plain_class; tauto) Hnk Hl Hw)
    as (s1 & s2 & R1 & R2 & HI2 & _ & _ & Hw2).
  pose proof (Z.div_mod size 4 ltac:(lia)). pose proof (Z.mod_pos_bound size 4).
  pose proof (Z.div_mod (block_size + 3) 4 ltac:(lia)). pose proof (Z.mod_pos_bound (block_size + 3) 4).
  set (bs := (block_size + 3) / 4 * 4) in *. set (sz := size / 4 * 4) in *. set (total := sz / (bs + 4)).
  assert (1 ≤ total ∧ total * (bs + 4) ≤ sz) as [Ht1 Ht2].
  { split; [apply Z.div_le_lower_bound; lia|]. rewrite Z.mul_comm. apply Z.mul_div_le. lia. }
  unfold wp, rt_mp_init, bind at 1, assert at 1. rewrite (proj2 (nz_true a)) by lia.
  unfold bind at 1. rewrite (pool_kern_run _ s _ _ R1). cbv zeta.
  rewrite RT_ALIGN_DOWN_4, RT_ALIGN_4 by lia. fold bs sz. rewrite (wrap_small 32 (bs + 4)) by lia. fold total.
  unfold bind at 1, assert at 1. rewrite (proj2 (nz_true (bs + 4))) by lia.
  unfold bind at 1. rewrite (pool_kern_run _ (mk_pst s1 _ _ _) _ _ R2). cbn [ps_k ps_errno ps_mp ps_mem].
  unfold bind at 1. destruct (new_pool_run a start sz bs total (mk_pst s2 (ps_errno s) (ps_mp s) (ps_mem s))) as (m & -> & Hok & _); [done|done|lia|done|lia|done|].
  cbn -[blocks]. split; [done|]. split; [done|]. exists (mk_mp start sz bs start total total 0). done.
Qed.

(** ** Too small an area *)

(** [rt_mp_init] on an area that holds no block ends a list that does not exist: it
    writes a word in front of the area, one block length below its start. *)
Theorem rt_mp_init_underflow s a name start size block_size :
  kinv (ps_k s) → 0 ≤ sc_lock_nest (k_sched (ps_k s)) < 2 ^ 15 - 1 → 0 < a < 2 ^ 32 → not_kernel a (ps_k s) →
  (∀ cls, Obj a ∉ tlist (ob_list (k_objects (ps_k s))) cls) → tlist (k_tl (ps_k s)) (HSuspend a) = [] →
  0 ≤ size → start + size < 2 ^ 32 → 0 ≤ block_size → size / 4 * 4 < (block_size + 3) / 4 * 4 + 4 →
  (block_size + 3) / 4 * 4 + 4 ≤ start →
  wp (rt_mp_init a name start size block_size) (λ _ s',
    ps_mem s' = store 4 (ps_mem s) (start - ((block_size + 3) / 4 * 4 + 4)) 0) s.
Proof.
  intros HI Hn Ha Hnk Hl Hw Hsz Hend Hbs Hfit Hst.
  destruct (object_list_init_run (ps_k s) a RT_Object_Class_MemPool name HI Hn ltac:(unfold plain_class; tauto) Hnk Hl Hw)
    as (s1 & s2 & R1 & R2 & _).
  pose proof (Z.div_mod size 4 ltac:(lia)). pose proof (Z.mod_pos_bound size 4).
  pose proof (Z.div_mod (block_size + 3) 4 ltac:(lia)). pose proof (Z.mod_pos_bound (block_size + 3) 4).
  set (bs := (block_size + 3) / 4 * 4) in *. set (sz := size / 4 * 4) in *.
  unfold wp, rt_mp_init, bind at 1, assert at 1. rewrite (proj2 (nz_true a)) by lia.
  unfold bind at 1. rewrite (pool_kern_run _ s _ _ R1). cbv zeta.
  rewrite RT_ALIGN_DOWN_4, RT_ALIGN_4 by lia. fold bs sz. rewrite (wrap_small 32 (bs + 4)) by lia.
  unfold bind at 1, assert at 1. rewrite (proj2 (nz_true (bs + 4))) by lia.
  unfold bind at 1. rewrite (pool_kern_run _ (mk_pst s1 _ _ _) _ _ R2). cbn [ps_k ps_errno ps_mp ps_mem].
  rewrite (Z.div_small sz) by lia. unfold new_pool. rewrite (wrap_small 32 (bs + 4)) by lia.
  replace (u32 (start + u32 ((0 - 1) * (bs + 4)))) with (start - (bs + 4)); [reflexivity|].
  unfold wrap. rewrite Zplus_mod_idemp_r. rewrite Z.mod_small; lia.
Qed.

(** ** The count of waiting threads *)

(** A waiting thread whose timer expires leaves the waiting list without being taken
    off [suspend_thread_count]. The next [rt_mp_free] then believes that somebody waits and
    resumes the "thread" it finds at the empty list's head: it has no defined result. *)
Theorem rt_mp_free_stale_count s b a mp :
  0 ≤ b < 2 ^ 32 → load 4 (ps_mem s) b = a → ps_mp s !! a = Some mp → 0 < mp_suspend_thread_count mp →
  tlist (k_tl (ps_k s)) (HSuspend a) = [] → rt_mp_free (b + 4) s = None.
Proof.
  intros Hb Hw Hmp Hn Hl. unfold rt_mp_free. replace (b + 4 - 4) with b by lia. rewrite (wrap_small 32 b) by lia.
  unfold bind at 1, rd_word, gets at 1. rewrite Hw. unfold bind at 1, get_mp. rewrite Hmp.
  unfold bind at 1, wr_word, modify. unfold bind at 1, put_mp at 1, modify.
  rewrite (proj2 (Z.ltb_lt _ _)) by (cbn; lia). unfold bind at 1, gets. cbn [ps_k]. by rewrite Hl.
Qed.

(** * Instances *)

(** The demo system with a pool at 300 of two blocks of 8 bytes at 1000; the second block
    is allocated. *)
Definition demo_pool : pst :=
  let mem := store 4 (store 4 (λ _, 0) 1000 0) 1012 300 in
  mk_pst demo 0 {[300 := mk_mp 1000 24 8 1000 2 1 0]} mem.

Lemma demo_pool_ok : pool_ok demo_pool 300 (mk_mp 1000 24 8 1000 2 1 0) [1000] [1012].
Proof.
  split; try reflexivity; try (cbn; lia).
  - cbn. repeat split; lia.
  - intros b ->%list_elem_of_singleton. reflexivity.
  - unfold step_of. cbn. lia.
Qed.

Lemma demo_pool_caller : caller (ps_k demo_pool) 1 (demo_thread 10 RT_THREAD_RUNNING).
Proof. split_and!; reflexivity. Qed.

Lemma rt_mp_alloc_spec_witness : wp (rt_mp_alloc 300 0) (λ r _, r = Returned 1004) demo_pool.
Proof.
  eapply wp_mono; [eapply (rt_mp_alloc_spec demo_pool 300); [apply demo_kinv|apply demo_pool_ok|
    apply demo_pool_caller|by vm_compute|by vm_compute]|].
  intros r s' (E & _). by destruct (E 1000 [] eq_refl) as [? _].
Defined.

Lemma rt_mp_free_spec_witness :
  wp (rt_mp_free 1016) (λ _ s', ∃ mp, pool_ok s' 300 mp [1012; 1000] []) demo_pool.
Proof.
  eapply wp_mono; [eapply (rt_mp_free_spec demo_pool 300 _ 1012 [1000] [1012] []); [apply demo_kinv|
    apply demo_pool_ok|done]|].
  intros r s' (_ & E & _). exact E.
Defined.

Lemma rt_mp_alloc_free_witness :
  wp (r ← rt_mp_alloc 300 0; match r with Returned p => rt_mp_free p | Blocked _ => λ _, None end)
    (λ _ s', ∃ mp, pool_ok s' 300 mp [1000] [1012]) demo_pool.
Proof.
  eapply wp_mono; [eapply (rt_mp_alloc_free demo_pool 300); [apply demo_kinv|apply demo_pool_ok|
    apply demo_pool_caller|reflexivity]|].
  intros r s' [_ E]. exact E.
Defined.

Lemma rt_mp_init_spec_witness :
  wp (rt_mp_init 400 [112; 0] 2000 64 10) (λ _ s', ∃ mp, pool_ok s' 400 mp (blocks mp) [] ∧
    mp_block_total_count mp = 4) demo_pool.
Proof.
  eapply wp_mono; [eapply (rt_mp_init_spec demo_pool 400); [apply demo_kinv|by vm_compute|done|done| |
    reflexivity|done|done|done|done|by vm_compute]|].
  - intros cls. unfold tlist. cbn. rewrite lookup_empty. set_solver.
  - intros r s' (_ & _ & mp & ? & _ & _ & E). by exists mp.
Defined.

Lemma rt_mp_init_underflow_witness :
  wp (rt_mp_init 400 [112; 0] 2000 8 10) (λ _ s', ps_mem s' = store 4 (ps_mem demo_pool) 1984 0) demo_pool.
Proof.
  eapply (rt_mp_init_underflow demo_pool 400); [apply demo_kinv|by vm_compute|done|done| |
    reflexivity|done|done|done|by vm_compute|by vm_compute].
  intros cls. unfold tlist. cbn. rewrite lookup_empty. set_solver.
Defined.

(** Thread 1 takes the last block, waits for another one for a tick in vain, and releases
    the block. *)
Definition demo_timeout : P Z :=
  r ← rt_mp_alloc 300 0;
  match r with
  | Returned p =>
      rt_mp_alloc 300 1 ;;
      kern (rt_tick_increase (λ _ _, ret tt) 10) ;;
      ret p
  | Blocked _ => λ _, None
  end.

Lemma rt_mp_free_stale_count_witness :
  wp demo_timeout (λ p s', rt_mp_free p s' = None) demo_pool.
Proof.
  assert ((λ x : Z * pst, (x.1, load 4 (ps_mem x.2) 1000, mp_suspend_thread_count <$> ps_mp x.2 !! 300,
      tlist (k_tl (ps_k x.2)) (HSuspend 300))) <$> demo_timeout demo_pool = Some (1004, 300, Some 1, [])) as E
    by (vm_compute; reflexivity).
  unfold wp. destruct (demo_timeout demo_pool) as [[p s']|]; [|discriminate].
  injection E as -> H1 H2 H3. destruct (ps_mp s' !! 300) as [mp|] eqn:Emp; [|discriminate]. injection H2 as H2.
  apply (rt_mp_free_stale_count s' 1000 300 mp); [lia|done|done|lia|done].
Defined.
