(* ===== verification/Memheap.v ===== *)
(** Memory heaps, src/memheap.c: an allocator for any number of memory areas. A heap is a
    kernel object; its memory is divided into items, each with a header in the memory
    itself, in a ring of all items and, if free, in a ring of free items. A semaphore of
    the heap guards both. *)

From Stdlib Require Import ZArith Lia.
From stdpp Require Import base numbers option gmap.
From stdpp Require Import list sorting.
From S2P Require Import Prelude.
From S2P Require Import Proc.
From S2P Require Import Bytes.
From S2P Require Import KernelDefs.
From S2P Require Import Scheduler.
From S2P Require Import Object.
From S2P Require Import Timer.
From S2P Require Import Thread.
From S2P Require Import Clock.
From S2P Require Import Ipc.
From S2P Require Import Kstate.
From S2P Require Import Sem.
Local Open Scope Z_scope.
Local Open Scope rt_scope.

(** * State *)

Definition RT_MEMHEAP_MAGIC : Z := 0x1ea01ea0.
Definition RT_MEMHEAP_MASK : Z := 0xfffffffe.
Definition RT_MEMHEAP_USED : Z := 0x01.
Definition RT_MEMHEAP_MINIALLOC : Z := 12.
(** The size of [struct rt_memheap_item], six words. *)
Definition RT_MEMHEAP_SIZE : Z := 24.

(** The fields of an item, by their offset. *)
Inductive field := Magic | PoolPtr | Next | Prev | NextFree | PrevFree.
Definition offset (f : field) : Z :=
  match f with Magic => 0 | PoolPtr => 4 | Next => 8 | Prev => 12 | NextFree => 16 | PrevFree => 20 end.

(** [struct rt_memheap] without its object, its semaphore and the item [free_header]. *)
Record rt_memheap := mk_memheap {
  mh_start_addr : Z;
  mh_pool_size : Z;
  mh_available_size : Z;
  mh_max_used_size : Z;
  mh_block_list : Z;
  mh_free_list : Z
}.

(** The addresses of [free_header] and [lock] in the structure at [a]. *)
Definition free_header (a : Z) : Z := a + 44.
Definition heap_lock (a : Z) : Z := a + 68.

(** The kernel, [__rt_errno], the heaps and the memory. *)
Record mst := mk_mst {
  ms_k : kst;
  ms_errno : Z;
  ms_heaps : gmap Z rt_memheap;
  ms_mem : memory
}.

#[export] Instance mst_kernel : KernelState mst := {|
  st_k := ms_k;
  with_k k s := mk_mst k (ms_errno s) (ms_heaps s) (ms_mem s);
  st_errno := ms_errno;
  with_errno e s := mk_mst (ms_k s) e (ms_heaps s) (ms_mem s)
|}.
#[export] Instance mst_laws : KernelLaws mst.
Proof. by split; [..|intros []]. Qed.

Abbreviation MM := (M mst).
Abbreviation MP A := (M mst (proc mst A)).

(** An item can be at [p]: in the memory of a heap, or the free header of one. *)
Definition holds (p : Z) (x : Z * rt_memheap) : bool :=
  (p =? free_header x.1) ||
  (mh_start_addr x.2 <=? p) && (p + RT_MEMHEAP_SIZE <=? mh_start_addr x.2 + mh_pool_size x.2).
Definition mapped (hs : gmap Z rt_memheap) (p : Z) : bool := existsb (holds p) (map_to_list hs).

(** [p->f] and [p->f = v]. *)
Definition rd (f : field) (p : Z) : MM Z := λ s,
  if mapped (ms_heaps s) p then Some (load 4 (ms_mem s) (p + offset f), s) else None.
Definition wr (f : field) (p v : Z) : MM unit := λ s,
  if mapped (ms_heaps s) p then Some (tt, mk_mst (ms_k s) (ms_errno s) (ms_heaps s) (store 4 (ms_mem s) (p + offset f) v)) else None.

Definition get_heap (a : Z) : MM rt_memheap := λ s,
  match ms_heaps s !! a with Some h => Some (h, s) | None => None end.
Definition put_heap (a : Z) (h : rt_memheap) : MM unit :=
  modify (λ s, mk_mst (ms_k s) (ms_errno s) (<[a := h]> (ms_heaps s)) (ms_mem s)).

(** * Sections under the lock *)

(** [heap->available_size = heap->available_size + n] *)
Definition add_available (a n : Z) : MM unit :=
  h ← get_heap a;
  put_heap a (mk_memheap (mh_start_addr h) (mh_pool_size h) (u32 (mh_available_size h + n)) (mh_max_used_size h)
    (mh_block_list h) (mh_free_list h)).

(** Less available memory, and the high-water mark. *)
Definition consume (a n : Z) : MM unit :=
  add_available a (- n) ;;
  h ← get_heap a;
  let used := u32 (mh_pool_size h - mh_available_size h) in
  if mh_max_used_size h <? used then
    put_heap a (mk_memheap (mh_start_addr h) (mh_pool_size h) (mh_available_size h) used (mh_block_list h) (mh_free_list h))
  else ret tt.

(** [MEMITEM_SIZE(p)] *)
Definition MEMITEM_SIZE (p : Z) : MM Z := next ← rd Next p; ret (u32 (next - p - RT_MEMHEAP_SIZE)).
(** [RT_MEMHEAP_IS_USED(p)] *)
Definition RT_MEMHEAP_IS_USED (p : Z) : MM bool := magic ← rd Magic p; ret (nz (Z.land magic RT_MEMHEAP_USED)).

(** Taking [p] out of the free ring. *)
Definition unlink_free (p : Z) : MM unit :=
  next ← rd NextFree p; prev ← rd PrevFree p; wr PrevFree next prev ;;
  next ← rd NextFree p; prev ← rd PrevFree p; wr NextFree prev next.
(** The same, and clearing its pointers. *)
Definition take_free (p : Z) : MM unit := unlink_free p ;; wr NextFree p 0 ;; wr PrevFree p 0.
(** Inserting [p] behind the header. *)
Definition insert_free (a p : Z) : MM unit :=
  h ← get_heap a;
  let l := mh_free_list h in
  next ← rd NextFree l; wr NextFree p next ;;
  wr PrevFree p l ;;
  next ← rd NextFree l; wr PrevFree next p ;;
  wr NextFree l p.

(** A new free item at [q], behind the item [p]. *)
Definition new_item (a p q : Z) : MM unit :=
  wr Magic q RT_MEMHEAP_MAGIC ;;
  wr PoolPtr q a ;;
  wr Prev q p ;;
  next ← rd Next p; wr Next q next ;;
  next ← rd Next p; wr Prev next q ;;
  wr Next p q.

(** The search for a free item: the item it ends at and the last size it saw. *)
Fixpoint find_free (fuel : nat) (l size p free_size : Z) : MM (Z * Z) :=
  match fuel with
  | O => λ _, None
  | S fuel =>
      if negb (p =? l) && (free_size <? size) then
        free_size ← MEMITEM_SIZE p;
        if free_size <? size then next ← rd NextFree p; find_free fuel l size next free_size
        else find_free fuel l size p free_size
      else ret (p, free_size)
  end.

(** Enough for a ring of items in the memory of the heap. *)
Definition ring_fuel (h : rt_memheap) : nat := Z.to_nat (mh_pool_size h) + 3.

(** Taking [size] bytes of the free item [p]: the rest becomes a free item if it can. *)
Definition carve (a size p free_size : Z) : MM unit :=
  if u32 (size + RT_MEMHEAP_SIZE + RT_MEMHEAP_MINIALLOC) <=? free_size then
    let q := u32 (p + size + RT_MEMHEAP_SIZE) in
    new_item a p q ;;
    take_free p ;;
    insert_free a q ;;
    consume a (size + RT_MEMHEAP_SIZE)
  else
    consume a free_size ;;
    take_free p.

(** [header_ptr->magic |= RT_MEMHEAP_USED] *)
Definition mark_used (p : Z) : MM unit := magic ← rd Magic p; wr Magic p (Z.lor magic RT_MEMHEAP_USED).

(** [rt_memheap_alloc] between taking and releasing the semaphore. *)
Definition alloc_section (a size : Z) : MM Z :=
  h ← get_heap a;
  first ← rd NextFree (mh_free_list h);
  r ← find_free (ring_fuel h) (mh_free_list h) size first 0;
  let '(p, free_size) := r in
  if size <=? free_size then
    carve a size p free_size ;;
    mark_used p ;;
    ret (u32 (p + RT_MEMHEAP_SIZE))
  else ret 0.

(** The free item [q] behind [p] becomes part of [p]. *)
Definition absorb (p q : Z) : MM unit :=
  next ← rd Next q; wr Prev next p ;;
  next ← rd Next q; wr Next p next ;;
  unlink_free q.

(** The parts of [rt_memheap_free] that join [p] with its neighbours: the item in front
    takes [p] in, an item behind is taken in. *)
Definition merge_left (a p : Z) : MM (Z * bool) :=
  prev ← rd Prev p;
  used ← RT_MEMHEAP_IS_USED prev;
  if used : bool then ret (p, true)
  else
    add_available a RT_MEMHEAP_SIZE ;;
    prev ← rd Prev p; next ← rd Next p; wr Next prev next ;;
    next ← rd Next p; prev ← rd Prev p; wr Prev next prev ;;
    prev ← rd Prev p;
    ret (prev, false).

Definition merge_right (a p : Z) : MM unit :=
  next ← rd Next p;
  used ← RT_MEMHEAP_IS_USED next;
  if used : bool then ret tt
  else
    add_available a RT_MEMHEAP_SIZE ;;
    q ← rd Next p;
    absorb p q.

(** The item is marked free and counted. *)
Definition unmark (a p : Z) : MM unit :=
  magic ← rd Magic p;
  wr Magic p (Z.land magic (u32 (Z.lnot RT_MEMHEAP_USED))) ;;
  size ← MEMITEM_SIZE p;
  add_available a size.

(** [rt_memheap_free] between taking and releasing the semaphore. *)
Definition free_section (a p : Z) : MM unit :=
  unmark a p ;;
  r ← merge_left a p;
  let '(p, insert_header) := r in
  merge_right a p ;;
  if insert_header : bool then insert_free a p else ret tt.

(** A free item is taken out of both rings. *)
Definition drop_item (q : Z) : MM unit :=
  unlink_free q ;;
  next ← rd Next q; prev ← rd Prev q; wr Prev next prev ;;
  prev ← rd Prev q; next ← rd Next q; wr Next prev next.

(** [rt_memheap_realloc] for a larger size: whether the item could grow into the free
    item behind it. *)
Definition grow_section (a ptr newsize oldsize : Z) : MM bool :=
  let p := u32 (ptr - RT_MEMHEAP_SIZE) in
  q ← rd Next p;
  assert (p <? q) ;;
  used ← RT_MEMHEAP_IS_USED q;
  if used : bool then ret false
  else
    nextsize ← MEMITEM_SIZE q;
    assert (0 <? q) ;;
    if u32 (newsize + RT_MEMHEAP_MINIALLOC) <? u32 (nextsize + oldsize) then
      consume a (newsize - oldsize) ;;
      drop_item q ;;
      let q := u32 (ptr + newsize) in
      new_item a p q ;;
      insert_free a q ;;
      ret true
    else ret false.

(** And for a smaller one: the rest becomes a free item. *)
Definition shrink_section (a p newsize : Z) : MM unit :=
  let q := u32 (p + newsize + RT_MEMHEAP_SIZE) in
  new_item a p q ;;
  next ← rd Next q;
  used ← RT_MEMHEAP_IS_USED next;
  (if used : bool then ret tt
   else
     r ← rd Next q;
     size ← MEMITEM_SIZE r;
     add_available a (- size) ;;
     absorb q r) ;;
  insert_free a q ;;
  size ← MEMITEM_SIZE q;
  add_available a size.

(** * The routines *)

(** [rt_sem_take(&(heap->lock), RT_WAITING_FOREVER)] *)
Definition lock (a : Z) : MP Z :=
  r ← kern (rt_sem_take (heap_lock a) RT_WAITING_FOREVER);
  match r with
  | Returned e => dret e
  | Blocked t => ret (Wait (now (kern (rt_sem_take_resume t))))
  end.
Definition unlock (a : Z) : MM unit := kern (rt_sem_release (heap_lock a)) ;; ret tt.

(** A section under the lock; [None] when the lock was not obtained. *)
Definition locked {A} (a : Z) (m : MM A) : MP (option A) :=
  result ⇐ lock a;
  if negb (result =? RT_EOK) then now (rt_set_errno result) ;;; dret None
  else x ⇐ now m; now (unlock a) ;;; dret (Some x).

(** [RT_ASSERT(heap != RT_NULL)] and the check of the class *)
Definition is_memheap (a : Z) : MM unit := assert (nz a) ;; kern (assert_type (Obj a) RT_Object_Class_MemHeap).

(** The size that is reserved for a request. *)
Definition rounded (size : Z) : Z :=
  let size := RT_ALIGN size 4 in if size <? RT_MEMHEAP_MINIALLOC then RT_MEMHEAP_MINIALLOC else size.

Definition rt_memheap_alloc (a size : Z) : MP Z :=
  now (is_memheap a) ;;;
  let size := rounded size in
  h ⇐ now (get_heap a);
  if size <? mh_available_size h then
    r ⇐ locked a (alloc_section a size);
    dret (default 0 r)
  else dret 0.

Definition rt_memheap_free (ptr : Z) : MP unit :=
  if ptr =? 0 then dret tt
  else
    let p := u32 (ptr - RT_MEMHEAP_SIZE) in
    a ⇐ now (magic ← rd Magic p;
             assert (Z.land magic RT_MEMHEAP_MASK =? RT_MEMHEAP_MAGIC) ;;
             assert (nz (Z.land magic RT_MEMHEAP_USED)) ;;
             next ← rd Next p;
             magic ← rd Magic next;
             assert (Z.land magic RT_MEMHEAP_MASK =? RT_MEMHEAP_MAGIC) ;;
             a ← rd PoolPtr p;
             is_memheap a ;;
             ret a);
    locked a (free_section a p) ;;;
    dret tt.

(** The last part of [rt_memheap_realloc] for a larger size: the item moves. *)
Definition realloc_move (a ptr newsize oldsize : Z) : MP Z :=
  new_ptr ⇐ rt_memheap_alloc a newsize;
  if nz new_ptr then
    now (modify (λ s, mk_mst (ms_k s) (ms_errno s) (ms_heaps s)
      (copy (ms_mem s) new_ptr ptr (if oldsize <? newsize then oldsize else newsize)))) ;;;
    rt_memheap_free ptr ;;;
    dret new_ptr
  else dret new_ptr.

Definition rt_memheap_realloc (a ptr newsize : Z) : MP Z :=
  now (is_memheap a) ;;;
  if newsize =? 0 then rt_memheap_free ptr ;;; dret 0
  else
    let newsize := rounded newsize in
    if ptr =? 0 then rt_memheap_alloc a newsize
    else
      let p := u32 (ptr - RT_MEMHEAP_SIZE) in
      oldsize ⇐ now (MEMITEM_SIZE p);
      if oldsize <? newsize then
        r ⇐ locked a (grow_section a ptr newsize oldsize);
        match r with
        | None => dret 0
        | Some true => dret ptr
        | Some false => realloc_move a ptr newsize oldsize
        end
      else if oldsize <=? u32 (newsize + RT_MEMHEAP_SIZE + RT_MEMHEAP_MINIALLOC) then dret ptr
      else
        r ⇐ locked a (shrink_section a p newsize);
        dret (match r with Some _ => ptr | None => 0 end).

(** A header with all its fields. *)
Definition set_item (p magic pool next prev next_free prev_free : Z) : MM unit :=
  wr Magic p magic ;; wr PoolPtr p pool ;; wr Next p next ;; wr Prev p prev ;;
  wr NextFree p next_free ;; wr PrevFree p prev_free.

Definition rt_memheap_init (a : Z) (name : list Z) (start_addr size : Z) : MM Z :=
  assert (nz a) ;;
  kern (rt_object_init (Obj a) RT_Object_Class_MemHeap name) ;;
  let pool_size := RT_ALIGN_DOWN size 4 in
  let available_size := u32 (pool_size - 2 * RT_MEMHEAP_SIZE) in
  let header := free_header a in
  put_heap a (mk_memheap start_addr pool_size available_size (u32 (pool_size - available_size)) start_addr header) ;;
  set_item header RT_MEMHEAP_MAGIC a 0 0 header header ;;
  let item := start_addr in
  set_item item RT_MEMHEAP_MAGIC a 0 0 item item ;;
  let last := u32 (item + available_size + RT_MEMHEAP_SIZE) in
  wr Next item last ;;
  next ← rd Next item; wr Prev item next ;;
  insert_free a item ;;
  item ← rd Next item;
  set_item item (Z.lor RT_MEMHEAP_MAGIC RT_MEMHEAP_USED) a start_addr start_addr 0 0 ;;
  kern (rt_sem_init (heap_lock a) name 1 RT_IPC_FLAG_FIFO) ;;
  ret RT_EOK.

Definition rt_memheap_detach (a : Z) : MM Z :=
  is_memheap a ;;
  b ← kern (rt_object_is_systemobject (Obj a));
  assert b ;;
  kern (rt_object_detach (Obj (heap_lock a))) ;;
  kern (rt_object_detach (Obj a)) ;;
  ret RT_EOK.

(** * Rings *)

#[export] Instance field_eq_dec : EqDecision field.
Proof. solve_decision. Defined.

(** The contents of headers, by address and field. *)
Definition items : Type := Z → field → Z.
Definition upd (I : items) (p : Z) (f : field) (v : Z) : items := λ q g, if decide (q = p ∧ g = f) then v else I q g.

Lemma upd_same I p f v : upd I p f v p f = v.
Proof. unfold upd. by rewrite decide_True. Qed.
Lemma upd_addr I p f v q g : q ≠ p → upd I p f v q g = I q g.
Proof. intros H. unfold upd. rewrite decide_False; [done|tauto]. Qed.
Lemma upd_field I p f v q g : g ≠ f → upd I p f v q g = I q g.
Proof. intros H. unfold upd. rewrite decide_False; [done|tauto]. Qed.
#[export] Hint Rewrite upd_same : memheap.
#[export] Hint Rewrite upd_field using discriminate : memheap.
#[export] Hint Rewrite upd_addr using (first [assumption|apply not_eq_sym; assumption]) : memheap.

Section ring.
(** Two fields that link items in both directions. *)
Variables n v : field.
Hypothesis Hnv : n ≠ v.

(** Neighbours of the list point to each other. *)
Fixpoint path (I : items) (l : list Z) : Prop :=
  match l with
  | a :: (b :: _) as l' => I a n = b ∧ I b v = a ∧ path I l'
  | _ => True
  end.

Definition ring (I : items) (x : Z) (l : list Z) : Prop := path I (x :: l ++ [x]).

Lemma path_cons I a b l : path I (a :: b :: l) ↔ I a n = b ∧ I b v = a ∧ path I (b :: l).
Proof. done. Qed.

Lemma links_app I l1 a l2 : path I (l1 ++ a :: l2) ↔ path I (l1 ++ [a]) ∧ path I (a :: l2).
Proof.
  induction l1 as [|b l1 IH]; [cbn; tauto|]. destruct l1 as [|c l1].
  - cbn. tauto.
  - change (path I ((b :: c :: l1) ++ a :: l2)) with (I b n = c ∧ I c v = b ∧ path I ((c :: l1) ++ a :: l2)).
    change (path I ((b :: c :: l1) ++ [a])) with (I b n = c ∧ I c v = b ∧ path I ((c :: l1) ++ [a])). rewrite IH. tauto.
Qed.

(** Only the forward link of all but the last and the backward link of all but the first
    matter. *)
Lemma path_ext I I' l a :
  (∀ z, z ∈ l → I' z n = I z n) → (∀ z, z ∈ tail (l ++ [a]) → I' z v = I z v) → path I (l ++ [a]) → path I' (l ++ [a]).
Proof.
  induction l as [|b l IH]; intros H1 H2 H; [done|]. destruct l as [|c l].
  - cbn in *. destruct H as (E1 & E2 & _). split_and!; [rewrite H1; [done|by left]|rewrite H2; [done|by left]|done].
  - change (I b n = c ∧ I c v = b ∧ path I ((c :: l) ++ [a])) in H. destruct H as (E1 & E2 & H).
    change (I' b n = c ∧ I' c v = b ∧ path I' ((c :: l) ++ [a])). split_and!.
    + rewrite H1; [done|by left].
    + rewrite H2; [done|by left].
    + apply IH; [intros z Hz; apply H1; by right| |done]. intros z Hz. apply H2. cbn in *. by right.
Qed.

(** [u->n = w; w->v = u] *)
Definition link (I : items) (u w : Z) : items := upd (upd I w v u) u n w.

Lemma link_n I u w z : link I u w z n = if decide (z = u) then w else I z n.
Proof.
  unfold link. destruct (decide (z = u)) as [->|Hz]; [apply upd_same|]. rewrite upd_addr by done. by apply upd_field.
Qed.
Lemma link_v I u w z : link I u w z v = if decide (z = w) then u else I z v.
Proof.
  unfold link. rewrite upd_field by done. destruct (decide (z = w)) as [->|Hz]; [apply upd_same|]. by apply upd_addr.
Qed.
Lemma link_field I u w z f : f ≠ n → f ≠ v → link I u w z f = I z f.
Proof. intros H1 H2. unfold link. by rewrite !upd_field by done. Qed.

(** Two paths are joined. *)
Lemma path_link I l1 u w t :
  path I (l1 ++ [u]) → path I (w :: t) → u ∉ l1 → (∀ l b, w :: t = l ++ [b] → u ∉ l) → w ∉ tail (l1 ++ [u]) → w ∉ t →
  path (link I u w) (l1 ++ u :: w :: t).
Proof.
  intros H1 H2 Hu1 Hu2 Hw1 Hw2. apply links_app. split.
  - eapply path_ext; [..|exact H1]; intros z Hz; [by rewrite link_n, decide_False by set_solver|].
    by rewrite link_v, decide_False by set_solver.
  - rewrite path_cons. split_and!; [by rewrite link_n, decide_True|by rewrite link_v, decide_True|].
    destruct (exists_last (l := w :: t)) as (l & b & E); [done|]. specialize (Hu2 l b E).
    assert (tail (l ++ [b]) = t) as Et by (by rewrite <- E). rewrite E in H2 |- *. apply path_ext with I; [..|done]; intros z Hz.
    + by rewrite link_n, decide_False by set_solver.
    + rewrite Et in Hz. by rewrite link_v, decide_False by set_solver.
Qed.

(** The neighbours of an item in a ring. *)
Definition before (x : Z) (l1 : list Z) : Z := default x (last l1).
Definition behind (x : Z) (l2 : list Z) : Z := default x (head l2).

Lemma before_split x l1 : ∃ L, x :: l1 = L ++ [before x l1].
Proof.
  destruct l1 as [|y l _] using rev_ind; [by exists []|]. unfold before. rewrite last_snoc. by exists (x :: l).
Qed.
Lemma behind_split x l2 : ∃ t, l2 ++ [x] = behind x l2 :: t.
Proof. destruct l2 as [|y l2]; [by exists []|]. by exists (l2 ++ [x]). Qed.

Lemma ring_links I x l1 p l2 :
  ring I x (l1 ++ p :: l2) → I p v = before x l1 ∧ I p n = behind x l2 ∧ I (before x l1) n = p ∧ I (behind x l2) v = p.
Proof.
  unfold ring. destruct (before_split x l1) as [L E1], (behind_split x l2) as [t E2].
  replace (x :: (l1 ++ p :: l2) ++ [x]) with (L ++ before x l1 :: p :: behind x l2 :: t).
  2: { change (x :: (l1 ++ p :: l2) ++ [x]) with (((x :: l1) ++ p :: l2) ++ [x]). rewrite E1, <- !(assoc_L (++)). cbn. by rewrite E2. }
  intros [_ H]%links_app. cbn in H. tauto.
Qed.

Lemma ring_head I x l : ring I x l → I x n = behind x l ∧ I (behind x l) v = x.
Proof. unfold ring. destruct (behind_split x l) as [t E]. rewrite E. cbn. tauto. Qed.

Lemma ring_parts I x l1 l2 :
  NoDup (x :: l1 ++ l2) → ring I x (l1 ++ l2) ∨ (∃ p, ring I x (l1 ++ p :: l2)) →
  ∃ L t, x :: l1 = L ++ [before x l1] ∧ l2 ++ [x] = behind x l2 :: t ∧
    path I (L ++ [before x l1]) ∧ path I (behind x l2 :: t) ∧ before x l1 ∉ L ∧ before x l1 ∉ l2 ∧ behind x l2 ∉ l1 ∧ behind x l2 ∉ t.
Proof.
  intros Hnd Hr. destruct (before_split x l1) as [L E1], (behind_split x l2) as [t E2]. exists L, t.
  assert (NoDup ((x :: l1) ++ l2)) as Hnd1 by done. assert (NoDup (l1 ++ (l2 ++ [x]))) as Hnd2.
  { rewrite (assoc_L (++)), NoDup_app. apply NoDup_cons in Hnd as [Hx Hnd]. split_and!; [done| |apply NoDup_singleton]. set_solver. }
  rewrite E1 in Hnd1. rewrite E2 in Hnd2. apply NoDup_app in Hnd1 as (Hn1 & Hd1 & _). apply NoDup_app in Hn1 as (_ & Hn1 & _).
  apply NoDup_app in Hnd2 as (_ & Hd2 & Hn2). apply NoDup_cons in Hn2 as [Hn2 _].
  assert (path I (L ++ [before x l1]) ∧ path I (behind x l2 :: t)) as [H1 H2].
  { unfold ring in Hr. destruct Hr as [Hr|[p Hr]].
    - replace (x :: (l1 ++ l2) ++ [x]) with (L ++ before x l1 :: behind x l2 :: t) in Hr.
      2: { change (x :: (l1 ++ l2) ++ [x]) with (((x :: l1) ++ l2) ++ [x]). rewrite E1, <- !(assoc_L (++)), E2. done. }
      apply links_app in Hr as [H1 H2]. split; [done|]. cbn in H2. tauto.
    - replace (x :: (l1 ++ p :: l2) ++ [x]) with (L ++ before x l1 :: p :: behind x l2 :: t) in Hr.
      2: { change (x :: (l1 ++ p :: l2) ++ [x]) with (((x :: l1) ++ p :: l2) ++ [x]). rewrite E1, <- !(assoc_L (++)). cbn. by rewrite E2. }
      apply links_app in Hr as [H1 H2]. split; [done|]. cbn in H2. tauto. }
  split_and!; try done; [set_solver| |]; set_solver.
Qed.

(** Taking an item out of a ring. *)
Lemma ring_remove I x l1 p l2 :
  NoDup (x :: l1 ++ p :: l2) → ring I x (l1 ++ p :: l2) → ring (link I (before x l1) (behind x l2)) x (l1 ++ l2).
Proof.
  intros Hnd Hr. assert (NoDup (x :: l1 ++ l2)) as Hnd'.
  { apply NoDup_cons in Hnd as [Hx Hnd]. apply NoDup_app in Hnd as (H1 & H2 & [Hp H3]%NoDup_cons). constructor; [set_solver|].
    apply NoDup_app. split_and!; [done|set_solver|done]. }
  destruct (ring_parts I x l1 l2 Hnd' (or_intror (ex_intro _ p Hr))) as (L & t & E1 & E2 & H1 & H2 & N1 & N2 & N3 & N4).
  unfold ring. change (x :: (l1 ++ l2) ++ [x]) with (((x :: l1) ++ l2) ++ [x]). rewrite E1, <- !(assoc_L (++)), E2.
  apply path_link; [done..| |by rewrite <- E1|done]. intros l b E. rewrite <- E2 in E. by apply app_inj_tail in E as [<- _].
Qed.

(** Putting an item into a ring: it gets its links first. *)
Lemma ring_insert I x l1 q l2 :
  NoDup (x :: l1 ++ l2) → q ∉ x :: l1 ++ l2 → ring I x (l1 ++ l2) → I q n = behind x l2 → I q v = before x l1 →
  ring (upd (upd I (behind x l2) v q) (before x l1) n q) x (l1 ++ q :: l2).
Proof.
  intros Hnd Hq Hr En Ev.
  destruct (ring_parts I x l1 l2 Hnd (or_introl Hr)) as (L & t & E1 & E2 & H1 & H2 & N1 & N2 & N3 & N4).
  set (u := before x l1) in *. set (w := behind x l2) in *. set (I' := upd (upd I w v q) u n q).
  assert (u ∈ x :: l1) as Hu by (rewrite E1; set_solver). assert (w ∈ l2 ++ [x]) as Hw by (rewrite E2; set_solver).
  assert (∀ z, z ≠ u → I' z n = I z n) as Fn by (intros z Hz; unfold I'; rewrite upd_addr, upd_field by done; done).
  assert (∀ z, z ≠ w → I' z v = I z v) as Fv by (intros z Hz; unfold I'; rewrite upd_field, upd_addr by done; done).
  unfold ring. change (x :: (l1 ++ q :: l2) ++ [x]) with (((x :: l1) ++ q :: l2) ++ [x]). rewrite E1, <- !(assoc_L (++)).
  change ([u] ++ (q :: l2) ++ [x]) with (u :: q :: l2 ++ [x]). rewrite E2. apply links_app. split.
  - apply path_ext with I; [..|done]; intros z Hz; [apply Fn; set_solver|]. rewrite <- E1 in Hz. apply Fv. set_solver.
  - rewrite !path_cons. split_and!.
    + apply upd_same.
    + rewrite Fv; [done|]. set_solver.
    + rewrite Fn; [done|]. set_solver.
    + unfold I'. rewrite upd_field by done. apply upd_same.
    + destruct (exists_last (l := w :: t)) as (l & b & E); [done|]. rewrite <- E2 in E. apply app_inj_tail in E as [<- <-].
      assert (tail (l2 ++ [x]) = t) as Et by (by rewrite E2). rewrite <- E2 in H2 |- *. apply path_ext with I; [..|done]; intros z Hz.
      * apply Fn. set_solver.
      * rewrite Et in Hz. apply Fv. set_solver.
Qed.

(** All four stores that put [q] between [u] and [w]. *)
Definition put_between (I : items) (u w q : Z) : items := upd (upd (upd (upd I q v u) q n w) w v q) u n q.

Lemma put_field I u w q z f : f ≠ n → f ≠ v → put_between I u w q z f = I z f.
Proof. intros H1 H2. unfold put_between. by rewrite !upd_field by done. Qed.

Lemma ring_ext I I' x l : (∀ z, z ∈ x :: l → I' z n = I z n ∧ I' z v = I z v) → ring I x l → ring I' x l.
Proof.
  intros H Hr. apply (path_ext I I' (x :: l)); [|..|done]; intros z Hz; apply H; [done|]. cbn in Hz. set_solver.
Qed.

Lemma ring_put I x l1 q l2 :
  NoDup (x :: l1 ++ l2) → q ∉ x :: l1 ++ l2 → ring I x (l1 ++ l2) → ring (put_between I (before x l1) (behind x l2) q) x (l1 ++ q :: l2).
Proof.
  intros Hnd Hq Hr. unfold put_between. apply ring_insert; [done|done| |apply upd_same|].
  - eapply ring_ext; [|exact Hr]. intros z Hz. rewrite !upd_addr by set_solver. done.
  - rewrite upd_field by done. apply upd_same.
Qed.
End ring.

Lemma before_in x l1 : before x l1 ∈ x :: l1.
Proof. destruct (before_split x l1) as [L ->]. set_solver. Qed.
Lemma behind_in x l2 : behind x l2 ∈ x :: l2.
Proof. destruct (behind_split x l2) as [t E]. assert (behind x l2 ∈ l2 ++ [x]) by (rewrite E; set_solver). set_solver. Qed.

Lemma behind_ne x l1 p l2 : NoDup (x :: l1 ++ p :: l2) → behind x l2 ≠ p ∧ before x l1 ≠ p.
Proof.
  intros [Hx Hnd]%NoDup_cons. apply NoDup_app in Hnd as (_ & H1 & [H2 _]%NoDup_cons).
  pose proof (behind_in x l2). pose proof (before_in x l1). split; intros E; rewrite E in *; set_solver.
Qed.

(** * Headers in memory *)

Definition apart (p q : Z) : Prop := p + RT_MEMHEAP_SIZE ≤ q ∨ q + RT_MEMHEAP_SIZE ≤ p.

(** The headers at the addresses [A], which do not overlap. All else is as in [s0], up to
    the counters of the heaps. *)
Section view.
Variable A : list Z.
Hypothesis A_apart : ∀ p q, p ∈ A → q ∈ A → p = q ∨ apart p q.
Variable s0 : mst.

Record view (hs : gmap Z rt_memheap) (I : items) (s : mst) : Prop := {
  vw_k : ms_k s = ms_k s0;
  vw_errno : ms_errno s = ms_errno s0;
  vw_heaps : ms_heaps s = hs;
  vw_mapped p : p ∈ A → mapped hs p = true;
  vw_items p f : p ∈ A → load 4 (ms_mem s) (p + offset f) = I p f;
  vw_frame i : (∀ p, p ∈ A → i < p ∨ p + RT_MEMHEAP_SIZE ≤ i) → ms_mem s i = ms_mem s0 i
}.

Lemma offset_apart f g : f ≠ g → offset f + 4 ≤ offset g ∨ offset g + 4 ≤ offset f.
Proof. destruct f, g; cbn; intros; (lia || done). Qed.
Lemma offset_range f : 0 ≤ offset f ≤ 20.
Proof. destruct f; cbn; lia. Qed.

Lemma view_rd hs I s f p (Q : Z → mst → Prop) : view hs I s → p ∈ A → Q (I p f) s → wp (rd f p) Q s.
Proof.
  intros Hv Hp HQ. unfold wp, rd. rewrite (vw_heaps _ _ _ Hv), (vw_mapped _ _ _ Hv p Hp), (vw_items _ _ _ Hv p f Hp). done.
Qed.

Lemma view_wr hs I s f p x (Q : unit → mst → Prop) :
  view hs I s → p ∈ A → 0 ≤ x < 2 ^ 32 → (∀ s', view hs (upd I p f x) s' → Q tt s') → wp (wr f p x) Q s.
Proof.
  intros [Hk He Hh Hm Hi Hf] Hp Hx HQ. unfold wp, wr. rewrite Hh, (Hm p Hp). apply HQ. split; cbn; try done.
  - intros q g Hq. unfold upd. destruct (decide (q = p ∧ g = f)) as [[-> ->]|Hne]; [by apply load_store_same|].
    rewrite load_store_other; [by apply Hi|]. pose proof (offset_range f). pose proof (offset_range g). unfold apart, RT_MEMHEAP_SIZE in *.
    destruct (A_apart p q Hp Hq) as [<-|Ha]; [|lia]. destruct (decide (g = f)) as [->|Hg]; [tauto|]. pose proof (offset_apart _ _ Hg). lia.
  - intros i Hout. rewrite store_outside; [by apply Hf|]. specialize (Hout p Hp). pose proof (offset_range f). unfold RT_MEMHEAP_SIZE in *. lia.
Qed.

Lemma view_get_heap hs I s a h (Q : rt_memheap → mst → Prop) : view hs I s → hs !! a = Some h → Q h s → wp (get_heap a) Q s.
Proof. intros Hv Ha HQ. unfold wp, get_heap. by rewrite (vw_heaps _ _ _ Hv), Ha. Qed.

(** The same area for the heap at [a]. *)
Definition same_area (h h' : rt_memheap) : Prop := mh_start_addr h' = mh_start_addr h ∧ mh_pool_size h' = mh_pool_size h.

Lemma mapped_put hs a h h' p : hs !! a = Some h → same_area h h' → mapped hs p = true → mapped (<[a := h']> hs) p = true.
Proof.
  intros Ha [E1 E2]. unfold mapped. rewrite !existsb_exists. intros ([b x] & Hin%list_elem_of_In%elem_of_map_to_list & Hx).
  destruct (decide (a = b)) as [<-|Hne].
  - exists (a, h'). split; [apply list_elem_of_In, elem_of_map_to_list, lookup_insert_eq|]. rewrite Ha in Hin. injection Hin as <-.
    unfold holds in *. cbn in *. by rewrite E1, E2.
  - exists (b, x). split; [|done]. apply list_elem_of_In, elem_of_map_to_list. by rewrite lookup_insert_ne.
Qed.

Lemma view_put_heap hs I s a h h' (Q : unit → mst → Prop) :
  view hs I s → hs !! a = Some h → same_area h h' → (∀ s', view (<[a := h']> hs) I s' → Q tt s') → wp (put_heap a h') Q s.
Proof.
  intros [Hk He Hh Hm Hi Hf] Ha Hs HQ. apply HQ. split; cbn; try done; [by rewrite Hh|]. intros p Hp. eapply mapped_put; eauto.
Qed.

Lemma view_size hs I s p (Q : Z → mst → Prop) :
  view hs I s → p ∈ A → Q (u32 (I p Next - p - RT_MEMHEAP_SIZE)) s → wp (MEMITEM_SIZE p) Q s.
Proof. intros Hv Hp HQ. apply wp_bind. eapply view_rd; [done..|]. by apply wp_ret. Qed.

Lemma view_used hs I s p (Q : bool → mst → Prop) :
  view hs I s → p ∈ A → Q (nz (Z.land (I p Magic) RT_MEMHEAP_USED)) s → wp (RT_MEMHEAP_IS_USED p) Q s.
Proof. intros Hv Hp HQ. apply wp_bind. eapply view_rd; [done..|]. by apply wp_ret. Qed.

(** A header with all its fields. *)
Definition item_at (p magic pool next prev next_free prev_free : Z) (I : items) : items :=
  upd (upd (upd (upd (upd (upd I p Magic magic) p PoolPtr pool) p Next next) p Prev prev) p NextFree next_free) p PrevFree prev_free.

Lemma view_set_item hs I s p magic pool next prev nf pf (Q : unit → mst → Prop) :
  view hs I s → p ∈ A → (∀ x, x ∈ [magic; pool; next; prev; nf; pf] → 0 ≤ x < 2 ^ 32) →
  (∀ s', view hs (item_at p magic pool next prev nf pf I) s' → Q tt s') → wp (set_item p magic pool next prev nf pf) Q s.
Proof.
  intros Hv Hp Hx HQ. unfold set_item.
  do 5 (apply wp_bind; eapply view_wr; [done|done|apply Hx; set_solver|]; clear Hv; intros ? Hv).
  eapply view_wr; [done|done|apply Hx; set_solver|]. exact HQ.
Qed.

(** ** Counters *)

Definition with_available (x mx : Z) (h : rt_memheap) : rt_memheap :=
  mk_memheap (mh_start_addr h) (mh_pool_size h) x mx (mh_block_list h) (mh_free_list h).

Lemma view_add hs I s a h d (Q : unit → mst → Prop) :
  view hs I s → hs !! a = Some h → 0 ≤ mh_available_size h + d < 2 ^ 32 →
  (∀ s', view (<[a := with_available (mh_available_size h + d) (mh_max_used_size h) h]> hs) I s' → Q tt s') →
  wp (add_available a d) Q s.
Proof.
  intros Hv Ha Hr HQ. apply wp_bind. eapply view_get_heap; [done..|]. rewrite (wrap_small 32) by lia. by eapply view_put_heap.
Qed.

(** The high-water mark after a use. *)
Definition consumed (d : Z) (h : rt_memheap) : rt_memheap :=
  with_available (mh_available_size h - d) (Z.max (mh_max_used_size h) (mh_pool_size h - (mh_available_size h - d))) h.

Lemma view_consume hs I s a h d (Q : unit → mst → Prop) :
  view hs I s → hs !! a = Some h → 0 ≤ mh_available_size h - d ≤ mh_pool_size h → mh_pool_size h < 2 ^ 32 →
  (∀ s', view (<[a := consumed d h]> hs) I s' → Q tt s') → wp (consume a d) Q s.
Proof.
  intros Hv Ha Hr Hp HQ. apply wp_bind. eapply (view_add _ _ _ a h (- d)); [done|done|lia|]. intros s1 Hv1.
  apply wp_bind. eapply view_get_heap; [exact Hv1|apply lookup_insert_eq|]. cbn [with_available mh_pool_size mh_available_size mh_max_used_size].
  rewrite (wrap_small 32) by lia. unfold consumed in HQ. destruct (Z.ltb_spec (mh_max_used_size h) (mh_pool_size h - (mh_available_size h + - d))).
  - eapply view_put_heap; [exact Hv1|apply lookup_insert_eq|done|]. intros s2 Hv2. rewrite insert_insert_eq in Hv2. apply HQ.
    rewrite Z.max_r by lia. replace (mh_available_size h - d) with (mh_available_size h + - d) by lia. exact Hv2.
  - apply wp_ret, HQ. rewrite Z.max_l by lia. replace (mh_available_size h - d) with (mh_available_size h + - d) by lia. exact Hv1.
Qed.

(** ** Links *)

Hypothesis A_range : ∀ p, p ∈ A → 0 ≤ p < 2 ^ 32.

Lemma view_ext hs I I' s : (∀ p f, p ∈ A → I' p f = I p f) → view hs I s → view hs I' s.
Proof. intros HI [Hk He Hh Hm Hi Hf]. split; try done. intros p f Hp. by rewrite HI by done; apply Hi. Qed.

Lemma view_unlink hs I s x l1 p l2 (Q : unit → mst → Prop) :
  view hs I s → ring NextFree PrevFree I x (l1 ++ p :: l2) → NoDup (x :: l1 ++ p :: l2) → (∀ z, z ∈ x :: l1 ++ p :: l2 → z ∈ A) →
  (∀ s', view hs (link NextFree PrevFree I (before x l1) (behind x l2)) s' → Q tt s') → wp (unlink_free p) Q s.
Proof.
  intros Hv Hr Hnd HA HQ. destruct (ring_links _ _ I x l1 p l2 Hr) as (E1 & E2 & _ & _). destruct (behind_ne x l1 p l2 Hnd) as [N1 N2].
  assert (p ∈ A) as Hp by (apply HA; set_solver). assert (before x l1 ∈ A) as Hu by (apply HA; pose proof (before_in x l1); set_solver).
  assert (behind x l2 ∈ A) as Hw by (apply HA; pose proof (behind_in x l2); set_solver).
  unfold unlink_free. apply wp_bind. eapply view_rd; [done..|]. apply wp_bind. eapply view_rd; [done..|]. rewrite E1, E2.
  apply wp_bind. eapply view_wr; [done|done|auto|]. intros s1 Hv1.
  apply wp_bind. eapply view_rd; [done..|]. apply wp_bind. eapply view_rd; [done..|].
  rewrite (upd_field _ _ _ _ _ NextFree), upd_addr, E1, E2 by done. eapply view_wr; [done|done|auto|]. exact HQ.
Qed.

Lemma view_insert hs I s a h l p (Q : unit → mst → Prop) :
  let x := mh_free_list h in
  view hs I s → hs !! a = Some h → ring NextFree PrevFree I x l → p ∉ x :: l → (∀ z, z ∈ p :: x :: l → z ∈ A) →
  (∀ s', view hs (put_between NextFree PrevFree I x (behind x l) p) s' → Q tt s') → wp (insert_free a p) Q s.
Proof.
  intros x Hv Ha Hr Hp HA HQ. destruct (ring_head _ _ I x l Hr) as [E1 _].
  assert (p ∈ A) as Hp' by (apply HA; set_solver). assert (x ∈ A) as Hx by (apply HA; set_solver).
  assert (behind x l ∈ A) as Hw by (apply HA; pose proof (behind_in x l); set_solver).
  assert (x ≠ p) as N1 by set_solver. assert (behind x l ≠ p) as N2 by (pose proof (behind_in x l); set_solver).
  unfold insert_free. apply wp_bind. eapply view_get_heap; [done..|]. fold x. apply wp_bind. eapply view_rd; [done..|]. rewrite E1.
  apply wp_bind. eapply view_wr; [done|done|auto|]. intros s1 Hv1. apply wp_bind. eapply view_wr; [done|done|auto|]. intros s2 Hv2.
  apply wp_bind. eapply view_rd; [done..|]. rewrite upd_field, upd_addr, E1 by done.
  apply wp_bind. eapply view_wr; [done|done|auto|]. intros s3 Hv3. eapply view_wr; [done|done|auto|]. intros s4 Hv4. apply HQ.
  eapply view_ext; [|exact Hv4]. intros z f Hz. unfold put_between, upd.
  repeat case_decide; naive_solver.
Qed.

Lemma view_new_item hs I s a x l1 p l2 q (Q : unit → mst → Prop) :
  view hs I s → ring Next Prev I x (l1 ++ p :: l2) → NoDup (x :: l1 ++ p :: l2) → q ∉ x :: l1 ++ p :: l2 →
  (∀ z, z ∈ q :: x :: l1 ++ p :: l2 → z ∈ A) → 0 ≤ a < 2 ^ 32 →
  (∀ s', view hs (put_between Next Prev (upd (upd I q Magic RT_MEMHEAP_MAGIC) q PoolPtr a) p (behind x l2) q) s' → Q tt s') →
  wp (new_item a p q) Q s.
Proof.
  intros Hv Hr Hnd Hq HA Ha HQ. destruct (ring_links _ _ I x l1 p l2 Hr) as (_ & E2 & _ & _).
  assert (p ∈ A) as Hp by (apply HA; set_solver). assert (q ∈ A) as Hq' by (apply HA; set_solver).
  assert (behind x l2 ∈ A) as Hw by (apply HA; pose proof (behind_in x l2); set_solver).
  assert (p ≠ q) as N1 by set_solver. assert (behind x l2 ≠ q) as N2 by (pose proof (behind_in x l2); set_solver).
  unfold new_item.
  apply wp_bind. eapply view_wr; [done|done|by vm_compute|]. intros s1 Hv1. apply wp_bind. eapply view_wr; [done|done|done|]. intros s2 Hv2.
  apply wp_bind. eapply view_wr; [done|done|auto|]. intros s3 Hv3. apply wp_bind. eapply view_rd; [done..|].
  rewrite !(upd_addr _ q) by done. rewrite E2. apply wp_bind. eapply view_wr; [done|done|auto|]. intros s4 Hv4.
  apply wp_bind. eapply view_rd; [done..|]. rewrite !(upd_addr _ q) by done. rewrite E2. apply wp_bind. eapply view_wr; [done|done|auto|]. intros s5 Hv5.
  eapply view_wr; [done|done|auto|]. intros s6 Hv6. by apply HQ.
Qed.
End view.
