(* ===== verification/MemheapInv.v ===== *)
(** The invariant of a memory heap, src/memheap.c: its items cover its memory in order, the
    rings link all items and the free ones, and the count of available memory is the sum of
    the free items. The sections of allocation and release run under the lock keep it. *)

From Stdlib Require Import ZArith Lia.
From stdpp Require Import base numbers option gmap.
From stdpp Require Import list sorting.
From S2P Require Import Prelude.
From S2P Require Import Proc.
From S2P Require Import Bytes.
From S2P Require Import KernelDefs.
From S2P Require Import Scheduler.
From S2P Require Import Object.
From S2P Require Import Timer.
From S2P Require Import Thread.
From S2P Require Import Clock.
From S2P Require Import Ipc.
From S2P Require Import Kstate.
From S2P Require Import Sem.
From S2P Require Import Memheap.
Local Open Scope Z_scope.
Local Open Scope rt_scope.

(** * Heaps *)

(** An item: its address and whether it is in use. The items of a heap lie one behind the
    other; the item [last_item] ends the area and is always in use. *)
Abbreviation block := (Z * bool)%type.
Definition last_item (h : rt_memheap) : Z := mh_start_addr h + mh_pool_size h - RT_MEMHEAP_SIZE.

(** Each address leaves room for a header and the least size before the next. *)
Fixpoint spaced (l : list Z) : Prop :=
  match l with
  | x :: (y :: _) as l' => x + RT_MEMHEAP_SIZE + RT_MEMHEAP_MINIALLOC ≤ y ∧ spaced l'
  | _ => True
  end.

(** The size of the item at [p]: up to the next address of the list. *)
Fixpoint size_at (l : list Z) (p : Z) : Z :=
  match l with
  | x :: (y :: _) as l' => if x =? p then y - x - RT_MEMHEAP_SIZE else size_at l' p
  | _ => 0
  end.

(** The addresses of the free items, and their sizes added up; [e] is behind the last. *)
Definition free_of (bs : list block) : list Z := (filter (λ b, b.2 = false) bs).*1.
Fixpoint available (e : Z) (bs : list block) : Z :=
  match bs with
  | [] => 0
  | (p, u) :: bs' => (if u : bool then 0 else behind e bs'.*1 - p - RT_MEMHEAP_SIZE) + available e bs'
  end.

(** No two free items in a row. *)
Fixpoint merged (bs : list block) : Prop :=
  match bs with
  | (_, u) :: ((_, u') :: _) as bs' => (u = true ∨ u' = true) ∧ merged bs'
  | _ => True
  end.

(** Where the structure at [a] and its memory lie. *)
Record area_ok (a : Z) (h : rt_memheap) : Prop := {
  ao_struct : 0 < a ∧ a + 100 ≤ 2 ^ 32;
  ao_memory : 0 < mh_start_addr h ∧ mh_start_addr h + mh_pool_size h ≤ 2 ^ 32;
  ao_apart : a + 100 ≤ mh_start_addr h ∨ mh_start_addr h + mh_pool_size h ≤ a;
  ao_list : mh_free_list h = free_header a
}.

(** The headers [I] of the heap [h] at [a] describe the items [bs]; [fl] is the order of
    the ring of free items. *)
Record heap_ok (a : Z) (bs : list block) (fl : list Z) (h : rt_memheap) (I : items) : Prop := {
  ho_area : area_ok a h;
  ho_first : head bs.*1 = Some (mh_start_addr h);
  ho_spaced : spaced (bs.*1 ++ [last_item h]);
  ho_ring : ring Next Prev I (last_item h) bs.*1;
  ho_free : ring NextFree PrevFree I (free_header a) fl;
  ho_perm : fl ≡ₚ free_of bs;
  ho_item p u : (p, u) ∈ bs → I p Magic = RT_MEMHEAP_MAGIC + Z.b2z u ∧ I p PoolPtr = a;
  ho_end : I (last_item h) Magic = RT_MEMHEAP_MAGIC + 1;
  ho_merged : merged bs;
  ho_available : mh_available_size h = available (last_item h) bs
}.

(** ** Facts on addresses *)

Lemma spaced_app l1 x l2 : spaced (l1 ++ x :: l2) ↔ spaced (l1 ++ [x]) ∧ spaced (x :: l2).
Proof.
  induction l1 as [|b l1 IH]; [cbn; tauto|]. destruct l1 as [|c l1]; [cbn; tauto|].
  change (spaced ((b :: c :: l1) ++ x :: l2)) with (b + RT_MEMHEAP_SIZE + RT_MEMHEAP_MINIALLOC ≤ c ∧ spaced ((c :: l1) ++ x :: l2)).
  change (spaced ((b :: c :: l1) ++ [x])) with (b + RT_MEMHEAP_SIZE + RT_MEMHEAP_MINIALLOC ≤ c ∧ spaced ((c :: l1) ++ [x])). rewrite IH. tauto.
Qed.

Lemma spaced_cons x y l : spaced (x :: y :: l) ↔ x + RT_MEMHEAP_SIZE + RT_MEMHEAP_MINIALLOC ≤ y ∧ spaced (y :: l).
Proof. done. Qed.

Lemma spaced_head x l : spaced (x :: l) → ∀ y, y ∈ l → x + RT_MEMHEAP_SIZE + RT_MEMHEAP_MINIALLOC ≤ y.
Proof.
  revert x. induction l as [|z l IH]; intros x Hs y Hy; [by apply elem_of_nil in Hy|]. apply spaced_cons in Hs as [H1 H2].
  apply elem_of_cons in Hy as [->|Hy]; [done|]. specialize (IH z H2 y Hy). unfold RT_MEMHEAP_SIZE, RT_MEMHEAP_MINIALLOC in *. lia.
Qed.

Lemma spaced_tail x l : spaced (x :: l) → spaced l.
Proof. destruct l; [done|]. by intros [_ ?]%spaced_cons. Qed.

Lemma spaced_last l x : spaced (l ++ [x]) → ∀ y, y ∈ l → y + RT_MEMHEAP_SIZE + RT_MEMHEAP_MINIALLOC ≤ x.
Proof.
  induction l as [|z l IH]; intros Hs y Hy; [by apply elem_of_nil in Hy|]. apply elem_of_cons in Hy as [->|Hy].
  - apply (spaced_head _ _ Hs). set_solver.
  - by apply IH; [eapply spaced_tail|].
Qed.

Lemma spaced_apart l p q : spaced l → p ∈ l → q ∈ l → p = q ∨ apart p q.
Proof.
  induction l as [|x l IH]; intros Hs Hp Hq; [by apply elem_of_nil in Hp|]. pose proof (spaced_head _ _ Hs) as Hh.
  unfold apart, RT_MEMHEAP_SIZE, RT_MEMHEAP_MINIALLOC in *. apply elem_of_cons in Hp as [->|Hp], Hq as [->|Hq].
  - by left.
  - right. left. specialize (Hh q Hq). lia.
  - right. right. specialize (Hh p Hp). lia.
  - apply IH; [by eapply spaced_tail|done..].
Qed.

Lemma spaced_NoDup l : spaced l → NoDup l.
Proof.
  induction l as [|x l IH]; intros Hs; constructor; [|by eapply IH, spaced_tail].
  intros Hx. pose proof (spaced_head _ _ Hs x Hx). unfold RT_MEMHEAP_SIZE, RT_MEMHEAP_MINIALLOC in *. lia.
Qed.

Lemma size_at_here l1 p l2 e : spaced (l1 ++ p :: l2 ++ [e]) → size_at (l1 ++ p :: l2 ++ [e]) p = behind e l2 - p - RT_MEMHEAP_SIZE.
Proof.
  intros Hs. induction l1 as [|x l1 IH].
  - destruct (behind_split e l2) as [t E]. cbn [app]. rewrite E. cbn. by rewrite Z.eqb_refl.
  - pose proof (spaced_head _ _ Hs p ltac:(set_solver)) as Hx. unfold RT_MEMHEAP_SIZE, RT_MEMHEAP_MINIALLOC in *.
    specialize (IH (spaced_tail _ _ Hs)). rewrite <- IH. cbn [app size_at]. destruct (l1 ++ p :: l2 ++ [e]) eqn:E; [by destruct l1|].
    by rewrite (proj2 (Z.eqb_neq x p)) by lia.
Qed.

Lemma behind_app e l x : behind e (l ++ [x]) = behind x l.
Proof. by destruct l. Qed.
Lemma behind_mid e l1 p l2 : behind e (l1 ++ p :: l2) = behind p l1.
Proof. by destruct l1. Qed.

Lemma available_app e l1 p u l2 :
  available e (l1 ++ (p, u) :: l2) = available p l1 + (if u then 0 else behind e l2.*1 - p - RT_MEMHEAP_SIZE) + available e l2.
Proof.
  induction l1 as [|[x w] l1 IH]; [done|]. cbn [app available]. rewrite IH, fmap_app. cbn [fmap list_fmap]. rewrite behind_mid. cbn [fst]. lia.
Qed.

Lemma available_bounds e bs : spaced (bs.*1 ++ [e]) → 0 ≤ available e bs ∧ (∀ s, head bs.*1 = Some s → available e bs ≤ e - s - RT_MEMHEAP_SIZE).
Proof.
  induction bs as [|[p u] bs IH]; intros Hs; [done|]. cbn [fmap list_fmap fst] in *. destruct IH as [I1 I2]; [by eapply spaced_tail|].
  cbn [available]. pose proof (spaced_head _ _ Hs (behind e bs.*1)) as Hb.
  assert (p + RT_MEMHEAP_SIZE + RT_MEMHEAP_MINIALLOC ≤ behind e bs.*1) as Hb' by (apply Hb; destruct bs; set_solver).
  assert (available e bs ≤ e - behind e bs.*1) as Ha.
  { destruct bs as [|[q w] bs]; [cbn; lia|]. specialize (I2 q eq_refl). change (behind e ((q, w) :: bs).*1) with q.
    unfold RT_MEMHEAP_SIZE in *. lia. }
  unfold RT_MEMHEAP_SIZE, RT_MEMHEAP_MINIALLOC in *. split; [destruct u; lia|]. intros s [= <-]. destruct u; lia.
Qed.

(** ** Headers of a heap *)

#[export] Hint Rewrite put_field using discriminate : memheap.
#[export] Hint Rewrite link_field using discriminate : memheap.

Definition items_of (m : memory) : items := λ p f, load 4 m (p + offset f).

(** The addresses of all headers of the heap. *)
Definition headers (a : Z) (h : rt_memheap) (bs : list block) : list Z := free_header a :: bs.*1 ++ [last_item h].

Section addresses.
Variables (a : Z) (h : rt_memheap) (bs : list block).
Hypothesis Har : area_ok a h.
Hypothesis Hfirst : head bs.*1 = Some (mh_start_addr h).
Hypothesis Hsp : spaced (bs.*1 ++ [last_item h]).

Lemma item_range p : p ∈ bs.*1 ++ [last_item h] → mh_start_addr h ≤ p ≤ last_item h.
Proof.
  intros Hp. destruct bs as [|[s u] bs']; [done|]. cbn in Hfirst. injection Hfirst as ->. cbn [fmap list_fmap fst] in *. split.
  - apply elem_of_cons in Hp as [->|Hp]; [lia|]. pose proof (spaced_head _ _ Hsp p Hp). unfold RT_MEMHEAP_SIZE, RT_MEMHEAP_MINIALLOC in *. lia.
  - apply elem_of_app in Hp as [Hp|Hp%list_elem_of_singleton]; [|lia].
    pose proof (spaced_last _ _ Hsp p Hp). unfold RT_MEMHEAP_SIZE, RT_MEMHEAP_MINIALLOC in *. lia.
Qed.

Lemma headers_apart p q : p ∈ headers a h bs → q ∈ headers a h bs → p = q ∨ apart p q.
Proof.
  assert (∀ p, p ∈ bs.*1 ++ [last_item h] → apart (free_header a) p ∧ apart p (free_header a)) as Ha.
  { intros z Hz%item_range. destruct (ao_apart _ _ Har); unfold apart, free_header, last_item, RT_MEMHEAP_SIZE in *; lia. }
  unfold headers. intros [->|Hp]%elem_of_cons [->|Hq]%elem_of_cons; [by left|right; by apply Ha..|]. by eapply spaced_apart.
Qed.

Lemma headers_range p : p ∈ headers a h bs → 0 < p ∧ p + RT_MEMHEAP_SIZE ≤ 2 ^ 32.
Proof.
  destruct (ao_struct _ _ Har), (ao_memory _ _ Har). unfold headers, free_header. intros [->|Hp%item_range]%elem_of_cons; unfold last_item, RT_MEMHEAP_SIZE in *; lia.
Qed.

Lemma headers_mapped hs h' p : hs !! a = Some h' → same_area h h' → p ∈ headers a h bs → mapped hs p = true.
Proof.
  intros Ha [E1 E2] Hp. unfold mapped. apply existsb_exists. exists (a, h'). split; [by apply list_elem_of_In, elem_of_map_to_list|].
  unfold holds. cbn. rewrite E1, E2. apply orb_true_iff. apply elem_of_cons in Hp as [->|Hp%item_range]; [left; apply Z.eqb_refl|right].
  unfold last_item, RT_MEMHEAP_SIZE in *. apply andb_true_iff. split; apply Z.leb_le; lia.
Qed.

Lemma headers_NoDup : NoDup (headers a h bs).
Proof.
  constructor; [|by apply spaced_NoDup]. intros Hp%item_range. destruct (ao_apart _ _ Har); unfold free_header, last_item, RT_MEMHEAP_SIZE in *; lia.
Qed.

Lemma headers_view s : ms_heaps s !! a = Some h → view (headers a h bs) s (ms_heaps s) (items_of (ms_mem s)) s.
Proof. intros Ha. split; try done. intros p Hp. by eapply headers_mapped. Qed.
End addresses.

(** ** The search *)

Definition pick (n : Z) (L : list Z) (fl : list Z) : option Z := head (filter (λ p, n ≤ size_at L p) fl).

Lemma find_free_run A hs s0 I s F n sz r : ∀ d fs fuel,
  view A s0 hs I s → ring NextFree PrevFree I F (d ++ r) → F ∉ r →
  (∀ p, p ∈ r → p ∈ A ∧ I p Next - p - RT_MEMHEAP_SIZE = sz p ∧ 0 ≤ sz p < 2 ^ 32) → fs < n → (length r + 2 ≤ fuel)%nat →
  wp (find_free fuel F n (behind F r) fs) (λ x s', s' = s ∧
    match head (filter (λ p, n ≤ sz p) r) with Some p => x = (p, sz p) ∧ n ≤ sz p | None => x.2 < n end) s.
Proof.
  induction r as [|p r IH]; intros d fs fuel Hv Hr HF Hsz Hfs Hfuel; (destruct fuel as [|fuel]; [cbn in Hfuel; lia|]); cbn [find_free].
  - cbn [behind head default]. rewrite Z.eqb_refl. by apply wp_ret.
  - change (behind F (p :: r)) with p. destruct (Hsz p ltac:(set_solver)) as (HA & Esz & Hrng). rewrite (proj2 (Z.eqb_neq p F)) by set_solver.
    rewrite (proj2 (Z.ltb_lt fs n)) by lia. cbn [negb andb]. apply wp_bind. eapply view_size; [done|done|]. rewrite Esz, (wrap_small 32) by lia.
    destruct (ring_links _ _ I F d p r Hr) as (_ & E2 & _ & _). rewrite filter_cons. destruct (Z.ltb_spec (sz p) n) as [Hlt|Hge].
    + rewrite decide_False by lia. apply wp_bind. eapply view_rd; [done..|]. rewrite E2. apply (IH (d ++ [p])); try done.
      * by rewrite <- (assoc_L (++)).
      * set_solver.
      * intros z Hz. apply Hsz. set_solver.
      * cbn in Hfuel. lia.
    + rewrite decide_True by lia. destruct fuel as [|fuel]; [cbn in Hfuel; lia|]. cbn [find_free].
      rewrite (proj2 (Z.ltb_ge (sz p) n)), andb_false_r by lia. by apply wp_ret.
Qed.

Lemma elem_of_split_block (bs : list block) p : p ∈ bs.*1 → ∃ u l1 l2, bs = l1 ++ (p, u) :: l2.
Proof.
  intros ([q u] & -> & Hin)%list_elem_of_fmap. apply list_elem_of_split in Hin as (l1 & l2 & ->). by exists u, l1, l2.
Qed.

Lemma free_of_app l1 l2 : free_of (l1 ++ l2) = free_of l1 ++ free_of l2.
Proof. unfold free_of. by rewrite filter_app, fmap_app. Qed.
Lemma free_of_cons p u l : free_of ((p, u) :: l) = (if u then [] else [p]) ++ free_of l.
Proof. unfold free_of. rewrite filter_cons. by destruct u. Qed.
Lemma free_of_elem bs p : p ∈ free_of bs ↔ (p, false) ∈ bs.
Proof.
  unfold free_of. rewrite list_elem_of_fmap. split.
  - intros ([q u] & -> & [Hu Hin]%list_elem_of_filter). cbn in Hu. by subst.
  - intros Hin. exists (p, false). split; [done|]. by apply list_elem_of_filter.
Qed.

Lemma free_of_NoDup bs : NoDup bs.*1 → NoDup (free_of bs).
Proof.
  induction bs as [|[p u] bs IH]; [constructor|]. cbn [fmap list_fmap fst]. intros [Hp Hnd]%NoDup_cons. rewrite free_of_cons.
  destruct u; [by apply IH|]. constructor; [|by apply IH]. rewrite free_of_elem. intros Hin. apply Hp, list_elem_of_fmap. by exists (p, false).
Qed.

Lemma spaced_length l e s : spaced (l ++ [e]) → head l = Some s → 36 * Z.of_nat (length l) ≤ e - s.
Proof.
  revert s. induction l as [|x l IH]; intros s Hs Hh; [done|]. injection Hh as ->. destruct l as [|y l].
  - cbn in *. unfold RT_MEMHEAP_SIZE, RT_MEMHEAP_MINIALLOC in *. lia.
  - cbn [app] in Hs. apply spaced_cons in Hs as [H1 H2]. specialize (IH y H2 eq_refl). cbn [length] in *. unfold RT_MEMHEAP_SIZE, RT_MEMHEAP_MINIALLOC in *. lia.
Qed.

Section ok.
Variables (a : Z) (bs : list block) (fl : list Z) (h : rt_memheap) (I : items).
Hypothesis Hok : heap_ok a bs fl h I.
Let E := last_item h.

Lemma ok_spaced l1 p u l2 : bs = l1 ++ (p, u) :: l2 → spaced (l1.*1 ++ p :: l2.*1 ++ [E]).
Proof. intros ->. pose proof (ho_spaced _ _ _ _ _ Hok) as Hs. rewrite fmap_app in Hs. cbn in Hs. by rewrite <- (assoc_L (++)) in Hs. Qed.

Lemma ok_next l1 p u l2 : bs = l1 ++ (p, u) :: l2 → I p Next = behind E l2.*1 ∧ I p Prev = before E l1.*1.
Proof.
  intros Eb. pose proof (ho_ring _ _ _ _ _ Hok) as Hr. rewrite Eb, fmap_app in Hr. cbn in Hr. by destruct (ring_links _ _ I E _ p _ Hr) as (? & ? & _).
Qed.

Lemma ok_size p : p ∈ bs.*1 → I p Next - p - RT_MEMHEAP_SIZE = size_at (bs.*1 ++ [E]) p ∧ RT_MEMHEAP_MINIALLOC ≤ size_at (bs.*1 ++ [E]) p < 2 ^ 32.
Proof.
  intros Hp. destruct (elem_of_split_block bs p Hp) as (u & l1 & l2 & Eb). destruct (ok_next _ _ _ _ Eb) as [-> _].
  pose proof (ok_spaced _ _ _ _ Eb) as Hs.
  assert (size_at (bs.*1 ++ [E]) p = behind E l2.*1 - p - RT_MEMHEAP_SIZE) as ->.
  { rewrite Eb, fmap_app. cbn [fmap list_fmap fst]. rewrite <- !(assoc_L (++)). cbn [app]. by apply size_at_here. }
  split; [done|]. apply spaced_app in Hs as [_ Hs].
  pose proof (spaced_head _ _ Hs (behind E l2.*1)) as Hb. destruct (behind_split E l2.*1) as [t Et]. rewrite Et in Hb. specialize (Hb ltac:(set_solver)).
  pose proof (headers_range a h bs (ho_area _ _ _ _ _ Hok) (ho_first _ _ _ _ _ Hok) (ho_spaced _ _ _ _ _ Hok)) as Hrng.
  pose proof (Hrng p) as R1. pose proof (Hrng (behind E l2.*1)) as R2. unfold headers in *.
  assert (behind E l2.*1 ∈ bs.*1 ++ [E]) as Hin by (rewrite Eb, fmap_app; cbn; pose proof (behind_in E l2.*1); set_solver).
  specialize (R1 ltac:(set_solver)). specialize (R2 ltac:(set_solver)). unfold RT_MEMHEAP_SIZE, RT_MEMHEAP_MINIALLOC in *. lia.
Qed.

Lemma ok_free p : p ∈ fl → p ∈ bs.*1 ∧ ∃ l1 l2, bs = l1 ++ (p, false) :: l2.
Proof.
  intros Hp. rewrite (ho_perm _ _ _ _ _ Hok) in Hp. apply free_of_elem in Hp. split; [apply list_elem_of_fmap; by exists (p, false)|].
  apply list_elem_of_split in Hp as (l1 & l2 & ->). by exists l1, l2.
Qed.

Lemma ok_nodup : NoDup (E :: bs.*1) ∧ NoDup (free_header a :: fl).
Proof.
  pose proof (headers_NoDup a h bs (ho_area _ _ _ _ _ Hok) (ho_first _ _ _ _ _ Hok) (ho_spaced _ _ _ _ _ Hok)) as Hnd.
  unfold headers in Hnd. fold E in Hnd. apply NoDup_cons in Hnd as [HF Hnd]. apply NoDup_app in Hnd as (Hn1 & Hn2 & _).
  split; [constructor; [|done]; intros HE; specialize (Hn2 E HE); set_solver|]. constructor.
  - intros [HF' _]%ok_free. set_solver.
  - rewrite (ho_perm _ _ _ _ _ Hok). by apply free_of_NoDup.
Qed.

Lemma ok_fuel : (length fl + 2 ≤ ring_fuel h)%nat.
Proof.
  pose proof (spaced_length _ _ _ (ho_spaced _ _ _ _ _ Hok) (ho_first _ _ _ _ _ Hok)) as Hl. rewrite length_fmap in Hl.
  rewrite (ho_perm _ _ _ _ _ Hok). unfold free_of. rewrite length_fmap. pose proof (length_filter (λ b : block, b.2 = false) bs).
  unfold ring_fuel, last_item, RT_MEMHEAP_SIZE in *. lia.
Qed.

Lemma ok_header z : z ∈ E :: bs.*1 ∨ z ∈ free_header a :: fl → z ∈ headers a h bs.
Proof.
  unfold headers. fold E. intros [Hz|Hz]; [set_solver|]. apply elem_of_cons in Hz as [->|[Hz _]%ok_free]; set_solver.
Qed.
End ok.

(** ** Steps of a heap *)

(** What an operation on the heap at [a] leaves: items [bs'], and memory changed in
    headers only. *)
Record heap_step (a : Z) (h : rt_memheap) (bs bs' : list block) (fl' : list Z) (s : mst) (h' : rt_memheap) (s' : mst) : Prop := {
  st_kernel : ms_k s' = ms_k s;
  st_err : ms_errno s' = ms_errno s;
  st_heaps : ms_heaps s' = <[a := h']> (ms_heaps s);
  st_area : same_area h h';
  st_ok : heap_ok a bs' fl' h' (items_of (ms_mem s'));
  st_frame i : (∀ p, p ∈ headers a h bs ++ headers a h bs' → i < p ∨ p + RT_MEMHEAP_SIZE ≤ i) → ms_mem s' i = ms_mem s i
}.

Lemma last_item_same h h' : same_area h h' → last_item h' = last_item h.
Proof. intros [E1 E2]. unfold last_item. by rewrite E1, E2. Qed.

Lemma area_ok_same a h h' : same_area h h' → mh_free_list h' = mh_free_list h → area_ok a h → area_ok a h'.
Proof. intros [E1 E2] E3 [H1 H2 H3 H4]. split; rewrite ?E1, ?E2, ?E3; done. Qed.

Lemma heap_ok_ext a bs fl h I I' : (∀ z f, z ∈ headers a h bs → I' z f = I z f) → heap_ok a bs fl h I → heap_ok a bs fl h I'.
Proof.
  intros HI Hok. pose proof (ok_header a bs fl h I Hok) as Hh. destruct Hok as [H1 H2 H3 H4 H5 H6 H7 H8 H9 H10]. split; try done.
  - eapply ring_ext; [done| |exact H4]. intros z Hz. by rewrite !HI by auto.
  - eapply ring_ext; [done| |exact H5]. intros z Hz. by rewrite !HI by auto.
  - intros p u Hin. rewrite !HI; [by apply H7|apply Hh; left; right; apply list_elem_of_fmap; by exists (p, u)..].
  - rewrite HI; [done|]. apply Hh. left. by left.
Qed.

Lemma view_step A a h h' bs bs' fl' I s s' :
  view A s (<[a := h']> (ms_heaps s)) I s' → same_area h h' →
  (∀ p, p ∈ A → p ∈ headers a h bs ++ headers a h bs') → (∀ p, p ∈ headers a h bs' → p ∈ A) →
  heap_ok a bs' fl' h' I → heap_step a h bs bs' fl' s h' s'.
Proof.
  intros [Hk He Hh Hm Hi Hf] Hs HA1 HA2 Hok. split; try done.
  - eapply heap_ok_ext; [|exact Hok]. intros z f Hz. apply Hi, HA2. unfold headers in *. by rewrite (last_item_same h h') in Hz.
  - intros i Hout. apply Hf. intros p Hp. by apply Hout, HA1.
Qed.

Lemma merged_app l1 b l2 : merged (l1 ++ b :: l2) ↔ merged (l1 ++ [b]) ∧ merged (b :: l2).
Proof.
  induction l1 as [|[x u] l1 IH]; [destruct b; cbn; tauto|]. destruct l1 as [|[y w] l1].
  - destruct b as [p v], l2 as [|[q z] l2]; cbn; tauto.
  - change (merged (((x, u) :: (y, w) :: l1) ++ b :: l2)) with ((u = true ∨ w = true) ∧ merged (((y, w) :: l1) ++ b :: l2)).
    change (merged (((x, u) :: (y, w) :: l1) ++ [b])) with ((u = true ∨ w = true) ∧ merged (((y, w) :: l1) ++ [b])). rewrite IH. tauto.
Qed.

(** An item in use has any neighbours. *)
Lemma merged_used_left l1 b p : merged (l1 ++ [b]) → merged (l1 ++ [(p, true)]).
Proof.
  induction l1 as [|[x u] l1 IH]; [done|]. destruct l1 as [|[y w] l1]; [cbn; tauto|].
  change (merged (((x, u) :: (y, w) :: l1) ++ [b])) with ((u = true ∨ w = true) ∧ merged (((y, w) :: l1) ++ [b])).
  change (merged (((x, u) :: (y, w) :: l1) ++ [(p, true)])) with ((u = true ∨ w = true) ∧ merged (((y, w) :: l1) ++ [(p, true)])). tauto.
Qed.
Lemma merged_used_right b p l2 : merged (b :: l2) → merged ((p, true) :: l2).
Proof. destruct b as [x y], l2 as [|[q w] l2]; cbn; tauto. Qed.
Lemma merged_addr p q u l2 : merged ((p, u) :: l2) → merged ((q, u) :: l2).
Proof. done. Qed.

(** ** Allocation *)

Lemma magic_mark : Z.lor RT_MEMHEAP_MAGIC RT_MEMHEAP_USED = RT_MEMHEAP_MAGIC + 1.
Proof. done. Qed.

Section alloc.
Variables (a : Z) (l1 l2 : list block) (p : Z) (f1 f2 : list Z) (h : rt_memheap) (I : items).
Hypothesis Hok : heap_ok a (l1 ++ (p, false) :: l2) (f1 ++ p :: f2) h I.
Let E := last_item h.
Let F := free_header a.

Lemma alloc_whole_ok I' h' :
  same_area h h' → mh_free_list h' = mh_free_list h → mh_available_size h' = mh_available_size h - (behind E l2.*1 - p - RT_MEMHEAP_SIZE) →
  (∀ z, I' z Next = I z Next ∧ I' z Prev = I z Prev ∧ I' z PoolPtr = I z PoolPtr ∧ I' z Magic = if decide (z = p) then RT_MEMHEAP_MAGIC + 1 else I z Magic) →
  ring NextFree PrevFree I' F (f1 ++ f2) → heap_ok a (l1 ++ (p, true) :: l2) (f1 ++ f2) h' I'.
Proof.
  intros Hs Hfl Hav HI Hr. pose proof (ok_nodup _ _ _ _ _ Hok) as [Hnd _]. fold E in Hnd. destruct Hok as [H1 H2 H3 H4 H5 H6 H7 H8 H9 H10].
  rewrite fmap_app in *. cbn [fmap list_fmap fst] in *.
  pose proof (last_item_same h h' Hs) as El. split; rewrite ?El, ?fmap_app; cbn [fmap list_fmap fst]; fold E.
  - by eapply area_ok_same.
  - destruct Hs as [-> _]. exact H2.
  - exact H3.
  - eapply ring_ext; [done| |exact H4]. intros z _. destruct (HI z) as (-> & -> & _). done.
  - exact Hr.
  - rewrite free_of_app, free_of_cons in *. cbn [app] in *. apply (Permutation_cons_inv (a := p)).
    by rewrite Permutation_middle, H6, Permutation_middle.
  - intros z u Hz. destruct (HI z) as (_ & _ & -> & ->). apply elem_of_app in Hz as [Hz|[[= -> ->]|Hz]%elem_of_cons].
    + destruct (H7 z u ltac:(set_solver)) as [E1 E2]. rewrite decide_False; [done|]. intros ->. apply NoDup_cons in Hnd as [_ Hnd].
      apply NoDup_app in Hnd as (_ & Hnd & _). apply (Hnd p); [apply list_elem_of_fmap; by exists (p, u)|by left].
    + rewrite decide_True by done. split; [done|]. by apply (H7 p false ltac:(set_solver)).
    + destruct (H7 z u ltac:(set_solver)) as [E1 E2]. rewrite decide_False; [done|]. intros ->. apply NoDup_cons in Hnd as [_ Hnd].
      apply NoDup_app in Hnd as (_ & _ & [Hnd _]%NoDup_cons). apply Hnd, list_elem_of_fmap. by exists (p, u).
  - destruct (HI E) as (_ & _ & _ & ->). rewrite decide_False; [done|]. intros ->. apply NoDup_cons in Hnd as [Hnd _]. set_solver.
  - rewrite merged_app in *. destruct H9 as [M1 M2]. split; [by eapply merged_used_left|by eapply merged_used_right].
  - rewrite Hav, H10, !available_app. fold E. lia.
Qed.

Lemma alloc_split_ok I' h' q :
  same_area h h' → mh_free_list h' = mh_free_list h → mh_available_size h' = mh_available_size h - (q - p) →
  p + RT_MEMHEAP_SIZE + RT_MEMHEAP_MINIALLOC ≤ q → q + RT_MEMHEAP_SIZE + RT_MEMHEAP_MINIALLOC ≤ behind E l2.*1 →
  (∀ z, I' z PoolPtr = (if decide (z = q) then a else I z PoolPtr) ∧
        I' z Magic = if decide (z = p) then RT_MEMHEAP_MAGIC + 1 else if decide (z = q) then RT_MEMHEAP_MAGIC else I z Magic) →
  ring Next Prev I' E (l1.*1 ++ p :: q :: l2.*1) → ring NextFree PrevFree I' F (q :: f1 ++ f2) →
  heap_ok a (l1 ++ (p, true) :: (q, false) :: l2) (q :: f1 ++ f2) h' I'.
Proof.
  intros Hs Hfl Hav Hpq Hqw HI Hr1 Hr2. destruct Hok as [H1 H2 H3 H4 H5 H6 H7 H8 H9 H10].
  assert (spaced (l1.*1 ++ p :: q :: l2.*1 ++ [E])) as Hsp.
  { rewrite fmap_app in H3. cbn in H3. rewrite <- (assoc_L (++)) in H3. apply spaced_app in H3 as [S1 S2]. apply spaced_app. split; [done|].
    rewrite spaced_cons. split; [done|]. destruct (behind_split E l2.*1) as [t Et]. change (spaced (p :: l2.*1 ++ [E])) in S2.
    rewrite Et in S2 |- *. apply spaced_cons in S2 as [_ S2]. by apply spaced_cons. }
  pose proof (spaced_NoDup _ Hsp) as Hnd. apply NoDup_app in Hnd as (_ & N1 & [N2 N3]%NoDup_cons). apply NoDup_cons in N3 as [N3 _].
  assert (∀ z u, (z, u) ∈ l1 ++ l2 → z ≠ p ∧ z ≠ q) as Hne.
  { intros z u Hz. assert (z ∈ l1.*1 ∨ z ∈ l2.*1) as Hz' by (rewrite !list_elem_of_fmap; apply elem_of_app in Hz as [Hz|Hz]; [left|right]; by exists (z, u)).
    destruct Hz' as [Hz'|Hz']; [specialize (N1 z Hz'); set_solver|]. split; intros ->; set_solver. }
  assert (p ≠ q) as Npq by (unfold RT_MEMHEAP_SIZE, RT_MEMHEAP_MINIALLOC in *; lia).
  assert (E ≠ p ∧ E ≠ q) as [NE1 NE2] by (split; intros EE; [apply N2|apply N3]; rewrite <- EE, ?elem_of_cons, elem_of_app, elem_of_cons; tauto).
  assert (∀ z u, (z, u) ∈ l1 ++ l2 → (z, u) ∈ l1 ++ (p, false) :: l2) as Hold
    by (intros z u; rewrite !elem_of_app, elem_of_cons; tauto).
  clear N1 N2 N3. pose proof (last_item_same h h' Hs) as El. split; rewrite ?El, ?fmap_app; cbn [fmap list_fmap fst]; fold E.
  - by eapply area_ok_same.
  - destruct Hs as [-> _]. rewrite fmap_app in H2. by destruct l1.
  - by rewrite <- (assoc_L (++)).
  - exact Hr1.
  - exact Hr2.
  - rewrite free_of_app, !free_of_cons in *. cbn [app] in *. rewrite <- Permutation_middle. constructor.
    apply (Permutation_cons_inv (a := p)). by rewrite Permutation_middle, H6, Permutation_middle.
  - intros z u Hz. destruct (HI z) as [-> ->]. rewrite elem_of_app, !elem_of_cons in Hz.
    assert ((z, u) ∈ l1 ++ l2 ∨ (z, u) = (p, true) ∨ (z, u) = (q, false)) as [Hz'|[[= -> ->]|[= -> ->]]] by (rewrite elem_of_app; tauto).
    + destruct (Hne z u Hz'). rewrite !decide_False by done. by apply H7, Hold.
    + rewrite !(decide_False (P := p = q)), decide_True by done. split; [done|]. apply (H7 p false). rewrite elem_of_app, elem_of_cons. tauto.
    + rewrite !(decide_True (P := q = q)), (decide_False (P := q = p)) by done. done.
  - destruct (HI E) as [_ ->]. by rewrite !decide_False.
  - rewrite merged_app in *. destruct H9 as [M1 M2]. split; [by eapply merged_used_left|]. split; [by left|]. exact M2.
  - rewrite Hav, H10, !available_app. cbn [available]. fold E. unfold RT_MEMHEAP_SIZE. lia.
Qed.
End alloc.

(** The items and the free ring after [n] bytes of the free item [p] were taken; [w] is
    behind it. *)
Definition splits (n p w : Z) : bool := n + RT_MEMHEAP_SIZE + RT_MEMHEAP_MINIALLOC <=? w - p - RT_MEMHEAP_SIZE.
Definition rest (n p w : Z) : list Z := if splits n p w then [p + n + RT_MEMHEAP_SIZE] else [].
Definition cost (n p w : Z) : Z := if splits n p w then n + RT_MEMHEAP_SIZE else w - p - RT_MEMHEAP_SIZE.

Lemma view_take hs s0 A (A_apart : ∀ p q, p ∈ A → q ∈ A → p = q ∨ apart p q) (A_range : ∀ p, p ∈ A → 0 ≤ p < 2 ^ 32) I s x l1 p l2 (Q : unit → mst → Prop) :
  view A s0 hs I s → ring NextFree PrevFree I x (l1 ++ p :: l2) → NoDup (x :: l1 ++ p :: l2) → (∀ z, z ∈ x :: l1 ++ p :: l2 → z ∈ A) →
  (∀ s' I', view A s0 hs I' s' → ring NextFree PrevFree I' x (l1 ++ l2) → (∀ z f, f ≠ NextFree → f ≠ PrevFree → I' z f = I z f) → Q tt s') →
  wp (take_free p) Q s.
Proof.
  intros Hv Hr Hnd HA HQ. apply wp_bind. eapply (view_unlink A A_apart s0 A_range); [done..|]. intros s1 Hv1.
  assert (p ∈ A) as Hp by (apply HA; set_solver). apply wp_bind. eapply view_wr; [done|done|done|done|]. intros s2 Hv2.
  eapply view_wr; [done|done|done|done|]. intros s3 Hv3. eapply HQ; [exact Hv3| |].
  - pose proof (ring_remove NextFree PrevFree ltac:(done) I x l1 p l2 Hnd Hr) as Hr'. eapply ring_ext; [done| |exact Hr'].
    intros z Hz. rewrite !upd_addr; [done|..]; intros ->; apply NoDup_cons in Hnd as [N1 Hnd]; apply NoDup_app in Hnd as (_ & N2 & [N3 _]%NoDup_cons); set_solver.
  - intros z f N1 N2. by rewrite !upd_field, link_field by done.
Qed.

Section carve.
Variables (a : Z) (l1 l2 : list block) (p : Z) (f1 f2 : list Z) (h : rt_memheap) (s : mst) (n : Z).
Hypothesis Ha : ms_heaps s !! a = Some h.
Let E := last_item h.
Let F := free_header a.
Let w := behind E l2.*1.
Let bs := l1 ++ (p, false) :: l2.
Let I := items_of (ms_mem s).
Hypothesis Hok : heap_ok a bs (f1 ++ p :: f2) h I.
Hypothesis Hn : RT_MEMHEAP_MINIALLOC ≤ n ≤ w - p - RT_MEMHEAP_SIZE.

Lemma carve_ranges :
  0 < p ∧ p < w ∧ w + RT_MEMHEAP_SIZE ≤ 2 ^ 32 ∧ w - p - RT_MEMHEAP_SIZE ≤ mh_available_size h ∧ mh_available_size h + RT_MEMHEAP_SIZE ≤ mh_pool_size h < 2 ^ 32.
Proof.
  pose proof (ho_area _ _ _ _ _ Hok) as Har. pose proof (ho_spaced _ _ _ _ _ Hok) as Hsp. pose proof (ho_first _ _ _ _ _ Hok) as Hfi.
  pose proof (headers_range a h bs Har Hfi Hsp) as Hr. assert (p ∈ bs.*1) as Hp by (unfold bs; rewrite fmap_app, elem_of_app; cbn; rewrite elem_of_cons; tauto).
  pose proof (ok_size _ _ _ _ _ Hok p Hp) as [Es Hs]. destruct (ok_next _ _ _ _ _ Hok l1 p false l2 eq_refl) as [En _]. fold E w in En, Es, Hs. rewrite En in Es.
  assert (w ∈ headers a h bs) as Hw.
  { unfold headers, bs. rewrite fmap_app. cbn. pose proof (behind_in E l2.*1) as Hb. fold w in Hb. fold E. rewrite elem_of_cons, !elem_of_app, elem_of_cons. set_solver. }
  destruct (Hr p) as [Hp0 _]; [unfold headers; rewrite elem_of_cons, elem_of_app; tauto|]. destruct (Hr w Hw) as [_ Hw2].
  rewrite (ho_available _ _ _ _ _ Hok). fold E. destruct (available_bounds E bs Hsp) as [_ Hav]. specialize (Hav _ Hfi).
  assert (available E bs = available p l1 + (w - p - RT_MEMHEAP_SIZE) + available E l2) as Eav by apply available_app.
  assert (E = mh_start_addr h + mh_pool_size h - RT_MEMHEAP_SIZE) as HE by done.
  pose proof (ok_spaced _ _ _ _ _ Hok l1 p false l2 eq_refl) as Hs2. apply spaced_app in Hs2 as [S1 S2]. apply spaced_tail in S2.
  destruct (available_bounds p l1 S1) as [A1 _]. destruct (available_bounds E l2 S2) as [A2 _].
  destruct (ao_memory _ _ Har). unfold RT_MEMHEAP_SIZE, RT_MEMHEAP_MINIALLOC in *. lia.
Qed.

(** The free item is used as a whole. *)
Lemma carve_whole_run (Q : unit → mst → Prop) :
  splits n p w = false →
  (∀ s', heap_step a h bs (l1 ++ (p, true) :: l2) (f1 ++ f2) s (consumed (w - p - RT_MEMHEAP_SIZE) h) s' → Q tt s') →
  wp (carve a n p (w - p - RT_MEMHEAP_SIZE) ;; mark_used p) Q s.
Proof.
  intros Hsp HQ. pose proof carve_ranges as (R1 & R2 & R3 & R4 & R5). unfold splits in Hsp. apply Z.leb_gt in Hsp.
  pose proof (headers_view a h bs (ho_first _ _ _ _ _ Hok) (ho_spaced _ _ _ _ _ Hok) s Ha) as Hv. fold I in Hv.
  pose proof (ok_header _ _ _ _ _ Hok) as Hh. destruct (ok_nodup _ _ _ _ _ Hok) as [Nb Nf]. fold E F in Hh, Nb, Nf.
  pose proof (headers_apart a h bs (ho_area _ _ _ _ _ Hok) (ho_first _ _ _ _ _ Hok) (ho_spaced _ _ _ _ _ Hok)) as Hap.
  assert (∀ z, z ∈ headers a h bs → 0 ≤ z < 2 ^ 32) as Hrg.
  { intros z Hz. pose proof (headers_range a h bs (ho_area _ _ _ _ _ Hok) (ho_first _ _ _ _ _ Hok) (ho_spaced _ _ _ _ _ Hok) z Hz). unfold RT_MEMHEAP_SIZE in *. lia. }
  assert (p ∈ headers a h bs) as Hp by (apply Hh; right; rewrite elem_of_cons, elem_of_app, elem_of_cons; tauto).
  apply wp_bind. unfold carve. rewrite (wrap_small 32) by (unfold RT_MEMHEAP_SIZE, RT_MEMHEAP_MINIALLOC in *; lia).
  rewrite (proj2 (Z.leb_gt _ _)) by done. apply wp_bind. eapply view_consume; [exact Hv|done|unfold RT_MEMHEAP_SIZE in *; lia|lia|]. intros s1 Hv1.
  eapply (view_take _ _ _ Hap Hrg); [exact Hv1|apply Hok|exact Nf|intros z Hz; apply Hh; by right|]. intros s2 I2 Hv2 Hr2 HI2.
  destruct (ho_item _ _ _ _ _ Hok p false) as [Em _]; [unfold bs; rewrite elem_of_app, elem_of_cons; tauto|].
  apply wp_bind. eapply view_rd; [exact Hv2|done|]. rewrite HI2, Em, Z.add_0_r, magic_mark by done.
  eapply view_wr; [done|exact Hv2|done|by vm_compute|]. intros s3 Hv3. apply HQ. eapply view_step; [exact Hv3|done|intros z Hz; apply elem_of_app; by left| |].
  - intros z Hz. unfold headers, bs in *. rewrite fmap_app in *. exact Hz.
  - eapply alloc_whole_ok; [exact Hok|done|done|done| |].
    + intros z. rewrite !upd_field by done. rewrite !HI2 by done. split_and!; try done. unfold upd. destruct (decide (z = p)) as [->|Hz]; [by rewrite decide_True|].
      rewrite decide_False by tauto. by apply HI2.
    + eapply ring_ext; [done| |exact Hr2]. intros z Hz. by rewrite !upd_field by done.
Qed.

(** The item is split. *)
Lemma split_spaced q :
  p + RT_MEMHEAP_SIZE + RT_MEMHEAP_MINIALLOC ≤ q → q + RT_MEMHEAP_SIZE + RT_MEMHEAP_MINIALLOC ≤ w → ∀ u,
  spaced ((l1 ++ (p, u) :: (q, false) :: l2).*1 ++ [E]) ∧ head (l1 ++ (p, u) :: (q, false) :: l2).*1 = Some (mh_start_addr h) ∧ q ∉ headers a h bs.
Proof.
  intros Hpq Hqw u. pose proof (ok_spaced _ _ _ _ _ Hok l1 p false l2 eq_refl) as H3. apply spaced_app in H3 as [S1 S2]. fold E in S2.
  destruct (behind_split E l2.*1) as [t Et]. rewrite Et in S2. apply spaced_cons in S2 as [_ S2]. fold w in S2, Et.
  assert (spaced (l1.*1 ++ p :: q :: l2.*1 ++ [E])) as Hsp.
  { apply spaced_app. split; [done|]. rewrite spaced_cons. split; [done|]. rewrite Et. by apply spaced_cons. }
  rewrite fmap_app. cbn [fmap list_fmap fst]. split_and!.
  - by rewrite <- (assoc_L (++)).
  - pose proof (ho_first _ _ _ _ _ Hok) as Hf. unfold bs in Hf. rewrite fmap_app in Hf. by destruct l1.
  - pose proof (spaced_NoDup _ Hsp) as Hnd. apply NoDup_app in Hnd as (_ & N1 & [N2 N3]%NoDup_cons). apply NoDup_cons in N3 as [N3 _].
    unfold headers, bs. rewrite fmap_app. cbn [fmap list_fmap fst]. fold E.
    assert (q ≠ free_header a) as NF.
    { intros EF. pose proof (carve_ranges) as (_ & _ & _ & _ & _). destruct (item_range h bs (ho_first _ _ _ _ _ Hok) (ho_spaced _ _ _ _ _ Hok) p) as [B1 _].
      { unfold bs. rewrite fmap_app, !elem_of_app. cbn. rewrite elem_of_cons. tauto. }
      destruct (item_range h bs (ho_first _ _ _ _ _ Hok) (ho_spaced _ _ _ _ _ Hok) w) as [_ B2].
      { unfold bs. rewrite fmap_app. cbn. fold E. pose proof (behind_in E l2.*1) as Hb. fold w in Hb. set_solver. }
      pose proof (ao_apart _ _ (ho_area _ _ _ _ _ Hok)). unfold free_header, last_item, RT_MEMHEAP_SIZE, RT_MEMHEAP_MINIALLOC in *. lia. }
    rewrite elem_of_cons, !elem_of_app, elem_of_cons. intros [|[[Hq|[Hq|Hq]]|Hq]]; [done|..].
    + apply (N1 q Hq). rewrite !elem_of_cons. tauto.
    + unfold RT_MEMHEAP_SIZE, RT_MEMHEAP_MINIALLOC in *. lia.
    + apply N3. rewrite elem_of_app. tauto.
    + apply N3. rewrite elem_of_app. tauto.
Qed.

Lemma carve_split_run (Q : unit → mst → Prop) :
  let q := p + n + RT_MEMHEAP_SIZE in
  splits n p w = true →
  (∀ s', heap_step a h bs (l1 ++ (p, true) :: (q, false) :: l2) (q :: f1 ++ f2) s (consumed (n + RT_MEMHEAP_SIZE) h) s' → Q tt s') →
  wp (carve a n p (w - p - RT_MEMHEAP_SIZE) ;; mark_used p) Q s.
Proof.
  intros q Hsp HQ. pose proof carve_ranges as (R1 & R2 & R3 & R4 & R5). unfold splits in Hsp. apply Z.leb_le in Hsp.
  assert (p + RT_MEMHEAP_SIZE + RT_MEMHEAP_MINIALLOC ≤ q) as Hpq by (unfold q, RT_MEMHEAP_SIZE, RT_MEMHEAP_MINIALLOC in *; lia).
  assert (q + RT_MEMHEAP_SIZE + RT_MEMHEAP_MINIALLOC ≤ w) as Hqw by (unfold q, RT_MEMHEAP_SIZE, RT_MEMHEAP_MINIALLOC in *; lia).
  destruct (split_spaced q Hpq Hqw true) as (Hsp' & Hfi' & Hq). set (bs' := l1 ++ (p, true) :: (q, false) :: l2) in *.
  pose proof (ho_area _ _ _ _ _ Hok) as Har. pose proof (headers_view a h bs' Hfi' Hsp' s Ha) as Hv. fold I in Hv.
  pose proof (headers_apart a h bs' Har Hfi' Hsp') as Hap.
  assert (∀ z, z ∈ headers a h bs' → 0 ≤ z < 2 ^ 32) as Hrg.
  { intros z Hz. pose proof (headers_range a h bs' Har Hfi' Hsp' z Hz). unfold RT_MEMHEAP_SIZE in *. lia. }
  assert (∀ z, z ∈ headers a h bs' ↔ z ∈ headers a h bs ∨ z = q) as Hin.
  { intros z. unfold headers, bs, bs'. rewrite !fmap_app. cbn [fmap list_fmap fst]. rewrite !elem_of_cons, !elem_of_app, !elem_of_cons. tauto. }
  pose proof (ok_header _ _ _ _ _ Hok) as Hh. destruct (ok_nodup _ _ _ _ _ Hok) as [Nb Nf]. fold E F in Hh, Nb, Nf.
  assert (q ∈ headers a h bs') as Hq' by (apply Hin; tauto). assert (p ∈ headers a h bs) as Hp by (apply Hh; right; rewrite elem_of_cons, elem_of_app, elem_of_cons; tauto).
  assert (p ≠ q) as Npq by (intros EE; apply Hq; by rewrite <- EE). pose proof (ho_ring _ _ _ _ _ Hok) as Hrb. unfold bs in Hrb, Nb. rewrite fmap_app in Hrb, Nb. cbn [fmap list_fmap fst] in Hrb, Nb. fold E in Hrb.
  assert (q ∉ E :: l1.*1 ++ p :: l2.*1) as Nq by (intros Hx; apply Hq, Hh; left; unfold bs; by rewrite fmap_app).
  assert (q ∉ F :: f1 ++ p :: f2) as NqF by (intros Hx; apply Hq, Hh; by right).
  assert (q ∉ F :: f1 ++ f2) as NqF' by (rewrite elem_of_cons, elem_of_app, elem_of_cons in NqF; rewrite elem_of_cons, elem_of_app; tauto).
  apply wp_bind. unfold carve. rewrite !(wrap_small 32) by (unfold RT_MEMHEAP_SIZE, RT_MEMHEAP_MINIALLOC in *; lia). fold q.
  rewrite (proj2 (Z.leb_le _ _)) by done. apply wp_bind.
  eapply (view_new_item _ Hap s Hrg); [exact Hv|exact Hrb|exact Nb|exact Nq| |destruct (ao_struct _ _ Har); lia|].
  { intros z. rewrite elem_of_cons. intros [->|Hz]; [done|]. apply Hin. left. apply Hh. left. unfold bs. by rewrite fmap_app. }
  fold w. set (I0 := upd (upd I q Magic RT_MEMHEAP_MAGIC) q PoolPtr a). intros s1 Hv1. set (I1 := put_between Next Prev I0 p w q) in *.
  assert (ring NextFree PrevFree I1 F (f1 ++ p :: f2)) as HrF by (eapply ring_ext; [done| |apply Hok]; intros z _; unfold I1, I0; by autorewrite with memheap).
  apply wp_bind. eapply (view_take _ _ _ Hap Hrg); [exact Hv1|exact HrF|exact Nf|intros z Hz; apply Hin; left; apply Hh; by right|]. intros s2 I2 Hv2 Hr2 HI2.
  pose proof (ao_list _ _ Har) as Efl. fold F in Efl.
  apply wp_bind. eapply (view_insert _ Hap s Hrg _ _ _ a h (f1 ++ f2)); rewrite ?Efl; [exact Hv2|exact Ha|exact Hr2|exact NqF'| |].
  { intros z. rewrite elem_of_cons. intros [->|Hz]; [done|]. apply Hin. left. apply Hh. right. rewrite elem_of_cons, elem_of_app in Hz. rewrite elem_of_cons, elem_of_app, elem_of_cons. tauto. }
  intros s3 Hv3. set (I3 := put_between NextFree PrevFree I2 F (behind F (f1 ++ f2)) q) in *.
  eapply view_consume; [exact Hv3|exact Ha|unfold RT_MEMHEAP_SIZE, RT_MEMHEAP_MINIALLOC in *; lia|lia|]. intros s4 Hv4.
  assert (∀ z, I3 z Magic = if decide (z = q) then RT_MEMHEAP_MAGIC else I z Magic) as HM.
  { intros z. unfold I3, I1, I0. rewrite put_field, HI2 by done. unfold I1. rewrite put_field by done. unfold I0. rewrite upd_field by done. unfold upd. by repeat case_decide; naive_solver. }
  destruct (ho_item _ _ _ _ _ Hok p false) as [Em _]; [unfold bs; rewrite elem_of_app, elem_of_cons; tauto|]. fold I in Em.
  apply wp_bind. eapply view_rd; [exact Hv4|apply Hin; by left|]. rewrite HM, decide_False, Em, Z.add_0_r, magic_mark by done.
  eapply view_wr; [exact Hap|exact Hv4|apply Hin; by left|by vm_compute|]. intros s5 Hv5. apply HQ.
  eapply view_step; [exact Hv5|done|intros z Hz; apply elem_of_app; by right|done|].
  eapply alloc_split_ok; [exact Hok|done|done|cbn; unfold q; lia|exact Hpq|exact Hqw| | |].
  - intros z. rewrite upd_field by done. split.
    + unfold I3. rewrite put_field, HI2 by done. unfold I1. rewrite put_field by done. unfold I0, upd. by repeat case_decide; naive_solver.
    + unfold upd. rewrite HM. by repeat case_decide; naive_solver.
  - fold E. eapply (ring_ext Next Prev ltac:(done) I1).
    + intros z _. rewrite !upd_field by done. unfold I3. rewrite !put_field by done. rewrite !HI2 by done. done.
    + replace (l1.*1 ++ p :: q :: l2.*1) with ((l1.*1 ++ [p]) ++ q :: l2.*1) by (by rewrite <- (assoc_L (++))).
      assert (I1 = put_between Next Prev I0 (before E (l1.*1 ++ [p])) (behind E l2.*1) q) as -> by (unfold I1, before; by rewrite last_snoc).
      apply ring_put; [done|by rewrite <- (assoc_L (++))|by rewrite <- (assoc_L (++))|]. rewrite <- (assoc_L (++)). cbn [app].
      eapply ring_ext; [done| |exact Hrb]. intros z _. unfold I0. by rewrite !upd_field by done.
  - fold F. eapply (ring_ext NextFree PrevFree ltac:(done) I3); [intros z _; by rewrite !upd_field by done|].
    apply (ring_put NextFree PrevFree ltac:(done) I2 F [] q (f1 ++ f2)); [|done|done]. cbn [app].
    apply NoDup_cons in Nf as [N1 Nf]. rewrite elem_of_app, elem_of_cons in N1. constructor; [rewrite elem_of_app; tauto|].
    apply NoDup_app in Nf as (N2 & N3 & [N4 N5]%NoDup_cons). apply NoDup_app. split_and!; [done| |done]. intros z Hz Hz'. apply (N3 z Hz). by right.
Qed.
End carve.

Lemma wp_bind_assoc {S A B C} (m : M S A) (f : A → M S B) (g : B → M S C) Q s :
  wp (bind (bind m f) g) Q s → wp (bind m (λ x, bind (f x) g)) Q s.
Proof. unfold wp, bind. by destruct (m s) as [[x s']|]. Qed.

(** What an allocation of [n] bytes answers and leaves. *)
Definition alloc_post (a n : Z) (bs : list block) (fl : list Z) (h : rt_memheap) (s : mst) (r : Z) (s' : mst) : Prop :=
  match pick n (bs.*1 ++ [last_item h]) fl with
  | None => r = 0 ∧ s' = s
  | Some p => ∃ l1 l2 f1 f2, let w := behind (last_item h) l2.*1 in
      bs = l1 ++ (p, false) :: l2 ∧ fl = f1 ++ p :: f2 ∧ r = p + RT_MEMHEAP_SIZE ∧ n ≤ w - p - RT_MEMHEAP_SIZE ∧
      heap_step a h bs (l1 ++ (p, true) :: ((λ q, (q, false)) <$> rest n p w) ++ l2) (rest n p w ++ f1 ++ f2) s (consumed (cost n p w) h) s'
  end.

Lemma alloc_section_run a bs fl h s n :
  ms_heaps s !! a = Some h → heap_ok a bs fl h (items_of (ms_mem s)) → RT_MEMHEAP_MINIALLOC ≤ n < mh_available_size h →
  wp (alloc_section a n) (alloc_post a n bs fl h s) s.
Proof.
  intros Ha Hok Hn. set (E := last_item h). pose proof (headers_view a h bs (ho_first _ _ _ _ _ Hok) (ho_spaced _ _ _ _ _ Hok) s Ha) as Hv.
  set (I := items_of (ms_mem s)) in *. pose proof (ok_header a bs fl h I Hok) as Hh. pose proof (ok_nodup _ _ _ _ _ Hok) as [Nb Nf].
  unfold alloc_section. apply wp_bind. eapply view_get_heap; [done..|]. rewrite (ao_list _ _ (ho_area _ _ _ _ _ Hok)). set (F := free_header a) in *.
  apply wp_bind. eapply view_rd; [done|apply Hh; right; by left|]. destruct (ring_head _ _ I F fl (ho_free _ _ _ _ _ Hok)) as [-> _].
  apply wp_bind. eapply wp_mono.
  { apply (find_free_run (headers a h bs) (ms_heaps s) s I s F n (size_at (bs.*1 ++ [E])) fl []); [done|apply Hok|apply NoDup_cons in Nf; tauto| | |by eapply ok_fuel].
    - intros p Hp. split; [apply Hh; right; by right|]. destruct (ok_free _ _ _ _ _ Hok p Hp) as [Hp' _].
      destruct (ok_size _ _ _ _ _ Hok p Hp') as [Es Hs]. fold E in Es, Hs. unfold RT_MEMHEAP_MINIALLOC in *. lia.
    - unfold RT_MEMHEAP_MINIALLOC in Hn. lia. }
  intros [p fs] s1 [-> Hpick]. unfold alloc_post, pick. fold E. destruct (head _) as [p'|] eqn:Eh; cbn [snd] in Hpick.
  2: { rewrite (proj2 (Z.leb_gt n fs)) by lia. by apply wp_ret. }
  destruct Hpick as [[= -> ->] Hsz]. rewrite (proj2 (Z.leb_le _ _)) by done.
  assert (p' ∈ fl) as Hp by (apply head_Some_elem_of, list_elem_of_filter in Eh; tauto).
  destruct (ok_free _ _ _ _ _ Hok p' Hp) as (Hp' & l1 & l2 & Eb). apply list_elem_of_split in Hp as (f1 & f2 & Ef). subst bs fl.
  destruct (ok_size _ _ _ _ _ Hok p' Hp') as [Es _]. destruct (ok_next _ _ _ _ _ Hok l1 p' false l2 eq_refl) as [En _]. fold E in Es, En.
  rewrite En in Es. rewrite <- Es in Hsz |- *.
  assert (RT_MEMHEAP_MINIALLOC ≤ n ≤ behind E l2.*1 - p' - RT_MEMHEAP_SIZE) as Hn' by lia.
  destruct (carve_ranges a l1 l2 p' f1 f2 h s n Ha Hok Hn') as (R1 & R2 & R3 & _). fold E in R2, R3.
  unfold rest, cost. apply wp_bind_assoc. apply wp_bind.
  destruct (splits n p' (behind E l2.*1)) eqn:Esp.
  - eapply (carve_split_run a l1 l2 p' f1 f2 h s n Ha Hok Hn' _ Esp). intros s' Hst. apply wp_ret.
    rewrite (wrap_small 32) by (unfold RT_MEMHEAP_SIZE in *; lia). exists l1, l2, f1, f2. cbv zeta. rewrite Esp. split_and!; done.
  - eapply (carve_whole_run a l1 l2 p' f1 f2 h s n Ha Hok Hn' _ Esp). intros s' Hst. apply wp_ret.
    rewrite (wrap_small 32) by (unfold RT_MEMHEAP_SIZE in *; lia). exists l1, l2, f1, f2. cbv zeta. rewrite Esp. split_and!; done.
Qed.

(** ** Release *)

(** The part of [heap_ok] on the ring of all items. *)
Record items_ok (a : Z) (bs : list block) (h : rt_memheap) (I : items) : Prop := {
  io_first : head bs.*1 = Some (mh_start_addr h);
  io_spaced : spaced (bs.*1 ++ [last_item h]);
  io_ring : ring Next Prev I (last_item h) bs.*1;
  io_item p u : (p, u) ∈ bs → I p Magic = RT_MEMHEAP_MAGIC + Z.b2z u ∧ I p PoolPtr = a;
  io_end : I (last_item h) Magic = RT_MEMHEAP_MAGIC + 1
}.

Lemma heap_items a bs fl h I : heap_ok a bs fl h I → items_ok a bs h I.
Proof. intros [? ? ? ? ? ? ? ? ? ?]. by split. Qed.

Lemma items_ext a bs h I I' : (∀ z f, f ≠ NextFree → f ≠ PrevFree → I' z f = I z f) → items_ok a bs h I → items_ok a bs h I'.
Proof.
  intros HI [H1 H2 H3 H4 H5]. split; try done.
  - eapply ring_ext; [done| |exact H3]. intros z _. by rewrite !HI.
  - intros p u Hp. rewrite !HI by done. by apply H4.
  - by rewrite HI.
Qed.

Lemma items_nodup a bs h I : items_ok a bs h I → NoDup (last_item h :: bs.*1).
Proof.
  intros [_ H2 _ _ _]. pose proof (spaced_NoDup _ H2) as (N1 & N2 & _)%NoDup_app. constructor; [|done]. intros HE. apply (N2 _ HE). by left.
Qed.

(** Changing the mark of an item. *)
Lemma items_mark a l1 p u l2 h I v :
  items_ok a (l1 ++ (p, u) :: l2) h I → items_ok a (l1 ++ (p, v) :: l2) h (upd I p Magic (RT_MEMHEAP_MAGIC + Z.b2z v)).
Proof.
  intros Hi. pose proof (items_nodup _ _ _ _ Hi) as Hnd. destruct Hi as [H1 H2 H3 H4 H5]. rewrite fmap_app in *. cbn [fmap list_fmap fst] in *.
  apply NoDup_cons in Hnd as [NE (N1 & N2 & [N3 _]%NoDup_cons)%NoDup_app].
  split; rewrite ?fmap_app; cbn [fmap list_fmap fst]; try done.
  - eapply ring_ext; [done| |exact H3]. intros z _. by rewrite !upd_field.
  - intros z x Hz. rewrite elem_of_app, elem_of_cons in Hz. destruct (decide (z = p)) as [->|Hne].
    + assert (x = v) as ->.
      { destruct Hz as [Hz|[[=]|Hz]]; [|done|]; exfalso.
        - apply (N2 p); [apply list_elem_of_fmap; by exists (p, x)|by left].
        - apply N3, list_elem_of_fmap. by exists (p, x). }
      rewrite upd_same, upd_field by done. split; [done|]. apply (H4 p u). rewrite elem_of_app, elem_of_cons. tauto.
    + rewrite !upd_addr by done. apply H4. rewrite elem_of_app, elem_of_cons. destruct Hz as [Hz|[[= -> ->]|Hz]]; [tauto|done|tauto].
  - rewrite upd_addr; [done|]. intros EE. apply NE. rewrite <- EE, elem_of_app, elem_of_cons. tauto.
Qed.

(** The item [y] becomes part of the item [x] in front of it. *)
Lemma items_merge a l1 x u y v l2 h I :
  items_ok a (l1 ++ (x, u) :: (y, v) :: l2) h I → items_ok a (l1 ++ (x, u) :: l2) h (link Next Prev I x (behind (last_item h) l2.*1)).
Proof.
  intros Hi. pose proof (items_nodup _ _ _ _ Hi) as Hnd. destruct Hi as [H1 H2 H3 H4 H5]. rewrite fmap_app in *. cbn [fmap list_fmap fst] in *.
  set (E := last_item h) in *. split; rewrite ?fmap_app; cbn [fmap list_fmap fst]; fold E.
  - by destruct l1.
  - rewrite <- (assoc_L (++)) in H2 |- *. cbn [app] in *. apply spaced_app in H2 as [S1 S2]. apply spaced_app. split; [done|].
    apply spaced_cons in S2 as [S2 S3]. destruct (behind_split E l2.*1) as [t Et]. rewrite Et in S3 |- *. apply spaced_cons in S3 as [S3 S4].
    apply spaced_cons. split; [|done]. unfold RT_MEMHEAP_SIZE, RT_MEMHEAP_MINIALLOC in *. lia.
  - replace (l1.*1 ++ x :: y :: l2.*1) with ((l1.*1 ++ [x]) ++ y :: l2.*1) in H3, Hnd by (by rewrite <- (assoc_L (++))).
    pose proof (ring_remove Next Prev ltac:(done) I E _ y _ Hnd H3) as Hr.
    assert (before E (l1.*1 ++ [x]) = x) as Eb by (unfold before; by rewrite last_snoc). rewrite Eb, <- (assoc_L (++)) in Hr. exact Hr.
  - intros z b Hz. rewrite !link_field by done. apply H4. rewrite elem_of_app, !elem_of_cons in *. tauto.
  - by rewrite link_field.
Qed.

Section release.
Variables (A : list Z) (s0 : mst).
Hypothesis A_apart : ∀ p q, p ∈ A → q ∈ A → p = q ∨ apart p q.
Hypothesis A_range : ∀ p, p ∈ A → 0 ≤ p < 2 ^ 32.

Lemma is_used_bit u : nz (Z.land (RT_MEMHEAP_MAGIC + Z.b2z u) RT_MEMHEAP_USED) = u.
Proof. by destruct u. Qed.

(** The item in front of [p] is in use. *)
Definition used_end (b : option block) : Prop := match b with Some (_, false) => False | _ => True end.

Lemma items_before a l1 p u l2 h I :
  items_ok a (l1 ++ (p, u) :: l2) h I → used_end (last l1) → I (before (last_item h) l1.*1) Magic = RT_MEMHEAP_MAGIC + 1.
Proof.
  intros [_ _ _ H4 H5] Hu. unfold before. rewrite fmap_last. destruct (last l1) as [[x [|]]|] eqn:El; cbn in *; [|done|done].
  apply (H4 x true). apply last_Some in El as [l' ->]. rewrite !elem_of_app. left. right. by left.
Qed.

Lemma items_behind a l1 p u l2 h I :
  items_ok a (l1 ++ (p, u) :: l2) h I → used_end (head l2) → I (behind (last_item h) l2.*1) Magic = RT_MEMHEAP_MAGIC + 1.
Proof.
  intros [_ _ _ H4 H5] Hu. destruct l2 as [|[x [|]] l2]; cbn in *; [done| |done].
  apply (H4 x true). rewrite elem_of_app, !elem_of_cons. tauto.
Qed.

Lemma items_links a l1 p u l2 h I :
  items_ok a (l1 ++ (p, u) :: l2) h I → I p Prev = before (last_item h) l1.*1 ∧ I p Next = behind (last_item h) l2.*1.
Proof.
  intros [_ _ H3 _ _]. rewrite fmap_app in H3. cbn in H3. by destruct (ring_links _ _ _ _ _ _ _ H3) as (? & ? & _).
Qed.

Section merge.
Variables (hs : gmap Z rt_memheap) (I : items) (s : mst) (a : Z) (h hc : rt_memheap).
Hypothesis Hv : view A s0 hs I s.
Hypothesis Ha : hs !! a = Some hc.
Let E := last_item h.

Lemma merge_left_none l1 p u l2 (Q : Z * bool → mst → Prop) :
  items_ok a (l1 ++ (p, u) :: l2) h I → (∀ z, z ∈ E :: (l1 ++ (p, u) :: l2).*1 → z ∈ A) → used_end (last l1) →
  Q (p, true) s → wp (merge_left a p) Q s.
Proof.
  intros Hi HA Hu HQ. rewrite fmap_app in HA. cbn [fmap list_fmap fst] in HA. destruct (items_links _ _ _ _ _ _ _ Hi) as [Ep _]. fold E in Ep.
  assert (p ∈ A) as Hp by (apply HA; rewrite elem_of_cons, elem_of_app, elem_of_cons; tauto).
  assert (before E l1.*1 ∈ A) as Hb by (apply HA; pose proof (before_in E l1.*1) as Hb; rewrite elem_of_cons in Hb; rewrite elem_of_cons, elem_of_app; tauto).
  unfold merge_left. apply wp_bind. eapply view_rd; [done..|]. rewrite Ep. apply wp_bind. eapply view_used; [done..|].
  unfold E. rewrite (items_before _ _ _ _ _ _ _ Hi Hu). by apply wp_ret.
Qed.

Lemma merge_left_some l0 x p u l2 (Q : Z * bool → mst → Prop) :
  items_ok a (l0 ++ (x, false) :: (p, u) :: l2) h I → (∀ z, z ∈ E :: (l0 ++ (x, false) :: (p, u) :: l2).*1 → z ∈ A) →
  0 ≤ mh_available_size hc + RT_MEMHEAP_SIZE < 2 ^ 32 →
  (∀ s', view A s0 (<[a := with_available (mh_available_size hc + RT_MEMHEAP_SIZE) (mh_max_used_size hc) hc]> hs) (link Next Prev I x (behind E l2.*1)) s' → Q (x, false) s') →
  wp (merge_left a p) Q s.
Proof.
  intros Hi HA Hav HQ. pose proof (items_nodup _ _ _ _ Hi) as Hnd. rewrite fmap_app in HA, Hnd. cbn [fmap list_fmap fst] in HA, Hnd. fold E in Hnd.
  assert (items_ok a ((l0 ++ [(x, false)]) ++ (p, u) :: l2) h I) as Hi' by (by rewrite <- (assoc_L (++))).
  destruct (items_links _ _ _ _ _ _ _ Hi') as [Ep En]. fold E in Ep, En.
  assert (before E (l0 ++ [(x, false)]).*1 = x) as Eb by (unfold before; rewrite fmap_app; cbn; by rewrite last_snoc). rewrite Eb in Ep. clear Eb.
  destruct (io_item _ _ _ _ Hi x false) as [Em _]; [rewrite elem_of_app, elem_of_cons; tauto|].
  set (w := behind E l2.*1) in *.
  assert (p ∈ A) as Hp by (apply HA; rewrite elem_of_cons, elem_of_app, !elem_of_cons; tauto).
  assert (x ∈ A) as Hx by (apply HA; rewrite elem_of_cons, elem_of_app, !elem_of_cons; tauto).
  assert (w ∈ A) as Hw by (apply HA; pose proof (behind_in E l2.*1) as Hb; rewrite elem_of_cons in Hb; rewrite elem_of_cons, elem_of_app, !elem_of_cons; tauto).
  assert (p ≠ x ∧ p ≠ w) as [N1 N2].
  { replace (l0.*1 ++ x :: p :: l2.*1) with ((l0.*1 ++ [x]) ++ p :: l2.*1) in Hnd by (by rewrite <- (assoc_L (++))).
    destruct (behind_ne E _ p _ Hnd) as [B1 B2]. unfold before in B2. rewrite last_snoc in B2. split; [by apply not_eq_sym|by apply not_eq_sym]. }
  unfold merge_left. apply wp_bind. eapply view_rd; [done..|]. rewrite Ep. apply wp_bind. eapply view_used; [done..|].
  rewrite Em, is_used_bit. apply wp_bind. eapply view_add; [exact Hv|exact Ha|exact Hav|]. intros s1 Hv1.
  apply wp_bind. eapply view_rd; [exact Hv1|done|]. apply wp_bind. eapply view_rd; [exact Hv1|done|]. rewrite Ep, En.
  apply wp_bind. eapply view_wr; [done|exact Hv1|done|auto|]. intros s2 Hv2.
  apply wp_bind. eapply view_rd; [exact Hv2|done|]. apply wp_bind. eapply view_rd; [exact Hv2|done|].
  rewrite (upd_addr _ _ _ _ p Next), (upd_field _ _ _ _ _ Prev), Ep, En by done.
  apply wp_bind. eapply view_wr; [done|exact Hv2|done|auto|]. intros s3 Hv3. apply wp_bind. eapply view_rd; [exact Hv3|done|].
  rewrite upd_addr, upd_field, Ep by done. apply wp_ret, HQ. eapply view_ext; [|exact Hv3].
  intros z f _. unfold link, upd. repeat case_decide; naive_solver.
Qed.

Lemma merge_right_none l1 p u l2 (Q : unit → mst → Prop) :
  items_ok a (l1 ++ (p, u) :: l2) h I → (∀ z, z ∈ E :: (l1 ++ (p, u) :: l2).*1 → z ∈ A) → used_end (head l2) → Q tt s → wp (merge_right a p) Q s.
Proof.
  intros Hi HA Hu HQ. rewrite fmap_app in HA. cbn [fmap list_fmap fst] in HA. destruct (items_links _ _ _ _ _ _ _ Hi) as [_ En]. fold E in En.
  assert (p ∈ A) as Hp by (apply HA; rewrite elem_of_cons, elem_of_app, elem_of_cons; tauto).
  assert (behind E l2.*1 ∈ A) as Hb by (apply HA; pose proof (behind_in E l2.*1) as Hb; rewrite elem_of_cons in Hb; rewrite elem_of_cons, elem_of_app, elem_of_cons; tauto).
  unfold merge_right. apply wp_bind. eapply view_rd; [done..|]. rewrite En. apply wp_bind. eapply view_used; [done..|].
  unfold E. rewrite (items_behind _ _ _ _ _ _ _ Hi Hu). by apply wp_ret.
Qed.

Lemma absorb_run l1 p u q l3 F f1 f2 (Q : unit → mst → Prop) :
  items_ok a (l1 ++ (p, u) :: (q, false) :: l3) h I → (∀ z, z ∈ E :: (l1 ++ (p, u) :: (q, false) :: l3).*1 → z ∈ A) →
  ring NextFree PrevFree I F (f1 ++ q :: f2) → NoDup (F :: f1 ++ q :: f2) → (∀ z, z ∈ F :: f1 ++ q :: f2 → z ∈ A) →
  (∀ s', view A s0 hs (link NextFree PrevFree (link Next Prev I p (behind E l3.*1)) (before F f1) (behind F f2)) s' → Q tt s') →
  wp (absorb p q) Q s.
Proof.
  intros Hi HA Hr Nf HF HQ. pose proof (items_nodup _ _ _ _ Hi) as Hnd. rewrite fmap_app in HA, Hnd. cbn [fmap list_fmap fst] in HA, Hnd. fold E in Hnd.
  assert (items_ok a ((l1 ++ [(p, u)]) ++ (q, false) :: l3) h I) as Hi' by (by rewrite <- (assoc_L (++))).
  destruct (items_links _ _ _ _ _ _ _ Hi') as [_ En]. fold E in En. set (w := behind E l3.*1) in *.
  assert (p ∈ A) as Hp by (apply HA; rewrite elem_of_cons, elem_of_app, !elem_of_cons; tauto).
  assert (q ∈ A) as Hq by (apply HA; rewrite elem_of_cons, elem_of_app, !elem_of_cons; tauto).
  assert (w ∈ A) as Hw by (apply HA; pose proof (behind_in E l3.*1) as Hb; rewrite elem_of_cons in Hb; rewrite elem_of_cons, elem_of_app, !elem_of_cons; tauto).
  unfold absorb. apply wp_bind. eapply view_rd; [exact Hv|done|]. rewrite En.
  apply wp_bind. eapply view_wr; [done|exact Hv|done|auto|]. intros s2 Hv2.
  apply wp_bind. eapply view_rd; [exact Hv2|done|]. rewrite (upd_field _ _ _ _ _ Next), En by done.
  apply wp_bind. eapply view_wr; [done|exact Hv2|done|auto|]. intros s3 Hv3.
  eapply (view_unlink A A_apart s0 A_range); [exact Hv3| |exact Nf|exact HF|exact HQ].
  eapply ring_ext; [done| |exact Hr]. intros z _. by rewrite !upd_field.
Qed.
End merge.

Lemma merge_right_some hs I s a h hc l1 p u q l3 F f1 f2 (Q : unit → mst → Prop) :
  let E := last_item h in view A s0 hs I s → hs !! a = Some hc →
  items_ok a (l1 ++ (p, u) :: (q, false) :: l3) h I → (∀ z, z ∈ E :: (l1 ++ (p, u) :: (q, false) :: l3).*1 → z ∈ A) →
  ring NextFree PrevFree I F (f1 ++ q :: f2) → NoDup (F :: f1 ++ q :: f2) → (∀ z, z ∈ F :: f1 ++ q :: f2 → z ∈ A) →
  0 ≤ mh_available_size hc + RT_MEMHEAP_SIZE < 2 ^ 32 →
  (∀ s', view A s0 (<[a := with_available (mh_available_size hc + RT_MEMHEAP_SIZE) (mh_max_used_size hc) hc]> hs)
      (link NextFree PrevFree (link Next Prev I p (behind E l3.*1)) (before F f1) (behind F f2)) s' → Q tt s') →
  wp (merge_right a p) Q s.
Proof.
  intros E Hv Ha Hi HA Hr Nf HF Hav HQ. pose proof HA as HA'. rewrite fmap_app in HA. cbn [fmap list_fmap fst] in HA.
  destruct (items_links _ _ _ _ _ _ _ Hi) as [_ Ep]. fold E in Ep. change (behind E ((q, false) :: l3).*1) with q in Ep.
  destruct (io_item _ _ _ _ Hi q false) as [Em _]; [rewrite elem_of_app, !elem_of_cons; tauto|].
  assert (p ∈ A) as Hp by (apply HA; rewrite elem_of_cons, elem_of_app, !elem_of_cons; tauto).
  assert (q ∈ A) as Hq by (apply HA; rewrite elem_of_cons, elem_of_app, !elem_of_cons; tauto).
  unfold merge_right. apply wp_bind. eapply view_rd; [done..|]. rewrite Ep. apply wp_bind. eapply view_used; [done..|].
  rewrite Em, is_used_bit. apply wp_bind. eapply view_add; [exact Hv|exact Ha|exact Hav|]. intros s1 Hv1.
  apply wp_bind. eapply view_rd; [exact Hv1|done|]. rewrite Ep. by eapply absorb_run.
Qed.
End release.

Lemma heap_ok_intro a bs fl h I :
  area_ok a h → items_ok a bs h I → ring NextFree PrevFree I (free_header a) fl → fl ≡ₚ free_of bs → merged bs →
  mh_available_size h = available (last_item h) bs → heap_ok a bs fl h I.
Proof. intros H1 [? ? ? ? ?] ? ? ? ?. by split. Qed.

Lemma items_same_area a bs h h' I : same_area h h' → items_ok a bs h I → items_ok a bs h' I.
Proof. intros Hs [H1 H2 H3 H4 H5]. pose proof (last_item_same h h' Hs) as El. destruct Hs as [Es _]. split; rewrite ?El, ?Es; done. Qed.

(** The items with the one at [p] given back. *)
Definition release (l1 : list block) (p : Z) (l2 : list block) : list block :=
  let l3 := match l2 with (_, false) :: l3 => l3 | _ => l2 end in
  match last l1 with Some (x, false) => removelast l1 ++ (x, false) :: l3 | _ => l1 ++ (p, false) :: l3 end.

Lemma merged_release l1 p l2 : merged (l1 ++ (p, true) :: l2) → merged (release l1 p l2).
Proof.
  intros [M1 M2]%merged_app. unfold release. set (l3 := match l2 with (_, false) :: l3 => l3 | _ => l2 end).
  assert (∀ x, merged ((x, false) :: l3)) as M3.
  { intros x. unfold l3. destruct l2 as [|[q [|]] l2]; [done| |].
    - cbn in M2 |- *. tauto.
    - destruct M2 as [_ M2]. destruct l2 as [|[z v] l2]; [done|]. cbn in M2 |- *. tauto. }
  destruct l1 as [|[x u] l1 _] using rev_ind; [apply M3|]. rewrite last_snoc. destruct u.
  - rewrite <- (assoc_L (++)) in M1. apply merged_app in M1 as [M1 _]. rewrite <- (assoc_L (++)). apply merged_app. split; [exact M1|].
    split; [by left|apply M3].
  - rewrite removelast_last. rewrite <- (assoc_L (++)) in M1. apply merged_app in M1 as [M1 _]. apply merged_app. split; [exact M1|apply M3].
Qed.

Section free_section.
Variables (a : Z) (l1 l2 : list block) (p : Z) (fl : list Z) (h : rt_memheap) (s : mst).
Let bs := l1 ++ (p, true) :: l2.
Let I := items_of (ms_mem s).
Let E := last_item h.
Let F := free_header a.
Let A := headers a h bs.
Hypothesis Ha : ms_heaps s !! a = Some h.
Hypothesis Hok : heap_ok a bs fl h I.

Lemma fs_apart x y : x ∈ A → y ∈ A → x = y ∨ apart x y.
Proof. apply headers_apart; apply Hok. Qed.
Lemma fs_range x : x ∈ A → 0 ≤ x < 2 ^ 32.
Proof.
  intros Hx. pose proof (headers_range a h bs (ho_area _ _ _ _ _ Hok) (ho_first _ _ _ _ _ Hok) (ho_spaced _ _ _ _ _ Hok) x Hx). unfold RT_MEMHEAP_SIZE in *. lia.
Qed.
Lemma fs_free z : z ∈ F :: fl → z ∈ A.
Proof. intros Hz. apply (ok_header _ _ _ _ _ Hok). by right. Qed.

(** In the middle of the release: the items are [bs'], and the free ring is still [fl]. *)
Record mid (bs' : list block) (fl' : list Z) (s' : mst) : Prop := {
  md_state : ∃ hc I', view A s (<[a := hc]> (ms_heaps s)) I' s' ∧ same_area h hc ∧ mh_free_list hc = mh_free_list h ∧
    items_ok a bs' h I' ∧ ring NextFree PrevFree I' F fl' ∧ mh_available_size hc = available E bs';
  md_in z : z ∈ E :: bs'.*1 → z ∈ A
}.

Lemma available_small bs' I' : items_ok a bs' h I' → 0 ≤ available E bs' < 2 ^ 32.
Proof.
  intros [H1 H2 _ _ _]. destruct (available_bounds E bs' H2) as [B1 B2]. specialize (B2 _ H1). pose proof (ao_memory _ _ (ho_area _ _ _ _ _ Hok)).
  unfold E, last_item, RT_MEMHEAP_SIZE in *. lia.
Qed.

Lemma unmark_run : wp (unmark a p) (λ _, mid (l1 ++ (p, false) :: l2) fl) s.
Proof.
  pose proof (headers_view a h bs (ho_first _ _ _ _ _ Hok) (ho_spaced _ _ _ _ _ Hok) s Ha) as Hv. fold I A in Hv.
  pose proof (heap_items _ _ _ _ _ Hok) as Hi. assert (p ∈ bs.*1) as Hp by (unfold bs; rewrite fmap_app, elem_of_app; cbn; rewrite elem_of_cons; tauto).
  assert (p ∈ A) as HpA by (apply (ok_header _ _ _ _ _ Hok); left; by right).
  destruct (ho_item _ _ _ _ _ Hok p true) as [Em _]; [unfold bs; rewrite elem_of_app, elem_of_cons; tauto|].
  apply wp_bind. eapply view_rd; [exact Hv|done|]. rewrite Em. change (Z.land (RT_MEMHEAP_MAGIC + Z.b2z true) _) with (RT_MEMHEAP_MAGIC + Z.b2z false).
  apply wp_bind. eapply view_wr; [exact fs_apart|exact Hv|done|by vm_compute|]. intros s1 Hv1.
  pose proof (items_mark a l1 p true l2 h I false Hi) as Hi1.
  apply wp_bind. eapply view_size; [exact Hv1|done|]. destruct (items_links _ _ _ _ _ _ _ Hi1) as [_ ->]. fold E.
  assert (available E (l1 ++ (p, false) :: l2) = mh_available_size h + (behind E l2.*1 - p - RT_MEMHEAP_SIZE)) as Eav.
  { rewrite (ho_available _ _ _ _ _ Hok). unfold bs. rewrite !available_app. fold E. lia. }
  pose proof (available_small _ _ Hi1) as Hsm. destruct (ok_size _ _ _ _ _ Hok p Hp) as [Es Hs].
  destruct (ok_next _ _ _ _ _ Hok l1 p true l2 eq_refl) as [En _]. fold E in Es, Hs, En. rewrite En in Es.
  rewrite (wrap_small 32) by (unfold RT_MEMHEAP_MINIALLOC in *; lia).
  eapply view_add; [exact Hv1|exact Ha|lia|]. intros s2 Hv2. split.
  - eexists _, _. split_and!; [exact Hv2|done|done|exact Hi1| |exact (eq_sym Eav)].
    eapply ring_ext; [done| |apply Hok]. intros z _. by rewrite !upd_field.
  - intros z Hz. apply (ok_header _ _ _ _ _ Hok). left. unfold bs. rewrite fmap_app in *. exact Hz.
Qed.

Lemma free_left_run s1 :
  mid (l1 ++ (p, false) :: l2) fl s1 →
  wp (merge_left a p) (λ r s', ∃ l0, mid (l0 ++ (r.1, false) :: l2) fl s' ∧
    if r.2 then r.1 = p ∧ l0 = l1 ∧ used_end (last l1) else l1 = l0 ++ [(r.1, false)]) s1.
Proof.
  intros [(hc & I1 & Hv & Hsa & Hfl & Hi & Hr & Hav) Hin].
  assert (used_end (last l1) ∨ ∃ l0 x, l1 = l0 ++ [(x, false)]) as [Hu|(l0 & x & El)].
  { destruct l1 as [|[x u] l0 _] using rev_ind; [by left|]. rewrite last_snoc. destruct u; [by left|right; by exists l0, x]. }
  - eapply (merge_left_none A s); [exact Hv|exact Hi|exact Hin|exact Hu|]. exists l1. split; [|done]. split; [|exact Hin]. by exists hc, I1.
  - rewrite El, <- (assoc_L (++)) in Hi, Hin, Hav. cbn [app] in Hi, Hin, Hav. pose proof (items_merge _ _ _ _ _ _ _ _ _ Hi) as Hi2.
    assert (available E (l0 ++ (x, false) :: l2) = mh_available_size hc + RT_MEMHEAP_SIZE) as Eav.
    { rewrite Hav, !available_app. cbn [available fmap list_fmap fst]. change (behind E (p :: l2.*1)) with p. lia. }
    pose proof (available_small _ _ Hi2) as Hsm.
    eapply (merge_left_some A s fs_apart fs_range); [exact Hv|apply lookup_insert_eq|exact Hi|exact Hin|lia|]. intros s2 Hv2. rewrite insert_insert_eq in Hv2.
    exists l0. split; [|done]. split.
    + eexists _, _. split_and!; [exact Hv2|done|done|exact Hi2| |exact (eq_sym Eav)]. eapply ring_ext; [done| |exact Hr]. intros z _. by rewrite !link_field.
    + intros z Hz. apply Hin. rewrite fmap_app in *. cbn in *. rewrite elem_of_cons, elem_of_app, !elem_of_cons in *. tauto.
Qed.

Lemma free_right_run s1 l0 x :
  mid (l0 ++ (x, false) :: l2) fl s1 →
  wp (merge_right a x) (λ _ s', ∃ l3 fl3, mid (l0 ++ (x, false) :: l3) fl3 s' ∧
    ((used_end (head l2) ∧ l3 = l2 ∧ fl3 = fl) ∨ ∃ q, l2 = (q, false) :: l3 ∧ fl ≡ₚ q :: fl3)) s1.
Proof.
  intros [(hc & I1 & Hv & Hsa & Hfl & Hi & Hr & Hav) Hin].
  assert (used_end (head l2) ∨ ∃ l3 q, l2 = (q, false) :: l3) as [Hu|(l3 & q & El)].
  { destruct l2 as [|[q u] l3]; [by left|]. destruct u; [by left|right; by exists l3, q]. }
  - eapply (merge_right_none A s); [exact Hv|exact Hi|exact Hin|exact Hu|]. exists l2, fl. split; [|by left]. split; [|exact Hin]. by exists hc, I1.
  - rewrite El in Hi, Hin, Hav. pose proof (items_merge _ _ _ _ _ _ _ _ _ Hi) as Hi2. fold E in Hi2.
    assert (q ∈ fl) as Hq.
    { rewrite (ho_perm _ _ _ _ _ Hok). apply free_of_elem. unfold bs. rewrite El, elem_of_app, !elem_of_cons. tauto. }
    apply list_elem_of_split in Hq as (f1 & f2 & Ef). destruct (ok_nodup _ _ _ _ _ Hok) as [_ Nf]. fold F in Nf.
    assert (available E (l0 ++ (x, false) :: l3) = mh_available_size hc + RT_MEMHEAP_SIZE) as Eav.
    { rewrite Hav, !available_app. cbn [available fmap list_fmap fst]. change (behind E (q :: l3.*1)) with q. lia. }
    pose proof (available_small _ _ Hi2) as Hsm. rewrite Ef in Hr, Nf.
    eapply (merge_right_some A s fs_apart fs_range); [exact Hv|apply lookup_insert_eq|exact Hi|exact Hin|exact Hr|exact Nf| |lia|].
    { intros z Hz. apply fs_free. by rewrite Ef. }
    intros s2 Hv2. rewrite insert_insert_eq in Hv2. exists l3, (f1 ++ f2). split.
    + split.
      * eexists _, _. split_and!; [exact Hv2|done|done| | |exact (eq_sym Eav)].
        -- eapply items_ext; [|exact Hi2]. intros z f N1 N2. by rewrite link_field.
        -- pose proof (ring_remove NextFree PrevFree ltac:(done) (link Next Prev I1 x (behind E l3.*1)) F f1 q f2 Nf) as Hrm. apply Hrm.
           eapply ring_ext; [done| |exact Hr]. intros z _. by rewrite !link_field.
      * intros z Hz. apply Hin. rewrite fmap_app in *. cbn in *. rewrite elem_of_cons, elem_of_app, !elem_of_cons in *. tauto.
    + right. exists q. split; [done|]. rewrite Ef. by rewrite Permutation_middle.
Qed.

(** The outcome of both merges is [release]; the item found last is to be entered into
    the ring of free items if it is still [p]. *)
Lemma release_cases l0 x (ins : bool) l3 fl3 :
  (if ins then x = p ∧ l0 = l1 ∧ used_end (last l1) else l1 = l0 ++ [(x, false)]) →
  ((used_end (head l2) ∧ l3 = l2 ∧ fl3 = fl) ∨ ∃ q, l2 = (q, false) :: l3 ∧ fl ≡ₚ q :: fl3) →
  release l1 p l2 = l0 ++ (x, false) :: l3 ∧ (if ins then x :: fl3 else fl3) ≡ₚ free_of (l0 ++ (x, false) :: l3).
Proof.
  intros Hl Hr. pose proof (ho_perm _ _ _ _ _ Hok) as Hp. unfold bs in Hp. rewrite free_of_app, free_of_cons in Hp. cbn [app] in Hp.
  assert (match l2 with (_, false) :: l3 => l3 | _ => l2 end = l3) as E3.
  { destruct Hr as [(Hu & -> & _)|(q & -> & _)]; [|done]. destruct l2 as [|[q [|]] l]; done. }
  assert (fl3 ≡ₚ free_of l1 ++ free_of l3) as Hp3.
  { destruct Hr as [(_ & -> & ->)|(q & E2 & Hq)]; [done|]. rewrite E2, free_of_cons in Hp. cbn [app] in Hp.
    apply (Permutation_cons_inv (a := q)). by rewrite <- Hq, Hp, Permutation_middle. }
  unfold release. rewrite E3. destruct ins.
  - destruct Hl as (-> & -> & Hu). split; [destruct (last l1) as [[? []]|]; done|]. rewrite free_of_app, free_of_cons. cbn [app].
    by rewrite Hp3, Permutation_middle.
  - rewrite Hl, last_snoc, removelast_last. split; [done|]. rewrite Hp3, Hl, !free_of_app, !free_of_cons. cbn [app]. by rewrite <- (assoc_L (++)).
Qed.

Lemma memheap_free_section_run :
  wp (free_section a p) (λ _ s', ∃ fl' h', heap_step a h bs (release l1 p l2) fl' s h' s') s.
Proof.
  unfold free_section. apply wp_bind. eapply wp_mono; [apply unmark_run|]. cbv beta. intros _ s1 Hm1.
  apply wp_bind. eapply wp_mono; [by apply free_left_run|]. cbv beta. intros [x ins] s2 (l0 & Hm2 & Hl). cbn [fst snd] in *.
  apply wp_bind. eapply wp_mono; [by apply free_right_run|]. cbv beta. intros _ s3 (l3 & fl3 & Hm3 & Hr).
  destruct (release_cases l0 x ins l3 fl3 Hl Hr) as [-> Hperm].
  assert (merged (l0 ++ (x, false) :: l3)) as Hmg.
  { destruct (release_cases l0 x ins l3 fl3 Hl Hr) as [<- _]. apply merged_release. apply Hok. }
  destruct Hm3 as [(hc & I3 & Hv & Hsa & Hfl & Hi & Hr3 & Hav) Hin].
  pose proof (area_ok_same a h hc Hsa Hfl (ho_area _ _ _ _ _ Hok)) as Har.
  assert (∀ s4 I4 fl4, view A s (<[a := hc]> (ms_heaps s)) I4 s4 → items_ok a (l0 ++ (x, false) :: l3) h I4 → ring NextFree PrevFree I4 F fl4 →
    fl4 ≡ₚ free_of (l0 ++ (x, false) :: l3) → heap_step a h bs (l0 ++ (x, false) :: l3) fl4 s hc s4) as Hend.
  { intros s4 I4 fl4 Hv4 Hi4 Hr4 Hp4. eapply view_step; [exact Hv4|exact Hsa|intros z Hz; apply elem_of_app; by left| |].
    - intros z Hz. unfold headers in Hz. fold F E in Hz. apply elem_of_cons in Hz as [->|Hz]; [apply fs_free; by left|].
      apply Hin. rewrite elem_of_app, list_elem_of_singleton in Hz. rewrite elem_of_cons. tauto.
    - apply heap_ok_intro; [exact Har|by eapply items_same_area|exact Hr4|exact Hp4|exact Hmg|].
      rewrite (last_item_same h hc Hsa). exact Hav. }
  destruct ins; [|apply wp_ret; eauto 10].
  destruct Hl as (-> & -> & _). pose proof (ao_list _ _ Har) as Efl. fold F in Efl.
  assert (p ∉ F :: fl3) as Np.
  { assert (NoDup (free_header a :: p :: fl3)) as Hnd.
    { constructor; [|rewrite Hperm; apply free_of_NoDup; pose proof (items_nodup _ _ _ _ Hi) as Hnd; by apply NoDup_cons in Hnd as [_ ?]].
      rewrite Hperm. intros Hz%free_of_elem. destruct (ok_nodup _ _ _ _ _ Hok) as [_ _].
      pose proof (headers_NoDup a h (l1 ++ (p, false) :: l3) (ho_area _ _ _ _ _ Hok) (io_first _ _ _ _ Hi) (io_spaced _ _ _ _ Hi)) as Hnd.
      apply NoDup_cons in Hnd as [Hnd _]. apply Hnd. rewrite elem_of_app. left. apply list_elem_of_fmap. by exists (free_header a, false). }
    apply NoDup_cons in Hnd as [N1 Hnd]. apply NoDup_cons in Hnd as [N2 _]. fold F in N1. rewrite elem_of_cons. intros [EE|Hx]; [apply N1; rewrite EE; by left|done]. }
  eapply (view_insert A fs_apart s fs_range _ _ _ a hc fl3); rewrite ?Efl; [exact Hv|apply lookup_insert_eq|exact Hr3|exact Np| |].
  { intros z Hz. rewrite elem_of_cons in Hz. destruct Hz as [->|Hz].
    - apply Hin. rewrite fmap_app. cbn. rewrite elem_of_cons, elem_of_app, elem_of_cons. tauto.
    - apply fs_free. apply elem_of_cons in Hz as [->|Hz]; [by left|right].
      destruct Hr as [(_ & _ & ->)|(q & _ & Hq)]; [done|]. rewrite Hq. by right. }
  intros s4 Hv4. exists (p :: fl3), hc. apply (Hend s4 _ (p :: fl3) Hv4); [| |exact Hperm].
  - eapply items_ext; [|exact Hi]. intros z f N1 N2. by rewrite put_field.
  - apply (ring_put NextFree PrevFree ltac:(done) I3 F [] p fl3); [|exact Np|exact Hr3]. cbn [app].
    destruct (ok_nodup _ _ _ _ _ Hok) as [_ Nf]. fold F in Nf. destruct Hr as [(_ & _ & ->)|(q & _ & Hq)]; [done|].
    apply NoDup_cons in Nf as [N1 Nf]. rewrite Hq in N1, Nf. apply NoDup_cons in Nf as [_ Nf]. constructor; [|done]. rewrite elem_of_cons in N1. tauto.
Qed.
End free_section.
