(* ===== verification/MemheapSpec.v ===== *)
(** Memory heaps for their users: allocation, release, change of size and set-up on whole
    heaps, with the lock. *)

From Stdlib Require Import ZArith Lia.
From stdpp Require Import base numbers option gmap.
From stdpp Require Import list sorting.
From S2P Require Import Prelude.
From S2P Require Import Proc.
From S2P Require Import Kservice.
From S2P Require Import Bytes.
From S2P Require Import KernelDefs.
From S2P Require Import Scheduler.
From S2P Require Import Object.
From S2P Require Import Timer.
From S2P Require Import Thread.
From S2P Require Import Clock.
From S2P Require Import Ipc.
From S2P Require Import Kstate.
From S2P Require Import Sem.
From S2P Require Import Memheap.
From S2P Require Import MemheapInv.
Local Open Scope Z_scope.
Local Open Scope rt_scope.

(** * Under the lock *)

(** The heap is a kernel object, and nobody holds its semaphore. *)
Definition idle (a : Z) (k : kst) : Prop :=
  a ≠ 0 ∧ (∃ x, k_obj k !! Obj a = Some x ∧ get_type x = RT_Object_Class_MemHeap) ∧ ∃ y, sem_ok (heap_lock a) k 1 y.

Definition kernel_st (k : kst) (s : mst) : mst := mk_mst k (ms_errno s) (ms_heaps s) (ms_mem s).

Lemma mh_kern_run {A} (m : K A) s x k : m (ms_k s) = Some (x, k) → kern m s = Some (x, kernel_st k s).
Proof. intros E. exact (kern_run (S := mst) m s x k E). Qed.

Lemma is_memheap_run a s : idle a (ms_k s) → is_memheap a s = Some (tt, s).
Proof.
  intros (Hn & (x & Hx & Hty) & _). unfold is_memheap, bind, assert. rewrite (proj2 (nz_true a) Hn). apply (kern_look (S := mst)). by apply (assert_type_run (ms_k s) (Obj a) x).
Qed.

Lemma locked_run {A} a (m : MM A) (Q : A → mst → Prop) s :
  idle a (ms_k s) →
  wp m (λ x s1, ms_k s1 = sem_held (heap_lock a) (ms_k s) ∧ Q x (kernel_st (ms_k s) s1)) (kernel_st (sem_held (heap_lock a) (ms_k s)) s) →
  dwp (locked a m) (λ r s', ∃ x, r = Some x ∧ Q x s') s.
Proof.
  intros (_ & _ & y & Hy) Hm. unfold locked. apply dwp_bind. exists RT_EOK, (kernel_st (sem_held (heap_lock a) (ms_k s)) s). split.
  { unfold lock, bind. by rewrite (mh_kern_run _ s _ _ (sem_lock_run _ _ y _ Hy)). }
  cbn [Z.eqb RT_EOK negb]. apply dwp_seq. eapply wp_mono; [exact Hm|]. cbv beta. intros x s1 [Hk HQ]. apply dwp_seq.
  unfold unlock. apply wp_bind. unfold wp at 1. rewrite (mh_kern_run _ s1 RT_EOK (ms_k s)) by (rewrite Hk; by eapply sem_unlock_run).
  apply wp_ret, dwp_ret. exists x. split; [done|]. exact HQ.
Qed.

(** The kernel and its lock do not matter for the heap. *)
Lemma heap_step_kernel a h bs bs' fl' s k h' s1 :
  heap_step a h bs bs' fl' (kernel_st k s) h' s1 → ms_k s1 = k ∧ heap_step a h bs bs' fl' s h' (kernel_st (ms_k s) s1).
Proof. intros [H1 H2 H3 H4 H5 H6]. split; [done|]. by split. Qed.

Lemma rounded_request size : 0 ≤ size ≤ 2 ^ 32 - 4 → rounded size = Z.max RT_MEMHEAP_MINIALLOC ((size + 3) / 4 * 4).
Proof.
  intros Hs. unfold rounded. rewrite RT_ALIGN_4 by done. destruct (Z.ltb_spec ((size + 3) / 4 * 4) RT_MEMHEAP_MINIALLOC); lia.
Qed.

Lemma rounded_facts size : 0 ≤ size ≤ 2 ^ 32 - 4 → RT_MEMHEAP_MINIALLOC ≤ rounded size ∧ size ≤ rounded size ∧ rounded size mod 4 = 0 ∧ rounded size < 2 ^ 32.
Proof.
  intros Hs. rewrite rounded_request by done. pose proof (Z.div_mod (size + 3) 4 ltac:(lia)). pose proof (Z.mod_pos_bound (size + 3) 4 ltac:(lia)).
  unfold RT_MEMHEAP_MINIALLOC. split_and!; [lia|lia| |lia]. destruct (Z.max_spec 12 ((size + 3) / 4 * 4)) as [[_ ->]|[_ ->]]; [apply Z.mod_mul; lia|done].
Qed.

Lemma memheap_alloc_run a bs fl h s n size :
  idle a (ms_k s) → ms_heaps s !! a = Some h → heap_ok a bs fl h (items_of (ms_mem s)) → rounded size = n → RT_MEMHEAP_MINIALLOC ≤ n →
  dwp (rt_memheap_alloc a size) (λ r s', if n <? mh_available_size h then alloc_post a n bs fl h s r s' else r = 0 ∧ s' = s) s.
Proof.
  intros Hid Ha Hok En Hn. unfold rt_memheap_alloc. apply dwp_seq. unfold wp. rewrite (is_memheap_run a s Hid).
  apply dwp_seq. unfold wp, get_heap. rewrite Ha, En. destruct (Z.ltb_spec n (mh_available_size h)) as [Hlt|]; [|by apply dwp_ret].
  apply dwp_bind. eapply dwp_mono; [apply (locked_run a (alloc_section a n) (alloc_post a n bs fl h s)); [done|]|].
  - eapply wp_mono; [apply (alloc_section_run a bs fl h); [done|done|lia]|]. intros r s1. unfold alloc_post.
    destruct (pick _ _ _) as [p|].
    + intros (l1 & l2 & f1 & f2 & E1 & E2 & E3 & E4 & Hst). apply heap_step_kernel in Hst as [Hk Hst]. split; [done|]. by exists l1, l2, f1, f2.
    + intros [-> ->]. split; [done|]. split; [done|]. by destruct s.
  - intros r s1 (x & -> & Hx). by apply dwp_ret.
Qed.

(** ** What the user of the heap sees *)

(** The memory of the item at [p] in use has [z] bytes from [p + 24] on. *)
Definition used_at (h : rt_memheap) (bs : list block) (p z : Z) : Prop :=
  (p, true) ∈ bs ∧ size_at (bs.*1 ++ [last_item h]) p = z.

(** Bytes of items in use are kept. *)
Definition kept (h : rt_memheap) (bs : list block) (s s' : mst) : Prop :=
  ∀ p z i, used_at h bs p z → p + RT_MEMHEAP_SIZE ≤ i < p + RT_MEMHEAP_SIZE + z → ms_mem s' i = ms_mem s i.

Lemma used_size h (l1 : list block) p u (l2 : list block) :
  spaced ((l1 ++ (p, u) :: l2).*1 ++ [last_item h]) →
  size_at ((l1 ++ (p, u) :: l2).*1 ++ [last_item h]) p = behind (last_item h) l2.*1 - p - RT_MEMHEAP_SIZE.
Proof. rewrite fmap_app. cbn [fmap list_fmap fst]. rewrite <- (assoc_L (++)). cbn [app]. apply size_at_here. Qed.

(** The memory of an item does not meet any header. *)
Lemma payload_outside a h (bs : list block) p u z i x :
  area_ok a h → head bs.*1 = Some (mh_start_addr h) → spaced (bs.*1 ++ [last_item h]) →
  (p, u) ∈ bs → size_at (bs.*1 ++ [last_item h]) p = z → p + RT_MEMHEAP_SIZE ≤ i < p + RT_MEMHEAP_SIZE + z → x ∈ headers a h bs → i < x ∨ x + RT_MEMHEAP_SIZE ≤ i.
Proof.
  intros Har Hfi Hsp Hp Hz Hi Hx. set (E := last_item h) in *.
  assert (∀ y, y ∈ bs.*1 ++ [E] → mh_start_addr h ≤ y ≤ E) as Hrg by (intros y Hy; by apply (item_range h bs)).
  apply list_elem_of_split in Hp as (l1 & l2 & ->). rewrite (used_size h) in Hz by done. fold E in Hz.
  unfold headers in Hx. rewrite fmap_app in *. cbn [fmap list_fmap fst] in *. fold E in Hx. rewrite <- (assoc_L (++)) in Hsp, Hx, Hrg. cbn [app] in Hsp, Hx, Hrg.
  pose proof (Hrg p ltac:(rewrite elem_of_app, elem_of_cons; tauto)) as Rp. pose proof (Hrg (behind E l2.*1)) as Rw. destruct (behind_split E l2.*1) as [t Et].
  rewrite Et in Hsp, Hx, Rw. specialize (Rw ltac:(rewrite elem_of_app, !elem_of_cons; tauto)). apply spaced_app in Hsp as [S1 S2]. apply spaced_tail in S2.
  apply elem_of_cons in Hx as [->|Hx].
  - pose proof (ao_apart _ _ Har) as Hap. assert (E + 24 = mh_start_addr h + mh_pool_size h) as HE by (unfold E, last_item, RT_MEMHEAP_SIZE; lia). unfold free_header, RT_MEMHEAP_SIZE in *. lia.
  - rewrite elem_of_app, !elem_of_cons in Hx. destruct Hx as [Hx|[->|[->|Hx]]].
    + pose proof (spaced_last _ _ S1 x Hx). unfold RT_MEMHEAP_SIZE, RT_MEMHEAP_MINIALLOC in *. lia.
    + lia.
    + lia.
    + pose proof (spaced_head _ _ S2 x Hx). unfold RT_MEMHEAP_SIZE, RT_MEMHEAP_MINIALLOC in *. lia.
Qed.

(** Items in use that stay where they are keep their size when the items between them
    change, from the address [p] on. *)
Lemma size_replace h (l1 : list block) p u (m : list block) v (m' l2 : list block) x b :
  spaced ((l1 ++ (p, u) :: m ++ l2).*1 ++ [last_item h]) → spaced ((l1 ++ (p, v) :: m' ++ l2).*1 ++ [last_item h]) → (x, b) ∈ l1 ++ l2 →
  size_at ((l1 ++ (p, v) :: m' ++ l2).*1 ++ [last_item h]) x = size_at ((l1 ++ (p, u) :: m ++ l2).*1 ++ [last_item h]) x.
Proof.
  intros S1 S2 Hx. apply elem_of_app in Hx as [Hx|Hx]; apply list_elem_of_split in Hx as (la & lb & ->).
  - pose proof (used_size h la x b (lb ++ (p, u) :: m ++ l2)) as E1. pose proof (used_size h la x b (lb ++ (p, v) :: m' ++ l2)) as E2.
    rewrite app_comm_cons, (assoc_L (++)) in E1, E2. rewrite E1, E2 by done. rewrite !(fmap_app _ lb). cbn [fmap list_fmap fst]. by rewrite !behind_mid.
  - replace (l1 ++ (p, u) :: m ++ la ++ (x, b) :: lb) with ((l1 ++ (p, u) :: m ++ la) ++ (x, b) :: lb) in S1 |- * by (by rewrite <- !(assoc_L (++)); cbn; rewrite <- (assoc_L (++))).
    replace (l1 ++ (p, v) :: m' ++ la ++ (x, b) :: lb) with ((l1 ++ (p, v) :: m' ++ la) ++ (x, b) :: lb) in S2 |- * by (by rewrite <- !(assoc_L (++)); cbn; rewrite <- (assoc_L (++))).
    by rewrite !used_size.
Qed.

Lemma block_unique (bs : list block) p u v : NoDup bs.*1 → (p, u) ∈ bs → (p, v) ∈ bs → u = v.
Proof.
  induction bs as [|[q w] bs IH]; cbn [fmap list_fmap fst]; intros Hnd Hu Hv; [by apply elem_of_nil in Hu|]. apply NoDup_cons in Hnd as [N Hnd].
  apply elem_of_cons in Hu as [[= -> ->]|Hu], Hv as [[= Ev]|Hv]; try done; [|subst|by apply IH]; exfalso; apply N, list_elem_of_fmap; eexists (q, _); done.
Qed.

(** An item in use lies in the heap. *)
Lemma used_range h (bs : list block) x y :
  head bs.*1 = Some (mh_start_addr h) → spaced (bs.*1 ++ [last_item h]) → used_at h bs x y →
  mh_start_addr h ≤ x ∧ RT_MEMHEAP_MINIALLOC ≤ y ∧ x + RT_MEMHEAP_SIZE + y ≤ last_item h.
Proof.
  intros Hfi Hsp [Hx Hy]. apply list_elem_of_split in Hx as (la & lb & E'). rewrite E' in Hy, Hsp, Hfi. rewrite used_size in Hy by done.
  destruct (item_range h _ Hfi Hsp x) as [B1 _]; [rewrite fmap_app, !elem_of_app; cbn; rewrite elem_of_cons; tauto|].
  destruct (item_range h _ Hfi Hsp (behind (last_item h) lb.*1)) as [_ B2].
  { rewrite fmap_app. cbn. pose proof (behind_in (last_item h) lb.*1) as Hb. rewrite elem_of_cons in Hb. rewrite !elem_of_app, elem_of_cons, list_elem_of_singleton. tauto. }
  rewrite fmap_app in Hsp. cbn in Hsp. rewrite <- (assoc_L (++)) in Hsp. cbn in Hsp. apply spaced_app in Hsp as [_ S2]. destruct (behind_split (last_item h) lb.*1) as [t Et].
  rewrite Et in S2. apply spaced_cons in S2 as [S2 _]. unfold RT_MEMHEAP_SIZE, RT_MEMHEAP_MINIALLOC in *. lia.
Qed.

Lemma used_before h l1 x u (l2 : list block) p :
  spaced ((l1 ++ (x, u) :: l2).*1 ++ [last_item h]) → p ∈ l2.*1 →
  x + RT_MEMHEAP_SIZE + size_at ((l1 ++ (x, u) :: l2).*1 ++ [last_item h]) x ≤ p.
Proof.
  intros Hsp Hp. rewrite used_size by done. rewrite fmap_app in Hsp. cbn [fmap list_fmap fst] in Hsp. rewrite <- (assoc_L (++)) in Hsp. cbn [app] in Hsp.
  apply spaced_app in Hsp as [_ Hsp]. apply spaced_tail in Hsp. destruct l2 as [|[y v] l2]; [by apply elem_of_nil in Hp|].
  cbn [fmap list_fmap fst app] in *. change (behind (last_item h) (y :: l2.*1)) with y. apply elem_of_cons in Hp as [->|Hp]; [lia|].
  pose proof (spaced_head _ _ Hsp p ltac:(rewrite elem_of_app; by left)). unfold RT_MEMHEAP_SIZE, RT_MEMHEAP_MINIALLOC in *. lia.
Qed.

(** Items in use do not overlap. *)
Lemma used_apart h bs x y p z :
  spaced (bs.*1 ++ [last_item h]) → used_at h bs x y → used_at h bs p z → x ≠ p →
  x + RT_MEMHEAP_SIZE + y ≤ p ∨ p + RT_MEMHEAP_SIZE + z ≤ x.
Proof.
  intros Hsp [Hx <-] [Hp <-] Hne. apply list_elem_of_split in Hx as (l1 & l2 & ->).
  rewrite elem_of_app, elem_of_cons in Hp. destruct Hp as [Hp|[[= Hp]|Hp]]; [right|by subst|left].
  - apply list_elem_of_split in Hp as (l3 & l4 & ->). rewrite <- (assoc_L (++)) in *. cbn [app] in *. apply used_before; [done|].
    rewrite fmap_app, elem_of_app. right. by left.
  - apply used_before; [done|]. apply list_elem_of_fmap. by exists (p, true).
Qed.

(** ** Allocation for the user *)

Lemma alloc_used h (l1 : list block) p (l2 : list block) n bs' :
  let w := behind (last_item h) l2.*1 in
  bs' = l1 ++ (p, true) :: ((λ q, (q, false)) <$> rest n p w) ++ l2 →
  spaced ((l1 ++ (p, false) :: l2).*1 ++ [last_item h]) → spaced (bs'.*1 ++ [last_item h]) → n ≤ w - p - RT_MEMHEAP_SIZE →
  ∃ z, used_at h bs' p z ∧ n ≤ z ∧ ∀ x y, used_at h bs' x y ↔ used_at h (l1 ++ (p, false) :: l2) x y ∨ (x = p ∧ y = z).
Proof.
  intros w Eb S1 S2 Hn. exists (size_at (bs'.*1 ++ [last_item h]) p).
  assert (∀ x b, (x, b) ∈ l1 ++ l2 → size_at (bs'.*1 ++ [last_item h]) x = size_at ((l1 ++ (p, false) :: l2).*1 ++ [last_item h]) x) as Hsz.
  { intros x b Hx. rewrite Eb in S2 |- *. exact (size_replace h l1 p false [] true _ l2 x b S1 S2 Hx). }
  assert ((p, true) ∈ bs') as Hp by (rewrite Eb, elem_of_app, elem_of_cons; tauto). split_and!; [done| |].
  - rewrite Eb, used_size by (by rewrite <- Eb). rewrite fmap_app. unfold rest. destruct (splits n p w) eqn:Es; cbn; [|by fold w].
    unfold splits, RT_MEMHEAP_SIZE, RT_MEMHEAP_MINIALLOC in *. lia.
  - intros x y. unfold used_at. split.
    + intros [Hx Hy]. rewrite Eb, elem_of_app, elem_of_cons, elem_of_app in Hx.
      assert (x = p ∨ (x, true) ∈ l1 ++ l2) as [->|Hx'].
      { destruct Hx as [Hx|[[= ->]|[Hx|Hx]]]; [right; apply elem_of_app; by left|by left| |right; apply elem_of_app; by right].
        apply list_elem_of_fmap in Hx as (? & [=] & _). }
      * right. by split.
      * left. rewrite <- (Hsz x true Hx'). split; [|done]. rewrite elem_of_app in Hx'. rewrite elem_of_app, elem_of_cons. tauto.
    + intros [[Hx Hy]|[-> ->]]; [|done]. rewrite elem_of_app, elem_of_cons in Hx.
      assert ((x, true) ∈ l1 ++ l2) as Hx' by (rewrite elem_of_app; destruct Hx as [?|[[=]|?]]; tauto). rewrite (Hsz x true Hx'). split; [|done].
      rewrite Eb, elem_of_app, elem_of_cons, elem_of_app. rewrite elem_of_app in Hx'. tauto.
Qed.

Lemma kept_step a h bs bs' fl fl' s h' s' :
  heap_ok a bs fl h (items_of (ms_mem s)) → heap_step a h bs bs' fl' s h' s' →
  ∀ p z z' i, used_at h bs p z → used_at h bs' p z' → p + RT_MEMHEAP_SIZE ≤ i < p + RT_MEMHEAP_SIZE + Z.min z z' → ms_mem s' i = ms_mem s i.
Proof.
  intros Hok Hst p z z' i [Hu Hz] [Hu' Hz'] Hi0. assert (p + RT_MEMHEAP_SIZE ≤ i < p + RT_MEMHEAP_SIZE + z) as Hi by lia. assert (p + RT_MEMHEAP_SIZE ≤ i < p + RT_MEMHEAP_SIZE + z') as Hi' by lia. pose proof (st_ok _ _ _ _ _ _ _ _ Hst) as Hok'. pose proof (last_item_same _ _ (st_area _ _ _ _ _ _ _ _ Hst)) as El.
  pose proof (ho_spaced _ _ _ _ _ Hok') as Hsp'. pose proof (ho_first _ _ _ _ _ Hok') as Hfi'. rewrite El in Hsp'. destruct (st_area _ _ _ _ _ _ _ _ Hst) as [Es _]. rewrite Es in Hfi'.
  apply (st_frame _ _ _ _ _ _ _ _ Hst). intros x Hx. apply elem_of_app in Hx as [Hx|Hx].
  - eapply (payload_outside a h bs); [apply Hok..|exact Hu|exact Hz|exact Hi|exact Hx].
  - eapply (payload_outside a h bs'); [apply Hok|exact Hfi'|exact Hsp'|exact Hu'|exact Hz'|exact Hi'|exact Hx].
Qed.

(** ** Release for the user *)

Lemma release_shape l1 p l2 : ∃ l0 x u m l3,
  l1 ++ (p, true) :: l2 = l0 ++ (x, u) :: m ++ l3 ∧ release l1 p l2 = l0 ++ (x, false) :: [] ++ l3 ∧
  ∀ y, (y, true) ∈ (x, u) :: m ↔ y = p.
Proof.
  assert (∃ m l3, l2 = m ++ l3 ∧ match l2 with (_, false) :: l3 => l3 | _ => l2 end = l3 ∧ ∀ y, (y, true) ∉ m) as (m & l3 & E2 & E3 & Hm).
  { destruct l2 as [|[q [|]] l2]; [exists [], []|exists [], ((q, true) :: l2)|exists [(q, false)], l2]; split_and!; try done; intros y; set_solver. }
  unfold release. rewrite E3. destruct (last l1) as [[x [|]]|] eqn:El.
  - exists l1, p, true, m, l3. rewrite E2. split_and!; [done|done|]. intros y. rewrite elem_of_cons. specialize (Hm y). naive_solver.
  - apply last_Some in El as [l0 ->]. rewrite removelast_last. exists l0, x, false, ((p, true) :: m), l3. rewrite E2, <- (assoc_L (++)). split_and!; [done|done|].
    intros y. rewrite !elem_of_cons. specialize (Hm y). naive_solver.
  - exists l1, p, true, m, l3. rewrite E2. split_and!; [done|done|]. intros y. rewrite elem_of_cons. specialize (Hm y). naive_solver.
Qed.

Lemma release_used h l1 p l2 :
  spaced ((l1 ++ (p, true) :: l2).*1 ++ [last_item h]) → spaced ((release l1 p l2).*1 ++ [last_item h]) →
  ∀ x y, used_at h (release l1 p l2) x y ↔ used_at h (l1 ++ (p, true) :: l2) x y ∧ x ≠ p.
Proof.
  intros S1 S2 x y. destruct (release_shape l1 p l2) as (l0 & x0 & u & m & l3 & E1 & E2 & Hm).
  assert (NoDup (l1 ++ (p, true) :: l2).*1) as Hnd by (pose proof (spaced_NoDup _ S1) as Hnd; by apply NoDup_app in Hnd as [? _]).
  rewrite E1 in *. rewrite E2 in *. unfold used_at.
  assert ((x, true) ∈ l0 ++ (x0, false) :: [] ++ l3 ↔ (x, true) ∈ l0 ++ l3) as Hel.
  { rewrite !elem_of_app, elem_of_cons. cbn [app]. naive_solver. }
  assert ((x, true) ∈ l0 ++ l3 ↔ (x, true) ∈ l0 ++ (x0, u) :: m ++ l3 ∧ x ≠ p) as Hel2.
  { assert ((p, true) ∈ (x0, u) :: m) as Hp by (by apply Hm).
    rewrite app_comm_cons, !elem_of_app, (Hm x). split; [|naive_solver]. intros Hx. split; [tauto|]. intros ->.
    rewrite app_comm_cons, !fmap_app in Hnd. apply NoDup_app in Hnd as (_ & N1 & Hnd). apply NoDup_app in Hnd as (_ & N2 & _).
    assert (p ∈ ((x0, u) :: m).*1) as Hp1 by (apply list_elem_of_fmap; by exists (p, true)).
    destruct Hx as [Hx|Hx]; apply (list_elem_of_fmap_2 fst) in Hx; cbn in Hx.
    - apply (N1 p Hx), elem_of_app. by left.
    - exact (N2 p Hp1 Hx). }
  rewrite Hel. split.
  - intros [Hx <-]. apply Hel2 in Hx as Hx2. split_and!; [tauto| |tauto]. symmetry. by apply (size_replace h l0 x0 u m false [] l3 x true).
  - intros [[Hx <-] Hne]. assert ((x, true) ∈ l0 ++ l3) as Hx2 by (by apply Hel2). split; [done|]. by apply (size_replace h l0 x0 u m false [] l3 x true).
Qed.

Lemma ok_magic a bs fl h I w : heap_ok a bs fl h I → w ∈ last_item h :: bs.*1 → ∃ v : bool, I w Magic = RT_MEMHEAP_MAGIC + Z.b2z v.
Proof.
  intros Hok Hw. apply elem_of_cons in Hw as [->|Hw]; [exists true; apply (ho_end _ _ _ _ _ Hok)|]. apply list_elem_of_fmap in Hw as ([x v] & -> & Hw'). exists v. by apply (ho_item _ _ _ _ _ Hok).
Qed.

(** The checks of [rt_memheap_free] find the heap of an item in use. *)
Lemma memheap_free_run a l1 p l2 fl h s :
  idle a (ms_k s) → ms_heaps s !! a = Some h → heap_ok a (l1 ++ (p, true) :: l2) fl h (items_of (ms_mem s)) →
  dwp (rt_memheap_free (p + RT_MEMHEAP_SIZE)) (λ _ s', ∃ fl' h', heap_step a h (l1 ++ (p, true) :: l2) (release l1 p l2) fl' s h' s') s.
Proof.
  intros Hid Ha Hok. set (bs := l1 ++ (p, true) :: l2) in *. set (E := last_item h) in *.
  pose proof (headers_view a h bs (ho_first _ _ _ _ _ Hok) (ho_spaced _ _ _ _ _ Hok) s Ha) as Hv. pose proof (ok_header _ _ _ _ _ Hok) as Hh.
  assert ((p, true) ∈ bs) as Hpb by (unfold bs; rewrite elem_of_app, elem_of_cons; tauto).
  assert (p ∈ headers a h bs) as Hp by (apply Hh; left; right; apply list_elem_of_fmap; by exists (p, true)).
  destruct (headers_range a h bs (ho_area _ _ _ _ _ Hok) (ho_first _ _ _ _ _ Hok) (ho_spaced _ _ _ _ _ Hok) p Hp) as [Hp0 Hp1].
  unfold rt_memheap_free. rewrite (proj2 (Z.eqb_neq _ _)) by (unfold RT_MEMHEAP_SIZE in *; lia).
  replace (p + RT_MEMHEAP_SIZE - RT_MEMHEAP_SIZE) with p by lia. rewrite wrap_small by (unfold RT_MEMHEAP_SIZE in *; lia).
  destruct (ho_item _ _ _ _ _ Hok p true Hpb) as [Em Ep]. destruct (ok_next _ _ _ _ _ Hok l1 p true l2 eq_refl) as [En _]. fold E in En.
  apply dwp_seq. apply wp_bind. eapply view_rd; [exact Hv|exact Hp|]. rewrite Em.
  apply wp_bind, wp_assert; [done|]. apply wp_bind, wp_assert; [done|]. apply wp_bind. eapply view_rd; [exact Hv|exact Hp|]. rewrite En.
  set (w := behind E l2.*1). assert (w ∈ E :: bs.*1) as Hw.
  { unfold w, bs. rewrite fmap_app. cbn. pose proof (behind_in E l2.*1) as Hb. rewrite elem_of_cons in Hb. rewrite elem_of_cons, elem_of_app, elem_of_cons. tauto. }
  apply wp_bind. eapply view_rd; [exact Hv|apply Hh; by left|]. destruct (ok_magic _ _ _ _ _ w Hok Hw) as [v ->].
  apply wp_bind, wp_assert; [by destruct v|]. apply wp_bind. eapply view_rd; [exact Hv|exact Hp|]. rewrite Ep.
  apply wp_bind. unfold wp at 1. rewrite (is_memheap_run a s Hid). apply wp_ret. apply dwp_bind.
  eapply dwp_mono; [apply (locked_run a (free_section a p) (λ _ s', ∃ fl' h', heap_step a h bs (release l1 p l2) fl' s h' s')); [done|]|].
  - eapply wp_mono; [by apply (memheap_free_section_run a l1 l2 p fl h)|]. intros _ s1 (fl' & h' & Hst). apply heap_step_kernel in Hst as [Hk Hst]. split; [done|]. by exists fl', h'.
  - intros r s1 (x & -> & Hx). by apply dwp_ret.
Qed.

(** What an allocation split off is joined again. *)
Lemma release_carved l1 p l2 q : merged (l1 ++ (p, false) :: l2) → release l1 p (((λ x, (x, false)) <$> q) ++ l2) = l1 ++ (p, false) :: l2 ∨ (2 ≤ length q)%nat.
Proof.
  intros [M1 M2]%merged_app. destruct q as [|x [|y q]]; [left|left|right; cbn; lia].
  all: unfold release; cbn [fmap list_fmap app].
  all: assert (match last l1 with Some (z, false) => False | _ => True end) as Hl.
  1,3: destruct l1 as [|[z [|]] l1 _] using rev_ind; [done|by rewrite last_snoc|]; rewrite <- (assoc_L (++)) in M1; apply merged_app in M1 as [_ M1]; cbn in M1; destruct M1 as [[|] _]; done.
  - destruct l2 as [|[z [|]] l2]; [| |cbn in M2; destruct M2 as [[|] _]; done]; destruct (last l1) as [[? []]|]; done.
  - destruct (last l1) as [[? []]|]; done.
Qed.

(** * Properties *)

(** The heap at [a] consists of the items [bs], with the ring [fl] of free items. *)
Definition heap_at (a : Z) (bs : list block) (fl : list Z) (h : rt_memheap) (s : mst) : Prop :=
  idle a (ms_k s) ∧ ms_heaps s !! a = Some h ∧ heap_ok a bs fl h (items_of (ms_mem s)).

Lemma heap_step_at a h bs bs' fl' s h' s' : idle a (ms_k s) → heap_step a h bs bs' fl' s h' s' → heap_at a bs' fl' h' s'.
Proof. intros Hid [H1 H2 H3 H4 H5 H6]. split_and!; [by rewrite H1|rewrite H3; apply lookup_insert_eq|done]. Qed.

(** Allocation and release, as the user sees them. *)
Lemma alloc_user a bs fl h s size :
  heap_at a bs fl h s → 0 ≤ size ≤ 2 ^ 32 - 4 →
  let sizes := size_at (bs.*1 ++ [last_item h]) in
  dwp (rt_memheap_alloc a size) (λ r s',
    (r = 0 ∧ s' = s ∧ (mh_available_size h ≤ rounded size ∨ ∀ p, p ∈ fl → sizes p < rounded size)) ∨
    ∃ p z bs' fl' h', r = p + RT_MEMHEAP_SIZE ∧ heap_at a bs' fl' h' s' ∧ same_area h h' ∧
      pick (rounded size) (bs.*1 ++ [last_item h]) fl = Some p ∧ size ≤ z ∧
      (∀ x y, used_at h bs' x y ↔ used_at h bs x y ∨ (x = p ∧ y = z)) ∧ kept h bs s s' ∧
      mh_start_addr h ≤ p ∧ r + z ≤ mh_start_addr h + mh_pool_size h ∧
      ∀ x y, used_at h bs x y → x + RT_MEMHEAP_SIZE + y ≤ p ∨ r + z ≤ x) s.
Proof.
  intros (Hid & Ha & Hok) Hs sizes. destruct (rounded_facts size Hs) as (F1 & F2 & F3 & F4). set (n := rounded size) in *.
  eapply dwp_mono; [by apply (memheap_alloc_run a bs fl h s n)|]. cbv beta. intros r s'.
  destruct (Z.ltb_spec n (mh_available_size h)) as [Hlt|Hge]; [|intros [-> ->]; left; split_and!; [done|done|by left]].
  unfold alloc_post. destruct (pick n _ fl) as [p|] eqn:Ep.
  2: { intros [-> ->]. left. split_and!; [done|done|right]. intros p Hp. unfold pick in Ep. apply head_None in Ep.
       assert (¬ (n ≤ sizes p)); [|lia]. intros Hle. assert (p ∈ filter (λ p, n ≤ size_at (bs.*1 ++ [last_item h]) p) fl) as Hin by (by apply list_elem_of_filter).
       rewrite Ep in Hin. by apply elem_of_nil in Hin. }
  intros (l1 & l2 & f1 & f2 & Eb & Ef & -> & Hn & Hst). right. cbv zeta in Hst. pose proof (st_ok _ _ _ _ _ _ _ _ Hst) as Hok'.
  set (bs' := l1 ++ (p, true) :: ((λ q, (q, false)) <$> rest n p (behind (last_item h) l2.*1)) ++ l2) in *.
  pose proof (ho_spaced _ _ _ _ _ Hok') as Hsp'. pose proof (ho_first _ _ _ _ _ Hok') as Hfi'. pose proof (st_area _ _ _ _ _ _ _ _ Hst) as Hsa.
  rewrite (last_item_same _ _ Hsa) in Hsp'. destruct Hsa as [Es Eo]. rewrite Es in Hfi'.
  destruct (alloc_used h l1 p l2 n bs' eq_refl) as (z & Hz & Hnz & Hused); [rewrite <- Eb; apply Hok|done|done|]. rewrite <- Eb in Hused.
  destruct (used_range h bs' p z Hfi' Hsp' Hz) as (B1 & B2 & B3).
  assert (∀ y, ¬ used_at h bs p y) as Hnew.
  { intros y [Hy _]. assert (true = false); [|done]. apply (block_unique bs p); [|done|rewrite Eb, elem_of_app, elem_of_cons; tauto].
    pose proof (spaced_NoDup _ (ho_spaced _ _ _ _ _ Hok)) as Hnd. by apply NoDup_app in Hnd as [? _]. }
  exists p, z, bs', (rest n p (behind (last_item h) l2.*1) ++ f1 ++ f2), (consumed (cost n p (behind (last_item h) l2.*1)) h).
  split_and!; [done|by eapply heap_step_at|done|done|lia|done| |done|unfold last_item, RT_MEMHEAP_SIZE in *; lia|].
  - intros x y i Hx Hi. eapply (kept_step a h bs bs'); [done|done|done|by apply Hused; left|by rewrite Z.min_id].
  - intros x y Hx. apply (used_apart h bs'); [done|apply Hused; by left|done|]. intros ->. by apply (Hnew y).
Qed.

Lemma free_user a bs fl h s p z :
  heap_at a bs fl h s → used_at h bs p z →
  dwp (rt_memheap_free (p + RT_MEMHEAP_SIZE)) (λ _ s', ∃ bs' fl' h',
    heap_at a bs' fl' h' s' ∧ same_area h h' ∧ (∀ x y, used_at h bs' x y ↔ used_at h bs x y ∧ x ≠ p) ∧ kept h bs' s s') s.
Proof.
  intros (Hid & Ha & Hok) [Hp Hz]. apply list_elem_of_split in Hp as (l1 & l2 & ->).
  eapply dwp_mono; [by apply (memheap_free_run a l1 p l2 fl h)|]. cbv beta. intros _ s' (fl' & h' & Hst). exists (release l1 p l2), fl', h'.
  pose proof (st_area _ _ _ _ _ _ _ _ Hst) as Hsa. pose proof (ho_spaced _ _ _ _ _ (st_ok _ _ _ _ _ _ _ _ Hst)) as Hsp. rewrite (last_item_same _ _ Hsa) in Hsp.
  pose proof (release_used h l1 p l2 (ho_spaced _ _ _ _ _ Hok) Hsp) as Hused.
  split_and!; [by eapply heap_step_at|done|done|]. intros x y i Hx Hi. eapply (kept_step a h); [done|done|by apply Hused|done|by rewrite Z.min_id].
Qed.

(** C11: Allocation, of at most 2^32 - 4 bytes and with the semaphore of the heap free, is
    first fit in the order of the ring of free items. It answers 0 and
    changes nothing when the request is not less than the available memory or no free item
    is large enough; otherwise the first one that is: the memory is at least as large as
    asked for, it lies in the heap and apart from all memory in use, whose contents stay;
    what is in use afterwards is what was before and the new item. *)
Theorem rt_memheap_alloc_spec a bs fl h s size :
  heap_at a bs fl h s → 0 ≤ size ≤ 2 ^ 32 - 4 →
  let sizes := size_at (bs.*1 ++ [last_item h]) in
  dwp (rt_memheap_alloc a size) (λ r s',
    (r = 0 ∧ s' = s ∧ (mh_available_size h ≤ rounded size ∨ ∀ p, p ∈ fl → sizes p < rounded size)) ∨
    ∃ p z bs' fl' h', r = p + RT_MEMHEAP_SIZE ∧ heap_at a bs' fl' h' s' ∧ same_area h h' ∧
      pick (rounded size) (bs.*1 ++ [last_item h]) fl = Some p ∧ size ≤ z ∧
      (∀ x y, used_at h bs' x y ↔ used_at h bs x y ∨ (x = p ∧ y = z)) ∧ kept h bs s s' ∧
      mh_start_addr h ≤ p ∧ r + z ≤ mh_start_addr h + mh_pool_size h ∧
      ∀ x y, used_at h bs x y → x + RT_MEMHEAP_SIZE + y ≤ p ∨ r + z ≤ x) s.
Proof. apply alloc_user. Qed.

(** The memory of an item in use is given back: it is no longer in use, every other
    item in use keeps its place, its size and its contents, and the heap stays well
    formed, with adjacent free items joined and all free memory counted. *)
Theorem rt_memheap_free_spec a bs fl h s p z :
  heap_at a bs fl h s → used_at h bs p z →
  dwp (rt_memheap_free (p + RT_MEMHEAP_SIZE)) (λ _ s', ∃ bs' fl' h',
    heap_at a bs' fl' h' s' ∧ same_area h h' ∧ (∀ x y, used_at h bs' x y ↔ used_at h bs x y ∧ x ≠ p) ∧ kept h bs' s s') s.
Proof. apply free_user. Qed.

(** C13: Allocating and giving back restores the items, the amount of available memory and
    the contents of all memory in use, whether or not the allocation succeeds. *)
Theorem memheap_alloc_free a bs fl h s size :
  heap_at a bs fl h s → 0 ≤ size ≤ 2 ^ 32 - 4 →
  dwp (r ⇐ rt_memheap_alloc a size; rt_memheap_free r) (λ _ s', ∃ fl' h',
    heap_at a bs fl' h' s' ∧ same_area h h' ∧ mh_available_size h' = mh_available_size h ∧ kept h bs s s') s.
Proof.
  intros (Hid & Ha & Hok) Hs. apply dwp_bind. destruct (rounded_facts size Hs) as (F1 & _).
  assert (dwp (rt_memheap_free 0) (λ _ s', ∃ fl' h', heap_at a bs fl' h' s' ∧ same_area h h' ∧ mh_available_size h' = mh_available_size h ∧ kept h bs s s') s) as Hnone.
  { apply dwp_ret. by exists fl, h. }
  eapply dwp_mono; [by apply (memheap_alloc_run a bs fl h s (rounded size))|]. cbv beta. intros r s1.
  destruct (rounded size <? mh_available_size h); [|by intros [-> ->]]. unfold alloc_post. destruct (pick _ _ _) as [p|]; [|by intros [-> ->]].
  intros (l1 & l2 & f1 & f2 & -> & -> & -> & Hn & Hst). cbv zeta in Hst. destruct (heap_step_at _ _ _ _ _ _ _ _ Hid Hst) as (Hid1 & Ha1 & Hok1).
  set (h1 := consumed _ h) in *. set (bs1 := l1 ++ (p, true) :: _) in *. pose proof (st_area _ _ _ _ _ _ _ _ Hst) as Hsa1. pose proof (last_item_same _ _ Hsa1) as El1.
  pose proof (ho_spaced _ _ _ _ _ Hok1) as Hsp1. rewrite El1 in Hsp1.
  destruct (alloc_used h l1 p l2 (rounded size) bs1 eq_refl (ho_spaced _ _ _ _ _ Hok) Hsp1 Hn) as (z & _ & _ & Hused).
  eapply dwp_mono; [by eapply memheap_free_run|]. cbv beta. intros _ s2 (fl' & h' & Hst2). exists fl', h'.
  destruct (release_carved l1 p l2 (rest (rounded size) p (behind (last_item h) l2.*1)) (ho_merged _ _ _ _ _ Hok)) as [Er|Hr].
  2: { unfold rest in Hr. destruct (splits _ _ _); cbn in Hr; lia. }
  rewrite Er in Hst2. destruct (heap_step_at _ _ _ _ _ _ _ _ Hid1 Hst2) as (Hid2 & Ha2 & Hok2). pose proof (st_area _ _ _ _ _ _ _ _ Hst2) as Hsa2.
  assert (same_area h h') as Hsa by (destruct Hsa1 as [A1 A2], Hsa2 as [A3 A4]; split; congruence).
  split_and!; [done|done|by rewrite (ho_available _ _ _ _ _ Hok2), (ho_available _ _ _ _ _ Hok), (last_item_same _ _ Hsa)|].
  intros x y i Hx Hi. assert (used_at h bs1 x y) as Hx1 by (apply Hused; by left).
  rewrite (kept_step _ _ _ _ _ _ _ _ _ Hok1 Hst2 x y y i); [apply (kept_step _ _ _ _ _ _ _ _ _ Hok Hst x y y); rewrite ?Z.min_id; done| | |by rewrite Z.min_id]; unfold used_at; by rewrite El1.
Qed.

(** ** A new heap *)

(** The headers that [rt_memheap_init] writes. *)
Definition first_items (a start last : Z) (I : items) : items :=
  item_at last (Z.lor RT_MEMHEAP_MAGIC RT_MEMHEAP_USED) a start start 0 0
    (put_between NextFree PrevFree
      (upd (upd (item_at start RT_MEMHEAP_MAGIC a 0 0 start start
        (item_at (free_header a) RT_MEMHEAP_MAGIC a 0 0 (free_header a) (free_header a) I)) start Next last) start Prev last)
      (free_header a) (free_header a) start).

Lemma first_items_ok a h I :
  area_ok a h → mh_start_addr h + RT_MEMHEAP_SIZE + RT_MEMHEAP_MINIALLOC ≤ last_item h →
  mh_available_size h = last_item h - mh_start_addr h - RT_MEMHEAP_SIZE →
  heap_ok a [(mh_start_addr h, false)] [mh_start_addr h] h (first_items a (mh_start_addr h) (last_item h) I).
Proof.
  intros Har Hl Hav. set (b := mh_start_addr h) in *. set (E := last_item h) in *. set (F := free_header a).
  assert (b ≠ E) as N1 by (unfold RT_MEMHEAP_SIZE, RT_MEMHEAP_MINIALLOC in *; lia).
  assert (F ≠ b ∧ F ≠ E) as [N2 N3].
  { destruct Har as [_ _ H _]. unfold E, last_item, F, free_header, RT_MEMHEAP_SIZE, RT_MEMHEAP_MINIALLOC in *. fold b in H, Hl. lia. }
  unfold first_items, put_between, item_at. fold F. split.
  - done.
  - done.
  - cbn. done.
  - cbn. split_and!; try done; autorewrite with memheap; done.
  - cbn. split_and!; try done; autorewrite with memheap; done.
  - done.
  - intros p u [= -> ->]%list_elem_of_singleton. split; autorewrite with memheap; done.
  - autorewrite with memheap. done.
  - done.
  - cbn. change (behind E []) with E. lia.
Qed.

(** An address where no object lives yet. *)
Definition fresh_obj (a : Z) (k : kst) : Prop := not_kernel a k ∧ ∀ cls, Obj a ∉ tlist (ob_list (k_objects k)) cls.

(** The semaphore of a new heap, behind its object. *)
Lemma new_lock_run k a k1 name c1 O1 :
  k1 = mk_kst c1 (k_timers k) O1 (k_ipc k) → sched_inv (k_sched k) → 0 ≤ sc_lock_nest (k_sched k) < 2 ^ 15 - 1 → kinv k1 → scheduled (k_sched k) c1 →
  ob_obj O1 = <[Obj a := header RT_Object_Class_MemHeap name (k_obj k !! Obj a)]> (k_obj k) →
  (∀ cls, tlist (ob_list O1) cls = if decide (cls = RT_Object_Class_MemHeap)
    then Obj a :: tlist (ob_list (k_objects k)) RT_Object_Class_MemHeap else tlist (ob_list (k_objects k)) cls) →
  fresh_obj (heap_lock a) k → tlist (k_tl k) (HSuspend (heap_lock a)) = [] → 0 < a →
  ∃ k2, rt_sem_init (heap_lock a) name 1 RT_IPC_FLAG_FIFO k1 = Some (RT_EOK, k2) ∧ kinv k2 ∧ idle a k2.
Proof.
  intros -> Hi Hn HI1 Hd HO HL [Hg1 Hg2] Hw Ha. set (k1 := mk_kst _ _ _ _) in *. assert (Obj a ≠ Obj (heap_lock a)) as Hne by (unfold heap_lock; intros [=]; lia).
  assert (wp (rt_sem_init (heap_lock a) name 1 RT_IPC_FLAG_FIFO) (λ r s', r = RT_EOK ∧ kinv s' ∧ ∃ x, sem_ok (heap_lock a) s' 1 x ∧ o_flag x = RT_IPC_FLAG_FIFO ∧
    o_name x = Str.rt_strncpy name RT_NAME_MAX ∧ ∀ o, o ≠ Obj (heap_lock a) → k_obj s' !! o = k_obj k1 !! o) k1) as Hsem.
  { apply rt_sem_init_spec; [done|cbn; by rewrite (proj1 (scheduled_nests _ _ Hd))|unfold heap_lock; lia|lia|by left| | |].
    - intros x Hx. apply (Hg1 x). unfold k1, k_obj in Hx. cbn in Hx. by rewrite HO, lookup_insert_ne in Hx.
    - intros cls. cbn. rewrite HL. case_decide; [|apply Hg2]. rewrite elem_of_cons. intros [EQ|Hx]; [by rewrite EQ in Hne|by apply (Hg2 RT_Object_Class_MemHeap)].
    - rewrite <- Hw. apply (scheduled_waiting _ _ _ Hi Hd). intros p. by apply is_wait_not_ready. }
  unfold wp in Hsem. destruct (rt_sem_init _ _ _ _ k1) as [[r k2]|]; [|done]. destruct Hsem as (-> & HI2 & x & Hx & _ & _ & Hoth).
  exists k2. split_and!; [done|done|]. split; [lia|]. split; [|by exists x].
  eexists. rewrite Hoth by done. unfold k1, k_obj. cbn. rewrite HO, lookup_insert_eq. split; [done|]. apply get_type_header. unfold plain_class. tauto.
Qed.

(** Setting up a heap: it is one free item, all of its memory but two headers is
    available, and it is ready for use; memory outside the headers is untouched. *)
Theorem rt_memheap_init_spec s a name start_addr size :
  kinv (ms_k s) → 0 ≤ sc_lock_nest (k_sched (ms_k s)) < 2 ^ 15 - 1 →
  fresh_obj a (ms_k s) → fresh_obj (heap_lock a) (ms_k s) → tlist (k_tl (ms_k s)) (HSuspend (heap_lock a)) = [] →
  0 < a → a + 100 ≤ 2 ^ 32 → 0 ≤ size < 2 ^ 32 → let pool := size / 4 * 4 in 0 < start_addr → start_addr + pool ≤ 2 ^ 32 →
  a + 100 ≤ start_addr ∨ start_addr + pool ≤ a → 2 * RT_MEMHEAP_SIZE + RT_MEMHEAP_MINIALLOC ≤ pool →
  wp (rt_memheap_init a name start_addr size) (λ r s', r = RT_EOK ∧ kinv (ms_k s') ∧
    ∃ h, heap_at a [(start_addr, false)] [start_addr] h s' ∧ mh_start_addr h = start_addr ∧ mh_pool_size h = pool ∧
      mh_available_size h = pool - 2 * RT_MEMHEAP_SIZE ∧
      ∀ i, (∀ p, p ∈ headers a h [(start_addr, false)] → i < p ∨ p + RT_MEMHEAP_SIZE ≤ i) → ms_mem s' i = ms_mem s i) s.
Proof.
  intros HI Hn [Hf1 Hf2] [Hg1 Hg2] Hw Ha0 Ha1 Hs pool Hs0 Hs1 Hap Hpool.
  destruct (object_init_run (ms_k s) a RT_Object_Class_MemHeap name HI Hn ltac:(unfold plain_class; tauto) Hf1 Hf2) as (c1 & O1 & Hr1 & HI1 & Hd1 & HO1 & HL1).
  set (k1 := mk_kst c1 (k_timers (ms_k s)) O1 (k_ipc (ms_k s))) in *.
  unfold rt_memheap_init. apply wp_bind, wp_assert; [apply nz_true; lia|]. apply wp_bind. unfold wp at 1. rewrite (mh_kern_run _ s _ _ Hr1).
  rewrite RT_ALIGN_DOWN_4 by done. fold pool. rewrite !(wrap_small 32) by (unfold RT_MEMHEAP_SIZE, RT_MEMHEAP_MINIALLOC in *; lia).
  set (h := mk_memheap _ _ _ _ _ _). set (s1 := mk_mst k1 (ms_errno s) (<[a := h]> (ms_heaps s)) (ms_mem s)).
  apply wp_bind. change (wp (put_heap a h) ?Q (kernel_st k1 s)) with (Q tt s1).
  assert (area_ok a h) as Har by (split; cbn; auto with lia).
  assert (spaced ([(start_addr, false)].*1 ++ [last_item h])) as Hsp by (cbn; unfold last_item, RT_MEMHEAP_SIZE, RT_MEMHEAP_MINIALLOC in *; cbn; lia).
  set (A := headers a h [(start_addr, false)]). set (E := last_item h) in *. set (F := free_header a).
  assert (start_addr + (pool - 2 * RT_MEMHEAP_SIZE) + RT_MEMHEAP_SIZE = E) as EE by (unfold E, last_item, RT_MEMHEAP_SIZE; cbn; lia).
  pose proof (headers_apart a h [(start_addr, false)] Har eq_refl Hsp) as Aap. fold A in Aap.
  pose proof (headers_range a h [(start_addr, false)] Har eq_refl Hsp) as Arg. fold A in Arg.
  assert (∀ p, p ∈ A → 0 ≤ p < 2 ^ 32) as Arg' by (intros p Hp; specialize (Arg p Hp); unfold RT_MEMHEAP_SIZE in *; lia).
  assert (F ∈ A ∧ start_addr ∈ A ∧ E ∈ A) as (HF & Hb & HE) by (unfold A, headers; cbn; fold F E; rewrite !elem_of_cons; tauto).
  pose proof (headers_view a h [(start_addr, false)] eq_refl Hsp s1 (lookup_insert_eq _ _ _)) as Hv. fold A in Hv.
  assert (NoDup A) as Hnd by (by apply headers_NoDup). unfold A, headers in Hnd. cbn in Hnd. fold F E in Hnd.
  assert (start_addr ≠ F ∧ start_addr ≠ E ∧ F ≠ E) as (N1 & N2 & N3).
  { apply NoDup_cons in Hnd as [M1 Hnd]. apply NoDup_cons in Hnd as [M2 _]. rewrite !elem_of_cons in M1, M2. split_and!; intros EQ; [apply M1|apply M2|apply M1]; rewrite EQ; (by left) || (by right; left). }
  apply wp_bind. eapply (view_set_item A Aap); [exact Hv|exact HF| |].
  { intros x Hx. rewrite !elem_of_cons, elem_of_nil in Hx. pose proof (Arg' F HF). destruct Hx as [->|[->|[->|[->|[->|[->|[]]]]]]]; [done|lia..]. }
  intros s2 Hv2. apply wp_bind. eapply (view_set_item A Aap); [exact Hv2|exact Hb| |].
  { intros x Hx. rewrite !elem_of_cons, elem_of_nil in Hx. pose proof (Arg' _ Hb). destruct Hx as [->|[->|[->|[->|[->|[->|[]]]]]]]; [done|lia..]. }
  intros s3 Hv3. rewrite EE.
  apply wp_bind. eapply (view_wr A Aap); [exact Hv3|exact Hb|by apply Arg'|]. intros s4 Hv4.
  apply wp_bind. eapply view_rd; [exact Hv4|exact Hb|]. rewrite upd_same. apply wp_bind. eapply (view_wr A Aap); [exact Hv4|exact Hb|by apply Arg'|]. intros s5 Hv5.
  apply wp_bind. eapply (view_insert A Aap s1 Arg' _ _ _ a h []); [exact Hv5|apply lookup_insert_eq| | | |].
  { unfold item_at. cbn. split_and!; autorewrite with memheap; done. }
  { cbn. rewrite elem_of_cons. set_solver. }
  { cbn. intros z Hz. rewrite !elem_of_cons, elem_of_nil in Hz. destruct Hz as [->|[->|[]]]; done. }
  intros s6 Hv6. apply wp_bind. eapply view_rd; [exact Hv6|exact Hb|]. rewrite put_field, upd_field, upd_same by done.
  apply wp_bind. eapply (view_set_item A Aap); [exact Hv6|exact HE| |].
  { intros x Hx. rewrite !elem_of_cons, elem_of_nil in Hx. pose proof (Arg' _ Hb). destruct Hx as [->|[->|[->|[->|[->|[->|[]]]]]]]; [done|lia..]. }
  change (mh_free_list h) with F. change (behind F []) with F. intros s7 Hv7.
  pose proof (first_items_ok a h (items_of (ms_mem s1)) Har ltac:(apply Hsp) ltac:(unfold last_item; cbn; lia)) as Hok.
  assert (ms_k s7 = k1) as Hk7 by apply Hv7. destruct (new_lock_run (ms_k s) a k1 name c1 O1) as (k2 & Hr2 & HI2 & Hid); [done|apply (ki_sched _ (proj1 HI))|done..|].
  apply wp_bind. unfold wp at 1. rewrite (mh_kern_run _ s7 RT_EOK k2) by (by rewrite Hk7). apply wp_ret. split; [done|]. split; [done|]. exists h.
  split_and!; [|done|done|done|].
  - split; [done|]. split; [cbn; rewrite (vw_heaps _ _ _ _ _ Hv7); apply lookup_insert_eq|].
    eapply heap_ok_ext; [|exact Hok]. intros z f Hz. apply (vw_items _ _ _ _ _ Hv7 z f Hz).
  - intros i Hi. exact (vw_frame _ _ _ _ _ Hv7 i Hi).
Qed.

(** * Instances *)

(** A heap of 200 bytes at 2000, set up by the structure at 1000; and the same heap with 20
    bytes in use. *)
Definition demo_mh : mst := mk_mst demo_sem 0 ∅ (λ _, 0).
Definition state_after {A} (m : MM A) (s : mst) : mst := match m s with Some (_, s') => s' | None => s end.
Definition demo_new : mst := state_after (rt_memheap_init 1000 [109; 0] 2000 202) demo_mh.
Definition demo_used : mst := state_after (rt_memheap_alloc 1000 20) demo_new.

Definition demo_heap (available max_used : Z) : rt_memheap := mk_memheap 2000 200 available max_used 2000 1044.

Lemma demo_idle : idle 1000 (ms_k demo_new).
Proof.
  split; [done|]. split; [eexists; by vm_compute|]. exists (mk_object [109; 0; 0; 0; 0; 0; 0; 0] (RT_Object_Class_Semaphore + RT_Object_Class_Static) 0).
  split; [split; [by vm_compute|split; [done|by left]]|]. split; [by vm_compute|]. split; [done|]. intros _. by vm_compute.
Qed.

Lemma demo_area available max_used : area_ok 1000 (demo_heap available max_used).
Proof. split; [cbn; lia|cbn; lia|left; cbn; lia|done]. Qed.

Lemma demo_new_at : heap_at 1000 [(2000, false)] [2000] (demo_heap 152 48) demo_new.
Proof.
  split; [apply demo_idle|]. split; [by vm_compute|]. split; [apply demo_area|done|done|by vm_compute|by vm_compute|done| |by vm_compute|done|done].
  intros p u [= -> ->]%list_elem_of_singleton. by vm_compute.
Qed.

Lemma demo_used_at : heap_at 1000 [(2000, true); (2044, false)] [2044] (demo_heap 108 92) demo_used ∧ used_at (demo_heap 108 92) [(2000, true); (2044, false)] 2000 20.
Proof.
  split; [|split; [by left|done]]. split; [|split; [by vm_compute|]].
  { replace (ms_k demo_used) with (ms_k demo_new) by (vm_compute; reflexivity). apply demo_idle. }
  split; [apply demo_area|done|done|by vm_compute|by vm_compute|done| |by vm_compute|cbn; tauto|done].
  intros p u Hp. apply elem_of_cons in Hp as [[= -> ->]|Hp]; [by vm_compute|]. apply list_elem_of_singleton in Hp as [= -> ->]. by vm_compute.
Qed.

Lemma rt_memheap_alloc_spec_witness :
  dwp (rt_memheap_alloc 1000 20) (λ r _, r = 0 ∨ ∃ p, r = p + RT_MEMHEAP_SIZE ∧ 2000 ≤ p) demo_new.
Proof.
  eapply dwp_mono; [apply (rt_memheap_alloc_spec 1000 _ _ _ demo_new 20 demo_new_at); lia|].
  intros r s [(-> & _)|(p & z & bs & fl & h & -> & _ & _ & _ & _ & _ & _ & Hp & _)]; [by left|right; by exists p].
Defined.

Lemma rt_memheap_free_spec_witness :
  dwp (rt_memheap_free 2024) (λ _ s, ∃ bs fl h, heap_at 1000 bs fl h s) demo_used.
Proof.
  eapply dwp_mono; [apply (rt_memheap_free_spec 1000 [(2000, true); (2044, false)] [2044] (demo_heap 108 92) demo_used 2000 20); apply demo_used_at|].
  intros _ s (bs & fl & h & Hat & _). by exists bs, fl, h.
Defined.

Lemma memheap_alloc_free_witness :
  dwp (r ⇐ rt_memheap_alloc 1000 30; rt_memheap_free r) (λ _ s, ∃ fl h, heap_at 1000 [(2000, true); (2044, false)] fl h s) demo_used.
Proof.
  eapply dwp_mono; [apply (memheap_alloc_free 1000 _ _ _ demo_used 30 (proj1 demo_used_at)); lia|].
  intros _ s (fl & h & Hat & _). by exists fl, h.
Defined.

Lemma rt_memheap_init_spec_witness :
  wp (rt_memheap_init 1000 [109; 0] 2000 202) (λ r s, r = RT_EOK ∧ ∃ h, heap_at 1000 [(2000, false)] [2000] h s) demo_mh.
Proof.
  eapply wp_mono; [apply (rt_memheap_init_spec demo_mh 1000 [109; 0] 2000 202); [apply demo_sem_kinv|by vm_compute| | |reflexivity|lia|lia|lia|lia|..]|].
  - split; [done|]. intros cls. unfold tlist. cbn. rewrite lookup_empty. set_solver.
  - split; [done|]. intros cls. unfold tlist. cbn. rewrite lookup_empty. set_solver.
  - by vm_compute.
  - left. lia.
  - by vm_compute.
  - intros r s (-> & _ & h & Hat & _). split; [done|]. by exists h.
Defined.
