(* ===== verification/MemheapRealloc.v ===== *)
(** [rt_memheap_realloc], src/memheap.c: an item grows into the free item behind it, gives
    back what it no longer needs, or moves. *)

From Stdlib Require Import ZArith Lia.
From stdpp Require Import base numbers option gmap.
From stdpp Require Import list sorting.
From S2P Require Import Prelude.
From S2P Require Import Proc.
From S2P Require Import Kservice.
From S2P Require Import Bytes.
From S2P Require Import KernelDefs.
From S2P Require Import Scheduler.
From S2P Require Import Object.
From S2P Require Import Timer.
From S2P Require Import Thread.
From S2P Require Import Clock.
From S2P Require Import Ipc.
From S2P Require Import Kstate.
From S2P Require Import Sem.
From S2P Require Import Memheap.
From S2P Require Import MemheapInv.
From S2P Require Import MemheapSpec.
Local Open Scope Z_scope.
Local Open Scope rt_scope.

(** * Splitting an item *)

(** A new item [q] behind [x]: the converse of [items_merge]. *)
Lemma items_split a l1 x u q l2 h I :
  let w := behind (last_item h) l2.*1 in
  items_ok a (l1 ++ (x, u) :: l2) h I → x + RT_MEMHEAP_SIZE + RT_MEMHEAP_MINIALLOC ≤ q → q + RT_MEMHEAP_SIZE + RT_MEMHEAP_MINIALLOC ≤ w →
  items_ok a (l1 ++ (x, u) :: (q, false) :: l2) h (put_between Next Prev (upd (upd I q Magic RT_MEMHEAP_MAGIC) q PoolPtr a) x w q).
Proof.
  intros w Hi Hq1 Hq2. pose proof (items_nodup _ _ _ _ Hi) as Hnd. destruct Hi as [H1 H2 H3 H4 H5]. set (E := last_item h) in *.
  assert (spaced (l1.*1 ++ x :: q :: l2.*1 ++ [E])) as Hsp.
  { rewrite fmap_app in H2. cbn in H2. rewrite <- (assoc_L (++)) in H2. cbn in H2. apply spaced_app in H2 as [S1 S2]. apply spaced_app. split; [done|].
    destruct (behind_split E l2.*1) as [t Et]. rewrite Et in S2 |- *. apply spaced_cons in S2 as [_ S2]. by rewrite !spaced_cons. }
  assert (q ∉ E :: l1.*1 ++ x :: l2.*1) as Nq.
  { pose proof (spaced_NoDup _ Hsp) as Hn. apply NoDup_app in Hn as (_ & N1 & Hn). apply NoDup_cons in Hn as [N2 Hn]. apply NoDup_cons in Hn as [N3 _].
    rewrite !elem_of_cons, !elem_of_app, !elem_of_cons in *. intros [->|[Hq|[->|Hq]]]; [apply N3; right; by left|apply (N1 q Hq); rewrite !elem_of_cons; tauto|apply N2; by left|apply N3; by left]. }
  rewrite fmap_app in *. cbn [fmap list_fmap fst] in *. split; rewrite ?fmap_app; cbn [fmap list_fmap fst]; fold E.
  - by destruct l1.
  - by rewrite <- (assoc_L (++)).
  - replace (l1.*1 ++ x :: q :: l2.*1) with ((l1.*1 ++ [x]) ++ q :: l2.*1) by (by rewrite <- (assoc_L (++))).
    pose proof (ring_put Next Prev ltac:(done) (upd (upd I q Magic RT_MEMHEAP_MAGIC) q PoolPtr a) E (l1.*1 ++ [x]) q l2.*1) as Hr.
    assert (before E (l1.*1 ++ [x]) = x) as Eb by (unfold before; by rewrite last_snoc). rewrite Eb, <- !(assoc_L (++)) in Hr. fold w in Hr.
    rewrite <- (assoc_L (++)). apply Hr; [done|done|]. cbn [app]. eapply ring_ext; [done| |exact H3]. intros z _. by rewrite !upd_field.
  - intros z b Hz. rewrite !put_field by done. rewrite elem_of_app, !elem_of_cons in Hz. destruct (decide (z = q)) as [->|Hne].
    + rewrite upd_same, upd_field, upd_same by done. split; [|done]. assert (b = false) as ->; [|done].
      rewrite elem_of_cons, elem_of_app, elem_of_cons in Nq. destruct Hz as [Hz|[[= -> ->]|[[= ->]|Hz]]]; [|tauto|done|]; exfalso; apply (list_elem_of_fmap_2 fst) in Hz; cbn in Hz; tauto.
    + rewrite !upd_addr by done. apply H4. rewrite elem_of_app, elem_of_cons. destruct Hz as [Hz|[Hz|[[= -> ->]|Hz]]]; [tauto|tauto|done|tauto].
  - rewrite put_field, !upd_addr; [done|..]; (done || (intros EQ; apply Nq; rewrite EQ; by left)).
Qed.

(** The rings read from memory. *)
Lemma items_ext_at a bs h I I' : (∀ z f, z ∈ last_item h :: bs.*1 → I' z f = I z f) → items_ok a bs h I → items_ok a bs h I'.
Proof.
  intros HI [H1 H2 H3 H4 H5]. split; try done.
  - eapply ring_ext; [done| |exact H3]. intros z Hz. by rewrite !HI.
  - intros p u Hp. rewrite !HI; [by apply H4|right; apply list_elem_of_fmap; by exists (p, u)..].
  - rewrite HI; [done|by left].
Qed.

(** The items behind, without a free one in front. *)
Definition trim (l2 : list block) : list block := match l2 with (_, false) :: l3 => l3 | _ => l2 end.

Lemma free_item_cases (l2 : list block) : (used_end (head l2) ∧ trim l2 = l2) ∨ ∃ r l3, l2 = (r, false) :: l3 ∧ trim l2 = l3.
Proof. destruct l2 as [|[r [|]] l3]; [left; done|left; done|right; by exists r, l3]. Qed.

Lemma trim_split (l2 : list block) : ∃ m, l2 = m ++ trim l2 ∧ ∀ x, (x, true) ∉ m.
Proof. destruct l2 as [|[r [|]] l3]; [exists []|exists []|exists [(r, false)]]; (split; [done|set_solver]). Qed.

Section resize.
Variables (a : Z) (l1 l2 : list block) (p : Z) (fl : list Z) (h : rt_memheap) (s : mst).
Let E := last_item h.
Let F := free_header a.
Let w := behind E l2.*1.
Let bs := l1 ++ (p, true) :: l2.
Let I := items_of (ms_mem s).
Hypothesis Ha : ms_heaps s !! a = Some h.
Hypothesis Hok : heap_ok a bs fl h I.

Lemma rs_p : p ∈ E :: bs.*1.
Proof. unfold bs. rewrite fmap_app. cbn. rewrite elem_of_cons, elem_of_app, elem_of_cons. tauto. Qed.
Lemma rs_w : w ∈ E :: bs.*1.
Proof.
  unfold bs. rewrite fmap_app. cbn. pose proof (behind_in E l2.*1) as Hb. fold w in Hb. rewrite elem_of_cons in Hb. rewrite elem_of_cons, elem_of_app, elem_of_cons. tauto.
Qed.

(** The free item [q] is entered into the ring of free items and counted, as the last
    step of making an item smaller. *)
Lemma enter_free_run A s0 hc I' bs' l1' q l3 fl' s' :
  bs' = l1' ++ (q, false) :: l3 → (∀ x y, x ∈ A → y ∈ A → x = y ∨ apart x y) → (∀ x, x ∈ A → 0 ≤ x < 2 ^ 32) →
  view A s0 (<[a := hc]> (ms_heaps s0)) I' s' → same_area h hc → mh_free_list hc = mh_free_list h → items_ok a bs' h I' → ring NextFree PrevFree I' F fl' →
  (∀ z, z ∈ headers a h bs' → z ∈ A) → (∀ z, z ∈ A → z ∈ headers a h bs ++ headers a h bs') → q ∉ fl' → q :: fl' ≡ₚ free_of bs' → merged bs' →
  mh_available_size hc + (behind E l3.*1 - q - RT_MEMHEAP_SIZE) = available E bs' →
  wp (insert_free a q ;; size ← MEMITEM_SIZE q; add_available a size) (λ _ s2, ∃ h', heap_step a h bs bs' (q :: fl') s0 h' s2) s'.
Proof.
  intros Eb Aap Arg Hv Hsa Hfl Hi Hr HA HA2 Nq Hperm Hmg Hav. pose proof (ho_area _ _ _ _ _ Hok) as Har. pose proof (ao_list _ _ Har) as Efl. rewrite <- Hfl in Efl. fold F in Efl.
  pose proof (items_nodup _ _ _ _ Hi) as Hnd. fold E in Hnd. pose proof (headers_NoDup a h bs' Har (io_first _ _ _ _ Hi) (io_spaced _ _ _ _ Hi)) as HndF.
  assert (q ∈ bs'.*1) as Hqb by (rewrite Eb, fmap_app, elem_of_app; cbn; rewrite elem_of_cons; tauto).
  assert (∀ z, z ∈ q :: fl' → z ∈ bs'.*1) as Hfree.
  { intros z Hz. rewrite Hperm in Hz. apply free_of_elem in Hz. apply list_elem_of_fmap. by exists (z, false). }
  assert (q ∉ F :: fl') as NqF.
  { rewrite elem_of_cons. intros [EF|]; [|done]. unfold headers in HndF. apply NoDup_cons in HndF as [HF _]. apply HF. fold F. rewrite <- EF, elem_of_app. by left. }
  assert (∀ z, z ∈ q :: F :: fl' → z ∈ A) as HzA.
  { intros z Hz. apply HA. unfold headers. fold F E. rewrite elem_of_cons, elem_of_app. rewrite !elem_of_cons in Hz. specialize (Hfree z). rewrite elem_of_cons in Hfree. tauto. }
  apply wp_bind. eapply (view_insert A Aap s0 Arg _ _ _ a hc fl'); rewrite ?Efl; [exact Hv|apply lookup_insert_eq|exact Hr|exact NqF|exact HzA|].
  intros s1 Hv1. set (I1 := put_between NextFree PrevFree I' F (behind F fl') q) in *.
  assert (items_ok a bs' h I1) as Hi1 by (eapply items_ext; [|exact Hi]; intros z f N1 N2; unfold I1; by rewrite put_field).
  assert (I1 q Next = behind E l3.*1) as En by (rewrite Eb in Hi1; by destruct (items_links _ _ _ _ _ _ _ Hi1)).
  assert (0 ≤ available E bs' < 2 ^ 32) as Hsm by (eapply available_small; [exact Hok|exact Hi]).
  assert (q + RT_MEMHEAP_SIZE + RT_MEMHEAP_MINIALLOC ≤ behind E l3.*1 < 2 ^ 32) as Hq.
  { split.
    - pose proof (io_spaced _ _ _ _ Hi) as Hs. rewrite Eb, fmap_app in Hs. cbn in Hs. rewrite <- (assoc_L (++)) in Hs. cbn in Hs. apply spaced_app in Hs as [_ Hs].
      fold E in Hs. destruct (behind_split E l3.*1) as [t Et]. rewrite Et in Hs. by apply spaced_cons in Hs as [? _].
    - apply Arg, HA. unfold headers. fold E. rewrite Eb, fmap_app. cbn. pose proof (behind_in E l3.*1) as Hb. rewrite elem_of_cons in Hb.
      rewrite elem_of_cons, !elem_of_app, elem_of_cons, list_elem_of_singleton. tauto. }
  assert (0 ≤ q) as Hq0 by (apply Arg, HzA; by left).
  apply wp_bind. eapply view_size; [exact Hv1|apply HzA; by left|]. rewrite En, (wrap_small 32) by (unfold RT_MEMHEAP_SIZE, RT_MEMHEAP_MINIALLOC in *; lia).
  eapply view_add; [exact Hv1|apply lookup_insert_eq|lia|]. intros s2 Hv2. rewrite insert_insert_eq in Hv2.
  eexists. eapply view_step; [exact Hv2|exact Hsa|exact HA2|exact HA|]. apply heap_ok_intro.
  - by eapply area_ok_same; [exact Hsa|exact Hfl|].
  - by eapply items_same_area; [exact Hsa|].
  - apply (ring_put NextFree PrevFree ltac:(done) I' F [] q fl'); [|done|done]. cbn [app]. constructor; [|].
    + intros HF. assert (F ∈ bs'.*1) as HF' by (apply Hfree; by right). unfold headers in HndF. apply NoDup_cons in HndF as [N _]. apply N. fold F. rewrite elem_of_app. by left.
    + assert (NoDup (q :: fl')) as N; [|by apply NoDup_cons in N as [_ ?]]. rewrite Hperm. apply free_of_NoDup. by apply NoDup_cons in Hnd as [_ ?].
  - exact Hperm.
  - exact Hmg.
  - cbn. assert (last_item hc = E) as EL by by apply last_item_same. unfold last_item in EL |- *. cbn. rewrite EL. exact Hav.
Qed.

Section shrink.
Variable n : Z.
Let q := p + n + RT_MEMHEAP_SIZE.
Hypothesis Hn : RT_MEMHEAP_MINIALLOC ≤ n.
Hypothesis Hlarge : q + RT_MEMHEAP_SIZE + RT_MEMHEAP_MINIALLOC ≤ w.
Let bs1 := l1 ++ (p, true) :: (q, false) :: l2.
Let A := headers a h bs1.

Lemma sh_new : let I1 := put_between Next Prev (upd (upd I q Magic RT_MEMHEAP_MAGIC) q PoolPtr a) p w q in items_ok a bs1 h I1.
Proof. apply items_split; [apply (heap_items _ _ _ _ _ Hok)|unfold q, RT_MEMHEAP_SIZE, RT_MEMHEAP_MINIALLOC in *; lia|exact Hlarge]. Qed.

Lemma sh_in z : z ∈ A ↔ z ∈ headers a h bs ∨ z = q.
Proof. unfold A, headers, bs, bs1. rewrite !fmap_app. cbn [fmap list_fmap fst]. rewrite !elem_of_cons, !elem_of_app, !elem_of_cons. tauto. Qed.

Lemma sh_fresh : q ∉ headers a h bs.
Proof.
  pose proof sh_new as Hi. cbv zeta in Hi. pose proof (headers_NoDup a h bs1 (ho_area _ _ _ _ _ Hok) (io_first _ _ _ _ Hi) (io_spaced _ _ _ _ Hi)) as Hnd.
  assert (headers a h bs1 ≡ₚ q :: headers a h bs) as Hp.
  { unfold headers, bs, bs1. rewrite !fmap_app. cbn [fmap list_fmap fst]. etrans; [|apply perm_swap]. constructor.
    replace (l1.*1 ++ p :: q :: l2.*1) with ((l1.*1 ++ [p]) ++ q :: l2.*1) by (by rewrite <- (assoc_L (++))).
    rewrite <- (assoc_L (++)). cbn [app]. rewrite <- Permutation_middle. by rewrite <- !(assoc_L (++)). }
  rewrite Hp in Hnd. by apply NoDup_cons in Hnd as [? _].
Qed.

Lemma shrink_section_run :
  wp (shrink_section a p n) (λ _ s', ∃ fl' h', heap_step a h bs (l1 ++ (p, true) :: (q, false) :: trim l2) fl' s h' s') s.
Proof.
  pose proof sh_new as Hi1. cbv zeta in Hi1. pose proof sh_in as Hin. pose proof sh_fresh as Nq. pose proof (ho_area _ _ _ _ _ Hok) as Har.
  pose proof (io_first _ _ _ _ Hi1) as Hfi. pose proof (io_spaced _ _ _ _ Hi1) as Hsp.
  pose proof (headers_view a h bs1 Hfi Hsp s Ha) as Hv. pose proof (headers_apart a h bs1 Har Hfi Hsp) as Aap. fold A I in Hv, Aap.
  assert (∀ x, x ∈ A → 0 ≤ x < 2 ^ 32) as Arg by (intros x Hx; pose proof (headers_range a h bs1 Har Hfi Hsp x Hx); unfold RT_MEMHEAP_SIZE in *; lia).
  pose proof (ok_header _ _ _ _ _ Hok) as Hh. destruct (ok_nodup _ _ _ _ _ Hok) as [Nb Nf]. fold E F in Hh, Nb, Nf.
  assert (q ∈ A) as Hq by (apply Hin; by right). assert (w ∈ A) as Hw by (apply Hin; left; apply Hh; left; apply rs_w).
  pose proof (ho_ring _ _ _ _ _ Hok) as Hrb. fold E in Hrb. unfold bs in Hrb, Nb. rewrite fmap_app in Hrb, Nb. cbn [fmap list_fmap fst] in Hrb, Nb.
  unfold shrink_section. replace (p + n + RT_MEMHEAP_SIZE) with q by done. rewrite (wrap_small 32) by (by apply Arg).
  apply wp_bind. eapply (view_new_item A Aap s Arg _ _ _ a E l1.*1 p l2.*1 q); [exact Hv|exact Hrb|exact Nb| | |destruct (ao_struct _ _ Har); lia|].
  { intros Hx. apply Nq, Hh. left. unfold bs. by rewrite fmap_app. }
  { intros z Hz. apply elem_of_cons in Hz as [->|Hz]; [done|]. apply Hin. left. apply Hh. left. unfold bs. by rewrite fmap_app. }
  fold w. intros s1 Hv1. set (I1 := put_between Next Prev _ p w q) in *.
  assert (items_ok a ((l1 ++ [(p, true)]) ++ (q, false) :: l2) h I1) as Hi1' by (by rewrite <- (assoc_L (++))).
  destruct (items_links _ _ _ _ _ _ _ Hi1') as [_ En]. fold E w in En.
  assert (ring NextFree PrevFree I1 F fl) as Hr1 by (eapply ring_ext; [done| |apply Hok]; intros z _; unfold I1; by autorewrite with memheap).
  apply wp_bind. eapply view_rd; [exact Hv1|done|]. rewrite En. apply wp_bind. eapply view_used; [exact Hv1|done|].
  assert (∀ z, z ∈ fl → z ∈ headers a h bs) as Hfl by (intros z Hz; apply Hh; right; by right).
  assert (q ∉ fl) as Nqf by (intros Hz; by apply Nq, Hfl).
  pose proof (ho_perm _ _ _ _ _ Hok) as Hpm. unfold bs in Hpm. rewrite free_of_app, free_of_cons in Hpm. cbn [app] in Hpm.
  pose proof (ho_merged _ _ _ _ _ Hok) as Hmg. unfold bs in Hmg. rewrite merged_app in Hmg. destruct Hmg as [Hm1 Hm2].
  pose proof (ho_available _ _ _ _ _ Hok) as Hav. fold E in Hav. unfold bs in Hav. rewrite available_app in Hav.
  assert (<[a := h]> (ms_heaps s) = ms_heaps s) as Eh by (by apply insert_id).
  destruct (free_item_cases l2) as [[Hu ->]|(r & l3 & El2 & ->)].
  - assert (I1 w Magic = RT_MEMHEAP_MAGIC + 1) as -> by (by apply (items_behind _ _ _ _ _ _ _ Hi1')). apply wp_bind, wp_ret.
    eapply wp_mono; [eapply (enter_free_run A s h I1 bs1 (l1 ++ [(p, true)]) q l2 fl)|].
    + unfold bs1. by rewrite <- (assoc_L (++)).
    + exact Aap.
    + exact Arg.
    + by rewrite Eh.
    + done.
    + done.
    + exact Hi1.
    + exact Hr1.
    + done.
    + intros z Hz. rewrite elem_of_app. by right.
    + exact Nqf.
    + unfold bs1. rewrite free_of_app, !free_of_cons. cbn [app]. by rewrite Hpm, Permutation_middle.
    + unfold bs1. rewrite merged_app. split; [done|]. split; [by left|]. destruct l2 as [|[r [|]] l2']; [done| |done]. split; [by right|]. by destruct Hm2 as [_ ?].
    + fold w. rewrite Hav. unfold bs1. rewrite available_app. cbn [available]. fold w. lia.
    + intros _ s2 (h' & Hst). by exists (q :: fl), h'.
  - destruct (io_item _ _ _ _ Hi1 r false) as [Em _]; [unfold bs1; rewrite El2, elem_of_app, !elem_of_cons; tauto|].
    assert (w = r) as Ewr by (unfold w; by rewrite El2). rewrite Ewr, Em, is_used_bit.
    set (bs2 := l1 ++ (p, true) :: (q, false) :: l3).
    assert (items_ok a (((l1 ++ [(p, true)]) ++ [(q, false)]) ++ (r, false) :: l3) h I1) as Hi2 by (rewrite <- !(assoc_L (++)); cbn [app]; by rewrite <- El2).
    destruct (items_links _ _ _ _ _ _ _ Hi2) as [_ Er]. fold E in Er. set (w2 := behind E l3.*1) in *.
    assert (w2 ∈ A) as Hw2.
    { apply Hin. left. apply Hh. left. unfold bs. rewrite El2, fmap_app. cbn. pose proof (behind_in E l3.*1) as Hb. fold w2 in Hb. rewrite elem_of_cons in Hb.
      rewrite elem_of_cons, elem_of_app, !elem_of_cons. tauto. }
    assert (r + RT_MEMHEAP_SIZE + RT_MEMHEAP_MINIALLOC ≤ w2) as Hrw.
    { pose proof (io_spaced _ _ _ _ Hi2) as Hs2. fold E in Hs2. rewrite fmap_app in Hs2. cbn [fmap list_fmap fst] in Hs2. rewrite <- (assoc_L (++)) in Hs2. cbn [app] in Hs2.
      apply spaced_app in Hs2 as [_ Hs2]. destruct (behind_split E l3.*1) as [t Et]. rewrite Et in Hs2. by apply spaced_cons in Hs2 as [? _]. }
    assert (r ∈ fl) as Hrf by (rewrite Hpm, El2, free_of_cons; cbn; rewrite elem_of_app, elem_of_cons; tauto).
    apply list_elem_of_split in Hrf as (f1 & f2 & Ef). rewrite Ef in Hr1, Nf. rewrite El2 in Hav. cbn [available] in Hav. fold w2 in Hav.
    pose proof (Arg w2 Hw2) as Rw2. pose proof (Arg w Hw) as Rw. rewrite Ewr in Rw.
    assert (0 ≤ available E bs < 2 ^ 32) as Hsm by (eapply available_small; [exact Hok|apply (heap_items _ _ _ _ _ Hok)]).
    assert (0 ≤ available p l1 ∧ 0 ≤ available E l3) as [Av1 Av3].
    { pose proof (ho_spaced _ _ _ _ _ Hok) as Hs2. unfold bs in Hs2. rewrite El2, fmap_app in Hs2. cbn [fmap list_fmap fst] in Hs2. rewrite <- (assoc_L (++)) in Hs2. cbn [app] in Hs2.
      apply spaced_app in Hs2 as [S1 S2]. apply spaced_tail, spaced_tail in S2. split; [apply (available_bounds p l1 S1)|apply (available_bounds E l3 S2)]. }
    pose proof (ho_available _ _ _ _ _ Hok) as Hav0. fold E in Hav0.
    apply wp_bind. apply wp_bind. eapply view_rd; [exact Hv1|done|]. rewrite En, Ewr.
    apply wp_bind. eapply view_size; [exact Hv1|by rewrite <- Ewr|]. rewrite Er, (wrap_small 32) by (unfold RT_MEMHEAP_SIZE, RT_MEMHEAP_MINIALLOC in *; lia).
    apply wp_bind. eapply view_add; [exact Hv1|exact Ha|unfold RT_MEMHEAP_SIZE, RT_MEMHEAP_MINIALLOC in *; lia|]. intros s2 Hv2.
    assert (∀ z, z ∈ E :: ((l1 ++ [(p, true)]) ++ (q, false) :: (r, false) :: l3).*1 → z ∈ A) as HzA.
    { intros z Hz. unfold A, headers, bs1. fold E. rewrite El2. rewrite <- (assoc_L (++)) in Hz. cbn [app] in Hz. rewrite elem_of_cons in Hz. rewrite elem_of_cons, elem_of_app, list_elem_of_singleton. tauto. }
    eapply (absorb_run A s Aap Arg); [exact Hv2|rewrite El2 in Hi1'; exact Hi1'|exact HzA|exact Hr1|exact Nf| |].
    { intros z Hz. apply Hin. left. apply Hh. right. by rewrite Ef. }
    fold E w2. intros s3 Hv3. pose proof Hi1' as Hi3. rewrite El2 in Hi3. apply items_merge in Hi3. fold E w2 in Hi3.
    assert (fl ≡ₚ r :: f1 ++ f2) as Hpf by (rewrite Ef; by rewrite Permutation_middle).
    eapply wp_mono; [eapply (enter_free_run A s _ _ bs2 (l1 ++ [(p, true)]) q l3 (f1 ++ f2)); [|exact Aap|exact Arg|exact Hv3|..]|].
    + unfold bs2. by rewrite <- (assoc_L (++)).
    + done.
    + done.
    + unfold bs2. eapply items_ext; [|rewrite <- (assoc_L (++)) in Hi3; exact Hi3]. intros z f N1 N2. by rewrite link_field.
    + pose proof (ring_remove NextFree PrevFree ltac:(done) (link Next Prev I1 q w2) F f1 r f2 Nf) as Hrm. apply Hrm.
      eapply ring_ext; [done| |exact Hr1]. intros z _. by rewrite !link_field.
    + intros z Hz. unfold A, headers, bs1, bs2 in *. rewrite El2. rewrite !fmap_app in *. cbn [fmap list_fmap fst] in *. rewrite !elem_of_cons, !elem_of_app, !elem_of_cons in *. clear -Hz. tauto.
    + intros z Hz. apply Hin in Hz as [Hz| ->]; rewrite elem_of_app; [by left|right]. unfold headers, bs2. rewrite fmap_app, elem_of_cons, !elem_of_app. cbn. rewrite !elem_of_cons. tauto.
    + intros Hz. apply Nqf. rewrite Hpf. by right.
    + unfold bs2. rewrite free_of_app, !free_of_cons. cbn [app]. rewrite <- Permutation_middle. constructor. apply (Permutation_cons_inv (a := r)).
      rewrite <- Hpf, Hpm, El2, free_of_cons. cbn [app]. by rewrite Permutation_middle.
    + unfold bs2. rewrite merged_app. split; [done|]. split; [by left|]. rewrite El2 in Hm2. destruct Hm2 as [_ Hm2]. by apply (merged_addr r).
    + fold w2. cbn [mh_available_size with_available]. rewrite Hav. unfold bs2. rewrite available_app. cbn [available]. fold w2. change (behind E ((q, false) :: l3).*1) with q. lia.
    + intros _ s4 (h' & Hst). by exists (q :: f1 ++ f2), h'.
Qed.
End shrink.

(** A heap step in two stages: the headers [A] and then those of the new items. *)
Lemma step_compose A A2 hc I2 s2 hd I3 s3 bs' fl' :
  view A s (<[a := hc]> (ms_heaps s)) I2 s2 → view A2 s2 (<[a := hd]> (ms_heaps s2)) I3 s3 → same_area h hd →
  (∀ z, z ∈ A → z ∈ headers a h bs) → (∀ z, z ∈ A2 ↔ z ∈ headers a h bs') → heap_ok a bs' fl' hd I3 → heap_step a h bs bs' fl' s hd s3.
Proof.
  intros [K1 E1 H1 _ _ F1] [K2 E2 H2 _ L2 F2] Hsa HA HA2 Hok'. split; [congruence|congruence|rewrite H2, H1; apply insert_insert_eq|done| |].
  - eapply heap_ok_ext; [|exact Hok']. intros z f Hz. apply L2, HA2. unfold headers in *. by rewrite (last_item_same h hd) in Hz.
  - intros i Hi. setoid_rewrite elem_of_app in Hi. rewrite F2, F1; [done|..]; intros z Hz; apply Hi; [left; by apply HA|right; by apply HA2].
Qed.

Section grow.
Variables (q : Z) (l3 : list block) (n : Z).
Hypothesis El2 : l2 = (q, false) :: l3.
Let w2 := behind E l3.*1.
Let q' := p + RT_MEMHEAP_SIZE + n.
Hypothesis Hmore : q - p - RT_MEMHEAP_SIZE < n.
Hypothesis Hfit : q' + RT_MEMHEAP_SIZE + RT_MEMHEAP_MINIALLOC ≤ w2.
Let bs1 := l1 ++ (p, true) :: l3.
Let bs2 := l1 ++ (p, true) :: (q', false) :: l3.

Lemma drop_item_run A s0 hs I0 s1 f1 f2 (Q : unit → mst → Prop) :
  (∀ x y, x ∈ A → y ∈ A → x = y ∨ apart x y) → (∀ x, x ∈ A → 0 ≤ x < 2 ^ 32) →
  view A s0 hs I0 s1 → items_ok a bs h I0 → (∀ z, z ∈ E :: bs.*1 → z ∈ A) →
  ring NextFree PrevFree I0 F (f1 ++ q :: f2) → NoDup (F :: f1 ++ q :: f2) → (∀ z, z ∈ F :: f1 ++ q :: f2 → z ∈ A) →
  (∀ s' I', view A s0 hs I' s' → items_ok a bs1 h I' → ring NextFree PrevFree I' F (f1 ++ f2) → Q tt s') → wp (drop_item q) Q s1.
Proof.
  intros Aap Arg Hv Hi HA Hr Nf HF HQ. pose proof (items_nodup _ _ _ _ Hi) as Hnd. unfold bs in Hi, HA, Hnd. rewrite El2 in Hi, HA, Hnd. fold E in Hnd.
  assert (items_ok a ((l1 ++ [(p, true)]) ++ (q, false) :: l3) h I0) as Hi' by (by rewrite <- (assoc_L (++))).
  destruct (items_links _ _ _ _ _ _ _ Hi') as [Ep En]. fold E w2 in Ep, En. rewrite fmap_app in HA, Hnd. cbn [fmap list_fmap fst] in HA, Hnd.
  assert (before E (l1 ++ [(p, true)]).*1 = p) as Eb by (unfold before; rewrite fmap_app; cbn; by rewrite last_snoc). rewrite Eb in Ep. clear Eb.
  assert (p ∈ A ∧ q ∈ A) as [Hp Hq] by (split; apply HA; rewrite elem_of_cons, elem_of_app, !elem_of_cons; tauto).
  assert (w2 ∈ A) as Hw by (apply HA; pose proof (behind_in E l3.*1) as Hb; fold w2 in Hb; rewrite elem_of_cons in Hb; rewrite elem_of_cons, elem_of_app, !elem_of_cons; tauto).
  assert (p ≠ q ∧ w2 ≠ q) as [N1 N2].
  { replace (l1.*1 ++ p :: q :: l3.*1) with ((l1.*1 ++ [p]) ++ q :: l3.*1) in Hnd by (by rewrite <- (assoc_L (++))).
    destruct (behind_ne E _ q _ Hnd) as [B1 B2]. unfold before in B2. rewrite last_snoc in B2. split; [exact B2|exact B1]. }
  unfold drop_item. apply wp_bind. eapply (view_unlink A Aap s0 Arg); [exact Hv|exact Hr|exact Nf|exact HF|]. intros s2 Hv2.
  set (I2 := link NextFree PrevFree I0 (before F f1) (behind F f2)) in *.
  assert (I2 q Next = w2 ∧ I2 q Prev = p) as [En2 Ep2] by (unfold I2; by rewrite !link_field).
  apply wp_bind. eapply view_rd; [exact Hv2|done|]. apply wp_bind. eapply view_rd; [exact Hv2|done|]. rewrite En2, Ep2.
  apply wp_bind. eapply view_wr; [done|exact Hv2|done|auto|]. intros s3 Hv3.
  apply wp_bind. eapply view_rd; [exact Hv3|done|]. apply wp_bind. eapply view_rd; [exact Hv3|done|].
  rewrite (upd_addr _ _ _ _ q Prev), (upd_field _ _ _ _ _ Next), En2, Ep2 by done.
  eapply view_wr; [done|exact Hv3|done|auto|]. intros s4 Hv4. eapply HQ; [exact Hv4| |].
  - apply (items_merge a l1 p true q false l3 h I2). eapply items_ext; [|exact Hi]. intros z f M1 M2. unfold I2. by rewrite link_field.
  - eapply (ring_ext NextFree PrevFree ltac:(done) I2); [intros z _; by rewrite !upd_field|]. by eapply ring_remove.
Qed.

Lemma gr_new : q + 1 ≤ q' ∧ p + RT_MEMHEAP_SIZE + RT_MEMHEAP_MINIALLOC ≤ q.
Proof.
  pose proof (ho_spaced _ _ _ _ _ Hok) as Hs. unfold bs in Hs. rewrite El2, fmap_app in Hs. cbn [fmap list_fmap fst] in Hs. rewrite <- (assoc_L (++)) in Hs. cbn [app] in Hs.
  apply spaced_app in Hs as [_ Hs]. apply spaced_cons in Hs as [Hs _]. split; [unfold q'; lia|exact Hs].
Qed.

(** The new free item, behind the larger one. *)
Lemma grow_build_run J s2 h1 f1 f2 :
  same_area h h1 → mh_free_list h1 = mh_free_list h → ms_heaps s2 !! a = Some h1 →
  view (headers a h bs2) s2 (ms_heaps s2) J s2 → items_ok a bs1 h J → ring NextFree PrevFree J F (f1 ++ f2) →
  (∀ z, z ∈ F :: f1 ++ f2 → z ∈ headers a h bs2) → NoDup (F :: f1 ++ f2) → q' ∉ F :: f1 ++ f2 →
  wp (new_item a p q' ;; insert_free a q') (λ _ s3, ∃ I3, view (headers a h bs2) s2 (ms_heaps s2) I3 s3 ∧ items_ok a bs2 h I3 ∧ ring NextFree PrevFree I3 F (q' :: f1 ++ f2)) s2.
Proof.
  intros Hsa Hfl Ha2 Hv Hi Hr HF Nf Nq. pose proof (ho_area _ _ _ _ _ Hok) as Har. destruct gr_new as [G1 G2].
  pose proof (items_split a l1 p true q' l3 h J Hi) as Hi4. fold E w2 in Hi4. specialize (Hi4 ltac:(unfold q', RT_MEMHEAP_SIZE, RT_MEMHEAP_MINIALLOC in *; lia) Hfit). fold bs2 in Hi4.
  pose proof (headers_apart a h bs2 Har (io_first _ _ _ _ Hi4) (io_spaced _ _ _ _ Hi4)) as Aap.
  assert (∀ x, x ∈ headers a h bs2 → 0 ≤ x < 2 ^ 32) as Arg
    by (intros x Hx; pose proof (headers_range a h bs2 Har (io_first _ _ _ _ Hi4) (io_spaced _ _ _ _ Hi4) x Hx); unfold RT_MEMHEAP_SIZE in *; lia).
  pose proof (items_nodup _ _ _ _ Hi) as Hnd. pose proof (items_nodup _ _ _ _ Hi4) as Hnd4. pose proof (io_ring _ _ _ _ Hi) as Hrb. fold E in Hnd, Hnd4, Hrb.
  unfold bs1 in Hnd, Hrb. unfold bs2 in Hnd4. rewrite fmap_app in Hnd, Hrb, Hnd4. cbn [fmap list_fmap fst] in Hnd, Hrb, Hnd4.
  assert (q' ∉ E :: l1.*1 ++ p :: l3.*1) as Nq2.
  { assert (E :: l1.*1 ++ p :: q' :: l3.*1 ≡ₚ q' :: E :: l1.*1 ++ p :: l3.*1) as Hp.
    { etrans; [|apply perm_swap]. constructor. replace (l1.*1 ++ p :: q' :: l3.*1) with ((l1.*1 ++ [p]) ++ q' :: l3.*1) by (by rewrite <- (assoc_L (++))).
      rewrite <- Permutation_middle. by rewrite <- (assoc_L (++)). }
    rewrite Hp in Hnd4. by apply NoDup_cons in Hnd4 as [? _]. }
  assert (∀ z, z ∈ q' :: E :: l1.*1 ++ p :: l3.*1 → z ∈ headers a h bs2) as HzA.
  { intros z Hz. unfold headers, bs2. fold E. rewrite fmap_app. cbn [fmap list_fmap fst]. rewrite !elem_of_cons, !elem_of_app, !elem_of_cons in *. clear -Hz. tauto. }
  apply wp_bind. eapply (view_new_item _ Aap s2 Arg _ _ _ a E l1.*1 p l3.*1 q'); [exact Hv|exact Hrb|exact Hnd|exact Nq2|exact HzA|destruct (ao_struct _ _ Har); lia|].
  fold w2. intros s3 Hv3. set (I3 := put_between Next Prev _ p w2 q') in *. pose proof (ao_list _ _ Har) as Efl. rewrite <- Hfl in Efl. fold F in Efl.
  assert (ring NextFree PrevFree I3 F (f1 ++ f2)) as Hr3 by (eapply ring_ext; [done| |exact Hr]; intros z _; unfold I3; by autorewrite with memheap).
  eapply (view_insert _ Aap s2 Arg _ _ _ a h1 (f1 ++ f2)); rewrite ?Efl; [exact Hv3|exact Ha2|exact Hr3|exact Nq| |].
  { intros z Hz. apply elem_of_cons in Hz as [->|Hz]; [apply HzA; by left|by apply HF]. }
  intros s4 Hv4. eexists. split; [exact Hv4|]. split.
  - eapply items_ext; [|exact Hi4]. intros z f N1 N2. by rewrite put_field.
  - by apply (ring_put NextFree PrevFree ltac:(done) I3 F [] q' (f1 ++ f2)).
Qed.

Lemma grow_fits_run f1 f2 :
  fl = f1 ++ q :: f2 →
  wp (consume a (n - (q - p - RT_MEMHEAP_SIZE)) ;; drop_item q ;; new_item a p q' ;; insert_free a q')
    (λ _ s', ∃ h', heap_step a h bs bs2 (q' :: f1 ++ f2) s h' s') s.
Proof.
  intros Ef. destruct gr_new as [G1 G2]. pose proof (ho_area _ _ _ _ _ Hok) as Har. pose proof (heap_items _ _ _ _ _ Hok) as Hi.
  pose proof (headers_view a h bs (ho_first _ _ _ _ _ Hok) (ho_spaced _ _ _ _ _ Hok) s Ha) as Hv. fold I in Hv, Hi.
  pose proof (headers_apart a h bs Har (ho_first _ _ _ _ _ Hok) (ho_spaced _ _ _ _ _ Hok)) as Aap.
  assert (∀ x, x ∈ headers a h bs → 0 ≤ x < 2 ^ 32) as Arg
    by (intros x Hx; pose proof (headers_range a h bs Har (ho_first _ _ _ _ _ Hok) (ho_spaced _ _ _ _ _ Hok) x Hx); unfold RT_MEMHEAP_SIZE in *; lia).
  pose proof (ok_header _ _ _ _ _ Hok) as Hh. destruct (ok_nodup _ _ _ _ _ Hok) as [Nb Nf]. fold E F in Hh, Nb, Nf. rewrite Ef in Nf.
  pose proof (ho_available _ _ _ _ _ Hok) as Hav. fold E in Hav. pose proof (available_bounds E bs (ho_spaced _ _ _ _ _ Hok)) as [_ Hab]. specialize (Hab _ (ho_first _ _ _ _ _ Hok)).
  pose proof (ho_free _ _ _ _ _ Hok) as Hr. fold F in Hr. rewrite Ef in Hr.
  assert (available E bs = available p l1 + (w2 - q - RT_MEMHEAP_SIZE) + available E l3) as Eav
    by (unfold bs; rewrite El2, available_app; cbn [available]; fold w2; lia).
  assert (0 ≤ available p l1 ∧ 0 ≤ available E l3) as [Av1 Av3].
  { pose proof (ho_spaced _ _ _ _ _ Hok) as Hs2. unfold bs in Hs2. rewrite El2, fmap_app in Hs2. cbn [fmap list_fmap fst] in Hs2. rewrite <- (assoc_L (++)) in Hs2. cbn [app] in Hs2.
    apply spaced_app in Hs2 as [S1 S2]. apply spaced_tail, spaced_tail in S2. split; [apply (available_bounds p l1 S1)|apply (available_bounds E l3 S2)]. }
  assert (E = mh_start_addr h + mh_pool_size h - RT_MEMHEAP_SIZE) as EE by done. destruct (ao_memory _ _ Har) as [M1 M2].
  set (c := n - (q - p - RT_MEMHEAP_SIZE)). assert (0 ≤ mh_available_size h - c ≤ mh_pool_size h ∧ mh_pool_size h < 2 ^ 32) as [C1 C2].
  { unfold c, q', RT_MEMHEAP_SIZE, RT_MEMHEAP_MINIALLOC in *. lia. }
  apply wp_bind. eapply view_consume; [exact Hv|exact Ha|exact C1|exact C2|]. intros s1 Hv1.
  apply wp_bind. eapply (drop_item_run _ _ _ _ _ f1 f2); [exact Aap|exact Arg|exact Hv1|exact Hi|intros z Hz; apply Hh; by left|exact Hr|exact Nf|intros z Hz; apply Hh; right; by rewrite Ef|].
  intros s2 I2 Hv2 Hi2 Hr2.
  set (h1 := consumed c h) in *. set (J := items_of (ms_mem s2)).
  assert (∀ z f, z ∈ headers a h bs → J z f = I2 z f) as HJ by (intros z f Hz; apply (vw_items _ _ _ _ _ Hv2 z f Hz)).
  assert (∀ z, z ∈ E :: bs1.*1 → z ∈ headers a h bs) as Hb1.
  { intros z Hz. apply Hh. left. unfold bs1 in Hz. unfold bs. rewrite El2. rewrite fmap_app in *. cbn [fmap list_fmap fst] in *. rewrite !elem_of_cons, !elem_of_app, !elem_of_cons in *. clear -Hz. tauto. }
  assert (items_ok a bs1 h J) as Hi3 by (eapply items_ext_at; [|exact Hi2]; intros z f Hz; by apply HJ, Hb1).
  assert (∀ z, z ∈ F :: f1 ++ f2 → z ∈ F :: f1 ++ q :: f2) as Hsub by (intros z; rewrite !elem_of_cons, !elem_of_app, elem_of_cons; clear; tauto).
  assert (ring NextFree PrevFree J F (f1 ++ f2)) as Hr3.
  { eapply ring_ext; [done| |exact Hr2]. intros z Hz. rewrite !HJ; [done|..]; apply Hh; right; rewrite Ef; by apply Hsub. }
  pose proof (items_split a l1 p true q' l3 h J Hi3) as Hi4. fold E w2 in Hi4. specialize (Hi4 ltac:(unfold q', RT_MEMHEAP_SIZE, RT_MEMHEAP_MINIALLOC in *; lia) Hfit). fold bs2 in Hi4.
  assert (view (headers a h bs2) s2 (ms_heaps s2) J s2) as Hv3.
  { apply (headers_view a h1 bs2 (io_first _ _ _ _ Hi4) (io_spaced _ _ _ _ Hi4) s2). rewrite (vw_heaps _ _ _ _ _ Hv2). apply lookup_insert_eq. }
  assert (ms_heaps s2 !! a = Some h1) as Ha2 by (rewrite (vw_heaps _ _ _ _ _ Hv2); apply lookup_insert_eq).
  assert (f1 ++ f2 ≡ₚ free_of l1 ++ free_of l3) as Hperm.
  { pose proof (ho_perm _ _ _ _ _ Hok) as Hp. unfold bs in Hp. rewrite Ef, El2, free_of_app, !free_of_cons in Hp. cbn [app] in Hp.
    apply (Permutation_cons_inv (a := q)). by rewrite Permutation_middle, Hp, Permutation_middle. }
  assert (NoDup (headers a h bs2)) as Nh by (apply headers_NoDup; [done|apply Hi4|apply Hi4]).
  assert (headers a h bs2 ≡ₚ q' :: F :: bs1.*1 ++ [E]) as Hph.
  { unfold headers, bs2, bs1. rewrite !fmap_app. cbn [fmap list_fmap fst]. fold F E. etrans; [|apply perm_swap]. constructor.
    replace (l1.*1 ++ p :: q' :: l3.*1) with ((l1.*1 ++ [p]) ++ q' :: l3.*1) by (by rewrite <- (assoc_L (++))).
    rewrite <- (assoc_L (++)). cbn [app]. rewrite <- Permutation_middle. by rewrite <- !(assoc_L (++)). }
  assert (∀ z, z ∈ F :: f1 ++ f2 → z ∈ F :: bs1.*1 ++ [E]) as Hfb.
  { intros z Hz. apply elem_of_cons in Hz as [->|Hz]; [by left|right]. rewrite Hperm, <- free_of_app in Hz. apply free_of_elem, (list_elem_of_fmap_2 fst) in Hz. cbn in Hz.
    unfold bs1. rewrite fmap_app, !elem_of_app in *. cbn. rewrite elem_of_cons. clear -Hz. tauto. }
  assert (NoDup (F :: f1 ++ f2)) as Nf2 by (rewrite app_comm_cons in Nf |- *; rewrite <- Permutation_middle in Nf; by apply NoDup_cons in Nf as [_ ?]).
  assert (q' ∉ F :: f1 ++ f2) as Nq by (intros Hz%Hfb; rewrite Hph in Nh; by apply NoDup_cons in Nh as [? _]).
  eapply wp_mono; [eapply (grow_build_run J s2 h1 f1 f2); [done|done|exact Ha2|exact Hv3|exact Hi3|exact Hr3| |exact Nf2|exact Nq]|].
  { intros z Hz%Hfb. rewrite Hph. by right. }
  cbv beta. intros _ s5 (I5 & Hv5 & Hi5 & Hr5). exists h1. eapply (step_compose _ (headers a h bs2)); [exact Hv2| |done|done|done|].
  { rewrite insert_id by done. exact Hv5. }
  apply heap_ok_intro.
  - by eapply (area_ok_same a h).
  - by eapply (items_same_area a _ h).
  - exact Hr5.
  - unfold bs2. rewrite free_of_app, !free_of_cons. cbn [app]. rewrite <- Permutation_middle. by constructor.
  - pose proof (ho_merged _ _ _ _ _ Hok) as Hm. unfold bs in Hm. unfold bs2. rewrite El2, merged_app in Hm. rewrite merged_app. exact Hm.
  - change (last_item h1) with E. cbn [h1 consumed with_available mh_available_size]. rewrite Hav, Eav. unfold bs2. rewrite available_app. cbn [available].
    fold w2. change (behind E ((q', false) :: l3).*1) with q'. unfold c, q'. lia.
Qed.
End grow.

(** What the attempt to grow leaves. *)
Definition grow_post (n : Z) (b : bool) (s' : mst) : Prop :=
  if b then ∃ q l3 fl' h', l2 = (q, false) :: l3 ∧ p + RT_MEMHEAP_SIZE + n + RT_MEMHEAP_SIZE + RT_MEMHEAP_MINIALLOC < behind E l3.*1 ∧
    heap_step a h bs (l1 ++ (p, true) :: (p + RT_MEMHEAP_SIZE + n, false) :: l3) fl' s h' s'
  else s' = s ∧ ∀ q l3, l2 = (q, false) :: l3 → behind E l3.*1 ≤ p + RT_MEMHEAP_SIZE + n + RT_MEMHEAP_SIZE + RT_MEMHEAP_MINIALLOC.

Lemma grow_section_run n :
  w - p - RT_MEMHEAP_SIZE < n → n + RT_MEMHEAP_MINIALLOC < 2 ^ 32 →
  wp (grow_section a (p + RT_MEMHEAP_SIZE) n (w - p - RT_MEMHEAP_SIZE)) (grow_post n) s.
Proof.
  intros Hmore Hn. pose proof (ho_area _ _ _ _ _ Hok) as Har. pose proof (heap_items _ _ _ _ _ Hok) as Hi.
  pose proof (headers_view a h bs (ho_first _ _ _ _ _ Hok) (ho_spaced _ _ _ _ _ Hok) s Ha) as Hv. fold I in Hv, Hi.
  assert (∀ x, x ∈ headers a h bs → 0 < x ∧ x + RT_MEMHEAP_SIZE ≤ 2 ^ 32) as Arg
    by (intros x Hx; exact (headers_range a h bs Har (ho_first _ _ _ _ _ Hok) (ho_spaced _ _ _ _ _ Hok) x Hx)).
  pose proof (ok_header _ _ _ _ _ Hok) as Hh. fold E F in Hh.
  assert (p ∈ headers a h bs) as Hp by (apply Hh; left; apply rs_p). assert (w ∈ headers a h bs) as Hw by (apply Hh; left; apply rs_w).
  destruct (Arg p Hp) as [P1 P2], (Arg w Hw) as [W1 W2]. destruct (items_links _ _ _ _ _ _ _ Hi) as [_ En]. fold E w in En.
  assert (p + RT_MEMHEAP_SIZE + RT_MEMHEAP_MINIALLOC ≤ w) as Hpw.
  { pose proof (ho_spaced _ _ _ _ _ Hok) as Hs. unfold bs in Hs. rewrite fmap_app in Hs. cbn [fmap list_fmap fst] in Hs. rewrite <- (assoc_L (++)) in Hs. cbn [app] in Hs.
    apply spaced_app in Hs as [_ Hs]. fold E in Hs. destruct (behind_split E l2.*1) as [t Et]. rewrite Et in Hs. by apply spaced_cons in Hs as [? _]. }
  unfold grow_section. replace (p + RT_MEMHEAP_SIZE - RT_MEMHEAP_SIZE) with p by lia. rewrite (wrap_small 32 p) by (unfold RT_MEMHEAP_SIZE in *; lia).
  apply wp_bind. eapply view_rd; [exact Hv|done|]. rewrite En. apply wp_bind, wp_assert; [apply Z.ltb_lt; unfold RT_MEMHEAP_SIZE, RT_MEMHEAP_MINIALLOC in *; lia|].
  apply wp_bind. eapply view_used; [exact Hv|done|]. destruct (free_item_cases l2) as [[Hu Hfr]|(q & l3 & El2 & _)].
  { assert (I w Magic = RT_MEMHEAP_MAGIC + 1) as -> by (by apply (items_behind _ _ _ _ _ _ _ Hi)). apply wp_ret. split; [done|]. intros q l3 E2. by rewrite E2 in Hu. }
  assert (w = q) as Ewq by (unfold w; by rewrite El2). rewrite Ewq in *. set (w2 := behind E l3.*1).
  destruct (io_item _ _ _ _ Hi q false) as [Em _]; [unfold bs; rewrite El2, elem_of_app, !elem_of_cons; tauto|]. rewrite Em, is_used_bit.
  assert (items_ok a ((l1 ++ [(p, true)]) ++ (q, false) :: l3) h I) as Hi' by (rewrite <- (assoc_L (++)); cbn [app]; by rewrite <- El2).
  destruct (items_links _ _ _ _ _ _ _ Hi') as [_ Eq]. fold E w2 in Eq.
  assert (w2 ∈ headers a h bs) as Hw2.
  { apply Hh. left. unfold bs. rewrite El2, fmap_app. cbn. pose proof (behind_in E l3.*1) as Hb. fold w2 in Hb. rewrite elem_of_cons in Hb.
    rewrite elem_of_cons, elem_of_app, !elem_of_cons. tauto. }
  destruct (Arg w2 Hw2) as [V1 V2].
  assert (q + RT_MEMHEAP_SIZE + RT_MEMHEAP_MINIALLOC ≤ w2) as Hqw.
  { pose proof (io_spaced _ _ _ _ Hi') as Hs. fold E in Hs. rewrite fmap_app in Hs. cbn [fmap list_fmap fst] in Hs. rewrite <- (assoc_L (++)) in Hs. cbn [app] in Hs.
    apply spaced_app in Hs as [_ Hs]. destruct (behind_split E l3.*1) as [t Et]. rewrite Et in Hs. by apply spaced_cons in Hs as [? _]. }
  apply wp_bind. eapply view_size; [exact Hv|done|]. rewrite Eq, (wrap_small 32 (w2 - q - RT_MEMHEAP_SIZE)) by (unfold RT_MEMHEAP_SIZE, RT_MEMHEAP_MINIALLOC in *; lia).
  apply wp_bind, wp_assert; [apply Z.ltb_lt; lia|]. rewrite (wrap_small 32 (n + RT_MEMHEAP_MINIALLOC)), (wrap_small 32 (w2 - q - RT_MEMHEAP_SIZE + (q - p - RT_MEMHEAP_SIZE))) by (unfold RT_MEMHEAP_SIZE, RT_MEMHEAP_MINIALLOC in *; lia).
  destruct (Z.ltb_spec (n + RT_MEMHEAP_MINIALLOC) (w2 - q - RT_MEMHEAP_SIZE + (q - p - RT_MEMHEAP_SIZE))) as [Hfit|Hnofit].
  2: { apply wp_ret. split; [done|]. intros q0 l0 E0. rewrite El2 in E0. injection E0 as <- <-. fold w2. unfold RT_MEMHEAP_SIZE, RT_MEMHEAP_MINIALLOC in *; lia. }
  assert (q ∈ fl) as Hqf.
  { rewrite (ho_perm _ _ _ _ _ Hok). apply free_of_elem. unfold bs. rewrite El2, elem_of_app, !elem_of_cons. tauto. }
  apply list_elem_of_split in Hqf as (f1 & f2 & Ef).
  assert (p + RT_MEMHEAP_SIZE + n + RT_MEMHEAP_SIZE + RT_MEMHEAP_MINIALLOC < w2) as Hfit' by (unfold RT_MEMHEAP_SIZE, RT_MEMHEAP_MINIALLOC in *; lia).
  rewrite (wrap_small 32) by (unfold RT_MEMHEAP_SIZE, RT_MEMHEAP_MINIALLOC in *; lia).
  pose proof (grow_fits_run q l3 n El2 Hmore (Z.lt_le_incl _ _ Hfit') f1 f2 Ef) as Hrun. cbv zeta in Hrun.
  assert (wp (consume a (n - (q - p - RT_MEMHEAP_SIZE)) ;; drop_item q ;; new_item a p (p + RT_MEMHEAP_SIZE + n) ;; insert_free a (p + RT_MEMHEAP_SIZE + n) ;; ret true) (grow_post n) s) as Hgoal.
  { unfold wp, bind in Hrun |- *. destruct (consume _ _ s) as [[? s1]|]; [|done]. destruct (drop_item q s1) as [[? s2]|]; [|done].
    destruct (new_item _ _ _ s2) as [[? s3]|]; [|done]. destruct (insert_free _ _ s3) as [[? s4]|]; [|done]. destruct Hrun as (h' & Hst).
    cbn. by exists q, l3, (p + RT_MEMHEAP_SIZE + n :: f1 ++ f2), h'. }
  exact Hgoal.
Qed.
End resize.

(** * For the user *)

(** What is in use when an item and its neighbours behind it change. *)
Lemma resize_used h (l1 : list block) p (m m' l3 : list block) :
  spaced ((l1 ++ (p, true) :: m ++ l3).*1 ++ [last_item h]) → spaced ((l1 ++ (p, true) :: m' ++ l3).*1 ++ [last_item h]) →
  (∀ x, (x, true) ∉ m) → (∀ x, (x, true) ∉ m') →
  let bs' := l1 ++ (p, true) :: m' ++ l3 in let z' := behind (last_item h) (m' ++ l3).*1 - p - RT_MEMHEAP_SIZE in
  ∀ x y, used_at h bs' x y ↔ (used_at h (l1 ++ (p, true) :: m ++ l3) x y ∧ x ≠ p) ∨ (x = p ∧ y = z').
Proof.
  intros S1 S2 Hm Hm' bs' z' x y. assert (∀ k, (x, true) ∈ k ++ l3 → (∀ x, (x, true) ∉ k) → (x, true) ∈ l3) as Hk.
  { intros k Hx Hn. apply elem_of_app in Hx as [Hx|Hx]; [by destruct (Hn x)|done]. }
  assert (x ≠ p → (x, true) ∈ l1 ++ (p, true) :: m ++ l3 → (x, true) ∈ l1 ++ l3) as A1.
  { intros Hne Hx. rewrite elem_of_app, elem_of_cons in Hx. rewrite elem_of_app. destruct Hx as [Hx|[[= Hx]|Hx]]; [by left|done|right; by apply (Hk m)]. }
  assert (x ≠ p → (x, true) ∈ bs' → (x, true) ∈ l1 ++ l3) as A2.
  { intros Hne Hx. unfold bs' in Hx. rewrite elem_of_app, elem_of_cons in Hx. rewrite elem_of_app. destruct Hx as [Hx|[[= Hx]|Hx]]; [by left|done|right; by apply (Hk m')]. }
  assert (∀ k, (x, true) ∈ l1 ++ l3 → (x, true) ∈ l1 ++ (p, true) :: k ++ l3) as A3.
  { intros k. rewrite !elem_of_app, elem_of_cons, elem_of_app. tauto. }
  assert ((x, true) ∈ l1 ++ l3 → size_at (bs'.*1 ++ [last_item h]) x = size_at ((l1 ++ (p, true) :: m ++ l3).*1 ++ [last_item h]) x) as Es
    by (intros Hx; by apply (size_replace h l1 p true m true m' l3 x true)).
  assert (size_at (bs'.*1 ++ [last_item h]) p = z') as Ep by (by apply used_size).
  unfold used_at. destruct (decide (x = p)) as [->|Hne].
  - rewrite Ep. split; [intros [_ <-]; by right|]. intros [[_ []]|[_ ->]]; [done|]. split; [|done]. unfold bs'. rewrite elem_of_app, elem_of_cons. tauto.
  - split.
    + intros [Hx <-]. left. specialize (A2 Hne Hx). rewrite Es by done. split_and!; [by apply A3|done|done].
    + intros [[[Hx <-] _]|[-> _]]; [|done]. specialize (A1 Hne Hx). split; [by apply A3|by apply Es].
Qed.

(** Writing into the memory of an item leaves the heap as it is. *)
Lemma copy_heap_at a bs fl h s p z src n :
  heap_at a bs fl h s → used_at h bs p z → 0 ≤ n ≤ z →
  heap_at a bs fl h (mk_mst (ms_k s) (ms_errno s) (ms_heaps s) (copy (ms_mem s) (p + RT_MEMHEAP_SIZE) src n)).
Proof.
  intros (Hid & Ha & Hok) [Hu Hz] Hn. split_and!; [done|done|]. cbn [ms_mem]. eapply heap_ok_ext; [|exact Hok].
  intros x f Hx. unfold items_of. apply load_ext. intros i Hi. unfold copy.
  destruct (Z.leb_spec (p + RT_MEMHEAP_SIZE) i); [|done]. destruct (Z.ltb_spec i (p + RT_MEMHEAP_SIZE + n)); [|done]. exfalso.
  destruct (payload_outside a h bs p true z i x) as [H1|H1]; [apply Hok..|done|done|lia|done| |]; pose proof (offset_range f); unfold RT_MEMHEAP_SIZE in *; cbn in Hi; lia.
Qed.

(** The items behind the one at [p]. *)
Fixpoint after (p : Z) (bs : list block) : list block :=
  match bs with
  | [] => []
  | (x, _) :: bs => if x =? p then bs else after p bs
  end.

(** Whether the item at [p] can grow to [n] bytes where it is: the item behind it is free,
    and what is left of it is more than the smallest item. *)
Definition room_behind (h : rt_memheap) (bs : list block) (p n : Z) : bool :=
  match after p bs with
  | (_, false) :: l3 => p + RT_MEMHEAP_SIZE + n + RT_MEMHEAP_SIZE + RT_MEMHEAP_MINIALLOC <? behind (last_item h) l3.*1
  | _ => false
  end.

(** Where an item of [z] bytes at [p] lies when its size has been changed to [n] bytes, and
    how large it is: it grows in place or moves to the first free item that is large
    enough; it shrinks in place if what is cut off makes a free item, and stays otherwise. *)
Definition replaced (bs : list block) (fl : list Z) (h : rt_memheap) (p z n p' z' : Z) : Prop :=
  if z <? n then
    if room_behind h bs p n then p' = p ∧ z' = n else pick n (bs.*1 ++ [last_item h]) fl = Some p'
  else p' = p ∧ z' = if z <=? n + RT_MEMHEAP_SIZE + RT_MEMHEAP_MINIALLOC then z else n.

(** What [rt_memheap_realloc] of the item at [p], of [z] bytes, leaves. It fails only where
    the item has to become larger, has no room behind it, and no free item is large enough
    (or the whole free memory is not larger than the request). *)
Definition realloc_post (a : Z) (bs : list block) (fl : list Z) (h : rt_memheap) (p z newsize : Z) (s : mst) (r : Z) (s' : mst) : Prop :=
  let n := rounded newsize in
  (r = 0 ∧ s' = s ∧ z < n ∧ room_behind h bs p n = false ∧
    (mh_available_size h ≤ n ∨ ∀ q, q ∈ fl → size_at (bs.*1 ++ [last_item h]) q < n)) ∨
  ∃ p' z' bs' fl' h', r = p' + RT_MEMHEAP_SIZE ∧ heap_at a bs' fl' h' s' ∧ same_area h h' ∧ newsize ≤ z' ∧
    replaced bs fl h p z n p' z' ∧ (∀ y, used_at h bs p' y → p' = p) ∧
    (∀ x y, used_at h bs' x y ↔ (used_at h bs x y ∧ x ≠ p) ∨ (x = p' ∧ y = z')) ∧
    (∀ i, 0 ≤ i < Z.min z newsize → ms_mem s' (r + i) = ms_mem s (p + RT_MEMHEAP_SIZE + i)) ∧
    (∀ x y i, used_at h bs x y → x ≠ p → x + RT_MEMHEAP_SIZE ≤ i < x + RT_MEMHEAP_SIZE + y → ms_mem s' i = ms_mem s i).

Lemma after_split p b (l1 l2 : list block) : p ∉ l1.*1 → after p (l1 ++ (p, b) :: l2) = l2.
Proof.
  induction l1 as [|[x u] l1 IH]; cbn; [by rewrite Z.eqb_refl|]. intros Hp. rewrite (proj2 (Z.eqb_neq x p)); [apply IH|]; set_solver.
Qed.

Lemma heap_after a bs fl h s p b l1 l2 : heap_at a bs fl h s → bs = l1 ++ (p, b) :: l2 → after p bs = l2.
Proof.
  intros (_ & _ & Hok) ->. apply after_split. destruct (ok_nodup _ _ _ _ _ Hok) as [Nb _]. apply NoDup_cons in Nb as [_ Nb].
  rewrite fmap_app in Nb. cbn in Nb. rewrite <- Permutation_middle in Nb. apply NoDup_cons in Nb as [Hp _]. set_solver.
Qed.

(** An item that changed its size in place. *)
Lemma resized_post a (l1 : list block) p (m m' l3 : list block) fl h s newsize fl' h' s' :
  let bs := l1 ++ (p, true) :: m ++ l3 in let bs' := l1 ++ (p, true) :: m' ++ l3 in
  let z := behind (last_item h) (m ++ l3).*1 - p - RT_MEMHEAP_SIZE in let z' := behind (last_item h) (m' ++ l3).*1 - p - RT_MEMHEAP_SIZE in
  heap_at a bs fl h s → heap_step a h bs bs' fl' s h' s' → (∀ x, (x, true) ∉ m) → (∀ x, (x, true) ∉ m') → newsize ≤ z' → replaced bs fl h p z (rounded newsize) p z' →
  realloc_post a bs fl h p z newsize s (p + RT_MEMHEAP_SIZE) s'.
Proof.
  intros bs bs' z z' (Hid & Ha & Hok) Hst Hm Hm' Hz Hrep. right. pose proof (st_area _ _ _ _ _ _ _ _ Hst) as Hsa.
  pose proof (ho_spaced _ _ _ _ _ (st_ok _ _ _ _ _ _ _ _ Hst)) as Hsp. rewrite (last_item_same _ _ Hsa) in Hsp.
  pose proof (resize_used h l1 p m m' l3 (ho_spaced _ _ _ _ _ Hok) Hsp Hm Hm') as Hused. cbv zeta in Hused. fold bs bs' z' in Hused.
  assert (used_at h bs p z) as Hz0. { split; [unfold bs; rewrite elem_of_app, elem_of_cons; tauto|by apply used_size, Hok]. }
  exists p, z', bs', fl', h'. split_and!; [done|by eapply heap_step_at|done|done|done|done|done| |].
  - intros i Hi. eapply (kept_step a h bs bs'); [done|done|exact Hz0|apply Hused; by right|lia].
  - intros x y i Hx Hne Hi. eapply (kept_step a h bs bs'); [done|done|exact Hx|apply Hused; by left|by rewrite Z.min_id].
Qed.

Lemma rounded_twice size : 0 ≤ size ≤ 2 ^ 32 - 4 → rounded (rounded size) = rounded size.
Proof.
  intros Hs. destruct (rounded_facts size Hs) as (F1 & F2 & F3 & F4). assert (rounded size ≤ 2 ^ 32 - 4) as F5.
  { pose proof (Z.div_mod (rounded size) 4 ltac:(lia)). lia. }
  rewrite rounded_request by (unfold RT_MEMHEAP_MINIALLOC in *; lia). set (n := rounded size) in *.
  assert ((n + 3) / 4 * 4 = n) as ->; [|lia]. pose proof (Z.div_mod n 4 ltac:(lia)). rewrite F3 in H.
  replace (n + 3) with (3 + n / 4 * 4) by lia. rewrite Z.div_add by lia. change (3 / 4) with 0. lia.
Qed.

(** The item moves: its contents are copied to a new one and it is given back. *)
Lemma memheap_move_run a bs fl h s p z newsize :
  heap_at a bs fl h s → used_at h bs p z → 0 ≤ newsize ≤ 2 ^ 32 - 4 → z < rounded newsize → room_behind h bs p (rounded newsize) = false →
  dwp (realloc_move a (p + RT_MEMHEAP_SIZE) (rounded newsize) z) (realloc_post a bs fl h p z newsize s) s.
Proof.
  intros Hat Hz Hs Hlt Hroom. pose proof (rounded_twice newsize Hs) as Hrt. destruct (rounded_facts newsize Hs) as (F1 & F2 & F3 & F4). set (n := rounded newsize) in *.
  assert (n ≤ 2 ^ 32 - 4) as F5 by (pose proof (Z.div_mod n 4 ltac:(lia)); lia).
  assert (RT_MEMHEAP_MINIALLOC ≤ z) as Hz0 by (destruct Hat as (_ & _ & Hok); eapply used_range; [apply Hok|apply Hok|exact Hz]).
  unfold realloc_move. apply dwp_bind. eapply dwp_mono; [apply (alloc_user a bs fl h s n Hat); unfold RT_MEMHEAP_MINIALLOC in *; lia|]. cbv beta zeta. rewrite Hrt.
  intros r s1 [(-> & -> & Hno)|(p' & z' & bs1 & fl1 & h1 & -> & Hat1 & Hsa1 & Hpick & Hn & Hused1 & Hkept1 & Hlo & Hhi & Hap)].
  { apply dwp_ret. by left. }
  assert (p' ≠ p) as Hne by (destruct (Hap p z Hz) as [H|H]; unfold RT_MEMHEAP_SIZE, RT_MEMHEAP_MINIALLOC in *; lia).
  assert (0 < p') as Hp' by (destruct Hat as (_ & _ & Hok); pose proof (ao_memory _ _ (ho_area _ _ _ _ _ Hok)); lia).
  assert (nz (p' + RT_MEMHEAP_SIZE) = true) as -> by (apply nz_true; unfold RT_MEMHEAP_SIZE; lia). rewrite (proj2 (Z.ltb_lt z n)) by done.
  apply dwp_seq. set (s2 := mk_mst (ms_k s1) (ms_errno s1) (ms_heaps s1) (copy (ms_mem s1) (p' + RT_MEMHEAP_SIZE) (p + RT_MEMHEAP_SIZE) z)).
  change (dwp (rt_memheap_free (p + RT_MEMHEAP_SIZE) ;;; dret (p' + RT_MEMHEAP_SIZE)) (realloc_post a bs fl h p z newsize s) s2).
  assert (last_item h1 = last_item h) as El by (by apply last_item_same). assert (∀ l x y, used_at h1 l x y ↔ used_at h l x y) as Hu1 by (intros; unfold used_at; by rewrite El).
  assert (used_at h1 bs1 p' z') as Hz' by (apply Hu1, Hused1; by right). assert (used_at h1 bs1 p z) as Hz1 by (apply Hu1, Hused1; by left).
  assert (heap_at a bs1 fl1 h1 s2) as Hat2 by (apply (copy_heap_at a bs1 fl1 h1 s1 p' z'); [done|done|unfold RT_MEMHEAP_MINIALLOC in *; lia]).
  apply dwp_bind. eapply dwp_mono; [by apply (free_user a bs1 fl1 h1 s2 p z)|]. cbv beta. intros _ s3 (bs3 & fl3 & h3 & Hat3 & Hsa3 & Hused3 & Hkept3). apply dwp_ret.
  right. exists p', z', bs3, fl3, h3. assert (∀ x y, used_at h bs3 x y ↔ (used_at h bs x y ∧ x ≠ p) ∨ (x = p' ∧ y = z')) as Hused.
  { intros x y. rewrite <- Hu1, Hused3, Hu1, Hused1. naive_solver. }
  split_and!; [done|done|destruct Hsa1, Hsa3; split; congruence|lia|unfold replaced; fold n; by rewrite (proj2 (Z.ltb_lt z n)), Hroom by lia| |done| |].
  { intros y Hy. exfalso. destruct Hat as (_ & _ & Hok). destruct (used_range h bs p' y (ho_first _ _ _ _ _ Hok) (ho_spaced _ _ _ _ _ Hok) Hy) as (_ & Hy0 & _).
    destruct (Hap p' y Hy); unfold RT_MEMHEAP_SIZE, RT_MEMHEAP_MINIALLOC in *; lia. }
  - intros i Hi. rewrite (Hkept3 p' z'); [|apply Hu1, Hused; by right|lia]. unfold s2. cbn [ms_mem]. unfold copy.
    rewrite (proj2 (Z.leb_le _ _)), (proj2 (Z.ltb_lt _ _)) by lia. cbn [andb]. replace (p' + RT_MEMHEAP_SIZE + i - (p' + RT_MEMHEAP_SIZE)) with i by lia.
    apply (Hkept1 p z); [done|lia].
  - intros x y i Hx Hxp Hi. rewrite (Hkept3 x y); [|apply Hu1, Hused; by left|done]. unfold s2. cbn [ms_mem]. unfold copy.
    destruct (Z.leb_spec (p' + RT_MEMHEAP_SIZE) i), (Z.ltb_spec i (p' + RT_MEMHEAP_SIZE + z)); cbn [andb]; try by apply (Hkept1 x y).
    exfalso. destruct (Hap x y Hx) as [H1|H1]; unfold RT_MEMHEAP_SIZE in *; lia.
Qed.

Lemma same_post a bs fl h s p z newsize :
  heap_at a bs fl h s → used_at h bs p z → newsize ≤ z → replaced bs fl h p z (rounded newsize) p z → realloc_post a bs fl h p z newsize s (p + RT_MEMHEAP_SIZE) s.
Proof.
  intros Hat Hz Hle Hrep. right. exists p, z, bs, fl, h. split_and!; [done|done|done|done|done|done| |done|done].
  intros x y. destruct (decide (x = p)) as [->|Hne]; [|naive_solver]. split; [|intros [[_ []]|[_ ->]]; done].
  intros Hx. right. split; [done|]. destruct Hx as [_ <-], Hz as [_ Hz]. done.
Qed.

(** All of it. *)
Lemma realloc_user a bs fl h s p z newsize :
  heap_at a bs fl h s → used_at h bs p z → 0 < newsize ≤ 2 ^ 32 - 16 →
  dwp (rt_memheap_realloc a (p + RT_MEMHEAP_SIZE) newsize) (realloc_post a bs fl h p z newsize s) s.
Proof.
  intros Hat Hz Hs. pose proof Hat as (Hid & Ha & Hok). destruct (rounded_facts newsize ltac:(lia)) as (F1 & F2 & F3 & F4).
  assert (rounded newsize + RT_MEMHEAP_MINIALLOC < 2 ^ 32) as F5.
  { rewrite rounded_request by lia. pose proof (Z.div_mod (newsize + 3) 4 ltac:(lia)). pose proof (Z.div_le_mono (newsize + 3) (2 ^ 32 - 13) 4 ltac:(lia) ltac:(lia)).
    unfold RT_MEMHEAP_MINIALLOC. change ((2 ^ 32 - 13) / 4) with 1073741820 in *. lia. }
  destruct (used_range h bs p z (ho_first _ _ _ _ _ Hok) (ho_spaced _ _ _ _ _ Hok) Hz) as (B1 & B2 & B3). pose proof (ao_memory _ _ (ho_area _ _ _ _ _ Hok)) as [B4 B5].
  assert (0 < p ∧ p + z + 48 ≤ 2 ^ 32) as [P1 P2] by (unfold last_item, RT_MEMHEAP_SIZE in *; lia).
  pose proof Hz as [Hpb Hpz]. apply list_elem_of_split in Hpb as (l1 & l2 & Eb). rewrite Eb, used_size in Hpz by (rewrite <- Eb; apply Hok).
  pose proof (heap_after a bs fl h s p true l1 l2 Hat Eb) as Haft.
  unfold rt_memheap_realloc. apply dwp_seq. unfold wp. rewrite (is_memheap_run a s Hid). rewrite (proj2 (Z.eqb_neq newsize 0)) by lia.
  set (n := rounded newsize) in *. rewrite (proj2 (Z.eqb_neq _ 0)) by (unfold RT_MEMHEAP_SIZE; lia).
  replace (p + RT_MEMHEAP_SIZE - RT_MEMHEAP_SIZE) with p by lia. rewrite (wrap_small 32 p) by (unfold RT_MEMHEAP_SIZE, RT_MEMHEAP_MINIALLOC in *; lia).
  pose proof (headers_view a h bs (ho_first _ _ _ _ _ Hok) (ho_spaced _ _ _ _ _ Hok) s Ha) as Hv.
  apply dwp_seq. eapply view_size; [exact Hv|apply (ok_header _ _ _ _ _ Hok); left; right; apply list_elem_of_fmap; exists (p, true); split; [done|apply Hz]|].
  destruct (ok_next _ _ _ _ _ Hok l1 p true l2 Eb) as [-> _]. rewrite Hpz, (wrap_small 32 z) by (unfold RT_MEMHEAP_MINIALLOC in *; lia).
  destruct (Z.ltb_spec z n) as [Hlt|Hge].
  - apply dwp_bind. eapply dwp_mono; [apply (locked_run a _ (λ b s', if b : bool then realloc_post a bs fl h p z newsize s (p + RT_MEMHEAP_SIZE) s' else s' = s ∧ room_behind h bs p n = false)); [done|]|].
    + rewrite <- Hpz. eapply wp_mono; [apply (grow_section_run a l1 l2 p fl h); [done|by rewrite <- Eb|lia|done]|]. cbv beta. intros b s1. unfold grow_post. destruct b.
      * intros (q & l3 & fl' & h' & El2 & Hfit & Hst). apply heap_step_kernel in Hst as [Hk Hst]. split; [done|]. rewrite El2 in Hst, Hpz. rewrite Eb, El2.
        apply (resized_post a l1 p [(q, false)] [(p + RT_MEMHEAP_SIZE + n, false)] l3 fl h s newsize fl' h'); [|exact Hst|set_solver|set_solver| |].
        -- by rewrite Eb, El2 in Hat.
        -- cbn. change (behind _ (p + RT_MEMHEAP_SIZE + n :: l3.*1)) with (p + RT_MEMHEAP_SIZE + n). lia.
        -- cbn in Hpz |- *. change (behind _ (p + RT_MEMHEAP_SIZE + n :: l3.*1)) with (p + RT_MEMHEAP_SIZE + n). rewrite Hpz. unfold replaced. fold n.
           rewrite (proj2 (Z.ltb_lt z n)) by lia. unfold room_behind. cbn [app]. rewrite <- El2, <- Eb, Haft, El2, (proj2 (Z.ltb_lt _ _) Hfit). split; [done|lia].
      * intros [-> Hno]. split; [done|]. split; [by destruct s|]. unfold room_behind. rewrite Haft. destruct l2 as [|[q [|]] l3]; [done|done|].
        apply Z.ltb_ge. by apply (Hno q).
    + intros r s1 (b & -> & Hb). destruct b; [by apply dwp_ret|]. destruct Hb as [Hb Hroom]. rewrite Hb. apply (memheap_move_run a bs fl); [done|done|lia|done|done].
  - rewrite (wrap_small 32) by (unfold RT_MEMHEAP_SIZE, RT_MEMHEAP_MINIALLOC in *; lia).
    destruct (Z.leb_spec z (n + RT_MEMHEAP_SIZE + RT_MEMHEAP_MINIALLOC)) as [Hsm|Hbig].
    { apply dwp_ret. apply (same_post a bs fl); [done|done|lia|]. unfold replaced. fold n. by rewrite (proj2 (Z.ltb_ge z n)), (proj2 (Z.leb_le _ _)) by done. }
    apply dwp_bind. eapply dwp_mono; [apply (locked_run a _ (λ _ s', realloc_post a bs fl h p z newsize s (p + RT_MEMHEAP_SIZE) s')); [done|]|].
    + eapply wp_mono; [apply (shrink_section_run a l1 l2 p fl h); [done|by rewrite <- Eb|done|unfold RT_MEMHEAP_SIZE, RT_MEMHEAP_MINIALLOC in *; lia]|].
      cbv beta. intros _ s1 (fl' & h' & Hst). apply heap_step_kernel in Hst as [Hk Hst]. split; [done|]. rewrite Eb in Hat |- *. rewrite <- Hpz.
      destruct (trim_split l2) as (m & Em & Hm). rewrite Em in Hat |- *. rewrite Em in Hst at 1.
      apply (resized_post a l1 p m [(p + n + RT_MEMHEAP_SIZE, false)] (trim l2) fl h s newsize fl' h'); [exact Hat|exact Hst|exact Hm|set_solver| |];
        cbn; change (behind _ (p + n + RT_MEMHEAP_SIZE :: (trim l2).*1)) with (p + n + RT_MEMHEAP_SIZE); [lia|].
      rewrite <- Em, Hpz. unfold replaced. fold n. rewrite (proj2 (Z.ltb_ge z n)), (proj2 (Z.leb_gt _ _)) by lia. split; [done|lia].
    + intros r s1 (b & -> & Hb). by apply dwp_ret.
Qed.

(** A new size of 0 gives the item back. *)
Lemma realloc_zero a bs fl h s p z :
  heap_at a bs fl h s → used_at h bs p z →
  dwp (rt_memheap_realloc a (p + RT_MEMHEAP_SIZE) 0) (λ r s', r = 0 ∧ ∃ bs' fl' h',
    heap_at a bs' fl' h' s' ∧ same_area h h' ∧ (∀ x y, used_at h bs' x y ↔ used_at h bs x y ∧ x ≠ p) ∧ kept h bs' s s') s.
Proof.
  intros Hat Hz. unfold rt_memheap_realloc. apply dwp_seq. unfold wp. rewrite (is_memheap_run a s (proj1 Hat)). cbn [Z.eqb].
  apply dwp_bind. eapply dwp_mono; [by apply (free_user a bs fl h s p z)|]. cbv beta. intros _ s' Hs'. by apply dwp_ret.
Qed.

(** * Users of a heap *)

(** A request to the heap. Blocks are named by their place in the list of the pointers
    that are held. *)
Inductive request := Alloc (size : Z) | Free (k : nat) | Realloc (k : nat) (size : Z).

Definition request_size (r : request) : Z := match r with Alloc size | Realloc _ size => size | Free _ => 1 end.

(** Serving a request: the pointers that are held afterwards. A pointer that is null is
    dropped, and one that was moved replaced. *)
Definition serve (a : Z) (r : request) (live : list Z) : MP (list Z) :=
  match r with
  | Alloc size => ptr ⇐ rt_memheap_alloc a size; dret (if nz ptr then ptr :: live else live)
  | Free k =>
      match live !! k with
      | Some ptr => rt_memheap_free ptr ;;; dret (delete k live)
      | None => dret live
      end
  | Realloc k size =>
      match live !! k with
      | Some ptr => new ⇐ rt_memheap_realloc a ptr size; dret (if nz new then <[k := new]> live else if size =? 0 then delete k live else live)
      | None => dret live
      end
  end.

Fixpoint session (a : Z) (rs : list request) (live : list Z) : MP (list Z) :=
  match rs with
  | [] => dret live
  | r :: rs => live ⇐ serve a r live; session a rs live
  end.

(** The pointers that are held are those of the items in use. *)
Definition held (bs : list block) (live : list Z) : Prop :=
  NoDup live ∧ ∀ ptr, ptr ∈ live ↔ (ptr - RT_MEMHEAP_SIZE, true) ∈ bs.

Lemma held_used h bs live : held bs live → ∀ ptr, ptr ∈ live ↔ ∃ z, used_at h bs (ptr - RT_MEMHEAP_SIZE) z.
Proof. intros [_ Hl] ptr. rewrite Hl. unfold used_at. naive_solver. Qed.

Lemma held_intro h bs live : NoDup live → (∀ ptr, ptr ∈ live ↔ ∃ z, used_at h bs (ptr - RT_MEMHEAP_SIZE) z) → held bs live.
Proof. intros Hn Hl. split; [done|]. intros ptr. rewrite Hl. unfold used_at. naive_solver. Qed.

Lemma held_delete h bs bs' live k p :
  held bs live → live !! k = Some (p + RT_MEMHEAP_SIZE) → (∀ x y, used_at h bs' x y ↔ used_at h bs x y ∧ x ≠ p) → held bs' (delete k live).
Proof.
  intros Hh Hk Hu. pose proof (held_used h _ _ Hh) as Hl. destruct Hh as [Hn _]. apply list_elem_of_split_length in Hk as (l1 & l2 & -> & ->).
  rewrite delete_middle. rewrite <- Permutation_middle in Hn. apply NoDup_cons in Hn as [Hp Hn]. apply (held_intro h); [done|].
  intros ptr. setoid_rewrite Hu. assert (ptr ∈ l1 ++ l2 ↔ ptr ∈ l1 ++ p + RT_MEMHEAP_SIZE :: l2 ∧ ptr - RT_MEMHEAP_SIZE ≠ p) as ->.
  { rewrite !elem_of_app, elem_of_cons in *. split; [|naive_solver lia]. intros Hx. split; [tauto|]. intros EQ. apply Hp. by replace (p + RT_MEMHEAP_SIZE) with ptr by lia. }
  rewrite Hl. naive_solver.
Qed.

Lemma held_replace h bs bs' live k p p' z' :
  held bs live → live !! k = Some (p + RT_MEMHEAP_SIZE) → (∀ x y, used_at h bs' x y ↔ (used_at h bs x y ∧ x ≠ p) ∨ (x = p' ∧ y = z')) →
  (∀ y, used_at h bs p' y → p' = p) → held bs' (<[k := p' + RT_MEMHEAP_SIZE]> live).
Proof.
  intros Hh Hk Hu Hnew. pose proof (held_used h _ _ Hh) as Hl. destruct Hh as [Hn _]. apply list_elem_of_split_length in Hk as (l1 & l2 & -> & ->).
  rewrite insert_app_r_alt, Nat.sub_diag by lia. cbn [insert list_insert]. pose proof Hn as Hn'. rewrite <- Permutation_middle in Hn'. apply NoDup_cons in Hn' as [Hp Hn']. apply (held_intro h).
  - rewrite <- Permutation_middle. constructor; [|done]. intros Hx. assert (p' + RT_MEMHEAP_SIZE ∈ l1 ++ p + RT_MEMHEAP_SIZE :: l2) as Hx'.
    { rewrite elem_of_app, elem_of_cons in *. tauto. }
    apply Hl in Hx' as [y Hy]. replace (p' + RT_MEMHEAP_SIZE - RT_MEMHEAP_SIZE) with p' in Hy by lia. apply Hp. by rewrite <- (Hnew y Hy).
  - intros ptr. setoid_rewrite Hu.
    assert (ptr ∈ l1 ++ p' + RT_MEMHEAP_SIZE :: l2 ↔ (ptr ∈ l1 ++ p + RT_MEMHEAP_SIZE :: l2 ∧ ptr - RT_MEMHEAP_SIZE ≠ p) ∨ ptr - RT_MEMHEAP_SIZE = p') as ->.
    { rewrite !elem_of_app, !elem_of_cons in *. split.
      - intros Hx. destruct (decide (ptr - RT_MEMHEAP_SIZE = p')) as [->|Hne]; [by right|left]. assert (ptr ∈ l1 ∨ ptr ∈ l2) as Hx' by (destruct Hx as [?|[->|?]]; [tauto|lia|tauto]).
        split; [tauto|]. intros EQ. apply Hp. by replace (p + RT_MEMHEAP_SIZE) with ptr by lia.
      - intros [[[?|[->|?]] Hne]|<-]; [tauto|lia|tauto|]. right. left. lia. }
    rewrite Hl. naive_solver.
Qed.

Lemma held_cons h bs bs' live p z :
  held bs live → (∀ x y, used_at h bs' x y ↔ used_at h bs x y ∨ (x = p ∧ y = z)) → (∀ y, ¬ used_at h bs p y) → held bs' (p + RT_MEMHEAP_SIZE :: live).
Proof.
  intros Hh Hu Hnew. pose proof (held_used h _ _ Hh) as Hl. destruct Hh as [Hn _]. apply (held_intro h).
  - constructor; [|done]. intros Hx. apply Hl in Hx as [y Hy]. replace (p + RT_MEMHEAP_SIZE - RT_MEMHEAP_SIZE) with p in Hy by lia. by apply (Hnew y).
  - intros ptr. setoid_rewrite Hu. rewrite elem_of_cons, Hl. split; [intros [->|[z' Hz]]; [exists z; right; split; [lia|done]|eauto]|].
    intros (y & [Hy|[Hp _]]); [right; eauto|left; lia].
Qed.

Lemma serve_run a bs fl h s live r :
  heap_at a bs fl h s → held bs live → 0 ≤ request_size r ≤ 2 ^ 32 - 16 →
  dwp (serve a r live) (λ live' s', ∃ bs' fl' h', heap_at a bs' fl' h' s' ∧ same_area h h' ∧ held bs' live') s.
Proof.
  intros Hat Hh Hr. pose proof Hat as (_ & _ & Hok). pose proof (used_range h bs) as Hrg.
  assert (∀ k ptr, live !! k = Some ptr → ∃ p z, ptr = p + RT_MEMHEAP_SIZE ∧ used_at h bs p z) as Hlive.
  { intros k ptr Hk. apply list_elem_of_lookup_2, (held_used h _ _ Hh) in Hk as [z Hz]. exists (ptr - RT_MEMHEAP_SIZE), z. split; [lia|done]. }
  destruct r as [size|k|k size]; cbn [request_size] in Hr; unfold serve.
  - apply dwp_bind. eapply dwp_mono; [apply (alloc_user a bs fl h s size Hat); lia|]. cbv beta zeta.
    intros r s' [(-> & -> & _)|(p & z & bs' & fl' & h' & -> & Hat' & Hsa & _ & Hz & Hu & _ & Hlo & _ & Hap)]; apply dwp_ret; [by exists bs, fl, h|].
    assert (nz (p + RT_MEMHEAP_SIZE) = true) as ->.
    { apply nz_true. pose proof (ao_memory _ _ (ho_area _ _ _ _ _ Hok)). unfold RT_MEMHEAP_SIZE. lia. }
    exists bs', fl', h'. split_and!; [done|done|]. eapply (held_cons h); [done|exact Hu|]. intros y Hy.
    destruct (Hrg p y (ho_first _ _ _ _ _ Hok) (ho_spaced _ _ _ _ _ Hok) Hy) as (_ & Hy0 & _). destruct (Hap p y Hy); unfold RT_MEMHEAP_SIZE, RT_MEMHEAP_MINIALLOC in *; lia.
  - destruct (live !! k) as [ptr|] eqn:Hk; [|apply dwp_ret; by exists bs, fl, h]. destruct (Hlive k ptr Hk) as (p & z & -> & Hz).
    apply dwp_bind. eapply dwp_mono; [by apply (free_user a bs fl h s p z)|]. cbv beta. intros _ s' (bs' & fl' & h' & Hat' & Hsa & Hu & _). apply dwp_ret.
    exists bs', fl', h'. split_and!; [done|done|by eapply (held_delete h)].
  - destruct (live !! k) as [ptr|] eqn:Hk; [|apply dwp_ret; by exists bs, fl, h]. destruct (Hlive k ptr Hk) as (p & z & -> & Hz). apply dwp_bind.
    destruct (Z.eqb_spec size 0) as [->|Hne].
    + eapply dwp_mono; [by apply (realloc_zero a bs fl h s p z)|]. cbv beta. intros r s' (-> & bs' & fl' & h' & Hat' & Hsa & Hu & _). apply dwp_ret. cbn.
      exists bs', fl', h'. split_and!; [done|done|by eapply (held_delete h)].
    + eapply dwp_mono; [apply (realloc_user a bs fl h s p z size); [done|done|lia]|]. cbv beta.
      intros r s' [(-> & -> & _)|(p' & z' & bs' & fl' & h' & -> & Hat' & Hsa & _ & _ & Hnew & Hu & _)]; apply dwp_ret; [by exists bs, fl, h|].
      destruct Hat' as (Hid' & Ha' & Hok'). assert (nz (p' + RT_MEMHEAP_SIZE) = true) as ->.
      { apply nz_true. pose proof (ao_memory _ _ (ho_area _ _ _ _ _ Hok')). assert (used_at h' bs' p' z') as Hz' by (unfold used_at; rewrite (last_item_same _ _ Hsa); apply Hu; by right).
        destruct (used_range h' bs' p' z' (ho_first _ _ _ _ _ Hok') (ho_spaced _ _ _ _ _ Hok') Hz') as (? & _). unfold RT_MEMHEAP_SIZE. lia. }
      exists bs', fl', h'. split_and!; [done|done|by eapply (held_replace h)].
Qed.

Lemma session_run a rs : ∀ bs fl h s live,
  heap_at a bs fl h s → held bs live → Forall (λ r, 0 ≤ request_size r ≤ 2 ^ 32 - 16) rs →
  dwp (session a rs live) (λ live' s', ∃ bs' fl' h', heap_at a bs' fl' h' s' ∧ same_area h h' ∧ held bs' live') s.
Proof.
  induction rs as [|r rs IH]; intros bs fl h s live Hat Hh Hf; [apply dwp_ret; by exists bs, fl, h|]. apply Forall_cons in Hf as [Hr Hf].
  cbn [session]. apply dwp_bind. eapply dwp_mono; [by apply (serve_run a bs fl h)|]. cbv beta. intros live1 s1 (bs1 & fl1 & h1 & Hat1 & [A1 A2] & Hh1).
  eapply dwp_mono; [by apply (IH bs1 fl1 h1)|]. cbv beta. intros live2 s2 (bs2 & fl2 & h2 & Hat2 & [A3 A4] & Hh2).
  exists bs2, fl2, h2. split_and!; [done|split; congruence|done].
Qed.

(** * Properties *)


(** C10: Whatever is asked of a heap, in any order (allocation, release and change of size of
    what is held, with sizes of at most 2^32 - 16), no assertion fails and no search runs on: the heap stays well formed,
    its memory in use is what is held, and the blocks that are held lie inside the heap and
    do not overlap. *)
Theorem memheap_session a bs fl h s live rs :
  heap_at a bs fl h s → held bs live → Forall (λ r, 0 ≤ request_size r ≤ 2 ^ 32 - 16) rs →
  dwp (session a rs live) (λ live' s', ∃ bs' fl' h', heap_at a bs' fl' h' s' ∧ same_area h h' ∧ held bs' live' ∧
    (∀ p z, p ∈ live' → used_at h bs' (p - RT_MEMHEAP_SIZE) z → mh_start_addr h < p ∧ 0 < z ∧ p + z < mh_start_addr h + mh_pool_size h) ∧
    (∀ p z q y, p ∈ live' → q ∈ live' → p ≠ q → used_at h bs' (p - RT_MEMHEAP_SIZE) z → used_at h bs' (q - RT_MEMHEAP_SIZE) y → p + z ≤ q ∨ q + y ≤ p)) s.
Proof.
  intros Hat Hh Hf. eapply dwp_mono; [by apply (session_run a rs bs fl h)|]. cbv beta. intros live' s' (bs' & fl' & h' & Hat' & Hsa & Hh').
  exists bs', fl', h'. pose proof Hat' as (_ & _ & Hok). pose proof (ho_first _ _ _ _ _ Hok) as Hfi. pose proof (ho_spaced _ _ _ _ _ Hok) as Hsp.
  rewrite (last_item_same _ _ Hsa) in Hsp. pose proof Hsa as [Es _]. rewrite Es in Hfi. split_and!; [done|done|done| |].
  - intros p z _ Hz. destruct (used_range h bs' _ z Hfi Hsp Hz) as (B1 & B2 & B3). unfold last_item, RT_MEMHEAP_SIZE, RT_MEMHEAP_MINIALLOC in *. lia.
  - intros p z q y _ _ Hne Hz Hy. destruct (used_apart h bs' _ z _ y Hsp Hz Hy) as [H|H]; unfold RT_MEMHEAP_SIZE in *; lia.
Qed.

(** A new size close to the largest one: the code adds to it before it compares, the sum
    wraps, and the item "grows" without becoming larger; the new free item starts inside
    the header of the item. *)
Theorem rt_memheap_realloc_wraps :
  heap_at 1000 [(2000, true); (2044, false)] [2044] (demo_heap 108 92) demo_used ∧
  dwp (rt_memheap_realloc 1000 2024 (2 ^ 32 - 8)) (λ r s, r = 2024 ∧ load 4 (ms_mem s) (2000 + offset Next) = 2000 + 16) demo_used.
Proof. split; [apply demo_used_at|]. eexists _, _. split; [by vm_compute|]. by vm_compute. Qed.

(** A request that alignment wraps to 0: the smallest item is handed out for it. *)
Theorem rt_memheap_alloc_wraps size : 2 ^ 32 - 3 ≤ size < 2 ^ 32 → rounded size = RT_MEMHEAP_MINIALLOC.
Proof.
  intros Hs. assert (size = 2 ^ 32 - 3 ∨ size = 2 ^ 32 - 2 ∨ size = 2 ^ 32 - 1) as [->|[->| ->]] by lia; by vm_compute.
Qed.

(** * Instances *)


Lemma memheap_session_witness :
  dwp (session 1000 [Alloc 20; Alloc 30; Realloc 1 60; Free 0; Realloc 0 8; Free 0] [])
    (λ live s, ∃ bs fl h, heap_at 1000 bs fl h s ∧ held bs live) demo_new.
Proof.
  eapply dwp_mono; [apply (memheap_session 1000 _ _ _ demo_new [] [Alloc 20; Alloc 30; Realloc 1 60; Free 0; Realloc 0 8; Free 0] demo_new_at)|].
  - split; [constructor|]. intros p. split; [intros []%elem_of_nil|]. intros [=]%list_elem_of_singleton.
  - repeat (constructor; [cbn; lia|]). constructor.
  - intros live s (bs & fl & h & Hat & _ & Hh & _). by exists bs, fl, h.
Defined.
