(* ===== verification/DevIpc.v ===== *)
(** The IPC of device drivers: completions, components/drivers/src/completion.c, and
    queues of data blocks, components/drivers/src/dataqueue.c.

    A completion is a flag one thread waits for; a data queue is a ring of pointers to
    data blocks with waiting lists for both ends. Their lists are [HSuspend a] (waiters of
    a completion, poppers of a queue) and [HSender a] (pushers) of their address. *)

From Stdlib Require Import ZArith Lia.
From stdpp Require Import base numbers option gmap.
From stdpp Require Import list.
From S2P Require Import Prelude.
From S2P Require Import Kstate.
From S2P Require Import KernelDefs.
From S2P Require Import Scheduler.
From S2P Require Import Object.
From S2P Require Import Timer.
From S2P Require Import Thread.
From S2P Require Import Clock.
From S2P Require Import Ipc.
Local Open Scope Z_scope.
Local Open Scope rt_scope.

(** * State *)

Definition RT_COMPLETED : Z := 1.
Definition RT_UNCOMPLETED : Z := 0.

(** [struct rt_data_item] *)
Record rt_data_item := mk_item { di_data_ptr : Z; di_data_size : Z }.

(** [struct rt_data_queue] without its lists; [dq_evt_notify] tells whether there is a
    callback. *)
Record rt_data_queue := mk_dq {
  dq_size : Z;
  dq_lwm : Z;
  dq_get_index : Z;
  dq_put_index : Z;
  dq_queue : list rt_data_item;
  dq_evt_notify : bool
}.

Definition RT_DATAQUEUE_EVENT_POP : Z := 1.
Definition RT_DATAQUEUE_EVENT_PUSH : Z := 2.
Definition RT_DATAQUEUE_EVENT_LWM : Z := 3.

(** The kernel, the global [__rt_errno], the flags of the completions, the queues, and the
    calls of [evt_notify] so far. *)
Record dst := mk_dst {
  ds_k : kst;
  ds_errno : Z;
  ds_flag : gmap Z Z;
  ds_dq : gmap Z rt_data_queue;
  ds_notes : list (Z * Z)
}.

Abbreviation DM := (M dst).

#[export] Instance dst_kernel : KernelState dst := {|
  st_k := ds_k;
  with_k k s := mk_dst k (ds_errno s) (ds_flag s) (ds_dq s) (ds_notes s);
  st_errno := ds_errno;
  with_errno e s := mk_dst (ds_k s) e (ds_flag s) (ds_dq s) (ds_notes s)
|}.
#[export] Instance dst_laws : KernelLaws dst.
Proof. by split; [..|intros []]. Qed.

Definition get_flag (a : Z) : DM Z := λ s, match ds_flag s !! a with Some x => Some (x, s) | None => None end.
Definition put_flag (a x : Z) : DM unit :=
  modify (λ s, mk_dst (ds_k s) (ds_errno s) (<[a := x]> (ds_flag s)) (ds_dq s) (ds_notes s)).
Definition get_dq (a : Z) : DM rt_data_queue := λ s, match ds_dq s !! a with Some x => Some (x, s) | None => None end.
Definition put_dq (a : Z) (x : rt_data_queue) : DM unit :=
  modify (λ s, mk_dst (ds_k s) (ds_errno s) (ds_flag s) (<[a := x]> (ds_dq s)) (ds_notes s)).
Definition waiters (h : thead) : DM (list Z) := gets (λ s, tlist (k_tl (ds_k s)) h).

(** * Completions *)

Definition rt_completion_init (a : Z) : DM unit :=
  assert (nz a) ;;
  put_flag a RT_UNCOMPLETED ;;
  kern (rt_ipc_object_init (HSuspend a)).

(** A caller that blocks continues with [rt_completion_wait_resume]. *)
Definition rt_completion_wait (a timeout : Z) : DM (outcome Z Z) :=
  assert (nz a) ;;
  thread ← gets (λ s, k_cur (ds_k s));
  flag ← get_flag a;
  if negb (flag =? RT_COMPLETED) then
    l ← waiters (HSuspend a);
    assert (bool_decide (l = [])) ;;
    if timeout =? 0 then ret (Returned (- RT_ETIMEOUT))
    else
      t ← from_opt thread;
      kern (mod_thread t (with_error RT_EOK)) ;;
      kern (rt_thread_suspend t) ;;
      kern (tl_insert_tail (HSuspend a) t) ;;
      kern RT_DEBUG_NOT_IN_INTERRUPT ;;
      kern (arm_timer t timeout) ;;
      kern rt_schedule ;;
      ret (Blocked t)
  else
    put_flag a RT_UNCOMPLETED ;;
    ret (Returned RT_EOK).

Definition rt_completion_wait_resume (a t : Z) : DM Z :=
  th ← kern (get_thread t);
  put_flag a RT_UNCOMPLETED ;;
  ret (th_error th).

Definition rt_completion_done (a : Z) : DM unit :=
  assert (nz a) ;;
  flag ← get_flag a;
  if flag =? RT_COMPLETED then ret tt
  else
    put_flag a RT_COMPLETED ;;
    l ← waiters (HSuspend a);
    match l with
    | t :: _ => kern (rt_thread_resume t) ;; kern rt_schedule
    | [] => ret tt
    end.

(** * Data queues *)

(** [queue] is what [rt_malloc] returned for the array, or nothing. *)
Definition rt_data_queue_init (a size lwm : Z) (evt_notify : bool) (queue : option (list rt_data_item)) : DM Z :=
  assert (nz a) ;;
  kern (rt_ipc_object_init (HSender a)) ;;
  kern (rt_ipc_object_init (HSuspend a)) ;;
  match queue with
  | None => put_dq a (mk_dq (u16 size) (u16 lwm) 0 0 [] evt_notify) ;; ret (- RT_ENOMEM)
  | Some l => put_dq a (mk_dq (u16 size) (u16 lwm) 0 0 l evt_notify) ;; ret RT_EOK
  end.

(** [if (queue->evt_notify != RT_NULL) queue->evt_notify(queue, event)] *)
Definition notify (a event : Z) : DM unit :=
  q ← get_dq a;
  if dq_evt_notify q then
    modify (λ s, mk_dst (ds_k s) (ds_errno s) (ds_flag s) (ds_dq s) (ds_notes s ++ [(a, event)]))
  else ret tt.

(** The lines of both ends that put the caller to sleep. *)
Definition dq_sleep (h : thead) (thread : option Z) (timeout : Z) : DM Z :=
  kern RT_DEBUG_NOT_IN_INTERRUPT ;;
  t ← from_opt thread;
  kern (mod_thread t (with_error RT_EOK)) ;;
  kern (rt_thread_suspend t) ;;
  kern (tl_insert_tail h t) ;;
  kern (arm_timer t timeout) ;;
  kern rt_schedule ;;
  ret t.

(** [queue->queue[i % queue->size] = x] *)
Definition dq_store (q : rt_data_queue) (i : Z) (x : rt_data_item) : option rt_data_queue :=
  if nz (dq_size q) then
    let j := Z.to_nat (i mod dq_size q) in
    if (j <? length (dq_queue q))%nat
    then Some (mk_dq (dq_size q) (dq_lwm q) (dq_get_index q) (dq_put_index q) (<[j := x]> (dq_queue q)) (dq_evt_notify q))
    else None
  else None.
Definition dq_load (q : rt_data_queue) (i : Z) : option rt_data_item :=
  if nz (dq_size q) then dq_queue q !! Z.to_nat (i mod dq_size q) else None.
Definition with_put (i : Z) (q : rt_data_queue) : rt_data_queue :=
  mk_dq (dq_size q) (dq_lwm q) (dq_get_index q) i (dq_queue q) (dq_evt_notify q).
Definition with_get (i : Z) (q : rt_data_queue) : rt_data_queue :=
  mk_dq (dq_size q) (dq_lwm q) i (dq_put_index q) (dq_queue q) (dq_evt_notify q).

(** The loop of [rt_data_queue_push] and the code behind it. *)
Definition dq_push_loop (a : Z) (thread : option Z) (x : rt_data_item) (timeout : Z) : DM (outcome Z Z) :=
  q ← get_dq a;
  if dq_put_index q - dq_get_index q =? dq_size q then
    if timeout =? 0 then ret (Returned (- RT_ETIMEOUT))
    else t ← dq_sleep (HSender a) thread timeout; ret (Blocked t)
  else
    q ← from_opt (dq_store q (dq_put_index q) x);
    put_dq a (with_put (u16 (dq_put_index q + 1)) q) ;;
    l ← waiters (HSuspend a);
    match l with
    | t :: _ => kern (rt_thread_resume t) ;; kern rt_schedule ;; ret (Returned RT_EOK)
    | [] => notify a RT_DATAQUEUE_EVENT_PUSH ;; ret (Returned RT_EOK)
    end.

Definition rt_data_queue_push (a data_ptr data_size timeout : Z) : DM (outcome Z Z) :=
  assert (nz a) ;;
  thread ← gets (λ s, k_cur (ds_k s));
  dq_push_loop a thread (mk_item data_ptr data_size) timeout.

Definition rt_data_queue_push_resume (a t data_ptr data_size timeout : Z) : DM (outcome Z Z) :=
  th ← kern (get_thread t);
  if negb (th_error th =? RT_EOK) then ret (Returned (th_error th))
  else dq_push_loop a (Some t) (mk_item data_ptr data_size) timeout.

(** The loop of [rt_data_queue_pop] and the code behind it; the block is the value of
    [*data_ptr] and [*size]. *)
Definition dq_pop_loop (a : Z) (thread : option Z) (timeout : Z) : DM (outcome (Z * option rt_data_item) Z) :=
  q ← get_dq a;
  if dq_get_index q =? dq_put_index q then
    if timeout =? 0 then ret (Returned (- RT_ETIMEOUT, None))
    else t ← dq_sleep (HSuspend a) thread timeout; ret (Blocked t)
  else
    x ← from_opt (dq_load q (dq_get_index q));
    let q := with_get (u16 (dq_get_index q + 1)) q in
    put_dq a q ;;
    if dq_put_index q - dq_get_index q <=? dq_lwm q then
      l ← waiters (HSender a);
      (match l with
       | t :: _ => kern (rt_thread_resume t) ;; kern rt_schedule
       | [] => ret tt
       end) ;;
      notify a RT_DATAQUEUE_EVENT_LWM ;;
      ret (Returned (RT_EOK, Some x))
    else
      notify a RT_DATAQUEUE_EVENT_POP ;;
      ret (Returned (RT_EOK, Some x)).

Definition rt_data_queue_pop (a timeout : Z) : DM (outcome (Z * option rt_data_item) Z) :=
  assert (nz a) ;;
  thread ← gets (λ s, k_cur (ds_k s));
  dq_pop_loop a thread timeout.

Definition rt_data_queue_pop_resume (a t timeout : Z) : DM (outcome (Z * option rt_data_item) Z) :=
  th ← kern (get_thread t);
  if negb (th_error th =? RT_EOK) then ret (Returned (th_error th, None))
  else dq_pop_loop a (Some t) timeout.

Definition rt_data_queue_peak (a : Z) : DM (Z * option rt_data_item) :=
  assert (nz a) ;;
  q ← get_dq a;
  if dq_get_index q =? dq_put_index q then ret (- RT_EEMPTY, None)
  else x ← from_opt (dq_load q (dq_get_index q)); ret (RT_EOK, Some x).

Definition rt_data_queue_reset (a : Z) : DM unit :=
  kern rt_enter_critical ;;
  kern (rt_ipc_list_resume_all (HSuspend a)) ;;
  kern (rt_ipc_list_resume_all (HSender a)) ;;
  kern rt_exit_critical ;;
  kern rt_schedule.

(** * Kernel steps *)

Lemma dev_kern_run {A} (m : K A) s x k :
  m (ds_k s) = Some (x, k) → kern m s = Some (x, mk_dst k (ds_errno s) (ds_flag s) (ds_dq s) (ds_notes s)).
Proof. intros E. exact (kern_run (S := dst) m s x k E). Qed.

Lemma outside_interrupt_run s : sc_irq_nest (k_sched s) = 0 → RT_DEBUG_NOT_IN_INTERRUPT s = Some (tt, s).
Proof. intros H. unfold RT_DEBUG_NOT_IN_INTERRUPT, rt_interrupt_get_nest, bind, gets, assert. by rewrite H. Qed.

Lemma wake_head_run s h t rest :
  kinv s → is_wait h → tlist (k_tl s) h = t :: rest →
  ∃ th e s1 s', k_thr s !! t = Some th ∧ rt_thread_resume t s = Some (e, s1) ∧ rt_schedule s1 = Some (tt, s') ∧
    woken_post h t th rest s s'.
Proof.
  intros HI Hh El. destruct (wake_first_run s h t rest HI Hh El) as (th & s' & Hth & _ & R & Hw).
  unfold bind in R at 1. unfold rt_ipc_list_resume, bind, gets, from_opt in R. rewrite El in R. cbn [head] in R.
  destruct (rt_thread_resume t s) as [[e s1]|] eqn:R1; [|done]. cbn -[rt_schedule] in R. by exists th, e, s1, s'.
Qed.

(** The caller goes to sleep at the end of the list. *)
Definition sleeps (h : thead) (t : Z) (th : rt_thread) (time : Z) (s s' : kst) : Prop :=
  queued_post h t (with_error RT_EOK th) (tlist (k_tl s) h ++ [t]) time s s'.

Lemma queued_post_error s t th h l time s' :
  k_thr s !! t = Some th → queued_post h t (with_error RT_EOK th) l time (error_st t RT_EOK th s) s' →
  queued_post h t (with_error RT_EOK th) l time s s'.
Proof.
  intros Ht (HI & Hip & Hob & Ht' & Hl & Hoth & Htm & Hmv & Hhi). split_and!; try done.
  - intros u uh Hu Huh. apply Hmv; [done|]. unfold error_st, k_thr in *. cbn. by rewrite lookup_insert_ne.
  - intros u Hu Hn Hr. apply (Hhi u Hu Hn). unfold thread_stat, error_st, k_thr in *. cbn. by rewrite lookup_insert_ne.
Qed.

Lemma sleep_steps s h t th time :
  kinv s → caller s t th → is_wait h → time < HALF →
  ∃ e s1 s2 s3 s', rt_thread_suspend t (error_st t RT_EOK th s) = Some (e, s1) ∧ tl_insert_tail h t s1 = Some (tt, s2) ∧
    sc_irq_nest (k_sched s2) = 0 ∧ arm_timer t time s2 = Some (tt, s3) ∧ rt_schedule s3 = Some (tt, s') ∧ sleeps h t th time s s'.
Proof.
  intros HI Hca Hh Htime. pose proof Hca as (Hc & Ht & _ & Hirq). set (s0 := error_st t RT_EOK th s).
  assert (kinv s0) as HI0 by (by apply kinv_error). pose proof (error_st_caller s t th RT_EOK Hca) as Hca0. fold s0 in Hca0.
  pose proof Hca0 as (Hc0 & Ht0 & _ & _). pose proof (caller_active _ _ _ Hca0) as Ha0.
  pose proof (ipc_suspend_run s0 h t _ RT_IPC_FLAG_FIFO HI0 Ht0 Ha0 Hh ltac:(by left)) as R.
  unfold rt_ipc_list_suspend, bind in R. destruct (rt_thread_suspend t s0) as [[e s1]|] eqn:R1; [|done]. cbn [Z.eqb RT_IPC_FLAG_FIFO] in R.
  set (l := tlist (k_tl s0) h ++ [t]).
  assert (upd_sched (blocked_sc h t (with_error RT_EOK th) RT_IPC_FLAG_FIFO) s0 =
    upd_sched (λ c, link_sc h l (suspend_sc t (with_error RT_EOK th) c)) s0) as E by reflexivity. rewrite E in R.
  destruct (linked_arm_run s0 h t _ l time HI0 Ht0 Ha0 Hh ltac:(unfold l; by rewrite Permutation_app_comm) Htime) as (s3 & R3 & Hw3).
  destruct (queued_schedule_run s0 s3 h t _ l time HI0 Hc0 Ht0 Ha0 Hh Hw3) as (s' & R4 & Hq).
  eexists e, s1, _, s3, s'. split_and!; [done|exact R|exact Hirq|exact R3|exact R4|]. by apply queued_post_error.
Qed.

(** * Completions *)

Definition flag_st (a x : Z) (s : dst) : dst := mk_dst (ds_k s) (ds_errno s) (<[a := x]> (ds_flag s)) (ds_dq s) (ds_notes s).
Definition kernel_st (k : kst) (s : dst) : dst := mk_dst k (ds_errno s) (ds_flag s) (ds_dq s) (ds_notes s).

(** [rt_completion_wait] in all its cases: a completed flag is consumed; otherwise, with
    nobody waiting, a zero timeout answers at once and any other puts the caller to sleep. *)
Lemma completion_wait_run s a t th flag timeout :
  kinv (ds_k s) → caller (ds_k s) t th → nz a = true → ds_flag s !! a = Some flag → timeout < HALF →
  (flag ≠ RT_COMPLETED → tlist (k_tl (ds_k s)) (HSuspend a) = []) →
  if flag =? RT_COMPLETED then rt_completion_wait a timeout s = Some (Returned RT_EOK, flag_st a RT_UNCOMPLETED s)
  else if timeout =? 0 then rt_completion_wait a timeout s = Some (Returned (- RT_ETIMEOUT), s)
  else ∃ k, rt_completion_wait a timeout s = Some (Blocked t, kernel_st k s) ∧ sleeps (HSuspend a) t th timeout (ds_k s) k.
Proof.
  intros HI Hca Ha Hf Htime Hl. pose proof Hca as (Hc & Ht & _ & _).
  destruct (Z.eqb_spec flag RT_COMPLETED) as [E|E].
  { unfold rt_completion_wait, bind, assert, gets, get_flag. by rewrite Ha, Hf, E. }
  assert (rt_completion_wait a timeout s = (if timeout =? 0 then ret (Returned (- RT_ETIMEOUT)) else
      kern (mod_thread t (with_error RT_EOK)) ;; kern (rt_thread_suspend t) ;; kern (tl_insert_tail (HSuspend a) t) ;;
      kern RT_DEBUG_NOT_IN_INTERRUPT ;; kern (arm_timer t timeout) ;; kern rt_schedule ;; ret (Blocked t)) s) as ->.
  { unfold rt_completion_wait, bind, assert, gets, get_flag, waiters, gets. rewrite Ha, Hf, (proj2 (Z.eqb_neq _ _) E). cbn [negb].
    rewrite (Hl E), bool_decide_eq_true_2 by done. destruct (timeout =? 0); [done|]. by rewrite Hc. }
  destruct (timeout =? 0); [done|].
  destruct (sleep_steps (ds_k s) (HSuspend a) t th timeout HI Hca I Htime) as (e & s1 & s2 & s3 & s' & R1 & R2 & Hirq & R3 & R4 & Hsl).
  unfold bind. rewrite (dev_kern_run _ s _ _ (mod_thread_run (ds_k s) t th _ Ht)). fold (error_st t RT_EOK th (ds_k s)).
  rewrite (dev_kern_run _ (mk_dst _ _ _ _ _) _ _ R1). rewrite (dev_kern_run _ (mk_dst _ _ _ _ _) _ _ R2).
  rewrite (dev_kern_run _ (mk_dst _ _ _ _ _) _ _ (outside_interrupt_run s2 Hirq)).
  rewrite (dev_kern_run _ (mk_dst _ _ _ _ _) _ _ R3). rewrite (dev_kern_run _ (mk_dst _ _ _ _ _) _ _ R4).
  by exists s'.
Qed.

(** [rt_completion_done]: a second completion is not counted; the first sets the flag and
    wakes the thread that waits, if there is one. *)
Lemma completion_done_run s a flag :
  kinv (ds_k s) → nz a = true → ds_flag s !! a = Some flag →
  if flag =? RT_COMPLETED then rt_completion_done a s = Some (tt, s)
  else
    match tlist (k_tl (ds_k s)) (HSuspend a) with
    | [] => rt_completion_done a s = Some (tt, flag_st a RT_COMPLETED s)
    | t :: rest => ∃ k th, rt_completion_done a s = Some (tt, kernel_st k (flag_st a RT_COMPLETED s)) ∧
        k_thr (ds_k s) !! t = Some th ∧ woken_post (HSuspend a) t th rest (ds_k s) k
    end.
Proof.
  intros HI Ha Hf. destruct (Z.eqb_spec flag RT_COMPLETED) as [E|E].
  { unfold rt_completion_done, bind, assert, get_flag. by rewrite Ha, Hf, E. }
  assert (rt_completion_done a s = match tlist (k_tl (ds_k s)) (HSuspend a) with
    t :: _ => kern (rt_thread_resume t) ;; kern rt_schedule | [] => ret tt end (flag_st a RT_COMPLETED s)) as ->.
  { unfold rt_completion_done, bind, assert, get_flag. by rewrite Ha, Hf, (proj2 (Z.eqb_neq _ _) E). }
  destruct (tlist (k_tl (ds_k s)) (HSuspend a)) as [|t rest] eqn:El; [done|].
  destruct (wake_head_run (ds_k s) (HSuspend a) t rest HI I El) as (th & e & s1 & s' & Hth & R1 & R2 & Hw). exists s', th.
  unfold bind. rewrite (dev_kern_run _ (flag_st a RT_COMPLETED s) _ _ R1). rewrite (dev_kern_run _ (mk_dst _ _ _ _ _) _ _ R2). done.
Qed.

Lemma wait_resume_run s a t th :
  k_thr (ds_k s) !! t = Some th → rt_completion_wait_resume a t s = Some (th_error th, flag_st a RT_UNCOMPLETED s).
Proof.
  intros Ht. unfold rt_completion_wait_resume, bind. rewrite (dev_kern_run _ s th (ds_k s)); [by destruct s|].
  unfold get_thread. by rewrite Ht.
Qed.

(** The hand-over of a completion: a thread that waits for an uncompleted completion
    sleeps; [rt_completion_done] wakes it, its wait returns [RT_EOK], and the flag is used
    up: nobody else is queued and the next wait with a zero timeout answers
    [-RT_ETIMEOUT]. *)
Theorem completion_handoff s a t th timeout :
  kinv (ds_k s) → caller (ds_k s) t th → nz a = true → ds_flag s !! a = Some RT_UNCOMPLETED →
  tlist (k_tl (ds_k s)) (HSuspend a) = [] → timeout ≠ 0 → timeout < HALF →
  wp (r ← rt_completion_wait a timeout; match r with Blocked u => rt_completion_done a ;; rt_completion_wait_resume a u | Returned e => ret e end)
    (λ r s', r = RT_EOK ∧ kinv (ds_k s') ∧ ds_flag s' !! a = Some RT_UNCOMPLETED ∧ tlist (k_tl (ds_k s')) (HSuspend a) = [] ∧
       ThreadTimer t ∉ k_rows (ds_k s') ∧
       (∃ th', k_thr (ds_k s') !! t = Some th' ∧ active th') ∧
       ∀ u uh, caller (ds_k s') u uh → rt_completion_wait a 0 s' = Some (Returned (- RT_ETIMEOUT), s')) s.
Proof.
  intros HI Hca Ha Hf Hl Hz Htime. pose proof (completion_wait_run s a t th _ timeout HI Hca Ha Hf Htime ltac:(done)) as Hw.
  cbn [Z.eqb RT_UNCOMPLETED RT_COMPLETED] in Hw. rewrite (proj2 (Z.eqb_neq _ _) Hz) in Hw. destruct Hw as (k & Hr & Hq).
  unfold wp, bind. rewrite Hr. set (s1 := kernel_st k s). pose proof Hq as (HI1 & _ & _ & Ht1 & Hl1 & _). rewrite Hl in Hl1. cbn [app] in Hl1.
  pose proof (completion_done_run s1 a RT_UNCOMPLETED HI1 Ha Hf) as Hd. cbn [Z.eqb RT_UNCOMPLETED RT_COMPLETED] in Hd.
  change (ds_k s1) with k in Hd. rewrite Hl1 in Hd. destruct Hd as (k2 & th2 & Hr2 & Hth2 & Hw2). rewrite Hr2.
  rewrite Ht1 in Hth2. injection Hth2 as <-. set (s2 := kernel_st k2 _).
  destruct Hw2 as (HI2 & _ & _ & Hl2 & _ & (st & Ht2 & Hact) & (Hrow & _) & _). rewrite (wait_resume_run s2 a t _ Ht2).
  split_and!; [done|done|apply lookup_insert_eq|done|done|by eexists|].
  intros u uh Hcu. pose proof (completion_wait_run (flag_st a RT_UNCOMPLETED s2) a u uh RT_UNCOMPLETED 0 HI2 Hcu Ha (lookup_insert_eq _ _ _) ltac:(done) ltac:(done)) as H.
  exact H.
Qed.

(** A completion that arrives when the wait has just timed out is lost: the waiter
    has left the list but has not run yet, [rt_completion_done] sets the flag, and the
    waiter, which returns [-RT_ETIMEOUT], clears it. *)
Theorem completion_lost s a t th :
  kinv (ds_k s) → nz a = true → ds_flag s !! a = Some RT_UNCOMPLETED → tlist (k_tl (ds_k s)) (HSuspend a) = [] →
  k_thr (ds_k s) !! t = Some th → th_error th = - RT_ETIMEOUT →
  (rt_completion_done a ;; rt_completion_wait_resume a t) s = Some (- RT_ETIMEOUT, s).
Proof.
  intros HI Ha Hf Hl Ht He. pose proof (completion_done_run s a RT_UNCOMPLETED HI Ha Hf) as Hd. rewrite Hl in Hd.
  unfold bind. rewrite Hd. rewrite (wait_resume_run (flag_st a RT_COMPLETED s) a t th Ht), He. unfold flag_st. cbn. rewrite insert_insert_eq.
  rewrite insert_id by done. by destruct s.
Qed.

(** * Data queues *)

(** The queue holds the blocks [xs], oldest first, and its indices have not wrapped. *)
Record queue_rep (q : rt_data_queue) (xs : list rt_data_item) : Prop := {
  qr_size : 0 < dq_size q < 2 ^ 16;
  qr_lwm : 0 ≤ dq_lwm q;
  qr_queue : Z.of_nat (length (dq_queue q)) = dq_size q;
  qr_get : 0 ≤ dq_get_index q;
  qr_put : dq_put_index q = dq_get_index q + Z.of_nat (length xs) ∧ dq_put_index q < 2 ^ 16;
  qr_room : Z.of_nat (length xs) ≤ dq_size q;
  qr_items : ∀ i x, xs !! i = Some x → dq_queue q !! Z.to_nat ((dq_get_index q + Z.of_nat i) mod dq_size q) = Some x
}.

(** Two places of a window not longer than the ring are different slots. *)
Lemma mod_window g i j n : 0 < n → 0 ≤ i < n → 0 ≤ j < n → i ≠ j → (g + i) mod n ≠ (g + j) mod n.
Proof.
  intros Hn Hi Hj Hne E. pose proof (Z.div_mod (g + i) n ltac:(lia)). pose proof (Z.div_mod (g + j) n ltac:(lia)).
  assert (i - j = n * ((g + i) / n - (g + j) / n)) by lia. assert ((g + i) / n - (g + j) / n = 0) by nia. nia.
Qed.

Lemma dq_slot q xs i : queue_rep q xs → (Z.to_nat (i mod dq_size q) < length (dq_queue q))%nat.
Proof. intros [? _ ? _ _ _ _]. pose proof (Z.mod_pos_bound i (dq_size q)). lia. Qed.

Lemma dq_store_rep q xs x :
  queue_rep q xs → Z.of_nat (length xs) < dq_size q → dq_put_index q < 2 ^ 16 - 1 →
  ∃ q', dq_store q (dq_put_index q) x = Some q' ∧ queue_rep (with_put (u16 (dq_put_index q' + 1)) q') (xs ++ [x]) ∧
    dq_evt_notify q' = dq_evt_notify q.
Proof.
  intros Hq Hroom Hw. pose proof (dq_slot q xs (dq_put_index q) Hq) as Hs. pose proof Hq as [Hsz Hlwm Hlen Hg [Hp Hp2] Hr Hit].
  unfold dq_store. rewrite (proj2 (nz_true _)) by lia. rewrite (proj2 (Nat.ltb_lt _ _)) by done.
  eexists. split; [reflexivity|]. split; [|done]. split; cbn; try done.
  - by rewrite length_insert.
  - rewrite length_app. cbn. rewrite wrap_small by lia. lia.
  - rewrite length_app. cbn. lia.
  - intros i y Hy. destruct (decide (i = length xs)) as [->|Hi].
    + rewrite lookup_app_r, Nat.sub_diag in Hy by done. injection Hy as <-. rewrite <- Hp. by apply list_lookup_insert_eq.
    + assert (i < length xs)%nat as Hlt by (apply lookup_lt_Some in Hy; rewrite length_app in Hy; cbn in Hy; lia).
      rewrite lookup_app_l in Hy by done. rewrite list_lookup_insert_ne; [by apply Hit|].
      pose proof (mod_window (dq_get_index q) (Z.of_nat i) (Z.of_nat (length xs)) (dq_size q) ltac:(lia) ltac:(lia) ltac:(lia) ltac:(lia)) as H.
      rewrite <- Hp in H. pose proof (Z.mod_pos_bound (dq_put_index q) (dq_size q) ltac:(lia)).
      pose proof (Z.mod_pos_bound (dq_get_index q + Z.of_nat i) (dq_size q) ltac:(lia)). lia.
Qed.

Lemma dq_load_rep q x xs :
  queue_rep q (x :: xs) → dq_load q (dq_get_index q) = Some x ∧ queue_rep (with_get (u16 (dq_get_index q + 1)) q) xs.
Proof.
  intros [Hsz Hlwm Hlen Hg [Hp Hp2] Hr Hit]. cbn [length] in *. split.
  - unfold dq_load. rewrite (proj2 (nz_true _)) by lia. specialize (Hit 0%nat x eq_refl). by rewrite Z.add_0_r in Hit.
  - rewrite wrap_small by lia. split; cbn; try lia. intros i y Hy. specialize (Hit (S i) y Hy).
    by replace (dq_get_index q + 1 + Z.of_nat i) with (dq_get_index q + Z.of_nat (S i)) by lia.
Qed.

Lemma dq_sleep_run s h t th timeout :
  kinv (ds_k s) → caller (ds_k s) t th → is_wait h → timeout < HALF →
  ∃ k, dq_sleep h (Some t) timeout s = Some (t, kernel_st k s) ∧ sleeps h t th timeout (ds_k s) k.
Proof.
  intros HI Hca Hh Htime. pose proof Hca as (Hc & Ht & _ & Hirq).
  destruct (sleep_steps (ds_k s) h t th timeout HI Hca Hh Htime) as (e & s1 & s2 & s3 & s' & R1 & R2 & _ & R3 & R4 & Hsl).
  exists s'. split; [|done]. unfold dq_sleep, bind, from_opt. rewrite (dev_kern_run _ s _ _ (outside_interrupt_run _ Hirq)).
  rewrite (dev_kern_run _ (mk_dst _ _ _ _ _) _ _ (mod_thread_run (ds_k s) t th _ Ht)). fold (error_st t RT_EOK th (ds_k s)).
  rewrite (dev_kern_run _ (mk_dst _ _ _ _ _) _ _ R1), (dev_kern_run _ (mk_dst _ _ _ _ _) _ _ R2).
  by rewrite (dev_kern_run _ (mk_dst _ _ _ _ _) _ _ R3), (dev_kern_run _ (mk_dst _ _ _ _ _) _ _ R4).
Qed.

Definition queue_st (a : Z) (q : rt_data_queue) (s : dst) : dst :=
  mk_dst (ds_k s) (ds_errno s) (ds_flag s) (<[a := q]> (ds_dq s)) (ds_notes s).
Definition note_st (a event : Z) (q : rt_data_queue) (s : dst) : dst :=
  if dq_evt_notify q then mk_dst (ds_k s) (ds_errno s) (ds_flag s) (ds_dq s) (ds_notes s ++ [(a, event)]) else s.

Lemma notify_event_run a event q s : ds_dq s !! a = Some q → notify a event s = Some (tt, note_st a event q s).
Proof. intros Hq. unfold notify, bind, get_dq, note_st. rewrite Hq. by destruct (dq_evt_notify q). Qed.

(** What happens to the other end of the queue: the first of the list [h] is woken, if
    there is one. *)
Definition wakes (h : thead) (s s' : kst) : Prop :=
  kinv s' ∧
  match tlist (k_tl s) h with
  | [] => s' = s
  | t :: rest => ∃ th, k_thr s !! t = Some th ∧ woken_post h t th rest s s'
  end.

Lemma dq_wake_run s h :
  kinv (ds_k s) → is_wait h →
  ∃ k, match tlist (k_tl (ds_k s)) h with t :: _ => kern (rt_thread_resume t) ;; kern rt_schedule | [] => ret tt end s = Some (tt, kernel_st k s) ∧
    wakes h (ds_k s) k.
Proof.
  intros HI Hh. unfold wakes. destruct (tlist (k_tl (ds_k s)) h) as [|t rest] eqn:El; [exists (ds_k s); by destruct s|].
  destruct (wake_head_run (ds_k s) h t rest HI Hh El) as (th & e & s1 & s' & Hth & R1 & R2 & Hw). exists s'.
  unfold bind. rewrite (dev_kern_run _ s _ _ R1), (dev_kern_run _ (mk_dst _ _ _ _ _) _ _ R2). split; [done|]. split; [apply Hw|eauto].
Qed.

(** Pushing onto a data queue refines appending to a bounded sequence while its
    indices have not wrapped: with room the block is stored behind the others and the
    first popper is woken, or else the callback is told; a full queue answers
    [-RT_ETIMEOUT] for a zero timeout without any change, and otherwise puts the caller
    to sleep behind the other pushers. *)
Theorem rt_data_queue_push_spec s a q xs p n t th timeout :
  kinv (ds_k s) → caller (ds_k s) t th → nz a = true → ds_dq s !! a = Some q → queue_rep q xs → timeout < HALF →
  dq_put_index q < 2 ^ 16 - 1 →
  wp (rt_data_queue_push a p n timeout) (λ r s',
    (Z.of_nat (length xs) < dq_size q → r = Returned RT_EOK ∧ wakes (HSuspend a) (ds_k s) (ds_k s') ∧
       (∃ q', ds_dq s' = <[a := q']> (ds_dq s) ∧ queue_rep q' (xs ++ [mk_item p n])) ∧
       ds_notes s' = ds_notes s ++ (if dq_evt_notify q && bool_decide (tlist (k_tl (ds_k s)) (HSuspend a) = []) then [(a, RT_DATAQUEUE_EVENT_PUSH)] else [])) ∧
    (Z.of_nat (length xs) = dq_size q → timeout = 0 → r = Returned (- RT_ETIMEOUT) ∧ s' = s) ∧
    (Z.of_nat (length xs) = dq_size q → timeout ≠ 0 → r = Blocked t ∧ ∃ k, s' = kernel_st k s ∧ sleeps (HSender a) t th timeout (ds_k s) k)) s.
Proof.
  intros HI Hca Ha Hq Hrep Htime Hwrap. pose proof Hca as (Hc & _). unfold wp, rt_data_queue_push, bind at 1, assert. rewrite Ha.
  unfold bind at 1, gets at 1. rewrite Hc. unfold dq_push_loop, bind at 1, get_dq. rewrite Hq. pose proof (qr_put _ _ Hrep) as [Hp _].
  replace (dq_put_index q - dq_get_index q) with (Z.of_nat (length xs)) by lia. pose proof (qr_room _ _ Hrep) as Hroom.
  destruct (Z.eqb_spec (Z.of_nat (length xs)) (dq_size q)) as [Hfull|Hfree].
  - destruct (Z.eqb_spec timeout 0) as [E|E]; [split_and!; [lia|done|done]|].
    destruct (dq_sleep_run s (HSender a) t th timeout HI Hca I Htime) as (k & R & Hs). unfold bind. rewrite R.
    split_and!; [lia|done|]. intros _ _. split; [done|]. by exists k.
  - destruct (dq_store_rep q xs (mk_item p n) Hrep ltac:(lia) Hwrap) as (q' & Hst & Hrep' & Hev). unfold bind at 1, from_opt. rewrite Hst.
    set (q2 := with_put _ q') in *. assert (dq_evt_notify q2 = dq_evt_notify q) as Hev2 by done.
    unfold bind at 1, put_dq, modify. fold (queue_st a q2 s). unfold bind at 1, waiters, gets. change (ds_k (queue_st a q2 s)) with (ds_k s).
    destruct (dq_wake_run (queue_st a q2 s) (HSuspend a) HI I) as (k & R & Hw). change (ds_k (queue_st a q2 s)) with (ds_k s) in R, Hw.
    destruct (tlist (k_tl (ds_k s)) (HSuspend a)) as [|u rest] eqn:El.
    + unfold bind. rewrite (notify_event_run a _ q2) by apply lookup_insert_eq.
      assert (k = ds_k s) as Ek by (unfold wakes in Hw; rewrite El in Hw; apply Hw). rewrite Ek in Hw.
      split_and!; [|lia|lia]. intros _. unfold note_st. rewrite Hev2. rewrite bool_decide_eq_true_2 by done.
      destruct (dq_evt_notify q); cbn; (split_and!; [done|done|by exists q2|]); [done|by rewrite app_nil_r].
    + unfold bind in R |- *. destruct (kern (rt_thread_resume u) (queue_st a q2 s)) as [[e s1]|]; [|done]. rewrite R.
      split_and!; [|lia|lia]. intros _. rewrite bool_decide_eq_false_2, andb_false_r, app_nil_r by done.
      split_and!; [done|done|by exists q2|done].
Qed.

(** Popping from a data queue refines taking the first block of the sequence: the
    caller gets it; when no more than the low-water mark are left the first pusher is
    woken and the callback is told so, otherwise the callback is told of the pop; an empty
    queue answers [-RT_ETIMEOUT] for a zero timeout without any change, and otherwise puts
    the caller to sleep behind the other poppers. *)
Theorem rt_data_queue_pop_spec s a q xs t th timeout :
  kinv (ds_k s) → caller (ds_k s) t th → nz a = true → ds_dq s !! a = Some q → queue_rep q xs → timeout < HALF →
  wp (rt_data_queue_pop a timeout) (λ r s',
    (∀ x xs', xs = x :: xs' → r = Returned (RT_EOK, Some x) ∧
       (∃ q', ds_dq s' = <[a := q']> (ds_dq s) ∧ queue_rep q' xs') ∧
       (if Z.of_nat (length xs') <=? dq_lwm q then wakes (HSender a) (ds_k s) (ds_k s') else ds_k s' = ds_k s) ∧
       ds_notes s' = ds_notes s ++ (if dq_evt_notify q then
         [(a, if Z.of_nat (length xs') <=? dq_lwm q then RT_DATAQUEUE_EVENT_LWM else RT_DATAQUEUE_EVENT_POP)] else [])) ∧
    (xs = [] → timeout = 0 → r = Returned (- RT_ETIMEOUT, None) ∧ s' = s) ∧
    (xs = [] → timeout ≠ 0 → r = Blocked t ∧ ∃ k, s' = kernel_st k s ∧ sleeps (HSuspend a) t th timeout (ds_k s) k)) s.
Proof.
  intros HI Hca Ha Hq Hrep Htime. pose proof Hca as (Hc & _). unfold wp, rt_data_queue_pop, bind at 1, assert. rewrite Ha.
  unfold bind at 1, gets at 1. rewrite Hc. unfold dq_pop_loop, bind at 1, get_dq. rewrite Hq. pose proof (qr_put _ _ Hrep) as [Hp _].
  destruct xs as [|x xs].
  - cbn in Hp. rewrite (proj2 (Z.eqb_eq (dq_get_index q) _)) by lia. destruct (Z.eqb_spec timeout 0) as [E|E]; [by split_and!|].
    destruct (dq_sleep_run s (HSuspend a) t th timeout HI Hca I Htime) as (k & R & Hs). unfold bind. rewrite R.
    split_and!; [done|done|]. intros _ _. split; [done|]. by exists k.
  - cbn [length] in Hp. rewrite (proj2 (Z.eqb_neq (dq_get_index q) _)) by lia. destruct (dq_load_rep q x xs Hrep) as [Hld Hrep'].
    unfold bind at 1, from_opt. rewrite Hld. set (q' := with_get _ q) in *. unfold bind at 1, put_dq, modify. fold (queue_st a q' s).
    pose proof (qr_put _ _ Hrep') as [Hp' _]. replace (dq_put_index q' - dq_get_index q') with (Z.of_nat (length xs)) by lia.
    change (dq_lwm q') with (dq_lwm q).
    assert (∀ ev k, ∃ s', notify a ev (kernel_st k (queue_st a q' s)) = Some (tt, s') ∧ ds_k s' = k ∧ ds_dq s' = <[a := q']> (ds_dq s) ∧
      ds_notes s' = ds_notes s ++ (if dq_evt_notify q then [(a, ev)] else [])) as Hnote.
    { intros ev k. rewrite (notify_event_run a ev q') by apply lookup_insert_eq. unfold note_st. change (dq_evt_notify q') with (dq_evt_notify q).
      destruct (dq_evt_notify q); (eexists; split; [reflexivity|]); cbn; [done|by rewrite app_nil_r]. }
    destruct (Z.of_nat (length xs) <=? dq_lwm q) eqn:El.
    + destruct (dq_wake_run (queue_st a q' s) (HSender a) HI I) as (k & R & Hw). unfold bind at 1, waiters, gets. unfold bind at 1. rewrite R.
      destruct (Hnote RT_DATAQUEUE_EVENT_LWM k) as (s' & Rn & Hk & Hd & Hn). unfold bind. rewrite Rn. split_and!; [|done|done].
      intros x0 xs0 [= <- <-]. rewrite El, Hk. split_and!; [done|by exists q'|done|done].
    + destruct (Hnote RT_DATAQUEUE_EVENT_POP (ds_k s)) as (s' & Rn & Hk & Hd & Hn). change (kernel_st (ds_k s) (queue_st a q' s)) with (queue_st a q' s) in Rn.
      unfold bind. rewrite Rn. split_and!; [|done|done]. intros x0 xs0 [= <- <-]. rewrite El. split_and!; [done|by exists q'|done|done].
Qed.

(** The indices are 16 bits wide but compared after promotion to [int]: once the put
    index has wrapped, a full queue is not recognised. A queue that lacks one block with
    its put index at 65535 accepts two more blocks without waiting, and the second one
    replaces the oldest block when the size divides 65536. *)
Theorem data_queue_wrap_overflow s a q x xs p n p' n' :
  kinv (ds_k s) → is_Some (k_cur (ds_k s)) → nz a = true → ds_dq s !! a = Some q → queue_rep q (x :: xs) →
  Z.of_nat (length (x :: xs)) = dq_size q - 1 → dq_put_index q = 65535 → 65536 mod dq_size q = 0 →
  tlist (k_tl (ds_k s)) (HSuspend a) = [] → dq_evt_notify q = false →
  wp (r1 ← rt_data_queue_push a p n 0; r2 ← rt_data_queue_push a p' n' 0; r3 ← rt_data_queue_peak a; ret (r1, r2, r3))
    (λ r s', r = (Returned RT_EOK, Returned RT_EOK, (RT_EOK, Some (mk_item p' n')))) s.
Proof.
  intros HI [t Hc] Ha Hq Hrep Hlen Hput Hdiv Hl Hev. pose proof Hrep as [Hsz _ Hln Hg [Hp _] _ _]. set (l := dq_queue q) in *.
  assert (dq_get_index q = 65536 - dq_size q) as Hget by lia. set (size := dq_size q) in *.
  assert (2 * size ≤ 65536) as Hhalf by (apply Z.mod_divide in Hdiv as [k Hk]; [|lia]; assert (1 < k) by nia; nia).
  assert (∀ p n s put l', ds_dq s !! a = Some (mk_dq size (dq_lwm q) (65536 - size) put l' false) → length l' = length l →
    tlist (k_tl (ds_k s)) (HSuspend a) = [] → k_cur (ds_k s) = Some t → put - (65536 - size) ≠ size →
    rt_data_queue_push a p n 0 s =
      Some (Returned RT_EOK, queue_st a (mk_dq size (dq_lwm q) (65536 - size) (u16 (put + 1)) (<[Z.to_nat (put mod size) := mk_item p n]> l') false) s)) as Hpush.
  { intros p0 n0 s0 put l' Hq0 Hl' Hl0 Hc0 Hne. unfold rt_data_queue_push, bind at 1, assert. rewrite Ha. unfold bind at 1, gets at 1.
    unfold dq_push_loop, bind at 1, get_dq. rewrite Hq0. cbn [dq_put_index dq_get_index dq_size]. rewrite (proj2 (Z.eqb_neq _ _)) by done.
    unfold dq_store. cbn [dq_size dq_queue dq_lwm dq_get_index dq_put_index dq_evt_notify]. rewrite (proj2 (nz_true size)) by lia.
    pose proof (Z.mod_pos_bound put size ltac:(lia)). rewrite (proj2 (Nat.ltb_lt _ _)) by lia.
    unfold bind at 1, from_opt. unfold bind at 1, put_dq, modify. unfold bind at 1, waiters, gets. cbn [ds_k]. rewrite Hl0.
    unfold bind. by rewrite (notify_event_run a _ _ _ (lookup_insert_eq _ _ _)). }
  assert (q = mk_dq size (dq_lwm q) (65536 - size) 65535 l false) as Eq by (unfold size, l; destruct q; cbn in *; congruence).
  rewrite Eq in Hq. unfold wp, bind at 1. rewrite (Hpush p n s 65535 l) by (done || lia). set (l1 := <[_ := _]> l). change (u16 (65535 + 1)) with 0.
  set (s1 := queue_st a _ s). assert (length l1 = length l) as Hl1 by apply length_insert.
  unfold bind at 1. rewrite (Hpush p' n' s1 0 l1) by (first [apply lookup_insert_eq|done|lia]). change (u16 (0 + 1)) with 1.
  rewrite Z.mod_0_l by lia. change (Z.to_nat 0) with 0%nat. unfold rt_data_queue_peak, bind, assert. rewrite Ha. unfold get_dq, queue_st at 1. cbn [ds_dq].
  rewrite lookup_insert_eq. cbn [dq_get_index dq_put_index]. rewrite (proj2 (Z.eqb_neq _ _)) by lia.
  unfold from_opt, dq_load. cbn [dq_size dq_queue]. rewrite (proj2 (nz_true size)) by lia.
  assert ((65536 - size) mod size = 0) as ->.
  { apply Z.mod_divide in Hdiv as [k Hk]; [|lia]. apply Z.mod_divide; [lia|]. exists (k - 1). lia. }
  change (Z.to_nat 0) with 0%nat. rewrite list_lookup_insert_eq by lia. done.
Qed.

(** ** Reset *)

(** A thread that is ready or running with an error stays so when the scheduler runs. *)
Definition failed (s : kst) (u : Z) : Prop := ∃ uh, k_thr s !! u = Some uh ∧ active uh ∧ th_error uh = - RT_ERROR.

Lemma failed_moved s c' u :
  moved (k_sched s) c' → failed s u → failed (mk_kst c' (k_timers s) (k_objects s) (k_ipc s)) u.
Proof.
  intros Hm (uh & Hu & Ha & He). specialize (Hm u). unfold k_thr in Hu. rewrite Hu in Hm. unfold failed, k_thr. cbn.
  destruct (sc_thr c' !! u) as [uh'|]; [|done]. cbn in Hm. exists uh'. split; [done|].
  destruct Hm as [->|(_ & st & Hst & ->)]; [done|]. split; [by apply active_set_stat|done].
Qed.

(** Leaving the critical section and a call of the scheduler. *)
Lemma exit_schedule_run s n :
  kinv s → sc_lock_nest (k_sched s) = n + 1 → 0 ≤ n < 2 ^ 15 - 1 →
  ∃ s1 s', rt_exit_critical s = Some (tt, s1) ∧ rt_schedule s1 = Some (tt, s') ∧ kinv s' ∧
    (∀ h, is_wait h → tlist (k_tl s') h = tlist (k_tl s) h) ∧ (∀ u, failed s u → failed s' u).
Proof.
  intros HI Hn Hr. set (s0 := upd_sched (set_lock_nest n) s). pose proof (kinv_lock s n HI) as HI0. fold s0 in HI0.
  destruct (exit_critical_run s n HI Hn Hr) as (c' & Hx & Hd & HI1).
  destruct (schedule_kinv0 _ (proj1 HI1)) as (c2 & R & Hd2 & HI2). eexists _, _. split_and!; [exact Hx|exact R|split; [done|apply HI1]| |].
  - intros h Hh. change (tlist (sc_tl c2) h = tlist (sc_tl (k_sched s0)) h).
    rewrite (scheduled_waiting _ _ h (ki_sched _ (proj1 HI1)) Hd2) by (intros q; by apply is_wait_not_ready).
    apply (scheduled_waiting _ _ h (ki_sched _ (proj1 HI0)) Hd). intros q. by apply is_wait_not_ready.
  - intros u Hu. apply (failed_moved (mk_kst c' _ _ _)); [by apply scheduled_moved; [apply HI1|]|].
    apply (failed_moved s0); [by apply scheduled_moved; [apply HI0|]|done].
Qed.

(** [rt_data_queue_reset] wakes every waiter of both ends with [-RT_ERROR]; the blocks in
    the queue and its indices stay as they are. *)
Theorem rt_data_queue_reset_spec s a :
  kinv (ds_k s) → 0 ≤ sc_lock_nest (k_sched (ds_k s)) < 2 ^ 15 - 1 →
  wp (rt_data_queue_reset a) (λ _ s', ds_dq s' = ds_dq s ∧ kinv (ds_k s') ∧
    tlist (k_tl (ds_k s')) (HSuspend a) = [] ∧ tlist (k_tl (ds_k s')) (HSender a) = [] ∧
    ∀ u, u ∈ tlist (k_tl (ds_k s)) (HSuspend a) ++ tlist (k_tl (ds_k s)) (HSender a) → failed (ds_k s') u) s.
Proof.
  intros HI Hn. set (n := sc_lock_nest (k_sched (ds_k s))) in *. set (k1 := upd_sched (set_lock_nest (n + 1)) (ds_k s)).
  assert (rt_enter_critical (ds_k s) = Some (tt, k1)) as R1.
  { unfold rt_enter_critical, modify, k1, upd_sched. rewrite swrap_small by lia. done. }
  pose proof (kinv_lock (ds_k s) (n + 1) HI) as HI1. fold k1 in HI1.
  destruct (ipc_resume_all_run k1 (HSuspend a) HI1 I) as (k2 & R2 & HI2 & _ & _ & Hl2 & Hn2 & _ & _ & Ho2 & Hw2 & Hu2 & _).
  destruct (ipc_resume_all_run k2 (HSender a) HI2 I) as (k3 & R3 & HI3 & _ & _ & Hl3 & Hn3 & _ & _ & Ho3 & Hw3 & Hu3 & _).
  destruct (exit_schedule_run k3 n HI3) as (k4 & k5 & R4 & R5 & HI5 & Hl5 & Hf5); [by rewrite Hn3, Hn2|done|].
  unfold wp, rt_data_queue_reset, bind. rewrite (dev_kern_run _ s _ _ R1), (dev_kern_run _ (mk_dst _ _ _ _ _) _ _ R2).
  rewrite (dev_kern_run _ (mk_dst _ _ _ _ _) _ _ R3), (dev_kern_run _ (mk_dst _ _ _ _ _) _ _ R4), (dev_kern_run _ (mk_dst _ _ _ _ _) _ _ R5).
  cbn [ds_dq ds_k]. split_and!; [done|done|by rewrite Hl5, Ho3|by rewrite Hl5|]. intros u Hu. apply Hf5.
  pose proof (Ho2 (HSender a) I ltac:(done)) as Hsend. change (tlist (k_tl k1) (HSender a)) with (tlist (k_tl (ds_k s)) (HSender a)) in Hsend.
  apply elem_of_app in Hu as [Hu|Hu]; [|apply Hw3; by rewrite Hsend].
  destruct (Hw2 u Hu) as (uh & Huh & Hact & Herr). exists uh. split; [|done]. rewrite Hu3; [done|]. rewrite Hsend. intros Hu'.
  by pose proof (sw_disj _ _ (proj1 (ki_sched _ (proj1 HI))) u _ _ Hu Hu').
Qed.

(** * Instances *)

Definition demo_item : rt_data_item := mk_item 7000 16.

(** A completion at 300, a queue of 4 places with 2 blocks at 400, and one with indices
    about to wrap at 500. *)
Definition demo_dev : dst :=
  mk_dst demo 0 {[300 := RT_UNCOMPLETED]}
    (<[400 := mk_dq 4 1 3 5 [mk_item 2 2; demo_item; demo_item; mk_item 1 1] true]>
     {[500 := mk_dq 4 1 65532 65535 [mk_item 1 1; mk_item 2 2; mk_item 3 3; demo_item] false]}) [].

Lemma demo_dev_caller : caller (ds_k demo_dev) 1 (demo_thread 10 RT_THREAD_RUNNING).
Proof. split_and!; reflexivity. Qed.

Lemma demo_dq_rep : queue_rep (mk_dq 4 1 3 5 [mk_item 2 2; demo_item; demo_item; mk_item 1 1] true) [mk_item 1 1; mk_item 2 2].
Proof.
  split; cbn; try lia. intros [|[|i]] x Hx; cbn in Hx; try (injection Hx as <-); [reflexivity|reflexivity|done].
Qed.

Lemma demo_full_rep :
  queue_rep (mk_dq 4 1 65532 65535 [mk_item 1 1; mk_item 2 2; mk_item 3 3; demo_item] false) [mk_item 1 1; mk_item 2 2; mk_item 3 3].
Proof.
  split; cbn; try lia. intros [|[|[|i]]] x Hx; cbn in Hx; try (injection Hx as <-); [reflexivity|reflexivity|reflexivity|done].
Qed.

Lemma completion_handoff_witness :
  wp (r ← rt_completion_wait 300 10; match r with Blocked u => rt_completion_done 300 ;; rt_completion_wait_resume 300 u | Returned e => ret e end)
    (λ r s', r = RT_EOK ∧ ds_flag s' !! 300 = Some RT_UNCOMPLETED) demo_dev.
Proof.
  eapply wp_mono; [eapply (completion_handoff demo_dev 300); [apply demo_kinv|apply demo_dev_caller|reflexivity|reflexivity|reflexivity|done|by vm_compute]|].
  intros r s' (E & _ & Hf & _). done.
Defined.

Lemma completion_lost_witness :
  let th := demo_thread 10 RT_THREAD_RUNNING in
  let s := mk_dst (error_st 1 (- RT_ETIMEOUT) th demo) 0 {[300 := RT_UNCOMPLETED]} ∅ [] in
  (rt_completion_done 300 ;; rt_completion_wait_resume 300 1) s = Some (- RT_ETIMEOUT, s).
Proof.
  intros th s. eapply (completion_lost s 300 1 (with_error (- RT_ETIMEOUT) th)); try reflexivity.
  apply kinv_error; [apply demo_kinv|reflexivity].
Defined.

Lemma rt_data_queue_push_spec_witness :
  wp (rt_data_queue_push 400 9 9 0) (λ r s', r = Returned RT_EOK ∧ ds_notes s' = [(400, RT_DATAQUEUE_EVENT_PUSH)]) demo_dev.
Proof.
  eapply wp_mono; [eapply (rt_data_queue_push_spec demo_dev 400); [apply demo_kinv|apply demo_dev_caller|reflexivity|reflexivity|apply demo_dq_rep|by vm_compute|by vm_compute]|].
  intros r s' [H _]. destruct (H ltac:(by vm_compute)) as (Hr & _ & _ & Hn). done.
Defined.

Lemma rt_data_queue_pop_spec_witness :
  wp (rt_data_queue_pop 400 0) (λ r s', r = Returned (RT_EOK, Some (mk_item 1 1)) ∧ ds_notes s' = [(400, RT_DATAQUEUE_EVENT_LWM)]) demo_dev.
Proof.
  eapply wp_mono; [eapply (rt_data_queue_pop_spec demo_dev 400); [apply demo_kinv|apply demo_dev_caller|reflexivity|reflexivity|apply demo_dq_rep|by vm_compute]|].
  intros r s' [H _]. destruct (H _ _ eq_refl) as (Hr & _ & _ & Hn). done.
Defined.

Lemma data_queue_wrap_overflow_witness :
  wp (r1 ← rt_data_queue_push 500 8 8 0; r2 ← rt_data_queue_push 500 9 9 0; r3 ← rt_data_queue_peak 500; ret (r1, r2, r3))
    (λ r s', r = (Returned RT_EOK, Returned RT_EOK, (RT_EOK, Some (mk_item 9 9)))) demo_dev.
Proof.
  eapply (data_queue_wrap_overflow demo_dev 500); [apply demo_kinv|by eexists|reflexivity|reflexivity|apply demo_full_rep|reflexivity..].
Defined.
