(* ===== verification/Dynamic.v ===== *)
(** Objects in dynamic memory: the create and delete routines of src/object.c,
    src/ipc.c, src/thread.c and src/timer.c on top of the heap of src/mem.c.

    An object is named by its address, so a created object is named by the memory
    [rt_malloc] returned; its fields are kept in the kernel state. Memory that is given
    back is no object any more. *)

From Stdlib Require Import ZArith Lia FunctionalExtensionality.
From stdpp Require Import base numbers option gmap.
From stdpp Require Import list.
From S2P Require Import Prelude.
From S2P Require Import Kservice.
From S2P Require Import Bytes.
From S2P Require Import Proc.
From S2P Require Import KernelDefs.
From S2P Require Import Scheduler.
From S2P Require Import Object.
From S2P Require Import Timer.
From S2P Require Import Thread.
From S2P Require Import Clock.
From S2P Require Import Ipc.
From S2P Require Import Sem.
From S2P Require Import Mutex.
From S2P Require Import Event.
From S2P Require Import Mailbox.
From S2P Require Import MsgQueue.
From S2P Require Import Mem.
Local Open Scope Z_scope.
Local Open Scope rt_scope.

(** * State *)

(** The kernel, the heap, and for mailboxes and message queues in dynamic memory the
    address of [msg_pool]. *)
Record dsys := mk_dsys {
  d_kst : kst;
  d_heap : heap;
  d_pool : gmap Z Z
}.

Abbreviation D A := (M dsys (proc dsys A)).

Definition kern {A} (m : K A) : M dsys A := λ s,
  match m (d_kst s) with
  | Some (a, k) => Some (a, mk_dsys k (d_heap s) (d_pool s))
  | None => None
  end.

Definition heaped {A} (m : H A) : M dsys A := λ s,
  match m (d_kst s, d_heap s) with
  | Some (a, (k, h)) => Some (a, mk_dsys k h (d_pool s))
  | None => None
  end.

Definition set_pool (a p : Z) : M dsys unit :=
  modify (λ s, mk_dsys (d_kst s) (d_heap s) (<[a := p]> (d_pool s))).

(** The memory of the heap by address. *)
Definition heap_memory (h : heap) : memory := λ p, h_mem h (p - h_ptr h).
Definition with_memory (m : memory) (h : heap) : heap := set_mem (λ i, m (h_ptr h + i)) h.

Section dynamic.
Variable heap_sem : Z.

Definition RT_KERNEL_MALLOC (size : Z) : D Z :=
  r ← heaped (rt_malloc heap_sem size);
  match r with
  | Returned p => dret p
  | Blocked c => ret (Wait (r ← heaped (mem_resume heap_sem c);
                            match r with Returned p => dret p | Blocked _ => λ _, None end))
  end.

Definition RT_KERNEL_FREE (p : Z) : D unit :=
  r ← heaped (rt_free heap_sem p);
  match r with
  | Returned _ => dret tt
  | Blocked c => ret (Wait (r ← heaped (mem_resume heap_sem c);
                            match r with Returned _ => dret tt | Blocked _ => λ _, None end))
  end.

(** * Objects *)

(** The [object_size] fields of [rt_object_container]: pointers and enumerations have four
    bytes. *)
Definition object_size (type : Z) : Z :=
  let rt_object := 20 in
  let rt_ipc_object := rt_object + 8 in
  let rt_timer := rt_object + 8 + 4 * 4 in
  let rt_semaphore := rt_ipc_object + 4 in
  if type =? RT_Object_Class_Thread then rt_object + 8 + 4 * 4 + 4 + 4 + 4 + 4 + 8 + 8 + rt_timer + 8
  else if type =? RT_Object_Class_Semaphore then rt_semaphore
  else if type =? RT_Object_Class_Mutex then rt_ipc_object + 8
  else if type =? RT_Object_Class_Event then rt_ipc_object + 4
  else if type =? RT_Object_Class_MailBox then rt_ipc_object + 4 + 8 + 8
  else if type =? RT_Object_Class_MessageQueue then rt_ipc_object + 4 + 8 + 12
  else if type =? RT_Object_Class_MemHeap then rt_object + 6 * 4 + 24 + rt_semaphore
  else if type =? RT_Object_Class_MemPool then rt_object + 6 * 4 + 8 + 4
  else if type =? RT_Object_Class_Device then rt_object + 4 + 8 + 2 * 4 + 6 * 4 + 4
  else rt_timer.

(** [rt_memset(p, 0, n)] *)
Definition clear (p n : Z) : M dsys unit :=
  heaped (heap_op (modify (λ h, set_mem (fill (h_mem h) (p - h_ptr h) 0 n) h))).

(** The header of a new object in cleared memory. *)
Definition new_header (a type : Z) (name : list Z) : K unit :=
  modify (upd_objects (λ c, set_obj (<[Obj a := mk_object (Str.rt_strncpy name RT_NAME_MAX) type 0]> (ob_obj c)) c)).

Definition rt_object_allocate (type : Z) (name : list Z) : D Z :=
  now (kern RT_DEBUG_NOT_IN_INTERRUPT) ;;;
  now (assert (bool_decide (is_Some (rt_object_get_information type)))) ;;;
  object ⇐ RT_KERNEL_MALLOC (object_size type);
  if object =? 0 then dret 0
  else
    now (clear object (object_size type)) ;;;
    now (kern (new_header object type name)) ;;;
    now (kern (obj_insert_after type (Obj object))) ;;;
    dret object.

(** The memory at [a] is no object any more. *)
Definition drop_object (a : Z) (k : kst) : kst :=
  mk_kst (set_thr (delete a (sc_thr (k_sched k))) (k_sched k))
    (set_tim (delete (Obj a) (delete (ThreadTimer a) (tms_tim (k_timers k)))) (k_timers k))
    (set_obj (delete (Obj a) (delete (ThreadTimer a) (ob_obj (k_objects k)))) (k_objects k))
    (mk_ipcs (delete a (ip_sem (k_ipc k))) (delete a (ip_mtx (k_ipc k))) (delete a (ip_evt (k_ipc k)))
       (delete a (ip_mb (k_ipc k))) (delete a (ip_mq (k_ipc k)))).
Definition forget (a : Z) : M dsys unit :=
  modify (λ s, mk_dsys (drop_object a (d_kst s)) (d_heap s) (delete a (d_pool s))).

Definition rt_object_delete (a : Z) : D unit :=
  now (b ← kern (rt_object_is_systemobject (Obj a)); assert (negb b)) ;;;
  now (kern (mod_object (Obj a) (with_type 0))) ;;;
  now (kern (obj_remove (Obj a))) ;;;
  RT_KERNEL_FREE a ;;;
  now (forget a).

(** [RT_ASSERT(rt_object_is_systemobject(o) == RT_FALSE)] *)
Definition assert_dynamic (a : Z) : M dsys unit :=
  b ← kern (rt_object_is_systemobject (Obj a)); assert (negb b).

(** * IPC objects *)

Definition rt_sem_create (name : list Z) (value flag : Z) : D Z :=
  now (kern RT_DEBUG_NOT_IN_INTERRUPT) ;;;
  now (assert (value <? 0x10000)) ;;;
  sem ⇐ rt_object_allocate RT_Object_Class_Semaphore name;
  if sem =? 0 then dret sem
  else
    now (kern (rt_ipc_object_init (HSuspend sem))) ;;;
    now (kern (put_sem sem (u16 value))) ;;;
    now (kern (mod_object (Obj sem) (with_flag (u8 flag)))) ;;;
    dret sem.

Definition rt_sem_delete (a : Z) : D Z :=
  now (kern RT_DEBUG_NOT_IN_INTERRUPT) ;;;
  now (kern (assert_type (Obj a) RT_Object_Class_Semaphore)) ;;;
  now (assert_dynamic a) ;;;
  now (kern (rt_ipc_list_resume_all (HSuspend a))) ;;;
  rt_object_delete a ;;;
  dret RT_EOK.

Definition rt_mutex_create (name : list Z) (flag : Z) : D Z :=
  now (kern RT_DEBUG_NOT_IN_INTERRUPT) ;;;
  mutex ⇐ rt_object_allocate RT_Object_Class_Mutex name;
  if mutex =? 0 then dret mutex
  else
    now (kern (rt_ipc_object_init (HSuspend mutex))) ;;;
    now (kern (put_mutex mutex (mk_mutex 1 0xFF 0 None))) ;;;
    now (kern (mod_object (Obj mutex) (with_flag (u8 flag)))) ;;;
    dret mutex.

Definition rt_mutex_delete (a : Z) : D Z :=
  now (kern RT_DEBUG_NOT_IN_INTERRUPT) ;;;
  now (kern (assert_type (Obj a) RT_Object_Class_Mutex)) ;;;
  now (assert_dynamic a) ;;;
  now (kern (rt_ipc_list_resume_all (HSuspend a))) ;;;
  rt_object_delete a ;;;
  dret RT_EOK.

Definition rt_event_create (name : list Z) (flag : Z) : D Z :=
  now (kern RT_DEBUG_NOT_IN_INTERRUPT) ;;;
  event ⇐ rt_object_allocate RT_Object_Class_Event name;
  if event =? 0 then dret event
  else
    now (kern (mod_object (Obj event) (with_flag (u8 flag)))) ;;;
    now (kern (rt_ipc_object_init (HSuspend event))) ;;;
    now (kern (put_event event 0)) ;;;
    dret event.

Definition rt_event_delete (a : Z) : D Z :=
  now (kern (assert_type (Obj a) RT_Object_Class_Event)) ;;;
  now (assert_dynamic a) ;;;
  now (kern RT_DEBUG_NOT_IN_INTERRUPT) ;;;
  now (kern (rt_ipc_list_resume_all (HSuspend a))) ;;;
  rt_object_delete a ;;;
  dret RT_EOK.

(** The words and the bytes a block of memory happens to hold. *)
Definition words_at (h : heap) (p n : Z) : list Z :=
  (λ i, load 4 (h_mem h) (p - h_ptr h + 4 * i)) <$> seqZ 0 n.
Definition bytes_at (h : heap) (p n : Z) : list Z :=
  (λ i, h_mem h (p - h_ptr h + i)) <$> seqZ 0 n.

Definition rt_mb_create (name : list Z) (size flag : Z) : D Z :=
  now (kern RT_DEBUG_NOT_IN_INTERRUPT) ;;;
  mb ⇐ rt_object_allocate RT_Object_Class_MailBox name;
  if mb =? 0 then dret mb
  else
    now (kern (mod_object (Obj mb) (with_flag (u8 flag)))) ;;;
    now (kern (rt_ipc_object_init (HSuspend mb))) ;;;
    let size := u16 size in
    msg_pool ⇐ RT_KERNEL_MALLOC (size * 4);
    if msg_pool =? 0 then rt_object_delete mb ;;; dret 0
    else
      now (set_pool mb msg_pool) ;;;
      h ⇐ now (gets d_heap);
      now (kern (put_mb mb (mk_mailbox (words_at h msg_pool size) size 0 0 0))) ;;;
      now (kern (rt_ipc_object_init (HSender mb))) ;;;
      dret mb.

Definition rt_mb_delete (a : Z) : D Z :=
  now (kern RT_DEBUG_NOT_IN_INTERRUPT) ;;;
  now (kern (assert_type (Obj a) RT_Object_Class_MailBox)) ;;;
  now (assert_dynamic a) ;;;
  now (kern (rt_ipc_list_resume_all (HSuspend a))) ;;;
  now (kern (rt_ipc_list_resume_all (HSender a))) ;;;
  p ⇐ now (gets (λ s, default 0 (d_pool s !! a)));
  RT_KERNEL_FREE p ;;;
  rt_object_delete a ;;;
  dret RT_EOK.

Definition rt_mq_delete (a : Z) : D Z :=
  now (kern RT_DEBUG_NOT_IN_INTERRUPT) ;;;
  now (kern (assert_type (Obj a) RT_Object_Class_MessageQueue)) ;;;
  now (assert_dynamic a) ;;;
  now (kern (rt_ipc_list_resume_all (HSuspend a))) ;;;
  p ⇐ now (gets (λ s, default 0 (d_pool s !! a)));
  RT_KERNEL_FREE p ;;;
  rt_object_delete a ;;;
  dret RT_EOK.

Definition rt_mq_create (name : list Z) (msg_size max_msgs flag : Z) : D Z :=
  now (kern RT_DEBUG_NOT_IN_INTERRUPT) ;;;
  mq ⇐ rt_object_allocate RT_Object_Class_MessageQueue name;
  if mq =? 0 then dret mq
  else
    now (kern (mod_object (Obj mq) (with_flag (u8 flag)))) ;;;
    now (kern (rt_ipc_object_init (HSuspend mq))) ;;;
    let msg_size := u16 (RT_ALIGN msg_size 4) in
    let max_msgs := u16 max_msgs in
    let step := msg_size + sizeof_rt_mq_message in
    msg_pool ⇐ RT_KERNEL_MALLOC (u32 (step * max_msgs));
    now (set_pool mq msg_pool) ;;;
    if msg_pool =? 0 then rt_mq_delete mq ;;; dret 0
    else
      h ⇐ now (gets d_heap);
      let pool := (λ i, mk_msg None (bytes_at h (msg_pool + i * step + sizeof_rt_mq_message) msg_size)) <$> seqZ 0 max_msgs in
      now (kern (put_mq mq (mk_mq pool msg_size max_msgs 0 None None None))) ;;;
      now (kern (on_mq mq (mq_init_loop (Z.to_nat max_msgs) 0))) ;;;
      now (kern (on_mq mq (modify (with_entry 0)))) ;;;
      dret mq.

(** * Timers and threads *)

Definition rt_timer_create (name : list Z) (timeout : timeout_fn) (time flag : Z) : D Z :=
  timer ⇐ rt_object_allocate RT_Object_Class_Timer name;
  if timer =? 0 then dret 0
  else
    now (kern (_rt_timer_init (Obj timer) timeout time flag)) ;;;
    dret timer.

Definition rt_timer_delete (a : Z) : D Z :=
  now (kern (assert_type (Obj a) RT_Object_Class_Timer)) ;;;
  now (assert_dynamic a) ;;;
  now (kern (_rt_timer_remove (Obj a))) ;;;
  rt_object_delete a ;;;
  dret RT_EOK.

Definition rt_thread_create (name : list Z) (entry parameter stack_size priority tick : Z) : D Z :=
  thread ⇐ rt_object_allocate RT_Object_Class_Thread name;
  if thread =? 0 then dret 0
  else
    stack_start ⇐ RT_KERNEL_MALLOC stack_size;
    if stack_start =? 0 then rt_object_delete thread ;;; dret 0
    else
      now (kern (_rt_thread_init thread entry parameter stack_start stack_size priority tick)) ;;;
      dret thread.

End dynamic.

(** * Kernel steps *)

Lemma kern_done {A} (m : K A) k h p a k' :
  m k = Some (a, k') → kern m (mk_dsys k h p) = Some (a, mk_dsys k' h p).
Proof. intros E. unfold kern. cbn. by rewrite E. Qed.

(** * Allocation and release *)

(** Reading the memory by address and writing it back changes nothing. *)
Lemma heap_memory_id h : with_memory (heap_memory h) h = h.
Proof.
  unfold with_memory, heap_memory. destruct h as [m p e l sz us mx]. unfold set_mem. cbn. f_equal. apply functional_extensionality. intros i. f_equal. lia.
Qed.

Lemma heap_memory_with m h : heap_memory (with_memory m h) = m.
Proof. unfold heap_memory, with_memory. cbn. apply functional_extensionality. intros i. f_equal. lia. Qed.

(** The allocated blocks [bs'] are those of [bs] and the block at [o]. *)
Definition added (bs : list block) (o z : Z) (bs' : list block) : Prop :=
  (∀ o' z', used_at bs' o' z' ↔ used_at bs o' z' ∨ (o' = o ∧ z' = z)) ∧
  (∀ o' z', used_at bs o' z' → o' + z' ≤ o ∨ o + z ≤ o').
Definition removed (bs : list block) (o : Z) (bs' : list block) : Prop :=
  ∀ o' z', used_at bs' o' z' ↔ used_at bs o' z' ∧ o' ≠ o.

Section dynamic_lemmas.
Context (heap_sem : Z).

(** What [rt_malloc] gave: nothing, or the memory behind the header of a new block. *)
Definition malloced (size : Z) (h : heap) (bs : list block) (p : Z) (h' : heap) : Prop :=
  (p = 0 ∧ h' = h) ∨
  ∃ bs' o z, hwf h' bs' ∧ fixed h h' ∧ p = h_ptr h + o + SIZEOF_STRUCT_MEM ∧ (p ≠ 0 ∧ 0 < size) ∧
    size ≤ z - SIZEOF_STRUCT_MEM ∧ 0 ≤ o ∧ o + z ≤ h_end h ∧ added bs o z bs'.

Lemma malloc_run k h pool bs size :
  unlocked heap_sem k → hwf h bs → 0 ≤ size ≤ 2 ^ 32 - 4 →
  ∃ p h', RT_KERNEL_MALLOC heap_sem size (mk_dsys k h pool) = Some (Done p, mk_dsys k h' pool) ∧
    malloced size h bs p h'.
Proof.
  intros Hk Hw Hs. unfold RT_KERNEL_MALLOC, bind, heaped. cbn [d_kst d_heap d_pool].
  destruct (Z.eq_dec size 0) as [->|Hs0]; [exists 0, h; split; [done|by left]|].
  rewrite malloc_unlocked_run by (done || lia).
  destruct (Z.ltb_spec (h_size h) ((size + 3) / 4 * 4)) as [|Hle]; [exists 0, h; split; [done|by left]|].
  destruct (request_facts size ltac:(lia)) as (Hr4 & Hge & Hmin).
  assert (request size ≤ h_size h) by (pose proof (ly_min _ _ (hw_layout _ _ Hw)); unfold request, MIN_SIZE, MIN_SIZE_ALIGNED in *; lia).
  pose proof (malloc_locked_run heap_sem k h bs (request size) Hk Hw ltac:(lia) Hr4) as Hrun.
  destruct (search _ _ _ _ bs) as [[[pre sz] post]|] eqn:Es; [|rewrite Hrun; exists 0, h; split; [done|by left]].
  destruct Hrun as (h' & Hal & ->). apply search_split in Es as (-> & Hfit & _).
  eexists _, h'. split; [done|]. right.
  destruct (allocated_view _ _ _ _ _ _ Hal Hw Hfit) as (bs' & Hw' & Hz & Hua & Hap & _ & _).
  exists bs', (total pre), (used_total (carve (request size) sz)).
  pose proof (layout_good _ _ (hw_layout _ _ Hw')) as [Hg' Ht'].
  destruct (used_at_range bs' (total pre) (used_total (carve (request size) sz)) Hg') as (? & _ & Hend); [apply Hua; by right|].
  pose proof Hal as (_ & Hfx & _). pose proof Hfx as (_ & Ee & _).
  pose proof (ly_range _ _ (hw_layout _ _ Hw)) as [? ?]. unfold SIZEOF_STRUCT_MEM in *.
  split_and!; [done|done|done|lia|lia|lia|lia|lia|done].
Qed.

Lemma free_run k h pool bs o z :
  unlocked heap_sem k → hwf h bs → used_at bs o z →
  ∃ h' bs', RT_KERNEL_FREE heap_sem (h_ptr h + o + SIZEOF_STRUCT_MEM) (mk_dsys k h pool)
      = Some (Done tt, mk_dsys k h' pool) ∧ hwf h' bs' ∧ fixed h h' ∧ removed bs o bs'.
Proof.
  intros Hk Hw (l1 & l2 & -> & ->)%used_at_split.
  destruct (free_unlocked_run heap_sem k h l1 z l2 Hk Hw) as (h' & Hr & Hw' & Hfx & _ & _).
  exists h', (coalesce l1 z l2). split_and!; [|done|done|].
  - unfold RT_KERNEL_FREE, bind, heaped. cbn [d_kst d_heap d_pool]. by rewrite Hr.
  - intros o' z'. apply used_at_coalesce. by apply (layout_good _ _ (hw_layout _ _ Hw)).
Qed.

(** [rt_free(RT_NULL)] does nothing. *)
Lemma free_null s : RT_KERNEL_FREE heap_sem 0 s = Some (Done tt, s).
Proof. by destruct s. Qed.

Lemma clear_run k h pool bs o z n :
  hwf h bs → used_at bs o z → 0 ≤ n ≤ z - SIZEOF_STRUCT_MEM →
  ∃ h', clear (h_ptr h + o + SIZEOF_STRUCT_MEM) n (mk_dsys k h pool) = Some (tt, mk_dsys k h' pool) ∧
    hwf h' bs ∧ fixed h h'.
Proof.
  intros Hw Hu Hn. eexists. split; [done|]. split; [|done]. apply (hwf_write h bs o z); [done|done|].
  intros i Hi. unfold fill, SIZEOF_STRUCT_MEM in *. destruct (_ && _) eqn:E; [|done]. 
  apply andb_true_iff in E as [E1%Z.leb_le E2%Z.ltb_lt].
  cbn in E1, E2. lia.
Qed.

(** ** The kernel and the heap together *)

(** No object and no waiting list is at [a]. *)
Record vacant (a : Z) (s : dsys) : Prop := {
  va_obj : k_obj (d_kst s) !! Obj a = None;
  va_list : ∀ cls, Obj a ∉ tlist (ob_list (k_objects (d_kst s))) cls ∧
    ThreadTimer a ∉ tlist (ob_list (k_objects (d_kst s))) cls;
  va_thr : k_thr (d_kst s) !! a = None;
  va_timer : k_obj (d_kst s) !! ThreadTimer a = None;
  va_wait : tlist (k_tl (d_kst s)) (HSuspend a) = [] ∧ tlist (k_tl (d_kst s)) (HSender a) = [];
  va_pool : d_pool s !! a = None
}.

Definition block_addr (h : heap) (o : Z) : Z := h_ptr h + o + SIZEOF_STRUCT_MEM.

(** Objects in the heap live in allocated blocks. *)
Record dinv (bs : list block) (s : dsys) : Prop := {
  di_unlocked : unlocked heap_sem (d_kst s);
  di_kinv : kinv (d_kst s);
  di_nest : 0 ≤ sc_lock_nest (k_sched (d_kst s)) < 2 ^ 15 - 1;
  di_heap : hwf (d_heap s) bs;
  di_static : heap_sem < h_ptr (d_heap s) ∨ h_ptr (d_heap s) + h_end (d_heap s) ≤ heap_sem;
  di_housed : ∀ o, 0 ≤ o → o + SIZEOF_STRUCT_MEM < h_end (d_heap s) → (∀ z, ¬ used_at bs o z) → vacant (block_addr (d_heap s) o) s
}.

(** Memory of the heap has addresses of 32 bits. *)
Lemma block_range bs d o z : dinv bs d → used_at bs o z → SIZEOF_STRUCT_MEM < z ∧ 0 < block_addr (d_heap d) o ∧ block_addr (d_heap d) o + (z - SIZEOF_STRUCT_MEM) < 2 ^ 32.
Proof.
  intros Hd Hu. pose proof (hw_layout _ _ (di_heap _ _ Hd)) as HL. pose proof (ly_range _ _ HL) as [? ?]. pose proof (layout_good _ _ HL) as [Hg Ht].
  destruct (used_at_range _ _ _ Hg Hu) as (Ho & [H16 _] & Hend). unfold block_addr, SIZEOF_STRUCT_MEM in *. lia.
Qed.

Definition new_object (a type : Z) (name : list Z) (k : kst) : kst :=
  upd_objects (λ O, set_obj_list (<[type := Obj a :: tlist (ob_list O) type]> (ob_list O))
    (put_obj (Obj a) (mk_object (Str.rt_strncpy name RT_NAME_MAX) type 0) O)) k.

(** A new object of class [type] at [a], in a block of its own. *)
Definition fresh_object (bs : list block) (type : Z) (name : list Z) (s : dsys) (a : Z) (bs' : list block) (s' : dsys) : Prop :=
  a ≠ 0 ∧ vacant a s ∧ a ≠ heap_sem ∧ d_kst s' = new_object a type name (d_kst s) ∧ d_pool s' = d_pool s ∧
  hwf (d_heap s') bs' ∧ fixed (d_heap s) (d_heap s') ∧
  ∃ o z, a = block_addr (d_heap s) o ∧ object_size type ≤ z - SIZEOF_STRUCT_MEM ∧ 0 ≤ o ∧ o + z ≤ h_end (d_heap s) ∧
    added bs o z bs'.

Lemma object_size_range type : 0 < object_size type ≤ 1000.
Proof. unfold object_size. repeat case_match; lia. Qed.

Lemma not_in_interrupt s bs : dinv bs s → kern RT_DEBUG_NOT_IN_INTERRUPT s = Some (tt, s).
Proof.
  intros [[_ Hi] _ _ _ _ _]. destruct s as [k h p]. apply kern_done.
  unfold RT_DEBUG_NOT_IN_INTERRUPT, rt_interrupt_get_nest, bind, gets, assert. cbn in *. by rewrite Hi.
Qed.

Lemma object_allocate_run bs s type name :
  dinv bs s → is_Some (rt_object_get_information type) →
  ∃ a s', rt_object_allocate heap_sem type name s = Some (Done a, s') ∧
    ((a = 0 ∧ s' = s) ∨ ∃ bs', fresh_object bs type name s a bs' s').
Proof.
  intros Hd Hty. pose proof (object_size_range type) as Hsz. unfold rt_object_allocate.
  rewrite dbind_now, (not_in_interrupt s bs Hd), dbind_now. unfold assert. rewrite bool_decide_eq_true_2 by done.
  destruct Hd as [Hu HI Hn Hw Hst Hho]. destruct s as [k h pool]. cbn [d_kst d_heap d_pool] in *.
  destruct (malloc_run k h pool bs (object_size type) Hu Hw ltac:(lia)) as (p & h1 & E & Hm).
  rewrite (dbind_done _ _ _ _ _ E). destruct Hm as [[-> ->]|(bs' & o & z & Hw1 & Hfx & -> & [Hp _] & Hz & Ho & Hend & Hadd)].
  { exists 0, (mk_dsys k h pool). split; [done|by left]. }
  rewrite (proj2 (Z.eqb_neq _ _)) by done. rewrite dbind_now.
  assert (h_ptr h1 = h_ptr h) as Ep by apply Hfx.
  destruct (clear_run k h1 pool bs' o z (object_size type) Hw1) as (h2 & Ec & Hw2 & Hfx2); [apply Hadd; by right|lia|].
  rewrite Ep in Ec. rewrite Ec, dbind_now.
  assert (vacant (h_ptr h + o + SIZEOF_STRUCT_MEM) (mk_dsys k h pool)) as Hv.
  { apply (Hho o); [done|cbn; lia|]. intros z' Hu'. pose proof (layout_good _ _ (hw_layout _ _ Hw)) as [Hg _].
    destruct (used_at_range _ _ _ Hg Hu') as (_ & [? _] & _). apply Hadd in Hu'. unfold SIZEOF_STRUCT_MEM in *. lia. }
  set (a := h_ptr h + o + SIZEOF_STRUCT_MEM) in *.
  erewrite kern_done by reflexivity. rewrite dbind_now. unfold obj_insert_after at 1. unfold kern at 1. cbn [d_kst d_heap d_pool].
  assert (tlinked (ob_list (k_objects k)) (Obj a) = false) as Hl by (apply tlinked_false; intros cls; apply Hv).
  cbn [upd_objects k_objects set_obj ob_list]. rewrite Hl.
  eexists a, _. split; [done|]. right. exists bs'. split_and!; [done|done| |done|done|done| |].
  - cbn [d_heap] in Hst. unfold a, SIZEOF_STRUCT_MEM in *. lia.
  - split_and!; [by etransitivity; [apply Hfx2|]|by etransitivity; [apply Hfx2|apply Hfx]|by etransitivity; [apply Hfx2|apply Hfx]].
  - by exists o, z.
Qed.

(** Everything but what is at [a] is as before, except that threads may have been woken. *)
Record only_at (a : Z) (s s' : dsys) : Prop := {
  oa_obj : ∀ b, b ≠ a → k_obj (d_kst s') !! Obj b = k_obj (d_kst s) !! Obj b;
  oa_list : ∀ b cls, b ≠ a →
    (Obj b ∈ tlist (ob_list (k_objects (d_kst s'))) cls → Obj b ∈ tlist (ob_list (k_objects (d_kst s))) cls) ∧
    (ThreadTimer b ∈ tlist (ob_list (k_objects (d_kst s'))) cls → ThreadTimer b ∈ tlist (ob_list (k_objects (d_kst s))) cls);
  oa_thr : ∀ b, b ≠ a → k_thr (d_kst s) !! b = None → k_thr (d_kst s') !! b = None;
  oa_timer : ∀ b, b ≠ a → k_obj (d_kst s) !! ThreadTimer b = None → k_obj (d_kst s') !! ThreadTimer b = None;
  oa_wait : ∀ b, b ≠ a →
    tlist (k_tl (d_kst s')) (HSuspend b) = tlist (k_tl (d_kst s)) (HSuspend b) ∧
    tlist (k_tl (d_kst s')) (HSender b) = tlist (k_tl (d_kst s)) (HSender b);
  oa_pool : ∀ b, b ≠ a → d_pool s' !! b = d_pool s !! b;
  oa_sem : ∀ b, b ≠ a → ip_sem (k_ipc (d_kst s')) !! b = ip_sem (k_ipc (d_kst s)) !! b;
  oa_irq : sc_irq_nest (k_sched (d_kst s')) = sc_irq_nest (k_sched (d_kst s))
}.

Lemma only_at_refl a s h : only_at a s (mk_dsys (d_kst s) h (d_pool s)).
Proof. by split. Qed.

Lemma only_at_trans a s1 s2 s3 : only_at a s1 s2 → only_at a s2 s3 → only_at a s1 s3.
Proof.
  intros H1 H2. split.
  - intros b Hb. by rewrite (oa_obj _ _ _ H2), (oa_obj _ _ _ H1).
  - intros b cls Hb. destruct (oa_list _ _ _ H1 b cls Hb), (oa_list _ _ _ H2 b cls Hb). auto.
  - intros b Hb Hn. by apply (oa_thr _ _ _ H2), (oa_thr _ _ _ H1).
  - intros b Hb Hn. by apply (oa_timer _ _ _ H2), (oa_timer _ _ _ H1).
  - intros b Hb. destruct (oa_wait _ _ _ H1 b Hb) as [<- <-], (oa_wait _ _ _ H2 b Hb) as [<- <-]. done.
  - intros b Hb. by rewrite (oa_pool _ _ _ H2), (oa_pool _ _ _ H1).
  - intros b Hb. by rewrite (oa_sem _ _ _ H2), (oa_sem _ _ _ H1).
  - by rewrite (oa_irq _ _ _ H2), (oa_irq _ _ _ H1).
Qed.

Lemma vacant_other a b s s' : only_at a s s' → b ≠ a → vacant b s → vacant b s'.
Proof.
  intros H Hb [Ho Hl Ht Htm Hw Hp]. split.
  - by rewrite (oa_obj _ _ _ H).
  - intros cls. destruct (oa_list _ _ _ H b cls Hb) as [H1 H2], (Hl cls) as [H3 H4]. auto.
  - by apply (oa_thr _ _ _ H).
  - by apply (oa_timer _ _ _ H).
  - by destruct (oa_wait _ _ _ H b Hb) as [-> ->].
  - by rewrite (oa_pool _ _ _ H).
Qed.

Lemma unlocked_other a s s' :
  only_at a s s' → a ≠ heap_sem → unlocked heap_sem (d_kst s) → unlocked heap_sem (d_kst s').
Proof.
  intros H Ha [(x & (Hx1 & Hx2 & Hx3) & Hv & Hr & Hl) Hi]. split; [|by rewrite (oa_irq _ _ _ H)]. exists x.
  refine (conj (conj _ (conj Hx2 Hx3)) (conj _ (conj Hr _))).
  - by rewrite (oa_obj _ _ _ H).
  - by rewrite (oa_sem _ _ _ H).
  - by destruct (oa_wait _ _ _ H heap_sem (not_eq_sym Ha)) as [-> _].
Qed.

(** One step of the combined system: the object at [a], in the block at [o], appears,
    changes or goes away. *)
Lemma dinv_step bs bs' s s' a o :
  dinv bs s → only_at a s s' → a ≠ heap_sem → a = block_addr (d_heap s) o →
  kinv (d_kst s') → 0 ≤ sc_lock_nest (k_sched (d_kst s')) < 2 ^ 15 - 1 → hwf (d_heap s') bs' →
  fixed (d_heap s) (d_heap s') → (∀ o' z, o' ≠ o → used_at bs o' z → used_at bs' o' z) →
  ((∀ z, ¬ used_at bs' o z) → vacant a s') → dinv bs' s'.
Proof.
  intros [Hu HI Hn Hw Hst Hho] Hoa Ha Eo HI' Hn' Hw' (Ep & Ee & _) Hkeep Hvac. unfold block_addr in *.
  split; [by eapply unlocked_other|done|done|done|by rewrite Ep, Ee|].
  intros o' H0 H1 Hnu. unfold block_addr. rewrite Ep in *. rewrite Ee in H1. destruct (Z.eq_dec o' o) as [->|Ho].
  - rewrite <- Eo. by apply Hvac.
  - apply (vacant_other a _ s); [done|unfold SIZEOF_STRUCT_MEM in *; lia|].
    apply Hho; [done|done|]. intros z Hz. by apply (Hnu z), Hkeep.
Qed.

(** Memory that is no object any more. *)
Lemma kinv_drop k a :
  kinv k → (∀ h, a ∉ tlist (k_tl k) h) → k_cur k ≠ Some a →
  (∀ x, k_obj k !! Obj a = Some x → get_type x ≠ RT_Object_Class_Timer) →
  (∀ x, k_obj k !! ThreadTimer a = Some x → get_type x ≠ RT_Object_Class_Timer) →
  kinv (drop_object a k).
Proof.
  intros [HI Hw] Hl Hc Ho Ht.
  assert (∀ o, o ∈ k_rows k → o ≠ Obj a ∧ o ≠ ThreadTimer a) as Hrows.
  { intros o Hin. destruct (tw_rows _ _ Hw o Hin) as (_ & x & [Hx Hty] & _).
    split; intros ->; [by apply (Ho x)|by apply (Ht x)]. }
  assert (∀ o, o ≠ Obj a → o ≠ ThreadTimer a → k_tim (drop_object a k) !! o = k_tim k !! o) as Htim
    by (intros; unfold k_tim; cbn; by rewrite !lookup_delete_ne).
  assert (∀ o, o ≠ Obj a → o ≠ ThreadTimer a → k_obj (drop_object a k) !! o = k_obj k !! o) as Hobj
    by (intros; unfold k_obj; cbn; by rewrite !lookup_delete_ne).
  assert (∀ o x, k_obj (drop_object a k) !! o = Some x → k_obj k !! o = Some x) as Hobj'.
  { intros o x. unfold k_obj. cbn. rewrite !lookup_delete_Some. tauto. }
  assert (∀ o, o ∈ k_rows k → off (k_timers (drop_object a k)) o = off (k_timers k) o) as Hoff.
  { intros o Hin. destruct (Hrows o Hin). unfold off. cbn. by rewrite !lookup_delete_ne. }
  assert (∀ t, t ≠ a → k_thr (drop_object a k) !! t = k_thr k !! t) as Hthr
    by (intros; unfold k_thr; cbn; by rewrite lookup_delete_ne).
  assert (∀ t th, k_thr (drop_object a k) !! t = Some th → t ≠ a ∧ k_thr k !! t = Some th) as Hthr'.
  { intros t th. unfold k_thr. cbn. rewrite lookup_delete_Some. intros [? ?]. by split. }
  split.
  - destruct HI as [(Hsw & Hok & Hst) Hcur Hobjs Hwait Hone Huser]. split.
    + split_and!.
      * destruct Hsw as [H1 H2 H3 H4 H5 H6 H7 H8 H9 H10]. split; try done.
        -- intros t h Hin. destruct (H5 t h Hin) as (th & Hth & Hhd). exists th. split; [|done].
           etransitivity; [apply (Hthr t)|exact Hth]. intros ->. by apply (Hl h).
        -- intros t th [Hne Hth]%Hthr'. exact (H7 t th Hth).
        -- intros t th [Hne Hth]%Hthr'. exact (H8 t th Hth).
        -- intros t th [Hne Hth]%Hthr'. exact (H9 t th Hth).
        -- intros t th [Hne Hth]%Hthr'. exact (H10 t th Hth).
      * intros t Hct. destruct (Hok t Hct) as (th & Hth & Hs). exists th. split; [|done].
        etransitivity; [apply (Hthr t)|exact Hth]. intros ->. by apply Hc.
      * intros t th [Hne Hth]%Hthr'. by apply (Hst t).
    + done.
    + intros t th [Hne Hth]%Hthr' Hs. destruct (Hobjs t th Hth Hs) as ((x & Hx & Hxt) & (y & [Hy Hyt] & Hyf) & (tm & Htm & Htf)).
      assert (Obj t ≠ Obj a) by congruence. assert (ThreadTimer t ≠ ThreadTimer a) by congruence.
      split_and!; [exists x|exists y|exists tm].
      * split; [by etransitivity; [apply Hobj|]|done].
      * split; [split; [by etransitivity; [apply Hobj|]|done]|done].
      * split; [by etransitivity; [apply Htim|]|done].
    + intros t Hin. destruct (Hwait t Hin) as (th & Hth & Hs). exists th. split; [|done]. rewrite Hthr; [done|].
      intros ->. by destruct (Hrows _ Hin).
    + intros t x Hx%Hobj'. by apply (Hone t).
    + intros b tm. unfold k_tim. cbn. rewrite !lookup_delete_Some. intros (_ & _ & Htm). by apply (Huser b).
  - destruct Hw as [H1 H2 H3 H4 H5]. split; [done| | |eapply StronglySorted_ext; [|exact H4]|].
    + intros o Hin. destruct (Hrows o Hin) as [Hn1 Hn2]. destruct (H2 o Hin) as (Htm & x & [Hx Hxt] & Hxa).
      split; [fold (k_tim k) in Htm; by rewrite <- (Htim o Hn1 Hn2) in Htm|]. exists x. split; [|done]. split; [|done]. by etransitivity; [apply Hobj|].
    + intros o x [Hx Hxt] Ha. apply (H3 o x); [|done]. split; [|done]. by apply Hobj'.
    + cbn. intros x y Hx Hy Hxy. by rewrite !Hoff.
    + intros o Hin. rewrite Hoff by done. by apply H5.
Qed.

Lemma only_at_detach a x k h pool :
  only_at a (mk_dsys k h pool) (mk_dsys (upd_objects (detach_obj (Obj a) x) k) h pool).
Proof.
  split; cbn; try done.
  - intros b Hb. unfold k_obj. cbn. rewrite lookup_insert_ne; congruence.
  - intros b cls Hb. rewrite !tlist_remove, !list_elem_of_filter. tauto.
  - intros b Hb Hn. unfold k_obj. cbn. by rewrite lookup_insert_ne.
Qed.

Lemma only_at_drop a k h pool :
  only_at a (mk_dsys k h pool) (mk_dsys (drop_object a k) h (delete a pool)).
Proof.
  split; cbn; try done.
  - intros b Hb. unfold k_obj. cbn. rewrite !lookup_delete_ne; congruence.
  - intros b Hb Ht. unfold k_thr in *. cbn. by rewrite lookup_delete_ne by done.
  - intros b Hb Hn. unfold k_obj in *. cbn. rewrite lookup_delete_ne, lookup_delete_ne; congruence.
  - intros b Hb. by rewrite lookup_delete_ne.
  - intros b Hb. by rewrite lookup_delete_ne.
Qed.

(** What is at the address of an object that can be deleted. *)
Record deletable (a : Z) (x : rt_object) (k : kst) : Prop := {
  dl_obj : k_obj k !! Obj a = Some x;
  dl_dynamic : nz (Z.land (o_type x) RT_Object_Class_Static) = false;
  dl_kinv : kinv (upd_objects (detach_obj (Obj a) x) k);
  dl_thread : (∀ h, a ∉ tlist (k_tl k) h) ∧ k_cur k ≠ Some a;
  dl_timer : ∀ y, k_obj k !! ThreadTimer a = Some y → get_type y ≠ RT_Object_Class_Timer;
  dl_list : ∀ cls, ThreadTimer a ∉ tlist (ob_list (k_objects k)) cls;
  dl_wait : tlist (k_tl k) (HSuspend a) = [] ∧ tlist (k_tl k) (HSender a) = []
}.

Lemma object_delete_run bs s a o z x :
  dinv bs s → a = block_addr (d_heap s) o → used_at bs o z → a ≠ heap_sem → deletable a x (d_kst s) →
  ∃ s' bs', rt_object_delete heap_sem a s = Some (Done tt, s') ∧ dinv bs' s' ∧ removed bs o bs' ∧ vacant a s' ∧
    only_at a s s' ∧ d_kst s' = drop_object a (upd_objects (detach_obj (Obj a) x) (d_kst s)) ∧
    d_pool s' = delete a (d_pool s) ∧ fixed (d_heap s) (d_heap s').
Proof.
  intros Hd Ea Hu Ha [Hx Hdy HI' [Hnl Hnc] Htt Htl Hwt]. pose proof Hd as [Hul HI Hn Hw Hst Hho].
  destruct s as [k h pool]. cbn [d_kst d_heap d_pool] in *. unfold rt_object_delete.
  rewrite dbind_now. unfold bind at 1. erewrite kern_done; [|unfold rt_object_is_systemobject, bind, get_object; by rewrite Hx].
  rewrite Hdy. cbn [negb assert]. unfold assert. rewrite dbind_now. erewrite kern_done by (by apply mod_object_run).
  rewrite dbind_now. erewrite kern_done by reflexivity.
  set (k1 := upd_objects (detach_obj (Obj a) x) k).
  assert (RT_KERNEL_FREE heap_sem a = RT_KERNEL_FREE heap_sem (h_ptr h + o + SIZEOF_STRUCT_MEM)) as -> by (by rewrite Ea).
  pose proof (only_at_detach a x k h pool) as Ho1. fold k1 in Ho1.
  destruct (free_run k1 h pool bs o z (unlocked_other _ _ _ Ho1 Ha Hul) Hw Hu) as (h' & bs' & E & Hw' & Hfx & Hrm).
  rewrite (dbind_done _ _ _ _ _ E). clear E.
  pose proof (only_at_drop a k1 h' pool) as Ho2.
  assert (only_at a (mk_dsys k h pool) (mk_dsys (drop_object a k1) h' (delete a pool))) as Hoa.
  { eapply only_at_trans; [|exact Ho2]. destruct Ho1. by split. }
  assert (vacant a (mk_dsys (drop_object a k1) h' (delete a pool))) as Hva.
  { split; cbn.
    - unfold k_obj. cbn. by rewrite lookup_delete_eq.
    - intros cls. rewrite !tlist_remove, !list_elem_of_filter. split; [naive_solver|]. intros [_ Hin]. by apply (Htl cls).
    - unfold k_thr. cbn. by rewrite lookup_delete_eq.
    - unfold k_obj. cbn. by rewrite lookup_delete_ne, lookup_delete_eq.
    - done.
    - by rewrite lookup_delete_eq. }
  eexists _, bs'. split_and!; [reflexivity| |done|done|done|done|done|done].
  eapply (dinv_step bs); [exact Hd|exact Hoa|done|exact Ea| |done|done|done| |done].
  - apply kinv_drop; [done|done|done| |].
    + intros y. unfold k1, k_obj. cbn. rewrite lookup_insert_eq. by intros [= <-].
    + intros y. unfold k1, k_obj. cbn. rewrite lookup_insert_ne by done. apply Htt.
  - intros o' z' Hne Hz. by apply Hrm.
Qed.

(** ** Creation and deletion, step by step *)

Lemma wp_kern {A} (m : K A) Q s :
  wp m (λ a k', Q a (mk_dsys k' (d_heap s) (d_pool s))) (d_kst s) → wp (kern m) Q s.
Proof. unfold wp, kern. by destruct (m (d_kst s)) as [[a k]|]. Qed.

(** ** Creation *)

(** The blocks of the heap that hold an object: the one at [a] is in use. *)
Definition owned (bs : list block) (s : dsys) (a : Z) : Prop :=
  a ≠ heap_sem ∧ ∃ o z, a = block_addr (d_heap s) o ∧ used_at bs o z.

(** From [s], memory was allocated at [a] for an object with the header [x]. *)
Record building (s : dsys) (a : Z) (x : rt_object) (bs' : list block) (s' : dsys) : Prop := {
  bu_dinv : dinv bs' s';
  bu_only : only_at a s s';
  bu_fixed : fixed (d_heap s) (d_heap s');
  bu_owned : owned bs' s' a;
  bu_fresh : a ≠ 0 ∧ vacant a s;
  bu_obj : k_obj (d_kst s') !! Obj a = Some x;
  bu_list : tlist (ob_list (k_objects (d_kst s'))) (o_type x)
    = Obj a :: tlist (ob_list (k_objects (d_kst s))) (o_type x) ∧
    ∀ cls, ThreadTimer a ∉ tlist (ob_list (k_objects (d_kst s'))) cls;
  bu_thr : k_thr (d_kst s') !! a = None ∧ k_obj (d_kst s') !! ThreadTimer a = None;
  bu_wait : tlist (k_tl (d_kst s')) (HSuspend a) = [] ∧ tlist (k_tl (d_kst s')) (HSender a) = []
}.

(** One block was added to [bs]: the one at [a], with room for [size] bytes. *)
Definition one_more (bs : list block) (s : dsys) (a size : Z) (bs' : list block) : Prop :=
  ∃ o z, a = block_addr (d_heap s) o ∧ size ≤ z - SIZEOF_STRUCT_MEM ∧ added bs o z bs'.

(** Classes of objects as they are stored in the header of a dynamic object. *)
Definition dynamic_class (ty : Z) : Prop := plain_class ty ∨ ty = RT_Object_Class_Thread.

Lemma dynamic_class_facts ty :
  dynamic_class ty → is_Some (rt_object_get_information ty) ∧ ∀ n f, get_type (mk_object n ty f) = ty ∧
    nz (Z.land ty RT_Object_Class_Static) = false ∧ ty ≠ RT_Object_Class_Timer.
Proof.
  intros [[->|[->|[->|[->|[->|[->|[->| ->]]]]]]]| ->];
    (split; [by eexists|intros n f; split_and!; [reflexivity|reflexivity|done]]).
Qed.

Lemma only_at_object a ty y k h h' pool :
  only_at a (mk_dsys k h pool)
    (mk_dsys (upd_objects (λ O, set_obj_list (<[ty := Obj a :: tlist (ob_list O) ty]> (ob_list O)) (put_obj (Obj a) y O)) k) h' pool).
Proof.
  split; cbn; try done.
  - intros b Hb. unfold k_obj. cbn. rewrite lookup_insert_ne; congruence.
  - intros b cls Hb. rewrite tlist_insert. case_decide; [subst|done]. rewrite !elem_of_cons. naive_solver.
  - intros b Hb Hn. unfold k_obj. cbn. by rewrite lookup_insert_ne.
Qed.

Lemma allocate_building bs s ty name :
  dinv bs s → dynamic_class ty →
  dwp (rt_object_allocate heap_sem ty name) (λ a s', (a = 0 ∧ s' = s) ∨
    ∃ bs', building s a (mk_object (Str.rt_strncpy name RT_NAME_MAX) ty 0) bs' s' ∧ one_more bs s a (object_size ty) bs') s.
Proof.
  intros Hd Hty. destruct (dynamic_class_facts ty Hty) as [Hinf Hf].
  destruct (object_allocate_run bs s ty name Hd Hinf) as (a & s' & E & [[-> ->]|(bs' & Hfr)]);
    (eexists _, _; split; [exact E|]); [by left|]. right. exists bs'.
  destruct Hfr as (Ha0 & Hv & Hs & Ek & Epl & Hw & Hfx & o & z & Ea & Hz & H0 & Hend & Hadd).
  set (x := mk_object _ ty 0). pose proof Hd as [Hu HI Hn Hwf Hst Hho].
  destruct s as [k h pool], s' as [k' h' pool']. cbn [d_kst d_heap d_pool] in *. subst k' pool'.
  pose proof (only_at_object a ty x k h h' pool) as Hoa.
  assert (kinv (new_object a ty name k)) as HI'.
  { apply (kinv_put_obj k a x); [done| |]; [|unfold x; by destruct (Hf (Str.rt_strncpy name RT_NAME_MAX) 0) as (-> & _ & ?)].
    intros y Hy. pose proof (va_obj _ _ Hv) as Hn'. cbn in Hn'. congruence. }
  split; [|by exists o, z]. split; [|done|done| |done| | | |apply Hv].
  - eapply (dinv_step bs bs' _ _ a o); [exact Hd|exact Hoa|done|done|done|done|done|done| |].
    + intros o' z' _ Hz'. apply Hadd. by left.
    + intros Hno. destruct (Hno z). apply Hadd. by right.
  - split; [done|]. exists o, z. split; [|apply Hadd; by right]. rewrite Ea. unfold block_addr. cbn [d_heap]. by rewrite (proj1 Hfx).
  - unfold k_obj. cbn. by rewrite lookup_insert_eq.
  - cbn. split; [rewrite tlist_insert; by case_decide|]. intros cls. rewrite tlist_insert.
    case_decide; [|apply Hv]. rewrite elem_of_cons. intros [?|?]; [done|]. by eapply Hv.
  - split; [apply Hv|]. unfold k_obj. cbn. rewrite lookup_insert_ne by done. apply Hv.
Qed.

(** A change of the kernel state at the new object only. *)
Lemma building_kernel s a x bs' s' k2 x2 :
  building s a x bs' s' → only_at a s' (mk_dsys k2 (d_heap s') (d_pool s')) → kinv k2 →
  sc_lock_nest (k_sched k2) = sc_lock_nest (k_sched (d_kst s')) → k_obj k2 !! Obj a = Some x2 → o_type x2 = o_type x →
  ob_list (k_objects k2) = ob_list (k_objects (d_kst s')) → k_thr k2 !! a = k_thr (d_kst s') !! a →
  k_obj k2 !! ThreadTimer a = k_obj (d_kst s') !! ThreadTimer a →
  (∀ h, tlist (k_tl k2) h = tlist (k_tl (d_kst s')) h) →
  building s a x2 bs' (mk_dsys k2 (d_heap s') (d_pool s')).
Proof.
  intros [Hd Ho Hfx Hown Hfr Hx Hl Ht Hw] Ho2 HI2 Hn2 Hx2 Hty Hl2 Ht2 Htt2 Hw2. pose proof Hown as (Has & o & z & Ea & Hu).
  split; cbn [d_kst d_heap d_pool]; [|by eapply only_at_trans|done|done|done|done|by rewrite Hl2, Hty|by rewrite Ht2, Htt2|by rewrite !Hw2].
  eapply (dinv_step bs' bs' s' _ a o); [done|done|done|done|done| |apply Hd|done|done|].
  - cbn. rewrite Hn2. apply Hd.
  - intros Hno. by destruct (Hno z).
Qed.

Lemma building_init s a x bs' s' h :
  building s a x bs' s' → h = HSuspend a ∨ h = HSender a →
  wp (kern (rt_ipc_object_init h)) (λ _ s2, building s a x bs' s2 ∧ k_ipc (d_kst s2) = k_ipc (d_kst s') ∧
    only_at a s' s2 ∧ d_pool s2 = d_pool s') s'.
Proof.
  intros Hb Hh. apply wp_kern. assert (tlist (k_tl (d_kst s')) h = []) as Hl by (by destruct Hh as [-> | ->]; apply Hb).
  destruct (ipc_init_run (d_kst s') h (di_kinv _ _ (bu_dinv _ _ _ _ _ Hb)) Hl) as (Hr & HI2 & Hl2).
  unfold wp. rewrite Hr. split; [|split_and!; try done; by split]. apply (building_kernel s a x bs' s'); try done. apply Hb.
Qed.

Lemma building_flag s a x bs' s' f :
  building s a x bs' s' → plain_class (o_type x) →
  wp (kern (mod_object (Obj a) (with_flag f))) (λ _ s2, building s a (with_flag f x) bs' s2 ∧
    k_ipc (d_kst s2) = k_ipc (d_kst s')) s'.
Proof.
  intros Hb Hty. apply wp_kern. unfold wp. rewrite (mod_object_run _ _ x) by apply Hb. split; [|done].
  destruct (dynamic_class_facts (o_type x) (or_introl Hty)) as [_ Hf]. destruct (Hf (o_name x) (o_flag x)) as (Hgt & _ & Hnt).
  destruct (Hf (o_name x) f) as (Hgt' & _ & _).
  apply (building_kernel s a x bs' s'); try done.
  - split; try done; cbn; intros b Hne; unfold k_obj; cbn; rewrite lookup_insert_ne; congruence.
  - apply (kinv_put_obj (d_kst s') a (with_flag f x) (ob_list (k_objects (d_kst s')))).
    + apply Hb.
    + intros y Hy. rewrite (bu_obj _ _ _ _ _ Hb) in Hy. injection Hy as <-.
      assert (get_type x = o_type x) as -> by (by destruct x).
      by destruct Hty as [->|[->|[->|[->|[->|[->|[->| ->]]]]]]].
    + assert (get_type (with_flag f x) = o_type x) as -> by done. done.
  - unfold k_obj. cbn. by rewrite lookup_insert_eq.
  - unfold k_obj. cbn. by rewrite lookup_insert_ne.
Qed.

Lemma building_ipc s a x bs' s' f :
  building s a x bs' s' → (∀ i b, b ≠ a → ip_sem (f i) !! b = ip_sem i !! b) →
  building s a x bs' (mk_dsys (upd_ipc f (d_kst s')) (d_heap s') (d_pool s')).
Proof.
  intros Hb Hf. apply (building_kernel s a x bs' s'); try done; [|apply kinv_ipc; apply Hb|apply Hb].
  split; try done. cbn. intros b Hne. by apply Hf.
Qed.

(** The pattern of the create routines. *)
Lemma create_rule bs s ty name (e f : Z → D Z) Q :
  dinv bs s → dynamic_class ty → e 0 = dret 0 → Q 0 s →
  (∀ a bs' s', building s a (mk_object (Str.rt_strncpy name RT_NAME_MAX) ty 0) bs' s' →
     one_more bs s a (object_size ty) bs' → dwp (f a) Q s') →
  dwp (a ⇐ rt_object_allocate heap_sem ty name; if a =? 0 then e a else f a) Q s.
Proof.
  intros Hd Hty He HQ Hf. apply dwp_bind. eapply dwp_mono; [by apply (allocate_building bs)|].
  intros a s1 [[-> ->]|(bs' & Hb & Hone)]; [cbn; rewrite He; by apply dwp_ret|].
  rewrite (proj2 (Z.eqb_neq _ _)) by apply (bu_fresh _ _ _ _ _ Hb). by eapply Hf.
Qed.

Definition ipc_flag (flag : Z) : Prop := flag = RT_IPC_FLAG_FIFO ∨ flag = RT_IPC_FLAG_PRIO.

Lemma ipc_flag_u8 flag : ipc_flag flag → u8 flag = flag.
Proof. by intros [-> | ->]. Qed.

Lemma building_ipc_obj s a name ty flag bs' s' :
  building s a (with_flag flag (mk_object name ty 0)) bs' s' → plain_class ty → ipc_flag flag →
  ipc_obj ty a (d_kst s') (with_flag flag (mk_object name ty 0)).
Proof.
  intros Hb Hty Hf. destruct (dynamic_class_facts ty (or_introl Hty)) as [_ Hg].
  split_and!; [apply Hb|apply (Hg name flag)|exact Hf].
Qed.

(** [rt_sem_create] takes memory for exactly one object from the heap and makes it a
    well-formed semaphore with the given count, the first of its container, disjoint from
    every other block; without memory it returns [RT_NULL] and changes nothing. The
    invariants of the kernel and the heap hold together again. *)
Theorem rt_sem_create_spec bs s name value flag :
  dinv bs s → 0 ≤ value < 2 ^ 16 → ipc_flag flag →
  dwp (rt_sem_create heap_sem name value flag) (λ a s', (a = 0 ∧ s' = s) ∨ ∃ bs' x,
    building s a x bs' s' ∧ one_more bs s a (object_size RT_Object_Class_Semaphore) bs' ∧
    sem_ok a (d_kst s') value x ∧ o_flag x = flag ∧ o_name x = Str.rt_strncpy name RT_NAME_MAX) s.
Proof.
  intros Hd Hv Hfl. apply dwp_seq. unfold wp. rewrite (not_in_interrupt s bs Hd).
  apply dwp_seq. unfold wp, assert. rewrite (proj2 (Z.ltb_lt _ _)) by lia.
  apply (create_rule bs); [done|unfold dynamic_class, plain_class; tauto|done|by left|]. intros a bs' s1 Hb Hone.
  apply dwp_seq. eapply wp_mono; [by apply (building_init _ _ _ _ _ (HSuspend a) Hb); left|]. clear Hb. intros _ s2 [Hb _].
  apply dwp_seq, wp_kern. unfold wp, put_sem, modify.
  pose proof (building_ipc _ _ _ _ _ (λ i, set_sem (<[a := mk_sem (u16 value)]> (ip_sem i)) i) Hb
    ltac:(intros i b Hne; cbn; by rewrite lookup_insert_ne)) as Hb3. set (s3 := mk_dsys _ _ _) in *.
  apply dwp_seq. eapply wp_mono; [apply (building_flag _ _ _ _ _ _ Hb3); unfold plain_class; tauto|].
  rewrite (ipc_flag_u8 flag Hfl). intros _ s4 [Hb4 Hip]. apply dwp_ret. right. eexists bs', _.
  split; [exact Hb4|]. split; [done|]. split; [|done]. refine (conj _ (conj _ (conj Hv _))).
  - apply (building_ipc_obj _ _ _ _ _ _ _ Hb4); [unfold plain_class; tauto|done].
  - rewrite Hip. cbn. rewrite lookup_insert_eq. by rewrite (wrap_small 16).
  - intros _. apply Hb4.
Qed.

(** [rt_mutex_create] makes a free mutex. *)
Theorem rt_mutex_create_spec bs s name flag :
  dinv bs s → ipc_flag flag →
  dwp (rt_mutex_create heap_sem name flag) (λ a s', (a = 0 ∧ s' = s) ∨ ∃ bs' x,
    building s a x bs' s' ∧ one_more bs s a (object_size RT_Object_Class_Mutex) bs' ∧
    mutex_ok a (d_kst s') (mk_mutex 1 0xFF 0 None) x ∧ o_flag x = flag ∧ o_name x = Str.rt_strncpy name RT_NAME_MAX) s.
Proof.
  intros Hd Hfl. apply dwp_seq. unfold wp. rewrite (not_in_interrupt s bs Hd).
  apply (create_rule bs); [done|unfold dynamic_class, plain_class; tauto|done|by left|]. intros a bs' s1 Hb Hone.
  apply dwp_seq. eapply wp_mono; [by apply (building_init _ _ _ _ _ (HSuspend a) Hb); left|]. clear Hb. intros _ s2 [Hb _].
  apply dwp_seq, wp_kern. unfold wp, put_mutex, modify.
  pose proof (building_ipc _ _ _ _ _ (λ i, set_mtx (<[a := mk_mutex 1 0xFF 0 None]> (ip_mtx i)) i) Hb ltac:(done)) as Hb3.
  set (s3 := mk_dsys _ _ _) in *.
  apply dwp_seq. eapply wp_mono; [apply (building_flag _ _ _ _ _ _ Hb3); unfold plain_class; tauto|].
  rewrite (ipc_flag_u8 flag Hfl). intros _ s4 [Hb4 Hip]. apply dwp_ret. right. eexists bs', _.
  split; [exact Hb4|]. split; [done|]. split; [|done]. refine (conj _ (conj _ (or_introl (conj _ _)))).
  - apply (building_ipc_obj _ _ _ _ _ _ _ Hb4); [unfold plain_class; tauto|done].
  - rewrite Hip. cbn. by rewrite lookup_insert_eq.
  - done.
  - apply Hb4.
Qed.

(** [rt_event_create] makes an event without pending flags. *)
Theorem rt_event_create_spec bs s name flag :
  dinv bs s → ipc_flag flag →
  dwp (rt_event_create heap_sem name flag) (λ a s', (a = 0 ∧ s' = s) ∨ ∃ bs' x,
    building s a x bs' s' ∧ one_more bs s a (object_size RT_Object_Class_Event) bs' ∧
    event_ok a (d_kst s') 0 x ∧ o_flag x = flag ∧ o_name x = Str.rt_strncpy name RT_NAME_MAX) s.
Proof.
  intros Hd Hfl. apply dwp_seq. unfold wp. rewrite (not_in_interrupt s bs Hd).
  apply (create_rule bs); [done|unfold dynamic_class, plain_class; tauto|done|by left|]. intros a bs' s1 Hb Hone.
  apply dwp_seq. eapply wp_mono; [apply (building_flag _ _ _ _ _ _ Hb); unfold plain_class; tauto|]. clear Hb.
  rewrite (ipc_flag_u8 flag Hfl). intros _ s2 [Hb _].
  apply dwp_seq. eapply wp_mono; [by apply (building_init _ _ _ _ _ (HSuspend a) Hb); left|]. clear Hb. intros _ s3 [Hb _].
  apply dwp_seq, wp_kern. unfold wp, put_event, modify.
  pose proof (building_ipc _ _ _ _ _ (λ i, set_evt (<[a := mk_event 0]> (ip_evt i)) i) Hb ltac:(done)) as Hb4.
  apply dwp_ret. right. eexists bs', _. split; [exact Hb4|]. split; [done|]. split; [|done]. refine (conj _ (conj _ _)).
  - apply (building_ipc_obj _ _ _ _ _ _ _ Hb4); [unfold plain_class; tauto|done].
  - cbn. by rewrite lookup_insert_eq.
  - intros u Hu. pose proof (bu_wait _ _ _ _ _ Hb4) as [Hw _]. rewrite Hw in Hu. by apply elem_of_nil in Hu.
Qed.

(** ** Deletion *)

(** Waking everyone who waits for the object at [a]. *)
Lemma wake_step bs s a h :
  dinv bs s → owned bs s a → h = HSuspend a ∨ h = HSender a →
  wp (kern (rt_ipc_list_resume_all h)) (λ _ s', dinv bs s' ∧ only_at a s s' ∧ d_heap s' = d_heap s ∧ d_pool s' = d_pool s ∧
    all_woken h (d_kst s) (d_kst s')) s.
Proof.
  intros Hd (Has & o & z & Ea & Hu) Hh. apply wp_kern. pose proof (di_kinv _ _ Hd) as HI.
  destruct (ipc_resume_all_run (d_kst s) h HI) as (k1 & Hr & Hall); [by destruct Hh as [-> | ->]|].
  unfold wp. rewrite Hr.
  pose proof Hall as (HI1 & Hip & _ & _ & Hn & Hol & Hob & Hoth & _ & Hout & Hirq & Hno).
  assert (only_at a s (mk_dsys k1 (d_heap s) (d_pool s))) as Hoa.
  { split; cbn; try done.
    - intros b cls _. by rewrite Hol.
    - intros b _ Hb. rewrite Hout; [done|]. intros Hin.
      destruct (sw_place _ _ (proj1 (ki_sched _ (proj1 HI))) b h Hin) as (th & Hth & _). unfold k_thr in Hb. congruence.
    - intros b _ Hb. by apply Hno.
    - intros b Hb. split; (apply Hoth; [done|]); destruct Hh as [-> | ->]; congruence.
    - intros b _. by rewrite Hip. }
  split_and!; [|done|done|done|done]. eapply (dinv_step bs bs s _ a o); [done|done|done|done|done| |apply Hd|done|done|].
  - cbn. rewrite Hn. apply Hd.
  - intros Hnz. by destruct (Hnz z).
Qed.

(** The header of an object that is no thread and no timer. *)
Lemma kinv_put_free s a y l :
  kinv s → k_thr s !! a = None → (∀ x, k_obj s !! Obj a = Some x → get_type x ≠ RT_Object_Class_Timer) →
  get_type y ≠ RT_Object_Class_Timer → kinv (upd_objects (λ O, set_obj_list l (put_obj (Obj a) y O)) s).
Proof.
  intros [HI Hw] Ht Hx Hy.
  assert (∀ o x, is_timer (k_objects s) o x → o ≠ Obj a) as Hne by (intros o x [Ho Hty] ->; by apply (Hx x)).
  split.
  - split; try apply HI.
    + intros t th Hth Hs. destruct (ki_objs _ HI t th Hth Hs) as ((x & Hx1 & Hxt) & Htm & Htt).
      split_and!; [|unfold is_timer; cbn; rewrite lookup_insert_ne by done; exact Htm|done].
      exists x. cbn. rewrite lookup_insert_ne; [done|]. intros [= <-]. unfold k_thr in *. cbn in Hth. congruence.
    + intros t x. unfold k_obj. cbn. rewrite lookup_insert_ne by done. apply (ki_oneshot _ HI).
  - split; try apply Hw.
    + intros o Ho. destruct (tw_rows _ _ Hw o Ho) as (Htm & x & Hxo & Ha). split; [done|].
      exists x. split; [|done]. pose proof (Hne o x Hxo). destruct Hxo. split; [|done]. cbn. by rewrite lookup_insert_ne.
    + intros o x [Ho Hty] Ha. apply (tw_act _ _ Hw o x); [|done]. split; [|done]. cbn in Ho.
      destruct (decide (o = Obj a)) as [->|]; [|by rewrite lookup_insert_ne in Ho].
      rewrite lookup_insert_eq in Ho. injection Ho as <-. done.
Qed.

(** An object with nobody waiting can be deleted. *)
Lemma object_deletable a x k :
  kinv k → k_obj k !! Obj a = Some x → dynamic_class (o_type x) → k_thr k !! a = None →
  k_obj k !! ThreadTimer a = None → (∀ cls, ThreadTimer a ∉ tlist (ob_list (k_objects k)) cls) →
  tlist (k_tl k) (HSuspend a) = [] ∧ tlist (k_tl k) (HSender a) = [] → deletable a x k.
Proof.
  intros HI Hx Hty Ht Htm Htl Hw. destruct (dynamic_class_facts (o_type x) Hty) as [_ Hf].
  destruct (Hf (o_name x) (o_flag x)) as (Hgt & Hdy & Hnt). pose proof (ki_sched _ (proj1 HI)) as (Hsw & Hok & _).
  assert (get_type x = o_type x) as Egt by (by destruct x).
  split; [done|done| | |congruence|done|done].
  - apply (kinv_put_free k a (with_type 0 x)); [done|done| |done]. intros y Hy. rewrite Hx in Hy. injection Hy as <-. by rewrite Egt.
  - unfold k_thr in Ht. split.
    + intros h Hin. destruct (sw_place _ _ Hsw a h Hin) as (th & Hth & _). congruence.
    + intros Hc. destruct (Hok a Hc) as (th & Hth & _). congruence.
Qed.

(** An IPC object in dynamic memory. *)
Record dynamic_object (bs : list block) (s : dsys) (a ty : Z) (x : rt_object) : Prop := {
  do_owned : owned bs s a;
  do_obj : k_obj (d_kst s) !! Obj a = Some x;
  do_type : o_type x = ty;
  do_thr : k_thr (d_kst s) !! a = None ∧ k_obj (d_kst s) !! ThreadTimer a = None;
  do_list : ∀ cls, ThreadTimer a ∉ tlist (ob_list (k_objects (d_kst s))) cls
}.

Lemma assert_dynamic_run bs s a ty x :
  dynamic_object bs s a ty x → dynamic_class ty → assert_dynamic a s = Some (tt, s).
Proof.
  intros [_ Hx Hty _ _] Hc. destruct (dynamic_class_facts ty Hc) as [_ Hf]. destruct (Hf [] 0) as (_ & Hdy & _).
  destruct s as [k h p]. cbn [d_kst] in Hx. unfold assert_dynamic, bind.
  erewrite kern_done; [|unfold rt_object_is_systemobject, bind, get_object; by rewrite Hx].
  by rewrite Hty, Hdy.
Qed.

Lemma assert_class_run bs s a ty x :
  dynamic_object bs s a ty x → dynamic_class ty → kern (assert_type (Obj a) ty) s = Some (tt, s).
Proof.
  intros [_ Hx Hty _ _] Hc. destruct (dynamic_class_facts ty Hc) as [_ Hf]. destruct (Hf (o_name x) (o_flag x)) as (Hg & _ & _).
  destruct s as [k h p]. apply kern_done, assert_type_run with x; [done|]. destruct x. cbn in *. by subst.
Qed.

(** Every waiter is woken with [-RT_ERROR], the object is gone, its block is free. *)
Definition deleted (bs : list block) (s : dsys) (a : Z) (waiters : list Z) (bs' : list block) (s' : dsys) : Prop :=
  dinv bs' s' ∧ vacant a s' ∧ only_at a s s' ∧
  (∃ o, a = block_addr (d_heap s) o ∧ removed bs o bs') ∧
  (∀ u, u ∈ waiters → ∃ uh, k_thr (d_kst s') !! u = Some uh ∧ active uh ∧ th_error uh = - RT_ERROR).

(** The common part of the delete routines: the waiters are woken, then the object goes. *)
Lemma ipc_delete_run bs s a ty x :
  dinv bs s → dynamic_object bs s a ty x → plain_class ty → tlist (k_tl (d_kst s)) (HSender a) = [] →
  dwp (now (kern (rt_ipc_list_resume_all (HSuspend a))) ;;; rt_object_delete heap_sem a ;;; dret RT_EOK)
    (λ r s', r = RT_EOK ∧ ∃ bs', deleted bs s a (tlist (k_tl (d_kst s)) (HSuspend a)) bs' s') s.
Proof.
  intros Hd [Hown Hx Hty [Ht Htm] Htl] Hc Hsnd. apply dwp_seq. eapply wp_mono; [by apply (wake_step bs s a (HSuspend a)); [| |left]|].
  intros _ s1 (Hd1 & Ho1 & Eh & Epl & Hall). destruct Hall as (HI1 & _ & _ & Hl1 & _ & Hol1 & Hob1 & Hoth1 & Hin1 & Hout1 & _ & Hno1).
  pose proof Hown as (Has & o & z & Ea & Hu). rewrite <- Eh in Ea.
  assert (deletable a x (d_kst s1)) as Hdel.
  { apply object_deletable; [done|by rewrite Hob1|by rewrite Hty; left| |by apply Hno1|by rewrite Hol1|].
    - rewrite Hout1; [done|]. intros Hin.
      destruct (sw_place _ _ (proj1 (ki_sched _ (proj1 (di_kinv _ _ Hd)))) a _ Hin) as (th & Hth & _). unfold k_thr in Ht. congruence.
    - split; [done|]. by rewrite Hoth1. }
  destruct (object_delete_run bs s1 a o z x Hd1 Ea Hu Has Hdel) as (s2 & bs' & E & Hd2 & Hrm & Hv & Ho2 & Ek & _ & _).
  apply dwp_bind. eexists _, _. split; [exact E|]. apply dwp_ret. split; [done|]. exists bs'.
  split_and!; [done|done|by eapply only_at_trans|exists o; by rewrite <- Eh|].
  intros u Hin. destruct (Hin1 u Hin) as (uh & Huh & Hact & Herr). exists uh. split; [|done].
  rewrite Ek. unfold k_thr. cbn. rewrite lookup_delete_ne; [done|]. intros ->.
  destruct (sw_place _ _ (proj1 (ki_sched _ (proj1 (di_kinv _ _ Hd)))) u _ Hin) as (th & Hth & _). unfold k_thr in Ht. congruence.
Qed.

(** [rt_sem_delete] wakes every thread that waits for the semaphore with [-RT_ERROR],
    takes the semaphore out of its container and gives exactly its memory back to the
    heap; nothing is left at its address and the invariants hold. *)
Theorem rt_sem_delete_spec bs s a x :
  dinv bs s → dynamic_object bs s a RT_Object_Class_Semaphore x → tlist (k_tl (d_kst s)) (HSender a) = [] →
  dwp (rt_sem_delete heap_sem a) (λ r s', r = RT_EOK ∧
    ∃ bs', deleted bs s a (tlist (k_tl (d_kst s)) (HSuspend a)) bs' s') s.
Proof.
  intros Hd Hdo Hsnd. assert (plain_class RT_Object_Class_Semaphore) as Hc by (unfold plain_class; tauto).
  apply dwp_seq. unfold wp. rewrite (not_in_interrupt s bs Hd).
  apply dwp_seq. unfold wp. rewrite (assert_class_run _ _ _ _ _ Hdo) by by left.
  apply dwp_seq. unfold wp. rewrite (assert_dynamic_run _ _ _ _ _ Hdo) by by left.
  by eapply (ipc_delete_run bs s a).
Qed.

Theorem rt_mutex_delete_spec bs s a x :
  dinv bs s → dynamic_object bs s a RT_Object_Class_Mutex x → tlist (k_tl (d_kst s)) (HSender a) = [] →
  dwp (rt_mutex_delete heap_sem a) (λ r s', r = RT_EOK ∧
    ∃ bs', deleted bs s a (tlist (k_tl (d_kst s)) (HSuspend a)) bs' s') s.
Proof.
  intros Hd Hdo Hsnd. assert (plain_class RT_Object_Class_Mutex) as Hc by (unfold plain_class; tauto).
  apply dwp_seq. unfold wp. rewrite (not_in_interrupt s bs Hd).
  apply dwp_seq. unfold wp. rewrite (assert_class_run _ _ _ _ _ Hdo) by by left.
  apply dwp_seq. unfold wp. rewrite (assert_dynamic_run _ _ _ _ _ Hdo) by by left.
  by eapply (ipc_delete_run bs s a).
Qed.

Theorem rt_event_delete_spec bs s a x :
  dinv bs s → dynamic_object bs s a RT_Object_Class_Event x → tlist (k_tl (d_kst s)) (HSender a) = [] →
  dwp (rt_event_delete heap_sem a) (λ r s', r = RT_EOK ∧
    ∃ bs', deleted bs s a (tlist (k_tl (d_kst s)) (HSuspend a)) bs' s') s.
Proof.
  intros Hd Hdo Hsnd. assert (plain_class RT_Object_Class_Event) as Hc by (unfold plain_class; tauto).
  apply dwp_seq. unfold wp. rewrite (assert_class_run _ _ _ _ _ Hdo) by by left.
  apply dwp_seq. unfold wp. rewrite (assert_dynamic_run _ _ _ _ _ Hdo) by by left.
  apply dwp_seq. unfold wp. rewrite (not_in_interrupt s bs Hd).
  by eapply (ipc_delete_run bs s a).
Qed.

(** ** Memory besides the object *)

Lemma block_not_sem bs s o z : dinv bs s → used_at bs o z → block_addr (d_heap s) o ≠ heap_sem.
Proof.
  intros Hd Hu. pose proof (di_static _ _ Hd) as Hst. pose proof (hw_layout _ _ (di_heap _ _ Hd)) as HL.
  pose proof (layout_good _ _ HL) as [Hg Ht]. destruct (used_at_range _ _ _ Hg Hu) as (H0 & [H16 _] & Hend).
  unfold block_addr, SIZEOF_STRUCT_MEM. lia.
Qed.

(** Allocation of memory that is no object. *)
Lemma malloc_step bs s size :
  dinv bs s → 0 ≤ size ≤ 2 ^ 32 - 4 →
  dwp (RT_KERNEL_MALLOC heap_sem size) (λ p s', (p = 0 ∧ s' = s) ∨ (p ≠ 0 ∧ 0 < size ∧
    ∃ bs' h', s' = mk_dsys (d_kst s) h' (d_pool s) ∧ dinv bs' s' ∧ one_more bs s p size bs' ∧ vacant p s' ∧
      fixed (d_heap s) h')) s.
Proof.
  intros Hd Hs. pose proof Hd as [Hu HI Hn Hw Hst Hho]. destruct s as [k h pool]. cbn [d_kst d_heap d_pool] in *.
  destruct (malloc_run k h pool bs size Hu Hw Hs) as (p & h' & E & Hm). eexists _, _. split; [exact E|].
  destruct Hm as [[-> ->]|(bs' & o & z & Hw1 & Hfx & Ep & [Hp Hs1] & Hz & Ho & Hend & Hadd)]; [by left|]. right. split; [done|]. split; [done|].
  exists bs', h'. pose proof (layout_good _ _ (hw_layout _ _ Hw1)) as [Hg1 _].
  destruct (used_at_range bs' o z Hg1) as (_ & [H16 _] & _); [apply Hadd; by right|].
  assert (vacant p (mk_dsys k h pool)) as Hv.
  { rewrite Ep. apply (Hho o); [done|unfold SIZEOF_STRUCT_MEM; cbn; lia|]. intros z' Hu'. pose proof (layout_good _ _ (hw_layout _ _ Hw)) as [Hg _].
    destruct (used_at_range _ _ _ Hg Hu') as (_ & [? _] & _). apply Hadd in Hu'. unfold SIZEOF_STRUCT_MEM in *. lia. }
  assert (vacant p (mk_dsys k h' pool)) as Hv' by (by destruct Hv).
  split_and!; [done| |by exists o, z|done|done].
  eapply (dinv_step bs bs' _ _ p o); [exact Hd|by split| |done|done|done|done|done| |done].
  - cbn in Hst. rewrite Ep. unfold SIZEOF_STRUCT_MEM in *. lia.
  - intros o' z' _ Hz'. apply Hadd. by left.
Qed.

Lemma free_step bs s o z :
  dinv bs s → used_at bs o z → vacant (block_addr (d_heap s) o) s →
  dwp (RT_KERNEL_FREE heap_sem (block_addr (d_heap s) o)) (λ _ s',
    ∃ bs' h', s' = mk_dsys (d_kst s) h' (d_pool s) ∧ dinv bs' s' ∧ removed bs o bs' ∧ fixed (d_heap s) h') s.
Proof.
  intros Hd Hu Hv. pose proof Hd as [Hul HI Hn Hw Hst Hho]. pose proof (block_not_sem _ _ _ _ Hd Hu) as Hns.
  destruct s as [k h pool]. cbn [d_kst d_heap d_pool] in *.
  destruct (free_run k h pool bs o z Hul Hw Hu) as (h' & bs' & E & Hw' & Hfx & Hrm). eexists _, _. split; [exact E|].
  exists bs', h'. split_and!; [done| |done|done].
  eapply (dinv_step bs bs' _ _ (block_addr h o) o); [exact Hd|by split|done|done|done|done|done|done| |].
  - intros o' z' Hne Hz. by apply Hrm.
  - intros _. by destruct Hv.
Qed.

(** The memory of an allocated block may be written. *)
Lemma dinv_memory bs s o z m :
  dinv bs s → used_at bs o z →
  (∀ i, i < block_addr (d_heap s) o ∨ block_addr (d_heap s) o + (z - SIZEOF_STRUCT_MEM) ≤ i → m i = heap_memory (d_heap s) i) →
  dinv bs (mk_dsys (d_kst s) (with_memory m (d_heap s)) (d_pool s)).
Proof.
  intros Hd Hu Hm. destruct s as [k h pool]. cbn [d_kst d_heap d_pool] in *.
  eapply (dinv_step bs bs (mk_dsys k h pool) _ (block_addr h o) o); [done|by split| |done|apply Hd|apply Hd| |done|done|].
  - apply (block_not_sem bs (mk_dsys k h pool) o z Hd Hu).
  - apply (hwf_write h bs o z); [apply Hd|done|]. intros i Hi. rewrite Hm; [unfold heap_memory; f_equal; lia|]. unfold block_addr. lia.
  - intros Hno. by destruct (Hno z).
Qed.

(** Blocks are aligned to words. *)
Lemma block_aligned bs s o z : dinv bs s → used_at bs o z → block_addr (d_heap s) o mod 4 = 0.
Proof.
  intros Hd Hu. pose proof (hw_layout _ _ (di_heap _ _ Hd)) as HL. pose proof (layout_good _ _ HL) as [Hg _].
  apply used_at_split in Hu as (l1 & l2 & -> & ->). apply good_app in Hg as [Hg1 _].
  pose proof (ly_align _ _ HL) as E1. pose proof (proj2 (total_bounds _ Hg1)) as E2. unfold block_addr, SIZEOF_STRUCT_MEM.
  rewrite (Z.add_mod _ 12), (Z.add_mod (h_ptr _)) by lia. by rewrite E1, E2.
Qed.

(** Nothing is left of an attempt: the blocks in use are the same as before. *)
Definition undone (bs : list block) (s : dsys) (bs' : list block) (s' : dsys) : Prop :=
  dinv bs' s' ∧ (∀ o z, used_at bs' o z ↔ used_at bs o z) ∧ ∃ b, only_at b s s' ∧ (vacant b s → vacant b s').

Lemma undone_refl bs s : dinv bs s → undone bs s bs s.
Proof. intros Hd. split_and!; [done|done|]. exists 0. split; [by split|done]. Qed.

Lemma building_undo bs s a x bs1 s1 size :
  building s a x bs1 s1 → dynamic_class (o_type x) → one_more bs s a size bs1 → dinv bs s → 0 ≤ size →
  dwp (rt_object_delete heap_sem a) (λ _ s', ∃ bs', undone bs s bs' s') s1.
Proof.
  intros Hb Hty (o & z & Ea & Hz & Hadd) Hd Hs0. pose proof Hb as [Hd1 Ho1 (Ep & _) Hown _ Hx [_ Htl] [Ht Htm] Hw].
  assert (deletable a x (d_kst s1)) as Hdel by (apply object_deletable; try done; apply Hd1).
  assert (a = block_addr (d_heap s1) o) as Ea1 by (rewrite Ea; unfold block_addr; by rewrite Ep).
  destruct (object_delete_run bs1 s1 a o z x Hd1 Ea1) as (s2 & bs2 & E & Hd2 & Hrm & Hv & Ho2 & _);
    [apply Hadd; by right|apply Hown|done|].
  eexists _, _. split; [exact E|]. exists bs2. split_and!; [done| |exists a; split; [by eapply only_at_trans|done]].
  intros o' z'. unfold removed in Hrm. rewrite Hrm. destruct Hadd as [Hadd Hap]. rewrite Hadd. split; [intros [[?|[-> _]] ?]; done|].
  intros Hu. split; [by left|]. intros ->. pose proof (layout_good _ _ (hw_layout _ _ (di_heap _ _ Hd))) as [Hg _].
  destruct (used_at_range _ _ _ Hg Hu) as (_ & [? _] & _). apply Hap in Hu. unfold SIZEOF_STRUCT_MEM in *. lia.
Qed.

Lemma building_heap s a x bs1 s1 bs2 h2 :
  building s a x bs1 s1 → dinv bs2 (mk_dsys (d_kst s1) h2 (d_pool s1)) → fixed (d_heap s1) h2 →
  (∀ o z, used_at bs1 o z → used_at bs2 o z) → building s a x bs2 (mk_dsys (d_kst s1) h2 (d_pool s1)).
Proof.
  intros [Hd1 Ho1 (E1 & E2 & E3) (Hns & o & z & Ea & Hu) Hfr Hx Hl Ht Hw] Hd2 (F1 & F2 & F3) Hk.
  split; try done; cbn.
  - eapply only_at_trans; [exact Ho1|by split].
  - split_and!; congruence.
  - split; [done|]. exists o, z. split; [|by apply Hk]. rewrite Ea. unfold block_addr. cbn. by rewrite F1.
Qed.

Lemma building_pool s a x bs1 s1 p :
  building s a x bs1 s1 → building s a x bs1 (mk_dsys (d_kst s1) (d_heap s1) (<[a := p]> (d_pool s1))).
Proof.
  intros [Hd1 Ho1 Hf (Hns & o & z & Ea & Hu) Hfr Hx Hl Ht Hw].
  assert (only_at a s1 (mk_dsys (d_kst s1) (d_heap s1) (<[a := p]> (d_pool s1)))) as Ho2
    by (split; try done; cbn; intros b Hb; by rewrite lookup_insert_ne).
  split; try done; cbn; [|by eapply only_at_trans|by split; [|exists o, z]].
  eapply (dinv_step bs1 bs1 s1 _ a o); [done|done|done|done|apply Hd1|apply Hd1|apply Hd1|done|done|].
  intros Hno. by destruct (Hno z).
Qed.

Lemma length_words_at h p n : 0 ≤ n → Z.of_nat (length (words_at h p n)) = n.
Proof. intros Hn. unfold words_at. rewrite length_fmap, length_seqZ. lia. Qed.

(** [rt_mb_create] takes two blocks, one for the mailbox and one for its messages, and
    makes an empty mailbox of the given size; when either allocation fails it returns
    [RT_NULL] and no block stays allocated. *)
Theorem rt_mb_create_spec bs s name size flag :
  dinv bs s → 0 ≤ size < 2 ^ 16 → ipc_flag flag →
  dwp (rt_mb_create heap_sem name size flag) (λ a s', (a = 0 ∧ ∃ bs', undone bs s bs' s') ∨ ∃ bs1 bs2 x p mb,
    building s a x bs2 s' ∧ one_more bs s a (object_size RT_Object_Class_MailBox) bs1 ∧ one_more bs1 s p (size * 4) bs2 ∧
    vacant p s' ∧ d_pool s' !! a = Some p ∧ mb_ok a (d_kst s') mb x ∧ mb_size mb = size ∧ mails mb = [] ∧
    o_flag x = flag ∧ o_name x = Str.rt_strncpy name RT_NAME_MAX) s.
Proof.
  intros Hd Hsz Hfl. assert (plain_class RT_Object_Class_MailBox) as Hc by (unfold plain_class; tauto).
  apply dwp_seq. unfold wp. rewrite (not_in_interrupt s bs Hd).
  apply (create_rule bs); [done|by left|done|left; split; [done|exists bs; by apply undone_refl]|]. intros a bs1 s1 Hb Hone.
  apply dwp_seq. eapply wp_mono; [by apply (building_flag _ _ _ _ _ _ Hb)|]. clear Hb.
  rewrite (ipc_flag_u8 flag Hfl). intros _ s2 [Hb _].
  apply dwp_seq. eapply wp_mono; [by apply (building_init _ _ _ _ _ (HSuspend a) Hb); left|]. clear Hb. intros _ s3 [Hb _].
  cbv zeta. rewrite (wrap_small 16) by lia. apply dwp_bind.
  eapply dwp_mono; [apply (malloc_step bs1 s3 (size * 4)); [apply Hb|lia]|].
  intros p s4 [[-> ->]|(Hp & Hs0 & bs2 & h2 & -> & Hd2 & Hone2 & Hvp & Hfx2)].
  { cbn [Z.eqb]. apply dwp_bind. eapply dwp_mono; [eapply (building_undo bs s a _ bs1); [exact Hb|by left|exact Hone|done|]|].
    - pose proof (object_size_range RT_Object_Class_MailBox). lia.
    - intros [] s5 Hun. apply dwp_ret. by left. }
  rewrite (proj2 (Z.eqb_neq _ _)) by done.
  assert (a ≠ p) as Hap by (intros <-; pose proof (bu_obj _ _ _ _ _ Hb); pose proof (va_obj _ _ Hvp); cbn in *; congruence).
  match type of Hb with building _ _ ?x _ _ => assert (building s a x bs2 (mk_dsys (d_kst s3) h2 (d_pool s3))) as Hb4 end.
  { eapply building_heap; [exact Hb|done|done|]. destruct Hone2 as (o & z & _ & _ & [Hadd _]). intros o' z' Hu. apply Hadd. by left. }
  apply building_pool with (p := p) in Hb4. cbn [d_kst d_heap d_pool] in Hb4.
  apply dwp_seq. unfold wp, set_pool, modify. cbn [d_kst d_heap d_pool]. apply dwp_seq. unfold wp, gets.
  set (s5 := mk_dsys _ _ _) in Hb4 |- *. set (mb := mk_mailbox (words_at (d_heap s5) p size) size 0 0 0).
  apply dwp_seq, wp_kern. unfold wp, put_mb, modify.
  pose proof (building_ipc _ _ _ _ _ (λ i, set_mb (<[a := mb]> (ip_mb i)) i) Hb4 ltac:(done)) as Hb6. set (s6 := mk_dsys _ _ _) in Hb6 |- *.
  apply dwp_seq. pose proof (building_init _ _ _ _ _ (HSender a) Hb6 ltac:(by right)) as Hw.
  eapply wp_mono; [exact Hw|]. intros _ s7 (Hb7 & Hip & Ho7 & Epl). apply dwp_ret. right.
  eexists bs1, bs2, _, p, mb. split; [exact Hb7|]. split; [done|]. split; [|split; [|split; [|split; [|done]]]].
  - destruct Hone2 as (o & z & Ep & Hz & Hadd). exists o, z. split; [|done]. rewrite Ep. unfold block_addr.
    by rewrite (proj1 (bu_fixed _ _ _ _ _ Hb)).
  - apply (vacant_other a p s6); [done|congruence|]. destruct Hvp as [V1 V2 V3 V4 V5 V6]. split; try done. cbn. by rewrite lookup_insert_ne.
  - rewrite Epl. cbn. by rewrite lookup_insert_eq.
  - refine (conj _ (conj _ _)).
    + by apply (building_ipc_obj _ _ _ _ _ _ _ Hb7).
    + rewrite Hip. cbn. by rewrite lookup_insert_eq.
    + split; cbn; [lia|by rewrite length_words_at by lia|lia|lia|by rewrite Z.mod_small by lia].
Qed.

(** Two blocks fewer than in [bs]: those at [a] and at [p]. *)
Definition two_less (bs : list block) (s : dsys) (a p : Z) (bs' : list block) : Prop :=
  ∃ o op, a = block_addr (d_heap s) o ∧ p = block_addr (d_heap s) op ∧
    ∀ o' z', used_at bs' o' z' ↔ used_at bs o' z' ∧ o' ≠ o ∧ o' ≠ op.

(** An object whose messages are in the block at [p]. *)
Record pool_object (bs : list block) (s : dsys) (a ty : Z) (x : rt_object) (p : Z) : Prop := {
  po_object : dynamic_object bs s a ty x;
  po_pool : d_pool s !! a = Some p;
  po_vacant : vacant p s;
  po_block : ∃ op zp, p = block_addr (d_heap s) op ∧ used_at bs op zp
}.

Lemma pool_object_step bs s s' a ty x p :
  pool_object bs s a ty x p → only_at a s s' → d_heap s' = d_heap s → d_pool s' = d_pool s →
  k_obj (d_kst s') !! Obj a = k_obj (d_kst s) !! Obj a → k_thr (d_kst s') !! a = None →
  k_obj (d_kst s') !! ThreadTimer a = None → ob_list (k_objects (d_kst s')) = ob_list (k_objects (d_kst s)) →
  pool_object bs s' a ty x p.
Proof.
  intros [[Hown Hx Hty _ Htl] Hp Hv Hb] Ho Eh Ep E1 E2 E3 E4. split; [split| | |].
  - destruct Hown as (? & o & z & ? & ?). split; [done|]. exists o, z. by rewrite Eh.
  - by rewrite E1.
  - done.
  - done.
  - by rewrite E4.
  - by rewrite Ep.
  - apply (vacant_other a p s); [done| |done]. intros ->. pose proof (va_obj _ _ Hv). congruence.
  - by rewrite Eh.
Qed.

(** The block at [p] is freed, then the object at [a] is deleted. *)
Lemma free_delete_run bs s a ty x p :
  dinv bs s → dynamic_object bs s a ty x → vacant p s → (∃ op zp, p = block_addr (d_heap s) op ∧ used_at bs op zp) → dynamic_class ty →
  tlist (k_tl (d_kst s)) (HSuspend a) = [] ∧ tlist (k_tl (d_kst s)) (HSender a) = [] →
  dwp (RT_KERNEL_FREE heap_sem p ;;; rt_object_delete heap_sem a)
    (λ _ s', ∃ bs', dinv bs' s' ∧ vacant a s' ∧ only_at a s s' ∧ two_less bs s a p bs' ∧
       k_thr (d_kst s') = delete a (k_thr (d_kst s))) s.
Proof.
  intros Hd [Hown Hx Hty [Ht Htm] Htl] Hv (op & zp & Ep & Hup) Hc Hw. pose proof Hown as (Hns & o & z & Ea & Hu).
  subst p. apply dwp_bind. eapply dwp_mono; [by apply (free_step bs s op zp)|]. intros [] s1 (bs1 & h1 & -> & Hd1 & Hrm & Hfx).
  assert (o ≠ op) as Hne.
  { intros ->. rewrite <- Ea in Hv. pose proof (va_obj _ _ Hv). congruence. }
  assert (a = block_addr h1 o) as Ea1 by (rewrite Ea; unfold block_addr; by rewrite (proj1 Hfx)).
  destruct (object_delete_run bs1 (mk_dsys (d_kst s) h1 (d_pool s)) a o z x) as (s2 & bs2 & E & Hd2 & Hrm2 & Hv2 & Ho2 & Ek & _);
    [done|done|by apply Hrm|done|apply object_deletable; try done; [apply Hd|by rewrite Hty]|].
  eexists _, _. split; [exact E|]. exists bs2.
  split_and!; [done|done|eapply only_at_trans; [|exact Ho2]; by split| |by rewrite Ek].
  exists o, op. split_and!; [done|done|]. intros o' z'. unfold removed in *. rewrite Hrm2, Hrm. tauto.
Qed.

Lemma pool_delete_run bs s a ty x p :
  dinv bs s → pool_object bs s a ty x p → dynamic_class ty →
  tlist (k_tl (d_kst s)) (HSuspend a) = [] ∧ tlist (k_tl (d_kst s)) (HSender a) = [] →
  dwp (q ⇐ now (gets (λ s, default 0 (d_pool s !! a))); RT_KERNEL_FREE heap_sem q ;;; rt_object_delete heap_sem a ;;; dret RT_EOK)
    (λ r s', r = RT_EOK ∧ ∃ bs', dinv bs' s' ∧ vacant a s' ∧ only_at a s s' ∧ two_less bs s a p bs' ∧
       k_thr (d_kst s') = delete a (k_thr (d_kst s))) s.
Proof.
  intros Hd [Hdo Hp Hv Hb] Hc Hw. apply dwp_seq. unfold wp, gets. rewrite Hp. cbn [default].
  destruct (free_delete_run bs s a ty x p Hd Hdo Hv Hb Hc Hw) as ([] & s' & E & H). unfold dbind at 1, bind at 1 in E.
  destruct (RT_KERNEL_FREE heap_sem p s) as [[[[]|k] s1]|] eqn:E1; [|done|done].
  apply dwp_bind. exists tt, s1. split; [done|]. apply dwp_bind. exists tt, s'. split; [exact E|]. by apply dwp_ret.
Qed.

(** [rt_mb_delete] wakes all threads that wait to receive and all that wait to send,
    with [-RT_ERROR], and gives both blocks of the mailbox back. *)
Theorem rt_mb_delete_spec bs s a x p :
  dinv bs s → pool_object bs s a RT_Object_Class_MailBox x p →
  dwp (rt_mb_delete heap_sem a) (λ r s', r = RT_EOK ∧ ∃ bs', dinv bs' s' ∧ vacant a s' ∧ only_at a s s' ∧
    two_less bs s a p bs' ∧
    ∀ u, u ∈ tlist (k_tl (d_kst s)) (HSuspend a) ++ tlist (k_tl (d_kst s)) (HSender a) →
      ∃ uh, k_thr (d_kst s') !! u = Some uh ∧ active uh ∧ th_error uh = - RT_ERROR) s.
Proof.
  intros Hd Hpo. assert (dynamic_class RT_Object_Class_MailBox) as Hc by (unfold dynamic_class, plain_class; tauto).
  pose proof (po_object _ _ _ _ _ _ Hpo) as Hdo. pose proof Hdo as [Hown Hx Hty [Ht Htm] Htl].
  assert (∀ h, a ∉ tlist (k_tl (d_kst s)) h) as Hna.
  { intros h Hin. destruct (sw_place _ _ (proj1 (ki_sched _ (proj1 (di_kinv _ _ Hd)))) a h Hin) as (th & Hth & _).
    unfold k_thr in Ht. congruence. }
  apply dwp_seq. unfold wp. rewrite (not_in_interrupt s bs Hd).
  apply dwp_seq. unfold wp. rewrite (assert_class_run _ _ _ _ _ Hdo Hc).
  apply dwp_seq. unfold wp. rewrite (assert_dynamic_run _ _ _ _ _ Hdo Hc).
  apply dwp_seq. eapply wp_mono; [by apply (wake_step bs s a (HSuspend a)); [| |left]|].
  intros _ s1 (Hd1 & Ho1 & Eh1 & Ep1 & Hall1). pose proof Hall1 as (_ & _ & _ & Hl1 & _ & Hol1 & Hob1 & Hoth1 & Hin1 & Hout1 & _ & Hno1).
  assert (pool_object bs s1 a RT_Object_Class_MailBox x p) as Hpo1.
  { apply (pool_object_step bs s s1); [done|done|done|done|by apply Hob1|by rewrite Hout1|by apply Hno1|done]. }
  apply dwp_seq. eapply wp_mono; [apply (wake_step bs s1 a (HSender a)); [done|apply Hpo1|by right]|].
  intros _ s2 (Hd2 & Ho2 & Eh2 & Ep2 & Hall2). pose proof Hall2 as (_ & _ & _ & Hl2 & _ & Hol2 & Hob2 & Hoth2 & Hin2 & Hout2 & _ & Hno2).
  assert (tlist (k_tl (d_kst s1)) (HSender a) = tlist (k_tl (d_kst s)) (HSender a)) as Esnd by by apply Hoth1.
  assert (pool_object bs s2 a RT_Object_Class_MailBox x p) as Hpo2.
  { apply (pool_object_step bs s1 s2); [done|done|done|done|by apply Hob2| | |done].
    - rewrite Hout2; [apply Hpo1|by rewrite Esnd].
    - apply Hno2, Hpo1. }
  eapply dwp_mono; [apply (pool_delete_run bs s2 a _ x p Hd2 Hpo2 Hc)|].
  { split; [|done]. by rewrite Hoth2. }
  intros r s3 (-> & bs' & Hd3 & Hv3 & Ho3 & Htwo & Ethr). split; [done|]. exists bs'.
  split_and!; [done|done|by eapply only_at_trans; [|eapply only_at_trans]| |].
  - destruct Htwo as (o & op & Ea & Ep & Hu). exists o, op. by rewrite <- Eh1, <- Eh2.
  - intros u Hin. assert (u ≠ a) as Hua by (intros ->; apply elem_of_app in Hin as [?|?]; by eapply Hna).
    rewrite Ethr, lookup_delete_ne by congruence. destruct (decide (u ∈ tlist (k_tl (d_kst s1)) (HSender a))) as [Hs|Hs].
    + by apply Hin2.
    + rewrite Hout2 by done. apply Hin1. apply elem_of_app in Hin as [?|?]; [done|]. by rewrite Esnd in Hs.
Qed.

(** [rt_mq_delete] wakes the waiting receivers and gives both blocks back. *)
Theorem rt_mq_delete_spec bs s a x p :
  dinv bs s → pool_object bs s a RT_Object_Class_MessageQueue x p → tlist (k_tl (d_kst s)) (HSender a) = [] →
  dwp (rt_mq_delete heap_sem a) (λ r s', r = RT_EOK ∧ ∃ bs', dinv bs' s' ∧ vacant a s' ∧ only_at a s s' ∧
    two_less bs s a p bs' ∧
    ∀ u, u ∈ tlist (k_tl (d_kst s)) (HSuspend a) →
      ∃ uh, k_thr (d_kst s') !! u = Some uh ∧ active uh ∧ th_error uh = - RT_ERROR) s.
Proof.
  intros Hd Hpo Hsnd. assert (dynamic_class RT_Object_Class_MessageQueue) as Hc by (unfold dynamic_class, plain_class; tauto).
  pose proof (po_object _ _ _ _ _ _ Hpo) as Hdo. pose proof Hdo as [Hown Hx Hty [Ht Htm] Htl].
  assert (∀ h, a ∉ tlist (k_tl (d_kst s)) h) as Hna.
  { intros h Hin. destruct (sw_place _ _ (proj1 (ki_sched _ (proj1 (di_kinv _ _ Hd)))) a h Hin) as (th & Hth & _).
    unfold k_thr in Ht. congruence. }
  apply dwp_seq. unfold wp. rewrite (not_in_interrupt s bs Hd).
  apply dwp_seq. unfold wp. rewrite (assert_class_run _ _ _ _ _ Hdo Hc).
  apply dwp_seq. unfold wp. rewrite (assert_dynamic_run _ _ _ _ _ Hdo Hc).
  apply dwp_seq. eapply wp_mono; [by apply (wake_step bs s a (HSuspend a)); [| |left]|].
  intros _ s1 (Hd1 & Ho1 & Eh1 & Ep1 & Hall1). pose proof Hall1 as (_ & _ & _ & Hl1 & _ & Hol1 & Hob1 & Hoth1 & Hin1 & Hout1 & _ & Hno1).
  assert (pool_object bs s1 a RT_Object_Class_MessageQueue x p) as Hpo1.
  { apply (pool_object_step bs s s1); [done|done|done|done|by apply Hob1|by rewrite Hout1|by apply Hno1|done]. }
  eapply dwp_mono; [apply (pool_delete_run bs s1 a _ x p Hd1 Hpo1 Hc); split; [done|by rewrite Hoth1]|].
  intros r s3 (-> & bs' & Hd3 & Hv3 & Ho3 & Htwo & Ethr). split; [done|]. exists bs'.
  split_and!; [done|done|by eapply only_at_trans| |].
  - destruct Htwo as (o & op & Ea & Ep & Hu). exists o, op. by rewrite <- Eh1.
  - intros u Hin. rewrite Ethr, lookup_delete_ne; [by apply Hin1|]. intros ->. by apply (Hna _ Hin).
Qed.

Lemma resume_all_nil h k : tlist (k_tl k) h = [] → rt_ipc_list_resume_all h k = Some (tt, k).
Proof. intros E. unfold rt_ipc_list_resume_all, bind, gets. rewrite E. cbn. unfold bind, gets. by rewrite E. Qed.

(** Deleting a queue that got no memory for its messages. *)
Lemma mq_delete_undo bs s a x bs1 s1 size :
  building s a x bs1 s1 → o_type x = RT_Object_Class_MessageQueue → d_pool s1 !! a = Some 0 →
  one_more bs s a size bs1 → dinv bs s → 0 ≤ size →
  dwp (rt_mq_delete heap_sem a) (λ _ s', ∃ bs', undone bs s bs' s') s1.
Proof.
  intros Hb Hty Hp Hone Hd Hs0. assert (dynamic_class RT_Object_Class_MessageQueue) as Hc by (unfold dynamic_class, plain_class; tauto).
  assert (dynamic_object bs1 s1 a RT_Object_Class_MessageQueue x) as Hdo.
  { pose proof Hb as [_ _ _ ? _ ? [_ ?] ? _]. by split. }
  apply dwp_seq. unfold wp. rewrite (not_in_interrupt s1 bs1) by apply Hb.
  apply dwp_seq. unfold wp. rewrite (assert_class_run _ _ _ _ _ Hdo Hc).
  apply dwp_seq. unfold wp. rewrite (assert_dynamic_run _ _ _ _ _ Hdo Hc).
  apply dwp_seq, wp_kern. unfold wp. rewrite resume_all_nil by apply Hb.
  destruct s1 as [k1 h1 p1]. cbn [d_kst d_heap d_pool] in *.
  apply dwp_seq. unfold wp, gets. cbn [d_pool]. rewrite Hp. cbn [default].
  apply dwp_bind. eexists tt, _. split; [apply free_null|]. apply dwp_bind.
  eapply dwp_mono; [by apply (building_undo bs s a x bs1 _ size); [|rewrite Hty| | |]|]. intros [] s2 Hun. by apply dwp_ret.
Qed.

Definition empty_pool (h : heap) (p size n : Z) : list rt_mq_message :=
  (λ i, mk_msg None (bytes_at h (p + i * (size + sizeof_rt_mq_message) + sizeof_rt_mq_message) size)) <$> seqZ 0 n.

(** The queue the loop of [rt_mq_create] leaves: all blocks are free. *)
Lemma empty_queue_run h p size n :
  0 ≤ size < 2 ^ 16 → 0 ≤ n < 2 ^ 16 →
  ∃ mq, mq_init_loop (Z.to_nat n) 0 (mk_mq (empty_pool h p size n) size n 0 None None None) = Some (tt, mq) ∧
    mq_rep (with_entry 0 mq) [] (rev (seq 0 (Z.to_nat n))) [] ∧ mq_msg_size mq = size ∧ mq_max_msgs mq = n.
Proof.
  intros Hs Hn. set (mq0 := mk_mq (empty_pool h p size n) size n 0 None None None).
  assert (length (empty_pool h p size n) = Z.to_nat n) as Hlen by (unfold empty_pool; by rewrite length_fmap, length_seqZ).
  destruct (mq_init_run (Z.to_nat n) mq0 0) as (pool' & Hr & Hc & Hplen & Hpd); [done|cbn; lia|].
  eexists. split; [exact Hr|]. split; [|done]. cbn in Hplen. split; cbn -[seq]; try done; try lia.
  - rewrite app_nil_r. symmetry. apply Permutation_rev.
  - intros j m _ Hj. specialize (Hpd j). cbn in Hpd. rewrite Hj in Hpd. cbn in Hpd.
    destruct (empty_pool h p size n !! j) as [m0|] eqn:Em; [|done]. injection Hpd as ->.
    unfold empty_pool in Em. apply list_lookup_fmap_Some in Em as (i & -> & _). cbn.
    unfold bytes_at. rewrite length_fmap, length_seqZ. lia.
Qed.

(** The aligned 16-bit message size leaves the product with a 16-bit count within 32 bits. *)
Lemma mq_bytes_fit msg_size n : 0 ≤ n < 2 ^ 16 → (u16 (RT_ALIGN msg_size 4) + 4) * n ≤ 2 ^ 32 - 4.
Proof.
  intros Hn. set (z := u16 _). assert (0 ≤ z < 2 ^ 16) as Hz by (apply wrap_range; lia).
  assert (z mod 4 = 0) as Hm.
  { change 4 with (2 ^ 2). rewrite <- Z.land_ones by lia. apply Z.bits_inj'. intros i Hi. rewrite Z.bits_0, Z.land_spec.
    rewrite Z.testbit_ones_nonneg by lia. destruct (Z.ltb_spec i 2); [|apply andb_false_r].
    unfold z, u16, wrap. rewrite Z.mod_pow2_bits_low by lia. unfold RT_ALIGN. rewrite Z.land_spec, !andb_true_r.
    replace (Z.testbit (u32 (Z.lnot (4 - 1))) i) with false; [apply andb_false_r|].
    assert (i = 0 ∨ i = 1) as [-> | ->] by lia; reflexivity. }
  assert (z ≤ 65532) by (Z.to_euclidean_division_equations; lia). nia.
Qed.

(** [rt_mq_create] takes a block for the queue and one for its messages and makes an
    empty queue with all message blocks free; when either allocation fails it returns
    [RT_NULL] and no block stays allocated. *)
Theorem rt_mq_create_spec bs s name msg_size max_msgs flag :
  let size := u16 (RT_ALIGN msg_size 4) in
  dinv bs s → 0 ≤ max_msgs < 2 ^ 16 → ipc_flag flag →
  dwp (rt_mq_create heap_sem name msg_size max_msgs flag) (λ a s', (a = 0 ∧ ∃ bs', undone bs s bs' s') ∨ ∃ bs1 bs2 x p mq f,
    building s a x bs2 s' ∧ one_more bs s a (object_size RT_Object_Class_MessageQueue) bs1 ∧
    one_more bs1 s p ((size + 4) * max_msgs) bs2 ∧ vacant p s' ∧ d_pool s' !! a = Some p ∧
    mq_ok a (d_kst s') mq [] f [] x ∧ mq_msg_size mq = size ∧ mq_max_msgs mq = max_msgs ∧
    o_flag x = flag ∧ o_name x = Str.rt_strncpy name RT_NAME_MAX) s.
Proof.
  intros size Hd Hmx Hfl. pose proof (mq_bytes_fit msg_size max_msgs Hmx) as Hmul. fold size in Hmul. assert (plain_class RT_Object_Class_MessageQueue) as Hc by (unfold plain_class; tauto).
  assert (0 ≤ size < 2 ^ 16) as Hsz by (apply wrap_range; lia).
  apply dwp_seq. unfold wp. rewrite (not_in_interrupt s bs Hd).
  apply (create_rule bs); [done|by left|done|left; split; [done|exists bs; by apply undone_refl]|]. intros a bs1 s1 Hb Hone.
  apply dwp_seq. eapply wp_mono; [by apply (building_flag _ _ _ _ _ _ Hb)|]. clear Hb.
  rewrite (ipc_flag_u8 flag Hfl). intros _ s2 [Hb _].
  apply dwp_seq. eapply wp_mono; [by apply (building_init _ _ _ _ _ (HSuspend a) Hb); left|]. clear Hb. intros _ s3 [Hb _].
  cbv zeta. fold size. rewrite (wrap_small 16 max_msgs) by lia. change sizeof_rt_mq_message with 4. rewrite (wrap_small 32) by nia.
  apply dwp_bind. eapply dwp_mono; [apply (malloc_step bs1 s3 ((size + 4) * max_msgs)); [apply Hb|nia]|].
  intros p s4 [[-> ->]|(Hp & Hs0 & bs2 & h2 & -> & Hd2 & Hone2 & Hvp & Hfx2)].
  { apply dwp_seq. unfold wp, set_pool, modify. cbn [Z.eqb]. apply dwp_bind. eapply dwp_mono.
    - eapply (mq_delete_undo bs s a _ bs1); [apply building_pool; exact Hb|done|cbn; by rewrite lookup_insert_eq|exact Hone|done|].
      pose proof (object_size_range RT_Object_Class_MessageQueue). lia.
    - intros r s5 Hun. apply dwp_ret. by left. }
  assert (a ≠ p) as Hap by (intros <-; pose proof (bu_obj _ _ _ _ _ Hb); pose proof (va_obj _ _ Hvp); cbn in *; congruence).
  match type of Hb with building _ _ ?x _ _ => assert (building s a x bs2 (mk_dsys (d_kst s3) h2 (d_pool s3))) as Hb4 end.
  { eapply building_heap; [exact Hb|done|done|]. destruct Hone2 as (o & z & _ & _ & [Hadd _]). intros o' z' Hu. apply Hadd. by left. }
  apply building_pool with (p := p) in Hb4. cbn [d_kst d_heap d_pool] in Hb4.
  apply dwp_seq. unfold wp, set_pool, modify. cbn [d_kst d_heap d_pool]. rewrite (proj2 (Z.eqb_neq p 0)) by done.
  apply dwp_seq. unfold wp, gets. set (s5 := mk_dsys _ _ _) in Hb4 |- *. cbn [d_heap s5].
  destruct (empty_queue_run h2 p size max_msgs Hsz Hmx) as (mq & Hr & Hrep & E1 & E2).
  unfold empty_pool in Hr. change sizeof_rt_mq_message with 4 in Hr. set (mq0 := mk_mq _ size max_msgs 0 None None None) in Hr |- *.
  apply dwp_seq, wp_kern. unfold wp, put_mq, modify. fold (mq_st a mq0 (d_kst s5)).
  apply dwp_seq, wp_kern. cbn [d_kst d_heap d_pool]. unfold wp. rewrite (on_mq_st _ _ _ _ _ _ Hr).
  apply dwp_seq, wp_kern. cbn [d_kst d_heap d_pool]. unfold wp. rewrite (on_mq_st _ _ mq _ tt (with_entry 0 mq)) by done.
  pose proof (building_ipc _ _ _ _ _ (λ i, set_mq (<[a := with_entry 0 mq]> (ip_mq i)) i) Hb4 ltac:(done)) as Hb6.
  apply dwp_ret. right. eexists bs1, bs2, _, p, (with_entry 0 mq), _. split; [exact Hb6|]. split; [done|].
  split; [|split; [|split; [|split; [|done]]]].
  - destruct Hone2 as (o & z & Ep & Hz & Hadd). exists o, z. split; [|done]. rewrite Ep. unfold block_addr.
    by rewrite (proj1 (bu_fixed _ _ _ _ _ Hb)).
  - destruct Hvp as [V1 V2 V3 V4 V5 V6]. split; try done. cbn. by rewrite lookup_insert_ne by congruence.
  - cbn. by rewrite lookup_insert_eq.
  - refine (conj _ (conj _ Hrep)).
    + by apply (building_ipc_obj _ _ _ _ _ _ _ Hb6).
    + cbn. by rewrite lookup_insert_eq.
Qed.

(** ** Threads *)

(** The control block [_rt_thread_init] writes. *)
Definition new_thread (entry parameter stack size priority tick : Z) : rt_thread := {|
  th_sp := rt_hw_stack_init (stack + size - 4); th_entry := entry; th_parameter := parameter;
  th_stack_addr := stack; th_stack_size := size; th_guard := 35; th_error := RT_EOK; th_stat := RT_THREAD_INIT;
  th_current_priority := priority; th_init_priority := priority; th_number_mask := 0; th_event_set := 0;
  th_event_info := 0; th_init_tick := tick; th_remaining_tick := tick; th_cleanup := None; th_user_data := 0 |}.

(** The frame of a new thread fits its stack. *)
Lemma new_thread_stack e p stack size prio tick :
  0 ≤ stack → 80 ≤ size → stack_ok (new_thread e p stack size prio tick) = true.
Proof.
  intros Hst Hs. unfold stack_ok. cbn. unfold rt_hw_stack_init, Thread.RT_ALIGN_DOWN, stack_frame_size.
  replace (stack + size - 4 + 4) with (stack + size) by lia.
  assert (Z.land (stack + size) (Z.lnot (8 - 1)) = (stack + size) / 8 * 8) as ->.
  { change (Z.lnot (8 - 1)) with (Z.lnot (Z.ones 3)). rewrite <- Z.ldiff_land, Z.ldiff_ones_r by lia.
    by rewrite Z.shiftl_mul_pow2, Z.shiftr_div_pow2 by lia. }
  pose proof (Z.div_mod (stack + size) 8). pose proof (Z.mod_pos_bound (stack + size) 8).
  rewrite (proj2 (Z.leb_gt _ _)), (proj2 (Z.ltb_ge _ _)) by lia. done.
Qed.

Lemma sched_inv_new c a th :
  sched_inv c → sc_thr c !! a = None → stat_of th = RT_THREAD_INIT → 0 ≤ th_current_priority th < 32 →
  stack_ok th = true → sched_inv (put_thr a th c).
Proof.
  intros (Hw & Hok & Hst) Ha Hs Hp Hk.
  assert (∀ t u, sc_thr c !! t = Some u → sc_thr (put_thr a th c) !! t = Some u) as Hin
    by (intros t u Ht; cbn; rewrite lookup_insert_ne; congruence).
  assert (∀ t u, sc_thr (put_thr a th c) !! t = Some u → (t = a ∧ u = th) ∨ sc_thr c !! t = Some u) as Hinv.
  { intros t u. cbn. rewrite lookup_insert_Some. naive_solver. }
  split_and!.
  - destruct Hw as [H1 H2 H3 H4 H5 H6 H7 H8 H9 H10]. split; try done.
    + intros t h Ht. destruct (H5 t h Ht) as (u & Hu & Hh). eauto.
    + intros t u [[-> ->]|Hu]%Hinv HX Hr; [rewrite Hs in Hr; done|]. exact (H7 t u Hu HX Hr).
    + intros t u [[-> ->]|Hu]%Hinv; [done|]. exact (H8 t u Hu).
    + intros t u [[-> ->]|Hu]%Hinv Hr; [|exact (H9 t u Hu Hr)]. unfold started in Hr. rewrite Hs in Hr.
      by destruct Hr as [?|[?|?]].
    + intros t u [[-> ->]|Hu]%Hinv HX Hr; [rewrite Hs in Hr; done|]. exact (H10 t u Hu HX Hr).
  - intros t Ht. destruct (Hok t Ht) as (u & Hu & ?). eauto.
  - intros t u [[-> ->]|Hu]%Hinv; [done|]. exact (Hst t u Hu).
Qed.

Definition timer_header (name : list Z) : rt_object :=
  mk_object (Str.rt_strncpy name RT_NAME_MAX) (Z.lor RT_Object_Class_Timer RT_Object_Class_Static) 0.

(** The timers and objects of the kernel with a new thread timer. *)
Definition with_timer (a : Z) (T : timers) : timers :=
  set_tim (<[ThreadTimer a := mk_timer (rt_thread_timeout_fn a) 0 0]> (tms_tim T)) T.
Definition with_timer_header (a : Z) (name : list Z) (O : objects) : objects :=
  set_obj_list (<[RT_Object_Class_Timer := ThreadTimer a :: tlist (ob_list O) RT_Object_Class_Timer]> (ob_list O))
    (put_obj (ThreadTimer a) (timer_header name) O).

Lemma kinv_new_thread k a x th :
  kinv k → k_thr k !! a = None → k_obj k !! Obj a = Some x → get_type x = RT_Object_Class_Thread →
  k_obj k !! ThreadTimer a = None → sched_inv (put_thr a th (k_sched k)) →
  kinv (mk_kst (put_thr a th (k_sched k)) (with_timer a (k_timers k)) (with_timer_header a (o_name x) (k_objects k)) (k_ipc k)).
Proof.
  intros [HI Hw] Ht Hx Hxt Htm Hsi. destruct HI as [_ Hcur Hobjs Hwait Hone Huser].
  assert (ThreadTimer a ∉ k_rows k) as Hnr.
  { intros Hin. destruct (tw_rows _ _ Hw _ Hin) as (_ & y & [Hy _] & _). unfold k_obj in Htm. congruence. }
  assert (∀ o, o ∈ k_rows k → off (with_timer a (k_timers k)) o = off (k_timers k) o) as Hoff.
  { intros o Ho. unfold off. cbn. rewrite lookup_insert_ne; [done|]. intros <-. done. }
  split; [split; cbn|].
  - done.
  - done.
  - unfold k_thr. cbn. intros t u. rewrite lookup_insert_Some. intros [[-> ->]|[Hne Hu]] Hs.
    + split_and!.
      * exists x. cbn. rewrite lookup_insert_ne by done. done.
      * exists (timer_header (o_name x)). split; [split; [cbn; by rewrite lookup_insert_eq|done]|done].
      * eexists. cbn. rewrite lookup_insert_eq. done.
    + destruct (Hobjs t u Hu Hs) as ((y & Hy & Hyt) & (w & [Hwo Hwt] & Hwf) & (tm & Htm' & Htf)).
      split_and!; [exists y|exists w|exists tm].
      * cbn. rewrite lookup_insert_ne by done. done.
      * split; [split; [|done]|done]. cbn. rewrite lookup_insert_ne; congruence.
      * cbn. rewrite lookup_insert_ne; [done|congruence].
  - intros t Hin. destruct (Hwait t Hin) as (u & Hu & Hs). exists u. split; [|done]. unfold k_thr in *. cbn.
    rewrite lookup_insert_ne; [done|]. intros <-. done.
  - unfold k_obj. cbn. intros t y. rewrite lookup_insert_Some. intros [[_ <-]|[_ Hy]]; [done|]. by apply (Hone t).
  - unfold k_tim. cbn. intros b tm. rewrite lookup_insert_ne by done. apply Huser.
  - destruct Hw as [H1 H2 H3 H4 H5]. split; cbn; [done| | |eapply StronglySorted_ext; [|exact H4]|].
    + intros o Ho. destruct (H2 o Ho) as (Hm & y & [Hy Hyt] & Hya). assert (o ≠ ThreadTimer a) by (intros ->; done).
      split; [by rewrite lookup_insert_ne|]. exists y. split; [|done]. split; [|done]. cbn. by rewrite lookup_insert_ne.
    + intros o y [Hy Hyt] Hya. cbn in Hy. rewrite lookup_insert_Some in Hy. destruct Hy as [[_ <-]|[_ Hy]]; [done|].
      apply (H3 o y); [by split|done].
    + cbn. intros o1 o2 Ho1 Ho2. by rewrite !Hoff.
    + intros o Ho. rewrite Hoff by done. by apply H5.
Qed.

Lemma thread_init_run k a x entry par p size prio tick :
  let th := new_thread entry par p size prio tick in
  kinv k → 0 ≤ sc_lock_nest (k_sched k) < 2 ^ 15 - 1 → k_thr k !! a = None → k_obj k !! Obj a = Some x →
  get_type x = RT_Object_Class_Thread → k_obj k !! ThreadTimer a = None →
  (∀ cls, ThreadTimer a ∉ tlist (ob_list (k_objects k)) cls) → 0 ≤ prio < 32 → 0 ≤ p → 80 ≤ size →
  ∃ c', _rt_thread_init a entry par p size prio tick k
      = Some (RT_EOK, mk_kst c' (with_timer a (k_timers k)) (with_timer_header a (o_name x) (k_objects k)) (k_ipc k)) ∧
    sched_inv (put_thr a th (k_sched k)) ∧ scheduled (put_thr a th (k_sched k)) c' ∧
    kinv (mk_kst c' (with_timer a (k_timers k)) (with_timer_header a (o_name x) (k_objects k)) (k_ipc k)).
Proof.
  intros th HI Hn Ht Hx Hxt Htm Htl Hp Hp0 Hs. pose proof (ki_sched _ (proj1 HI)) as Hsi.
  assert (sched_inv (put_thr a th (k_sched k))) as Hsi1 by (apply sched_inv_new; try done; by apply new_thread_stack).
  pose proof (kinv_new_thread k a x th HI Ht Hx Hxt Htm Hsi1) as HI1.
  set (k1 := upd_sched (put_thr a th) k).
  destruct (critical_sched_run k1) as (s1 & c' & He & HO1 & Hxc & Hd); [done|apply HI|done|].
  exists c'. split_and!; [|done|done|].
  2:{ split; [|apply HI1]. apply (kinv0_moved _ c' (proj1 HI1)).
      - by eapply scheduled_inv; [exact Hsi1|].
      - by eapply scheduled_cur; [exact Hd|apply HI].
      - by apply scheduled_moved. }
  unfold _rt_thread_init, bind at 1, gets at 1. unfold bind at 1, assert at 1.
  rewrite (proj2 (tlinked_false _ a)); cbn [negb].
  2:{ intros h Hin. destruct (sw_place _ _ (proj1 Hsi) a h Hin) as (u & Hu & _). unfold k_thr in Ht. congruence. }
  cbv zeta. unfold bind at 1, assert at 1. rewrite (proj2 (Z.ltb_lt _ _)) by apply Hp.
  unfold bind at 1, modify at 1. unfold k_thr in Ht. unfold upd_sched at 1. rewrite Ht. cbn [fmap option_fmap option_map default].
  rewrite (proj2 (Z.eqb_neq size 0)) by lia. fold (new_thread entry par p size prio tick). fold th.
  change (mk_kst (put_thr a th (k_sched k)) (k_timers k) (k_objects k) (k_ipc k)) with k1.
  unfold bind at 1, get_object. change (k_obj k1) with (k_obj k). rewrite Hx.
  unfold bind at 1, rt_timer_init, bind at 1, rt_object_init, bind at 1, assert at 1.
  rewrite bool_decide_eq_true_2 by (by eexists). unfold bind at 1. rewrite He.
  unfold bind at 1, gets at 1. unfold bind at 1, assert at 1. rewrite HO1. change (k_objects k1) with (k_objects k).
  rewrite bool_decide_eq_true_2 by apply Htl. unfold bind at 1. rewrite Hxc. unfold bind at 1, write_header, modify.
  unfold obj_insert_after. cbn [upd_objects k_objects set_obj ob_list ob_obj]. unfold k_obj in Htm. 
  change (k_objects k1) with (k_objects k).
  rewrite (proj2 (tlinked_false _ (ThreadTimer a))) by apply Htl.
  unfold _rt_timer_init, bind at 1. erewrite mod_object_run; [|unfold k_obj; cbn; by rewrite lookup_insert_eq].
  unfold bind at 1. erewrite mod_object_run; [|unfold k_obj; cbn; by rewrite lookup_insert_eq].
  unfold bind at 1, modify, row_init, bind at 1, gets, assert. rewrite bool_decide_eq_true_2.
  2:{ cbn. intros Hin. destruct (tw_rows _ _ (proj2 HI) _ Hin) as (_ & y & [Hy _] & _). unfold k_obj in *. congruence. }
  unfold ret, upd_objects, upd_timers. cbn. unfold with_timer, with_timer_header, put_obj, set_obj, set_obj_list. cbn.
  rewrite !insert_insert_eq. done.
Qed.

(** [rt_thread_create] takes a block for the control block and one for the stack and
    makes a thread in the initial state with its own timer, entry, priority and stack, in
    blocks disjoint from every other; when either allocation fails it returns [RT_NULL]
    and no block stays allocated. *)
Theorem rt_thread_create_spec bs s name entry par size prio tick :
  dinv bs s → 0 ≤ prio < 32 → 80 ≤ size ≤ 2 ^ 32 - 4 →
  dwp (rt_thread_create heap_sem name entry par size prio tick) (λ a s', (a = 0 ∧ ∃ bs', undone bs s bs' s') ∨ ∃ bs1 bs2 p,
    dinv bs2 s' ∧ only_at a s s' ∧ vacant a s ∧ a ≠ 0 ∧
    one_more bs s a (object_size RT_Object_Class_Thread) bs1 ∧ one_more bs1 s p size bs2 ∧ vacant p s' ∧
    k_thr (d_kst s') !! a = Some (new_thread entry par p size prio tick) ∧
    k_obj (d_kst s') !! Obj a = Some (mk_object (Str.rt_strncpy name RT_NAME_MAX) RT_Object_Class_Thread 0)) s.
Proof.
  intros Hd Hp Hsz. apply (create_rule bs); [done|by right|done|left; split; [done|exists bs; by apply undone_refl]|].
  intros a bs1 s1 Hb Hone. apply dwp_bind. eapply dwp_mono; [apply (malloc_step bs1 s1 size); [apply Hb|lia]|].
  intros p s2 [[-> ->]|(Hp0 & _ & bs2 & h2 & -> & Hd2 & Hone2 & Hvp & Hfx2)].
  { cbn [Z.eqb]. apply dwp_bind. eapply dwp_mono; [eapply (building_undo bs s a _ bs1); [exact Hb|by right|exact Hone|done|]|].
    - pose proof (object_size_range RT_Object_Class_Thread). lia.
    - intros [] s5 Hun. apply dwp_ret. by left. }
  rewrite (proj2 (Z.eqb_neq _ _)) by done. set (x := mk_object _ _ _) in *.
  assert (a ≠ p) as Hap by (intros <-; pose proof (bu_obj _ _ _ _ _ Hb); pose proof (va_obj _ _ Hvp); cbn in *; congruence).
  assert (building s a x bs2 (mk_dsys (d_kst s1) h2 (d_pool s1))) as Hb4.
  { eapply building_heap; [exact Hb|done|done|]. destruct Hone2 as (o & z & _ & _ & [Hadd _]). intros o' z' Hu. apply Hadd. by left. }
  pose proof Hb4 as [Hd4 Ho4 Hfx4 Hown4 [Ha0 Hva] Hx4 [_ Htl4] [Ht4 Htm4] Hw4].
  set (s4 := mk_dsys (d_kst s1) h2 (d_pool s1)) in *. set (th := new_thread entry par p size prio tick).
  assert (0 ≤ p) as Hp1.
  { destruct Hone2 as (o & z & -> & _ & Hadd). pose proof (hw_layout _ _ (di_heap _ _ Hd2)) as HL.
    pose proof (layout_good _ _ HL) as [Hg _]. destruct (used_at_range bs2 o z Hg) as (? & _ & _); [apply Hadd; by right|].
    pose proof (ly_range _ _ HL) as [? _]. cbn in *. unfold block_addr, SIZEOF_STRUCT_MEM. rewrite <- (proj1 Hfx2). lia. }
  destruct (thread_init_run (d_kst s4) a x entry par p size prio tick) as (c' & Hr & Hsi & Hsc & HI'); try done;
    [apply Hd4|apply Hd4|lia|].
  apply dwp_seq, wp_kern. unfold wp. rewrite Hr. apply dwp_ret. right. set (k' := mk_kst c' _ _ _) in *.
  pose proof (scheduled_moved _ _ Hsi Hsc) as Hmv. destruct (scheduled_nests _ _ Hsc) as [Hn1 Hn2].
  assert (∀ h, is_wait h → tlist (sc_tl c') h = tlist (k_tl (d_kst s4)) h) as Hwl.
  { intros h Hh. etransitivity; [apply (scheduled_waiting _ _ h Hsi Hsc)|done]. intros q. by apply is_wait_not_ready. }
  assert (only_at a s4 (mk_dsys k' h2 (d_pool s1))) as Ho5.
  { split; cbn; try done.
    - intros b Hne. unfold k_obj. cbn. by rewrite lookup_insert_ne.
    - intros b cls Hne. rewrite tlist_insert. case_decide; [subst cls|done]. rewrite !elem_of_cons. naive_solver.
    - intros b Hne Hb0. destruct (k_thr k' !! b) as [u|] eqn:Eu; [|done].
      destruct (moved_lookup _ _ _ _ Hmv Eu) as (u0 & Hu0 & _). cbn in Hu0. unfold k_thr in Hb0. rewrite lookup_insert_ne in Hu0; congruence.
    - intros b Hne Hb0. unfold k_obj. cbn. rewrite lookup_insert_ne by congruence. exact Hb0.
    - intros b Hne. unfold k_tl. cbn. by rewrite !Hwl. }
  destruct Hown4 as (Hns & o & z & Ea & Hu). exists bs1, bs2, p. split_and!; [|by eapply only_at_trans|done|done|done| | | |].
  - eapply (dinv_step bs2 bs2 s4 _ a o); [done|done|done|done|done| |apply Hd4|done|done|].
    + cbn. rewrite Hn1. apply Hd4.
    + intros Hno. by destruct (Hno z).
  - destruct Hone2 as (o2 & z2 & Ep & Hz & Hadd). exists o2, z2. split; [|done]. rewrite Ep. unfold block_addr.
    by rewrite (proj1 (bu_fixed _ _ _ _ _ Hb)).
  - by apply (vacant_other a p s4).
  - destruct (moved_lookup_inv _ _ a th Hmv) as (u & Hu' & Hsm); [cbn; by rewrite lookup_insert_eq|].
    unfold k_thr. cbn. rewrite Hu'. destruct Hsm as [->|(Hact & _)]; [done|]. by destruct Hact.
  - unfold k_obj. cbn. rewrite lookup_insert_ne by done. exact Hx4.
Qed.

End dynamic_lemmas.

(** * Instances *)

(** Whether every address the kernel knows lies outside the heap or is an allocated
    block. *)
Definition used_addrs (h : heap) : Z → list block → list Z :=
  fix go o bs :=
    match bs with
    | [] => []
    | (z, u) :: bs' => (if u : bool then [block_addr h o] else []) ++ go (o + z) bs'
    end.
Definition housed_addr (h : heap) (bs : list block) (a : Z) : bool :=
  bool_decide (a < h_ptr h) || bool_decide (h_ptr h + h_end h ≤ a) || bool_decide (a ∈ used_addrs h 0 bs).
Definition oid_addr (i : oid) : Z := match i with Obj a | ThreadTimer a => a end.
Definition housed_head (h : heap) (bs : list block) (hd : thead) : bool :=
  match hd with HSuspend a | HSender a => housed_addr h bs a | _ => true end.

Definition housed_check (bs : list block) (s : dsys) : bool :=
  let ok := housed_addr (d_heap s) bs in
  bool_decide (map_Forall (λ i _, ok (oid_addr i) = true) (k_obj (d_kst s))) &&
  bool_decide (map_Forall (λ _ l, Forall (λ i, ok (oid_addr i) = true) l) (ob_list (k_objects (d_kst s)))) &&
  bool_decide (map_Forall (λ a _, ok a = true) (k_thr (d_kst s))) &&
  bool_decide (map_Forall (λ hd _, housed_head (d_heap s) bs hd = true) (k_tl (d_kst s))) &&
  bool_decide (map_Forall (λ a _, ok a = true) (d_pool s)).

Lemma used_addrs_in h bs : ∀ o0 a, a ∈ used_addrs h o0 bs → ∃ o z, a = block_addr h (o0 + o) ∧ used_at bs o z.
Proof.
  induction bs as [|[sz u] bs IH]; intros o0 a; cbn [used_addrs]; [set_solver|]. rewrite elem_of_app. intros [Hin|Hin].
  - destruct u; [|set_solver]. apply list_elem_of_singleton in Hin as ->. exists 0, sz. cbn. rewrite Z.add_0_r. tauto.
  - destruct (IH _ _ Hin) as (o & z & -> & Hu). exists (sz + o), z. split; [f_equal; lia|]. cbn. right.
    by replace (sz + o - sz) with o by lia.
Qed.

Lemma housed_vacant bs s o :
  housed_check bs s = true → 0 ≤ o → o + SIZEOF_STRUCT_MEM < h_end (d_heap s) → (∀ z, ¬ used_at bs o z) →
  vacant (block_addr (d_heap s) o) s.
Proof.
  intros Hc Ho He Hno. set (a := block_addr (d_heap s) o).
  assert (housed_addr (d_heap s) bs a ≠ true) as Ha.
  { unfold housed_addr. rewrite !orb_true_iff, !bool_decide_eq_true. unfold SIZEOF_STRUCT_MEM in *.
    intros [[Hlt|Hlt]|Hin]; [unfold a, block_addr, SIZEOF_STRUCT_MEM in Hlt; lia..|].
    apply used_addrs_in in Hin as (o' & z & Ea & Hu). apply (Hno z). unfold a, block_addr in Ea. by replace o with o' by lia. }
  unfold housed_check in Hc. rewrite !andb_true_iff, !bool_decide_eq_true in Hc. destruct Hc as [[[[H1 H2] H3] H4] H5].
  assert (∀ i, oid_addr i = a → k_obj (d_kst s) !! i = None) as Hobj.
  { intros i Ei. destruct (k_obj (d_kst s) !! i) eqn:E; [|done]. apply H1 in E. by rewrite Ei in E. }
  assert (∀ i cls, oid_addr i = a → i ∉ tlist (ob_list (k_objects (d_kst s))) cls) as Hlist.
  { intros i cls Ei. unfold tlist. destruct (_ !! cls) as [l|] eqn:E; cbn; [|set_solver]. intros Hin. specialize (H2 _ _ E).
    rewrite Forall_forall in H2. apply H2 in Hin. by rewrite Ei in Hin. }
  split; [by apply Hobj|intros cls; split; by apply Hlist| |by apply Hobj| |].
  - destruct (k_thr _ !! a) eqn:E; [|done]. by apply H3 in E.
  - unfold tlist. split; destruct (k_tl _ !! _) eqn:E; try done; by apply H4 in E.
  - destruct (d_pool s !! a) eqn:E; [|done]. by apply H5 in E.
Qed.

(** A heap of 1000 bytes that holds the semaphore [dyn_sem], the control block of the
    ended thread [dyn_dead] and its stack [dyn_stack]; the rest is free. *)
Definition dyn_blocks : list block := [(44, true); (140, true); (92, true); (736, false)].
Definition dyn_heap : heap :=
  mk_heap (put_hdr (put_hdr (put_hdr (put_hdr (put_hdr (λ i, i mod 256) 0 1 44 0) 44 1 184 0) 184 1 276 44)
                     276 0 1012 184) 1012 1 1012 1012)
    0x20000000 1012 276 1000 276 276.

Lemma dyn_hwf : hwf dyn_heap dyn_blocks.
Proof.
  split; cbn [dyn_blocks].
  - split; [|vm_compute; reflexivity|reflexivity|by vm_compute|by vm_compute|reflexivity].
    exists 276. repeat (split; [vm_compute; reflexivity|]; split; [split; [lia|reflexivity]|]). split; reflexivity.
  - cbn. tauto.
  - left. cbn. right. right. right. left. done.
  - reflexivity.
  - by vm_compute.
Qed.

Definition dyn_sem : Z := 0x20000000 + 12.
Definition dyn_dead : Z := 0x20000000 + 56.
Definition dyn_stack : Z := 0x20000000 + 196.
Definition dyn_hdr (ty : Z) : rt_object := mk_object [] ty RT_IPC_FLAG_FIFO.

(** Thread 5 of the demo system waits for [dyn_sem]. *)
Definition dyn_sys : dsys :=
  let k := demo_kheap in
  let c := k_sched k in
  let dead := mk_thread (dyn_stack + 16) 7 0 dyn_stack 80 35 0 RT_THREAD_CLOSE 9 9 (2 ^ 9) 0 0 10 10 None 0 in
  mk_dsys
    (mk_kst
       (set_tl (<[HDefunct := [dyn_dead]]> (<[HSuspend dyn_sem := [5]]> (delete (HSuspend 100) (sc_tl c))))
          (set_thr (<[dyn_dead := dead]> (sc_thr c)) c))
       (k_timers k)
       (mk_objects
          (<[Obj dyn_sem := dyn_hdr RT_Object_Class_Semaphore]> (<[Obj dyn_dead := dyn_hdr RT_Object_Class_Thread]>
           (<[ThreadTimer dyn_dead := dyn_hdr 0]> (k_obj k))))
          (<[RT_Object_Class_Semaphore := [Obj dyn_sem]]> (<[RT_Object_Class_Thread := [Obj dyn_dead]]> ∅)))
       (set_sem (<[103 := mk_sem 1]> (<[dyn_sem := mk_sem 0]> ∅)) (k_ipc k)))
    dyn_heap ∅.

Lemma dyn_dinv : dinv 103 dyn_blocks dyn_sys.
Proof.
  split.
  - split; [|reflexivity]. exists demo_hdr.
    refine (conj (conj _ (conj _ (or_intror _))) (conj _ (conj _ _))); [reflexivity..|lia|reflexivity].
  - apply kinv_check_sound. vm_compute. reflexivity.
  - cbn. lia.
  - apply dyn_hwf.
  - cbn. lia.
  - intros o H0 H1 Hno. apply (housed_vacant dyn_blocks); [vm_compute; reflexivity|done..].
Qed.

Lemma dyn_lists cls i :
  i ∈ tlist (ob_list (k_objects (d_kst dyn_sys))) cls → i = Obj dyn_sem ∨ i = Obj dyn_dead.
Proof.
  unfold tlist. cbn. rewrite !lookup_insert, lookup_empty. repeat case_decide; cbn; set_solver.
Qed.

Lemma dyn_object : dynamic_object 103 dyn_blocks dyn_sys dyn_sem RT_Object_Class_Semaphore (dyn_hdr RT_Object_Class_Semaphore).
Proof.
  split; [|reflexivity|reflexivity|split; reflexivity|].
  - split; [done|]. exists 0, 44. split; [reflexivity|]. cbn. tauto.
  - intros cls Hin. by destruct (dyn_lists _ _ Hin).
Qed.

Lemma rt_sem_create_spec_witness :
  dwp (rt_sem_create 103 [115; 0] 3 RT_IPC_FLAG_PRIO) (λ a s', a = 0 ∨ ∃ x, sem_ok a (d_kst s') 3 x) dyn_sys.
Proof.
  eapply dwp_mono; [eapply (rt_sem_create_spec 103 dyn_blocks dyn_sys); [apply dyn_dinv|lia|by right]|].
  intros a s' [[-> _]|(bs' & x & _ & _ & Hok & _)]; [by left|]. right. by exists x.
Defined.

Lemma rt_sem_delete_spec_witness :
  dwp (rt_sem_delete 103 dyn_sem) (λ r s', r = RT_EOK ∧ vacant dyn_sem s') dyn_sys.
Proof.
  eapply dwp_mono; [eapply (rt_sem_delete_spec 103 dyn_blocks dyn_sys dyn_sem); [apply dyn_dinv|apply dyn_object|reflexivity]|].
  intros r s' (-> & bs' & _ & Hv & _). done.
Defined.

Lemma rt_mb_create_spec_witness :
  dwp (rt_mb_create 103 [109; 0] 8 RT_IPC_FLAG_FIFO) (λ a s', a = 0 ∨ ∃ mb x, mb_ok a (d_kst s') mb x ∧ mb_size mb = 8) dyn_sys.
Proof.
  eapply dwp_mono; [eapply (rt_mb_create_spec 103 dyn_blocks dyn_sys); [apply dyn_dinv|lia|by left]|].
  intros a s' [[-> _]|(bs1 & bs2 & x & p & mb & _ & _ & _ & _ & _ & Hok & Hsz & _)]; [by left|]. right. by exists mb, x.
Defined.

Lemma rt_mq_create_spec_witness :
  dwp (rt_mq_create 103 [113; 0] 10 4 RT_IPC_FLAG_FIFO) (λ a s', a = 0 ∨ ∃ mq, mq_msg_size mq = 12) dyn_sys.
Proof.
  eapply dwp_mono; [eapply (rt_mq_create_spec 103 dyn_blocks dyn_sys); [apply dyn_dinv|lia|by left]|].
  intros a s' [[-> _]|(bs1 & bs2 & x & p & mq & f & _ & _ & _ & _ & _ & _ & Hsz & _)]; [by left|]. right. by exists mq.
Defined.

Lemma rt_thread_create_spec_witness :
  dwp (rt_thread_create 103 [116; 0] 7 0 128 12 20) (λ a s', a = 0 ∨ ∃ p, k_thr (d_kst s') !! a = Some (new_thread 7 0 p 128 12 20)) dyn_sys.
Proof.
  eapply dwp_mono; [eapply (rt_thread_create_spec 103 dyn_blocks dyn_sys); [apply dyn_dinv|lia|lia]|].
  intros a s' [[-> _]|(bs1 & bs2 & p & _ & _ & _ & _ & _ & _ & _ & Ht & _)]; [by left|]. right. by exists p.
Defined.

(** The heap has room: the thread gets the first blocks behind those in use. *)
Example rt_thread_create_runs :
  option_map fst (rt_thread_create 103 [116; 0] 7 0 128 12 20 dyn_sys) = Some (Done (0x20000000 + 288)).
Proof. vm_compute. reflexivity. Qed.
