(* ===== verification/DynPool.v ===== *)
(** Memory pools in dynamic memory: [rt_mp_create] and [rt_mp_delete] of src/mempool.c on
    the kernel and the heap of [Dynamic.v]. The blocks of a created pool are bytes of the
    heap, on which the operations of [MemPool.v] work. *)

From Stdlib Require Import ZArith Lia.
From stdpp Require Import base numbers option gmap.
From stdpp Require Import list.
From S2P Require Import Prelude.
From S2P Require Import Kservice.
From S2P Require Import Bytes.
From S2P Require Import Proc.
From S2P Require Import KernelDefs.
From S2P Require Import Scheduler.
From S2P Require Import Object.
From S2P Require Import Timer.
From S2P Require Import Thread.
From S2P Require Import Clock.
From S2P Require Import Ipc.
From S2P Require Import Sem.
From S2P Require Import Mem.
From S2P Require Import MemPool.
From S2P Require Import Dynamic.
From S2P Require Import Kstate.
Local Open Scope Z_scope.
Local Open Scope rt_scope.

(** * State *)

(** The kernel with the heap, the global error number, and the pools. *)
Record msys := mk_msys { m_sys : dsys; m_errno : Z; m_mp : gmap Z rt_mempool }.

Definition with_msys (d : dsys) (s : msys) : msys := mk_msys d (m_errno s) (m_mp s).

#[export] Instance msys_kernel : KernelState msys := {|
  st_k s := d_kst (m_sys s);
  with_k k s := with_msys (mk_dsys k (d_heap (m_sys s)) (d_pool (m_sys s))) s;
  st_errno := m_errno;
  with_errno e s := mk_msys (m_sys s) e (m_mp s)
|}.
#[export] Instance msys_laws : KernelLaws msys.
Proof. by split; [..|intros [[] ??]]. Qed.

(** The state the operations of a pool work on. *)
Definition pool_part (s : msys) : pst := mk_pst (d_kst (m_sys s)) (m_errno s) (m_mp s) (heap_memory (d_heap (m_sys s))).
Definition put_pool (p : pst) (s : msys) : msys :=
  mk_msys (mk_dsys (ps_k p) (with_memory (ps_mem p) (d_heap (m_sys s))) (d_pool (m_sys s))) (ps_errno p) (ps_mp p).

Definition pools {A} (m : P A) : M msys A := λ s,
  match m (pool_part s) with Some (a, p) => Some (a, put_pool p s) | None => None end.

(** * Operations *)

Section dynpool.
Variable heap_sem : Z.

Definition on_dsys {A} : D A → M msys (proc msys A) := zoom m_sys with_msys.

Definition rt_mp_create (name : list Z) (block_count block_size : Z) : M msys (proc msys Z) :=
  now (kern RT_DEBUG_NOT_IN_INTERRUPT) ;;;
  mp ⇐ on_dsys (rt_object_allocate heap_sem RT_Object_Class_MemPool name);
  if mp =? 0 then dret 0
  else
    let block_size := RT_ALIGN block_size 4 in
    let size := u32 (u32 (block_size + 4) * block_count) in
    start ⇐ on_dsys (RT_KERNEL_MALLOC heap_sem size);
    if start =? 0 then on_dsys (rt_object_delete heap_sem mp) ;;; dret 0
    else
      now (kern (rt_ipc_object_init (HSuspend mp))) ;;;
      now (pools (new_pool mp start size block_size block_count)) ;;;
      dret mp.

(** The loop of [rt_mp_delete] is that of [rt_mp_detach]. *)
Definition wake_all (a : Z) : P unit :=
  l ← gets (λ s, tlist (k_tl (ps_k s)) (HSuspend a));
  mp_wake_loop (S (length l)) a.

Definition rt_mp_delete (a : Z) : M msys (proc msys Z) :=
  now (kern RT_DEBUG_NOT_IN_INTERRUPT) ;;;
  now (kern (assert_type (Obj a) RT_Object_Class_MemPool)) ;;;
  on_dsys (now (assert_dynamic a)) ;;;
  now (pools (wake_all a)) ;;;
  mp ⇐ now (pools (get_mp a));
  on_dsys (RT_KERNEL_FREE heap_sem (mp_start_address mp) ;;; rt_object_delete heap_sem a) ;;;
  now (modify (λ s, mk_msys (m_sys s) (m_errno s) (delete a (m_mp s)))) ;;;
  dret RT_EOK.
End dynpool.

(** * The parts of the state *)

(** A routine on the pools that leaves the memory alone. *)
Lemma pools_run {A} (m : P A) s a k e mps :
  m (pool_part s) = Some (a, mk_pst k e mps (heap_memory (d_heap (m_sys s)))) →
  pools m s = Some (a, mk_msys (mk_dsys k (d_heap (m_sys s)) (d_pool (m_sys s))) e mps).
Proof. intros E. unfold pools. rewrite E. unfold put_pool. cbn. by rewrite heap_memory_id. Qed.

(** A kernel routine on the larger state. *)
Lemma wp_kern_msys {A} (m : K A) Q s : wp (Dynamic.kern m) (λ a d, Q a (with_msys d s)) (m_sys s) → wp (kern m) Q s.
Proof. unfold wp, kern, Dynamic.kern. destruct s as [[k h p] e mps]. cbn. destruct (m k) as [[a k']|]; cbn; tauto. Qed.

(** * Creation *)

Section creation.
Context (heap_sem : Z).

Lemma kern_msys (m : K unit) s : Dynamic.kern m (m_sys s) = Some (tt, m_sys s) → kern m s = Some (tt, s).
Proof.
  unfold Dynamic.kern, kern. destruct s as [[k h p] e mps]. cbn. destruct (m k) as [[[] k']|]; [|done].
  cbn. intros E. by injection E as ->.
Qed.

Lemma not_in_interrupt_msys s bs : dinv heap_sem bs (m_sys s) → kern RT_DEBUG_NOT_IN_INTERRUPT s = Some (tt, s).
Proof. intros Hd. by eapply kern_msys, not_in_interrupt. Qed.

(** The blocks of the pool lie in the block of the heap at [p]. *)
Lemma create_linked bs1 bs2 s d1 a x p size block_size count :
  building heap_sem (m_sys s) a x bs2 d1 → one_more bs1 (m_sys s) p size bs2 → vacant p d1 → p ≠ 0 →
  0 ≤ block_size → 1 ≤ count → size = count * (block_size + 4) →
  wp (pools (new_pool a p size block_size count)) (λ _ s', ∃ h', m_sys s' = mk_dsys (d_kst d1) h' (d_pool d1) ∧ fixed (d_heap d1) h' ∧
    building heap_sem (m_sys s) a x bs2 (m_sys s') ∧
    pool_ok (pool_part s') a (mk_mp p size block_size p count count 0) (blocks (mk_mp p size block_size p count count 0)) [] ∧
    ∀ b, b ≠ a → m_mp s' !! b = m_mp s !! b) (with_msys d1 s).
Proof.
  intros Hb (o & z & Ep & Hz & Hadd) Hv Hp Hbs Hc Esz. pose proof (bu_dinv _ _ _ _ _ _ Hb) as Hd. pose proof (di_heap _ _ _ Hd) as Hw.
  assert (used_at bs2 o z) as Hu by (apply Hadd; by right). pose proof (bu_fixed _ _ _ _ _ _ Hb) as (Eptr & Eend & _).
  assert (p = block_addr (d_heap d1) o) as Ep1 by (rewrite Ep; unfold block_addr; by rewrite Eptr).
  destruct (block_range heap_sem bs2 d1 o z Hd Hu) as (_ & P1 & P2). rewrite <- Ep1 in P1, P2.
  destruct (bu_owned _ _ _ _ _ _ Hb) as (_ & oa & za & Ea & Hua). destruct (block_range heap_sem bs2 d1 oa za Hd Hua) as (A0 & A1 & A2). rewrite <- Ea in A1, A2.
  destruct d1 as [k h pool]. cbn [d_kst d_heap d_pool] in *.
  destruct (new_pool_run a p size block_size count (pool_part (with_msys (mk_dsys k h pool) s))) as (m & R & Hok & Hm); [lia|lia|done|done|lia|apply Hb|].
  unfold wp, pools. rewrite R. set (h' := with_memory m h). exists h'. cbn [put_pool m_sys d_kst d_heap d_pool ps_k ps_mem with_msys].
  assert (dinv heap_sem bs2 (mk_dsys k h' pool)) as Hd'.
  { apply (dinv_memory heap_sem bs2 (mk_dsys k h pool) o z m Hd Hu). intros i Hi. apply Hm. cbn [d_heap] in Hi. rewrite <- Ep1 in Hi. lia. }
  split_and!; [done|done| | |].
  - eapply (building_heap heap_sem (m_sys s) a x bs2 (mk_dsys k h pool)); [exact Hb|exact Hd'|done|done].
  - assert (pool_part (put_pool (mk_pst k (m_errno s) (<[a := mk_mp p size block_size p count count 0]> (m_mp s)) m) (with_msys (mk_dsys k h pool) s)) =
      mk_pst k (m_errno s) (<[a := mk_mp p size block_size p count count 0]> (m_mp s)) m) as E; [|exact (eq_ind_r (λ q, pool_ok q a _ _ _) Hok E)].
    unfold pool_part, put_pool. cbn. by rewrite heap_memory_with.
  - intros b Hne. cbn. by rewrite lookup_insert_ne.
Qed.

(** [rt_mp_create] takes two blocks, one for the pool and one for its blocks of memory, all
    of which are free; when either allocation fails it returns [RT_NULL] and no block stays
    allocated. *)
Theorem rt_mp_create_spec bs s name block_count block_size :
  dinv heap_sem bs (m_sys s) → 0 ≤ block_count → 0 ≤ block_size ≤ 2 ^ 32 - 8 → block_count * ((block_size + 3) / 4 * 4 + 4) ≤ 2 ^ 32 - 4 →
  dwp (rt_mp_create heap_sem name block_count block_size) (λ a s',
    (a = 0 ∧ m_mp s' = m_mp s ∧ ∃ bs', undone heap_sem bs (m_sys s) bs' (m_sys s')) ∨ ∃ bs1 bs2 x p mp,
    building heap_sem (m_sys s) a x bs2 (m_sys s') ∧ o_type x = RT_Object_Class_MemPool ∧
    one_more bs (m_sys s) a (object_size RT_Object_Class_MemPool) bs1 ∧
    one_more bs1 (m_sys s) p (block_count * ((block_size + 3) / 4 * 4 + 4)) bs2 ∧ vacant p (m_sys s') ∧
    pool_ok (pool_part s') a mp (blocks mp) [] ∧ mp_start_address mp = p ∧ mp_block_size mp = (block_size + 3) / 4 * 4 ∧
    mp_block_total_count mp = block_count) s.
Proof.
  intros Hd Hn Hbs Hsz. set (bsz := (block_size + 3) / 4 * 4) in *. unfold rt_mp_create.
  apply dwp_seq. unfold wp. rewrite (not_in_interrupt_msys s bs Hd). apply dwp_bind, dwp_zoom.
  eapply dwp_mono; [by apply (allocate_building heap_sem bs); [|left; unfold plain_class; tauto]|].
  intros a d1 [[-> ->]|(bs1 & Hb & Hone)].
  { apply dwp_ret. left. split_and!; [done|done|]. exists bs. by apply undone_refl. }
  rewrite (proj2 (Z.eqb_neq _ _)) by apply (bu_fresh _ _ _ _ _ _ Hb). cbv zeta.
  assert (0 ≤ bsz ≤ 2 ^ 32 - 8) as Hr by (clear - Hbs; unfold bsz; pose proof (Z.div_mod (block_size + 3) 4 ltac:(done)); pose proof (Z.mod_pos_bound (block_size + 3) 4 ltac:(done)); change (2 ^ 32) with (4 * 1073741824) in *; lia). rewrite RT_ALIGN_4 by lia. fold bsz.
  rewrite (wrap_small 32 (bsz + 4)), (wrap_small 32) by lia. rewrite (Z.mul_comm (bsz + 4)). apply dwp_bind, dwp_zoom.
  cbn [m_sys with_msys]. eapply dwp_mono; [apply (malloc_step heap_sem bs1 d1 (block_count * (bsz + 4))); [apply Hb|lia]|].
  intros p d2 [[-> ->]|(Hp & Hs0 & bs2 & h2 & -> & Hd2 & Hone2 & Hvp & Hfx2)].
  { cbn [Z.eqb]. apply dwp_bind, dwp_zoom. cbn [m_sys with_msys].
    eapply dwp_mono; [eapply (building_undo heap_sem bs (m_sys s) a _ bs1); [exact Hb|left; unfold plain_class; cbn; tauto|exact Hone|done|]|].
    - pose proof (object_size_range RT_Object_Class_MemPool). lia.
    - intros [] d5 Hun. apply dwp_ret. by left. }
  rewrite (proj2 (Z.eqb_neq _ _)) by done.
  match type of Hb with building _ _ _ ?x _ _ => assert (building heap_sem (m_sys s) a x bs2 (mk_dsys (d_kst d1) h2 (d_pool d1))) as Hb4 end.
  { eapply building_heap; [exact Hb|done|done|]. destruct Hone2 as (o & z & _ & _ & [Hadd _]). intros o' z' Hu. apply Hadd. by left. }
  apply dwp_seq, wp_kern_msys. cbn [m_sys with_msys].
  eapply wp_mono; [by apply (building_init heap_sem _ _ _ _ _ (HSuspend a) Hb4); left|]. intros _ d3 (Hb5 & _ & Ho5 & _).
  assert (one_more bs1 (m_sys s) p (block_count * (bsz + 4)) bs2) as Hone3.
  { destruct Hone2 as (o & z & Ep & Hz & Hadd). exists o, z. split; [|done]. rewrite Ep. unfold block_addr.
    by rewrite (proj1 (bu_fixed _ _ _ _ _ _ Hb)). }
  assert (vacant p d3) as Hv3.
  { apply (vacant_other a p (mk_dsys (d_kst d1) h2 (d_pool d1))); [done| |done].
    intros <-. pose proof (bu_obj _ _ _ _ _ _ Hb). pose proof (va_obj _ _ Hvp). cbn in *. congruence. }
  apply dwp_seq. eapply wp_mono; [apply (create_linked bs1 bs2 s d3 a _ p _ _ _ Hb5 Hone3 Hv3 Hp); [lia|nia|done]|].
  intros _ s6 (h' & E6 & Hfx & Hb6 & Hok & _). apply dwp_ret. right. eexists bs1, bs2, _, p, _.
  split; [exact Hb6|]. split; [done|]. split; [done|]. split; [done|]. split; [|by split; [exact Hok|]].
  rewrite E6. destruct Hv3 as [V1 V2 V3 V4 V5 V6]. by split.
Qed.
End creation.

(** * Deletion *)

(** The loop of a pool wakes the threads as that of [rt_ipc_list_resume_all] does. *)
Lemma mp_wake_resumes fuel a s mp k' :
  resume_all_loop fuel (HSuspend a) (ps_k s) = Some (tt, k') → ps_mp s !! a = Some mp →
  ∃ c, mp_wake_loop fuel a s = Some (tt, mk_pst k' (ps_errno s) (<[a := with_count c mp]> (ps_mp s)) (ps_mem s)).
Proof.
  revert s mp. induction fuel as [|fuel IH]; intros s mp; [done|]. cbn [resume_all_loop mp_wake_loop]. unfold bind, gets.
  destruct (tlist (k_tl (ps_k s)) (HSuspend a)) as [|t l].
  { intros E Ha. injection E as <-. exists (mp_suspend_thread_count mp). unfold ret. repeat f_equal. destruct s, mp. cbn in *. by rewrite insert_id. }
  unfold kern, get_mp, put_mp, modify. cbn [st_k with_k pst_kernel].
  destruct (mod_thread t _ (ps_k s)) as [[u k1]|]; [|done]. cbn. destruct (rt_thread_resume t k1) as [[u2 k2]|]; [|done]. cbn.
  intros E Ha. rewrite Ha. edestruct (IH (mk_pst k2 (ps_errno s) (<[a := with_count (u32 (mp_suspend_thread_count mp - 1)) mp]> (ps_mp s)) (ps_mem s)))
    as (c & R); [exact E|cbn; by rewrite lookup_insert_eq|].
  exists c. cbn [ps_k ps_errno ps_mp ps_mem] in R. rewrite insert_insert_eq in R. exact R.
Qed.

Section deletion.
Context (heap_sem : Z).

(** A pool of dynamic memory: its blocks are in the block of the heap at [p]. *)
Record dynamic_pool (bs : list block) (s : msys) (a : Z) (x : rt_object) (mp : rt_mempool) : Prop := {
  dp_object : dynamic_object heap_sem bs (m_sys s) a RT_Object_Class_MemPool x;
  dp_pool : m_mp s !! a = Some mp;
  dp_vacant : vacant (mp_start_address mp) (m_sys s);
  dp_block : ∃ op zp, mp_start_address mp = block_addr (d_heap (m_sys s)) op ∧ used_at bs op zp;
  dp_sender : tlist (k_tl (d_kst (m_sys s))) (HSender a) = []
}.

(** [rt_mp_delete] wakes all threads that wait for a block, with [-RT_ERROR], and gives
    both blocks of the pool back to the heap, whatever blocks of the pool are in use. *)
Theorem rt_mp_delete_spec bs s a x mp :
  dinv heap_sem bs (m_sys s) → dynamic_pool bs s a x mp →
  dwp (rt_mp_delete heap_sem a) (λ r s', r = RT_EOK ∧ m_mp s' = delete a (m_mp s) ∧ ∃ bs', dinv heap_sem bs' (m_sys s') ∧
    vacant a (m_sys s') ∧ only_at a (m_sys s) (m_sys s') ∧ two_less bs (m_sys s) a (mp_start_address mp) bs' ∧
    ∀ u, u ∈ tlist (k_tl (d_kst (m_sys s))) (HSuspend a) →
      ∃ uh, k_thr (d_kst (m_sys s')) !! u = Some uh ∧ active uh ∧ th_error uh = - RT_ERROR) s.
Proof.
  intros Hd [Hdo Hmp Hv Hbl Hsn]. assert (dynamic_class RT_Object_Class_MemPool) as Hc by (unfold dynamic_class, plain_class; tauto).
  pose proof Hdo as [Hown Hx Hty [Ht Htm] Htl].
  assert (∀ h, a ∉ tlist (k_tl (d_kst (m_sys s))) h) as Hna.
  { intros h Hin. destruct (sw_place _ _ (proj1 (ki_sched _ (proj1 (di_kinv _ _ _ Hd)))) a h Hin) as (th & Hth & _).
    unfold k_thr in Ht. congruence. }
  apply dwp_seq. unfold wp. rewrite (not_in_interrupt_msys heap_sem s bs Hd).
  apply dwp_seq. unfold wp. rewrite (kern_msys _ _ (assert_class_run _ _ _ _ _ _ Hdo Hc)).
  apply dwp_bind, dwp_zoom, dwp_now. unfold wp. rewrite (assert_dynamic_run _ _ _ _ _ _ Hdo Hc).
  replace (with_msys (m_sys s) s) with s by by destruct s.
  pose proof (wake_step heap_sem bs (m_sys s) a (HSuspend a) Hd Hown ltac:(by left)) as Hw. unfold wp, Dynamic.kern in Hw.
  destruct (rt_ipc_list_resume_all (HSuspend a) (d_kst (m_sys s))) as [[[] k1]|] eqn:Er; [|done].
  destruct Hw as (Hd1 & Ho1 & _ & _ & Hall). pose proof Hall as (_ & _ & _ & Hl1 & _ & Hol1 & Hob1 & Hoth1 & Hin1 & Hout1 & _ & Hno1).
  destruct (mp_wake_resumes _ a (pool_part s) mp k1 Er Hmp) as (c & Hwake).
  assert (pools (wake_all a) s = Some (tt, mk_msys (mk_dsys k1 (d_heap (m_sys s)) (d_pool (m_sys s))) (m_errno s) (<[a := with_count c mp]> (m_mp s)))) as E.
  { apply pools_run. exact Hwake. }
  set (d1 := mk_dsys k1 _ _) in *.
  apply dwp_seq. unfold wp. rewrite E.
  apply dwp_seq. unfold wp, pools, get_mp, pool_part, put_pool. cbn [ps_mp m_mp]. rewrite lookup_insert_eq. cbn [ps_k ps_errno ps_mem m_sys m_errno].
  rewrite heap_memory_id. replace (mk_dsys (d_kst d1) (d_heap d1) (d_pool d1)) with d1 by done.
  assert (dynamic_object heap_sem bs d1 a RT_Object_Class_MemPool x) as Hdo1.
  { split; [done|by rewrite Hob1|done| |by intros cls; rewrite Hol1]. split; [by rewrite Hout1|by apply Hno1]. }
  apply dwp_bind, dwp_zoom. eapply dwp_mono; [apply (free_delete_run heap_sem bs d1 a _ x (mp_start_address mp) Hd1 Hdo1); [|done|done|]|].
  { apply (vacant_other a _ (m_sys s)); [done| |done]. intros Ea. rewrite Ea in Hv. pose proof (va_obj _ _ Hv). congruence. }
  { split; [done|]. by rewrite Hoth1. }
  intros [] d2 (bs' & Hd2 & Hv2 & Ho2 & Htwo & Ethr). apply dwp_seq. unfold wp, modify. apply dwp_ret.
  split; [done|]. cbn [m_mp m_sys with_msys]. split.
  { apply delete_insert_eq. }
  exists bs'.
  split_and!; [done|done|by eapply only_at_trans|done|].
  intros u Hu. rewrite Ethr, lookup_delete_ne; [by apply Hin1|]. intros ->. by eapply Hna.
Qed.
End deletion.

(** * The life of a pool *)

(** A block that was added is at an offset where there was none. *)
Lemma added_fresh heap_sem bs d o z bs' o' z' :
  dinv heap_sem bs d → SIZEOF_STRUCT_MEM < z → added bs o z bs' → used_at bs o' z' → o' ≠ o.
Proof.
  intros Hd Hz [_ Hap] Hu ->. destruct (block_range heap_sem bs d o z' Hd Hu) as [? _]. apply Hap in Hu. unfold SIZEOF_STRUCT_MEM in *. lia.
Qed.

(** A pool that was created and is deleted again leaves exactly the blocks of the heap
    allocated that were before: neither routine leaks memory, also when a creation fails
    halfway. *)
Theorem mp_create_delete heap_sem bs s name block_count block_size :
  dinv heap_sem bs (m_sys s) → 0 ≤ block_count → 0 ≤ block_size ≤ 2 ^ 32 - 8 → block_count * ((block_size + 3) / 4 * 4 + 4) ≤ 2 ^ 32 - 4 →
  dwp (a ⇐ rt_mp_create heap_sem name block_count block_size; if a =? 0 then dret RT_EOK else rt_mp_delete heap_sem a)
    (λ r s', r = RT_EOK ∧ ∃ bs', dinv heap_sem bs' (m_sys s') ∧ ∀ o z, used_at bs' o z ↔ used_at bs o z) s.
Proof.
  intros Hd Hn Hbs Hsz. apply dwp_bind. eapply dwp_mono; [by apply (rt_mp_create_spec heap_sem bs)|].
  intros a s1 [(-> & _ & bs' & Hd' & Hu & _)|(bs1 & bs2 & x & p & mp & Hb & Hty & Hone & Hone2 & Hv & Hok & Ep & _)].
  { apply dwp_ret. split; [done|]. by exists bs'. }
  pose proof (bu_fresh _ _ _ _ _ _ Hb) as [Ha0 _]. rewrite (proj2 (Z.eqb_neq _ _)) by done.
  destruct Hone as (o & z & Ea & Hz & Hadd), Hone2 as (op & zp & Epp & Hzp & Haddp). pose proof (bu_fixed _ _ _ _ _ _ Hb) as (Eptr & _).
  eapply dwp_mono; [eapply (rt_mp_delete_spec heap_sem bs2 s1 a x mp); [apply Hb|]|].
  { split.
    - split; try apply Hb. done.
    - apply (po_mp _ _ _ _ _ Hok).
    - by rewrite Ep.
    - exists op, zp. split; [|apply Haddp; by right]. rewrite Ep, Epp. unfold block_addr. by rewrite Eptr.
    - apply Hb. }
  intros r s2 (-> & _ & bs' & Hd' & _ & _ & (o1 & op1 & Ea1 & Ep1 & Hu) & _). split; [done|]. exists bs'. split; [done|].
  assert (o1 = o) as -> by (unfold block_addr in *; lia). assert (op1 = op) as -> by (unfold block_addr in *; lia).
  assert (0 < object_size RT_Object_Class_MemPool) by apply object_size_range.
  intros o' z'. rewrite Hu. destruct Haddp as [Haddp Happ]. rewrite Haddp, (proj1 Hadd). split; [tauto|]. intros Hu'.
  assert (o' ≠ o) by (apply (added_fresh heap_sem bs (m_sys s) o z bs1 o' z'); try done; lia). split_and!; [tauto|done|].
  intros ->. destruct (block_range heap_sem bs (m_sys s) op z' Hd Hu') as [? _]. destruct (Happ op z'); [apply Hadd; by left|..];
    unfold SIZEOF_STRUCT_MEM in *; [lia|]. assert (0 ≤ (block_size + 3) / 4) by (apply Z.div_pos; lia). nia.
Qed.

(** ** Examples *)

Definition pool_sys : msys := mk_msys dyn_sys 0 ∅.

(** A pool of four blocks of ten bytes takes two blocks of the heap, and its deletion
    frees both. *)
Example mp_create_runs : fst <$> (rt_mp_create 103 [112; 0] 4 10) pool_sys = Some (Done (0x20000000 + 288)).
Proof. vm_compute. reflexivity. Qed.

Example mp_create_delete_runs :
  (λ '(r, s), (r, h_used (d_heap (m_sys s)))) <$>
    (a ⇐ rt_mp_create 103 [112; 0] 4 10; rt_mp_delete 103 a) pool_sys = Some (Done RT_EOK, h_used (d_heap dyn_sys)).
Proof. vm_compute. reflexivity. Qed.

(** The size of the memory is computed modulo 2^32: a pool of two blocks of 2^31 + 4 bytes
    is created with sixteen bytes of memory for both, and the second block is far behind
    them. *)
Example mp_create_wraps :
  (λ '(r, s), (λ mp, (mp_size mp, mp_block_total_count mp)) <$> m_mp s !! (0x20000000 + 288)) <$> (rt_mp_create 103 [112; 0] 2 (2 ^ 31 + 4)) pool_sys
    = Some (Some (16, 2)).
Proof. vm_compute. reflexivity. Qed.

Lemma mp_create_delete_witness :
  dwp (a ⇐ rt_mp_create 103 [112; 0] 4 10; if a =? 0 then dret RT_EOK else rt_mp_delete 103 a)
    (λ r s', r = RT_EOK ∧ ∃ bs', dinv 103 bs' (m_sys s') ∧ ∀ o z, used_at bs' o z ↔ used_at dyn_blocks o z) pool_sys.
Proof. apply (mp_create_delete 103 dyn_blocks pool_sys); [apply dyn_dinv|lia|lia|vm_compute; discriminate]. Defined.
