(* ===== verification/Kalloc.v ===== *)
(** The aligned allocator of src/kservice.c: [rt_malloc_align] and [rt_free_align] on the
    heap of [Dynamic.v]. The address [rt_malloc] gave is kept in the word before the
    address the user gets. *)

From Stdlib Require Import ZArith Lia.
From stdpp Require Import base numbers option gmap.
From stdpp Require Import list.
From S2P Require Import Prelude.
From S2P Require Import Bytes.
From S2P Require Import Proc.
From S2P Require Import KernelDefs.
From S2P Require Import Mem.
From S2P Require Import Dynamic.
Local Open Scope Z_scope.
Local Open Scope rt_scope.

(** * Operations *)

Section kalloc.
Variable heap_sem : Z.

(** Words of the memory by address. *)
Definition peek (p : Z) : M dsys Z := gets (λ s, load 4 (heap_memory (d_heap s)) p).
Definition poke (p v : Z) : M dsys unit :=
  modify (λ s, mk_dsys (d_kst s) (with_memory (store 4 (heap_memory (d_heap s)) p v) (d_heap s)) (d_pool s)).

(** [(x + uintptr_size) & ~uintptr_size], where [uintptr_size] is three. *)
Definition word_up (x : Z) : Z := Z.land (u32 (x + 3)) (u32 (Z.lnot 3)).

(** The address for the user in the block at [ptr]. *)
Definition align_ptr (ptr align : Z) : Z :=
  if Z.land ptr (u32 (align - 1)) =? 0 then u32 (ptr + align)
  else Z.land (u32 (ptr + u32 (align - 1))) (u32 (Z.lnot (align - 1))).

Definition rt_malloc_align (size align : Z) : D Z :=
  let align := word_up align in
  let align_size := u32 (word_up size + align) in
  ptr ⇐ RT_KERNEL_MALLOC heap_sem align_size;
  if ptr =? 0 then dret 0
  else
    now (poke (u32 (align_ptr ptr align - 4)) ptr) ;;;
    dret (align_ptr ptr align).

Definition rt_free_align (ptr : Z) : D unit :=
  real_ptr ⇐ now (peek (u32 (ptr - 4)));
  RT_KERNEL_FREE heap_sem real_ptr.
End kalloc.

(** * The address *)

Lemma word_up_4 x : 0 ≤ x ≤ 2 ^ 32 - 4 → word_up x = (x + 3) / 4 * 4.
Proof. intros Hx. rewrite <- RT_ALIGN_4 by done. unfold word_up, RT_ALIGN. by replace (x + 4 - 1) with (x + 3) by lia. Qed.

(** For a power of two the address is a multiple of it, leaves room for a word in front,
    and is at most the alignment behind the block's. *)
Lemma align_ptr_spec ptr k :
  0 < ptr → ptr mod 4 = 0 → 2 ≤ k < 32 → ptr + 2 ^ k < 2 ^ 32 →
  align_ptr ptr (2 ^ k) mod 2 ^ k = 0 ∧ ptr + 4 ≤ align_ptr ptr (2 ^ k) ≤ ptr + 2 ^ k ∧ align_ptr ptr (2 ^ k) mod 4 = 0.
Proof.
  intros Hp H4 Hk Hmax. assert (0 < 2 ^ k) as Hpos by (apply Z.pow_pos_nonneg; lia).
  assert (2 ^ k = 4 * 2 ^ (k - 2)) as Ek by (change 4 with (2 ^ 2); rewrite <- Z.pow_add_r by lia; f_equal; lia).
  assert (0 < 2 ^ (k - 2)) as Hq by (apply Z.pow_pos_nonneg; lia).
  unfold align_ptr. rewrite (wrap_small 32 (2 ^ k - 1)) by lia.
  assert (Z.land ptr (2 ^ k - 1) = ptr mod 2 ^ k) as -> by (replace (2 ^ k - 1) with (Z.ones k) by (rewrite Z.ones_equiv; lia); apply Z.land_ones; lia).
  pose proof (Z.div_mod ptr (2 ^ k) ltac:(lia)) as Ed. pose proof (Z.mod_pos_bound ptr (2 ^ k) ltac:(lia)) as Hb.
  pose proof (Z.div_mod ptr 4 ltac:(lia)) as E4.
  destruct (Z.eqb_spec (ptr mod 2 ^ k) 0) as [E0|E0].
  - rewrite (wrap_small 32) by lia. split_and!; [|lia|lia|].
    + rewrite Z.add_mod, E0, Z.mod_same by lia. done.
    + rewrite Ek. replace (ptr + 4 * 2 ^ (k - 2)) with (ptr + 2 ^ (k - 2) * 4) by lia. by rewrite Z.mod_add.
  - rewrite (wrap_small 32) by lia. fold (RT_ALIGN_DOWN (ptr + (2 ^ k - 1)) (2 ^ k)). rewrite RT_ALIGN_DOWN_pow by lia.
    assert ((ptr + (2 ^ k - 1)) / 2 ^ k = ptr / 2 ^ k + 1) as ->.
    { symmetry. apply (Z.div_unique _ _ _ (ptr mod 2 ^ k - 1)); lia. }
    assert (ptr mod 2 ^ k = 4 * (ptr / 4 - ptr / 2 ^ k * 2 ^ (k - 2))) as Em by lia.
    split_and!; [by rewrite Z.mod_mul by lia|lia|lia|].
    rewrite Ek at 2. rewrite Z.mul_assoc, (Z.mul_comm _ 4), <- Z.mul_assoc, Z.mul_comm. by rewrite Z.mod_mul.
Qed.

(** * Allocation and release *)

Section spec.
Context (heap_sem : Z).

(** The user's [size] bytes at [q] are in the allocated block at [p], behind a word that
    holds the address of the block. *)
Record user_block (bs : list block) (s : dsys) (q size p : Z) : Prop := {
  ub_word : load 4 (heap_memory (d_heap s)) (q - 4) = p;
  ub_block : ∃ o z, p = block_addr (d_heap s) o ∧ used_at bs o z ∧ p + 4 ≤ q ∧ q + size ≤ p + (z - SIZEOF_STRUCT_MEM);
  ub_vacant : vacant p s
}.

(** [rt_malloc_align] returns a multiple of the alignment with room for [size] bytes in
    a new block, or [RT_NULL] with nothing changed. *)
Theorem rt_malloc_align_spec bs s size k :
  dinv heap_sem bs s → 0 ≤ size → 2 ≤ k < 32 → (size + 3) / 4 * 4 + 2 ^ k ≤ 2 ^ 32 - 4 →
  dwp (rt_malloc_align heap_sem size (2 ^ k)) (λ q s', (q = 0 ∧ s' = s) ∨ (q ≠ 0 ∧ q mod 2 ^ k = 0 ∧ ∃ bs' p h',
    s' = mk_dsys (d_kst s) h' (d_pool s) ∧ fixed (d_heap s) h' ∧ dinv heap_sem bs' s' ∧
    one_more bs s p ((size + 3) / 4 * 4 + 2 ^ k) bs' ∧ user_block bs' s' q size p)) s.
Proof.
  intros Hd Hs Hk Hmax. destruct (align_facts size Hs) as [_ Hup]. set (n := (size + 3) / 4 * 4) in *.
  assert (0 < 2 ^ k) as Hpos by (apply Z.pow_pos_nonneg; lia).
  assert (word_up (2 ^ k) = 2 ^ k) as Ek.
  { rewrite word_up_4 by lia. replace k with (2 + (k - 2)) by lia. rewrite Z.pow_add_r by lia. change (2 ^ 2) with 4.
    rewrite (Z.mul_comm 4), Z.div_add_l by lia. change (3 / 4) with 0. lia. }
  unfold rt_malloc_align. rewrite Ek. rewrite word_up_4 by lia. fold n. cbv zeta. rewrite (wrap_small 32 (n + _)) by lia.
  apply dwp_bind. eapply dwp_mono; [apply (malloc_step heap_sem bs s (n + 2 ^ k) Hd); lia|].
  intros p s1 [[-> ->]|(Hp & _ & bs' & h' & -> & Hd1 & Hone & Hv & Hfx)]; [apply dwp_ret; by left|].
  rewrite (proj2 (Z.eqb_neq _ _)) by done. pose proof Hone as (o & z & Ep & Hz & Hadd). set (s1 := mk_dsys _ h' _) in *.
  assert (used_at bs' o z) as Hu by (apply Hadd; by right).
  assert (p = block_addr (d_heap s1) o) as Ep1 by (rewrite Ep; unfold block_addr; by rewrite <- (proj1 Hfx)).
  destruct (block_range heap_sem bs' s1 o z Hd1 Hu) as (Hz1 & P1 & P2). rewrite <- Ep1 in P1, P2.
  pose proof (block_aligned heap_sem bs' s1 o z Hd1 Hu) as Hp4. rewrite <- Ep1 in Hp4.
  destruct (align_ptr_spec p k P1 Hp4 Hk ltac:(lia)) as (Hq & Hr & _). set (q := align_ptr p (2 ^ k)) in *.
  rewrite (wrap_small 32 (q - 4)) by lia. apply dwp_seq. unfold wp, poke, modify. apply dwp_ret. right.
  split; [lia|]. split; [done|]. eexists bs', p, _. split; [done|]. split; [exact Hfx|].
  assert (dinv heap_sem bs' (mk_dsys (d_kst s1) (with_memory (store 4 (heap_memory (d_heap s1)) (q - 4) p) (d_heap s1)) (d_pool s1))) as Hd2.
  { apply (dinv_memory heap_sem bs' s1 o z); [done|done|]. intros i Hi. rewrite <- Ep1 in Hi. apply store_outside. lia. }
  split; [exact Hd2|]. split; [done|]. split.
  - cbn [d_heap]. rewrite heap_memory_with. apply load_store_same. change (256 ^ Z.of_nat 4) with (2 ^ 32). lia.
  - exists o, z. split; [exact Ep1|]. split; [done|]. lia.
  - by destruct Hv.
Qed.

(** [rt_free_align] gives the block back that the memory was cut from. *)
Theorem rt_free_align_spec bs s q size p :
  dinv heap_sem bs s → 0 ≤ size → user_block bs s q size p →
  dwp (rt_free_align heap_sem q) (λ _ s', ∃ bs' h' o, s' = mk_dsys (d_kst s) h' (d_pool s) ∧ dinv heap_sem bs' s' ∧
    p = block_addr (d_heap s) o ∧ removed bs o bs') s.
Proof.
  intros Hd Hs [Hw (o & z & Ep & Hu & Hq & Hend) Hv]. destruct (block_range heap_sem bs s o z Hd Hu) as (Hz & P1 & P2). rewrite <- Ep in P1, P2.
  unfold rt_free_align. apply dwp_seq. unfold wp, peek, gets. rewrite (wrap_small 32) by lia. rewrite Hw, Ep.
  eapply dwp_mono; [apply (free_step heap_sem bs s o z Hd Hu); by rewrite <- Ep|].
  intros [] s' (bs' & h' & -> & Hd' & Hrm & _). by exists bs', h', o.
Qed.

(** Memory that is got, used in any way within its size and released leaves exactly the
    blocks allocated that were before. *)
Theorem malloc_free_align bs s size k (use : Z → memory → memory) :
  dinv heap_sem bs s → 0 ≤ size → 2 ≤ k < 32 → (size + 3) / 4 * 4 + 2 ^ k ≤ 2 ^ 32 - 4 →
  (∀ q m i, i < q ∨ q + size ≤ i → use q m i = m i) →
  dwp (q ⇐ rt_malloc_align heap_sem size (2 ^ k);
       if q =? 0 then dret tt
       else now (modify (λ s, mk_dsys (d_kst s) (with_memory (use q (heap_memory (d_heap s))) (d_heap s)) (d_pool s))) ;;;
         rt_free_align heap_sem q)
    (λ _ s', ∃ bs' h', s' = mk_dsys (d_kst s) h' (d_pool s) ∧ dinv heap_sem bs' s' ∧ ∀ o z, used_at bs' o z ↔ used_at bs o z) s.
Proof.
  intros Hd Hs Hk Hmax Huse. apply dwp_bind. eapply dwp_mono; [by apply (rt_malloc_align_spec bs)|].
  intros q s1 [[-> ->]|(Hq0 & _ & bs' & p & h' & -> & Hfx & Hd1 & Hone & [Hw (o & z & Ep & Hu & Hq & Hend) Hv])].
  { apply dwp_ret. exists bs, (d_heap s). split; [by destruct s|done]. }
  rewrite (proj2 (Z.eqb_neq _ _)) by done. apply dwp_seq. unfold wp, modify. cbn [d_kst d_heap d_pool] in *.
  set (s2 := mk_dsys (d_kst s) (with_memory _ h') _).
  assert (dinv heap_sem bs' s2) as Hd2.
  { apply (dinv_memory heap_sem bs' (mk_dsys (d_kst s) h' (d_pool s)) o z); [done|done|].
    cbn [d_heap]. intros i Hi. rewrite <- Ep in Hi. apply Huse. lia. }
  eapply dwp_mono; [apply (rt_free_align_spec bs' s2 q size p Hd2 Hs)|].
  - split.
    + cbn [s2 d_heap]. rewrite heap_memory_with. rewrite <- Hw. apply load_ext. intros i Hi. apply Huse. lia.
    + by exists o, z.
    + by destruct Hv.
  - intros _ s3 (bs3 & h3 & o3 & -> & Hd3 & Ep3 & Hrm). exists bs3, h3. split; [done|]. split; [done|].
    destruct Hone as (o1 & z1 & Ep1 & Hz1 & Hadd). assert (o1 = o) as -> by (unfold block_addr in *; rewrite (proj1 Hfx) in *; lia).
    assert (o3 = o) as -> by (unfold block_addr in *; cbn in Ep3; lia).
    intros o' z'. unfold removed in Hrm. rewrite Hrm, (proj1 Hadd). split; [intros [[?|[-> _]] ?]; done|]. intros Hu'. split; [by left|].
    intros ->. destruct (block_range heap_sem bs s o z' Hd Hu') as [? _]. destruct Hadd as [_ Hap]. apply Hap in Hu'.
    assert (0 < 2 ^ k) by (apply Z.pow_pos_nonneg; lia). destruct (align_facts size Hs). unfold SIZEOF_STRUCT_MEM in *. lia.
Qed.
End spec.

(** ** Examples *)

Example malloc_align_runs : fst <$> rt_malloc_align 103 20 64 dyn_sys = Some (Done (0x20000000 + 320)).
Proof. vm_compute. reflexivity. Qed.

(** Without an alignment the address computed is zero: the word before it is written far
    outside the heap, and the block is lost. *)
Example malloc_align_zero :
  (λ '(r, s), (r, h_used (d_heap s) - h_used (d_heap dyn_sys), load 4 (heap_memory (d_heap s)) (2 ^ 32 - 4))) <$> rt_malloc_align 103 20 0 dyn_sys
    = Some (Done 0, 32, 0x20000000 + 288).
Proof. vm_compute. reflexivity. Qed.

Lemma malloc_free_align_witness :
  dwp (q ⇐ rt_malloc_align 103 20 64;
       if q =? 0 then dret tt
       else now (modify (λ s, mk_dsys (d_kst s) (with_memory (store 4 (heap_memory (d_heap s)) q 7) (d_heap s)) (d_pool s))) ;;; rt_free_align 103 q)
    (λ _ s', ∃ bs' h', s' = mk_dsys (d_kst dyn_sys) h' (d_pool dyn_sys) ∧ dinv 103 bs' s' ∧ ∀ o z, used_at bs' o z ↔ used_at dyn_blocks o z) dyn_sys.
Proof.
  apply (malloc_free_align 103 dyn_blocks dyn_sys 20 6 (λ q m, store 4 m q 7)); [apply dyn_dinv|lia|lia|vm_compute; discriminate|].
  intros q m i Hi. apply store_outside. lia.
Defined.
