(* ===== verification/Workqueue.v ===== *)
(** Work queues, components/drivers/src/workqueue.c: a thread of its own runs the functions
    that other threads submit, at once or after a delay.

    A queue and a work are named by their address. The doubly linked list of a queue is the
    sequence of the works linked to it; a work whose node is linked nowhere is in no
    sequence. *)

From Stdlib Require Import ZArith Lia.
From stdpp Require Import base numbers option gmap.
From stdpp Require Import list.
From S2P Require Import Prelude.
From S2P Require Import Proc.
From S2P Require Import KernelDefs.
From S2P Require Import Scheduler.
From S2P Require Import Object.
From S2P Require Import Timer.
From S2P Require Import Thread.
From S2P Require Import Clock.
From S2P Require Import Ipc.
From S2P Require Import Sem.
From S2P Require Import Mem.
From S2P Require Import Dynamic.
From S2P Require Import Kstate.
Local Open Scope Z_scope.
Local Open Scope rt_scope.

(** * State *)

Definition RT_WORK_STATE_PENDING : Z := 0x0001.
Definition RT_WORK_STATE_SUBMITTING : Z := 0x0002.
Definition RT_WORK_TYPE_DELAYED : Z := 0x0001.

(** [struct rt_workqueue] without its semaphore; null pointers are 0. *)
Record rt_workqueue := mk_wq { wq_work_list : list Z; wq_work_current : Z; wq_work_thread : Z }.

(** [struct rt_work]; [wk_workqueue] is the field of [struct rt_delayed_work]. *)
Record rt_work := mk_work { wk_work_func : Z; wk_work_data : Z; wk_flags : Z; wk_type : Z; wk_workqueue : Z }.

(** [&(queue->sem)] and [&(work->timer)] *)
Definition wq_sem (q : Z) : Z := q + 12.
Definition wk_timer (w : Z) : oid := Obj (w + 20).

(** The kernel with the heap, the global error number, and the queues and works. *)
Record wst := mk_wst {
  ws_sys : dsys;
  ws_errno : Z;
  ws_queues : gmap Z rt_workqueue;
  ws_works : gmap Z rt_work
}.

Abbreviation WM := (M wst).

Definition with_sys (d : dsys) (s : wst) : wst := mk_wst d (ws_errno s) (ws_queues s) (ws_works s).

#[export] Instance wst_kernel : KernelState wst := {|
  st_k s := d_kst (ws_sys s);
  with_k k s := with_sys (mk_dsys k (d_heap (ws_sys s)) (d_pool (ws_sys s))) s;
  st_errno := ws_errno;
  with_errno e s := mk_wst (ws_sys s) e (ws_queues s) (ws_works s)
|}.
#[export] Instance wst_laws : KernelLaws wst.
Proof. by split; [..|intros [[] ???]]. Qed.

Definition get_queue (q : Z) : WM rt_workqueue := λ s, match ws_queues s !! q with Some x => Some (x, s) | None => None end.
Definition put_queue (q : Z) (x : rt_workqueue) : WM unit :=
  modify (λ s, mk_wst (ws_sys s) (ws_errno s) (<[q := x]> (ws_queues s)) (ws_works s)).
Definition get_work (w : Z) : WM rt_work := λ s, match ws_works s !! w with Some x => Some (x, s) | None => None end.
Definition put_work (w : Z) (x : rt_work) : WM unit :=
  modify (λ s, mk_wst (ws_sys s) (ws_errno s) (ws_queues s) (<[w := x]> (ws_works s))).

Definition with_current (w : Z) (x : rt_workqueue) : rt_workqueue := mk_wq (wq_work_list x) w (wq_work_thread x).
Definition with_flags (f : Z) (x : rt_work) : rt_work := mk_work (wk_work_func x) (wk_work_data x) f (wk_type x) (wk_workqueue x).
Definition with_queue (q : Z) (x : rt_work) : rt_work := mk_work (wk_work_func x) (wk_work_data x) (wk_flags x) (wk_type x) q.

(** [work->flags |= f] and [work->flags &= ~f] *)
Definition work_flag_set (f w : Z) : WM unit := x ← get_work w; put_work w (with_flags (u16 (Z.lor (wk_flags x) f)) x).
Definition work_flag_clear (f w : Z) : WM unit := x ← get_work w; put_work w (with_flags (u16 (Z.land (wk_flags x) (Z.lnot f))) x).

(** [rt_list_remove(&(work->list))]: the node leaves the list it is in, if any. *)
Definition drop_work (w : Z) (x : rt_workqueue) : rt_workqueue :=
  mk_wq (filter (λ v, v ≠ w) (wq_work_list x)) (wq_work_current x) (wq_work_thread x).
Definition list_remove (w : Z) : WM unit :=
  _ ← get_work w;
  modify (λ s, mk_wst (ws_sys s) (ws_errno s) (drop_work w <$> ws_queues s) (ws_works s)).

(** [rt_list_insert_after(queue->work_list.prev, &(work->list))] *)
Definition list_append (q w : Z) : WM unit :=
  x ← get_queue q; put_queue q (mk_wq (wq_work_list x ++ [w]) (wq_work_current x) (wq_work_thread x)).

(** * Works *)

(** [memory] is what the memory holds in the field [workqueue], which is not set here. *)
Definition rt_work_init (w work_func work_data memory : Z) : WM unit :=
  put_work w (mk_work work_func work_data 0 0 memory).

Definition rt_delayed_work_init (w work_func work_data memory : Z) : WM unit :=
  rt_work_init w work_func work_data memory ;;
  x ← get_work w;
  put_work w (mk_work (wk_work_func x) (wk_work_data x) (wk_flags x) RT_WORK_TYPE_DELAYED (wk_workqueue x)).

(** * The thread of a queue *)

(** The loop of [_workqueue_work_completion]. *)
Fixpoint completion_loop (fuel : nat) (sem : Z) : K Z :=
  match fuel with
  | O => λ _, None
  | S fuel =>
      r ← rt_sem_trytake sem;
      match r with
      | Returned result =>
          if result =? - RT_ETIMEOUT then rt_sem_release sem ;; completion_loop fuel sem
          else if result =? RT_EOK then ret RT_EOK
          else ret (- RT_ERROR)
      | Blocked _ => λ _, None
      end
  end.

(** One round for each waiting thread, and two more. *)
Definition _workqueue_work_completion (q : Z) : WM Z :=
  kern rt_enter_critical ;;
  fuel ← kern (gets (λ k, (length (tlist (k_tl k) (HSuspend (wq_sem q))) + 2)%nat));
  result ← kern (completion_loop fuel (wq_sem q));
  kern rt_exit_critical ;;
  ret result.

(** The round of [_workqueue_thread_entry]: the test, the sleep, the work that is taken from
    the list, and what follows its function. *)
Definition worker_idle (q : Z) : WM bool := x ← get_queue q; ret (bool_decide (wq_work_list x = [])).

Definition worker_sleep : WM Z :=
  t ← kern self;
  kern (rt_thread_suspend t) ;;
  kern rt_schedule ;;
  ret t.

Definition worker_take (q : Z) : WM (Z * rt_work) :=
  x ← get_queue q;
  match wq_work_list x with
  | [] => λ _, None
  | w :: _ =>
      list_remove w ;;
      x ← get_queue q;
      put_queue q (with_current w x) ;;
      work_flag_clear RT_WORK_STATE_PENDING w ;;
      y ← get_work w;
      ret (w, y)
  end.

Definition worker_done (q : Z) : WM Z :=
  x ← get_queue q;
  put_queue q (with_current 0 x) ;;
  _workqueue_work_completion q.

(** A thread that slept continues with [worker_work]. *)
Section worker.
(** [work_func(work, work_data)] *)
Variable call : Z → Z → Z → WM unit.

Definition worker_work (q : Z) : WM unit :=
  p ← worker_take q;
  let '(w, x) := p in
  call (wk_work_func x) w (wk_work_data x) ;;
  worker_done q ;;
  ret tt.

Definition _workqueue_thread_entry (q : Z) : WM (outcome unit Z) :=
  assert (nz q) ;;
  b ← worker_idle q;
  if b : bool then t ← worker_sleep; ret (Blocked t)
  else worker_work q ;; ret (Returned tt).
End worker.

(** * Submitting *)

(** [rt_thread_resume(queue->work_thread); rt_schedule()] *)
Definition wake_worker (q : Z) : WM unit :=
  x ← get_queue q;
  kern (rt_thread_resume (wq_work_thread x)) ;;
  kern rt_schedule.

Definition _workqueue_submit_work (q w : Z) : WM Z :=
  y ← get_work w;
  if nz (Z.land (wk_flags y) RT_WORK_STATE_PENDING) then ret (- RT_EBUSY)
  else
    x ← get_queue q;
    if wq_work_current x =? w then ret (- RT_EBUSY)
    else
      list_remove w ;;
      list_append q w ;;
      work_flag_set RT_WORK_STATE_PENDING w ;;
      (if wq_work_current x =? 0 then wake_worker q else ret tt) ;;
      ret RT_EOK.

Definition rt_workqueue_dowork (q w : Z) : WM Z :=
  assert (nz q) ;; assert (nz w) ;; _workqueue_submit_work q w.

Definition rt_workqueue_critical_work (q w : Z) : WM Z :=
  assert (nz q) ;; assert (nz w) ;;
  x ← get_queue q;
  if wq_work_current x =? w then ret (- RT_EBUSY)
  else
    list_remove w ;;
    list_append q w ;;
    (if wq_work_current x =? 0 then wake_worker q else ret tt) ;;
    ret RT_EOK.

(** * Cancelling *)

Definition _workqueue_cancel_work (q w : Z) : WM Z :=
  x ← get_queue q;
  if wq_work_current x =? w then ret (- RT_EBUSY)
  else
    list_remove w ;;
    work_flag_clear RT_WORK_STATE_PENDING w ;;
    ret RT_EOK.

(** The number of the C library, not [RT_EINVAL]. *)
Definition EINVAL : Z := 22.

(** [_workqueue_cancel_delayed_work] and [rt_workqueue_cancel_work] call each other; the
    fuel is the depth of the calls. *)
Fixpoint _workqueue_cancel_delayed_work (fuel : nat) (w : Z) : WM Z :=
  match fuel with
  | O => λ _, None
  | S fuel =>
      y ← get_work w;
      if wk_workqueue y =? 0 then ret (- EINVAL)
      else
        e ← (if nz (Z.land (wk_flags y) RT_WORK_STATE_PENDING) then
               assert (nz w) ;;
               if nz (Z.land (wk_type y) RT_WORK_TYPE_DELAYED) then _workqueue_cancel_delayed_work fuel w
               else _workqueue_cancel_work (wk_workqueue y) w
             else
               (if nz (Z.land (wk_flags y) RT_WORK_STATE_SUBMITTING) then
                  kern (rt_timer_stop (wk_timer w)) ;;
                  kern (rt_timer_detach (wk_timer w)) ;;
                  work_flag_clear RT_WORK_STATE_SUBMITTING w
                else ret tt) ;;
               ret RT_EOK);
        if nz e then ret e
        else
          y ← get_work w;
          put_work w (with_queue 0 y) ;;
          work_flag_clear RT_WORK_STATE_PENDING w ;;
          ret e
  end.

Definition rt_workqueue_cancel_work (fuel : nat) (q w : Z) : WM Z :=
  assert (nz q) ;; assert (nz w) ;;
  y ← get_work w;
  if nz (Z.land (wk_type y) RT_WORK_TYPE_DELAYED) then _workqueue_cancel_delayed_work fuel w
  else _workqueue_cancel_work q w.

(** A caller that waits continues with [cancel_sync_resume]. *)
Definition cancel_sync_resume (w : Z) : WM Z := work_flag_clear RT_WORK_STATE_PENDING w ;; ret RT_EOK.

Definition rt_workqueue_cancel_work_sync (q w : Z) : WM (outcome Z Z) :=
  assert (nz q) ;; assert (nz w) ;;
  x ← get_queue q;
  if wq_work_current x =? w then
    r ← kern (rt_sem_take (wq_sem q) RT_WAITING_FOREVER);
    match r with
    | Blocked t => ret (Blocked t)
    | Returned _ => e ← cancel_sync_resume w; ret (Returned e)
    end
  else list_remove w ;; e ← cancel_sync_resume w; ret (Returned e).

(** The loop takes the nodes out one by one. *)
Fixpoint cancel_loop (l : list Z) : WM unit :=
  match l with
  | [] => ret tt
  | w :: l => list_remove w ;; cancel_loop l
  end.
Definition rt_workqueue_cancel_all_work (q : Z) : WM Z :=
  assert (nz q) ;;
  kern rt_enter_critical ;;
  x ← get_queue q;
  cancel_loop (wq_work_list x) ;;
  kern rt_exit_critical ;;
  ret RT_EOK.

(** * Delayed works *)

Definition RT_TIMER_FLAG_SOFT_TIMER : Z := 0x4.
Definition WORK_NAME : list Z := [119; 111; 114; 107].

Section delayed.
(** The address of [_delayed_work_timeout_handler]. *)
Variable timeout_handler : Z.

Definition _workqueue_submit_delayed_work (fuel : nat) (q w ticks : Z) : WM Z :=
  y ← get_work w;
  if nz (wk_workqueue y) && negb (wk_workqueue y =? q) then ret (- RT_EINVAL)
  else
    e ← (if wk_workqueue y =? q then _workqueue_cancel_delayed_work fuel w else ret RT_EOK);
    if e <? 0 then ret e
    else
      y ← get_work w;
      put_work w (with_queue q y) ;;
      (if ticks =? 0 then _workqueue_submit_work q w ;; ret tt
       else
         work_flag_set RT_WORK_STATE_SUBMITTING w ;;
         kern (rt_timer_init (wk_timer w) WORK_NAME (user_fn timeout_handler w) ticks
                 (Z.lor RT_TIMER_FLAG_ONE_SHOT RT_TIMER_FLAG_SOFT_TIMER)) ;;
         kern (rt_timer_start (wk_timer w)) ;;
         ret tt) ;;
      ret e.

Definition _delayed_work_timeout_handler (w : Z) : WM unit :=
  kern (rt_timer_stop (wk_timer w)) ;;
  kern (rt_timer_detach (wk_timer w)) ;;
  work_flag_clear RT_WORK_STATE_SUBMITTING w ;;
  y ← get_work w;
  _workqueue_submit_work (wk_workqueue y) w ;;
  ret tt.

Definition rt_workqueue_submit_work (fuel : nat) (q w time : Z) : WM Z :=
  assert (nz q) ;; assert (nz w) ;;
  y ← get_work w;
  if nz (Z.land (wk_type y) RT_WORK_TYPE_DELAYED) then _workqueue_submit_delayed_work fuel q w time
  else _workqueue_submit_work q w.
End delayed.

(** * Creating and destroying a queue *)

Definition WQUEUE_NAME : list Z := [119; 113; 117; 101; 117; 101].
(** [sizeof(struct rt_workqueue)] *)
Definition SIZEOF_WORKQUEUE : Z := 8 + 4 + 32 + 4.

Section create.
Variable heap_sem : Z.
(** The address of [_workqueue_thread_entry]. *)
Variable entry : Z.

Definition sys {A} : D A → M wst (proc wst A) := zoom ws_sys with_sys.

(** The memory at [q] is no queue any more. *)
Definition forget_queue (q : Z) : WM unit :=
  modify (λ s, mk_wst (ws_sys s) (ws_errno s) (delete q (ws_queues s)) (ws_works s)).

Definition rt_workqueue_create (name : list Z) (stack_size priority : Z) : M wst (proc wst Z) :=
  queue ⇐ sys (RT_KERNEL_MALLOC heap_sem SIZEOF_WORKQUEUE);
  if queue =? 0 then dret 0
  else
    now (put_queue queue (mk_wq [] 0 0)) ;;;
    now (kern (rt_sem_init (wq_sem queue) WQUEUE_NAME 0 RT_IPC_FLAG_FIFO)) ;;;
    work_thread ⇐ sys (rt_thread_create heap_sem name entry queue stack_size priority 10);
    if work_thread =? 0 then
      sys (RT_KERNEL_FREE heap_sem queue) ;;;
      now (forget_queue queue) ;;;
      dret 0
    else
      now (x ← get_queue queue; put_queue queue (mk_wq (wq_work_list x) (wq_work_current x) work_thread)) ;;;
      now (kern (rt_thread_startup work_thread)) ;;;
      dret queue.

Definition rt_workqueue_destroy (q : Z) : M wst (proc wst Z) :=
  now (assert (nz q)) ;;;
  x ⇐ now (get_queue q);
  now (kern (rt_thread_delete (wq_work_thread x))) ;;;
  sys (RT_KERNEL_FREE heap_sem q) ;;;
  now (forget_queue q) ;;;
  dret RT_EOK.
End create.
