(* ===== verification/WorkqueueSpec.v ===== *)
(** Work queues: what the operations of [Workqueue.v] do, the FIFO queues they implement, and
    how the end of a work is announced. *)

From Stdlib Require Import ZArith Lia.
From stdpp Require Import base numbers option gmap.
From stdpp Require Import list.
From S2P Require Import Prelude.
From S2P Require Import Proc.
From S2P Require Import KernelDefs.
From S2P Require Import Scheduler.
From S2P Require Import Object.
From S2P Require Import Timer.
From S2P Require Import Thread.
From S2P Require Import Clock.
From S2P Require Import Ipc.
From S2P Require Import Sem.
From S2P Require Import Mem.
From S2P Require Import Dynamic.
From S2P Require Import Kstate.
From S2P Require Import Workqueue.
Local Open Scope Z_scope.
Local Open Scope rt_scope.

(** * Completion *)

Definition sem_to (a v : Z) (k : kst) : kst := upd_ipc (λ i, set_sem (<[a := mk_sem v]> (ip_sem i)) i) k.

Lemma sem_ok_to a k v v' x : sem_ok a k v x → 0 ≤ v' < 2 ^ 16 → tlist (k_tl k) (HSuspend a) = [] → sem_ok a (sem_to a v' k) v' x.
Proof. intros (Hx & _ & _ & _) Hv Hl. refine (conj Hx (conj _ (conj Hv (λ _, Hl)))). cbn. by rewrite lookup_insert_eq. Qed.

Lemma trytake_run k a v x :
  sem_ok a k v x → rt_sem_trytake a k = Some (if 0 <? v then (Returned RT_EOK, sem_to a (v - 1) k) else (Returned (- RT_ETIMEOUT), k)).
Proof.
  intros ((Hx & Hty & _) & Hv & Hr & _). unfold rt_sem_trytake, rt_sem_take, bind at 1. rewrite (assert_type_run k (Obj a) x) by done.
  unfold bind at 1. rewrite (get_sem_run k a v) by done. cbn [sem_value]. destruct (Z.ltb_spec 0 v); [|done].
  unfold bind, put_sem, modify, ret. rewrite (wrap_small 16) by lia. done.
Qed.

Lemma release_idle_run k a v x :
  sem_ok a k v x → v < 2 ^ 16 - 1 → tlist (k_tl k) (HSuspend a) = [] → rt_sem_release a k = Some (RT_EOK, sem_to a (v + 1) k).
Proof.
  intros ((Hx & Hty & _) & Hv & Hr & _) Hm El. unfold rt_sem_release, bind at 1. rewrite (assert_type_run k (Obj a) x) by done.
  unfold bind at 1, gets at 1. rewrite El, decide_False by tauto. unfold bind. rewrite (get_sem_run k a v) by done.
  unfold put_sem, modify, ret. cbn [sem_value]. rewrite (wrap_small 16) by lia. done.
Qed.

(** ** What the kernel keeps *)

Definition live (k : kst) (t : Z) : Prop := ∃ th, k_thr k !! t = Some th ∧ stat_of th ≠ RT_THREAD_CLOSE.

(** Threads were switched or woken, nothing else. *)
Record steady (k k' : kst) : Prop := {
  cm_inv : kinv k';
  cm_obj a : k_obj k' !! Obj a = k_obj k !! Obj a;
  cm_nest : sc_lock_nest (k_sched k') = sc_lock_nest (k_sched k);
  cm_live t : live k t → live k' t;
  cm_lists h : is_wait h → tlist (k_tl k) h = [] → tlist (k_tl k') h = []
}.

Lemma steady_trans k1 k2 k3 : steady k1 k2 → steady k2 k3 → steady k1 k3.
Proof. intros [H1 H2 H3 H4 H5] [G1 G2 G3 G4 G5]. split; [done|intros a; by rewrite G2|congruence|auto|auto]. Qed.

Lemma stat_moves_error a b : stat_moves a b → th_error b = th_error a.
Proof. by intros [->|(_ & st & _ & ->)]. Qed.
Lemma stat_moves_active a b : stat_moves a b → active a → active b.
Proof. intros [->|(_ & st & Hst & ->)]; [done|]. intros _. by apply active_set_stat. Qed.
Lemma active_open th : active th → stat_of th ≠ RT_THREAD_CLOSE.
Proof. intros [->| ->]; stat_lia. Qed.
Lemma stat_moves_open a b : stat_moves a b → stat_of a ≠ RT_THREAD_CLOSE → stat_of b ≠ RT_THREAD_CLOSE.
Proof. intros [->|[_ ?]]%stat_moves_stat; [done|]. intros _. by apply active_open. Qed.

Lemma steady_schedule k :
  kinv k → ∃ k', rt_schedule k = Some (tt, k') ∧ steady k k' ∧ k_ipc k' = k_ipc k ∧ moved (k_sched k) (k_sched k').
Proof.
  intros [HI Hw]. destruct (schedule_kinv0 k HI) as (c' & R & Hd & HI'). pose proof (scheduled_moved _ _ (ki_sched _ HI) Hd) as Hm.
  eexists. split; [exact R|]. split_and!; [|done|done]. split; [by split|done|by apply scheduled_nests| |].
  - intros t (th & Ht & Hs). destruct (moved_lookup_inv _ _ _ _ Hm Ht) as (th' & Ht' & Hmv). exists th'. split; [done|by eapply stat_moves_open].
  - intros h Hh El. unfold k_tl. cbn. by rewrite (scheduled_waiting _ _ h (ki_sched _ HI) Hd) by (intros q; by apply is_wait_not_ready).
Qed.

(** [rt_thread_resume(t); rt_schedule()]: a sleeping thread wakes up. *)
Lemma steady_wake k t th :
  kinv k → k_thr k !! t = Some th → stat_of th ≠ RT_THREAD_CLOSE →
  ∃ r k1 k', rt_thread_resume t k = Some (r, k1) ∧ rt_schedule k1 = Some (tt, k') ∧ steady k k' ∧ k_ipc k' = k_ipc k ∧
    (stat_of th = RT_THREAD_SUSPEND → ∃ th', k_thr k' !! t = Some th' ∧ active th').
Proof.
  intros HI Ht Hs. destruct (decide (stat_of th = RT_THREAD_SUSPEND)) as [E|E].
  - pose proof (resume_run k t th HI Ht E) as R. pose proof (kinv_wake k t th HI Ht E) as HI1. destruct (wake_st_sched_fields k t th) as (Hc & Hn & Hip & Hthr).
    set (k1 := wake_st t th k) in *. destruct (steady_schedule k1 HI1) as (k2 & R2 & Hca & Hip2 & Hm).
    set (st := if decide (k_cur k = Some t) then RT_THREAD_RUNNING else RT_THREAD_READY) in *.
    assert (st = RT_THREAD_READY ∨ st = RT_THREAD_RUNNING) as Hst by (unfold st; case_decide; auto).
    assert (k_thr k1 !! t = Some (set_stat st th)) as Ht1 by (by rewrite Hthr, lookup_insert_eq).
    exists RT_EOK, k1, k2. split_and!; [done|done| |congruence|].
    + eapply steady_trans; [|exact Hca]. split; [done| |done| |].
      * intros a. by apply (stop_st_objects (ThreadTimer t) k).
      * intros u (uh & Hu & Hus). destruct (decide (u = t)) as [->|Hne].
        -- eexists. split; [exact Ht1|]. apply active_open. by apply active_set_stat.
        -- exists uh. by rewrite Hthr, lookup_insert_ne.
      * intros h Hh El. unfold k1. by rewrite wake_st_tlist, El.
    + intros _. destruct (moved_lookup_inv _ _ _ _ Hm Ht1) as (th' & Ht' & Hmv). exists th'. split; [done|]. eapply stat_moves_active; [exact Hmv|by apply active_set_stat].
  - destruct (steady_schedule k HI) as (k2 & R2 & Hca & Hip2 & Hm). exists (- RT_ERROR), k, k2. split_and!; [|done|done|done|done].
    unfold rt_thread_resume, bind. rewrite (assert_thread_run k t _ _ (kinv_objs k t th HI Ht Hs)) by done. unfold get_thread. rewrite Ht. by rewrite (proj2 (Z.eqb_neq _ _) E).
Qed.

(** ** The loop *)

(** A thread runs on, or may, with the result it had. *)
Definition woken_up (k k' : kst) (t : Z) : Prop :=
  ∃ th th', k_thr k !! t = Some th ∧ k_thr k' !! t = Some th' ∧ active th' ∧ th_error th' = th_error th.

(** The other threads keep their control blocks, but for switches. *)
Definition undisturbed (l : list Z) (k k' : kst) : Prop :=
  ∀ u uh, u ∉ l → k_thr k !! u = Some uh → ∃ uh', k_thr k' !! u = Some uh' ∧ stat_moves uh uh'.

(** All of [l] waited at the semaphore [a] and were woken. *)
Record announced (a : Z) (l : list Z) (k k' : kst) : Prop := {
  cp_steady : steady k k';
  cp_sem b : b ≠ a → ip_sem (k_ipc k') !! b = ip_sem (k_ipc k) !! b;
  cp_empty : tlist (k_tl k') (HSuspend a) = [];
  cp_lists h : is_wait h → h ≠ HSuspend a → tlist (k_tl k') h = tlist (k_tl k) h;
  cp_served t : t ∈ l → woken_up k k' t;
  cp_others : undisturbed l k k'
}.

Lemma announced_to a v k : kinv k → tlist (k_tl k) (HSuspend a) = [] → announced a [] k (sem_to a v k).
Proof.
  intros HI El. split; [by split; [apply kinv_ipc|..]| |done|done|intros t []%elem_of_nil|].
  - intros b Hb. cbn. by rewrite lookup_insert_ne.
  - intros u uh _ Hu. exists uh. split; [done|by left].
Qed.

Lemma steady_woken h t th l k k' : k_thr k !! t = Some th → tlist (k_tl k) h = t :: l → woken_post h t th l k k' → steady k k'.
Proof.
  intros Hth El (HI & _ & Hob & El' & Ho & (st & Ht & Ha) & (_ & _ & Hn & _) & Hmv & _). split; [done|done|done| |].
  - intros u (uh & Hu & Hs). destruct (decide (u = t)) as [->|Hne]; [eexists; split; [exact Ht|by apply active_open]|].
    destruct (Hmv u uh Hne Hu) as (uh' & Hu' & Hm). exists uh'. split; [done|by eapply stat_moves_open].
  - intros h' Hh' E. destruct (decide (h' = h)) as [->|Hne]; [congruence|by rewrite Ho].
Qed.

(** The first waiter is woken, then the others. *)
Lemma announced_cons a t th l k k1 k2 :
  kinv k → tlist (k_tl k) (HSuspend a) = t :: l → k_thr k !! t = Some th → woken_post (HSuspend a) t th l k k1 → announced a l k1 k2 → announced a (t :: l) k k2.
Proof.
  intros HI0 El0 Hth Hw [Hca Hse El Ho2 Hs2 Hu2]. pose proof (steady_woken _ _ _ _ _ _ Hth El0 Hw) as Hca1.
  destruct Hw as (_ & Hip & _ & _ & Ho & (st & Ht1 & Ha1) & _ & Hmv & _). split; [by eapply steady_trans| |done| | |].
  - intros b Hb. by rewrite Hse, Hip.
  - intros h Hh Hne. by rewrite Ho2, Ho.
  - intros u Hu. destruct (decide (u ∈ l)) as [Hl|Hl].
    + destruct (Hs2 u Hl) as (uh1 & uh2 & E1 & E2 & Ha & He). destruct (decide (u = t)) as [->|Hne].
      * exists th, uh2. split_and!; [done|done|done|]. by simplify_eq.
      * destruct (waiter_suspended k (HSuspend a) u HI0 I) as (uh & Eu & _); [by rewrite El0|].
        destruct (Hmv u uh Hne Eu) as (uh1' & E1' & Hm). simplify_eq. exists uh, uh2. split_and!; [done|done|done|]. rewrite He. by apply stat_moves_error.
    + apply elem_of_cons in Hu as [->|]; [|done]. destruct (Hu2 t _ Hl Ht1) as (th2 & E2 & Hm). exists th, th2.
      split_and!; [done|done|by eapply stat_moves_active|]. by rewrite (stat_moves_error _ _ Hm).
  - intros u uh Hu Eu. rewrite elem_of_cons in Hu. destruct (Hmv u uh ltac:(tauto) Eu) as (uh1 & E1 & Hm1). destruct (Hu2 u uh1 ltac:(tauto) E1) as (uh2 & E2 & Hm2).
    exists uh2. split; [done|by eapply stat_moves_trans].
Qed.

Lemma completion_loop_run a x l : ∀ fuel k v,
  kinv k → sem_ok a k v x → tlist (k_tl k) (HSuspend a) = l → (length l + 2 ≤ fuel)%nat →
  ∃ k', completion_loop fuel a k = Some (RT_EOK, k') ∧ announced a l k k' ∧ sem_ok a k' (Z.max 0 (v - 1)) x ∧
    sc_lock_nest (k_sched k') = sc_lock_nest (k_sched k) ∧ sc_irq_nest (k_sched k') = sc_irq_nest (k_sched k).
Proof.
  induction l as [|t l IH]; intros [|fuel] k v HI Hok El Hf; cbn [length] in Hf; try lia; cbn [completion_loop]; unfold bind at 1; rewrite (trytake_run k a v x Hok).
  - pose proof Hok as (_ & _ & Hr & _). destruct (Z.ltb_spec 0 v) as [Hv|Hv].
    + exists (sem_to a (v - 1) k). split_and!; [done|by apply announced_to| |done|done]. rewrite Z.max_r by lia. apply (sem_ok_to a k v); [done|lia|done].
    + assert (v = 0) as -> by lia. destruct fuel as [|fuel]; [lia|]. rewrite Z.eqb_refl. unfold bind at 1.
      rewrite (release_idle_run k a 0 x) by (done || lia). cbn [completion_loop]. unfold bind at 1.
      pose proof (sem_ok_to a k 0 (0 + 1) x Hok ltac:(lia) El) as Hok1. rewrite (trytake_run _ a _ x Hok1).
      exists (sem_to a 0 (sem_to a 1 k)). split_and!; [done| |apply (sem_ok_to a (sem_to a 1 k) 1); [done|lia|done]|done|done].
      destruct (announced_to a 1 k HI El) as [Hca1 Hse1 El1 Hl1 _ Hu1]. destruct (announced_to a 0 (sem_to a 1 k) (cm_inv _ _ Hca1) El1) as [Hca2 Hse2 El2 Hl2 Hs2 Hu2].
      split; [by eapply steady_trans|intros b Hb; by rewrite Hse2, Hse1|done|done|intros t []%elem_of_nil|done].
  - destruct (sem_wake_run k a v x t l HI Hok El) as (th & k1 & R & Hth & -> & Hok1 & Hw). cbn [Z.ltb Z.compare]. rewrite Z.eqb_refl. unfold bind at 1. rewrite R.
    pose proof Hw as (HI1 & _ & _ & El1 & _ & _ & (_ & _ & Hn & Hq) & _). destruct (IH fuel k1 0 HI1 Hok1 El1 ltac:(lia)) as (k2 & R2 & Hc & Hok2 & Hn2 & Hq2).
    exists k2. split_and!; [exact R2|by eapply announced_cons; [done|done|done|exact Hw|done]|done|congruence|congruence].
Qed.

(** Leaving the critical section the waiters were woken in. *)
Lemma announced_exit a l k k1 n :
  announced a l (upd_sched (set_lock_nest (n + 1)) k) k1 → sc_lock_nest (k_sched k) = n → 0 ≤ n < 2 ^ 15 - 1 →
  ∃ k2, rt_exit_critical k1 = Some (tt, k2) ∧ announced a l k k2 ∧ k_ipc k2 = k_ipc k1.
Proof.
  intros [Hca Hse El Hl Hs Hu] Hn Hr. pose proof Hca as [HI Hob Hnest Hlive Hli]. destruct (exit_critical_run k1 n HI) as (c' & R & Hd & HI2); [by rewrite Hnest|done|].
  set (k0 := upd_sched (set_lock_nest n) k1). assert (sched_inv (k_sched k0)) as Hsi by apply (kinv_lock k1 n HI).
  pose proof (scheduled_moved _ _ Hsi Hd) as Hm. eexists. split_and!; [exact R| |done].
  assert (∀ h, is_wait h → tlist (sc_tl c') h = tlist (k_tl k1) h) as Hw2.
  { intros h Hh. rewrite (scheduled_waiting (k_sched k0) c' h Hsi Hd) by (intros q; by apply is_wait_not_ready). done. }
  assert (∀ u uh, k_thr k1 !! u = Some uh → ∃ uh', sc_thr c' !! u = Some uh' ∧ stat_moves uh uh') as Hmv by (intros u uh Hu1; by apply (moved_lookup_inv (k_sched k0))).
  split; [split; [done|done| | |]|done| | | |].
  - cbn. destruct (scheduled_nests _ _ Hd) as [-> _]. by rewrite Hn.
  - intros t Ht. destruct (Hlive t Ht) as (th & Eth & Hst). destruct (Hmv t th Eth) as (th' & E' & Hm'). exists th'. split; [done|by eapply stat_moves_open].
  - intros h Hh E. unfold k_tl at 1. cbn. rewrite Hw2 by done. by apply Hli.
  - unfold k_tl. cbn. by rewrite Hw2.
  - intros h Hh Hne. unfold k_tl at 1. cbn. rewrite Hw2 by done. by apply Hl.
  - intros t Ht. destruct (Hs t Ht) as (th & th1 & E & E1 & Ha & He). destruct (Hmv t th1 E1) as (th2 & E2 & Hm2). exists th, th2.
    split_and!; [done|done|by eapply stat_moves_active|]. by rewrite (stat_moves_error _ _ Hm2).
  - intros u uh Hu0 Eu. destruct (Hu u uh Hu0 Eu) as (uh1 & E1 & Hm1). destruct (Hmv u uh1 E1) as (uh2 & E2 & Hm2). exists uh2. split; [done|by eapply stat_moves_trans].
Qed.

Lemma completion_run s q v x :
  kinv (st_k s) → sem_ok (wq_sem q) (st_k s) v x → 0 ≤ sc_lock_nest (k_sched (st_k s)) < 2 ^ 15 - 1 →
  ∃ k', _workqueue_work_completion q s = Some (RT_EOK, with_k k' s) ∧
    announced (wq_sem q) (tlist (k_tl (st_k s)) (HSuspend (wq_sem q))) (st_k s) k' ∧ sem_ok (wq_sem q) k' (Z.max 0 (v - 1)) x.
Proof.
  intros HI Hok Hn. set (k := st_k s) in *. set (n := sc_lock_nest (k_sched k)) in *. set (k0 := upd_sched (set_lock_nest (n + 1)) k).
  assert (rt_enter_critical k = Some (tt, k0)) as R0 by (unfold rt_enter_critical, modify, k0, upd_sched; rewrite swrap_small by lia; done).
  set (l := tlist (k_tl k) (HSuspend (wq_sem q))).
  destruct (completion_loop_run (wq_sem q) x l (length l + 2) k0 v) as (k1 & R1 & Hc & Hok1 & Hn1 & _); [by apply kinv_lock|done|done|lia|].
  destruct (announced_exit (wq_sem q) l k k1 n Hc eq_refl Hn) as (k2 & R2 & Hc2 & Hip).
  exists k2. split_and!; [|done|].
  - unfold _workqueue_work_completion, bind. rewrite (kern_run _ s _ k0 R0), (kern_look _ (with_k k0 s) (length l + 2)%nat) by done.
    rewrite (kern_run (completion_loop (length l + 2) (wq_sem q)) (with_k k0 s) RT_EOK k1) by exact R1. change (with_k k1 (with_k k0 s)) with (with_k k1 s). rewrite (kern_run rt_exit_critical (with_k k1 s) tt k2) by exact R2. done.
  - destruct Hok1 as ((Hx & Hty & Hfl) & Hv & Hr & Hl). refine (conj (conj _ (conj Hty Hfl)) (conj _ (conj Hr (λ _, cp_empty _ _ _ _ Hc2)))); [|by rewrite Hip].
    rewrite (cm_obj _ _ (cp_steady _ _ _ _ Hc2)). rewrite <- Hx. symmetry. apply (cm_obj _ _ (cp_steady _ _ _ _ Hc)).
Qed.

(** * The works of the queues *)

(** [work->flags & RT_WORK_STATE_PENDING] *)
Definition pend (y : rt_work) : bool := nz (Z.land (wk_flags y) RT_WORK_STATE_PENDING).

Lemma nz_land_1 z : nz (Z.land z 1) = Z.odd z.
Proof. rewrite <- Z.bit0_odd. change 1 with (Z.ones 1). rewrite Z.land_ones by lia. change (2 ^ 1) with 2. rewrite <- Z.bit0_mod. by destruct (Z.testbit z 0). Qed.
Lemma odd_u16 z : Z.odd (u16 z) = Z.odd z.
Proof. rewrite <- !Z.bit0_odd. unfold wrap. by rewrite Z.mod_pow2_bits_low by lia. Qed.
Lemma pend_set y : pend (with_flags (u16 (Z.lor (wk_flags y) RT_WORK_STATE_PENDING)) y) = true.
Proof. unfold pend. cbn [wk_flags with_flags]. unfold RT_WORK_STATE_PENDING. rewrite nz_land_1, odd_u16, <- Z.bit0_odd, Z.lor_spec. apply orb_true_r. Qed.
Lemma pend_clear y : pend (with_flags (u16 (Z.land (wk_flags y) (Z.lnot RT_WORK_STATE_PENDING))) y) = false.
Proof. unfold pend. cbn [wk_flags with_flags]. unfold RT_WORK_STATE_PENDING. rewrite nz_land_1, odd_u16, <- Z.bit0_odd, Z.land_spec. apply andb_false_r. Qed.

(** A work is in one place of one list, and not in that of the queue that does it. *)
Record wq_inv (qs : gmap Z rt_workqueue) (ws : gmap Z rt_work) : Prop := {
  wi_null : ws !! 0 = None;
  wi_nodup q Q : qs !! q = Some Q → NoDup (wq_work_list Q);
  wi_queued q Q w : qs !! q = Some Q → w ∈ wq_work_list Q → is_Some (ws !! w);
  wi_apart q1 Q1 q2 Q2 w : qs !! q1 = Some Q1 → qs !! q2 = Some Q2 → w ∈ wq_work_list Q1 → w ∈ wq_work_list Q2 → q1 = q2;
  wi_current q Q : qs !! q = Some Q → wq_work_current Q ∉ wq_work_list Q
}.

Definition with_data (qs : gmap Z rt_workqueue) (ws : gmap Z rt_work) (s : wst) : wst := mk_wst (ws_sys s) (ws_errno s) qs ws.
Definition push_work (w : Z) (Q : rt_workqueue) : rt_workqueue := mk_wq (wq_work_list Q ++ [w]) (wq_work_current Q) (wq_work_thread Q).
Definition no_works (Q : rt_workqueue) : rt_workqueue := mk_wq [] (wq_work_current Q) (wq_work_thread Q).

Lemma work_not_null qs ws w : wq_inv qs ws → is_Some (ws !! w) → w ≠ 0.
Proof. intros Hi [y Hy] ->. by rewrite (wi_null _ _ Hi) in Hy. Qed.

(** The flags of a work do not matter. *)
Lemma inv_mark qs ws w y : wq_inv qs ws → is_Some (ws !! w) → wq_inv qs (<[w := y]> ws).
Proof.
  intros Hi Hw. pose proof (work_not_null _ _ _ Hi Hw) as H0. destruct Hi as [H1 H2 H3 H4 H5]. split; [by rewrite lookup_insert_ne|done| |done|done].
  intros q Q v HQ Hv. rewrite lookup_insert. case_decide; [done|by eapply H3].
Qed.

(** Lists that lose works. *)
Lemma inv_shrink qs qs' ws :
  wq_inv qs ws → (∀ q Q', qs' !! q = Some Q' → ∃ Q, qs !! q = Some Q ∧ wq_work_current Q' = wq_work_current Q ∧ wq_work_list Q' `sublist_of` wq_work_list Q) →
  wq_inv qs' ws.
Proof.
  intros Hi Hlk. assert (∀ q Q' v, qs' !! q = Some Q' → v ∈ wq_work_list Q' → ∃ Q, qs !! q = Some Q ∧ v ∈ wq_work_list Q) as Hin.
  { intros q Q' v (Q & HQ & _ & Hs)%Hlk Hv. exists Q. split; [done|by eapply elem_of_sublist]. }
  split; [apply Hi|..].
  - intros q Q' (Q & HQ & _ & Hs)%Hlk. eapply sublist_NoDup; [by apply (wi_nodup _ _ Hi q)|exact Hs].
  - intros q Q' v HQ' Hv. destruct (Hin q Q' v HQ' Hv) as (Q & HQ & Hv'). by apply (wi_queued _ _ Hi q Q).
  - intros q1 Q1 q2 Q2 v H1 H2 V1 V2. destruct (Hin _ _ _ H1 V1) as (P1 & G1 & W1), (Hin _ _ _ H2 V2) as (P2 & G2 & W2). by eapply (wi_apart _ _ Hi).
  - intros q Q' HQ' Hv. destruct (Hlk q Q' HQ') as (Q & HQ & Ec & Hs). rewrite Ec in Hv. apply (wi_current _ _ Hi q Q HQ). by eapply elem_of_sublist.
Qed.

Lemma inv_drop qs ws w : wq_inv qs ws → wq_inv (drop_work w <$> qs) ws.
Proof.
  intros Hi. apply (inv_shrink qs); [done|]. intros q Q'. rewrite lookup_fmap, fmap_Some. intros (Q & HQ & ->). exists Q. split_and!; [done|done|].
  cbn. apply sublist_filter.
Qed.

Lemma inv_clear qs ws q Q : wq_inv qs ws → qs !! q = Some Q → wq_inv (<[q := no_works Q]> qs) ws.
Proof.
  intros Hi HQ. apply (inv_shrink qs); [done|]. intros q' Q'. rewrite lookup_insert. case_decide as E; [subst; intros [= <-]; exists Q; split_and!; [done|done|apply sublist_nil_l]|].
  intros H. by exists Q'.
Qed.

(** A work that is in no list is put into one. *)
Lemma inv_push qs ws q Q w :
  wq_inv qs ws → is_Some (ws !! w) → (∀ q' Q', qs !! q' = Some Q' → w ∉ wq_work_list Q') → qs !! q = Some Q → wq_work_current Q ≠ w →
  wq_inv (<[q := push_work w Q]> qs) ws.
Proof.
  intros Hi Hw Hnq HQ Hc.
  assert (∀ q' Q', <[q := push_work w Q]> qs !! q' = Some Q' → ∃ Q0, qs !! q' = Some Q0 ∧ wq_work_current Q' = wq_work_current Q0 ∧
    ∀ v, v ∈ wq_work_list Q' ↔ v ∈ wq_work_list Q0 ∨ (v = w ∧ q' = q)) as Hlk.
  { intros q' Q'. rewrite lookup_insert. case_decide as E; [subst q'; intros [= <-]; exists Q|intros H; exists Q'; split_and!; [done|done|]; naive_solver].
    split_and!; [done|done|]. intros v. cbn. rewrite elem_of_app, list_elem_of_singleton. tauto. }
  split; [apply Hi|..].
  - intros q' Q'. rewrite lookup_insert. case_decide as E; [|apply Hi]. intros [= <-]. cbn. apply NoDup_app. split_and!; [by apply (wi_nodup _ _ Hi q)| |apply NoDup_singleton].
    intros v Hv Hv'%list_elem_of_singleton. subst v. by apply (Hnq q Q).
  - intros q' Q' v HQ' Hv. destruct (Hlk q' Q' HQ') as (Q0 & H0 & _ & Hel). rewrite Hel in Hv. destruct Hv as [Hv|[-> _]]; [|done]. by apply (wi_queued _ _ Hi q' Q0).
  - intros q1 Q1 q2 Q2 v H1 H2 I1 I2. destruct (Hlk _ _ H1) as (P1 & G1 & _ & L1), (Hlk _ _ H2) as (P2 & G2 & _ & L2). apply L1 in I1. apply L2 in I2.
    destruct I1 as [I1|[-> ->]], I2 as [I2|[E2 ->]]; [by eapply (wi_apart _ _ Hi)|subst v; by exfalso; apply (Hnq q1 P1)|by exfalso; apply (Hnq q2 P2)|done].
  - intros q' Q' HQ' Hin. destruct (Hlk _ _ HQ') as (Q0 & H0 & Ec & Hel). rewrite Ec in Hin. apply Hel in Hin as [Hin|[E ->]]; [by apply (wi_current _ _ Hi q' Q0)|]. congruence.
Qed.

(** [rt_list_remove] and [rt_list_insert_after] in front of the head. *)
Definition moved_work (q w : Z) (Q : rt_workqueue) (qs : gmap Z rt_workqueue) : gmap Z rt_workqueue :=
  <[q := push_work w (drop_work w Q)]> (drop_work w <$> qs).

Lemma inv_move qs ws q Q w : wq_inv qs ws → is_Some (ws !! w) → qs !! q = Some Q → wq_work_current Q ≠ w → wq_inv (moved_work q w Q qs) ws.
Proof.
  intros Hi Hw HQ Hc. apply inv_push; [by apply inv_drop|done| |by rewrite lookup_fmap, HQ|done].
  intros q' Q'. rewrite lookup_fmap, fmap_Some. intros (Q0 & _ & ->). cbn. rewrite list_elem_of_filter. tauto.
Qed.

(** Another work becomes the current one of a queue. *)
Lemma inv_current qs ws q Q w : wq_inv qs ws → qs !! q = Some Q → w ∉ wq_work_list Q → wq_inv (<[q := with_current w Q]> qs) ws.
Proof.
  intros Hi HQ Hn.
  assert (∀ q' Q', <[q := with_current w Q]> qs !! q' = Some Q' → ∃ Q0, qs !! q' = Some Q0 ∧ wq_work_list Q' = wq_work_list Q0 ∧ (Q' = Q0 ∨ Q' = with_current w Q)) as Hlk.
  { intros q' Q'. rewrite lookup_insert. case_decide as E; [subst; intros [= <-]; exists Q; auto|intros H; exists Q'; auto]. }
  split; [apply Hi|..].
  - intros q' Q' (Q0 & H0 & -> & _)%Hlk. by apply (wi_nodup _ _ Hi q').
  - intros q' Q' v (Q0 & H0 & -> & _)%Hlk. by apply (wi_queued _ _ Hi q' Q0).
  - intros q1 Q1 q2 Q2 v (P1 & G1 & -> & _)%Hlk (P2 & G2 & -> & _)%Hlk. by apply (wi_apart _ _ Hi q1 P1 q2 P2).
  - intros q' Q' HQ'. pose proof (Hlk _ _ HQ') as (Q0 & H0 & El & [->| ->]); [by apply (wi_current _ _ Hi q')|]. cbn. done.
Qed.

(** The works that are marked. *)
Definition marks (ws : gmap Z rt_work) : gset Z := dom (filter (λ p, pend p.2 = true) ws).

Lemma elem_of_marks ws w : w ∈ marks ws ↔ ∃ y, ws !! w = Some y ∧ pend y = true.
Proof.
  unfold marks. rewrite elem_of_dom. split.
  - intros [y Hy]. apply map_lookup_filter_Some in Hy as [Hy Hp]. by exists y.
  - intros (y & Hy & Hp). exists y. by apply map_lookup_filter_Some.
Qed.

Lemma marks_insert ws w y : marks (<[w := y]> ws) = if pend y then {[w]} ∪ marks ws else marks ws ∖ {[w]}.
Proof.
  apply set_eq. intros v. rewrite elem_of_marks. assert (v ∈ (if pend y then {[w]} ∪ marks ws else marks ws ∖ {[w]}) ↔ (v = w ∧ pend y = true) ∨ (v ≠ w ∧ v ∈ marks ws)) as ->.
  { destruct (pend y); rewrite ?elem_of_union, ?elem_of_difference, elem_of_singleton; [|naive_solver]. destruct (decide (v = w)); naive_solver. }
  rewrite elem_of_marks. setoid_rewrite lookup_insert_Some. destruct (decide (v = w)); naive_solver.
Qed.

(** * Sessions *)

(** The kernel is in order, the threads of the queues are alive, and their semaphores are
    semaphores. *)
Record kok (qs : gmap Z rt_workqueue) (k : kst) : Prop := {
  ko_inv : kinv k;
  ko_nest : 0 ≤ sc_lock_nest (k_sched k) < 2 ^ 15 - 1;
  ko_worker q Q : qs !! q = Some Q → live k (wq_work_thread Q);
  ko_sem q Q : qs !! q = Some Q → ∃ v x, sem_ok (wq_sem q) k v x
}.

Definition wq_ok (s : wst) : Prop := wq_inv (ws_queues s) (ws_works s) ∧ kok (ws_queues s) (st_k s).

(** The queues keep their threads. *)
Definition same_threads (qs qs' : gmap Z rt_workqueue) : Prop :=
  ∀ q Q', qs' !! q = Some Q' → ∃ Q, qs !! q = Some Q ∧ wq_work_thread Q' = wq_work_thread Q.

Lemma same_threads_insert qs q Q Q' : qs !! q = Some Q → wq_work_thread Q' = wq_work_thread Q → same_threads qs (<[q := Q']> qs).
Proof. intros HQ E p P. rewrite lookup_insert. case_decide; [subst; intros [= <-]; eauto|eauto]. Qed.
Lemma same_threads_drop qs w : same_threads qs (drop_work w <$> qs).
Proof. intros p P. rewrite lookup_fmap, fmap_Some. intros (Q & HQ & ->). eauto. Qed.
Lemma same_threads_trans qs1 qs2 qs3 : same_threads qs1 qs2 → same_threads qs2 qs3 → same_threads qs1 qs3.
Proof. intros H1 H2 q Q (Q2 & H & E)%H2. apply H1 in H as (Q1 & H & E'). exists Q1. split; [done|congruence]. Qed.

Lemma sem_ok_steady a k k' v x : sem_ok a k v x → steady k k' → ip_sem (k_ipc k') !! a = ip_sem (k_ipc k) !! a → sem_ok a k' v x.
Proof.
  intros ((Hx & Hty & Hfl) & Hv & Hr & Hl) Hca E. refine (conj (conj _ (conj Hty Hfl)) (conj _ (conj Hr _))); [by rewrite (cm_obj _ _ Hca)|by rewrite E|].
  intros Hp. apply (cm_lists _ _ Hca); [done|by apply Hl].
Qed.

Lemma kok_steady qs qs' k k' :
  kok qs k → same_threads qs qs' → steady k k' → (∀ q Q, qs' !! q = Some Q → ip_sem (k_ipc k') !! wq_sem q = ip_sem (k_ipc k) !! wq_sem q ∨ ∃ v x, sem_ok (wq_sem q) k' v x) →
  kok qs' k'.
Proof.
  intros [H1 H2 H3 H4] Hst Hca Hse. split; [apply Hca|by rewrite (cm_nest _ _ Hca)| |].
  - intros q Q (Q0 & H0 & ->)%Hst. apply (cm_live _ _ Hca). by eapply H3.
  - intros q Q HQ. destruct (Hse q Q HQ) as [E|?]; [|done]. destruct (Hst q Q HQ) as (Q0 & H0 & _). destruct (H4 q Q0 H0) as (v & x & Hok). exists v, x. by eapply sem_ok_steady.
Qed.

Lemma steady_refl k : kinv k → steady k k.
Proof. by split. Qed.

Lemma kok_threads qs qs' k : kok qs k → same_threads qs qs' → kok qs' k.
Proof. intros Hk Hst. eapply kok_steady; [done|done|apply steady_refl, Hk|by left]. Qed.

(** What the users of the queues, their threads and the rest of the system do with works
    that are not delayed. A synchronous cancel of the work that is being done waits at the
    semaphore of the queue, a step of the kernel, and ends with [WSyncEnd]. *)
Inductive wop :=
| WSubmit (q w : Z) | WSubmitNow (q w time : Z) | WCritical (q w : Z)
| WCancel (q w : Z) | WSync (q w : Z) | WSyncEnd (w : Z) | WCancelAll (q : Z)
| WTake (q : Z) | WDone (q : Z) | WOther (k : kst).

Definition wexec (o : wop) : WM Z :=
  match o with
  | WSubmit q w => rt_workqueue_dowork q w
  | WSubmitNow q w time => rt_workqueue_submit_work 0 1 q w time
  | WCritical q w => rt_workqueue_critical_work q w
  | WCancel q w => rt_workqueue_cancel_work 1 q w
  | WSync q w => r ← rt_workqueue_cancel_work_sync q w; match r with Returned e => ret e | Blocked _ => λ _, None end
  | WSyncEnd w => cancel_sync_resume w
  | WCancelAll q => rt_workqueue_cancel_all_work q
  | WTake q => p ← worker_take q; ret p.1
  | WDone q => worker_done q
  | WOther k => modify (with_k k) ;; ret 0
  end.

Definition plain_work (y : rt_work) : bool := negb (nz (Z.land (wk_type y) RT_WORK_TYPE_DELAYED)).

(** A queue is served when it has a work. *)
Inductive wallowed (s : wst) : wop → Prop :=
| wa_submit q w Q y : nz q = true → ws_queues s !! q = Some Q → ws_works s !! w = Some y → wallowed s (WSubmit q w)
| wa_now q w time Q y : nz q = true → ws_queues s !! q = Some Q → ws_works s !! w = Some y → plain_work y = true → wallowed s (WSubmitNow q w time)
| wa_critical q w Q y : nz q = true → ws_queues s !! q = Some Q → ws_works s !! w = Some y → wallowed s (WCritical q w)
| wa_cancel q w Q y : nz q = true → ws_queues s !! q = Some Q → ws_works s !! w = Some y → plain_work y = true → wallowed s (WCancel q w)
| wa_sync q w Q y : nz q = true → ws_queues s !! q = Some Q → ws_works s !! w = Some y → wq_work_current Q ≠ w → wallowed s (WSync q w)
| wa_sync_end w y : ws_works s !! w = Some y → wallowed s (WSyncEnd w)
| wa_all q Q : nz q = true → ws_queues s !! q = Some Q → wallowed s (WCancelAll q)
| wa_take q Q : ws_queues s !! q = Some Q → wq_work_list Q ≠ [] → wallowed s (WTake q)
| wa_done q Q : ws_queues s !! q = Some Q → wallowed s (WDone q)
| wa_other k : kok (ws_queues s) k → wallowed s (WOther k).

(** The queues as sequences: their works in order, and the current one; and the marks. *)
Abbreviation fifos := (gmap Z (list Z * Z)).
Definition fifo_view (qs : gmap Z rt_workqueue) : fifos := (λ Q, (wq_work_list Q, wq_work_current Q)) <$> qs.
Definition view (s : wst) : fifos * gset Z := (fifo_view (ws_queues s), marks (ws_works s)).

Definition minus_work (w : Z) (A : fifos) : fifos := (λ p, (filter (λ v, v ≠ w) p.1, p.2)) <$> A.
(** The work leaves the place it has and becomes the last of [q]. *)
Definition last_of (q w : Z) (A : fifos) : fifos := alter (λ p, (p.1 ++ [w], p.2)) q (minus_work w A).

(** Submitting, in both ways. *)
Inductive submits : wop → Z → Z → Prop :=
| su_dowork q w : submits (WSubmit q w) q w
| su_now q w time : submits (WSubmitNow q w time) q w.

(** A work that is marked or is being done by the same queue cannot be submitted, one that
    is being done by it cannot be cancelled; a critical work is queued whether it is marked
    or not, and not marked; works are taken in the order in which they were put. *)
Inductive fifo_step (A : fifos) (M : gset Z) : wop → Z → fifos → gset Z → Prop :=
| fs_submit o q w l c : submits o q w → A !! q = Some (l, c) → w ∉ M → c ≠ w → fifo_step A M o RT_EOK (last_of q w A) ({[w]} ∪ M)
| fs_marked o q w : submits o q w → w ∈ M → fifo_step A M o (- RT_EBUSY) A M
| fs_busy o q w l : submits o q w → A !! q = Some (l, w) → fifo_step A M o (- RT_EBUSY) A M
| fs_critical q w l c : A !! q = Some (l, c) → c ≠ w → fifo_step A M (WCritical q w) RT_EOK (last_of q w A) M
| fs_critical_busy q w l : A !! q = Some (l, w) → fifo_step A M (WCritical q w) (- RT_EBUSY) A M
| fs_cancel q w l c : A !! q = Some (l, c) → c ≠ w → fifo_step A M (WCancel q w) RT_EOK (minus_work w A) (M ∖ {[w]})
| fs_keep q w l : A !! q = Some (l, w) → fifo_step A M (WCancel q w) (- RT_EBUSY) A M
| fs_sync q w l c : A !! q = Some (l, c) → c ≠ w → fifo_step A M (WSync q w) RT_EOK (minus_work w A) (M ∖ {[w]})
| fs_sync_end w : fifo_step A M (WSyncEnd w) RT_EOK A (M ∖ {[w]})
| fs_all q l c : A !! q = Some (l, c) → fifo_step A M (WCancelAll q) RT_EOK (<[q := ([], c)]> A) M
| fs_take q w l c : A !! q = Some (w :: l, c) → fifo_step A M (WTake q) w (<[q := (l, w)]> A) (M ∖ {[w]})
| fs_done q l c : A !! q = Some (l, c) → fifo_step A M (WDone q) RT_EOK (<[q := (l, 0)]> A) M
| fs_other k : fifo_step A M (WOther k) 0 A M.

Abbreviation steps o r := (λ s s' : wst, fifo_step (view s).1 (view s).2 o r (view s').1 (view s').2).

Lemma fifo_view_insert qs q Q : fifo_view (<[q := Q]> qs) = <[q := (wq_work_list Q, wq_work_current Q)]> (fifo_view qs).
Proof. unfold fifo_view. by rewrite fmap_insert. Qed.
Lemma fifo_view_lookup qs q Q : qs !! q = Some Q → fifo_view qs !! q = Some (wq_work_list Q, wq_work_current Q).
Proof. intros H. unfold fifo_view. by rewrite lookup_fmap, H. Qed.
Lemma fifo_view_drop qs w : fifo_view (drop_work w <$> qs) = minus_work w (fifo_view qs).
Proof. unfold fifo_view, minus_work. rewrite <- !map_fmap_compose. apply map_fmap_ext. by intros q []. Qed.
Lemma fifo_view_move qs q Q w : qs !! q = Some Q → fifo_view (moved_work q w Q qs) = last_of q w (fifo_view qs).
Proof.
  intros HQ. unfold moved_work, last_of. rewrite fifo_view_insert, fifo_view_drop. cbn [push_work drop_work wq_work_list wq_work_current].
  apply map_eq. intros q'. rewrite lookup_insert. case_decide as E; [subst q'|by rewrite lookup_alter_ne].
  rewrite lookup_alter_eq. unfold minus_work. by rewrite lookup_fmap, (fifo_view_lookup qs q Q HQ).
Qed.

(** ** Runs *)

Lemma get_queue_run s q Q : ws_queues s !! q = Some Q → get_queue q s = Some (Q, s).
Proof. intros E. unfold get_queue. by rewrite E. Qed.
Lemma get_work_run s w y : ws_works s !! w = Some y → get_work w s = Some (y, s).
Proof. intros E. unfold get_work. by rewrite E. Qed.

(** Waking the thread of a queue. *)
Lemma wake_worker_run s q Q :
  kok (ws_queues s) (st_k s) → ws_queues s !! q = Some Q →
  ∃ k', wake_worker q s = Some (tt, with_k k' s) ∧ kok (ws_queues s) k' ∧ steady (st_k s) k' ∧
    (thread_stat (st_k s) (wq_work_thread Q) = Some RT_THREAD_SUSPEND → ∃ th', k_thr k' !! wq_work_thread Q = Some th' ∧ active th').
Proof.
  intros Hk HQ. destruct (ko_worker _ _ Hk q Q HQ) as (th & Hth & Hs). destruct (steady_wake (st_k s) _ th (ko_inv _ _ Hk) Hth Hs) as (r & k1 & k2 & R1 & R2 & Hca & Hip & Hwk).
  exists k2. split_and!; [|eapply kok_steady; [done|intros ??; eauto|done|intros; left; by rewrite Hip]|done|].
  - unfold wake_worker, bind. rewrite (get_queue_run s q Q HQ). rewrite (kern_run (rt_thread_resume _) s r k1) by exact R1.
    rewrite (kern_run rt_schedule (with_k k1 s) tt k2) by exact R2. done.
  - unfold thread_stat. rewrite Hth. cbn. intros [= E]. by apply Hwk.
Qed.

Lemma list_remove_run s w y : ws_works s !! w = Some y → list_remove w s = Some (tt, with_data (drop_work w <$> ws_queues s) (ws_works s) s).
Proof. intros E. unfold list_remove, bind. by rewrite (get_work_run s w y E). Qed.
Lemma list_append_run s q Q w : ws_queues s !! q = Some Q → list_append q w s = Some (tt, with_data (<[q := push_work w Q]> (ws_queues s)) (ws_works s) s).
Proof. intros E. unfold list_append, bind. by rewrite (get_queue_run s q Q E). Qed.
Lemma work_flag_set_run s f w y : ws_works s !! w = Some y →
  work_flag_set f w s = Some (tt, with_data (ws_queues s) (<[w := with_flags (u16 (Z.lor (wk_flags y) f)) y]> (ws_works s)) s).
Proof. intros E. unfold work_flag_set, bind. by rewrite (get_work_run s w y E). Qed.
Lemma work_flag_clear_run s f w y : ws_works s !! w = Some y →
  work_flag_clear f w s = Some (tt, with_data (ws_queues s) (<[w := with_flags (u16 (Z.land (wk_flags y) (Z.lnot f))) y]> (ws_works s)) s).
Proof. intros E. unfold work_flag_clear, bind. by rewrite (get_work_run s w y E). Qed.

(** The work moves to the end of the queue [q], whose thread is woken if it has nothing to do. *)
Lemma work_move_run s q w Q y fl :
  wq_ok s → ws_queues s !! q = Some Q → ws_works s !! w = Some y → wq_work_current Q ≠ w →
  wp (list_remove w ;; list_append q w ;; (if fl : bool then work_flag_set RT_WORK_STATE_PENDING w else ret tt) ;;
      (if wq_work_current Q =? 0 then wake_worker q else ret tt) ;; ret RT_EOK)
    (λ r s', r = RT_EOK ∧ wq_ok s' ∧ ws_queues s' = moved_work q w Q (ws_queues s) ∧
      ws_works s' = (if fl then <[w := with_flags (u16 (Z.lor (wk_flags y) RT_WORK_STATE_PENDING)) y]> (ws_works s) else ws_works s) ∧
      (wq_work_current Q = 0 → thread_stat (st_k s) (wq_work_thread Q) = Some RT_THREAD_SUSPEND →
        ∃ th', k_thr (st_k s') !! wq_work_thread Q = Some th' ∧ active th')) s.
Proof.
  intros [Hi Hk] HQ Hy Hc. set (Q1 := push_work w (drop_work w Q)). set (qs1 := moved_work q w Q (ws_queues s)).
  set (ws1 := if fl then <[w := with_flags (u16 (Z.lor (wk_flags y) RT_WORK_STATE_PENDING)) y]> (ws_works s) else ws_works s). set (s1 := with_data qs1 ws1 s).
  assert (wq_inv qs1 ws1) as Hi1.
  { assert (wq_inv qs1 (ws_works s)) as H by (by apply inv_move; [..|done|]). unfold ws1. destruct fl; [by apply inv_mark|done]. }
  assert (qs1 !! q = Some Q1) as HQ1 by apply lookup_insert_eq.
  assert (kok qs1 (st_k s1)) as Hk1.
  { eapply kok_threads; [exact Hk|]. eapply same_threads_trans; [apply (same_threads_drop _ w)|]. eapply (same_threads_insert _ q (drop_work w Q)); [by rewrite lookup_fmap, HQ|done]. }
  apply wp_bind. unfold wp at 1. rewrite (list_remove_run s w y Hy). apply wp_bind. unfold wp at 1.
  rewrite (list_append_run _ q (drop_work w Q) w) by (cbn; by rewrite lookup_fmap, HQ). cbn [with_data ws_queues ws_works]. fold (moved_work q w Q (ws_queues s)). fold qs1.
  apply wp_bind. assert ((if fl then work_flag_set RT_WORK_STATE_PENDING w else ret tt) (with_data qs1 (ws_works s) s) = Some (tt, s1)) as E.
  { unfold s1, ws1. destruct fl; [by rewrite (work_flag_set_run _ _ w y)|done]. }
  unfold wp at 1. change (with_data qs1 (ws_works s) (with_data _ _ s)) with (with_data qs1 (ws_works s) s). rewrite E. apply wp_bind. destruct (Z.eqb_spec (wq_work_current Q) 0) as [E0|E0].
  - destruct (wake_worker_run s1 q Q1 Hk1 HQ1) as (k' & R & Hk' & Hca & Hwk). unfold wp at 1. rewrite R. apply wp_ret.
    split_and!; [done|split; [exact Hi1|exact Hk']|done|done|]. intros _ Hsp. by apply Hwk.
  - apply wp_ret, wp_ret. split_and!; [done|by split|done|done|done].
Qed.

Lemma work_submit_run s q w Q y o :
  submits o q w → wq_ok s → ws_queues s !! q = Some Q → ws_works s !! w = Some y →
  wp (_workqueue_submit_work q w) (λ r s', wq_ok s' ∧ steps o r s s' ∧
    (pend y = false → wq_work_current Q ≠ w → r = RT_EOK ∧ ws_queues s' = moved_work q w Q (ws_queues s)) ∧
    (r = RT_EOK → wq_work_current Q = 0 → thread_stat (st_k s) (wq_work_thread Q) = Some RT_THREAD_SUSPEND →
      ∃ th', k_thr (st_k s') !! wq_work_thread Q = Some th' ∧ active th')) s.
Proof.
  intros Ho Hok HQ Hy. unfold _workqueue_submit_work. apply wp_bind. unfold wp at 1. rewrite (get_work_run s w y Hy). fold (pend y). destruct (pend y) eqn:Ep.
  { apply wp_ret. split_and!; [done| |done|done]. eapply fs_marked; [exact Ho|]. apply elem_of_marks. by exists y. }
  apply wp_bind. unfold wp at 1. rewrite (get_queue_run s q Q HQ). destruct (Z.eqb_spec (wq_work_current Q) w) as [Ec|Ec].
  { apply wp_ret. split_and!; [done| |done|done]. apply (fs_busy _ _ o q w (wq_work_list Q)); [done|]. cbn. rewrite (fifo_view_lookup _ q Q HQ). by rewrite Ec. }
  eapply wp_mono; [by apply (work_move_run s q w Q y true)|]. cbv beta. intros r s' (-> & Hok' & Eq & Ew & Hwk). split_and!; [done| |done|auto].
  unfold view. cbn [fst snd]. rewrite Eq, Ew, (fifo_view_move _ q Q w HQ), marks_insert, pend_set. eapply fs_submit; [exact Ho|by apply fifo_view_lookup| |done].
  rewrite elem_of_marks. intros (y' & Hy' & Hp'). congruence.
Qed.

Lemma work_critical_run s q w Q y :
  nz q = true → wq_ok s → ws_queues s !! q = Some Q → ws_works s !! w = Some y →
  wp (rt_workqueue_critical_work q w) (λ r s', wq_ok s' ∧ steps (WCritical q w) r s s') s.
Proof.
  intros Hq Hok HQ Hy. unfold rt_workqueue_critical_work. apply wp_bind, wp_assert; [done|].
  apply wp_bind, wp_assert; [apply nz_true; by eapply work_not_null; [apply Hok|eexists]|].
  apply wp_bind. unfold wp at 1. rewrite (get_queue_run s q Q HQ). destruct (Z.eqb_spec (wq_work_current Q) w) as [Ec|Ec].
  { apply wp_ret. split_and!; [done|]. apply (fs_critical_busy _ _ q w (wq_work_list Q)). cbn. rewrite (fifo_view_lookup _ q Q HQ). by rewrite Ec. }
  eapply wp_mono; [exact (work_move_run s q w Q y false Hok HQ Hy Ec)|]. cbv beta. intros r s' (-> & Hok' & Eq & Ew & _). split; [done|].
  unfold view. cbn [fst snd]. rewrite Eq, Ew, (fifo_view_move _ q Q w HQ). eapply fs_critical; [by apply fifo_view_lookup|done].
Qed.

(** The work leaves its list and its mark is taken away. *)
Lemma work_leave_run s w y :
  wq_ok s → ws_works s !! w = Some y →
  wp (list_remove w ;; work_flag_clear RT_WORK_STATE_PENDING w) (λ _ s', wq_ok s' ∧ (view s').1 = minus_work w (view s).1 ∧ (view s').2 = (view s).2 ∖ {[w]}) s.
Proof.
  intros [Hi Hk] Hy. apply wp_bind. unfold wp at 1. rewrite (list_remove_run s w y Hy). unfold wp. rewrite (work_flag_clear_run _ _ w y) by done.
  cbn [with_data ws_queues ws_works]. split_and!; [split|by apply fifo_view_drop|cbn; by rewrite marks_insert, pend_clear].
  - apply inv_mark; [by apply inv_drop|by eexists].
  - eapply kok_threads; [exact Hk|apply same_threads_drop].
Qed.

Lemma work_cancel_run s q w Q y :
  wq_ok s → ws_queues s !! q = Some Q → ws_works s !! w = Some y →
  wp (_workqueue_cancel_work q w) (λ r s', wq_ok s' ∧ steps (WCancel q w) r s s') s.
Proof.
  intros Hok HQ Hy. unfold _workqueue_cancel_work. apply wp_bind. unfold wp at 1. rewrite (get_queue_run s q Q HQ). destruct (Z.eqb_spec (wq_work_current Q) w) as [Ec|Ec].
  { apply wp_ret. split; [done|]. apply (fs_keep _ _ q w (wq_work_list Q)). cbn. rewrite (fifo_view_lookup _ q Q HQ). by rewrite Ec. }
  pose proof (work_leave_run s w y Hok Hy) as Hl. unfold wp, bind in *. destruct (list_remove w s) as [[? s1]|]; [|done].
  destruct (work_flag_clear _ w s1) as [[? s2]|]; [|done]. destruct Hl as (Hok' & E1 & E2). split; [done|]. rewrite E1, E2. eapply fs_cancel; [by apply fifo_view_lookup|done].
Qed.

Lemma work_sync_run s q w Q y :
  nz q = true → wq_ok s → ws_queues s !! q = Some Q → ws_works s !! w = Some y → wq_work_current Q ≠ w →
  wp (rt_workqueue_cancel_work_sync q w) (λ r s', r = Returned RT_EOK ∧ wq_ok s' ∧ steps (WSync q w) RT_EOK s s') s.
Proof.
  intros Hq Hok HQ Hy Hc. unfold rt_workqueue_cancel_work_sync. apply wp_bind, wp_assert; [done|].
  apply wp_bind, wp_assert; [apply nz_true; by eapply work_not_null; [apply Hok|eexists]|].
  apply wp_bind. unfold wp at 1. rewrite (get_queue_run s q Q HQ), (proj2 (Z.eqb_neq _ _) Hc).
  pose proof (work_leave_run s w y Hok Hy) as Hl. unfold wp, cancel_sync_resume, bind, ret in *. destruct (list_remove w s) as [[? s1]|]; [|done].
  destruct (work_flag_clear _ w s1) as [[? s2]|]; [|done]. destruct Hl as (Hok' & E1 & E2). split_and!; [done|done|]. rewrite E1, E2. eapply fs_sync; [by apply fifo_view_lookup|done].
Qed.

Lemma work_sync_end_run s w y :
  wq_ok s → ws_works s !! w = Some y → wp (cancel_sync_resume w) (λ r s', wq_ok s' ∧ steps (WSyncEnd w) r s s') s.
Proof.
  intros [Hi Hk] Hy. unfold cancel_sync_resume. apply wp_bind. unfold wp at 1. rewrite (work_flag_clear_run _ _ w y) by done. apply wp_ret.
  split; [split; [apply inv_mark; [done|by eexists]|exact Hk]|]. unfold view. cbn [fst snd with_data ws_queues ws_works]. rewrite marks_insert, pend_clear. apply fs_sync_end.
Qed.

(** All works of a queue leave its list. *)
Definition without (l : list Z) (Q : rt_workqueue) : rt_workqueue := mk_wq (filter (λ v, v ∉ l) (wq_work_list Q)) (wq_work_current Q) (wq_work_thread Q).

Lemma without_nil (qs : gmap Z rt_workqueue) : without [] <$> qs = qs.
Proof.
  apply map_eq. intros q. rewrite lookup_fmap. destruct (qs !! q) as [[l c t]|]; [|done]. cbn. do 2 f_equal. unfold without. cbn. f_equal.
  induction l as [|v l IH]; [done|]. rewrite filter_cons_True by set_solver. by f_equal.
Qed.

Lemma without_cons w l (qs : gmap Z rt_workqueue) : without l <$> (drop_work w <$> qs) = without (w :: l) <$> qs.
Proof.
  rewrite <- map_fmap_compose. apply map_fmap_ext. intros q [lq c t] _. unfold without, drop_work. cbn. f_equal.
  rewrite list_filter_filter. apply list_filter_iff. intros v. rewrite elem_of_cons. tauto.
Qed.

Lemma cancel_loop_run l : ∀ s, Forall (λ w, is_Some (ws_works s !! w)) l → cancel_loop l s = Some (tt, with_data (without l <$> ws_queues s) (ws_works s) s).
Proof.
  induction l as [|w l IH]; intros s Hl; cbn [cancel_loop]; [rewrite without_nil; by destruct s|]. apply Forall_cons in Hl as [[y Hy] Hl].
  unfold bind. rewrite (list_remove_run s w y Hy). rewrite IH by done. cbn [with_data ws_queues ws_works]. by rewrite without_cons.
Qed.

Lemma list_none_elem (l : list Z) : (∀ v, v ∉ l) → l = [].
Proof. destruct l as [|v l]; [done|]. intros H. destruct (H v). by left. Qed.

Lemma without_own qs ws q Q : wq_inv qs ws → qs !! q = Some Q → without (wq_work_list Q) <$> qs = <[q := no_works Q]> qs.
Proof.
  intros Hi HQ. apply map_eq. intros q'. rewrite lookup_fmap, lookup_insert. case_decide as E.
  - subst q'. rewrite HQ. cbn. f_equal. unfold without, no_works. f_equal. apply list_none_elem. intros v [Hn Hv]%list_elem_of_filter. done.
  - destruct (qs !! q') as [Q'|] eqn:E'; [|done]. cbn. f_equal. destruct Q' as [l c t]. unfold without. cbn. f_equal.
    assert (∀ v, v ∈ l → v ∉ wq_work_list Q) as Hd by (intros v Hv Hin; apply E; by eapply (wi_apart _ _ Hi q Q q' (mk_wq l c t) v)).
    clear -Hd. induction l as [|v l IH]; [done|]. rewrite filter_cons_True by (apply Hd; by left). f_equal. apply IH. intros u Hu. apply Hd. by right.
Qed.

(** Entering and leaving a critical section may switch threads. *)
Lemma steady_critical k :
  kinv k → 0 ≤ sc_lock_nest (k_sched k) < 2 ^ 15 - 1 →
  ∃ k1 k', rt_enter_critical k = Some (tt, k1) ∧ rt_exit_critical k1 = Some (tt, k') ∧ steady k k' ∧ k_ipc k' = k_ipc k.
Proof.
  intros HI Hn. destruct (critical_run k HI Hn) as (k1 & c' & R1 & _ & R2 & Hd & HI'). destruct HI as [HI Hw].
  pose proof (scheduled_moved _ _ (ki_sched _ HI) Hd) as Hm. eexists _, _. split_and!; [exact R1|exact R2| |done]. split; [done|done|by apply scheduled_nests| |].
  - intros t (th & Ht & Hs). destruct (moved_lookup_inv _ _ _ _ Hm Ht) as (th' & Ht' & Hmv). exists th'. split; [done|by eapply stat_moves_open].
  - intros h Hh El. unfold k_tl. cbn. by rewrite (scheduled_waiting _ _ h (ki_sched _ HI) Hd) by (intros q; by apply is_wait_not_ready).
Qed.

Lemma cancel_all_run s q Q :
  nz q = true → wq_ok s → ws_queues s !! q = Some Q →
  wp (rt_workqueue_cancel_all_work q) (λ r s', wq_ok s' ∧ steps (WCancelAll q) r s s') s.
Proof.
  intros Hq [Hi Hk] HQ. unfold rt_workqueue_cancel_all_work. apply wp_bind, wp_assert; [done|].
  destruct (steady_critical (st_k s) (ko_inv _ _ Hk) (ko_nest _ _ Hk)) as (k1 & k2 & R1 & R2 & Hca & Hip).
  apply wp_bind. unfold wp at 1. rewrite (kern_run rt_enter_critical s tt k1) by exact R1.
  apply wp_bind. unfold wp at 1. rewrite (get_queue_run _ q Q) by exact HQ. apply wp_bind. unfold wp at 1.
  rewrite cancel_loop_run by (apply Forall_forall; intros w Hw; by apply (wi_queued _ _ Hi q Q)). change (ws_queues (with_k k1 s)) with (ws_queues s).
  rewrite (without_own _ _ q Q Hi HQ). apply wp_bind. unfold wp at 1. rewrite (kern_run rt_exit_critical _ tt k2) by exact R2. apply wp_ret.
  split; [split|].
  - by apply inv_clear.
  - eapply kok_steady; [exact Hk|by apply (same_threads_insert _ q Q)|exact Hca|]. intros q' Q' _. left. exact (f_equal (λ i, ip_sem i !! wq_sem q') Hip).
  - unfold view. cbn [fst snd]. change (fifo_step (fifo_view (ws_queues s)) (marks (ws_works s)) (WCancelAll q) RT_EOK (fifo_view (<[q := no_works Q]> (ws_queues s))) (marks (ws_works s))).
    rewrite fifo_view_insert. eapply fs_all. exact (fifo_view_lookup _ q Q HQ).
Qed.

(** The first work leaves its list only. *)
Lemma drop_first qs ws q Q w l : wq_inv qs ws → qs !! q = Some Q → wq_work_list Q = w :: l → drop_work w <$> qs = <[q := mk_wq l (wq_work_current Q) (wq_work_thread Q)]> qs.
Proof.
  intros Hi HQ El. pose proof (wi_nodup _ _ Hi q Q HQ) as Hnd. rewrite El in Hnd. apply NoDup_cons in Hnd as [Hn _].
  apply map_eq. intros q'. rewrite lookup_fmap, lookup_insert. case_decide as E.
  - subst q'. rewrite HQ. cbn. f_equal. unfold drop_work. rewrite El, filter_cons_False by tauto. f_equal. by apply filter_ne_notin.
  - destruct (qs !! q') as [Q'|] eqn:E'; [|done]. cbn. f_equal. destruct Q' as [l' c t]. unfold drop_work. cbn. f_equal. apply filter_ne_notin.
    intros Hin. apply E. eapply (wi_apart _ _ Hi q Q q'); [done|exact E'|rewrite El; by left|done].
Qed.

Lemma worker_take_run s q Q : wq_ok s → ws_queues s !! q = Some Q → wq_work_list Q ≠ [] →
  wp (worker_take q) (λ p s', wq_ok s' ∧ steps (WTake q) p.1 s s' ∧ ws_works s' !! p.1 = Some p.2) s.
Proof.
  intros [Hi Hk] HQ Hne. unfold worker_take. apply wp_bind. unfold wp at 1. rewrite (get_queue_run s q Q HQ). destruct (wq_work_list Q) as [|w l] eqn:El; [done|].
  destruct (wi_queued _ _ Hi q Q w HQ) as (y & Hy); [rewrite El; by left|]. set (Q1 := mk_wq l (wq_work_current Q) (wq_work_thread Q)).
  assert (wq_inv (drop_work w <$> ws_queues s) (<[w := with_flags (u16 (Z.land (wk_flags y) (Z.lnot RT_WORK_STATE_PENDING))) y]> (ws_works s))) as Hi1
    by (apply inv_mark; [by apply inv_drop|by eexists]).
  apply wp_bind. unfold wp at 1. rewrite (list_remove_run s w y Hy), (drop_first _ _ q Q w l Hi HQ El). fold Q1. rewrite (drop_first _ _ q Q w l Hi HQ El) in Hi1. fold Q1 in Hi1.
  apply wp_bind. unfold wp at 1. rewrite (get_queue_run _ q Q1) by apply lookup_insert_eq. apply wp_bind. unfold wp at 1, put_queue, modify.
  apply wp_bind. unfold wp at 1. rewrite (work_flag_clear_run _ _ w y) by done. apply wp_bind. unfold wp at 1. cbn [with_data ws_queues ws_works].
  rewrite (get_work_run _ w _) by apply lookup_insert_eq. apply wp_ret. cbn [fst snd ws_queues ws_works]. rewrite insert_insert_eq. split_and!; [split| |apply lookup_insert_eq].
  - replace (<[q := with_current w Q1]> (ws_queues s)) with (<[q := with_current w Q1]> (<[q := Q1]> (ws_queues s))) by apply insert_insert_eq.
    apply inv_current; [done|apply lookup_insert_eq|]. cbn. pose proof (wi_nodup _ _ Hi q Q HQ) as Hnd. rewrite El in Hnd. by apply NoDup_cons in Hnd as [? _].
  - eapply kok_threads; [exact Hk|]. by apply (same_threads_insert _ q Q).
  - unfold view. cbn [fst snd with_data ws_queues ws_works]. rewrite fifo_view_insert, marks_insert, pend_clear. eapply fs_take. rewrite (fifo_view_lookup _ q Q HQ). by rewrite El.
Qed.

Lemma worker_done_run s q Q : wq_ok s → ws_queues s !! q = Some Q →
  wp (worker_done q) (λ r s', wq_ok s' ∧ steps (WDone q) r s s' ∧
    announced (wq_sem q) (tlist (k_tl (st_k s)) (HSuspend (wq_sem q))) (st_k s) (st_k s')) s.
Proof.
  intros [Hi Hk] HQ. unfold worker_done. apply wp_bind. unfold wp at 1. rewrite (get_queue_run s q Q HQ). apply wp_bind. unfold wp at 1, put_queue, modify.
  set (s1 := mk_wst _ _ (<[q := _]> _) _). destruct (ko_sem _ _ Hk q Q HQ) as (v & x & Hok). destruct (completion_run s1 q v x) as (k' & R & Hc & Hok'); [apply Hk|done|apply Hk|].
  unfold wp. rewrite R. split_and!; [split| |exact Hc].
  - apply (inv_current _ _ q Q 0); [done|done|]. intros Hin. destruct (wi_queued _ _ Hi q Q 0 HQ Hin) as (y & Hy). by rewrite (wi_null _ _ Hi) in Hy.
  - eapply (kok_steady (ws_queues s)); [exact Hk|by apply (same_threads_insert _ q Q)|exact (cp_steady _ _ _ _ Hc)|].
    intros q' Q' _. destruct (decide (wq_sem q' = wq_sem q)) as [E|E]; [right; rewrite E; by eexists _, _|left; by apply (cp_sem _ _ _ _ Hc)].
  - unfold view. cbn [fst snd]. assert (fifo_view (ws_queues (with_k k' s1)) = <[q := (wq_work_list Q, 0)]> (fifo_view (ws_queues s))) as -> by apply (fifo_view_insert (ws_queues s) q (with_current 0 Q)).
    eapply fs_done. by apply fifo_view_lookup.
Qed.

Lemma nz_work qs ws w y : wq_inv qs ws → ws !! w = Some y → nz w = true.
Proof. intros Hi Hw. apply nz_true. by eapply work_not_null; [|eexists]. Qed.

(** One step: an allowed operation returns and does what the sequences do. *)
Lemma wexec_run s o : wq_ok s → wallowed s o → wp (wexec o) (λ r s', wq_ok s' ∧ steps o r s s') s.
Proof.
  intros Hok Ho. pose proof (λ w y, nz_work _ _ w y (proj1 Hok)) as Hnz.
  destruct Ho as [q w Q y Hq HQ Hy|q w time Q y Hq HQ Hy Ht|q w Q y Hq HQ Hy|q w Q y Hq HQ Hy Ht|q w Q y Hq HQ Hy Hc|w y Hy|q Q Hq HQ|q Q HQ Hne|q Q HQ|k Hk]; cbn [wexec].
  - unfold rt_workqueue_dowork. apply wp_bind, wp_assert; [done|]. apply wp_bind, wp_assert; [by eapply Hnz|].
    eapply wp_mono; [apply (work_submit_run s q w Q y (WSubmit q w)); [constructor|done..]|]. cbv beta. tauto.
  - unfold rt_workqueue_submit_work. apply wp_bind, wp_assert; [done|]. apply wp_bind, wp_assert; [by eapply Hnz|].
    apply wp_bind. unfold wp at 1. apply negb_true_iff in Ht. rewrite (get_work_run s w y Hy), Ht.
    eapply wp_mono; [apply (work_submit_run s q w Q y (WSubmitNow q w time)); [constructor|done..]|]. cbv beta. tauto.
  - by apply (work_critical_run s q w Q y).
  - unfold rt_workqueue_cancel_work. apply wp_bind, wp_assert; [done|]. apply wp_bind, wp_assert; [by eapply Hnz|].
    apply wp_bind. unfold wp at 1. apply negb_true_iff in Ht. rewrite (get_work_run s w y Hy), Ht. by apply (work_cancel_run s q w Q y).
  - apply wp_bind. eapply wp_mono; [by apply (work_sync_run s q w Q y)|]. cbv beta. intros r s' (-> & H1 & H2). by apply wp_ret.
  - by apply (work_sync_end_run s w y).
  - by apply (cancel_all_run s q Q).
  - apply wp_bind. eapply wp_mono; [by apply (worker_take_run s q Q)|]. cbv beta. intros p s' (H1 & H2 & _). by apply wp_ret.
  - eapply wp_mono; [by apply (worker_done_run s q Q)|]. cbv beta. tauto.
  - split; [split; [apply Hok|exact Hk]|apply fs_other].
Qed.

(** A run of operations with their results, and what the sequences make of it. *)
Inductive wq_session (s : wst) : list (wop * Z) → wst → Prop :=
| se_nil : wq_session s [] s
| se_cons o r s1 l s2 : wallowed s o → wexec o s = Some (r, s1) → wq_session s1 l s2 → wq_session s ((o, r) :: l) s2.

Inductive fifo_run (A : fifos) (M : gset Z) : list (wop * Z) → fifos → gset Z → Prop :=
| fr_nil : fifo_run A M [] A M
| fr_cons o r A1 M1 l A2 M2 : fifo_step A M o r A1 M1 → fifo_run A1 M1 l A2 M2 → fifo_run A M ((o, r) :: l) A2 M2.

(** The marked works are those that wait. *)
Definition exact (A : fifos) (M : gset Z) : Prop := ∀ w, w ∈ M ↔ ∃ q p, A !! q = Some p ∧ w ∈ p.1.

(** The operations that keep marks and lists together. *)
Definition gentle (A : fifos) (o : wop) : Prop :=
  match o with
  | WCritical _ _ | WCancelAll _ => False
  | WSyncEnd w => ∀ q p, A !! q = Some p → w ∉ p.1
  | _ => True
  end.

Lemma elem_minus w A v : (∃ q p, minus_work w A !! q = Some p ∧ v ∈ p.1) ↔ v ≠ w ∧ ∃ q p, A !! q = Some p ∧ v ∈ p.1.
Proof.
  unfold minus_work. setoid_rewrite lookup_fmap. setoid_rewrite fmap_Some. split.
  - intros (q & p & (p0 & Hp & ->) & [Hv Hin]%list_elem_of_filter). eauto.
  - intros (Hne & q & p & Hp & Hin). eexists q, _. split; [eauto|]. by apply list_elem_of_filter.
Qed.

Lemma elem_last q w A v : is_Some (A !! q) → (∃ q' p, last_of q w A !! q' = Some p ∧ v ∈ p.1) ↔ v = w ∨ ∃ q' p, A !! q' = Some p ∧ v ∈ p.1.
Proof.
  intros [p0 Hp0]. assert (minus_work w A !! q = Some (filter (λ v, v ≠ w) p0.1, p0.2)) as Hm by (unfold minus_work; by rewrite lookup_fmap, Hp0).
  pose proof (elem_minus w A v) as He. split.
  - intros (q' & p & Hp & Hin). unfold last_of in Hp. destruct (decide (q' = q)) as [->|Hne].
    + rewrite lookup_alter_eq, Hm in Hp. cbn in Hp. injection Hp as <-. cbn in Hin. rewrite elem_of_app, list_elem_of_filter, list_elem_of_singleton in Hin.
      destruct Hin as [[? ?]| ->]; [right; eauto|by left].
    + rewrite lookup_alter_ne in Hp by done. right. apply He. eauto.
  - intros Hor. destruct (decide (v = w)) as [->|Hne].
    { exists q. eexists. unfold last_of. rewrite lookup_alter_eq, Hm. split; [reflexivity|]. cbn. rewrite elem_of_app, list_elem_of_singleton. by right. }
    destruct Hor as [?|Hex]; [done|]. destruct (proj2 He (conj Hne Hex)) as (q' & p & Hp & Hin). destruct (decide (q' = q)) as [->|Hq].
    + rewrite Hm in Hp. injection Hp as <-. exists q. eexists. unfold last_of. rewrite lookup_alter_eq, Hm. split; [reflexivity|]. cbn in *. rewrite elem_of_app. by left.
    + exists q', p. unfold last_of. by rewrite lookup_alter_ne.
Qed.

Lemma exact_step A M o r A' M' :
  (∀ q p, A !! q = Some p → NoDup p.1) → (∀ q1 p1 q2 p2 w, A !! q1 = Some p1 → A !! q2 = Some p2 → w ∈ p1.1 → w ∈ p2.1 → q1 = q2) →
  exact A M → gentle A o → fifo_step A M o r A' M' → exact A' M'.
Proof.
  intros Hnd Hap He Hg Hst. destruct Hst as [o q w l c Ho HA Hw Hc| | |q w l c HA|q w l HA|q w l c HA Hc| |q w l c HA Hc|w|q l c HA|q w l c HA|q l c HA|]; try done.
  - intros v. rewrite elem_of_union, elem_of_singleton, (He v). symmetry. apply elem_last. by eexists.
  - intros v. rewrite elem_of_difference, elem_of_singleton, (He v), elem_minus. tauto.
  - intros v. rewrite elem_of_difference, elem_of_singleton, (He v), elem_minus. tauto.
  - intros v. rewrite elem_of_difference, elem_of_singleton, (He v). cbn in Hg. split; [tauto|]. intros (q & p & Hp & Hin). split; [eauto|]. intros ->. by apply (Hg q p).
  - intros v. rewrite elem_of_difference, elem_of_singleton, (He v). pose proof (Hnd q _ HA) as Hn. cbn in Hn. apply NoDup_cons in Hn as [Hn _]. split.
    + intros [(q' & p & Hp & Hin) Hne]. destruct (decide (q' = q)) as [->|Hq]; [|exists q', p; by rewrite lookup_insert_ne].
      exists q. eexists. rewrite lookup_insert_eq. split; [reflexivity|]. rewrite HA in Hp. injection Hp as <-. cbn in *. by apply elem_of_cons in Hin as [?|?].
    + intros (q' & p & Hp & Hin). destruct (decide (q' = q)) as [->|Hq].
      * rewrite lookup_insert_eq in Hp. injection Hp as <-. cbn in Hin. split; [exists q; eexists; split; [exact HA|by right]|]. by intros ->.
      * rewrite lookup_insert_ne in Hp by done. split; [eauto|]. intros ->. apply Hq. eapply (Hap q' p q); [done|exact HA|done|by left].
  - intros v. rewrite (He v). split.
    + intros (q' & p & Hp & Hin). destruct (decide (q' = q)) as [->|Hq]; [|exists q', p; by rewrite lookup_insert_ne].
      exists q. eexists. rewrite lookup_insert_eq. split; [reflexivity|]. rewrite HA in Hp. by injection Hp as <-.
    + intros (q' & p & Hp & Hin). destruct (decide (q' = q)) as [->|Hq]; [|rewrite lookup_insert_ne in Hp by done; eauto].
      rewrite lookup_insert_eq in Hp. injection Hp as <-. exists q. eexists. split; [exact HA|done].
Qed.

(** The invariant in terms of the sequences. *)
Lemma view_queues s : wq_ok s →
  (∀ q p, (view s).1 !! q = Some p → NoDup p.1) ∧ (∀ q1 p1 q2 p2 w, (view s).1 !! q1 = Some p1 → (view s).1 !! q2 = Some p2 → w ∈ p1.1 → w ∈ p2.1 → q1 = q2).
Proof.
  intros [Hi _]. unfold view, fifo_view. cbn [fst]. setoid_rewrite lookup_fmap. setoid_rewrite fmap_Some. split.
  - intros q p (Q & HQ & ->). by apply (wi_nodup _ _ Hi q).
  - intros q1 p1 q2 p2 w (Q1 & H1 & ->) (Q2 & H2 & ->). by apply (wi_apart _ _ Hi q1 Q1 q2 Q2).
Qed.

(** A session whose operations all keep marks and lists together. *)
Inductive gentle_session (s : wst) : list (wop * Z) → wst → Prop :=
| gs_nil : gentle_session s [] s
| gs_cons o r s1 l s2 : wallowed s o → gentle (view s).1 o → wexec o s = Some (r, s1) → gentle_session s1 l s2 → gentle_session s ((o, r) :: l) s2.

Lemma gentle_is_session s l s' : gentle_session s l s' → wq_session s l s'.
Proof. induction 1; [constructor|by eapply se_cons]. Qed.

Lemma session_run_ok s l s' : wq_ok s → wq_session s l s' → fifo_run (view s).1 (view s).2 l (view s').1 (view s').2 ∧ wq_ok s'.
Proof.
  intros Hok Hs. induction Hs as [s|s o r s1 l s2 Ho Hx _ IH]; [split; [apply fr_nil|done]|].
  pose proof (wexec_run s o Hok Ho) as Hw. unfold wp in Hw. rewrite Hx in Hw. destruct Hw as [Hok1 Hst]. destruct (IH Hok1) as [Hr Hok2].
  split; [by eapply fr_cons|done].
Qed.

Lemma gentle_exact s l s' : wq_ok s → exact (view s).1 (view s).2 → gentle_session s l s' → exact (view s').1 (view s').2.
Proof.
  intros Hok He Hs. induction Hs as [s|s o r s1 l s2 Ho Hg Hx _ IH]; [done|].
  pose proof (wexec_run s o Hok Ho) as Hw. unfold wp in Hw. rewrite Hx in Hw. destruct Hw as [Hok1 Hst]. apply IH; [done|].
  destruct (view_queues s Hok) as [H1 H2]. by eapply exact_step.
Qed.

(** * Properties *)

(** C26: Work queues are FIFO queues of works that are not delayed, whatever order their
    users, their threads and the rest of the system run in: every operation of the users
    (both ways to submit, critical works, cancelling a work, cancelling it synchronously,
    cancelling all) and of the threads (taking the first work of a list that is not empty,
    and the end of a work) returns, with the result and the effect it has on the
    sequences: a marked work, or one the same queue is doing, is refused, a submitted or
    critical work becomes the last one, a thread takes the first one. A work is in one
    place of one list at most. As long as nobody uses critical works, cancels all works at
    once, or submits again a work whose synchronous cancelling still waits for its end, the
    marked works are exactly those that wait. A synchronous cancel of the work that is
    being done waits at the semaphore (a step of the rest of the system) and then ends.
    Not covered are delayed works and a thread that finds its list empty when it wakes up
    ([cancelled_before_taken]); a work one queue is doing is accepted by another. *)
Theorem workqueue_fifo s l s' :
  wq_ok s → wq_session s l s' →
  fifo_run (view s).1 (view s).2 l (view s').1 (view s').2 ∧ wq_ok s' ∧ (∀ o, wallowed s' o → is_Some (wexec o s')) ∧
  (exact (view s).1 (view s).2 → gentle_session s l s' → exact (view s').1 (view s').2).
Proof.
  intros Hok Hs. destruct (session_run_ok s l s' Hok Hs) as [Hr Hok']. split_and!; [done|done| |by apply gentle_exact].
  intros o Ho. pose proof (wexec_run s' o Hok' Ho) as Hw. unfold wp in Hw. by destruct (wexec o s').
Qed.

(** Submitting a work to a queue that has nothing to do wakes its sleeping thread: it is
    ready or running when the call returns. *)
Theorem rt_workqueue_dowork_wakes s q w Q y :
  wq_ok s → nz q = true → ws_queues s !! q = Some Q → ws_works s !! w = Some y → pend y = false → wq_work_current Q = 0 →
  thread_stat (st_k s) (wq_work_thread Q) = Some RT_THREAD_SUSPEND →
  wp (rt_workqueue_dowork q w) (λ r s', r = RT_EOK ∧ wq_ok s' ∧
    (∃ Q', ws_queues s' !! q = Some Q' ∧ wq_work_list Q' = filter (λ v, v ≠ w) (wq_work_list Q) ++ [w]) ∧
    ∃ th', k_thr (st_k s') !! wq_work_thread Q = Some th' ∧ active th') s.
Proof.
  intros Hok Hq HQ Hy Hp Hc Hsp. pose proof (nz_work _ _ _ _ (proj1 Hok) Hy) as Hw. unfold rt_workqueue_dowork.
  apply wp_bind, wp_assert; [done|]. apply wp_bind, wp_assert; [done|].
  eapply wp_mono; [apply (work_submit_run s q w Q y (WSubmit q w)); [constructor|done..]|]. cbv beta. intros r s' (Hok' & _ & Hrun & Hwk).
  destruct (Hrun Hp) as [-> Eq]; [rewrite Hc; intros <-; by rewrite (wi_null _ _ (proj1 Hok)) in Hy|].
  split_and!; [done|done| |by apply Hwk]. rewrite Eq. eexists. split; [apply lookup_insert_eq|done].
Qed.

(** C27: Announcing the end of a work terminates, however many threads wait for it: each of
    them is ready or running with its result unchanged, nobody waits any more, and the
    semaphore counts nothing. *)
Theorem work_completion_terminates s q v x :
  kinv (st_k s) → sem_ok (wq_sem q) (st_k s) v x → v ≤ 1 → 0 ≤ sc_lock_nest (k_sched (st_k s)) < 2 ^ 15 - 1 →
  wp (_workqueue_work_completion q) (λ r s', r = RT_EOK ∧
    announced (wq_sem q) (tlist (k_tl (st_k s)) (HSuspend (wq_sem q))) (st_k s) (st_k s') ∧ sem_ok (wq_sem q) (st_k s') 0 x ∧
    ws_queues s' = ws_queues s ∧ ws_works s' = ws_works s) s.
Proof.
  intros HI Hok Hv Hn. destruct (completion_run s q v x HI Hok Hn) as (k' & R & Hc & Hok'). unfold wp. rewrite R. rewrite Z.max_l in Hok' by lia. done.
Qed.

(** C28: Cancelling a delayed work that already waits in its queue never returns: the two
    cancelling routines call each other for ever, whatever the depth of the stack. *)
Theorem cancel_delayed_diverges s q w y :
  ws_works s !! w = Some y → nz w = true → nz q = true → wk_workqueue y ≠ 0 → pend y = true → nz (Z.land (wk_type y) RT_WORK_TYPE_DELAYED) = true →
  ∀ depth, rt_workqueue_cancel_work depth q w s = None.
Proof.
  intros Hy Hw Hq Hz Hp Ht depth. unfold rt_workqueue_cancel_work, bind, assert. rewrite Hq, Hw, (get_work_run s w y Hy), Ht.
  induction depth as [|depth IH]; [done|]. cbn [_workqueue_cancel_delayed_work]. unfold bind. rewrite (get_work_run s w y Hy), (proj2 (Z.eqb_neq _ _) Hz).
  fold (pend y). rewrite Hp. unfold assert. rewrite Hw, Ht. by rewrite IH.
Qed.

(** * Instances *)

(** Thread 3 sleeps; queue 88 is its own, with thread 5 at the semaphore, and has nothing to
    do; queue 89 is that of thread 2 and holds a delayed work. The heap is not used. *)
Definition demo_kernel : kst := match rt_thread_suspend 3 demo_sem with Some (_, k) => k | None => demo_sem end.
Definition demo_wq : wst :=
  mk_wst (mk_dsys demo_kernel (mk_heap (λ _, 0) 0 0 0 0 0 0) ∅) 0
    (<[88 := mk_wq [] 0 3]> (<[89 := mk_wq [1002] 0 2]> ∅))
    (<[1000 := mk_work 7 70 0 0 0]> (<[1001 := mk_work 8 80 0 0 0]> (<[1002 := mk_work 9 90 1 1 89]> ∅))).

Lemma demo_kernel_kinv : kinv demo_kernel.
Proof. apply kinv_check_sound. vm_compute. reflexivity. Qed.

Ltac cases H := repeat (apply lookup_insert_Some in H as [[<- <-]|[_ H]]); try (by rewrite lookup_empty in H).

Lemma demo_wq_ok : wq_ok demo_wq.
Proof.
  split; split; cbn [ws_queues ws_works demo_wq].
  - reflexivity.
  - intros q Q H. cases H; cbn; [constructor|apply NoDup_singleton].
  - intros q Q w H. cases H; cbn; [intros []%elem_of_nil|intros ->%list_elem_of_singleton; by eexists].
  - intros q1 Q1 q2 Q2 w H1 H2. cases H1; cases H2; cbn; try done; intros Ha Hb; first [by apply elem_of_nil in Ha|by apply elem_of_nil in Hb].
  - intros q Q H. cases H; cbn; [by intros ?%elem_of_nil|]. by intros ?%list_elem_of_singleton.
  - apply demo_kernel_kinv.
  - vm_compute. split; congruence.
  - intros q Q H. cases H; (eexists; split; [reflexivity|vm_compute; congruence]).
  - intros q Q H. cases H; exists 0, demo_hdr; (refine (conj (conj _ (conj _ (or_intror _))) (conj _ (conj _ _))); [reflexivity..|lia|lia]).
Qed.

(** Sessions by computation. *)
Definition has (q w : Z) (p : rt_workqueue → rt_work → bool) (s : wst) : bool :=
  nz q && match ws_queues s !! q, ws_works s !! w with Some Q, Some y => p Q y | _, _ => false end.

Definition wallowedb (s : wst) (o : wop) : bool :=
  match o with
  | WSubmit q w | WCritical q w => has q w (λ _ _, true) s
  | WSubmitNow q w _ | WCancel q w => has q w (λ _ y, plain_work y) s
  | WSync q w => has q w (λ Q _, negb (wq_work_current Q =? w)) s
  | WSyncEnd w => bool_decide (is_Some (ws_works s !! w))
  | WCancelAll q => nz q && bool_decide (is_Some (ws_queues s !! q))
  | WTake q => match ws_queues s !! q with Some Q => bool_decide (wq_work_list Q ≠ []) | None => false end
  | WDone q => bool_decide (is_Some (ws_queues s !! q))
  | WOther _ => false
  end.

Lemma has_true q w p s : has q w p s = true → ∃ Q y, nz q = true ∧ ws_queues s !! q = Some Q ∧ ws_works s !! w = Some y ∧ p Q y = true.
Proof.
  unfold has. rewrite andb_true_iff. intros [Hq H]. destruct (ws_queues s !! q) as [Q|]; [|done]. destruct (ws_works s !! w) as [y|]; [|done]. by exists Q, y.
Qed.

Lemma wallowedb_allowed s o : wallowedb s o = true → wallowed s o.
Proof.
  destruct o as [q w|q w time|q w|q w|q w|w|q|q|q|k]; cbn; rewrite ?andb_true_iff, ?bool_decide_eq_true.
  - intros (Q & y & Hq & HQ & Hy & _)%has_true. by eapply wa_submit.
  - intros (Q & y & Hq & HQ & Hy & Hp)%has_true. by eapply wa_now.
  - intros (Q & y & Hq & HQ & Hy & _)%has_true. by eapply wa_critical.
  - intros (Q & y & Hq & HQ & Hy & Hp)%has_true. by eapply wa_cancel.
  - intros (Q & y & Hq & HQ & Hy & Hc%negb_true_iff%Z.eqb_neq)%has_true. by eapply wa_sync.
  - intros [y Hy]. by eapply wa_sync_end.
  - intros [Hq [Q HQ]]. by eapply wa_all.
  - destruct (ws_queues s !! q) as [Q|] eqn:E; [|done]. rewrite bool_decide_eq_true. by eapply wa_take.
  - intros [Q HQ]. by eapply wa_done.
  - done.
Qed.

Fixpoint replay (l : list (wop * Z)) (s : wst) : option wst :=
  match l with
  | [] => Some s
  | (o, r) :: l =>
      if wallowedb s o then
        match wexec o s with
        | Some (r', s1) => if r' =? r then replay l s1 else None
        | None => None
        end
      else None
  end.

Lemma replay_session l : ∀ s s', replay l s = Some s' → wq_session s l s'.
Proof.
  induction l as [|[o r] l IH]; intros s s'; cbn; [intros [= <-]; apply se_nil|]. destruct (wallowedb s o) eqn:Ea; [|done]. destruct (wexec o s) as [[r' s1]|] eqn:Ex; [|done].
  destruct (Z.eqb_spec r' r); [|done]. subst. intros Hr. eapply se_cons; [by apply wallowedb_allowed|exact Ex|by apply IH].
Qed.

Definition demo_ops : list (wop * Z) :=
  [(WSubmit 88 1000, 0); (WCritical 88 1001, 0); (WSubmit 88 1000, -7); (WTake 88, 1000); (WCancel 88 1001, 0); (WSubmitNow 88 1000 0, -7); (WSync 88 1001, 0);
   (WDone 88, 0); (WSubmit 88 1001, 0); (WCancelAll 88, 0); (WSubmit 88 1001, -7); (WSyncEnd 1001, 0)].

Lemma workqueue_fifo_witness : ∃ s', wq_session demo_wq demo_ops s' ∧ fifo_run (view demo_wq).1 (view demo_wq).2 demo_ops (view s').1 (view s').2.
Proof.
  assert (bool_decide (is_Some (replay demo_ops demo_wq)) = true) as H by (vm_compute; reflexivity). apply bool_decide_eq_true in H as [s' Hs%replay_session].
  exists s'. split; [exact Hs|]. apply (workqueue_fifo demo_wq demo_ops s' demo_wq_ok Hs).
Defined.

Lemma rt_workqueue_dowork_wakes_witness : wp (rt_workqueue_dowork 88 1000) (λ r s', r = RT_EOK ∧ ∃ th', k_thr (st_k s') !! 3 = Some th' ∧ active th') demo_wq.
Proof.
  eapply wp_mono; [eapply (rt_workqueue_dowork_wakes demo_wq 88 1000); [apply demo_wq_ok|reflexivity|reflexivity|reflexivity|reflexivity|reflexivity|vm_compute; reflexivity]|].
  cbv beta. intros r s' (-> & _ & _ & H). by split.
Defined.

Lemma work_completion_terminates_witness : wp (_workqueue_work_completion 88) (λ r s', r = RT_EOK ∧ woken_up (st_k demo_wq) (st_k s') 5) demo_wq.
Proof.
  eapply wp_mono; [eapply (work_completion_terminates demo_wq 88 0 demo_hdr); [apply demo_wq_ok| |lia|apply demo_wq_ok]|].
  - refine (conj (conj _ (conj _ (or_intror _))) (conj _ (conj _ _))); [reflexivity..|lia|lia].
  - cbv beta. intros r s' (-> & Hc & _). split; [done|]. apply (cp_served _ _ _ _ Hc). vm_compute. by left.
Defined.

Lemma cancel_delayed_diverges_witness : rt_workqueue_cancel_work 1000 89 1002 demo_wq = None.
Proof. eapply (cancel_delayed_diverges demo_wq 89 1002); (reflexivity || (vm_compute; congruence)). Defined.

(** * Corner cases *)

(** [rt_workqueue_cancel_all_work] leaves the marks: a work it removed is refused ever after. *)
Lemma cancel_all_blocks_works :
  fst <$> (rt_workqueue_dowork 88 1000 ;; rt_workqueue_cancel_all_work 88 ;; b ← worker_idle 88; e ← rt_workqueue_dowork 88 1000; ret (b, e)) demo_wq = Some (true, - RT_EBUSY).
Proof. vm_compute. reflexivity. Qed.

(** A work that is cancelled after it woke the thread and before the thread runs: the thread
    takes the head of its empty list for a work. *)
Lemma cancelled_before_taken :
  fst <$> (rt_workqueue_dowork 88 1000 ;; rt_workqueue_cancel_work 1 88 1000) demo_wq = Some RT_EOK ∧
  (rt_workqueue_dowork 88 1000 ;; rt_workqueue_cancel_work 1 88 1000 ;; worker_take 88) demo_wq = None.
Proof. split; vm_compute; reflexivity. Qed.

(** A work that is submitted by an interrupt between the test of the list and the sleep of
    the thread: the thread, here thread 1, sleeps although it has work to do. *)
Definition demo_race : wst := with_data (<[90 := mk_wq [] 0 1]> ∅) (ws_works demo_wq) demo_wq.
Lemma wakeup_lost :
  fst <$> (kern (rt_thread_suspend 2) ;; idle ← worker_idle 90; e ← rt_workqueue_dowork 90 1000; t ← worker_sleep;
           l ← (Q ← get_queue 90; ret (wq_work_list Q)); st ← gets (λ s, thread_stat (st_k s) 1); ret (idle, e, t, l, st)) demo_race =
  Some (true, RT_EOK, 1, [1000], Some RT_THREAD_SUSPEND).
Proof. vm_compute. reflexivity. Qed.

(** A delayed work that was initialised in memory that is not zero cannot be submitted. *)
Lemma delayed_init_incomplete :
  fst <$> (rt_delayed_work_init 1003 7 70 42 ;; rt_workqueue_submit_work 0 1 88 1003 10) demo_wq = Some (- RT_EINVAL).
Proof. vm_compute. reflexivity. Qed.

(** A delayed work is queued when its timer calls the handler. *)
Lemma delayed_work_queued :
  fst <$> (rt_delayed_work_init 1003 7 70 0 ;; rt_workqueue_submit_work 0 1 88 1003 10 ;; l ← (Q ← get_queue 88; ret (wq_work_list Q));
           _delayed_work_timeout_handler 1003 ;; l' ← (Q ← get_queue 88; ret (wq_work_list Q)); ret (l, l')) demo_wq = Some ([], [1003]).
Proof. vm_compute. reflexivity. Qed.
