(* ===== verification/Idle.v ===== *)
(** The idle thread, src/idle.c, and the interrupt nesting of src/irq.c: when nothing
    else runs, the idle thread calls the idle hooks and gives back the control blocks and
    stacks of the threads that have ended.

    The cleanup functions of threads and the hooks are application code and parameters
    of the model. *)

From Stdlib Require Import ZArith Lia.
From stdpp Require Import base numbers option gmap.
From stdpp Require Import list.
From S2P Require Import Prelude.
From S2P Require Import Proc.
From S2P Require Import Kservice.
From S2P Require Import Bytes.
From S2P Require Import Printf.
From S2P Require Import KernelDefs.
From S2P Require Import Scheduler.
From S2P Require Import Object.
From S2P Require Import Timer.
From S2P Require Import Thread.
From S2P Require Import Clock.
From S2P Require Import Ipc.
From S2P Require Import Callback.
From S2P Require Import Mem.
From S2P Require Import Dynamic.
Local Open Scope Z_scope.
Local Open Scope rt_scope.

(** * Interrupts, src/irq.c *)

Section irq.
(** [rt_interrupt_enter_hook] and [rt_interrupt_leave_hook]; an unset hook does nothing. *)
Variables enter_hook leave_hook : K unit.

Definition rt_interrupt_enter : K unit :=
  modify (upd_sched (λ c, set_irq_nest (u8 (sc_irq_nest c + 1)) c)) ;; enter_hook.
Definition rt_interrupt_leave : K unit :=
  modify (upd_sched (λ c, set_irq_nest (u8 (sc_irq_nest c - 1)) c)) ;; leave_hook.

(** The tick interrupt; [HAL_IncTick] counts for the vendor's library. *)
Definition SysTick_Handler (HAL_IncTick : K unit) (user : Z → Z → K unit) (fuel : nat) : K unit :=
  rt_interrupt_enter ;;
  HAL_IncTick ;;
  rt_tick_increase user fuel ;;
  rt_interrupt_leave.
End irq.

(** * The idle thread *)

(** The idle hooks and the system. *)
Record isys := mk_isys { i_hooks : list Z; i_sys : dsys }.

(** A routine of the system. *)
Definition on_sys {A} : D A → M isys (proc isys A) := zoom i_sys (λ d s, mk_isys (i_hooks s) d).

Definition RT_IDEL_HOOK_LIST_SIZE : nat := 4.

(** The loops over [idle_hook_list]: the first entry that is [old] becomes [new]. *)
Fixpoint hook_loop (n : nat) (old new : Z) (l : list Z) : option (list Z) :=
  match n, l with
  | S n, h :: l => if h =? old then Some (new :: l) else option_map (cons h) (hook_loop n old new l)
  | _, _ => None
  end.

Definition rt_thread_idle_sethook (hook : Z) : M isys Z := λ s,
  match hook_loop RT_IDEL_HOOK_LIST_SIZE 0 hook (i_hooks s) with
  | Some l => Some (RT_EOK, mk_isys l (i_sys s))
  | None => Some (- RT_EFULL, s)
  end.
Definition rt_thread_idle_delhook (hook : Z) : M isys Z := λ s,
  match hook_loop RT_IDEL_HOOK_LIST_SIZE hook 0 (i_hooks s) with
  | Some l => Some (RT_EOK, mk_isys l (i_sys s))
  | None => Some (- RT_ENOSYS, s)
  end.

Section idle.
Variable heap_sem : Z.
(** [cleanup f t]: the cleanup function [f] on the thread [t]. *)
Variable cleanup : Z → Z → K unit.
(** The idle hooks. *)
Variable call_hook : Z → M isys unit.
(** [idle[0]] and [rt_thread_stack[0]], and the address of [rt_thread_idle_entry]. *)
Variables idle rt_thread_stack idle_entry : Z.

Definition _has_defunct_thread : K bool :=
  gets (λ s, match tlist (k_tl s) HDefunct with [] => false | _ => true end).

(** The part of the loop that runs with interrupts disabled: the thread whose memory is
    to be given back, or nothing when the routine returns. *)
Definition take_defunct : K (option Z) :=
  b ← _has_defunct_thread;
  if b : bool then
    thread ← (l ← gets (λ s, tlist (k_tl s) HDefunct); from_opt (head l));
    tl_remove thread ;;
    rt_enter_critical ;;
    th ← get_thread thread;
    match th_cleanup th with Some f => cleanup f thread | None => ret tt end ;;
    sys ← rt_object_is_systemobject (Obj thread);
    if sys : bool then
      rt_object_detach (Obj thread) ;;
      rt_exit_critical ;;
      ret None
    else
      rt_exit_critical ;;
      ret (Some thread)
  else ret None.

Fixpoint rt_thread_idle_excute (fuel : nat) : D unit :=
  match fuel with
  | O => λ _, None
  | S fuel =>
      b ⇐ now (kern _has_defunct_thread);
      if b : bool then
        now (kern RT_DEBUG_NOT_IN_INTERRUPT) ;;;
        r ⇐ now (kern take_defunct);
        match r with
        | None => dret tt
        | Some thread =>
            th ⇐ now (kern (get_thread thread));
            RT_KERNEL_FREE heap_sem (th_stack_addr th) ;;;
            rt_object_delete heap_sem thread ;;;
            rt_thread_idle_excute fuel
        end
      else dret tt
  end.

(** [for (i = 0; i < RT_IDEL_HOOK_LIST_SIZE; i++)]: the table is read at each step. *)
Fixpoint call_hooks (n i : nat) : M isys unit :=
  match n with
  | O => ret tt
  | S n =>
      h ← gets (λ s, default 0 (i_hooks s !! i));
      (if h =? 0 then ret tt else call_hook h) ;;
      call_hooks n (S i)
  end.

(** One round of the loop of [rt_thread_idle_entry]. *)
Definition rt_thread_idle_entry (fuel : nat) : M isys (proc isys unit) :=
  now (call_hooks RT_IDEL_HOOK_LIST_SIZE 0) ;;;
  on_sys (rt_thread_idle_excute fuel).

(** [tidle_name] is on the stack: at the address [buf] of the memory [m]. *)
Definition rt_thread_idle_init (m : memory) (buf : Z) : K unit :=
  let i := 0 in
  r ← from_opt (rt_sprintf m buf [116; 105; 100; 108; 101; 37; 100] [VInt i]);
  let tidle_name := (λ j, r.1 (buf + j)) <$> seqZ 0 (Z.of_nat RT_NAME_MAX) in
  rt_thread_init idle tidle_name idle_entry 0 rt_thread_stack 256 (RT_THREAD_PRIORITY_MAX - 1) 32 ;;
  rt_thread_startup idle ;;
  ret tt.

Definition rt_thread_idle_gethandler : Z := idle.
End idle.

(** * Lemmas *)

(** A thread that has ended leaves the list it is in. *)
Lemma kinv_unlink_closed s t th :
  kinv s → k_thr s !! t = Some th → stat_of th = RT_THREAD_CLOSE → kinv (upd_sched (unlink_sc t) s).
Proof.
  intros [HI Hw] Ht Hs. split; [|done]. pose proof (ki_sched _ HI) as (Hsw & Hok & Hst).
  apply (kinv0_sched s (unlink_sc t (k_sched s))); [done| |apply HI|eauto|eauto].
  split_and!; [|done|done].
  assert (unlink_sc t (k_sched s) = put_thr t th (unlink_sc t (k_sched s))) as ->.
  { unfold put_thr, unlink_sc, set_thr, set_tl. cbn. f_equal. by rewrite insert_id. }
  apply swf_put_transit; [by eapply (swf_unlink ∅ t th); [| |stat_lia]|set_solver|stat_lia|stat_lia| |].
  - by apply (sw_prio _ _ Hsw t).
  - intros [?|[?|?]]; stat_lia.
Qed.

(** A closed thread is not chosen by the scheduler. *)
Lemma scheduled_not_closed c c' t th :
  sched_inv c → scheduled c c' → sc_thr c !! t = Some th → stat_of th = RT_THREAD_CLOSE → sc_cur c ≠ Some t →
  sc_cur c' ≠ Some t.
Proof.
  intros (Hw & _) Hd Ht Hs Hc. inversion Hd as [| | |cur cth p to toh rest Hlk Hcu Hct Hne Hto Hp Hpr Hl]; subst; [done..|].
  rewrite (proj1 (switch_sc_cur _ _ _ _ _ _)). intros [= ->].
  destruct (sw_place _ _ Hw t (HReady (th_current_priority toh))) as (u & Hu & Hr & _); [rewrite Hl; set_solver|].
  rewrite Ht in Hu. injection Hu as <-. stat_lia.
Qed.

Section reclaim.
Context (heap_sem : Z) (cleanup : Z → Z → K unit).

(** The thread has no cleanup function, as [_rt_thread_init] leaves it, or one that deals
    with the application's data only. *)
Definition simple_cleanup (t : Z) (th : rt_thread) : Prop :=
  ∀ f, th_cleanup th = Some f → ∀ s, cleanup f t s = Some (tt, s).

(** The first ended thread is taken off the list; the scheduler may run when it is
    unlocked. *)
Lemma take_defunct_run k t rest th x :
  kinv k → 0 ≤ sc_lock_nest (k_sched k) < 2 ^ 15 - 1 → tlist (k_tl k) HDefunct = t :: rest →
  k_thr k !! t = Some th → simple_cleanup t th → k_obj k !! Obj t = Some x → get_type x = RT_Object_Class_Thread →
  ∃ c', scheduled (unlink_sc t (k_sched k)) c' ∧
    let stays := negb (nz (Z.land (o_type x) RT_Object_Class_Static)) in
    let k' := mk_kst c' (k_timers k) (if stays then k_objects k else detach_obj (Obj t) x (k_objects k)) (k_ipc k) in
    take_defunct cleanup k = Some (if stays then Some t else None, k') ∧ kinv k'.
Proof.
  intros HI Hn Hl Ht Hsc Hx Hty. assert (stat_of th = RT_THREAD_CLOSE) as Hs.
  { destruct (sw_place _ _ (proj1 (ki_sched _ (proj1 HI))) t HDefunct) as (u & Hu & Hok); [unfold k_tl in Hl; rewrite Hl; set_solver|].
    unfold k_thr in Ht. rewrite Ht in Hu. by injection Hu as <-. }
  pose proof (kinv_unlink_closed k t th HI Ht Hs) as HI1. set (k1 := upd_sched (unlink_sc t) k) in HI1.
  set (sys := nz (Z.land (o_type x) RT_Object_Class_Static)).
  set (k2 := if sys then upd_objects (detach_obj (Obj t) x) k1 else k1).
  assert (kinv k2) as HI2 by (unfold k2; destruct sys; [by apply (kinv_reclaim k1 t th)|done]).
  assert (k_sched k2 = k_sched k1) as Es by (unfold k2; by destruct sys).
  destruct (critical_run k2 HI2) as (s1 & c' & He & _ & Hr & Hsch & HI3); [by rewrite Es|].
  rewrite Es in Hsch. exists c'. split; [exact Hsch|]. cbv zeta.
  unfold rt_enter_critical, modify in He. injection He as <-.
  unfold take_defunct, _has_defunct_thread, bind, gets. rewrite Hl. unfold from_opt, head, tl_remove.
  unfold rt_enter_critical, modify, get_thread. rewrite Hl. change (upd_sched (set_tl (tl_remove_from t (k_tl k))) k) with k1.
  change (k_thr (upd_sched _ k1)) with (k_thr k). rewrite Ht.
  assert (∀ s, (match th_cleanup th with Some f => cleanup f t | None => ret tt end) s = Some (tt, s)) as Hcl
    by (intros s; destruct (th_cleanup th) eqn:Ef; [by apply Hsc|done]).
  rewrite Hcl. unfold rt_object_is_systemobject, bind, get_object. change (k_obj (upd_sched _ k1)) with (k_obj k). rewrite Hx.
  unfold ret. fold sys. revert Hr HI3. unfold k2. destruct sys; cbn [negb]; intros Hr HI3.
  - rewrite (object_detach_run _ (Obj t) x) by done. unfold upd_objects, upd_sched in Hr |- *. cbn in Hr |- *. rewrite Hr. by split.
  - rewrite Hr. by split.
Qed.

(** An ended thread in dynamic memory: its control block is in the block at [t], its
    stack in the block at [p], and its timer is detached. *)
Record dead (bs : list block) (s : dsys) (t p : Z) : Prop := {
  de_thr : ∃ th, k_thr (d_kst s) !! t = Some th ∧ stat_of th = RT_THREAD_CLOSE ∧ th_stack_addr th = p ∧ simple_cleanup t th;
  de_cur : k_cur (d_kst s) ≠ Some t;
  de_owned : owned heap_sem bs s t;
  de_obj : ∃ x, k_obj (d_kst s) !! Obj t = Some x ∧ o_type x = RT_Object_Class_Thread;
  de_timer : ∀ y, k_obj (d_kst s) !! ThreadTimer t = Some y → get_type y ≠ RT_Object_Class_Timer;
  de_list : ∀ cls, ThreadTimer t ∉ tlist (ob_list (k_objects (d_kst s))) cls;
  de_wait : tlist (k_tl (d_kst s)) (HSuspend t) = [] ∧ tlist (k_tl (d_kst s)) (HSender t) = [];
  de_stack : (∃ o z, p = block_addr (d_heap s) o ∧ used_at bs o z) ∧ vacant p s
}.

(** The blocks of [bs] but those at the addresses of [gone]. *)
Definition without (bs : list block) (s : dsys) (gone : list Z) (bs' : list block) : Prop :=
  ∀ o z, used_at bs' o z ↔ used_at bs o z ∧ block_addr (d_heap s) o ∉ gone.

(** Unlinking a closed thread and rescheduling changes nothing an object's owner sees. *)
Lemma only_at_unlink a t k c' T O h pool :
  sched_inv (unlink_sc t (k_sched k)) → scheduled (unlink_sc t (k_sched k)) c' → k_timers k = T → k_objects k = O →
  (∀ b, t ∉ tlist (k_tl k) (HSuspend b) ∧ t ∉ tlist (k_tl k) (HSender b)) →
  only_at a (mk_dsys k h pool) (mk_dsys (mk_kst c' T O (k_ipc k)) h pool).
Proof.
  intros Hi Hs <- <- Hn. pose proof (scheduled_moved _ _ Hi Hs) as Hm.
  assert (∀ h b, h = HSuspend b ∨ h = HSender b → tlist (sc_tl c') h = tlist (k_tl k) h) as Hl.
  { intros hd b Hh. rewrite (scheduled_waiting _ _ hd Hi Hs) by (intros q; by destruct Hh as [-> | ->]).
    cbn. rewrite tlist_remove. apply filter_ne_notin. destruct Hh as [-> | ->]; apply Hn. }
  split; cbn; try done.
  - intros b _ Hb. destruct (k_thr (mk_kst c' _ _ _) !! b) as [u|] eqn:Eu; [|done].
    destruct (moved_lookup _ _ _ _ Hm Eu) as (u0 & Hu0 & _). cbn in Hu0. unfold k_thr in Hb. congruence.
  - intros b _. split; [apply (Hl _ b); by left|apply (Hl _ b); by right].
  - by destruct (scheduled_nests _ _ Hs) as [_ ->].
Qed.

(** What an ended thread needs of another state. *)
Lemma dead_keep bs s bs' s' u q a :
  dead bs s u q → only_at a s s' → u ≠ a → q ≠ a → h_ptr (d_heap s') = h_ptr (d_heap s) →
  (∀ o z, used_at bs o z → block_addr (d_heap s) o = u ∨ block_addr (d_heap s) o = q → used_at bs' o z) →
  (∀ th, k_thr (d_kst s) !! u = Some th → stat_of th = RT_THREAD_CLOSE → k_thr (d_kst s') !! u = Some th) →
  k_cur (d_kst s') ≠ Some u →
  (∀ y, k_obj (d_kst s') !! ThreadTimer u = Some y → k_obj (d_kst s) !! ThreadTimer u = Some y) → dead bs' s' u q.
Proof.
  intros [(th & Ht & Hs & Hsp & Hcl) Hcu [Hns (o & z & Eo & Hu)] (x & Hx & Hty) Htm Htl Hwt [(op & zp & Ep & Hup) Hvp]] Hoa Hua Hqa Eh Hk Hth Hc' Htm'.
  assert (∀ o, block_addr (d_heap s') o = block_addr (d_heap s) o) as Eb by (intros; unfold block_addr; by rewrite Eh).
  split; [exists th; auto|done| |exists x; by rewrite (oa_obj _ _ _ Hoa)| | | |].
  - split; [done|]. exists o, z. rewrite Eb. split; [done|]. apply Hk; [done|]. by left.
  - intros y Hy. by apply Htm, Htm'.
  - intros cls Hin. apply (Htl cls). by apply (oa_list _ _ _ Hoa u cls Hua).
  - by destruct (oa_wait _ _ _ Hoa u Hua) as [-> ->].
  - split; [|by eapply vacant_other]. exists op, zp. rewrite Eb. split; [done|]. apply Hk; [done|]. by right.
Qed.

(** The state after [take_defunct]. *)
Lemma taken bs s t rest th c' :
  dinv heap_sem bs s → tlist (k_tl (d_kst s)) HDefunct = t :: rest → k_thr (d_kst s) !! t = Some th →
  stat_of th = RT_THREAD_CLOSE → owned heap_sem bs s t → scheduled (unlink_sc t (k_sched (d_kst s))) c' →
  let s' := mk_dsys (mk_kst c' (k_timers (d_kst s)) (k_objects (d_kst s)) (k_ipc (d_kst s))) (d_heap s) (d_pool s) in
  kinv (d_kst s') →
  dinv heap_sem bs s' ∧ (∀ a, only_at a s s') ∧ tlist (k_tl (d_kst s')) HDefunct = rest ∧ (∀ h, t ∉ tlist (k_tl (d_kst s')) h) ∧
  (∀ u uh, k_thr (d_kst s) !! u = Some uh → stat_of uh = RT_THREAD_CLOSE → k_thr (d_kst s') !! u = Some uh) ∧
  (∀ u uh, k_thr (d_kst s) !! u = Some uh → stat_of uh = RT_THREAD_CLOSE → k_cur (d_kst s) ≠ Some u → k_cur (d_kst s') ≠ Some u).
Proof.
  intros Hd Hl Ht Hs (Hns & o & z & Eo & Hu) Hsch s' HI'. destruct s as [k h pool]. cbn [d_kst d_heap d_pool] in *.
  pose proof (kinv_unlink_closed k t th (di_kinv _ _ _ Hd) Ht Hs) as [HI1 _]. pose proof (ki_sched _ HI1) as Hi1. cbn in Hi1.
  pose proof (proj1 (ki_sched _ (proj1 (di_kinv _ _ _ Hd)))) as Hsw. cbn in Hsw.
  assert (∀ hd, hd ≠ HDefunct → t ∉ tlist (k_tl k) hd) as Hnd.
  { intros hd Hne Hin. apply Hne. apply (sw_disj _ _ Hsw t); [done|]. unfold k_tl in Hl. rewrite Hl. set_solver. }
  assert (∀ a, only_at a (mk_dsys k h pool) s') as Hoa.
  { intros a. eapply only_at_unlink; [exact Hi1|exact Hsch|done|done|]. intros b. split; by apply Hnd. }
  assert (tlist (sc_tl c') HDefunct = rest) as Hdf.
  { rewrite (scheduled_waiting _ _ HDefunct Hi1 Hsch) by done. cbn. rewrite tlist_remove. unfold k_tl in Hl. rewrite Hl.
    pose proof (sw_nodup _ _ Hsw HDefunct) as Hnn. rewrite Hl in Hnn. apply NoDup_cons in Hnn as [Hnn _].
    rewrite filter_cons_False by (by intros ?). by apply filter_ne_notin. }
  assert (∀ u uh, k_thr k !! u = Some uh → stat_of uh = RT_THREAD_CLOSE → sc_thr c' !! u = Some uh) as Hthr.
  { intros u uh Hu' Hs'. eapply moved_suspended; [by apply scheduled_moved, Hsch|done|]. intros [?|?]; stat_lia. }
  split_and!; [|done|done| |done|].
  - eapply (dinv_step heap_sem bs bs _ s' t o); [exact Hd|done|done|done|done| |apply Hd|done|done|].
    + cbn. destruct (scheduled_nests _ _ Hsch) as [-> _]. apply Hd.
    + intros Hno. by destruct (Hno z).
  - intros hd Hin. destruct (sw_place _ _ (proj1 (ki_sched _ (proj1 HI'))) t hd Hin) as (uh & Huh & Hok). cbn in Huh.
    rewrite (Hthr t th Ht Hs) in Huh. injection Huh as <-.
    destruct hd as [q|b|b|]; cbn in Hok; [destruct Hok; stat_lia|stat_lia|stat_lia|].
    cbn in Hin. unfold k_tl in Hin. cbn in Hin. rewrite Hdf in Hin.
    pose proof (sw_nodup _ _ Hsw HDefunct) as Hnn. unfold k_tl in Hl. rewrite Hl in Hnn. apply NoDup_cons in Hnn as [Hnn _]. done.
  - intros u uh Hu' Hs' Hc. eapply scheduled_not_closed; [exact Hi1|exact Hsch|exact Hu'|done|done].
Qed.

(** One ended thread is taken off the list and both its blocks are given back; the other
    ended threads stay as they are. *)
Lemma reclaim_step bs s t p rest (f : D unit) Q :
  dinv heap_sem bs s → tlist (k_tl (d_kst s)) HDefunct = t :: rest → dead bs s t p →
  (∀ bs' s', dinv heap_sem bs' s' → tlist (k_tl (d_kst s')) HDefunct = rest → vacant t s' →
     h_ptr (d_heap s') = h_ptr (d_heap s) → without bs s [t; p] bs' →
     (∀ u q, u ≠ t → q ≠ p → dead bs s u q → dead bs' s' u q) → (∀ q, q ≠ t → vacant q s → vacant q s') →
     dwp f Q s') →
  dwp (r ⇐ now (kern (take_defunct cleanup));
       match r with
       | None => dret tt
       | Some thread =>
           th ⇐ now (kern (get_thread thread));
           RT_KERNEL_FREE heap_sem (th_stack_addr th) ;;;
           rt_object_delete heap_sem thread ;;;
           f
       end) Q s.
Proof.
  intros Hd Hl [(th & Ht & Hs & Hsp & Hcl) Hcu Hown (x & Hx & Hty) Htm Htl Hwt [(op & zp & Ep & Hup) Hvp]] Hf.
  assert (get_type x = RT_Object_Class_Thread) as Hgt by (unfold get_type; by rewrite Hty).
  destruct (take_defunct_run (d_kst s) t rest th x (di_kinv _ _ _ Hd) (di_nest _ _ _ Hd) Hl Ht Hcl Hx Hgt) as (c' & Hsch & Hrun & HI').
  rewrite Hty in Hrun, HI'. change (negb (nz (Z.land RT_Object_Class_Thread RT_Object_Class_Static))) with true in Hrun, HI'. cbv iota in Hrun, HI'.
  destruct (taken bs s t rest th c' Hd Hl Ht Hs Hown Hsch HI') as (Hd1 & Hoa1 & Hdf1 & Hnl1 & Hthr1 & Hcur1).
  apply dwp_seq, wp_kern. unfold wp. rewrite Hrun. cbv beta iota. set (s1 := mk_dsys _ _ _) in *.
  apply dwp_seq, wp_kern. pose proof (Hthr1 t th Ht Hs) as Ht1. unfold wp, get_thread. rewrite Ht1. rewrite Hsp, Ep.
  assert (∀ q, vacant q s → vacant q s1) as Hv1 by (intros q; apply (vacant_other (q + 1)); [done|lia]).
  apply dwp_bind. eapply dwp_mono; [apply (free_step heap_sem bs s1 op zp Hd1 Hup); cbn [d_heap s1]; rewrite <- Ep; by apply Hv1|].
  intros _ s2 (bs2 & h2 & -> & Hd2 & Hrm2 & Hfx2). set (s2 := mk_dsys _ h2 _) in *.
  destruct Hown as (Hns & ot & zt & Et & Hut).
  assert (t ≠ p) as Htp by (intros ->; pose proof (va_obj _ _ Hvp); congruence).
  assert (∀ o, block_addr h2 o = block_addr (d_heap s) o) as Eb by (intros; unfold block_addr; by rewrite (proj1 Hfx2)).
  assert (deletable t x (d_kst s2)) as Hdel.
  { split; [done|by rewrite Hty|by apply (kinv_reclaim _ t th)| |done|done|].
    - split; [done|]. by apply (Hcur1 t th).
    - destruct (oa_wait _ _ _ (Hoa1 (t + 1)) t ltac:(lia)) as [E1 E2]. change (d_kst s2) with (d_kst s1). by rewrite E1, E2. }
  destruct (object_delete_run heap_sem bs2 s2 t ot zt x Hd2) as (s3 & bs3 & E3 & Hd3 & Hrm3 & Hv3 & Ho3 & Ek3 & Epl3 & Hfx3);
    [by rewrite Et; symmetry; apply Eb|apply Hrm2; split; [done|congruence]|done|done|].
  apply dwp_bind. eexists _, _. split; [exact E3|].
  assert (∀ a, only_at a s s2) as Hoa2 by (intros a; eapply only_at_trans; [apply Hoa1|apply (only_at_refl a s1 h2)]).
  assert (only_at t s s3) as Hoa3 by (eapply only_at_trans; [apply Hoa2|exact Ho3]).
  assert (without bs s [t; p] bs3) as Hwo.
  { intros o z. unfold removed in *. rewrite Hrm3, Hrm2, Et, Ep. unfold block_addr. rewrite !not_elem_of_cons.
    split; [intros [[? ?] ?]; split_and!; [done|lia|lia|set_solver]|intros (? & ? & ? & _); split_and!; [done|..]; intros ->; done]. }
  apply (Hf bs3 s3); [done|by rewrite Ek3|done|by rewrite (proj1 Hfx3); apply Hfx2|done| |].
  - intros u q Hut' Hqp Hdu. pose proof (de_obj _ _ _ _ Hdu) as (xu & Hxu & _). pose proof (de_stack _ _ _ _ Hdu) as [_ Hvq].
    assert (q ≠ t) as Hqt by (intros ->; pose proof (va_obj _ _ Hvq); congruence).
    assert (u ≠ p) as Hup' by (intros ->; pose proof (va_obj _ _ Hvp); congruence).
    apply (dead_keep bs s bs3 s3 u q t); [done|done|done|done|by rewrite (proj1 Hfx3); apply Hfx2| | | |].
    + intros o z Ho Hor. apply Hwo. split; [done|]. rewrite !not_elem_of_cons. destruct Hor as [-> | ->]; set_solver.
    + intros uh Huh Hsu. rewrite Ek3. unfold k_thr. cbn. rewrite lookup_delete_ne by done. by apply (Hthr1 u uh).
    + rewrite Ek3. destruct (de_thr _ _ _ _ Hdu) as (uh & Huh & Hsu & _). by apply (Hcur1 u uh), Hdu.
    + intros y. rewrite Ek3. unfold k_obj. cbn. rewrite lookup_delete_ne by done.
      rewrite lookup_delete_ne by congruence. by rewrite lookup_insert_ne by done.
  - intros q Hqt Hvq. by apply (vacant_other t q s).
Qed.

(** C25: Reclamation of ended threads: when the ended threads are in dynamic memory and have no
    cleanup function, or one that touches no kernel state, one call of
    [rt_thread_idle_excute] empties the list of ended threads, removes every one of them
    from the kernel and gives exactly their control blocks and stacks back to the heap,
    without waiting; the number of rounds is the number of ended threads. (The cleanup
    function of pthreads, which releases a semaphore, is not covered.) *)
Theorem rt_thread_idle_excute_spec l : ∀ bs s fuel,
  dinv heap_sem bs s → tlist (k_tl (d_kst s)) HDefunct = l.*1 → NoDup l.*2 →
  Forall (λ tp, dead bs s tp.1 tp.2) l → (length l < fuel)%nat →
  dwp (rt_thread_idle_excute heap_sem cleanup fuel) (λ _ s', tlist (k_tl (d_kst s')) HDefunct = [] ∧
    (∀ t, t ∈ l.*1 → vacant t s') ∧ (∀ q, vacant q s → vacant q s') ∧
    ∃ bs', dinv heap_sem bs' s' ∧ without bs s (l.*1 ++ l.*2) bs') s.
Proof.
  induction l as [|[t p] l IH]; intros bs s [|fuel] Hd Hl Hnp Hall Hfu; cbn in Hfu; [lia| |lia|]; cbn [rt_thread_idle_excute].
  - apply dwp_seq, wp_kern. unfold wp, _has_defunct_thread, gets. rewrite Hl. cbn. apply dwp_ret. destruct s as [k h pool].
    split_and!; [done|set_solver|done|]. exists bs. split; [done|]. intros o z. set_solver.
  - apply dwp_seq, wp_kern. unfold wp, _has_defunct_thread, gets. rewrite Hl. cbn [fmap list_fmap fst].
    apply dwp_seq. destruct s as [k h pool]. cbn [d_kst d_heap d_pool] in *. unfold wp. rewrite (not_in_interrupt _ _ _ Hd).
    apply Forall_cons in Hall as [Hde Hall]. apply NoDup_cons in Hnp as [Hnp Hnd]. cbn in Hnp, Hde.
    eapply (reclaim_step bs _ t p (l.*1)); [exact Hd|exact Hl|exact Hde|].
    intros bs' s' Hd' Hl' Hvt Eh Hwo Hkeep Hvk.
    pose proof (sw_nodup _ _ (proj1 (ki_sched _ (proj1 (di_kinv _ _ _ Hd)))) HDefunct) as Hnt. cbn in Hl. unfold k_tl in Hl. cbn in Hnt. rewrite Hl in Hnt.
    apply NoDup_cons in Hnt as [Hnt _].
    eapply dwp_mono; [apply (IH bs' s' fuel); [done|done|done| |lia]|].
    + rewrite Forall_forall in Hall |- *. intros [u q] Hin. apply Hkeep; [| |by apply (Hall (u, q))].
      * cbn. intros ->. apply Hnt, (list_elem_of_fmap_2 fst _ _ Hin).
      * cbn. intros ->. apply Hnp, (list_elem_of_fmap_2 snd _ _ Hin).
    + intros _ s2 (Hl2 & Hv2 & Hvk2 & bs2 & Hd2 & Hwo2). split_and!; [done| | |].
      * intros u [->|Hin]%elem_of_cons; [by apply Hvk2|by apply Hv2].
      * intros q Hvq. destruct (Z.eq_dec q t) as [->|Hne]; [by apply Hvk2|]. by apply Hvk2, Hvk.
      * exists bs2. split; [done|]. intros o z. unfold without, block_addr in *. rewrite Hwo2, Hwo, Eh. cbn [d_heap].
        cbn [fmap list_fmap fst snd app]. rewrite !elem_of_cons, !elem_of_app, !elem_of_cons, elem_of_nil. tauto.
Qed.
End reclaim.

(** * Static threads *)

Section static.
Context (heap_sem : Z) (cleanup : Z → Z → K unit).

(** [rt_thread_idle_excute] detaches an ended static thread and returns at once: the
    threads behind it stay in the list of ended threads until the next call, and the heap
    is not touched. *)
Theorem rt_thread_idle_excute_static s t rest th x fuel :
  kinv (d_kst s) → 0 ≤ sc_lock_nest (k_sched (d_kst s)) < 2 ^ 15 - 1 → sc_irq_nest (k_sched (d_kst s)) = 0 →
  tlist (k_tl (d_kst s)) HDefunct = t :: rest → k_thr (d_kst s) !! t = Some th → simple_cleanup cleanup t th →
  k_obj (d_kst s) !! Obj t = Some x → o_type x = RT_Object_Class_Thread + RT_Object_Class_Static →
  dwp (rt_thread_idle_excute heap_sem cleanup (S fuel)) (λ _ s', kinv (d_kst s') ∧ d_heap s' = d_heap s ∧
    tlist (k_tl (d_kst s')) HDefunct = rest ∧ k_obj (d_kst s') !! Obj t = Some (with_type 0 x) ∧
    ∀ cls, Obj t ∉ tlist (ob_list (k_objects (d_kst s'))) cls) s.
Proof.
  intros HI Hn Hi Hl Ht Hcl Hx Hty. assert (get_type x = RT_Object_Class_Thread) as Hgt by (unfold get_type; by rewrite Hty).
  destruct (take_defunct_run cleanup (d_kst s) t rest th x HI Hn Hl Ht Hcl Hx Hgt) as (c' & Hsch & Hrun & HI').
  rewrite Hty in Hrun, HI'. change (negb (nz (Z.land (RT_Object_Class_Thread + RT_Object_Class_Static) RT_Object_Class_Static))) with false in Hrun, HI'.
  cbv iota in Hrun, HI'. cbn [rt_thread_idle_excute]. apply dwp_seq, wp_kern. unfold wp, _has_defunct_thread, gets. rewrite Hl.
  apply dwp_seq, wp_kern. destruct s as [k h pool]. cbn [d_kst d_heap d_pool] in *.
  unfold RT_DEBUG_NOT_IN_INTERRUPT, rt_interrupt_get_nest, wp, bind, gets. rewrite Hi. cbn.
  apply dwp_seq, wp_kern. unfold wp. cbn [d_kst]. rewrite Hrun. apply dwp_ret. cbn.
  pose proof (kinv_unlink_closed k t th HI Ht) as Hun.
  assert (stat_of th = RT_THREAD_CLOSE) as Hs.
  { destruct (sw_place _ _ (proj1 (ki_sched _ (proj1 HI))) t HDefunct) as (u & Hu & Hok); [unfold k_tl in Hl; rewrite Hl; set_solver|].
    unfold k_thr in Ht. rewrite Ht in Hu. by injection Hu as <-. }
  specialize (Hun Hs). split_and!; [done|done| | |].
  - unfold k_tl. cbn. rewrite (scheduled_waiting _ _ HDefunct (ki_sched _ (proj1 Hun)) Hsch) by done. cbn. rewrite tlist_remove.
    unfold k_tl in Hl. rewrite Hl. pose proof (sw_nodup _ _ (proj1 (ki_sched _ (proj1 HI))) HDefunct) as Hnn.
    rewrite Hl in Hnn. apply NoDup_cons in Hnn as [Hnn _]. rewrite filter_cons_False by (by intros ?). by apply filter_ne_notin.
  - unfold k_obj. cbn. by rewrite lookup_insert_eq.
  - intros cls. rewrite tlist_remove, list_elem_of_filter. naive_solver.
Qed.
End static.

(** * The tick interrupt *)

Lemma kinv_irq n s : kinv s → kinv (upd_sched (set_irq_nest n) s).
Proof.
  intros [HI Hw]. split; [|done]. pose proof (ki_sched _ HI) as ([] & Hok & Hst).
  apply (kinv0_sched s (set_irq_nest n (k_sched s))); [done| |apply HI|eauto|eauto]. split_and!; [by split|done|done].
Qed.

Lemma hinv_irq P V U n s : hinv P V U None Fired false s → hinv P V U None Fired false (upd_sched (set_irq_nest n) s).
Proof.
  intros HI. destruct (kinv_irq n s (conj (h_k0 HI) (h_twf HI))) as [HI' _].
  destruct HI. by split.
Qed.

Section systick.
Context (enter_hook leave_hook HAL_IncTick : K unit).
(** Hooks must be simple (the note of [rt_interrupt_enter_sethook]); the vendor's counter is
    not part of the kernel. *)
Context (enter_local : ∀ s, enter_hook s = Some (tt, s)) (leave_local : ∀ s, leave_hook s = Some (tt, s)).
Context (hal_local : ∀ s, HAL_IncTick s = Some (tt, s)).

(** C29: The tick interrupt runs the whole tick in interrupt context and restores the
    nesting depth it found, whatever timers expire, whatever kernel calls their timeout
    functions make (within [prog_ok]) and whatever thread is current afterwards; the kernel
    invariant holds and the time advances by one. A waiting thread either keeps waiting,
    its timeout one tick nearer and not yet reached, or is awake; a thread that no timeout
    function wakes is woken exactly when its timeout is reached, with [-RT_ETIMEOUT]. *)
Theorem SysTick_Handler_spec P V U progs s fuel :
  hinv P V U None Fired false s → progs_ok P V U progs s →
  (length (k_rows s) < fuel)%nat → 0 ≤ sc_irq_nest (k_sched s) < 255 →
  wp (SysTick_Handler enter_hook leave_hook HAL_IncTick (user progs) fuel) (λ _ s', hinv P V U None Fired false s' ∧
    sc_irq_nest (k_sched s') = sc_irq_nest (k_sched s) ∧ k_tick s' = u32 (k_tick s + 1) ∧
    ∀ u, ThreadTimer u ∈ k_rows s →
      ((1 < off (k_timers s) (ThreadTimer u) ∧ ThreadTimer u ∈ k_rows s' ∧
          off (k_timers s') (ThreadTimer u) = off (k_timers s) (ThreadTimer u) - 1) ∨
       ThreadTimer u ∉ k_rows s' ∧ awake s' u) ∧
      (¬ spoiled progs (ThreadTimer u) →
         (ThreadTimer u ∈ k_rows s' ↔ 1 < off (k_timers s) (ThreadTimer u)) ∧
         (off (k_timers s) (ThreadTimer u) ≤ 1 →
            ∃ uh, k_thr s' !! u = Some uh ∧ active uh ∧ th_error uh = - RT_ETIMEOUT))) s.
Proof.
  intros HI Hok Hfuel Hn. set (n := sc_irq_nest (k_sched s)) in *.
  assert (u8 (n + 1) = n + 1) as E1 by (apply wrap_small; lia).
  assert (u8 (n + 1 - 1) = n) as E2 by (rewrite Z.add_simpl_r; apply wrap_small; lia).
  pose proof (hinv_irq P V U (n + 1) s HI) as HI1. set (s1 := upd_sched (set_irq_nest (n + 1)) s) in *.
  destruct (tick_run P V U progs s1 fuel HI1 Hok Hfuel) as (s' & Hrun & [K1 K2 K3 K4 K5 K6 K7 K8 K9]). cbn in K3.
  assert (SysTick_Handler enter_hook leave_hook HAL_IncTick (user progs) fuel s = Some (tt, upd_sched (set_irq_nest n) s')) as Hall.
  { unfold SysTick_Handler, rt_interrupt_enter, rt_interrupt_leave, bind, modify. rewrite enter_local, hal_local.
    assert (upd_sched (λ c, set_irq_nest (u8 (sc_irq_nest c + 1)) c) s = s1) as -> by (unfold s1, upd_sched; cbn; by rewrite <- E1).
    rewrite Hrun, leave_local. unfold upd_sched. by rewrite K3, E2. }
  unfold wp. rewrite Hall. split_and!; [by apply hinv_irq|done|exact K2|].
  intros u Hu. destruct (K9 u Hu) as [(Hlt & Hin & Hoff)|(Hnin & uh & Huh & Ha & He)]; cbn in *.
  - split; [by left|]. intros _. split; [done|]. intros Hle. exfalso. lia.
  - split; [right; split; [done|by exists uh]|]. intros Hns. specialize (He Hns). split; [|intros _; by exists uh].
    split; [done|]. intros Hlt. exfalso. apply Hnin. specialize (K8 _ Hns). unfold k_rows.
    pose proof (tw_range _ _ (h_twf HI) _ Hu) as Hrg. pose proof (proj1 (tw_rows _ _ (h_twf HI) _ Hu)) as Htm.
    unfold after_check in K8. rewrite decide_False in K8; [by apply (tview_rows _ _ _ _ _ K8)|].
    intros [_ Hle]. pose proof (off_next (k_timers s) (ThreadTimer u) Hrg Htm) as E. unfold k_tick in Hle. cbn -[off] in Hle. lia.
Qed.
End systick.

(** * Hooks *)

Lemma hook_loop_app n old new l1 l2 :
  old ∉ l1 → (length l1 < n)%nat → hook_loop n old new (l1 ++ old :: l2) = Some (l1 ++ new :: l2).
Proof.
  revert n. induction l1 as [|h l1 IH]; intros [|n] Ho Hn; cbn in *; [lia|by rewrite Z.eqb_refl|lia|].
  apply not_elem_of_cons in Ho as [Hne Ho]. rewrite (proj2 (Z.eqb_neq _ _)) by done. by rewrite IH by (done || lia).
Qed.

Lemma hook_loop_none n old new l : old ∉ l → hook_loop n old new l = None.
Proof.
  revert n. induction l as [|h l IH]; intros [|n] Ho; cbn; [done..|].
  apply not_elem_of_cons in Ho as [Hne Ho]. rewrite (proj2 (Z.eqb_neq _ _)) by done. by rewrite IH.
Qed.

(** A hook that was added to the table and is removed again leaves the table as it
    was; adding fails with [-RT_EFULL] exactly when no entry is free, removing with
    [-RT_ENOSYS] when the hook is not in the table, and then nothing changes. *)
Theorem idle_hook_roundtrip s h :
  length (i_hooks s) = RT_IDEL_HOOK_LIST_SIZE → h ≠ 0 → h ∉ i_hooks s →
  rt_thread_idle_delhook h s = Some (- RT_ENOSYS, s) ∧
  (0 ∉ i_hooks s → rt_thread_idle_sethook h s = Some (- RT_EFULL, s)) ∧
  (0 ∈ i_hooks s → (rt_thread_idle_sethook h ;; rt_thread_idle_delhook h) s = Some (RT_EOK, s)).
Proof.
  intros Hlen Hh Hn. unfold rt_thread_idle_sethook, rt_thread_idle_delhook. rewrite hook_loop_none by done.
  split; [done|]. split; [intros H0; by rewrite hook_loop_none|].
  intros (l1 & l2 & El & H0)%list_elem_of_split_l. unfold bind. destruct s as [hooks d]. cbn [i_hooks] in *. subst hooks.
  rewrite length_app in Hlen. cbn in Hlen. unfold RT_IDEL_HOOK_LIST_SIZE in *.
  rewrite hook_loop_app by (done || lia). cbn [i_hooks i_sys].
  rewrite hook_loop_app; [done| |lia]. intros Hin. apply Hn. apply elem_of_app. by left.
Qed.

(** * Instances *)

Lemma dyn_dead_ok : dead 103 (λ _ _, ret tt) dyn_blocks dyn_sys dyn_dead dyn_stack.
Proof.
  split; [eexists; split_and!; [reflexivity..|done]|done| |eexists; split; reflexivity| | |split; reflexivity|].
  - split; [done|]. exists 44, 140. split; [reflexivity|]. cbn. tauto.
  - intros y Hy. vm_compute in Hy. injection Hy as <-. done.
  - intros cls Hin. by destruct (dyn_lists _ _ Hin).
  - split; [exists 184, 92; split; [reflexivity|cbn; tauto]|].
    split; [reflexivity| |reflexivity|reflexivity|split; reflexivity|reflexivity].
    intros cls. split; intros Hin; by destruct (dyn_lists _ _ Hin).
Qed.

Lemma rt_thread_idle_excute_spec_witness :
  dwp (rt_thread_idle_excute 103 (λ _ _, ret tt) 2) (λ _ s', tlist (k_tl (d_kst s')) HDefunct = [] ∧ vacant dyn_dead s') dyn_sys.
Proof.
  eapply dwp_mono; [eapply (rt_thread_idle_excute_spec 103 (λ _ _, ret tt) [(dyn_dead, dyn_stack)] dyn_blocks);
    [apply dyn_dinv|reflexivity|apply NoDup_singleton|by apply Forall_singleton, dyn_dead_ok|cbn; lia]|].
  intros _ s' (Hl & Hv & _). split; [done|]. apply Hv. cbn. set_solver.
Defined.

(** After the round the heap is as if the thread had never been created: one block is in
    use, all other memory is one free block. *)
Example idle_coalesces :
  match rt_thread_idle_excute 103 (λ _ _, ret tt) 2 dyn_sys with
  | Some (_, s') => (h_used (d_heap s'), h_lfree (d_heap s')) = (44, 44)
  | None => False
  end.
Proof. vm_compute. reflexivity. Qed.

(** The dynamic thread waits behind an ended static one. *)
Definition static_sys : dsys :=
  let k := d_kst dyn_sys in
  let th := mk_thread 2000 7 0 1500 600 35 0 RT_THREAD_CLOSE 9 9 (2 ^ 9) 0 0 10 10 (Some 1) 0 in
  mk_dsys (mk_kst (set_tl (<[HDefunct := [50; dyn_dead]]> (k_tl k)) (set_thr (<[50 := th]> (k_thr k)) (k_sched k))) (k_timers k)
    (put_obj (Obj 50) (dyn_hdr (RT_Object_Class_Thread + RT_Object_Class_Static)) (k_objects k)) (k_ipc k)) dyn_heap ∅.

Lemma rt_thread_idle_excute_static_witness :
  dwp (rt_thread_idle_excute 103 (λ _ _, ret tt) 5) (λ _ s', tlist (k_tl (d_kst s')) HDefunct = [dyn_dead]) static_sys.
Proof.
  eapply dwp_mono; [eapply (rt_thread_idle_excute_static 103 (λ _ _, ret tt) static_sys 50 [dyn_dead]);
    [apply kinv_check_sound; vm_compute; reflexivity|by vm_compute|reflexivity|reflexivity|reflexivity|done|reflexivity..]|].
  by intros _ s' (_ & _ & Hl & _).
Defined.

Lemma SysTick_Handler_spec_witness :
  wp (SysTick_Handler (ret tt) (ret tt) (ret tt) (user demo_progs) 5)
    (λ _ s', k_tick s' = 101 ∧ sc_irq_nest (k_sched s') = 0) (demo_cb 100).
Proof.
  eapply wp_mono.
  - eapply (SysTick_Handler_spec (ret tt) (ret tt) (ret tt) (λ _, eq_refl) (λ _, eq_refl) (λ _, eq_refl)
      demo_P (λ a, a = 101) (λ u, u = 5) demo_progs (demo_cb 100) 5);
      [apply demo_cb_hinv; by left|apply demo_progs_ok|vm_compute; lia|by vm_compute].
  - intros _ s' (_ & Hn & Ht & _). split; [exact Ht|exact Hn].
Defined.

Lemma idle_hook_roundtrip_witness :
  (rt_thread_idle_sethook 7 ;; rt_thread_idle_delhook 7) (mk_isys [3; 0; 4; 0] dyn_sys) = Some (RT_EOK, mk_isys [3; 0; 4; 0] dyn_sys).
Proof.
  apply (idle_hook_roundtrip (mk_isys [3; 0; 4; 0] dyn_sys) 7); [reflexivity|done|..]; cbn; set_solver.
Defined.
