(* ===== verification/Device.v ===== *)
(** Devices, src/device.c: registration and lookup by name, activation on first use,
    reference counting of users, and dispatch to the operations of the driver. The
    operations a driver provides are a record of functions; what the device layer relies
    on is stated as a class of laws. *)

From Stdlib Require Import ZArith Lia.
From stdpp Require Import base numbers option gmap.
From stdpp Require Import list.
From S2P Require Import Prelude.
From S2P Require Import Kservice.
From S2P Require Import KernelDefs.
From S2P Require Import Scheduler.
From S2P Require Import Object.
From S2P Require Import Timer.
From S2P Require Import Thread.
From S2P Require Import Clock.
From S2P Require Import Ipc.
From S2P Require Import Kstate.
Local Open Scope Z_scope.
Local Open Scope rt_scope.

(** * State *)

Definition RT_DEVICE_FLAG_RDWR : Z := 0x003.
Definition RT_DEVICE_FLAG_STANDALONE : Z := 0x008.
Definition RT_DEVICE_FLAG_ACTIVATED : Z := 0x010.
Definition RT_DEVICE_FLAG_SUSPENDED : Z := 0x020.
Definition RT_DEVICE_FLAG_STREAM : Z := 0x040.
Definition RT_DEVICE_FLAG_INT_RX : Z := 0x100.
Definition RT_DEVICE_FLAG_DMA_RX : Z := 0x200.
Definition RT_DEVICE_FLAG_INT_TX : Z := 0x400.
Definition RT_DEVICE_FLAG_DMA_TX : Z := 0x800.
Definition RT_DEVICE_OFLAG_CLOSE : Z := 0x000.
Definition RT_DEVICE_OFLAG_OPEN : Z := 0x008.
Definition RT_DEVICE_OFLAG_MASK : Z := 0xf0f.

(** [struct rt_device] behind its object header; callbacks of the application are named
    by their address. *)
Record rt_device := mk_device {
  dv_type : Z;
  dv_flag : Z;
  dv_open_flag : Z;
  dv_ref_count : Z;
  dv_rx_indicate : option Z;
  dv_tx_complete : option Z;
  dv_user_data : Z
}.

Definition with_dflag (f : Z) (d : rt_device) : rt_device :=
  mk_device (dv_type d) f (dv_open_flag d) (dv_ref_count d) (dv_rx_indicate d) (dv_tx_complete d) (dv_user_data d).
Definition with_open_flag (f : Z) (d : rt_device) : rt_device :=
  mk_device (dv_type d) (dv_flag d) f (dv_ref_count d) (dv_rx_indicate d) (dv_tx_complete d) (dv_user_data d).
Definition with_ref_count (n : Z) (d : rt_device) : rt_device :=
  mk_device (dv_type d) (dv_flag d) (dv_open_flag d) n (dv_rx_indicate d) (dv_tx_complete d) (dv_user_data d).
Definition with_rx_indicate (f : option Z) (d : rt_device) : rt_device :=
  mk_device (dv_type d) (dv_flag d) (dv_open_flag d) (dv_ref_count d) f (dv_tx_complete d) (dv_user_data d).
Definition with_tx_complete (f : option Z) (d : rt_device) : rt_device :=
  mk_device (dv_type d) (dv_flag d) (dv_open_flag d) (dv_ref_count d) (dv_rx_indicate d) f (dv_user_data d).

(** The kernel, [__rt_errno], the devices, and the state of the drivers. *)
Record dst (D : Type) := mk_dst {
  d_k : kst;
  d_errno : Z;
  d_dev : gmap Z rt_device;
  d_drv : D
}.
Arguments mk_dst {D} _ _ _ _.
Arguments d_k {D} _.
Arguments d_errno {D} _.
Arguments d_dev {D} _.
Arguments d_drv {D} _.

#[export] Instance dst_kernel D : KernelState (dst D) := {|
  st_k := d_k;
  with_k k s := mk_dst k (d_errno s) (d_dev s) (d_drv s);
  st_errno := d_errno;
  with_errno e s := mk_dst (d_k s) e (d_dev s) (d_drv s)
|}.
#[export] Instance dst_laws D : KernelLaws (dst D).
Proof. by split; [..|intros []]. Qed.

(** The operations of a driver; [None] is [RT_NULL]. A read answers its result and the
    bytes it stored; a write may block and continue later as [W] says. A buffer is given by
    its address, and for a write also by what it holds. *)
Record dev_ops (D W : Type) := mk_ops {
  op_init : option (Z → M (dst D) Z);
  op_open : option (Z → Z → M (dst D) Z);
  op_close : option (Z → M (dst D) Z);
  op_read : option (Z → Z → Z → Z → M (dst D) (Z * list Z));
  op_write : option (Z → Z → Z → list Z → Z → M (dst D) (outcome Z W));
  op_control : option (Z → Z → Z → M (dst D) Z)
}.
Arguments mk_ops {D W} _ _ _ _ _ _.
Arguments op_init {D W} _.
Arguments op_open {D W} _.
Arguments op_close {D W} _.
Arguments op_read {D W} _.
Arguments op_write {D W} _.
Arguments op_control {D W} _.

(** * Lookup *)

(** The address of a device object. *)
Definition device_of (r : option oid) : option Z :=
  match r with Some (Obj a) => Some a | _ => None end.

Definition rt_device_find (name : list Z) : K (option Z) :=
  c ← gets k_cur;
  (if decide (is_Some c) then rt_enter_critical else ret tt) ;;
  assert (bool_decide (is_Some (rt_object_get_information RT_Object_Class_Device))) ;;
  objs ← gets k_obj;
  l ← gets (λ s, tlist (ob_list (k_objects s)) RT_Object_Class_Device);
  r ← from_opt (find_name objs name l);
  (if decide (is_Some c) then rt_exit_critical else ret tt) ;;
  ret (device_of r).

Section device.
Context {D W : Type}.
(** The operations of the device at an address. *)
Variable ops : Z → dev_ops D W.
Implicit Types s : dst D.

Definition get_dev (a : Z) : M (dst D) rt_device := λ s,
  match d_dev s !! a with Some d => Some (d, s) | None => None end.
Definition put_dev (a : Z) (d : rt_device) : M (dst D) unit :=
  modify (λ s, mk_dst (d_k s) (d_errno s) (<[a := d]> (d_dev s)) (d_drv s)).
Definition mod_dev (a : Z) (f : rt_device → rt_device) : M (dst D) unit := d ← get_dev a; put_dev a (f d).

(** * Operations *)

(** The device structure exists before it is registered; [None] is [RT_NULL]. *)
Definition rt_device_register (dev : option Z) (name : list Z) (flags : Z) : M (dst D) Z :=
  match dev with
  | None => ret (- RT_ERROR)
  | Some a =>
      r ← kern (rt_device_find name);
      match r with
      | Some _ => ret (- RT_ERROR)
      | None =>
          kern (rt_object_init (Obj a) RT_Object_Class_Device name) ;;
          mod_dev a (λ d, with_open_flag 0 (with_ref_count 0 (with_dflag (u16 flags) d))) ;;
          ret RT_EOK
      end
  end.

Definition rt_device_unregister (a : Z) : M (dst D) Z :=
  kern (assert_type (Obj a) RT_Object_Class_Device) ;;
  b ← kern (rt_object_is_systemobject (Obj a));
  assert b ;;
  kern (rt_object_detach (Obj a)) ;;
  ret RT_EOK.

Definition rt_device_init_all : M (dst D) Z := ret RT_EOK.

(** [dev->flag |= RT_DEVICE_FLAG_ACTIVATED] *)
Definition activate (a : Z) : M (dst D) unit :=
  mod_dev a (λ d, with_dflag (Z.lor (dv_flag d) RT_DEVICE_FLAG_ACTIVATED) d).

Definition activated (d : rt_device) : bool := nz (Z.land (dv_flag d) RT_DEVICE_FLAG_ACTIVATED).

Definition rt_device_init (a : Z) : M (dst D) Z :=
  d ← get_dev a;
  match op_init (ops a) with
  | None => ret RT_EOK
  | Some init =>
      if activated d then ret RT_EOK
      else
        result ← init a;
        (if negb (result =? RT_EOK) then ret tt else activate a) ;;
        ret result
  end.

(** The first part of [rt_device_open]: initialising the device if it is not active. *)
Definition open_init (a : Z) : M (dst D) Z :=
  d ← get_dev a;
  if activated d then ret RT_EOK
  else
    result ← match op_init (ops a) with None => ret RT_EOK | Some init => init a end;
    if negb (result =? RT_EOK) then ret result else activate a ;; ret RT_EOK.

Definition rt_device_open (a oflag : Z) : M (dst D) Z :=
  kern (assert_type (Obj a) RT_Object_Class_Device) ;;
  result ← open_init a;
  if negb (result =? RT_EOK) then ret result
  else
    d ← get_dev a;
    if nz (Z.land (dv_flag d) RT_DEVICE_FLAG_STANDALONE) && nz (Z.land (dv_open_flag d) RT_DEVICE_OFLAG_OPEN)
    then ret (- RT_EBUSY)
    else
      result ← match op_open (ops a) with
               | Some open => open a oflag
               | None => mod_dev a (with_open_flag (Z.land oflag RT_DEVICE_OFLAG_MASK)) ;; ret RT_EOK
               end;
      (if (result =? RT_EOK) || (result =? - RT_ENOSYS) then
         mod_dev a (λ d, with_ref_count (u8 (dv_ref_count d + 1))
           (with_open_flag (Z.lor (dv_open_flag d) RT_DEVICE_OFLAG_OPEN) d)) ;;
         d ← get_dev a;
         assert (nz (dv_ref_count d))
       else ret tt) ;;
      ret result.

Definition rt_device_close (a : Z) : M (dst D) Z :=
  kern (assert_type (Obj a) RT_Object_Class_Device) ;;
  d ← get_dev a;
  if dv_ref_count d =? 0 then ret (- RT_ERROR)
  else
    mod_dev a (with_ref_count (u8 (dv_ref_count d - 1))) ;;
    d ← get_dev a;
    if nz (dv_ref_count d) then ret RT_EOK
    else
      result ← match op_close (ops a) with Some close => close a | None => ret RT_EOK end;
      (if (result =? RT_EOK) || (result =? - RT_ENOSYS)
       then mod_dev a (with_open_flag RT_DEVICE_OFLAG_CLOSE) else ret tt) ;;
      ret result.

Definition rt_device_read (a pos buffer size : Z) : M (dst D) (Z * list Z) :=
  kern (assert_type (Obj a) RT_Object_Class_Device) ;;
  d ← get_dev a;
  if dv_ref_count d =? 0 then rt_set_errno (- RT_ERROR) ;; ret (0, [])
  else match op_read (ops a) with
       | Some read => read a pos buffer size
       | None => rt_set_errno (- RT_ENOSYS) ;; ret (0, [])
       end.

Definition rt_device_write (a pos buffer : Z) (data : list Z) (size : Z) : M (dst D) (outcome Z W) :=
  kern (assert_type (Obj a) RT_Object_Class_Device) ;;
  d ← get_dev a;
  if dv_ref_count d =? 0 then rt_set_errno (- RT_ERROR) ;; ret (Returned 0)
  else match op_write (ops a) with
       | Some write => write a pos buffer data size
       | None => rt_set_errno (- RT_ENOSYS) ;; ret (Returned 0)
       end.

Definition rt_device_control (a cmd arg : Z) : M (dst D) Z :=
  kern (assert_type (Obj a) RT_Object_Class_Device) ;;
  match op_control (ops a) with
  | Some control => control a cmd arg
  | None => ret (- RT_ENOSYS)
  end.

Definition rt_device_set_rx_indicate (a : Z) (rx_ind : option Z) : M (dst D) Z :=
  kern (assert_type (Obj a) RT_Object_Class_Device) ;;
  mod_dev a (with_rx_indicate rx_ind) ;;
  ret RT_EOK.

Definition rt_device_set_tx_complete (a : Z) (tx_done : option Z) : M (dst D) Z :=
  kern (assert_type (Obj a) RT_Object_Class_Device) ;;
  mod_dev a (with_tx_complete tx_done) ;;
  ret RT_EOK.

(** * Lookup and registration *)

(** Every object of the device container has a header. *)
Definition listed (k : kst) : Prop :=
  ∀ o, o ∈ tlist (ob_list (k_objects k)) RT_Object_Class_Device → is_Some (k_obj k !! o) ∧ is_Some (device_of (Some o)).

Lemma find_name_total objs name l :
  (∀ o, o ∈ l → is_Some (objs !! o)) → ∃ r, find_name objs name l = Some r ∧
    match r with Some o => o ∈ l | None => True end.
Proof.
  induction l as [|o l IH]; intros Hl; [by exists None|]. cbn [find_name].
  destruct (Hl o ltac:(by left)) as [x ->]. destruct (_ =? 0); [exists (Some o); split; [done|by left]|].
  destruct IH as (r & -> & Hr); [intros o' Ho'; apply Hl; by right|].
  exists r. split; [done|]. destruct r; [by right|done].
Qed.

(** [rt_device_find] answers what the search of the container answers; the kernel may
    reschedule on the way out. *)
Lemma find_run k name :
  kinv k → 0 ≤ sc_lock_nest (k_sched k) < 2 ^ 15 - 1 → listed k →
  ∃ r c', rt_device_find name k = Some (device_of r, mk_kst c' (k_timers k) (k_objects k) (k_ipc k)) ∧
    find_name (k_obj k) name (tlist (ob_list (k_objects k)) RT_Object_Class_Device) = Some r ∧
    (r = None ∨ is_Some (device_of r)) ∧
    scheduled (k_sched k) c' ∧ kinv (mk_kst c' (k_timers k) (k_objects k) (k_ipc k)).
Proof.
  intros HI Hn Hl. destruct (critical_run k HI Hn) as (k1 & c' & He & HO & Hx & Hd & HI').
  destruct (find_name_total (k_obj k) name (tlist (ob_list (k_objects k)) RT_Object_Class_Device)) as (r & Hr & Hin);
    [intros o Ho; apply (Hl o Ho)|].
  exists r, c'. split_and!; [|done| |done|done].
  - unfold rt_device_find, bind at 1, gets at 1. rewrite decide_True by apply HI.
    unfold bind. rewrite He. cbn -[rt_exit_critical find_name]. unfold k_obj. rewrite HO.
    unfold from_opt. fold (k_obj k). rewrite Hr. rewrite decide_True by apply HI. by rewrite Hx.
  - destruct r as [o|]; [right; by apply (Hl o)|by left].
Qed.

(** A device structure at [a] that is not yet an object of the kernel. *)
Definition unregistered (a : Z) (k : kst) : Prop :=
  not_kernel a k ∧ ∀ cls, Obj a ∉ tlist (ob_list (k_objects k)) cls.

Definition registered (flags : Z) (d : rt_device) : rt_device :=
  with_open_flag 0 (with_ref_count 0 (with_dflag (u16 flags) d)).

(** The kernel can be entered: the invariant, room in the lock counter, a sound container. *)
Definition ready (k : kst) : Prop := kinv k ∧ 0 ≤ sc_lock_nest (k_sched k) < 2 ^ 15 - 1 ∧ listed k.

Lemma kern_bind_run {A B} (m : K A) (f : A → M (dst D) B) k e dv drv x k' :
  m k = Some (x, k') → bind (kern m) f (mk_dst k e dv drv) = f x (mk_dst k' e dv drv).
Proof. intros E. unfold bind, kern. cbn. by rewrite E. Qed.

Lemma mod_dev_run s a d f :
  d_dev s !! a = Some d → mod_dev a f s = Some (tt, mk_dst (d_k s) (d_errno s) (<[a := f d]> (d_dev s)) (d_drv s)).
Proof. intros E. unfold mod_dev, bind, get_dev. by rewrite E. Qed.

Lemma register_run s a d name flags :
  ready (d_k s) → unregistered a (d_k s) → d_dev s !! a = Some d →
  find_name (k_obj (d_k s)) name (tlist (ob_list (k_objects (d_k s))) RT_Object_Class_Device) = Some None →
  ∃ k', rt_device_register (Some a) name flags s
      = Some (RT_EOK, mk_dst k' (d_errno s) (<[a := registered flags d]> (d_dev s)) (d_drv s)) ∧
    ready k' ∧ k_obj k' !! Obj a = Some (header RT_Object_Class_Device name (k_obj (d_k s) !! Obj a)) ∧
    tlist (ob_list (k_objects k')) RT_Object_Class_Device
      = Obj a :: tlist (ob_list (k_objects (d_k s))) RT_Object_Class_Device.
Proof.
  clear ops.
  destruct s as [k er dv drv]. cbn [d_k d_dev d_errno d_drv].
  intros (HI & Hn & Hl) [Hnk Hnl] Hd Hf. destruct (find_run k name HI Hn Hl) as (r & c' & Hr & Hf' & _ & Hsc & HI1).
  rewrite Hf in Hf'. injection Hf' as <-. destruct (scheduled_nests _ _ Hsc) as [En _].
  set (k1 := mk_kst c' (k_timers k) (k_objects k) (k_ipc k)) in *.
  destruct (object_init_run k1 a RT_Object_Class_Device name HI1) as (c2 & O2 & Hr2 & HI2 & Hsc2 & Ho2 & Hl2);
    [cbn; rewrite En; lia|unfold plain_class; tauto|exact Hnk|exact Hnl|].
  specialize (Hl2 RT_Object_Class_Device). rewrite decide_True in Hl2 by done.
  exists (mk_kst c2 (k_timers k1) O2 (k_ipc k1)). split_and!.
  - unfold rt_device_register. rewrite (kern_bind_run _ _ _ _ _ _ _ _ Hr). cbv iota beta. cbn [device_of].
    rewrite (kern_bind_run _ _ _ _ _ _ _ _ Hr2). unfold bind. rewrite (mod_dev_run _ a d) by exact Hd. reflexivity.
  - split_and!; [done|cbn; rewrite (proj1 (scheduled_nests _ _ Hsc2)); cbn; rewrite En; lia|cbn; rewrite (proj1 (scheduled_nests _ _ Hsc2)); cbn; rewrite En; lia|].
    intros o Ho. cbn in Ho. rewrite Hl2 in Ho. unfold k_obj. cbn. rewrite Ho2, lookup_insert.
    apply elem_of_cons in Ho as [->|Ho]; [by rewrite decide_True|]. destruct (Hl o Ho) as [? ?]. by case_decide.
  - unfold k_obj. cbn. by rewrite Ho2, lookup_insert_eq.
  - exact Hl2.
Qed.

(** Registration and lookup by name: a fresh name is registered, with no user and the
    given flags, and looking it up afterwards finds this device; a name that is taken is
    refused and nothing is registered. *)
Theorem rt_device_register_spec s a d name flags r :
  ready (d_k s) → unregistered a (d_k s) → d_dev s !! a = Some d → Str.is_string name →
  find_name (k_obj (d_k s)) name (tlist (ob_list (k_objects (d_k s))) RT_Object_Class_Device) = Some r →
  wp (e ← rt_device_register (Some a) name flags; r ← kern (rt_device_find name); ret (e, r)) (λ '(e, r') s',
    ready (d_k s') ∧ d_drv s' = d_drv s ∧
    (r = None → e = RT_EOK ∧ r' = Some a ∧ d_dev s' = <[a := registered flags d]> (d_dev s)) ∧
    (∀ o, r = Some o → e = - RT_ERROR ∧ r' = device_of (Some o) ∧ d_dev s' = d_dev s ∧
       k_objects (d_k s') = k_objects (d_k s))) s.
Proof.
  clear ops.
  destruct s as [k er dv drv]. cbn [d_k d_dev d_errno d_drv].
  intros Hrd Hun Hd Hs Hf. pose proof Hrd as (HI & Hn & Hl). destruct r as [o|].
  - destruct (find_run k name HI Hn Hl) as (r & c' & Hr & Hf' & Hor & Hsc & HI1).
    rewrite Hf in Hf'. injection Hf' as <-. destruct Hor as [|[b Hb]]; [done|].
    set (k1 := mk_kst c' (k_timers k) (k_objects k) (k_ipc k)) in *.
    destruct (find_run k1 name HI1) as (r & c2 & Hr2 & Hf2 & _ & Hsc2 & HI2);
      [cbn; rewrite (proj1 (scheduled_nests _ _ Hsc)); lia|exact Hl|].
    change (k_obj k1) with (k_obj k) in Hf2. cbn in Hf2. rewrite Hf in Hf2. injection Hf2 as <-.
    unfold wp, rt_device_register, bind at 1. rewrite (kern_bind_run _ _ _ _ _ _ _ _ Hr), Hb. cbn [ret].
    unfold ret at 1. rewrite (kern_bind_run _ _ _ _ _ _ _ _ Hr2). cbn -[kinv listed]. split_and!; [|done|done|].
    + split_and!; [done| | |exact Hl]; cbn;
        rewrite (proj1 (scheduled_nests _ _ Hsc2)); cbn; rewrite (proj1 (scheduled_nests _ _ Hsc)); lia.
    + intros o' [= <-]. done.
  - destruct (register_run (mk_dst k er dv drv) a d name flags Hrd Hun Hd Hf) as (k' & Hr & Hrd' & Hx & Hlst).
    pose proof Hrd' as (HI' & Hn' & Hl'). destruct (find_run k' name HI' Hn' Hl') as (r & c2 & Hr2 & Hf2 & _ & Hsc2 & HI2).
    rewrite Hlst in Hf2. cbn [find_name] in Hf2. rewrite Hx in Hf2. cbn [header o_name] in Hf2.
    rewrite Str.strncmp_strncpy, Z.eqb_refl in Hf2 by done. injection Hf2 as <-.
    unfold wp, bind at 1. rewrite Hr. rewrite (kern_bind_run _ _ _ _ _ _ _ _ Hr2). cbn -[kinv listed]. split_and!; [|done|done|done].
    split_and!; [done| | |exact Hl']; cbn; rewrite (proj1 (scheduled_nests _ _ Hsc2)); lia.
Qed.

(** * Users of a device *)

(** [a] is the device [d] and has its object header. *)
Definition is_dev (s : dst D) (a : Z) (d : rt_device) : Prop :=
  d_dev s !! a = Some d ∧ ∃ x, k_obj (d_k s) !! Obj a = Some x ∧ get_type x = RT_Object_Class_Device.

Definition put_st (a : Z) (d : rt_device) (s : dst D) : dst D :=
  mk_dst (d_k s) (d_errno s) (<[a := d]> (d_dev s)) (d_drv s).

(** What an operation of the driver of [a] may do to the device layer: change the open
    flag of [a]. *)
Definition driver_frame (a : Z) (d : rt_device) (s' : dst D) : Prop :=
  ∃ fl, is_dev s' a (with_open_flag fl d).

(** What the device layer relies on when it opens a device: the operations of the driver
    keep its invariant, [I] before and [J] after the open, where [F] says when the open
    does not return; neither depends on who uses the device. *)
Class OpenLaws (F : Prop) (I J : dst D → Prop) (a : Z) : Prop := {
  ol_init f s d : op_init (ops a) = Some f → I s → is_dev s a d → activated d = false →
    wp (f a) (λ _ s', I s' ∧ driver_frame a d s') s;
  ol_open f s d oflag : op_open (ops a) = Some f → I s → is_dev s a d → activated d = true →
    wpf F (f a oflag) (λ _ s', J s' ∧ driver_frame a d s') s;
  ol_opened s d fl : op_open (ops a) = None → I s → is_dev s a d → J (put_st a (with_open_flag fl d) s);
  ol_users s d n fl : J s → is_dev s a d → fl = dv_open_flag d ∨ fl = Z.lor (dv_open_flag d) RT_DEVICE_OFLAG_OPEN →
    J (put_st a (with_ref_count n (with_open_flag fl d)) s);
  ol_active s d : I s → is_dev s a d → I (put_st a (with_dflag (Z.lor (dv_flag d) RT_DEVICE_FLAG_ACTIVATED) d) s);
  ol_weaken s : I s → J s
}.

(** And when it closes one. *)
Class CloseLaws (I : dst D → Prop) (a : Z) : Prop := {
  cl_close f s d : op_close (ops a) = Some f → I s → is_dev s a d →
    wp (f a) (λ r s', (if (r =? RT_EOK) || (r =? - RT_ENOSYS)
                       then ∀ d', is_dev s' a d' → I (put_st a (with_open_flag RT_DEVICE_OFLAG_CLOSE d') s') else I s') ∧
                      driver_frame a d s') s;
  cl_closed s d : op_close (ops a) = None → I s → is_dev s a d → I (put_st a (with_open_flag RT_DEVICE_OFLAG_CLOSE d) s);
  cl_users s d n : I s → is_dev s a d → I (put_st a (with_ref_count n d) s)
}.

(** A driver whose operations always return, with one invariant. *)
Class DriverLaws (I : dst D → Prop) (a : Z) : Prop := {
  dl_open :: OpenLaws False I I a;
  dl_close :: CloseLaws I a
}.

Lemma is_dev_put s a d d' : is_dev s a d → is_dev (put_st a d' s) a d'.
Proof. intros [_ Hx]. split; [apply lookup_insert_eq|exact Hx]. Qed.

Lemma dev_assert_run {B} s a d (f : M (dst D) B) :
  is_dev s a d → (kern (assert_type (Obj a) RT_Object_Class_Device) ;; f) s = f s.
Proof.
  intros (_ & x & Hx & Hty). destruct s as [k e dv drv].
  by rewrite (kern_bind_run _ _ k e dv drv tt k (assert_type_run k (Obj a) x _ Hx Hty)).
Qed.

Lemma get_dev_run s a d : is_dev s a d → get_dev a s = Some (d, s).
Proof. intros [E _]. unfold get_dev. by rewrite E. Qed.

Lemma dev_mod_run s a d f : is_dev s a d → mod_dev a f s = Some (tt, put_st a (f d) s).
Proof. intros [E _]. by apply mod_dev_run. Qed.

Section opening.
Context (F : Prop) (I J : dst D → Prop) (a : Z) {HL : OpenLaws F I J a}.

Lemma open_init_run s d :
  I s → is_dev s a d →
  wp (open_init a) (λ r s', I s' ∧ ∃ d', is_dev s' a d' ∧ dv_ref_count d' = dv_ref_count d ∧
    (r = RT_EOK → activated d' = true) ∧ (r ≠ RT_EOK → activated d = false ∧ dv_flag d' = dv_flag d)) s.
Proof.
  intros HI Hd. unfold open_init. apply wp_bind. unfold wp at 1. rewrite (get_dev_run s a d Hd).
  destruct (activated d) eqn:Ha; [apply wp_ret; split; [done|]; by exists d|].
  assert (wp (match op_init (ops a) with None => ret RT_EOK | Some init => init a end)
    (λ r s', I s' ∧ driver_frame a d s') s) as Hi.
  { destruct (op_init (ops a)) as [f|] eqn:E; [by apply (ol_init f)|].
    apply wp_ret. split; [done|]. exists (dv_open_flag d). by destruct d. }
  apply wp_bind. eapply wp_mono; [exact Hi|]. intros r s1 [HI1 [fl Hd1]].
  destruct (Z.eqb_spec r RT_EOK) as [->|Hr]; cbn [negb].
  - apply wp_bind. unfold wp at 1. unfold activate. rewrite (dev_mod_run _ _ _ _ Hd1). apply wp_ret. split; [by apply ol_active|].
    eexists. split_and!; [by eapply is_dev_put|done| |done]. intros _. unfold activated. cbn [dv_flag with_dflag].
    rewrite Z.land_lor_distr_l. apply nz_true. change (Z.land RT_DEVICE_FLAG_ACTIVATED RT_DEVICE_FLAG_ACTIVATED) with 16.
    intros E%Z.lor_eq_0_iff. lia.
  - apply wp_ret. split; [done|]. eexists. by split_and!; [exact Hd1|done|..].
Qed.

(** Opening: the number of users grows by one exactly when the request reached the driver
    and was accepted; the device is then active and marked open. *)
Lemma open_partial_run s d oflag :
  I s → is_dev s a d → 0 ≤ dv_ref_count d < 255 →
  wpf F (rt_device_open a oflag) (λ r s', J s' ∧ ∃ d' b, is_dev s' a d' ∧
    dv_ref_count d' = dv_ref_count d + Z.b2z b ∧ (b = false → r ≠ RT_EOK) ∧
    (b = true → (r = RT_EOK ∨ r = - RT_ENOSYS) ∧ activated d' = true ∧
                nz (Z.land (dv_open_flag d') RT_DEVICE_OFLAG_OPEN) = true)) s.
Proof.
  intros HI Hd Hn. unfold rt_device_open, wpf. rewrite (dev_assert_run s a d) by done.
  apply wpf_seq. eapply wp_mono; [by apply (open_init_run s d)|]. intros r s1 (HI1 & d1 & Hd1 & E1 & Hok & Hbad).
  destruct (Z.eqb_spec r RT_EOK) as [->|Hr]; cbn [negb].
  2: { apply wpf_wp, wp_ret. split; [by apply ol_weaken|]. exists d1, false. split_and!; [done|cbn; lia|done|done]. }
  apply wpf_seq. unfold wp at 1. rewrite (get_dev_run s1 a d1) by done.
  destruct (nz (Z.land (dv_flag d1) _) && _).
  { apply wpf_wp, wp_ret. split; [by apply ol_weaken|]. exists d1, false. split_and!; [done|cbn; lia|done|done]. }
  assert (wpf F (match op_open (ops a) with
              | Some open => open a oflag
              | None => mod_dev a (with_open_flag (Z.land oflag RT_DEVICE_OFLAG_MASK)) ;; ret RT_EOK
              end) (λ r s', J s' ∧ driver_frame a d1 s') s1) as Ho.
  { destruct (op_open (ops a)) as [f|] eqn:E; [apply (ol_open f); [done..|by apply Hok]|]. apply wpf_wp, wp_bind. unfold wp at 1.
    rewrite (dev_mod_run _ _ _ _ Hd1). apply wp_ret. split; [by apply ol_opened|]. eexists. by eapply is_dev_put. }
  apply wpf_bind. eapply wpf_mono; [exact Ho|done|]. intros r s2 [HI2 [fl Hd2]]. apply wpf_wp, wp_bind.
  destruct ((r =? RT_EOK) || (r =? - RT_ENOSYS)) eqn:Hacc.
  - apply wp_bind. unfold wp at 1. rewrite (dev_mod_run _ _ _ _ Hd2).
    rewrite orb_true_iff, !Z.eqb_eq in Hacc.
    pose proof (is_dev_put _ _ _ (with_ref_count (u8 (dv_ref_count (with_open_flag fl d1) + 1))
      (with_open_flag (Z.lor (dv_open_flag (with_open_flag fl d1)) RT_DEVICE_OFLAG_OPEN) (with_open_flag fl d1))) Hd2) as Hd3.
    apply wp_bind. unfold wp at 1. rewrite (get_dev_run _ _ _ Hd3). cbn [dv_ref_count with_ref_count with_open_flag] in *.
    rewrite E1 in *. rewrite (wrap_small 8 (dv_ref_count d + 1)) in * by lia.
    apply wp_assert; [apply nz_true; lia|]. apply wp_ret. split; [apply (ol_users s2 _ _ _ HI2 Hd2); by right|].
    eexists _, true. split_and!; [exact Hd3|done|done|]. intros _. split_and!; [done|by apply Hok|].
    cbn [dv_open_flag with_ref_count with_open_flag]. rewrite Z.land_lor_distr_l. apply nz_true. intros [_ ?]%Z.lor_eq_0_iff. done.
  - apply wp_ret, wp_ret. split; [done|]. eexists _, false. split_and!; [exact Hd2|cbn; lia| |done].
    intros _ ->. done.
Qed.

End opening.

Section closing.
Context (I : dst D → Prop) (a : Z) {HL : CloseLaws I a}.

(** Closing: without users the request is refused; otherwise there is one user fewer. *)
Lemma close_run s d :
  I s → is_dev s a d → 0 ≤ dv_ref_count d < 256 →
  wp (rt_device_close a) (λ r s', I s' ∧ ∃ d', is_dev s' a d' ∧
    (dv_ref_count d = 0 → r = - RT_ERROR ∧ s' = s) ∧
    (0 < dv_ref_count d → dv_ref_count d' = dv_ref_count d - 1) ∧
    (1 < dv_ref_count d → r = RT_EOK ∧ s' = put_st a (with_ref_count (dv_ref_count d - 1) d) s)) s.
Proof.
  intros HI Hd Hn. unfold rt_device_close, wp. rewrite (dev_assert_run s a d) by done.
  apply wp_bind. unfold wp at 1. rewrite (get_dev_run s a d) by done.
  destruct (Z.eqb_spec (dv_ref_count d) 0) as [E0|E0].
  { apply wp_ret. split; [done|]. exists d. split_and!; [done|done|lia|lia]. }
  rewrite (wrap_small 8) by lia.
  assert (I (put_st a (with_ref_count (dv_ref_count d - 1) d) s)) as HI1.
  { by apply cl_users. }
  pose proof (is_dev_put _ _ _ (with_ref_count (dv_ref_count d - 1) d) Hd) as Hd1.
  apply wp_bind. unfold wp at 1. rewrite (dev_mod_run _ _ _ _ Hd).
  apply wp_bind. unfold wp at 1. rewrite (get_dev_run _ _ _ Hd1). cbn [dv_ref_count with_ref_count].
  destruct (nz (dv_ref_count d - 1)) eqn:E1.
  { apply wp_ret. split; [done|]. eexists. split_and!; [exact Hd1|lia|done|done]. }
  apply nz_false in E1. apply wp_bind.
  assert (wp (match op_close (ops a) with Some close => close a | None => ret RT_EOK end)
    (λ r s', (if (r =? RT_EOK) || (r =? - RT_ENOSYS)
              then ∀ d', is_dev s' a d' → I (put_st a (with_open_flag RT_DEVICE_OFLAG_CLOSE d') s') else I s') ∧
             driver_frame a (with_ref_count (dv_ref_count d - 1) d) s')
    (put_st a (with_ref_count (dv_ref_count d - 1) d) s)) as Hc.
  { destruct (op_close (ops a)) as [f|] eqn:E; [by apply (cl_close f)|]. apply wp_ret. split.
    - intros d' Hd'. by apply cl_closed.
    - exists (dv_open_flag d). by destruct d. }
  eapply wp_mono; [exact Hc|]. intros r s2 [HI2 [fl Hd2]]. apply wp_bind.
  destruct ((r =? RT_EOK) || (r =? - RT_ENOSYS)).
  - unfold wp at 1. rewrite (dev_mod_run _ _ _ _ Hd2). apply wp_ret. split; [by apply HI2|].
    eexists. split_and!; [by eapply is_dev_put|lia|done|lia].
  - apply wp_ret, wp_ret. split; [done|]. eexists. split_and!; [exact Hd2|lia|done|lia].
Qed.

End closing.

Section users.
Context (I : dst D → Prop) (a : Z) {HL : DriverLaws I a}.

Lemma open_run s d oflag :
  I s → is_dev s a d → 0 ≤ dv_ref_count d < 255 →
  wp (rt_device_open a oflag) (λ r s', I s' ∧ ∃ d' b, is_dev s' a d' ∧
    dv_ref_count d' = dv_ref_count d + Z.b2z b ∧ (b = false → r ≠ RT_EOK) ∧
    (b = true → (r = RT_EOK ∨ r = - RT_ENOSYS) ∧ activated d' = true ∧
                nz (Z.land (dv_open_flag d') RT_DEVICE_OFLAG_OPEN) = true)) s.
Proof. exact (open_partial_run False I I a s d oflag). Qed.

(** ** Sequences of requests *)

Inductive request := Open (oflag : Z) | Close.

Definition serve (q : request) : M (dst D) Z :=
  match q with Open oflag => rt_device_open a oflag | Close => rt_device_close a end.

Fixpoint serve_all (l : list request) : M (dst D) (list Z) :=
  match l with
  | [] => ret []
  | q :: l => r ← serve q; rs ← serve_all l; ret (r :: rs)
  end.

(** The counter a device promises: how requests and their results move the number of
    users. (An answer [-RT_ENOSYS] can come from the initialisation, which refuses, or
    from the driver's open, which accepts.) *)
Inductive counts : Z → list request → list Z → Z → Prop :=
| counts_nil n : counts n [] [] n
| counts_open n oflag r b l rs n' :
    (b = true → r = RT_EOK ∨ r = - RT_ENOSYS) → (b = false → r ≠ RT_EOK) →
    counts (n + Z.b2z b) l rs n' → counts n (Open oflag :: l) (r :: rs) n'
| counts_refused l rs n' : counts 0 l rs n' → counts 0 (Close :: l) (- RT_ERROR :: rs) n'
| counts_close n r l rs n' : 0 < n → counts (n - 1) l rs n' → counts n (Close :: l) (r :: rs) n'.

Lemma serve_all_run l : ∀ s d,
  I s → is_dev s a d → 0 ≤ dv_ref_count d → dv_ref_count d + Z.of_nat (length l) < 256 →
  wp (serve_all l) (λ rs s', I s' ∧ ∃ d', is_dev s' a d' ∧ counts (dv_ref_count d) l rs (dv_ref_count d')) s.
Proof.
  induction l as [|q l IH]; intros s d HI Hd Hn Hb; cbn [serve_all length] in *.
  { apply wp_ret. split; [done|]. exists d. split; [done|constructor]. }
  apply wp_bind. destruct q as [oflag|]; cbn [serve].
  - eapply wp_mono; [apply (open_run s d); [done|done|lia]|]. intros r s1 (HI1 & d1 & b & Hd1 & E1 & Hf & Ht).
    apply wp_bind. eapply wp_mono; [apply (IH s1 d1); [done|done|destruct b; cbn in *; lia..]|].
    intros rs s2 (HI2 & d2 & Hd2 & Hc). apply wp_ret. split; [done|]. exists d2. split; [done|].
    apply (counts_open _ _ _ b); [by intros ?; apply Ht|done|by rewrite <- E1].
  - eapply wp_mono; [apply (close_run I a s d); [done|done|lia]|]. intros r s1 (HI1 & d1 & Hd1 & H0 & Hpos & _).
    destruct (Z.eqb_spec (dv_ref_count d) 0) as [E|E].
    + destruct (H0 E) as [-> ->]. apply wp_bind. eapply wp_mono; [apply (IH s d); [done|done|lia|lia]|].
      intros rs s2 (HI2 & d2 & Hd2 & Hc). apply wp_ret. split; [done|]. exists d2. split; [done|].
      rewrite E in *. by constructor.
    + assert (dv_ref_count d1 = dv_ref_count d - 1) as E1 by (apply Hpos; lia).
      apply wp_bind. eapply wp_mono; [apply (IH s1 d1); [done|done|lia|lia]|].
      intros rs s2 (HI2 & d2 & Hd2 & Hc). apply wp_ret. split; [done|]. exists d2. split; [done|].
      rewrite E1 in Hc. apply counts_close; [lia|done].
Qed.
End users.

(** * Properties *)

(** Reference counting: however opens and closes follow each other, every request
    returns, the driver's invariant is kept, and the reference count of the device moves
    as a counter of users does: up with each accepted open, down with each close while
    there are users, and a close without users is refused. *)
Theorem rt_device_users I a `{!DriverLaws I a} l s d :
  I s → is_dev s a d → 0 ≤ dv_ref_count d → dv_ref_count d + Z.of_nat (length l) < 256 →
  wp (serve_all a l) (λ rs s', I s' ∧ ∃ d', is_dev s' a d' ∧ counts (dv_ref_count d) l rs (dv_ref_count d')) s.
Proof. by apply (serve_all_run I a). Qed.

(** The driver is closed by its last user only: with more users than one
    [rt_device_close] does not touch driver or kernel. *)
Theorem rt_device_close_shared a s d :
  is_dev s a d → 1 < dv_ref_count d < 256 →
  rt_device_close a s = Some (RT_EOK, put_st a (with_ref_count (dv_ref_count d - 1) d) s).
Proof.
  intros Hd Hn. unfold rt_device_close. rewrite (dev_assert_run s a d) by done.
  unfold bind at 1. rewrite (get_dev_run s a d), (proj2 (Z.eqb_neq _ _)), (wrap_small 8) by (done || lia).
  unfold bind at 1. rewrite (dev_mod_run _ _ _ _ Hd).
  unfold bind at 1. rewrite (get_dev_run _ _ _ (is_dev_put _ _ _ _ Hd)). cbn [dv_ref_count with_ref_count].
  by rewrite (proj2 (nz_true (dv_ref_count d - 1))) by lia.
Qed.

(** The 8-bit reference count overflows: the 256th user's open increments it to 0 and
    fails the assertion behind it. *)
Theorem rt_device_open_overflow a s d oflag :
  is_dev s a d → dv_ref_count d = 255 → activated d = true →
  nz (Z.land (dv_flag d) RT_DEVICE_FLAG_STANDALONE) = false → op_open (ops a) = None →
  rt_device_open a oflag s = None.
Proof.
  intros Hd Hn Ha Hst Ho. unfold rt_device_open. rewrite (dev_assert_run s a d) by done.
  unfold bind at 1, open_init, bind at 1. rewrite (get_dev_run s a d) by done. rewrite Ha. unfold ret at 1.
  rewrite Z.eqb_refl. cbn [negb]. unfold bind at 1. rewrite (get_dev_run s a d), Hst, Ho by done. cbn [andb].
  unfold bind at 1, bind at 1. rewrite (dev_mod_run _ _ _ _ Hd). unfold ret at 1. rewrite Z.eqb_refl. cbn [orb].
  pose proof (is_dev_put _ _ _ (with_open_flag (Z.land oflag RT_DEVICE_OFLAG_MASK) d) Hd) as Hd1.
  unfold bind at 1, bind at 1. rewrite (dev_mod_run _ _ _ _ Hd1).
  unfold bind at 1. erewrite get_dev_run by (eapply is_dev_put; exact Hd1). cbn [dv_ref_count with_ref_count with_open_flag].
  by rewrite Hn.
Qed.

(** A device without users, or whose driver has no such operation, is neither read nor
    written; the error number says why. *)
Theorem rt_device_io_refused a s d pos size buffer data :
  is_dev s a d → cur_live (d_k s) →
  (dv_ref_count d = 0 → rt_device_read a pos buffer size s = Some ((0, []), errno_st (- RT_ERROR) s) ∧
     rt_device_write a pos buffer data size s = Some (Returned 0, errno_st (- RT_ERROR) s)) ∧
  (dv_ref_count d ≠ 0 → op_read (ops a) = None →
     rt_device_read a pos buffer size s = Some ((0, []), errno_st (- RT_ENOSYS) s)) ∧
  (dv_ref_count d ≠ 0 → op_write (ops a) = None →
     rt_device_write a pos buffer data size s = Some (Returned 0, errno_st (- RT_ENOSYS) s)).
Proof.
  intros Hd Hc. unfold rt_device_read, rt_device_write. rewrite !(dev_assert_run s a d) by done.
  unfold bind. rewrite !(get_dev_run s a d) by done. pose proof (λ e, set_errno_run e s Hc) as E.
  split_and!; [intros ->; cbn -[rt_set_errno]; by rewrite !E|intros Hn ->..];
    rewrite (proj2 (Z.eqb_neq _ _) Hn); by rewrite E.
Qed.
End device.

(** * Instances *)

(** A driver without operations. *)
Definition no_ops (a : Z) : dev_ops unit Empty_set := mk_ops None None None None None None.

#[export] Instance no_ops_laws a : DriverLaws no_ops (λ _, True) a.
Proof. by split. Qed.

(** The demo system with the device 500, named ["uart1"], open for 2 users, and an
    unregistered device structure at 501. *)
Definition demo_device (n : Z) : rt_device := mk_device 0 (RT_DEVICE_FLAG_RDWR + RT_DEVICE_FLAG_ACTIVATED) 11 n None None 0.
Definition demo_dev (n : Z) : dst unit :=
  mk_dst (upd_objects (λ O, mk_objects
      (<[Obj 500 := header RT_Object_Class_Device [117; 97; 114; 116; 49] None]> (ob_obj O))
      {[RT_Object_Class_Device := [Obj 500]]}) demo)
    0 (<[500 := demo_device n]> {[501 := demo_device 0]}) tt.

Lemma demo_dev_ready n : ready (d_k (demo_dev n)).
Proof.
  split; [apply (kinv_check_sound (d_k (demo_dev 0))); vm_compute; reflexivity|]. split; [by vm_compute|].
  intros o Ho. assert (o = Obj 500) as -> by (by apply list_elem_of_singleton in Ho). split; by eexists.
Qed.

Lemma demo_dev_is n : is_dev (demo_dev n) 500 (demo_device n).
Proof. split; [reflexivity|]. by eexists. Qed.

Lemma rt_device_register_spec_witness :
  wp (e ← rt_device_register (Some 501) [117; 97; 114; 116; 50] 3; r ← kern (rt_device_find [117; 97; 114; 116; 50]);
      ret (e, r)) (λ r _, r = (RT_EOK, Some 501)) (demo_dev 2).
Proof.
  eapply wp_mono; [apply (rt_device_register_spec (demo_dev 2) 501 (demo_device 0) [117; 97; 114; 116; 50] 3 None)|].
  - apply demo_dev_ready.
  - split; [intros x Hx; by vm_compute in Hx|]. intros cls (l & Hl & Hin)%tlist_lookup.
    cbn [demo_dev d_k upd_objects k_objects ob_list] in Hl. apply lookup_singleton_Some in Hl as [_ <-]. by apply list_elem_of_singleton in Hin.
  - reflexivity.
  - repeat constructor.
  - by vm_compute.
  - intros [e r] s' (_ & _ & H & _). destruct (H eq_refl) as (-> & -> & _). done.
Defined.

Lemma rt_device_users_witness :
  wp (serve_all no_ops 500 [Open 3; Close; Close; Close; Close])
    (λ rs s', ∃ d', is_dev s' 500 d' ∧ counts 2 [Open 3; Close; Close; Close; Close] rs (dv_ref_count d')) (demo_dev 2).
Proof.
  eapply wp_mono; [apply (rt_device_users no_ops (λ _, True) 500 [Open 3; Close; Close; Close; Close] (demo_dev 2) (demo_device 2));
    [done|apply demo_dev_is|done|done]|].
  by intros rs s' [_ H].
Defined.

Lemma rt_device_close_shared_witness :
  rt_device_close no_ops 500 (demo_dev 2) = Some (RT_EOK, put_st 500 (demo_device 1) (demo_dev 2)).
Proof. apply (rt_device_close_shared no_ops 500 (demo_dev 2) (demo_device 2)); [apply demo_dev_is|done]. Defined.

Lemma rt_device_open_overflow_witness : rt_device_open no_ops 500 3 (demo_dev 255) = None.
Proof.
  apply (rt_device_open_overflow no_ops 500 (demo_dev 255) (demo_device 255)); [apply demo_dev_is|reflexivity..].
Defined.
