(* ===== verification/DynDevice.v ===== *)
(** Devices in dynamic memory: [rt_device_create] and [rt_device_destroy] of src/device.c,
    on the devices of [Device.v] and the heap of [Dynamic.v]. *)

From Stdlib Require Import ZArith Lia.
From stdpp Require Import base numbers option gmap.
From stdpp Require Import list.
From S2P Require Import Prelude.
From S2P Require Import Kservice.
From S2P Require Import Bytes.
From S2P Require Import Proc.
From S2P Require Import KernelDefs.
From S2P Require Import Scheduler.
From S2P Require Import Object.
From S2P Require Import Timer.
From S2P Require Import Thread.
From S2P Require Import Clock.
From S2P Require Import Ipc.
From S2P Require Import Mem.
From S2P Require Import Device.
From S2P Require Import Dynamic.
From S2P Require Import Kstate.
Local Open Scope Z_scope.
Local Open Scope rt_scope.

(** * State *)

(** The heap is what the drivers share. *)
Record dev_mem := mk_dev_mem { vm_heap : heap; vm_pool : gmap Z Z }.

Definition heap_part (s : dst dev_mem) : dsys := mk_dsys (d_k s) (vm_heap (d_drv s)) (vm_pool (d_drv s)).
Definition put_heap (d : dsys) (s : dst dev_mem) : dst dev_mem :=
  mk_dst (d_kst d) (d_errno s) (d_dev s) (mk_dev_mem (d_heap d) (d_pool d)).

Definition on_heap {A} : D A → M (dst dev_mem) (proc (dst dev_mem) A) := zoom heap_part put_heap.

(** * Operations *)

(** Cleared memory as the header of an object, and as a device of the given type. *)
Definition zero_header : rt_object := mk_object (repeat 0 RT_NAME_MAX) 0 0.
Definition zero_device (type : Z) : rt_device := mk_device type 0 0 0 None None 0.

Section dyndevice.
Variable heap_sem : Z.

Definition rt_device_create (type attach_size : Z) : M (dst dev_mem) (proc (dst dev_mem) Z) :=
  let sizeof := object_size RT_Object_Class_Device in
  let size := RT_ALIGN sizeof 4 in
  let attach_size := RT_ALIGN attach_size 4 in
  let size := u32 (size + attach_size) in
  device ⇐ on_heap (RT_KERNEL_MALLOC heap_sem size);
  if device =? 0 then dret 0
  else
    on_heap (now (clear device sizeof)) ;;;
    now (kern (modify (upd_objects (put_obj (Obj device) zero_header)))) ;;;
    now (put_dev device (zero_device type)) ;;;
    dret device.

Definition rt_device_destroy (a : Z) : M (dst dev_mem) (proc (dst dev_mem) unit) :=
  now (assert (nz a)) ;;;
  now (kern (assert_type (Obj a) RT_Object_Class_Device)) ;;;
  on_heap (now (assert_dynamic a)) ;;;
  now (kern (rt_object_detach (Obj a))) ;;;
  on_heap (RT_KERNEL_FREE heap_sem a) ;;;
  on_heap (now (forget a)) ;;;
  now (modify (λ s, mk_dst (d_k s) (d_errno s) (delete a (d_dev s)) (d_drv s))).
End dyndevice.

Lemma heap_part_put d s : heap_part (put_heap d s) = d.
Proof. by destruct d. Qed.

(** * Creation *)

Section creation.
Context (heap_sem : Z).

(** [rt_device_create] takes one block, with room for the device and for the user's data
    behind it, and clears the device. *)
Theorem rt_device_create_spec bs s type attach_size :
  dinv heap_sem bs (heap_part s) → 0 ≤ attach_size < 2 ^ 31 →
  dwp (rt_device_create heap_sem type attach_size) (λ a s', (a = 0 ∧ s' = s) ∨ (a ≠ 0 ∧ ∃ bs',
    dinv heap_sem bs' (heap_part s') ∧ only_at a (heap_part s) (heap_part s') ∧
    one_more bs (heap_part s) a (object_size RT_Object_Class_Device + (attach_size + 3) / 4 * 4) bs' ∧
    k_obj (d_k s') !! Obj a = Some zero_header ∧ d_dev s' = <[a := zero_device type]> (d_dev s))) s.
Proof.
  intros Hd Hat. set (n := (attach_size + 3) / 4 * 4).
  assert (0 ≤ n ≤ 2 ^ 31) as Hn by (clear - Hat; unfold n; change (2 ^ 31) with (4 * 536870912) in *;
    pose proof (Z.div_mod (attach_size + 3) 4 ltac:(done)); pose proof (Z.mod_pos_bound (attach_size + 3) 4 ltac:(done)); lia).
  unfold rt_device_create. rewrite !RT_ALIGN_4 by (cbn; lia). fold n.
  change ((object_size RT_Object_Class_Device + 3) / 4 * 4) with (object_size RT_Object_Class_Device).
  change (object_size RT_Object_Class_Device) with 68. cbv zeta. rewrite (wrap_small 32) by lia.
  apply dwp_bind, dwp_zoom. eapply dwp_mono; [apply (malloc_step heap_sem bs (heap_part s) (68 + n) Hd); lia|].
  intros a d1 [[-> ->]|(Ha & _ & bs' & h' & -> & Hd1 & Hone & Hv & Hfx)].
  { apply dwp_ret. left. split; [done|]. by destruct s as [? ? ? []]. }
  rewrite (proj2 (Z.eqb_neq _ _)) by done. destruct Hone as (o & z & Ea & Hz & Hadd).
  assert (used_at bs' o z) as Hu by (apply Hadd; by right).
  assert (a = h_ptr h' + o + SIZEOF_STRUCT_MEM) as Ea' by (rewrite Ea; unfold block_addr; by rewrite (proj1 Hfx)).
  destruct (clear_run (d_k s) h' (vm_pool (d_drv s)) bs' o z 68) as (h2 & Ec & Hw2 & Hfx2); [apply Hd1|done|lia|].
  apply dwp_bind, dwp_zoom, dwp_now. unfold wp. rewrite heap_part_put. rewrite <- Ea' in Ec.
  cbn [heap_part d_kst d_pool]. rewrite Ec. apply dwp_seq. unfold wp, kern, modify. cbn [st_k with_k dst_kernel put_heap d_k d_drv d_errno d_dev d_kst d_heap d_pool].
  apply dwp_seq. unfold wp, put_dev, modify. cbn [d_k d_drv d_errno d_dev]. apply dwp_ret. right. split; [done|]. exists bs'.
  unfold heap_part. cbn [d_k d_drv d_errno d_dev vm_heap vm_pool].
  set (k2 := upd_objects _ _).
  assert (only_at a (mk_dsys (d_k s) h' (vm_pool (d_drv s))) (mk_dsys k2 h2 (vm_pool (d_drv s)))) as Hoa.
  { split; try done; intros b Hb; unfold k_obj; cbn; rewrite lookup_insert_ne; congruence. }
  split_and!; [|by destruct Hoa; split|by exists o, z| |done].
  - eapply (dinv_step heap_sem bs' bs' _ _ a o); [exact Hd1|exact Hoa| |done| |apply Hd1|done|done|done|].
    + rewrite Ea'. apply (block_not_sem heap_sem bs' _ o z Hd1 Hu).
    + apply (kinv_put_obj (d_k s) a zero_header (ob_list (k_objects (d_k s)))); [apply Hd| |done].
      intros y Hy. pose proof (va_obj _ _ Hv). cbn in *. congruence.
    + intros Hno. by destruct (Hno z).
  - unfold k_obj. cbn. by rewrite lookup_insert_eq.
Qed.
End creation.

(** * Destruction *)

(** What can happen to a device: it is registered or removed, and everything else leaves
    its header alone. *)
Inductive device_step (a : Z) : dst dev_mem → dst dev_mem → Prop :=
  | step_register name flags s s' : rt_device_register (Some a) name flags s = Some (RT_EOK, s') → device_step a s s'
  | step_unregister s s' : rt_device_unregister a s = Some (RT_EOK, s') → device_step a s s'
  | step_other s s' : k_obj (d_k s') !! Obj a = k_obj (d_k s) !! Obj a → device_step a s s'.

(** The type in the header is zero or that of a static object. *)
Definition not_dynamic (a : Z) (s : dst dev_mem) : Prop :=
  ∃ x, k_obj (d_k s) !! Obj a = Some x ∧ (o_type x = 0 ∨ nz (Z.land (o_type x) RT_Object_Class_Static) = true).

Lemma register_static a name flags s s' :
  rt_device_register (Some a) name flags s = Some (RT_EOK, s') → not_dynamic a s'.
Proof.
  unfold rt_device_register, bind, kern. destruct (rt_device_find name (st_k s)) as [[[b|] k1]|]; [done| |done].
  cbn [st_k with_k dst_kernel d_k]. unfold rt_object_init, bind. destruct (assert _ k1) as [[? k2]|]; [|done].
  destruct (rt_enter_critical k2) as [[? k3]|]; [|done]. unfold gets. destruct (assert _ k3) as [[? k4]|]; [|done].
  destruct (rt_exit_critical k4) as [[? k5]|]; [|done]. unfold write_header, modify, obj_insert_after. cbn.
  destruct (tlinked _ _); [done|]. unfold mod_dev, get_dev, put_dev, bind, modify. cbn. destruct (d_dev s !! a) as [d|]; [|done].
  cbn. unfold ret. intros [= <-]. eexists. unfold k_obj. cbn. rewrite lookup_insert_eq. split; [done|]. by right.
Qed.

Lemma unregister_zero a s s' : rt_device_unregister a s = Some (RT_EOK, s') → not_dynamic a s'.
Proof.
  unfold rt_device_unregister, bind, kern. destruct (assert_type _ _ (st_k s)) as [[? k1]|]; [|done]. cbn.
  destruct (rt_object_is_systemobject _ k1) as [[b k2]|]; [|done]. cbn. unfold assert. destruct b; [|done]. cbn.
  unfold rt_object_detach, mod_object, get_object, bind. cbn. destruct (k_obj k2 !! Obj a) as [x|]; [|done].
  unfold obj_remove, modify, ret. cbn. intros [= <-]. exists (with_type 0 x). unfold k_obj. cbn. rewrite lookup_insert_eq. split; [done|by left].
Qed.

Lemma not_dynamic_steps a s s' : rtc (device_step a) s s' → not_dynamic a s → not_dynamic a s'.
Proof.
  induction 1 as [|s s1 s2 Hst _ IH]; [done|]. intros Hn. apply IH. destruct Hst as [name flags s s1 E|s s1 E|s s1 E].
  - by eapply register_static.
  - by eapply unregister_zero.
  - unfold not_dynamic in *. by rewrite E.
Qed.

(** No device can be destroyed: neither the header [rt_device_create] leaves nor the one
    [rt_device_register] writes passes the assertions of [rt_device_destroy]. *)
Theorem rt_device_destroy_never heap_sem a s s' :
  k_obj (d_k s) !! Obj a = Some zero_header → rtc (device_step a) s s' → rt_device_destroy heap_sem a s' = None.
Proof.
  intros Hz Hst. destruct (not_dynamic_steps a s s' Hst) as (x & Hx & Hty); [exists zero_header; split; [done|by left]|].
  unfold rt_device_destroy. destruct (nz a) eqn:Ha; [|by apply dbind_none].
  rewrite (dbind_done _ _ s' tt s') by done.
  assert (now (kern (assert_type (Obj a) RT_Object_Class_Device)) s' = if get_type x =? RT_Object_Class_Device then Some (Done tt, s') else None) as E.
  { unfold now, kern, assert_type, rt_object_get_type, get_object, assert, bind. cbn [st_k dst_kernel]. rewrite Hx. unfold ret.
    destruct (get_type x =? _); [|done]. by destruct s'. }
  destruct (get_type x =? RT_Object_Class_Device) eqn:Et; [|by apply dbind_none].
  destruct Hty as [Ez|Hs]; [unfold get_type in Et; by rewrite Ez in Et|].
  rewrite (dbind_done _ _ s' tt s') by done. apply dbind_none.
  unfold on_heap, zoom, assert_dynamic, Dynamic.kern, rt_object_is_systemobject, get_object, now, bind. cbn [heap_part d_kst].
  rewrite Hx. unfold ret, assert. by rewrite Hs.
Qed.

(** ** Examples *)

Definition dev_sys : dst dev_mem := put_heap dyn_sys (mk_dst (d_kst dyn_sys) 0 ∅ (mk_dev_mem (d_heap dyn_sys) ∅)).

(** A device with ten bytes of user data. *)
Example device_create_runs : fst <$> (rt_device_create 103 1 10) dev_sys = Some (Done (0x20000000 + 288)).
Proof. vm_compute. reflexivity. Qed.

(** It can be registered, found and removed again, but its memory is not given back. *)
Example device_life_runs :
  (λ '(r, s), (r, h_used (vm_heap (d_drv s)) - h_used (d_heap dyn_sys))) <$>
  (a ⇐ rt_device_create 103 1 10; now (rt_device_register (Some a) [100; 0] 3) ;;; r ⇐ now (kern (rt_device_find [100; 0]));
   e ⇐ now (rt_device_unregister a); dret (r, e)) dev_sys = Some (Done (Some (0x20000000 + 288), RT_EOK), 92).
Proof. vm_compute. reflexivity. Qed.


Example device_destroy_fails :
  (a ⇐ rt_device_create 103 1 10; rt_device_destroy 103 a) dev_sys = None ∧
  (a ⇐ rt_device_create 103 1 10; now (rt_device_register (Some a) [100; 0] 3) ;;; rt_device_destroy 103 a) dev_sys = None.
Proof. split; vm_compute; reflexivity. Qed.
