(* ===== verification/SerialDev.v ===== *)
(** Serial devices, the other half of components/drivers/serial/serial.c: opening and
    closing, reading, writing with interrupts and DMA, control, registration and the
    interrupt handler. It is a driver below src/device.c; the receive FIFO is that of
    Serial.v, the transmitter uses the completions and data queues of DevIpc.v. *)

From Stdlib Require Import ZArith Lia.
From stdpp Require Import base numbers option gmap.
From stdpp Require Import list.
From S2P Require Import Prelude.
From S2P Require Import Serial.
From S2P Require Import KernelDefs.
From S2P Require Import Scheduler.
From S2P Require Import Object.
From S2P Require Import Timer.
From S2P Require Import Thread.
From S2P Require Import Clock.
From S2P Require Import Ipc.
From S2P Require Import Kstate.
From S2P Require Import DevIpc.
From S2P Require Import Device.
Local Open Scope Z_scope.
Local Open Scope rt_scope.

(** * State *)

Definition RT_SERIAL_EVENT_RX_IND : Z := 1.
Definition RT_SERIAL_EVENT_TX_DONE : Z := 2.
Definition RT_SERIAL_EVENT_RX_DMADONE : Z := 3.
Definition RT_SERIAL_EVENT_TX_DMADONE : Z := 4.
Definition RT_SERIAL_DMA_RX : Z := 1.
Definition RT_SERIAL_DMA_TX : Z := 2.
Definition RT_DEVICE_CTRL_RESUME : Z := 1.
Definition RT_DEVICE_CTRL_SUSPEND : Z := 2.
Definition RT_DEVICE_CTRL_CONFIG : Z := 3.
Definition RT_DEVICE_CTRL_SET_INT : Z := 0x10.
Definition RT_DEVICE_CTRL_CLR_INT : Z := 0x11.

(** [serial_rx] and [serial_tx]: [RT_NULL], or the structure at the address [p]. The
    completion of a transmit FIFO and the data queue of a DMA transmitter have the address
    of their structure. *)
Inductive serial_rx := RxNull | RxFifo (p : Z) (f : rt_serial_rx_fifo) | RxDma (p : Z) (activated : bool).
Inductive serial_tx := TxNull | TxFifo (p : Z) | TxDma (p : Z) (activated : bool).

(** [struct rt_serial_device] behind its device. *)
Record rt_serial_device := mk_serial { sr_config : serial_configure; sr_rx : serial_rx; sr_tx : serial_tx }.

(** The pointers themselves. *)
Definition rx_ptr (r : serial_rx) : Z := match r with RxNull => 0 | RxFifo p _ | RxDma p _ => p end.
Definition tx_ptr (t : serial_tx) : Z := match t with TxNull => 0 | TxFifo p | TxDma p _ => p end.

Section serial.
Context {H : Type} (uart : rt_uart_ops H).
(** What the calls of [rt_malloc] return, one after the other: any addresses, [RT_NULL] where
    there is no memory. The allocator itself is in Mem.v; here only its answers matter.
    And what a pointer to a configuration points to. *)
Variable heap_addr : nat → Z.
Variable config_at : Z → serial_configure.

(** Devices, hardware, number of allocations, allocated addresses, completions, data
    queues and their notifications, and calls of the device's callbacks with their
    argument. *)
Record serial_st := mk_sst {
  ss_dev : gmap Z rt_serial_device;
  ss_hw : H;
  ss_count : nat;
  ss_live : list Z;
  ss_flag : gmap Z Z;
  ss_dq : gmap Z rt_data_queue;
  ss_notes : list (Z * Z);
  ss_calls : list (Z * Z)
}.

Abbreviation SM A := (M (Device.dst serial_st) A).

Definition mod_drv (f : serial_st → serial_st) : SM unit :=
  modify (λ s, mk_dst (d_k s) (d_errno s) (d_dev s) (f (d_drv s))).

Definition get_serial (a : Z) : SM rt_serial_device := λ s,
  match ss_dev (d_drv s) !! a with Some x => Some (x, s) | None => None end.
Definition put_serial (a : Z) (x : rt_serial_device) : SM unit :=
  mod_drv (λ v, mk_sst (<[a := x]> (ss_dev v)) (ss_hw v) (ss_count v) (ss_live v) (ss_flag v) (ss_dq v) (ss_notes v) (ss_calls v)).
Definition set_rx (a : Z) (r : serial_rx) : SM unit := x ← get_serial a; put_serial a (mk_serial (sr_config x) r (sr_tx x)).
Definition set_tx (a : Z) (t : serial_tx) : SM unit := x ← get_serial a; put_serial a (mk_serial (sr_config x) (sr_rx x) t).
Definition set_config (a : Z) (c : serial_configure) : SM unit := x ← get_serial a; put_serial a (mk_serial c (sr_rx x) (sr_tx x)).

(** An operation of the hardware. *)
Definition hw {A} (f : H → A * H) : SM A := λ s,
  let v := d_drv s in
  let '(r, h) := f (ss_hw v) in
  Some (r, mk_dst (d_k s) (d_errno s) (d_dev s)
    (mk_sst (ss_dev v) h (ss_count v) (ss_live v) (ss_flag v) (ss_dq v) (ss_notes v) (ss_calls v))).

(** A routine of the driver IPC. *)
Definition ipc {A} (m : M DevIpc.dst A) : SM A := λ s,
  let v := d_drv s in
  match m (DevIpc.mk_dst (d_k s) (d_errno s) (ss_flag v) (ss_dq v) (ss_notes v)) with
  | Some (a, t) => Some (a, mk_dst (ds_k t) (ds_errno t) (d_dev s)
      (mk_sst (ss_dev v) (ss_hw v) (ss_count v) (ss_live v) (ds_flag t) (ds_dq t) (ds_notes t) (ss_calls v)))
  | None => None
  end.

(** [rt_malloc] and [rt_free]: the next answer of the heap, and the addresses in use. *)
Definition rt_malloc : SM Z := λ s,
  let v := d_drv s in
  let p := heap_addr (ss_count v) in
  Some (p, mk_dst (d_k s) (d_errno s) (d_dev s)
    (mk_sst (ss_dev v) (ss_hw v) (S (ss_count v)) (if nz p then p :: ss_live v else ss_live v) (ss_flag v) (ss_dq v) (ss_notes v) (ss_calls v))).
Definition rt_free (p : Z) : SM unit :=
  mod_drv (λ v, mk_sst (ss_dev v) (ss_hw v) (ss_count v) (filter (λ q, q ≠ p) (ss_live v)) (ss_flag v) (ss_dq v) (ss_notes v) (ss_calls v)).

(** A callback of the application is called with [arg]. *)
Definition callback (f : option Z) (arg : Z) : SM unit :=
  match f with
  | Some f => mod_drv (λ v, mk_sst (ss_dev v) (ss_hw v) (ss_count v) (ss_live v) (ss_flag v) (ss_dq v) (ss_notes v) (ss_calls v ++ [(f, arg)]))
  | None => ret tt
  end.

(** [flags & bit] *)
Definition bit_set (flags bit : Z) : bool := nz (Z.land flags bit).
Definition or_open (a bit : Z) : SM unit := mod_dev a (λ d, with_open_flag (u16 (Z.lor (dv_open_flag d) bit)) d).
Definition clr_open (a bit : Z) : SM unit := mod_dev a (λ d, with_open_flag (u16 (Z.land (dv_open_flag d) (Z.lnot bit))) d).
Definition control (cmd arg : Z) : SM unit := hw (u_control uart cmd arg) ;; ret tt.

(** * Device operations *)

Definition rt_serial_init (a : Z) : SM Z :=
  set_rx a RxNull ;;
  set_tx a TxNull ;;
  x ← get_serial a;
  match u_configure uart with Some configure => hw (configure (sr_config x)) | None => ret RT_EOK end.

(** A receive FIFO in new memory. *)
Definition new_rx_fifo (a bufsz : Z) : SM unit :=
  p ← rt_malloc;
  assert (nz p) ;;
  set_rx a (RxFifo p (new_fifo bufsz)).

Definition open_rx (a oflag : Z) : SM unit :=
  x ← get_serial a;
  let bufsz := cf_bufsz (sr_config x) in
  match sr_rx x with
  | RxNull =>
      if bit_set oflag RT_DEVICE_FLAG_INT_RX then
        new_rx_fifo a bufsz ;;
        or_open a RT_DEVICE_FLAG_INT_RX ;;
        control RT_DEVICE_CTRL_SET_INT RT_DEVICE_FLAG_INT_RX
      else if bit_set oflag RT_DEVICE_FLAG_DMA_RX then
        (if bufsz =? 0 then
           p ← rt_malloc;
           assert (nz p) ;;
           set_rx a (RxDma p false)
         else
           new_rx_fifo a bufsz ;;
           control RT_DEVICE_CTRL_CONFIG RT_DEVICE_FLAG_DMA_RX) ;;
        or_open a RT_DEVICE_FLAG_DMA_RX
      else set_rx a RxNull
  | _ =>
      if bit_set oflag RT_DEVICE_FLAG_INT_RX then or_open a RT_DEVICE_FLAG_INT_RX
      else if bit_set oflag RT_DEVICE_FLAG_DMA_RX then or_open a RT_DEVICE_FLAG_DMA_RX
      else ret tt
  end.

(** The array of a data queue of [size] blocks, as [rt_malloc] returns it. *)
Definition new_queue (size : nat) : SM (option (list rt_data_item)) :=
  p ← rt_malloc;
  ret (if nz p then Some (replicate size (mk_item 0 0)) else None).

Definition open_tx (a oflag : Z) : SM unit :=
  x ← get_serial a;
  match sr_tx x with
  | TxNull =>
      if bit_set oflag RT_DEVICE_FLAG_INT_TX then
        p ← rt_malloc;
        assert (nz p) ;;
        ipc (rt_completion_init p) ;;
        set_tx a (TxFifo p) ;;
        or_open a RT_DEVICE_FLAG_INT_TX ;;
        control RT_DEVICE_CTRL_SET_INT RT_DEVICE_FLAG_INT_TX
      else if bit_set oflag RT_DEVICE_FLAG_DMA_TX then
        p ← rt_malloc;
        assert (nz p) ;;
        queue ← new_queue 8;
        ipc (rt_data_queue_init p 8 4 false queue) ;;
        set_tx a (TxDma p false) ;;
        or_open a RT_DEVICE_FLAG_DMA_TX
      else set_tx a TxNull
  | _ =>
      if bit_set oflag RT_DEVICE_FLAG_INT_TX then or_open a RT_DEVICE_FLAG_INT_TX
      else if bit_set oflag RT_DEVICE_FLAG_DMA_TX then or_open a RT_DEVICE_FLAG_DMA_TX
      else ret tt
  end.

(** A mode the device does not have. *)
Definition refused (d : rt_device) (oflag mode : Z) : bool := bit_set oflag mode && negb (bit_set (dv_flag d) mode).

Definition rt_serial_open (a oflag : Z) : SM Z :=
  let oflag := u16 oflag in
  d ← get_dev a;
  if refused d oflag RT_DEVICE_FLAG_DMA_RX then ret (- RT_EIO)
  else if refused d oflag RT_DEVICE_FLAG_DMA_TX then ret (- RT_EIO)
  else if refused d oflag RT_DEVICE_FLAG_INT_RX then ret (- RT_EIO)
  else if refused d oflag RT_DEVICE_FLAG_INT_TX then ret (- RT_EIO)
  else
    let stream_flag :=
      if bit_set oflag RT_DEVICE_FLAG_STREAM || bit_set (dv_open_flag d) RT_DEVICE_FLAG_STREAM then RT_DEVICE_FLAG_STREAM else 0 in
    mod_dev a (with_open_flag (Z.land oflag 0xff)) ;;
    open_rx a oflag ;;
    open_tx a oflag ;;
    or_open a stream_flag ;;
    ret RT_EOK.

Definition close_rx (a : Z) : SM unit :=
  d ← get_dev a;
  x ← get_serial a;
  let p := rx_ptr (sr_rx x) in
  if bit_set (dv_open_flag d) RT_DEVICE_FLAG_INT_RX then
    assert (nz p) ;;
    rt_free p ;;
    set_rx a RxNull ;;
    clr_open a RT_DEVICE_FLAG_INT_RX ;;
    control RT_DEVICE_CTRL_CLR_INT RT_DEVICE_FLAG_INT_RX
  else if bit_set (dv_open_flag d) RT_DEVICE_FLAG_DMA_RX then
    assert (nz p) ;;
    rt_free p ;;
    control RT_DEVICE_CTRL_CLR_INT RT_DEVICE_FLAG_DMA_RX ;;
    set_rx a RxNull ;;
    clr_open a RT_DEVICE_FLAG_DMA_RX
  else ret tt.

Definition close_tx (a : Z) : SM unit :=
  d ← get_dev a;
  x ← get_serial a;
  let p := tx_ptr (sr_tx x) in
  if bit_set (dv_open_flag d) RT_DEVICE_FLAG_INT_TX then
    assert (nz p) ;;
    rt_free p ;;
    set_tx a TxNull ;;
    clr_open a RT_DEVICE_FLAG_INT_TX ;;
    control RT_DEVICE_CTRL_CLR_INT RT_DEVICE_FLAG_INT_TX
  else if bit_set (dv_open_flag d) RT_DEVICE_FLAG_DMA_TX then
    assert (nz p) ;;
    rt_free p ;;
    set_tx a TxNull ;;
    clr_open a RT_DEVICE_FLAG_DMA_TX
  else ret tt.

Definition rt_serial_close (a : Z) : SM Z :=
  d ← get_dev a;
  if 1 <? dv_ref_count d then ret RT_EOK
  else
    close_rx a ;;
    close_tx a ;;
    ret RT_EOK.

(** ** Reading *)

(** [serial->ops->dma_transmit(...)] *)
Definition dma_transmit (buf size direction : Z) : SM unit :=
  match u_dma_transmit uart with
  | Some f => hw (f buf size direction) ;; ret tt
  | None => λ _, None
  end.

(** The branch of [_serial_dma_rx] without a FIFO. *)
Definition dma_rx_direct (a buffer length : Z) : SM (Z * list Z) :=
  x ← get_serial a;
  match sr_rx x with
  | RxDma p activated =>
      if activated then rt_set_errno (- RT_EBUSY) ;; ret (0, [])
      else
        set_rx a (RxDma p true) ;;
        dma_transmit buffer length RT_SERIAL_DMA_RX ;;
        ret (length, [])
  | _ => λ _, None
  end.

Definition rt_serial_read (a pos buffer size : Z) : SM (Z * list Z) :=
  if size =? 0 then ret (0, [])
  else
    d ← get_dev a;
    x ← get_serial a;
    let bufsz := cf_bufsz (sr_config x) in
    if bit_set (dv_open_flag d) RT_DEVICE_FLAG_INT_RX then
      match sr_rx x with
      | RxFifo p f =>
          r ← from_opt (_serial_int_rx bufsz (Z.to_nat size) f);
          set_rx a (RxFifo p r.2) ;;
          ret (Z.of_nat (length r.1), r.1)
      | _ => λ _, None
      end
    else if bit_set (dv_open_flag d) RT_DEVICE_FLAG_DMA_RX then
      if bufsz =? 0 then dma_rx_direct a buffer size
      else
        match sr_rx x with
        | RxFifo p f =>
            r ← from_opt (_serial_dma_rx bufsz size f);
            set_rx a (RxFifo p r.2) ;;
            ret (Z.of_nat (length r.1), r.1)
        | _ => λ _, None
        end
    else
      data ← hw (_serial_poll_rx uart (Z.to_nat size));
      ret (Z.of_nat (length data), data).

(** ** Writing *)

(** Where a blocked write continues: the bytes that are left of [size], or the block that
    waits for its place in the queue. *)
Inductive write_wait :=
| IntWait (c t size : Z) (data : list Z)
| DmaWait (t buffer length : Z).

(** The loop of [_serial_int_tx]. *)
Fixpoint int_tx_loop (fuel : nat) (c size : Z) (data : list Z) : SM (outcome Z write_wait) :=
  match fuel with
  | O => λ _, None
  | S fuel =>
      match data with
      | [] => ret (Returned size)
      | ch :: data' =>
          r ← hw (u_putc uart (u8 ch));
          if r =? -1 then
            w ← ipc (rt_completion_wait c RT_WAITING_FOREVER);
            match w with
            | Returned _ => int_tx_loop fuel c size data
            | Blocked t => ret (Blocked (IntWait c t size data))
            end
          else int_tx_loop fuel c size data'
      end
  end.

(** The loop is one step: a completion that is signalled between a refused byte and the
    wait is like one that was there before. So it takes one at most. *)
Definition tx_fuel (data : list Z) : nat := length data + 3.

Definition _serial_int_tx (a : Z) (data : list Z) : SM (outcome Z write_wait) :=
  x ← get_serial a;
  match sr_tx x with
  | TxFifo c => int_tx_loop (tx_fuel data) c (Z.of_nat (length data)) data
  | _ => λ _, None
  end.

(** [_serial_dma_tx] behind [rt_data_queue_push], which answered [result]. *)
Definition dma_tx_start (a buffer length result : Z) : SM Z :=
  if result =? RT_EOK then
    x ← get_serial a;
    match sr_tx x with
    | TxDma p activated =>
        (if activated then ret tt
         else
           set_tx a (TxDma p true) ;;
           dma_transmit buffer length RT_SERIAL_DMA_TX) ;;
        ret length
    | _ => λ _, None
    end
  else rt_set_errno result ;; ret 0.

Definition _serial_dma_tx (a buffer length : Z) : SM (outcome Z write_wait) :=
  x ← get_serial a;
  match sr_tx x with
  | TxDma p _ =>
      w ← ipc (rt_data_queue_push p buffer length RT_WAITING_FOREVER);
      match w with
      | Returned result => r ← dma_tx_start a buffer length result; ret (Returned r)
      | Blocked t => ret (Blocked (DmaWait t buffer length))
      end
  | _ => λ _, None
  end.

Definition rt_serial_write (a pos buffer : Z) (data : list Z) (size : Z) : SM (outcome Z write_wait) :=
  if size =? 0 then ret (Returned 0)
  else
    d ← get_dev a;
    if bit_set (dv_open_flag d) RT_DEVICE_FLAG_INT_TX then _serial_int_tx a data
    else if bit_set (dv_open_flag d) RT_DEVICE_FLAG_DMA_TX then _serial_dma_tx a buffer size
    else
      hw (λ h, (tt, _serial_poll_tx uart (bit_set (dv_open_flag d) RT_DEVICE_FLAG_STREAM) data h)) ;;
      ret (Returned size).

(** A blocked write goes on. *)
Definition rt_serial_write_resume (a : Z) (w : write_wait) : SM (outcome Z write_wait) :=
  match w with
  | IntWait c t size data =>
      ipc (rt_completion_wait_resume c t) ;;
      int_tx_loop (tx_fuel data) c size data
  | DmaWait t buffer length =>
      x ← get_serial a;
      match sr_tx x with
      | TxDma p _ =>
          w ← ipc (rt_data_queue_push_resume p t buffer length RT_WAITING_FOREVER);
          match w with
          | Returned result => r ← dma_tx_start a buffer length result; ret (Returned r)
          | Blocked t => ret (Blocked (DmaWait t buffer length))
          end
      | _ => λ _, None
      end
  end.

(** ** Control and registration *)

Definition rt_serial_control (a cmd args : Z) : SM Z :=
  if cmd =? RT_DEVICE_CTRL_SUSPEND then
    mod_dev a (λ d, with_dflag (u16 (Z.lor (dv_flag d) RT_DEVICE_FLAG_SUSPENDED)) d) ;; ret RT_EOK
  else if cmd =? RT_DEVICE_CTRL_RESUME then
    mod_dev a (λ d, with_dflag (u16 (Z.land (dv_flag d) (Z.lnot RT_DEVICE_FLAG_SUSPENDED))) d) ;; ret RT_EOK
  else if cmd =? RT_DEVICE_CTRL_CONFIG then
    if nz args then
      let pconfig := config_at args in
      d ← get_dev a;
      x ← get_serial a;
      if negb (cf_bufsz pconfig =? cf_bufsz (sr_config x)) && nz (dv_ref_count d) then ret RT_EBUSY
      else
        set_config a pconfig ;;
        (if nz (dv_ref_count d) then
           match u_configure uart with Some configure => hw (configure pconfig) ;; ret tt | None => λ _, None end
         else ret tt) ;;
        ret RT_EOK
    else ret RT_EOK
  else hw (u_control uart cmd args).

Definition serial_ops (a : Z) : dev_ops serial_st write_wait :=
  mk_ops (Some rt_serial_init) (Some rt_serial_open) (Some rt_serial_close) (Some rt_serial_read) (Some rt_serial_write)
    (Some rt_serial_control).

Definition rt_hw_serial_register (a : Z) (name : list Z) (flag data : Z) : SM Z :=
  mod_dev a (λ d, mk_device 0 (dv_flag d) (dv_open_flag d) (dv_ref_count d) None None data) ;;
  rt_device_register (Some a) name flag.

(** * Interrupts *)

Definition isr_rx_ind (a : Z) : SM unit :=
  d ← get_dev a;
  x ← get_serial a;
  match sr_rx x with
  | RxFifo p f =>
      h ← gets (λ s, ss_hw (d_drv s));
      r ← from_opt (rt_hw_serial_isr_rx uart (cf_bufsz (sr_config x)) (bool_decide (is_Some (dv_rx_indicate d))) f h);
      let '(f, h, length) := r in
      hw (λ _, (tt, h)) ;;
      set_rx a (RxFifo p f) ;;
      (match length with Some n => callback (dv_rx_indicate d) n | None => ret tt end)
  | _ => λ _, None
  end.

Definition isr_tx_done (a : Z) : SM unit :=
  x ← get_serial a;
  match sr_tx x with TxFifo c => ipc (rt_completion_done c) | _ => λ _, None end.

(** The pointer [last_data_ptr] is not set when the queue is empty. *)
Definition isr_tx_dmadone (a : Z) : SM unit :=
  d ← get_dev a;
  x ← get_serial a;
  match sr_tx x with
  | TxDma p _ =>
      last ← ipc (rt_data_queue_pop p 0);
      next ← ipc (rt_data_queue_peak p);
      (match next with
       | (0, Some item) =>
           set_tx a (TxDma p true) ;;
           dma_transmit (di_data_ptr item) (di_data_size item) RT_SERIAL_DMA_TX
       | _ => set_tx a (TxDma p false)
       end) ;;
      match dv_tx_complete d, last with
      | None, _ => ret tt
      | Some f, Returned (_, Some item) => callback (Some f) (di_data_ptr item)
      | Some f, _ => λ _, None
      end
  | _ => λ _, None
  end.

Definition isr_rx_dmadone (a event : Z) : SM unit :=
  d ← get_dev a;
  x ← get_serial a;
  let bufsz := cf_bufsz (sr_config x) in
  match sr_rx x with
  | RxDma p _ =>
      assert ((bufsz =? 0) && bool_decide (is_Some (dv_rx_indicate d))) ;;
      callback (dv_rx_indicate d) (Z.shiftr (Z.land event (Z.lnot 0xff)) 8) ;;
      set_rx a (RxDma p false)
  | RxFifo p f =>
      assert (negb (bufsz =? 0)) ;;
      let '(f, length) := rt_hw_serial_isr_dma bufsz event (bool_decide (is_Some (dv_rx_indicate d))) f in
      set_rx a (RxFifo p f) ;;
      (match length with Some n => callback (dv_rx_indicate d) n | None => ret tt end)
  | RxNull => λ _, None
  end.

Definition rt_hw_serial_isr (a event : Z) : SM unit :=
  let e := Z.land event 0xff in
  if e =? RT_SERIAL_EVENT_RX_IND then isr_rx_ind a
  else if e =? RT_SERIAL_EVENT_TX_DONE then isr_tx_done a
  else if e =? RT_SERIAL_EVENT_TX_DMADONE then isr_tx_dmadone a
  else if e =? RT_SERIAL_EVENT_RX_DMADONE then isr_rx_dmadone a event
  else ret tt.

(** * Steps of the driver *)

(** [flags & bit] for the mode bits. *)
Lemma bit_set_testbit x k : 0 ≤ k → bit_set x (2 ^ k) = Z.testbit x k.
Proof.
  intros Hk. unfold bit_set. destruct (Z.testbit x k) eqn:E.
  - apply nz_true. intros H0. assert (Z.testbit (Z.land x (2 ^ k)) k = false) as H1 by (by rewrite H0, Z.bits_0).
    rewrite Z.land_spec, E, Z.pow2_bits_true in H1 by lia. done.
  - apply nz_false. apply Z.bits_inj'. intros n Hn. rewrite Z.land_spec, Z.bits_0, Z.pow2_bits_eqb by lia.
    destruct (Z.eqb_spec k n) as [->|]; [by rewrite E|apply andb_false_r].
Qed.

Lemma u16_testbit x k : 0 ≤ k < 16 → Z.testbit (u16 x) k = Z.testbit x k.
Proof. intros Hk. unfold wrap. by rewrite Z.mod_pow2_bits_low by lia. Qed.

(** The state of one serial device: [a] is the device [d] with the structure [x]; [L] is
    allocated and [n] blocks were; nobody waits at an address still to be allocated. *)
Record ser (a : Z) (d : rt_device) (x : rt_serial_device) (L : list Z) (n : nat) (s : Device.dst serial_st) : Prop := {
  sr_is : is_dev s a d;
  sr_at : ss_dev (d_drv s) !! a = Some x;
  sr_kinv : kinv (d_k s);
  sr_fresh m : (n ≤ m)%nat → ∀ h, h = HSuspend (heap_addr m) ∨ h = HSender (heap_addr m) → tlist (k_tl (d_k s)) h = [];
  sr_live : ss_live (d_drv s) = L;
  sr_count : ss_count (d_drv s) = n
}.

Section steps.
Variables (a : Z) (d : rt_device) (x : rt_serial_device) (L : list Z) (n : nat) (s : Device.dst serial_st).
Hypothesis Hs : ser a d x L n s.

Lemma ser_get_dev (Q : rt_device → _ → Prop) : Q d s → wp (get_dev a) Q s.
Proof. intros HQ. unfold wp. by rewrite (get_dev_run s a d) by apply Hs. Qed.

Lemma ser_get_serial (Q : rt_serial_device → _ → Prop) : Q x s → wp (get_serial a) Q s.
Proof. intros HQ. unfold wp, get_serial. by rewrite (sr_at _ _ _ _ _ _ Hs). Qed.

Lemma ser_mod_dev f : wp (mod_dev a f) (λ _, ser a (f d) x L n) s.
Proof.
  unfold wp. rewrite (dev_mod_run s a d) by apply Hs. destruct Hs as [Hi Hx Hk Hf Hl Hn].
  split; [by eapply is_dev_put|done..].
Qed.

Lemma ser_put x' : wp (put_serial a x') (λ _, ser a d x' L n) s.
Proof. destruct Hs. split; cbn; try done. apply lookup_insert_eq. Qed.

Lemma ser_hw {A} (f : H → A * H) : wp (hw f) (λ _, ser a d x L n) s.
Proof. unfold wp, hw. destruct (f (ss_hw (d_drv s))). by destruct Hs. Qed.

Lemma ser_malloc :
  wp rt_malloc (λ p s', p = heap_addr n ∧ d_k s' = d_k s ∧ ser a d x (if nz p then p :: L else L) (S n) s') s.
Proof.
  destruct Hs as [Hi Hx Hk Hf Hl Hn]. unfold wp, rt_malloc. rewrite Hn, Hl. split_and!; [done|done|].
  split; cbn; try done. intros m Hm. apply Hf. lia.
Qed.

Lemma ser_free p : wp (rt_free p) (λ _, ser a d x (filter (λ q, q ≠ p) L) n) s.
Proof. destruct Hs as [Hi Hx Hk Hf Hl Hn]. split; cbn; try done. by rewrite Hl. Qed.
End steps.

Lemma ser_set_rx a d x L n s r : ser a d x L n s → wp (set_rx a r) (λ _, ser a d (mk_serial (sr_config x) r (sr_tx x)) L n) s.
Proof. intros Hs. apply wp_bind, (ser_get_serial _ _ _ _ _ _ Hs). by eapply ser_put. Qed.
Lemma ser_set_tx a d x L n s t : ser a d x L n s → wp (set_tx a t) (λ _, ser a d (mk_serial (sr_config x) (sr_rx x) t) L n) s.
Proof. intros Hs. apply wp_bind, (ser_get_serial _ _ _ _ _ _ Hs). by eapply ser_put. Qed.
Lemma ser_control a d x L n s cmd arg : ser a d x L n s → wp (control cmd arg) (λ _, ser a d x L n) s.
Proof. intros Hs. apply wp_bind. eapply wp_mono; [by eapply ser_hw|]. auto. Qed.
(** A routine of the driver IPC that initialises lists nobody waits in. *)
Lemma ser_ipc {A} (m : M DevIpc.dst A) a d x L n s :
  ser a d x L n s →
  wp m (λ _ t, k_objects (ds_k t) = k_objects (d_k s) ∧ kinv (ds_k t) ∧ ∀ h, tlist (k_tl (ds_k t)) h = tlist (k_tl (d_k s)) h)
    (DevIpc.mk_dst (d_k s) (d_errno s) (ss_flag (d_drv s)) (ss_dq (d_drv s)) (ss_notes (d_drv s))) →
  wp (ipc m) (λ _, ser a d x L n) s.
Proof.
  intros [[Hd Ho] Hx Hk Hf Hl Hn]. unfold wp, ipc. destruct (m _) as [[r t]|]; [|done]. intros (HO & Hk' & Ht).
  split; cbn; try done.
  - split; [done|]. unfold k_obj in *. cbn. by rewrite HO.
  - intros k Hle h Hh. rewrite Ht. by eapply Hf.
Qed.

Lemma ser_completion_init p a d x L n s :
  ser a d x L n s → nz p = true → tlist (k_tl (d_k s)) (HSuspend p) = [] →
  wp (ipc (rt_completion_init p)) (λ _, ser a d x L n) s.
Proof.
  intros Hs Hp Hl. apply ser_ipc; [done|]. apply wp_bind, wp_assert; [done|]. apply wp_bind, wp_modify.
  destruct (ipc_init_run (d_k s) (HSuspend p) (sr_kinv _ _ _ _ _ _ Hs) Hl) as (R & Hk & Ht).
  unfold wp. by rewrite (dev_kern_run _ (DevIpc.mk_dst _ _ _ _ _) _ _ R).
Qed.

Lemma ser_data_queue_init p size lwm ev q a d x L n s :
  ser a d x L n s → nz p = true → tlist (k_tl (d_k s)) (HSuspend p) = [] → tlist (k_tl (d_k s)) (HSender p) = [] →
  wp (ipc (rt_data_queue_init p size lwm ev q)) (λ _, ser a d x L n) s.
Proof.
  intros Hs Hp Hl1 Hl2. apply ser_ipc; [done|]. apply wp_bind, wp_assert; [done|].
  destruct (ipc_init_run (d_k s) (HSender p) (sr_kinv _ _ _ _ _ _ Hs) Hl2) as (R & Hk & Ht).
  apply wp_bind. unfold wp at 1. rewrite (dev_kern_run _ (DevIpc.mk_dst _ _ _ _ _) _ _ R). cbn [ds_errno ds_flag ds_dq ds_notes].
  destruct (ipc_init_run _ (HSuspend p) Hk) as (R2 & Hk2 & Ht2); [by rewrite Ht|].
  apply wp_bind. unfold wp at 1. rewrite (dev_kern_run _ (DevIpc.mk_dst _ _ _ _ _) _ _ R2).
  destruct q; apply wp_bind, wp_modify, wp_ret; (split_and!; [done|done|]); intros h; cbn [ds_k]; by rewrite Ht2, Ht.
Qed.

(** ** Opening *)

(** Whether the flags select one of the modes [2 ^ i], [2 ^ j], and the open flag with the
    one they select. *)
Definition sel (fl i j : Z) : bool := Z.testbit fl i || Z.testbit fl j.
Definition add_mode (oflag i j fl : Z) : Z :=
  if Z.testbit oflag i then u16 (Z.lor fl (2 ^ i)) else if Z.testbit oflag j then u16 (Z.lor fl (2 ^ j)) else fl.

Definition no_rx (x : rt_serial_device) : bool := match sr_rx x with RxNull => true | _ => false end.
Definition no_tx (x : rt_serial_device) : bool := match sr_tx x with TxNull => true | _ => false end.

Ltac step lem := apply wp_bind; eapply wp_mono; [by eapply lem|]; cbv beta; intros ? ?.
Ltac fstep lem := apply wpf_seq; eapply wp_mono; [by eapply lem|]; cbv beta; intros ? ?.
Ltac mono lem := eapply wp_mono; [by eapply lem|]; cbv beta; intros _ ?.

(** A receive FIFO is allocated, or there is no memory for it. *)
Lemma new_rx_fifo_run a bufsz d x L n s :
  ser a d x L n s →
  wpf (heap_addr n = 0) (new_rx_fifo a bufsz) (λ _ s', heap_addr n ≠ 0 ∧
    ser a d (mk_serial (sr_config x) (RxFifo (heap_addr n) (new_fifo bufsz)) (sr_tx x)) (heap_addr n :: L) (S n) s') s.
Proof.
  intros Hs. fstep ser_malloc. intros (-> & _ & Hs1). apply wpf_bind, wpf_assert; [|by intros ?%nz_false].
  intros Hp. rewrite Hp in Hs1. apply nz_true in Hp. apply wpf_wp. mono ser_set_rx. done.
Qed.

Lemma or_open_run a bit d x L n s :
  ser a d x L n s → wp (or_open a bit) (λ _, ser a (with_open_flag (u16 (Z.lor (dv_open_flag d) bit)) d) x L n) s.
Proof. intros Hs. exact (ser_mod_dev a d x L n s Hs (λ d, with_open_flag (u16 (Z.lor (dv_open_flag d) bit)) d)). Qed.

Lemma bit8 x : bit_set x RT_DEVICE_FLAG_INT_RX = Z.testbit x 8. Proof. by apply (bit_set_testbit x 8). Qed.
Lemma bit9 x : bit_set x RT_DEVICE_FLAG_DMA_RX = Z.testbit x 9. Proof. by apply (bit_set_testbit x 9). Qed.
Lemma bit10 x : bit_set x RT_DEVICE_FLAG_INT_TX = Z.testbit x 10. Proof. by apply (bit_set_testbit x 10). Qed.
Lemma bit11 x : bit_set x RT_DEVICE_FLAG_DMA_TX = Z.testbit x 11. Proof. by apply (bit_set_testbit x 11). Qed.

Lemma with_open_flag_id d : with_open_flag (dv_open_flag d) d = d.
Proof. by destruct d. Qed.

(** A structure is allocated when there is none and a mode asks for it; without memory for
    it the assertion behind [rt_malloc] fails. *)
Lemma open_rx_run a oflag d x L n s :
  ser a d x L n s →
  wpf (heap_addr n = 0) (open_rx a oflag) (λ _ s', ∃ x' got n',
    ser a (with_open_flag (add_mode oflag 8 9 (dv_open_flag d)) d) x' (got ++ L) n' s' ∧
    sr_config x' = sr_config x ∧ sr_tx x' = sr_tx x ∧
    if no_rx x && sel oflag 8 9 then rx_ptr (sr_rx x') = heap_addr n ∧ heap_addr n ≠ 0 ∧ got = [heap_addr n] ∧ n' = S n
    else sr_rx x' = sr_rx x ∧ got = [] ∧ n' = n) s.
Proof.
  intros Hs. unfold open_rx, no_rx, sel, add_mode. apply wpf_seq, (ser_get_serial _ _ _ _ _ _ Hs).
  rewrite bit8, bit9. destruct (sr_rx x) eqn:Er.
  - destruct (Z.testbit oflag 8); cbn [orb andb].
    + apply wpf_bind. eapply wpf_mono; [by eapply new_rx_fifo_run|done|]. intros _ s1 [Hp Hs1]. apply wpf_wp.
      step or_open_run. intros Hs2. mono ser_control. intros Hs3. eexists _, [_], _. split; [exact Hs3|done].
    + destruct (Z.testbit oflag 9).
      * apply wpf_bind. destruct (cf_bufsz (sr_config x) =? 0).
        -- fstep ser_malloc. intros (-> & _ & Hs1). apply wpf_bind, wpf_assert; [|by intros ?%nz_false].
           intros Hp. rewrite Hp in Hs1. apply nz_true in Hp. apply wpf_wp. mono ser_set_rx. intros Hs2. apply wpf_wp. mono or_open_run. intros Hs3.
           eexists _, [_], _. split; [exact Hs3|done].
        -- apply wpf_bind. eapply wpf_mono; [by eapply new_rx_fifo_run|done|]. intros _ s1 [Hp Hs1]. apply wpf_wp. mono ser_control. intros Hs2.
           apply wpf_wp. mono or_open_run. intros Hs3. eexists _, [_], _. split; [exact Hs3|done].
      * apply wpf_wp. mono ser_set_rx. intros Hs1. rewrite with_open_flag_id. eexists _, [], _. split; [exact Hs1|done].
  - cbn [andb]. apply wpf_wp. destruct (Z.testbit oflag 8); [|destruct (Z.testbit oflag 9)].
    1-2: mono or_open_run; intros Hs1; by exists x, [], n.
    apply wp_ret. rewrite with_open_flag_id. by exists x, [], n.
  - cbn [andb]. apply wpf_wp. destruct (Z.testbit oflag 8); [|destruct (Z.testbit oflag 9)].
    1-2: mono or_open_run; intros Hs1; by exists x, [], n.
    apply wp_ret. rewrite with_open_flag_id. by exists x, [], n.
Qed.

(** What a transmitter takes: its structure, and for DMA the array of its queue, which may
    be missing. *)
Definition tx_got (oflag : Z) (n : nat) : list Z :=
  (if Z.testbit oflag 10 then [] else if nz (heap_addr (S n)) then [heap_addr (S n)] else []) ++ [heap_addr n].

Lemma open_tx_run a oflag d x L n s :
  ser a d x L n s →
  wpf (heap_addr n = 0) (open_tx a oflag) (λ _ s', ∃ x' got n',
    ser a (with_open_flag (add_mode oflag 10 11 (dv_open_flag d)) d) x' (got ++ L) n' s' ∧
    sr_config x' = sr_config x ∧ sr_rx x' = sr_rx x ∧
    if no_tx x && sel oflag 10 11 then tx_ptr (sr_tx x') = heap_addr n ∧ heap_addr n ≠ 0 ∧ got = tx_got oflag n
    else sr_tx x' = sr_tx x ∧ got = []) s.
Proof.
  intros Hs. unfold open_tx, no_tx, sel, add_mode, tx_got. apply wpf_seq, (ser_get_serial _ _ _ _ _ _ Hs).
  rewrite bit10, bit11. pose proof (sr_fresh _ _ _ _ _ _ Hs n ltac:(lia)) as Hf. destruct (sr_tx x) eqn:Er.
  - destruct (Z.testbit oflag 10); cbn [orb andb].
    + fstep ser_malloc. intros (-> & Ek & Hs1). apply wpf_bind, wpf_assert; [|by intros ?%nz_false]. intros Hp. rewrite Hp in Hs1. apply wpf_wp.
      apply wp_bind. eapply wp_mono; [eapply ser_completion_init; [done|exact Hp|rewrite Ek; auto]|]. cbv beta. intros _ s2 Hs2.
      step ser_set_tx. intros Hs3. step or_open_run. intros Hs4. mono ser_control. intros Hs5.
      eexists _, [_], _. split; [exact Hs5|]. by apply nz_true in Hp.
    + destruct (Z.testbit oflag 11).
      * fstep ser_malloc. intros (-> & Ek & Hs1). apply wpf_bind, wpf_assert; [|by intros ?%nz_false]. intros Hp. rewrite Hp in Hs1. apply wpf_wp.
        apply wp_bind. step ser_malloc. intros (-> & Ek2 & Hs2). apply wp_ret.
        apply wp_bind. eapply wp_mono; [eapply ser_data_queue_init; [done|exact Hp|rewrite Ek2, Ek; auto..]|]. cbv beta. intros _ s3 Hs3.
        step ser_set_tx. intros Hs4. mono or_open_run. intros Hs5. apply nz_true in Hp.
        exists (mk_serial (sr_config x) (sr_rx x) (TxDma (heap_addr n) false)), ((if nz (heap_addr (S n)) then [heap_addr (S n)] else []) ++ [heap_addr n]), (S (S n)).
        split; [destruct (nz (heap_addr (S n))); exact Hs5|done].
      * apply wpf_wp. mono ser_set_tx. intros Hs1. rewrite with_open_flag_id. eexists _, [], _. split; [exact Hs1|done].
  - cbn [andb]. apply wpf_wp. destruct (Z.testbit oflag 10); [|destruct (Z.testbit oflag 11)].
    1-2: mono or_open_run; intros Hs1; by exists x, [], n.
    apply wp_ret. rewrite with_open_flag_id. by exists x, [], n.
  - cbn [andb]. apply wpf_wp. destruct (Z.testbit oflag 10); [|destruct (Z.testbit oflag 11)].
    1-2: mono or_open_run; intros Hs1; by exists x, [], n.
    apply wp_ret. rewrite with_open_flag_id. by exists x, [], n.
Qed.

(** The open flag [rt_serial_open] sets: the modes are those asked for. *)
Definition opened (d : rt_device) (oflag : Z) : Z :=
  u16 (Z.lor (add_mode oflag 10 11 (add_mode oflag 8 9 (Z.land oflag 0xff)))
    (if bit_set oflag RT_DEVICE_FLAG_STREAM || bit_set (dv_open_flag d) RT_DEVICE_FLAG_STREAM then RT_DEVICE_FLAG_STREAM else 0)).

Lemma add_mode_testbit oflag i j fl k :
  0 ≤ i → 0 ≤ j → 0 ≤ k < 16 →
  Z.testbit (add_mode oflag i j fl) k = Z.testbit fl k || (Z.testbit oflag i && (k =? i)) || (negb (Z.testbit oflag i) && Z.testbit oflag j && (k =? j)).
Proof.
  intros Hi Hj Hk. unfold add_mode. destruct (Z.testbit oflag i), (Z.testbit oflag j); cbn [andb negb];
    rewrite ?u16_testbit, ?testbit_set_mask, ?orb_false_r by lia; done.
Qed.

Lemma opened_modes d oflag : sel (opened d oflag) 8 9 = sel oflag 8 9 ∧ sel (opened d oflag) 10 11 = sel oflag 10 11.
Proof.
  assert (∀ k, 8 ≤ k < 16 → Z.testbit (opened d oflag) k =
    (Z.testbit oflag 8 && (k =? 8)) || (negb (Z.testbit oflag 8) && Z.testbit oflag 9 && (k =? 9)) ||
    (Z.testbit oflag 10 && (k =? 10)) || (negb (Z.testbit oflag 10) && Z.testbit oflag 11 && (k =? 11))) as E.
  { intros k Hk. unfold opened. rewrite u16_testbit, Z.lor_spec by lia.
    assert (Z.testbit (if bit_set oflag RT_DEVICE_FLAG_STREAM || bit_set (dv_open_flag d) RT_DEVICE_FLAG_STREAM
      then RT_DEVICE_FLAG_STREAM else 0) k = false) as ->.
    { destruct (_ || _); [|apply Z.bits_0]. change RT_DEVICE_FLAG_STREAM with (2 ^ 6). rewrite Z.pow2_bits_eqb by lia. lia. }
    rewrite orb_false_r, !add_mode_testbit, Z.land_spec by lia. change 0xff with (Z.ones 8). rewrite Z.ones_spec_high by lia.
    by rewrite andb_false_r. }
  unfold sel. rewrite !E by lia. by destruct (Z.testbit oflag 8), (Z.testbit oflag 9), (Z.testbit oflag 10), (Z.testbit oflag 11).
Qed.

(** The number of the allocation for the transmitter. *)
Definition tx_number (x : rt_serial_device) (o : Z) (n : nat) : nat := if no_rx x && sel o 8 9 then S n else n.

(** One of the two structures an open takes cannot be had. *)
Definition exhausted (n : nat) : Prop := heap_addr n = 0 ∨ heap_addr (S n) = 0.

Lemma rt_serial_open_run a oflag d x L n s :
  ser a d x L n s →
  wpf (exhausted n) (rt_serial_open a oflag) (λ r s', (r = - RT_EIO ∧ s' = s) ∨ (r = RT_EOK ∧
    ∃ x' got1 got2 n', let o := u16 oflag in let n1 := tx_number x o n in
    ser a (with_open_flag (opened d o) d) x' (got2 ++ got1 ++ L) n' s' ∧ sr_config x' = sr_config x ∧
    (if no_rx x && sel o 8 9 then rx_ptr (sr_rx x') = heap_addr n ∧ heap_addr n ≠ 0 ∧ got1 = [heap_addr n] else sr_rx x' = sr_rx x ∧ got1 = []) ∧
    (if no_tx x && sel o 10 11 then tx_ptr (sr_tx x') = heap_addr n1 ∧ heap_addr n1 ≠ 0 ∧ got2 = tx_got o n1
     else sr_tx x' = sr_tx x ∧ got2 = []))) s.
Proof.
  intros Hs. unfold rt_serial_open. set (o := u16 oflag). cbv zeta. apply wpf_seq, (ser_get_dev _ _ _ _ _ _ Hs).
  do 4 (destruct (refused _ _ _); [apply wpf_wp, wp_ret; by left|]).
  apply wpf_seq. eapply wp_mono; [eapply ser_mod_dev, Hs|]. cbv beta. intros _ s1 Hs1.
  apply wpf_bind. eapply wpf_mono; [by eapply open_rx_run|intros ?; by left|]. cbv beta. intros _ s2 (x1 & got1 & n1 & Hs2 & Ec1 & Et1 & Hr).
  assert (n1 = tx_number x o n) as En1 by (unfold tx_number; destruct (no_rx x && sel o 8 9); naive_solver). subst n1.
  apply wpf_bind. eapply wpf_mono; [by eapply open_tx_run|unfold tx_number, exhausted; destruct (_ && _); tauto|]. cbv beta.
  intros _ s3 (x2 & got2 & n2 & Hs3 & Ec2 & Er2 & Ht).
  apply wpf_wp. step or_open_run. intros Hs4. apply wp_ret. right. split; [done|]. exists x2, got1, got2, n2. split_and!; [exact Hs4|congruence| |].
  - rewrite Er2. destruct (no_rx x && sel o 8 9); naive_solver.
  - unfold no_tx in *. by rewrite Et1 in Ht.
Qed.

(** ** Closing *)

Definition clr_mode (i j fl : Z) : Z :=
  if Z.testbit fl i then u16 (Z.land fl (Z.lnot (2 ^ i))) else if Z.testbit fl j then u16 (Z.land fl (Z.lnot (2 ^ j))) else fl.

Lemma clr_open_run a bit d x L n s :
  ser a d x L n s → wp (clr_open a bit) (λ _, ser a (with_open_flag (u16 (Z.land (dv_open_flag d) (Z.lnot bit))) d) x L n) s.
Proof. intros Hs. exact (ser_mod_dev a d x L n s Hs (λ d, with_open_flag (u16 (Z.land (dv_open_flag d) (Z.lnot bit))) d)). Qed.

Lemma close_rx_run a d x L n s :
  ser a d x L n s → (sel (dv_open_flag d) 8 9 = true → rx_ptr (sr_rx x) ≠ 0) →
  wp (close_rx a) (λ _, if sel (dv_open_flag d) 8 9
    then ser a (with_open_flag (clr_mode 8 9 (dv_open_flag d)) d) (mk_serial (sr_config x) RxNull (sr_tx x)) (filter (λ q, q ≠ rx_ptr (sr_rx x)) L) n
    else ser a d x L n) s.
Proof.
  intros Hs Hp. unfold close_rx, sel, clr_mode in *. apply wp_bind, (ser_get_dev _ _ _ _ _ _ Hs). apply wp_bind, (ser_get_serial _ _ _ _ _ _ Hs).
  rewrite bit8, bit9. destruct (Z.testbit (dv_open_flag d) 8); [|destruct (Z.testbit (dv_open_flag d) 9); [|by apply wp_ret]]; cbn [orb] in *.
  - apply wp_bind, wp_assert; [by apply nz_true, Hp|]. step ser_free. intros Hs1. step ser_set_rx. intros Hs2. step clr_open_run. intros Hs3.
    by eapply ser_control.
  - apply wp_bind, wp_assert; [by apply nz_true, Hp|]. step ser_free. intros Hs1. step ser_control. intros Hs2. step ser_set_rx. intros Hs3.
    by eapply clr_open_run.
Qed.

Lemma close_tx_run a d x L n s :
  ser a d x L n s → (sel (dv_open_flag d) 10 11 = true → tx_ptr (sr_tx x) ≠ 0) →
  wp (close_tx a) (λ _, if sel (dv_open_flag d) 10 11
    then ser a (with_open_flag (clr_mode 10 11 (dv_open_flag d)) d) (mk_serial (sr_config x) (sr_rx x) TxNull) (filter (λ q, q ≠ tx_ptr (sr_tx x)) L) n
    else ser a d x L n) s.
Proof.
  intros Hs Hp. unfold close_tx, sel, clr_mode in *. apply wp_bind, (ser_get_dev _ _ _ _ _ _ Hs). apply wp_bind, (ser_get_serial _ _ _ _ _ _ Hs).
  rewrite bit10, bit11. destruct (Z.testbit (dv_open_flag d) 10); [|destruct (Z.testbit (dv_open_flag d) 11); [|by apply wp_ret]]; cbn [orb] in *.
  - apply wp_bind, wp_assert; [by apply nz_true, Hp|]. step ser_free. intros Hs1. step ser_set_tx. intros Hs2. step clr_open_run. intros Hs3.
    by eapply ser_control.
  - apply wp_bind, wp_assert; [by apply nz_true, Hp|]. step ser_free. intros Hs1. step ser_set_tx. intros Hs2. by eapply clr_open_run.
Qed.

Lemma clr_rx_modes fl : sel (clr_mode 8 9 fl) 10 11 = sel fl 10 11.
Proof.
  assert (∀ b k, 0 ≤ b < 10 → 10 ≤ k < 16 → Z.testbit (u16 (Z.land fl (Z.lnot (2 ^ b)))) k = Z.testbit fl k) as E.
  { intros b k Hb Hk. rewrite u16_testbit, Z.land_spec, Z.lnot_spec, Z.pow2_bits_eqb, (proj2 (Z.eqb_neq b k)) by lia. apply andb_true_r. }
  unfold sel, clr_mode. destruct (Z.testbit fl 8); [|destruct (Z.testbit fl 9); [|done]]; by rewrite !E by lia.
Qed.

Lemma rt_serial_close_run a d x L n s :
  ser a d x L n s → (sel (dv_open_flag d) 8 9 = true → rx_ptr (sr_rx x) ≠ 0) → (sel (dv_open_flag d) 10 11 = true → tx_ptr (sr_tx x) ≠ 0) →
  dv_ref_count d ≤ 1 →
  wp (rt_serial_close a) (λ r s', r = RT_EOK ∧ ∃ fl,
    let L1 := if sel (dv_open_flag d) 8 9 then filter (λ q, q ≠ rx_ptr (sr_rx x)) L else L in
    ser a (with_open_flag fl d)
      (mk_serial (sr_config x) (if sel (dv_open_flag d) 8 9 then RxNull else sr_rx x) (if sel (dv_open_flag d) 10 11 then TxNull else sr_tx x))
      (if sel (dv_open_flag d) 10 11 then filter (λ q, q ≠ tx_ptr (sr_tx x)) L1 else L1) n s') s.
Proof.
  intros Hs Hr Ht Hn. unfold rt_serial_close. apply wp_bind, (ser_get_dev _ _ _ _ _ _ Hs). rewrite (proj2 (Z.ltb_ge _ _)) by lia.
  set (fl := dv_open_flag d) in *. apply wp_bind. eapply wp_mono; [by apply close_rx_run|]. cbv beta. intros _ s1 Hs1.
  assert (∃ fl1, ser a (with_open_flag fl1 d) (mk_serial (sr_config x) (if sel fl 8 9 then RxNull else sr_rx x) (sr_tx x))
    (if sel fl 8 9 then filter (λ q, q ≠ rx_ptr (sr_rx x)) L else L) n s1 ∧ sel fl1 10 11 = sel fl 10 11) as (fl1 & Hs1' & E).
  { fold fl in Hs1. destruct (sel fl 8 9); [eexists; split; [exact Hs1|apply clr_rx_modes]|]. exists fl. unfold fl. rewrite with_open_flag_id. by destruct x. }
  clear Hs1. apply wp_bind. eapply wp_mono; [eapply close_tx_run; [exact Hs1'|cbn; by rewrite E]|]. cbn [dv_open_flag with_open_flag sr_config sr_rx sr_tx].
  rewrite E. intros _ s2 Hs2. apply wp_ret. split; [done|]. destruct (sel fl 10 11); [by eexists|]. by exists fl1.
Qed.

(** ** The laws of a driver *)

(** Each mode in use has its structure; a device that is not active has no mode. *)
Record linked (d : rt_device) (x : rt_serial_device) : Prop := {
  li_rx : sel (dv_open_flag d) 8 9 = true → sr_rx x ≠ RxNull;
  li_tx : sel (dv_open_flag d) 10 11 = true → sr_tx x ≠ TxNull;
  li_rx_ptr : sr_rx x ≠ RxNull → rx_ptr (sr_rx x) ≠ 0;
  li_tx_ptr : sr_tx x ≠ TxNull → tx_ptr (sr_tx x) ≠ 0;
  li_active : activated d = false → sel (dv_open_flag d) 8 9 = false ∧ sel (dv_open_flag d) 10 11 = false
}.

Definition serial_inv (a : Z) (s : Device.dst serial_st) : Prop := ∃ d x L n, ser a d x L n s ∧ linked d x.

(** The invariant before an open, with the number of allocations so far. *)
Definition serial_at (a : Z) (n : nat) (s : Device.dst serial_st) : Prop := ∃ d x L, ser a d x L n s ∧ linked d x.

Lemma ser_dev a d d' x L n s : ser a d x L n s → is_dev s a d' → d' = d.
Proof. intros Hs [Hd _]. destruct (sr_is _ _ _ _ _ _ Hs) as [Hd' _]. congruence. Qed.

Lemma ser_put_st a d x L n s d' : ser a d x L n s → ser a d' x L n (put_st a d' s).
Proof. intros [Hi Hx Hk Hf Hl Hn]. split; [by eapply is_dev_put|done..]. Qed.

Lemma no_rx_null x : no_rx x = false ↔ sr_rx x ≠ RxNull.
Proof. unfold no_rx. by destruct (sr_rx x). Qed.
Lemma no_tx_null x : no_tx x = false ↔ sr_tx x ≠ TxNull.
Proof. unfold no_tx. by destruct (sr_tx x). Qed.

Lemma init_law a d x L n s :
  ser a d x L n s → linked d x → activated d = false →
  wp (rt_serial_init a) (λ _ s', serial_at a n s' ∧ driver_frame a d s') s.
Proof.
  intros Hs Hl Ha. unfold rt_serial_init. step ser_set_rx. intros Hs1. step ser_set_tx. intros Hs2.
  apply wp_bind, (ser_get_serial _ _ _ _ _ _ Hs2). cbn [sr_rx sr_tx sr_config] in *.
  assert (∀ s', ser a d (mk_serial (sr_config x) RxNull TxNull) L n s' → serial_at a n s' ∧ driver_frame a d s') as Hend.
  { intros s9 Hs'. split; [|exists (dv_open_flag d); rewrite with_open_flag_id; apply Hs'].
    eexists _, _, _. split; [exact Hs'|]. destruct (li_active _ _ Hl Ha) as [E1 E2]. split; cbn; by rewrite ?E1, ?E2. }
  destruct (u_configure uart) as [f|]; [|apply wp_ret; auto]. eapply wp_mono; [by eapply ser_hw|]. auto.
Qed.

Lemma open_law a oflag d x L n s :
  ser a d x L n s → linked d x → activated d = true →
  wpf (exhausted n) (rt_serial_open a oflag) (λ _ s', serial_inv a s' ∧ driver_frame a d s') s.
Proof.
  intros Hs Hl Ha. eapply wpf_mono; [by eapply rt_serial_open_run|done|]. cbv beta zeta.
  intros r s' [[_ ->]|(_ & x' & got1 & got2 & n' & Hs' & _ & Hr & Ht)].
  - split; [by exists d, x, L, n|]. exists (dv_open_flag d). rewrite with_open_flag_id. apply Hs.
  - split; [|eexists; apply Hs']. eexists _, _, _, _. split; [exact Hs'|]. destruct (opened_modes d (u16 oflag)) as [E1 E2].
    assert (sr_rx x' ≠ RxNull → rx_ptr (sr_rx x') ≠ 0) as Hrp.
    { destruct (no_rx x && sel (u16 oflag) 8 9); [destruct Hr as (-> & Hr & _); by intros _|destruct Hr as [-> _]; apply Hl]. }
    assert (sr_tx x' ≠ TxNull → tx_ptr (sr_tx x') ≠ 0) as Htp.
    { destruct (no_tx x && sel (u16 oflag) 10 11); [destruct Ht as (-> & Ht & _); by intros _|destruct Ht as [-> _]; apply Hl]. }
    split; cbn [dv_open_flag with_open_flag]; [| |done|done|].
    3: { intros E. exfalso. change (activated d = false) in E. congruence. }
    + rewrite E1. intros E. rewrite E, andb_true_r in Hr. destruct (no_rx x) eqn:En.
      * destruct Hr as (Hr & Hn & _). intros E0. by rewrite E0 in Hr.
      * destruct Hr as [-> _]. by apply no_rx_null.
    + rewrite E2. intros E. rewrite E, andb_true_r in Ht. destruct (no_tx x) eqn:En.
      * destruct Ht as (Ht & Hn & _). intros E0. by rewrite E0 in Ht.
      * destruct Ht as [-> _]. by apply no_tx_null.
Qed.

Lemma close_law a d x L n s :
  ser a d x L n s → linked d x →
  wp (rt_serial_close a) (λ r s', (if (r =? RT_EOK) || (r =? - RT_ENOSYS)
      then ∀ d', is_dev s' a d' → serial_inv a (put_st a (with_open_flag RT_DEVICE_OFLAG_CLOSE d') s') else serial_inv a s') ∧
    driver_frame a d s') s.
Proof.
  intros Hs Hl.
  assert (∀ d' x' L' s', ser a d' x' L' n s' → activated d' = activated d → (sr_rx x' ≠ RxNull → rx_ptr (sr_rx x') ≠ 0) →
    (sr_tx x' ≠ TxNull → tx_ptr (sr_tx x') ≠ 0) →
    ∀ d'', is_dev s' a d'' → serial_inv a (put_st a (with_open_flag RT_DEVICE_OFLAG_CLOSE d'') s')) as Hend.
  { intros d' x' L' s' Hs' Ea Hr Ht d'' Hd. pose proof (ser_dev _ _ _ _ _ _ _ Hs' Hd) as ->.
    eexists _, _, _, _. split; [by eapply ser_put_st|]. by split. }
  destruct (Z.leb_spec (dv_ref_count d) 1) as [Hn|Hn].
  - eapply wp_mono; [apply (rt_serial_close_run a d x L n s Hs); [intros E; by apply Hl, Hl|intros E; by apply Hl, Hl|done]|].
    cbv beta zeta. intros r s' (-> & fl & Hs'). split; [|exists fl; apply Hs']. cbn [Z.eqb RT_EOK orb]. eapply Hend; [exact Hs'|done|..]; cbn.
    + destruct (sel _ 8 9); [done|apply Hl].
    + destruct (sel _ 10 11); [done|apply Hl].
  - unfold rt_serial_close. apply wp_bind, (ser_get_dev _ _ _ _ _ _ Hs). rewrite (proj2 (Z.ltb_lt _ _)) by lia. apply wp_ret.
    split; [cbn [Z.eqb RT_EOK orb]; eapply Hend; [exact Hs|done|apply Hl..]|]. exists (dv_open_flag d). rewrite with_open_flag_id. apply Hs.
Qed.

Lemma serial_at_inv a n s : serial_at a n s → serial_inv a s.
Proof. intros (d & x & L & ?). by exists d, x, L, n. Qed.

(** A mark of an open or closed device keeps the links. *)
Lemma linked_users d x m fl :
  linked d x → fl = dv_open_flag d ∨ fl = Z.lor (dv_open_flag d) RT_DEVICE_OFLAG_OPEN → linked (with_ref_count m (with_open_flag fl d)) x.
Proof.
  intros [H1 H2 H3 H4 H5] Hfl. assert (∀ i j, 4 ≤ i → 4 ≤ j → sel fl i j = sel (dv_open_flag d) i j) as E.
  { intros i j Hi Hj. destruct Hfl as [->| ->]; [done|]. unfold sel. change RT_DEVICE_OFLAG_OPEN with (2 ^ 3).
    rewrite !testbit_set_mask, (proj2 (Z.eqb_neq i 3)), (proj2 (Z.eqb_neq j 3)), !orb_false_r by lia. done. }
  split; cbn [dv_open_flag with_open_flag with_ref_count]; rewrite ?E by lia; done.
Qed.

#[local] Instance serial_open_laws a n : OpenLaws serial_ops (exhausted n) (serial_at a n) (serial_inv a) a.
Proof.
  split; cbn [serial_ops op_init op_open op_close]; try done.
  - intros f s d [= <-] (d' & x & L & Hs & Hl) Hd Ha. pose proof (ser_dev _ _ _ _ _ _ _ Hs Hd) as ->. by eapply init_law.
  - intros f s d oflag [= <-] (d' & x & L & Hs & Hl) Hd Ha. pose proof (ser_dev _ _ _ _ _ _ _ Hs Hd) as ->. by eapply open_law.
  - intros s d m fl (d' & x & L & k & Hs & Hl) Hd Hfl. pose proof (ser_dev _ _ _ _ _ _ _ Hs Hd) as <-.
    eexists _, _, _, _. split; [by eapply ser_put_st|by apply linked_users].
  - intros s d (d' & x & L & Hs & Hl) Hd. pose proof (ser_dev _ _ _ _ _ _ _ Hs Hd) as <-.
    eexists _, _, _. split; [by eapply ser_put_st|]. destruct Hl as [H1 H2 H3 H4 H5]. split; [done..|].
    intros Ha. exfalso. unfold activated in Ha. cbn [dv_flag with_dflag] in Ha. rewrite Z.land_lor_distr_l in Ha.
    apply nz_false in Ha. apply Z.lor_eq_0_iff in Ha. by destruct Ha.
  - apply serial_at_inv.
Qed.

#[local] Instance serial_close_laws a : CloseLaws serial_ops (serial_inv a) a.
Proof.
  split; cbn [serial_ops op_close]; try done.
  - intros f s d [= <-] (d' & x & L & n & Hs & Hl) Hd. pose proof (ser_dev _ _ _ _ _ _ _ Hs Hd) as ->. by eapply close_law.
  - intros s d m (d' & x & L & k & Hs & Hl) Hd. pose proof (ser_dev _ _ _ _ _ _ _ Hs Hd) as <-.
    eexists _, _, _, _. split; [by eapply ser_put_st|]. pose proof (linked_users d x m (dv_open_flag d) Hl (or_introl eq_refl)) as Hl'. by destruct d.
Qed.




Lemma free_none (p : Z) (l : list Z) : p ∉ l → filter (λ q, q ≠ p) l = l.
Proof. induction l as [|y l IH]; intros Hp; [done|]. rewrite filter_cons_True, IH by set_solver. done. Qed.
Lemma free_head (p : Z) (l : list Z) : filter (λ q, q ≠ p) (p :: l) = filter (λ q, q ≠ p) l.
Proof. apply filter_cons_False. intros E. by apply E. Qed.

(** * Properties *)


(** Memory of a session: after a closed device is opened and closed again all memory
    it took is free, except after DMA transmission, where one block stays allocated: the
    array of the data queue. *)
Theorem serial_session_memory a oflag d x L n s :
  (∀ k, heap_addr k ≠ 0) → ser a d x L n s → sr_rx x = RxNull → sr_tx x = TxNull → dv_ref_count d ≤ 1 →
  NoDup (heap_addr n :: heap_addr (S n) :: heap_addr (S (S n)) :: L) →
  wp (r ← rt_serial_open a oflag; if r =? RT_EOK then rt_serial_close a else ret r) (λ r s',
    r = - RT_EIO ∧ s' = s ∨
    r = RT_EOK ∧ ss_live (d_drv s') =
      (if negb (Z.testbit (u16 oflag) 10) && Z.testbit (u16 oflag) 11
       then [heap_addr (if sel (u16 oflag) 8 9 then S (S n) else S n)] else []) ++ L) s.
Proof.
  intros heap_ok Hs Er Et Hn Hnd. assert (∀ k, nz (heap_addr k) = true) as nz_heap by (intros k; apply nz_true, heap_ok).
  eapply (wpf_mono (exhausted n) False); [|by intros [?%heap_ok|?%heap_ok]|intros ? ? Hq; exact Hq]. apply wpf_bind. eapply wpf_mono; [by eapply rt_serial_open_run|done|].
  cbv beta zeta. intros r s1 [[-> ->]|(-> & x' & got1 & got2 & n2 & Hs1 & _ & Hr & Ht)]; [apply wpf_wp, wp_ret; by left|]. apply wpf_wp.
  unfold tx_got, tx_number, no_rx, no_tx in *. rewrite Er in Hr, Ht. rewrite Et in Ht. cbn [andb] in *. set (o := u16 oflag) in *.
  destruct (opened_modes d o) as [E1 E2]. cbn [Z.eqb RT_EOK].
  eapply wp_mono; [eapply (rt_serial_close_run a _ x' _ _ s1 Hs1); cbn [dv_open_flag with_open_flag dv_ref_count]; [..|done]|].
  1: rewrite E1; intros E; rewrite E in Hr; destruct Hr as (-> & ? & _); apply heap_ok.
  1: rewrite E2; intros E; rewrite E in Ht; destruct Ht as (-> & ? & _); apply heap_ok.
  cbv beta zeta. intros r s2 (-> & fl & Hs2). right. split; [done|]. rewrite (sr_live _ _ _ _ _ _ Hs2).
  cbn [dv_open_flag with_open_flag]. rewrite E1, E2.
  apply NoDup_cons in Hnd as [N1 Hnd]. apply NoDup_cons in Hnd as [N2 Hnd]. apply NoDup_cons in Hnd as [N3 Hnd].
  rewrite !not_elem_of_cons in N1. rewrite !not_elem_of_cons in N2. destruct N1 as (N12 & N13 & N1), N2 as (N23 & N2).
  clear Hs Hs1 Hs2 Hnd Er Et E1 E2.
  unfold sel in *. destruct (Z.testbit o 8 || Z.testbit o 9), (Z.testbit o 10), (Z.testbit o 11);
    cbn [orb andb negb] in *; rewrite ?nz_heap in Ht; (destruct Hr as (E3 & _ & ->) || destruct Hr as [E3 ->]); (destruct Ht as (E4 & _ & ->) || destruct Ht as [E4 ->]);
    rewrite ?E3, ?E4; cbn [app length Nat.add] in *;
    repeat first [rewrite filter_cons_True by congruence|rewrite free_head|rewrite (free_none _ L) by done]; done.
Qed.

(** ** Receiving *)

(** [a] is open for reading by interrupt, with the FIFO [f]. *)
Definition int_reader (a : Z) (d : rt_device) (x : rt_serial_device) (p : Z) (f : rt_serial_rx_fifo) (s : Device.dst serial_st) : Prop :=
  is_dev s a d ∧ ss_dev (d_drv s) !! a = Some x ∧ sr_rx x = RxFifo p f ∧ int_wf (cf_bufsz (sr_config x)) f ∧
  Z.testbit (dv_open_flag d) 8 = true ∧ dv_ref_count d ≠ 0.

(** The state with the FIFO [f], the hardware [h] and the callbacks [calls]. *)
Definition rx_st (a : Z) (x : rt_serial_device) (p : Z) (f : rt_serial_rx_fifo) (h : H) (calls : list (Z * Z)) (s : Device.dst serial_st) : Device.dst serial_st :=
  let v := d_drv s in
  mk_dst (d_k s) (d_errno s) (d_dev s) (mk_sst (<[a := mk_serial (sr_config x) (RxFifo p f) (sr_tx x)]> (ss_dev v)) h (ss_count v) (ss_live v)
    (ss_flag v) (ss_dq v) (ss_notes v) calls).

Lemma rx_st_reader a d x p f f' h calls s :
  int_reader a d x p f s → int_wf (cf_bufsz (sr_config x)) f' →
  int_reader a d (mk_serial (sr_config x) (RxFifo p f') (sr_tx x)) p f' (rx_st a x p f' h calls s).
Proof. intros (Hd & _ & _ & _ & Hb & Hn) Hw. refine (conj Hd (conj _ (conj eq_refl (conj Hw (conj Hb Hn))))). cbn. apply lookup_insert_eq. Qed.

(** What the callback is called with when [n] bytes wait. *)
Definition rx_calls (d : rt_device) (n : Z) : list (Z * Z) :=
  match dv_rx_indicate d with Some g => if nz n then [(g, n)] else [] | None => [] end.

(** The receive interrupt that finds the bytes [cs]. *)
Lemma isr_rx_run a d x p f cs h' s :
  int_reader a d x p f s → drains uart (ss_hw (d_drv s)) cs h' → Z.of_nat (length cs) < 2 ^ 32 →
  let n := cf_bufsz (sr_config x) in let waiting := last_n (n - 1) (contents n f ++ cs) in
  ∃ f1, rt_hw_serial_isr a RT_SERIAL_EVENT_RX_IND s
      = Some (tt, rx_st a x p f1 h' (ss_calls (d_drv s) ++ rx_calls d (Z.of_nat (length waiting))) s) ∧
    int_wf n f1 ∧ contents n f1 = waiting.
Proof.
  intros (Hd & Hx & Er & Hw & Hb & Hn) Hdr Hlen n waiting.
  destruct (rt_hw_serial_isr_rx_spec uart n f _ cs h' (bool_decide (is_Some (dv_rx_indicate d))) Hw Hdr Hlen) as (f1 & R1 & Hw1 & Hc1).
  fold waiting in Hc1. rewrite Hc1 in R1. exists f1. split; [|done].
  change (rt_hw_serial_isr a RT_SERIAL_EVENT_RX_IND) with (isr_rx_ind a). unfold isr_rx_ind.
  unfold bind at 1. rewrite (get_dev_run _ _ _ Hd). unfold bind at 1, get_serial. rewrite Hx, Er. fold n.
  unfold bind at 1, gets. unfold bind at 1, from_opt. rewrite R1. unfold bind at 1, hw. unfold bind at 1, set_rx, bind at 1, get_serial. cbn [d_drv ss_dev]. rewrite Hx.
  unfold put_serial, mod_drv, modify. cbn [d_k d_errno d_dev d_drv ss_dev ss_hw ss_count ss_live ss_flag ss_dq ss_notes ss_calls sr_config sr_tx].
  unfold rx_calls, rx_st. destruct (dv_rx_indicate d) as [g|]; cbn [bool_decide is_Some andb]; [|by rewrite app_nil_r].
  rewrite bool_decide_eq_true_2 by done. cbn [andb]. by destruct (nz _); [|rewrite app_nil_r].
Qed.

(** Reading from the FIFO. *)
Lemma read_int_run a d x p f pos buffer size s :
  int_reader a d x p f s → 0 < size →
  let n := cf_bufsz (sr_config x) in let l := take (Z.to_nat size) (contents n f) in
  ∃ f2, rt_device_read serial_ops a pos buffer size s = Some ((Z.of_nat (length l), l), rx_st a x p f2 (ss_hw (d_drv s)) (ss_calls (d_drv s)) s) ∧
    int_wf n f2 ∧ contents n f2 = drop (Z.to_nat size) (contents n f).
Proof.
  intros (Hd & Hx & Er & Hw & Hb & Hn) Hsize n l.
  destruct (_serial_int_rx_spec n (Z.to_nat size) f Hw) as (f2 & R2 & Hw2 & Hc2). exists f2. split; [|done].
  unfold rt_device_read. rewrite (dev_assert_run _ a d) by done.
  unfold bind at 1. rewrite (get_dev_run _ _ _ Hd). rewrite (proj2 (Z.eqb_neq _ _) Hn). cbn [serial_ops op_read]. unfold rt_serial_read.
  rewrite (proj2 (Z.eqb_neq size 0)) by lia. unfold bind at 1. rewrite (get_dev_run _ _ _ Hd). unfold bind at 1, get_serial.
  rewrite Hx. rewrite bit8, Hb, Er. fold n. unfold bind at 1, from_opt. rewrite R2.
  unfold bind, set_rx, bind, get_serial. by rewrite Hx.
Qed.

(** C21: From the wire to the application: after a receive interrupt that finds the bytes
    [cs] in the controller, [rt_device_read] returns the oldest waiting bytes, as many as
    asked for if there are; waiting are the last [bufsz - 1] of the bytes that waited
    before and those that came. The callback of the application was told their number. *)
Theorem serial_input a d x p f cs h' pos buffer size s :
  int_reader a d x p f s → drains uart (ss_hw (d_drv s)) cs h' → Z.of_nat (length cs) < 2 ^ 32 → 0 < size →
  let waiting := last_n (cf_bufsz (sr_config x) - 1) (contents (cf_bufsz (sr_config x)) f ++ cs) in
  wp (rt_hw_serial_isr a RT_SERIAL_EVENT_RX_IND ;; rt_device_read serial_ops a pos buffer size) (λ r s',
    r = (Z.of_nat (length (take (Z.to_nat size) waiting)), take (Z.to_nat size) waiting) ∧
    (∃ f' x', int_reader a d x' p f' s' ∧ contents (cf_bufsz (sr_config x)) f' = drop (Z.to_nat size) waiting) ∧
    ss_hw (d_drv s') = h' ∧
    ss_calls (d_drv s') = ss_calls (d_drv s) ++
      match dv_rx_indicate d with Some g => if nz (Z.of_nat (length waiting)) then [(g, Z.of_nat (length waiting))] else [] | None => [] end) s.
Proof.
  intros Hi Hdr Hlen Hsize waiting. destruct (isr_rx_run a d x p f cs h' s Hi Hdr Hlen) as (f1 & R1 & Hw1 & Hc1).
  unfold wp, bind. rewrite R1. set (s1 := rx_st _ _ _ _ _ _ _). pose proof (rx_st_reader a d x p f f1 h' (ss_calls (d_drv s) ++ rx_calls d (Z.of_nat (length waiting))) s Hi Hw1) as Hi1.
  destruct (read_int_run a d _ p f1 pos buffer size s1 Hi1 Hsize) as (f2 & R2 & Hw2 & Hc2). cbn [sr_config] in R2, Hw2, Hc2.
  rewrite Hc1 in R2, Hc2. rewrite R2. split; [done|]. split; [|done]. eexists f2, _. split; [by apply (rx_st_reader a d _ p f1 f2 _ _ s1 Hi1)|done].
Qed.

(** ** Transmitting with interrupts *)

(** What the controller accepted so far. A byte [putc] answers [-1] for is not taken. *)
Variable sent : H → list Z.
Hypothesis putc_ok : ∀ c h, sent (snd (u_putc uart c h)) = sent h ++ (if fst (u_putc uart c h) =? -1 then [] else [c]).

Definition bytes (data : list Z) : list Z := (λ c, u8 c) <$> data.

(** The thread [t] may wait for the completion at [c]. *)
Definition tx_waitable (c t : Z) (th : rt_thread) (s : Device.dst serial_st) : Prop :=
  kinv (d_k s) ∧ caller (d_k s) t th ∧ nz c = true ∧ is_Some (ss_flag (d_drv s) !! c) ∧ tlist (k_tl (d_k s)) (HSuspend c) = [].

(** Either all is sent, or the thread sleeps with the rest, which is not empty. *)
Definition tx_post (c t : Z) (th : rt_thread) (size : Z) (all : list Z) (s : Device.dst serial_st) (r : outcome Z write_wait) (s' : Device.dst serial_st) : Prop :=
  match r with
  | Returned k => k = size ∧ sent (ss_hw (d_drv s')) = all ∧ d_k s' = d_k s
  | Blocked (IntWait c' t' size' rest) => c' = c ∧ t' = t ∧ size' = size ∧ rest ≠ [] ∧
      sent (ss_hw (d_drv s')) ++ bytes rest = all ∧ sleeps (HSuspend c) t th RT_WAITING_FOREVER (d_k s) (d_k s')
  | Blocked _ => False
  end.

Definition hw_st (h : H) (s : Device.dst serial_st) : Device.dst serial_st :=
  let v := d_drv s in
  mk_dst (d_k s) (d_errno s) (d_dev s) (mk_sst (ss_dev v) h (ss_count v) (ss_live v) (ss_flag v) (ss_dq v) (ss_notes v) (ss_calls v)).

Lemma hw_bind_run {A B} (f : H → A * H) (g : A → SM B) s :
  bind (hw f) g s = g (fst (f (ss_hw (d_drv s)))) (hw_st (snd (f (ss_hw (d_drv s)))) s).
Proof. unfold bind, hw, hw_st. by destruct (f _). Qed.

Definition pending (c : Z) (s : Device.dst serial_st) : nat :=
  if decide (ss_flag (d_drv s) !! c = Some RT_COMPLETED) then 1 else 0.

Lemma int_tx_loop_run fuel c t th size data s :
  tx_waitable c t th s → (length data + pending c s < fuel)%nat →
  wp (int_tx_loop fuel c size data) (tx_post c t th size (sent (ss_hw (d_drv s)) ++ bytes data) s) s.
Proof.
  revert data s. induction fuel as [|fuel IH]; intros data s Hw Hfuel; [lia|]. destruct data as [|ch data]; cbn [int_tx_loop].
  { apply wp_ret. cbn. by rewrite app_nil_r. }
  unfold wp. rewrite hw_bind_run. pose proof (putc_ok (u8 ch) (ss_hw (d_drv s))) as Hput.
  set (h := snd _) in *. destruct (fst _ =? -1).
  - rewrite app_nil_r in Hput. destruct Hw as (HI & Hca & Hc & [flag Hf] & Hl). unfold bind at 1, ipc.
    pose proof (completion_wait_run (DevIpc.mk_dst (d_k s) (d_errno s) (ss_flag (d_drv s)) (ss_dq (d_drv s)) (ss_notes (d_drv s)))
      c t th flag RT_WAITING_FOREVER HI Hca Hc Hf ltac:(by vm_compute) (λ _, Hl)) as R.
    cbn [hw_st d_k d_errno d_drv ss_flag ss_dq ss_notes ss_dev ss_hw ss_count ss_live ss_calls d_dev].
    destruct (Z.eqb_spec flag RT_COMPLETED) as [->|Hne].
    + rewrite R. cbn [flag_st ds_k ds_errno ds_flag ds_dq ds_notes]. set (s1 := mk_dst _ _ _ _).
      assert (tx_waitable c t th s1) as Hw1.
      { split_and!; [done|done|done|cbn; by rewrite lookup_insert_eq|done]. }
      eapply wp_mono; [apply (IH (ch :: data) s1 Hw1)|].
      * unfold pending in *. rewrite decide_True in Hfuel by done. cbn. rewrite lookup_insert_eq. cbn in Hfuel. rewrite decide_False by done. lia.
      * cbn. rewrite Hput. done.
    + cbn [Z.eqb RT_WAITING_FOREVER] in R. destruct R as (k & -> & Hsl). cbn. split_and!; try done. by rewrite Hput.
  - eapply wp_mono; [apply (IH data)|].
    + exact Hw.
    + cbn in Hfuel. change (pending c (hw_st h s)) with (pending c s). lia.
    + cbn. rewrite Hput, <- (assoc_L (++)). done.
Qed.

(** How a write goes on: whenever it blocks, the environment runs (the interrupt handler
    and other threads, which do not transmit here) until the thread runs again. *)
Inductive writes (a c t : Z) : outcome Z write_wait → Device.dst serial_st → Z → Device.dst serial_st → Prop :=
| writes_done k s : writes a c t (Returned k) s k s
| writes_on w s th s1 r s2 k s3 :
    sent (ss_hw (d_drv s1)) = sent (ss_hw (d_drv s)) → tx_waitable c t th s1 →
    rt_serial_write_resume a w s1 = Some (r, s2) → writes a c t r s2 k s3 → writes a c t (Blocked w) s k s3.

Lemma pending_le c s : (pending c s ≤ 1)%nat.
Proof. unfold pending. case_decide; lia. Qed.

Lemma write_resume_run a c t th size data s :
  tx_waitable c t th s →
  wp (rt_serial_write_resume a (IntWait c t size data)) (tx_post c t th size (sent (ss_hw (d_drv s)) ++ bytes data) s) s.
Proof.
  intros (HI & Hca & Hc & Hf & Hl). apply wp_bind. unfold wp at 1, ipc, rt_completion_wait_resume, bind at 1. pose proof Hca as (_ & Hth & _).
  rewrite (dev_kern_run (get_thread t) (DevIpc.mk_dst _ _ _ _ _) th (d_k s)) by (unfold get_thread; cbn; by rewrite Hth).
  unfold bind, put_flag, modify, ret. cbn [ds_k ds_errno ds_flag ds_dq ds_notes]. set (s1 := mk_dst _ _ _ _).
  pose proof (pending_le c s1). apply (int_tx_loop_run (tx_fuel data) c t th size data s1); [|unfold tx_fuel; lia].
  split_and!; [done|done|done|cbn; by rewrite lookup_insert_eq|done].
Qed.

Lemma tx_post_writes a c t th size all s r s1 k s' :
  tx_post c t th size all s r s1 → writes a c t r s1 k s' → k = size ∧ sent (ss_hw (d_drv s')) = all.
Proof.
  intros Hp Hw. revert th s Hp. induction Hw as [k s1|w s1 th1 s2 r s3 k s4 Es Ht R Hw IH]; intros th s Hp; [by destruct Hp as (-> & -> & _)|].
  destruct w as [c' t' size' rest|]; [|done]. destruct Hp as (-> & -> & -> & _ & E & _).
  pose proof (write_resume_run a c t th1 size rest s2 Ht) as Hr. unfold wp in Hr. rewrite R in Hr. rewrite Es, E in Hr. by eapply IH.
Qed.

(** C22: Writing with interrupts: [rt_device_write] hands the bytes to the controller in
    order and returns their number when it has taken all of them; when the controller is
    busy the thread sleeps for its completion with the bytes that are left, and however
    often that happens, when the write returns each byte was sent once, in order. *)
Theorem serial_output a d x c t th pos buffer data s :
  is_dev s a d → dv_ref_count d ≠ 0 → Z.testbit (dv_open_flag d) 10 = true →
  ss_dev (d_drv s) !! a = Some x → sr_tx x = TxFifo c → tx_waitable c t th s → data ≠ [] →
  let size := Z.of_nat (length data) in
  let all := sent (ss_hw (d_drv s)) ++ bytes data in
  wp (rt_device_write serial_ops a pos buffer data size) (λ r s1, tx_post c t th size all s r s1 ∧
    ∀ k s', writes a c t r s1 k s' → k = size ∧ sent (ss_hw (d_drv s')) = all) s.
Proof.
  intros Hd Hn Hb Hx Et Hw Hne size all. assert (size ≠ 0) as Hs0 by (destruct data; [done|cbn in *; lia]).
  unfold rt_device_write, wp. rewrite (dev_assert_run _ a d) by done. unfold bind at 1. rewrite (get_dev_run _ _ _ Hd).
  rewrite (proj2 (Z.eqb_neq _ _) Hn). cbn [serial_ops op_write]. unfold rt_serial_write. rewrite (proj2 (Z.eqb_neq _ _) Hs0).
  unfold bind at 1. rewrite (get_dev_run _ _ _ Hd), bit10, Hb. unfold _serial_int_tx, bind, get_serial. rewrite Hx, Et.
  pose proof (pending_le c s). pose proof (int_tx_loop_run (tx_fuel data) c t th size data s Hw ltac:(unfold tx_fuel; lia)) as Hr.
  eapply wp_mono; [exact Hr|]. intros r s1 Hp. split; [exact Hp|]. intros k s'. by eapply tx_post_writes.
Qed.
End serial.

(** * Instances *)

(** A controller with the received bytes, those it sent, the free places of its transmit
    buffer, and the DMA transfers it started. *)
Record demo_hw := mk_hw { hw_in : list Z; hw_out : list Z; hw_room : nat; hw_dma : list (Z * Z) }.

Definition demo_uart : rt_uart_ops demo_hw :=
  mk_uart_ops (Some (λ _ h, (0, h))) (λ _ _ h, (0, h))
    (λ c h, match hw_room h with O => (-1, h) | S n => (1, mk_hw (hw_in h) (hw_out h ++ [c]) n (hw_dma h)) end)
    (λ h, match hw_in h with [] => (-1, h) | c :: cs => (c, mk_hw cs (hw_out h) (hw_room h) (hw_dma h)) end)
    (Some (λ buf size _ h, (0, mk_hw (hw_in h) (hw_out h) (hw_room h) (hw_dma h ++ [(buf, size)])))).

Definition demo_config : serial_configure := mk_config 115200 8 0 0 0 0 4 0.
Definition demo_heap (n : nat) : Z := 9000 + 16 * Z.of_nat n.

(** The device 500 with [flag] 0xf13 and the given open flag, users and structures. *)
Definition demo_ser (fl users : Z) (r : serial_rx) (t : serial_tx) : Device.dst serial_st :=
  mk_dst (d_k (Device.demo_dev 0)) 0 {[500 := mk_device 0 0xf13 fl users (Some 77) None 0]}
    (mk_sst {[500 := mk_serial demo_config r t]} (mk_hw [1; 2; 3] [] 2 []) 0 [100] {[300 := RT_COMPLETED]}
      {[400 := mk_dq 8 4 0 0 (replicate 8 (mk_item 0 0)) false]} [] []).

Lemma demo_ser_is fl users r t : is_dev (demo_ser fl users r t) 500 (mk_device 0 0xf13 fl users (Some 77) None 0).
Proof. split; [reflexivity|]. by eexists. Qed.

Lemma demo_ser_ok fl users r t :
  ser demo_heap 500 (mk_device 0 0xf13 fl users (Some 77) None 0) (mk_serial demo_config r t) [100] 0 (demo_ser fl users r t).
Proof.
  split; [apply demo_ser_is|reflexivity|apply (Device.demo_dev_ready 0)| |reflexivity|reflexivity].
  intros m _ h Hh. change (k_tl (d_k (demo_ser fl users r t))) with (sc_tl demo_sched). unfold demo_sched, demo_heap in *. cbn [sc_tl].
  rewrite !tlist_insert, !decide_False; [done|destruct Hh as [-> | ->]; intros [=]; lia..].
Qed.

Lemma demo_heap_ok n : demo_heap n ≠ 0.
Proof. unfold demo_heap. lia. Qed.





Lemma serial_session_memory_witness :
  wp (r ← rt_serial_open demo_uart demo_heap 500 0xa03; if r =? RT_EOK then rt_serial_close demo_uart 500 else ret r)
    (λ r s', r = RT_EOK ∧ ss_live (d_drv s') = [9032; 100] ∨ r = - RT_EIO) (demo_ser 0 0 RxNull TxNull).
Proof.
  eapply wp_mono; [eapply (serial_session_memory demo_uart demo_heap (λ _, demo_config) 500 0xa03); [apply demo_heap_ok|apply demo_ser_ok|done|done|done|]|].
  - by apply (bool_decide_unpack _); vm_compute.
  - intros r s' [[-> _]|[-> ->]]; [by right|by left].
Defined.

Lemma serial_input_witness :
  wp (rt_hw_serial_isr demo_uart 500 RT_SERIAL_EVENT_RX_IND ;; rt_device_read (serial_ops demo_uart demo_heap (λ _, demo_config)) 500 0 0 2)
    (λ r s', r = (2, [1; 2]) ∧ ss_calls (d_drv s') = [(77, 3)]) (demo_ser 0x10b 1 (RxFifo 9000 demo_fifo) TxNull).
Proof.
  eapply wp_mono; [eapply (serial_input demo_uart demo_heap (λ _, demo_config) 500 _ _ 9000 demo_fifo [1; 2; 3] (mk_hw [] [] 2 []) 0 0 2)|].
  - split_and!; [apply demo_ser_is|reflexivity|reflexivity|apply demo_int_wf|reflexivity|done].
  - econstructor; [reflexivity|done|]. econstructor; [reflexivity|done|]. econstructor; [reflexivity|done|]. by constructor.
  - done.
  - done.
  - intros r s' (-> & _ & _ & ->). done.
Defined.

Lemma demo_putc_ok c h :
  hw_out (snd (u_putc demo_uart c h)) = hw_out h ++ (if fst (u_putc demo_uart c h) =? -1 then [] else [c]).
Proof. cbn. destruct (hw_room h); cbn; [by rewrite app_nil_r|done]. Qed.

Lemma serial_output_witness :
  wp (rt_device_write (serial_ops demo_uart demo_heap (λ _, demo_config)) 500 0 0 [65; 66; 67] 3)
    (λ r s', match r with
             | Returned k => k = 3 ∧ hw_out (ss_hw (d_drv s')) = [65; 66; 67]
             | Blocked (IntWait _ _ _ rest) => hw_out (ss_hw (d_drv s')) ++ bytes rest = [65; 66; 67]
             | _ => False
             end) (demo_ser 0x40b 1 RxNull (TxFifo 300)).
Proof.
  eapply wp_mono; [eapply (serial_output demo_uart demo_heap (λ _, demo_config) hw_out demo_putc_ok 500 _ _ 300 1 (demo_thread 10 RT_THREAD_RUNNING) 0 0 [65; 66; 67])|].
  - apply demo_ser_is.
  - done.
  - reflexivity.
  - reflexivity.
  - reflexivity.
  - split_and!; [apply (Device.demo_dev_ready 0)|split_and!; reflexivity|done|by eexists|reflexivity].
  - done.
  - intros [k|[]] s' [Hp _]; [|by apply Hp|done]. by destruct Hp as (-> & E & _).
Defined.

(** Two threads that write with DMA: the first is preempted behind its push, the second
    finds the transmitter idle and starts its own block, the interrupt pops the first
    block and starts the second again. The block at 7000 is never sent, the one at 8000
    twice. *)
Theorem serial_dma_race :
  wp (w ← ipc (rt_data_queue_push 400 7000 10 RT_WAITING_FOREVER);
      _serial_dma_tx demo_uart 500 8000 20 ;;
      rt_hw_serial_isr demo_uart 500 RT_SERIAL_EVENT_TX_DMADONE ;;
      dma_tx_start demo_uart 500 7000 10 RT_EOK ;;
      rt_hw_serial_isr demo_uart 500 RT_SERIAL_EVENT_TX_DMADONE ;;
      ret w)
    (λ w s', w = Returned RT_EOK ∧ hw_dma (ss_hw (d_drv s')) = [(8000, 20); (8000, 20)] ∧
      (sr_tx <$> ss_dev (d_drv s') !! 500) = Some (TxDma 400 false)) (demo_ser 0x80b 2 RxNull (TxDma 400 false)).
Proof. by vm_compute. Qed.
