(* ===== verification/Console.v ===== *)
(** The console of src/kservice.c: the device that [rt_kprintf] and [rt_kputs] write to,
    on the devices of [Device.v]; and what appears on a polled serial line. *)

From Stdlib Require Import ZArith Lia.
From stdpp Require Import base numbers option gmap.
From stdpp Require Import list.
From S2P Require Import Prelude.
From S2P Require Import KernelDefs.
From S2P Require Import Scheduler.
From S2P Require Import Object.
From S2P Require Import Ipc.
From S2P Require Import Thread.
From S2P Require Import Printf.
From S2P Require Import Serial.
From S2P Require Import Device.
From S2P Require Import SerialDev.
From S2P Require Import Kstate.
Local Open Scope Z_scope.
Local Open Scope rt_scope.

(** * State *)

(** The devices and [_console_device]. *)
Record cst (D : Type) := mk_cst { cs_dst : dst D; cs_console : option Z }.
Arguments mk_cst {D} _ _.
Arguments cs_dst {D} _.
Arguments cs_console {D} _.

Definition dev {D A} (m : M (dst D) A) : M (cst D) A := λ s,
  match m (cs_dst s) with Some (a, t) => Some (a, mk_cst t (cs_console s)) | None => None end.

Section console.
Context {D W : Type}.
(** The operations of the devices, and how a blocked write goes on. *)
Variable ops : Z → dev_ops D W.
Variable resume : Z → W → M (dst D) (outcome Z W).

(** * Operations *)

Definition rt_console_get_device : M (cst D) (option Z) := gets cs_console.

Definition rt_console_set_device (name : list Z) : M (cst D) (option Z) :=
  old ← gets cs_console;
  new ← dev (kern (rt_device_find name));
  match new with
  | None => ret old
  | Some b =>
      match old with Some a => dev (rt_device_close ops a) ;; ret tt | None => ret tt end ;;
      dev (rt_device_open ops b (Z.lor RT_DEVICE_FLAG_RDWR RT_DEVICE_FLAG_STREAM)) ;;
      modify (λ s, mk_cst (cs_dst s) (Some b)) ;;
      ret old
  end.

(** Where a blocked output continues: the device written to, [old_flag] and the write. *)
Record print_wait := mk_print_wait { pt_dev : Z; pt_old_flag : Z; pt_write : W }.

(** [_console_device->open_flag = old_flag], once the write has returned. *)
Definition console_end (a old_flag : Z) (r : outcome Z W) : M (cst D) (outcome unit print_wait) :=
  match r with
  | Returned _ =>
      c ← gets cs_console;
      match c with
      | Some b => dev (mod_dev b (with_open_flag old_flag)) ;; ret (Returned tt)
      | None => λ _, None
      end
  | Blocked w => ret (Blocked (mk_print_wait a old_flag w))
  end.

(** The lines [rt_kputs] and [rt_kprintf] share. The function [rt_hw_console_output] of a
    system without console device is empty. *)
Definition console_write (buffer : Z) (data : list Z) : M (cst D) (outcome unit print_wait) :=
  c ← gets cs_console;
  match c with
  | None => ret (Returned tt)
  | Some a =>
      d ← dev (get_dev a);
      dev (mod_dev a (with_open_flag (Z.lor (dv_open_flag d) RT_DEVICE_FLAG_STREAM))) ;;
      r ← dev (rt_device_write ops a 0 buffer data (Z.of_nat (length data)));
      console_end a (dv_open_flag d) r
  end.

Definition console_resume (w : print_wait) : M (cst D) (outcome unit print_wait) :=
  r ← dev (resume (pt_dev w) (pt_write w));
  console_end (pt_dev w) (pt_old_flag w) r.

(** A string is its address and the bytes before the NUL; [None] is [RT_NULL]. *)
Definition rt_kputs (str : option (Z * list Z)) : M (cst D) (outcome unit print_wait) :=
  match str with None => ret (Returned tt) | Some (p, data) => console_write p data end.

Definition console_printf (fmt : list Z) (args : list va) : M (cst D) (outcome unit print_wait) :=
  data ← from_opt (rt_kprintf fmt args);
  console_write rt_log_buf data.
End console.
Arguments mk_print_wait {W} _ _ _.

(** * Choosing the console *)

Section choose.
Context {D W : Type} (ops : Z → dev_ops D W).

(** Without a device of that name the console stays as it is. *)
Theorem rt_console_set_device_missing name s t :
  kern (rt_device_find name) (cs_dst s) = Some (None, t) →
  rt_console_set_device ops name s = Some (cs_console s, mk_cst t (cs_console s)).
Proof. intros E. unfold rt_console_set_device, bind, gets, dev. by rewrite E. Qed.

(** The first console is opened. *)
Theorem rt_console_set_device_first I b `{!DriverLaws ops I b} name s t d :
  cs_console s = None → kern (rt_device_find name) (cs_dst s) = Some (Some b, t) → I t → is_dev t b d → 0 ≤ dv_ref_count d < 255 →
  wp (rt_console_set_device ops name) (λ r s', r = None ∧ cs_console s' = Some b ∧ I (cs_dst s') ∧
    ∃ d' acc, is_dev (cs_dst s') b d' ∧ dv_ref_count d' = dv_ref_count d + Z.b2z acc) s.
Proof.
  intros Ec E HI Hd Hn. unfold rt_console_set_device, bind, gets, dev, wp. rewrite Ec, E. cbn [cs_dst cs_console ret].
  pose proof (open_run ops I b t d (Z.lor RT_DEVICE_FLAG_RDWR RT_DEVICE_FLAG_STREAM) HI Hd Hn) as (r & s2 & -> & HI2 & d' & acc & Hd' & En & _)%wp_run.
  cbn. split_and!; try done. by exists d', acc.
Qed.

(** Choosing the console that is in use already closes and opens it: the number of its
    users stays the same when the driver accepts. *)
Theorem rt_console_set_device_again I a `{!DriverLaws ops I a} name s t d :
  cs_console s = Some a → kern (rt_device_find name) (cs_dst s) = Some (Some a, t) → I t → is_dev t a d → 0 < dv_ref_count d < 256 →
  wp (rt_console_set_device ops name) (λ r s', r = Some a ∧ cs_console s' = Some a ∧ I (cs_dst s') ∧
    ∃ d' acc, is_dev (cs_dst s') a d' ∧ dv_ref_count d' = dv_ref_count d - 1 + Z.b2z acc) s.
Proof.
  intros Ec E HI Hd Hn. unfold rt_console_set_device, bind, gets, dev, wp. rewrite Ec, E. cbn [cs_dst cs_console].
  pose proof (close_run ops I a t d HI Hd ltac:(lia)) as (r1 & s1 & -> & HI1 & d1 & Hd1 & _ & En1 & _)%wp_run. cbn [ret cs_dst cs_console].
  pose proof (open_run ops I a s1 d1 (Z.lor RT_DEVICE_FLAG_RDWR RT_DEVICE_FLAG_STREAM) HI1 Hd1 ltac:(lia)) as (r & s2 & -> & HI2 & d' & acc & Hd' & En & _)%wp_run.
  cbn. split_and!; try done. exists d', acc. split; [done|]. lia.
Qed.
End choose.

(** * Printing on a serial line *)

Section serial.
Context {H : Type} (uart : rt_uart_ops H) (heap_addr : nat → Z) (config_at : Z → serial_configure).
Abbreviation sops := (serial_ops uart heap_addr config_at).

(** A carriage return in front of each line feed. *)
Definition crlf (t : list Z) : list Z := t ≫= λ c, if c =? 10 then [13; c] else [c].

Lemma poll_stream data h : _serial_poll_tx uart true data h = foldl (λ h c, snd (u_putc uart c h)) h (crlf data).
Proof.
  rewrite _serial_poll_tx_spec. f_equal. unfold crlf. induction data as [|c data IH]; [done|]. cbn. by rewrite IH, andb_true_r.
Qed.

Lemma stream_set fl : bit_set (Z.lor fl RT_DEVICE_FLAG_STREAM) RT_DEVICE_FLAG_STREAM = true.
Proof. change RT_DEVICE_FLAG_STREAM with (2 ^ 6). rewrite bit_set_testbit by lia. rewrite Z.lor_spec. apply orb_true_r. Qed.

(** The device is open, and written to by polling. *)
Definition polled (s : cst (serial_st (H := H))) (a : Z) (d : rt_device) : Prop :=
  cs_console s = Some a ∧ is_dev (cs_dst s) a d ∧ dv_ref_count d ≠ 0 ∧
  Z.testbit (dv_open_flag d) 10 = false ∧ Z.testbit (dv_open_flag d) 11 = false.

(** Writing to the console sends the bytes and leaves everything but the hardware as it
    was: the stream flag is set for the time of the write only. *)
Lemma console_write_run s a d buffer data :
  polled s a d →
  console_write sops buffer data s = Some (Returned tt,
    mk_cst (hw_st (foldl (λ h c, snd (u_putc uart c h)) (ss_hw (d_drv (cs_dst s))) (crlf data)) (cs_dst s)) (Some a)).
Proof.
  intros (Ec & Hd & Hn & H10 & H11). destruct s as [s c]. cbn [cs_console cs_dst] in *. subst c.
  set (fl := Z.lor (dv_open_flag d) RT_DEVICE_FLAG_STREAM).
  unfold console_write, bind, gets, dev. cbn [cs_console cs_dst]. rewrite (get_dev_run _ _ _ Hd). cbn [cs_console cs_dst].
  rewrite (dev_mod_run _ _ _ _ Hd). cbn [cs_console cs_dst]. pose proof (is_dev_put _ _ _ (with_open_flag fl d) Hd) as Hd1.
  set (s1 := put_st a _ s) in *. unfold rt_device_write. rewrite (dev_assert_run s1 a _ _ Hd1). unfold bind at 1. rewrite (get_dev_run _ _ _ Hd1).
  cbn [dv_ref_count with_open_flag serial_ops op_write]. rewrite (proj2 (Z.eqb_neq _ _) Hn).
  assert (∀ h, put_st a (with_open_flag (dv_open_flag d) (with_open_flag fl d)) (hw_st h s1) = hw_st h s) as Hback.
  { intros h. unfold put_st, hw_st, s1. cbn. rewrite insert_insert_eq, insert_id; [done|]. rewrite (proj1 Hd). by destruct d. }
  assert (rt_serial_write uart a 0 buffer data (Z.of_nat (length data)) s1 =
    Some (Returned (Z.of_nat (length data)), hw_st (foldl (λ h c, snd (u_putc uart c h)) (ss_hw (d_drv s)) (crlf data)) s1)) as E.
  { unfold rt_serial_write. destruct data as [|ch data]; [unfold ret; repeat f_equal; by destruct s as [? ? ? []]|].
    rewrite (proj2 (Z.eqb_neq _ _)) by (cbn; lia). unfold bind at 1. rewrite (get_dev_run _ _ _ Hd1). cbn [dv_open_flag with_open_flag].
    rewrite bit10, bit11. unfold fl. rewrite !Z.lor_spec, H10, H11. 
    change (Z.testbit RT_DEVICE_FLAG_STREAM 10) with false. change (Z.testbit RT_DEVICE_FLAG_STREAM 11) with false. cbn [orb].
    rewrite stream_set. unfold bind, hw. by rewrite poll_stream. }
  rewrite E. cbn [console_end]. unfold bind, gets, dev. cbn [cs_console cs_dst].
  rewrite (dev_mod_run _ _ (with_open_flag fl d) _); [|exact Hd1]. unfold ret. by rewrite Hback.
Qed.

(** What the controller sent; a polled [putc] waits until the byte is taken. *)
Variable sent : H → list Z.
Hypothesis putc_waits : ∀ c h, sent (snd (u_putc uart c h)) = sent h ++ [c].

Lemma sent_all l h : sent (foldl (λ h c, snd (u_putc uart c h)) h l) = sent h ++ l.
Proof. revert h. induction l as [|c l IH]; intros h; cbn; [by rewrite app_nil_r|]. by rewrite IH, putc_waits, <- app_assoc. Qed.

(** [rt_kprintf] on a serial console: the text of the format, or its first 126 characters
    and a NUL, is sent with a carriage return in front of each line feed, and nothing but the
    controller changes. *)
Theorem serial_console_prints s a d fmt args t :
  polled s a d → format_text fmt args = Some t → Z.of_nat (length t) < 2 ^ 31 →
  wp (console_printf sops fmt args) (λ r s', r = Returned tt ∧ cs_console s' = cs_console s ∧
    ∃ h, cs_dst s' = hw_st h (cs_dst s) ∧ sent h = sent (ss_hw (d_drv (cs_dst s))) ++ crlf (console_text t)) s.
Proof.
  intros Hp Ht Hl. unfold console_printf, wp, bind. rewrite (kprintf_run _ _ _ Ht Hl). cbn [from_opt].
  rewrite (console_write_run s a d _ _ Hp). split; [done|]. split; [symmetry; apply Hp|]. eexists. split; [done|]. apply sent_all.
Qed.

(** Calls of [rt_kprintf] one after the other. *)
Fixpoint print_all (msgs : list (list Z * list va)) : M (cst (serial_st (H := H))) unit :=
  match msgs with [] => ret tt | m :: msgs => console_printf sops m.1 m.2 ;; print_all msgs end.

(** C23: One caller after the other prints on an open serial console with polled output: the
    line carries, call by call, the text of the format with a carriage return in front of
    each line feed. A text of more than 126 characters is cut, and a NUL is sent behind its
    first 126 characters, since the length is cut to that of the buffer with its terminating
    NUL. Nothing but the controller is changed, the flags of the device are restored. Texts
    have less than 2^31 characters. Calls that interleave are not covered. *)
Theorem serial_console_session msgs ts :
  Forall2 (λ m t, format_text m.1 m.2 = Some t ∧ Z.of_nat (length t) < 2 ^ 31) msgs ts → ∀ s a d, polled s a d →
  wp (print_all msgs) (λ _ s', ∃ h, s' = mk_cst (hw_st h (cs_dst s)) (Some a) ∧
    sent h = sent (ss_hw (d_drv (cs_dst s))) ++ (ts ≫= λ t, crlf (console_text t))) s.
Proof.
  induction 1 as [|m t msgs ts [Ht Hl] _ IH]; intros s a d Hp.
  { apply wp_ret. exists (ss_hw (d_drv (cs_dst s))). cbn. rewrite app_nil_r. split; [|done].
    destruct Hp as [E _]. destruct s as [[? ? ? []] ?]. cbn in *. by subst. }
  cbn [print_all]. apply wp_bind. unfold wp at 1, console_printf, bind at 1. rewrite (kprintf_run _ _ _ Ht Hl). cbn [from_opt].
  rewrite (console_write_run s a d _ _ Hp). set (h := foldl _ _ _).
  eapply wp_mono; [apply (IH (mk_cst (hw_st h (cs_dst s)) (Some a)) a d)|].
  - destruct Hp as (_ & Hd & Hn). exact (conj eq_refl (conj Hd Hn)).
  - cbn [cs_dst]. intros _ s' (h' & -> & Hs). exists h'. split; [done|]. rewrite Hs. cbn [hw_st d_drv ss_hw]. unfold h.
    by rewrite sent_all, <- app_assoc.
Qed.
End serial.

(** ** Examples *)

Definition demo_console : cst (serial_st (H := list Z)) :=
  mk_cst (mk_dst (d_k (demo_dev 1)) 0 {[500 := with_open_flag 11 (demo_device 1)]} (mk_sst ∅ [] 0 [] ∅ ∅ [] [])) (Some 500).

Lemma demo_console_polled : polled demo_console 500 (with_open_flag 11 (demo_device 1)).
Proof.
  split; [done|]. split; [|done]. split; [reflexivity|]. apply (proj2 (demo_dev_is 1)).
Qed.

(** [rt_kprintf("t=%d\n", 25)] *)
Lemma serial_console_prints_witness :
  wp (console_printf (serial_ops list_uart (λ _, 0) (λ _, mk_config 115200 8 0 0 0 0 4 0)) [116; 61; 37; 100; 10] [VInt 25])
    (λ r s', r = Returned tt ∧ ss_hw (d_drv (cs_dst s')) = [116; 61; 50; 53; 13; 10]) demo_console.
Proof.
  eapply wp_mono; [apply (serial_console_prints list_uart _ _ (λ h, h) (λ _ _, eq_refl) demo_console 500 _ _ _ [116; 61; 50; 53; 10] demo_console_polled); vm_compute; reflexivity|].
  intros r s' (-> & _ & h & -> & Hs). split; [done|]. cbn [hw_st d_drv ss_hw]. rewrite Hs. reflexivity.
Defined.

(** [rt_kprintf("t=%d\n", 25); rt_kprintf("%s\n", "ok")] *)
Lemma serial_console_session_witness :
  wp (print_all list_uart (λ _, 0) (λ _, mk_config 115200 8 0 0 0 0 4 0)
        [([116; 61; 37; 100; 10], [VInt 25]); ([37; 115; 10], [VStr (Some [111; 107])])])
    (λ _ s', ss_hw (d_drv (cs_dst s')) = [116; 61; 50; 53; 13; 10; 111; 107; 13; 10]) demo_console.
Proof.
  eapply wp_mono; [eapply (serial_console_session list_uart _ _ (λ h, h) (λ _ _, eq_refl) _ [[116; 61; 50; 53; 10]; [111; 107; 10]]);
    [repeat constructor; cbn; try lia; vm_compute; reflexivity|apply demo_console_polled]|].
  intros _ s' (h & -> & Hs). cbn [hw_st cs_dst d_drv ss_hw]. rewrite Hs. reflexivity.
Defined.
