(* ===== verification/ShellIo.v ===== *)
(** The input of the shell, components/finsh/shell.c: the binding of the shell to a device,
    the callback of its driver and the loop that waits for a character, on the serial
    driver of [SerialDev.v] and the semaphores of [Sem.v]. *)

From Stdlib Require Import ZArith Lia.
From stdpp Require Import base numbers option gmap relations.
From stdpp Require Import list.
From S2P Require Import Prelude.
From S2P Require Import Printf.
From S2P Require Import Shell.
From S2P Require Import Serial.
From S2P Require Import KernelDefs.
From S2P Require Import Scheduler.
From S2P Require Import Object.
From S2P Require Import Timer.
From S2P Require Import Thread.
From S2P Require Import Ipc.
From S2P Require Import Sem.
From S2P Require Import DevIpc.
From S2P Require Import Device.
From S2P Require Import SerialDev.
From S2P Require Import Kstate.
Local Open Scope Z_scope.
Local Open Scope rt_scope.

(** * Waiting for a character *)

Section input.
Context {H : Type} (uart : rt_uart_ops H) (heap_addr : nat → Z) (config_at : Z → serial_configure).
Abbreviation sst := (Device.dst (serial_st (H := H))).
(** [shell->device], [&shell->rx_sem], the address of [finsh_rx_ind], and the buffer of one
    character of [finsh_getchar]. *)
Variables (device rx_sem rx_ind ch_buf : Z).

(** The condition of the loop: the character, if there is one. *)
Definition getchar_read : M sst (option Z) :=
  r ← rt_device_read (serial_ops uart heap_addr config_at) device (-1) ch_buf 1;
  ret (if r.1 =? 1 then head r.2 else None).

(** The body of the loop. *)
Definition getchar_take : M sst (outcome Z Z) := kern (rt_sem_take rx_sem RT_WAITING_FOREVER).

Definition finsh_rx_ind (dev size : Z) : M sst Z := kern (rt_sem_release rx_sem) ;; ret RT_EOK.

(** The calls of callbacks that the driver made. *)
Fixpoint deliver (calls : list (Z * Z)) : M sst unit :=
  match calls with
  | [] => ret tt
  | (f, size) :: calls => (if f =? rx_ind then finsh_rx_ind device size ;; ret tt else ret tt) ;; deliver calls
  end.

(** The receive interrupt; calling the callback is the last thing the driver does. *)
Definition rx_interrupt : M sst unit :=
  n ← gets (λ s, length (ss_calls (d_drv s)));
  rt_hw_serial_isr uart device RT_SERIAL_EVENT_RX_IND ;;
  calls ← gets (λ s, drop n (ss_calls (d_drv s)));
  deliver calls.

(** * Interleavings *)

(** Where the thread of the shell is in [finsh_getchar]: before the read, before the wait,
    or waiting. *)
Inductive place := Reading | Taking | Waiting.

(** With what came in, what the shell got, and whether the FIFO ever overflowed. *)
Record io := mk_io { io_s : sst; io_at : place; io_in : list Z; io_got : list Z; io_lost : bool }.

Variable t : Z.

(** The bytes in the FIFO of the device, and its size. *)
Definition waiting_bytes (s : sst) : list Z :=
  match ss_dev (d_drv s) !! device with
  | Some x => match sr_rx x with RxFifo _ f => contents (cf_bufsz (sr_config x)) f | _ => [] end
  | None => []
  end.
Definition buffer_size (s : sst) : Z := match ss_dev (d_drv s) !! device with Some x => cf_bufsz (sr_config x) | None => 0 end.

(** More bytes than the FIFO has room for. *)
Definition overflows (s : sst) (cs : list Z) : bool := buffer_size s - 1 <? Z.of_nat (length (waiting_bytes s ++ cs)).

(** The shell reads and waits while its thread [t] runs; interrupts come at any time; the
    rest of the system does anything but use the shell's device and semaphore. *)
Inductive io_step : io → io → Prop :=
  | step_got s s' ch inp got lost : getchar_read s = Some (Some ch, s') →
      io_step (mk_io s Reading inp got lost) (mk_io s' Reading inp (got ++ [ch]) lost)
  | step_empty s s' inp got lost : getchar_read s = Some (None, s') →
      io_step (mk_io s Reading inp got lost) (mk_io s' Taking inp got lost)
  | step_took s s' r th inp got lost : caller (d_k s) t th → getchar_take s = Some (Returned r, s') →
      io_step (mk_io s Taking inp got lost) (mk_io s' Reading inp got lost)
  | step_sleep s s' u th inp got lost : caller (d_k s) t th → getchar_take s = Some (Blocked u, s') →
      io_step (mk_io s Taking inp got lost) (mk_io s' Waiting inp got lost)
  | step_wake s th inp got lost : k_thr (d_k s) !! t = Some th → active th →
      io_step (mk_io s Waiting inp got lost) (mk_io s Reading inp got lost)
  | step_irq s s' pl cs h' v inp got lost :
      drains uart (ss_hw (d_drv s)) cs h' → Z.of_nat (length cs) < 2 ^ 32 →
      ip_sem (k_ipc (d_k s)) !! rx_sem = Some (mk_sem v) → v < 2 ^ 16 - 1 → rx_interrupt s = Some (tt, s') →
      io_step (mk_io s pl inp got lost) (mk_io s' pl (inp ++ cs) got (lost || overflows s cs))
  | step_other s k' pl inp got lost :
      kinv k' → ip_sem (k_ipc k') !! rx_sem = ip_sem (k_ipc (d_k s)) !! rx_sem →
      tlist (k_tl k') (HSuspend rx_sem) = tlist (k_tl (d_k s)) (HSuspend rx_sem) →
      k_obj k' !! Obj rx_sem = k_obj (d_k s) !! Obj rx_sem → k_obj k' !! Obj device = k_obj (d_k s) !! Obj device →
      (∀ th, k_thr (d_k s) !! t = Some th → active th → ∃ th', k_thr k' !! t = Some th' ∧ active th') →
      io_step (mk_io s pl inp got lost) (mk_io (with_k k' s) pl inp got lost).

(** * The invariant *)

(** Nobody but the shell waits for the semaphore, and it does so only while the FIFO is
    empty: bytes that come between the read and the wait leave the semaphore positive. *)
Definition waits_ok (k : kst) (v : Z) (w : list Z) (pl : place) : Prop :=
  let l := tlist (k_tl k) (HSuspend rx_sem) in
  match pl with
  | Reading => l = []
  | Taking => l = [] ∧ (w ≠ [] → 0 < v)
  | Waiting => (l = [t] ∧ w = []) ∨ (l = [] ∧ ∃ th, k_thr k !! t = Some th ∧ active th)
  end.

Record io_inv (n : Z) (st : io) (d : rt_device) (x : rt_serial_device) (p : Z) (f : rt_serial_rx_fifo) (v : Z) (hx : rt_object) : Prop := {
  ii_reader : int_reader device d x p f (io_s st);
  ii_size : cf_bufsz (sr_config x) = n;
  ii_ind : dv_rx_indicate d = Some rx_ind;
  ii_kinv : kinv (d_k (io_s st));
  ii_sem : sem_ok rx_sem (d_k (io_s st)) v hx;
  ii_wait : waits_ok (d_k (io_s st)) v (contents n f) (io_at st);
  ii_order : io_got st ++ contents n f `sublist_of` io_in st;
  ii_exact : io_lost st = false → io_got st ++ contents n f = io_in st
}.

Definition good_io (n : Z) (st : io) : Prop := ∃ d x p f v hx, io_inv n st d x p f v hx.

(** ** Steps of the shell *)

Lemma getchar_read_run (s : sst) d x p f :
  int_reader device d x p f s →
  let n := cf_bufsz (sr_config x) in
  ∃ f2, getchar_read s = Some (head (contents n f), rx_st device x p f2 (ss_hw (d_drv s)) (ss_calls (d_drv s)) s) ∧
    int_wf n f2 ∧ contents n f2 = tail (contents n f).
Proof.
  intros Hi n. destruct (read_int_run uart heap_addr config_at device d x p f (-1) ch_buf 1 s Hi ltac:(lia)) as (f2 & R & Hw & Hc).
  change (Z.to_nat 1) with 1%nat in *. exists f2. split; [|split; [done|]].
  - unfold getchar_read, bind. rewrite R. cbn [fst snd]. fold n. by destruct (contents n f).
  - fold n in Hc. rewrite Hc. by destruct (contents n f).
Qed.

(** Changes outside of the driver's state. *)
Lemma int_reader_kernel (s s' : sst) d x p f :
  int_reader device d x p f s → d_dev s' = d_dev s → d_drv s' = d_drv s → k_obj (d_k s') !! Obj device = k_obj (d_k s) !! Obj device →
  int_reader device d x p f s'.
Proof. intros ([Hd Ho] & Hx & Hr) E1 E2 E3. split; [split; [by rewrite E1|by rewrite E3]|]. by rewrite E2. Qed.

(** ** The interrupt *)

Definition notified_by (w : list Z) (k k' : kst) : Prop :=
  match w with [] => k' = k | _ => rt_sem_release rx_sem k = Some (RT_EOK, k') end.

Lemma rx_interrupt_run (s : sst) d x p f cs h' k' :
  int_reader device d x p f s → dv_rx_indicate d = Some rx_ind → drains uart (ss_hw (d_drv s)) cs h' → Z.of_nat (length cs) < 2 ^ 32 →
  let n := cf_bufsz (sr_config x) in let w := last_n (n - 1) (contents n f ++ cs) in
  notified_by w (d_k s) k' →
  ∃ f1 calls, rx_interrupt s = Some (tt, with_k k' (rx_st device x p f1 h' calls s)) ∧ int_wf n f1 ∧ contents n f1 = w.
Proof.
  intros Hi Hind Hdr Hlen n w Hk. destruct (isr_rx_run uart device d x p f cs h' s Hi Hdr Hlen) as (f1 & R & Hw & Hc). fold n w in R, Hw, Hc.
  exists f1, (ss_calls (d_drv s) ++ rx_calls d (Z.of_nat (length w))). split; [|done]. unfold rx_interrupt, bind at 1, gets. unfold bind at 1. rewrite R. unfold bind at 1, gets. cbn [rx_st d_drv ss_calls].
  rewrite drop_app_length. unfold rx_calls. rewrite Hind. destruct w as [|c w].
  - cbn in Hk. subst k'. by destruct s.
  - assert (nz (Z.of_nat (length (c :: w))) = true) as -> by (apply nz_true; cbn; lia). cbn [deliver]. rewrite Z.eqb_refl. unfold finsh_rx_ind, kern, bind. cbn [st_k dst_kernel rx_st d_k]. cbn in Hk.  by rewrite Hk.
Qed.

(** What the notification does to those who wait. *)
Lemma notified_wait k v hx pl w0 w :
  kinv k → sem_ok rx_sem k v hx → v < 2 ^ 16 - 1 → waits_ok k v w0 pl → (w = [] → w0 = []) →
  ∃ k' v', notified_by w k k' ∧ kinv k' ∧ sem_ok rx_sem k' v' hx ∧ waits_ok k' v' w pl ∧ ∀ b, k_obj k' !! Obj b = k_obj k !! Obj b.
Proof.
  intros HI Hs Hv Hw Hnil. destruct w as [|c w].
  { rewrite (Hnil eq_refl) in Hw. by exists k, v. }
  destruct (tlist (k_tl k) (HSuspend rx_sem)) as [|u l] eqn:El.
  - destruct (sem_count_run k rx_sem v hx HI Hs Hv El) as (R & HI' & Hs'). eexists _, (v + 1). split; [exact R|]. split; [done|]. split; [done|].
    split; [|done]. unfold waits_ok in *. destruct pl; [done| |].
    + split; [done|]. intros _. destruct Hs as (_ & _ & ? & _). lia.
    + destruct Hw as [[E _]|[_ Ht]]; [congruence|by right].
  - destruct (sem_wake_run k rx_sem v hx u l HI Hs El) as (th & k' & R & Hth & -> & Hs' & Hp).
    pose proof Hp as (HI' & _ & Hob & El' & _ & (st & Ht' & Hact) & _).
    exists k', 0. split; [done|]. split; [done|]. split; [done|]. split; [|done]. unfold waits_ok in *. rewrite El in Hw. rewrite El'.
    destruct pl; [done|by destruct Hw|]. destruct Hw as [[[= -> ->] _]|[? _]]; [|done]. right. split; [done|]. by exists (set_stat st th).
Qed.

(** ** The invariant holds *)

Lemma last_n_sublist k l : last_n k l `sublist_of` l.
Proof. apply sublist_drop. Qed.

Lemma waiting_bytes_run (s : sst) d x p f : int_reader device d x p f s → waiting_bytes s = contents (cf_bufsz (sr_config x)) f.
Proof. intros (_ & Hx & Er & _). unfold waiting_bytes. by rewrite Hx, Er. Qed.

Lemma overflows_spec (s : sst) d x p f cs :
  int_reader device d x p f s →
  overflows s cs = (cf_bufsz (sr_config x) - 1 <? Z.of_nat (length (contents (cf_bufsz (sr_config x)) f ++ cs))).
Proof. intros Hi. unfold overflows, buffer_size. rewrite (waiting_bytes_run s d x p f Hi). destruct Hi as (_ & Hx & _). by rewrite Hx. Qed.

Lemma last_n_nil k w cs : 0 < k → last_n k (w ++ cs) = [] → w = [].
Proof.
  intros Hk E. apply (f_equal length) in E. unfold last_n in E. rewrite length_drop, length_app in E. cbn in E.
  destruct w; [done|]. cbn in E. lia.
Qed.

Lemma io_irq_ok n s s' pl cs h' v0 inp got lost :
  good_io n (mk_io s pl inp got lost) → drains uart (ss_hw (d_drv s)) cs h' → Z.of_nat (length cs) < 2 ^ 32 →
  ip_sem (k_ipc (d_k s)) !! rx_sem = Some (mk_sem v0) → v0 < 2 ^ 16 - 1 → rx_interrupt s = Some (tt, s') →
  good_io n (mk_io s' pl (inp ++ cs) got (lost || overflows s cs)).
Proof.
  intros (d & x & p & f & v & hx & [Hi En Hind HI Hs Hw Ho He]) Hdr Hlen Hv Hmax R. cbn [io_s io_at io_in io_got io_lost] in *.
  assert (v0 = v) as -> by (destruct Hs as (_ & Hv' & _); congruence). subst n. set (n := cf_bufsz (sr_config x)) in *.
  set (w := last_n (n - 1) (contents n f ++ cs)).
  assert (2 ≤ n) as Hn by (destruct Hi as (_ & _ & _ & (_ & ? & _) & _); done).
  destruct (notified_wait (d_k s) v hx pl (contents n f) w HI Hs Hmax Hw) as (k' & v' & Hk & HI' & Hs' & Hw' & Hob).
  { apply last_n_nil. lia. }
  destruct (rx_interrupt_run s d x p f cs h' k' Hi Hind Hdr Hlen Hk) as (f1 & calls & R' & Hwf & Hc). rewrite R' in R. injection R as <-.
  fold n w in Hwf, Hc. eexists d, _, p, f1, v', hx. split; cbn [io_s io_at io_in io_got io_lost].
  - eapply int_reader_kernel; [by apply (rx_st_reader device d x p f f1 h' calls s Hi)|done|done|apply Hob].
  - done.
  - done.
  - done.
  - done.
  - by rewrite Hc.
  - rewrite Hc. etrans; [apply sublist_app; [done|apply last_n_sublist]|]. rewrite app_assoc. by apply sublist_app.
  - intros [El Eo]%orb_false_iff. rewrite Hc. rewrite (overflows_spec s d x p f cs Hi) in Eo. apply Z.ltb_ge in Eo. fold n in Eo.
    unfold w. rewrite last_n_short by lia. by rewrite app_assoc, He.
Qed.

Lemma io_read_ok n s d x p f v hx inp got lost :
  io_inv n (mk_io s Reading inp got lost) d x p f v hx →
  ∃ f2, let s2 := rx_st device x p f2 (ss_hw (d_drv s)) (ss_calls (d_drv s)) s in
    getchar_read s = Some (head (contents n f), s2) ∧
    match contents n f with
    | [] => good_io n (mk_io s2 Taking inp got lost)
    | ch :: _ => good_io n (mk_io s2 Reading inp (got ++ [ch]) lost)
    end.
Proof.
  intros [Hi En Hind HI Hs Hw Ho He]. cbn [io_s io_at io_in io_got io_lost] in *. subst n. set (n := cf_bufsz (sr_config x)) in *.
  destruct (getchar_read_run s d x p f Hi) as (f2 & R & Hwf & Hc). fold n in R, Hwf, Hc. exists f2. split; [done|].
  pose proof (rx_st_reader device d x p f f2 (ss_hw (d_drv s)) (ss_calls (d_drv s)) s Hi Hwf) as Hi2.
  destruct (contents n f) as [|ch w]; cbn [tail] in Hc; eexists d, _, p, f2, v, hx;
    (split; cbn [io_s io_at io_in io_got io_lost]; [exact Hi2|done|done|done|done|..]); rewrite ?Hc; try done.
  - by rewrite <- app_assoc.
  - rewrite <- app_assoc. exact He.
Qed.

Lemma io_take_ok n s th inp got lost :
  good_io n (mk_io s Taking inp got lost) → caller (d_k s) t th →
  ∃ r s', getchar_take s = Some (r, s') ∧
    good_io n (mk_io s' (match r with Returned _ => Reading | Blocked _ => Waiting end) inp got lost).
Proof.
  intros (d & x & p & f & v & hx & [Hi En Hind HI Hs Hw Ho He]) Hca. cbn [io_s io_at io_in io_got io_lost] in *. destruct Hw as [El Hv].
  destruct (decide (0 < v)) as [Hpos|Hneg].
  - destruct (sem_down_run (d_k s) rx_sem v hx RT_WAITING_FOREVER HI Hs Hpos) as (R & HI' & Hs').
    eexists _, _. split; [unfold getchar_take, kern; cbn [st_k dst_kernel]; rewrite R; reflexivity|].
    exists d, x, p, f, (v - 1), hx. split; cbn [io_s io_at io_in io_got io_lost]; try done.
  - assert (v = 0) as -> by (destruct Hs as (_ & _ & ? & _); lia).
    assert (contents n f = []) as Ew by (destruct (contents n f); [done|]; by destruct (Hneg (Hv ltac:(done)))).
    destruct (sem_block_run (d_k s) rx_sem hx t th RT_WAITING_FOREVER HI Hs Hca ltac:(done) ltac:(done)) as (k' & R & Hs' & Hp).
    pose proof Hp as (HI' & _ & Hob & _ & El' & _). rewrite El in El'.
    eexists _, _. split; [unfold getchar_take, kern; cbn [st_k dst_kernel]; rewrite R; reflexivity|].
    exists d, x, p, f, 0, hx. split; cbn [io_s io_at io_in io_got io_lost]; try done.
    + eapply int_reader_kernel; [exact Hi|done|done|apply Hob].
    + left. split; [|done]. cbn [with_k dst_kernel d_k]. rewrite El'. unfold enqueue. by case_match.
Qed.

Lemma io_step_ok n st st' : good_io n st → io_step st st' → good_io n st'.
Proof.
  intros Hg Hst. destruct Hst as [s s' ch inp got lost R|s s' inp got lost R|s s' r th inp got lost Hca R|s s' u th inp got lost Hca R|
    s th inp got lost Ht Ha|s s' pl cs h' v inp got lost Hdr Hlen Hv Hmax R|s k' pl inp got lost HI' Ev El Eo Ed Hact].
  - destruct Hg as (d & x & p & f & v & hx & Hi). destruct (io_read_ok n s d x p f v hx inp got lost Hi) as (f2 & R' & Hg').
    rewrite R' in R. destruct (contents n f); [done|]. by injection R as <- <-.
  - destruct Hg as (d & x & p & f & v & hx & Hi). destruct (io_read_ok n s d x p f v hx inp got lost Hi) as (f2 & R' & Hg').
    rewrite R' in R. destruct (contents n f); [|done]. by injection R as <-.
  - destruct (io_take_ok n s th inp got lost Hg Hca) as (r' & s2 & R' & Hg'). rewrite R' in R. by injection R as -> <-.
  - destruct (io_take_ok n s th inp got lost Hg Hca) as (r' & s2 & R' & Hg'). rewrite R' in R. by injection R as -> <-.
  - destruct Hg as (d & x & p & f & v & hx & [Hi En Hind HI Hs Hw Ho He]). exists d, x, p, f, v, hx. split; try done.
    cbn in *. destruct Hw as [[El _]|[El _]]; [|done].
    destruct (waiter_suspended (d_k s) (HSuspend rx_sem) t HI I) as (th' & Ht' & Hs'); [rewrite El; by left|].
    assert (th' = th) as -> by congruence. destruct Ha as [E|E]; rewrite E in Hs'; done.
  - by eapply io_irq_ok.
  - destruct Hg as (d & x & p & f & v & hx & [Hi En Hind HI Hs Hw Ho He]). exists d, x, p, f, v, hx. cbn [io_s io_at io_in io_got io_lost] in *.
    split; try done; cbn [io_s io_at with_k dst_kernel d_k].
    + by eapply int_reader_kernel.
    + destruct Hs as (Hx & Hv & Hr & Hl). unfold sem_ok, ipc_obj in *. by rewrite Eo, Ev, El.
    + unfold waits_ok in *. rewrite El. destruct pl; [done|done|]. destruct Hw as [?|[? (th & Ht & Ha)]]; [by left|]. right. split; [done|]. by apply (Hact th).
Qed.

Lemma good_io_facts n st :
  good_io n st →
  (io_at st = Waiting → waiting_bytes (io_s st) ≠ [] → ∃ th, k_thr (d_k (io_s st)) !! t = Some th ∧ active th) ∧
  io_got st ++ waiting_bytes (io_s st) `sublist_of` io_in st ∧ (io_lost st = false → io_got st ++ waiting_bytes (io_s st) = io_in st).
Proof.
  destruct st as [s pl inp got lost]. intros (d & x & p & f & v & hx & [Hr En Hind HI Hs Hw Ho He]). cbn [io_s io_at io_in io_got io_lost] in *.
  rewrite (waiting_bytes_run s d x p f Hr), En. split_and!; [|done|done]. intros -> Hne. by destruct Hw as [[_ ?]|[_ ?]].
Qed.

Lemma good_io_runs n st :
  good_io n st →
  (io_at st = Reading → ∃ s', getchar_read (io_s st) = Some (head (waiting_bytes (io_s st)), s')) ∧
  (io_at st = Taking → ∀ th, caller (d_k (io_s st)) t th → is_Some (getchar_take (io_s st))) ∧
  (∀ cs h' v, drains uart (ss_hw (d_drv (io_s st))) cs h' → Z.of_nat (length cs) < 2 ^ 32 →
     ip_sem (k_ipc (d_k (io_s st))) !! rx_sem = Some (mk_sem v) → v < 2 ^ 16 - 1 → is_Some (rx_interrupt (io_s st))).
Proof.
  destruct st as [s pl inp got lost]. intros Hg. pose proof Hg as (d & x & p & f & v & hx & Hi). pose proof Hi as [Hr En Hind HI Hs Hw Ho He].
  cbn [io_s io_at io_in io_got io_lost] in *. split_and!.
  - intros ->. destruct (io_read_ok n s d x p f v hx inp got lost Hi) as (f2 & R & _). rewrite (waiting_bytes_run s d x p f Hr), En. by eexists.
  - intros -> th Hca. destruct (io_take_ok n s th inp got lost Hg Hca) as (r & s' & R & _). by eexists.
  - intros cs h' v0 Hdr Hlen Hv Hmax. assert (v0 = v) as -> by (destruct Hs as (_ & Hv' & _); congruence).
    subst n. assert (2 ≤ cf_bufsz (sr_config x)) as Hn by (destruct Hr as (_ & _ & _ & (_ & ? & _) & _); done).
    destruct (notified_wait (d_k s) v hx pl _ (last_n (cf_bufsz (sr_config x) - 1) (contents (cf_bufsz (sr_config x)) f ++ cs)) HI Hs Hmax Hw) as (k' & v' & Hk & _).
    { apply last_n_nil. lia. }
    destruct (rx_interrupt_run s d x p f cs h' k' Hr Hind Hdr Hlen Hk) as (f1 & calls & R & _). by eexists.
Qed.

(** C24: The input of the shell under every interleaving of the shell, the receive interrupt
    and the rest of the system, from an empty FIFO on and as long as the semaphore's count
    stays below 65535 when the interrupt releases it ([input_wraps] shows why): the shell never sleeps while a
    character waits for it; it gets the characters in the order they came, and all of
    them as long as the FIFO did not overflow; each of its operations, and the interrupt,
    returns. *)
Theorem finsh_input s d x p f v hx st :
  int_reader device d x p f s → dv_rx_indicate d = Some rx_ind → waiting_bytes s = [] →
  kinv (d_k s) → sem_ok rx_sem (d_k s) v hx → tlist (k_tl (d_k s)) (HSuspend rx_sem) = [] →
  rtc io_step (mk_io s Reading [] [] false) st →
  ((io_at st = Waiting → waiting_bytes (io_s st) ≠ [] → ∃ th, k_thr (d_k (io_s st)) !! t = Some th ∧ active th) ∧
   io_got st ++ waiting_bytes (io_s st) `sublist_of` io_in st ∧ (io_lost st = false → io_got st ++ waiting_bytes (io_s st) = io_in st)) ∧
  (io_at st = Reading → ∃ s', getchar_read (io_s st) = Some (head (waiting_bytes (io_s st)), s')) ∧
  (io_at st = Taking → ∀ th, caller (d_k (io_s st)) t th → is_Some (getchar_take (io_s st))) ∧
  (∀ cs h' v, drains uart (ss_hw (d_drv (io_s st))) cs h' → Z.of_nat (length cs) < 2 ^ 32 →
     ip_sem (k_ipc (d_k (io_s st))) !! rx_sem = Some (mk_sem v) → v < 2 ^ 16 - 1 → is_Some (rx_interrupt (io_s st))).
Proof.
  intros Hr Hind Hemp HI Hs Hl Hst. rewrite (waiting_bytes_run s d x p f Hr) in Hemp.
  assert (good_io (cf_bufsz (sr_config x)) st) as Hg.
  { assert (good_io (cf_bufsz (sr_config x)) (mk_io s Reading [] [] false)) as H0.
    { exists d, x, p, f, v, hx. split; cbn; rewrite ?Hemp; try done. }
    revert H0. clear - Hst. induction Hst as [|a b c Hs _ IH]; [done|]. intros H0. by eapply IH, io_step_ok. }
  split; [by eapply good_io_facts|by eapply good_io_runs].
Qed.
End input.

(** * The device of the shell *)

(** The devices, the shell, and [shell->device]. *)
Record fio (D : Type) := mk_fio { fi_dst : dst D; fi_shell : finsh_shell; fi_device : option Z }.
Arguments mk_fio {D} _ _ _.
Arguments fi_dst {D} _.
Arguments fi_shell {D} _.
Arguments fi_device {D} _.

Section binding.
Context {D W : Type} (ops : Z → dev_ops D W).
Variable rx_ind : Z.

Definition on_dst {A} (m : M (dst D) A) : M (fio D) A := λ s,
  match m (fi_dst s) with Some (a, t) => Some (a, mk_fio t (fi_shell s) (fi_device s)) | None => None end.
Definition on_shell {A} (m : M finsh_shell A) : M (fio D) A := λ s,
  match m (fi_shell s) with Some (a, t) => Some (a, mk_fio (fi_dst s) t (fi_device s)) | None => None end.

(** The text "finsh: can not find device: %s\n" *)
Definition no_device : list Z :=
  [102; 105; 110; 115; 104; 58; 32; 99; 97; 110; 32; 110; 111; 116; 32; 102; 105; 110; 100; 32; 100; 101; 118; 105; 99; 101; 58; 32; 37; 115; 10].

Definition finsh_set_device (device_name : list Z) : M (fio D) unit :=
  r ← on_dst (kern (rt_device_find device_name));
  match r with
  | None => on_shell (print no_device [VStr (Some device_name)])
  | Some dev =>
      cur ← gets fi_device;
      if decide (Some dev = cur) then ret tt
      else
        r ← on_dst (rt_device_open ops dev (Z.lor RT_DEVICE_FLAG_RDWR (Z.lor RT_DEVICE_FLAG_INT_RX RT_DEVICE_FLAG_STREAM)));
        if r =? RT_EOK then
          match cur with
          | Some old => on_dst (rt_device_close ops old) ;; on_dst (rt_device_set_rx_indicate old None) ;; ret tt
          | None => ret tt
          end ;;
          on_shell (modify (λ sh, set_positions 0 0 (set_line (replicate (length (sh_line sh)) 0) sh))) ;;
          modify (λ s, mk_fio (fi_dst s) (fi_shell s) (Some dev)) ;;
          on_dst (rt_device_set_rx_indicate dev (Some rx_ind)) ;;
          ret tt
        else ret tt
  end.

(** [shell->device->parent.name] *)
Definition finsh_get_device : M (fio D) (list Z) :=
  d ← gets fi_device;
  a ← from_opt d;
  x ← on_dst (kern (get_object (Obj a)));
  ret (o_name x).

(** The device the shell has already stays untouched. *)
Theorem finsh_set_device_same s t name a :
  fi_device s = Some a → kern (rt_device_find name) (fi_dst s) = Some (Some a, t) →
  finsh_set_device name s = Some (tt, mk_fio t (fi_shell s) (Some a)).
Proof. intros Ed E. unfold finsh_set_device, bind, on_dst, gets. rewrite E. cbn [fi_device]. rewrite Ed. by rewrite decide_True. Qed.

(** The first device: when the driver accepts it, it is opened once more, the shell reads
    from it with an empty line, and its driver will call [finsh_rx_ind]. *)
Theorem finsh_set_device_first I a `{!DriverLaws ops I a} s t name d :
  fi_device s = None → kern (rt_device_find name) (fi_dst s) = Some (Some a, t) → I t → is_dev t a d → 0 ≤ dv_ref_count d < 255 →
  wp (finsh_set_device name) (λ _ s',
    (fi_device s' = None ∧ fi_shell s' = fi_shell s) ∨
    (fi_device s' = Some a ∧ sh_line (fi_shell s') = replicate (length (sh_line (fi_shell s))) 0 ∧
     sh_line_position (fi_shell s') = 0 ∧ sh_line_curpos (fi_shell s') = 0 ∧
     ∃ d', is_dev (fi_dst s') a d' ∧ dv_ref_count d' = dv_ref_count d + 1 ∧ dv_rx_indicate d' = Some rx_ind)) s.
Proof.
  intros Ed E HI Hd Hn. unfold finsh_set_device, bind, on_dst, gets, wp. rewrite E. cbn [fi_device fi_dst fi_shell]. rewrite Ed. rewrite decide_False by done. cbn [fi_device fi_dst fi_shell].
  pose proof (open_run ops I a t d (Z.lor RT_DEVICE_FLAG_RDWR (Z.lor RT_DEVICE_FLAG_INT_RX RT_DEVICE_FLAG_STREAM)) HI Hd Hn)
    as (r & t2 & -> & _ & d' & acc & Hd' & En & Hno & _)%wp_run.
  cbn [fi_device fi_dst fi_shell]. destruct (Z.eqb_spec r RT_EOK) as [->|Hr]; [|by left]. destruct acc; [|by destruct Hno].
  unfold ret, on_shell, modify. cbn [fi_device fi_dst fi_shell]. unfold rt_device_set_rx_indicate. rewrite (dev_assert_run t2 a d' _ Hd'). unfold bind.
  rewrite (dev_mod_run _ _ _ _ Hd'). unfold ret. right. cbn. split_and!; try done.
  eexists. split; [by eapply is_dev_put|]. by destruct d'.
Qed.
End binding.

(** ** Examples *)

Definition empty_fifo : rt_serial_rx_fifo := mk_fifo [0; 0; 0; 0] 2 2 false.

(** A system with the device 500 and the semaphores of [demo_sem], where the controller
    has received some bytes. *)
Definition demo_input (bytes : list Z) : Device.dst serial_st :=
  mk_dst (upd_objects (put_obj (Obj 500) (header RT_Object_Class_Device [117; 97; 114; 116; 49] None)) demo_sem) 0
    {[500 := mk_device 0 0xf13 0x10b 1 (Some 77) None 0]}
    (mk_sst {[500 := mk_serial demo_config (RxFifo 9000 empty_fifo) TxNull]} (mk_hw bytes [] 2 []) 0 [] ∅ ∅ [] []).

(** An interrupt between the read and the wait: the shell does not sleep. *)
Example input_between :
  fst <$> (c ← getchar_read demo_uart demo_heap (λ _, demo_config) 500 0; rx_interrupt demo_uart 500 101 77 ;;
           r ← getchar_take 101; c' ← getchar_read demo_uart demo_heap (λ _, demo_config) 500 0; ret (c, r, c')) (demo_input [7])
  = Some (None, Returned RT_EOK, Some 7).
Proof. vm_compute. reflexivity. Qed.

(** When 65535 notifications are pending the next one wraps the count of the semaphore to
    zero, and the shell sleeps with a character in the FIFO. *)
Example input_wraps :
  (λ '(r, s), (r, waiting_bytes 500 s)) <$>
    (c ← getchar_read demo_uart demo_heap (λ _, demo_config) 500 0; rx_interrupt demo_uart 500 102 77 ;; getchar_take 102) (demo_input [7])
  = Some (Blocked 1, [7]).
Proof. vm_compute. reflexivity. Qed.

(** Three bytes come while the shell reads; it gets the first. *)
Lemma finsh_input_witness :
  let read := getchar_read demo_uart demo_heap (λ _, demo_config) 500 0 in
  let s1 := default (demo_input []) (snd <$> rx_interrupt demo_uart 500 101 77 (demo_input [1; 2; 3])) in
  let s2 := default (demo_input []) (snd <$> read s1) in
  waiting_bytes 500 s2 = [2; 3] ∧ [1] ++ waiting_bytes 500 s2 = [1; 2; 3].
Proof.
  intros read s1 s2. split; [vm_compute; reflexivity|].
  destruct (finsh_input demo_uart demo_heap (λ _, demo_config) 500 101 77 0 1 (demo_input [1; 2; 3]) (mk_device 0 0xf13 0x10b 1 (Some 77) None 0)
    (mk_serial demo_config (RxFifo 9000 empty_fifo) TxNull) 9000 empty_fifo 0 demo_hdr (mk_io s2 Reading [1; 2; 3] [1] false)) as ((_ & _ & Hx) & _).
  - refine (conj _ (conj eq_refl (conj eq_refl (conj _ (conj eq_refl _))))); [split; [reflexivity|by eexists]| |done].
    split_and!; [split; [done|done|by repeat constructor|done|done]|done|done].
  - reflexivity.
  - reflexivity.
  - apply kinv_check_sound. vm_compute. reflexivity.
  - exact (demo_sem_ok 101 0 (or_intror (or_introl (conj eq_refl eq_refl)))).
  - reflexivity.
  - eapply rtc_l; [eapply (step_irq _ _ _ _ _ _ _ _ (demo_input [1; 2; 3]) s1 Reading [1; 2; 3] (mk_hw [] [] 2 []) 0)|].
    + econstructor; [reflexivity|done|]. econstructor; [reflexivity|done|]. econstructor; [reflexivity|done|]. by constructor.
    + done.
    + reflexivity.
    + done.
    + vm_compute. reflexivity.
    + eapply rtc_l; [|apply rtc_refl]. apply (step_got _ _ _ _ _ _ _ _ s1 s2 1 [1; 2; 3] [] false). vm_compute. reflexivity.
  - by apply Hx.
Defined.
