(* ===== verification/System.v ===== *)
(** The kernel as a whole: threads that yield, sleep, suspend and resume each other, use
    semaphores and timers, interrupted by clock ticks whose timeout functions call the kernel
    back (Callback.v), as a step relation on the kernel state. In every reachable state the
    invariants of scheduler, timers and semaphores hold together; no call gets stuck; a
    thread of highest priority runs unless a thread was resumed and [rt_schedule] not yet
    called; and no thread that waits with a timeout waits longer than that. *)

From Stdlib Require Import ZArith Lia.
From stdpp Require Import base numbers option gmap relations.
From stdpp Require Import list.
From S2P Require Import Prelude.
From S2P Require Import Kservice.
From S2P Require Import KernelDefs.
From S2P Require Import Scheduler.
From S2P Require Import Object.
From S2P Require Import Timer.
From S2P Require Import Thread.
From S2P Require Import Clock.
From S2P Require Import Ipc.
From S2P Require Import Sem.
From S2P Require Import Callback.
Local Open Scope Z_scope.
Local Open Scope rt_scope.

(** * Steps *)

(** Calls a thread can make. [CDo] is a call that is possible in an interrupt, too:
    [rt_thread_resume], [rt_sem_release], [rt_schedule] and the timer calls. Neither
    [rt_thread_resume] nor [rt_thread_suspend] of another thread reschedules; a thread that
    suspends itself calls [rt_schedule] afterwards, as the note of [rt_thread_suspend]
    demands. *)
Inductive call :=
| CYield
| CSleep (tick : Z)
| CSuspend (u : Z)
| CSuspendSelf
| CTake (a time : Z)
| CDo (c : act).

Definition exec (c : call) : K unit :=
  match c with
  | CYield => rt_thread_yield ;; ret tt
  | CSleep tick => rt_thread_sleep tick ;; ret tt
  | CSuspend u => rt_thread_suspend u ;; ret tt
  | CSuspendSelf => t ← self; rt_thread_suspend t ;; rt_schedule
  | CTake a time => rt_sem_take a time ;; ret tt
  | CDo c => run_act c ;; ret tt
  end.

(** A step: a call of the running thread, or a clock tick whose timeout functions run the
    programs [progs]. *)
Inductive label :=
| Call (t : Z) (c : call)
| Tick (progs : Z → Z → prog).

Section system.
(** The idle thread, which never waits and is never suspended. *)
Variable idle : Z.
(** The timers, semaphores and threads of the application. *)
Context (P V U : Z → Prop).

Definition tick (progs : Z → Z → prog) : K unit := λ s, rt_tick_increase (user progs) (S (length (k_rows s))) s.

(** What callers have to observe: threads, semaphores and timers exist, timeouts are below
    half the range of the tick counter, the idle thread does not wait. *)
Definition allowed (s : kst) (t : Z) (c : call) : Prop :=
  match c with
  | CYield => True
  | CSleep n => t ≠ idle ∧ 0 ≤ n < HALF
  | CSuspend u => u ≠ idle ∧ u ≠ t ∧ ∃ uh, k_thr s !! u = Some uh ∧ stat_of uh ≠ RT_THREAD_CLOSE
  | CSuspendSelf => t ≠ idle
  | CTake a time => is_Some (ip_sem (k_ipc s) !! a) ∧ (t ≠ idle ∨ time = 0) ∧ time < HALF
  | CDo c => act_ok P V U None Fired c
  end.

Inductive step (s : kst) : label → kst → Prop :=
| step_call t th c s' :
    caller s t th → allowed s t c → exec c s = Some (tt, s') → step s (Call t c) s'
| step_tick progs s' : progs_ok P V U progs s → tick progs s = Some (tt, s') → step s (Tick progs) s'.

Inductive run : kst → list label → kst → Prop :=
| run_nil s : run s [] s
| run_cons s l s' ls s'' : step s l s' → run s' ls s'' → run s (l :: ls) s''.

(** Whether a thread of highest priority runs after a step, when [b] says whether it did
    before: a resumed thread may have to wait for the next [rt_schedule]. *)
Definition settles (b : bool) (l : label) : bool :=
  match l with
  | Call _ (CYield | CSleep _ | CSuspendSelf | CDo ASchedule) => true
  | Call _ (CDo (AResume _)) => false
  | _ => b
  end.


(** * Invariant *)

(** Thread [u] waits and its timeout is [n] ticks away. *)
Definition waits (s : kst) (u n : Z) : Prop :=
  ThreadTimer u ∈ k_rows s ∧ off (k_timers s) (ThreadTimer u) = n.

Record sys_inv (s : kst) : Prop := {
  si_h : hinv P V U None Fired false s;
  si_irq : sc_irq_nest (k_sched s) = 0;
  si_idle : awake s idle
}.

Lemma si_kinv s : sys_inv s → kinv s.
Proof. intros [HI _ _]. split; [apply HI|exact (h_twf HI)]. Qed.

(** What every call keeps. *)
Record keeps (l : label) (s s' : kst) : Prop := {
  kp_inv : sys_inv s';
  kp_waits : ∀ u n, waits s u n → waits s' u n ∨ awake s' u;
  kp_fn : ∀ a, tm_timeout_func <$> k_tim s' !! Obj a = tm_timeout_func <$> k_tim s !! Obj a;
  kp_high : ∀ b, (b = true → runs_highest (k_sched s)) → settles b l = true → runs_highest (k_sched s')
}.

(** ** Frames *)

Lemma sems_update s s' a v x :
  sems_ok s → sem_ok a s' v x → (∀ b, b ≠ a → ip_sem (k_ipc s') !! b = ip_sem (k_ipc s) !! b) →
  (∀ b, k_obj s' !! Obj b = k_obj s !! Obj b) →
  (∀ b, b ≠ a → tlist (k_tl s') (HSuspend b) = tlist (k_tl s) (HSuspend b)) → sems_ok s'.
Proof.
  intros Hs Ha Hip Hob Hl b w Hw. destruct (decide (b = a)) as [->|Hne].
  - pose proof Ha as (_ & Hv & _). rewrite Hv in Hw. injection Hw as <-. eauto.
  - rewrite Hip in Hw by done. destruct (Hs b w Hw) as (y & (Hy & Hty) & _ & Hr & He).
    exists y. split; [split; [by rewrite Hob|done]|]. split_and!; [by rewrite Hip|lia|lia|].
    intros Hp. rewrite Hl by done. by apply He.
Qed.

Lemma off_same s s' o :
  k_tim s' !! o = k_tim s !! o → k_tick s' = k_tick s → off (k_timers s') o = off (k_timers s) o.
Proof. unfold k_tim, k_tick, off. by intros -> ->. Qed.

(** Timers of one thread apart, nothing happened to time. *)
Lemma waits_kept t s s' u n : timers_kept t s s' → u ≠ t → waits s u n → waits s' u n.
Proof.
  intros [Htk Ho] Hu [Hin Hoff]. destruct (Ho (ThreadTimer u)) as [Hr Htm]; [congruence|].
  split; [by apply Hr|]. by rewrite (off_same s s').
Qed.

(** A thread whose timer runs is neither ready nor running. *)
Lemma waits_not_awake s u n th : kinv s → waits s u n → k_thr s !! u = Some th → ¬ active th.
Proof. intros [HI _] [Hin _] Hu Ha. eapply wait_not_awake; [done|done|by exists th]. Qed.

(** A call that changes the timer of one thread at most, and the scheduler. *)
Lemma keeps_intro l t s s' :
  sys_inv s → kinv s' → timers_kept t s s' → (∀ a, k_obj s' !! Obj a = k_obj s !! Obj a) →
  sc_lock_nest (k_sched s') = sc_lock_nest (k_sched s) → sc_irq_nest (k_sched s') = sc_irq_nest (k_sched s) →
  running s' → awake s' idle → sems_ok s' →
  (∀ a, is_Some (ip_sem (k_ipc s) !! a) → is_Some (ip_sem (k_ipc s') !! a)) →
  (∀ u uh, k_thr s !! u = Some uh → stat_of uh ≠ RT_THREAD_CLOSE →
     ∃ uh', k_thr s' !! u = Some uh' ∧ stat_of uh' ≠ RT_THREAD_CLOSE) →
  (∀ n, waits s t n → awake s' t) →
  (∀ b, (b = true → runs_highest (k_sched s)) → settles b l = true → runs_highest (k_sched s')) → keeps l s s'.
Proof.
  intros HI [HI' Hw'] Ht Hob Hlk Hiq Hru Hid Hsm Hsd Hth Hw Hhi.
  assert (∀ a, k_tim s' !! Obj a = k_tim s !! Obj a) as Htm by (intros a; by apply (proj2 Ht)).
  destruct HI as [[K0 Kw Kt Kti Kst Kse Kth Kso Ksm Klk Kru] Ki Kid]. split; [|..].
  - split; [|by rewrite Hiq|done]. split; try done.
    + intros a tm. rewrite Htm. apply Kt.
    + intros a Ha. destruct (Kti a Ha) as [(x & Hx & Hty) Hs]. split; [|by rewrite Htm]. exists x. split; [|done].
      rewrite <- Hx. exact (Hob a).
    + intros a x Ha [Hx Hty]. apply (Kst a x Ha). split; [|done]. rewrite <- Hx. symmetry. exact (Hob a).
    + intros u Hu. destruct (Kth u Hu) as (uh & ? & ?). by eapply Hth.
    + intros a Ha. by apply Hsd, Ksm.
    + by rewrite Hlk.
  - intros u n Hu. destruct (decide (u = t)) as [->|Hne]; [right; by eapply Hw|left; by eapply waits_kept].
  - intros a. by rewrite Htm.
  - done.
Qed.

(** A call of an interrupt routine. *)
Lemma keeps_acted l T s s' :
  sys_inv s → hinv P V U None Fired false s' → acted T s s' →
  (∀ b, (b = true → runs_highest (k_sched s)) → settles b l = true → runs_highest (k_sched s')) → keeps l s s'.
Proof.
  intros HI HI' Ha Hhi. split; [|..|done].
  - split; [done|by rewrite (ac_irq Ha); apply HI|]. eapply acted_awake; [done|apply HI].
  - intros u n [Hin Hoff]. destruct (ac_wait Ha u Hin) as [[? ?]|?]; [left|by right]. split; [done|].
    by rewrite (off_same s s'), Hoff by (done || apply (ac_tick Ha)).
  - apply (ac_fn Ha).
Qed.

(** * Calls *)

Lemma caller_not_waiting s t th n : kinv s → caller s t th → ¬ waits s t n.
Proof.
  intros HI Hca Hw. pose proof Hca as (_ & Ht & _). by eapply waits_not_awake; [..|eapply caller_active].
Qed.

(** The idle thread is ready unless it is the current one. *)
Lemma idle_ready s t : sys_inv s → k_cur s = Some t → t ≠ idle → thread_stat s idle = Some RT_THREAD_READY.
Proof.
  intros HI Hc Hne. destruct (si_idle _ HI) as (ih & Hi & Ha). unfold thread_stat. rewrite Hi. cbn.
  destruct Ha as [->|Hr]; [done|]. exfalso. apply Hne.
  pose proof (sw_running _ _ (proj1 (ki_sched _ (proj1 (si_kinv _ HI)))) idle ih Hi ltac:(set_solver) Hr) as E.
  unfold k_cur in Hc. congruence.
Qed.

Lemma exec_act s t c :
  sys_inv s → act_ok P V U None Fired c → ∃ s', exec (CDo c) s = Some (tt, s') ∧ keeps (Call t (CDo c)) s s'.
Proof.
  intros HI Hok. destruct (act_run P V U None Fired false c s (si_h _ HI) Hok) as (r & s' & Hrun & HI' & Hac & Hk & Hs).
  assert (next None Fired c = Fired) as E by (by destruct c). rewrite E in HI'.
  exists s'. split; [unfold exec, bind; by rewrite Hrun|]. eapply keeps_acted; [done|done|done|].
  intros b Hb Hst. destruct c; cbn in Hst; simplify_eq; auto.
Qed.

Lemma exec_yield s t : sys_inv s → ∃ s', exec CYield s = Some (tt, s') ∧ keeps (Call t CYield) s s'.
Proof.
  intros HI. destruct (act_schedule_run P V U None Fired false s (si_h _ HI)) as (c' & Hrun & HI' & Hac & Hhi).
  eexists. split; [unfold exec, rt_thread_yield, bind; by rewrite Hrun|]. by eapply keeps_acted.
Qed.

(** [rt_schedule] when the current thread runs or another one is ready. *)
Lemma resched_run s t th :
  kinv s → sc_lock_nest (k_sched s) = 0 → k_cur s = Some t → k_thr s !! t = Some th →
  stat_of th = RT_THREAD_RUNNING ∨ (∃ u, thread_stat s u = Some RT_THREAD_READY) →
  ∃ c', let s' := mk_kst c' (k_timers s) (k_objects s) (k_ipc s) in
    rt_schedule s = Some (tt, s') ∧ kinv s' ∧ calm s s' ∧ runs_highest c' ∧ moved (k_sched s) c' ∧
    (∀ h, is_wait h → tlist (sc_tl c') h = tlist (k_tl s) h).
Proof.
  intros [HI Hw] Hn Hc Ht Hor. destruct (schedule_kinv0 s HI) as (c' & Hrun & Hd & HI').
  exists c'. split_and!; [done|by split|by apply calm_schedule, Hd; apply HI| |by apply scheduled_moved, Hd; apply HI|].
  - eapply scheduled_highest; [apply HI|done|done|done|done|]. destruct Hor as [|[u Hu]]; [by left|right].
    by eapply ready_group.
  - intros h Hh. apply (scheduled_waiting _ _ h (ki_sched _ HI) Hd). intros p. by apply is_wait_not_ready.
Qed.

Lemma timers_kept_same t s s' : k_timers s' = k_timers s → timers_kept t s s'.
Proof. intros E. split; [unfold k_tick|intros o Ho; unfold k_rows, k_tim]; by rewrite E. Qed.

Lemma timers_kept_trans t s1 s2 s3 : timers_kept t s1 s2 → timers_kept t s2 s3 → timers_kept t s1 s3.
Proof.
  intros [E1 H1] [E2 H2]. split; [congruence|]. intros o Ho. destruct (H1 o Ho) as [? ?], (H2 o Ho) as [? ?].
  split; [naive_solver|congruence].
Qed.

Lemma suspend_open s u uh v vh :
  k_thr s !! u = Some uh → active uh → k_thr s !! v = Some vh → stat_of vh ≠ RT_THREAD_CLOSE →
  ∃ vh', sc_thr (suspend_sc u uh (k_sched s)) !! v = Some vh' ∧ stat_of vh' ≠ RT_THREAD_CLOSE.
Proof.
  intros Hu Ha Hv Hs. cbn. rewrite lookup_insert. case_decide; [|eauto]. eexists. split; [done|].
  rewrite stat_of_set_stat; stat_lia.
Qed.

(** The rescheduling behind the current thread that was suspended and its timer perhaps armed;
    the scheduler's part of the state is then [suspend_sc]. *)
Lemma resched_suspended l s s1 t th :
  sys_inv s → caller s t th → t ≠ idle →
  kinv s1 → k_sched s1 = suspend_sc t th (k_sched s) → k_ipc s1 = k_ipc s → timers_kept t s s1 →
  (∀ a, k_obj s1 !! Obj a = k_obj s !! Obj a) →
  ∃ s', rt_schedule s1 = Some (tt, s') ∧ keeps l s s' ∧ k_timers s' = k_timers s1.
Proof.
  intros HI Hca Hid HI1 Hsc Hip Htk Hob. pose proof Hca as (Hc & Ht & Hr & _). pose proof (caller_active _ _ _ Hca) as Ha.
  assert (∀ v, v ≠ t → k_thr s1 !! v = k_thr s !! v) as Hoth.
  { intros v Hv. unfold k_thr. rewrite Hsc. cbn. by rewrite lookup_insert_ne. }
  assert (k_cur s1 = Some t) as Hc1 by (unfold k_cur; by rewrite Hsc).
  assert (k_thr s1 !! t = Some (set_stat RT_THREAD_SUSPEND th)) as Ht1 by (unfold k_thr; rewrite Hsc; cbn; by rewrite lookup_insert_eq).
  destruct (resched_run s1 t (set_stat RT_THREAD_SUSPEND th) HI1) as (c' & Hrun & HI' & Hcm & Hhi & Hm & Hl); [rewrite Hsc; apply (h_lock (si_h _ HI))|done|done| |].
  { right. exists idle. unfold thread_stat. rewrite Hoth by done. by eapply idle_ready. }
  eexists. split; [exact Hrun|]. split; [|done].
  eapply (keeps_intro l t); [done|done|exact Htk|exact Hob| | | | | | | | |done].
  - rewrite (cm_lock _ _ Hcm). by rewrite Hsc.
  - rewrite (cm_irq _ _ Hcm). by rewrite Hsc.
  - by apply runs_highest_running.
  - destruct (si_idle _ HI) as (ih & Hi & Hia).
    destruct (cm_active _ _ Hcm idle ih) as (ih' & ? & ? & _); [by rewrite Hoth|done|]. by exists ih'.
  - eapply (sems_keep s); [apply (h_sems (si_h _ HI))|exact (f_equal ip_sem Hip)|intros a x Hx _; rewrite <- Hx; exact (Hob a)|].
    intros a v. unfold k_tl at 1. cbn. rewrite Hl by done. unfold k_tl at 1. rewrite Hsc.
    by rewrite (suspend_tlist (k_sched s) t th (HSuspend a)) by (done || apply (h_k0 (si_h _ HI))).
  - cbn. by rewrite Hip.
  - intros v vh Hv Hcl. destruct (suspend_open s t th v vh Ht Ha Hv Hcl) as (vh1 & Hv1 & Hcl1).
    rewrite <- Hsc in Hv1. by eapply (moved_open _ _ v vh1).
  - intros n Hw. by destruct (caller_not_waiting s t th n (si_kinv _ HI) Hca).
Qed.

Lemma exec_suspend_self s t th :
  sys_inv s → caller s t th → t ≠ idle → ∃ s', exec CSuspendSelf s = Some (tt, s') ∧ keeps (Call t CSuspendSelf) s s'.
Proof.
  intros HI Hca Hid. pose proof Hca as (Hc & Ht & Hr & _). pose proof (caller_active _ _ _ Hca) as Ha.
  destruct (resched_suspended (Call t CSuspendSelf) s (suspend_st t th s) t th) as (s' & Hrun & Hk & _);
    [done|done|done|by apply kinv_suspend; [apply si_kinv|..]|done|done|by apply timers_kept_same|done|].
  exists s'. split; [|done]. unfold exec, bind at 1, self, bind at 1, gets, from_opt. rewrite Hc.
  unfold bind. by rewrite (suspend_run s t th) by (done || by apply si_kinv).
Qed.

(** Suspending another thread: the caller goes on. *)
Lemma exec_suspend s t th u uh :
  sys_inv s → caller s t th → u ≠ idle → u ≠ t → k_thr s !! u = Some uh → stat_of uh ≠ RT_THREAD_CLOSE →
  ∃ s', exec (CSuspend u) s = Some (tt, s') ∧ keeps (Call t (CSuspend u)) s s'.
Proof.
  intros HI Hca Hid Hut Hu Hcl. pose proof (si_kinv _ HI) as HK. pose proof Hca as (Hc & Ht & Hr & _).
  destruct (decide (stat_of uh = RT_THREAD_READY ∨ stat_of uh = RT_THREAD_RUNNING)) as [Ha|Ha].
  - exists (suspend_st u uh s). split; [unfold exec, bind; by rewrite (suspend_run s u uh)|].
    assert (∀ v, v ≠ u → k_thr (suspend_st u uh s) !! v = k_thr s !! v) as Hoth.
    { intros v Hv. unfold k_thr. cbn. by rewrite lookup_insert_ne. }
    eapply (keeps_intro _ u); [done|by apply kinv_suspend|by apply timers_kept_same|done|done|done| | | |done| | |].
    + exists t, th. by rewrite Hoth.
    + destruct (si_idle _ HI) as (ih & ? & ?). exists ih. by rewrite Hoth.
    + eapply (sems_keep s); [apply (h_sems (si_h _ HI))|done|done|]. intros a v. unfold k_tl, suspend_st. cbn.
      rewrite tlist_remove, list_elem_of_filter. naive_solver.
    + intros v vh Hv Hvc. by apply (suspend_open s u uh v vh).
    + intros n Hw. by destruct (waits_not_awake s u n uh HK Hw Hu).
    + intros b Hb Hst. cbn in Hst. destruct (Hb Hst) as (v & vh & Hv & Hvh & Hvr & Hna).
      exists v, vh. unfold k_cur in Hc. rewrite Hv in Hc. injection Hc as ->. cbn. rewrite lookup_insert_ne by done.
      split_and!; [done|done|done|]. intros w wh. cbn. rewrite lookup_insert. case_decide; [|apply Hna].
      intros [= <-] Hw. rewrite stat_of_set_stat in Hw by stat_lia. stat_lia.
  - exists s. split.
    + unfold exec, bind, rt_thread_suspend, bind. rewrite (assert_thread_run s u _ _ (kinv_objs s u uh HK Hu Hcl)) by done.
      unfold get_thread. rewrite Hu. rewrite !(proj2 (Z.eqb_neq _ _)) by tauto. reflexivity.
    + eapply (keeps_acted _ (λ _, False)); [done|apply HI|apply acted_refl|]. auto.
Qed.

Lemma exec_sleep s t th n :
  sys_inv s → caller s t th → t ≠ idle → 0 ≤ n < HALF →
  ∃ s', exec (CSleep n) s = Some (tt, s') ∧ keeps (Call t (CSleep n)) s s' ∧ waits s' t n.
Proof.
  intros HI Hca Hid Hn. pose proof (si_kinv _ HI) as HK. pose proof Hca as (Hc & Ht & Hr & _). pose proof (caller_active _ _ _ Hca) as Ha.
  pose proof (kinv_suspend s t th HK Ht Ha) as HI1.
  destruct (suspend_cur_st t th s) as (_ & Ht1 & Hs1).
  assert (u32 n = n) as Hu.
  { apply wrap_small. unfold HALF, RT_TICK_MAX in Hn. change (0xffffffff / 2) with 2147483647 in Hn. lia. }
  destruct (arm_run (suspend_st t th s) t _ n HI1 Ht1 Hs1 ltac:(lia)) as (s2 & s3 & R2 & R3 & Harm).
  destruct Harm as (HI3 & Hsc & Hip & Htk & Hin & Hoff & Hob).
  destruct (resched_suspended (Call t (CSleep n)) s s3 t th) as (s' & Hrun & Hk & HT); [done|done|done|done|done|done| |done|].
  { eapply timers_kept_trans; [|exact Htk]. by apply timers_kept_same. }
  exists s'. split_and!; [|done|].
  - unfold exec, rt_thread_sleep, bind, self, bind, gets, from_opt. rewrite Hc.
    rewrite (assert_thread_run s t _ _ (kinv_objs s t th HK Ht ltac:(stat_lia))) by done.
    rewrite (suspend_run s t th) by done. by rewrite R2, R3, Hrun.
  - unfold waits, k_rows. rewrite HT. rewrite Hu in Hoff. done.
Qed.

(** ** Semaphores *)

Lemma exec_take s t th a time :
  sys_inv s → caller s t th → is_Some (ip_sem (k_ipc s) !! a) → t ≠ idle ∨ time = 0 → time < HALF →
  ∃ s', exec (CTake a time) s = Some (tt, s') ∧ keeps (Call t (CTake a time)) s s'.
Proof.
  intros HI Hca [[v] Hv] Hid Htime. pose proof (si_kinv _ HI) as HK. pose proof Hca as (Hc & Ht & Hr & _).
  destruct (h_sems (si_h _ HI) a v Hv) as (x & Hok). pose proof Hok as ((Hx1 & Hx2 & Hfl) & _ & Hrg & Hl).
  destruct (decide (v = 0 ∧ time ≠ 0)) as [[-> Htz]|Hcase].
  - destruct (sem_block_run s a x t th time HK Hok Hca Htz Htime) as (s' & Hrun & Hok' & Hpost).
    destruct Hpost as (HI' & Hip & Hob & Ht' & Hla & Hoth & (_ & Htk & Hlk & Hiq) & Hmv & Hhi).
    assert (t ≠ idle) as Hne by tauto.
    assert (runs_highest (k_sched s')) as Hh by (by apply (Hhi idle (not_eq_sym Hne) (h_lock (si_h _ HI))), (idle_ready s t)).
    exists s'. split; [unfold exec, bind; by rewrite Hrun|].
    eapply (keeps_intro _ t); [done|done|done|done|done|done|by apply runs_highest_running| | | | | |done].
    + destruct (si_idle _ HI) as (ih & Hi & Hia). destruct (Hmv idle ih (not_eq_sym Hne) Hi) as (ih' & Hi' & Hst).
      exists ih'. split; [done|]. destruct (stat_moves_stat _ _ Hst) as [E|[_ ?]]; [|done]. unfold active. by rewrite E.
    + eapply (sems_update s s' a); [apply (h_sems (si_h _ HI))|done|by rewrite Hip|done|]. intros b Hb. apply Hoth; [done|congruence].
    + by rewrite Hip.
    + intros u uh Hu Hcl. destruct (decide (u = t)) as [->|Hne'].
      * eexists. split; [exact Ht'|]. rewrite stat_of_set_stat; stat_lia.
      * destruct (Hmv u uh Hne' Hu) as (uh' & Hu' & Hst). exists uh'. split; [done|].
        destruct (stat_moves_stat _ _ Hst) as [->|[_ [E|E]]]; [done|rewrite E; stat_lia..].
    + intros n Hw. by destruct (caller_not_waiting s t th n HK Hca).
  - unfold exec, bind at 1, rt_sem_take, bind at 1. rewrite (assert_type_run s (Obj a) x) by done.
    unfold bind at 1. rewrite (get_sem_run s a v) by done. cbn [sem_value].
    destruct (Z.ltb_spec 0 v) as [Hpos|Hneg].
    + eexists. split; [reflexivity|].
      assert (sem_ok a (upd_ipc (λ i, set_sem (<[a := mk_sem (u16 (v - 1))]> (ip_sem i)) i) s) (v - 1) x) as Hok'.
      { split; [done|]. split_and!; [|lia|lia|intros _; by apply Hl].
        cbn. rewrite lookup_insert_eq. by rewrite wrap_small by lia. }
      eapply (keeps_intro _ idle); [done|by apply kinv_ipc|by apply timers_kept_same|done|done|done|apply (h_run (si_h _ HI))|
        apply (si_idle _ HI)| | |eauto| |auto].
      * eapply (sems_update s _ a); [apply (h_sems (si_h _ HI))|exact Hok'| |done|done]. intros b Hb. cbn. by rewrite lookup_insert_ne.
      * intros b Hb. cbn. rewrite lookup_insert. case_decide; [by eexists|done].
      * intros n _. apply (si_idle _ HI).
    + assert (time = 0) as -> by lia. exists s. split; [done|].
      eapply (keeps_acted _ (λ _, False)); [done|apply HI|apply acted_refl|]. auto.
Qed.

(** Every allowed call returns and keeps the invariant. *)
Lemma exec_run s t th c :
  sys_inv s → caller s t th → allowed s t c → ∃ s', exec c s = Some (tt, s') ∧ keeps (Call t c) s s'.
Proof.
  intros HI Hca Hal. destruct c; cbn in Hal.
  - by eapply exec_yield.
  - destruct (exec_sleep s t th tick0 HI Hca) as (s' & ? & ? & _); [tauto..|]. by exists s'.
  - destruct Hal as (? & ? & uh & ? & ?). by eapply exec_suspend.
  - by eapply exec_suspend_self.
  - destruct Hal as (? & ? & ?). by eapply exec_take.
  - by eapply exec_act.
Qed.

(** ** Ticks *)

Lemma tick_sys progs s :
  sys_inv s → progs_ok P V U progs s →
  ∃ s', tick progs s = Some (tt, s') ∧ sys_inv s' ∧
    (∀ u n, waits s u n → 1 < n ∧ waits s' u (n - 1) ∨ awake s' u) ∧
    (runs_highest (k_sched s) → runs_highest (k_sched s')) ∧
    ∀ a, tm_timeout_func <$> k_tim s' !! Obj a = tm_timeout_func <$> k_tim s !! Obj a.
Proof.
  intros HI Hok. destruct (tick_run P V U progs s (S (length (k_rows s))) (si_h _ HI) Hok ltac:(lia)) as (s' & Hrun & [K1 K2 K3 K4 K5 K6 K7 K8 K9]).
  exists s'. split_and!; [done|split; [done|by rewrite K3; apply HI|apply K5, HI]| |done|done].
  intros u n [Hin <-]. destruct (K9 u Hin) as [(? & ? & ?)|(_ & uh & ? & ? & _)]; [by left|right]. by exists uh.
Qed.

(** ** Steps and runs *)

Lemma step_inv s l s' :
  sys_inv s → step s l s' → sys_inv s' ∧
  (∀ b, (b = true → runs_highest (k_sched s)) → settles b l = true → runs_highest (k_sched s')) ∧
  ∀ a, tm_timeout_func <$> k_tim s' !! Obj a = tm_timeout_func <$> k_tim s !! Obj a.
Proof.
  intros HI Hst. destruct Hst as [t th c s' Hca Hal Hx|progs s' Hok Hx].
  - destruct (exec_run s t th c HI Hca Hal) as (s1 & Hx1 & []). rewrite Hx in Hx1. injection Hx1 as <-. done.
  - destruct (tick_sys progs s HI Hok) as (s1 & Hx1 & Hk & _ & Hh & Hf). rewrite Hx in Hx1. injection Hx1 as <-.
    split_and!; [done| |done]. intros b Hb Hs. cbn in Hs. auto.
Qed.


(** The number of ticks in a run. *)
Fixpoint ticks (ls : list label) : Z :=
  match ls with
  | [] => 0
  | Tick _ :: ls => 1 + ticks ls
  | Call _ _ :: ls => ticks ls
  end.

Lemma run_waits s ls s' u n :
  run s ls s' → sys_inv s → waits s u n → Z.max 1 n ≤ ticks ls →
  ∃ ls1 ls2 s1, ls = ls1 ++ ls2 ∧ run s ls1 s1 ∧ run s1 ls2 s' ∧ ticks ls1 ≤ Z.max 1 n ∧ awake s1 u.
Proof.
  intros Hr. revert n. induction Hr as [s|s l s1 ls s2 Hst Hr IH]; intros n HI Hw Hn; [cbn in Hn; lia|].
  pose proof (proj1 (step_inv _ _ _ HI Hst)) as HI1.
  assert (∀ m, waits s1 u m → Z.max 1 m ≤ ticks ls → ticks [l] + Z.max 1 m ≤ Z.max 1 n →
    ∃ ls1 ls2 s', l :: ls = ls1 ++ ls2 ∧ run s ls1 s' ∧ run s' ls2 s2 ∧ ticks ls1 ≤ Z.max 1 n ∧ awake s' u) as Hgo.
  { intros m Hm Hle Hb. destruct (IH m HI1 Hm Hle) as (ls1 & ls2 & s' & -> & R1 & R2 & Ht & Ha).
    exists (l :: ls1), ls2, s'. split_and!; [done|by econstructor|done| |done].
    destruct l; cbn in *; lia. }
  assert (awake s1 u → ticks [l] ≤ 1 →
    ∃ ls1 ls2 s', l :: ls = ls1 ++ ls2 ∧ run s ls1 s' ∧ run s' ls2 s2 ∧ ticks ls1 ≤ Z.max 1 n ∧ awake s' u) as Hnow.
  { intros Ha Hb. exists [l], ls, s1. split_and!; [done|by econstructor; [|constructor]|done|lia|done]. }
  destruct Hst as [t th c s1 Hca Hal Hx|progs s1 Hok Hx].
  - destruct (exec_run s t th c HI Hca Hal) as (s3 & Hx1 & Hk). rewrite Hx in Hx1. injection Hx1 as <-.
    destruct (kp_waits _ _ _ Hk u n Hw) as [Hw1|Ha]; [|by apply Hnow]. apply (Hgo n); [done|exact Hn|cbn; lia].
  - destruct (tick_sys progs s HI Hok) as (s3 & Hx1 & _ & Hk & _). rewrite Hx in Hx1. injection Hx1 as <-.
    destruct (Hk u n Hw) as [[Hlt Hw1]|Ha]; [|by apply Hnow]. cbn [ticks] in Hn.
    apply (Hgo (n - 1)); [done|lia|]. change (ticks [Tick progs]) with 1. lia.
Qed.

(** * Properties *)




(** A thread that sleeps for [n] ticks is suspended with its timer set, and awake again
    by the time of the [n]-th tick. *)
Theorem system_sleep_wakes s t th n s1 ls s' :
  sys_inv s → caller s t th → t ≠ idle → 1 ≤ n < HALF →
  step s (Call t (CSleep n)) s1 → run s1 ls s' → n ≤ ticks ls →
  thread_stat s1 t = Some RT_THREAD_SUSPEND ∧
  ∃ ls1 ls2 s2, ls = ls1 ++ ls2 ∧ run s1 ls1 s2 ∧ run s2 ls2 s' ∧ ticks ls1 ≤ n ∧ awake s2 t.
Proof.
  intros HI Hca Hid Hn Hst Hr Hle. destruct (exec_sleep s t th n HI Hca Hid ltac:(lia)) as (s2 & Hx & Hk & Hw).
  inversion Hst as [t' th' c s1' Hca' Hal Hx'|]; subst. rewrite Hx in Hx'. injection Hx' as <-. split.
  - destruct (ki_wait _ (proj1 (si_kinv _ (kp_inv _ _ _ Hk))) t (proj1 Hw)) as (h & Hh & Hs).
    unfold thread_stat. rewrite Hh. cbn. by rewrite Hs.
  - pose proof (run_waits s2 ls s' t n Hr (kp_inv _ _ _ Hk) Hw) as H. rewrite Z.max_r in H by lia. by apply H.
Qed.
End system.

(** * Instances *)

(** The demo system of Callback.v, with thread 4 as its idle thread. *)
Abbreviation demo_run := (run 4 demo_P (λ a, a = 101) (λ u, u = 5)).
Abbreviation demo_inv := (sys_inv 4 demo_P (λ a, a = 101) (λ u, u = 5)).

Lemma demo_sys : demo_inv (demo_cb 100).
Proof.
  split; [apply demo_cb_hinv; by left|reflexivity|].
  exists (demo_thread 20 RT_THREAD_READY). split; [reflexivity|by left].
Qed.



(** A step computed. *)
Lemma demo_call s t c s' :
  exec c s = Some (tt, s') → k_cur s = Some t →
  (match k_thr s !! t with Some th => stat_of th =? RT_THREAD_RUNNING | None => false end) = true →
  sc_irq_nest (k_sched s) = 0 → allowed 4 demo_P (λ a, a = 101) (λ u, u = 5) s t c →
  step 4 demo_P (λ a, a = 101) (λ u, u = 5) s (Call t c) s'.
Proof.
  intros Hx Hc Ht Hi Ha. destruct (k_thr s !! t) as [th|] eqn:E; [|done]. apply Z.eqb_eq in Ht.
  eapply (step_call _ _ _ _ _ t th); [by split_and!|done|done].
Qed.




Lemma demo_ticks_run m : ∀ s, demo_inv s → progs_ok demo_P (λ a, a = 101) (λ u, u = 5) demo_progs s →
  ∃ s', demo_run s (replicate m (Tick demo_progs)) s'.
Proof.
  induction m as [|m IH]; intros s HI Hok; [exists s; constructor|].
  destruct (tick_sys 4 demo_P (λ a, a = 101) (λ u, u = 5) demo_progs s HI Hok) as (s1 & E1 & HI1 & _ & _ & Hf).
  destruct (IH s1 HI1) as (s2 & Hr); [by eapply progs_ok_fn|]. exists s2. cbn. econstructor; [by constructor|done].
Qed.


Lemma system_sleep_wakes_witness :
  ∃ s1 ls1 s2, demo_run (demo_cb 100) [Call 1 (CSleep 2)] s1 ∧ demo_run s1 ls1 s2 ∧ ticks ls1 ≤ 2 ∧ awake s2 1.
Proof.
  destruct (exec (CSleep 2) (demo_cb 100)) as [[[] s1]|] eqn:E1; [|vm_compute in E1; discriminate].
  assert (step 4 demo_P (λ a, a = 101) (λ u, u = 5) (demo_cb 100) (Call 1 (CSleep 2)) s1) as H1
    by (by apply demo_call; [|reflexivity..|]).
  destruct (step_inv _ _ _ _ _ _ _ demo_sys H1) as (HI1 & _ & Hf).
  destruct (demo_ticks_run 2 s1 HI1) as (s' & Hr); [by eapply progs_ok_fn; [apply demo_progs_ok|]|].
  destruct (system_sleep_wakes 4 demo_P (λ a, a = 101) (λ u, u = 5) (demo_cb 100) 1 (demo_thread 10 RT_THREAD_RUNNING) 2 s1
    (replicate 2 (Tick demo_progs)) s') as (_ & ls1 & _ & s2 & _ & R1 & _ & R2 & R3);
    [apply demo_sys|by split_and!|done|by vm_compute|done|done|by vm_compute|].
  exists s1, ls1, s2. split_and!; [by econstructor; [|constructor]|done|done|done].
Defined.
